(* ===== verification/_CoqProject ===== *)
-Q . S2P
Prelude.v
Layout.v
Store.v
FlashStore.v
Sim.v
SlotIndexIface.v
SlotIndexHash.v
SlotIndexLaws.v
Image.v
Core.v
CoreRead.v
Lookup.v
Append.v
Bucket.v
Compact.v
CompactImage.v
Recovery.v
CompactSpec.v
Ops.v
OpsRead.v
OpsWrite.v
Master.v
MasterSpec.v
MasterInv.v
Mount.v
MountSpec.v
Session.v
Segments.v
SegBase.v
SegIo.v
SegRead.v
SegSweep.v
SegWrite.v
SegPatch.v
SegOps.v
SegMount.v
SegRuns.v
Inspect.v
UbiStore.v
UbiSpec.v
UbiSim.v
BlobIface.v
BlobDb.v
Records.v
Logring.v
LogringSpec.v
RootReg.v
RootRegSpec.v
KvHash.v
KvHashRep.v
KvHashRead.v
KvHashOps.v
KvHashSet.v
KvHashCreate.v
KvHashWalk.v
KvHashDestroy.v
KvHashRuns.v
Kvdb.v
KvdbSpec.v
Blobfs.v
BlobfsSpec.v
BlobfsOps.v
BlobfsMeta.v
BlobfsSteps.v
BlobfsTree.v
BlobfsMount.v
KvCorrect.v
Correctness.v
Demo.v
Witness.v
StackDemo.v
KvWitness.v
FsCorrect.v
LogCorrect.v
SegCorrect.v
StoreCorrect.v
Findings.v
