(* ===== verification/Prelude.v ===== *)
(** * blob_db: a verified model of the object store

    blob_db (src/lib/blob_db) is an append-only object store for flash parts: 64-bit
    ids map to payloads, a partition is divided into erase blocks, blocks 0 and 1
    hold the master record log, block 2 is the scratch block of compaction, and
    every other block is a bucket, the log of the objects whose id falls to it. A
    RAM index remembers where the newest slot of an id lies. Builds with and without
    CONFIG_BLOB_DB_LARGE_PAYLOADS are modelled: what lies below the operations
    takes the option from its [config], the operations with it are those of
    Segments, those without it of Ops. The SLOT_INDEX_VERIFY self-check, logging,
    I/O counters and the mutex (every public call runs alone) are left out.
    Integers are Z with the wrap-around of the C type written out where it can
    happen; a [size_t] is 32 bits wide.

    ** The files

    - Prelude: machine integers, the state-and-error monad [M] with its weakest
      preconditions [wp], byte strings ([slice], [splice], little endian), and
      [while64], the loops of C whose turns a stored 64-bit count bounds.
    - Layout: blob_db_internal.h, the packed records with encoders and decoders.
      CRC32 and CRC16 are parameters ([Crc], [CrcLaws]).
    - Store: blob_db_store.h as a class of operations with the contract of
      doc/layers/l0_flash.md ([StoreLaws]). A program that is cut leaves, inside
      the range written, some of the bits it was to clear, and if its first byte
      still reads erased then nothing ([prog_torn]); no other block is touched. A closed device is
      [bootable] when nothing stands in the way of the next open.
    - FlashStore: blob_db_store_flash.c over a flash area that keeps its own
      contract, and the proof that it keeps [StoreLaws].
    - Sim: the CRCs of the code and a NOR part with scheduled faults, so that
      everything below can be run.
    - UbiStore: blob_db_store_ubi.c over a UBI library, a key store, a heap and a
      flash area given as classes, and the proof that it keeps [StoreLaws] too.
      UbiSpec: what an open does to a partition that is not UBI's, to the heap and
      to the keys, and the damage it reports. UbiSim: a device to run it on.
    - SlotIndexIface: blob_db_slot_index.h, the calls and what blob_db may rely on.
      SlotIndexHash, SlotIndexLaws: blob_db_slot_index.c, its table invariant, and
      the proof that it keeps the contract.
    - Image: reading a bucket image in RAM (slot_walk_at() and what uses it), and
      the log a bucket image stands for. Core: the mount state [st], the streamed
      lookups, append_slot2(). CoreRead, Lookup, Append, Bucket: the
      invariant [db_inv] of a store and what reads and appends do to it.
    - Compact: build_compacted_image() to recover_compaction(). CompactImage,
      Recovery, CompactSpec: compaction keeps the contents, and a cut one is
      recovered.
    - Ops: get, update, delete, exists, size, read, write, count, iterate. OpsRead,
      OpsWrite: what each does, on every branch, and what a cut leaves.
    - Master: the master record log and alloc_id. MasterSpec, MasterInv: the id
      ceiling on flash covers every id handed out, whatever fails.
    - Mount: open, mount, format, erase_all, maintain and the public calls.
      MountSpec: what mount and format establish.
    - Session: the abstract object store and the simulation of the public calls.
    - Segments: large payloads, an object as segment slots under ids of their own
      and an index slot whose append commits it: geometry, index cache, placement,
      sweep, the operations, mount and format; and its records. SegBase: the
      invariant [lsession] of such a store, the [object] an id shows, and what the
      calls below do to it. SegIo, SegRead, SegSweep, SegWrite, SegPatch: writing
      and releasing segments, reading through the index, the sweep, the update and
      the positioned write of a segmented object. SegOps: update, delete and write.
      SegMount: geometry, mount, format. SegRuns: the abstract store and the
      simulation of the public calls.
    - Inspect: blob_db_inspect.c and its hooks in blob_db.c, the figures of the
      store and of a bucket, and what they mean for the log.
    - BlobIface: the calls of blob_db.h as the layers above make them, a class
      [Blobs] whose laws [BlobLaws] speak of a finite map of objects. A failed call
      may have changed nothing or, where the store [tears], all it was asked to; it
      is an instance on a store in RAM and on a wrapper that fails at will. BlobDb:
      a session of blob_db is an instance. Records: packed little-endian fields.
    - RootReg: rootreg.c, the name table in object 1. RootRegSpec: it is a finite
      map from keys to root ids.
    - KvHash: kvhash.c, a hash map kept in objects: a directory of buckets, two
      levels of them for a large map, each bucket a packed run of entries whose key
      or value may be spilled to an object of its own. KvHashRep: the tree of
      directories, buckets and spilled parts the objects stand for ([tree_ok],
      [stored]), and the finite map of a tree. KvHashRead, KvHashOps, KvHashSet,
      KvHashCreate, KvHashWalk, KvHashDestroy: each operation against that map.
      KvHashRuns: sequences of calls.
    - Kvdb: kvdb.c, named maps over the registry and kvhash. KvdbSpec: the
      names, the identity record that tells a collision of name hashes, and
      sequences of calls by a client that keeps handles.
    - Logring: logring.c, a ring of records kept as a chain of objects from a root.
      LogringSpec: the queue a root leads to.
    - Blobfs: blobfs.c, a file tree whose directories are kvhash maps. BlobfsSpec:
      paths and the tree of names and files. BlobfsOps: the tree in the store, the
      resolution of a path and the changes to one directory. BlobfsMeta: the meta
      object, the intent of a rename and its recovery. BlobfsSteps, BlobfsTree,
      BlobfsMount: each call against the tree, and sequences of calls by a client
      that keeps the ids of open files.
    - Correctness, StoreCorrect, SegCorrect, KvCorrect, LogCorrect, FsCorrect: the
      properties, one theorem each. Demo, Witness, StackDemo, KvWitness, and the
      second half of StoreCorrect, SegCorrect, LogCorrect and FsCorrect: concrete
      systems, up to kvdb on a flash part and blob_db on a UBI device, and each
      theorem applied to them. LogCorrect opens with the client of logring, a
      handle and a cursor, whose power may go between calls.
      Findings: places where the code and its comments part.

    ** What is shown

    A mounted store on a device that works refines the abstract object store of
    Session, call by call and over remounts (C1), with ids never reissued (C8,
    C9) and space refused only when there is none (C11). On a device that may fail in any operation, update, delete and write are atomic across the next mount (C2
    to C4), the mounted store stays sound or wedges (C5, C20), compaction loses
    nothing (C15 to C17) and the id ceiling survives a failed commit (C10). Format,
    mount, iterate and lookup are C6, C7, C13, C14; inspecting a bucket tells what is
    in it and changes nothing (C29). The interfaces below are C21 to C24; the UBI
    backend keeps the same contract over an intact device and tells of the damage it
    was told of (C28), and leaves a partition it does not know alone unless asked to
    discard it (C19). A torn write whose
    checksum verifies all the same is named in the statements ([mishap],
    [stray_seal], [stray_master]): no check of the code can tell it apart.

    With large payloads the store refines an object store whose objects outgrow a
    slot, call by call and over remounts (C12); a build whose largest object does
    not fit is turned away (C18); a mount after a write that stopped between two
    slots finds every object as it was (C25); the sweep ends and spares every object
    (C26); a positioned write patches the object or changes nothing (C27). These
    hold on a device that works.

    Above the store, blob_db is a finite map of objects (C30), the root registry a
    finite map of names (C31) that never overwrites a root it does not own (C32),
    and kvhash a finite map from keys to values, call by call on a store that may
    fail (C33), with [kvhash_set()] exact about what fits (C34), create giving an
    empty map of the geometry declared (C35), a walk passing each entry once (C36)
    and destroy resumable (C37). kvdb is a family of named finite maps, over opens
    and closes (C38); logring a bounded queue whose records on flash are at all times
    an end of those acknowledged (C39); blobfs a tree of directories and files that
    is well formed whatever fails and wherever the power goes between two calls,
    with a rename half done told by its intent (C40).

    ** Bounds

    Loops of the code that are not structural run on fuel: a bucket walk on
    [walk_fuel], one step per byte of a block, where a slot has at least 14 bytes;
    the binary search of the master log on the number of record slots; the probes
    of the index on its capacity, of which one eighth is kept free. The lemmas
    prove the answer of each loop with that fuel, so none ever runs out. A read
    through an index of segments runs on the bytes asked for, each turn taking one
    or more; the sweep of a bucket runs on [while64], and ends because a turn either
    moves on or buries a live slot; the walk of inspection down from the end of a
    block runs on its bytes, and the check of a blank partition on one step per 256
    bytes and one more, enough to pass its end ([blank_loop_spec]). In kvhash a
    bucket is walked on its length in bytes, an entry having at least four; a key is
    compared on its length, a chunk at a time; loops over a directory run on its
    fan-out. The search of derive_geometry() for a square root runs on 65536 steps,
    which answers every count up to 65535 * 65535; past that the C loop wraps and
    may never end ([side_loop_endless]), and the model answers -EINVAL. logring's
    walks run on [while64], which takes up to 2^64 turns without computing that
    number; a walk ends at the frontier of the log, whose length is below it. A path
    of blobfs is walked on its length, a component being at least a byte. A listing
    and a walk of the client run on fuel the client names. The theorems on runs of
    calls ask for room for the ids the calls may take ([kd_cost], [fs_cost] each).

    ** Not modelled

    The shell and the background work item, the adapter of blobfs to Zephyr's file
    system switch, and the applications. UBI, PSA Crypto, the heap and the
    application's hooks are parameters of the UBI backend: their code is not in the
    repository. Its build is one without the work item. The test cuts of large
    payloads.
    The test hooks of kvhash and what the libraries log. The padding at the end of
    the meta object of blobfs is zero in the model; C leaves it open, and nothing
    reads it. Power is lost between the calls of the layers above blob_db, and
    inside one only as a failure of the store; blob_db itself is cut at any byte.
    Mounting in doubt and the upgrade path are modelled but only their clean case is
    specified so far; so are erase_all, maintain and logring_destroy. [lsession]
    asks that every slot header in a formatted bucket, rotten ones included, names
    an id of that bucket ([heads_by]): the sweep hands the id of a header to the
    lookup before any checksum was verified. *)

From stdpp Require Export base list numbers option tactics.
From Stdlib Require Export ZArith Lia.

#[export] Set Default Goal Selector "!".

Declare Scope kv_scope.
Delimit Scope kv_scope with kv.
#[global] Open Scope Z_scope.

(** * Integers at their width

    C integers are [Z] values; the places where the source can wrap write the
    reduction out with these. *)

Definition u8 (z : Z) : Z := z mod 2 ^ 8.
Definition u16 (z : Z) : Z := z mod 2 ^ 16.
Definition u32 (z : Z) : Z := z mod 2 ^ 32.
Definition u64 (z : Z) : Z := z mod 2 ^ 64.

Definition UINT16_MAX : Z := 65535.
Definition UINT32_MAX : Z := 4294967295.

Lemma u16_small z : 0 <= z < 65536 -> u16 z = z.
Proof. intros H. unfold u16. apply Z.mod_small. lia. Qed.

Lemma u32_small z : 0 <= z < 4294967296 -> u32 z = z.
Proof. intros H. unfold u32. apply Z.mod_small. lia. Qed.

Lemma u64_small z : 0 <= z < 2 ^ 64 -> u64 z = z.
Proof. intros H. unfold u64. apply Z.mod_small. lia. Qed.

(** [ROUND_UP(x, a)] of Zephyr's sys/util.h for a power of two, as the source
    spells it: [(x + a - 1) & ~(a - 1)]. *)
Definition round_up (x a : Z) : Z := Z.land (x + a - 1) (Z.lnot (a - 1)).

(** Powers of two up to the largest write unit the library accepts. *)
Definition pow2_le32 (a : Z) : Prop :=
  a = 1 \/ a = 2 \/ a = 4 \/ a = 8 \/ a = 16 \/ a = 32.

Lemma land_lnot_pow2 x k : 0 <= k -> Z.land x (Z.lnot (2 ^ k - 1)) = x - x mod 2 ^ k.
Proof.
  intros Hk. rewrite <- Z.ldiff_land.
  replace (2 ^ k - 1) with (Z.ones k) by (rewrite Z.ones_equiv; lia).
  rewrite Z.ldiff_ones_r by lia.
  rewrite Z.shiftr_div_pow2, Z.shiftl_mul_pow2 by lia.
  pose proof (Z.div_mod x (2 ^ k)) as Hd.
  assert (0 < 2 ^ k) by (apply Z.pow_pos_nonneg; lia). lia.
Qed.

Lemma pow2_le32_log a : pow2_le32 a -> exists k, 0 <= k /\ a = 2 ^ k.
Proof.
  unfold pow2_le32. intros H.
  destruct H as [->|[->|[->|[->|[->| ->]]]]];
    [exists 0|exists 1|exists 2|exists 3|exists 4|exists 5]; split; (lia || reflexivity).
Qed.

Lemma pow2_le32_pos a : pow2_le32 a -> 1 <= a <= 32.
Proof. unfold pow2_le32. lia. Qed.

Lemma round_up_spec x a :
  pow2_le32 a ->
  x <= round_up x a < x + a /\ round_up x a mod a = 0.
Proof.
  intros Ha. pose proof (pow2_le32_pos a Ha) as Hpos.
  destruct (pow2_le32_log a Ha) as (k & Hk & Ek).
  unfold round_up.
  assert (Z.land (x + a - 1) (Z.lnot (a - 1)) = x + a - 1 - (x + a - 1) mod a) as ->
    by (rewrite Ek; apply land_lnot_pow2; lia).
  pose proof (Z.mod_pos_bound (x + a - 1) a ltac:(lia)).
  split; [lia|].
  rewrite Zminus_mod_idemp_r, Z.sub_diag. apply Z.mod_0_l. lia.
Qed.

(** * Error codes

    The negative errno values the library returns and tests. [EDEV n] is any
    other code a device driver reports. Only equality of codes matters to the
    source, except for [EPERM], whose value 1 the source also uses as a
    sentinel. *)

Inductive errno :=
  | EPERM | ENOENT | EIO | EAGAIN | ENOMEM | EEXIST | ENODEV | EINVAL | EFBIG
  | ENOSPC | EBADMSG | ENOTSUP | EALREADY | EMSGSIZE | ESTALE | ENODATA | EILSEQ
  | ENOTDIR | EISDIR | ENAMETOOLONG | ENOTEMPTY | EXDEV | EBADF | EBUSY | EACCES
  | EMFILE | EINTR | EINPROGRESS | EDEV (n : nat).

#[global] Instance errno_eq_dec : EqDecision errno.
Proof. solve_decision. Defined.

(** The result of a fallible C function: its out-parameters, or a negative
    errno. *)
Inductive res (A : Type) :=
  | Ok (a : A)
  | Err (e : errno).
Arguments Ok {A} _.
Arguments Err {A} _.

Definition is_ok {A} (r : res A) : bool := match r with Ok _ => true | Err _ => false end.

(** * The state-and-error monad the C code is translated into *)

Definition M (S A : Type) : Type := S -> res A * S.

Definition mret {S A} (a : A) : M S A := fun s => (Ok a, s).
Definition mfail {S A} (e : errno) : M S A := fun s => (Err e, s).
Definition mbnd {S A B} (m : M S A) (k : A -> M S B) : M S B :=
  fun s => match m s with
           | (Ok a, s') => k a s'
           | (Err e, s') => (Err e, s')
           end.

(** [rc = f(...)] where the code looks at [rc] itself. *)
Definition mtry {S A} (m : M S A) : M S (res A) :=
  fun s => let (r, s') := m s in (Ok r, s').
Definition mgets {S A} (f : S -> A) : M S A := fun s => (Ok (f s), s).
Definition mmod {S} (f : S -> S) : M S unit := fun s => (Ok tt, f s).
Definition mlift {S A} (r : res A) : M S A := fun s => (r, s).

Notation "'let*' x ':=' m 'in' k" := (mbnd m (fun x => k))
  (at level 200, x binder, m at level 100, k at level 200, right associativity) : kv_scope.
Notation "m ';;;' k" := (mbnd m (fun _ => k))
  (at level 90, right associativity) : kv_scope.
#[global] Open Scope kv_scope.

(** [wp m s Q]: the result and the final state of [m] from [s] satisfy [Q]. *)
Definition wp {S A} (m : M S A) (s : S) (Q : res A -> S -> Prop) : Prop :=
  let (r, s') := m s in Q r s'.

Section wp.
Context {S : Type}.

Lemma wp_ret {A} (a : A) s (Q : res A -> S -> Prop) : Q (Ok a) s -> wp (mret a) s Q.
Proof. done. Qed.

Lemma wp_fail {A} e s (Q : res A -> S -> Prop) : Q (Err e) s -> wp (mfail e) s Q.
Proof. done. Qed.

Lemma wp_gets {A} (f : S -> A) s Q : Q (Ok (f s)) s -> wp (mgets f) s Q.
Proof. done. Qed.

Lemma wp_mod (f : S -> S) s Q : Q (Ok tt) (f s) -> wp (mmod f) s Q.
Proof. done. Qed.

Lemma wp_bnd {A B} (m : M S A) (k : A -> M S B) s Q :
  wp m s (fun r s' => match r with Ok a => wp (k a) s' Q | Err e => Q (Err e) s' end) ->
  wp (mbnd m k) s Q.
Proof. unfold wp, mbnd. destruct (m s) as [[a|e] s']; done. Qed.

Lemma wp_try {A} (m : M S A) s Q : wp m s (fun r s' => Q (Ok r) s') -> wp (mtry m) s Q.
Proof. unfold wp, mtry. destruct (m s); done. Qed.

Lemma wp_mono {A} (m : M S A) s (Q Q' : res A -> S -> Prop) :
  wp m s Q -> (forall r s', Q r s' -> Q' r s') -> wp m s Q'.
Proof. unfold wp. destruct (m s). eauto. Qed.

Lemma wp_run {A} (m : M S A) s (Q : res A -> S -> Prop) r s' :
  wp m s Q -> m s = (r, s') -> Q r s'.
Proof. unfold wp. intros H E. by rewrite E in H. Qed.

Lemma wp_out {A} (m : M S A) s (Q : res A -> S -> Prop) : wp m s Q -> Q (fst (m s)) (snd (m s)).
Proof. unfold wp. by destruct (m s). Qed.

Lemma wp_intro {A} (m : M S A) s (Q : res A -> S -> Prop) :
  (forall r s', m s = (r, s') -> Q r s') -> wp m s Q.
Proof. unfold wp. destruct (m s). eauto. Qed.
End wp.

(** [wp_step] walks through the straight-line part of a translated function. *)
Ltac wp_step :=
  lazymatch goal with
  | |- wp (mbnd _ _) _ _ => apply wp_bnd
  | |- wp (mret _) _ _ => apply wp_ret
  | |- wp (mfail _) _ _ => apply wp_fail
  | |- wp (mgets _) _ _ => apply wp_gets
  | |- wp (mmod _) _ _ => apply wp_mod
  | |- wp (mtry _) _ _ => apply wp_try
  | |- wp (if ?b then _ else _) _ _ => let E := fresh "E" in destruct b eqn:E
  end.
Ltac wp_use lem := eapply wp_mono; [eapply lem | cbv beta].

(** * Byte strings *)

Notation bytes := (list Z).

Definition len {A} (l : list A) : Z := Z.of_nat (length l).
Definition zt {A} (n : Z) (l : list A) : list A := take (Z.to_nat n) l.
Definition zd {A} (n : Z) (l : list A) : list A := drop (Z.to_nat n) l.

(** [n] elements from offset [off]: what [memcpy] from [buf + off] reads. *)
Definition slice {A} (off n : Z) (l : list A) : list A := zt n (zd off l).

(** [l] with the elements from [off] on overwritten by [r]: [memcpy] to it. *)
Definition splice {A} (off : Z) (r l : list A) : list A :=
  zt off l ++ r ++ zd (off + len r) l.

Definition byte_ok (b : Z) : Prop := 0 <= b < 256.
Definition bytes_ok (l : bytes) : Prop := Forall byte_ok l.

(** A run of erased flash, and the source's test for it. *)
Definition erased (n : Z) : bytes := replicate (Z.to_nat n) 255.
Definition all_erased (buf : bytes) : bool := forallb (fun b => b =? 255) buf.

(** [buf[off]] as a byte. *)
Definition byte_at (off : Z) (buf : bytes) : Z := default 0 (buf !! Z.to_nat off).

Create HintDb len discriminated.

Section lists.
Context {A : Type}.
Implicit Types l r : list A.

Lemma len_nonneg l : 0 <= len l.
Proof. unfold len. lia. Qed.

Lemma len_nil : len (@nil A) = 0.
Proof. done. Qed.

Lemma len_cons x l : len (x :: l) = 1 + len l.
Proof. unfold len. simpl. lia. Qed.

Lemma len_app l r : len (l ++ r) = len l + len r.
Proof. unfold len. rewrite length_app. lia. Qed.

Lemma len_zt n l : 0 <= n <= len l -> len (zt n l) = n.
Proof. unfold len, zt. intros H. rewrite length_take. lia. Qed.

Lemma len_zd n l : 0 <= n <= len l -> len (zd n l) = len l - n.
Proof. unfold len, zd. intros H. rewrite length_drop. lia. Qed.

Lemma len_slice off n l : 0 <= off -> 0 <= n -> off + n <= len l -> len (slice off n l) = n.
Proof. intros H1 H2 H3. unfold slice. apply len_zt. rewrite len_zd by lia. lia. Qed.

Lemma len_splice off r l : 0 <= off -> off + len r <= len l -> len (splice off r l) = len l.
Proof.
  intros H1 H2. pose proof (len_nonneg r). unfold splice.
  rewrite !len_app, len_zt, len_zd by lia. lia.
Qed.

Lemma lookup_slice off n l i :
  0 <= off -> slice off n l !! i = if decide (Z.of_nat i < n) then l !! (Z.to_nat off + i)%nat else None.
Proof.
  intros Hoff. unfold slice, zt, zd. case_decide.
  - rewrite lookup_take_lt by lia. by rewrite lookup_drop.
  - by rewrite lookup_take_ge by lia.
Qed.

Lemma lookup_splice off r l i :
  0 <= off -> off + len r <= len l ->
  splice off r l !! i =
    if decide (off <= Z.of_nat i < off + len r) then r !! (i - Z.to_nat off)%nat else l !! i.
Proof.
  intros H1 H2. pose proof (len_nonneg r) as Hr. unfold splice, len, zt, zd in *. case_decide.
  - rewrite lookup_app_r by (rewrite length_take; lia).
    rewrite lookup_app_l by (rewrite length_take; lia).
    rewrite length_take. f_equal. lia.
  - destruct (decide (Z.of_nat i < off)).
    + rewrite lookup_app_l by (rewrite length_take; lia). by rewrite lookup_take_lt by lia.
    + rewrite lookup_app_r by (rewrite length_take; lia).
      rewrite lookup_app_r by (rewrite length_take; lia).
      rewrite lookup_drop, length_take. f_equal. lia.
Qed.

Lemma lookup_ge_len l i : len l <= Z.of_nat i -> l !! i = None.
Proof. intros H. apply lookup_ge_None_2. unfold len in H. lia. Qed.

(** Two ways to read the same bytes agree element by element. *)
Lemma slice_slice a n b m l :
  0 <= a -> 0 <= b -> a + n <= m -> slice a n (slice b m l) = slice (b + a) n l.
Proof.
  intros Ha Hb Hn. apply list_eq. intros i. rewrite !lookup_slice by lia.
  repeat case_decide; try lia; try done. f_equal. lia.
Qed.

Lemma slice_splice_same off r l :
  0 <= off -> off + len r <= len l -> slice off (len r) (splice off r l) = r.
Proof.
  intros H1 H2. apply list_eq. intros i.
  rewrite lookup_slice, lookup_splice by lia. repeat case_decide; try lia.
  - f_equal. lia.
  - symmetry. apply lookup_ge_len. lia.
Qed.

Lemma slice_splice_ne off r l a n :
  0 <= off -> off + len r <= len l -> 0 <= a -> a + n <= off \/ off + len r <= a ->
  slice a n (splice off r l) = slice a n l.
Proof.
  intros H1 H2 H3 H4. apply list_eq. intros i.
  rewrite !lookup_slice by lia. case_decide; [|done].
  rewrite lookup_splice by lia. case_decide; [lia|done].
Qed.

Lemma slice_app_l off n l r : 0 <= off -> off + n <= len l -> slice off n (l ++ r) = slice off n l.
Proof.
  intros H1 H2. apply list_eq. intros i. rewrite !lookup_slice by lia. case_decide; [|done].
  apply lookup_app_l. unfold len in H2. lia.
Qed.

Lemma slice_app_r off n l r : len l <= off -> slice off n (l ++ r) = slice (off - len l) n r.
Proof.
  intros H1. pose proof (len_nonneg l). apply list_eq. intros i.
  rewrite !lookup_slice by lia. case_decide; [|done].
  unfold len in *. rewrite lookup_app_r by lia. f_equal. lia.
Qed.

Lemma slice_all l n : n = len l -> slice 0 n l = l.
Proof.
  intros ->. unfold slice, zt, zd, len. rewrite Nat2Z.id. simpl. rewrite drop_0. apply take_ge. done.
Qed.

Lemma slice_split off n m l :
  0 <= off -> 0 <= n -> 0 <= m -> slice off (n + m) l = slice off n l ++ slice (off + n) m l.
Proof.
  intros H1 H2 H3. unfold slice, zt, zd.
  replace (Z.to_nat (n + m)) with (Z.to_nat n + Z.to_nat m)%nat by lia.
  replace (Z.to_nat (off + n)) with (Z.to_nat off + Z.to_nat n)%nat by lia.
  rewrite <- drop_drop. rewrite <- take_take_drop. done.
Qed.

Lemma slice_0 off l : slice off 0 l = [].
Proof. done. Qed.

Lemma zt_slice n l : zt n l = slice 0 n l.
Proof. done. Qed.

Lemma zt_zd n l : zt n l ++ zd n l = l.
Proof. unfold zt, zd. apply take_drop. Qed.

Lemma splice_slice off n l : 0 <= off -> 0 <= n -> off + n <= len l -> splice off (slice off n l) l = l.
Proof.
  intros H1 H2 H3. apply list_eq. intros i.
  rewrite lookup_splice by (rewrite ?len_slice by lia; lia). rewrite len_slice by lia. case_decide; [|done].
  rewrite lookup_slice by lia. case_decide; [|lia]. f_equal. lia.
Qed.

Lemma splice_0 r l : len r = len l -> splice 0 r l = r.
Proof.
  intros H. apply list_eq. intros i. rewrite lookup_splice by lia.
  case_decide; [f_equal; lia|]. rewrite !lookup_ge_len by lia. done.
Qed.
End lists.

#[export] Hint Rewrite @len_nil @len_cons @len_app : len.

Lemma len_erased n : 0 <= n -> len (erased n) = n.
Proof. intros H. unfold len, erased. rewrite length_replicate. lia. Qed.

Lemma lookup_erased n i : Z.of_nat i < n -> erased n !! i = Some 255.
Proof. intros H. unfold erased. apply lookup_replicate_2. lia. Qed.

Lemma slice_erased off n m : 0 <= off -> 0 <= n -> off + n <= m -> slice off n (erased m) = erased n.
Proof.
  intros H1 H2 H3. apply list_eq. intros i. rewrite lookup_slice by lia. case_decide.
  - rewrite !lookup_erased by lia. done.
  - symmetry. apply lookup_ge_len. rewrite len_erased; lia.
Qed.

Lemma all_erased_spec l : all_erased l = true <-> l = erased (len l).
Proof.
  unfold all_erased, erased, len. rewrite Nat2Z.id. induction l as [|b l IH]; simpl; [done|].
  rewrite andb_true_iff, Z.eqb_eq, IH. split; [by intros [-> <-]|].
  intros H. injection H as -> Hl. auto.
Qed.

Lemma all_erased_erased n : all_erased (erased n) = true.
Proof.
  unfold all_erased. apply forallb_forall. intros b Hb.
  apply list_elem_of_In, elem_of_replicate in Hb. apply Z.eqb_eq. tauto.
Qed.

Lemma bytes_ok_erased n : bytes_ok (erased n).
Proof. apply Forall_replicate. unfold byte_ok. lia. Qed.

Lemma bytes_ok_app l r : bytes_ok (l ++ r) <-> bytes_ok l /\ bytes_ok r.
Proof. apply Forall_app. Qed.

Lemma bytes_ok_slice off n l : bytes_ok l -> bytes_ok (slice off n l).
Proof. intros H. unfold slice, zt, zd. by apply Forall_take, Forall_drop. Qed.

Lemma bytes_ok_splice off r l : bytes_ok l -> bytes_ok r -> bytes_ok (splice off r l).
Proof.
  intros H1 H2. unfold splice, zt, zd. rewrite !bytes_ok_app.
  split_and!; [by apply Forall_take|done|by apply Forall_drop].
Qed.

Lemma byte_at_slice off l : 0 <= off < len l -> slice off 1 l = [byte_at off l].
Proof.
  intros H. apply list_eq. intros i. rewrite lookup_slice by lia. unfold byte_at, len in *.
  destruct (lookup_lt_is_Some_2 l (Z.to_nat off)) as [b Hb]; [lia|]. rewrite Hb. simpl.
  destruct i as [|i]; simpl; [by rewrite Nat.add_0_r|]. case_decide; [lia|done].
Qed.

Lemma byte_at_ok off l : bytes_ok l -> byte_ok (byte_at off l).
Proof.
  intros H. unfold byte_at. destruct (l !! Z.to_nat off) eqn:E; simpl; [|unfold byte_ok; lia].
  eapply Forall_lookup_1; eauto.
Qed.

(** * Little-endian integers

    The on-flash structures are packed and little-endian, and the source reads
    and writes them through casts on a little-endian target. *)

Fixpoint le (n : nat) (v : Z) : bytes :=
  match n with
  | O => []
  | S n => v mod 256 :: le n (v / 256)
  end.

Fixpoint le_dec (l : bytes) : Z :=
  match l with
  | [] => 0
  | b :: l => b + 256 * le_dec l
  end.

(** The unsigned integer of [n] bytes at [buf + off]. *)
Definition rd (n off : Z) (buf : bytes) : Z := le_dec (slice off n buf).

Lemma length_le n v : length (le n v) = n.
Proof. revert v. induction n; simpl; auto. Qed.

Lemma len_le n v : len (le n v) = Z.of_nat n.
Proof. unfold len. by rewrite length_le. Qed.

Lemma bytes_ok_le n v : bytes_ok (le n v).
Proof.
  revert v. induction n; intros v; simpl; constructor; [|apply IHn].
  unfold byte_ok. pose proof (Z.mod_pos_bound v 256). lia.
Qed.

Lemma le_dec_le n v : 0 <= v < 256 ^ Z.of_nat n -> le_dec (le n v) = v.
Proof.
  revert v. induction n as [|n IH]; intros v Hv.
  - simpl in *. lia.
  - simpl. rewrite IH.
    + pose proof (Z.div_mod v 256). lia.
    + rewrite Nat2Z.inj_succ, Z.pow_succ_r in Hv by lia.
      split; [apply Z.div_pos; lia|]. apply Z.div_lt_upper_bound; lia.
Qed.

Lemma le_le_dec l : bytes_ok l -> le (length l) (le_dec l) = l.
Proof.
  induction 1 as [|b l Hb Hl IH]; simpl; [done|]. unfold byte_ok in Hb.
  replace ((b + 256 * le_dec l) mod 256) with b
    by (rewrite (Z.mul_comm 256), Z.mod_add, Z.mod_small; lia).
  replace ((b + 256 * le_dec l) / 256) with (le_dec l)
    by (rewrite (Z.mul_comm 256), Z.div_add, Z.div_small; lia).
  by rewrite IH.
Qed.

Lemma le_dec_bound l : bytes_ok l -> 0 <= le_dec l < 256 ^ len l.
Proof.
  unfold len. induction 1 as [|b l Hb Hl IH]; [simpl; lia|].
  change (length (b :: l)) with (S (length l)). unfold byte_ok in Hb.
  rewrite Nat2Z.inj_succ, Z.pow_succ_r by lia. simpl. lia.
Qed.

Lemma le_dec_inj l1 l2 : bytes_ok l1 -> bytes_ok l2 -> length l1 = length l2 -> le_dec l1 = le_dec l2 -> l1 = l2.
Proof.
  intros H1 H2 Hl E. rewrite <- (le_le_dec l1 H1), <- (le_le_dec l2 H2). by rewrite Hl, E.
Qed.

(** Setting bits never makes an unsigned integer smaller. *)
Lemma lor_superset_le b n : 0 <= b -> Z.lor b n = b -> n <= b.
Proof.
  intros Hb E. assert (Z.ldiff n b = 0) as Hd.
  { apply Z.bits_inj'. intros k Hk. rewrite Z.ldiff_spec, Z.bits_0. rewrite <- E, Z.lor_spec.
    by destruct (Z.testbit n k), (Z.testbit b k). }
  apply Z.sub_nocarry_ldiff in Hd. assert (0 <= Z.ldiff b n) by (apply Z.ldiff_nonneg; lia). lia.
Qed.

Lemma le_dec_superset (l r : bytes) :
  bytes_ok r -> Forall2 (fun b n => Z.lor b n = b) r l -> le_dec l <= le_dec r.
Proof.
  intros Hr HF. induction HF as [|b n r l E HF IH]; [done|]. inversion Hr as [|? ? Hb Hr']; subst.
  specialize (IH Hr'). unfold byte_ok in Hb. pose proof (lor_superset_le b n ltac:(lia) E).
  change (le_dec (n :: l)) with (n + 256 * le_dec l). change (le_dec (b :: r)) with (b + 256 * le_dec r). lia.
Qed.

#[export] Hint Rewrite @len_le : len.
#[export] Hint Rewrite @len_slice @len_zt @len_zd @len_splice len_erased using lia : len.
Ltac lens := autorewrite with len; try lia.

#[global] Arguments le : simpl never.
#[global] Arguments le_dec : simpl never.
#[global] Arguments slice : simpl never.
#[global] Arguments splice : simpl never.
#[global] Arguments erased : simpl never.
#[global] Arguments len : simpl never.

(** Loops whose number of turns the code bounds by a 64-bit id rather than by a
    counter: they run on 2^64 turns, and stop as soon as the body says so. *)

Section loops.
Context {S A B : Type}.
Implicit Types (body : A -> M S (A + B)).

(** At most 2^n turns of [body], which goes on with [inl] and ends with [inr]. *)
Fixpoint mloop (n : nat) body (a : A) : M S (A + B) :=
  match n with
  | O => body a
  | Datatypes.S n =>
      let* r := mloop n body a in
      match r with
      | inl a => mloop n body a
      | inr b => mret (inr b)
      end
  end.

Definition while64 body (a : A) : M S B :=
  let* r := mloop 64 body a in
  match r with inr b => mret b | inl _ => mfail EIO end.

(** A loop rule: an invariant, and a variant that every turn lowers. *)
Lemma wp_mloop n body (I : A -> S -> Prop) (mu : A -> S -> Z) (Q : res B -> S -> Prop) a s :
  (forall a s, I a s -> wp (body a) s (fun r s' =>
    match r with Ok (inl a') => I a' s' /\ 0 <= mu a' s' < mu a s | Ok (inr b) => Q (Ok b) s' | Err e => Q (Err e) s' end)) ->
  I a s -> wp (mloop n body a) s (fun r s' =>
    match r with Ok (inl a') => I a' s' /\ 0 <= mu a' s' <= mu a s - 2 ^ Z.of_nat n | Ok (inr b) => Q (Ok b) s' | Err e => Q (Err e) s' end).
Proof.
  intros Hb. revert a s. induction n as [|n IH]; intros a s Ha; cbn [mloop].
  - eapply wp_mono; [by apply Hb|]. cbv beta. intros [[a'|b]|e] s' H; try done. change (2 ^ Z.of_nat 0) with 1. split; [apply H|lia].
  - apply wp_bnd. eapply wp_mono; [by apply IH|]. cbv beta. intros [[a'|b]|e] s' H; [|by apply wp_ret|done].
    destruct H as [Ha' Hm]. eapply wp_mono; [by apply IH|]. cbv beta. intros [[a2|b]|e] s2 H; try done. destruct H as [? H].
    rewrite Nat2Z.inj_succ, Z.pow_succ_r by lia. split; [done|lia].
Qed.

Lemma wp_while64 body (I : A -> S -> Prop) (mu : A -> S -> Z) (Q : res B -> S -> Prop) a s :
  I a s -> mu a s < 2 ^ 64 ->
  (forall a s, I a s -> wp (body a) s (fun r s' =>
    match r with Ok (inl a') => I a' s' /\ 0 <= mu a' s' < mu a s | Ok (inr b) => Q (Ok b) s' | Err e => Q (Err e) s' end)) ->
  wp (while64 body a) s Q.
Proof.
  intros Ha Hm Hb. unfold while64. apply wp_bnd. eapply wp_mono; [by apply (wp_mloop 64 body I mu Q)|]. cbv beta.
  intros [[a'|b]|e] s' H; [|by apply wp_ret|done]. change (2 ^ Z.of_nat 64) with (2 ^ 64) in H. lia.
Qed.
End loops.
