(* ===== verification/Layout.v ===== *)
(** On-flash layout of blob_db: the constants and packed structures of
    lib/blob_db/blob_db_internal.h, their byte encodings, and the checksum and
    build-configuration parameters every other file takes. *)

From S2P Require Import Prelude.

(** * Checksums

    [crc16_ccitt], [crc32_ieee] and [crc32_ieee_update] are Zephyr's
    (zephyr/sys/crc.h); the model takes them as parameters. *)
Class Crc := {
  crc16_ccitt : Z -> bytes -> Z;
  crc32_ieee : bytes -> Z;
  crc32_ieee_update : Z -> bytes -> Z;
}.

(** What zephyr/sys/crc.h documents and the library relies on: results have
    the width of their C type, and [crc16_ccitt] continues from the value of
    an earlier call passed as its seed. *)
Class CrcLaws (C : Crc) : Prop := {
  crc16_range : forall s b, 0 <= crc16_ccitt s b < 2 ^ 16;
  crc32_range : forall b, 0 <= crc32_ieee b < 2 ^ 32;
  crc32_update_range : forall s b, 0 <= crc32_ieee_update s b < 2 ^ 32;
  crc16_app : forall s a b, crc16_ccitt (crc16_ccitt s a) b = crc16_ccitt s (a ++ b);
}.

(** * Build configuration (lib/blob_db/Kconfig) *)
Record config := mkconfig {
  MAX_PAYLOAD_LEN : Z;          (* CONFIG_BLOB_DB_MAX_PAYLOAD_LEN *)
  SECTOR_BUF_SIZE : Z;          (* CONFIG_BLOB_DB_SECTOR_BUF_SIZE *)
  TEST_MASTER_LOG_CAP : Z;      (* CONFIG_BLOB_DB_TEST_MASTER_LOG_CAP; 0 = off *)
  AUTOFORMAT_ON_CORRUPT : bool; (* CONFIG_BLOB_DB_AUTOFORMAT_ON_CORRUPT *)
  LARGE_PAYLOADS : bool;        (* CONFIG_BLOB_DB_LARGE_PAYLOADS *)
}.

(** The Kconfig ranges of the options above. *)
Definition config_ok (c : config) : Prop :=
  1 <= MAX_PAYLOAD_LEN c <= 65535 /\ 256 <= SECTOR_BUF_SIZE c <= 65536 /\
  0 <= TEST_MASTER_LOG_CAP c <= 65535.

(** * Constants *)
Definition BLOB_DB_MASTER_A_SECTOR : Z := 0.
Definition BLOB_DB_MASTER_B_SECTOR : Z := 1.
Definition BLOB_DB_SCRATCH_SECTOR : Z := 2.
Definition BLOB_DB_FIRST_BUCKET : Z := 3.
Definition BLOB_DB_ROOT_ID : Z := 1.

Definition MASTER_MAGIC : bytes := [66; 68; 77; 83].
Definition BUCKET_MAGIC : bytes := [66; 68; 66; 72].
Definition SCRATCH_MAGIC : bytes := [66; 68; 83; 76].

Definition BLOB_DB_FORMAT_MAJOR : Z := 5.
Definition BLOB_DB_FORMAT_MINOR : Z := 0.
Definition BLOB_DB_MASTER_HDR_MAX : Z := 128.
Definition BLOB_DB_MASTER_LOG_OFF : Z := BLOB_DB_MASTER_HDR_MAX.
Definition BLOB_DB_ID_HINT_STEP : Z := 256.
Definition BLOB_DB_MAX_WRITE_ALIGN : Z := 32.

Definition BLOB_DB_SLOT_F_SEALED : Z := Z.shiftl 1 0.
Definition BLOB_DB_SLOT_F_TOMBSTONE : Z := Z.shiftl 1 1.
Definition BLOB_DB_SLOT_F_INDEXED : Z := Z.shiftl 1 2.
Definition BLOB_DB_SLOT_F_SEGMENT : Z := Z.shiftl 1 3.

Definition BLOB_DB_SLOT_F_KNOWN (c : config) : Z :=
  if LARGE_PAYLOADS c
  then Z.lor (Z.lor BLOB_DB_SLOT_F_SEALED BLOB_DB_SLOT_F_TOMBSTONE)
             (Z.lor BLOB_DB_SLOT_F_INDEXED BLOB_DB_SLOT_F_SEGMENT)
  else Z.lor BLOB_DB_SLOT_F_SEALED BLOB_DB_SLOT_F_TOMBSTONE.

Definition BLOB_DB_FEAT_LARGE_PAYLOADS : Z := Z.shiftl 1 0.
Definition BLOB_DB_LIB_INCOMPAT : Z := BLOB_DB_FEAT_LARGE_PAYLOADS.
Definition BLOB_DB_BUILD_INCOMPAT (c : config) : Z :=
  if LARGE_PAYLOADS c then BLOB_DB_FEAT_LARGE_PAYLOADS else 0.
Definition BLOB_DB_BUILD_RO_COMPAT : Z := 0.
Definition BLOB_DB_BUILD_REQUIRED : Z := 0.
Definition BLOB_DB_BUILD_SUITE : Z := 0.
Definition BLOB_DB_BUILD_HDR_LEN : Z := 64.

Definition BLOB_DB_SLOT_OVERHEAD : Z := 14.
Definition BLOB_DB_BUCKET_DATA_OFF : Z := 16.

(** * Packed structures *)

Record blob_db_compat_hdr := mk_compat_hdr {
  ch_magic : bytes;
  format_major : Z;
  format_minor : Z;
  hdr_len : Z;
  ch_reserved : Z;
  prefix_crc16 : Z;
}.

Record blob_db_master_hdr := mk_master_hdr {
  h_prefix : blob_db_compat_hdr;
  h_rot_gen : Z;
  h_peb_size : Z;
  h_n_buckets : Z;
  h_rec_size : Z;
  h_incompat : Z;
  h_ro_compat : Z;
  h_compat : Z;
  h_suite : Z;
  h_reserved0 : bytes;
  h_store_uuid : bytes;
  h_max_payload_len : Z;
  h_write_align : Z;
  h_crc32 : Z;
}.

Record blob_db_master_rec := mk_master_rec {
  rec_no : Z;
  r_reserved0 : Z;
  r_next_id_hint : Z;
  r_seq_hint : Z;
  r_seg_owner : Z;
  r_reserved1 : Z;
  r_fuses : Z;
  r_reserved2 : Z;
  r_crc32 : Z;
}.

Record blob_db_bucket_hdr := mk_bucket_hdr {
  bh_magic : bytes;
  bh_bucket_id : Z;
  bh_reserved : Z;
  bh_gen : Z;
  bh_crc32 : Z;
}.

Record blob_db_slot_hdr := mk_slot_hdr {
  sh_flags : Z;
  sh_reserved : Z;
  sh_val_len : Z;
}.

(** [struct slot_head]: the slot header and the id that follows it. *)
Record slot_head := mk_slot_head {
  head_hdr : blob_db_slot_hdr;
  head_id : Z;
}.

Record blob_db_scratch_seal := mk_scratch_seal {
  ss_magic : bytes;
  ss_image_len : Z;
  ss_image_crc32 : Z;
  ss_seal_crc32 : Z;
}.

(** ** Encodings: the bytes of each packed structure, in field order. *)

Definition enc_compat_hdr (h : blob_db_compat_hdr) : bytes :=
  ch_magic h ++ le 1 (format_major h) ++ le 1 (format_minor h) ++ le 2 (hdr_len h) ++
  le 2 (ch_reserved h) ++ le 2 (prefix_crc16 h).

Definition enc_master_hdr (h : blob_db_master_hdr) : bytes :=
  enc_compat_hdr (h_prefix h) ++ le 4 (h_rot_gen h) ++ le 4 (h_peb_size h) ++
  le 2 (h_n_buckets h) ++ le 2 (h_rec_size h) ++ le 4 (h_incompat h) ++
  le 4 (h_ro_compat h) ++ le 4 (h_compat h) ++ le 1 (h_suite h) ++ h_reserved0 h ++
  h_store_uuid h ++ le 2 (h_max_payload_len h) ++ le 2 (h_write_align h) ++ le 4 (h_crc32 h).

Definition enc_master_rec (r : blob_db_master_rec) : bytes :=
  le 4 (rec_no r) ++ le 4 (r_reserved0 r) ++ le 8 (r_next_id_hint r) ++ le 8 (r_seq_hint r) ++
  le 8 (r_seg_owner r) ++ le 4 (r_reserved1 r) ++ le 4 (r_fuses r) ++ le 4 (r_reserved2 r) ++
  le 4 (r_crc32 r).

Definition enc_bucket_hdr (h : blob_db_bucket_hdr) : bytes :=
  bh_magic h ++ le 2 (bh_bucket_id h) ++ le 2 (bh_reserved h) ++ le 4 (bh_gen h) ++ le 4 (bh_crc32 h).

Definition enc_slot_hdr (h : blob_db_slot_hdr) : bytes :=
  le 1 (sh_flags h) ++ le 1 (sh_reserved h) ++ le 2 (sh_val_len h).

Definition enc_scratch_seal (s : blob_db_scratch_seal) : bytes :=
  ss_magic s ++ le 4 (ss_image_len s) ++ le 4 (ss_image_crc32 s) ++ le 4 (ss_seal_crc32 s).

(** ** Decodings: the structure a cast of [buf] reads. *)

Definition dec_compat_hdr (buf : bytes) : blob_db_compat_hdr :=
  mk_compat_hdr (slice 0 4 buf) (rd 1 4 buf) (rd 1 5 buf) (rd 2 6 buf) (rd 2 8 buf) (rd 2 10 buf).

Definition dec_master_hdr (buf : bytes) : blob_db_master_hdr :=
  mk_master_hdr (dec_compat_hdr buf) (rd 4 12 buf) (rd 4 16 buf) (rd 2 20 buf) (rd 2 22 buf)
    (rd 4 24 buf) (rd 4 28 buf) (rd 4 32 buf) (rd 1 36 buf) (slice 37 3 buf) (slice 40 16 buf)
    (rd 2 56 buf) (rd 2 58 buf) (rd 4 60 buf).

Definition dec_master_rec (buf : bytes) : blob_db_master_rec :=
  mk_master_rec (rd 4 0 buf) (rd 4 4 buf) (rd 8 8 buf) (rd 8 16 buf) (rd 8 24 buf) (rd 4 32 buf)
    (rd 4 36 buf) (rd 4 40 buf) (rd 4 44 buf).

Definition dec_bucket_hdr (buf : bytes) : blob_db_bucket_hdr :=
  mk_bucket_hdr (slice 0 4 buf) (rd 2 4 buf) (rd 2 6 buf) (rd 4 8 buf) (rd 4 12 buf).

Definition dec_slot_hdr (buf : bytes) : blob_db_slot_hdr :=
  mk_slot_hdr (rd 1 0 buf) (rd 1 1 buf) (rd 2 2 buf).

Definition dec_slot_head (buf : bytes) : slot_head :=
  mk_slot_head (dec_slot_hdr buf) (rd 8 4 buf).

Definition dec_scratch_seal (buf : bytes) : blob_db_scratch_seal :=
  mk_scratch_seal (slice 0 4 buf) (rd 4 4 buf) (rd 4 8 buf) (rd 4 12 buf).

(** ** Checksums of the structures *)

Section crcs.
Context `{Crc}.

(** [hdr_crc32()]: CRC32 of all but the trailing four bytes. *)
Definition hdr_crc32 (buf : bytes) : Z := crc32_ieee (zt (len buf - 4) buf).

Definition prefix_crc (buf : bytes) : Z := crc16_ccitt 65535 (slice 0 10 buf).

Definition master_hdr_crc (h : blob_db_master_hdr) : Z := crc32_ieee (slice 0 60 (enc_master_hdr h)).

Definition master_rec_crc (rot_gen : Z) (r : blob_db_master_rec) : Z :=
  crc32_ieee_update (crc32_ieee (le 4 rot_gen)) (slice 0 44 (enc_master_rec r)).

Definition slot_crc16 (hdr : blob_db_slot_hdr) (id : Z) (payload : bytes) (val_len : Z) : Z :=
  let c := crc16_ccitt 65535 (enc_slot_hdr hdr) in
  let c := crc16_ccitt c (le 8 id) in
  if 0 <? val_len then crc16_ccitt c payload else c.
End crcs.

(** * Round trips of the encodings *)

Lemma rd_here n k v t : n = Z.of_nat k -> 0 <= v < 256 ^ n -> rd n 0 (le k v ++ t) = v.
Proof.
  intros -> Hv. unfold rd. rewrite slice_app_l by lens.
  rewrite slice_all by lens. by apply le_dec_le.
Qed.

Lemma rd_skip n off (a t : bytes) : len a <= off -> rd n off (a ++ t) = rd n (off - len a) t.
Proof. intros H. unfold rd. by rewrite slice_app_r. Qed.

Lemma slice_here {A} k (a t : list A) : len a = k -> slice 0 k (a ++ t) = a.
Proof. intros <-. pose proof (len_nonneg a). rewrite slice_app_l by lia. by apply slice_all. Qed.

Lemma rd_slice n off a m buf :
  0 <= off -> 0 <= a -> off + n <= m -> rd n off (slice a m buf) = rd n (a + off) buf.
Proof. intros. unfold rd. by rewrite slice_slice by lia. Qed.

Lemma rd_range n off buf : bytes_ok buf -> 0 <= off -> 0 <= n -> off + n <= len buf -> 0 <= rd n off buf < 256 ^ n.
Proof.
  intros Hb H1 H2 H3. unfold rd.
  pose proof (le_dec_bound (slice off n buf) (bytes_ok_slice _ _ _ Hb)) as H. by rewrite len_slice in H by lia.
Qed.

Lemma le_rd k off buf :
  bytes_ok buf -> 0 <= off -> off + Z.of_nat k <= len buf -> le k (rd (Z.of_nat k) off buf) = slice off (Z.of_nat k) buf.
Proof.
  intros Hb H1 H2. unfold rd.
  assert (length (slice off (Z.of_nat k) buf) = k) as Hl.
  { pose proof (len_slice off (Z.of_nat k) buf ltac:(lia) ltac:(lia) ltac:(lia)) as H. unfold len in H. lia. }
  rewrite <- Hl at 1. apply le_le_dec. by apply bytes_ok_slice.
Qed.

Ltac is_num c := lazymatch c with Z0 => idtac | Zpos _ => idtac end.
Ltac norm_sub a b :=
  let c := eval vm_compute in (a - b) in is_num c; progress change (a - b) with c.
Ltac norm_offsets :=
  repeat match goal with
  | H : len ?m = _ |- context [_ - len ?m] => rewrite H
  | |- context [rd ?n (?a - ?b) _] => norm_sub a b
  | |- context [slice (?a - ?b) ?n _] => norm_sub a b
  end.

(** Reads every field of an encoded structure back. *)
Ltac rd_fields :=
  repeat first
    [ rewrite slice_here by (autorewrite with len; lia)
    | rewrite slice_app_r by (autorewrite with len; lia); autorewrite with len; norm_offsets
    | match goal with
      | |- context [rd ?n 0 (le ?k ?v ++ ?t)] =>
          rewrite (rd_here n k v t eq_refl) by lia
      end
    | rewrite rd_skip by (autorewrite with len; lia); autorewrite with len; norm_offsets ].

#[local] Opaque le.

Definition compat_hdr_ok (h : blob_db_compat_hdr) : Prop :=
  len (ch_magic h) = 4 /\ 0 <= format_major h < 256 /\ 0 <= format_minor h < 256 /\
  0 <= hdr_len h < 65536 /\ 0 <= ch_reserved h < 65536 /\ 0 <= prefix_crc16 h < 65536.

Definition master_hdr_ok (h : blob_db_master_hdr) : Prop :=
  compat_hdr_ok (h_prefix h) /\ 0 <= h_rot_gen h < 2 ^ 32 /\ 0 <= h_peb_size h < 2 ^ 32 /\
  0 <= h_n_buckets h < 65536 /\ 0 <= h_rec_size h < 65536 /\ 0 <= h_incompat h < 2 ^ 32 /\
  0 <= h_ro_compat h < 2 ^ 32 /\ 0 <= h_compat h < 2 ^ 32 /\ 0 <= h_suite h < 256 /\
  len (h_reserved0 h) = 3 /\ len (h_store_uuid h) = 16 /\ 0 <= h_max_payload_len h < 65536 /\
  0 <= h_write_align h < 65536 /\ 0 <= h_crc32 h < 2 ^ 32.

Definition master_rec_wf (r : blob_db_master_rec) : Prop :=
  0 <= rec_no r < 2 ^ 32 /\ 0 <= r_reserved0 r < 2 ^ 32 /\ 0 <= r_next_id_hint r < 2 ^ 64 /\
  0 <= r_seq_hint r < 2 ^ 64 /\ 0 <= r_seg_owner r < 2 ^ 64 /\ 0 <= r_reserved1 r < 2 ^ 32 /\
  0 <= r_fuses r < 2 ^ 32 /\ 0 <= r_reserved2 r < 2 ^ 32 /\ 0 <= r_crc32 r < 2 ^ 32.

Definition bucket_hdr_wf (h : blob_db_bucket_hdr) : Prop :=
  len (bh_magic h) = 4 /\ 0 <= bh_bucket_id h < 65536 /\ 0 <= bh_reserved h < 65536 /\
  0 <= bh_gen h < 2 ^ 32 /\ 0 <= bh_crc32 h < 2 ^ 32.

Definition slot_hdr_wf (h : blob_db_slot_hdr) : Prop :=
  0 <= sh_flags h < 256 /\ 0 <= sh_reserved h < 256 /\ 0 <= sh_val_len h < 65536.

Definition scratch_seal_wf (s : blob_db_scratch_seal) : Prop :=
  len (ss_magic s) = 4 /\ 0 <= ss_image_len s < 2 ^ 32 /\ 0 <= ss_image_crc32 s < 2 ^ 32 /\
  0 <= ss_seal_crc32 s < 2 ^ 32.

Lemma dec_enc_compat_hdr h t : compat_hdr_ok h -> dec_compat_hdr (enc_compat_hdr h ++ t) = h.
Proof.
  destruct h. unfold compat_hdr_ok, dec_compat_hdr, enc_compat_hdr. simpl. intros H. destruct_and?.
  rewrite <- !app_assoc. rd_fields. done.
Qed.

Lemma dec_enc_master_hdr h t : master_hdr_ok h -> dec_master_hdr (enc_master_hdr h ++ t) = h.
Proof.
  destruct h as [p]. unfold master_hdr_ok, dec_master_hdr, enc_master_hdr. simpl. intros H. destruct_and?.
  rewrite <- !app_assoc, dec_enc_compat_hdr by done.
  assert (len (enc_compat_hdr p) = 12) as Hp.
  { destruct p; unfold compat_hdr_ok, enc_compat_hdr in *; simpl in *. autorewrite with len. lia. }
  rewrite !(rd_skip _ _ (enc_compat_hdr p)), !(slice_app_r _ _ (enc_compat_hdr p)) by lia.
  rewrite Hp. norm_offsets. rd_fields. done.
Qed.

Lemma dec_enc_master_rec r t : master_rec_wf r -> dec_master_rec (enc_master_rec r ++ t) = r.
Proof.
  destruct r. unfold master_rec_wf, dec_master_rec, enc_master_rec. simpl. intros H. destruct_and?.
  rewrite <- !app_assoc. rd_fields. done.
Qed.

Lemma dec_enc_bucket_hdr h t : bucket_hdr_wf h -> dec_bucket_hdr (enc_bucket_hdr h ++ t) = h.
Proof.
  destruct h. unfold bucket_hdr_wf, dec_bucket_hdr, enc_bucket_hdr. simpl. intros H. destruct_and?.
  rewrite <- !app_assoc. rd_fields. done.
Qed.

Lemma dec_enc_slot_head h id t :
  slot_hdr_wf h -> 0 <= id < 2 ^ 64 -> dec_slot_head (enc_slot_hdr h ++ le 8 id ++ t) = mk_slot_head h id.
Proof.
  destruct h. unfold slot_hdr_wf, dec_slot_head, dec_slot_hdr, enc_slot_hdr. simpl. intros H Hid. destruct_and?.
  rewrite <- !app_assoc. rd_fields. done.
Qed.

Lemma dec_enc_scratch_seal s t : scratch_seal_wf s -> dec_scratch_seal (enc_scratch_seal s ++ t) = s.
Proof.
  destruct s. unfold scratch_seal_wf, dec_scratch_seal, enc_scratch_seal. simpl. intros H. destruct_and?.
  rewrite <- !app_assoc. rd_fields. done.
Qed.
