(* ===== verification/Store.v ===== *)
(** The storage seam (lib/blob_db/blob_db_store.h): what blob_db calls to reach
    flash, and what a backend promises. Both backends and every theorem above
    this file meet at these two classes. *)

From S2P Require Import Prelude.

(** [struct blob_db_store_geom] *)
Record blob_db_store_geom := mk_store_geom {
  sg_peb_size : Z;
  sg_write_align : Z;
  sg_n_pebs : Z;
  sg_preformat : bool;
}.

(** The operations of blob_db_store.h over a backend state [S]. A flat byte
    offset is [peb * peb_size + within]. [blob_db_store_maintain] reports the
    steps it ran and whether work is left whatever its return code. *)
Class Store (S : Type) := {
  blob_db_store_open : bool -> M S blob_db_store_geom;
  blob_db_store_close : S -> S;
  blob_db_store_read : Z -> Z -> M S bytes;
  blob_db_store_write : Z -> bytes -> M S unit;
  blob_db_store_erase : Z -> Z -> M S unit;
  blob_db_store_replace : Z -> bytes -> M S unit;
  blob_db_store_replace_is_atomic : bool;
  blob_db_store_open_found_damage : Z -> S -> bool;
  blob_db_store_maintain : Z -> S -> (res unit * Z * bool) * S;
}.

(** ** Programming flash

    [prog_done old new r]: [r] is what the region holding [old] reads as after
    a completed write of [new]. Erased bytes take the new value, and a zero can
    be programmed over anything; what other overwrites leave is not promised.

    [prog_torn old new r]: what a write that did not complete may leave. A
    program only clears bits, so an erased byte still has every set bit of the
    new value; and a slot is programmed from its first byte on. *)
Definition prog_done (old new r : bytes) : Prop :=
  len r = len new /\ bytes_ok r /\
  forall i o n b, old !! i = Some o -> new !! i = Some n -> r !! i = Some b ->
    (o = 255 -> b = n) /\ (n = 0 -> b = 0).

Definition prog_torn (old new r : bytes) : Prop :=
  len r = len new /\ bytes_ok r /\
  (forall i n b, old !! i = Some 255 -> new !! i = Some n -> r !! i = Some b -> Z.lor b n = b) /\
  (r !! 0%nat = Some 255 -> new !! 0%nat <> Some 255 -> r = old).

(** Codes a device reports. The library gives the codes excluded here a meaning
    of its own. *)
Definition device_err (e : errno) : Prop :=
  e <> EPERM /\ e <> ENOENT /\ e <> EAGAIN /\ e <> ENOMEM /\ e <> EBADMSG /\
  e <> ENOTSUP /\ e <> EINVAL /\ e <> ENOSPC /\ e <> ENODEV.

(** The contents of a backend state, as blob_db may read them back, the open
    states from which no operation will fail, and the closed ones an open
    succeeds from and leads to such a state. *)
Class StoreView (S : Type) := {
  img : S -> Z -> bytes;
  healthy : S -> Prop;
  bootable : S -> Prop;
}.

Section laws.
Context {S : Type} `{!Store S} `{!StoreView S}.

Definition same_flash (s s' : S) : Prop := forall p, img s' p = img s p.

(** Only block [p] may differ, and there only the bytes in [w, w + n). *)
Definition only_range (s s' : S) (p w : Z) (r : bytes) : Prop :=
  img s' p = splice w r (img s p) /\ forall q, q <> p -> img s' q = img s q.

Definition only_block (s s' : S) (p : Z) (b : bytes) : Prop :=
  img s' p = b /\ forall q, q <> p -> img s' q = img s q.

Definition aligned (sg : blob_db_store_geom) (n : Z) : Prop := n mod sg_write_align sg = 0.

(** The contract of blob_db_store.h and doc/layers/l0_flash.md. An access is of at
    least a byte and stays within one block; a write is aligned to the write unit. A failed operation
    reports a device error and leaves every block it was not given untouched. *)
Class StoreLaws (sg : blob_db_store_geom) : Prop := {
  img_len : forall s p, 0 <= p < sg_n_pebs sg -> len (img s p) = sg_peb_size sg;
  img_bytes : forall s p, bytes_ok (img s p);

  open_law : forall d s, wp (blob_db_store_open d) s (fun r s' =>
    (bootable s -> is_ok r = true /\ healthy s') /\
    (d = false -> same_flash s s') /\
    match r with Ok sg' => sg' = sg | Err e => device_err e end);

  close_law : forall s, same_flash s (blob_db_store_close s) /\
    (healthy s -> bootable (blob_db_store_close s));

  read_law : forall s p w n, 0 <= p < sg_n_pebs sg -> 0 <= w -> 0 < n -> w + n <= sg_peb_size sg ->
    wp (blob_db_store_read (p * sg_peb_size sg + w) n) s (fun r s' =>
      (healthy s -> is_ok r = true /\ healthy s') /\ same_flash s s' /\
      match r with Ok b => b = slice w n (img s p) | Err e => device_err e end);

  write_law : forall s p w b, 0 <= p < sg_n_pebs sg -> 0 <= w -> 0 < len b -> w + len b <= sg_peb_size sg ->
    aligned sg w -> aligned sg (len b) -> bytes_ok b ->
    wp (blob_db_store_write (p * sg_peb_size sg + w) b) s (fun r s' =>
      (healthy s -> is_ok r = true /\ healthy s') /\
      exists b', only_range s s' p w b' /\
        match r with
        | Ok _ => prog_done (slice w (len b) (img s p)) b b'
        | Err e => device_err e /\ prog_torn (slice w (len b) (img s p)) b b'
        end);

  erase_law : forall s p, 0 <= p < sg_n_pebs sg ->
    wp (blob_db_store_erase (p * sg_peb_size sg) (sg_peb_size sg)) s (fun r s' =>
      (healthy s -> is_ok r = true /\ healthy s') /\
      exists b', only_block s s' p b' /\
        match r with Ok _ => b' = erased (sg_peb_size sg) | Err e => device_err e end);

  erase_all_law : forall s,
    wp (blob_db_store_erase 0 (sg_n_pebs sg * sg_peb_size sg)) s (fun r s' =>
      (healthy s -> is_ok r = true /\ healthy s') /\
      match r with
      | Ok _ => forall p, 0 <= p < sg_n_pebs sg -> img s' p = erased (sg_peb_size sg)
      | Err e => device_err e
      end);

  replace_law : forall s p b, 0 <= p < sg_n_pebs sg -> len b <= sg_peb_size sg ->
    aligned sg (len b) -> bytes_ok b ->
    wp (blob_db_store_replace (p * sg_peb_size sg) b) s (fun r s' =>
      (healthy s -> is_ok r = true /\ healthy s') /\
      exists b', only_block s s' p b' /\
        match r with
        | Ok _ => b' = b ++ erased (sg_peb_size sg - len b)
        | Err e => device_err e /\
            (blob_db_store_replace_is_atomic = true ->
             b' = img s p \/ b' = b ++ erased (sg_peb_size sg - len b))
        end);

  maintain_law : forall n s, same_flash s (snd (blob_db_store_maintain n s)) /\
    (healthy s -> healthy (snd (blob_db_store_maintain n s)));
}.
End laws.
Arguments StoreLaws S {_ _} sg.

(** A completed write into erased flash reads back as written. *)
Lemma prog_done_erased n new r : len new = n -> prog_done (erased n) new r -> r = new.
Proof.
  intros Hn (Hl & _ & H). apply list_eq. intros i. unfold len in *.
  destruct (decide (i < length r)%nat).
  - destruct (lookup_lt_is_Some_2 r i) as [b Hb]; [lia|].
    destruct (lookup_lt_is_Some_2 new i) as [c Hc]; [lia|].
    rewrite Hb, Hc. f_equal. eapply H; [| |done|done]; [apply lookup_erased; lia|done].
  - rewrite !lookup_ge_None_2 by lia. done.
Qed.
