(* ===== verification/FlashStore.v ===== *)
(** The raw-partition backend (lib/blob_db/blob_db_store_flash.c) over Zephyr's
    flash_area API, and that it keeps the contract of Store.v. *)

From S2P Require Import Prelude Store.

(** Zephyr's flash_area API (zephyr/storage/flash_map.h) on the one partition
    the backend opens. [flash_area_open] returns [fa_size]; [flash_area_sectors]
    fills at most the given number of sector sizes and reports a code beside
    them. *)
Class FlashArea (F : Type) := {
  flash_area_open : M F Z;
  flash_area_close : F -> F;
  flash_area_sectors : Z -> F -> (res unit * list Z) * F;
  flash_area_align : F -> Z;
  flash_area_read : Z -> Z -> M F bytes;
  flash_area_write : Z -> bytes -> M F unit;
  flash_area_erase : Z -> Z -> M F unit;
}.

(** The backend's statics. [g_fa] is whether the handle is set; the partition it
    stands for is [dev]. *)
Record flash_be (F : Type) := mk_flash_be {
  g_fa : bool;
  g_peb_size : Z;
  dev : F;
}.
Arguments mk_flash_be {F} _ _ _.
Arguments g_fa {F} _.
Arguments g_peb_size {F} _.
Arguments dev {F} _.

Module Flash.
Section ops.
Context {F : Type} `{!FlashArea F}.
Notation be := (flash_be F).

Definition on_dev {A} (m : M F A) : M be A := fun s =>
  let (r, f) := m (dev s) in (r, mk_flash_be (g_fa s) (g_peb_size s) f).

Definition blob_db_store_close (s : be) : be :=
  if g_fa s then mk_flash_be false (g_peb_size s) (flash_area_close (dev s)) else s.

(** [err_close:] *)
Definition err_close {A} (e : errno) : M be A := fun s =>
  (Err e, mk_flash_be false (g_peb_size s) (flash_area_close (dev s))).

Definition blob_db_store_open (discard : bool) : M be blob_db_store_geom := fun s =>
  match flash_area_open (dev s) with
  | (Err e, f) => (Err e, mk_flash_be (g_fa s) (g_peb_size s) f)
  | (Ok fa_size, f) =>
      let '((rc, sectors), f) := flash_area_sectors 4 f in
      let s := mk_flash_be true (g_peb_size s) f in
      let fatal := match rc with Ok _ => None | Err ENOMEM => None | Err e => Some e end in
      match fatal, sectors with
      | Some e, _ => err_close e s
      | None, [] => err_close EIO s
      | None, peb_size :: rest =>
          let write_align := if flash_area_align f =? 0 then 1 else flash_area_align f in
          if negb (forallb (fun sz => sz =? peb_size) rest) then err_close ENOTSUP s
          else if negb (fa_size mod peb_size =? 0) then err_close EINVAL s
          else (Ok (mk_store_geom peb_size write_align (u16 (fa_size / peb_size)) true), mk_flash_be true peb_size f)
      end
  end.

Definition blob_db_store_read (off n : Z) : M be bytes := on_dev (flash_area_read off n).
Definition blob_db_store_write (off : Z) (buf : bytes) : M be unit := on_dev (flash_area_write off buf).
Definition blob_db_store_erase (off n : Z) : M be unit := on_dev (flash_area_erase off n).

Definition blob_db_store_replace (off : Z) (buf : bytes) : M be unit :=
  let* peb := mgets g_peb_size in
  blob_db_store_erase off peb;;;
  blob_db_store_write off buf.

Definition blob_db_store_replace_is_atomic : bool := false.
Definition blob_db_store_open_found_damage (off : Z) (s : be) : bool := false.
Definition blob_db_store_maintain (budget : Z) (s : be) : (res unit * Z * bool) * be := ((Ok tt, 0, false), s).
End ops.
End Flash.

(** ** What the API documents

    [fimg]: the partition's bytes; [up]: no operation will fail. The partition
    is [n] sectors of [P] bytes with write unit [al]. *)
Class FlashAreaView (F : Type) := {
  fimg : F -> bytes;
  up : F -> Prop;
}.

Class FlashAreaLaws (F : Type) `{!FlashArea F} `{!FlashAreaView F} (P al n : Z) : Prop := {
  fa_geom : 0 < P /\ 0 < al /\ 1 <= n <= 65535 /\ P mod al = 0;
  fimg_len : forall f, len (fimg f) = n * P;
  fimg_bytes : forall f, bytes_ok (fimg f);
  fa_open_law : forall f, wp flash_area_open f (fun r f' => (up f -> is_ok r = true /\ up f') /\ fimg f' = fimg f /\
    match r with Ok sz => sz = n * P | Err e => device_err e end);
  fa_close_law : forall f, fimg (flash_area_close f) = fimg f /\ (up f -> up (flash_area_close f));
  fa_sectors_law : forall k f, 1 <= k -> exists rc ss f', flash_area_sectors k f = ((rc, ss), f') /\
    fimg f' = fimg f /\ (up f -> up f' /\ (rc = Ok tt \/ rc = Err ENOMEM)) /\
    match rc with
    | Err e => e = ENOMEM \/ device_err e
    | Ok _ => True
    end /\
    (rc = Ok tt \/ rc = Err ENOMEM -> ss <> [] /\ forall sz, sz ∈ ss -> sz = P);
  fa_align_law : forall f, flash_area_align f = al;
  fa_read_law : forall f off k, 0 <= off -> 0 <= k -> off + k <= n * P ->
    wp (flash_area_read off k) f (fun r f' => (up f -> is_ok r = true /\ up f') /\ fimg f' = fimg f /\
      match r with Ok b => b = slice off k (fimg f) | Err e => device_err e end);
  fa_write_law : forall f off b, 0 <= off -> off + len b <= n * P -> off mod al = 0 -> len b mod al = 0 -> bytes_ok b ->
    wp (flash_area_write off b) f (fun r f' => (up f -> is_ok r = true /\ up f') /\
      exists b', len b' = len b /\ fimg f' = splice off b' (fimg f) /\
        match r with
        | Ok _ => prog_done (slice off (len b) (fimg f)) b b'
        | Err e => device_err e /\ prog_torn (slice off (len b) (fimg f)) b b'
        end);
  fa_erase_law : forall f off k, 0 <= off -> 0 <= k -> off + k <= n * P -> off mod P = 0 -> k mod P = 0 ->
    wp (flash_area_erase off k) f (fun r f' => (up f -> is_ok r = true /\ up f') /\
      exists b', len b' = k /\ fimg f' = splice off b' (fimg f) /\
        match r with Ok _ => b' = erased k | Err e => device_err e end);
}.

(** ** The backend keeps the contract

    [blob_db_store_replace] erases [g_peb_size] bytes, which the first open sets
    to the sector size; the states of the instance are those. *)
Section instance.
Context {F : Type} `{!FlashArea F} `{!FlashAreaView F} (P al n : Z).

Definition be_ok (s : flash_be F) : bool := g_peb_size s =? P.

Definition be_inv (s : flash_be F) : Prop := be_ok s = true.

Record store_st := mk_store_st { be : flash_be F; be_wf : be_inv be }.

Definition keeps {A} (m : M (flash_be F) A) : Prop := forall s, be_inv s -> be_inv (snd (m s)).

Definition lift {A} (m : M (flash_be F) A) (H : keeps m) : M store_st A := fun s =>
  (fst (m (be s)), mk_store_st (snd (m (be s))) (H (be s) (be_wf s))).

Lemma keeps_dev {A} (m : M F A) : keeps (Flash.on_dev m).
Proof. intros s Hs. unfold Flash.on_dev. by destruct (m (dev s)). Qed.

Lemma keeps_bnd {A B} (m : M (flash_be F) A) (k : A -> M (flash_be F) B) :
  keeps m -> (forall a, keeps (k a)) -> keeps (mbnd m k).
Proof.
  intros Hm Hk s Hs. unfold mbnd. specialize (Hm s Hs). destruct (m s) as [[a|e] s']; [by apply Hk|done].
Qed.

Lemma keeps_replace off b : keeps (Flash.blob_db_store_replace off b).
Proof. apply keeps_bnd; [by intros s|]. intros p. apply keeps_bnd; intros; apply keeps_dev. Qed.

Lemma keeps_close s : be_inv s -> be_inv (Flash.blob_db_store_close s).
Proof. unfold Flash.blob_db_store_close. by destruct (g_fa s). Qed.

(** An open that reported another sector size would leave this instance. *)
Definition open_checked (discard : bool) : M store_st blob_db_store_geom := fun s =>
  let (r, s') := Flash.blob_db_store_open discard (be s) in
  match decide (be_inv s') with
  | left H => (r, mk_store_st s' H)
  | right _ => (r, s)
  end.

#[export] Instance flash_store : Store store_st := {
  blob_db_store_open := open_checked;
  blob_db_store_close s := mk_store_st _ (keeps_close (be s) (be_wf s));
  blob_db_store_read off k := lift (Flash.blob_db_store_read off k) (keeps_dev _);
  blob_db_store_write off b := lift (Flash.blob_db_store_write off b) (keeps_dev _);
  blob_db_store_erase off k := lift (Flash.blob_db_store_erase off k) (keeps_dev _);
  blob_db_store_replace off b := lift (Flash.blob_db_store_replace off b) (keeps_replace off b);
  blob_db_store_replace_is_atomic := Flash.blob_db_store_replace_is_atomic;
  blob_db_store_open_found_damage off s := Flash.blob_db_store_open_found_damage off (be s);
  blob_db_store_maintain k s := (fst (Flash.blob_db_store_maintain k (be s)), s);
}.

Definition sector (f : F) (p : Z) : bytes := if (0 <=? p) && (p <? n) then slice (p * P) P (fimg f) else [].

#[export] Instance flash_view : StoreView store_st := {
  img s p := sector (dev (be s)) p;
  healthy s := up (dev (be s));
  bootable s := up (dev (be s));
}.

Definition flash_geom : blob_db_store_geom := mk_store_geom P al n true.

Context {FL : FlashAreaLaws F P al n}.

Lemma sector_in f p : 0 <= p < n -> sector f p = slice (p * P) P (fimg f).
Proof. intros Hp. unfold sector. destruct (Z.leb_spec 0 p), (Z.ltb_spec p n); done || lia. Qed.

Lemma sector_bounds p : 0 <= p < n -> 0 <= p * P /\ p * P + P <= n * P.
Proof. intros Hp. destruct (fa_geom (FlashAreaLaws := FL)). nia. Qed.

Lemma len_sector f p : 0 <= p < n -> len (sector f p) = P.
Proof.
  intros Hp. rewrite sector_in by done. pose proof (sector_bounds p Hp). destruct (fa_geom (FlashAreaLaws := FL)).
  rewrite len_slice; [done|lia..|]. rewrite (fimg_len (FlashAreaLaws := FL)). lia.
Qed.

(** A splice of the partition within sector [p] is a splice of the sector. *)
Lemma sector_splice f f' p w b :
  0 <= p < n -> 0 <= w -> w + len b <= P -> fimg f' = splice (p * P + w) b (fimg f) ->
  sector f' p = splice w b (sector f p) /\ forall q, q <> p -> sector f' q = sector f q.
Proof.
  intros Hp Hw Hf E. pose proof (fimg_len (FlashAreaLaws := FL) f) as Hl. pose proof (len_nonneg b).
  pose proof (sector_bounds p Hp). destruct (fa_geom (FlashAreaLaws := FL)) as (HP & _). split.
  - apply list_eq. intros i. rewrite lookup_splice by (rewrite ?len_sector; lia). rewrite !sector_in, E by done.
    rewrite !lookup_slice by lia. destruct (decide (Z.of_nat i < P)).
    + rewrite lookup_splice by lia. repeat case_decide; try lia; f_equal; lia.
    + case_decide; [|done]. lia.
  - intros q Hq. unfold sector. destruct ((0 <=? q) && (q <? n)) eqn:Eq; [|done].
    apply andb_true_iff in Eq as [Eq1%Z.leb_le Eq2%Z.ltb_lt]. rewrite E. apply slice_splice_ne; [lia..|]. nia.
Qed.

Lemma sector_same f f' p : fimg f' = fimg f -> sector f' p = sector f p.
Proof. intros E. unfold sector. by rewrite E. Qed.

(** The device calls, seen as operations on sectors. *)
Lemma erase_sector f p :
  0 <= p < n ->
  wp (flash_area_erase (p * P) P) f (fun r f' => (up f -> is_ok r = true /\ up f') /\
    exists b, len b = P /\ sector f' p = b /\ (forall q, q <> p -> sector f' q = sector f q) /\
    match r with Ok _ => b = erased P | Err e => device_err e end).
Proof.
  intros Hp. pose proof (sector_bounds p Hp). destruct (fa_geom (FlashAreaLaws := FL)) as (HP & _).
  eapply wp_mono; [apply (fa_erase_law (FlashAreaLaws := FL)); try lia; [apply Z.mod_mul; lia|apply Z.mod_same; lia]|].
  cbv beta. intros r f' (Hu & b & Hl & Hi & Hr). split; [done|]. exists b. split; [done|].
  replace (p * P) with (p * P + 0) in Hi by lia.
  destruct (sector_splice f f' p 0 b Hp ltac:(lia) ltac:(lia) Hi) as [E Ho]. split; [|done].
  rewrite E. apply splice_0. by rewrite len_sector.
Qed.

Lemma write_sector f p w b :
  0 <= p < n -> 0 <= w -> w + len b <= P -> w mod al = 0 -> len b mod al = 0 -> bytes_ok b ->
  wp (flash_area_write (p * P + w) b) f (fun r f' => (up f -> is_ok r = true /\ up f') /\
    exists b', sector f' p = splice w b' (sector f p) /\ (forall q, q <> p -> sector f' q = sector f q) /\
    match r with
    | Ok _ => prog_done (slice w (len b) (sector f p)) b b'
    | Err e => device_err e /\ prog_torn (slice w (len b) (sector f p)) b b'
    end).
Proof.
  intros Hp Hw Hf Hm1 Hm2 Hb. pose proof (sector_bounds p Hp). destruct (fa_geom (FlashAreaLaws := FL)) as (HP & Hal & _ & Hd).
  pose proof (len_nonneg b).
  assert ((p * P + w) mod al = 0) as Hm.
  { rewrite Z.add_mod by lia. assert ((p * P) mod al = 0) as ->.
    - rewrite Z.mul_mod, Hd, Z.mul_0_r by lia. apply Z.mod_0_l. lia.
    - rewrite Hm1. apply Z.mod_0_l. lia. }
  eapply wp_mono; [apply (fa_write_law (FlashAreaLaws := FL)); try done; lia|].
  cbv beta. intros r f' (Hu & b' & Hl & Hi & Hr). split; [done|]. exists b'.
  destruct (sector_splice f f' p w b' Hp Hw ltac:(lia) Hi) as [E Ho]. split; [done|]. split; [done|].
  rewrite sector_in, slice_slice by (done || lia). done.
Qed.

Lemma wp_lift {A} (m : M (flash_be F) A) (H : keeps m) s (Q : res A -> store_st -> Prop) :
  wp m (be s) (fun r b => forall Hb, Q r (mk_store_st b Hb)) -> wp (lift m H) s Q.
Proof.
  unfold wp, lift. generalize (H (be s) (be_wf s)). destruct (m (be s)) as [r b]. cbn [fst snd]. intros Hb HQ. apply HQ.
Qed.

Lemma wp_dev {A} (m : M F A) s (Q : res A -> flash_be F -> Prop) :
  wp m (dev s) (fun r f => Q r (mk_flash_be (g_fa s) (g_peb_size s) f)) -> wp (Flash.on_dev m) s Q.
Proof. unfold wp, Flash.on_dev. by destruct (m (dev s)). Qed.

Lemma flash_open_spec discard s :
  wp (Flash.blob_db_store_open discard) s (fun r s' =>
    (up (dev s) -> is_ok r = true /\ up (dev s')) /\ fimg (dev s') = fimg (dev s) /\
    match r with Ok sg => sg = flash_geom /\ g_peb_size s' = P | Err e => device_err e /\ g_peb_size s' = g_peb_size s end).
Proof.
  destruct (fa_geom (FlashAreaLaws := FL)) as (HP & Hal & Hn & _). unfold wp, Flash.blob_db_store_open.
  pose proof (fa_open_law (FlashAreaLaws := FL) (dev s)) as Ho. unfold wp in Ho.
  destruct (flash_area_open (dev s)) as [[sz|e] f]; destruct Ho as (Hu & Hi & Hr); cbn [is_ok dev g_peb_size]; [|tauto].
  destruct (fa_sectors_law (FlashAreaLaws := FL) 4 f ltac:(lia)) as (rc & ss & f' & -> & Hi' & Hu' & Hrc & Hss).
  destruct rc as [[]|e].
  2: destruct (decide (e = ENOMEM)) as [->|Hne].
  3: { destruct (fa_close_law (FlashAreaLaws := FL) f') as [Hc _]. destruct Hrc as [?|Hde]; [done|].
       assert (match e with ENOMEM => None | _ => Some e end = Some e) as -> by (by destruct e).
       cbn [Flash.err_close is_ok dev g_peb_size]. split; [|split; [congruence|done]].
       intros Hup. destruct (Hu' (proj2 (Hu Hup))) as [_ [?|?]]; congruence. }
  all: destruct (Hss ltac:(auto)) as [Hnn Hall]; destruct ss as [|q rest]; [done|];
    assert (q = P) as -> by (apply Hall; left);
    assert (forallb (fun x => x =? P) rest = true) as -> by
      (apply forallb_forall; intros x Hx%list_elem_of_In; apply Z.eqb_eq, Hall; by right);
    subst sz; rewrite (fa_align_law (FlashAreaLaws := FL)), Z.mod_mul by lia;
    assert (al =? 0 = false) as -> by lia; rewrite Z.div_mul, u16_small by lia; cbn [negb Z.eqb is_ok dev g_peb_size];
    (split; [intros Hup; split; [done|apply Hu', Hu, Hup]|split; [congruence|done]]).
Qed.

Lemma flash_replace_spec s p b :
  be_inv s -> 0 <= p < n -> len b <= P -> len b mod al = 0 -> bytes_ok b ->
  wp (Flash.blob_db_store_replace (p * P) b) s (fun r s' =>
    (up (dev s) -> is_ok r = true /\ up (dev s')) /\ (forall q, q <> p -> sector (dev s') q = sector (dev s) q) /\
    match r with Ok _ => sector (dev s') p = b ++ erased (P - len b) | Err e => device_err e end).
Proof.
  intros Hs Hp Hl Hm Hb. destruct (fa_geom (FlashAreaLaws := FL)) as (HP & Hal & _). pose proof (len_nonneg b).
  unfold Flash.blob_db_store_replace. apply wp_bnd, wp_gets. cbv beta iota. apply Z.eqb_eq in Hs as ->.
  apply wp_bnd, wp_dev. eapply wp_mono; [by apply erase_sector|]. cbv beta.
  intros r f (Hu & b1 & Hl1 & E1 & Ho1 & Hr). destruct r as [[]|e]; cbn [dev].
  2: { split; [intros Hup; by destruct (Hu Hup)|done]. }
  subst b1. replace (p * P) with (p * P + 0) by lia. apply wp_dev. cbn [dev].
  eapply wp_mono; [apply (write_sector f p 0 b Hp ltac:(lia) ltac:(lia) ltac:(apply Z.mod_0_l; lia) Hm Hb)|]. cbv beta.
  intros r f' (Hu' & b2 & E2 & Ho2 & Hr2). cbn [dev]. split; [intros Hup; by apply Hu', Hu|].
  split; [intros q Hq; by rewrite Ho2, Ho1|]. destruct r; [|tauto]. rewrite E2. rewrite Hr in Hr2 |- *.
  rewrite slice_erased in Hr2 by lia. apply prog_done_erased in Hr2 as ->; [|done].
  unfold splice. change (zt 0 (erased P)) with (@nil Z). rewrite app_nil_l. f_equal. unfold zd, erased. rewrite drop_replicate. f_equal. lia.
Qed.

#[export] Instance flash_store_laws : StoreLaws store_st flash_geom.
Proof.
  destruct (fa_geom (FlashAreaLaws := FL)) as (HP & Hal & Hn & Hd). split; cbn [sg_n_pebs sg_peb_size flash_geom].
  - intros s p Hp. by apply len_sector.
  - intros s p. cbn. unfold sector. destruct (_ && _); [|constructor]. apply bytes_ok_slice, (fimg_bytes (FlashAreaLaws := FL)).
  - intros d s. pose proof (flash_open_spec d (be s)) as Ho. cbn [blob_db_store_open flash_store]. unfold wp, open_checked in *.
    destruct (Flash.blob_db_store_open d (be s)) as [r s']. destruct Ho as (Hu & Hi & Hr).
    assert (be_inv s') as Hs'. { apply Z.eqb_eq. destruct r; [tauto|]. destruct Hr as [_ ->]. apply Z.eqb_eq, be_wf. }
    destruct (decide (be_inv s')) as [Hb|]; [|done]. split; [done|]. split; [intros _ p; by apply sector_same|]. destruct r; tauto.
  - intros s. unfold same_flash. cbn. unfold Flash.blob_db_store_close. destruct (g_fa (be s)); [|done]. cbn.
    destruct (fa_close_law (FlashAreaLaws := FL) (dev (be s))) as [Hc Hu]. split; [|done]. intros p. by apply sector_same.
  - intros s p w k Hp Hw Hk Hf. pose proof (sector_bounds p Hp). apply wp_lift, wp_dev.
    eapply wp_mono; [apply (fa_read_law (FlashAreaLaws := FL)); lia|]. cbv beta. intros r f (Hu & Hi & Hr) Hb.
    split; [done|]. split; [intros q; by apply sector_same|]. destruct r; [|done]. cbn. rewrite sector_in, slice_slice by (done || lia). done.
  - intros s p w b Hp Hw _ Hf Hm1 Hm2 Hb. apply wp_lift, wp_dev.
    eapply wp_mono; [by apply write_sector|]. cbv beta. intros r f (Hu & b' & Hi & Ho & Hr) Hb'.
    split; [done|]. exists b'. split; [split; done|done].
  - intros s p Hp. apply wp_lift, wp_dev. eapply wp_mono; [by apply erase_sector|]. cbv beta.
    intros r f (Hu & b' & Hl & Hi & Ho & Hr) Hb'. split; [done|]. exists b'. split; [split; done|done].
  - intros s. apply wp_lift, wp_dev.
    eapply wp_mono; [apply (fa_erase_law (FlashAreaLaws := FL)); [lia|nia|lia|apply Z.mod_0_l; lia|apply Z.mod_mul; lia]|]. cbv beta.
    intros r f (Hu & b' & Hl & Hi & Hr) Hb'. split; [done|]. destruct r; [|done]. intros p Hp. cbn. pose proof (sector_bounds p Hp).
    rewrite sector_in, Hi, splice_0 by (done || rewrite ?(fimg_len (FlashAreaLaws := FL)); lia). subst b'. apply slice_erased; lia.
  - intros s p b Hp Hl Hm Hb. apply wp_lift. eapply wp_mono; [apply (flash_replace_spec _ p b (be_wf s) Hp Hl Hm Hb)|]. cbv beta.
    intros r s' (Hu & Ho & Hr) Hb'. split; [done|]. exists (sector (dev s') p). split; [split; done|]. destruct r; [done|]. done.
  - intros k s. done.
Qed.
End instance.
