(* ===== verification/Sim.v ===== *)
(** A concrete device and concrete checksums: NOR flash with scheduled faults,
    and the CRCs of zephyr/sys/crc.h. Every hypothesis of the development about
    code outside the repository holds of them. *)

From S2P Require Import Prelude Layout Store FlashStore.

(** * Checksums *)

Fixpoint iter_bits (k : nat) (f : Z -> Z) (x : Z) : Z :=
  match k with O => x | S k => iter_bits k f (f x) end.

(** CRC-16/CCITT as Zephyr computes it (reflected, polynomial 0x8408) and
    CRC-32/IEEE (reflected, polynomial 0xedb88320, complemented at both ends). *)
Definition crc_bit (poly c : Z) : Z :=
  if Z.odd c then Z.lxor (Z.shiftr c 1) poly else Z.shiftr c 1.
Definition crc16_byte (c b : Z) : Z := u16 (iter_bits 8 (crc_bit 33800) (Z.lxor c b)).
Definition crc32_byte (c b : Z) : Z := u32 (iter_bits 8 (crc_bit 3988292384) (Z.lxor c b)).

#[export] Instance sim_crc : Crc := {
  crc16_ccitt seed b := fold_left crc16_byte b (u16 seed);
  crc32_ieee b := Z.lxor (fold_left crc32_byte b UINT32_MAX) UINT32_MAX mod 2 ^ 32;
  crc32_ieee_update c b := Z.lxor (fold_left crc32_byte b (Z.lxor c UINT32_MAX)) UINT32_MAX mod 2 ^ 32;
}.

Lemma crc16_fold_range b s : 0 <= s < 2 ^ 16 -> 0 <= fold_left crc16_byte b s < 2 ^ 16.
Proof.
  revert s. induction b as [|x b IH]; intros s Hs; [done|]. cbn [fold_left]. apply IH. unfold crc16_byte, u16.
  apply Z.mod_pos_bound. lia.
Qed.

#[export] Instance sim_crc_laws : CrcLaws sim_crc.
Proof.
  assert (forall s, 0 <= u16 s < 2 ^ 16) as Hu by (intros s; apply Z.mod_pos_bound; lia).
  split; cbn.
  - intros s b. by apply crc16_fold_range.
  - intros b. apply Z.mod_pos_bound. lia.
  - intros s b. apply Z.mod_pos_bound. lia.
  - intros s a b. rewrite fold_left_app. f_equal. apply u16_small. pose proof (crc16_fold_range a (u16 s) (Hu s)). lia.
Qed.

(** * A NOR partition of [n] sectors of [P] bytes

    [faults] schedules the outcome of the operations to come; past its end they
    all succeed. Programming clears bits; a program that fails stops half way,
    an erase that fails has not begun. *)
Record nor := mk_nor { cells : bytes; faults : list bool }.

Section nor.
Context (P al n : Z).

Definition nor_img (f : nor) : bytes := map (fun b => b mod 256) (zt (n * P) (cells f ++ erased (n * P))).

Definition program (old new : bytes) : bytes := zip_with Z.land old new.

Definition torn (old new : bytes) : bytes :=
  let k := (len new + 1) / 2 in program (zt k old) (zt k new) ++ zd k old.

Definition nor_op {A} (f : nor) (ok : A * bytes) (bad : bytes) : res A * nor :=
  match faults f with
  | true :: fs => (Err EIO, mk_nor bad fs)
  | _ => (Ok (fst ok), mk_nor (snd ok) (tail (faults f)))
  end.

Definition put_at (f : nor) (off : Z) (b : bytes) : bytes := splice off b (nor_img f).

#[export] Instance nor_flash : FlashArea nor := {
  flash_area_open f := nor_op f (n * P, nor_img f) (nor_img f);
  flash_area_close f := f;
  flash_area_sectors k f := ((if n <=? k then Ok tt else Err ENOMEM, replicate (Z.to_nat (Z.min k n)) P), f);
  flash_area_align _ := al;
  flash_area_read off k f := nor_op f (slice off k (nor_img f), nor_img f) (nor_img f);
  flash_area_write off b f :=
    nor_op f (tt, put_at f off (program (slice off (len b) (nor_img f)) b)) (put_at f off (torn (slice off (len b) (nor_img f)) b));
  flash_area_erase off k f := nor_op f (tt, put_at f off (erased k)) (nor_img f);
}.

#[export] Instance nor_view : FlashAreaView nor := {
  fimg := nor_img;
  up f := Forall (fun x => x = false) (faults f);
}.

Lemma len_nor_img f : 0 <= n * P -> len (nor_img f) = n * P.
Proof.
  intros H. unfold nor_img, len. rewrite length_map. unfold zt. rewrite length_take, length_app. unfold erased.
  rewrite length_replicate. lia.
Qed.

Lemma bytes_ok_nor_img f : bytes_ok (nor_img f).
Proof. unfold nor_img. apply Forall_forall. intros x Hx.
  apply in_map_iff in Hx as (b & <- & _). unfold byte_ok. pose proof (Z.mod_pos_bound b 256). lia. Qed.

Lemma nor_img_id c fs : len c = n * P -> bytes_ok c -> nor_img (mk_nor c fs) = c.
Proof.
  intros Hl Hb. unfold nor_img. cbn [cells]. rewrite zt_slice, slice_app_l by lia. rewrite slice_all by done.
  rewrite <- (map_id c) at 2. apply map_ext_in. intros b Hin. apply Z.mod_small.
  by apply (proj1 (List.Forall_forall _ _) Hb).
Qed.

Lemma wp_nor_op {A} f (ok : A * bytes) bad (Q : res A -> nor -> Prop) :
  (forall fs, Q (Err EIO) (mk_nor bad fs)) -> (forall fs, (up f -> up (mk_nor (snd ok) fs)) -> Q (Ok (fst ok)) (mk_nor (snd ok) fs)) ->
  let (r, f') := nor_op f ok bad in (up f -> is_ok r = true /\ up f') /\ Q r f'.
Proof.
  intros Hbad Hok. unfold nor_op, up, nor_view in *. destruct (faults f) as [|[] fs]; cbn.
  - split; [by repeat constructor|]. apply Hok. intros _. constructor.
  - split; [|apply Hbad]. intros Hf. by inversion Hf.
  - split; [intros Hf; apply Forall_inv_tail in Hf; auto|]. apply Hok. intros Hf. by apply Forall_inv_tail in Hf.
Qed.

Lemma len_program old new : len old = len new -> len (program old new) = len new.
Proof. unfold program, len. rewrite length_zip_with. lia. Qed.

Lemma lookup_program old new i b :
  program old new !! i = Some b -> exists o m, old !! i = Some o /\ new !! i = Some m /\ b = Z.land o m.
Proof. unfold program. intros Hb. apply lookup_zip_with_Some in Hb as (o & m & -> & Ho & Hm). eauto. Qed.

Lemma land_255 m : byte_ok m -> Z.land 255 m = m.
Proof. intros Hm. unfold byte_ok in Hm. change 255 with (Z.ones 8). rewrite Z.land_comm, Z.land_ones, Z.mod_small; lia. Qed.

Lemma land_byte o m : byte_ok o -> byte_ok m -> byte_ok (Z.land o m).
Proof.
  unfold byte_ok. intros Ho Hm. assert (m = Z.land m (Z.ones 8)) as -> by (rewrite Z.land_ones, Z.mod_small; lia).
  rewrite Z.land_assoc, Z.land_ones by lia. apply Z.mod_pos_bound. lia.
Qed.

Lemma lor_absorbs m o : Z.lor m (Z.land m o) = m.
Proof. apply Z.bits_inj'. intros k Hk. rewrite Z.lor_spec, Z.land_spec. by destruct (Z.testbit m k), (Z.testbit o k). Qed.

Lemma land_is_255 o m : byte_ok o -> byte_ok m -> Z.land o m = 255 -> m = 255.
Proof.
  intros Ho Hm E. unfold byte_ok in *. assert (255 <= m); [|lia]. apply lor_superset_le; [lia|]. rewrite <- E.
  rewrite (Z.land_comm o m). apply lor_absorbs.
Qed.

Lemma bytes_ok_program old new : bytes_ok old -> bytes_ok new -> bytes_ok (program old new).
Proof.
  intros Ho Hn. apply Forall_lookup. intros i b Hb. apply lookup_program in Hb as (o & m & Hi & Hj & ->).
  apply land_byte; [exact (Forall_lookup_1 _ _ _ _ Ho Hi)|exact (Forall_lookup_1 _ _ _ _ Hn Hj)].
Qed.

Lemma program_done old new :
  len old = len new -> bytes_ok old -> bytes_ok new -> prog_done old new (program old new).
Proof.
  intros Hl Ho Hn. split; [by apply len_program|]. split; [by apply bytes_ok_program|]. intros i o m b Hi Hj Hb.
  apply lookup_program in Hb as (o' & m' & Hi' & Hj' & ->). simplify_eq. split; [|intros ->; apply Z.land_0_r].
  intros ->. apply land_255. exact (Forall_lookup_1 _ _ _ _ Hn Hj).
Qed.

Lemma torn_torn old new : len old = len new -> bytes_ok old -> bytes_ok new -> prog_torn old new (torn old new).
Proof.
  intros Hl Ho Hn. unfold torn. set (k := (len new + 1) / 2). pose proof (len_nonneg new) as Hnn.
  assert (0 <= k /\ (0 < len new -> 1 <= k) /\ k <= len new) as (Hk0 & Hk1 & Hk2).
  { unfold k. pose proof (Z.div_mod (len new + 1) 2). pose proof (Z.mod_pos_bound (len new + 1) 2). lia. }
  assert (len (program (zt k old) (zt k new)) = k) as Hlp by (rewrite len_program; rewrite !len_zt by lia; lia).
  split_and!.
  - rewrite len_app, Hlp, len_zd by lia. lia.
  - apply bytes_ok_app. split; [apply bytes_ok_program|]; unfold zt, zd; (by apply Forall_take) || by apply Forall_drop.
  - intros i m b Hi Hj Hb. assert (byte_ok m) as Hm by exact (Forall_lookup_1 _ _ _ _ Hn Hj). unfold len in *.
    destruct (decide (Z.of_nat i < k)).
    + rewrite lookup_app_l in Hb by lia. apply lookup_program in Hb as (o' & m' & Hi' & Hj' & ->).
      unfold zt in *. rewrite lookup_take_lt in Hi', Hj' by lia. simplify_eq. rewrite land_255 by done. apply Z.lor_diag.
    + rewrite lookup_app_r in Hb by lia. unfold zd in Hb. rewrite lookup_drop in Hb.
      replace (Z.to_nat k + (i - length (program (zt k old) (zt k new))))%nat with i in Hb by lia. simplify_eq.
      rewrite <- (land_255 m Hm) at 1. apply lor_absorbs.
  - intros Hb Hne. destruct new as [|m new]; [by destruct old|]. destruct old as [|o old]; [done|].
    exfalso. apply Hne. cbn. f_equal. unfold len in *.
    rewrite lookup_app_l in Hb by (cbn [length] in *; lia). apply lookup_program in Hb as (o' & m' & Hi' & Hj' & E).
    unfold zt in *. rewrite lookup_take_lt in Hi', Hj' by (cbn [length] in *; lia). cbn in Hi', Hj'. simplify_eq.
    eapply land_is_255; [| |done]; [by inversion Ho|by inversion Hn].
Qed.

Lemma nor_laws : 0 < P -> 0 < al -> 1 <= n <= 65535 -> P mod al = 0 -> FlashAreaLaws nor P al n.
Proof.
  intros HP Hal Hn Hd. assert (0 <= n * P) as HnP by nia.
  assert (forall f fs, nor_img (mk_nor (nor_img f) fs) = nor_img f) as Hid
    by (intros; apply nor_img_id; auto using len_nor_img, bytes_ok_nor_img).
  assert (forall f off b fs, 0 <= off -> off + len b <= n * P -> bytes_ok b ->
    nor_img (mk_nor (put_at f off b) fs) = splice off b (nor_img f)) as Hput.
  { intros f off b fs H1 H2 H3. pose proof (len_nor_img f HnP). unfold put_at. apply nor_img_id.
    - rewrite len_splice by lia. done.
    - apply bytes_ok_splice; auto using bytes_ok_nor_img. }
  assert (device_err EIO) as Hio by (unfold device_err; split_and!; done).
  split; [done|exact (fun f => len_nor_img f HnP)|exact bytes_ok_nor_img|..].
  - intros f. apply (wp_nor_op f); cbn [fst snd]; auto.
  - done.
  - intros k f Hk. cbn. eexists _, _, _. split; [done|]. split; [done|]. split; [|split].
    + intros Hu. split; [done|]. destruct (n <=? k); auto.
    + destruct (n <=? k); auto.
    + intros _. split; [|intros sz Hsz%elem_of_replicate; tauto].
      destruct (Z.to_nat (Z.min k n)) eqn:E; [lia|done].
  - done.
  - intros f off k H1 H2 H3. apply (wp_nor_op f); cbn [fst snd]; auto.
  - intros f off b H1 H2 H3 H4 H5. pose proof (len_nor_img f HnP). pose proof (len_nonneg b).
    assert (len (slice off (len b) (nor_img f)) = len b) as Hl by (apply len_slice; lia).
    assert (bytes_ok (slice off (len b) (nor_img f))) as Hb by apply bytes_ok_slice, bytes_ok_nor_img.
    destruct (torn_torn _ _ Hl Hb H5) as (Ht1 & Ht2 & Ht3). pose proof (len_program _ _ Hl) as Hp.
    apply (wp_nor_op f); cbn [fst snd].
    + intros fs. exists (torn (slice off (len b) (nor_img f)) b). split; [done|]. split; [apply Hput; lia || done|].
      split; [done|]. by apply torn_torn.
    + intros fs _. exists (program (slice off (len b) (nor_img f)) b). split; [done|].
      split; [apply Hput; [lia..|by apply bytes_ok_program]|]. by apply program_done.
  - intros f off k H1 H2 H3 H4 H5. pose proof (len_nor_img f HnP). apply (wp_nor_op f); cbn [fst snd].
    + intros fs. exists (slice off k (nor_img f)). split; [apply len_slice; lia|]. split; [|done].
      cbn. rewrite Hid. symmetry. apply splice_slice; lia.
    + intros fs _. exists (erased k). split; [by apply len_erased|]. split; [|done].
      apply Hput; rewrite ?len_erased by lia; auto using bytes_ok_erased.
Qed.
End nor.
