(* ===== verification/SlotIndexIface.v ===== *)
(** The slot index as blob_db.c sees it (lib/blob_db/blob_db_slot_index.h): the
    calls, what they promise, and the inline no-op implementation a build
    without CONFIG_BLOB_DB_SLOT_INDEX gets. *)

From S2P Require Import Prelude.

Class SlotIndex (I : Type) := {
  blob_db_sidx_reset : Z -> I -> I;
  blob_db_sidx_disable : I -> I;
  blob_db_sidx_forget : Z -> I -> I;
  blob_db_sidx_begin : Z -> Z -> I -> I;
  blob_db_sidx_note : Z -> Z -> Z -> Z -> bool -> I -> I;
  blob_db_sidx_learn : Z -> Z -> Z -> Z -> I -> I;
  blob_db_sidx_lookup : Z -> Z -> I -> option (Z * Z);
  blob_db_sidx_cursor : Z -> I -> option Z;
}.

(** What an index may answer after each call, in terms of what it could answer
    before: it may know less, never something else. [sidx_wf n] is the
    implementation's own invariant for [n] buckets. *)
Class SlotIndexLaws (I : Type) `{!SlotIndex I} (sidx_wf : Z -> I -> Prop) : Prop := {
  reset_wf : forall m n x, sidx_wf m x -> 0 < n < 65536 -> sidx_wf n (blob_db_sidx_reset n x);
  reset_cursor : forall m n x b, sidx_wf m x -> 0 < n < 65536 -> 0 <= b -> blob_db_sidx_cursor b (blob_db_sidx_reset n x) = None;
  disable_wf : forall m x, sidx_wf m x -> sidx_wf m (blob_db_sidx_disable x);

  lookup_needs_cursor : forall n x b id o c, sidx_wf n x -> 0 <= b < n ->
    blob_db_sidx_lookup b id x = Some (o, c) -> blob_db_sidx_cursor b x = Some c;

  forget_wf : forall n x b, sidx_wf n x -> 0 <= b < n -> sidx_wf n (blob_db_sidx_forget b x);
  forget_cursor : forall n x b b' c, sidx_wf n x -> 0 <= b < n -> 0 <= b' < n ->
    blob_db_sidx_cursor b' (blob_db_sidx_forget b x) = Some c ->
    b' <> b /\ blob_db_sidx_cursor b' x = Some c;
  forget_lookup : forall n x b id r, sidx_wf n x -> 0 <= b < n -> 0 < id < 2 ^ 64 ->
    blob_db_sidx_lookup (id mod n) id (blob_db_sidx_forget b x) = Some r ->
    id mod n <> b /\ blob_db_sidx_lookup (id mod n) id x = Some r;

  begin_wf : forall n x b d, sidx_wf n x -> 0 <= b < n -> 0 < d < 2 ^ 32 ->
    sidx_wf n (blob_db_sidx_begin b d x);
  begin_cursor : forall n x b d b' c, sidx_wf n x -> 0 <= b < n -> 0 <= b' < n -> 0 < d < 2 ^ 32 ->
    blob_db_sidx_cursor b' (blob_db_sidx_begin b d x) = Some c ->
    (b' = b /\ c = d) \/ (b' <> b /\ blob_db_sidx_cursor b' x = Some c);
  begin_lookup : forall n x b d id r, sidx_wf n x -> 0 <= b < n -> 0 < d < 2 ^ 32 -> 0 < id < 2 ^ 64 ->
    blob_db_sidx_lookup (id mod n) id (blob_db_sidx_begin b d x) = Some r ->
    id mod n <> b /\ blob_db_sidx_lookup (id mod n) id x = Some r;

  note_wf : forall n x id o sz t, sidx_wf n x -> 0 < id < 2 ^ 64 -> 0 < o -> 0 < sz -> o + sz < 2 ^ 32 ->
    sidx_wf n (blob_db_sidx_note (id mod n) id o sz t x);
  note_cursor : forall n x id o sz t b' c, sidx_wf n x -> 0 < id < 2 ^ 64 -> 0 < o -> 0 < sz ->
    o + sz < 2 ^ 32 -> 0 <= b' < n ->
    blob_db_sidx_cursor b' (blob_db_sidx_note (id mod n) id o sz t x) = Some c ->
    (b' = id mod n /\ blob_db_sidx_cursor b' x = Some o /\ c = o + sz) \/
    (b' <> id mod n /\ blob_db_sidx_cursor b' x = Some c);
  note_lookup : forall n x id o sz t id' o' c, sidx_wf n x -> 0 < id < 2 ^ 64 -> 0 < o -> 0 < sz ->
    o + sz < 2 ^ 32 -> 0 < id' < 2 ^ 64 ->
    blob_db_sidx_lookup (id' mod n) id' (blob_db_sidx_note (id mod n) id o sz t x) = Some (o', c) ->
    (id' = id /\ t = false /\ o' = o) \/
    (id' <> id /\ exists c0, blob_db_sidx_lookup (id' mod n) id' x = Some (o', c0));

  learn_wf : forall n x id o cur, sidx_wf n x -> 0 < id < 2 ^ 64 -> o < 2 ^ 32 -> 0 < cur < 2 ^ 32 ->
    sidx_wf n (blob_db_sidx_learn (id mod n) id o cur x);
  learn_cursor : forall n x id o cur b' c, sidx_wf n x -> 0 < id < 2 ^ 64 -> o < 2 ^ 32 ->
    0 < cur < 2 ^ 32 -> 0 <= b' < n ->
    blob_db_sidx_cursor b' (blob_db_sidx_learn (id mod n) id o cur x) = Some c ->
    (b' = id mod n /\ c = cur) \/ (b' <> id mod n /\ blob_db_sidx_cursor b' x = Some c);
  learn_lookup : forall n x id o cur id' o' c, sidx_wf n x -> 0 < id < 2 ^ 64 -> o < 2 ^ 32 ->
    0 < cur < 2 ^ 32 -> 0 < id' < 2 ^ 64 ->
    blob_db_sidx_lookup (id' mod n) id' (blob_db_sidx_learn (id mod n) id o cur x) = Some (o', c) ->
    (id' = id /\ 0 <= o /\ o' = o) \/
    (exists c0, blob_db_sidx_lookup (id' mod n) id' x = Some (o', c0));
}.

(** ** The no-op index (the [#else] branch of blob_db_slot_index.h) *)
Module NoIndex.

#[export] Instance no_index : SlotIndex unit := {
  blob_db_sidx_reset _ x := x;
  blob_db_sidx_disable x := x;
  blob_db_sidx_forget _ x := x;
  blob_db_sidx_begin _ _ x := x;
  blob_db_sidx_note _ _ _ _ _ x := x;
  blob_db_sidx_learn _ _ _ _ x := x;
  blob_db_sidx_lookup _ _ _ := None;
  blob_db_sidx_cursor _ _ := None;
}.

#[export] Instance no_index_laws : SlotIndexLaws unit (fun _ _ => True).
Proof. split; simpl; intros; (done || naive_solver). Qed.
End NoIndex.
