(* ===== verification/SlotIndexHash.v ===== *)
(** The RAM slot index (lib/blob_db/blob_db_slot_index.c): an open-addressed
    hash table with linear probing and backward-shift deletion, and one append
    cursor per bucket; then the invariant of its table and what each operation
    does to it. SlotIndexLaws.v concludes that it keeps the contract of
    SlotIndexIface.v. *)

From S2P Require Import Prelude SlotIndexIface.

(** The statics of the file. *)
Record sidx := mk_sidx {
  g_ids : list Z;
  g_offs : list Z;
  g_used : Z;
  g_cursor : list Z;
  g_bcnt : list Z;
  g_n_buckets : Z;
}.

Definition lget (l : list Z) (i : Z) : Z := default 0 (l !! Z.to_nat i).
Definition lset (l : list Z) (i v : Z) : list Z := <[Z.to_nat i := v]> l.

Section index.
(** CONFIG_BLOB_DB_SLOT_INDEX_ENTRIES and _MAX_BUCKETS *)
Context (CAP MAX_BKT : Z).

Definition MAX_FILL : Z := CAP - CAP / 8.

Definition next (i : Z) : Z := Z.land (i + 1) (CAP - 1).

Definition home (id : Z) : Z := Z.land (u32 (Z.shiftr (u64 (id * 11400714819323198485)) 32)) (CAP - 1).

Definition bucket_of (x : sidx) (id : Z) : Z := u16 (id mod g_n_buckets x).

Fixpoint find_from (fuel : nat) (ids : list Z) (id i : Z) : Z :=
  match fuel with
  | O => -1
  | S fuel => if lget ids i =? id then i else if lget ids i =? 0 then -1 else find_from fuel ids id (next i)
  end.

Definition find (x : sidx) (id : Z) : Z := find_from (Z.to_nat CAP) (g_ids x) id (home id).

(** The [for (;;)] of [remove_at()]: [i] is the hole, [j] the last cell looked
    at. A table that is not full ends it within [CAP] steps. *)
Fixpoint remove_loop (fuel : nat) (ids offs : list Z) (i j : Z) : list Z * list Z :=
  match fuel with
  | O => (ids, offs)
  | S fuel =>
      let j := next j in
      if lget ids j =? 0 then (ids, offs)
      else
        let h := home (lget ids j) in
        let stays := if i <=? j then (i <? h) && (h <=? j) else (i <? h) || (h <=? j) in
        if negb stays
        then remove_loop fuel (lset (lset ids i (lget ids j)) j 0) (lset offs i (lget offs j)) j j
        else remove_loop fuel ids offs i j
  end.

Definition remove_at (x : sidx) (i : Z) : sidx :=
  let b := bucket_of x (lget (g_ids x) i) in
  let bcnt := lset (g_bcnt x) b (u16 (lget (g_bcnt x) b - 1)) in
  let p := remove_loop (Z.to_nat CAP) (lset (g_ids x) i 0) (g_offs x) i i in
  mk_sidx (fst p) (snd p) (u32 (g_used x - 1)) (g_cursor x) bcnt (g_n_buckets x).

(** The probe of [put()]: the cell it stops at, and whether that holds [id]. *)
Fixpoint put_probe (fuel : nat) (ids : list Z) (id i : Z) : Z * bool :=
  match fuel with
  | O => (i, false)
  | S fuel => if lget ids i =? id then (i, true) else if lget ids i =? 0 then (i, false) else put_probe fuel ids id (next i)
  end.

Definition put (x : sidx) (id off : Z) : sidx :=
  let (i, present) := put_probe (Z.to_nat CAP) (g_ids x) id (home id) in
  if present then mk_sidx (g_ids x) (lset (g_offs x) i off) (g_used x) (g_cursor x) (g_bcnt x) (g_n_buckets x)
  else if g_used x >=? MAX_FILL then x
  else
    let b := bucket_of x id in
    mk_sidx (lset (g_ids x) i id) (lset (g_offs x) i off) (u32 (g_used x + 1)) (g_cursor x)
      (lset (g_bcnt x) b (u16 (lget (g_bcnt x) b + 1))) (g_n_buckets x).

Definition drop_id (x : sidx) (id : Z) : sidx := if find x id >=? 0 then remove_at x (find x id) else x.

Definition on (x : sidx) (bid : Z) : bool := negb (g_n_buckets x =? 0) && (bid <? g_n_buckets x).

Definition set_cursor (x : sidx) (bid c : Z) : sidx :=
  mk_sidx (g_ids x) (g_offs x) (g_used x) (lset (g_cursor x) bid c) (g_bcnt x) (g_n_buckets x).

Definition reset (n_buckets : Z) (x : sidx) : sidx :=
  mk_sidx (replicate (Z.to_nat CAP) 0) (g_offs x) 0 (replicate (Z.to_nat MAX_BKT) 0) (replicate (Z.to_nat MAX_BKT) 0)
    (if n_buckets >? MAX_BKT then 0 else n_buckets).

Definition disable (x : sidx) : sidx := reset 0 x.

(** The sweep of [blob_db_sidx_forget()]: a removal leaves [i], anything else
    advances it, so [CAP] cells and the bucket's entries bound the steps. *)
Fixpoint forget_sweep (fuel : nat) (x : sidx) (bid i : Z) : sidx :=
  match fuel with
  | O => x
  | S fuel =>
      if (i <? CAP) && negb (lget (g_bcnt x) bid =? 0) then
        if negb (lget (g_ids x) i =? 0) && (bucket_of x (lget (g_ids x) i) =? bid)
        then forget_sweep fuel (remove_at x i) bid i
        else forget_sweep fuel x bid (i + 1)
      else x
  end.

Definition forget (bid : Z) (x : sidx) : sidx :=
  if negb (on x bid) then x
  else
    let x := set_cursor x bid 0 in
    forget_sweep (Z.to_nat (CAP + lget (g_bcnt x) bid)) x bid 0.

Definition begin (bid data_off : Z) (x : sidx) : sidx :=
  if negb (on x bid) then x else set_cursor (forget bid x) bid data_off.

Definition note (bid id off size : Z) (tombstone : bool) (x : sidx) : sidx :=
  if negb (on x bid) || (lget (g_cursor x) bid =? 0) then x
  else if negb (off =? lget (g_cursor x) bid) then forget bid x
  else
    let x := set_cursor x bid (u32 (off + size)) in
    if tombstone then drop_id x id else put x id off.

Definition learn (bid id off cursor : Z) (x : sidx) : sidx :=
  if negb (on x bid) || (cursor =? 0) then x
  else if negb (lget (g_cursor x) bid =? 0) && negb (lget (g_cursor x) bid =? cursor) then forget bid x
  else
    let x := if lget (g_cursor x) bid =? 0 then set_cursor x bid cursor else x in
    if off >=? 0 then put x id (u32 off) else x.

Definition lookup_off (bid id : Z) (x : sidx) : option (Z * Z) :=
  if negb (on x bid) || (lget (g_cursor x) bid =? 0) then None
  else if find x id <? 0 then None
  else Some (lget (g_offs x) (find x id), lget (g_cursor x) bid).

Definition cursor_of (bid : Z) (x : sidx) : option Z :=
  if negb (on x bid) || (lget (g_cursor x) bid =? 0) then None else Some (lget (g_cursor x) bid).

(** [blob_db_sidx_usage()]: entries in use and capacity. *)
Definition usage (x : sidx) : Z * Z := (g_used x, MAX_FILL).

#[export] Instance hash_index : SlotIndex sidx := {
  blob_db_sidx_reset := reset;
  blob_db_sidx_disable := disable;
  blob_db_sidx_forget := forget;
  blob_db_sidx_begin := begin;
  blob_db_sidx_note := note;
  blob_db_sidx_learn := learn;
  blob_db_sidx_lookup := lookup_off;
  blob_db_sidx_cursor := cursor_of;
}.
End index.

(** The hash table of SlotIndexHash.v is an exact map from ids to offsets, and
    the index built on it never answers what it was not told: the laws of
    SlotIndexIface.v. *)

(** ** Arrays *)

Lemma len_lset l i v : len (lset l i v) = len l.
Proof. unfold lset, len. by rewrite length_insert. Qed.

Lemma lget_lset l i v c : 0 <= i < len l -> 0 <= c -> lget (lset l i v) c = if c =? i then v else lget l c.
Proof.
  intros Hi Hc. unfold lget, lset, len in *. destruct (Z.eqb_spec c i) as [->|Hne].
  - by rewrite list_lookup_insert_eq by lia.
  - by rewrite list_lookup_insert_ne by lia.
Qed.

Lemma lget_replicate k v c : 0 <= c -> lget (replicate k 0) c = v -> v = 0.
Proof.
  intros Hc <-. unfold lget. destruct (replicate k 0 !! Z.to_nat c) eqn:E; [|done]. by apply lookup_replicate in E as [-> _].
Qed.

(** How many occupied cells hold an id of a kind. *)
Fixpoint cnt (p : Z -> bool) (l : list Z) : Z :=
  match l with
  | [] => 0
  | x :: l => (if negb (x =? 0) && p x then 1 else 0) + cnt p l
  end.

Definition one (p : Z -> bool) (x : Z) : Z := if negb (x =? 0) && p x then 1 else 0.

Lemma cnt_lset p l i v : 0 <= i < len l -> cnt p (lset l i v) = cnt p l - one p (lget l i) + one p v.
Proof.
  unfold lset, lget, len. intros Hi. assert (Z.to_nat i < length l)%nat as Hlt by lia. clear Hi.
  revert Hlt. generalize (Z.to_nat i). clear i. intros i. revert i.
  induction l as [|x l IH]; intros [|i] Hlt; cbn [length] in *; try lia; cbn [cnt]; unfold one in *.
  - change (<[0%nat:=v]> (x :: l)) with (v :: l). cbn. lia.
  - change (<[Datatypes.S i:=v]> (x :: l)) with (x :: <[i:=v]> l). cbn [cnt].
    change ((x :: l) !! Datatypes.S i) with (l !! i). rewrite IH by lia. lia.
Qed.

Lemma cnt_bound p l : 0 <= cnt p l <= len l.
Proof. unfold len. induction l as [|x l IH]; cbn [cnt length]; [lia|]. destruct (_ && _); lia. Qed.

Lemma cnt_mono p q l : (forall x, x <> 0 -> p x = true -> q x = true) -> cnt p l <= cnt q l.
Proof.
  intros Hpq. induction l as [|x l IH]; cbn [cnt]; [lia|]. destruct (Z.eqb_spec x 0); cbn [negb andb]; [lia|].
  destruct (p x) eqn:E; [rewrite (Hpq x) by done; lia|destruct (q x); lia].
Qed.

Lemma cnt_replicate p k : cnt p (replicate k 0) = 0.
Proof. induction k; cbn; [done|lia]. Qed.

Lemma cnt_pos p l i : 0 <= i < len l -> lget l i <> 0 -> p (lget l i) = true -> 0 < cnt p l.
Proof.
  intros Hi Hn Hp. pose proof (cnt_lset p l i 0 Hi) as E. unfold one in E. cbn [Z.eqb negb andb] in E.
  apply Z.eqb_neq in Hn. rewrite Hn, Hp in E. cbn in E. pose proof (cnt_bound p (lset l i 0)). lia.
Qed.

Lemma cnt_zero p l i : cnt p l = 0 -> 0 <= i < len l -> lget l i <> 0 -> p (lget l i) = false.
Proof.
  intros Hc Hi Hn. destruct (p (lget l i)) eqn:E; [|done]. pose proof (cnt_pos p l i Hi Hn E). lia.
Qed.

(** A table that is not full has a free cell. *)
Lemma free_cell l : cnt (fun _ => true) l < len l -> exists e, 0 <= e < len l /\ lget l e = 0.
Proof.
  induction l as [|x l IH]; [cbn; unfold len; cbn; lia|]. rewrite len_cons. cbn [cnt]. pose proof (len_nonneg l).
  destruct (Z.eqb_spec x 0) as [->|Hx]; cbn [negb andb]; intros Hc.
  - exists 0. split; [lia|done].
  - destruct IH as (e & He & Hl); [lia|]. exists (e + 1). split; [lia|]. unfold lget in *.
    replace (Z.to_nat (e + 1)) with (Datatypes.S (Z.to_nat e)) by lia. done.
Qed.

Section table.
Context (CAP MAX_BKT : Z).
Context (Hcap : exists k, 6 <= k <= 16 /\ CAP = 2 ^ k) (Hbkt : 1 <= MAX_BKT <= 65535).
Notation next := (next CAP).
Notation home := (home CAP).

(** How far [b] is past [a], around the table. *)
Definition dist (a b : Z) : Z := if a <=? b then b - a else b - a + CAP.

Definition cell (i : Z) : Prop := 0 <= i < CAP.

Lemma cap_range : 64 <= CAP <= 65536.
Proof.
  destruct Hcap as (k & Hk & ->). pose proof (Z.pow_le_mono_r 2 6 k). pose proof (Z.pow_le_mono_r 2 k 16).
  change (2 ^ 6) with 64 in *. change (2 ^ 16) with 65536 in *. lia.
Qed.

Lemma land_cap x : Z.land x (CAP - 1) = x mod CAP.
Proof.
  destruct Hcap as (k & Hk & ->). replace (2 ^ k - 1) with (Z.ones k) by (rewrite Z.ones_equiv; lia). apply Z.land_ones. lia.
Qed.

Lemma next_spec i : cell i -> cell (next i) /\ next i = (if i =? CAP - 1 then 0 else i + 1).
Proof.
  unfold cell, SlotIndexHash.next. intros Hi. rewrite land_cap. pose proof cap_range. split; [apply Z.mod_pos_bound; lia|].
  destruct (Z.eqb_spec i (CAP - 1)) as [->|].
  - replace (CAP - 1 + 1) with CAP by lia. apply Z.mod_same. lia.
  - apply Z.mod_small. lia.
Qed.

Lemma home_cell id : cell (home id).
Proof. unfold cell, SlotIndexHash.home. rewrite land_cap. pose proof cap_range. apply Z.mod_pos_bound. lia. Qed.

Ltac around :=
  unfold dist, cell in *;
  repeat match goal with
  | |- context [?a <=? ?b] => destruct (Z.leb_spec a b)
  | H : context [?a <=? ?b] |- _ => destruct (Z.leb_spec a b)
  end; try lia.

Lemma dist_range a b : cell a -> cell b -> 0 <= dist a b < CAP.
Proof. intros. around. Qed.

Lemma dist_0 a b : cell a -> cell b -> dist a b = 0 -> a = b.
Proof. intros. around. Qed.

Lemma dist_next a j : cell a -> cell j -> next j = a \/ dist a (next j) = dist a j + 1.
Proof.
  intros Ha Hj. destruct (next_spec j Hj) as [_ ->]. destruct (Z.eqb_spec j (CAP - 1)); around.
Qed.

(** ** The table invariant

    Ids are distinct, and every cell between an id's home and the cell that
    holds it is occupied: no probe stops short. *)
Record tbl (ids : list Z) : Prop := {
  tb_len : len ids = CAP;
  tb_nodup : forall i k, cell i -> cell k -> lget ids i = lget ids k -> lget ids i <> 0 -> i = k;
  tb_run : forall k c, cell k -> cell c -> lget ids k <> 0 ->
    dist (home (lget ids k)) c < dist (home (lget ids k)) k -> lget ids c <> 0;
}.

(** The pair a cell holds. *)
Definition holds (ids offs : list Z) (id o : Z) : Prop := exists i, cell i /\ lget ids i = id /\ lget offs i = o.

(** ** Backward-shift deletion

    While [remove_loop] runs, the hole [i] may lie on the probe path of a cell
    not yet looked at, of no other; [e] is a free cell ahead, [i0] where the
    removal began. *)
Record holed (i0 e : Z) (ids : list Z) (i j : Z) : Prop := {
  ho_cells : cell i0 /\ cell e /\ cell i /\ cell j;
  ho_len : len ids = CAP;
  ho_free : lget ids i = 0 /\ lget ids e = 0;
  ho_order : dist i0 i <= dist i0 j < dist i0 e;
  ho_nodup : forall a b, cell a -> cell b -> lget ids a = lget ids b -> lget ids a <> 0 -> a = b;
  ho_run : forall k c, cell k -> cell c -> lget ids k <> 0 ->
    dist (home (lget ids k)) c < dist (home (lget ids k)) k -> lget ids c <> 0 \/ c = i;
  ho_seen : forall k, cell k -> lget ids k <> 0 -> 0 < dist i k <= dist i j ->
    ~ dist (home (lget ids k)) i < dist (home (lget ids k)) k;
}.

Definition stays (i h j : Z) : bool := if i <=? j then (i <? h) && (h <=? j) else (i <? h) || (h <=? j).

Lemma stays_spec i h j : cell i -> cell h -> cell j -> i <> j -> stays i h j = true <-> ~ dist h i < dist h j.
Proof.
  intros Hi Hh Hj Hne. unfold stays, dist, cell in *.
  destruct (Z.leb_spec i j), (Z.leb_spec h i), (Z.leb_spec h j), (Z.ltb_spec i h); cbn; split; intros; try lia; try done.
Qed.

(** Moving the cell at [j] into the hole. *)
Definition shift (ids : list Z) (i j : Z) : list Z := lset (lset ids i (lget ids j)) j 0.

Lemma lget_shift ids i j c :
  len ids = CAP -> cell i -> cell j -> cell c ->
  lget (shift ids i j) c = if c =? j then 0 else if c =? i then lget ids j else lget ids c.
Proof. unfold cell, shift. intros Hl Hi Hj Hc. rewrite !lget_lset by (rewrite ?len_lset; lia). done. Qed.

Lemma holed_stop i0 e ids i j : holed i0 e ids i j -> lget ids (next j) = 0 -> tbl ids.
Proof.
  intros [(Hi0 & He & Hi & Hj) Hl [Hfi Hfe] Ho Hn Hr Hs] Hz. destruct (next_spec j Hj) as [Hnj _].
  split; [done|done|]. intros k c Hk Hc Hnz Hd Hcz.
  destruct (Hr k c Hk Hc Hnz Hd) as [?| ->]; [done|]. pose proof (home_cell (lget ids k)) as Hh.
  assert (~ 0 < dist i k <= dist i j) as Hfar by (intros Hb; by apply (Hs k Hk Hnz Hb)).
  assert (i <> k) by (intros ->; done). assert (next j <> k) by (intros <-; done).
  destruct (decide (next j = i)) as [E|Hne].
  - pose proof (dist_next i j Hi Hj). destruct (next_spec j Hj) as [_ En].
    destruct (Z.eqb_spec j (CAP - 1)); around.
  - destruct (Hr k (next j) Hk Hnj Hnz) as [?|?]; [|done..]. destruct (next_spec j Hj) as [_ En].
    destruct (Z.eqb_spec j (CAP - 1)); around.
Qed.

Lemma holed_stay i0 e ids i j :
  holed i0 e ids i j -> lget ids (next j) <> 0 -> ~ dist (home (lget ids (next j))) i < dist (home (lget ids (next j))) (next j) ->
  holed i0 e ids i (next j).
Proof.
  intros [(Hi0 & He & Hi & Hj) Hl [Hfi Hfe] Ho Hn Hr Hs] Hz Hst. destruct (next_spec j Hj) as [Hnj _].
  assert (next j <> e) by (intros E; by rewrite E in Hz). assert (next j <> i) by (intros E; by rewrite E in Hz).
  split; try done.
  - destruct (dist_next i0 j Hi0 Hj) as [E|E].
    + exfalso. pose proof (dist_range i0 j Hi0 Hj). destruct (next_spec j Hj) as [_ En]. destruct (Z.eqb_spec j (CAP - 1)); around.
    + rewrite E. split; [lia|]. assert (dist i0 (next j) <> dist i0 e); [|lia]. intros E'. around.
  - intros k Hk Hnz Hb. destruct (dist_next i j Hi Hj) as [?|E]; [done|]. rewrite E in Hb.
    destruct (decide (dist i k = dist i j + 1)) as [E'|]; [|apply Hs; try done; lia].
    assert (k = next j) as -> by around. done.
Qed.

Lemma holed_shift i0 e ids i j :
  holed i0 e ids i j -> lget ids (next j) <> 0 -> dist (home (lget ids (next j))) i < dist (home (lget ids (next j))) (next j) ->
  holed i0 e (shift ids i (next j)) (next j) (next j).
Proof.
  intros [(Hi0 & He & Hi & Hj) Hl [Hfi Hfe] Ho Hn Hr Hs] Hz Hmv. destruct (next_spec j Hj) as [Hnj _].
  assert (next j <> e) by (intros E; by rewrite E in Hz). assert (next j <> i) by (intros E; by rewrite E in Hz).
  assert (e <> i) by (intros ->; lia).
  assert (forall c, cell c -> lget (shift ids i (next j)) c = if c =? next j then 0 else if c =? i then lget ids (next j) else lget ids c) as Hg
    by (intros; by apply lget_shift).
  split.
  - done.
  - unfold shift. by rewrite !len_lset.
  - rewrite !Hg by done. rewrite Z.eqb_refl. split; [done|].
    destruct (Z.eqb_spec e (next j)); [done|]. destruct (Z.eqb_spec e i); done.
  - destruct (dist_next i0 j Hi0 Hj) as [E|E].
    + exfalso. pose proof (dist_range i0 j Hi0 Hj). destruct (next_spec j Hj) as [_ En]. destruct (Z.eqb_spec j (CAP - 1)); around.
    + split; [lia|]. assert (dist i0 (next j) <> dist i0 e); [|lia]. intros E'. around.
  - intros a b Hca Hcb. rewrite !Hg by done.
    destruct (Z.eqb_spec a (next j)) as [->|], (Z.eqb_spec b (next j)) as [->|]; try done; try congruence.
    destruct (Z.eqb_spec a i) as [->|], (Z.eqb_spec b i) as [->|]; intros E Hnz; try done.
    + exfalso. assert (next j = b) by (apply Hn; done). done.
    + exfalso. assert (a = next j) by (apply Hn; [done|done|done|congruence]). done.
    + by apply Hn.
  - intros k c Hk Hc. rewrite !(Hg k), !(Hg c) by done. destruct (Z.eqb_spec k (next j)) as [->|]; [done|].
    destruct (Z.eqb_spec c (next j)) as [->|Hcj]; [auto|]. left. destruct (Z.eqb_spec c i) as [->|Hci]; [done|].
    destruct (Z.eqb_spec k i) as [->|Hki]; intros.
    + destruct (Hr (next j) c) as [?|?]; try done. lia.
    + destruct (Hr k c) as [?|?]; done.
  - intros k Hk Hnz Hb. exfalso. around.
Qed.

(** What a finished removal keeps: the other pairs, the counts, and the cells
    before the one it began at. *)
Record kept (i0 : Z) (ids offs ids' offs' : list Z) : Prop := {
  kp_offs : len offs' = len offs;
  kp_holds : forall id o, id <> 0 -> holds ids' offs' id o <-> holds ids offs id o;
  kp_cnt : forall p, cnt p ids' = cnt p ids;
  kp_before : forall (G : Z -> Prop), G 0 -> (forall c, 0 <= c < i0 -> G (lget ids c)) -> forall c, 0 <= c < i0 -> G (lget ids' c);
}.

Lemma kept_refl i0 ids offs : kept i0 ids offs ids offs.
Proof. split; auto. Qed.

Lemma kept_trans i0 a b a' b' a'' b'' : kept i0 a b a' b' -> kept i0 a' b' a'' b'' -> kept i0 a b a'' b''.
Proof.
  intros [H1 H2 H3 H4] [K1 K2 K3 K4]. split.
  - congruence.
  - intros id o Hid. by rewrite K2, H2.
  - intros p. by rewrite K3, H3.
  - intros G HG0 HG. apply K4; [done|]. by apply H4.
Qed.

Lemma kept_shift i0 e ids offs i j :
  holed i0 e ids i j -> len offs = CAP -> lget ids (next j) <> 0 ->
  kept i0 ids offs (shift ids i (next j)) (lset offs i (lget offs (next j))).
Proof.
  intros [(Hi0 & He & Hi & Hj) Hl [Hfi Hfe] Ho Hn Hr Hs] Hlo Hz. destruct (next_spec j Hj) as [Hnj _].
  assert (next j <> i) by (intros E; by rewrite E in Hz).
  assert (forall c, cell c -> lget (lset offs i (lget offs (next j))) c = if c =? i then lget offs (next j) else lget offs c) as Hgo
    by (intros c Hc; apply lget_lset; unfold cell in *; lia).
  split.
  - apply len_lset.
  - intros id o Hid. split; intros (c & Hc & E1 & E2).
    + rewrite lget_shift in E1 by done. rewrite Hgo in E2 by done. destruct (Z.eqb_spec c (next j)); [congruence|].
      destruct (Z.eqb_spec c i); [by exists (next j)|by exists c].
    + destruct (decide (c = next j)) as [->|Hcj].
      * exists i. rewrite lget_shift, Hgo, Z.eqb_refl by done. destruct (Z.eqb_spec i (next j)); [congruence|done].
      * assert (c <> i) by (intros ->; congruence). exists c. rewrite lget_shift, Hgo by done.
        destruct (Z.eqb_spec c (next j)), (Z.eqb_spec c i); done.
  - intros p. unfold shift, cell in *. rewrite !cnt_lset by (rewrite ?len_lset; lia). rewrite lget_lset by lia.
    destruct (Z.eqb_spec (next j) i); [done|]. rewrite Hfi. unfold one. cbn [Z.eqb negb andb]. lia.
  - intros G HG0 HG c Hc. unfold cell in *. rewrite lget_shift by (unfold cell; done || lia).
    destruct (Z.eqb_spec c (next j)); [done|]. destruct (Z.eqb_spec c i) as [->|]; [|by apply HG].
    apply HG. destruct (next_spec j Hj) as [_ En].
    assert (next j <> e) by (intros E; by rewrite E in Hz).
    destruct (Z.eqb_spec j (CAP - 1)); around.
Qed.

Lemma remove_loop_spec fuel i0 e ids offs i j :
  holed i0 e ids i j -> len offs = CAP -> dist i0 e - dist i0 j <= Z.of_nat fuel ->
  let p := remove_loop CAP fuel ids offs i j in tbl (fst p) /\ kept i0 ids offs (fst p) (snd p).
Proof.
  revert ids offs i j. induction fuel as [|fuel IH]; intros ids offs i j Hh Hlo Hf; [pose proof (ho_order _ _ _ _ _ Hh); lia|].
  cbn [remove_loop]. cbv zeta. destruct (Z.eqb_spec (lget ids (next j)) 0) as [Hz|Hz].
  - cbn [fst snd]. split; [by eapply holed_stop|apply kept_refl].
  - destruct (ho_cells _ _ _ _ _ Hh) as (Hi0 & He & Hi & Hj). destruct (next_spec j Hj) as [Hnj En].
    pose proof (ho_order _ _ _ _ _ Hh) as Ho. pose proof (home_cell (lget ids (next j))) as Hhc.
    assert (next j <> i) as Hne by (intros E; rewrite E in Hz; by destruct (ho_free _ _ _ _ _ Hh)).
    assert (dist i0 (next j) = dist i0 j + 1) as Ed.
    { destruct (dist_next i0 j Hi0 Hj) as [E|E]; [|done]. exfalso. destruct (Z.eqb_spec j (CAP - 1)); around. }
    fold (stays i (home (lget ids (next j))) (next j)). destruct (stays i _ (next j)) eqn:Es; cbn [negb].
    + apply stays_spec in Es; [|done..|congruence]. apply IH; [by apply holed_stay|done|lia].
    + fold (shift ids i (next j)).
      assert (dist (home (lget ids (next j))) i < dist (home (lget ids (next j))) (next j)) as Hmv.
      { destruct (decide (dist (home (lget ids (next j))) i < dist (home (lget ids (next j))) (next j))) as [|Hn]; [done|].
        apply stays_spec in Hn; [|done..|congruence]. congruence. }
      destruct (IH (shift ids i (next j)) (lset offs i (lget offs (next j))) (next j) (next j)) as [Ht Hk];
        [by apply holed_shift|by rewrite len_lset|lia|]. split; [done|].
      eapply kept_trans; [by eapply kept_shift|done].
Qed.

(** ** Probing *)

Definition occupied : Z -> bool := fun _ => true.

(** In a table with no free cell and no cell of [id], a probe misses. *)
Lemma probe_full ids id :
  (forall c, cell c -> lget ids c <> id /\ lget ids c <> 0) ->
  forall k i, cell i -> let '(r, hit) := put_probe CAP k ids id i in cell r /\ hit = false /\ find_from CAP k ids id i = -1.
Proof.
  intros Hall. induction k as [|k IHk]; intros i Hi; cbn [put_probe find_from]; [done|]. destruct (Hall i Hi) as [H1 H2].
  apply Z.eqb_neq in H1, H2. rewrite H1, H2. apply IHk. by apply next_spec.
Qed.

(** [find] and [put] stop at the id's cell, or at the free cell where it would
    go. *)
Lemma probe_spec fuel ids id t :
  tbl ids -> id <> 0 -> 0 <= t -> CAP <= t + Z.of_nat fuel ->
  let at_ := Z.land (home id + t) (CAP - 1) in
  (forall c, cell c -> dist (home id) c < t -> lget ids c <> id /\ lget ids c <> 0) -> t < CAP ->
  let '(i, hit) := put_probe CAP fuel ids id at_ in
  cell i /\ find_from CAP fuel ids id at_ = (if hit then i else -1) /\
  if hit then lget ids i = id
  else (forall c, cell c -> lget ids c <> id) /\
       (cnt occupied ids < CAP -> lget ids i = 0 /\ forall c, cell c -> dist (home id) c < dist (home id) i -> lget ids c <> 0).
Proof.
  intros Ht Hid. revert t. induction fuel as [|fuel IH]; intros t Ht0 Hf; [intros at_ ? ?; lia|]. intros at_ Hp HtC.
  pose proof cap_range as Hcr. pose proof (home_cell id) as Hh.
  assert (cell at_ /\ dist (home id) at_ = t) as [Hat Hd].
  { unfold at_. rewrite land_cap. pose proof (Z.mod_pos_bound (home id + t) CAP ltac:(lia)). split; [done|].
    destruct (Z.ltb_spec (home id + t) CAP) as [Hlt|Hge]; unfold cell in *.
    - rewrite Z.mod_small by lia. around.
    - replace ((home id + t) mod CAP) with (home id + t - CAP) by (apply Zmod_unique with 1; lia). around. }
  cbn [put_probe find_from]. destruct (Z.eqb_spec (lget ids at_) id) as [E|Hne]; [done|].
  destruct (Z.eqb_spec (lget ids at_) 0) as [Ez|Hnz].
  - split; [done|]. split; [done|]. split.
    + intros c Hc E. assert (~ dist (home id) c < t) by (intros Hlt; by destruct (Hp c Hc Hlt)).
      assert (dist (home id) c <> t) by (intros E'; assert (c = at_) as -> by around; done).
      assert (lget ids at_ <> 0); [|done]. apply (tb_run _ Ht c at_ Hc Hat); rewrite E; [done|lia].
    + intros _. split; [done|]. intros c Hc Hlt. rewrite Hd in Hlt. by apply Hp.
  - destruct (decide (t + 1 < CAP)) as [Hlt|Hge].
    + assert (next at_ = Z.land (home id + (t + 1)) (CAP - 1)) as ->.
      { unfold SlotIndexHash.next, at_. rewrite !land_cap, Zplus_mod_idemp_l. f_equal. lia. }
      apply IH; [lia|lia| |done]. intros c Hc Hlt'. destruct (decide (dist (home id) c < t)); [by apply Hp|].
      assert (c = at_) as -> by around. done.
    + assert (forall c, cell c -> lget ids c <> id /\ lget ids c <> 0) as Hall.
      { intros c Hc. pose proof (dist_range _ c Hh Hc). destruct (decide (dist (home id) c < t)); [by apply Hp|].
        assert (c = at_) as -> by around. done. }
      destruct (next_spec at_ Hat) as [Hn _]. pose proof (probe_full ids id Hall fuel (next at_) Hn) as Hmiss. destruct (put_probe CAP fuel ids id (next at_)) as [r hit].
      destruct Hmiss as (Hr & -> & ->). split; [done|]. split; [done|]. split; [intros; by apply Hall|]. intros Hc. exfalso.
      rewrite <- (tb_len _ Ht) in Hc. destruct (free_cell ids Hc) as (e & He & Hze). rewrite (tb_len _ Ht) in He.
      by destruct (Hall e He).
Qed.

(** ** The invariant of the index, for a store of [n] buckets *)

Definition in_bucket (n b : Z) : Z -> bool := fun id => id mod n =? b.

Record index_ok (n : Z) (x : sidx) : Prop := {
  ix_tbl : tbl (g_ids x);
  ix_lens : len (g_offs x) = CAP /\ len (g_cursor x) = MAX_BKT /\ len (g_bcnt x) = MAX_BKT;
  ix_n : g_n_buckets x = 0 \/ g_n_buckets x = n /\ 0 < n <= MAX_BKT;
  ix_used : g_used x = cnt occupied (g_ids x) /\ g_used x <= MAX_FILL CAP;
  ix_bcnt : g_n_buckets x <> 0 -> forall b, 0 <= b < n -> lget (g_bcnt x) b = cnt (in_bucket n b) (g_ids x);
  ix_unknown : g_n_buckets x <> 0 -> forall b, 0 <= b < n -> lget (g_cursor x) b = 0 -> cnt (in_bucket n b) (g_ids x) = 0;
}.

Lemma fill_range : 0 < MAX_FILL CAP < CAP.
Proof. unfold MAX_FILL. pose proof cap_range. pose proof (Z.div_mod CAP 8). pose proof (Z.mod_pos_bound CAP 8). lia. Qed.

Lemma cnt_occupied p l : cnt p l <= cnt occupied l.
Proof. by apply cnt_mono. Qed.

Lemma find_spec n x id :
  index_ok n x -> id <> 0 ->
  (find CAP x id = -1 /\ forall c, cell c -> lget (g_ids x) c <> id) \/
  (cell (find CAP x id) /\ lget (g_ids x) (find CAP x id) = id).
Proof.
  intros Hx Hid. pose proof cap_range. unfold find.
  pose proof (probe_spec (Z.to_nat CAP) (g_ids x) id 0 (ix_tbl _ _ Hx) Hid ltac:(lia) ltac:(lia)) as Hp. cbv zeta in Hp.
  rewrite Z.add_0_r in Hp. assert (Z.land (home id) (CAP - 1) = home id) as E.
  { rewrite land_cap. apply Z.mod_small, home_cell. }
  rewrite E in Hp. specialize (Hp ltac:(intros c Hc Hlt; pose proof (dist_range _ c (home_cell id) Hc); lia) ltac:(lia)).
  destruct (put_probe CAP _ (g_ids x) id (home id)) as [i hit]. destruct Hp as (Hi & -> & Hp). destruct hit; [by right|left; tauto].
Qed.

(** The map the index stands for. *)
Definition assoc (x : sidx) (id : Z) : option Z := if find CAP x id <? 0 then None else Some (lget (g_offs x) (find CAP x id)).

Lemma assoc_holds n x id o : index_ok n x -> id <> 0 -> assoc x id = Some o <-> holds (g_ids x) (g_offs x) id o.
Proof.
  intros Hx Hid. unfold assoc. destruct (find_spec n x id Hx Hid) as [[-> Hno]|[Hc E]].
  - cbn. split; [done|]. intros (c & Hc & E & _). by destruct (Hno c Hc).
  - destruct (Z.ltb_spec (find CAP x id) 0); [unfold cell in Hc; lia|]. split.
    + intros [= <-]. by exists (find CAP x id).
    + intros (c & Hc' & E' & <-). assert (c = find CAP x id) as -> by (apply (tb_nodup _ (ix_tbl _ _ Hx)); congruence). done.
Qed.

Lemma bucket_of_small n x id : index_ok n x -> g_n_buckets x <> 0 -> bucket_of x id = id mod n /\ 0 <= id mod n < n /\ 0 < n <= MAX_BKT.
Proof.
  intros Hx Hn. destruct (ix_n _ _ Hx) as [?|[E Hr]]; [done|]. unfold bucket_of. rewrite E.
  pose proof (Z.mod_pos_bound id n ltac:(lia)). rewrite u16_small by lia. lia.
Qed.

(** The counters after one cell changed from [old] to [new]. *)
Lemma bcnt_step n x b d ids' :
  index_ok n x -> g_n_buckets x <> 0 -> 0 <= b < n ->
  (forall c, 0 <= c < n -> cnt (in_bucket n c) ids' = cnt (in_bucket n c) (g_ids x) + (if c =? b then d else 0)) ->
  cnt occupied ids' <= MAX_FILL CAP ->
  forall c, 0 <= c < n -> lget (lset (g_bcnt x) b (u16 (lget (g_bcnt x) b + d))) c = cnt (in_bucket n c) ids'.
Proof.
  intros Hx Hn Hb Hc Hf c Hcn. destruct (ix_lens _ _ Hx) as (_ & _ & Hl). destruct (ix_n _ _ Hx) as [?|[E Hr]]; [done|].
  rewrite lget_lset by lia. rewrite Hc by done. destruct (Z.eqb_spec c b) as [->|].
  - rewrite (ix_bcnt _ _ Hx Hn b Hb). apply u16_small. pose proof (cnt_occupied (in_bucket n b) ids').
    pose proof (cnt_bound (in_bucket n b) ids'). rewrite (Hc b Hb), Z.eqb_refl in *. pose proof fill_range. pose proof cap_range. lia.
  - rewrite (ix_bcnt _ _ Hx Hn c Hcn). lia.
Qed.

(** ** Removing and putting an entry *)

Lemma remove_at_spec n x i :
  index_ok n x -> g_n_buckets x <> 0 -> cell i -> lget (g_ids x) i <> 0 ->
  let x' := remove_at CAP x i in
  index_ok n x' /\ g_n_buckets x' = g_n_buckets x /\ g_cursor x' = g_cursor x /\
  (forall id o, id <> 0 -> holds (g_ids x') (g_offs x') id o <-> id <> lget (g_ids x) i /\ holds (g_ids x) (g_offs x) id o) /\
  (forall b, 0 <= b < n -> cnt (in_bucket n b) (g_ids x') = cnt (in_bucket n b) (g_ids x) + if b =? lget (g_ids x) i mod n then -1 else 0) /\
  (forall G : Z -> Prop, G 0 -> (forall c, 0 <= c < i -> G (lget (g_ids x) c)) -> forall c, 0 <= c < i -> G (lget (g_ids x') c)).
Proof.
  intros Hx Hn Hi Hnz. pose proof (ix_tbl _ _ Hx) as Ht. pose proof (tb_len _ Ht) as Hlen. destruct (ix_lens _ _ Hx) as (Hlo & Hlc & Hlb).
  destruct (bucket_of_small n x (lget (g_ids x) i) Hx Hn) as (Eb & Hbr & Hnr). destruct (ix_used _ _ Hx) as [Eu Hfill].
  pose proof fill_range as Hfr. unfold cell in Hi.
  destruct (free_cell (g_ids x)) as (e & He & Hez); [rewrite Hlen; fold occupied; lia|]. rewrite Hlen in He.
  assert (forall c, cell c -> lget (lset (g_ids x) i 0) c = if c =? i then 0 else lget (g_ids x) c) as Hg
    by (intros c Hc; apply lget_lset; unfold cell in *; lia).
  assert (holed i e (lset (g_ids x) i 0) i i) as Hh.
  { assert (e <> i) by (intros ->; done). split.
    - done.
    - by rewrite len_lset.
    - rewrite !Hg, Z.eqb_refl by done. by destruct (e =? i).
    - around.
    - intros a b Hca Hcb. rewrite !Hg by done. destruct (Z.eqb_spec a i), (Z.eqb_spec b i); try done; try congruence.
      by apply (tb_nodup _ Ht).
    - intros k c Hk Hc. rewrite !(Hg k), (Hg c) by done. destruct (Z.eqb_spec k i); [done|]. intros Hkz Hd.
      destruct (Z.eqb_spec c i); [by right|left]. by apply (tb_run _ Ht k c).
    - intros k Hk _ Hd. exfalso. around. }
  destruct (remove_loop_spec (Z.to_nat CAP) i e _ (g_offs x) i i Hh Hlo) as [Ht' [Kl Kh Kc Kb]].
  { pose proof (dist_range i e Hi He). pose proof (dist_range i i Hi Hi). lia. }
  assert (forall p, cnt p (g_ids (remove_at CAP x i)) = cnt p (g_ids x) - one p (lget (g_ids x) i)) as Hcnt.
  { intros p. cbn [remove_at g_ids]. rewrite Kc, cnt_lset by lia. unfold one at 2. cbn. lia. }
  assert (forall b, 0 <= b < n -> cnt (in_bucket n b) (g_ids (remove_at CAP x i)) =
    cnt (in_bucket n b) (g_ids x) + if b =? lget (g_ids x) i mod n then -1 else 0) as Hcb.
  { intros b Hb. rewrite Hcnt. unfold one, in_bucket. apply Z.eqb_neq in Hnz. rewrite Hnz, (Z.eqb_sym b). cbn. destruct (_ =? b); lia. }
  assert (one occupied (lget (g_ids x) i) = 1) as Ho1 by (unfold one; apply Z.eqb_neq in Hnz; by rewrite Hnz).
  pose proof (cnt_bound occupied (g_ids (remove_at CAP x i))) as Hob. pose proof (Hcnt occupied) as Ho. rewrite Ho1 in Ho.
  cbv zeta. split; [|split; [done|split; [done|split; [|split; [done|]]]]].
  - split; cbn [remove_at g_offs g_cursor g_bcnt g_used g_n_buckets].
    + exact Ht'.
    + rewrite Kl, len_lset. done.
    + apply (ix_n _ _ Hx).
    + rewrite Ho, Eu, u32_small; [lia|]. pose proof cap_range. lia.
    + intros _. rewrite Eb. apply (bcnt_step n x _ (-1)); [done|done|done| |lia]. intros c Hc. by rewrite Hcb.
    + intros _ b Hb Hz. rewrite Hcb by done. rewrite (ix_unknown _ _ Hx Hn b Hb Hz).
      pose proof (cnt_bound (in_bucket n b) (g_ids (remove_at CAP x i))) as Hpos. rewrite Hcb, (ix_unknown _ _ Hx Hn b Hb Hz) in Hpos by done.
      destruct (b =? _); lia.
  - intros id o Hid. cbn [remove_at g_ids g_offs]. rewrite Kh by done. split.
    + intros (c & Hc & E1 & E2). rewrite Hg in E1 by done. destruct (Z.eqb_spec c i); [congruence|]. split; [|by exists c].
      intros ->. assert (c = i) by (apply (tb_nodup _ Ht); [done|done|congruence..]). done.
    + intros (Hne & c & Hc & E1 & E2). exists c. rewrite Hg by done. destruct (Z.eqb_spec c i) as [->|]; [congruence|done].
  - intros G HG0 HG c Hc. cbn [remove_at g_ids]. apply Kb; [done| |done]. intros c' Hc'. rewrite Hg by (unfold cell; lia).
    destruct (Z.eqb_spec c' i); [lia|by apply HG].
Qed.

Definition put_post (n : Z) (x : sidx) (id off : Z) (x' : sidx) : Prop :=
  index_ok n x' /\ g_n_buckets x' = g_n_buckets x /\ g_cursor x' = g_cursor x /\
  (forall id' o, id' <> 0 -> holds (g_ids x') (g_offs x') id' o ->
     (id' = id /\ o = off) \/ (id' <> id /\ holds (g_ids x) (g_offs x) id' o)) /\
  (g_used x < MAX_FILL CAP \/ assoc x id <> None -> holds (g_ids x') (g_offs x') id off) /\
  (forall id' o, id' <> 0 -> id' <> id -> holds (g_ids x) (g_offs x) id' o -> holds (g_ids x') (g_offs x') id' o).

(** The id has a cell already: only its offset changes. *)
Lemma put_hit n x id off i :
  index_ok n x -> id <> 0 -> cell i -> lget (g_ids x) i = id ->
  put_post n x id off (mk_sidx (g_ids x) (lset (g_offs x) i off) (g_used x) (g_cursor x) (g_bcnt x) (g_n_buckets x)).
Proof.
  intros Hx Hid Hi Hat. pose proof (ix_tbl _ _ Hx) as Ht. destruct (ix_lens _ _ Hx) as (Hlo & Hlc & Hlb).
  assert (forall c, cell c -> lget (lset (g_offs x) i off) c = if c =? i then off else lget (g_offs x) c) as Hgo
    by (intros c Hc; apply lget_lset; unfold cell in *; lia).
  split; [|split; [done|split; [done|split; [|split]]]]; cbn [g_ids g_offs].
  - split; cbn [g_ids g_offs g_used g_cursor g_bcnt g_n_buckets]; try apply Hx. by rewrite len_lset.
  - intros id' o Hid' (c & Hc & E1 & E2). rewrite Hgo in E2 by done. destruct (Z.eqb_spec c i) as [->|Hne]; [left; split; congruence|].
    right. split; [|by exists c]. intros ->. assert (c = i) by (apply (tb_nodup _ Ht); [done|done|congruence..]). done.
  - intros _. exists i. rewrite Hgo, Z.eqb_refl by done. done.
  - intros id' o Hid' Hne (c & Hc & E1 & E2). exists c. rewrite Hgo by done. destruct (Z.eqb_spec c i) as [->|]; [congruence|done].
Qed.

(** The id takes the free cell its probe ended at. *)
Lemma put_new n x id off i :
  index_ok n x -> g_n_buckets x <> 0 -> id <> 0 -> lget (g_cursor x) (id mod n) <> 0 -> g_used x < MAX_FILL CAP ->
  cell i -> lget (g_ids x) i = 0 -> (forall c, cell c -> lget (g_ids x) c <> id) ->
  (forall c, cell c -> dist (home id) c < dist (home id) i -> lget (g_ids x) c <> 0) ->
  put_post n x id off (mk_sidx (lset (g_ids x) i id) (lset (g_offs x) i off) (u32 (g_used x + 1)) (g_cursor x)
    (lset (g_bcnt x) (id mod n) (u16 (lget (g_bcnt x) (id mod n) + 1))) (g_n_buckets x)).
Proof.
  intros Hx Hn Hid Hcur Hroom Hi Hz Hno Hrun. pose proof (ix_tbl _ _ Hx) as Ht. pose proof (tb_len _ Ht) as Hlen.
  destruct (ix_lens _ _ Hx) as (Hlo & Hlc & Hlb). destruct (ix_used _ _ Hx) as [Eu Hfill].
  destruct (bucket_of_small n x id Hx Hn) as (_ & Hbr & Hnr). pose proof fill_range. pose proof cap_range.
  assert (forall c, cell c -> lget (lset (g_offs x) i off) c = if c =? i then off else lget (g_offs x) c) as Hgo
    by (intros c Hc; apply lget_lset; unfold cell in *; lia).
  assert (forall c, cell c -> lget (lset (g_ids x) i id) c = if c =? i then id else lget (g_ids x) c) as Hg
    by (intros c Hc; apply lget_lset; unfold cell in *; lia).
  assert (forall p, cnt p (lset (g_ids x) i id) = cnt p (g_ids x) + one p id) as Hcnt.
  { intros p. rewrite cnt_lset by (unfold cell in *; lia). rewrite Hz. unfold one at 1. cbn. lia. }
  assert (one occupied id = 1) as Ho1 by (unfold one; apply Z.eqb_neq in Hid; by rewrite Hid).
  assert (forall b, one (in_bucket n b) id = if b =? id mod n then 1 else 0) as Hob.
  { intros b. unfold one, in_bucket. apply Z.eqb_neq in Hid. rewrite Hid, (Z.eqb_sym b). done. }
  split; [|split; [done|split; [done|split; [|split]]]]; cbn [g_ids g_offs].
  - split; cbn [g_ids g_offs g_used g_cursor g_bcnt g_n_buckets].
    + split; [by rewrite len_lset|..].
      * intros a b Hca Hcb. rewrite !Hg by done. destruct (Z.eqb_spec a i), (Z.eqb_spec b i); intros E1 E2; try congruence.
        -- by destruct (Hno b Hcb).
        -- by destruct (Hno a Hca).
        -- by apply (tb_nodup _ Ht).
      * intros k c Hk Hc. rewrite !(Hg k), (Hg c) by done. destruct (Z.eqb_spec c i); [intros; by destruct (k =? i)|].
        destruct (Z.eqb_spec k i) as [->|]; [intros _; by apply Hrun|by apply (tb_run _ Ht)].
    + by rewrite !len_lset.
    + apply (ix_n _ _ Hx).
    + pose proof (cnt_bound occupied (g_ids x)). rewrite Hcnt, Ho1, u32_small by lia. lia.
    + intros _. apply (bcnt_step n x _ 1); [done|done|done| |rewrite Hcnt, Ho1; lia]. intros c Hc. by rewrite Hcnt, Hob.
    + intros _ b Hb Hbz. rewrite Hcnt, Hob, (ix_unknown _ _ Hx Hn b Hb Hbz). destruct (Z.eqb_spec b (id mod n)) as [->|]; [done|lia].
  - intros id' o Hid' (c & Hc & E1 & E2). rewrite Hg in E1 by done. rewrite Hgo in E2 by done.
    destruct (Z.eqb_spec c i); [left; split; congruence|]. right. split; [|by exists c]. intros ->. by destruct (Hno c Hc).
  - intros _. exists i. rewrite Hg, Hgo, Z.eqb_refl by done. done.
  - intros id' o Hid' Hne (c & Hc & E1 & E2). exists c. rewrite Hg, Hgo by done. destruct (Z.eqb_spec c i) as [->|]; [congruence|done].
Qed.

Lemma put_spec n x id off :
  index_ok n x -> g_n_buckets x <> 0 -> id <> 0 -> lget (g_cursor x) (id mod n) <> 0 ->
  put_post n x id off (put CAP x id off).
Proof.
  intros Hx Hn Hid Hcur. pose proof (ix_tbl _ _ Hx) as Ht. pose proof (tb_len _ Ht) as Hlen. destruct (ix_lens _ _ Hx) as (Hlo & Hlc & Hlb).
  destruct (bucket_of_small n x id Hx Hn) as (Eb & Hbr & Hnr). destruct (ix_used _ _ Hx) as [Eu Hfill].
  pose proof fill_range as Hfr. pose proof cap_range. pose proof (home_cell id) as Hhc.
  pose proof (probe_spec (Z.to_nat CAP) (g_ids x) id 0 Ht Hid ltac:(lia) ltac:(lia)) as Hp. cbv zeta in Hp. rewrite Z.add_0_r in Hp.
  assert (Z.land (home id) (CAP - 1) = home id) as E by (rewrite land_cap; apply Z.mod_small, Hhc).
  rewrite E in Hp. specialize (Hp ltac:(intros c Hc Hlt; pose proof (dist_range _ c Hhc Hc); lia) ltac:(lia)).
  unfold put. destruct (put_probe CAP _ (g_ids x) id (home id)) as [i hit]. destruct Hp as (Hi & Ef & Hp). destruct hit.
  - by apply put_hit.
  - destruct Hp as [Hno Hp]. rewrite Z.geb_leb. destruct (Z.leb_spec (MAX_FILL CAP) (g_used x)) as [Hfull|Hroom].
    + unfold put_post, assoc, find. rewrite Ef. split; [done|]. split; [done|]. split; [done|]. split; [|split; [intros [?|?]; [lia|done]|done]].
      intros id' o Hid' Hh. right. split; [|done]. intros ->. destruct Hh as (c & Hc & E' & _). by destruct (Hno c Hc).
    + rewrite Eb. destruct (Hp ltac:(lia)) as [Hz Hrun]. by apply put_new.
Qed.
End table.
