(* ===== verification/SlotIndexLaws.v ===== *)
(** The slot index keeps the contract of SlotIndexIface.v, and answers exactly
    what it was told while it has room. *)

From S2P Require Import Prelude SlotIndexIface SlotIndexHash.

Section laws.
Context (CAP MAX_BKT : Z).
Context (Hcap : exists k, 6 <= k <= 16 /\ CAP = 2 ^ k) (Hbkt : 1 <= MAX_BKT <= 65535).
Notation index_ok := (index_ok CAP MAX_BKT).
Notation holds := (holds CAP).
Notation assoc := (assoc CAP).
Notation has x := (holds (g_ids x) (g_offs x)).

(** ** Forgetting a bucket *)

Lemma sweep_cursor fuel x b c bid i :
  forget_sweep CAP fuel (set_cursor x b c) bid i = set_cursor (forget_sweep CAP fuel x bid i) b c.
Proof.
  revert x i. induction fuel as [|fuel IH]; intros x i; [done|]. cbn [forget_sweep].
  change (g_bcnt (set_cursor x b c)) with (g_bcnt x). change (g_ids (set_cursor x b c)) with (g_ids x).
  change (bucket_of (set_cursor x b c)) with (bucket_of x).
  destruct (_ && negb (lget _ bid =? 0)); [|done]. destruct (_ && (bucket_of _ _ =? bid)); [|apply IH].
  change (remove_at CAP (set_cursor x b c) i) with (set_cursor (remove_at CAP x i) b c). apply IH.
Qed.

Definition clear_of (n bid : Z) (id : Z) : Prop := id = 0 \/ id mod n <> bid.

Lemma cnt_clear n bid (x : sidx) :
  index_ok n x -> (forall c, 0 <= c < CAP -> clear_of n bid (lget (g_ids x) c)) -> cnt (in_bucket n bid) (g_ids x) = 0.
Proof.
  intros Hx Hc. rewrite <- (tb_len _ _ (ix_tbl _ _ _ _ Hx)) in Hc. revert Hc. generalize (g_ids x). clear.
  intros l. induction l as [|v l IH]; intros Hc; [done|]. rewrite len_cons in Hc. cbn [cnt]. pose proof (len_nonneg l).
  rewrite IH.
  - specialize (Hc 0 ltac:(lia)). change (lget (v :: l) 0) with v in Hc. destruct Hc as [->|E]; [done|]. unfold in_bucket. apply Z.eqb_neq in E. rewrite E, andb_false_r. done.
  - intros c Hr. specialize (Hc (c + 1) ltac:(lia)). unfold lget in *.
    replace (Z.to_nat (c + 1)) with (Datatypes.S (Z.to_nat c)) in Hc by lia. done.
Qed.

Lemma none_in_bucket n bid x :
  index_ok n x -> cnt (in_bucket n bid) (g_ids x) = 0 -> forall id o, id <> 0 -> has x id o <-> id mod n <> bid /\ has x id o.
Proof.
  intros Hx Hz id o Hid. split; [|tauto]. intros Hh. split; [|done]. destruct Hh as (c & Hcc & <- & _).
  pose proof (tb_len _ _ (ix_tbl _ _ _ _ Hx)). pose proof (cnt_zero _ _ c Hz ltac:(unfold cell in *; lia) Hid) as E. by apply Z.eqb_neq in E.
Qed.

Lemma sweep_spec fuel n x bid i :
  index_ok n x -> g_n_buckets x <> 0 -> 0 <= bid < n -> 0 <= i <= CAP ->
  (forall c, 0 <= c < i -> clear_of n bid (lget (g_ids x) c)) -> CAP - i + lget (g_bcnt x) bid <= Z.of_nat fuel ->
  let x' := forget_sweep CAP fuel x bid i in
  index_ok n x' /\ g_n_buckets x' = g_n_buckets x /\ g_cursor x' = g_cursor x /\ cnt (in_bucket n bid) (g_ids x') = 0 /\
  (forall id o, id <> 0 -> has x' id o <-> id mod n <> bid /\ has x id o).
Proof.
  revert x i. induction fuel as [|fuel IH]; intros x i Hx Hn Hb Hi Hc Hf.
  all: pose proof (ix_bcnt _ _ _ _ Hx Hn bid Hb) as Ebc; pose proof (cnt_bound (in_bucket n bid) (g_ids x)) as Hcb;
    pose proof (cap_range CAP Hcap) as Hcr; pose proof (tb_len _ _ (ix_tbl _ _ _ _ Hx)) as Hlen.
  - cbn [forget_sweep]. cbv zeta. assert (cnt (in_bucket n bid) (g_ids x) = 0) as Hz by lia. do 4 (split; [done|]).
    by apply none_in_bucket.
  - cbn [forget_sweep]. destruct (Z.ltb_spec i CAP) as [Hlt|Hge]; cbn [andb].
    2: { assert (cnt (in_bucket n bid) (g_ids x) = 0) as Hz by (apply cnt_clear; [done|]; intros; apply Hc; lia).
         do 4 (split; [done|]). by apply none_in_bucket. }
    destruct (Z.eqb_spec (lget (g_bcnt x) bid) 0) as [Ez|Hnz]; cbn [negb].
    { rewrite Ebc in Ez. do 4 (split; [done|]). by apply none_in_bucket. }
    destruct (bucket_of_small CAP MAX_BKT Hbkt n x (lget (g_ids x) i) Hx Hn) as (Eb & _). rewrite Eb.
    destruct (Z.eqb_spec (lget (g_ids x) i) 0) as [Eid|Hid]; cbn [negb andb].
    { apply IH; try done; [lia| |lia]. intros c Hr. destruct (decide (c = i)) as [->|]; [by left|apply Hc; lia]. }
    destruct (Z.eqb_spec (lget (g_ids x) i mod n) bid) as [Em|Hm].
    2: { apply IH; try done; [lia| |lia]. intros c Hr. destruct (decide (c = i)) as [->|]; [by right|apply Hc; lia]. }
    destruct (remove_at_spec CAP MAX_BKT Hcap Hbkt n x i Hx Hn ltac:(unfold cell; lia) Hid) as (Rx & Rn & Rc & Rh & Rb & Rg).
    assert (lget (g_bcnt (remove_at CAP x i)) bid = lget (g_bcnt x) bid - 1) as Eb'.
    { rewrite (ix_bcnt _ _ _ _ Rx) by congruence. rewrite (Rb bid Hb), Em, Z.eqb_refl, Ebc. lia. }
    destruct (IH (remove_at CAP x i) i Rx ltac:(congruence) Hb Hi) as (Sx & Sn & Sc & Sz & Sh).
    { apply (Rg (clear_of n bid)); [by left|done]. }
    { lia. }
    split; [done|]. split; [congruence|]. split; [congruence|]. split; [done|]. intros id o Hid'. rewrite Sh, Rh by done.
    split; [tauto|]. intros [Hne Hh]. split; [done|]. split; [congruence|done].
Qed.

Lemma forget_spec n x bid :
  index_ok n x -> 0 <= bid < n ->
  let x' := forget CAP bid x in
  index_ok n x' /\ g_n_buckets x' = g_n_buckets x /\
  (g_n_buckets x <> 0 -> g_cursor x' = lset (g_cursor x) bid 0 /\
    forall id o, id <> 0 -> has x' id o <-> id mod n <> bid /\ has x id o).
Proof.
  intros Hx Hb. unfold forget, on. cbv zeta. destruct (Z.eqb_spec (g_n_buckets x) 0) as [E|Hn]; cbn [negb andb]; [done|].
  destruct (ix_n _ _ _ _ Hx) as [?|[En Hr]]; [done|]. rewrite En. destruct (Z.ltb_spec bid n); [|lia]. cbn [negb].
  rewrite sweep_cursor. change (g_bcnt (set_cursor x bid 0)) with (g_bcnt x). pose proof (cap_range CAP Hcap).
  pose proof (ix_bcnt _ _ _ _ Hx Hn bid Hb) as Ebc. pose proof (cnt_bound (in_bucket n bid) (g_ids x)).
  destruct (sweep_spec (Z.to_nat (CAP + lget (g_bcnt x) bid)) n x bid 0 Hx Hn Hb ltac:(lia) ltac:(lia) ltac:(lia)) as (Sx & Sn & Sc & Sz & Sh).
  split; [|split; [by cbn; congruence|intros _; split; [by cbn; rewrite Sc|done]]].
  destruct (ix_lens _ _ _ _ Sx) as (L1 & L2 & L3). split; cbn; try apply Sx.
  - by rewrite len_lset.
  - intros _ b Hb' Hz. destruct (decide (b = bid)) as [->|Hne]; [done|]. rewrite lget_lset in Hz by lia.
    destruct (Z.eqb_spec b bid); [done|]. apply (ix_unknown _ _ _ _ Sx); [congruence|done|done].
Qed.

(** ** The calls, in terms of the map *)

Lemma cursor_iff n x b c :
  index_ok n x -> 0 <= b < n -> cursor_of b x = Some c <-> g_n_buckets x <> 0 /\ lget (g_cursor x) b = c /\ c <> 0.
Proof.
  intros Hx Hb. unfold cursor_of, on. destruct (Z.eqb_spec (g_n_buckets x) 0) as [E|Hn]; cbn [negb andb orb]; [split; [done|tauto]|].
  destruct (ix_n _ _ _ _ Hx) as [?|[En Hr]]; [done|]. rewrite En. destruct (Z.ltb_spec b n); [|lia]. cbn [negb orb].
  destruct (Z.eqb_spec (lget (g_cursor x) b) 0); split.
  - done.
  - intros (_ & ? & ?). congruence.
  - intros [= <-]. split; [congruence|done].
  - by intros (_ & -> & _).
Qed.

Lemma lookup_iff n x b id o c :
  index_ok n x -> 0 <= b < n -> id <> 0 ->
  lookup_off CAP b id x = Some (o, c) <-> cursor_of b x = Some c /\ has x id o.
Proof.
  intros Hx Hb Hid. unfold lookup_off, cursor_of. rewrite <- (assoc_holds CAP MAX_BKT Hcap Hbkt n x id o Hx Hid). unfold SlotIndexHash.assoc.
  destruct (negb (on x b) || _); [split; [done|intros []; done]|]. destruct (find CAP x id <? 0); [split; [done|intros []; done]|].
  split; [by intros [= <- <-]|by intros [[= <-] [= <-]]].
Qed.

Lemma set_cursor_ok n x b c :
  index_ok n x -> 0 <= b < n -> c <> 0 -> index_ok n (set_cursor x b c).
Proof.
  intros Hx Hb Hc. destruct (ix_lens _ _ _ _ Hx) as (L1 & L2 & L3). split; cbn; try apply Hx.
  - by rewrite len_lset.
  - intros Hn b' Hb' Hz. destruct (ix_n _ _ _ _ Hx) as [?|[En Hr]]; [done|]. rewrite lget_lset in Hz by lia.
    destruct (Z.eqb_spec b' b); [done|]. by apply (ix_unknown _ _ _ _ Hx).
Qed.

Lemma cursor_set n x b c b' c' :
  index_ok n x -> g_n_buckets x <> 0 -> 0 <= b < n -> 0 <= b' < n -> c <> 0 ->
  cursor_of b' (set_cursor x b c) = Some c' <-> (b' = b /\ c' = c) \/ (b' <> b /\ cursor_of b' x = Some c').
Proof.
  intros Hx Hn Hb Hb' Hc. rewrite (cursor_iff n), (cursor_iff n) by (done || by apply set_cursor_ok). cbn.
  destruct (ix_lens _ _ _ _ Hx) as (L1 & L2 & L3). destruct (ix_n _ _ _ _ Hx) as [?|[En Hr]]; [done|]. rewrite lget_lset by lia.
  destruct (Z.eqb_spec b' b) as [->|]; intuition congruence.
Qed.

Lemma cursor_forget n x b b' c :
  index_ok n x -> 0 <= b < n -> 0 <= b' < n -> cursor_of b' (forget CAP b x) = Some c -> b' <> b /\ cursor_of b' x = Some c.
Proof.
  intros Hx Hb Hb' Hc. destruct (forget_spec n x b Hx Hb) as (Fx & Fn & F). apply (cursor_iff n) in Hc; [|done..].
  destruct Hc as (Hn & Hc & Hnz). rewrite Fn in Hn. destruct (F Hn) as [Fc _]. rewrite Fc in Hc.
  destruct (ix_lens _ _ _ _ Hx) as (L1 & L2 & L3). destruct (ix_n _ _ _ _ Hx) as [?|[En Hr]]; [done|]. rewrite lget_lset in Hc by lia.
  destruct (Z.eqb_spec b' b); [congruence|]. split; [done|]. by apply (cursor_iff n).
Qed.

Lemma lookup_forget n x b id o c :
  index_ok n x -> 0 <= b < n -> 0 < id -> 0 < n -> lookup_off CAP (id mod n) id (forget CAP b x) = Some (o, c) ->
  id mod n <> b /\ lookup_off CAP (id mod n) id x = Some (o, c).
Proof.
  intros Hx Hb Hid Hn0 Hl. pose proof (Z.mod_pos_bound id n Hn0) as Hm. destruct (forget_spec n x b Hx Hb) as (Fx & Fn & F).
  apply (lookup_iff n) in Hl; [|done|done|lia]. destruct Hl as [Hc Hh]. pose proof Hc as Hc0.
  apply (cursor_forget n) in Hc as [Hne Hc]; [|done..]. split; [done|]. apply (lookup_iff n); [done|done|lia|]. split; [done|].
  apply (cursor_iff n) in Hc; [|done..]. destruct Hc as (Hn & _). destruct (F Hn) as [_ Fh]. apply Fh in Hh; [tauto|lia].
Qed.

Lemma drop_spec n x id :
  index_ok n x -> g_n_buckets x <> 0 -> id <> 0 ->
  let x' := drop_id CAP x id in
  index_ok n x' /\ g_n_buckets x' = g_n_buckets x /\ g_cursor x' = g_cursor x /\
  (forall id' o, id' <> 0 -> has x' id' o <-> id' <> id /\ has x id' o).
Proof.
  intros Hx Hn Hid. unfold drop_id. cbv zeta. rewrite Z.geb_leb. destruct (find_spec CAP MAX_BKT Hcap Hbkt n x id Hx Hid) as [[-> Hno]|[Hc E]].
  - cbn. split; [done|]. split; [done|]. split; [done|]. intros id' o Hid'. split; [|tauto]. intros Hh. split; [|done].
    intros ->. destruct Hh as (c & Hc & E & _). by destruct (Hno c Hc).
  - destruct (Z.leb_spec 0 (find CAP x id)); [|unfold cell in Hc; lia].
    destruct (remove_at_spec CAP MAX_BKT Hcap Hbkt n x _ Hx Hn Hc ltac:(congruence)) as (Rx & Rn & Rc & Rh & _).
    rewrite E in Rh. done.
Qed.

(** ** Noting an append and learning from a walk *)

Lemma note_spec n x id o sz t :
  index_ok n x -> 0 < id -> 0 < o -> 0 < sz -> o + sz < 2 ^ 32 -> 0 < n ->
  let b := id mod n in let x' := note CAP b id o sz t x in
  index_ok n x' /\
  (forall b' c, 0 <= b' < n -> cursor_of b' x' = Some c ->
     (b' = b /\ cursor_of b' x = Some o /\ c = o + sz) \/ (b' <> b /\ cursor_of b' x = Some c)) /\
  (forall id' o', 0 < id' -> cursor_of (id' mod n) x' <> None -> has x' id' o' ->
     (id' = id /\ t = false /\ o' = o) \/ (id' <> id /\ cursor_of (id' mod n) x <> None /\ has x id' o')).
Proof.
  intros Hx Hid Ho Hsz Hos Hn0 b. pose proof (Z.mod_pos_bound id n Hn0) as Hb. fold b in Hb. unfold note. cbv zeta.
  destruct (cursor_of b x) as [c0|] eqn:Ec.
  - pose proof Ec as Ec'. apply (cursor_iff n) in Ec'; [|done..]. destruct Ec' as (Hn & Ecur & Hcz).
    assert (on x b = true) as -> by (unfold on; destruct (ix_n _ _ _ _ Hx) as [?|[-> ?]]; lia).
    rewrite Ecur. cbn [negb orb]. assert (c0 =? 0 = false) as -> by lia. destruct (Z.eqb_spec o c0) as [->|Hne]; cbn [negb].
    + rewrite (u32_small (c0 + sz)) by lia. set (y := set_cursor x b (c0 + sz)).
      assert (index_ok n y) as Hy by (apply set_cursor_ok; done || lia).
      assert (forall b' c, 0 <= b' < n -> cursor_of b' y = Some c -> (b' = b /\ c = c0 + sz) \/ (b' <> b /\ cursor_of b' x = Some c)) as Hyc
        by (intros b' c Hb' Hc; apply (cursor_set n) in Hc; done || lia).
      assert (forall z, g_n_buckets z = g_n_buckets y -> g_cursor z = g_cursor y -> forall b', cursor_of b' z = cursor_of b' y) as Hzc
        by (intros z E1 E2 b'; unfold cursor_of, on; by rewrite E1, E2).
      assert (forall z, index_ok n z -> g_n_buckets z = g_n_buckets y -> g_cursor z = g_cursor y ->
        (forall id' o', id' <> 0 -> has z id' o' -> (id' = id /\ t = false /\ o' = c0) \/ (id' <> id /\ has x id' o')) ->
        index_ok n z /\ (forall b' c, 0 <= b' < n -> cursor_of b' z = Some c ->
          (b' = b /\ cursor_of b' x = Some c0 /\ c = c0 + sz) \/ (b' <> b /\ cursor_of b' x = Some c)) /\
        (forall id' o', 0 < id' -> cursor_of (id' mod n) z <> None -> has z id' o' ->
          (id' = id /\ t = false /\ o' = c0) \/ (id' <> id /\ cursor_of (id' mod n) x <> None /\ has x id' o'))) as Hfin.
      { intros z Hz E1 E2 Hh. split; [done|]. split.
        - intros b' c Hb' Hc. rewrite (Hzc z E1 E2) in Hc. destruct (Hyc b' c Hb' Hc) as [[-> ->]|?]; [left; done|by right].
        - intros id' o' Hid' Hc Hh'. destruct (Hh id' o' ltac:(lia) Hh') as [?|[? ?]]; [by left|right]. split; [done|]. split; [|done].
          rewrite (Hzc z E1 E2) in Hc. destruct (cursor_of (id' mod n) y) as [c|] eqn:E; [|done].
          destruct (Hyc (id' mod n) c (Z.mod_pos_bound id' n Hn0) E) as [[-> _]|[_ ->]]; [by rewrite Ec|done]. }
      destruct t.
      * destruct (drop_spec n y id Hy Hn ltac:(lia)) as (Dx & Dn & Dc & Dh). apply Hfin; try done.
        intros id' o' Hz Hh. apply Dh in Hh; [|done]. by right.
      * destruct (put_spec CAP MAX_BKT Hcap Hbkt n y id c0 Hy Hn ltac:(lia)) as (Px & Pn & Pc & Ph & _).
        { fold b. unfold y. cbn. destruct (ix_lens _ _ _ _ Hx) as (_ & L2 & _). destruct (ix_n _ _ _ _ Hx) as [?|[? ?]]; [done|].
          rewrite lget_lset by lia. rewrite Z.eqb_refl. lia. }
        apply Hfin; try done. intros id' o' Hz Hh. destruct (Ph id' o' Hz Hh) as [[? ?]|?]; [by left|by right].
    + destruct (forget_spec n x b Hx Hb) as (Fx & Fn & F). split; [done|]. split.
      * intros b' c Hb' Hc. right. by apply (cursor_forget n) in Hc.
      * intros id' o' Hid' Hc Hh. right. destruct (cursor_of (id' mod n) (forget CAP b x)) as [c|] eqn:E; [|done].
        apply (cursor_forget n) in E as [Hne' E]; [|done|done|by apply Z.mod_pos_bound]. destruct (F Hn) as [_ Fh].
        split; [intros ->; done|]. rewrite E. split; [done|]. apply Fh in Hh; [tauto|lia].
  - assert (negb (on x b) || (lget (g_cursor x) b =? 0) = true) as ->.
    { unfold cursor_of in Ec. by destruct (negb (on x b) || _). }
    split; [done|]. split.
    + intros b' c Hb' Hc. right. split; [intros ->; congruence|done].
    + intros id' o' Hid' Hc Hh. right. split; [intros ->; done|done].
Qed.

Lemma learn_spec n x id o cur :
  index_ok n x -> 0 < id -> o < 2 ^ 32 -> 0 < cur < 2 ^ 32 -> 0 < n ->
  let b := id mod n in let x' := learn CAP b id o cur x in
  index_ok n x' /\
  (forall b' c, 0 <= b' < n -> cursor_of b' x' = Some c -> (b' = b /\ c = cur) \/ (b' <> b /\ cursor_of b' x = Some c)) /\
  (forall id' o', 0 < id' -> cursor_of (id' mod n) x' <> None -> has x' id' o' ->
     (id' = id /\ 0 <= o /\ o' = o) \/ (cursor_of (id' mod n) x <> None /\ has x id' o')).
Proof.
  intros Hx Hid Ho Hcur Hn0 b. pose proof (Z.mod_pos_bound id n Hn0) as Hb. fold b in Hb. unfold learn. cbv zeta.
  destruct (on x b) eqn:Eon; cbn [negb orb].
  2: { split; [done|]. split; [|by right]. intros b' c Hb' Hc. right. split; [|done]. intros ->. unfold cursor_of in Hc. by rewrite Eon in Hc. }
  assert (cur =? 0 = false) as -> by lia. assert (g_n_buckets x <> 0) as Hn by (intros E; unfold on in Eon; by rewrite E in Eon).
  destruct (negb (lget (g_cursor x) b =? 0) && negb (lget (g_cursor x) b =? cur)) eqn:Ek.
  - destruct (forget_spec n x b Hx Hb) as (Fx & Fn & F). split; [done|]. split.
    + intros b' c Hb' Hc. right. by apply (cursor_forget n) in Hc.
    + intros id' o' Hid' Hc Hh. right. destruct (cursor_of (id' mod n) (forget CAP b x)) as [c|] eqn:E; [|done].
      apply (cursor_forget n) in E as [Hne' E]; [|done|done|by apply Z.mod_pos_bound]. destruct (F Hn) as [_ Fh].
      rewrite E. split; [done|]. apply Fh in Hh; [tauto|lia].
  - set (y := if lget (g_cursor x) b =? 0 then set_cursor x b cur else x).
    assert (index_ok n y /\ g_n_buckets y <> 0 /\ lget (g_cursor y) b <> 0 /\ g_ids y = g_ids x /\ g_offs y = g_offs x) as (Hy & Hyn & Hyc & Ei & Eo).
    { unfold y. destruct (Z.eqb_spec (lget (g_cursor x) b) 0) as [E|Hne]; [|done].
      split; [apply set_cursor_ok; done || lia|]. split; [done|]. split; [|done]. cbn.
      destruct (ix_lens _ _ _ _ Hx) as (_ & L2 & _). destruct (ix_n _ _ _ _ Hx) as [?|[? ?]]; [done|].
      rewrite lget_lset by lia. rewrite Z.eqb_refl. lia. }
    assert (forall b' c, 0 <= b' < n -> cursor_of b' y = Some c -> (b' = b /\ c = cur) \/ (b' <> b /\ cursor_of b' x = Some c)) as Hcu.
    { unfold y. intros b' c Hb'. destruct (Z.eqb_spec (lget (g_cursor x) b) 0) as [E|Hne]; cbn [negb andb] in Ek.
      - intros Hc. apply (cursor_set n) in Hc; done || lia.
      - intros Hc. destruct (decide (b' = b)) as [->|]; [left|by right]. apply (cursor_iff n) in Hc; [|done..]. split; [done|].
        apply negb_false_iff, Z.eqb_eq in Ek. lia. }
    assert (forall id' o', 0 < id' -> cursor_of (id' mod n) y <> None -> has y id' o' -> cursor_of (id' mod n) x <> None /\ has x id' o') as Hold.
    { intros id' o' Hid' Hc Hh. rewrite Ei, Eo in Hh. split; [|done]. intros Hnone. unfold y in Hc.
      destruct (Z.eqb_spec (lget (g_cursor x) b) 0) as [E|Hne]; [|done].
      destruct (cursor_of (id' mod n) (set_cursor x b cur)) as [c|] eqn:Es; [|done].
      apply (cursor_set n) in Es; [|done|done|done|by apply Z.mod_pos_bound|lia]. destruct Es as [[Eb _]|[_ Es]]; [|congruence].
      pose proof (ix_unknown _ _ _ _ Hx Hn b Hb E) as Hz. destruct (none_in_bucket n b x Hx Hz id' o' ltac:(lia)) as [Hi _].
      by destruct (Hi Hh). }
    rewrite Z.geb_leb. destruct (Z.leb_spec 0 o) as [Hpos|Hneg].
    + rewrite (u32_small o) by lia. destruct (put_spec CAP MAX_BKT Hcap Hbkt n y id o Hy Hyn ltac:(lia) Hyc) as (Px & Pn & Pc & Ph & _).
      assert (forall b', cursor_of b' (put CAP y id o) = cursor_of b' y) as Ec by (intros b'; unfold cursor_of, on; by rewrite Pn, Pc).
      split; [done|]. split; [intros b' c; rewrite Ec; apply Hcu|]. intros id' o' Hid'. rewrite Ec. intros Hc Hh.
      destruct (Ph id' o' ltac:(lia) Hh) as [[? ?]|[? Hh']]; [by left|right]. by apply Hold.
    + split; [done|]. split; [apply Hcu|]. intros id' o' Hid' Hc Hh. right. by apply Hold.
Qed.

Lemma lookup_has n x id o c :
  index_ok n x -> 0 < id -> 0 < n -> lookup_off CAP (id mod n) id x = Some (o, c) -> cursor_of (id mod n) x <> None /\ has x id o.
Proof.
  intros Hx Hid Hn Hl. apply (lookup_iff n) in Hl; [|done|by apply Z.mod_pos_bound|lia]. destruct Hl as [-> Hh]. done.
Qed.

Lemma has_lookup n x id o :
  index_ok n x -> 0 < id -> 0 < n -> cursor_of (id mod n) x <> None -> has x id o ->
  exists c, lookup_off CAP (id mod n) id x = Some (o, c).
Proof.
  intros Hx Hid Hn Hc Hh. destruct (cursor_of (id mod n) x) as [c|] eqn:E; [|done]. exists c.
  apply (lookup_iff n); [done|by apply Z.mod_pos_bound|lia|done].
Qed.

Lemma reset_ok n k m x : index_ok m x -> k = 0 \/ k = n /\ 0 < n -> index_ok n (reset CAP MAX_BKT k x).
Proof.
  intros Hx Hn. pose proof (cap_range CAP Hcap). pose proof (fill_range CAP Hcap).
  assert (forall q c, lget (replicate q 0) c = 0) as Hz.
  { intros q c. unfold lget. destruct (replicate q 0 !! Z.to_nat c) eqn:E; [|done]. by apply lookup_replicate in E as [-> _]. }
  split; cbn [reset g_ids g_offs g_used g_cursor g_bcnt g_n_buckets].
  - split; [unfold len; rewrite length_replicate; lia|..]; intros i j Hi Hj; rewrite Hz; done.
  - unfold len. rewrite !length_replicate. destruct (ix_lens _ _ _ _ Hx) as (L1 & _). unfold len in L1. lia.
  - destruct (Z.gtb_spec k MAX_BKT); [by left|]. destruct Hn as [->|[-> ?]]; [by left|right; lia].
  - rewrite cnt_replicate. lia.
  - intros _ b Hb. by rewrite Hz, cnt_replicate.
  - intros _ b Hb _. apply cnt_replicate.
Qed.

#[export] Instance hash_index_laws : @SlotIndexLaws sidx (hash_index CAP MAX_BKT) (fun n x => 0 < n /\ index_ok n x).
Proof.
  split; cbn [blob_db_sidx_reset blob_db_sidx_disable blob_db_sidx_forget blob_db_sidx_begin blob_db_sidx_note blob_db_sidx_learn
    blob_db_sidx_lookup blob_db_sidx_cursor hash_index].
  - intros m n x [_ Hx] Hn. split; [lia|]. apply (reset_ok n n m); [done|lia].
  - intros m n x b [_ Hx] Hn Hb. destruct (cursor_of b _) as [c|] eqn:E; [|done]. exfalso. unfold cursor_of, lget in E. cbn [reset g_cursor] in E.
    destruct (replicate (Z.to_nat MAX_BKT) 0 !! Z.to_nat b) eqn:El; [apply lookup_replicate in El as [-> _]|]; cbn in E;
      rewrite orb_true_r in E; done.
  - intros m x [? Hx]. split; [done|]. apply (reset_ok m 0 m); [done|by left].
  - intros n x b id o c [_ Hx] Hb Hl. unfold lookup_off, cursor_of in *. destruct (negb (on x b) || _); [done|].
    destruct (find CAP x id <? 0); [done|]. by injection Hl as _ <-.
  - intros n x b [? Hx] Hb. split; [done|]. by apply forget_spec.
  - intros n x b b' c [_ Hx] Hb Hb' Hc. by apply (cursor_forget n).
  - intros n x b id [o c] [? Hx] Hb Hid Hl. apply (lookup_forget n); done || lia.
  - intros n x b d [? Hx] Hb Hd. split; [done|]. unfold begin. destruct (on x b); [|done].
    apply set_cursor_ok; [by apply forget_spec|done|lia].
  - intros n x b d b' c [? Hx] Hb Hb' Hd Hc. unfold begin in Hc. destruct (on x b) eqn:Eon; cbn [negb] in Hc.
    + destruct (forget_spec n x b Hx Hb) as (Fx & Fn & F). assert (g_n_buckets x <> 0) as Hn by (intros E; unfold on in Eon; by rewrite E in Eon).
      apply (cursor_set n) in Hc; [|done|congruence|done|done|lia]. destruct Hc as [?|[Hne Hc]]; [by left|right].
      split; [done|]. by apply (cursor_forget n) in Hc as [_ Hc].
    + right. split; [|done]. intros ->. unfold cursor_of in Hc. by rewrite Eon in Hc.
  - intros n x b d id [o c] [Hn0 Hx] Hb Hd Hid Hl. unfold begin in Hl.
    pose proof (Z.mod_pos_bound id n Hn0) as Hm. destruct (on x b) eqn:Eon; cbn [negb] in Hl.
    + destruct (forget_spec n x b Hx Hb) as (Fx & Fn & F). assert (g_n_buckets x <> 0) as Hn by (intros E; unfold on in Eon; by rewrite E in Eon).
      apply (lookup_iff n) in Hl; [|apply set_cursor_ok; done || lia|done|lia]. destruct Hl as [Hc Hh].
      change (has (set_cursor (forget CAP b x) b d)) with (has (forget CAP b x)) in Hh. destruct (F Hn) as [_ Fh].
      apply Fh in Hh; [|lia]. destruct Hh as [Hne Hh]. split; [done|]. apply (lookup_iff n); [done|done|lia|]. split; [|done].
      apply (cursor_set n) in Hc; [|done|congruence|done|done|lia]. destruct Hc as [[? _]|[_ Hc]]; [done|].
      by apply (cursor_forget n) in Hc as [_ Hc].
    + split; [|done]. intros <-. unfold lookup_off in Hl. by rewrite Eon in Hl.
  - intros n x id o sz t [? Hx] Hid Ho Hsz Hos. split; [done|]. apply (note_spec n x id o sz t Hx); try lia.
  - intros n x id o sz t b' c [? Hx] Hid Ho Hsz Hos Hb' Hc. destruct (note_spec n x id o sz t Hx) as (_ & Nc & _); [lia..|]. by apply Nc.
  - intros n x id o sz t id' o' c [? Hx] Hid Ho Hsz Hos Hid' Hl. destruct (note_spec n x id o sz t Hx) as (Nx & _ & Nh); [lia..|].
    apply (lookup_has n) in Hl as [Hc Hh]; [|done|lia|done]. destruct (Nh id' o' ltac:(lia) Hc Hh) as [?|(? & ? & ?)]; [by left|right].
    split; [done|]. apply has_lookup; done || lia.
  - intros n x id o cur [? Hx] Hid Ho Hcur. split; [done|]. apply (learn_spec n x id o cur Hx); lia.
  - intros n x id o cur b' c [? Hx] Hid Ho Hcur Hb' Hc. destruct (learn_spec n x id o cur Hx) as (_ & Nc & _); [lia..|]. by apply Nc.
  - intros n x id o cur id' o' c [? Hx] Hid Ho Hcur Hid' Hl. destruct (learn_spec n x id o cur Hx) as (Nx & _ & Nh); [lia..|].
    apply (lookup_has n) in Hl as [Hc Hh]; [|done|lia|done]. destruct (Nh id' o' ltac:(lia) Hc Hh) as [?|(? & ?)]; [by left|right].
    apply has_lookup; done || lia.
Qed.
End laws.
