(* ===== verification/Image.v ===== *)
(** Bucket images: the slot log of one bucket sector as bytes, the resident
    walks of blob_db.c over it, and the reference reading of a log that every
    walk is compared with. *)

From S2P Require Import Prelude Layout.

(** The fields of [st] that [store_open_and_validate()] derives from the
    device, fixed until the store is opened again. *)
Record geom := mk_geom {
  fa_size : Z;
  peb_size : Z;
  write_align : Z;
  n_pebs : Z;
  n_buckets : Z;
  rec_size : Z;
  log_cap : Z;
  preformat : bool;
}.

(** A slot of a resident bucket image, as sized by its header. *)
Record slot_view := mk_slot_view {
  sv_id : Z;
  sv_flags : Z;
  sv_val_len : Z;
  sv_total_size : Z;
}.

Section image.
Context (cfg : config) (g : geom) `{Crc}.

Definition slot_size_for (val_len : Z) : Z :=
  let base := BLOB_DB_SLOT_OVERHEAD + val_len in
  let a := if write_align g =? 0 then 1 else write_align g in
  Z.land (base + a - 1) (Z.lnot (a - 1)).

Definition peb_offset (peb : Z) : Z := peb * peb_size g.
Definition bucket_offset (bid : Z) : Z := peb_offset (BLOB_DB_FIRST_BUCKET + bid).
Definition id_to_bucket (id : Z) : Z := u16 (id mod n_buckets g).

Definition bucket_hdr_valid (buf : bytes) (bid : Z) : bool :=
  let bhdr := dec_bucket_hdr buf in
  bool_decide (bh_magic bhdr = BUCKET_MAGIC) &&
  (bh_crc32 bhdr =? hdr_crc32 (slice 0 16 buf)) &&
  (bh_bucket_id bhdr =? bid).

(** The flag tests of a slot header, in the order the walks make them. *)
Definition flag_set (flags f : Z) : bool := negb (Z.land flags f =? 0).
Definition flags_unknown (flags : Z) : bool :=
  negb (Z.land flags (Z.lnot (BLOB_DB_SLOT_F_KNOWN cfg)) =? 0).

Definition slot_walk_at (buf : bytes) (off : Z) : option (slot_view * bool) :=
  if off + BLOB_DB_SLOT_OVERHEAD >? peb_size g then None else
  let shdr := dec_slot_hdr (slice off 4 buf) in
  if sh_flags shdr =? 255 then None else
  if negb (flag_set (sh_flags shdr) BLOB_DB_SLOT_F_SEALED) then None else
  if flags_unknown (sh_flags shdr) then None else
  if sh_val_len shdr >? MAX_PAYLOAD_LEN cfg then None else
  let ssz := slot_size_for (sh_val_len shdr) in
  if off + ssz >? peb_size g then None else
  let id := rd 8 (off + 4) buf in
  let payload := slice (off + 12) (sh_val_len shdr) buf in
  let stored := rd 2 (off + 12 + sh_val_len shdr) buf in
  let intact := slot_crc16 shdr id payload (sh_val_len shdr) =? stored in
  Some (mk_slot_view id (sh_flags shdr) (sh_val_len shdr) ssz, intact).

Definition slot_foreign_head (hdr : blob_db_slot_hdr) (off : Z) : bool :=
  negb (sh_flags hdr =? 255) && flag_set (sh_flags hdr) BLOB_DB_SLOT_F_SEALED &&
  flags_unknown (sh_flags hdr) && (sh_val_len hdr <=? MAX_PAYLOAD_LEN cfg) &&
  (off + slot_size_for (sh_val_len hdr) <=? peb_size g).

Definition slot_foreign_at (buf : bytes) (off : Z) : bool :=
  if off + BLOB_DB_SLOT_OVERHEAD >? peb_size g then false else
  let shdr := dec_slot_hdr (slice off 4 buf) in
  if negb (slot_foreign_head shdr off) then false else
  let id := rd 8 (off + 4) buf in
  let payload := slice (off + 12) (sh_val_len shdr) buf in
  let stored := rd 2 (off + 12 + sh_val_len shdr) buf in
  slot_crc16 shdr id payload (sh_val_len shdr) =? stored.

(** Every slot is at least 14 bytes, so a walk makes fewer than [peb_size]
    steps: the fuel of the loops below. *)
Definition walk_fuel : nat := Z.to_nat (peb_size g).

(** [bucket_image_ends_foreign()]: the loop, then the test where it stopped. *)
Fixpoint image_end (fuel : nat) (buf : bytes) (off : Z) : Z :=
  match fuel with
  | O => off
  | S fuel =>
      match slot_walk_at buf off with
      | Some (sv, _) => image_end fuel buf (off + sv_total_size sv)
      | None => off
      end
  end.

Definition bucket_image_ends_foreign (buf : bytes) : bool :=
  slot_foreign_at buf (image_end walk_fuel buf BLOB_DB_BUCKET_DATA_OFF).

Definition slot_view_at (buf : bytes) (off : Z) : option slot_view :=
  match slot_walk_at buf off with
  | Some (sv, true) => Some sv
  | _ => None
  end.

Fixpoint superseded_from (fuel : nat) (buf : bytes) (scan id : Z) : bool :=
  match fuel with
  | O => false
  | S fuel =>
      match slot_walk_at buf scan with
      | Some (future, intact) =>
          if intact && (sv_id future =? id) then true
          else superseded_from fuel buf (scan + sv_total_size future) id
      | None => false
      end
  end.

Definition slot_superseded (buf : bytes) (off : Z) (sv : slot_view) : bool :=
  superseded_from walk_fuel buf (off + sv_total_size sv) (sv_id sv).
End image.

(** * The geometry a successful open establishes *)

Record geom_ok (cfg : config) (g : geom) : Prop := {
  ok_align : pow2_le32 (write_align g);
  ok_buckets : 1 <= n_buckets g;
  ok_pebs : n_pebs g = n_buckets g + BLOB_DB_FIRST_BUCKET /\ n_pebs g <= 65535;
  ok_peb_size : 224 <= peb_size g <= 65536;
  ok_fa_size : fa_size g = n_pebs g * peb_size g;
  ok_rec_size : rec_size g = round_up 48 (write_align g);
  ok_log_cap : 1 <= log_cap g /\ BLOB_DB_MASTER_LOG_OFF + log_cap g * rec_size g <= peb_size g;
  ok_payload : 1 <= MAX_PAYLOAD_LEN cfg <= (peb_size g - BLOB_DB_BUCKET_DATA_OFF) / 2 - BLOB_DB_SLOT_OVERHEAD;
}.

(** What else an aligned device gives: the write unit divides a block and the
    16-byte bucket header. *)
Record geom_aligned (g : geom) : Prop := {
  al_hdr : BLOB_DB_BUCKET_DATA_OFF mod write_align g = 0;
  al_peb : peb_size g mod write_align g = 0;
}.

Ltac unfold_consts :=
  unfold BLOB_DB_BUCKET_DATA_OFF, BLOB_DB_SLOT_OVERHEAD, BLOB_DB_FIRST_BUCKET, BLOB_DB_MASTER_LOG_OFF,
    BLOB_DB_MASTER_HDR_MAX, BLOB_DB_ROOT_ID, BLOB_DB_SCRATCH_SECTOR, BLOB_DB_MASTER_A_SECTOR,
    BLOB_DB_MASTER_B_SECTOR in *.

(** * The reference reading of a log *)

(** One slot of a log: where it starts, what its header says, whether its CRC
    verifies, and its bytes. *)
Record entry := mk_entry {
  e_off : Z;
  e_sv : slot_view;
  e_intact : bool;
  e_bytes : bytes;
}.

Definition e_id (e : entry) : Z := sv_id (e_sv e).
Definition e_size (e : entry) : Z := sv_total_size (e_sv e).
Definition e_tomb (e : entry) : bool := flag_set (sv_flags (e_sv e)) BLOB_DB_SLOT_F_TOMBSTONE.
Definition e_payload (e : entry) : bytes := slice 12 (sv_val_len (e_sv e)) (e_bytes e).

(** The last slot of a log with a property. *)
Fixpoint last_such (P : entry -> bool) (l : list entry) : option entry :=
  match l with
  | [] => None
  | e :: l => match last_such P l with
              | Some x => Some x
              | None => if P e then Some e else None
              end
  end.

(** The newest intact slot of [id], and the value it makes visible. *)
Definition newest (id : Z) : list entry -> option entry :=
  last_such (fun e => e_intact e && (e_id e =? id)).

Definition live (id : Z) (l : list entry) : option entry :=
  match newest id l with
  | Some e => if e_tomb e then None else Some e
  | None => None
  end.

(** Its flags and payload; the payload alone. *)
Definition slot_of (id : Z) (l : list entry) : option (Z * bytes) := (fun e => (sv_flags (e_sv e), e_payload e)) <$> live id l.
Definition value (id : Z) (l : list entry) : option bytes := snd <$> slot_of id l.

Section parse.
Context (cfg : config) (g : geom) `{Crc}.

(** [log_rel buf off l e]: the slots of [l] follow one another in [buf] from
    [off] up to [e]. *)
Inductive log_rel (buf : bytes) : Z -> list entry -> Z -> Prop :=
  | log_done off : log_rel buf off [] off
  | log_slot off sv i l e :
      slot_walk_at cfg g buf off = Some (sv, i) ->
      log_rel buf (off + sv_total_size sv) l e ->
      log_rel buf off (mk_entry off sv i (slice off (sv_total_size sv) buf) :: l) e.

(** The whole log of a bucket image. *)
Definition parsed (buf : bytes) (l : list entry) (e : Z) : Prop :=
  log_rel buf BLOB_DB_BUCKET_DATA_OFF l e /\ slot_walk_at cfg g buf e = None.

(** It is computable. *)
Fixpoint log_from (fuel : nat) (buf : bytes) (off : Z) : list entry :=
  match fuel with
  | O => []
  | S fuel =>
      match slot_walk_at cfg g buf off with
      | Some (sv, i) =>
          mk_entry off sv i (slice off (sv_total_size sv) buf) :: log_from fuel buf (off + sv_total_size sv)
      | None => []
      end
  end.

Definition bucket_log (buf : bytes) : list entry := log_from (walk_fuel g) buf BLOB_DB_BUCKET_DATA_OFF.
Definition log_end (buf : bytes) : Z := image_end cfg g (walk_fuel g) buf BLOB_DB_BUCKET_DATA_OFF.

Context (Hg : geom_ok cfg g).

Lemma slot_size_spec v :
  slot_size_for g v = round_up (14 + v) (write_align g) /\
  14 + v <= slot_size_for g v < 14 + v + write_align g /\ slot_size_for g v mod write_align g = 0.
Proof.
  pose proof (ok_align _ _ Hg) as Ha. pose proof (pow2_le32_pos _ Ha).
  assert (slot_size_for g v = round_up (14 + v) (write_align g)) as E.
  { unfold slot_size_for. destruct (Z.eqb_spec (write_align g) 0); [lia|done]. }
  split; [done|]. rewrite E. apply round_up_spec, Ha.
Qed.

Lemma slot_size_mono v v' : v <= v' -> slot_size_for g v <= slot_size_for g v'.
Proof.
  intros Hv. destruct (slot_size_spec v) as (E & H1 & H2), (slot_size_spec v') as (E' & H1' & H2').
  pose proof (pow2_le32_pos _ (ok_align _ _ Hg)).
  apply Z.mod_divide in H2, H2'; [|lia..]. destruct H2 as [k Hk], H2' as [k' Hk'].
  destruct (decide (k <= k')); [nia|]. assert ((k' + 1) * write_align g <= k * write_align g) by nia. lia.
Qed.

Lemma slot_size_pos v : 0 <= v -> 14 <= slot_size_for g v.
Proof. destruct (slot_size_spec v) as (_ & ? & _). lia. Qed.

Lemma dec_slot_hdr_at off buf :
  0 <= off -> dec_slot_hdr (slice off 4 buf) = mk_slot_hdr (rd 1 off buf) (rd 1 (off + 1) buf) (rd 2 (off + 2) buf).
Proof. intros. unfold dec_slot_hdr. rewrite !rd_slice by lia. by rewrite Z.add_0_r. Qed.

(** A header that can be trusted to size its slot. *)
Definition head_ok (off flags vl : Z) : bool :=
  negb (off + 14 >? peb_size g) && negb (flags =? 255) && flag_set flags BLOB_DB_SLOT_F_SEALED &&
  negb (flags_unknown cfg flags) && negb (vl >? MAX_PAYLOAD_LEN cfg) &&
  negb (off + slot_size_for g vl >? peb_size g).

Definition crc_ok_at (buf : bytes) (off : Z) : bool :=
  slot_crc16 (mk_slot_hdr (rd 1 off buf) (rd 1 (off + 1) buf) (rd 2 (off + 2) buf)) (rd 8 (off + 4) buf)
    (slice (off + 12) (rd 2 (off + 2) buf) buf) (rd 2 (off + 2) buf) =? rd 2 (off + 12 + rd 2 (off + 2) buf) buf.

Lemma slot_walk_at_eq buf off :
  0 <= off ->
  slot_walk_at cfg g buf off =
    if head_ok off (rd 1 off buf) (rd 2 (off + 2) buf)
    then Some (mk_slot_view (rd 8 (off + 4) buf) (rd 1 off buf) (rd 2 (off + 2) buf)
                 (slot_size_for g (rd 2 (off + 2) buf)), crc_ok_at buf off)
    else None.
Proof.
  intros Ho. unfold slot_walk_at, head_ok, crc_ok_at. rewrite dec_slot_hdr_at by done. simpl.
  unfold BLOB_DB_SLOT_OVERHEAD.
  destruct (off + 14 >? peb_size g), (rd 1 off buf =? 255), (flag_set (rd 1 off buf) _),
    (flags_unknown cfg _), (rd 2 (off + 2) buf >? _), (off + slot_size_for g _ >? _); done.
Qed.

Lemma head_ok_spec off flags vl :
  head_ok off flags vl = true ->
  off + 14 <= peb_size g /\ flags <> 255 /\ vl <= MAX_PAYLOAD_LEN cfg /\ off + slot_size_for g vl <= peb_size g.
Proof. unfold head_ok. rewrite !andb_true_iff, !negb_true_iff. intros. destruct_and?. lia. Qed.

(** Whether a slot can be walked depends on its bytes alone, as long as it
    fits: a slot can be moved. *)
Lemma rd_of_slice n k off m buf : 0 <= off -> 0 <= k -> k + n <= m -> rd n (off + k) buf = rd n k (slice off m buf).
Proof. intros. by rewrite rd_slice by lia. Qed.

Lemma slot_walk_move buf off sv i buf' off' :
  0 <= off -> 0 <= off' -> 0 <= rd 2 (off + 2) buf ->
  slot_walk_at cfg g buf off = Some (sv, i) ->
  slice off' (sv_total_size sv) buf' = slice off (sv_total_size sv) buf ->
  off' + sv_total_size sv <= peb_size g ->
  slot_walk_at cfg g buf' off' = Some (sv, i).
Proof.
  intros Ho Ho' Hv. rewrite !slot_walk_at_eq by done.
  destruct (head_ok off _ _) eqn:Hh; [|done]. intros [= <- <-]. simpl. intros Hs Hfit.
  set (vl := rd 2 (off + 2) buf) in *. set (sz := slot_size_for g vl) in *.
  assert (14 + vl <= sz) by (destruct (slot_size_spec vl) as (_ & ? & _); unfold sz; lia).
  assert (forall n k, 0 <= k -> k + n <= sz -> rd n (off' + k) buf' = rd n (off + k) buf) as Hrd.
  { intros n k ??. rewrite !(rd_of_slice n k _ sz) by lia. by rewrite Hs. }
  assert (forall n k, 0 <= k -> k + n <= sz -> slice (off' + k) n buf' = slice (off + k) n buf) as Hsl.
  { intros n k ??. rewrite <- !(slice_slice k n _ sz) by lia. by rewrite Hs. }
  assert (rd 1 off' buf' = rd 1 off buf) as E1 by (rewrite <- (Z.add_0_r off'), <- (Z.add_0_r off); apply Hrd; lia).
  assert (rd 2 (off' + 2) buf' = vl) as E2 by (apply Hrd; lia).
  rewrite E1, E2, Hrd by lia. unfold crc_ok_at. rewrite E1, E2. fold vl.
  rewrite !Hrd by lia. rewrite Hsl by lia. rewrite <- !Z.add_assoc, !Hrd by lia.
  assert (head_ok off' (rd 1 off buf) vl = true) as ->; [|done].
  revert Hh. unfold head_ok. rewrite !andb_true_iff, !negb_true_iff. intros. destruct_and?.
  subst sz. split_and!; try done; lia.
Qed.

(** ** Logs *)

Definition img_ok (buf : bytes) : Prop := len buf = peb_size g /\ bytes_ok buf.

Lemma rd2_nonneg buf off : bytes_ok buf -> 0 <= rd 2 off buf.
Proof.
  intros Hb. unfold rd. pose proof (le_dec_bound (slice off 2 buf) (bytes_ok_slice _ _ _ Hb)). lia.
Qed.

Lemma slot_walk_bounds buf off sv i :
  bytes_ok buf -> 0 <= off -> slot_walk_at cfg g buf off = Some (sv, i) ->
  14 <= sv_total_size sv /\ off + sv_total_size sv <= peb_size g /\
  0 <= sv_val_len sv <= MAX_PAYLOAD_LEN cfg /\ sv_total_size sv = slot_size_for g (sv_val_len sv).
Proof.
  intros Hb Ho. rewrite slot_walk_at_eq by done. destruct (head_ok _ _ _) eqn:E; [|done].
  intros [= <- <-]. simpl. apply head_ok_spec in E as (?&?&?&?).
  pose proof (rd2_nonneg buf (off + 2) Hb). pose proof (slot_size_pos (rd 2 (off + 2) buf)). lia.
Qed.

Lemma log_rel_bounds buf off l e :
  bytes_ok buf -> 0 <= off <= peb_size g -> log_rel buf off l e ->
  off + 14 * len l <= e <= peb_size g.
Proof.
  intros Hb Ho Hl. revert Ho. induction Hl as [off|off sv i l e Hw Hl IH]; intros Ho.
  - unfold len. simpl. lia.
  - destruct (slot_walk_bounds _ off _ _ Hb ltac:(lia) Hw) as (?&?&?&?). rewrite len_cons.
    specialize (IH ltac:(lia)). lia.
Qed.

Lemma log_rel_app buf off l1 m l2 e :
  log_rel buf off l1 m -> log_rel buf m l2 e -> log_rel buf off (l1 ++ l2) e.
Proof. induction 1; intros; simpl; [done|]. constructor; auto. Qed.

Lemma log_rel_det buf off l e l' e' :
  log_rel buf off l e -> slot_walk_at cfg g buf e = None ->
  log_rel buf off l' e' -> slot_walk_at cfg g buf e' = None -> l = l' /\ e = e'.
Proof.
  intros Hl He. revert l' e'. induction Hl as [off|off sv i l e Hw Hl IH]; intros l' e' Hl' He';
    inversion Hl' as [|? sv' i' l2 ? Hw' Hl2]; subst; try congruence; [done|].
  rewrite Hw in Hw'. injection Hw' as <- <-. destruct (IH He _ _ Hl2 He') as [-> ->]. done.
Qed.

(** Any longer log of the same image extends the shorter one. *)
Lemma log_rel_prefix buf off l e l' e' :
  log_rel buf off l e -> log_rel buf off l' e' -> slot_walk_at cfg g buf e' = None ->
  exists l2, l' = l ++ l2 /\ log_rel buf e l2 e'.
Proof.
  intros Hl. revert l' e'. induction Hl as [off|off sv i l e Hw Hl IH]; intros l' e' Hl' He'; [by exists l'|].
  inversion Hl' as [|? sv' i' l2 ? Hw' Hl2]; subst; [congruence|].
  rewrite Hw in Hw'. injection Hw' as <- <-. destruct (IH _ _ Hl2 He') as (l3 & -> & ?). by exists l3.
Qed.

Lemma log_from_spec fuel buf off :
  bytes_ok buf -> 0 <= off -> peb_size g - off < 14 * Z.of_nat fuel ->
  log_rel buf off (log_from fuel buf off) (image_end cfg g fuel buf off) /\
  slot_walk_at cfg g buf (image_end cfg g fuel buf off) = None.
Proof.
  intros Hb. revert off. induction fuel as [|fuel IH]; intros off Ho Hf; simpl.
  - split; [constructor|]. rewrite slot_walk_at_eq by done. destruct (head_ok _ _ _) eqn:E; [|done].
    apply head_ok_spec in E. lia.
  - destruct (slot_walk_at cfg g buf off) as [[sv i]|] eqn:E; [|split; [constructor|done]].
    destruct (slot_walk_bounds _ _ _ _ Hb Ho E) as (?&?&?&?).
    destruct (IH (off + sv_total_size sv)) as [? ?]; [lia..|]. split; [by constructor|done].
Qed.

Lemma walk_fuel_enough off : 0 <= off -> peb_size g - off < 14 * Z.of_nat (walk_fuel g).
Proof. pose proof (ok_peb_size _ _ Hg). unfold walk_fuel. lia. Qed.

Lemma parsed_log buf : bytes_ok buf -> parsed buf (bucket_log buf) (log_end buf).
Proof.
  intros Hb. apply log_from_spec; [done|unfold_consts; lia|].
  apply walk_fuel_enough. unfold_consts; lia.
Qed.

Lemma parsed_det buf l e : bytes_ok buf -> parsed buf l e -> l = bucket_log buf /\ e = log_end buf.
Proof. intros Hb [? ?]. destruct (parsed_log buf Hb). by eapply log_rel_det. Qed.

Lemma log_end_bounds buf : bytes_ok buf -> BLOB_DB_BUCKET_DATA_OFF <= log_end buf <= peb_size g.
Proof.
  intros Hb. destruct (parsed_log buf Hb) as [Hl _]. pose proof (ok_peb_size _ _ Hg).
  pose proof (len_nonneg (bucket_log buf)).
  apply log_rel_bounds in Hl; unfold_consts; [lia|done|lia].
Qed.

(** The log up to [e] is read from the bytes below [e] only. *)
Lemma log_rel_agree buf buf' off l e :
  bytes_ok buf -> 0 <= off <= peb_size g -> log_rel buf off l e ->
  slice off (e - off) buf' = slice off (e - off) buf -> log_rel buf' off l e.
Proof.
  intros Hb Ho Hl. revert Ho. induction Hl as [off|off sv i l e Hw Hl IH]; intros Ho Hs; [constructor|].
  destruct (slot_walk_bounds _ off _ _ Hb ltac:(lia) Hw) as (?&?&?&?).
  pose proof (log_rel_bounds _ (off + sv_total_size sv) _ _ Hb ltac:(lia) Hl) as Hbd. pose proof (len_nonneg l).
  assert (forall k n, 0 <= k -> k + n <= e - off -> slice (off + k) n buf' = slice (off + k) n buf) as Hsub.
  { intros k n ??. rewrite <- !(slice_slice k n off (e - off)) by lia. by rewrite Hs. }
  assert (slice off (sv_total_size sv) buf' = slice off (sv_total_size sv) buf) as Hs1.
  { specialize (Hsub 0 (sv_total_size sv)). rewrite Z.add_0_r in Hsub. apply Hsub; lia. }
  rewrite <- Hs1. constructor.
  - eapply (slot_walk_move buf off); eauto; try lia. by apply rd2_nonneg.
  - apply IH; [lia|]. apply Hsub; lia.
Qed.

End parse.

(** ** The last slot with a property *)

Lemma last_such_app P l1 l2 :
  last_such P (l1 ++ l2) = match last_such P l2 with Some x => Some x | None => last_such P l1 end.
Proof. induction l1 as [|e l1 IH]; simpl; [by destruct (last_such P l2)|]. rewrite IH. by destruct (last_such P l2). Qed.

Lemma last_such_Some P l e :
  last_such P l = Some e <-> exists l1 l2, l = l1 ++ e :: l2 /\ P e = true /\ forall x, x ∈ l2 -> P x = false.
Proof.
  split.
  - induction l as [|x l IH]; simpl; [done|]. destruct (last_such P l) as [y|] eqn:E.
    + intros [= ->]. destruct IH as (l1 & l2 & -> & ? & ?); [done|]. exists (x :: l1), l2. done.
    + destruct (P x) eqn:Ex; [|done]. intros [= ->]. exists [], l. split_and!; [done..|].
      intros y Hy. destruct (P y) eqn:Ey; [|done]. exfalso. revert E Hy Ey. clear.
      induction l as [|z l IH]; intros E Hy Ey; [by apply elem_of_nil in Hy|]. simpl in E.
      destruct (last_such P l) eqn:E2; [done|]. destruct (P z) eqn:Ez; [done|].
      apply elem_of_cons in Hy as [->|Hy]; [congruence|auto].
  - intros (l1 & l2 & -> & He & Hl2). rewrite last_such_app. simpl.
    assert (last_such P l2 = None) as ->; [|by rewrite He].
    revert Hl2. clear. induction l2 as [|x l2 IH]; intros Hl; simpl; [done|].
    rewrite IH by (intros; apply Hl; by apply list_elem_of_further).
    by rewrite (Hl x) by apply list_elem_of_here.
Qed.

Lemma last_such_None P l : last_such P l = None <-> forall e, e ∈ l -> P e = false.
Proof.
  split.
  - intros E y Hy. revert E Hy. induction l as [|z l IH]; intros E Hy; [by apply elem_of_nil in Hy|].
    simpl in E. destruct (last_such P l) eqn:E2; [done|]. destruct (P z) eqn:Ez; [done|].
    apply elem_of_cons in Hy as [->|Hy]; [done|auto].
  - intros Hl. destruct (last_such P l) as [e|] eqn:E; [|done].
    apply last_such_Some in E as (l1 & l2 & -> & He & _). rewrite Hl in He; [done|].
    apply elem_of_app. right. apply list_elem_of_here.
Qed.

Lemma last_such_ext P Q l : (forall e, e ∈ l -> P e = Q e) -> last_such P l = last_such Q l.
Proof.
  induction l as [|x l IH]; intros Hl; simpl; [done|].
  rewrite IH by (intros; apply Hl; by apply list_elem_of_further). by rewrite Hl by apply list_elem_of_here.
Qed.

Lemma newest_Some id l e : newest id l = Some e -> e_intact e = true /\ e_id e = id /\ e ∈ l.
Proof.
  intros Hn. apply last_such_Some in Hn as (l1 & l2 & -> & He & _).
  apply andb_true_iff in He as [? ?%Z.eqb_eq]. split_and!; [done..|].
  apply elem_of_app. right. apply list_elem_of_here.
Qed.

Lemma newest_None id l : newest id l = None <-> forall e, e ∈ l -> e_intact e = true -> e_id e <> id.
Proof.
  unfold newest. rewrite last_such_None. split; intros Hl e He.
  - intros Hi Hid. specialize (Hl e He). rewrite Hi in Hl. simpl in Hl. lia.
  - destruct (e_intact e) eqn:E; simpl; [|done]. apply Z.eqb_neq. auto.
Qed.

Lemma newest_app id l1 l2 :
  newest id (l1 ++ l2) = match newest id l2 with Some x => Some x | None => newest id l1 end.
Proof. apply last_such_app. Qed.

(** ** Positions in a log, and the resident loops *)

Section positions.
Context (cfg : config) (g : geom) `{Crc} (Hg : geom_ok cfg g).

Lemma log_rel_split buf off l1 en l2 e :
  log_rel cfg g buf off (l1 ++ en :: l2) e ->
  log_rel cfg g buf off l1 (e_off en) /\
  slot_walk_at cfg g buf (e_off en) = Some (e_sv en, e_intact en) /\
  e_bytes en = slice (e_off en) (e_size en) buf /\
  log_rel cfg g buf (e_off en + e_size en) l2 e.
Proof.
  revert off. induction l1 as [|x l1 IH]; intros off Hl; simpl in *.
  - inversion Hl; subst. simpl. split_and!; [constructor|done..].
  - inversion Hl; subst. destruct (IH _ ltac:(eassumption)) as (?&?&?&?). split_and!; [|done..].
    by constructor.
Qed.

Lemma log_rel_elem buf off l e en :
  log_rel cfg g buf off l e -> en ∈ l ->
  slot_walk_at cfg g buf (e_off en) = Some (e_sv en, e_intact en) /\
  e_bytes en = slice (e_off en) (e_size en) buf.
Proof.
  intros Hl He. apply list_elem_of_split in He as (l1 & l2 & ->). apply log_rel_split in Hl as (?&?&?&?). done.
Qed.

Lemma log_rel_off_bounds buf off l e en :
  bytes_ok buf -> 0 <= off <= peb_size g -> log_rel cfg g buf off l e -> en ∈ l ->
  off <= e_off en /\ e_off en + e_size en <= e /\ 14 <= e_size en.
Proof.
  intros Hb Ho Hl He. apply list_elem_of_split in He as (l1 & l2 & ->).
  apply log_rel_split in Hl as (H1 & Hw & _ & H2).
  apply log_rel_bounds in H1; [|done..]. pose proof (len_nonneg l1). pose proof (len_nonneg l2).
  destruct (slot_walk_bounds cfg g Hg _ (e_off en) _ _ Hb ltac:(lia) Hw) as (?&?&_).
  unfold e_size in *. apply log_rel_bounds in H2; [lia|done..|lia].
Qed.

(** Every header a walk meets in a formatted bucket, that of a rotten slot
    included, names an id of the bucket. *)
Definition heads_by (im : Z -> bytes) : Prop := forall bid e,
  0 <= bid < n_buckets g -> bucket_hdr_valid (im bid) bid = true -> e ∈ bucket_log cfg g (im bid) -> 0 < e_id e < 2 ^ 64 /\ e_id e mod n_buckets g = bid.

Lemma heads_by_ext im im' : (forall b, 0 <= b < n_buckets g -> im' b = im b) -> heads_by im -> heads_by im'.
Proof. intros Hb Hh bid e Hbid. rewrite Hb by done. by apply Hh. Qed.

Lemma superseded_from_spec fuel buf off l e id :
  log_rel cfg g buf off l e -> slot_walk_at cfg g buf e = None -> (length l < fuel)%nat ->
  superseded_from cfg g fuel buf off id = match newest id l with Some _ => true | None => false end.
Proof.
  intros Hl He. revert fuel. induction Hl as [off|off sv i l e Hw Hl IH]; intros fuel Hf;
    (destruct fuel as [|fuel]; [simpl in Hf; lia|]); simpl.
  - by rewrite He.
  - rewrite Hw. rewrite IH by (simpl in *; auto with lia). unfold newest. simpl. unfold e_id. simpl.
    destruct (i && (sv_id sv =? id)); by destruct (last_such _ l).
Qed.
End positions.
