(* ===== verification/Core.v ===== *)
(** The mount state of blob_db.c and its streaming bucket access: reading slot
    headers off flash, finding the live slot of an id, and appending a slot.
    Mutating code is written in the state-and-error monad of Prelude.v over
    [db]; the compile-time variant is the one without
    CONFIG_BLOB_DB_LARGE_PAYLOADS and CONFIG_BLOB_DB_SLOT_INDEX_VERIFY. *)

From S2P Require Import Prelude Layout Store SlotIndexIface Image.

(** The mutable fields of [st]; the geometry it also holds is [geom]. *)
Record st_t := mk_st {
  mounted : bool;
  active_master : Z;
  rot_gen : Z;
  log_next : Z;
  log_failed : bool;
  ceiling_reset : bool;
  incompat : Z;
  ro_compat : Z;
  compat : Z;
  fuses : Z;
  next_id : Z;
  next_id_hint : Z;
  seg_owner : Z;
  wedged : bool;
  maint_start : Z;
  maint_scanned : Z;
}.

Definition set_mounted (v : bool) (x : st_t) : st_t :=
  mk_st v (active_master x) (rot_gen x) (log_next x) (log_failed x) (ceiling_reset x) (incompat x) (ro_compat x)
    (compat x) (fuses x) (next_id x) (next_id_hint x) (seg_owner x) (wedged x) (maint_start x) (maint_scanned x).
Definition set_active_master (v : Z) (x : st_t) : st_t :=
  mk_st (mounted x) v (rot_gen x) (log_next x) (log_failed x) (ceiling_reset x) (incompat x) (ro_compat x) (compat x)
    (fuses x) (next_id x) (next_id_hint x) (seg_owner x) (wedged x) (maint_start x) (maint_scanned x).
Definition set_rot_gen (v : Z) (x : st_t) : st_t :=
  mk_st (mounted x) (active_master x) v (log_next x) (log_failed x) (ceiling_reset x) (incompat x) (ro_compat x)
    (compat x) (fuses x) (next_id x) (next_id_hint x) (seg_owner x) (wedged x) (maint_start x) (maint_scanned x).
Definition set_log_next (v : Z) (x : st_t) : st_t :=
  mk_st (mounted x) (active_master x) (rot_gen x) v (log_failed x) (ceiling_reset x) (incompat x) (ro_compat x)
    (compat x) (fuses x) (next_id x) (next_id_hint x) (seg_owner x) (wedged x) (maint_start x) (maint_scanned x).
Definition set_log_failed (v : bool) (x : st_t) : st_t :=
  mk_st (mounted x) (active_master x) (rot_gen x) (log_next x) v (ceiling_reset x) (incompat x) (ro_compat x)
    (compat x) (fuses x) (next_id x) (next_id_hint x) (seg_owner x) (wedged x) (maint_start x) (maint_scanned x).
Definition set_ceiling_reset (v : bool) (x : st_t) : st_t :=
  mk_st (mounted x) (active_master x) (rot_gen x) (log_next x) (log_failed x) v (incompat x) (ro_compat x) (compat x)
    (fuses x) (next_id x) (next_id_hint x) (seg_owner x) (wedged x) (maint_start x) (maint_scanned x).
Definition set_incompat (v : Z) (x : st_t) : st_t :=
  mk_st (mounted x) (active_master x) (rot_gen x) (log_next x) (log_failed x) (ceiling_reset x) v (ro_compat x)
    (compat x) (fuses x) (next_id x) (next_id_hint x) (seg_owner x) (wedged x) (maint_start x) (maint_scanned x).
Definition set_ro_compat (v : Z) (x : st_t) : st_t :=
  mk_st (mounted x) (active_master x) (rot_gen x) (log_next x) (log_failed x) (ceiling_reset x) (incompat x) v
    (compat x) (fuses x) (next_id x) (next_id_hint x) (seg_owner x) (wedged x) (maint_start x) (maint_scanned x).
Definition set_compat (v : Z) (x : st_t) : st_t :=
  mk_st (mounted x) (active_master x) (rot_gen x) (log_next x) (log_failed x) (ceiling_reset x) (incompat x)
    (ro_compat x) v (fuses x) (next_id x) (next_id_hint x) (seg_owner x) (wedged x) (maint_start x) (maint_scanned x).
Definition set_fuses (v : Z) (x : st_t) : st_t :=
  mk_st (mounted x) (active_master x) (rot_gen x) (log_next x) (log_failed x) (ceiling_reset x) (incompat x)
    (ro_compat x) (compat x) v (next_id x) (next_id_hint x) (seg_owner x) (wedged x) (maint_start x) (maint_scanned x).
Definition set_next_id (v : Z) (x : st_t) : st_t :=
  mk_st (mounted x) (active_master x) (rot_gen x) (log_next x) (log_failed x) (ceiling_reset x) (incompat x)
    (ro_compat x) (compat x) (fuses x) v (next_id_hint x) (seg_owner x) (wedged x) (maint_start x) (maint_scanned x).
Definition set_next_id_hint (v : Z) (x : st_t) : st_t :=
  mk_st (mounted x) (active_master x) (rot_gen x) (log_next x) (log_failed x) (ceiling_reset x) (incompat x)
    (ro_compat x) (compat x) (fuses x) (next_id x) v (seg_owner x) (wedged x) (maint_start x) (maint_scanned x).
Definition set_seg_owner (v : Z) (x : st_t) : st_t :=
  mk_st (mounted x) (active_master x) (rot_gen x) (log_next x) (log_failed x) (ceiling_reset x) (incompat x)
    (ro_compat x) (compat x) (fuses x) (next_id x) (next_id_hint x) v (wedged x) (maint_start x) (maint_scanned x).
Definition set_wedged (v : bool) (x : st_t) : st_t :=
  mk_st (mounted x) (active_master x) (rot_gen x) (log_next x) (log_failed x) (ceiling_reset x) (incompat x)
    (ro_compat x) (compat x) (fuses x) (next_id x) (next_id_hint x) (seg_owner x) v (maint_start x) (maint_scanned x).
Definition set_maint_start (v : Z) (x : st_t) : st_t :=
  mk_st (mounted x) (active_master x) (rot_gen x) (log_next x) (log_failed x) (ceiling_reset x) (incompat x)
    (ro_compat x) (compat x) (fuses x) (next_id x) (next_id_hint x) (seg_owner x) (wedged x) v (maint_scanned x).
Definition set_maint_scanned (v : Z) (x : st_t) : st_t :=
  mk_st (mounted x) (active_master x) (rot_gen x) (log_next x) (log_failed x) (ceiling_reset x) (incompat x)
    (ro_compat x) (compat x) (fuses x) (next_id x) (next_id_hint x) (seg_owner x) (wedged x) (maint_start x) v.

(** blob_db's one instance: [st], the slot index, and the store below. *)
Record db (S I : Type) := mk_db {
  d_st : st_t;
  d_geo : geom;
  d_ix : I;
  d_store : S;
}.
Arguments mk_db {S I} _ _ _ _.
Arguments d_st {S I} _.
Arguments d_geo {S I} _.
Arguments d_ix {S I} _.
Arguments d_store {S I} _.

(** [struct bucket_scan]: [target] is meaningful where [target_off >= 0]. *)
Record bucket_scan := mk_scan {
  write_cursor : Z;
  target_off : Z;
  target : slot_head;
  from_index : bool;
  tail_torn : bool;
  foreign : bool;
}.

Definition no_head : slot_head := mk_slot_head (mk_slot_hdr 0 0 0) 0.

Section core.
Context (cfg : config) (g : geom) `{Crc}.
Context {S I : Type} `{!Store S} `{!SlotIndex I}.
Notation db := (db S I).

(** Actions on the parts of [db]. *)
Definition io {A} (m : M S A) : M db A := fun d =>
  let (r, s) := m (d_store d) in (r, mk_db (d_st d) (d_geo d) (d_ix d) s).
Definition ix (f : I -> I) : M db unit := mmod (fun d => mk_db (d_st d) (d_geo d) (f (d_ix d)) (d_store d)).
Definition ix_get {A} (f : I -> A) : M db A := mgets (fun d => f (d_ix d)).
Definition st_get {A} (f : st_t -> A) : M db A := mgets (fun d => f (d_st d)).
Definition st_mod (f : st_t -> st_t) : M db unit := mmod (fun d => mk_db (f (d_st d)) (d_geo d) (d_ix d) (d_store d)).

Definition read_bucket (bid : Z) : M db bytes := io (blob_db_store_read (bucket_offset g bid) (peb_size g)).

Definition format_bucket (bid : Z) : M db unit :=
  let b0 := mk_bucket_hdr BUCKET_MAGIC bid 0 1 0 in
  let bhdr := mk_bucket_hdr BUCKET_MAGIC bid 0 1 (hdr_crc32 (enc_bucket_hdr b0)) in
  let* rc := mtry (io (blob_db_store_replace (bucket_offset g bid) (enc_bucket_hdr bhdr))) in
  match rc with
  | Err e => ix (blob_db_sidx_forget bid);;; mfail e
  | Ok _ => ix (blob_db_sidx_begin bid BLOB_DB_BUCKET_DATA_OFF)
  end.

Definition read_bucket_hdr (bid : Z) : M db bool :=
  let* known := ix_get (blob_db_sidx_cursor bid) in
  match known with
  | Some _ => mret true
  | None =>
      let* bhdr := io (blob_db_store_read (bucket_offset g bid) 16) in
      mret (bucket_hdr_valid bhdr bid)
  end.

(** The streamed CRC of a slot the walk stopped at, 64 bytes at a time. *)
Fixpoint crc_chunks (fuel : nat) (at_ left c : Z) : M db (Z * Z) :=
  match fuel with
  | O => mret (at_, c)
  | Datatypes.S fuel =>
      if left >? 0 then
        let n := Z.min left 64 in
        let* chunk := io (blob_db_store_read at_ n) in
        crc_chunks fuel (at_ + n) (left - n) (crc16_ccitt c chunk)
      else mret (at_, c)
  end.

Definition slot_crc_ok_on_flash (bid off : Z) (sh : slot_head) : M db bool :=
  let at_ := bucket_offset g bid + off + 12 in
  let left := sh_val_len (head_hdr sh) in
  let c := crc16_ccitt 65535 (enc_slot_hdr (head_hdr sh)) in
  let c := crc16_ccitt c (le 8 (head_id sh)) in
  let* ac := crc_chunks (Z.to_nat left) at_ left c in
  let* stored := io (blob_db_store_read (fst ac) 2) in
  mret (snd ac =? le_dec stored).

(** [scan_bucket_for()]: [toff]/[tgt] is the target found so far. *)
Fixpoint scan_loop (fuel : nat) (bid target_id limit cursor toff : Z) (tgt : slot_head) : M db bucket_scan :=
  match fuel with
  | O => mret (mk_scan cursor toff tgt false false false)
  | Datatypes.S fuel =>
      if cursor + BLOB_DB_SLOT_OVERHEAD >? peb_size g then
        mret (mk_scan cursor toff tgt false false false)
      else
        let* b := io (blob_db_store_read (bucket_offset g bid + cursor) 12) in
        let sh := dec_slot_head b in
        let hdr := head_hdr sh in
        if (sh_flags hdr =? 255) || negb (flag_set (sh_flags hdr) BLOB_DB_SLOT_F_SEALED) ||
           flags_unknown cfg (sh_flags hdr) || (sh_val_len hdr >? MAX_PAYLOAD_LEN cfg)
        then
          let* ok := if slot_foreign_head cfg g hdr cursor then slot_crc_ok_on_flash bid cursor sh
                     else mret false in
          mret (mk_scan cursor toff tgt false (negb ok && negb (sh_flags hdr =? 255)) ok)
        else
          let ssz := slot_size_for g (sh_val_len hdr) in
          if cursor + ssz >? peb_size g then mret (mk_scan cursor toff tgt false true false)
          else if (head_id sh =? target_id) && (cursor <? limit)
          then scan_loop fuel bid target_id limit (cursor + ssz) cursor sh
          else scan_loop fuel bid target_id limit (cursor + ssz) toff tgt
  end.

Definition scan_bucket_for (bid target_id limit : Z) : M db bucket_scan :=
  scan_loop (walk_fuel g) bid target_id limit BLOB_DB_BUCKET_DATA_OFF (-1) no_head.

(** [slot_verify()]: the payload staged in [dst], or -EBADMSG. *)
Definition slot_verify (bid : Z) (sc : bucket_scan) : M db bytes :=
  let poff := bucket_offset g bid + target_off sc + 12 in
  let val_len := sh_val_len (head_hdr (target sc)) in
  let* dst := if val_len >? 0 then io (blob_db_store_read poff val_len) else mret [] in
  let* stored := io (blob_db_store_read (poff + val_len) 2) in
  if slot_crc16 (head_hdr (target sc)) (head_id (target sc)) dst val_len =? le_dec stored
  then mret dst else mfail EBADMSG.

(** The lookups return the scan together with their return code, which is -ENOENT
    for no live slot and -ENOTSUP for a bucket ending in a foreign slot; an I/O
    error is an error of the action itself. *)
Fixpoint walk_live_loop (fuel : nat) (bid id limit : Z) (learn : bool) : M db (bucket_scan * res bytes) :=
  match fuel with
  | O => mfail EIO
  | Datatypes.S fuel =>
      let* sc := scan_bucket_for bid id limit in
      if foreign sc then mret (sc, Err ENOTSUP)
      else if target_off sc <? 0 then
        (if learn && (limit =? peb_size g) then ix (blob_db_sidx_learn bid id (-1) (write_cursor sc)) else mret tt);;;
        mret (sc, Err ENOENT)
      else
        let* rc := mtry (slot_verify bid sc) in
        match rc with
        | Err EBADMSG => walk_live_loop fuel bid id (target_off sc) learn
        | Err e => mfail e
        | Ok dst =>
            if flag_set (sh_flags (head_hdr (target sc))) BLOB_DB_SLOT_F_TOMBSTONE then mret (sc, Err ENOENT)
            else
              (if learn && (limit =? peb_size g)
               then ix (blob_db_sidx_learn bid id (target_off sc) (write_cursor sc)) else mret tt);;;
              mret (sc, Ok dst)
        end
  end.

Definition walk_live_slot (bid id : Z) (learn : bool) : M db (bucket_scan * res bytes) :=
  walk_live_loop (walk_fuel g) bid id (peb_size g) learn.

Definition find_indexed_slot (bid id : Z) : M db (bucket_scan * res bytes) :=
  let none := (mk_scan 0 (-1) no_head false false false, Err EAGAIN) in
  let stale := ix (blob_db_sidx_forget bid);;; mret none in
  let* hit := ix_get (blob_db_sidx_lookup bid id) in
  match hit with
  | None => mret none
  | Some (off, cursor) =>
      if off + BLOB_DB_SLOT_OVERHEAD >? cursor then stale
      else
        let* b := io (blob_db_store_read (bucket_offset g bid + off) 12) in
        let sh := dec_slot_head b in
        let hdr := head_hdr sh in
        if negb (head_id sh =? id) || (sh_flags hdr =? 255) ||
           negb (flag_set (sh_flags hdr) BLOB_DB_SLOT_F_SEALED) || flags_unknown cfg (sh_flags hdr) ||
           (sh_val_len hdr >? MAX_PAYLOAD_LEN cfg) || (off + slot_size_for g (sh_val_len hdr) >? cursor)
        then stale
        else
          let sc := mk_scan cursor off sh true false false in
          let* rc := mtry (slot_verify bid sc) in
          match rc with
          | Err EBADMSG => mret (sc, Err EAGAIN)
          | Err e => mfail e
          | Ok dst =>
              mret (sc, if flag_set (sh_flags hdr) BLOB_DB_SLOT_F_TOMBSTONE then Err ENOENT else Ok dst)
          end
  end.

Definition find_live_slot (bid id : Z) : M db (bucket_scan * res bytes) :=
  let* r := find_indexed_slot bid id in
  match snd r with
  | Err EAGAIN => walk_live_slot bid id true
  | _ => mret r
  end.

Definition bucket_cursor (bid id : Z) : M db bucket_scan :=
  let* known := ix_get (blob_db_sidx_cursor bid) in
  match known with
  | Some cursor => mret (mk_scan cursor (-1) no_head true false false)
  | None =>
      let* sc := scan_bucket_for bid id (peb_size g) in
      (if foreign sc then mret tt else ix (blob_db_sidx_learn bid id (-1) (write_cursor sc)));;;
      mret sc
  end.

(** [cursor_past_torn_tail()] and [confirm_cursor()]: the cursor a writer may
    append at, [peb_size] standing for a full bucket. *)
Definition cursor_past_torn_tail (bid : Z) : M db Z :=
  ix (blob_db_sidx_forget bid);;; mret (peb_size g).

Definition confirm_cursor (bid id : Z) (sc : bucket_scan) : M db Z :=
  if negb (from_index sc) then
    if foreign sc then mfail ENOTSUP
    else if tail_torn sc then cursor_past_torn_tail bid
    else mret (write_cursor sc)
  else
    let at_ := write_cursor sc in
    if at_ + 12 <=? peb_size g then
      let* head := io (blob_db_store_read (bucket_offset g bid + at_) 12) in
      if all_erased head then mret at_
      else
        ix (blob_db_sidx_forget bid);;;
        let* walk := scan_bucket_for bid id (peb_size g) in
        if foreign walk then mfail ENOTSUP
        else if tail_torn walk then cursor_past_torn_tail bid
        else mret (write_cursor walk)
    else mret at_.

(** The bytes [append_slot2()] stages in [g_slot_buf]. *)
Definition slot_image (id extra_flags : Z) (payload : bytes) : bytes :=
  let val_len := len payload in
  let shdr := mk_slot_hdr (Z.lor BLOB_DB_SLOT_F_SEALED extra_flags) 0 val_len in
  let crc := slot_crc16 shdr id payload val_len in
  let total := slot_size_for g val_len in
  let base := BLOB_DB_SLOT_OVERHEAD + val_len in
  enc_slot_hdr shdr ++ le 8 id ++ payload ++ le 2 crc ++ erased (total - base).

Definition append_slot2 (bid wc id extra_flags : Z) (hdr payload : bytes) : M db unit :=
  let body := hdr ++ payload in
  if len body >? MAX_PAYLOAD_LEN cfg then mfail EINVAL
  else if write_align g >? BLOB_DB_MAX_WRITE_ALIGN then mfail ENOTSUP
  else
    let buf := slot_image id extra_flags body in
    let* rc := mtry (io (blob_db_store_write (bucket_offset g bid + wc) buf)) in
    match rc with
    | Err e => ix (blob_db_sidx_forget bid);;; mfail e
    | Ok _ =>
        ix (blob_db_sidx_note bid id wc (slot_size_for g (len body))
              (flag_set extra_flags BLOB_DB_SLOT_F_TOMBSTONE))
    end.

Definition append_slot (bid wc id extra_flags : Z) (payload : bytes) : M db unit :=
  append_slot2 bid wc id extra_flags [] payload.
End core.
