(* ===== verification/CoreRead.v ===== *)
(** What the streaming reads of Core.v find: they agree with the reference
    reading of the bucket image (Image.v), for every backend that keeps the
    contract of Store.v. At the end, reads and writes of one block. *)

From S2P Require Import Prelude Layout Store SlotIndexIface Image Core.

(** The store geometry a mounted [st] was derived from. *)
Definition store_geom_of (g : geom) : blob_db_store_geom :=
  mk_store_geom (peb_size g) (write_align g) (n_pebs g) (preformat g).

(** ** The end of a log *)
Section ends.
Context (cfg : config) (g : geom) `{Crc}.

(** A programmed header at the end of the log that is no foreign slot. *)
Definition torn_at (buf : bytes) (e : Z) : bool :=
  negb (e + BLOB_DB_SLOT_OVERHEAD >? peb_size g) && negb (slot_foreign_at cfg g buf e) && negb (rd 1 e buf =? 255).

(** The head of the slot at [off] as it is read from flash. *)
Definition head_at (buf : bytes) (off : Z) : slot_head :=
  mk_slot_head (mk_slot_hdr (rd 1 off buf) (rd 1 (off + 1) buf) (rd 2 (off + 2) buf)) (rd 8 (off + 4) buf).

Lemma dec_slot_head_at buf off : 0 <= off -> dec_slot_head (slice off 12 buf) = head_at buf off.
Proof.
  intros. unfold dec_slot_head, head_at, dec_slot_hdr. rewrite !rd_slice by lia. by rewrite Z.add_0_r.
Qed.

(** What [scan_bucket_for()] takes as its target. *)
Definition newest_head (id limit : Z) : list entry -> option entry :=
  last_such (fun e => (e_id e =? id) && (e_off e <? limit)).

Definition scan_matches (buf : bytes) (l : list entry) (e id limit : Z) (sc : bucket_scan) : Prop :=
  write_cursor sc = e /\ from_index sc = false /\ foreign sc = slot_foreign_at cfg g buf e /\
  tail_torn sc = torn_at buf e /\
  match newest_head id limit l with
  | Some en => target_off sc = e_off en /\ target sc = head_at buf (e_off en)
  | None => target_off sc = -1
  end.
End ends.

Section read.
Context (cfg : config) (g : geom) `{Crc}.
Context {S I : Type} `{!Store S} `{!StoreView S} `{!SlotIndex I}.
Context (Hg : geom_ok cfg g) {SL : StoreLaws S (store_geom_of g)} {CL : CrcLaws _}.
Notation db := (db S I).
Implicit Types d : db.

Definition bimg d (bid : Z) : bytes := img (d_store d) (BLOB_DB_FIRST_BUCKET + bid).

(** Reads change nothing a later call can see. *)
Record ro d d' : Prop := {
  ro_st : d_st d' = d_st d;
  ro_geo : d_geo d' = d_geo d;
  ro_ix : d_ix d' = d_ix d;
  ro_flash : same_flash (d_store d) (d_store d');
  ro_healthy : healthy (d_store d) -> healthy (d_store d');
}.

#[export] Instance ro_preorder : PreOrder ro.
Proof.
  split.
  - intros d. split; done.
  - intros d1 d2 d3 [?? ? F ?] [?? ? F' ?]. split; [congruence..| |auto]. intros p. by rewrite F', F.
Qed.

Lemma ro_bimg d d' bid : ro d d' -> bimg d' bid = bimg d bid.
Proof. intros Hr. apply (ro_flash _ _ Hr). Qed.

Lemma bimg_ok d bid : 0 <= bid < n_buckets g -> img_ok g (bimg d bid).
Proof.
  intros Hb. pose proof (ok_pebs _ _ Hg). unfold bimg. split.
  - apply (img_len (StoreLaws := SL)). simpl. unfold_consts. lia.
  - apply (img_bytes (StoreLaws := SL)).
Qed.

(** [reads_ok d m Q]: [m] only reads; on a device that works it returns, and
    what it returns satisfies [Q]; its errors are the device's. *)
Definition reads_ok {A} d (m : M db A) (Q : A -> Prop) : Prop :=
  wp m d (fun r d' => ro d d' /\
    match r with
    | Ok a => Q a
    | Err e => ~ healthy (d_store d) /\ device_err e
    end).

Lemma reads_ok_bnd {A B} d (m : M db A) (k : A -> M db B) (Q : A -> Prop) (R : B -> Prop) :
  reads_ok d m Q -> (forall a d', ro d d' -> Q a -> reads_ok d' (k a) R) -> reads_ok d (mbnd m k) R.
Proof.
  intros Hm Hk. apply wp_bnd. eapply wp_mono; [exact Hm|]. intros [a|e] d' [Hr Hq]; simpl.
  - eapply wp_mono; [apply (Hk a d' Hr Hq)|]. intros [b|e] d'' [Hr' Hq'].
    + split; [by etrans|done].
    + destruct Hq' as [Hh He]. split; [by etrans|]. split; [|done]. intros Hd. apply Hh, (ro_healthy _ _ Hr), Hd.
  - done.
Qed.

Lemma reads_ok_ret {A} d (a : A) (Q : A -> Prop) : Q a -> reads_ok d (mret a) Q.
Proof. intros Hq. apply wp_ret. split; [reflexivity|done]. Qed.

Lemma reads_ok_mono {A} d (m : M db A) (Q R : A -> Prop) :
  reads_ok d m Q -> (forall a, Q a -> R a) -> reads_ok d m R.
Proof. intros Hm HQ. eapply wp_mono; [exact Hm|]. intros [a|e] d' [? ?]; split; auto. Qed.

Lemma read_bucket_bytes d bid w n :
  0 <= bid < n_buckets g -> 0 <= w -> 0 < n -> w + n <= peb_size g ->
  reads_ok d (io (blob_db_store_read (bucket_offset g bid + w) n)) (fun b => b = slice w n (bimg d bid)).
Proof.
  intros Hbid Hw Hn Hf. pose proof (ok_pebs _ _ Hg) as [Hp _]. unfold_consts.
  pose proof (read_law (StoreLaws := SL) (d_store d) (3 + bid) w n ltac:(simpl; lia) Hw Hn Hf) as Hl.
  unfold reads_ok, wp, io in *. unfold bucket_offset, peb_offset, BLOB_DB_FIRST_BUCKET. simpl in Hl.
  destruct (blob_db_store_read _ n (d_store d)) as [r s']. destruct Hl as (Hh & Hs & Hr).
  split; [split; try done; simpl; tauto|]. destruct r as [b|e]; [done|]. split; [|done].
  intros Hd. by destruct (Hh Hd).
Qed.

(** The streamed checksum equals the resident one. *)
Lemma crc_chunks_spec fuel d bid w left c :
  0 <= bid < n_buckets g -> 0 <= w -> 0 <= left -> w + left <= peb_size g -> left <= Z.of_nat fuel ->
  reads_ok d (crc_chunks fuel (bucket_offset g bid + w) left c)
    (fun r => fst r = bucket_offset g bid + (w + left) /\
              snd r = if 0 <? left then crc16_ccitt c (slice w left (bimg d bid)) else c).
Proof.
  intros Hbid. revert d w left c. induction fuel as [|fuel IH]; intros d w left c Hw Hl Hf Hfu; simpl.
  - apply reads_ok_ret. simpl. destruct (Z.ltb_spec 0 left); split; try lia; done.
  - destruct (left >? 0) eqn:E.
    + eapply reads_ok_bnd; [apply read_bucket_bytes; lia|]. intros b d' Hr ->.
      rewrite <- (ro_bimg _ _ _ Hr). replace (bucket_offset g bid + w + Z.min left 64) with
        (bucket_offset g bid + (w + Z.min left 64)) by lia.
      eapply reads_ok_mono; [apply IH; lia|]. intros [a x]. simpl. intros [-> ->]. split; [lia|].
      destruct (Z.ltb_spec 0 left); [|lia]. destruct (Z.ltb_spec 0 (left - Z.min left 64)).
      * rewrite crc16_app, <- slice_split by lia. do 2 f_equal. lia.
      * replace (Z.min left 64) with left by lia. done.
    + apply reads_ok_ret. simpl. destruct (Z.ltb_spec 0 left); split; try lia; done.
Qed.

Lemma slot_crc_ok_on_flash_spec d bid off :
  0 <= bid < n_buckets g -> 0 <= off ->
  let buf := bimg d bid in let vl := rd 2 (off + 2) buf in
  0 <= vl -> off + 14 + vl <= peb_size g ->
  reads_ok d (slot_crc_ok_on_flash g bid off (head_at buf off)) (fun ok => ok = crc_ok_at buf off).
Proof.
  intros Hbid Ho buf vl Hvl Hfit. unfold slot_crc_ok_on_flash.
  rewrite <- Z.add_assoc. eapply reads_ok_bnd; [apply crc_chunks_spec; simpl; fold vl; lia|].
  intros [at_ c] d' Hr [Ha Hc]. simpl in *. fold vl in Ha, Hc. subst at_ c.
  eapply reads_ok_bnd; [apply read_bucket_bytes; lia|]. intros b d'' Hr' ->. apply reads_ok_ret.
  unfold crc_ok_at, slot_crc16. fold buf vl. rewrite (ro_bimg _ _ _ Hr). unfold rd at 6. fold vl. done.
Qed.

(** ** The streaming walk *)

Lemma slot_foreign_at_eq buf off :
  0 <= off ->
  slot_foreign_at cfg g buf off =
    negb (off + 14 >? peb_size g) &&
    slot_foreign_head cfg g (mk_slot_hdr (rd 1 off buf) (rd 1 (off + 1) buf) (rd 2 (off + 2) buf)) off &&
    crc_ok_at buf off.
Proof.
  intros Ho. unfold slot_foreign_at. rewrite dec_slot_hdr_at by done. unfold BLOB_DB_SLOT_OVERHEAD.
  destruct (off + 14 >? peb_size g); simpl; [done|]. by destruct (slot_foreign_head _ _ _ _).
Qed.

Lemma scan_stop d bid buf fuel tid limit off toff tgt :
  0 <= bid < n_buckets g -> 0 <= off <= peb_size g -> buf = bimg d bid ->
  slot_walk_at cfg g buf off = None ->
  reads_ok d (scan_loop cfg g (Datatypes.S fuel) bid tid limit off toff tgt) (fun sc =>
    sc = mk_scan off toff tgt false (torn_at cfg g buf off) (slot_foreign_at cfg g buf off)).
Proof.
  intros Hbid Ho -> Hw. destruct (bimg_ok d bid Hbid) as [Hlen Hbytes]. set (buf := bimg d bid) in *.
  pose proof (rd2_nonneg buf (off + 2) Hbytes) as Hvl.
  unfold torn_at. rewrite slot_foreign_at_eq by lia. rewrite slot_walk_at_eq in Hw by lia. cbn [scan_loop].
  unfold BLOB_DB_SLOT_OVERHEAD. destruct (off + 14 >? peb_size g) eqn:E14; cbn [negb andb]; [by apply reads_ok_ret|].
  eapply reads_ok_bnd; [apply read_bucket_bytes; lia|]. intros b d' Hr ->.
  fold buf. rewrite dec_slot_head_at by lia. cbn [head_hdr sh_flags sh_val_len head_at].
  set (hdr := mk_slot_hdr (rd 1 off buf) (rd 1 (off + 1) buf) (rd 2 (off + 2) buf)) in *.
  unfold head_ok in Hw. rewrite E14 in Hw. simpl in Hw.
  destruct (_ || _ || _ || _) eqn:Ec.
  - eapply (reads_ok_bnd _ _ _ (fun ok => ok = slot_foreign_head cfg g hdr off && crc_ok_at buf off)).
    + destruct (slot_foreign_head cfg g hdr off) eqn:Ef; [|by apply reads_ok_ret].
      unfold slot_foreign_head in Ef. rewrite !andb_true_iff in Ef. destruct_and!. simpl in *.
      destruct (slot_size_spec cfg g Hg (rd 2 (off + 2) buf)) as (_ & ? & _).
      assert (bimg d' bid = buf) as Hb' by apply (ro_bimg _ _ _ Hr). rewrite <- Hb'.
      eapply reads_ok_mono; [apply slot_crc_ok_on_flash_spec; rewrite ?Hb'; lia|]. intros ok ->. by rewrite Hb'.
    + intros ok d'' _ ->. by apply reads_ok_ret.
  - rewrite !orb_false_iff, !negb_false_iff in Ec. destruct Ec as [[[E1 E2] E3] E4].
    rewrite E1, E2, E3, E4 in Hw. simpl in Hw. unfold slot_foreign_head. simpl. rewrite E1, E2, E3. simpl.
    destruct (off + slot_size_for g (rd 2 (off + 2) buf) >? peb_size g) eqn:E5; [|done]. by apply reads_ok_ret.
Qed.

Lemma scan_loop_spec d bid buf fuel tid limit off toff tgt l e :
  0 <= bid < n_buckets g -> 0 <= off <= peb_size g -> buf = bimg d bid ->
  log_rel cfg g buf off l e -> slot_walk_at cfg g buf e = None -> (length l < fuel)%nat ->
  reads_ok d (scan_loop cfg g fuel bid tid limit off toff tgt) (fun sc =>
    sc = mk_scan e
           (match newest_head tid limit l with Some en => e_off en | None => toff end)
           (match newest_head tid limit l with Some en => head_at buf (e_off en) | None => tgt end)
           false (torn_at cfg g buf e) (slot_foreign_at cfg g buf e)).
Proof.
  intros Hbid Ho Hbuf Hl He. revert d fuel toff tgt Ho Hbuf.
  induction Hl as [off|off sv i l e Hw Hl IH]; intros d fuel toff tgt Ho Hbuf Hf;
    (destruct fuel as [|fuel]; [simpl in Hf; lia|]).
  - by apply scan_stop.
  - subst buf. destruct (bimg_ok d bid Hbid) as [Hlen Hbytes]. set (buf := bimg d bid) in *.
    rewrite slot_walk_at_eq in Hw by lia. destruct (head_ok cfg g off _ _) eqn:Hh; [|done].
    injection Hw as <- <-. simpl sv_total_size in *. cbn [scan_loop]. pose proof (head_ok_spec _ _ _ _ _ Hh) as (?&?&?&?).
    unfold head_ok in Hh. rewrite !andb_true_iff, !negb_true_iff in Hh. destruct Hh as [[[[[E1 E2] E3] E4] E5] E6].
    unfold BLOB_DB_SLOT_OVERHEAD. rewrite E1.
    eapply reads_ok_bnd; [apply read_bucket_bytes; lia|]. intros b d' Hr ->. fold buf.
    rewrite dec_slot_head_at by lia. cbn [head_hdr sh_flags sh_val_len head_id head_at]. rewrite E2, E3, E4, E5, E6. simpl.
    assert (buf = bimg d' bid) as Hb' by (symmetry; apply (ro_bimg _ _ _ Hr)).
    pose proof (slot_size_pos cfg g Hg (rd 2 (off + 2) buf)).
    pose proof (rd2_nonneg buf (off + 2) Hbytes).
    assert (forall to tg, reads_ok d' (scan_loop cfg g fuel bid tid limit
      (off + slot_size_for g (rd 2 (off + 2) buf)) to tg) (fun sc =>
        sc = mk_scan e (match newest_head tid limit l with Some en => e_off en | None => to end)
           (match newest_head tid limit l with Some en => head_at buf (e_off en) | None => tg end)
           false (torn_at cfg g buf e) (slot_foreign_at cfg g buf e))) as Hrec.
    { intros. simpl in Hf. apply IH; [done|lia|done|lia]. }
    assert (forall en, newest_head tid limit (en :: l) = match newest_head tid limit l with Some x => Some x
      | None => if (e_id en =? tid) && (e_off en <? limit) then Some en else None end) as -> by done.
    unfold e_id. simpl.
    destruct ((rd 8 (off + 4) buf =? tid) && (off <? limit)) eqn:Et;
      (eapply reads_ok_mono; [apply Hrec|]; intros sc ->; by destruct (newest_head tid limit l)).
Qed.

Lemma scan_bucket_for_spec d bid tid limit :
  0 <= bid < n_buckets g ->
  let buf := bimg d bid in
  reads_ok d (scan_bucket_for cfg g bid tid limit)
    (scan_matches cfg g buf (bucket_log cfg g buf) (log_end cfg g buf) tid limit).
Proof.
  intros Hbid buf. destruct (bimg_ok d bid Hbid) as [Hlen Hbytes]. fold buf in Hlen, Hbytes.
  destruct (parsed_log cfg g Hg buf Hbytes) as [Hl He]. pose proof (ok_peb_size _ _ Hg).
  pose proof (log_rel_bounds cfg g Hg buf BLOB_DB_BUCKET_DATA_OFF _ _ Hbytes ltac:(unfold_consts; lia) Hl) as Hbd.
  eapply reads_ok_mono.
  - eapply (scan_loop_spec d bid buf); [done|unfold_consts; lia|done|exact Hl|exact He|].
    unfold walk_fuel, len in *. unfold_consts. lia.
  - intros sc ->. unfold scan_matches. simpl. split_and!; try done. by destruct (newest_head _ _ _).
Qed.

(** ** Verifying one slot *)

Lemma log_elem_head d bid en :
  0 <= bid < n_buckets g -> en ∈ bucket_log cfg g (bimg d bid) ->
  let buf := bimg d bid in let off := e_off en in
  16 <= off /\ off + e_size en <= peb_size g /\ 14 + rd 2 (off + 2) buf <= e_size en /\
  0 <= rd 2 (off + 2) buf /\ e_id en = rd 8 (off + 4) buf /\ sv_flags (e_sv en) = rd 1 off buf /\
  sv_val_len (e_sv en) = rd 2 (off + 2) buf /\ e_intact en = crc_ok_at buf off /\
  e_payload en = slice (off + 12) (rd 2 (off + 2) buf) buf.
Proof.
  intros Hbid Hin buf off. destruct (bimg_ok d bid Hbid) as [Hlen Hbytes]. fold buf in Hlen, Hbytes, Hin.
  destruct (parsed_log cfg g Hg buf Hbytes) as [Hl He]. pose proof (ok_peb_size _ _ Hg).
  destruct (log_rel_off_bounds cfg g Hg buf BLOB_DB_BUCKET_DATA_OFF _ _ en Hbytes ltac:(unfold_consts; lia) Hl Hin) as (?&?&?).
  pose proof (log_end_bounds cfg g Hg buf Hbytes). unfold_consts.
  destruct (log_rel_elem cfg g buf _ _ _ en Hl Hin) as [Hw Hb]. fold off in Hw, Hb.
  rewrite slot_walk_at_eq in Hw by (unfold off; lia). destruct (head_ok _ _ _ _ _); [|done].
  injection Hw as Hsv Hi. destruct (slot_size_spec cfg g Hg (rd 2 (off + 2) buf)) as (_ & Hsz & _).
  pose proof (rd2_nonneg buf (off + 2) Hbytes). unfold e_payload, e_id, e_size in *. rewrite <- Hsv in *. simpl in *.
  assert (off = e_off en) as Hoff by done. clearbody off.
  split_and!; try done; try lia. rewrite Hb. rewrite slice_slice by lia. done.
Qed.

Lemma slot_verify_spec d bid en sc :
  0 <= bid < n_buckets g -> en ∈ bucket_log cfg g (bimg d bid) ->
  target_off sc = e_off en -> target sc = head_at (bimg d bid) (e_off en) ->
  wp (slot_verify g bid sc) d (fun r d' => ro d d' /\
    match r with
    | Ok dst => e_intact en = true /\ dst = e_payload en
    | Err e => (e = EBADMSG /\ e_intact en = false) \/ (~ healthy (d_store d) /\ device_err e)
    end).
Proof.
  intros Hbid Hin Hto Ht. destruct (log_elem_head d bid en Hbid Hin) as (H1&H2&H3&H4&_&_&_&H8&H9).
  set (buf := bimg d bid) in *. set (off := e_off en) in *. set (vl := rd 2 (off + 2) buf) in *.
  unfold slot_verify. rewrite Hto, Ht. cbn [head_hdr sh_val_len head_id head_at]. fold vl.
  replace (bucket_offset g bid + off + 12) with (bucket_offset g bid + (off + 12)) by lia.
  apply wp_bnd. eapply wp_mono.
  { assert (reads_ok d (if vl >? 0 then io (blob_db_store_read (bucket_offset g bid + (off + 12)) vl) else mret [])
      (fun dst => dst = slice (off + 12) vl buf)) as Hx; [|exact Hx].
    destruct (vl >? 0) eqn:E; [apply read_bucket_bytes; lia|]. apply reads_ok_ret.
    replace vl with 0 by lia. done. }
  intros [dst|e] d' [Hr Hq]; [|split; [done|by right]]. subst dst.
  rewrite <- Z.add_assoc. apply wp_bnd. eapply wp_mono; [apply (read_bucket_bytes d' bid); lia|].
  intros [st|e] d'' [Hr' Hq].
  - subst st. rewrite (ro_bimg _ _ _ Hr). fold buf.
    assert (crc_ok_at buf off = (slot_crc16 (mk_slot_hdr (rd 1 off buf) (rd 1 (off + 1) buf) vl) (rd 8 (off + 4) buf)
      (slice (off + 12) vl buf) vl =? le_dec (slice (off + 12 + vl) 2 buf))) as Hc by done.
    rewrite <- Hc. destruct (crc_ok_at buf off) eqn:E.
    + apply wp_ret. split; [by etrans|]. split; congruence.
    + apply wp_fail. split; [by etrans|]. left. split; congruence.
  - split; [by etrans|]. right. destruct Hq as [Hh ?]. split; [|done]. intros Hd. apply Hh, (ro_healthy _ _ Hr), Hd.
Qed.

(** ** The slot index's knowledge of flash *)

Context (sidx_wf : Z -> I -> Prop) {IL : SlotIndexLaws I sidx_wf}.

Record coherent d : Prop := {
  coh_wf : sidx_wf (n_buckets g) (d_ix d);
  coh_cursor : forall bid c, 0 <= bid < n_buckets g -> blob_db_sidx_cursor bid (d_ix d) = Some c ->
    bucket_hdr_valid (bimg d bid) bid = true /\ c = log_end cfg g (bimg d bid) /\
    slot_foreign_at cfg g (bimg d bid) c = false;
  coh_lookup : forall id o c, 0 < id < 2 ^ 64 -> blob_db_sidx_lookup (id mod n_buckets g) id (d_ix d) = Some (o, c) ->
    exists en, newest_head id (peb_size g) (bucket_log cfg g (bimg d (id mod n_buckets g))) = Some en /\ e_off en = o;
}.

(** Reads that may also teach the index. *)
Record roi d d' : Prop := {
  roi_st : d_st d' = d_st d;
  roi_geo : d_geo d' = d_geo d;
  roi_flash : same_flash (d_store d) (d_store d');
  roi_healthy : healthy (d_store d) -> healthy (d_store d');
}.

#[export] Instance roi_preorder : PreOrder roi.
Proof.
  split.
  - intros d. split; done.
  - intros d1 d2 d3 [? ? F ?] [? ? F' ?]. split; [congruence..| |auto]. intros p. by rewrite F', F.
Qed.

Lemma ro_roi d d' : ro d d' -> roi d d'.
Proof. intros []. by split. Qed.

Lemma roi_bimg d d' bid : roi d d' -> bimg d' bid = bimg d bid.
Proof. intros Hr. apply (roi_flash _ _ Hr). Qed.

Lemma coherent_ro d d' : ro d d' -> coherent d -> coherent d'.
Proof.
  intros Hr [Hw Hc Hl]. split; rewrite ?(ro_ix _ _ Hr); [done|..].
  - intros. rewrite (ro_bimg _ _ _ Hr). auto.
  - intros. rewrite (ro_bimg _ _ _ Hr). eauto.
Qed.
End read.

(** Block accesses of blob_db.c through the storage seam, for any block: what a
    read, a program, an erase and a replace do to the state of Core.v. *)

Section peb.
Context (cfg : config) (g : geom) `{Crc}.
Context {S I : Type} `{!Store S} `{!StoreView S} `{!SlotIndex I}.
Context (Hg : geom_ok cfg g) {SL : StoreLaws S (store_geom_of g)}.
Notation db := (db S I).
Implicit Types d : db.

Definition pimg d (p : Z) : bytes := img (d_store d) p.

(** What a device promises of an operation that may fail: when it works, it
    succeeds and goes on working. *)
Definition works {A} d (r : res A) d' : Prop :=
  healthy (d_store d) -> is_ok r = true /\ healthy (d_store d').

(** Block [p] became [b]; nothing else changed. *)
Record only_peb d d' (p : Z) (b : bytes) : Prop := {
  op_st : d_st d' = d_st d;
  op_geo : d_geo d' = d_geo d;
  op_ix : d_ix d' = d_ix d;
  op_img : pimg d' p = b;
  op_other : forall q, q <> p -> pimg d' q = pimg d q;
}.

Lemma pimg_ok d p : 0 <= p < n_pebs g -> img_ok g (pimg d p).
Proof. intros Hp. split; [by apply (img_len (StoreLaws := SL))|apply (img_bytes (StoreLaws := SL))]. Qed.

Lemma peb_read_spec d p w n :
  0 <= p < n_pebs g -> 0 <= w -> 0 < n -> w + n <= peb_size g ->
  reads_ok d (io (blob_db_store_read (peb_offset g p + w) n)) (fun b => b = slice w n (pimg d p)).
Proof.
  intros Hp Hw Hn Hf. pose proof (read_law (StoreLaws := SL) (d_store d) p w n Hp Hw Hn Hf) as Hl.
  unfold reads_ok, wp, io, peb_offset in *. simpl in Hl.
  destruct (blob_db_store_read _ n (d_store d)) as [r s']. destruct Hl as (Hh & Hs & Hr).
  split; [split; try done; simpl; tauto|]. destruct r as [b|e]; [done|]. split; [|done].
  intros Hd. by destruct (Hh Hd).
Qed.

Lemma peb_write_spec d p w b :
  0 <= p < n_pebs g -> 0 <= w -> 0 < len b -> w + len b <= peb_size g -> w mod write_align g = 0 ->
  len b mod write_align g = 0 -> bytes_ok b ->
  wp (io (blob_db_store_write (peb_offset g p + w) b)) d (fun r d' =>
    works d r d' /\ exists b', only_peb d d' p (splice w b' (pimg d p)) /\
      match r with
      | Ok _ => prog_done (slice w (len b) (pimg d p)) b b'
      | Err e => device_err e /\ prog_torn (slice w (len b) (pimg d p)) b b'
      end).
Proof.
  intros Hp Hw Hl0 Hf Hm1 Hm2 Hb.
  pose proof (write_law (StoreLaws := SL) (d_store d) p w b Hp Hw Hl0 Hf Hm1 Hm2 Hb) as Hl.
  unfold wp, io, peb_offset in *. simpl in Hl.
  destruct (blob_db_store_write _ b (d_store d)) as [r s']. destruct Hl as (Hh & b' & [Hi Ho] & Hr).
  split; [exact Hh|]. exists b'. split; [|done]. split; done.
Qed.

(** A program into erased flash. *)
Lemma peb_write_erased d p w b :
  0 <= p < n_pebs g -> 0 <= w -> 0 < len b -> w + len b <= peb_size g -> w mod write_align g = 0 ->
  len b mod write_align g = 0 -> bytes_ok b -> slice w (len b) (pimg d p) = erased (len b) ->
  wp (io (blob_db_store_write (peb_offset g p + w) b)) d (fun r d' =>
    works d r d' /\ exists b', only_peb d d' p (splice w b' (pimg d p)) /\
      match r with
      | Ok _ => b' = b
      | Err e => device_err e /\ prog_torn (erased (len b)) b b'
      end).
Proof.
  intros Hp Hw Hl0 Hf Hm1 Hm2 Hb He. eapply wp_mono; [by apply peb_write_spec|].
  intros r d' (Hwk & b' & Ho & Hr). split; [done|]. exists b'. split; [done|]. rewrite He in Hr.
  destruct r; [by eapply prog_done_erased|done].
Qed.

Lemma peb_erase_spec d p :
  0 <= p < n_pebs g ->
  wp (io (blob_db_store_erase (peb_offset g p) (peb_size g))) d (fun r d' =>
    works d r d' /\ exists b', only_peb d d' p b' /\
      match r with Ok _ => b' = erased (peb_size g) | Err e => device_err e end).
Proof.
  intros Hp. pose proof (erase_law (StoreLaws := SL) (d_store d) p Hp) as Hl.
  unfold wp, io, peb_offset in *. simpl in Hl.
  destruct (blob_db_store_erase _ _ (d_store d)) as [r s']. destruct Hl as (Hh & b' & [Hi Ho] & Hr).
  split; [exact Hh|]. exists b'. split; [|done]. split; done.
Qed.

Lemma peb_replace_spec d p b :
  0 <= p < n_pebs g -> len b <= peb_size g -> len b mod write_align g = 0 -> bytes_ok b ->
  wp (io (blob_db_store_replace (peb_offset g p) b)) d (fun r d' =>
    works d r d' /\ exists b', only_peb d d' p b' /\
      match r with
      | Ok _ => b' = b ++ erased (peb_size g - len b)
      | Err e => device_err e /\ (blob_db_store_replace_is_atomic (S := S) = true ->
          b' = pimg d p \/ b' = b ++ erased (peb_size g - len b))
      end).
Proof.
  intros Hp Hf Hm Hb. pose proof (replace_law (StoreLaws := SL) (d_store d) p b Hp Hf Hm Hb) as Hl.
  unfold wp, io, peb_offset in *. simpl in Hl.
  destruct (blob_db_store_replace _ b (d_store d)) as [r s']. destruct Hl as (Hh & b' & [Hi Ho] & Hr).
  split; [exact Hh|]. exists b'. split; [|done]. split; done.
Qed.

Lemma works_trans {A B} d (r : res A) d1 (r' : res B) d2 :
  works d r d1 -> (is_ok r = true -> works d1 r' d2) -> works d r' d2.
Proof. intros H1 H2 Hh. destruct (H1 Hh) as [Hr Hh']. apply (H2 Hr Hh'). Qed.

Lemma works_ro d d' {A} (r : res A) d'' : ro d d' -> works d' r d'' -> works d r d''.
Proof. intros Hr Hw Hh. apply Hw, (ro_healthy _ _ Hr), Hh. Qed.
End peb.
