(* ===== verification/Lookup.v ===== *)
(** Lookups: [find_live_slot()] and the cursor of an append agree with the
    reference reading of the bucket, with or without a slot index, and keep the
    index coherent with flash. *)

From S2P Require Import Prelude Layout Store SlotIndexIface Image Core CoreRead.

Section lookup.
Context (cfg : config) (g : geom) `{Crc}.
Context {S I : Type} `{!Store S} `{!StoreView S} `{!SlotIndex I}.
Context (Hg : geom_ok cfg g) {SL : StoreLaws S (store_geom_of g)} {CL : CrcLaws _}.
Context (sidx_wf : Z -> I -> Prop) {IL : SlotIndexLaws I sidx_wf}.
Notation db := (db S I).
Notation coherent := (coherent cfg g sidx_wf).
Implicit Types d : db.

(** [reads_co d m Q]: [m] leaves flash and [st] alone and the index coherent;
    on a device that works it returns something that satisfies [Q]. *)
Definition reads_co {A} d (m : M db A) (Q : A -> Prop) : Prop :=
  coherent d -> wp m d (fun r d' => roi d d' /\ coherent d' /\
    match r with
    | Ok a => Q a
    | Err e => ~ healthy (d_store d) /\ device_err e
    end).

Lemma reads_co_of {A} d (m : M db A) Q : reads_ok d m Q -> reads_co d m Q.
Proof.
  intros Hm Hc. eapply wp_mono; [exact Hm|]. intros r d' [Hr Hq].
  split_and!; [by apply ro_roi|by eapply coherent_ro|done].
Qed.

Lemma reads_co_bnd {A B} d (m : M db A) (k : A -> M db B) (Q : A -> Prop) (R : B -> Prop) :
  reads_co d m Q -> (forall a d', roi d d' -> Q a -> reads_co d' (k a) R) -> reads_co d (mbnd m k) R.
Proof.
  intros Hm Hk Hc. apply wp_bnd. eapply wp_mono; [exact (Hm Hc)|]. intros [a|e] d' (Hr & Hc' & Hq); simpl.
  - eapply wp_mono; [apply (Hk a d' Hr Hq Hc')|]. intros [b|e] d'' (Hr' & Hc'' & Hq').
    + split_and!; [by etrans|done..].
    + destruct Hq' as [Hh He]. split_and!; [by etrans|done|intros Hd; apply Hh, (roi_healthy _ _ Hr), Hd|done].
  - done.
Qed.

Lemma reads_co_ret {A} d (a : A) (Q : A -> Prop) : Q a -> reads_co d (mret a) Q.
Proof. intros Hq Hc. apply wp_ret. split_and!; [reflexivity|done..]. Qed.

Lemma reads_co_mono {A} d (m : M db A) (Q R : A -> Prop) :
  reads_co d m Q -> (forall a, Q a -> R a) -> reads_co d m R.
Proof. intros Hm HQ Hc. eapply wp_mono; [exact (Hm Hc)|]. intros [a|e] d' (?&?&?); (split; [done|]; split; [done|]; auto). Qed.

Lemma bucket_range id : 0 <= id mod n_buckets g < n_buckets g.
Proof. apply Z.mod_pos_bound. pose proof (ok_buckets _ _ Hg). lia. Qed.

Lemma id_to_bucket_eq id : id_to_bucket g id = id mod n_buckets g.
Proof.
  unfold id_to_bucket. apply u16_small. pose proof (bucket_range id). pose proof (ok_pebs _ _ Hg).
  unfold_consts. lia.
Qed.

Lemma log_end_small d bid : 0 <= bid < n_buckets g -> 16 <= log_end cfg g (bimg d bid) < 2 ^ 32.
Proof.
  intros Hb. destruct (bimg_ok cfg g Hg d bid Hb) as [_ Hbytes].
  pose proof (log_end_bounds cfg g Hg _ Hbytes). pose proof (ok_peb_size _ _ Hg). unfold_consts. lia.
Qed.

(** ** Index updates keep coherence *)

Lemma ix_forget_co d bid : 0 <= bid < n_buckets g -> reads_co d (ix (blob_db_sidx_forget bid)) (fun _ => True).
Proof.
  intros Hb Hc. apply wp_mod. split_and!; [by split|split|done]; simpl.
  - eapply forget_wf; [apply (coh_wf _ _ _ _ Hc)|done].
  - intros bid' c Hb' Hcur. eapply forget_cursor in Hcur; [|apply (coh_wf _ _ _ _ Hc)|done..].
    destruct Hcur. by apply (coh_cursor _ _ _ _ Hc).
  - intros id o c Hid Hl. eapply forget_lookup in Hl; [|apply (coh_wf _ _ _ _ Hc)|done..].
    destruct Hl. by eapply (coh_lookup _ _ _ _ Hc).
Qed.

Lemma ix_learn_co d id o :
  0 < id < 2 ^ 64 -> let bid := id mod n_buckets g in let buf := bimg d bid in
  bucket_hdr_valid buf bid = true -> slot_foreign_at cfg g buf (log_end cfg g buf) = false ->
  o < 2 ^ 32 ->
  (0 <= o -> exists en, newest_head id (peb_size g) (bucket_log cfg g buf) = Some en /\ e_off en = o) ->
  reads_co d (ix (blob_db_sidx_learn bid id o (log_end cfg g buf))) (fun _ => True).
Proof.
  intros Hid bid buf Hv Hf Ho Hen Hc. pose proof (bucket_range id) as Hb. fold bid in Hb.
  pose proof (log_end_small d bid Hb) as He. fold buf in He. pose proof (coh_wf _ _ _ _ Hc) as Hw.
  apply wp_mod. split_and!; [by split|split|done]; simpl.
  - eapply learn_wf; [done..|lia].
  - intros b' c Hb' Hcur. eapply learn_cursor in Hcur; [|done..|lia|done]. fold bid in Hcur.
    destruct Hcur as [[-> ->]|[? ?]]; [by split_and!|by apply (coh_cursor _ _ _ _ Hc)].
  - intros id' o' c Hid' Hl. eapply learn_lookup in Hl; [|done..|lia|done].
    destruct Hl as [(-> & ? & ->)|[c0 ?]]; [by apply Hen|by eapply (coh_lookup _ _ _ _ Hc)].
Qed.

(** ** Lookup *)

(** What a lookup of [id] answers from a bucket image. *)
Definition find_result (buf : bytes) (id : Z) (x : bucket_scan * res bytes) : Prop :=
  let l := bucket_log cfg g buf in
  let e := log_end cfg g buf in
  if slot_foreign_at cfg g buf e then snd x = Err ENOTSUP
  else
    write_cursor (fst x) = e /\ foreign (fst x) = false /\
    (from_index (fst x) = false -> tail_torn (fst x) = torn_at cfg g buf e) /\
    snd x = (match live id l with Some en => Ok (e_payload en) | None => Err ENOENT end) /\
    (forall en, live id l = Some en -> target (fst x) = head_at buf (e_off en)).

Lemma newest_of_head id limit l c :
  newest_head id limit l = Some c -> e_intact c = true ->
  (forall en, en ∈ l -> e_id en = id -> e_intact en = true -> e_off en < limit) ->
  newest id l = Some c.
Proof.
  intros Hn Hi Hlim. apply last_such_Some in Hn as (l1 & l2 & -> & Hc & Hl2). apply last_such_Some.
  exists l1, l2. apply andb_true_iff in Hc as [Hid _]. rewrite Hi, Hid. split_and!; [done..|].
  intros x Hx. destruct (e_intact x) eqn:Ex; [|done]. simpl. destruct (Z.eqb_spec (e_id x) id) as [E|]; [|done].
  specialize (Hl2 x Hx). rewrite E, Z.eqb_refl in Hl2. simpl in Hl2. apply Z.ltb_ge in Hl2.
  specialize (Hlim x ltac:(apply elem_of_app; right; by apply list_elem_of_further) E Ex). lia.
Qed.

Lemma newest_no_head id limit l :
  newest_head id limit l = None ->
  (forall en, en ∈ l -> e_id en = id -> e_intact en = true -> e_off en < limit) ->
  newest id l = None.
Proof.
  intros Hn Hlim. apply newest_None. intros en He Hi Hid. pose proof (proj1 (last_such_None _ _) Hn en He) as Hx.
  simpl in Hx. specialize (Hlim en He Hid Hi). lia.
Qed.

(** Below a rotten candidate, every intact slot of the id is still in sight. *)
Lemma limit_step d bid id limit c :
  0 <= bid < n_buckets g -> let l := bucket_log cfg g (bimg d bid) in
  newest_head id limit l = Some c -> e_intact c = false ->
  (forall en, en ∈ l -> e_id en = id -> e_intact en = true -> e_off en < limit) ->
  (forall en, en ∈ l -> e_id en = id -> e_intact en = true -> e_off en < e_off c) /\ 16 <= e_off c < limit.
Proof.
  intros Hbid l Hn Hi Hlim. destruct (bimg_ok cfg g Hg d bid Hbid) as [_ Hbytes].
  destruct (parsed_log cfg g Hg _ Hbytes) as [Hl _]. fold l in Hl. pose proof (ok_peb_size _ _ Hg).
  apply last_such_Some in Hn as (l1 & l2 & E & Hc & Hl2). apply andb_true_iff in Hc as [_ Hlt%Z.ltb_lt].
  rewrite E in Hl. apply log_rel_split in Hl as (H1 & Hw & _ & H2).
  pose proof (log_rel_bounds cfg g Hg _ BLOB_DB_BUCKET_DATA_OFF _ _ Hbytes ltac:(unfold_consts; lia) H1).
  pose proof (len_nonneg l1). split; [|unfold_consts; lia].
  intros en He Hid Hen. rewrite E in He. apply elem_of_app in He as [He|He].
  - destruct (log_rel_off_bounds cfg g Hg _ BLOB_DB_BUCKET_DATA_OFF _ _ en Hbytes ltac:(unfold_consts; lia) H1 He). lia.
  - apply elem_of_cons in He as [->|He]; [congruence|]. specialize (Hl2 en He).
    specialize (Hlim en ltac:(rewrite E; apply elem_of_app; right; by apply list_elem_of_further) Hid Hen).
    rewrite Hid, Z.eqb_refl in Hl2. simpl in Hl2. lia.
Qed.

Lemma walk_live_loop_spec fuel d id limit learn :
  0 < id < 2 ^ 64 -> let bid := id mod n_buckets g in
  bucket_hdr_valid (bimg d bid) bid = true ->
  16 <= limit <= Z.of_nat fuel -> limit <= peb_size g ->
  (forall en, en ∈ bucket_log cfg g (bimg d bid) -> e_id en = id -> e_intact en = true -> e_off en < limit) ->
  reads_co d (walk_live_loop cfg g fuel bid id limit learn) (find_result (bimg d bid) id).
Proof.
  intros Hid bid. pose proof (bucket_range id) as Hbid. fold bid in Hbid. revert d limit.
  induction fuel as [|fuel IH]; intros d limit Hv Hf Hp Hlim; [lia|]. cbn [walk_live_loop].
  eapply reads_co_bnd; [apply reads_co_of, scan_bucket_for_spec; done|].
  intros sc d1 Hr1 (Hwc & Hfi & Hfo & Htt & Htg). unfold find_result.
  rewrite <- (roi_bimg _ _ bid Hr1) in *. set (buf := bimg d1 bid) in *. rewrite <- Hfo.
  destruct (foreign sc) eqn:Efo; [by apply reads_co_ret|]. symmetry in Hfo.
  destruct (newest_head id limit _) as [c|] eqn:En.
  - destruct Htg as [Hto Htg].
    assert (c ∈ bucket_log cfg g buf) as Hin.
    { apply last_such_Some in En as (l1 & l2 & -> & _). apply elem_of_app. right. apply list_elem_of_here. }
    destruct (log_elem_head cfg g Hg d1 bid c Hbid Hin) as (H16 & Hfit & ? & ? & _ & Hfl & _).
    destruct (Z.ltb_spec (target_off sc) 0); [lia|]. fold buf in Hfl.
    intros Hc1. apply wp_bnd, wp_try. eapply wp_mono; [by eapply slot_verify_spec|].
    intros [dst|e] d2 [Hr2 Hq]; simpl.
    + destruct Hq as [Hi ->]. pose proof (newest_of_head _ _ _ _ En Hi Hlim) as Hnew.
      rewrite Htg at 1. cbn [head_at head_hdr sh_flags]. rewrite <- Hfl. fold (e_tomb c).
      assert (coherent d2) as Hc2 by (by eapply coherent_ro).
      unfold live. rewrite Hnew. destruct (e_tomb c) eqn:Et.
      * apply wp_ret. split_and!; [by apply ro_roi|done..].
      * assert (reads_co d2 (if learn && (limit =? peb_size g) then
          ix (blob_db_sidx_learn bid id (target_off sc) (write_cursor sc)) else mret tt) (fun _ => True)) as Hlrn.
        { destruct (learn && (limit =? peb_size g)) eqn:El; [|by apply reads_co_ret].
          apply andb_true_iff in El as [_ ->%Z.eqb_eq]. rewrite Hwc.
          replace buf with (bimg d2 bid) by apply (ro_bimg _ _ _ Hr2).
          apply ix_learn_co; fold bid; rewrite ?(ro_bimg _ _ _ Hr2); fold buf; try done.
          - pose proof (ok_peb_size _ _ Hg). lia.
          - intros _. by exists c. }
        apply wp_bnd. eapply wp_mono; [exact (Hlrn Hc2)|]. intros [[]|e] d3 (Hr3 & Hc3 & Hq3).
        -- apply wp_ret. split_and!; [etrans; [by apply ro_roi|done]|done..|].
           simpl. intros en [= <-]. done.
        -- split_and!; [etrans; [by apply ro_roi|done]|done|intros Hd; apply (proj1 Hq3), (ro_healthy _ _ Hr2), Hd|tauto].
    + destruct Hq as [[-> Hi]|[Hh He]].
      * destruct (limit_step d1 bid id limit c Hbid En Hi Hlim) as [Hlim' ?].
        assert (bimg d2 bid = buf) as Hb2 by apply (ro_bimg _ _ _ Hr2).
        rewrite Hto. eapply wp_mono.
        { eapply (IH d2 (e_off c)); rewrite ?Hb2; [done|lia|lia|done|by eapply coherent_ro]. }
        intros r d3 (Hr3 & Hc3 & Hq3). split_and!; [etrans; [by apply ro_roi|done]|done|].
        destruct r as [x|e]; [unfold find_result in Hq3; by rewrite Hb2, Hfo in Hq3|].
        destruct Hq3 as [Hh ?]. split; [|done]. intros Hd. apply Hh, (ro_healthy _ _ Hr2), Hd.
      * destruct e; try (by destruct He as (?&?&?&?&?&?&?)); apply wp_fail;
          (split_and!; [by apply ro_roi|by eapply coherent_ro|done|done]).
  - rewrite Htg. simpl. pose proof (newest_no_head _ _ _ En Hlim) as Hnew.
    eapply reads_co_bnd.
    + assert (reads_co d1 (if learn && (limit =? peb_size g) then
          ix (blob_db_sidx_learn bid id (-1) (write_cursor sc)) else mret tt) (fun _ => True)) as Hlrn; [|exact Hlrn].
      destruct (learn && (limit =? peb_size g)); [|by apply reads_co_ret].
      rewrite Hwc. by apply ix_learn_co.
    + intros [] d2 _ _. apply reads_co_ret. unfold live. rewrite Hnew. by split_and!.
Qed.

Lemma all_below_peb d bid en :
  0 <= bid < n_buckets g -> en ∈ bucket_log cfg g (bimg d bid) -> e_off en < peb_size g.
Proof. intros Hb He. destruct (log_elem_head cfg g Hg d bid en Hb He) as (?&?&?&?&_). lia. Qed.

Lemma find_indexed_slot_spec d id :
  0 < id < 2 ^ 64 -> let bid := id mod n_buckets g in
  reads_co d (find_indexed_slot cfg g bid id) (fun x => snd x = Err EAGAIN \/ find_result (bimg d bid) id x).
Proof.
  intros Hid bid. pose proof (bucket_range id) as Hbid. fold bid in Hbid.
  unfold find_indexed_slot. intros Hc. apply wp_bnd, wp_gets. simpl.
  assert (reads_co d (ix (blob_db_sidx_forget bid);;;
    mret (mk_scan 0 (-1) no_head false false false, Err EAGAIN))
    (fun x => snd x = Err EAGAIN \/ find_result (bimg d bid) id x)) as Hstale.
  { eapply reads_co_bnd; [by apply ix_forget_co|]. intros _ d' _ _. apply reads_co_ret. by left. }
  destruct (blob_db_sidx_lookup bid id (d_ix d)) as [[off cursor]|] eqn:El;
    [|apply (reads_co_ret d _ _); [by left|done]].
  destruct (coh_lookup _ _ _ _ Hc id off cursor Hid El) as (en & Hn & <-). fold bid in Hn.
  eapply lookup_needs_cursor in El; [|apply (coh_wf _ _ _ _ Hc)|done].
  destruct (coh_cursor _ _ _ _ Hc bid cursor Hbid El) as (Hv & -> & Hf).
  set (buf := bimg d bid) in *.
  assert (en ∈ bucket_log cfg g buf) as Hin.
  { apply last_such_Some in Hn as (l1 & l2 & -> & _). apply elem_of_app. right. apply list_elem_of_here. }
  destruct (log_elem_head cfg g Hg d bid en Hbid Hin) as (H16 & Hfit & ? & ? & Hi & Hfl & _). fold buf in Hi, Hfl.
  destruct (_ >? log_end cfg g buf); [by apply Hstale|].
  revert Hc. change (reads_co d
    (mbnd (io (blob_db_store_read (bucket_offset g bid + e_off en) 12)) (fun b =>
      let sh := dec_slot_head b in
      let hdr := head_hdr sh in
      if negb (head_id sh =? id) || (sh_flags hdr =? 255) || negb (flag_set (sh_flags hdr) BLOB_DB_SLOT_F_SEALED)
        || flags_unknown cfg (sh_flags hdr) || (sh_val_len hdr >? MAX_PAYLOAD_LEN cfg)
        || (e_off en + slot_size_for g (sh_val_len hdr) >? log_end cfg g buf)
      then ix (blob_db_sidx_forget bid);;; mret (mk_scan 0 (-1) no_head false false false, Err EAGAIN)
      else mbnd (mtry (slot_verify g bid (mk_scan (log_end cfg g buf) (e_off en) sh true false false)))
        (fun rc => match rc with
          | Err EBADMSG => mret (mk_scan (log_end cfg g buf) (e_off en) sh true false false, Err EAGAIN)
          | Err e => mfail e
          | Ok dst => mret (mk_scan (log_end cfg g buf) (e_off en) sh true false false,
              if flag_set (sh_flags hdr) BLOB_DB_SLOT_F_TOMBSTONE then Err ENOENT else Ok dst)
          end)))
    (fun x => snd x = Err EAGAIN \/ find_result buf id x)).
  eapply reads_co_bnd; [apply reads_co_of, (read_bucket_bytes cfg g Hg); [done|lia..]|].
  intros b d1 Hr1 ->. fold buf. cbv zeta. rewrite dec_slot_head_at by lia.
  destruct (negb _ || _ || _ || _ || _ || _).
  { eapply reads_co_bnd; [by apply ix_forget_co|]. intros _ d' _ _. apply reads_co_ret. by left. }
  assert (bimg d1 bid = buf) as Hb1 by apply (roi_bimg _ _ _ Hr1).
  intros Hc1. apply wp_bnd, wp_try. eapply wp_mono.
  { eapply (slot_verify_spec cfg g Hg d1 bid en); rewrite ?Hb1; done. }
  intros [dst|e] d2 [Hr2 Hq]; simpl.
  - apply wp_ret. split_and!; [by apply ro_roi|by eapply coherent_ro|]. right. destruct Hq as [Hint ->].
    assert (newest id (bucket_log cfg g buf) = Some en) as Hnew.
    { eapply newest_of_head; [done..|]. intros x Hx _ _. by eapply all_below_peb. }
    unfold find_result, live. rewrite Hf, Hnew. rewrite <- Hfl. fold (e_tomb en).
    split_and!; try done; [by destruct (e_tomb en)|]. simpl. intros x. destruct (e_tomb en); [done|]. by intros [= ->].
  - destruct Hq as [[-> _]|[Hh He]].
    + apply wp_ret. split_and!; [by apply ro_roi|by eapply coherent_ro|by left].
    + destruct e; try (by destruct He as (?&?&?&?&?&?&?)); apply wp_fail;
        (split_and!; [by apply ro_roi|by eapply coherent_ro|done|done]).
Qed.

(** A lookup answers what the bucket's log says. *)
Lemma find_live_slot_spec d id :
  0 < id < 2 ^ 64 -> let bid := id mod n_buckets g in
  bucket_hdr_valid (bimg d bid) bid = true ->
  reads_co d (find_live_slot cfg g bid id) (find_result (bimg d bid) id).
Proof.
  intros Hid bid Hv. pose proof (bucket_range id) as Hbid. fold bid in Hbid. pose proof (ok_peb_size _ _ Hg).
  unfold find_live_slot. eapply reads_co_bnd; [by apply find_indexed_slot_spec|].
  intros [sc rc] d1 Hr1 Hq. fold bid in Hq. rewrite <- (roi_bimg _ _ bid Hr1) in *. simpl in *.
  assert (reads_co d1 (walk_live_slot cfg g bid id true) (find_result (bimg d1 bid) id)) as Hw.
  { apply walk_live_loop_spec; fold bid; [done|done|unfold walk_fuel; lia|lia|].
    intros en He _ _. by eapply all_below_peb. }
  destruct rc as [dst|e].
  - destruct Hq as [?|Hq]; [done|]. by apply reads_co_ret.
  - destruct Hq as [[= ->]|Hq]; [done|]. destruct e; try (by apply reads_co_ret); done.
Qed.

(** ** Bucket headers and append cursors *)

Lemma bucket_hdr_valid_slice buf bid : bucket_hdr_valid (slice 0 16 buf) bid = bucket_hdr_valid buf bid.
Proof.
  unfold bucket_hdr_valid, dec_bucket_hdr. simpl. rewrite !rd_slice by lia. rewrite !slice_slice by lia. done.
Qed.

Lemma read_bucket_hdr_spec d bid :
  0 <= bid < n_buckets g ->
  reads_co d (read_bucket_hdr g bid) (fun v => v = bucket_hdr_valid (bimg d bid) bid).
Proof.
  intros Hbid. unfold read_bucket_hdr. intros Hc. apply wp_bnd, wp_gets. simpl.
  destruct (blob_db_sidx_cursor bid (d_ix d)) as [c|] eqn:E.
  - destruct (coh_cursor _ _ _ _ Hc bid c Hbid E) as (-> & _). by apply (reads_co_ret d true).
  - revert Hc. replace (bucket_offset g bid) with (bucket_offset g bid + 0) by lia.
    pose proof (ok_peb_size _ _ Hg).
    eapply (reads_co_bnd d _ _ (fun b => b = slice 0 16 (bimg d bid)));
      [apply reads_co_of, (read_bucket_bytes cfg g Hg); lia|].
    intros b d' _ ->. apply reads_co_ret. by rewrite bucket_hdr_valid_slice.
Qed.

(** Where an append to a bucket image may go. *)
Definition append_at (buf : bytes) : res Z :=
  let e := log_end cfg g buf in
  if slot_foreign_at cfg g buf e then Err ENOTSUP
  else Ok (if torn_at cfg g buf e then peb_size g else e).

(** What a scan handed to [confirm_cursor()] says. *)
Definition scan_of (buf : bytes) (sc : bucket_scan) : Prop :=
  let e := log_end cfg g buf in
  write_cursor sc = e /\
  if from_index sc then slot_foreign_at cfg g buf e = false
  else foreign sc = slot_foreign_at cfg g buf e /\ tail_torn sc = torn_at cfg g buf e.

Lemma find_result_scan buf id sc rc :
  find_result buf id (sc, rc) -> slot_foreign_at cfg g buf (log_end cfg g buf) = false -> scan_of buf sc.
Proof.
  unfold find_result, scan_of. intros Hf Hn. rewrite Hn in Hf. simpl in Hf. destruct Hf as (?&?&?&?&_).
  split; [done|]. destruct (from_index sc); [done|]. split; [congruence|auto].
Qed.

Lemma bucket_cursor_spec d id :
  0 < id < 2 ^ 64 -> let bid := id mod n_buckets g in
  bucket_hdr_valid (bimg d bid) bid = true ->
  reads_co d (bucket_cursor cfg g bid id) (scan_of (bimg d bid)).
Proof.
  intros Hid bid Hv. pose proof (bucket_range id) as Hbid. fold bid in Hbid.
  unfold bucket_cursor. intros Hc. apply wp_bnd, wp_gets. simpl.
  destruct (blob_db_sidx_cursor bid (d_ix d)) as [c|] eqn:E.
  - destruct (coh_cursor _ _ _ _ Hc bid c Hbid E) as (_ & -> & ?). by apply (reads_co_ret d _).
  - revert Hc. eapply (reads_co_bnd d _ _ (fun sc => scan_of (bimg d bid) sc /\ foreign sc = slot_foreign_at cfg g (bimg d bid) (log_end cfg g (bimg d bid)))).
    + eapply reads_co_mono; [apply reads_co_of, (scan_bucket_for_spec cfg g Hg); done|].
      intros sc (?&Hfi&?&?&_). unfold scan_of. rewrite Hfi. done.
    + intros sc d' Hr [Hs Hf]. eapply (reads_co_bnd _ _ _ (fun _ => True)); [|intros; by apply reads_co_ret].
      destruct (foreign sc) eqn:Ef; [by apply reads_co_ret|]. destruct Hs as [-> _].
      rewrite <- (roi_bimg _ _ bid Hr) in *. by apply ix_learn_co.
Qed.

(** Reads that may also report an error of the library's own. *)
Definition reads_rc {A} d (m : M db A) (want : res A) : Prop :=
  coherent d -> wp m d (fun r d' => roi d d' /\ coherent d' /\
    (r = want \/ exists e, r = Err e /\ ~ healthy (d_store d) /\ device_err e)).

Lemma reads_rc_co {A} d (m : M db A) (want : res A) (a : A) :
  want = Ok a -> reads_co d m (fun x => x = a) -> reads_rc d m want.
Proof.
  intros -> Hm Hc. eapply wp_mono; [exact (Hm Hc)|]. intros [x|e] d' (?&?&Hq); (split; [done|]; split; [done|]).
  - left. congruence.
  - right. eauto.
Qed.

Lemma past_torn_spec d bid : 0 <= bid < n_buckets g -> reads_co d (cursor_past_torn_tail g bid) (fun c => c = peb_size g).
Proof. intros Hb. eapply reads_co_bnd; [by apply ix_forget_co|]. intros. by apply reads_co_ret. Qed.

Lemma all_erased_head d bid at_ :
  0 <= bid < n_buckets g -> 0 <= at_ -> at_ + 12 <= peb_size g ->
  all_erased (slice at_ 12 (bimg d bid)) = true -> torn_at cfg g (bimg d bid) at_ = false.
Proof.
  intros Hb H0 H12 Ha. destruct (bimg_ok cfg g Hg d bid Hb) as [Hlen _]. apply all_erased_spec in Ha.
  assert (rd 1 at_ (bimg d bid) = 255) as Hr.
  { rewrite <- (Z.add_0_r at_). rewrite (rd_of_slice 1 0 at_ 12) by lia. rewrite Ha, len_slice by lia. done. }
  unfold torn_at. rewrite Hr. simpl. apply andb_false_r.
Qed.

Lemma confirm_scan d bid sc :
  0 <= bid < n_buckets g -> scan_of (bimg d bid) sc -> from_index sc = false ->
  reads_rc d (if foreign sc then mfail ENOTSUP else if tail_torn sc then cursor_past_torn_tail g bid
              else mret (write_cursor sc)) (append_at (bimg d bid)).
Proof.
  intros Hb [Hwc Hs] Hi. rewrite Hi in Hs. destruct Hs as [Hf Ht]. unfold append_at. rewrite <- Hf, <- Ht.
  destruct (foreign sc).
  - intros Hc. apply wp_fail. split_and!; [reflexivity|done|by left].
  - eapply reads_rc_co; [done|]. destruct (tail_torn sc); [by apply past_torn_spec|]. by apply reads_co_ret.
Qed.

(** A writer appends exactly where the log ends, and never over a torn slot. *)
Lemma confirm_cursor_spec d bid id sc :
  0 <= bid < n_buckets g -> scan_of (bimg d bid) sc ->
  reads_rc d (confirm_cursor cfg g bid id sc) (append_at (bimg d bid)).
Proof.
  intros Hb Hs. unfold confirm_cursor. destruct (from_index sc) eqn:Ei; simpl; [|by apply confirm_scan].
  pose proof Hs as [Hwc Hf]. rewrite Ei in Hf. pose proof (log_end_small d bid Hb) as He.
  destruct (Z.leb_spec (write_cursor sc + 12) (peb_size g)) as [H12|H12].
  - intros Hc. apply wp_bnd. eapply wp_mono; [apply (read_bucket_bytes cfg g Hg d bid); lia|].
    intros [b|e] d1 [Hr1 Hq]; [|split_and!; [by apply ro_roi|by eapply coherent_ro|right; by exists e]].
    subst b. assert (bimg d1 bid = bimg d bid) as Hb1 by apply (ro_bimg _ _ _ Hr1).
    assert (coherent d1) as Hc1 by (by eapply coherent_ro).
    destruct (all_erased _) eqn:Ea.
    + apply wp_ret. split_and!; [by apply ro_roi|done|]. left. unfold append_at. rewrite Hf.
      rewrite Hwc in Ea. rewrite all_erased_head by (done || lia). by rewrite Hwc.
    + apply wp_bnd. eapply wp_mono; [exact (ix_forget_co d1 bid Hb Hc1)|].
      intros [[]|e] d2 (Hr2 & Hc2 & Hq2).
      * apply wp_bnd. eapply wp_mono; [exact (reads_co_of _ _ _ (scan_bucket_for_spec cfg g Hg d2 bid id (peb_size g) Hb) Hc2)|].
        assert (roi d d2) as Hr02 by (etrans; [by apply ro_roi|done]).
        assert (healthy (d_store d) -> healthy (d_store d2)) as Hh2 by apply (roi_healthy _ _ Hr02).
        intros [walk|e] d3 (Hr3 & Hc3 & Hq3).
        -- destruct Hq3 as (?&Hfi&?&?&_).
           assert (bimg d3 bid = bimg d2 bid) as Hb3 by apply (roi_bimg _ _ _ Hr3).
           assert (bimg d2 bid = bimg d bid) as Hb2 by apply (roi_bimg _ _ _ Hr02).
           eapply wp_mono; [eapply (confirm_scan d3 bid walk Hb); [|done..]|].
           { unfold scan_of. rewrite Hfi, Hb3. done. }
           intros r d4 (?&?&Hr4). split_and!; [etrans; [done|by etrans]|done|].
           rewrite Hb3, Hb2 in Hr4. destruct Hr4 as [?|(e & ? & Hh & ?)]; [by left|right].
           exists e. split_and!; [done| |done]. intros Hd. apply Hh, (roi_healthy _ _ Hr3), Hh2, Hd.
        -- split_and!; [by etrans|done|]. right. exists e. destruct Hq3 as [Hh ?]. split_and!; [done| |done]. auto.
      * split_and!; [etrans; [by apply ro_roi|done]|done|]. right. exists e. destruct Hq2 as [Hh ?].
        split_and!; [done| |done]. intros Hd. apply Hh, (ro_healthy _ _ Hr1), Hd.
  - eapply (reads_rc_co d _ _ (write_cursor sc)); [|by apply reads_co_ret]. unfold append_at. rewrite Hf, Hwc.
    unfold torn_at. unfold_consts. destruct (Z.gtb_spec (log_end cfg g (bimg d bid) + 14) (peb_size g)); [done|lia].
Qed.
End lookup.
