(* ===== verification/Append.v ===== *)
(** Appending a slot: the bytes [append_slot2()] writes parse back as the slot
    it meant, the log grows by exactly that slot, and what an interrupted append
    leaves is either the slot or something every walk steps over. *)

From S2P Require Import Prelude Layout Store SlotIndexIface Image Core CoreRead Lookup.

Section append.
Context (cfg : config) (g : geom) `{Crc} (Hg : geom_ok cfg g) {CL : CrcLaws _}.

(** Flag bytes the library writes: SEALED plus known bits. *)
Definition flags_ok (fl : Z) : Prop :=
  let f := Z.lor BLOB_DB_SLOT_F_SEALED fl in
  0 <= f < 255 /\ flag_set f BLOB_DB_SLOT_F_SEALED = true /\ flags_unknown cfg f = false.

Lemma flags_ok_plain : flags_ok 0.
Proof. unfold flags_ok, flags_unknown, BLOB_DB_SLOT_F_KNOWN. by destruct (LARGE_PAYLOADS cfg). Qed.

Lemma flags_ok_tomb : flags_ok BLOB_DB_SLOT_F_TOMBSTONE.
Proof. unfold flags_ok, flags_unknown, BLOB_DB_SLOT_F_KNOWN. by destruct (LARGE_PAYLOADS cfg). Qed.

Lemma slot_crc16_range hdr id p v : 0 <= slot_crc16 hdr id p v < 65536.
Proof. unfold slot_crc16. destruct (0 <? v); apply crc16_range. Qed.

Lemma len_slot_image id fl p : len (slot_image g id fl p) = slot_size_for g (len p).
Proof.
  destruct (slot_size_spec cfg g Hg (len p)) as (_ & ? & _). unfold slot_image, enc_slot_hdr. unfold_consts.
  autorewrite with len; [lia|lia..].
Qed.

Lemma bytes_ok_slot_image id fl p : bytes_ok p -> bytes_ok (slot_image g id fl p).
Proof.
  intros Hp. unfold slot_image, enc_slot_hdr.
  rewrite !bytes_ok_app. split_and!; auto using bytes_ok_le, bytes_ok_erased.
Qed.

(** The fields of a staged slot. *)
Lemma slot_image_fields id fl p :
  flags_ok fl -> 0 <= id < 2 ^ 64 -> len p <= MAX_PAYLOAD_LEN cfg ->
  let im := slot_image g id fl p in
  let f := Z.lor BLOB_DB_SLOT_F_SEALED fl in
  rd 1 0 im = f /\ rd 1 1 im = 0 /\ rd 2 2 im = len p /\ rd 8 4 im = id /\
  slice 12 (len p) im = p /\
  rd 2 (12 + len p) im = slot_crc16 (mk_slot_hdr f 0 (len p)) id p (len p).
Proof.
  intros (Hf & _) Hid Hp im f. pose proof (ok_payload _ _ Hg). pose proof (ok_peb_size _ _ Hg).
  pose proof (len_nonneg p) as Hp0. unfold_consts.
  assert (len p < 65536) by (pose proof (Z.div_le_upper_bound (peb_size g - 16) 2 65536); lia).
  pose proof (slot_crc16_range (mk_slot_hdr f 0 (len p)) id p (len p)).
  unfold im, slot_image, enc_slot_hdr. cbn [sh_flags sh_reserved sh_val_len]. fold f.
  set (c := slot_crc16 _ _ _ _) in *. rewrite <- !app_assoc.
  split_and!; try (rd_fields; lia).
  - rewrite !(slice_app_r 12) by lens. autorewrite with len. norm_offsets.
    rewrite slice_app_r by lens. autorewrite with len. norm_offsets.
    rewrite slice_app_r by lens. autorewrite with len. norm_offsets.
    rewrite slice_app_r by lens. autorewrite with len. norm_offsets. by apply slice_here.
  - rewrite (rd_skip _ (12 + len p)) by lens. autorewrite with len.
    do 4 (rewrite rd_skip by lens; autorewrite with len).
    replace (12 + len p - Z.of_nat 1 - Z.of_nat 1 - Z.of_nat 2 - Z.of_nat 8 - len p) with 0 by lia.
    apply rd_here; [done|]. change (256 ^ 2) with 65536. lia.
Qed.

(** Wherever they land, the staged bytes are walked as the slot they encode. *)
Lemma slot_walk_image buf off id fl p :
  flags_ok fl -> 0 <= id < 2 ^ 64 -> len p <= MAX_PAYLOAD_LEN cfg ->
  0 <= off -> off + slot_size_for g (len p) <= peb_size g ->
  slice off (slot_size_for g (len p)) buf = slot_image g id fl p ->
  slot_walk_at cfg g buf off =
    Some (mk_slot_view id (Z.lor BLOB_DB_SLOT_F_SEALED fl) (len p) (slot_size_for g (len p)), true).
Proof.
  intros Hfl Hid Hp Ho Hfit Hs. destruct (slot_image_fields id fl p Hfl Hid Hp) as (F1&F2&F3&F4&F5&F6).
  pose proof (len_nonneg p). destruct (slot_size_spec cfg g Hg (len p)) as (_ & Hsz & _).
  set (sz := slot_size_for g (len p)) in *.
  assert (forall n k, 0 <= k -> k + n <= sz -> rd n (off + k) buf = rd n k (slot_image g id fl p)) as Hrd.
  { intros n k ??. rewrite (rd_of_slice n k _ sz) by lia. by rewrite Hs. }
  assert (rd 1 off buf = Z.lor BLOB_DB_SLOT_F_SEALED fl) as E1.
  { rewrite <- (Z.add_0_r off), Hrd by lia. done. }
  assert (rd 2 (off + 2) buf = len p) as E2 by (rewrite Hrd by lia; done).
  assert (rd 1 (off + 1) buf = 0) as E3 by (rewrite Hrd by lia; done).
  assert (slice (off + 12) (len p) buf = p) as E4.
  { rewrite <- (slice_slice 12 (len p) off sz) by lia. by rewrite Hs. }
  rewrite slot_walk_at_eq by done. unfold crc_ok_at. rewrite E1, E2, E3, E4, <- Z.add_assoc, !Hrd by lia.
  rewrite F4, F6, Z.eqb_refl. fold sz. destruct Hfl as (Hf & Hs1 & Hs2).
  assert (head_ok cfg g off (Z.lor BLOB_DB_SLOT_F_SEALED fl) (len p) = true) as ->; [|done].
  unfold head_ok. rewrite !andb_true_iff, !negb_true_iff. fold sz. split_and!; try done; lia.
Qed.

Definition new_entry (off id fl : Z) (p : bytes) : entry :=
  mk_entry off (mk_slot_view id (Z.lor BLOB_DB_SLOT_F_SEALED fl) (len p) (slot_size_for g (len p))) true
    (slot_image g id fl p).

Lemma new_entry_payload off id fl p :
  flags_ok fl -> 0 <= id < 2 ^ 64 -> len p <= MAX_PAYLOAD_LEN cfg -> e_payload (new_entry off id fl p) = p.
Proof. intros Hf Hi Hp. by destruct (slot_image_fields id fl p Hf Hi Hp) as (_&_&_&_&?&_). Qed.

Lemma e_tomb_plain off id p : e_tomb (new_entry off id 0 p) = false.
Proof. done. Qed.

Lemma e_tomb_tomb off id p : e_tomb (new_entry off id BLOB_DB_SLOT_F_TOMBSTONE p) = true.
Proof. done. Qed.

(** ** Tails

    [blank_from buf o]: nothing is programmed from [o] on. *)
Definition blank_from (buf : bytes) (o : Z) : Prop :=
  forall i, o <= Z.of_nat i -> (i < length buf)%nat -> buf !! i = Some 255.

Lemma blank_from_mono buf o o' : blank_from buf o -> o <= o' -> blank_from buf o'.
Proof. intros Hb Ho i Hi. apply Hb. lia. Qed.

Lemma blank_slice buf o a n :
  blank_from buf o -> o <= a -> 0 <= a -> 0 <= n -> a + n <= len buf -> slice a n buf = erased n.
Proof.
  intros Hb Ha H0 Hn Hl. apply list_eq. intros i. rewrite lookup_slice by lia. case_decide.
  - rewrite lookup_erased by lia. apply Hb; [lia|]. unfold len in Hl. lia.
  - symmetry. apply lookup_ge_len. rewrite len_erased; lia.
Qed.

Lemma blank_stop buf e :
  len buf = peb_size g -> 0 <= e <= peb_size g -> blank_from buf e ->
  slot_walk_at cfg g buf e = None /\ slot_foreign_at cfg g buf e = false /\ torn_at cfg g buf e = false.
Proof.
  intros Hl He Hb. rewrite slot_walk_at_eq by lia. unfold torn_at. rewrite slot_foreign_at_eq by lia. unfold head_ok.
  unfold_consts. destruct (e + 14 >? peb_size g) eqn:E; cbn [negb andb]; [done|].
  assert (rd 1 e buf = 255) as ->; [|done].
  unfold rd. rewrite (blank_slice buf e e 1) by (done || lia). done.
Qed.

Lemma log_from_agree buf buf' l e :
  bytes_ok buf -> log_rel cfg g buf BLOB_DB_BUCKET_DATA_OFF l e ->
  16 <= e <= peb_size g -> (forall i, (i < Z.to_nat e)%nat -> buf' !! i = buf !! i) ->
  log_rel cfg g buf' BLOB_DB_BUCKET_DATA_OFF l e.
Proof.
  intros Hb Hl He Hi. pose proof (ok_peb_size _ _ Hg).
  eapply log_rel_agree; [done|done| |done|]; [unfold_consts; lia|].
  apply list_eq. intros i. unfold_consts. rewrite !lookup_slice by lia. case_decide; [|done]. apply Hi. lia.
Qed.

(** Appending to a blank tail adds the slot and nothing else. *)
Lemma append_log buf id fl p :
  img_ok g buf -> let e := log_end cfg g buf in blank_from buf e ->
  flags_ok fl -> 0 <= id < 2 ^ 64 -> bytes_ok p -> len p <= MAX_PAYLOAD_LEN cfg ->
  let sz := slot_size_for g (len p) in e + sz <= peb_size g ->
  let buf' := splice e (slot_image g id fl p) buf in
  img_ok g buf' /\ bucket_log cfg g buf' = bucket_log cfg g buf ++ [new_entry e id fl p] /\
  log_end cfg g buf' = e + sz /\ blank_from buf' (e + sz).
Proof.
  intros [Hl Hb] e Hbl Hfl Hid Hpb Hp sz Hfit buf'.
  pose proof (log_end_bounds cfg g Hg buf Hb) as He. fold e in He. unfold BLOB_DB_BUCKET_DATA_OFF in He.
  pose proof (len_slot_image id fl p) as Him. pose proof (len_nonneg p).
  pose proof (slot_size_pos cfg g Hg (len p)) as Hpos. fold sz in Him, Hpos.
  assert (img_ok g buf') as Hok'.
  { split; [unfold buf'; rewrite len_splice by lia; done|]. apply bytes_ok_splice; [done|by apply bytes_ok_slot_image]. }
  assert (blank_from buf' (e + sz)) as Hbl'.
  { intros i Hi Hlt. unfold buf'. rewrite lookup_splice by lia. case_decide; [lia|]. apply Hbl; [lia|].
    destruct Hok' as [Hl' _]. unfold len in *. lia. }
  assert (parsed cfg g buf' (bucket_log cfg g buf ++ [new_entry e id fl p]) (e + sz)) as Hpar.
  { destruct (parsed_log cfg g Hg buf Hb) as [Hlog _]. fold e in Hlog. split.
    - apply (log_rel_app cfg g buf' _ _ e).
      + apply (log_from_agree buf buf' _ e); [done|done|lia|]. intros i Hi. unfold buf'. rewrite lookup_splice by lia. case_decide; [lia|done].
      + assert (slice e sz buf' = slot_image g id fl p) as Hs.
        { unfold buf'. rewrite <- Him. apply slice_splice_same; lia. }
        pose proof (slot_walk_image buf' e id fl p Hfl Hid Hp ltac:(lia) Hfit Hs) as Hw.
        unfold new_entry. fold sz in Hw |- *. rewrite <- Hs.
        apply (log_slot cfg g buf' e (mk_slot_view id _ (len p) sz) true [] (e + sz) Hw). constructor.
    - apply (blank_stop buf' (e + sz)); [apply Hok'|lia|done]. }
  destruct (parsed_det cfg g Hg buf' _ _ (proj2 Hok') Hpar) as [<- <-]. done.
Qed.

(** ** Interrupted appends *)

(** What may follow the log of a bucket: nothing, or the remains of one torn
    append no longer than the largest slot. *)
Definition tail_ok (buf : bytes) : Prop :=
  let e := log_end cfg g buf in
  slot_foreign_at cfg g buf e = false /\
  blank_from buf (if torn_at cfg g buf e then e + slot_size_for g (MAX_PAYLOAD_LEN cfg) else e).

Lemma torn_len_grows im r sz :
  prog_torn (erased sz) im r -> len im = sz -> 4 <= sz -> rd 2 2 im <= rd 2 2 r.
Proof.
  intros (Hlr & Hbr & Hsup & _) Hi Hsz. unfold rd. apply le_dec_superset; [by apply bytes_ok_slice|].
  apply Forall2_same_length_lookup_2.
  - pose proof (len_slice 2 2 r ltac:(lia) ltac:(lia) ltac:(lia)) as H1.
    pose proof (len_slice 2 2 im ltac:(lia) ltac:(lia) ltac:(lia)) as H2. unfold len in *. lia.
  - intros i b n. rewrite !lookup_slice by lia. case_decide; [|done]. intros Hb Hn.
    eapply Hsup; [|done..]. apply lookup_erased. lia.
Qed.

Lemma rd1_first (l : bytes) b : l !! 0%nat = Some b -> rd 1 0 l = b.
Proof. destruct l as [|x l]; [done|]. intros [= ->]. unfold rd, slice, zt, zd, le_dec. simpl. lia. Qed.

(** An append that was cut short left the slot, nothing, or one slot that fails
    its CRC; what follows is still a tail the walks and a compaction accept. The
    hypothesis is that the slot's CRC tells the torn bytes from the whole ones. *)
Lemma torn_append_log buf id fl p r :
  img_ok g buf -> let e := log_end cfg g buf in blank_from buf e ->
  flags_ok fl -> 0 <= id < 2 ^ 64 -> len p <= MAX_PAYLOAD_LEN cfg ->
  let sz := slot_size_for g (len p) in e + sz <= peb_size g ->
  let im := slot_image g id fl p in let buf' := splice e r buf in
  prog_torn (erased sz) im r -> (crc_ok_at buf' e = true -> r = im) ->
  r = im \/
  (img_ok g buf' /\ tail_ok buf' /\
   exists rot, bucket_log cfg g buf' = bucket_log cfg g buf ++ rot /\ Forall (fun x => e_intact x = false) rot).
Proof.
  intros [Hl Hb] e Hbl Hfl Hid Hp sz Hfit im buf' Hr Hseen.
  destruct (slot_image_fields id fl p Hfl Hid Hp) as (F1&F2&F3&_). fold im in F1, F2, F3.
  pose proof (log_end_bounds cfg g Hg buf Hb) as He. fold e in He. unfold BLOB_DB_BUCKET_DATA_OFF in He.
  pose proof (len_slot_image id fl p) as Him. pose proof (len_nonneg p).
  pose proof (slot_size_pos cfg g Hg (len p) ltac:(lia)) as Hpos. fold sz im in Him, Hpos.
  pose proof Hr as (Hlr & Hbr & _ & Hfirst).
  pose proof (torn_len_grows im r sz Hr Him ltac:(lia)) as Hgrow.
  assert (img_ok g buf') as Hok'.
  { split; [unfold buf'; rewrite len_splice by lia; done|]. by apply bytes_ok_splice. }
  pose proof Hok' as [Hl' Hb'].
  assert (forall o, e + sz <= o -> blank_from buf' o) as Hbl'.
  { intros o Ho i Hi Hlt. unfold buf'. rewrite lookup_splice by lia. case_decide; [lia|]. apply Hbl; [lia|].
    unfold len in *. lia. }
  destruct (parsed_log cfg g Hg buf Hb) as [Hlog _]. fold e in Hlog.
  assert (log_rel cfg g buf' BLOB_DB_BUCKET_DATA_OFF (bucket_log cfg g buf) e) as Hlog'.
  { apply (log_from_agree buf buf' _ e); [done|done|lia|]. intros i Hi. unfold buf'. rewrite lookup_splice by lia.
    case_decide; [lia|done]. }
  assert (slice e sz buf' = r) as Hs.
  { replace sz with (len r) by lia. unfold buf'. apply slice_splice_same; lia. }
  assert (forall n k, 0 <= k -> k + n <= sz -> rd n (e + k) buf' = rd n k r) as Hrd.
  { intros n k ??. rewrite (rd_of_slice n k _ sz) by lia. by rewrite Hs. }
  destruct (crc_ok_at buf' e) eqn:Ec; [left; auto|].
  destruct (decide (r !! 0%nat = Some 255)) as [E255|N255].
  { right. assert (r = erased sz) as Her.
    { apply Hfirst; [done|]. intros E. assert (rd 1 0 im = 255) as E1.
      { by rewrite (rd1_first im 255 E). }
      rewrite F1 in E1. destruct Hfl as (Hfl & _). lia. }
    assert (buf' = buf) as Eb.
    { unfold buf'. rewrite Her. rewrite <- (blank_slice buf e e sz) by (done || lia). apply splice_slice; lia. }
    rewrite Eb in *. split; [done|]. split.
    - unfold tail_ok. fold e. destruct (blank_stop buf e) as (_ & -> & ->); [done|lia|done|]. done.
    - exists []. rewrite app_nil_r. auto. }
  right. split; [done|].
  assert (rd 1 e buf' <> 255) as Hn255.
  { rewrite <- (Z.add_0_r e), Hrd by lia.
    destruct (lookup_lt_is_Some_2 r 0) as [b Hb0]; [unfold len in *; lia|]. rewrite (rd1_first r b Hb0). congruence. }
  destruct (slot_walk_at cfg g buf' e) as [[sv i]|] eqn:Ew.
  - assert (i = false /\ sz <= sv_total_size sv) as [-> Hsv].
    { pose proof (slot_walk_at_eq cfg g buf' e ltac:(lia)) as Eq. rewrite Ew in Eq. destruct (head_ok _ _ _ _ _); [|done].
      injection Eq as -> ->. split; [done|]. simpl. apply (slot_size_mono cfg g Hg).
      rewrite Hrd by lia. lia. }
    destruct (slot_walk_bounds cfg g Hg _ e _ _ Hb' ltac:(lia) Ew) as (?&?&_).
    destruct (blank_stop buf' (e + sv_total_size sv)) as (Hw' & Hf' & Ht'); [done|lia|apply Hbl'; lia|].
    set (en := mk_entry e sv false (slice e (sv_total_size sv) buf')).
    assert (parsed cfg g buf' (bucket_log cfg g buf ++ [en]) (e + sv_total_size sv)) as Hpar.
    { split; [|done]. apply (log_rel_app cfg g buf' _ _ e); [done|]. apply log_slot; [done|]. constructor. }
    destruct (parsed_det cfg g Hg buf' _ _ Hb' Hpar) as [Elog Eend]. split.
    + unfold tail_ok. rewrite <- Eend, Hf', Ht'. split; [done|]. apply Hbl'. lia.
    + exists [en]. split; [done|]. by repeat constructor.
  - assert (parsed cfg g buf' (bucket_log cfg g buf) e) as Hpar by done.
    destruct (parsed_det cfg g Hg buf' _ _ Hb' Hpar) as [Elog Eend].
    assert (slot_foreign_at cfg g buf' e = false) as Hnf.
    { rewrite slot_foreign_at_eq by lia. rewrite Ec. apply andb_false_r. }
    split.
    + unfold tail_ok. rewrite <- Eend. rewrite Hnf. split; [done|].
      assert (torn_at cfg g buf' e = true) as ->.
      { unfold torn_at. rewrite Hnf. unfold_consts. rewrite !andb_true_iff, !negb_true_iff. split_and!; [lia|done|lia]. }
      apply Hbl'. pose proof (slot_size_mono cfg g Hg (len p) (MAX_PAYLOAD_LEN cfg) Hp). fold sz in H1. lia.
    + exists []. rewrite app_nil_r. auto.
Qed.
End append.
