(* ===== verification/Bucket.v ===== *)
(** One bucket as blob_db keeps it: the invariant of its image, the contents it
    stands for, and what formatting it and appending to it do to both. *)

From S2P Require Import Prelude Layout Store SlotIndexIface Image Core CoreRead Lookup Append.

Section bucket.
Context (cfg : config) (g : geom) `{Crc}.
Context {S I : Type} `{!Store S} `{!StoreView S} `{!SlotIndex I}.
Context (Hg : geom_ok cfg g) (Ha : geom_aligned g) {SL : StoreLaws S (store_geom_of g)} {CL : CrcLaws _}.
Context (sidx_wf : Z -> I -> Prop) {IL : SlotIndexLaws I sidx_wf}.
Notation db := (db S I).
Notation coherent := (coherent cfg g sidx_wf).
Implicit Types d : db.

(** A formatted bucket: its tail can be appended to or dropped, and every slot
    that verifies belongs to it. *)
Record bucket_inv (bid : Z) (buf : bytes) : Prop := {
  bi_tail : tail_ok cfg g buf;
  bi_ids : forall en, en ∈ bucket_log cfg g buf -> e_intact en = true ->
    0 < e_id en < 2 ^ 64 /\ e_id en mod n_buckets g = bid;
}.

Record db_inv d : Prop := {
  inv_coh : coherent d;
  inv_bucket : forall bid, 0 <= bid < n_buckets g ->
    bucket_hdr_valid (bimg d bid) bid = true -> bucket_inv bid (bimg d bid);
}.

(** The slot a bucket image gives an id, flags and payload; an unformatted bucket
    holds nothing. *)
Definition bucket_slot (buf : bytes) (bid id : Z) : option (Z * bytes) :=
  if bucket_hdr_valid buf bid then slot_of id (bucket_log cfg g buf) else None.
Definition bucket_value (buf : bytes) (bid id : Z) : option bytes := snd <$> bucket_slot buf bid id.

Definition slots d (id : Z) : option (Z * bytes) := bucket_slot (bimg d (id mod n_buckets g)) (id mod n_buckets g) id.
Definition contents d (id : Z) : option bytes := snd <$> slots d id.

(** [wrote d d' bid buf]: the image of bucket [bid] became [buf], the rest of
    flash and [st] are as they were. *)
Record wrote d d' (bid : Z) (buf : bytes) : Prop := {
  wr_st : d_st d' = d_st d;
  wr_geo : d_geo d' = d_geo d;
  wr_img : bimg d' bid = buf;
  wr_other : forall p, p <> BLOB_DB_FIRST_BUCKET + bid -> img (d_store d') p = img (d_store d) p;
}.

Lemma wr_bimg d d' bid buf b : wrote d d' bid buf -> b <> bid -> bimg d' b = bimg d b.
Proof. intros Hw Hb. apply (wr_other _ _ _ _ Hw). unfold_consts. lia. Qed.

Lemma inv_roi d d' : roi d d' -> coherent d' -> db_inv d -> db_inv d'.
Proof. intros Hr Hc [_ Hb]. split; [done|]. intros bid Hbid. rewrite (roi_bimg _ _ _ Hr). auto. Qed.

Lemma slots_roi d d' id : roi d d' -> slots d' id = slots d id.
Proof. intros Hr. unfold slots. by rewrite (roi_bimg _ _ _ Hr). Qed.

Lemma contents_roi d d' id : roi d d' -> contents d' id = contents d id.
Proof. intros Hr. unfold contents. by rewrite (slots_roi _ _ _ Hr). Qed.

Lemma inv_wrote d d' bid buf :
  0 <= bid < n_buckets g -> wrote d d' bid buf -> coherent d' -> db_inv d ->
  (bucket_hdr_valid buf bid = true -> bucket_inv bid buf) -> db_inv d'.
Proof.
  intros Hbid Hw Hc [_ Hb] Hi. split; [done|]. intros b Hb'. destruct (decide (b = bid)) as [->|Hne].
  - rewrite (wr_img _ _ _ _ Hw). done.
  - rewrite (wr_bimg _ _ _ _ _ Hw Hne). auto.
Qed.

Lemma slots_wrote d d' bid buf id :
  wrote d d' bid buf ->
  slots d' id = if decide (id mod n_buckets g = bid) then bucket_slot buf bid id else slots d id.
Proof.
  intros Hw. unfold slots. case_decide as E; [rewrite E, (wr_img _ _ _ _ Hw)|rewrite (wr_bimg _ _ _ _ _ Hw E)]; done.
Qed.

Lemma contents_wrote d d' bid buf id :
  wrote d d' bid buf ->
  contents d' id = if decide (id mod n_buckets g = bid) then bucket_value buf bid id else contents d id.
Proof. intros Hw. unfold contents. rewrite (slots_wrote _ _ _ _ id Hw). by case_decide. Qed.

(** ** Alignment *)

Lemma mod_add_0 a b n : n <> 0 -> a mod n = 0 -> b mod n = 0 -> (a + b) mod n = 0.
Proof. intros Hn E1 E2. rewrite Z.add_mod by done. by rewrite E1, E2, Z.mod_0_l. Qed.

Lemma log_rel_aligned buf off l e :
  bytes_ok buf -> 0 <= off <= peb_size g -> log_rel cfg g buf off l e ->
  off mod write_align g = 0 -> e mod write_align g = 0.
Proof.
  intros Hb Ho Hl. pose proof (pow2_le32_pos _ (ok_align _ _ Hg)). revert Ho.
  induction Hl as [off|off sv i l e Hw Hl IH]; intros Ho Hm; [done|].
  destruct (slot_walk_bounds cfg g Hg _ off _ _ Hb ltac:(lia) Hw) as (?&?&_&Es).
  destruct (slot_size_spec cfg g Hg (sv_val_len sv)) as (_&_&Em).
  apply IH; [lia|]. apply mod_add_0; [lia|done|]. by rewrite Es.
Qed.

Lemma log_end_aligned buf : bytes_ok buf -> log_end cfg g buf mod write_align g = 0.
Proof.
  intros Hb. destruct (parsed_log cfg g Hg buf Hb) as [Hl _]. pose proof (ok_peb_size _ _ Hg).
  eapply log_rel_aligned; [exact Hb| |exact Hl|apply (al_hdr _ Ha)]. unfold_consts. lia.
Qed.

(** ** The index after a write *)

Lemma coherent_forget d d' bid :
  0 <= bid < n_buckets g -> coherent d -> (forall b, 0 <= b -> b <> bid -> bimg d' b = bimg d b) ->
  d_ix d' = blob_db_sidx_forget bid (d_ix d) -> coherent d'.
Proof.
  intros Hbid Hc Hw Hi. split; rewrite ?Hi.
  - eapply forget_wf; [apply (coh_wf _ _ _ _ Hc)|done].
  - intros b c Hb Hcur. eapply forget_cursor in Hcur; [|apply (coh_wf _ _ _ _ Hc)|done..].
    destruct Hcur as [Hne Hcur]. rewrite Hw by (done || lia). by apply (coh_cursor _ _ _ _ Hc).
  - intros id o c Hid Hl. eapply forget_lookup in Hl; [|apply (coh_wf _ _ _ _ Hc)|done..].
    pose proof (bucket_range cfg g Hg id).
    destruct Hl as [Hne Hl]. rewrite Hw by (done || lia). by eapply (coh_lookup _ _ _ _ Hc).
Qed.

(** The error path of every bucket write: forget the bucket, report the code. *)
Lemma forget_fail_spec {A} d0 d bid e :
  0 <= bid < n_buckets g -> coherent d0 -> (forall b, 0 <= b -> b <> bid -> bimg d b = bimg d0 b) -> d_ix d = d_ix d0 ->
  wp (ix (blob_db_sidx_forget bid);;; @mfail db A e) d (fun r d' =>
    r = Err e /\ coherent d' /\ d' = mk_db (d_st d) (d_geo d) (blob_db_sidx_forget bid (d_ix d)) (d_store d)).
Proof.
  intros Hb Hc Ho Hi. apply wp_bnd, wp_mod, wp_fail. split; [done|]. split; [|done].
  eapply (coherent_forget d0 _ bid); [done|done| |simpl; by rewrite Hi]. done.
Qed.

Lemma newest_head_snoc id limit l en :
  newest_head id limit (l ++ [en]) =
    if (e_id en =? id) && (e_off en <? limit) then Some en else newest_head id limit l.
Proof.
  unfold newest_head. rewrite last_such_app. cbn [last_such]. by destruct ((e_id en =? id) && (e_off en <? limit)).
Qed.

Lemma coherent_note d d' id fl p sz t :
  0 < id < 2 ^ 64 -> let bid := id mod n_buckets g in let e := log_end cfg g (bimg d bid) in
  coherent d -> wrote d d' bid (bimg d' bid) ->
  bucket_hdr_valid (bimg d' bid) bid = bucket_hdr_valid (bimg d bid) bid ->
  bucket_log cfg g (bimg d' bid) = bucket_log cfg g (bimg d bid) ++ [new_entry g e id fl p] ->
  log_end cfg g (bimg d' bid) = e + sz -> slot_foreign_at cfg g (bimg d' bid) (e + sz) = false ->
  0 < sz -> e + sz <= peb_size g ->
  d_ix d' = blob_db_sidx_note bid id e sz t (d_ix d) -> coherent d'.
Proof.
  intros Hid bid e Hc Hw Hv Hlog Hend Hfor Hsz Hfit Hi. pose proof (bucket_range cfg g Hg id) as Hbid. fold bid in Hbid.
  pose proof (coh_wf _ _ _ _ Hc) as Hwf. pose proof (log_end_small cfg g Hg d bid Hbid) as He. fold e in He.
  pose proof (ok_peb_size _ _ Hg). split; rewrite ?Hi.
  - apply (note_wf (SlotIndexLaws := IL)); [done..|lia|lia|lia].
  - intros b c Hb Hcur. apply (note_cursor (SlotIndexLaws := IL) (n_buckets g)) in Hcur; [|done|done|lia|lia|lia|done].
    fold bid in Hcur. destruct Hcur as [(-> & Hcur & ->)|(Hne & Hcur)].
    + destruct (coh_cursor _ _ _ _ Hc bid _ Hbid Hcur) as (Hval & _). rewrite Hv, Hend. done.
    + rewrite (wr_bimg _ _ _ _ _ Hw Hne). by apply (coh_cursor _ _ _ _ Hc).
  - intros id' o c Hid' Hl. apply (note_lookup (SlotIndexLaws := IL) (n_buckets g)) in Hl; [|done|done|lia|lia|lia|done].
    destruct Hl as [(-> & _ & ->)|(Hne & c0 & Hl)].
    + fold bid. exists (new_entry g e id fl p). split; [|done]. rewrite Hlog, newest_head_snoc. unfold e_id. simpl.
      rewrite Z.eqb_refl. destruct (Z.ltb_spec e (peb_size g)); [done|lia].
    + destruct (coh_lookup _ _ _ _ Hc id' o c0 Hid' Hl) as (en & Hn & Ho). exists en. split; [|done].
      destruct (decide (id' mod n_buckets g = bid)) as [Eb|Nb]; [|by rewrite (wr_bimg _ _ _ _ _ Hw Nb)].
      rewrite Eb, Hlog, newest_head_snoc in *. unfold e_id at 1. simpl.
      destruct (Z.eqb_spec id id'); [congruence|done].
Qed.

(** ** Writing a bucket *)

Lemma bucket_peb bid : 0 <= bid < n_buckets g -> 0 <= BLOB_DB_FIRST_BUCKET + bid < n_pebs g.
Proof. pose proof (ok_pebs _ _ Hg). unfold_consts. lia. Qed.

Lemma only_peb_wrote d d' bid b : only_peb d d' (BLOB_DB_FIRST_BUCKET + bid) b -> wrote d d' bid b.
Proof. intros []. by split. Qed.

Lemma bucket_write_spec d bid w b :
  0 <= bid < n_buckets g -> 0 <= w -> 0 < len b -> w + len b <= peb_size g -> w mod write_align g = 0 ->
  len b mod write_align g = 0 -> bytes_ok b ->
  wp (io (blob_db_store_write (bucket_offset g bid + w) b)) d (fun r d' =>
    works d r d' /\ d_ix d' = d_ix d /\ exists b', wrote d d' bid (splice w b' (bimg d bid)) /\
      match r with
      | Ok _ => prog_done (slice w (len b) (bimg d bid)) b b'
      | Err e => device_err e /\ prog_torn (slice w (len b) (bimg d bid)) b b'
      end).
Proof.
  intros Hbid Hw Hl0 Hf Hm1 Hm2 Hb. eapply wp_mono; [apply (peb_write_spec g); try done; by apply bucket_peb|].
  intros r d' (Hwk & b' & Ho & Hr). split; [done|]. split; [apply (op_ix _ _ _ _ Ho)|]. exists b'. split; [|done].
  by apply only_peb_wrote.
Qed.

(** ** Contents after an append *)

(** The flags and value a slot appended with these makes visible. *)
Definition slot_value (fl : Z) (p : bytes) : option (Z * bytes) :=
  if flag_set (Z.lor BLOB_DB_SLOT_F_SEALED fl) BLOB_DB_SLOT_F_TOMBSTONE then None else Some (Z.lor BLOB_DB_SLOT_F_SEALED fl, p).

Definition slot_bytes (fl : Z) (p : bytes) : option bytes := snd <$> slot_value fl p.

Lemma slot_snoc id' l off id fl p :
  flags_ok cfg fl -> 0 <= id < 2 ^ 64 -> len p <= MAX_PAYLOAD_LEN cfg ->
  slot_of id' (l ++ [new_entry g off id fl p]) = if decide (id' = id) then slot_value fl p else slot_of id' l.
Proof.
  intros Hf Hi Hp. unfold slot_of, live. rewrite newest_app.
  assert (newest id' [new_entry g off id fl p] = if decide (id' = id) then Some (new_entry g off id fl p) else None) as ->.
  { unfold newest. cbn [last_such new_entry e_intact andb]. unfold e_id. change (sv_id (e_sv (new_entry g off id fl p))) with id.
    case_decide as E; destruct (Z.eqb_spec id id'); congruence. }
  case_decide; [|done]. unfold slot_value. change (flag_set _ _) with (e_tomb (new_entry g off id fl p)). destruct (e_tomb _); [done|].
  cbn [option_fmap fmap option_map]. by rewrite (new_entry_payload cfg g Hg).
Qed.

Lemma newest_rot id l rot : Forall (fun x => e_intact x = false) rot -> newest id (l ++ rot) = newest id l.
Proof.
  intros Hr. rewrite newest_app. assert (newest id rot = None) as ->; [|done].
  apply newest_None. intros e He Hi. rewrite Forall_forall in Hr. apply list_elem_of_In, Hr in He. congruence.
Qed.

Lemma slot_rot id l rot : Forall (fun x => e_intact x = false) rot -> slot_of id (l ++ rot) = slot_of id l.
Proof. intros Hr. unfold slot_of, live. by rewrite newest_rot. Qed.

Lemma hdr_valid_splice w b buf bid :
  16 <= w -> w + len b <= len buf -> bucket_hdr_valid (splice w b buf) bid = bucket_hdr_valid buf bid.
Proof.
  intros Hw Hl. rewrite <- (bucket_hdr_valid_slice (splice w b buf)), slice_splice_ne by lia. by rewrite bucket_hdr_valid_slice.
Qed.

(** The event no write can rule out: torn bytes whose CRC verifies. *)
Definition collision (buf im : bytes) : Prop :=
  exists off, 0 <= off /\ crc_ok_at buf off = true /\
    prog_torn (erased (len im)) im (slice off (len im) buf) /\ slice off (len im) buf <> im.

(** What an append of [im] as a slot of [id] carrying [v] may leave: [after]
    when it completed, and when it did not, the old contents or the new ones,
    unless the torn bytes collide. *)
Definition set_value d d' (id : Z) (v : option (Z * bytes)) : Prop :=
  forall id', slots d' id' = if decide (id' = id) then v else slots d id'.

Definition same_contents d d' : Prop := forall id', slots d' id' = slots d id'.

Lemma set_value_contents d d' id v id' : set_value d d' id v -> contents d' id' = if decide (id' = id) then snd <$> v else contents d id'.
Proof. intros Hs. unfold contents. rewrite Hs. by case_decide. Qed.

Lemma same_contents_at d d' id' : same_contents d d' -> contents d' id' = contents d id'.
Proof. intros Hs. unfold contents. by rewrite Hs. Qed.

Lemma appended_inv d d' id fl p :
  0 < id < 2 ^ 64 -> let bid := id mod n_buckets g in let buf := bimg d bid in let e := log_end cfg g buf in
  db_inv d -> coherent d' -> bucket_hdr_valid buf bid = true -> blank_from buf e ->
  flags_ok cfg fl -> bytes_ok p -> len p <= MAX_PAYLOAD_LEN cfg -> e + slot_size_for g (len p) <= peb_size g ->
  wrote d d' bid (splice e (slot_image g id fl p) buf) ->
  db_inv d' /\ set_value d d' id (slot_value fl p).
Proof.
  intros Hid bid buf e Hinv Hc' Hv Hbl Hfl Hpb Hp Hfit Hw.
  pose proof (bucket_range cfg g Hg id) as Hbid. fold bid in Hbid.
  pose proof (bimg_ok cfg g Hg d bid Hbid) as Hok. fold buf in Hok.
  destruct (append_log cfg g Hg buf id fl p Hok Hbl Hfl ltac:(lia) Hpb Hp Hfit) as (Hok' & Hlog & Hend & Hbl').
  fold e in Hlog, Hend, Hbl', Hok'. pose proof (log_end_bounds cfg g Hg buf (proj2 Hok)) as He.
  fold e in He. unfold_consts. pose proof (len_slot_image cfg g Hg id fl p) as Him. pose proof (proj1 Hok) as Hlb.
  assert (bucket_hdr_valid (splice e (slot_image g id fl p) buf) bid = true) as Hv'.
  { rewrite hdr_valid_splice by lia. done. }
  split.
  - eapply (inv_wrote d d' bid); [done|done|done|done|]. intros _. destruct (inv_bucket _ Hinv bid Hbid Hv) as [_ Hids].
    pose proof (slot_size_pos cfg g Hg (len p) (len_nonneg p)).
    destruct (blank_stop cfg g (splice e (slot_image g id fl p) buf) (e + slot_size_for g (len p))) as (_ & Hf & Ht);
      [apply Hok'|lia|done|]. split.
    + unfold tail_ok. by rewrite Hend, Hf, Ht.
    + intros en. rewrite Hlog, elem_of_app, list_elem_of_singleton. intros [Hen| ->] Hi; [by apply Hids|].
      unfold e_id. simpl. done.
  - intros id'. rewrite (slots_wrote _ _ _ _ id' Hw). unfold slots, bucket_slot. rewrite Hv', Hlog.
    rewrite slot_snoc by (done || lia). repeat case_decide; subst; try done.
    assert (id' mod n_buckets g = bid) as -> by done. fold buf. by rewrite Hv.
Qed.

Lemma torn_inv d d' id fl p r :
  0 < id < 2 ^ 64 -> let bid := id mod n_buckets g in let buf := bimg d bid in let e := log_end cfg g buf in
  db_inv d -> coherent d' -> bucket_hdr_valid buf bid = true -> blank_from buf e ->
  flags_ok cfg fl -> bytes_ok p -> len p <= MAX_PAYLOAD_LEN cfg -> e + slot_size_for g (len p) <= peb_size g ->
  let im := slot_image g id fl p in prog_torn (erased (len im)) im r -> wrote d d' bid (splice e r buf) ->
  collision (bimg d' bid) im \/
  (db_inv d' /\ (same_contents d d' \/ set_value d d' id (slot_value fl p))).
Proof.
  intros Hid bid buf e Hinv Hc' Hv Hbl Hfl Hpb Hp Hfit im Hr Hw.
  pose proof (bucket_range cfg g Hg id) as Hbid. fold bid in Hbid.
  pose proof (bimg_ok cfg g Hg d bid Hbid) as Hok. fold buf in Hok.
  pose proof (log_end_bounds cfg g Hg buf (proj2 Hok)) as He. fold e in He. unfold BLOB_DB_BUCKET_DATA_OFF in He.
  pose proof (len_slot_image cfg g Hg id fl p) as Him. fold im in Him. pose proof (proj1 Hok) as Hlb.
  pose proof Hr as (Hlr & _).
  assert (slice e (len im) (splice e r buf) = r) as Hs by (rewrite <- Hlr; apply slice_splice_same; lia).
  destruct (decide (r = im)) as [->|Hne]; [right|].
  { destruct (appended_inv d d' id fl p) as [Hi Hsv]; [done..|]. auto. }
  destruct (crc_ok_at (splice e r buf) e) eqn:Ec; [left|right].
  { exists e. rewrite (wr_img _ _ _ _ Hw), Hs. split_and!; [lia|done..]. }
  destruct (torn_append_log cfg g Hg buf id fl p r Hok Hbl Hfl ltac:(lia) Hp Hfit) as [?|(Hok' & Ht & rot & Hlog & Hrot)];
    [by rewrite <- Him|fold e; congruence|done|]. fold e in Hok', Ht, Hlog.
  assert (bucket_hdr_valid (splice e r buf) bid = true) as Hv' by (rewrite hdr_valid_splice by lia; done).
  split; [|left].
  - eapply (inv_wrote d d' bid); [done|done|done|done|]. intros _. destruct (inv_bucket _ Hinv bid Hbid Hv) as [_ Hids].
    split; [done|]. intros en. rewrite Hlog, elem_of_app. intros [Hen|Hen] Hi; [by apply Hids|].
    rewrite Forall_forall in Hrot. apply list_elem_of_In, Hrot in Hen. congruence.
  - intros id'. rewrite (slots_wrote _ _ _ _ id' Hw). unfold slots, bucket_slot. rewrite Hv', Hlog, slot_rot by done.
    case_decide as E; [|done]. rewrite E. fold buf. by rewrite Hv.
Qed.

Record appended d d' (r : res unit) (id fl : Z) (p : bytes) : Prop := {
  ap_works : works d r d';
  ap_st : d_st d' = d_st d;
  ap_geo : d_geo d' = d_geo d;
  ap_coh : coherent d';
  ap_other : forall q, q <> BLOB_DB_FIRST_BUCKET + id mod n_buckets g -> img (d_store d') q = img (d_store d) q;
  ap_valid : bucket_hdr_valid (bimg d' (id mod n_buckets g)) (id mod n_buckets g) = true;
  ap_log : is_ok r = true -> let buf := bimg d (id mod n_buckets g) in
    bucket_log cfg g (bimg d' (id mod n_buckets g)) = bucket_log cfg g buf ++ [new_entry g (log_end cfg g buf) id fl p];
  ap_res : match r with
    | Ok _ => db_inv d' /\ set_value d d' id (slot_value fl p)
    | Err er => device_err er /\
        (collision (bimg d' (id mod n_buckets g)) (slot_image g id fl p) \/
         (db_inv d' /\ (same_contents d d' \/ set_value d d' id (slot_value fl p))))
    end;
}.

Lemma append_slot_spec d id fl p :
  0 < id < 2 ^ 64 -> let bid := id mod n_buckets g in let buf := bimg d bid in let e := log_end cfg g buf in
  db_inv d -> bucket_hdr_valid buf bid = true -> torn_at cfg g buf e = false ->
  flags_ok cfg fl -> bytes_ok p -> len p <= MAX_PAYLOAD_LEN cfg -> e + slot_size_for g (len p) <= peb_size g ->
  wp (append_slot cfg g bid e id fl p) d (fun r d' => appended d d' r id fl p).
Proof.
  intros Hid bid buf e Hinv Hv Ht Hfl Hpb Hp Hfit. pose proof (bucket_range cfg g Hg id) as Hbid. fold bid in Hbid.
  pose proof (bimg_ok cfg g Hg d bid Hbid) as Hok. fold buf in Hok.
  pose proof (log_end_bounds cfg g Hg buf (proj2 Hok)) as He. fold e in He. unfold BLOB_DB_BUCKET_DATA_OFF in He.
  pose proof (len_slot_image cfg g Hg id fl p) as Him. pose proof (proj1 Hok) as Hlb. pose proof (len_nonneg p).
  pose proof (slot_size_pos cfg g Hg (len p) ltac:(lia)). pose proof (pow2_le32_pos _ (ok_align _ _ Hg)).
  pose proof (inv_coh _ Hinv) as Hc.
  assert (blank_from buf e) as Hbl.
  { destruct (bi_tail _ _ (inv_bucket _ Hinv bid Hbid Hv)) as [_ Hb]. fold buf e in Hb. by rewrite Ht in Hb. }
  unfold append_slot, append_slot2. rewrite app_nil_l.
  destruct (Z.gtb_spec (len p) (MAX_PAYLOAD_LEN cfg)); [lia|].
  destruct (Z.gtb_spec (write_align g) BLOB_DB_MAX_WRITE_ALIGN); [unfold BLOB_DB_MAX_WRITE_ALIGN in *; lia|].
  apply wp_bnd, wp_try. eapply wp_mono.
  { apply (bucket_write_spec d bid e); [done|lia|lia|lia| | |by apply bytes_ok_slot_image].
    - by apply log_end_aligned, Hok.
    - rewrite Him. apply (slot_size_spec cfg g Hg). }
  intros r d1 (Hwk & Hix & b' & Hw & Hr). fold buf in Hw, Hr. rewrite (blank_slice buf e) in Hr by (done || lia).
  destruct r as [[]|er]; simpl.
  - apply prog_done_erased in Hr; [|done]. subst b'.
    destruct (append_log cfg g Hg buf id fl p Hok Hbl Hfl ltac:(lia) Hpb Hp Hfit) as (Hok' & Hlog & Hend & Hbl').
    fold e in Hok', Hlog, Hend, Hbl'. apply wp_mod.
    set (d2 := mk_db _ _ _ _). assert (bimg d2 bid = splice e (slot_image g id fl p) buf) as Hb2 by apply (wr_img _ _ _ _ Hw).
    assert (wrote d d2 bid (splice e (slot_image g id fl p) buf)) as Hw2 by (destruct Hw; by split).
    assert (coherent d2) as Hc2.
    { apply (coherent_note d d2 id fl p (slot_size_for g (len p)) (flag_set fl BLOB_DB_SLOT_F_TOMBSTONE));
        [done|done|fold bid; by rewrite Hb2| | | | |lia|done|].
      - fold bid. rewrite Hb2. rewrite hdr_valid_splice by lia. done.
      - fold bid. by rewrite Hb2.
      - fold bid. by rewrite Hb2.
      - fold bid buf e. rewrite Hb2. apply (blank_stop cfg g); [apply Hok'|lia|done].
      - unfold d2. simpl. fold bid buf e. by rewrite Hix. }
    split; try done; try apply Hw2; [fold bid; by rewrite Hb2, hdr_valid_splice by lia|intros _; fold bid; by rewrite Hb2|by apply appended_inv].
  - destruct Hr as [Hde Hr]. eapply wp_mono.
    { apply (forget_fail_spec d d1 bid er Hbid Hc); [|done]. intros b _ Hne. by apply (wr_bimg _ _ _ _ _ Hw). }
    intros r d2 (-> & Hc2 & ->). destruct Hw as [Hst Hge Him' Hot].
    assert (len b' = len (slot_image g id fl p)) as Hlb' by apply Hr.
    split; try done; [fold bid; change (bimg _ bid) with (bimg d1 bid); by rewrite Him', hdr_valid_splice by lia|].
    split; [done|]. eapply torn_inv; [done..|]. by split.
Qed.

(** ** Formatting a bucket *)

(** A bucket header as format and compaction write it. *)
Definition new_hdr (bid gen : Z) : blob_db_bucket_hdr :=
  mk_bucket_hdr BUCKET_MAGIC bid 0 gen (hdr_crc32 (enc_bucket_hdr (mk_bucket_hdr BUCKET_MAGIC bid 0 gen 0))).

Lemma len_new_hdr bid gen : len (enc_bucket_hdr (new_hdr bid gen)) = 16.
Proof. unfold enc_bucket_hdr. simpl. lens. Qed.

Lemma hdr_crc32_prefix m b rs gn c c' :
  len m = 4 ->
  hdr_crc32 (enc_bucket_hdr (mk_bucket_hdr m b rs gn c)) = hdr_crc32 (enc_bucket_hdr (mk_bucket_hdr m b rs gn c')).
Proof.
  intros Hm. unfold hdr_crc32, enc_bucket_hdr. cbn [bh_magic bh_bucket_id bh_reserved bh_gen bh_crc32]. f_equal.
  assert (forall x, zt (len (m ++ le 2 b ++ le 2 rs ++ le 4 gn ++ le 4 x) - 4) (m ++ le 2 b ++ le 2 rs ++ le 4 gn ++ le 4 x)
    = m ++ le 2 b ++ le 2 rs ++ le 4 gn) as Hx; [|by rewrite !Hx].
  intros x. replace (m ++ le 2 b ++ le 2 rs ++ le 4 gn ++ le 4 x) with ((m ++ le 2 b ++ le 2 rs ++ le 4 gn) ++ le 4 x)
    by by rewrite <- !app_assoc.
  rewrite zt_slice. apply slice_here. lens.
Qed.

Lemma new_hdr_valid bid gen t :
  0 <= bid < n_buckets g -> 0 <= gen < 2 ^ 32 -> bucket_hdr_valid (enc_bucket_hdr (new_hdr bid gen) ++ t) bid = true.
Proof.
  intros Hb Hgen. pose proof (ok_pebs _ _ Hg). unfold bucket_hdr_valid.
  rewrite slice_here by apply len_new_hdr. rewrite dec_enc_bucket_hdr.
  - unfold new_hdr at 2 3. cbn [bh_magic bh_crc32 bh_bucket_id]. unfold new_hdr at 1. cbn [bh_crc32].
    rewrite bool_decide_true by done. rewrite (hdr_crc32_prefix _ _ _ _ 0 (bh_crc32 (new_hdr bid gen))) by done.
    rewrite Z.eqb_refl. unfold new_hdr. simpl. by rewrite Z.eqb_refl.
  - unfold bucket_hdr_wf, new_hdr. simpl. pose proof (crc32_range (zt (len (enc_bucket_hdr (mk_bucket_hdr BUCKET_MAGIC bid 0 gen 0)) - 4)
      (enc_bucket_hdr (mk_bucket_hdr BUCKET_MAGIC bid 0 gen 0)))). unfold hdr_crc32. unfold_consts. split_and!; lia || done.
Qed.

Definition fmt_image (bid : Z) : bytes := enc_bucket_hdr (new_hdr bid 1) ++ erased (peb_size g - 16).

Lemma fmt_image_log bid :
  0 <= bid < n_buckets g ->
  let buf := fmt_image bid in
  img_ok g buf /\ bucket_hdr_valid buf bid = true /\ bucket_log cfg g buf = [] /\ log_end cfg g buf = 16 /\
  blank_from buf 16.
Proof.
  intros Hb buf. pose proof (ok_peb_size _ _ Hg). pose proof (len_new_hdr bid 1) as Hh.
  assert (img_ok g buf) as Hok.
  { split; [unfold buf, fmt_image; rewrite len_app, Hh, len_erased; lia|]. apply bytes_ok_app. split; [|apply bytes_ok_erased].
    unfold enc_bucket_hdr. rewrite !bytes_ok_app. split_and!; try apply bytes_ok_le. unfold new_hdr. simpl.
    repeat constructor; lia. }
  assert (blank_from buf 16) as Hbl.
  { intros i Hi Hlt. unfold buf, fmt_image, len in *. rewrite lookup_app_r by lia.
    apply lookup_erased. destruct Hok as [Hl _]. unfold len, buf, fmt_image in Hl. lia. }
  destruct (parsed_det cfg g Hg buf [] 16) as [<- <-]; [apply Hok| |].
  - split; [constructor|]. apply (blank_stop cfg g); [apply Hok|lia|done].
  - split_and!; try done. by apply new_hdr_valid.
Qed.

Lemma coherent_begin d d' bid buf :
  0 <= bid < n_buckets g -> coherent d -> wrote d d' bid buf ->
  d_ix d' = blob_db_sidx_begin bid 16 (d_ix d) ->
  bucket_hdr_valid buf bid = true -> log_end cfg g buf = 16 -> slot_foreign_at cfg g buf 16 = false -> coherent d'.
Proof.
  intros Hbid Hc Hw Hi Hv He Hf. split; rewrite ?Hi.
  - eapply begin_wf; [apply (coh_wf _ _ _ _ Hc)|done|lia].
  - intros b c Hb Hcur. eapply begin_cursor in Hcur; [|apply (coh_wf _ _ _ _ Hc)|done|done|lia].
    destruct Hcur as [[-> ->]|[Hne Hcur]]; [by rewrite (wr_img _ _ _ _ Hw), He|].
    rewrite (wr_bimg _ _ _ _ _ Hw Hne). by apply (coh_cursor _ _ _ _ Hc).
  - intros id o c Hid Hl. eapply begin_lookup in Hl; [|apply (coh_wf _ _ _ _ Hc)|done|lia|done].
    destruct Hl as [Hne Hl]. rewrite (wr_bimg _ _ _ _ _ Hw Hne). by eapply (coh_lookup _ _ _ _ Hc).
Qed.

Lemma bucket_replace_spec d bid b :
  0 <= bid < n_buckets g -> len b <= peb_size g -> len b mod write_align g = 0 -> bytes_ok b ->
  wp (io (blob_db_store_replace (bucket_offset g bid) b)) d (fun r d' =>
    works d r d' /\ d_ix d' = d_ix d /\ exists b', wrote d d' bid b' /\
      match r with
      | Ok _ => b' = b ++ erased (peb_size g - len b)
      | Err e => device_err e /\ (blob_db_store_replace_is_atomic (S := S) = true ->
          b' = bimg d bid \/ b' = b ++ erased (peb_size g - len b))
      end).
Proof.
  intros Hbid Hf Hm Hb. eapply wp_mono; [apply (peb_replace_spec g); try done; by apply bucket_peb|].
  intros r d' (Hwk & b' & Ho & Hr). split; [done|]. split; [apply (op_ix _ _ _ _ Ho)|]. exists b'. split; [|done].
  by apply only_peb_wrote.
Qed.

(** A bucket that is formatted becomes empty and ready to append to. When the
    format is cut short, either its header does not verify or the index still
    does not claim anything about it. *)
Lemma format_bucket_spec d bid :
  0 <= bid < n_buckets g -> coherent d ->
  wp (format_bucket g bid) d (fun r d' =>
    works d r d' /\ coherent d' /\ exists b', wrote d d' bid b' /\
    match r with Ok _ => b' = fmt_image bid | Err er => device_err er end).
Proof.
  intros Hbid Hc. pose proof (len_new_hdr bid 1) as Hlen. pose proof (ok_peb_size _ _ Hg).
  destruct (fmt_image_log bid Hbid) as (Hok & Hv & Hl & He & Hbl). unfold format_bucket.
  apply wp_bnd, wp_try. fold (new_hdr bid 1). eapply wp_mono.
  { apply (bucket_replace_spec d bid); [done|lia|rewrite Hlen; apply (al_hdr _ Ha)|].
    destruct Hok as [_ Hb]. by apply bytes_ok_app in Hb as [? _]. }
  intros r d1 (Hwk & Hix & b' & Hw & Hr). destruct r as [[]|er]; cbv beta iota.
  - apply wp_mod. split; [done|]. rewrite Hlen in Hr. fold (fmt_image bid) in Hr. subst b'.
    set (d2 := mk_db _ _ _ _). assert (wrote d d2 bid (fmt_image bid)) as Hw2 by (destruct Hw; by split).
    split; [|by exists (fmt_image bid)]. apply (coherent_begin d d2 bid (fmt_image bid)); try done.
    + unfold d2. simpl. by rewrite Hix.
    + apply (blank_stop cfg g); [apply Hok|lia|done].
  - eapply wp_mono.
    { apply (forget_fail_spec d d1 bid er Hbid Hc); [|done]. intros b _ Hne. by apply (wr_bimg _ _ _ _ _ Hw). }
    intros r d2 (-> & Hc2 & ->). split; [done|]. split; [done|]. exists b'. destruct Hr, Hw. split; [by split|done].
Qed.
End bucket.
