(* ===== verification/Compact.v ===== *)
(** Per-bucket compaction and its crash recovery: the in-place rewrite of a
    bucket image, its commit through the sealed scratch sector, and the mount-time
    restore. *)

From S2P Require Import Prelude Layout Store SlotIndexIface Image Core.

Section defs.
Context (cfg : config) (g : geom) `{Crc}.

(** The loop of [build_compacted_image()]: [buf] is rewritten in place. *)
Fixpoint compact_loop (fuel : nat) (buf : bytes) (new_cursor cursor : Z) : bytes * Z * Z :=
  match fuel with
  | O => (buf, new_cursor, cursor)
  | S fuel =>
      match slot_walk_at cfg g buf cursor with
      | None => (buf, new_cursor, cursor)
      | Some (sv, intact) =>
          if intact && negb (flag_set (sv_flags sv) BLOB_DB_SLOT_F_TOMBSTONE) &&
             negb (slot_superseded cfg g buf cursor sv)
          then
            let buf := if new_cursor =? cursor then buf
                       else splice new_cursor (slice cursor (sv_total_size sv) buf) buf in
            compact_loop fuel buf (new_cursor + sv_total_size sv) (cursor + sv_total_size sv)
          else compact_loop fuel buf new_cursor (cursor + sv_total_size sv)
      end
  end.

(** The rewritten buffer, the image length, and where the walk stopped. *)
Definition build_compacted_image (buf : bytes) (bid : Z) : bytes * Z * Z :=
  let old_gen := bh_gen (dec_bucket_hdr buf) in
  let '(buf, new_cursor, cursor) :=
    compact_loop (walk_fuel g) buf BLOB_DB_BUCKET_DATA_OFF BLOB_DB_BUCKET_DATA_OFF in
  let b0 := mk_bucket_hdr BUCKET_MAGIC bid 0 (u32 (old_gen + 1)) 0 in
  let bhdr := mk_bucket_hdr BUCKET_MAGIC bid 0 (u32 (old_gen + 1)) (hdr_crc32 (enc_bucket_hdr b0)) in
  (splice 0 (enc_bucket_hdr bhdr) buf, new_cursor, cursor).

Definition compaction_may_drop_tail (old_buf : bytes) (stop : Z) : res unit :=
  if slot_foreign_at cfg g old_buf stop then Err ENOTSUP
  else
    let span := slot_size_for g (MAX_PAYLOAD_LEN cfg) in
    if forallb (fun b => b =? 255) (zd (stop + span) old_buf) then Ok tt else Err EIO.

Definition scratch_seal_len : Z :=
  let a := if write_align g =? 0 then 1 else write_align g in round_up 16 a.

Definition scratch_seal_off : Z := peb_size g - scratch_seal_len.

(** The seal [scratch_seal_write()] stages for an image. *)
Definition seal_bytes (image : bytes) : bytes :=
  let s0 := mk_scratch_seal SCRATCH_MAGIC (u32 (len image)) (crc32_ieee image) 0 in
  let seal := mk_scratch_seal SCRATCH_MAGIC (u32 (len image)) (crc32_ieee image) (hdr_crc32 (enc_scratch_seal s0)) in
  enc_scratch_seal seal ++ erased (scratch_seal_len - 16).

Definition scratch_seal_valid (image : bytes) : option Z :=
  let sb := slice scratch_seal_off 16 image in
  let seal := dec_scratch_seal sb in
  if negb (bool_decide (ss_magic seal = SCRATCH_MAGIC)) then None
  else if negb (ss_seal_crc32 seal =? hdr_crc32 sb) then None
  else if (ss_image_len seal <? BLOB_DB_BUCKET_DATA_OFF) || (ss_image_len seal >? scratch_seal_off) then None
  else if negb (ss_image_crc32 seal =? crc32_ieee (zt (ss_image_len seal) image)) then None
  else Some (ss_image_len seal).

Context {S I : Type} `{!Store S} `{!SlotIndex I}.
Notation db := (db S I).

Definition scratch_seal_write (scratch_off : Z) (image : bytes) : M db unit :=
  io (blob_db_store_write (scratch_off + scratch_seal_off) (seal_bytes image)).

(** [COMPACT_OR_WEDGE]. *)
Definition or_wedge (m : M db unit) : M db unit :=
  let* rc := mtry m in
  match rc with
  | Ok _ => mret tt
  | Err e => st_mod (set_wedged true);;; mfail e
  end.

Definition compact_commit (bid : Z) (new_buf : bytes) (new_len : Z) : M db unit :=
  let scratch_off := peb_offset g BLOB_DB_SCRATCH_SECTOR in
  let bucket_off := bucket_offset g bid in
  let image := zt new_len new_buf in
  if new_len >? scratch_seal_off then mfail ENOSPC
  else if blob_db_store_replace_is_atomic (S := S) then io (blob_db_store_replace bucket_off image)
  else
    io (blob_db_store_erase scratch_off (peb_size g));;;
    io (blob_db_store_write scratch_off image);;;
    scratch_seal_write scratch_off image;;;
    or_wedge (io (blob_db_store_erase bucket_off (peb_size g)));;;
    or_wedge (io (blob_db_store_write bucket_off image));;;
    or_wedge (io (blob_db_store_erase scratch_off (peb_size g))).

(** Re-indexing the image in RAM after a compaction: the index it leaves and
    the offset the loop stopped at. *)
Fixpoint reindex (fuel : nat) (buf : bytes) (bid new_len off : Z) (x : I) : I * Z :=
  match fuel with
  | O => (x, off)
  | Datatypes.S fuel =>
      if off <? new_len then
        match slot_view_at cfg g buf off with
        | Some sv =>
            reindex fuel buf bid new_len (off + sv_total_size sv)
              (blob_db_sidx_note bid (sv_id sv) off (sv_total_size sv)
                 (flag_set (sv_flags sv) BLOB_DB_SLOT_F_TOMBSTONE) x)
        | None => (x, off)
        end
      else (x, off)
  end.

Definition compact_bucket (bid : Z) : M db unit :=
  let* buf := read_bucket g bid in
  if negb (bucket_hdr_valid buf bid) then mfail EINVAL
  else
    let '(buf, new_len, stop) := build_compacted_image buf bid in
    mlift (compaction_may_drop_tail buf stop);;;
    let* rc := mtry (compact_commit bid buf new_len) in
    match rc with
    | Err e => ix (blob_db_sidx_forget bid);;; mfail e
    | Ok _ =>
        ix (blob_db_sidx_begin bid BLOB_DB_BUCKET_DATA_OFF);;;
        let* off := ix_get (fun x => snd (reindex (walk_fuel g) buf bid new_len BLOB_DB_BUCKET_DATA_OFF x)) in
        ix (fun x => fst (reindex (walk_fuel g) buf bid new_len BLOB_DB_BUCKET_DATA_OFF x));;;
        if off =? new_len then mret tt else ix (blob_db_sidx_forget bid)
    end.

(** [scratch_sealed_bucket()] returns -1 for "no complete image", which is the
    value of -EPERM: the model keeps the two indistinguishable, as the code
    does. On success it gives the bucket, the buffer and the image length. *)
Definition scratch_sealed_bucket : M db (Z * bytes * Z) :=
  let scratch_off := peb_offset g BLOB_DB_SCRATCH_SECTOR in
  let* sb := io (blob_db_store_read (scratch_off + scratch_seal_off) 16) in
  let seal := dec_scratch_seal sb in
  if negb (bool_decide (ss_magic seal = SCRATCH_MAGIC)) || negb (ss_seal_crc32 seal =? hdr_crc32 sb)
  then mfail EPERM
  else
    let* buf := io (blob_db_store_read scratch_off (peb_size g)) in
    match scratch_seal_valid buf with
    | None => mfail EPERM
    | Some image_len =>
        let bid := bh_bucket_id (dec_bucket_hdr buf) in
        if (bid >=? n_buckets g) || negb (bucket_hdr_valid buf bid) then mfail EPERM
        else mret (bid, buf, image_len)
    end.

Definition recover_compaction : M db unit :=
  let scratch_off := peb_offset g BLOB_DB_SCRATCH_SECTOR in
  let* rc := mtry scratch_sealed_bucket in
  match rc with
  | Err EPERM => mret tt
  | Err e => mfail e
  | Ok (bid, buf, image_len) =>
      io (blob_db_store_erase (bucket_offset g bid) (peb_size g));;;
      io (blob_db_store_write (bucket_offset g bid) (zt image_len buf));;;
      io (blob_db_store_erase scratch_off (peb_size g))
  end.
End defs.
