(* ===== verification/CompactImage.v ===== *)
(** What compaction does to a bucket image: it keeps exactly the live slots, in
    order, and therefore the value of every id. *)

From S2P Require Import Prelude Layout Store SlotIndexIface Image Core CoreRead Lookup Append Compact Bucket.

(** ** The reference: which slots survive *)

Fixpoint survivors (l : list entry) : list entry :=
  match l with
  | [] => []
  | e :: l =>
      if e_intact e && negb (e_tomb e) && (match newest (e_id e) l with Some _ => false | None => true end)
      then e :: survivors l else survivors l
  end.

(** Slots laid out one after the other from [o]. *)
Fixpoint reloc (o : Z) (l : list entry) : list entry :=
  match l with
  | [] => []
  | e :: l => mk_entry o (e_sv e) (e_intact e) (e_bytes e) :: reloc (o + e_size e) l
  end.

Definition total_size (l : list entry) : Z := foldr (fun e n => e_size e + n) 0 l.
Definition all_bytes (l : list entry) : bytes := foldr (fun e b => e_bytes e ++ b) [] l.

Lemma newest_cons id e l :
  newest id (e :: l) = match newest id l with
                       | Some x => Some x
                       | None => if e_intact e && (e_id e =? id) then Some e else None
                       end.
Proof. done. Qed.

(** An id's newest survivor is its live slot. *)
Lemma newest_survivors id l : newest id (survivors l) = live id l.
Proof.
  induction l as [|e l IH]; [done|]. cbn [survivors]. unfold live in *. rewrite newest_cons.
  destruct (e_intact e) eqn:Ei; cbn [andb]; [|by destruct (newest id l)].
  destruct (Z.eqb_spec (e_id e) id) as [<-|Hne].
  - destruct (newest (e_id e) l) as [x|] eqn:En; [by rewrite andb_false_r|].
    destruct (e_tomb e) eqn:Et; cbn [negb andb]; [done|]. rewrite newest_cons, IH, Ei, Z.eqb_refl. done.
  - assert (newest id (if negb (e_tomb e) && match newest (e_id e) l with Some _ => false | None => true end
      then e :: survivors l else survivors l) = newest id (survivors l)) as ->.
    { destruct (_ && _); [|done]. rewrite newest_cons, Ei. destruct (Z.eqb_spec (e_id e) id); [done|].
      by destruct (newest id (survivors l)). }
    rewrite IH. by destruct (newest id l).
Qed.

Lemma survivors_elem e l : e ∈ survivors l -> e ∈ l /\ e_intact e = true /\ e_tomb e = false.
Proof.
  induction l as [|x l IH]; cbn [survivors]; [by intros ?%elem_of_nil|].
  destruct (e_intact x && negb (e_tomb x) && _) eqn:E.
  - apply andb_true_iff in E as [[Hi Ht%negb_true_iff]%andb_true_iff _].
    intros [->|He]%elem_of_cons; [split_and!; [apply list_elem_of_here|done..]|].
    destruct (IH He). split; [by apply list_elem_of_further|done].
  - intros He. destruct (IH He). split; [by apply list_elem_of_further|done].
Qed.

Lemma slot_survivors id l : slot_of id (survivors l) = slot_of id l.
Proof.
  unfold slot_of. f_equal. unfold live at 1. rewrite newest_survivors. destruct (live id l) as [e|] eqn:E; [|done].
  assert (e_tomb e = false) as ->; [|done]. rewrite <- newest_survivors in E.
  apply newest_Some in E as (_ & _ & He). by apply survivors_elem in He as (_ & _ & ?).
Qed.

Lemma newest_reloc id o l :
  match newest id l with
  | Some e => exists o', newest id (reloc o l) = Some (mk_entry o' (e_sv e) (e_intact e) (e_bytes e))
  | None => newest id (reloc o l) = None
  end.
Proof.
  revert o. induction l as [|e l IH]; intros o; [done|]. cbn [reloc]. rewrite !newest_cons.
  specialize (IH (o + e_size e)). destruct (newest id l) as [x|].
  - destruct IH as [o' ->]. by exists o'.
  - rewrite IH. unfold e_id. simpl. destruct (e_intact e && (sv_id (e_sv e) =? id)); [by exists o|done].
Qed.

Lemma slot_reloc id o l : slot_of id (reloc o l) = slot_of id l.
Proof.
  unfold slot_of, live. pose proof (newest_reloc id o l) as Hn. destruct (newest id l) as [e|]; [|by rewrite Hn].
  destruct Hn as [o' ->]. unfold e_tomb, e_payload. simpl. by destruct (flag_set _ _).
Qed.

Lemma reloc_elem en o l :
  en ∈ reloc o l -> exists e, e ∈ l /\ e_sv en = e_sv e /\ e_intact en = e_intact e /\ e_bytes en = e_bytes e.
Proof.
  revert o. induction l as [|e l IH]; intros o; cbn [reloc]; [by intros ?%elem_of_nil|].
  intros [->|He]%elem_of_cons; [exists e; split; [apply list_elem_of_here|done]|].
  destruct (IH _ He) as (x & Hx & ?). exists x. split; [by apply list_elem_of_further|done].
Qed.

Section image.
Context (cfg : config) (g : geom) `{Crc} (Hg : geom_ok cfg g) {CL : CrcLaws _}.

(** A slot is read from its offset on. *)
Lemma slices_from (buf buf' : bytes) off a n :
  (forall i, off <= Z.of_nat i -> buf' !! i = buf !! i) -> 0 <= off -> off <= a -> slice a n buf' = slice a n buf.
Proof.
  intros Hi Ho Ha. apply list_eq. intros i. rewrite !lookup_slice by lia. case_decide; [|done]. apply Hi. lia.
Qed.

Lemma slices_upto (buf buf' : bytes) off a n :
  (forall i, Z.of_nat i < off -> buf' !! i = buf !! i) -> 0 <= a -> a + n <= off -> slice a n buf' = slice a n buf.
Proof.
  intros Hi Ho Ha. apply list_eq. intros i. rewrite !lookup_slice by lia. case_decide; [|done]. apply Hi. lia.
Qed.

Lemma slot_walk_from buf buf' off :
  bytes_ok buf -> 0 <= off -> (forall i, off <= Z.of_nat i -> buf' !! i = buf !! i) ->
  slot_walk_at cfg g buf' off = slot_walk_at cfg g buf off /\
  slot_foreign_at cfg g buf' off = slot_foreign_at cfg g buf off.
Proof.
  intros Hb Ho Hi. pose proof (rd2_nonneg buf (off + 2) Hb).
  assert (forall n k, 0 <= k -> slice (off + k) n buf' = slice (off + k) n buf) as Hs.
  { intros n k ?. eapply slices_from; [done|lia..]. }
  assert (forall n k, 0 <= k -> rd n (off + k) buf' = rd n (off + k) buf) as Hrd.
  { intros n k ?. unfold rd. by rewrite Hs. }
  assert (rd 1 off buf' = rd 1 off buf) as E1 by (rewrite <- (Z.add_0_r off); by apply Hrd).
  assert (crc_ok_at buf' off = crc_ok_at buf off) as Ec.
  { unfold crc_ok_at. rewrite E1, !Hrd by lia. set (vl := rd 2 (off + 2) buf).
    rewrite <- Z.add_assoc, !Hrd by lia. by rewrite Hs by lia. }
  rewrite !slot_walk_at_eq, !slot_foreign_at_eq by done. rewrite E1, !Hrd, Ec by lia. done.
Qed.

Lemma total_size_app l1 l2 : total_size (l1 ++ l2) = total_size l1 + total_size l2.
Proof. unfold total_size. induction l1 as [|e l1 IH]; simpl; lia. Qed.

(** The walk of [compact_loop]: it reads only what it has not written yet. *)
Lemma compact_loop_spec fuel buf nc c l e :
  img_ok g buf -> 16 <= nc <= c -> c <= peb_size g ->
  log_rel cfg g buf c l e -> slot_walk_at cfg g buf e = None -> (length l < fuel)%nat ->
  exists buf', compact_loop cfg g fuel buf nc c = (buf', nc + total_size (survivors l), e) /\
    img_ok g buf' /\ 0 <= total_size (survivors l) <= e - c /\
    slice nc (total_size (survivors l)) buf' = all_bytes (survivors l) /\
    (forall i, Z.of_nat i < nc -> buf' !! i = buf !! i) /\ (forall i, e <= Z.of_nat i -> buf' !! i = buf !! i).
Proof.
  revert fuel buf nc c. induction l as [|en l IH]; intros fuel buf nc c Hok Hnc Hc Hl He Hf;
    (destruct fuel as [|fuel]; [simpl in Hf; lia|]); inversion Hl as [|? sv i ? ? Hw Hl']; subst; cbn [compact_loop].
  - rewrite He. exists buf. rewrite Z.add_0_r. split_and!; try done; simpl; lia.
  - rewrite Hw. destruct (slot_walk_bounds cfg g Hg _ c _ _ (proj2 Hok) ltac:(lia) Hw) as (Hs14 & Hsfit & _).
    pose proof (log_rel_bounds cfg g Hg _ (c + sv_total_size sv) _ _ (proj2 Hok) ltac:(lia) Hl') as Hbd.
    pose proof (len_nonneg l). set (sz := sv_total_size sv) in *. simpl in Hf.
    assert (slot_superseded cfg g buf c sv = match newest (sv_id sv) l with Some _ => true | None => false end) as ->.
    { unfold slot_superseded. eapply superseded_from_spec; [done..|]. unfold walk_fuel, len in *. lia. }
    cbn [survivors]. unfold e_tomb, e_id. cbn [e_intact e_sv].
    set (keep := i && negb (flag_set (sv_flags sv) BLOB_DB_SLOT_F_TOMBSTONE) &&
      negb match newest (sv_id sv) l with Some _ => true | None => false end).
    assert (i && negb (flag_set (sv_flags sv) BLOB_DB_SLOT_F_TOMBSTONE) &&
      match newest (sv_id sv) l with Some _ => false | None => true end = keep) as ->
      by (unfold keep; by destruct (newest (sv_id sv) l)).
    destruct keep.
    + set (b1 := if nc =? c then buf else splice nc (slice c sz buf) buf).
      pose proof (proj1 Hok) as Hlen.
      assert (len (slice c sz buf) = sz) as Hls by (apply len_slice; lia).
      assert (img_ok g b1 /\ slice nc sz b1 = slice c sz buf /\ (forall i, Z.of_nat i < nc -> b1 !! i = buf !! i) /\
        (forall i, c + sz <= Z.of_nat i -> b1 !! i = buf !! i)) as (Hok1 & Hs1 & Hlo & Hhi).
      { unfold b1. destruct (Z.eqb_spec nc c) as [->|]; [done|]. split_and!.
        - split; [rewrite len_splice by lia; done|]. apply bytes_ok_splice; [apply Hok|apply bytes_ok_slice, Hok].
        - rewrite <- Hls at 1. apply slice_splice_same; lia.
        - intros j Hj. rewrite lookup_splice by lia. case_decide; [lia|done].
        - intros j Hj. rewrite lookup_splice by lia. case_decide; [lia|done]. }
      destruct (IH fuel b1 (nc + sz) (c + sz)) as (b' & -> & Hok' & Htot & Hsl & Hlo' & Hhi'); [done|lia|lia| | |lia|].
      * eapply log_rel_agree; [done|apply Hok|lia|done|]. apply (slices_from _ _ (c + sz)); [done|lia..].
      * destruct (slot_walk_from buf b1 e) as [-> _]; [apply Hok|lia| |done]. intros j Hj. apply Hhi. lia.
      * cbn [total_size all_bytes foldr] in *. fold (total_size (survivors l)) (all_bytes (survivors l)) in *.
        unfold e_size. cbn [e_sv e_bytes]. fold sz. exists b'. split_and!; [by rewrite <- Z.add_assoc|done|lia|lia| | |].
        -- rewrite slice_split by lia. rewrite Hsl. f_equal. rewrite <- Hs1.
           apply (slices_upto _ _ (nc + sz)); [done|lia..].
        -- intros j Hj. rewrite Hlo' by lia. auto.
        -- intros j Hj. rewrite Hhi' by lia. apply Hhi. lia.
    + destruct (IH fuel buf nc (c + sz)) as (b' & -> & Hok' & Htot & Hsl & Hlo' & Hhi'); [done|lia|lia|done..|lia|].
      exists b'. split_and!; try done; lia.
Qed.

(** [slots_of buf ks]: slots that can be walked in [buf]. *)
Definition slots_of (buf : bytes) (ks : list entry) : Prop :=
  Forall (fun e => 0 <= e_off e /\ slot_walk_at cfg g buf (e_off e) = Some (e_sv e, e_intact e) /\
    e_bytes e = slice (e_off e) (e_size e) buf) ks.

Lemma total_size_nonneg buf ks : bytes_ok buf -> slots_of buf ks -> 0 <= total_size ks.
Proof.
  intros Hb. induction 1 as [|e ks (Ho & Hw & _) _ IH]; [done|]. cbn [total_size foldr]. fold (total_size ks).
  destruct (slot_walk_bounds cfg g Hg _ _ _ _ Hb Ho Hw) as (?&_). unfold e_size. lia.
Qed.

(** Slots copied back to back are walked as the same slots. *)
Lemma log_rel_reloc buf b o ks :
  img_ok g buf -> img_ok g b -> slots_of buf ks ->
  0 <= o -> o + total_size ks <= peb_size g -> slice o (total_size ks) b = all_bytes ks ->
  log_rel cfg g b o (reloc o ks) (o + total_size ks).
Proof.
  intros [Hlen Hb] [Hlen' Hb'] Hks. revert o. induction Hks as [|e ks (Hoff & Hw & Hby) Hks IH]; intros o Ho Hfit Hs;
    cbn [reloc total_size all_bytes foldr] in *.
  - rewrite Z.add_0_r. constructor.
  - fold (total_size ks) (all_bytes ks) in *. pose proof (total_size_nonneg buf ks Hb Hks).
    destruct (slot_walk_bounds cfg g Hg _ _ _ _ Hb Hoff Hw) as (?&?&_). fold (e_size e) in *.
    rewrite slice_split in Hs by lia. apply app_inj_1 in Hs as [Hs1 Hs2].
    + rewrite Hby in Hs1. rewrite Hby, <- Hs1, Z.add_assoc. apply log_slot.
      * eapply (slot_walk_move cfg g Hg buf (e_off e)); [done|done|by apply rd2_nonneg|done|done|unfold e_size in *; lia].
      * apply IH; [lia|lia|done].
    + rewrite Hby. pose proof (len_slice o (e_size e) b ltac:(lia) ltac:(lia) ltac:(lia)) as E1.
      pose proof (len_slice (e_off e) (e_size e) buf ltac:(lia) ltac:(lia) ltac:(lia)) as E2. unfold len in *. lia.
Qed.

Lemma slots_of_log buf l e : bytes_ok buf -> log_rel cfg g buf BLOB_DB_BUCKET_DATA_OFF l e -> slots_of buf l.
Proof.
  intros Hb Hl. apply List.Forall_forall. intros en Hen%list_elem_of_In. pose proof (ok_peb_size _ _ Hg).
  destruct (log_rel_off_bounds cfg g Hg buf BLOB_DB_BUCKET_DATA_OFF _ _ en Hb ltac:(unfold_consts; lia) Hl Hen) as (?&_).
  destruct (log_rel_elem cfg g buf _ _ _ en Hl Hen). unfold_consts. split_and!; [lia|done..].
Qed.

Lemma slots_of_survivors buf l : slots_of buf l -> slots_of buf (survivors l).
Proof. unfold slots_of. induction 1; cbn [survivors]; [constructor|]. destruct (_ && _); [by constructor|assumption]. Qed.

(** The image a compaction of [buf] commits, and the sector that then holds it. *)
Definition compact_len (buf : bytes) : Z := 16 + total_size (survivors (bucket_log cfg g buf)).

Record compacted (buf : bytes) (bid : Z) (buf' : bytes) : Prop := {
  cp_ok : img_ok g buf';
  cp_valid : bucket_hdr_valid buf' bid = true;
  cp_log : log_rel cfg g buf' BLOB_DB_BUCKET_DATA_OFF (reloc 16 (survivors (bucket_log cfg g buf))) (compact_len buf);
  cp_tail : forall i, log_end cfg g buf <= Z.of_nat i -> buf' !! i = buf !! i;
  cp_len : 16 <= compact_len buf <= log_end cfg g buf;
}.

Lemma build_compacted_image_spec buf bid :
  img_ok g buf -> 0 <= bid < n_buckets g ->
  exists buf', build_compacted_image cfg g buf bid = (buf', compact_len buf, log_end cfg g buf) /\ compacted buf bid buf'.
Proof.
  intros Hok Hbid. pose proof Hok as [Hlen Hb]. pose proof (ok_peb_size _ _ Hg).
  destruct (parsed_log cfg g Hg buf Hb) as [Hl He].
  pose proof (log_rel_bounds cfg g Hg buf BLOB_DB_BUCKET_DATA_OFF _ _ Hb ltac:(unfold_consts; lia) Hl) as Hbd.
  unfold BLOB_DB_BUCKET_DATA_OFF in Hbd. pose proof (len_nonneg (bucket_log cfg g buf)).
  destruct (compact_loop_spec (walk_fuel g) buf 16 16 (bucket_log cfg g buf) (log_end cfg g buf))
    as (b1 & E1 & [Hlen1 Hb1] & Htot & Hs1 & Hlo & Hhi); [done|lia|lia|done|done|unfold walk_fuel, len in *; lia|].
  unfold build_compacted_image. unfold BLOB_DB_BUCKET_DATA_OFF at 1 2. rewrite E1.
  change (mk_bucket_hdr BUCKET_MAGIC bid 0 (u32 (bh_gen (dec_bucket_hdr buf) + 1))
    (hdr_crc32 (enc_bucket_hdr (mk_bucket_hdr BUCKET_MAGIC bid 0 (u32 (bh_gen (dec_bucket_hdr buf) + 1)) 0))))
    with (new_hdr bid (u32 (bh_gen (dec_bucket_hdr buf) + 1))).
  set (gen := u32 _). set (hd := enc_bucket_hdr (new_hdr bid gen)).
  assert (len hd = 16) as Hhd by apply len_new_hdr.
  assert (0 <= gen < 2 ^ 32) as Hgen by (apply Z.mod_pos_bound; lia).
  exists (splice 0 hd b1). split; [done|].
  assert (img_ok g (splice 0 hd b1)) as Hok'.
  { split; [rewrite len_splice by lia; done|]. apply bytes_ok_splice; [done|].
    unfold hd, enc_bucket_hdr. rewrite !bytes_ok_app. split_and!; try apply bytes_ok_le. repeat constructor; simpl; lia. }
  split; [done| | | |].
  - unfold splice. change (zt 0 b1) with (@nil Z). rewrite app_nil_l. by apply (new_hdr_valid cfg g Hg).
  - apply (log_rel_reloc buf); [done|done| |unfold_consts; lia| |].
    + by eapply slots_of_survivors, slots_of_log.
    + unfold_consts. lia.
    + unfold_consts. rewrite slice_splice_ne by lia. done.
  - intros i Hi. rewrite lookup_splice by lia. case_decide; [lia|]. apply Hhi. lia.
  - unfold compact_len. lia.
Qed.

(** The rewritten buffer, and the image in front of it that is committed. *)
Definition compact_buf (buf : bytes) (bid : Z) : bytes := fst (fst (build_compacted_image cfg g buf bid)).
Definition compact_image (buf : bytes) (bid : Z) : bytes := zt (compact_len buf) (compact_buf buf bid).

Lemma compact_buf_spec buf bid :
  img_ok g buf -> 0 <= bid < n_buckets g ->
  build_compacted_image cfg g buf bid = (compact_buf buf bid, compact_len buf, log_end cfg g buf) /\
  compacted buf bid (compact_buf buf bid).
Proof.
  intros Hok Hb. destruct (build_compacted_image_spec buf bid Hok Hb) as (b & E & Hc).
  unfold compact_buf. rewrite E. done.
Qed.

(** The committed sector: the image, then erased flash. *)
Definition committed (nl : Z) (buf' : bytes) : bytes := zt nl buf' ++ erased (peb_size g - nl).

Lemma committed_spec buf bid buf' :
  img_ok g buf -> compacted buf bid buf' ->
  let c := committed (compact_len buf) buf' in
  img_ok g c /\ bucket_hdr_valid c bid = true /\
  bucket_log cfg g c = reloc 16 (survivors (bucket_log cfg g buf)) /\
  log_end cfg g c = compact_len buf /\ blank_from c (compact_len buf).
Proof.
  intros [Hlen Hb] [[Hlen' Hb'] Hv Hl _ Hcl] c. pose proof (log_end_bounds cfg g Hg buf Hb) as He. pose proof (ok_peb_size _ _ Hg).
  set (nl := compact_len buf) in *. assert (len (zt nl buf') = nl) as Hz by (apply len_zt; lia).
  assert (img_ok g c) as Hok.
  { split; [unfold c, committed; rewrite len_app, Hz, len_erased; lia|]. apply bytes_ok_app.
    split; [|apply bytes_ok_erased]. rewrite zt_slice. by apply bytes_ok_slice. }
  assert (forall i, Z.of_nat i < nl -> c !! i = buf' !! i) as Hlo.
  { intros i Hi. unfold c, committed. rewrite lookup_app_l by (unfold len in Hz; lia). apply lookup_take_lt. lia. }
  assert (blank_from c nl) as Hbl.
  { intros i Hi Hlt. unfold c, committed. rewrite lookup_app_r by (unfold len in Hz; lia). apply lookup_erased.
    destruct Hok as [Hlc _]. unfold len in *. lia. }
  destruct (parsed_det cfg g Hg c (reloc 16 (survivors (bucket_log cfg g buf))) nl) as [<- <-]; [apply Hok| |].
  - split; [|by apply (blank_stop cfg g); [apply Hok|lia|]].
    apply (log_from_agree cfg g Hg buf'); [done|done|unfold_consts; lia|]. intros i Hi. apply Hlo. lia.
  - split_and!; try done. rewrite <- bucket_hdr_valid_slice. rewrite <- Hv, <- (bucket_hdr_valid_slice buf'). f_equal.
    apply (slices_upto _ _ nl); [done|lia..].
Qed.

(** Compaction does not change the flags or the value of any id. *)
Lemma committed_slot buf bid buf' id :
  img_ok g buf -> compacted buf bid buf' ->
  slot_of id (bucket_log cfg g (committed (compact_len buf) buf')) = slot_of id (bucket_log cfg g buf).
Proof.
  intros Hok Hc. destruct (committed_spec buf bid buf' Hok Hc) as (_ & _ & -> & _).
  by rewrite slot_reloc, slot_survivors.
Qed.
End image.
