(* ===== verification/Recovery.v ===== *)
(** Compaction on flash: what each step of [compact_commit()] and
    [recover_compaction()] may leave behind, and that the next mount sees the
    same contents at every point where either can be cut short. *)

From S2P Require Import Prelude Layout Store SlotIndexIface Image Core CoreRead Lookup Append Compact Bucket.
From S2P Require Import CompactImage.

Section seal.
Context (cfg : config) (g : geom) `{Crc} (Hg : geom_ok cfg g) (Ha : geom_aligned g) {CL : CrcLaws _}.

(** What [scratch_sealed_bucket()] concludes from the scratch sector. *)
Definition sealed_as (sb : bytes) : option (Z * Z) :=
  let s := slice (scratch_seal_off g) 16 sb in
  let seal := dec_scratch_seal s in
  if negb (bool_decide (ss_magic seal = SCRATCH_MAGIC)) || negb (ss_seal_crc32 seal =? hdr_crc32 s) then None
  else match scratch_seal_valid g sb with
       | None => None
       | Some il =>
           let bid := bh_bucket_id (dec_bucket_hdr sb) in
           if (bid >=? n_buckets g) || negb (bucket_hdr_valid sb bid) then None else Some (bid, il)
       end.

Lemma seal_len_spec : scratch_seal_len g = round_up 16 (write_align g) /\
  16 <= scratch_seal_len g < 48 /\ scratch_seal_len g mod write_align g = 0.
Proof.
  pose proof (ok_align _ _ Hg) as Hal. pose proof (pow2_le32_pos _ Hal).
  assert (scratch_seal_len g = round_up 16 (write_align g)) as ->.
  { unfold scratch_seal_len. destruct (Z.eqb_spec (write_align g) 0); [lia|done]. }
  destruct (round_up_spec 16 (write_align g) Hal). split_and!; [done|lia|lia|done].
Qed.

Lemma seal_off_spec : 0 <= scratch_seal_off g /\ scratch_seal_off g + scratch_seal_len g = peb_size g /\
  scratch_seal_off g mod write_align g = 0.
Proof.
  destruct seal_len_spec as (_ & ? & Hm). pose proof (ok_peb_size _ _ Hg). pose proof (pow2_le32_pos _ (ok_align _ _ Hg)).
  unfold scratch_seal_off. split_and!; [lia|lia|]. rewrite Zminus_mod, Hm, (al_peb _ Ha). by rewrite Z.mod_0_l by lia.
Qed.

Lemma sealed_as_erased : sealed_as (erased (peb_size g)) = None.
Proof.
  destruct seal_off_spec as (? & ? & _). destruct seal_len_spec as (_ & ? & _). unfold sealed_as.
  rewrite slice_erased by lia. unfold dec_scratch_seal. cbn [ss_magic]. rewrite slice_erased by lia. done.
Qed.

Lemma sealed_as_bounds sb b il : sealed_as sb = Some (b, il) ->
  16 <= il <= scratch_seal_off g /\ bucket_hdr_valid sb b = true /\ b < n_buckets g.
Proof.
  unfold sealed_as, scratch_seal_valid. unfold_consts. repeat case_match; intros; simplify_eq.
  repeat match goal with E : _ || _ = false |- _ => apply orb_false_iff in E as [? ?] end.
  repeat match goal with E : negb _ = false |- _ => apply negb_false_iff in E end. split_and!; try done; lia.
Qed.

Lemma hdr_crc32_seal m il ic c c' :
  len m = 4 ->
  hdr_crc32 (enc_scratch_seal (mk_scratch_seal m il ic c)) = hdr_crc32 (enc_scratch_seal (mk_scratch_seal m il ic c')).
Proof.
  intros Hm. unfold hdr_crc32, enc_scratch_seal. cbn [ss_magic ss_image_len ss_image_crc32 ss_seal_crc32]. f_equal.
  assert (forall x, zt (len (m ++ le 4 il ++ le 4 ic ++ le 4 x) - 4) (m ++ le 4 il ++ le 4 ic ++ le 4 x)
    = m ++ le 4 il ++ le 4 ic) as Hx; [|by rewrite !Hx].
  intros x. replace (m ++ le 4 il ++ le 4 ic ++ le 4 x) with ((m ++ le 4 il ++ le 4 ic) ++ le 4 x)
    by by rewrite <- !app_assoc.
  rewrite zt_slice. apply slice_here. lens.
Qed.

Lemma len_seal_bytes image : len (seal_bytes g image) = scratch_seal_len g.
Proof.
  destruct seal_len_spec as (_ & ? & _). unfold seal_bytes, enc_scratch_seal.
  cbn [ss_magic ss_image_len ss_image_crc32 ss_seal_crc32]. lens. change (len SCRATCH_MAGIC) with 4. lia.
Qed.

Lemma bytes_ok_seal image : bytes_ok (seal_bytes g image).
Proof.
  unfold seal_bytes, enc_scratch_seal. rewrite !bytes_ok_app. split_and!; auto using bytes_ok_le, bytes_ok_erased.
  repeat constructor; simpl; lia.
Qed.

(** A scratch sector that holds an image and its seal is recognised. *)
Lemma sealed_as_sealed sb bid nl :
  0 <= bid < n_buckets g -> 16 <= nl <= scratch_seal_off g -> len sb = peb_size g -> bucket_hdr_valid sb bid = true ->
  slice (scratch_seal_off g) (scratch_seal_len g) sb = seal_bytes g (zt nl sb) -> sealed_as sb = Some (bid, nl).
Proof.
  intros Hbid Hnl Hlen Hv Hs. destruct seal_off_spec as (? & ? & _). destruct seal_len_spec as (_ & ? & _).
  pose proof (ok_peb_size _ _ Hg). set (image := zt nl sb) in *.
  assert (len image = nl) as Hli by (unfold image; lens).
  set (seal := mk_scratch_seal SCRATCH_MAGIC (u32 (len image)) (crc32_ieee image)
    (hdr_crc32 (enc_scratch_seal (mk_scratch_seal SCRATCH_MAGIC (u32 (len image)) (crc32_ieee image) 0)))).
  assert (slice (scratch_seal_off g) 16 sb = enc_scratch_seal seal) as H16.
  { pose proof (slice_slice 0 16 (scratch_seal_off g) (scratch_seal_len g) sb ltac:(lia) ltac:(lia) ltac:(lia)) as E.
    rewrite Hs, Z.add_0_r in E. rewrite <- E. apply slice_here. unfold enc_scratch_seal. lens. done. }
  assert (dec_scratch_seal (enc_scratch_seal seal) = seal) as Hdec.
  { rewrite <- (app_nil_r (enc_scratch_seal seal)). apply dec_enc_scratch_seal. unfold scratch_seal_wf, seal.
    cbn [ss_magic ss_image_len ss_image_crc32 ss_seal_crc32]. pose proof (crc32_range image).
    pose proof (Z.mod_pos_bound (len image) (2 ^ 32)). unfold u32, hdr_crc32.
    split_and!; [done|lia..|apply crc32_range|apply crc32_range]. }
  assert (ss_seal_crc32 seal =? hdr_crc32 (enc_scratch_seal seal) = true) as Hc.
  { apply Z.eqb_eq. unfold seal at 1. cbn [ss_seal_crc32]. by apply hdr_crc32_seal. }
  assert (ss_image_len seal = nl) as Hil by (unfold seal; cbn [ss_image_len]; rewrite u32_small; lia).
  assert (bh_bucket_id (dec_bucket_hdr sb) = bid) as Hb.
  { unfold bucket_hdr_valid in Hv. rewrite !andb_true_iff in Hv. destruct Hv as [_ ?%Z.eqb_eq]. done. }
  unfold sealed_as, scratch_seal_valid. rewrite H16, Hdec, Hc, Hil. cbn [ss_magic seal negb orb].
  rewrite bool_decide_true by done. cbn [negb orb]. unfold_consts.
  destruct (Z.ltb_spec nl 16); [lia|]. destruct (Z.gtb_spec nl (scratch_seal_off g)); [lia|]. cbn [orb].
  fold image. unfold seal at 1. cbn [ss_image_crc32]. rewrite Z.eqb_refl. cbn [negb].
  rewrite Hb, Hv. destruct (Z.geb_spec bid (n_buckets g)); [lia|]. done.
Qed.
End seal.

Section commit.
Context (cfg : config) (g : geom) `{Crc}.
Context {S I : Type} `{!Store S} `{!StoreView S} `{!SlotIndex I}.
Context (Hg : geom_ok cfg g) (Ha : geom_aligned g) {SL : StoreLaws S (store_geom_of g)} {CL : CrcLaws _}.
Notation db := (db S I).
Implicit Types d : db.

Definition scratch d : bytes := pimg d BLOB_DB_SCRATCH_SECTOR.

(** Blocks [ps] may have changed; the index and the geometry did not. *)
Record frame (ps : list Z) d d' : Prop := {
  fr_geo : d_geo d' = d_geo d;
  fr_ix : d_ix d' = d_ix d;
  fr_other : forall q, q ∉ ps -> pimg d' q = pimg d q;
}.

Lemma frame_trans ps d d1 d2 : frame ps d d1 -> frame ps d1 d2 -> frame ps d d2.
Proof. intros [? ? F1] [? ? F2]. split; [congruence..|]. intros q Hq. by rewrite F2, F1. Qed.

Lemma frame_peb ps d d' p b : p ∈ ps -> only_peb d d' p b -> frame ps d d'.
Proof. intros Hp []. split; [done..|]. intros q Hq. apply op_other. intros ->. done. Qed.

Lemma frame_st ps d d' st : frame ps d d' -> frame ps d (mk_db st (d_geo d') (d_ix d') (d_store d')).
Proof. intros []. by split. Qed.

Lemma frame_refl ps d : frame ps d d.
Proof. by split. Qed.

(** How a compaction of bucket [bid] to [image] ended. *)
Inductive commit_end d d' (bid nl : Z) (image : bytes) : res unit -> Prop :=
  | ce_done : d_st d' = d_st d -> bimg d' bid = image ++ erased (peb_size g - nl) ->
      scratch d' = scratch d \/ scratch d' = erased (peb_size g) -> commit_end d d' bid nl image (Ok tt)
  | ce_untouched e : device_err e -> d_st d' = d_st d -> bimg d' bid = bimg d bid ->
      commit_end d d' bid nl image (Err e)
  | ce_replaced e : device_err e -> d_st d' = d_st d -> bimg d' bid = image ++ erased (peb_size g - nl) ->
      scratch d' = scratch d -> commit_end d d' bid nl image (Err e)
  | ce_sealed e : device_err e -> d_st d' = set_wedged true (d_st d) -> zt nl (scratch d') = image ->
      sealed_as g (scratch d') = Some (bid, nl) -> commit_end d d' bid nl image (Err e)
  | ce_rewritten e : device_err e -> d_st d' = set_wedged true (d_st d) ->
      bimg d' bid = image ++ erased (peb_size g - nl) -> commit_end d d' bid nl image (Err e).

Lemma scratch_peb : 0 <= BLOB_DB_SCRATCH_SECTOR < n_pebs g.
Proof. pose proof (ok_pebs _ _ Hg). pose proof (ok_buckets _ _ Hg). unfold_consts. lia. Qed.

Lemma scratch_ne_bucket bid : 0 <= bid -> BLOB_DB_SCRATCH_SECTOR <> BLOB_DB_FIRST_BUCKET + bid.
Proof. unfold_consts. lia. Qed.

(** Writing an image and its seal to an erased scratch sector. *)
Definition scratch_with (image : bytes) : bytes := image ++ erased (peb_size g - len image).

Lemma sealed_scratch image bid :
  0 <= bid < n_buckets g -> 16 <= len image <= scratch_seal_off g -> bytes_ok image ->
  bucket_hdr_valid image bid = true ->
  let sb := splice (scratch_seal_off g) (seal_bytes g image) (scratch_with image) in
  sealed_as g sb = Some (bid, len image) /\ zt (len image) sb = image.
Proof.
  intros Hbid Hl Hb Hv sb. destruct (seal_off_spec cfg g Hg Ha) as (? & ? & _). destruct (seal_len_spec cfg g Hg) as (_ & ? & _).
  pose proof (len_seal_bytes cfg g Hg image) as Hls. pose proof (ok_peb_size _ _ Hg).
  assert (len (scratch_with image) = peb_size g) as Hlw by (unfold scratch_with; rewrite len_app, len_erased; lia).
  assert (zt (len image) sb = image) as Hz.
  { unfold sb. rewrite zt_slice, slice_splice_ne by lia. by apply slice_here. }
  split; [|done]. apply (sealed_as_sealed cfg g Hg Ha); [done|done|unfold sb; rewrite len_splice; lia| |].
  - rewrite <- bucket_hdr_valid_slice. unfold sb. rewrite slice_splice_ne by lia. unfold scratch_with.
    rewrite slice_app_l by lia. by rewrite bucket_hdr_valid_slice.
  - rewrite Hz. unfold sb. rewrite <- Hls. apply slice_splice_same; lia.
Qed.

Lemma splice_erased_0 image : len image <= peb_size g -> splice 0 image (erased (peb_size g)) = scratch_with image.
Proof.
  intros Hl. pose proof (len_nonneg image). unfold splice, scratch_with. change (zt 0 (erased (peb_size g))) with (@nil Z).
  rewrite app_nil_l. f_equal. unfold zd, erased. rewrite drop_replicate. f_equal. lia.
Qed.

Lemma works_err {A} d (e : errno) d' : works d (@Err A e) d' -> ~ healthy (d_store d).
Proof. intros Hw Hh. by destruct (Hw Hh). Qed.

(** The write of an image over an erased block. *)
Lemma peb_write_image d p image :
  0 <= p < n_pebs g -> 0 < len image <= peb_size g -> len image mod write_align g = 0 -> bytes_ok image ->
  pimg d p = erased (peb_size g) ->
  wp (io (blob_db_store_write (peb_offset g p) image)) d (fun r d' =>
    works d r d' /\ exists b', only_peb d d' p b' /\
      match r with Ok _ => b' = scratch_with image | Err e => device_err e end).
Proof.
  intros Hp Hl Hm Hb He. pose proof (pow2_le32_pos _ (ok_align _ _ Hg)). pose proof (len_nonneg image).
  rewrite <- (Z.add_0_r (peb_offset g p)). eapply wp_mono.
  { apply (peb_write_erased g); [done|lia|lia|lia|by rewrite Z.mod_0_l by lia|done|done|]. rewrite He. apply slice_erased; lia. }
  intros r d' (Hw & b' & Ho & Hr). split; [done|]. exists (splice 0 b' (pimg d p)). split; [done|].
  destruct r as [[]|e]; [|by destruct Hr]. subst b'. rewrite He. apply splice_erased_0; lia.
Qed.

(** Steps 2 and 3: from a sealed scratch on, either the bucket is rewritten or
    the store is wedged. *)
Definition commit_tail (bid : Z) (image : bytes) : M db unit :=
  or_wedge (io (blob_db_store_erase (bucket_offset g bid) (peb_size g)));;;
  or_wedge (io (blob_db_store_write (bucket_offset g bid) image));;;
  or_wedge (io (blob_db_store_erase (peb_offset g BLOB_DB_SCRATCH_SECTOR) (peb_size g))).

Lemma or_wedge_spec m d (Q : res unit -> db -> Prop) :
  wp m d (fun r d' => match r with
    | Ok _ => Q (Ok tt) d'
    | Err e => Q (Err e) (mk_db (set_wedged true (d_st d')) (d_geo d') (d_ix d') (d_store d')) end) ->
  wp (or_wedge m) d Q.
Proof.
  intros Hm. apply wp_bnd, wp_try. eapply wp_mono; [exact Hm|]. intros [[]|e] d' Hq; [by apply wp_ret|].
  apply wp_bnd, wp_mod, wp_fail. exact Hq.
Qed.

Lemma commit_tail_spec d bid image :
  0 <= bid < n_buckets g -> 0 < len image <= peb_size g -> len image mod write_align g = 0 -> bytes_ok image ->
  sealed_as g (scratch d) = Some (bid, len image) -> zt (len image) (scratch d) = image ->
  wp (commit_tail bid image) d (fun r d' =>
    works d r d' /\ frame [BLOB_DB_SCRATCH_SECTOR; BLOB_DB_FIRST_BUCKET + bid] d d' /\
    match r with
    | Ok _ => d_st d' = d_st d /\ bimg d' bid = scratch_with image /\ scratch d' = erased (peb_size g)
    | Err e => device_err e /\ d_st d' = set_wedged true (d_st d) /\
        ((zt (len image) (scratch d') = image /\ sealed_as g (scratch d') = Some (bid, len image)) \/
         bimg d' bid = scratch_with image)
    end).
Proof.
  intros Hbid Hl Hm Hb Hsl Hz. set (ps := [BLOB_DB_SCRATCH_SECTOR; BLOB_DB_FIRST_BUCKET + bid]).
  assert (BLOB_DB_SCRATCH_SECTOR ∈ ps) as Hps by apply list_elem_of_here.
  assert (BLOB_DB_FIRST_BUCKET + bid ∈ ps) as Hpb by (apply list_elem_of_further, list_elem_of_here).
  pose proof (scratch_ne_bucket bid ltac:(lia)) as Hne. pose proof (bucket_peb cfg g Hg bid Hbid) as Hbp.
  unfold commit_tail. apply wp_bnd, or_wedge_spec. eapply wp_mono; [by apply (peb_erase_spec g)|].
  intros [[]|e] d1 (Hw1 & b1 & Ho1 & Hr1); (assert (scratch d1 = scratch d) as Hs1 by by apply (op_other _ _ _ _ Ho1)).
  2: { split; [intros Hh; destruct (works_err _ _ _ Hw1); exact Hh|]. split; [by eapply frame_st, frame_peb|].
       split_and!; [done|simpl; by rewrite (op_st _ _ _ _ Ho1)|left]. unfold scratch, pimg in *; simpl; by rewrite Hs1. }
  subst b1. apply wp_bnd, or_wedge_spec. eapply wp_mono; [apply peb_write_image; try done; apply (op_img _ _ _ _ Ho1)|].
  intros [[]|e] d2 (Hw2 & b2 & Ho2 & Hr2); (assert (scratch d2 = scratch d1) as Hs2 by by apply (op_other _ _ _ _ Ho2));
    (assert (d_st d2 = d_st d) as Hst2 by (rewrite (op_st _ _ _ _ Ho2); apply (op_st _ _ _ _ Ho1)));
    (assert (frame ps d d2) as Hf2 by (eapply frame_trans; by eapply frame_peb)).
  2: { split; [intros Hh; destruct (works_err _ _ _ Hw2); by apply Hw1|]. split; [by apply frame_st|].
       split_and!; [done|simpl; by rewrite Hst2|left]. unfold scratch, pimg in *; simpl; by rewrite Hs2, Hs1. }
  subst b2. apply or_wedge_spec. eapply wp_mono; [apply (peb_erase_spec g), scratch_peb|].
  intros [[]|e] d3 (Hw3 & b3 & Ho3 & Hr3);
    (assert (bimg d3 bid = scratch_with image) as Hb3 by
       (unfold bimg; fold (pimg d3 (BLOB_DB_FIRST_BUCKET + bid)); rewrite (op_other _ _ _ _ Ho3) by done; apply (op_img _ _ _ _ Ho2)));
    (assert (frame ps d d3) as Hf3 by (eapply frame_trans; [exact Hf2|exact (frame_peb ps _ _ _ _ Hps Ho3)])).
  - split; [eapply works_trans; [done|intros _; eapply works_trans; [done|done]]|]. split; [done|].
    split_and!; [by rewrite (op_st _ _ _ _ Ho3)|done|]. subst b3. apply (op_img _ _ _ _ Ho3).
  - split; [intros Hh; destruct (works_err _ _ _ Hw3); by apply Hw2, Hw1|]. split; [by apply frame_st|].
    split_and!; [done|simpl; by rewrite (op_st _ _ _ _ Ho3), Hst2|by right].
Qed.

Lemma only_peb_trans d d1 d2 p b b' : only_peb d d1 p b -> only_peb d1 d2 p b' -> only_peb d d2 p b'.
Proof. intros [???? F1] [???? F2]. split; try congruence. intros q Hq. by rewrite F2, F1. Qed.

(** Step 1: nothing but scratch is touched, and on success it is sealed. *)
Definition commit_head (image : bytes) : M db unit :=
  io (blob_db_store_erase (peb_offset g BLOB_DB_SCRATCH_SECTOR) (peb_size g));;;
  io (blob_db_store_write (peb_offset g BLOB_DB_SCRATCH_SECTOR) image);;;
  scratch_seal_write g (peb_offset g BLOB_DB_SCRATCH_SECTOR) image.

Lemma commit_head_spec d bid image :
  0 <= bid < n_buckets g -> 16 <= len image <= scratch_seal_off g -> len image mod write_align g = 0 ->
  bytes_ok image -> bucket_hdr_valid image bid = true ->
  wp (commit_head image) d (fun r d' => works d r d' /\ exists b, only_peb d d' BLOB_DB_SCRATCH_SECTOR b /\
    match r with
    | Ok _ => sealed_as g b = Some (bid, len image) /\ zt (len image) b = image
    | Err e => device_err e
    end).
Proof.
  intros Hbid Hl Hm Hb Hv. pose proof scratch_peb as Hsp. pose proof (len_seal_bytes cfg g Hg image) as Hls.
  destruct (seal_off_spec cfg g Hg Ha) as (? & ? & Hsm). destruct (seal_len_spec cfg g Hg) as (_ & ? & Hlm).
  unfold commit_head. apply wp_bnd. eapply wp_mono; [by apply (peb_erase_spec g)|].
  intros [[]|e] d1 (Hw1 & b1 & Ho1 & Hr1); [|split; [done|by exists b1]]. subst b1.
  apply wp_bnd. eapply wp_mono; [apply peb_write_image; try done; [lia|apply (op_img _ _ _ _ Ho1)]|].
  intros [[]|e] d2 (Hw2 & b2 & Ho2 & Hr2);
    [|split; [by eapply works_trans|]; exists b2; split; [by eapply only_peb_trans|done]].
  subst b2. unfold scratch_seal_write. eapply wp_mono.
  { apply (peb_write_erased g); [done|lia|lia|lia|done|by rewrite Hls|apply bytes_ok_seal|].
    rewrite (op_img _ _ _ _ Ho2). unfold scratch_with. rewrite slice_app_r by lia. rewrite slice_erased by lia. done. }
  intros r d3 (Hw3 & b3 & Ho3 & Hr3). split; [eapply works_trans; [done|intros _; by eapply works_trans]|].
  rewrite (op_img _ _ _ _ Ho2) in Ho3. eexists. split; [eapply only_peb_trans; [done|by eapply only_peb_trans]|].
  destruct r as [[]|e]; [|by destruct Hr3]. subst b3. by apply sealed_scratch.
Qed.

Lemma compact_commit_spec d bid buf nl :
  0 <= bid < n_buckets g -> img_ok g buf -> bucket_hdr_valid buf bid = true -> 16 <= nl <= peb_size g ->
  nl mod write_align g = 0 ->
  wp (compact_commit g bid buf nl) d (fun r d' =>
    if nl >? scratch_seal_off g then r = Err ENOSPC /\ d' = d
    else works d r d' /\ frame [BLOB_DB_SCRATCH_SECTOR; BLOB_DB_FIRST_BUCKET + bid] d d' /\
         commit_end d d' bid nl (zt nl buf) r).
Proof.
  intros Hbid [Hlen Hby] Hv Hnl Hm. set (ps := [BLOB_DB_SCRATCH_SECTOR; BLOB_DB_FIRST_BUCKET + bid]).
  assert (BLOB_DB_SCRATCH_SECTOR ∈ ps) as Hps by apply list_elem_of_here.
  assert (BLOB_DB_FIRST_BUCKET + bid ∈ ps) as Hpb by (apply list_elem_of_further, list_elem_of_here).
  pose proof (scratch_ne_bucket bid ltac:(lia)) as Hne. pose proof (bucket_peb cfg g Hg bid Hbid) as Hbp.
  set (image := zt nl buf). assert (len image = nl) as Hli by (apply len_zt; lia).
  assert (bytes_ok image) as Hib by (unfold image; rewrite zt_slice; by apply bytes_ok_slice).
  assert (bucket_hdr_valid image bid = true) as Hiv.
  { rewrite <- bucket_hdr_valid_slice. unfold image. rewrite zt_slice, slice_slice by lia. by rewrite bucket_hdr_valid_slice. }
  assert (len image <= peb_size g /\ len image mod write_align g = 0) as [Hil Hia] by (rewrite Hli; lia).
  unfold compact_commit. fold image. destruct (Z.gtb_spec nl (scratch_seal_off g)) as [|Hso]; [by apply wp_fail|].
  destruct blob_db_store_replace_is_atomic eqn:Eat.
  { eapply wp_mono; [by apply (peb_replace_spec g)|]. intros r d1 (Hw & b' & Ho & Hr). split; [done|].
    split; [exact (frame_peb ps _ _ _ _ Hpb Ho)|]. assert (scratch d1 = scratch d) as Hs by by apply (op_other _ _ _ _ Ho).
    pose proof (op_st _ _ _ _ Ho). pose proof (op_img _ _ _ _ Ho) as Hi. rewrite Hli in Hr.
    destruct r as [[]|e]; [subst b'; apply ce_done; auto|]. destruct Hr as [He Hr].
    destruct (Hr Eat) as [->| ->]; [by apply ce_untouched|by apply ce_replaced]. }
  enough (wp (commit_head image;;; commit_tail bid image) d (fun r d' => works d r d' /\ frame ps d d' /\
    commit_end d d' bid nl image r)) as Hx.
  { revert Hx. unfold wp, commit_head, commit_tail, mbnd.
    repeat match goal with |- context [io ?m ?x] => destruct (io m x) as [[[]|?] ?]; try (by intros) end. }
  apply wp_bnd. eapply wp_mono; [apply (commit_head_spec d bid image); try done; lia|].
  intros [[]|e] d1 (Hw1 & b & Ho & Hr).
  2: { split; [done|]. split; [exact (frame_peb ps _ _ _ _ Hps Ho)|].
       apply ce_untouched; [done|apply (op_st _ _ _ _ Ho)|]. by apply (op_other _ _ _ _ Ho). }
  destruct Hr as [Hsa Hz]. rewrite <- (op_img _ _ _ _ Ho) in Hsa, Hz.
  eapply wp_mono; [apply (commit_tail_spec d1 bid image); try done; lia|].
  intros r d2 (Hw2 & Hf2 & Hr). split; [by eapply works_trans|].
  split; [eapply frame_trans; [exact (frame_peb ps _ _ _ _ Hps Ho)|done]|].
  pose proof (op_st _ _ _ _ Ho) as Hst. rewrite Hli in Hr. unfold scratch_with in Hr. rewrite Hli in Hr.
  destruct r as [[]|e]; [destruct Hr as (?&?&?); apply ce_done; [congruence|done|by right]|].
  destruct Hr as (?&?&[[? ?]|?]); [apply ce_sealed|apply ce_rewritten]; congruence || done.
Qed.
End commit.
