(* ===== verification/CompactSpec.v ===== *)
(** [compact_bucket()] and [recover_compaction()] as a whole: compaction keeps
    the index coherent and every id's value, and the contents the next mount
    recovers are the same at every point where either is cut short. *)

From S2P Require Import Prelude Layout Store SlotIndexIface Image Core CoreRead Lookup Append Compact Bucket.
From S2P Require Import CompactImage Recovery.

Section spec.
Context (cfg : config) (g : geom) `{Crc}.
Context {S I : Type} `{!Store S} `{!StoreView S} `{!SlotIndex I}.
Context (Hg : geom_ok cfg g) (Ha : geom_aligned g) {SL : StoreLaws S (store_geom_of g)} {CL : CrcLaws _}.
Context (sidx_wf : Z -> I -> Prop) {IL : SlotIndexLaws I sidx_wf}.
Notation db := (db S I).
Notation coherent := (coherent cfg g sidx_wf).
Notation db_inv := (db_inv cfg g sidx_wf).
Implicit Types d : db.

(** ** Re-indexing *)

(** [ix_for x0 bid l cur x]: [x] knows bucket [bid] as a log [l] ending at
    [cur], and of the other buckets no more than [x0]. *)
Record ix_for (x0 : I) (bid : Z) (l : list entry) (cur : Z) (x : I) : Prop := {
  xf_wf : sidx_wf (n_buckets g) x;
  xf_cursor : forall b c, 0 <= b < n_buckets g -> blob_db_sidx_cursor b x = Some c ->
    (b = bid /\ c = cur) \/ (b <> bid /\ blob_db_sidx_cursor b x0 = Some c);
  xf_lookup : forall id o c, 0 < id < 2 ^ 64 -> blob_db_sidx_lookup (id mod n_buckets g) id x = Some (o, c) ->
    (id mod n_buckets g = bid /\ exists en, newest_head id (peb_size g) l = Some en /\ e_off en = o) \/
    (id mod n_buckets g <> bid /\ exists c0, blob_db_sidx_lookup (id mod n_buckets g) id x0 = Some (o, c0));
}.

Lemma ix_for_begin x0 bid :
  0 <= bid < n_buckets g -> sidx_wf (n_buckets g) x0 -> ix_for x0 bid [] 16 (blob_db_sidx_begin bid 16 x0).
Proof.
  intros Hb Hw. split.
  - eapply begin_wf; [done|done|lia].
  - intros b c Hb' Hc. eapply begin_cursor in Hc; [done|done|done|done|lia].
  - intros id o c Hid Hl. eapply begin_lookup in Hl; [|done|done|lia|done]. right. destruct Hl. split; [done|by exists c].
Qed.

Lemma ix_for_note x0 bid l en x :
  ix_for x0 bid l (e_off en) x -> 0 < e_id en < 2 ^ 64 -> e_id en mod n_buckets g = bid ->
  0 < e_off en -> 0 < e_size en -> e_off en + e_size en <= peb_size g ->
  ix_for x0 bid (l ++ [en]) (e_off en + e_size en)
    (blob_db_sidx_note bid (e_id en) (e_off en) (e_size en) (e_tomb en) x).
Proof.
  intros [Hw Hc Hl] Hid Hb Ho Hs Hf. pose proof (ok_peb_size _ _ Hg). split.
  - rewrite <- Hb. apply (note_wf (SlotIndexLaws := IL)); [done|done|lia..].
  - intros b c Hb' Hcur. rewrite <- Hb in Hcur.
    apply (note_cursor (SlotIndexLaws := IL) (n_buckets g)) in Hcur; [|done|done|lia|lia|lia|done].
    rewrite Hb in Hcur. destruct Hcur as [(-> & _ & ->)|(Hne & Hcur)]; [by left|].
    destruct (Hc b c Hb' Hcur) as [[? _]|?]; [done|by right].
  - intros id o c Hid' Hlk. rewrite <- Hb in Hlk.
    apply (note_lookup (SlotIndexLaws := IL) (n_buckets g)) in Hlk; [|done|done|lia|lia|lia|done].
    destruct Hlk as [(-> & _ & ->)|(Hne & c0 & Hlk)].
    + left. split; [done|]. exists en. split; [|done]. rewrite newest_head_snoc, Z.eqb_refl.
      destruct (Z.ltb_spec (e_off en) (peb_size g)); [done|lia].
    + destruct (Hl id o c0 Hid' Hlk) as [(? & en' & Hn & ?)|?]; [left|by right]. split; [done|]. exists en'.
      rewrite newest_head_snoc. destruct (Z.eqb_spec (e_id en) id); [congruence|done].
Qed.

Lemma reindex_spec fuel buf bid nl off done rest x0 x :
  bytes_ok buf -> 16 <= off -> log_rel cfg g buf off rest nl -> nl <= peb_size g ->
  (forall en, en ∈ rest -> e_intact en = true /\ 0 < e_id en < 2 ^ 64 /\ e_id en mod n_buckets g = bid) ->
  (length rest < fuel)%nat -> ix_for x0 bid done off x ->
  ix_for x0 bid (done ++ rest) nl (fst (reindex cfg g fuel buf bid nl off x)) /\
  snd (reindex cfg g fuel buf bid nl off x) = nl.
Proof.
  intros Hb Ho Hl Hnl. revert fuel done x Ho.
  induction Hl as [off|off sv i rest nl Hw Hl IH]; intros fuel dn x Ho Hr Hf Hx;
    (destruct fuel as [|fuel]; [simpl in Hf; lia|]); cbn [reindex].
  - rewrite Z.ltb_irrefl, app_nil_r. done.
  - destruct (slot_walk_bounds cfg g Hg _ off _ _ Hb ltac:(lia) Hw) as (?&?&_).
    pose proof (log_rel_bounds cfg g Hg _ (off + sv_total_size sv) _ _ Hb ltac:(lia) Hl). pose proof (len_nonneg rest).
    set (en := mk_entry off sv i (slice off (sv_total_size sv) buf)) in *.
    destruct (Hr en) as (Hi & Hid & Hbid); [apply list_elem_of_here|].
    destruct (Z.ltb_spec off nl); [|lia]. unfold slot_view_at. rewrite Hw. change (e_intact en) with i in Hi. rewrite Hi.
    assert (dn ++ en :: rest = (dn ++ [en]) ++ rest) as -> by by rewrite <- app_assoc.
    apply IH; [done|lia| |simpl in Hf; lia|].
    + intros y Hy. apply Hr. by apply list_elem_of_further.
    + apply (ix_for_note x0 bid dn en x Hx Hid Hbid); unfold e_size; simpl; lia.
Qed.

Lemma coherent_ix_for d d' bid l cur :
  0 <= bid < n_buckets g -> coherent d -> (forall b, 0 <= b -> b <> bid -> bimg d' b = bimg d b) ->
  ix_for (d_ix d) bid l cur (d_ix d') -> bucket_hdr_valid (bimg d' bid) bid = true ->
  bucket_log cfg g (bimg d' bid) = l -> log_end cfg g (bimg d' bid) = cur ->
  slot_foreign_at cfg g (bimg d' bid) cur = false -> coherent d'.
Proof.
  intros Hbid Hc Hoth [Hw Hcur Hlk] Hv Hl He Hf. split; [done|..].
  - intros b c Hb Hx. destruct (Hcur b c Hb Hx) as [[-> ->]|[Hne Hx']]; [by rewrite He|].
    rewrite Hoth by (done || lia). by apply (coh_cursor _ _ _ _ Hc).
  - intros id o c Hid Hx. destruct (Hlk id o c Hid Hx) as [[-> Hen]|[Hne [c0 Hx']]]; [by rewrite Hl|].
    pose proof (bucket_range cfg g Hg id). rewrite Hoth by (done || lia). by eapply (coh_lookup _ _ _ _ Hc).
Qed.

(** ** Compacting a bucket *)

Lemma may_drop_tail buf bid buf' :
  img_ok g buf -> tail_ok cfg g buf -> compacted cfg g buf bid buf' ->
  compaction_may_drop_tail cfg g buf' (log_end cfg g buf) = Ok tt.
Proof.
  intros [Hlen Hb] [Hf Hbl] Hc. pose proof (log_end_bounds cfg g Hg buf Hb) as He. unfold BLOB_DB_BUCKET_DATA_OFF in He.
  set (e := log_end cfg g buf) in *. unfold compaction_may_drop_tail.
  destruct (slot_walk_from cfg g buf buf' e Hb ltac:(lia) (cp_tail _ _ _ _ _ Hc)) as [_ ->]. rewrite Hf.
  pose proof (slot_size_pos cfg g Hg (MAX_PAYLOAD_LEN cfg) ltac:(pose proof (ok_payload _ _ Hg); lia)).
  assert (blank_from buf (e + slot_size_for g (MAX_PAYLOAD_LEN cfg))) as Hbl2.
  { eapply blank_from_mono; [exact Hbl|]. destruct (torn_at _ _ _ _); lia. }
  assert (forallb (fun b => b =? 255) (zd (e + slot_size_for g (MAX_PAYLOAD_LEN cfg)) buf') = true) as ->; [|done].
  apply forallb_forall. intros x Hx%list_elem_of_In. apply list_elem_of_lookup in Hx as [i Hi].
  unfold zd in Hi. rewrite lookup_drop in Hi. rewrite (cp_tail _ _ _ _ _ Hc) in Hi by lia.
  rewrite Hbl2 in Hi; [by injection Hi as <-|lia|]. by apply lookup_lt_Some in Hi.
Qed.

Lemma compact_len_aligned buf bid buf' :
  img_ok g buf -> compacted cfg g buf bid buf' -> compact_len cfg g buf mod write_align g = 0.
Proof.
  intros Hok Hc. pose proof (ok_peb_size _ _ Hg).
  eapply (log_rel_aligned cfg g Hg buf'); [apply (cp_ok _ _ _ _ _ Hc)| |apply (cp_log _ _ _ _ _ Hc)|apply (al_hdr _ Ha)].
  unfold_consts. lia.
Qed.

(** How [compact_bucket()] of a sound bucket may end. *)
Record compact_post d d' (r : res unit) (bid : Z) : Prop := {
  cm_geo : d_geo d' = d_geo d;
  cm_coh : coherent d';
  cm_other : forall q, q <> BLOB_DB_SCRATCH_SECTOR -> q <> BLOB_DB_FIRST_BUCKET + bid -> pimg d' q = pimg d q;
  cm_works : healthy (d_store d) -> healthy (d_store d') /\ (r = Ok tt \/ r = Err ENOSPC);
  cm_res : let nl := compact_len cfg g (bimg d bid) in
    (r = Err ENOSPC /\ scratch_seal_off g < nl /\ d_st d' = d_st d /\ same_flash (d_store d) (d_store d')) \/
    commit_end g d d' bid nl (compact_image cfg g (bimg d bid) bid) r;
}.

Lemma commit_end_ix d d1 d2 bid nl image r x :
  commit_end g d d1 bid nl image r -> d2 = mk_db (d_st d1) (d_geo d1) x (d_store d1) -> commit_end g d d2 bid nl image r.
Proof. intros [] ->; [apply ce_done|apply ce_untouched|apply ce_replaced|apply ce_sealed|apply ce_rewritten]; done. Qed.

Lemma commit_end_ro d d0 d1 bid nl image r :
  ro d d0 -> commit_end g d0 d1 bid nl image r -> commit_end g d d1 bid nl image r.
Proof.
  intros Hr Hc. pose proof (ro_st _ _ Hr) as Hst. pose proof (ro_bimg _ _ bid Hr) as Hb.
  assert (scratch d0 = scratch d) as Hs by apply (ro_flash _ _ Hr).
  destruct Hc; [apply ce_done|apply ce_untouched|apply ce_replaced|apply ce_sealed|apply ce_rewritten]; congruence || done.
Qed.

(** The bookkeeping after a commit that succeeded. *)
Definition after_commit (bid : Z) (buf : bytes) (new_len : Z) : M db unit :=
  ix (blob_db_sidx_begin bid BLOB_DB_BUCKET_DATA_OFF);;;
  let* off := ix_get (fun x => snd (reindex cfg g (walk_fuel g) buf bid new_len BLOB_DB_BUCKET_DATA_OFF x)) in
  ix (fun x => fst (reindex cfg g (walk_fuel g) buf bid new_len BLOB_DB_BUCKET_DATA_OFF x));;;
  if off =? new_len then mret tt else ix (blob_db_sidx_forget bid).

Lemma after_commit_spec d0 d bid buf buf' :
  0 <= bid < n_buckets g -> coherent d0 -> buf = bimg d0 bid -> bucket_inv cfg g bid buf -> compacted cfg g buf bid buf' ->
  let nl := compact_len cfg g buf in
  d_ix d = d_ix d0 -> (forall b, 0 <= b -> b <> bid -> bimg d b = bimg d0 b) -> bimg d bid = committed g nl buf' ->
  wp (after_commit bid buf' nl) d (fun r d' => r = Ok tt /\ coherent d' /\
    exists x, d' = mk_db (d_st d) (d_geo d) x (d_store d)).
Proof.
  intros Hbid Hc Hbuf Hinv Hcp nl Hix Hoth Hb. assert (img_ok g buf) as Hok by (subst buf; by apply (bimg_ok cfg g Hg)).
  pose proof Hcp as [Hok' Hv Hlog Htail Hnl]. fold nl in Hlog, Hnl.
  pose proof (log_end_bounds cfg g Hg buf (proj2 Hok)). pose proof (ok_peb_size _ _ Hg).
  pose proof (log_rel_bounds cfg g Hg buf' BLOB_DB_BUCKET_DATA_OFF _ _ (proj2 Hok') ltac:(unfold_consts; lia) Hlog) as Hbd.
  destruct (reindex_spec (walk_fuel g) buf' bid nl 16 [] (reloc 16 (survivors (bucket_log cfg g buf))) (d_ix d0)
    (blob_db_sidx_begin bid 16 (d_ix d))) as [Hx1 Hx2]; [apply Hok'|lia|done|lia| | | |].
  - intros en Hen. destruct (reloc_elem _ _ _ Hen) as (e & He & Hsv & Hi & _).
    destruct (survivors_elem _ _ He) as (He' & Hie & _). destruct (bi_ids _ _ _ _ Hinv e He' Hie).
    unfold e_id in *. rewrite Hsv, Hi. done.
  - unfold walk_fuel, len in *. unfold_consts. lia.
  - rewrite Hix. apply ix_for_begin; [done|apply (coh_wf _ _ _ _ Hc)].
  - rewrite app_nil_l in Hx1. destruct (committed_spec cfg g Hg buf bid buf' Hok Hcp) as (Hokc & Hvc & Hlc & Hec & Hblc).
    fold nl in Hokc, Hvc, Hlc, Hec, Hblc. unfold after_commit. do 2 (apply wp_bnd; (apply wp_mod || apply wp_gets)).
    apply wp_bnd, wp_mod. unfold BLOB_DB_BUCKET_DATA_OFF. cbn [d_ix d_st d_geo d_store]. rewrite Hx2, Z.eqb_refl. apply wp_ret.
    set (d' := mk_db _ _ _ _). split; [done|]. split; [|by eexists].
    assert (forall b, bimg d' b = bimg d b) as Hd' by done.
    eapply (coherent_ix_for d0 d' bid); [done|done| |exact Hx1|..]; rewrite ?Hd', ?Hb; try done.
    apply (blank_stop cfg g); [apply Hokc|lia|done].
Qed.

Lemma compact_bucket_spec d bid :
  0 <= bid < n_buckets g -> db_inv d -> bucket_hdr_valid (bimg d bid) bid = true ->
  wp (compact_bucket cfg g bid) d (fun r d' => compact_post d d' r bid).
Proof.
  intros Hbid Hinv Hv. pose proof (inv_coh _ _ _ _ Hinv) as Hc. pose proof (inv_bucket _ _ _ _ Hinv bid Hbid Hv) as Hbi.
  pose proof (bimg_ok cfg g Hg d bid Hbid) as Hok. set (buf := bimg d bid) in *. pose proof (ok_peb_size _ _ Hg).
  destruct (compact_buf_spec cfg g Hg buf bid Hok Hbid) as [Hbuild Hcp]. set (buf' := compact_buf cfg g buf bid) in *.
  unfold compact_bucket, read_bucket. rewrite <- (Z.add_0_r (bucket_offset g bid)).
  apply wp_bnd. eapply wp_mono; [apply (read_bucket_bytes cfg g Hg d bid); lia|].
  intros [b|e] d1 [Hr1 Hq].
  2: { destruct Hq as [Hh He]. split; [apply (ro_geo _ _ Hr1)|by eapply coherent_ro|intros; apply (ro_flash _ _ Hr1)|done|].
       right. by apply ce_untouched; [|apply (ro_st _ _ Hr1)|apply (ro_bimg _ _ _ Hr1)]. }
  subst b. fold buf. rewrite slice_all by (symmetry; apply Hok). rewrite Hv. cbn [negb]. rewrite Hbuild.
  rewrite (may_drop_tail buf bid buf' Hok (bi_tail _ _ _ _ Hbi) Hcp).
  set (nl := compact_len cfg g buf). fold (after_commit bid buf' nl). apply wp_bnd. change (mlift (Ok tt)) with (@mret db unit tt).
  apply wp_ret, wp_bnd, wp_try.
  pose proof (cp_len _ _ _ _ _ Hcp) as Hnl. fold nl in Hnl. pose proof (log_end_bounds cfg g Hg buf (proj2 Hok)).
  assert (coherent d1) as Hc1 by (by eapply coherent_ro).
  eapply wp_mono.
  { apply (compact_commit_spec cfg g Hg Ha d1 bid buf' nl); [done|apply Hcp|apply Hcp|lia|].
    eapply compact_len_aligned; [exact Hok|exact Hcp]. }
  intros r d2 Hq. destruct (Z.gtb_spec nl (scratch_seal_off g)) as [Hgt|Hle].
  - destruct Hq as [-> ->]. eapply wp_mono; [by apply (forget_fail_spec cfg g Hg sidx_wf d1 d1 bid)|].
    intros r d3 (-> & Hc3 & ->). split; try done.
    + apply (ro_geo _ _ Hr1).
    + intros q _ _. apply (ro_flash _ _ Hr1).
    + intros Hh. split; [by apply (ro_healthy _ _ Hr1)|by right].
    + left. split_and!; [done|done|apply (ro_st _ _ Hr1)|apply (ro_flash _ _ Hr1)].
  - destruct Hq as (Hw & Hf & Hce). apply (commit_end_ro d) in Hce; [|done].
    assert (forall q, q <> BLOB_DB_SCRATCH_SECTOR -> q <> BLOB_DB_FIRST_BUCKET + bid -> pimg d2 q = pimg d q) as Hoth.
    { intros q H1q H2q. rewrite (fr_other _ _ _ Hf); [apply (ro_flash _ _ Hr1)|].
      rewrite !not_elem_of_cons. split_and!; [done|done|apply not_elem_of_nil]. }
    assert (forall b, 0 <= b -> b <> bid -> bimg d2 b = bimg d b) as Hothb.
    { intros b Hb Hne. apply Hoth; unfold_consts; lia. }
    assert (d_ix d2 = d_ix d) as Hix by (rewrite (fr_ix _ _ _ Hf); apply (ro_ix _ _ Hr1)).
    assert (d_geo d2 = d_geo d) as Hge by (rewrite (fr_geo _ _ _ Hf); apply (ro_geo _ _ Hr1)).
    pose proof (works_ro _ _ _ _ Hr1 Hw) as Hwk. destruct r as [[]|e].
    + eapply wp_mono; [eapply (after_commit_spec d d2 bid buf buf'); try done; by inversion Hce|].
      intros r d3 (-> & Hc3 & x & ->). split; try done.
      * intros Hh. split; [by apply Hwk|by left].
      * right. by eapply commit_end_ix.
    + eapply wp_mono; [by apply (forget_fail_spec cfg g Hg sidx_wf d d2 bid)|].
      intros r d3 (-> & Hc3 & ->). split; try done.
      * intros Hh. by destruct (Hwk Hh).
      * right. by eapply commit_end_ix.
Qed.

(** ** What the next mount will see

    [rimg d b] is bucket [b] once recovery has run: the sealed scratch image if
    there is one for it, otherwise the bucket as it is. *)
Definition unsealed d : Prop := sealed_as g (scratch d) = None.

Definition rimg d (b : Z) : bytes :=
  match sealed_as g (scratch d) with
  | Some (b', il) => if b =? b' then committed g il (scratch d) else bimg d b
  | None => bimg d b
  end.

Definition rslots d (id : Z) : option (Z * bytes) := bucket_slot cfg g (rimg d (id mod n_buckets g)) (id mod n_buckets g) id.
Definition rcontents d (id : Z) : option bytes := snd <$> rslots d id.

Definition rinv d : Prop := forall bid, 0 <= bid < n_buckets g ->
  bucket_hdr_valid (rimg d bid) bid = true -> bucket_inv cfg g bid (rimg d bid).

(** The event recovery cannot rule out: a scratch sector that verifies as
    sealed without holding the image that was being committed. *)
Definition stray_seal (sb : bytes) (bid : Z) (image : bytes) : Prop :=
  exists b il, sealed_as g sb = Some (b, il) /\ ~ (b = bid /\ zt il sb = image).

Lemma rimg_unsealed d b : unsealed d -> rimg d b = bimg d b.
Proof. unfold unsealed, rimg. by intros ->. Qed.

Lemma rslots_unsealed d id : unsealed d -> rslots d id = slots cfg g d id.
Proof. intros Hu. unfold rslots. by rewrite rimg_unsealed. Qed.

Lemma rcontents_unsealed d id : unsealed d -> rcontents d id = contents cfg g d id.
Proof. intros Hu. unfold rcontents. by rewrite rslots_unsealed. Qed.

Lemma unsealed_erased d : scratch d = erased (peb_size g) -> unsealed d.
Proof. intros Hs. unfold unsealed. rewrite Hs. by apply (sealed_as_erased cfg g). Qed.

Lemma scratch_len d : len (scratch d) = peb_size g.
Proof. apply (img_len (StoreLaws := SL)), (scratch_peb cfg g Hg). Qed.

(** The compacted image stands for the same bucket. *)
Lemma committed_inv buf bid buf' :
  img_ok g buf -> bucket_inv cfg g bid buf -> compacted cfg g buf bid buf' ->
  bucket_inv cfg g bid (committed g (compact_len cfg g buf) buf').
Proof.
  intros Hok Hbi Hcp. destruct (committed_spec cfg g Hg buf bid buf' Hok Hcp) as (Hokc & Hvc & Hlc & Hec & Hblc).
  pose proof (cp_len _ _ _ _ _ Hcp). pose proof (log_end_bounds cfg g Hg buf (proj2 Hok)).
  destruct (blank_stop cfg g _ (compact_len cfg g buf) (proj1 Hokc)) as (_ & Hf & Ht); [lia|done|]. split.
  - unfold tail_ok. by rewrite Hec, Hf, Ht.
  - intros en. rewrite Hlc. intros Hen Hi. destruct (reloc_elem _ _ _ Hen) as (e & He & Hsv & Hie & _).
    destruct (survivors_elem _ _ He) as (He' & _ & _). unfold e_id. rewrite Hsv. apply (bi_ids _ _ _ _ Hbi e He'). congruence.
Qed.

(** What follows when every bucket but [bid] is as it was, and [bid] is either
    as it was or its compacted image. *)
Lemma settle d d' bid buf' :
  0 <= bid < n_buckets g -> db_inv d -> bucket_hdr_valid (bimg d bid) bid = true ->
  compacted cfg g (bimg d bid) bid buf' ->
  (forall b, 0 <= b < n_buckets g -> b <> bid -> rimg d' b = bimg d b) ->
  rimg d' bid = bimg d bid \/ rimg d' bid = committed g (compact_len cfg g (bimg d bid)) buf' ->
  rinv d' /\ forall id, rslots d' id = slots cfg g d id.
Proof.
  intros Hbid Hinv Hv Hcp Hoth Hb. pose proof (bimg_ok cfg g Hg d bid Hbid) as Hok.
  pose proof (inv_bucket _ _ _ _ Hinv bid Hbid Hv) as Hbi. split.
  - intros b Hb'. destruct (decide (b = bid)) as [->|Hne]; [|rewrite Hoth by done; by apply Hinv].
    intros _. destruct Hb as [->| ->]; [done|]. by apply committed_inv.
  - intros id. unfold rslots, slots. pose proof (bucket_range cfg g Hg id).
    destruct (decide (id mod n_buckets g = bid)) as [E|Hne]; [|by rewrite Hoth]. rewrite E.
    destruct Hb as [->| ->]; [done|]. unfold bucket_slot. rewrite Hv.
    destruct (committed_spec cfg g Hg (bimg d bid) bid buf' Hok Hcp) as (_ & -> & _).
    by rewrite (committed_slot cfg g Hg (bimg d bid) bid buf').
Qed.

(** ** Recovery *)

Lemma scratch_sealed_bucket_spec d :
  wp (scratch_sealed_bucket g) d (fun r d' => ro d d' /\
    match r with
    | Ok (b, buf, il) => buf = scratch d /\ sealed_as g (scratch d) = Some (b, il)
    | Err e => (e = EPERM /\ unsealed d) \/ (~ healthy (d_store d) /\ device_err e)
    end).
Proof.
  pose proof (scratch_peb cfg g Hg) as Hsp. destruct (seal_off_spec cfg g Hg Ha) as (? & ? & _).
  destruct (seal_len_spec cfg g Hg) as (_ & ? & _). pose proof (ok_peb_size _ _ Hg). unfold scratch_sealed_bucket.
  apply wp_bnd. eapply wp_mono; [by apply (peb_read_spec g); [|lia..]|].
  intros [sb|e] d1 [Hr1 Hq]; [|split; [done|by right]]. subst sb. fold (scratch d).
  unfold unsealed, sealed_as. cbv zeta.
  destruct (negb _ || negb _); [apply wp_fail; split; [done|by left]|].
  rewrite <- (Z.add_0_r (peb_offset g BLOB_DB_SCRATCH_SECTOR)).
  apply wp_bnd. eapply wp_mono; [by apply (peb_read_spec g); [|lia..]|].
  assert (scratch d1 = scratch d) as Hs by apply (ro_flash _ _ Hr1).
  intros [b|e] d2 [Hr2 Hq].
  2: { split; [by etrans|]. right. destruct Hq as [Hh He]. split; [|done]. intros Hd. by apply Hh, (ro_healthy _ _ Hr1). }
  subst b. fold (scratch d1). rewrite Hs, slice_all by (symmetry; apply scratch_len).
  assert (ro d d2) as Hr by by etrans.
  destruct (scratch_seal_valid g (scratch d)) as [il|]; [|apply wp_fail; split; [done|by left]].
  destruct (_ || negb _); [apply wp_fail; split; [done|by left]|]. apply wp_ret. done.
Qed.

Lemma sealed_bid_range d b il : sealed_as g (scratch d) = Some (b, il) -> 0 <= b < n_buckets g.
Proof.
  intros Es. destruct (sealed_as_bounds g _ _ _ Es) as (_ & Hv & Hlt). split; [|done].
  unfold bucket_hdr_valid in Hv. rewrite !andb_true_iff in Hv. destruct Hv as [_ <-%Z.eqb_eq].
  unfold dec_bucket_hdr. cbn [bh_bucket_id]. apply rd_range; [apply (img_bytes (StoreLaws := SL))|lia|lia|].
  rewrite scratch_len. pose proof (ok_peb_size _ _ Hg). lia.
Qed.

Definition seal_aligned d : Prop :=
  forall b il, sealed_as g (scratch d) = Some (b, il) -> il mod write_align g = 0.

Lemma compact_recoverable d d' r bid :
  0 <= bid < n_buckets g -> db_inv d -> unsealed d -> bucket_hdr_valid (bimg d bid) bid = true ->
  compact_post d d' r bid ->
  stray_seal (scratch d') bid (compact_image cfg g (bimg d bid) bid) \/
  (rinv d' /\ seal_aligned d' /\ forall id, rslots d' id = slots cfg g d id).
Proof.
  intros Hbid Hinv Hu Hv [Hge Hco Hoth _ Hres]. pose proof (bimg_ok cfg g Hg d bid Hbid) as Hok.
  destruct (compact_buf_spec cfg g Hg _ bid Hok Hbid) as [_ Hcp]. set (nl := compact_len cfg g (bimg d bid)) in *.
  assert (forall b, 0 <= b -> b <> bid -> bimg d' b = bimg d b) as Hothb by (intros; apply Hoth; unfold_consts; lia).
  pose proof (cp_len _ _ _ _ _ Hcp) as Hnl. fold nl in Hnl. pose proof (log_end_bounds cfg g Hg _ (proj2 Hok)).
  set (buf' := compact_buf cfg g (bimg d bid) bid) in *. set (image := compact_image cfg g (bimg d bid) bid) in *.
  assert (image = zt nl buf') as Him by done.
  assert (len image = nl) as Hlz by (rewrite Him; apply len_zt; destruct (cp_ok _ _ _ _ _ Hcp); lia).
  assert (sealed_as g (scratch d') = None -> bimg d' bid = bimg d bid \/ bimg d' bid = committed g nl buf') as Hcase.
  { intros Es. destruct Hres as [(_ & _ & _ & Hs)|Hce]; [left; apply Hs|]. destruct Hce; auto. congruence. }
  destruct (sealed_as g (scratch d')) as [[b il]|] eqn:Es.
  - destruct (decide (b = bid)) as [->|Hne]; [|left; exists b, il; tauto].
    destruct (decide (zt il (scratch d') = image)) as [Ez|Hne]; [right|left; exists bid, il; tauto].
    destruct (sealed_as_bounds g _ _ _ Es) as (Hil & _). pose proof (scratch_len d').
    destruct (seal_off_spec cfg g Hg Ha) as (? & ? & _). destruct (seal_len_spec cfg g Hg) as (_ & ? & _).
    assert (il = nl) as -> by (rewrite <- Hlz, <- Ez; symmetry; apply len_zt; lia).
    assert (seal_aligned d') as Hal.
    { intros b' il' Es'. rewrite Es in Es'. injection Es' as <- <-. by apply (compact_len_aligned _ bid buf'). }
    enough (rinv d' /\ forall id, rslots d' id = slots cfg g d id) by tauto. eapply (settle d d' bid buf'); [done..| |].
    + intros b Hb Hne. unfold rimg. rewrite Es. destruct (Z.eqb_spec b bid); [done|]. apply Hothb; [lia|done].
    + right. unfold rimg. rewrite Es, Z.eqb_refl. unfold committed. by rewrite Ez.
  - right. assert (seal_aligned d') as Hal by (intros b' il'; by rewrite Es).
    enough (rinv d' /\ forall id, rslots d' id = slots cfg g d id) by tauto. eapply (settle d d' bid buf'); [done..| |].
    + intros b Hb Hne. rewrite rimg_unsealed by done. apply Hothb; [lia|done].
    + rewrite rimg_unsealed by done. auto.
Qed.

(** A compaction that succeeded. *)
Lemma compact_done d d' bid :
  0 <= bid < n_buckets g -> db_inv d -> bucket_hdr_valid (bimg d bid) bid = true -> compact_post d d' (Ok tt) bid ->
  let buf := bimg d' bid in
  db_inv d' /\ same_contents cfg g d d' /\ d_st d' = d_st d /\ bucket_hdr_valid buf bid = true /\
  log_end cfg g buf = compact_len cfg g (bimg d bid) /\ torn_at cfg g buf (log_end cfg g buf) = false /\
  slot_foreign_at cfg g buf (log_end cfg g buf) = false /\ (unsealed d -> unsealed d').
Proof.
  intros Hbid Hinv Hv [Hge Hco Hoth _ Hres] buf. set (nl := compact_len cfg g (bimg d bid)) in *.
  assert (forall b, 0 <= b -> b <> bid -> bimg d' b = bimg d b) as Hothb by (intros; apply Hoth; unfold_consts; lia).
  pose proof (bimg_ok cfg g Hg d bid Hbid) as Hok. pose proof (inv_bucket _ _ _ _ Hinv bid Hbid Hv) as Hbi.
  destruct (compact_buf_spec cfg g Hg _ bid Hok Hbid) as [_ Hcp]. set (buf' := compact_buf cfg g (bimg d bid) bid) in *.
  destruct Hres as [(? & _)|Hce]; [done|]. inversion Hce as [Hst Hb Hs| | | |]; subst.
  destruct (committed_spec cfg g Hg (bimg d bid) bid buf' Hok Hcp) as (Hokc & Hvc & Hlc & Hec & Hblc). fold nl in Hokc, Hvc, Hlc, Hec, Hblc.
  assert (buf = committed g nl buf') as Hbuf by done. pose proof (cp_len _ _ _ _ _ Hcp) as Hcl. fold nl in Hcl.
  pose proof (log_end_bounds cfg g Hg _ (proj2 Hok)).
  destruct (blank_stop cfg g _ nl (proj1 Hokc)) as (_ & Hf & Ht); [lia|done|]. rewrite Hbuf, Hec.
  split_and!; try done.
  - split; [done|]. intros b Hb'. destruct (decide (b = bid)) as [->|Hne]; [|rewrite Hothb by (done || lia); by apply Hinv].
    fold buf. rewrite Hbuf. intros _. by apply committed_inv.
  - intros id. unfold slots. pose proof (bucket_range cfg g Hg id).
    destruct (decide (id mod n_buckets g = bid)) as [E|Hne]; [|by rewrite Hothb by (done || lia)].
    rewrite E. fold buf. unfold bucket_slot. rewrite Hv, Hbuf, Hvc. by apply committed_slot with bid.
  - intros Hu. destruct Hs as [Hs|Hs]; [unfold unsealed; by rewrite Hs|by apply unsealed_erased].
Qed.

(** A compaction that failed either wedged the store or left the bucket whole. *)
Lemma kept_or_wedged d d' e bid :
  0 <= bid < n_buckets g -> db_inv d -> bucket_hdr_valid (bimg d bid) bid = true -> compact_post d d' (Err e) bid ->
  wedged (d_st d') = true \/ (d_st d' = d_st d /\ db_inv d' /\ same_contents cfg g d d').
Proof.
  intros Hbid Hinv Hv [Hge Hco Hoth _ Hres]. pose proof (bimg_ok cfg g Hg d bid Hbid) as Hok.
  destruct (compact_buf_spec cfg g Hg _ bid Hok Hbid) as [_ Hcp]. pose proof (inv_bucket _ _ _ _ Hinv bid Hbid Hv) as Hbi.
  assert (forall b, 0 <= b -> b <> bid -> bimg d' b = bimg d b) as Hothb by (intros; apply Hoth; unfold_consts; lia).
  destruct (committed_spec cfg g Hg (bimg d bid) bid _ Hok Hcp) as (_ & Hvc & _).
  assert (bimg d' bid = bimg d bid \/ bimg d' bid = committed g (compact_len cfg g (bimg d bid)) (compact_buf cfg g (bimg d bid) bid) ->
    db_inv d' /\ same_contents cfg g d d') as Hfin.
  { intros Hb. split.
    - split; [done|]. intros b Hb'. destruct (decide (b = bid)) as [->|Hne]; [|rewrite Hothb by (done || lia); by apply Hinv].
      destruct Hb as [->| ->]; intros _; [done|by apply committed_inv].
    - intros id. unfold slots. pose proof (bucket_range cfg g Hg id).
      destruct (decide (id mod n_buckets g = bid)) as [E|Hne]; [|by rewrite Hothb by (done || lia)].
      rewrite E. destruct Hb as [->| ->]; [done|]. unfold bucket_slot. rewrite Hv, Hvc. by apply committed_slot with bid. }
  destruct Hres as [(_ & _ & Hst & Hs)|Hce]; [right; split; [done|]; apply Hfin; left; apply Hs|].
  inversion Hce as [|? ? Hst Hb|? ? Hst Hb|? ? Hst|? ? Hst]; subst; try (left; by rewrite Hst); right; (split; [done|apply Hfin; auto]).
Qed.

(** What recovery does: nothing without a seal; otherwise the named bucket
    becomes the sealed image and scratch is erased, or scratch still holds the
    image, or the bucket already does. *)
Lemma recover_compaction_spec d :
  seal_aligned d ->
  wp (recover_compaction g) d (fun r d' =>
    works d r d' /\ d_st d' = d_st d /\ d_ix d' = d_ix d /\
    match sealed_as g (scratch d) with
    | None => same_flash (d_store d) (d_store d')
    | Some (b, il) =>
        (forall q, q <> BLOB_DB_SCRATCH_SECTOR -> q <> BLOB_DB_FIRST_BUCKET + b -> pimg d' q = pimg d q) /\
        match r with
        | Ok _ => bimg d' b = committed g il (scratch d) /\ scratch d' = erased (peb_size g)
        | Err _ => scratch d' = scratch d \/ bimg d' b = committed g il (scratch d)
        end
    end).
Proof.
  intros Hal. unfold recover_compaction. apply wp_bnd, wp_try. eapply wp_mono; [apply scratch_sealed_bucket_spec|].
  assert (forall d' q, ro d d' -> pimg d' q = pimg d q) as Hro by (intros d' q Hr; apply (ro_flash _ _ Hr)).
  intros [[[b buf] il]|e] d1 [Hr1 Hq].
  - destruct Hq as [-> Es]. pose proof (sealed_bid_range d b il Es) as Hb. rewrite Es.
    pose proof (scratch_ne_bucket b ltac:(lia)) as Hne. pose proof (bucket_peb cfg g Hg b Hb) as Hbp.
    destruct (sealed_as_bounds g _ _ _ Es) as (Hil & _). pose proof (scratch_len d).
    destruct (seal_off_spec cfg g Hg Ha) as (? & ? & _). destruct (seal_len_spec cfg g Hg) as (_ & ? & _).
    set (image := zt il (scratch d)). assert (len image = il) as Hli by (apply len_zt; lia).
    apply wp_bnd. eapply wp_mono; [by apply (peb_erase_spec g)|].
    intros [[]|e] d2 (Hw2 & b2 & Ho2 & Hr2).
    2: { split; [by eapply works_ro|]. split; [rewrite (op_st _ _ _ _ Ho2); apply Hr1|].
         split; [rewrite (op_ix _ _ _ _ Ho2); apply Hr1|]. split.
         - intros q H1q H2q. rewrite (op_other _ _ _ _ Ho2) by done. by apply Hro.
         - left. unfold scratch. rewrite (op_other _ _ _ _ Ho2) by done. by apply Hro. }
    subst b2. apply wp_bnd. eapply wp_mono.
    { apply (peb_write_image cfg g Hg); [done|lia|rewrite Hli; by eapply Hal| |apply (op_img _ _ _ _ Ho2)].
      unfold image. rewrite zt_slice. apply bytes_ok_slice, (img_bytes (StoreLaws := SL)). }
    intros r3 d3 (Hw3 & b3 & Ho3 & Hr3). pose proof (only_peb_trans _ _ _ _ _ _ Ho2 Ho3) as Ho13.
    assert (works d (@Ok unit tt) d2) as Hw02 by (by eapply works_ro).
    destruct r3 as [[]|e].
    2: { split; [by eapply works_trans|]. split; [rewrite (op_st _ _ _ _ Ho13); apply Hr1|].
         split; [rewrite (op_ix _ _ _ _ Ho13); apply Hr1|]. split.
         - intros q H1q H2q. rewrite (op_other _ _ _ _ Ho13) by done. by apply Hro.
         - left. unfold scratch. rewrite (op_other _ _ _ _ Ho13) by done. by apply Hro. }
    subst b3. eapply wp_mono; [apply (peb_erase_spec g), (scratch_peb cfg g Hg)|].
    intros r4 d4 (Hw4 & b4 & Ho4 & Hr4).
    assert (bimg d4 b = committed g il (scratch d)) as Hb4.
    { unfold bimg. fold (pimg d4 (BLOB_DB_FIRST_BUCKET + b)). rewrite (op_other _ _ _ _ Ho4) by done.
      rewrite (op_img _ _ _ _ Ho3). unfold scratch_with, committed. by rewrite Hli. }
    split; [eapply works_trans; [exact Hw02|intros _; by eapply works_trans]|].
    split; [rewrite (op_st _ _ _ _ Ho4), (op_st _ _ _ _ Ho13); apply Hr1|].
    split; [rewrite (op_ix _ _ _ _ Ho4), (op_ix _ _ _ _ Ho13); apply Hr1|]. split.
    + intros q H1q H2q. rewrite (op_other _ _ _ _ Ho4), (op_other _ _ _ _ Ho13) by done. by apply Hro.
    + destruct r4 as [[]|e]; [|by right]. split; [done|]. subst b4. apply (op_img _ _ _ _ Ho4).
  - assert (forall r, (is_ok r = true \/ ~ healthy (d_store d)) -> works d (r : res unit) d1 /\ d_st d1 = d_st d /\ d_ix d1 = d_ix d) as Hx.
    { intros r Hr. split; [|split; apply Hr1]. intros Hh. split; [tauto|by apply (ro_healthy _ _ Hr1)]. }
    destruct Hq as [[-> Hu]|[Hh He]].
    + apply wp_ret. destruct (Hx (Ok tt)) as (?&?&?); [by left|]. unfold unsealed in Hu. rewrite Hu. split_and!; try done. apply Hr1.
    + assert (e <> EPERM) as Hep by apply He.
      destruct (sealed_as g (scratch d)) as [[b il]|] eqn:Es.
      * destruct e; try done; apply wp_fail; (split; [by apply (Hx (Err _)); right|]); (split; [apply Hr1|]); (split; [apply Hr1|]);
          (split; [intros; by apply Hro|left; by apply Hro]).
      * destruct e; try done; apply wp_fail; (split; [by apply (Hx (Err _)); right|]); (split; [apply Hr1|]); (split; [apply Hr1|]); apply Hr1.
Qed.
End spec.
