(* ===== verification/Ops.v ===== *)
(** The object operations of blob_db.c: get, update, delete, exists, size, read,
    write, count and iterate, for a build without CONFIG_BLOB_DB_LARGE_PAYLOADS.
    A [size_t] is 32 bits wide; [None] for a buffer argument is a NULL pointer
    passed with a nonzero length. *)

From S2P Require Import Prelude Layout Store SlotIndexIface Image Core Compact.

Section ops.
Context (cfg : config) (g : geom) `{Crc}.
Context {S I : Type} `{!Store S} `{!SlotIndex I}.
Notation db := (db S I).

Definition get_impl (id : Z) (out_null : bool) (out_sz : Z) : M db bytes :=
  let* m := st_get mounted in
  if negb m then mfail ENODEV
  else if (out_sz >? 0) && out_null then mfail EINVAL
  else if id =? 0 then mfail ENOENT
  else
    let bid := id_to_bucket g id in
    let* formatted := read_bucket_hdr g bid in
    if negb formatted then mfail ENOENT
    else
      let* r := find_live_slot cfg g bid id in
      let* dst := mlift (snd r) in
      let val_len := sh_val_len (head_hdr (target (fst r))) in
      if out_sz <? val_len then mfail ENOMEM else mret (zt val_len dst).

Definition update_impl (id : Z) (payload : option bytes) : M db unit :=
  let* m := st_get mounted in
  let* w := st_get wedged in
  let* nx := st_get next_id in
  if negb m then mfail ENODEV
  else if w then mfail EIO
  else if (id =? 0) || (id >=? nx) then mfail EINVAL
  else
    match payload with
    | None => mfail EINVAL
    | Some p =>
        if len p >? MAX_PAYLOAD_LEN cfg then mfail EINVAL
        else
          let bid := id_to_bucket g id in
          let* formatted := read_bucket_hdr g bid in
          let* write_cursor :=
            if negb formatted then format_bucket g bid;;; mret BLOB_DB_BUCKET_DATA_OFF
            else
              let* sc := bucket_cursor cfg g bid id in
              confirm_cursor cfg g bid id sc in
          let ssz := slot_size_for g (u16 (len p)) in
          let* write_cursor :=
            if write_cursor + ssz >? peb_size g then
              compact_bucket cfg g bid;;;
              let* sc := bucket_cursor cfg g bid id in
              let* wc := confirm_cursor cfg g bid id sc in
              if wc + ssz >? peb_size g then mfail ENOSPC else mret wc
            else mret write_cursor in
          append_slot cfg g bid write_cursor id 0 p
    end.

Definition delete_impl (id : Z) : M db unit :=
  let* m := st_get mounted in
  let* w := st_get wedged in
  if negb m then mfail ENODEV
  else if w then mfail EIO
  else if id =? 0 then mfail ENOENT
  else
    let bid := id_to_bucket g id in
    let* formatted := read_bucket_hdr g bid in
    if negb formatted then mfail ENOENT
    else
      let* r := find_live_slot cfg g bid id in
      mlift (snd r);;;
      let ssz := slot_size_for g 0 in
      let* write_cursor := confirm_cursor cfg g bid id (fst r) in
      let* write_cursor :=
        if write_cursor + ssz >? peb_size g then
          compact_bucket cfg g bid;;;
          let* r := find_live_slot cfg g bid id in
          mlift (snd r);;;
          let* wc := confirm_cursor cfg g bid id (fst r) in
          if wc + ssz >? peb_size g then mfail ENOSPC else mret wc
        else mret write_cursor in
      append_slot cfg g bid write_cursor id BLOB_DB_SLOT_F_TOMBSTONE [].

(** [exists_impl()] answers false on any error. *)
Definition exists_impl (id : Z) : M db bool :=
  let* m := st_get mounted in
  if negb m || (id =? 0) then mret false
  else
    let bid := id_to_bucket g id in
    let* rc := mtry (read_bucket_hdr g bid) in
    match rc with
    | Ok true =>
        let* r := mtry (find_live_slot cfg g bid id) in
        mret (match r with Ok (_, Ok _) => true | _ => false end)
    | _ => mret false
    end.

Definition size_impl (id : Z) (out_null : bool) : M db Z :=
  let* m := st_get mounted in
  if negb m then mfail ENODEV
  else if out_null then mfail EINVAL
  else if id =? 0 then mfail ENOENT
  else
    let bid := id_to_bucket g id in
    let* formatted := read_bucket_hdr g bid in
    if negb formatted then mfail ENOENT
    else
      let* r := find_live_slot cfg g bid id in
      mlift (snd r);;;
      mret (sh_val_len (head_hdr (target (fst r)))).

(** The bytes copied to [out]; [*out_read] is their number. *)
Definition read_impl (id offset : Z) (out_null : bool) (n : Z) : M db bytes :=
  let* m := st_get mounted in
  if negb m then mfail ENODEV
  else if (n >? 0) && out_null then mfail EINVAL
  else if id =? 0 then mfail ENOENT
  else
    let bid := id_to_bucket g id in
    let* formatted := read_bucket_hdr g bid in
    if negb formatted then mfail ENOENT
    else
      let* r := find_live_slot cfg g bid id in
      let* dst := mlift (snd r) in
      let have := sh_val_len (head_hdr (target (fst r))) in
      if offset >=? have then mret []
      else
        let n := if n >? have - offset then have - offset else n in
        mret (slice offset n dst).

(** The payload [write_impl()] stages: the old one extended with zeros to
    [need], with the new bytes copied over it. *)
Definition staged (dst buf : bytes) (offset have need : Z) : bytes :=
  splice offset buf (zt have dst ++ replicate (Z.to_nat (need - have)) 0).

(** [write_impl()] from the object found in [sc], staged in [dst], on. *)
Definition write_inline (bid id offset : Z) (b : bytes) (sc : bucket_scan) (dst : bytes) : M db unit :=
  let hdr := head_hdr (target sc) in
  if flag_set (sh_flags hdr) BLOB_DB_SLOT_F_SEGMENT then mfail EINVAL
  else if len b =? 0 then mret tt
  else
    let have := sh_val_len hdr in
    let need := Z.max (u32 (offset + len b)) have in
    if need >? MAX_PAYLOAD_LEN cfg then mfail EFBIG
    else
      let ssz := slot_size_for g (u16 need) in
      let* wc := confirm_cursor cfg g bid id sc in
      let* wd :=
        if wc + ssz >? peb_size g then
          compact_bucket cfg g bid;;;
          let* r := find_live_slot cfg g bid id in
          let* dst := mlift (snd r) in
          let* wc := confirm_cursor cfg g bid id (fst r) in
          if wc + ssz >? peb_size g then mfail ENOSPC else mret (wc, dst)
        else mret (wc, dst) in
      append_slot cfg g bid (fst wd) id 0 (staged (snd wd) b offset have need).

Definition write_impl (id offset : Z) (buf : option bytes) : M db unit :=
  let* m := st_get mounted in
  let* w := st_get wedged in
  if negb m then mfail ENODEV
  else if w then mfail EIO
  else
    match buf with
    | None => mfail EINVAL
    | Some b =>
        if id =? 0 then mfail ENOENT
        else if u32 (offset + len b) <? offset then mfail EINVAL
        else
          let bid := id_to_bucket g id in
          let* formatted := read_bucket_hdr g bid in
          if negb formatted then mfail ENOENT
          else
            let* r := find_live_slot cfg g bid id in
            let* dst := mlift (snd r) in
            write_inline bid id offset b (fst r) dst
    end.

(** ** Walking everything *)

(** [for_each_live_slot()]: [cb] may stop the walk with a nonzero value. *)
Fixpoint for_each_from {U} (fuel : nat) (buf : bytes) (cursor : Z) (cb : Z -> bytes -> U -> Z * U) (user : U) : Z * U :=
  match fuel with
  | O => (0, user)
  | Datatypes.S fuel =>
      match slot_walk_at cfg g buf cursor with
      | None => (0, user)
      | Some (sv, intact) =>
          let next := cursor + sv_total_size sv in
          if negb intact then for_each_from fuel buf next cb user
          else
            let superseded := slot_superseded cfg g buf cursor sv in
            let internal := LARGE_PAYLOADS cfg && flag_set (sv_flags sv) BLOB_DB_SLOT_F_SEGMENT in
            if negb superseded && negb internal && negb (flag_set (sv_flags sv) BLOB_DB_SLOT_F_TOMBSTONE) then
              let (r, user) := cb (sv_id sv) (slice (cursor + 12) (sv_val_len sv) buf) user in
              if negb (r =? 0) then (r, user) else for_each_from fuel buf next cb user
            else for_each_from fuel buf next cb user
      end
  end.

Definition for_each_live_slot {U} (buf : bytes) (cb : Z -> bytes -> U -> Z * U) (user : U) : Z * U :=
  for_each_from (walk_fuel g) buf BLOB_DB_BUCKET_DATA_OFF cb user.

Definition count_visitor (id : Z) (p : bytes) (n : Z) : Z * Z := (0, u32 (n + 1)).

(** The loop over [bid] of [count_impl()]. *)
Fixpoint count_loop (k : nat) (bid total : Z) : M db Z :=
  match k with
  | O => mret total
  | Datatypes.S k =>
      let* rc := mtry (read_bucket g bid) in
      match rc with
      | Err _ => count_loop k (bid + 1) total
      | Ok buf =>
          if negb (bucket_hdr_valid buf bid) then count_loop k (bid + 1) total
          else count_loop k (bid + 1) (snd (for_each_live_slot buf count_visitor total))
      end
  end.

Definition count_impl : M db Z :=
  let* m := st_get mounted in
  if negb m then mret 0 else count_loop (Z.to_nat (n_buckets g)) 0 0.

(** The loop of [iterate_impl()]: the value it returns to the caller, 0 for a
    walk that completed, and the caller's data. *)
Fixpoint iterate_loop {U} (k : nat) (bid : Z) (cb : Z -> bytes -> U -> Z * U) (user : U) : M db (Z * U) :=
  match k with
  | O => mret (0, user)
  | Datatypes.S k =>
      let* rc := mtry (read_bucket g bid) in
      match rc with
      | Err _ => iterate_loop k (bid + 1) cb user
      | Ok buf =>
          if negb (bucket_hdr_valid buf bid) then iterate_loop k (bid + 1) cb user
          else if bucket_image_ends_foreign cfg g buf then mfail EIO
          else
            let (r, user) := for_each_live_slot buf cb user in
            if negb (r =? 0) then mret (r, user) else iterate_loop k (bid + 1) cb user
      end
  end.

Definition iterate_impl {U} (cb : option (Z -> bytes -> U -> Z * U)) (user : U) : M db (Z * U) :=
  let* m := st_get mounted in
  if negb m then mfail ENODEV
  else
    match cb with
    | None => mfail EINVAL
    | Some cb => iterate_loop (Z.to_nat (n_buckets g)) 0 cb user
    end.
End ops.
