(* ===== verification/OpsRead.v ===== *)
(** The read-only operations answer from the contents of the store: get, size,
    read, exists, and the walks behind count and iterate. *)

From S2P Require Import Prelude Layout Store SlotIndexIface Image Core CoreRead Lookup Append Bucket Compact.
From S2P Require Import CompactImage Ops.

(** ** The survivors of a log are its live objects, each once *)

Lemma survivors_ids l : NoDup (e_id <$> survivors l).
Proof.
  induction l as [|e l IH]; cbn [survivors]; [constructor|]. destruct (e_intact e && negb (e_tomb e) && _) eqn:E; [|done].
  apply andb_true_iff in E as [_ E]. destruct (newest (e_id e) l) eqn:En; [done|].
  cbn. constructor; [|done]. rewrite list_elem_of_fmap. intros (x & Hx & Hs).
  destruct (survivors_elem _ _ Hs) as (Hin & Hi & _). pose proof (proj1 (newest_None _ _) En x Hin Hi). congruence.
Qed.

Lemma survivors_slot l e : e ∈ survivors l -> slot_of (e_id e) l = Some (sv_flags (e_sv e), e_payload e).
Proof.
  intros He. rewrite <- slot_survivors. destruct (survivors_elem _ _ He) as (_ & Hi & Ht).
  unfold slot_of, live. assert (newest (e_id e) (survivors l) = Some e) as ->; [|by rewrite Ht].
  apply last_such_Some. apply list_elem_of_split in He as (l1 & l2 & E). exists l1, l2. rewrite Hi, Z.eqb_refl.
  split_and!; [done..|]. intros x Hx. destruct (Z.eqb_spec (e_id x) (e_id e)) as [Ex|]; [|by rewrite andb_false_r].
  exfalso. pose proof (survivors_ids l) as Hnd. rewrite E, fmap_app, fmap_cons in Hnd. apply list.NoDup_app in Hnd as (_ & _ & Hnd).
  apply list.NoDup_cons in Hnd as [Hn _]. apply Hn. rewrite <- Ex. by apply list_elem_of_fmap_2.
Qed.

Lemma slot_survives l id v : slot_of id l = Some v -> exists e, e ∈ survivors l /\ e_id e = id /\ v = (sv_flags (e_sv e), e_payload e).
Proof.
  unfold slot_of. destruct (live id l) as [e|] eqn:El; [|done]. intros [= <-]. rewrite <- newest_survivors in El.
  apply newest_Some in El as (_ & ? & ?). by exists e.
Qed.

Lemma survivors_live l e : e ∈ survivors l -> value (e_id e) l = Some (e_payload e).
Proof. intros He. unfold value. by rewrite (survivors_slot _ _ He). Qed.

Lemma live_survives l id p : value id l = Some p -> exists e, e ∈ survivors l /\ e_id e = id /\ e_payload e = p.
Proof.
  unfold value. destruct (slot_of id l) as [[fl q]|] eqn:E; [|done]. intros [= <-].
  destruct (slot_survives _ _ _ E) as (e & He & Hi & [= _ ->]). by exists e.
Qed.

Section reads.
Context (cfg : config) (g : geom) `{Crc}.
Context {S I : Type} `{!Store S} `{!StoreView S} `{!SlotIndex I}.
Context (Hg : geom_ok cfg g) {SL : StoreLaws S (store_geom_of g)} {CL : CrcLaws _}.
Context (sidx_wf : Z -> I -> Prop) {IL : SlotIndexLaws I sidx_wf}.
Notation db := (db S I).
Notation coherent := (coherent cfg g sidx_wf).
Notation db_inv := (db_inv cfg g sidx_wf).
Notation reads_co := (reads_co cfg g sidx_wf).
Notation reads_rc := (reads_rc cfg g sidx_wf).
Implicit Types d : db.

(** ** Composition *)

Lemma reads_rc_bnd {A B} d (m : M db A) (k : A -> M db B) (Q : A -> Prop) want :
  reads_co d m Q -> (forall a d', roi d d' -> Q a -> reads_rc d' (k a) want) -> reads_rc d (mbnd m k) want.
Proof.
  intros Hm Hk Hc. apply wp_bnd. eapply wp_mono; [exact (Hm Hc)|]. intros [a|e] d1 (Hr1 & Hc1 & Hq).
  - eapply wp_mono; [exact (Hk a d1 Hr1 Hq Hc1)|]. intros r d2 (Hr2 & Hc2 & Hw).
    split_and!; [by etrans|done|]. destruct Hw as [?|(e & ? & Hh & ?)]; [by left|right].
    exists e. split_and!; [done| |done]. intros Hd. apply Hh, (roi_healthy _ _ Hr1), Hd.
  - split_and!; [done|done|]. right. exists e. tauto.
Qed.

Lemma reads_rc_ret {A} d (a : A) want : want = Ok a -> reads_rc d (mret a) want.
Proof. intros -> Hc. apply wp_ret. split_and!; [reflexivity|done|by left]. Qed.

Lemma reads_rc_fail {A} d e (want : res A) : want = Err e -> reads_rc d (mfail e) want.
Proof. intros -> Hc. apply wp_fail. split_and!; [reflexivity|done|by left]. Qed.

Lemma reads_rc_st {A B} d (f : st_t -> A) (k : A -> M db B) want :
  reads_rc d (k (f (d_st d))) want -> reads_rc d (mbnd (st_get f) k) want.
Proof. intros Hk Hc. apply wp_bnd, wp_gets. by apply Hk. Qed.

(** ** Locating an object *)

(** What find_live_slot() answers for a sound store: the slot, with its flags. *)
Definition found d (id : Z) (x : bucket_scan * res bytes) : Prop :=
  snd x = (match slots cfg g d id with Some (_, p) => Ok p | None => Err ENOENT end) /\
  scan_of cfg g (bimg d (id mod n_buckets g)) (fst x) /\
  forall fl p, slots cfg g d id = Some (fl, p) ->
    sh_flags (head_hdr (target (fst x))) = fl /\ sh_val_len (head_hdr (target (fst x))) = len p /\
    len p <= MAX_PAYLOAD_LEN cfg /\ bytes_ok p /\ flags_unknown cfg fl = false.

(** The same of the payload alone, in a build without large payloads. *)
Definition located d (id : Z) (x : bucket_scan * res bytes) : Prop :=
  snd x = (match contents cfg g d id with Some p => Ok p | None => Err ENOENT end) /\
  scan_of cfg g (bimg d (id mod n_buckets g)) (fst x) /\
  forall p, contents cfg g d id = Some p ->
    sh_val_len (head_hdr (target (fst x))) = len p /\ len p <= MAX_PAYLOAD_LEN cfg /\ bytes_ok p /\
    flag_set (sh_flags (head_hdr (target (fst x)))) BLOB_DB_SLOT_F_SEGMENT = false.

Lemma elem_known d bid en :
  0 <= bid < n_buckets g -> en ∈ bucket_log cfg g (bimg d bid) ->
  len (e_payload en) = sv_val_len (e_sv en) /\ sv_val_len (e_sv en) <= MAX_PAYLOAD_LEN cfg /\ bytes_ok (e_payload en) /\
  flags_unknown cfg (sv_flags (e_sv en)) = false.
Proof.
  intros Hb Hen. destruct (bimg_ok cfg g Hg d bid Hb) as [Hlen Hbytes]. pose proof (ok_peb_size _ _ Hg).
  destruct (log_elem_head cfg g Hg d bid en Hb Hen) as (?&?&?&?&_&Hf&Hv&_&Hp).
  destruct (parsed_log cfg g Hg _ Hbytes) as [Hl _]. destruct (log_rel_elem cfg g _ _ _ _ en Hl Hen) as [Hw _].
  destruct (slot_walk_bounds cfg g Hg _ (e_off en) _ _ Hbytes ltac:(lia) Hw) as (_&_&Hm&_). rewrite Hv in Hm. rewrite Hp, Hv.
  split_and!; [apply len_slice; lia|lia|by apply bytes_ok_slice|].
  rewrite slot_walk_at_eq in Hw by lia. destruct (head_ok _ _ _ _ _) eqn:Eh; [|done].
  unfold head_ok in Eh. rewrite !andb_true_iff, !negb_true_iff in Eh. destruct Eh as [[[_ Hu] _] _]. by rewrite Hf.
Qed.

(** A build without large payloads knows no segment flag. *)
Lemma known_no_segment fl : LARGE_PAYLOADS cfg = false -> flags_unknown cfg fl = false -> flag_set fl BLOB_DB_SLOT_F_SEGMENT = false.
Proof.
  intros Hlp Hu. revert Hu. unfold flags_unknown, flag_set, BLOB_DB_SLOT_F_KNOWN. rewrite Hlp, !negb_false_iff, !Z.eqb_eq.
  intros E. apply Z.bits_inj'. intros k Hk. rewrite Z.land_spec, Z.bits_0.
  destruct (decide (k = 3)) as [->|Hk3].
  - assert (Z.testbit (Z.land fl (Z.lnot (Z.lor BLOB_DB_SLOT_F_SEALED BLOB_DB_SLOT_F_TOMBSTONE))) 3 = false) as E3 by by rewrite E, Z.bits_0.
    rewrite Z.land_spec in E3. change (Z.testbit (Z.lnot _) 3) with true in E3. by rewrite andb_true_r in E3; rewrite E3.
  - change BLOB_DB_SLOT_F_SEGMENT with (2 ^ 3). rewrite Z.pow2_bits_false by lia. apply andb_false_r.
Qed.

Lemma not_foreign d bid :
  db_inv d -> 0 <= bid < n_buckets g -> bucket_hdr_valid (bimg d bid) bid = true ->
  slot_foreign_at cfg g (bimg d bid) (log_end cfg g (bimg d bid)) = false.
Proof. intros Hinv Hb Hv. apply (bi_tail _ _ _ _ (inv_bucket _ _ _ _ Hinv bid Hb Hv)). Qed.

Lemma find_live_found d id :
  0 < id < 2 ^ 64 -> db_inv d -> let bid := id mod n_buckets g in
  bucket_hdr_valid (bimg d bid) bid = true -> reads_co d (find_live_slot cfg g bid id) (found d id).
Proof.
  intros Hid Hinv bid Hv. pose proof (bucket_range cfg g Hg id) as Hb. fold bid in Hb.
  eapply reads_co_mono; [by apply find_live_slot_spec|]. intros [sc rc] Hf. fold bid in Hf.
  pose proof (not_foreign d bid Hinv Hb Hv) as Hnf. pose proof (find_result_scan cfg g _ _ _ _ Hf Hnf) as Hsc.
  unfold find_result in Hf. rewrite Hnf in Hf. destruct Hf as (_ & _ & _ & Hrc & Htg). simpl in Hrc, Htg.
  unfold found, slots, bucket_slot. fold bid. rewrite Hv. unfold slot_of. simpl.
  destruct (live id (bucket_log cfg g (bimg d bid))) as [en|] eqn:El; cbn; [|done]. split_and!; [done..|].
  intros fl p [= <- <-]. assert (en ∈ bucket_log cfg g (bimg d bid)) as Hen.
  { unfold live in El. destruct (newest id _) as [x|] eqn:En; [|done]. destruct (e_tomb x); [done|]. injection El as ->.
    by apply newest_Some in En as (_ & _ & ?). }
  destruct (elem_known d bid en Hb Hen) as (E1 & E2 & E3 & E4).
  destruct (log_elem_head cfg g Hg d bid en Hb Hen) as (_&_&_&_&_&Hfl&Hv2&_&_).
  rewrite (Htg en eq_refl). simpl. rewrite <- Hv2, <- Hfl, E1. done.
Qed.

Lemma found_located d id x : LARGE_PAYLOADS cfg = false -> found d id x -> located d id x.
Proof.
  intros Hlp (Hrc & Hs & Hf). unfold located, contents. destruct (slots cfg g d id) as [[fl p]|]; cbn; [|done].
  split_and!; [done..|]. intros q [= <-]. destruct (Hf fl p eq_refl) as (-> & ? & ? & ? & Hu). split_and!; try done. by apply known_no_segment.
Qed.

Lemma find_live_located d id :
  LARGE_PAYLOADS cfg = false -> 0 < id < 2 ^ 64 -> db_inv d -> let bid := id mod n_buckets g in
  bucket_hdr_valid (bimg d bid) bid = true -> reads_co d (find_live_slot cfg g bid id) (located d id).
Proof.
  intros Hlp Hid Hinv bid Hv. eapply reads_co_mono; [by apply find_live_found|]. intros x. by apply found_located.
Qed.

(** The guard every operation starts with. *)
Lemma formatted_spec {B} d id (k : M db B) (want : res B) (none : res B) :
  0 < id < 2 ^ 64 -> let bid := id mod n_buckets g in
  (bucket_hdr_valid (bimg d bid) bid = true -> forall d', roi d d' -> reads_rc d' k want) ->
  (bucket_hdr_valid (bimg d bid) bid = false -> want = Err ENOENT) ->
  reads_rc d (mbnd (read_bucket_hdr g (id_to_bucket g id)) (fun f => if negb f then mfail ENOENT else k)) want.
Proof.
  intros Hid bid H1 H2. rewrite (id_to_bucket_eq cfg g Hg). fold bid. pose proof (bucket_range cfg g Hg id) as Hb.
  eapply reads_rc_bnd; [by apply read_bucket_hdr_spec|]. intros f d' Hr ->. fold bid in H1, H2 |- *.
  destruct (bucket_hdr_valid (bimg d bid) bid); simpl; [by apply H1|]. apply reads_rc_fail. auto.
Qed.

Lemma slots_unformatted d id :
  bucket_hdr_valid (bimg d (id mod n_buckets g)) (id mod n_buckets g) = false -> slots cfg g d id = None.
Proof. intros E. unfold slots, bucket_slot. by rewrite E. Qed.

Lemma contents_unformatted d id :
  bucket_hdr_valid (bimg d (id mod n_buckets g)) (id mod n_buckets g) = false -> contents cfg g d id = None.
Proof. intros E. unfold contents. by rewrite slots_unformatted. Qed.

Lemma found_roi d d' id x : roi d d' -> found d' id x -> found d id x.
Proof. intros Hr. unfold found. by rewrite (slots_roi cfg g _ _ _ Hr), (roi_bimg _ _ _ Hr). Qed.

Lemma located_roi d d' id x : roi d d' -> located d' id x -> located d id x.
Proof. intros Hr. unfold located. by rewrite (contents_roi cfg g _ _ _ Hr), (roi_bimg _ _ _ Hr). Qed.

(** ** get, size, read, exists *)

(** The common shape of get, size and read: an answer computed from the payload
    of the live slot. *)
Lemma lookup_spec {B} d id (k : bucket_scan -> bytes -> M db B) (f : bytes -> res B) :
  LARGE_PAYLOADS cfg = false -> 0 < id < 2 ^ 64 -> db_inv d ->
  (forall sc p d', sh_val_len (head_hdr (target sc)) = len p -> reads_rc d' (k sc p) (f p)) ->
  reads_rc d (mbnd (read_bucket_hdr g (id_to_bucket g id)) (fun fm => if negb fm then mfail ENOENT else
    mbnd (find_live_slot cfg g (id_to_bucket g id) id) (fun r => mbnd (mlift (snd r)) (fun dst => k (fst r) dst))))
    (match contents cfg g d id with Some p => f p | None => Err ENOENT end).
Proof.
  intros Hlp Hid Hinv Hk. eapply (formatted_spec d id); [exact (Err ENOENT)|done| |].
  - intros Hv d1 Hr1 Hc1. pose proof (inv_roi _ _ _ _ _ Hr1 Hc1 Hinv) as Hinv1. revert Hc1. rewrite (id_to_bucket_eq cfg g Hg).
    eapply reads_rc_bnd; [apply find_live_located; try done; by rewrite (roi_bimg _ _ _ Hr1)|].
    intros [sc rc] d2 Hr2 Hl. apply (located_roi d d1) in Hl; [|done]. destruct Hl as (Hrc & _ & Hp). simpl in *. subst rc.
    destruct (contents cfg g d id) as [p|]; [|by apply reads_rc_fail]. destruct (Hp p eq_refl) as (Hl & _).
    change (mlift (Ok p)) with (@mret db bytes p). eapply (reads_rc_bnd _ _ _ (fun x => x = p)); [by apply reads_co_ret|].
    intros x d3 _ ->. auto.
  - intros Hv. by rewrite contents_unformatted.
Qed.

Lemma get_impl_spec d id sz :
  LARGE_PAYLOADS cfg = false -> 0 < id < 2 ^ 64 -> db_inv d -> mounted (d_st d) = true ->
  reads_rc d (get_impl cfg g id false sz)
    (match contents cfg g d id with
     | Some p => if sz <? len p then Err ENOMEM else Ok p
     | None => Err ENOENT
     end).
Proof.
  intros Hlp Hid Hinv Hm. unfold get_impl. apply reads_rc_st. rewrite Hm, andb_false_r. simpl.
  destruct (Z.eqb_spec id 0); [lia|].
  apply (lookup_spec d id (fun sc dst => let val_len := sh_val_len (head_hdr (target sc)) in
    if sz <? val_len then mfail ENOMEM else mret (zt val_len dst)) (fun p => if sz <? len p then Err ENOMEM else Ok p)); try done.
  intros sc p d' ->. cbv zeta. destruct (sz <? len p); [by apply reads_rc_fail|]. apply reads_rc_ret.
  by rewrite zt_slice, slice_all.
Qed.

Lemma size_impl_spec d id :
  LARGE_PAYLOADS cfg = false -> 0 < id < 2 ^ 64 -> db_inv d -> mounted (d_st d) = true ->
  reads_rc d (size_impl cfg g id false)
    (match contents cfg g d id with Some p => Ok (len p) | None => Err ENOENT end).
Proof.
  intros Hlp Hid Hinv Hm. unfold size_impl. apply reads_rc_st. rewrite Hm. simpl.
  destruct (Z.eqb_spec id 0); [lia|].
  apply (lookup_spec d id (fun sc _ => mret (sh_val_len (head_hdr (target sc)))) (fun p => Ok (len p))); try done.
  intros sc p d' ->. by apply reads_rc_ret.
Qed.

(** A window of the payload, clamped to its end. *)
Lemma read_impl_spec d id off n :
  LARGE_PAYLOADS cfg = false -> 0 < id < 2 ^ 64 -> db_inv d -> mounted (d_st d) = true -> 0 <= off -> 0 <= n ->
  reads_rc d (read_impl cfg g id off false n)
    (match contents cfg g d id with Some p => Ok (slice off n p) | None => Err ENOENT end).
Proof.
  intros Hlp Hid Hinv Hm Ho Hn. unfold read_impl. apply reads_rc_st. rewrite Hm, andb_false_r. simpl.
  destruct (Z.eqb_spec id 0); [lia|].
  apply (lookup_spec d id (fun sc dst => let have := sh_val_len (head_hdr (target sc)) in if off >=? have then mret []
    else let n := if n >? have - off then have - off else n in mret (slice off n dst)) (fun p => Ok (slice off n p))); try done.
  intros sc p d' ->. cbv zeta. destruct (Z.geb_spec off (len p)).
  - apply reads_rc_ret. f_equal. unfold slice, zt, zd, len in *. rewrite drop_ge by lia. by rewrite take_nil.
  - destruct (Z.gtb_spec n (len p - off)); apply reads_rc_ret; [|done]. f_equal. unfold slice, zt, zd, len in *.
    rewrite (take_ge _ (Z.to_nat n)), take_ge; [done|rewrite length_drop; lia..].
Qed.

Lemma exists_impl_spec d id :
  LARGE_PAYLOADS cfg = false -> 0 < id < 2 ^ 64 -> db_inv d -> mounted (d_st d) = true ->
  wp (exists_impl cfg g id) d (fun r d' => roi d d' /\ coherent d' /\
    match contents cfg g d id with
    | Some _ => r = Ok true \/ (r = Ok false /\ ~ healthy (d_store d))
    | None => r = Ok false
    end).
Proof.
  intros Hlp Hid Hinv Hm. unfold exists_impl. apply wp_bnd, wp_gets. rewrite Hm. simpl.
  destruct (Z.eqb_spec id 0); [lia|]. pose proof (bucket_range cfg g Hg id) as Hb. rewrite (id_to_bucket_eq cfg g Hg).
  set (bid := id mod n_buckets g) in *. apply wp_bnd, wp_try. pose proof (inv_coh _ _ _ _ Hinv) as Hc.
  eapply wp_mono; [exact (read_bucket_hdr_spec cfg g Hg sidx_wf d bid Hb Hc)|].
  assert (forall (f : bool) d1, roi d d1 -> coherent d1 -> (f = false -> contents cfg g d id <> None -> ~ healthy (d_store d)) ->
    (f = true -> contents cfg g d id <> None) ->
    wp (mret f) d1 (fun r d' => roi d d' /\ coherent d' /\ match contents cfg g d id with
      | Some _ => r = Ok true \/ (r = Ok false /\ ~ healthy (d_store d)) | None => r = Ok false end)) as Hret.
  { intros f d1 Hr1 Hc1 Hf Ht. apply wp_ret. split_and!; [done..|]. destruct (contents cfg g d id); [|destruct f; [by destruct Ht|done]].
    destruct f; [by left|]. right. split; [done|]. by apply Hf. }
  intros [f|e] d1 (Hr1 & Hc1 & Hq); [subst f|destruct Hq; by apply Hret].
  destruct (bucket_hdr_valid (bimg d bid) bid) eqn:Hv.
  - apply wp_bnd, wp_try. pose proof (inv_roi _ _ _ _ _ Hr1 Hc1 Hinv) as Hinv1.
    eapply wp_mono; [eapply (find_live_located d1 id); try done; fold bid; by rewrite (roi_bimg _ _ _ Hr1)|].
    intros [[sc rc]|e] d2 (Hr2 & Hc2 & Hq2); (assert (roi d d2) as Hr02 by by etrans).
    + apply (located_roi d d1) in Hq2; [|done]. destruct Hq2 as (Hrc & _). simpl in Hrc. subst rc.
      apply Hret; try done; by destruct (contents cfg g d id).
    + apply Hret; try done. intros _ _ Hh. by apply (proj1 Hq2), (roi_healthy _ _ Hr1).
  - apply Hret; try done. intros _ Hne. by rewrite contents_unformatted in Hne.
Qed.

(** ** Walking everything *)

(** A visit of slots in order that the callback may stop. *)
Fixpoint visit {U} (cb : Z -> bytes -> U -> Z * U) (l : list entry) (user : U) : Z * U :=
  match l with
  | [] => (0, user)
  | e :: l => let (r, user) := cb (e_id e) (e_payload e) user in
              if negb (r =? 0) then (r, user) else visit cb l user
  end.

(** The slots a walk shows: a segment is a chunk of an object, not one. *)
Definition shown_flags (fl : Z) : bool := negb (LARGE_PAYLOADS cfg && flag_set fl BLOB_DB_SLOT_F_SEGMENT).
Definition shown (l : list entry) : list entry := List.filter (fun e => shown_flags (sv_flags (e_sv e))) l.

Lemma shown_elem l e : e ∈ shown l <-> e ∈ l /\ shown_flags (sv_flags (e_sv e)) = true.
Proof. unfold shown. rewrite !list_elem_of_In. apply filter_In. Qed.

Lemma shown_nodup l : NoDup (e_id <$> l) -> NoDup (e_id <$> shown l).
Proof.
  unfold shown. induction l as [|e l IH]; [done|]. rewrite fmap_cons, list.NoDup_cons. intros [Hn Hl]. cbn [List.filter].
  destruct (shown_flags _); [|by apply IH]. rewrite fmap_cons, list.NoDup_cons. split; [|by apply IH].
  intros (e' & E & He)%list_elem_of_fmap. apply Hn. rewrite E. apply list_elem_of_fmap_2. by apply shown_elem in He as [? _].
Qed.

(** [for_each_live_slot()] visits exactly the slots a compaction would keep, the
    segments apart. *)
Lemma for_each_from_spec {U} fuel buf off l e (cb : Z -> bytes -> U -> Z * U) user :
  bytes_ok buf -> 16 <= off <= peb_size g ->
  log_rel cfg g buf off l e -> slot_walk_at cfg g buf e = None -> (length l < fuel)%nat ->
  for_each_from cfg g fuel buf off cb user = visit cb (shown (survivors l)) user.
Proof.
  intros Hb Ho Hl He. revert fuel user Ho.
  induction Hl as [off|off sv i l e Hw Hl IH]; intros fuel user Ho Hf; (destruct fuel as [|fuel]; [simpl in Hf; lia|]);
    cbn [for_each_from survivors].
  - by rewrite He.
  - rewrite Hw. destruct (slot_walk_bounds cfg g Hg _ off _ _ Hb ltac:(lia) Hw) as (?&?&?&Hsz).
    destruct (slot_size_spec cfg g Hg (sv_val_len sv)) as (_ & Hs & _).
    pose proof (log_rel_bounds cfg g Hg _ (off + sv_total_size sv) _ _ Hb ltac:(lia) Hl) as Hbd. simpl in Hf.
    cbv zeta. unfold e_tomb, e_id. cbn [e_intact e_sv].
    assert (forall u, for_each_from cfg g fuel buf (off + sv_total_size sv) cb u = visit cb (shown (survivors l)) u) as Hrec
      by (intros; apply IH; [done|lia|lia]).
    destruct i; simpl; [|done].
    assert (slot_superseded cfg g buf off sv = match newest (sv_id sv) l with Some _ => true | None => false end) as ->.
    { unfold slot_superseded. eapply superseded_from_spec; [done..|]. unfold walk_fuel, len in *. lia. }
    destruct (newest (sv_id sv) l); simpl; [by rewrite andb_false_r|]. rewrite andb_true_r.
    destruct (flag_set (sv_flags sv) BLOB_DB_SLOT_F_TOMBSTONE); cbn [negb]; [by rewrite andb_false_r|]. rewrite andb_true_r.
    unfold shown. cbn [List.filter e_sv]. fold (shown_flags (sv_flags sv)). destruct (shown_flags (sv_flags sv)); [|done].
    fold (shown (survivors l)). cbn [visit]. unfold e_id, e_payload. cbn [e_sv e_bytes].
    rewrite slice_slice by lia. destruct (cb _ _ user) as [r u]. by destruct (negb (r =? 0)).
Qed.

Lemma for_each_live_slot_spec {U} buf (cb : Z -> bytes -> U -> Z * U) user :
  img_ok g buf ->
  for_each_live_slot cfg g buf cb user = visit cb (shown (survivors (bucket_log cfg g buf))) user.
Proof.
  intros [Hlen Hb]. destruct (parsed_log cfg g Hg buf Hb) as [Hl He]. pose proof (ok_peb_size _ _ Hg).
  pose proof (log_rel_bounds cfg g Hg buf BLOB_DB_BUCKET_DATA_OFF _ _ Hb ltac:(unfold_consts; lia) Hl) as Hbd.
  eapply for_each_from_spec; [done| |done|done|]; [unfold_consts; lia|unfold walk_fuel, len in *; unfold_consts; lia].
Qed.

Lemma visit_app {U} (cb : Z -> bytes -> U -> Z * U) l1 l2 user :
  visit cb (l1 ++ l2) user =
    let (r, user) := visit cb l1 user in if negb (r =? 0) then (r, user) else visit cb l2 user.
Proof.
  revert user. induction l1 as [|e l1 IH]; intros user; simpl; [done|].
  destruct (cb (e_id e) (e_payload e) user) as [r u]. destruct (negb (r =? 0)) eqn:E; [by rewrite E|]. apply IH.
Qed.

(** The live objects of the buckets from [bid] on, in the order a walk meets them. *)
Definition bucket_objects d (bid : Z) : list entry :=
  if bucket_hdr_valid (bimg d bid) bid then shown (survivors (bucket_log cfg g (bimg d bid))) else [].

Fixpoint objects_from d (k : nat) (bid : Z) : list entry :=
  match k with
  | O => []
  | Datatypes.S k => bucket_objects d bid ++ objects_from d k (bid + 1)
  end.

Definition objects d : list entry := objects_from d (Z.to_nat (n_buckets g)) 0.

Lemma objects_from_ro d d' k bid : ro d d' -> objects_from d' k bid = objects_from d k bid.
Proof.
  intros Hr. revert bid. induction k as [|k IH]; intros bid; simpl; [done|]. unfold bucket_objects.
  by rewrite (ro_bimg _ _ _ Hr), IH.
Qed.

Lemma read_bucket_healthy d bid :
  0 <= bid < n_buckets g -> healthy (d_store d) ->
  wp (read_bucket g bid) d (fun r d' => r = Ok (bimg d bid) /\ ro d d').
Proof.
  intros Hb Hh. pose proof (ok_peb_size _ _ Hg). unfold read_bucket. rewrite <- (Z.add_0_r (bucket_offset g bid)).
  eapply wp_mono; [apply (read_bucket_bytes cfg g Hg d bid); lia|]. intros [b|e] d' [Hr Hq]; [|by destruct Hq].
  split; [|done]. rewrite Hq, slice_all; [done|]. symmetry. by apply (bimg_ok cfg g Hg).
Qed.

Lemma count_visit l n : 0 <= n -> visit count_visitor l (u32 n) = (0, u32 (n + len l)).
Proof.
  revert n. induction l as [|e l IH]; intros n Hn; simpl.
  - change (len (@nil entry)) with 0. by rewrite Z.add_0_r.
  - unfold count_visitor at 1. simpl. unfold u32 in *. rewrite Zplus_mod_idemp_l, IH by lia. rewrite len_cons. do 2 f_equal. lia.
Qed.

Lemma count_loop_spec k bid d n :
  healthy (d_store d) -> 0 <= bid -> bid + Z.of_nat k <= n_buckets g -> 0 <= n ->
  wp (count_loop cfg g k bid (u32 n)) d (fun r d' => r = Ok (u32 (n + len (objects_from d k bid))) /\ ro d d').
Proof.
  revert bid d n. induction k as [|k IH]; intros bid d n Hh Hb Hk Hn; cbn [count_loop objects_from].
  - apply wp_ret. change (len (@nil entry)) with 0. by rewrite Z.add_0_r.
  - apply wp_bnd, wp_try. eapply wp_mono; [apply read_bucket_healthy; [lia|done]|]. intros r d1 [-> Hr1].
    pose proof (ro_healthy _ _ Hr1 Hh) as Hh1. unfold bucket_objects. rewrite <- (objects_from_ro d d1) by done.
    destruct (bucket_hdr_valid (bimg d bid) bid) eqn:Hv; cbn [negb].
    + rewrite for_each_live_slot_spec by (done || (apply (bimg_ok cfg g Hg); lia)). rewrite count_visit by lia. cbn [snd].
      rewrite len_app, Z.add_assoc. pose proof (len_nonneg (shown (survivors (bucket_log cfg g (bimg d bid))))).
      eapply wp_mono; [apply IH; lia || done|]. intros r d2 [-> Hr2]. split; [done|by etrans].
    + rewrite app_nil_l. eapply wp_mono; [apply IH; lia || done|]. intros r d2 [-> Hr2]. split; [done|by etrans].
Qed.

Lemma iterate_loop_spec {U} k bid d (cb : Z -> bytes -> U -> Z * U) user :
  db_inv d -> healthy (d_store d) -> 0 <= bid -> bid + Z.of_nat k <= n_buckets g ->
  wp (iterate_loop cfg g k bid cb user) d (fun r d' => r = Ok (visit cb (objects_from d k bid) user) /\ ro d d').
Proof.
  revert bid d user. induction k as [|k IH]; intros bid d user Hinv Hh Hb Hk; cbn [iterate_loop objects_from].
  - by apply wp_ret.
  - apply wp_bnd, wp_try. eapply wp_mono; [apply read_bucket_healthy; [lia|done]|]. intros r d1 [-> Hr1].
    pose proof (ro_healthy _ _ Hr1 Hh) as Hh1. unfold bucket_objects. rewrite <- (objects_from_ro d d1) by done.
    assert (db_inv d1) as Hinv1 by (eapply inv_roi; [by apply ro_roi|by eapply coherent_ro, Hinv|done]).
    assert (forall u, wp (iterate_loop cfg g k (bid + 1) cb u) d1 (fun r d' =>
      r = Ok (visit cb (objects_from d1 k (bid + 1)) u) /\ ro d d')) as Hrec.
    { intros u. eapply wp_mono; [apply IH; lia || done|]. intros r d2 [-> Hr2]. split; [done|by etrans]. }
    destruct (bucket_hdr_valid (bimg d bid) bid) eqn:Hv; cbn [negb]; [|by rewrite app_nil_l].
    assert (bucket_image_ends_foreign cfg g (bimg d bid) = false) as -> by (apply (not_foreign d bid); [done|lia|done]).
    rewrite for_each_live_slot_spec by (done || (apply (bimg_ok cfg g Hg); lia)). rewrite visit_app.
    destruct (visit cb (shown _) user) as [r u]. destruct (negb (r =? 0)); [by apply wp_ret|done].
Qed.

(** Every object of the store is listed once, under its id and with its slot. *)
Lemma objects_from_slot d k bid e :
  db_inv d -> 0 <= bid -> bid + Z.of_nat k <= n_buckets g -> e ∈ objects_from d k bid ->
  bid <= e_id e mod n_buckets g < bid + Z.of_nat k /\ 0 < e_id e < 2 ^ 64 /\
  slots cfg g d (e_id e) = Some (sv_flags (e_sv e), e_payload e) /\ shown_flags (sv_flags (e_sv e)) = true.
Proof.
  intros Hinv. revert bid. induction k as [|k IH]; intros bid Hb Hk; cbn [objects_from]; [by intros ?%elem_of_nil|].
  rewrite elem_of_app. intros [He|He]; [|destruct (IH (bid + 1)) as (?&?&?&?); [lia|lia|done|]; split_and!; lia || done].
  unfold bucket_objects in He. destruct (bucket_hdr_valid (bimg d bid) bid) eqn:Hv; [|by apply elem_of_nil in He].
  apply shown_elem in He as [He Hsh]. destruct (survivors_elem _ _ He) as (Hin & Hi & _).
  destruct (bi_ids _ _ _ _ (inv_bucket _ _ _ _ Hinv bid ltac:(lia) Hv) e Hin Hi) as [Hid Hm].
  rewrite Hm. split_and!; [lia..| |done]. unfold slots, bucket_slot. rewrite Hm, Hv. by apply survivors_slot.
Qed.

Lemma objects_from_elem d k bid e :
  db_inv d -> 0 <= bid -> bid + Z.of_nat k <= n_buckets g -> e ∈ objects_from d k bid ->
  bid <= e_id e mod n_buckets g < bid + Z.of_nat k /\ 0 < e_id e < 2 ^ 64 /\ contents cfg g d (e_id e) = Some (e_payload e).
Proof.
  intros Hinv Hb Hk He. destruct (objects_from_slot d k bid e Hinv Hb Hk He) as (? & ? & E & _). split_and!; [lia..|].
  unfold contents. by rewrite E.
Qed.

Lemma objects_from_nodup d k bid :
  db_inv d -> 0 <= bid -> bid + Z.of_nat k <= n_buckets g -> NoDup (e_id <$> objects_from d k bid).
Proof.
  intros Hinv. revert bid. induction k as [|k IH]; intros bid Hb Hk; cbn [objects_from]; [constructor|].
  rewrite fmap_app. apply list.NoDup_app. split_and!; [|intros x Hx Hy|apply IH; lia].
  - unfold bucket_objects. destruct (bucket_hdr_valid _ _); [apply shown_nodup, survivors_ids|constructor].
  - apply list_elem_of_fmap in Hx as (e & -> & He). apply list_elem_of_fmap in Hy as (e' & E & He').
    destruct (objects_from_elem d 1 bid e Hinv Hb ltac:(lia)) as (?&_); [cbn [objects_from]; by rewrite app_nil_r|].
    destruct (objects_from_elem d k (bid + 1) e' Hinv ltac:(lia) ltac:(lia) He') as (?&_). rewrite E in *. lia.
Qed.

Lemma objects_from_all d k bid id fl p :
  0 <= bid -> bid + Z.of_nat k <= n_buckets g -> bid <= id mod n_buckets g < bid + Z.of_nat k ->
  slots cfg g d id = Some (fl, p) -> shown_flags fl = true -> exists e, e ∈ objects_from d k bid /\ e_id e = id /\ e_payload e = p.
Proof.
  intros Hb Hk Hm Hc Hsh. revert bid Hb Hk Hm. induction k as [|k IH]; intros bid Hb Hk Hm; [lia|]. cbn [objects_from].
  destruct (decide (id mod n_buckets g = bid)) as [E|].
  - unfold slots, bucket_slot in Hc. rewrite E in Hc. unfold bucket_objects. destruct (bucket_hdr_valid _ _); [|done].
    destruct (slot_survives _ _ _ Hc) as (e & He & Hid & [= Hf Hp]). exists e. rewrite elem_of_app, shown_elem, <- Hf, Hsh. auto.
  - destruct (IH (bid + 1)) as (e & ? & ?); [lia..|]. exists e. rewrite elem_of_app. auto.
Qed.

Lemma objects_from_complete d k bid id p :
  LARGE_PAYLOADS cfg = false ->
  0 <= bid -> bid + Z.of_nat k <= n_buckets g -> bid <= id mod n_buckets g < bid + Z.of_nat k ->
  contents cfg g d id = Some p -> exists e, e ∈ objects_from d k bid /\ e_id e = id /\ e_payload e = p.
Proof.
  intros Hlp Hb Hk Hm Hc. unfold contents in Hc. destruct (slots cfg g d id) as [[fl q]|] eqn:E; [|done]. injection Hc as <-.
  apply (objects_from_all d k bid id fl q); try done. unfold shown_flags. by rewrite Hlp.
Qed.
End reads.
