(* ===== verification/OpsWrite.v ===== *)
(** update, delete and write: on success the store holds the old contents with
    one object changed; an operation that fails leaves them alone; one that is
    cut short leaves, for the next mount, either the old contents or the new. *)

From S2P Require Import Prelude Layout Store SlotIndexIface Image Core CoreRead Lookup Append Bucket Compact.
From S2P Require Import CompactImage Recovery CompactSpec Ops OpsRead.

Section writes.
Context (cfg : config) (g : geom) `{Crc}.
Context {S I : Type} `{!Store S} `{!StoreView S} `{!SlotIndex I}.
Context (Hg : geom_ok cfg g) (Ha : geom_aligned g) {SL : StoreLaws S (store_geom_of g)} {CL : CrcLaws _}.
Context (sidx_wf : Z -> I -> Prop) {IL : SlotIndexLaws I sidx_wf}.
Notation db := (db S I).
Notation coherent := (coherent cfg g sidx_wf).
Notation db_inv := (db_inv cfg g sidx_wf).
Notation contents := (contents cfg g).
Notation bucket_of id := (id mod n_buckets g).
Implicit Types d : db.

(** A store that is ready for a mutation: sound, and with no compaction left
    open in scratch. *)
Record ready d : Prop := { rd_inv : db_inv d; rd_seal : unsealed g d }.

Lemma ready_roi d d' : roi d d' -> coherent d' -> ready d -> ready d'.
Proof.
  intros Hr Hc [Hi Hu]. split; [by eapply inv_roi|]. unfold unsealed, scratch, pimg in *.
  by rewrite (roi_flash _ _ Hr).
Qed.

(** The bucket of [id] cannot take [n] more payload bytes even when compacted. *)
Definition full d (id n : Z) : Prop :=
  let cl := compact_len cfg g (bimg d (bucket_of id)) in
  scratch_seal_off g < cl \/ peb_size g < cl + slot_size_for g n.

(** How a mutation of [id] that appends a slot with flags [fl] and payload [p]
    may end, and which step it was in. *)
Inductive mut_end d (id fl : Z) (p : bytes) : res unit -> db -> Prop :=
  | me_done d' : ready d' -> d_st d' = d_st d -> set_value cfg g d d' id (slot_value fl p) ->
      mut_end d id fl p (Ok tt) d'
  | me_kept e d' : (device_err e /\ ~ healthy (d_store d)) \/ (e = ENOSPC /\ full d id (len p)) ->
      ready d' -> d_st d' = d_st d -> same_contents cfg g d d' -> mut_end d id fl p (Err e) d'
  | me_format e d0 d' : device_err e -> ready d0 -> roi d d0 ->
      bucket_hdr_valid (bimg d (bucket_of id)) (bucket_of id) = false ->
      format_bucket g (bucket_of id) d0 = (Err e, d') -> mut_end d id fl p (Err e) d'
  | me_compact e d0 d' : device_err e -> ready d0 -> roi d d0 ->
      bucket_hdr_valid (bimg d (bucket_of id)) (bucket_of id) = true ->
      compact_bucket cfg g (bucket_of id) d0 = (Err e, d') ->
      compact_post cfg g sidx_wf d0 d' (Err e) (bucket_of id) -> mut_end d id fl p (Err e) d'
  | me_append e d0 d' : device_err e -> ready d0 -> d_st d0 = d_st d -> same_contents cfg g d d0 ->
      append_slot cfg g (bucket_of id) (log_end cfg g (bimg d0 (bucket_of id))) id fl p d0 = (Err e, d') ->
      appended cfg g sidx_wf d0 d' (Err e) id fl p -> mut_end d id fl p (Err e) d'.

(** A device that works makes the operation succeed or report a full bucket. *)
Definition served d (r : res unit) d' : Prop :=
  healthy (d_store d) -> healthy (d_store d') /\ (r = Ok tt \/ r = Err ENOSPC).

(** The master sectors are as they were. *)
Definition low_kept d d' : Prop := forall q, q < BLOB_DB_SCRATCH_SECTOR -> pimg d' q = pimg d q.

Lemma low_roi d d' : roi d d' -> low_kept d d'.
Proof. intros Hr q _. apply (roi_flash _ _ Hr). Qed.

Lemma low_trans d d1 d2 : low_kept d d1 -> low_kept d1 d2 -> low_kept d d2.
Proof. intros H1 H2 q Hq. by rewrite H2, H1. Qed.

Lemma low_bucket d d' b : 0 <= b -> (forall q, q <> BLOB_DB_FIRST_BUCKET + b -> img (d_store d') q = img (d_store d) q) -> low_kept d d'.
Proof. intros Hb Ho q Hq. apply Ho. unfold_consts. lia. Qed.

Definition mut_post d (id fl : Z) (p : bytes) (r : res unit) d' : Prop :=
  served d r d' /\ coherent d' /\ low_kept d d' /\ mut_end d id fl p r d'.

Lemma same_contents_roi d d' : roi d d' -> same_contents cfg g d d'.
Proof. intros Hr id. by apply slots_roi. Qed.

Lemma same_contents_trans d d1 d2 : same_contents cfg g d d1 -> same_contents cfg g d1 d2 -> same_contents cfg g d d2.
Proof. intros H1 H2 id. by rewrite H2. Qed.

Lemma set_value_trans d d1 d2 id v : same_contents cfg g d d1 -> set_value cfg g d1 d2 id v -> set_value cfg g d d2 id v.
Proof. intros H1 H2 id'. rewrite H2, H1. done. Qed.

Lemma unsealed_other d d' b : 0 <= b -> unsealed g d ->
  (forall q, q <> BLOB_DB_FIRST_BUCKET + b -> img (d_store d') q = img (d_store d) q) -> unsealed g d'.
Proof. intros Hb Hu Ho. unfold unsealed, scratch, pimg in *. rewrite Ho; [done|]. unfold_consts. lia. Qed.

(** Appending at the end of a sound, untorn bucket. *)
Lemma append_end d d0 id fl p :
  0 < id < 2 ^ 64 -> ready d0 -> d_st d0 = d_st d -> same_contents cfg g d d0 ->
  (healthy (d_store d) -> healthy (d_store d0)) -> low_kept d d0 ->
  let bid := bucket_of id in let buf := bimg d0 bid in let e := log_end cfg g buf in
  bucket_hdr_valid buf bid = true -> append_at cfg g buf = Ok e ->
  flags_ok cfg fl -> bytes_ok p -> len p <= MAX_PAYLOAD_LEN cfg -> e + slot_size_for g (len p) <= peb_size g ->
  wp (append_slot cfg g bid e id fl p) d0 (mut_post d id fl p).
Proof.
  intros Hid [Hinv Hu] Hst Hsc Hh Hlk bid buf e Hv Hat Hfl Hpb Hp Hfit.
  pose proof (bucket_range cfg g Hg id) as Hb. fold bid in Hb. pose proof (bimg_ok cfg g Hg d0 bid Hb) as [_ Hby].
  assert (torn_at cfg g buf e = false) as Ht.
  { unfold append_at in Hat. fold e in Hat. destruct (slot_foreign_at _ _ _ _); [done|]. destruct (torn_at cfg g buf e) eqn:E; [|done].
    injection Hat as Hx. unfold torn_at in E. rewrite <- Hx in E. unfold_consts.
    destruct (Z.gtb_spec (peb_size g + 14) (peb_size g)); [done|lia]. }
  apply wp_intro. intros r d' Erun. pose proof (append_slot_spec cfg g Hg Ha sidx_wf d0 id fl p Hid Hinv Hv Ht Hfl Hpb Hp Hfit) as Hwp.
  pose proof (wp_run _ _ _ _ _ Hwp Erun) as Hap. pose proof Hap as [Hw Hst' Hge Hc' Hoth _ _ Hres].
  split; [intros Hd; destruct (Hw (Hh Hd)); destruct r as [[]|]; [auto|done]|]. split; [done|].
  split; [eapply low_trans; [exact Hlk|]; apply (low_bucket _ _ bid); [lia|exact Hoth]|].
  destruct r as [[]|er].
  - destruct Hres as [Hinv' Hsv]. apply me_done; [|congruence|by eapply set_value_trans].
    split; [done|]. eapply (unsealed_other d0 _ bid); [lia|done|done].
  - destruct Hres as [Hde _]. eapply me_append; try done.
Qed.

(** Making room and appending: [reloc] finds the cursor again after a
    compaction. *)
Lemma room_append {X} d d1 id fl p (reloc : M db X) (wc : X -> Z) (pay : X -> bytes) (x0 : X) :
  0 < id < 2 ^ 64 -> ready d1 -> roi d d1 ->
  let bid := bucket_of id in bucket_hdr_valid (bimg d bid) bid = true ->
  append_at cfg g (bimg d1 bid) = Ok (wc x0) -> pay x0 = p ->
  flags_ok cfg fl -> bytes_ok p -> len p <= MAX_PAYLOAD_LEN cfg ->
  let ssz := slot_size_for g (len p) in
  (forall d2, ready d2 -> same_contents cfg g d d2 -> bucket_hdr_valid (bimg d2 bid) bid = true ->
    slot_foreign_at cfg g (bimg d2 bid) (log_end cfg g (bimg d2 bid)) = false ->
    torn_at cfg g (bimg d2 bid) (log_end cfg g (bimg d2 bid)) = false ->
    wp reloc d2 (fun r d3 => roi d2 d3 /\ coherent d3 /\
      let e := log_end cfg g (bimg d2 bid) in
      match r with
      | Ok x => wc x = e /\ pay x = p /\ e + ssz <= peb_size g
      | Err er => (device_err er /\ ~ healthy (d_store d2)) \/ (er = ENOSPC /\ peb_size g < e + ssz)
      end)) ->
  wp (mbnd (if wc x0 + ssz >? peb_size g then mbnd (compact_bucket cfg g bid) (fun _ => reloc) else mret x0)
        (fun x => append_slot cfg g bid (wc x) id fl (pay x))) d1 (mut_post d id fl p).
Proof.
  intros Hid Hrd Hroi bid Hv Hat Hpay Hfl Hpb Hp ssz Hreloc. pose proof (bucket_range cfg g Hg id) as Hb. fold bid in Hb.
  pose proof (roi_bimg _ _ bid Hroi) as Hbm. pose proof (log_end_small cfg g Hg d1 bid Hb) as Hle.
  pose proof (slot_size_pos cfg g Hg (len p) (len_nonneg p)) as Hsp. fold ssz in Hsp.
  assert (bucket_hdr_valid (bimg d1 bid) bid = true) as Hv1 by by rewrite Hbm.
  destruct (Z.gtb_spec (wc x0 + ssz) (peb_size g)) as [Hgt|Hle2].
  - apply wp_bnd, wp_bnd. apply wp_intro. intros rc d2 Erun.
    pose proof (wp_run _ _ _ _ _ (compact_bucket_spec cfg g Hg Ha sidx_wf d1 bid Hb (rd_inv _ Hrd) Hv1) Erun) as Hcp.
    pose proof (cm_works _ _ _ _ _ _ _ Hcp) as Hwk. pose proof (cm_coh _ _ _ _ _ _ _ Hcp) as Hc2.
    assert (low_kept d d2) as Hlk2.
    { eapply low_trans; [by apply low_roi|]. intros q Hq. apply (cm_other _ _ _ _ _ _ _ Hcp); unfold_consts; lia. }
    destruct rc as [[]|e].
    + destruct (compact_done cfg g Hg Ha sidx_wf d1 d2 bid Hb (rd_inv _ Hrd) Hv1 Hcp) as (Hinv2 & Hsc2 & Hst2 & Hv2 & He2 & Ht2 & Hf2 & Hu2).
      assert (ready d2) as Hrd2 by (split; [done|apply Hu2, Hrd]).
      assert (same_contents cfg g d d2) as Hsc by (eapply same_contents_trans; [by apply same_contents_roi|done]).
      eapply wp_mono; [by apply Hreloc|]. intros r d3 (Hr3 & Hc3 & Hq). pose proof (roi_bimg _ _ bid Hr3) as Hb3.
      assert (ready d3) as Hrd3 by (by eapply ready_roi).
      assert (d_st d3 = d_st d) as Hst3 by (rewrite (roi_st _ _ Hr3), Hst2; apply Hroi).
      assert (healthy (d_store d) -> healthy (d_store d2)) as Hh2 by (intros Hh; apply Hwk, (roi_healthy _ _ Hroi), Hh).
      assert (healthy (d_store d) -> healthy (d_store d3)) as Hh3 by (intros Hh; apply (roi_healthy _ _ Hr3); auto).
      assert (same_contents cfg g d d3) as Hsc3 by (eapply same_contents_trans; [done|by apply same_contents_roi]).
      assert (low_kept d d3) as Hlk3 by (eapply low_trans; [exact Hlk2|by apply low_roi]).
      destruct r as [x|er].
      * destruct Hq as (Hwc & Hpx & Hfit). rewrite Hwc, Hpx, <- Hb3.
        apply append_end; try done; fold bid; rewrite ?Hb3; try done.
        unfold append_at. by rewrite Hf2, Ht2.
      * split; [intros Hh; split; [auto|]; destruct Hq as [[_ Hn]|[-> _]]; [destruct Hn; auto|by right]|]. split; [done|]. split; [done|].
        apply me_kept; try done. destruct Hq as [[He Hn]|[-> Hn]]; [left; tauto|right]. split; [done|]. right.
        fold bid. rewrite <- Hbm, <- He2. fold ssz. lia.
    + split; [intros Hh; destruct (Hwk (roi_healthy _ _ Hroi Hh)) as [? [|[= ->]]]; [done|auto]|]. split; [done|]. split; [done|].
      destruct (cm_res _ _ _ _ _ _ _ Hcp) as [([= ->] & Hcl & Hst2 & Hsf)|Hce].
      * assert (roi d1 d2) as Hr2 by (split; [done|apply Hcp|done|intros Hh; by apply Hwk]).
        assert (roi d d2) as Hr02 by by etrans.
        apply me_kept; [right; split; [done|left; fold bid; rewrite <- Hbm; exact Hcl]|eapply ready_roi; [exact Hr2|done|done]|apply Hr02|by apply same_contents_roi].
      * eapply me_compact; try done. by inversion Hce.
  - apply wp_bnd, wp_ret. rewrite Hpay.
    assert (wc x0 = log_end cfg g (bimg d1 bid)) as Hwc.
    { unfold append_at in Hat. destruct (slot_foreign_at _ _ _ _); [done|]. injection Hat as Hx. destruct (torn_at _ _ _ _); [lia|done]. }
    rewrite Hwc in *. apply append_end; try done; [apply Hroi|by apply same_contents_roi|apply (roi_healthy _ _ Hroi)|by apply low_roi].
Qed.

Lemma payload_fits v : 0 <= v <= MAX_PAYLOAD_LEN cfg -> 16 + slot_size_for g v <= peb_size g /\ u16 v = v.
Proof.
  intros Hv. pose proof (ok_payload _ _ Hg) as Hm. pose proof (ok_peb_size _ _ Hg). unfold_consts.
  destruct (slot_size_spec cfg g Hg v) as (_ & ? & _). pose proof (pow2_le32_pos _ (ok_align _ _ Hg)).
  pose proof (Z.mul_div_le (peb_size g - 16) 2). split; [lia|]. apply u16_small. lia.
Qed.

(** A bucket that was just formatted still holds nothing. *)
Lemma formatted_ready d d1 bid :
  0 <= bid < n_buckets g -> ready d -> bucket_hdr_valid (bimg d bid) bid = false -> coherent d1 ->
  wrote d d1 bid (fmt_image g bid) ->
  ready d1 /\ same_contents cfg g d d1 /\ bucket_hdr_valid (bimg d1 bid) bid = true /\
  log_end cfg g (bimg d1 bid) = 16 /\ append_at cfg g (bimg d1 bid) = Ok 16.
Proof.
  intros Hb [Hinv Hu] Hv Hc Hw. destruct (fmt_image_log cfg g Hg bid Hb) as (Hok & Hvf & Hl & He & Hbl).
  pose proof (ok_peb_size _ _ Hg).
  destruct (blank_stop cfg g (fmt_image g bid) 16 (proj1 Hok)) as (_ & Hf & Ht); [lia|done|].
  rewrite (wr_img _ _ _ _ Hw). unfold append_at. rewrite He, Hf, Ht. split_and!; try done.
  - split; [|eapply (unsealed_other d _ bid); [lia|done|apply Hw]].
    eapply (inv_wrote cfg g sidx_wf d d1 bid); [exact Hb|exact Hw|done|done|]. intros _. split.
    + unfold tail_ok. by rewrite He, Hf, Ht.
    + intros en. rewrite Hl. by intros ?%elem_of_nil.
  - intros id. rewrite (slots_wrote cfg g _ _ _ _ id Hw). case_decide as E; [|done].
    unfold bucket_slot. rewrite Hvf, Hl. symmetry. apply slots_unformatted. by rewrite E.
Qed.

(** Finding the append cursor of a sound bucket. *)
Lemma cursor_spec d id :
  0 < id < 2 ^ 64 -> db_inv d -> let bid := bucket_of id in bucket_hdr_valid (bimg d bid) bid = true ->
  reads_rc cfg g sidx_wf d (mbnd (bucket_cursor cfg g bid id) (fun sc => confirm_cursor cfg g bid id sc))
    (append_at cfg g (bimg d bid)).
Proof.
  intros Hid Hinv bid Hv. pose proof (bucket_range cfg g Hg id) as Hb. fold bid in Hb.
  eapply reads_rc_bnd; [by apply bucket_cursor_spec|]. intros sc d' Hr Hs. fold bid in Hs.
  rewrite <- (roi_bimg _ _ bid Hr) in *. by apply (confirm_cursor_spec cfg g Hg).
Qed.

Lemma append_at_ok d bid :
  db_inv d -> 0 <= bid < n_buckets g -> bucket_hdr_valid (bimg d bid) bid = true ->
  append_at cfg g (bimg d bid) =
    Ok (if torn_at cfg g (bimg d bid) (log_end cfg g (bimg d bid)) then peb_size g else log_end cfg g (bimg d bid)).
Proof. intros Hinv Hb Hv. unfold append_at. by rewrite (not_foreign cfg g sidx_wf d bid Hinv Hb Hv). Qed.

(** An error of a read: nothing has happened yet. *)
Lemma read_failed d d' id fl p e :
  roi d d' -> coherent d' -> ready d -> device_err e -> ~ healthy (d_store d) -> mut_post d id fl p (Err e) d'.
Proof.
  intros Hr Hc Hrd He Hh. split; [done|]. split; [done|]. split; [by apply low_roi|].
  apply me_kept; [by left|by eapply ready_roi|apply Hr|by apply same_contents_roi].
Qed.

Lemma update_impl_spec d id p :
  0 < id < 2 ^ 64 -> ready d -> mounted (d_st d) = true -> wedged (d_st d) = false -> id < next_id (d_st d) ->
  bytes_ok p -> len p <= MAX_PAYLOAD_LEN cfg ->
  wp (update_impl cfg g id (Some p)) d (mut_post d id 0 p).
Proof.
  intros Hid Hrd Hm Hw Hn Hpb Hp. pose proof (rd_inv _ Hrd) as Hinv. pose proof (inv_coh _ _ _ _ Hinv) as Hc.
  pose proof (bucket_range cfg g Hg id) as Hb. pose proof (flags_ok_plain cfg) as Hfl. pose proof (len_nonneg p) as Hp0.
  destruct (payload_fits (len p) ltac:(lia)) as [Hfit0 Hu16].
  unfold update_impl. do 3 apply wp_bnd, wp_gets. rewrite Hm, Hw. cbn [negb].
  destruct (Z.eqb_spec id 0); [lia|]. destruct (Z.geb_spec id (next_id (d_st d))); [lia|]. cbn [orb].
  destruct (Z.gtb_spec (len p) (MAX_PAYLOAD_LEN cfg)); [lia|]. rewrite Hu16, (id_to_bucket_eq cfg g Hg).
  set (bid := bucket_of id) in *. apply wp_bnd.
  eapply wp_mono; [exact (read_bucket_hdr_spec cfg g Hg sidx_wf d bid Hb Hc)|].
  intros [f|e] d1 (Hr1 & Hc1 & Hq); [|destruct Hq; by apply read_failed]. subst f. pose proof (ready_roi _ _ Hr1 Hc1 Hrd) as Hrd1.
  pose proof (roi_bimg _ _ bid Hr1) as Hbm. destruct (bucket_hdr_valid (bimg d bid) bid) eqn:Hv; cbn [negb].
  - apply wp_bnd. rewrite <- Hbm in Hv. eapply wp_mono; [exact (cursor_spec d1 id Hid (rd_inv _ Hrd1) Hv Hc1)|].
    fold bid. intros r d2 (Hr2 & Hc2 & Hq). assert (roi d d2) as Hr02 by by etrans.
    pose proof (ready_roi _ _ Hr2 Hc2 Hrd1) as Hrd2. pose proof (roi_bimg _ _ bid Hr02) as Hbm2.
    destruct Hq as [->|(e & -> & Hh & He)].
    2: { apply read_failed; try done. intros Hd. apply Hh, (roi_healthy _ _ Hr1), Hd. }
    rewrite (append_at_ok d1 bid (rd_inv _ Hrd1) Hb Hv). set (wc := if torn_at _ _ _ _ then _ else _).
    apply (room_append d d2 id 0 p
      (mbnd (bucket_cursor cfg g bid id) (fun sc => mbnd (confirm_cursor cfg g bid id sc) (fun wc =>
         if wc + slot_size_for g (len p) >? peb_size g then mfail ENOSPC else mret wc)))
      (fun x => x) (fun _ => p) wc); try done; fold bid; [by rewrite <- Hbm| |].
    { rewrite (append_at_ok d2 bid (rd_inv _ Hrd2) Hb) by (rewrite Hbm2, <- Hbm; done). unfold wc. by rewrite Hbm2, Hbm. }
    intros d3 Hrd3 _ Hv3 Hf3 Ht3. pose proof (cursor_spec d3 id Hid (rd_inv _ Hrd3) Hv3 (inv_coh _ _ _ _ (rd_inv _ Hrd3))) as Hcur.
    fold bid in Hcur. rewrite (append_at_ok d3 bid (rd_inv _ Hrd3) Hb Hv3), Ht3 in Hcur.
    enough (wp (mbnd (mbnd (bucket_cursor cfg g bid id) (fun sc => confirm_cursor cfg g bid id sc)) (fun wc0 =>
      if wc0 + slot_size_for g (len p) >? peb_size g then mfail ENOSPC else mret wc0)) d3 (fun r d4 => roi d3 d4 /\ coherent d4 /\
        let e := log_end cfg g (bimg d3 bid) in match r with
        | Ok x => x = e /\ p = p /\ e + slot_size_for g (len p) <= peb_size g
        | Err er => (device_err er /\ ~ healthy (d_store d3)) \/ (er = ENOSPC /\ peb_size g < e + slot_size_for g (len p)) end)) as Hx.
    { revert Hx. unfold wp, mbnd. destruct (bucket_cursor cfg g bid id d3) as [[sc|?] ?]; [|done].
      by destruct (confirm_cursor cfg g bid id sc _) as [[?|?] ?]. }
    apply wp_bnd. eapply wp_mono; [exact Hcur|]. intros r d4 (Hr4 & Hc4 & [->|(e & -> & Hh & He)]); [|split_and!; [done|done|left; done]].
    destruct (Z.gtb_spec (log_end cfg g (bimg d3 bid) + slot_size_for g (len p)) (peb_size g)); [apply wp_fail|apply wp_ret];
      (split; [done|]; split; [done|]); [by right|done].
  - apply wp_bnd, wp_bnd. apply wp_intro. intros r d2 Erun.
    pose proof (wp_run _ _ _ _ _ (format_bucket_spec cfg g Hg Ha sidx_wf d1 bid Hb Hc1) Erun) as (Hwk & Hc2 & b' & Hwr & Hres).
    destruct r as [[]|e].
    + subst b'. apply wp_ret. destruct (Z.gtb_spec (BLOB_DB_BUCKET_DATA_OFF + slot_size_for g (len p)) (peb_size g));
        [unfold BLOB_DB_BUCKET_DATA_OFF in *; lia|]. apply wp_bnd, wp_ret.
      destruct (formatted_ready d1 d2 bid Hb Hrd1) as (Hrd2 & Hsc & Hv2 & He2 & Hat2); [by rewrite Hbm|done|done|].
      change BLOB_DB_BUCKET_DATA_OFF with 16. rewrite <- He2. apply append_end; try done; fold bid; rewrite ?He2; try done.
      * rewrite (wr_st _ _ _ _ Hwr). apply Hr1.
      * eapply same_contents_trans; [by apply same_contents_roi|done].
      * intros Hh. apply Hwk, (roi_healthy _ _ Hr1), Hh.
      * eapply low_trans; [by apply low_roi|]. apply (low_bucket _ _ bid); [lia|apply Hwr].
    + split; [intros Hh; by destruct (Hwk (roi_healthy _ _ Hr1 Hh))|]. split; [done|].
      split; [eapply low_trans; [by apply low_roi|]; apply (low_bucket _ _ bid); [lia|apply Hwr]|]. eapply me_format; try done.
Qed.

(** ** The common steps of delete and write, in continuation form *)

(** [dev_fail d Q]: [Q] accepts a device error that came before any write. *)
Definition dev_fail {X} d (Q : res X -> db -> Prop) : Prop :=
  forall d1 e, roi d d1 -> coherent d1 -> ~ healthy (d_store d) -> device_err e -> Q (Err e) d1.

Lemma hdr_wp {X} d d0 id (k : M db X) Q :
  roi d d0 -> coherent d0 -> dev_fail d Q -> let bid := bucket_of id in
  (bucket_hdr_valid (bimg d bid) bid = false -> forall d1, roi d d1 -> coherent d1 -> Q (Err ENOENT) d1) ->
  (bucket_hdr_valid (bimg d bid) bid = true -> forall d1, roi d d1 -> coherent d1 -> wp k d1 Q) ->
  wp (mbnd (read_bucket_hdr g bid) (fun f => if negb f then mfail ENOENT else k)) d0 Q.
Proof.
  intros Hr0 Hc Hdev bid Hno Hyes. pose proof (bucket_range cfg g Hg id) as Hb. fold bid in Hb. apply wp_bnd.
  eapply wp_mono; [exact (read_bucket_hdr_spec cfg g Hg sidx_wf d0 bid Hb Hc)|].
  intros [f|e] d1 (Hr1 & Hc1 & Hq); (assert (roi d d1) as Hr by by etrans).
  - rewrite (roi_bimg _ _ bid Hr0) in Hq. subst f. destruct (bucket_hdr_valid (bimg d bid) bid); [by apply Hyes|].
    apply wp_fail. by apply Hno.
  - destruct Hq as [Hh He]. apply Hdev; try done. intros Hd. by apply Hh, (roi_healthy _ _ Hr0).
Qed.

Lemma find_wp {X} d d0 id (k : bucket_scan -> bytes -> M db X) Q :
  LARGE_PAYLOADS cfg = false -> 0 < id < 2 ^ 64 -> ready d -> roi d d0 -> coherent d0 -> dev_fail d Q ->
  let bid := bucket_of id in bucket_hdr_valid (bimg d bid) bid = true ->
  (contents d id = None -> forall d1, roi d d1 -> coherent d1 -> Q (Err ENOENT) d1) ->
  (forall p sc d1, contents d id = Some p -> located cfg g d id (sc, Ok p) -> roi d d1 -> coherent d1 -> wp (k sc p) d1 Q) ->
  wp (mbnd (find_live_slot cfg g bid id) (fun r => mbnd (mlift (snd r)) (fun dst => k (fst r) dst))) d0 Q.
Proof.
  intros Hlp Hid Hrd Hr0 Hc0 Hdev bid Hv Hno Hyes. pose proof (ready_roi _ _ Hr0 Hc0 Hrd) as Hrd0. apply wp_bnd.
  eapply wp_mono; [eapply (find_live_located cfg g Hg sidx_wf d0 id); try done; [apply Hrd0|by rewrite (roi_bimg _ _ _ Hr0)]|].
  intros [[sc rc]|e] d1 (Hr1 & Hc1 & Hq); (assert (roi d d1) as Hr by by etrans).
  - apply (located_roi cfg g d d0) in Hq; [|done]. pose proof Hq as (Hrc & _). simpl in Hrc. subst rc.
    destruct (contents d id) as [p|] eqn:Ep; cbn [fst snd].
    + apply wp_bnd. change (mlift (Ok p)) with (@mret db bytes p). apply wp_ret. by apply (Hyes p).
    + apply wp_bnd. change (@mlift db bytes (Err ENOENT)) with (@mfail db bytes ENOENT). apply wp_fail. by apply Hno.
  - destruct Hq as [Hh He]. apply Hdev; try done. intros Hd. by apply Hh, (roi_healthy _ _ Hr0).
Qed.

Lemma confirm_wp {X} d d0 id sc (k : Z -> M db X) Q :
  ready d -> roi d d0 -> coherent d0 -> dev_fail d Q -> let bid := bucket_of id in
  bucket_hdr_valid (bimg d bid) bid = true -> scan_of cfg g (bimg d bid) sc ->
  (forall wc d1, append_at cfg g (bimg d bid) = Ok wc -> roi d d1 -> coherent d1 -> wp (k wc) d1 Q) ->
  wp (mbnd (confirm_cursor cfg g bid id sc) k) d0 Q.
Proof.
  intros Hrd Hr0 Hc0 Hdev bid Hv Hs Hk. pose proof (bucket_range cfg g Hg id) as Hb. fold bid in Hb.
  rewrite <- (roi_bimg _ _ bid Hr0) in Hs. apply wp_bnd.
  eapply wp_mono; [exact (confirm_cursor_spec cfg g Hg sidx_wf d0 bid id sc Hb Hs Hc0)|].
  intros r d1 (Hr1 & Hc1 & Hq); (assert (roi d d1) as Hr by by etrans).
  rewrite (roi_bimg _ _ bid Hr0) in Hq. rewrite (append_at_ok d bid (rd_inv _ Hrd) Hb Hv) in *.
  destruct Hq as [->|(e & -> & Hh & He)]; [by apply Hk|]. apply Hdev; try done. intros Hd. by apply Hh, (roi_healthy _ _ Hr0).
Qed.

(** The relocation step of delete and write, as room_append() wants it. *)
Lemma find_reloc {X} d id p (f : Z -> bytes -> X) (wc : X -> Z) (pay : X -> bytes) q ssz :
  LARGE_PAYLOADS cfg = false -> 0 < id < 2 ^ 64 -> ready d -> let bid := bucket_of id in
  bucket_hdr_valid (bimg d bid) bid = true -> contents d id = Some p ->
  torn_at cfg g (bimg d bid) (log_end cfg g (bimg d bid)) = false ->
  (forall w, wc (f w p) = w) -> (forall w, pay (f w p) = q) ->
  wp (mbnd (find_live_slot cfg g bid id) (fun r => mbnd (mlift (snd r)) (fun dst =>
       mbnd (confirm_cursor cfg g bid id (fst r)) (fun w => if w + ssz >? peb_size g then mfail ENOSPC else mret (f w dst))))) d
    (fun r d3 => roi d d3 /\ coherent d3 /\ let e := log_end cfg g (bimg d bid) in
      match r with
      | Ok x => wc x = e /\ pay x = q /\ e + ssz <= peb_size g
      | Err er => (device_err er /\ ~ healthy (d_store d)) \/ (er = ENOSPC /\ peb_size g < e + ssz)
      end).
Proof.
  intros Hlp Hid Hrd bid Hv Hp Ht Hwc Hpay. pose proof (bucket_range cfg g Hg id) as Hb. fold bid in Hb.
  set (Q := fun (r : res X) (d3 : db) => _). assert (dev_fail d Q) as Hdev by (intros d1 e Hr Hc Hh He; unfold Q; auto).
  apply (find_wp d d id (fun sc dst => mbnd (confirm_cursor cfg g bid id sc) (fun w =>
    if w + ssz >? peb_size g then mfail ENOSPC else mret (f w dst))) Q); try done; [apply (rd_inv _ Hrd)|congruence|].
  intros p' sc d1 Hp' Hl Hr1 Hc1. assert (p' = p) as -> by congruence.
  apply (confirm_wp d d1 id sc); try done; [apply Hl|]. fold bid. intros w d2 Hat Hr2 Hc2.
  rewrite (append_at_ok d bid (rd_inv _ Hrd) Hb Hv), Ht in Hat. injection Hat as <-.
  destruct (Z.gtb_spec (log_end cfg g (bimg d bid) + ssz) (peb_size g)); [apply wp_fail|apply wp_ret]; unfold Q; cbv beta zeta.
  - split_and!; [done|done|right; split; [done|lia]].
  - by rewrite Hwc, Hpay.
Qed.

(** What a mutation of an object that must exist answers when it does not. *)
Definition absent d (r : res unit) d' : Prop :=
  roi d d' /\ coherent d' /\ (r = Err ENOENT \/ exists e, r = Err e /\ ~ healthy (d_store d) /\ device_err e).

Definition mutates d (id fl : Z) (pay : bytes -> bytes) (r : res unit) d' : Prop :=
  match contents d id with
  | None => absent d r d'
  | Some p => mut_post d id fl (pay p) r d'
  end.

Lemma mutates_dev d id fl pay : ready d -> dev_fail d (mutates d id fl pay).
Proof.
  intros Hrd d1 e Hr Hc Hh He. unfold mutates. destruct (contents d id); [by apply read_failed|].
  split_and!; [done|done|right; by exists e].
Qed.

Lemma mutates_absent d id fl pay d1 : contents d id = None -> roi d d1 -> coherent d1 -> mutates d id fl pay (Err ENOENT) d1.
Proof. intros E Hr Hc. unfold mutates. rewrite E. split_and!; [done|done|by left]. Qed.

Lemma delete_impl_spec d id :
  LARGE_PAYLOADS cfg = false -> 0 < id < 2 ^ 64 -> ready d -> mounted (d_st d) = true -> wedged (d_st d) = false ->
  wp (delete_impl cfg g id) d (mutates d id BLOB_DB_SLOT_F_TOMBSTONE (fun _ => [])).
Proof.
  intros Hlp Hid Hrd Hm Hw. pose proof (inv_coh _ _ _ _ (rd_inv _ Hrd)) as Hc. pose proof (bucket_range cfg g Hg id) as Hb.
  pose proof (mutates_dev d id BLOB_DB_SLOT_F_TOMBSTONE (fun _ => []) Hrd) as Hdev. pose proof (ok_payload _ _ Hg) as Hmp.
  unfold delete_impl. do 2 apply wp_bnd, wp_gets. rewrite Hm, Hw. cbn [negb].
  destruct (Z.eqb_spec id 0); [lia|]. rewrite (id_to_bucket_eq cfg g Hg). set (bid := bucket_of id) in *.
  apply (hdr_wp d d id); [reflexivity|done|done| |]; fold bid.
  { intros Hv d1 Hr1 Hc1. apply mutates_absent; [by apply contents_unformatted|done|done]. }
  intros Hv d1 Hr1 Hc1.
  eapply (find_wp d d1 id (fun sc _ => mbnd (confirm_cursor cfg g bid id sc) _)); try done.
  { intros. by apply mutates_absent. }
  intros p sc d2 Hp Hl Hr2 Hc2. eapply (confirm_wp d d2 id sc); try done; [apply Hl|]. fold bid. intros wc d3 Hat Hr3 Hc3.
  eapply wp_mono.
  - apply (room_append d d3 id BLOB_DB_SLOT_F_TOMBSTONE [] (mbnd (find_live_slot cfg g bid id) (fun r => mbnd (mlift (snd r)) (fun _ =>
       mbnd (confirm_cursor cfg g bid id (fst r)) (fun w => if w + slot_size_for g 0 >? peb_size g then mfail ENOSPC else mret w))))
       (fun x => x) (fun _ => []) wc); try done; fold bid; rewrite ?(roi_bimg _ _ bid Hr3); try done;
       [by eapply ready_roi|apply flags_ok_tomb|constructor|unfold len; simpl; lia|].
    intros d4 Hrd4 Hsc4 Hv4 _ Ht4. apply (find_reloc d4 id p (fun w _ => w) (fun x => x) (fun _ => [])); try done. by rewrite (same_contents_at _ _ _ _ _ Hsc4).
  - intros r d' Hx. unfold mutates. by rewrite Hp.
Qed.

(** The payload a positioned write leaves: [b] at [off], the old bytes around
    it, zeros in a gap. *)
Definition patched (off : Z) (b p : bytes) : bytes :=
  staged p b off (len p) (Z.max (off + len b) (len p)).

Lemma patched_spec off b p :
  0 <= off -> let q := patched off b p in
  len q = Z.max (off + len b) (len p) /\
  forall i, q !! i = if decide (off <= Z.of_nat i < off + len b) then b !! (i - Z.to_nat off)%nat
                     else if decide (Z.of_nat i < len p) then p !! i
                     else if decide (Z.of_nat i < off) then Some 0 else None.
Proof.
  intros Ho q. pose proof (len_nonneg p). pose proof (len_nonneg b). unfold q, patched, staged.
  set (base := zt (len p) p ++ replicate _ 0).
  assert (zt (len p) p = p) as Hz by (rewrite zt_slice; by apply slice_all).
  assert (len base = Z.max (off + len b) (len p)) as Hl.
  { unfold base. rewrite len_app, Hz. unfold len at 2. rewrite length_replicate. unfold len. lia. }
  split; [rewrite len_splice by lia; done|]. intros i. rewrite lookup_splice by lia. case_decide; [done|].
  unfold base. rewrite Hz. unfold len in *. case_decide.
  - by rewrite lookup_app_l by lia.
  - rewrite lookup_app_r by lia. case_decide; [apply lookup_replicate_2; lia|]. apply lookup_ge_None_2. rewrite length_replicate. lia.
Qed.

Lemma bytes_ok_patched off b p : 0 <= off -> bytes_ok b -> bytes_ok p -> bytes_ok (patched off b p).
Proof.
  intros Ho Hb Hp. unfold patched, staged. apply bytes_ok_splice; [|done]. apply bytes_ok_app.
  split; [rewrite zt_slice; by apply bytes_ok_slice|]. apply Forall_replicate. unfold byte_ok. lia.
Qed.

Lemma write_impl_spec d id off b :
  LARGE_PAYLOADS cfg = false -> 0 < id < 2 ^ 64 -> ready d -> mounted (d_st d) = true -> wedged (d_st d) = false ->
  0 <= off -> bytes_ok b -> off + len b <= MAX_PAYLOAD_LEN cfg -> b <> [] ->
  wp (write_impl cfg g id off (Some b)) d (mutates d id 0 (patched off b)).
Proof.
  intros Hlp Hid Hrd Hm Hw Ho Hbok Hmax Hne. pose proof (inv_coh _ _ _ _ (rd_inv _ Hrd)) as Hc.
  pose proof (bucket_range cfg g Hg id) as Hb. pose proof (mutates_dev d id 0 (patched off b) Hrd) as Hdev.
  pose proof (ok_payload _ _ Hg) as Hmp. pose proof (ok_peb_size _ _ Hg). pose proof (len_nonneg b).
  assert (0 < len b) as Hb0 by (destruct b; [done|rewrite len_cons; pose proof (len_nonneg b); lia]).
  assert (MAX_PAYLOAD_LEN cfg < 65536) by (pose proof (Z.mul_div_le (peb_size g - 16) 2); unfold_consts; lia).
  unfold write_impl. do 2 apply wp_bnd, wp_gets. rewrite Hm, Hw. cbn [negb].
  assert (u32 (off + len b) = off + len b) as Hu by (apply u32_small; lia). rewrite Hu.
  destruct (Z.eqb_spec id 0); [lia|]. destruct (Z.ltb_spec (off + len b) off); [lia|].
  rewrite (id_to_bucket_eq cfg g Hg). set (bid := bucket_of id) in *.
  apply (hdr_wp d d id); [reflexivity|done|done| |]; fold bid.
  { intros Hv d1 Hr1 Hc1. apply mutates_absent; [by apply contents_unformatted|done|done]. }
  intros Hv d1 Hr1 Hc1. apply (find_wp d d1 id (write_inline cfg g bid id off b)); try done.
  { intros. by apply mutates_absent. }
  intros p sc d2 Hp Hl Hr2 Hc2. pose proof Hl as (_ & _ & Hlp2). destruct (Hlp2 p Hp) as (Hvl & Hpm & Hpok & Hseg).
  cbn [fst] in Hvl, Hseg. unfold write_inline. rewrite Hseg, Hvl, Hu. destruct (Z.eqb_spec (len b) 0); [lia|].
  destruct (patched_spec off b p Ho) as [Hql _]. set (q := patched off b p) in *. pose proof (len_nonneg p).
  destruct (Z.gtb_spec (Z.max (off + len b) (len p)) (MAX_PAYLOAD_LEN cfg)); [lia|].
  rewrite <- Hql, u16_small by lia. set (ssz := slot_size_for g (len q)).
  eapply (confirm_wp d d2 id sc); try done; [apply Hl|]. fold bid. intros wc d3 Hat Hr3 Hc3.
  eapply wp_mono.
  - eapply (room_append d d3 id 0 q (mbnd (find_live_slot cfg g bid id) (fun r => mbnd (mlift (snd r)) (fun dst =>
       mbnd (confirm_cursor cfg g bid id (fst r)) (fun w => if w + ssz >? peb_size g then mfail ENOSPC else mret (w, dst)))))
       fst (fun wd => staged (snd wd) b off (len p) (len q)) (wc, p)); try done; fold bid; rewrite ?(roi_bimg _ _ bid Hr3); try done;
       [by eapply ready_roi|cbn [snd]; by rewrite Hql|apply flags_ok_plain|by apply bytes_ok_patched|lia|].
    intros d4 Hrd4 Hsc4 Hv4 _ Ht4.
    apply (find_reloc d4 id p (fun w dst => (w, dst)) fst (fun wd => staged (snd wd) b off (len p) (len q))); try done.
    + by rewrite (same_contents_at _ _ _ _ _ Hsc4).
    + intros w. cbn [snd]. by rewrite Hql.
  - intros r d' Hx. unfold mutates. by rewrite Hp.
Qed.

(** ** Operations that are cut short *)

(** The events no check can rule out, each naming the step that failed: a
    half-formatted bucket whose header verifies, a half-written scratch that
    verifies as sealed, a torn slot whose CRC verifies. *)
Inductive mishap d (id fl : Z) (p : bytes) d' : Prop :=
  | mis_format d0 e : roi d d0 -> format_bucket g (bucket_of id) d0 = (Err e, d') ->
      bucket_hdr_valid (bimg d' (bucket_of id)) (bucket_of id) = true ->
      bimg d' (bucket_of id) <> fmt_image g (bucket_of id) -> mishap d id fl p d'
  | mis_seal d0 e : roi d d0 -> compact_bucket cfg g (bucket_of id) d0 = (Err e, d') ->
      stray_seal g (scratch d') (bucket_of id) (compact_image cfg g (bimg d (bucket_of id)) (bucket_of id)) -> mishap d id fl p d'
  | mis_slot d0 e : same_contents cfg g d d0 ->
      append_slot cfg g (bucket_of id) (log_end cfg g (bimg d0 (bucket_of id))) id fl p d0 = (Err e, d') ->
      collision (bimg d' (bucket_of id)) (slot_image g id fl p) -> mishap d id fl p d'.

(** [f] is the contents of [d], or those with [id] changed to [v]. *)
Definition old_or_new d (id : Z) (v : option bytes) (f : Z -> option bytes) : Prop :=
  (forall id', f id' = contents d id') \/ (forall id', f id' = if decide (id' = id) then v else contents d id').

(** The same of slots. *)
Definition slots_old_or_new d (id : Z) (v : option (Z * bytes)) (f : Z -> option (Z * bytes)) : Prop :=
  (forall id', f id' = slots cfg g d id') \/ (forall id', f id' = if decide (id' = id) then v else slots cfg g d id').

Lemma slots_old_or_new_contents d id v f : slots_old_or_new d id v f -> old_or_new d id (snd <$> v) (fun id => snd <$> f id).
Proof. intros [Hf|Hf]; [left|right]; intros id'; rewrite Hf; [done|by case_decide]. Qed.

Lemma ready_view d : ready d -> rinv cfg g d /\ seal_aligned g d /\ forall id, rslots cfg g d id = slots cfg g d id.
Proof.
  intros [Hi Hu]. split; [|split; [|intros id; by apply rslots_unsealed]].
  2: { intros b il. unfold unsealed in Hu. by rewrite Hu. }
  intros bid Hb. rewrite rimg_unsealed by done. by apply Hi.
Qed.

Lemma old_or_new_ready d d' id v :
  ready d' -> same_contents cfg g d d' \/ set_value cfg g d d' id v ->
  rinv cfg g d' /\ seal_aligned g d' /\ slots_old_or_new d id v (rslots cfg g d').
Proof.
  intros Hrd Hsc. destruct (ready_view _ Hrd) as (Hi & Hal & Hv). split; [done|]. split; [done|].
  destruct Hsc as [Hs|Hs]; [left|right]; intros id'; by rewrite Hv, Hs.
Qed.

Lemma format_failed d0 d' bid e :
  0 <= bid < n_buckets g -> ready d0 -> bucket_hdr_valid (bimg d0 bid) bid = false ->
  format_bucket g bid d0 = (Err e, d') ->
  (bucket_hdr_valid (bimg d' bid) bid = true /\ bimg d' bid <> fmt_image g bid) \/ (ready d' /\ same_contents cfg g d0 d').
Proof.
  intros Hb Hrd Hv Erun. pose proof (inv_coh _ _ _ _ (rd_inv _ Hrd)) as Hc.
  pose proof (wp_run _ _ _ _ _ (format_bucket_spec cfg g Hg Ha sidx_wf d0 bid Hb Hc) Erun) as (_ & Hc' & b' & Hw & _).
  destruct (decide (bimg d' bid = fmt_image g bid)) as [E|Hne].
  - right. rewrite (wr_img _ _ _ _ Hw) in E. subst b'. by destruct (formatted_ready d0 d' bid Hb Hrd Hv Hc' Hw) as (?&?&_).
  - destruct (bucket_hdr_valid (bimg d' bid) bid) eqn:Hv'; [by left|right]. rewrite (wr_img _ _ _ _ Hw) in Hv'. split.
    + split; [|eapply (unsealed_other d0 _ bid); [lia|apply Hrd|apply Hw]].
      eapply (inv_wrote cfg g sidx_wf d0 d' bid); [done|exact Hw|done|apply Hrd|]. by rewrite Hv'.
    + intros id. rewrite (slots_wrote cfg g _ _ _ _ id Hw). case_decide as E; [|done].
      unfold bucket_slot. rewrite Hv'. symmetry. apply slots_unformatted. by rewrite E.
Qed.

(** Whatever step a mutation was cut in, the next mount finds the contents of
    before or of after it. *)
Lemma mut_crash d d' id fl p r :
  ready d -> mut_end d id fl p r d' ->
  mishap d id fl p d' \/ (rinv cfg g d' /\ seal_aligned g d' /\ slots_old_or_new d id (slot_value fl p) (rslots cfg g d')).
Proof.
  intros Hrd Hend. pose proof (bucket_range cfg g Hg id) as Hb.
  destruct Hend as [d' Hrd' _ Hsv|e d' _ Hrd' _ Hsc|e d0 d' _ Hrd0 Hr0 Hv Erun|e d0 d' _ Hrd0 Hr0 Hv Erun Hcp|e d0 d' _ Hrd0 _ Hsc Erun Hap].
  - right. apply old_or_new_ready; auto.
  - right. apply old_or_new_ready; auto.
  - rewrite <- (roi_bimg _ _ _ Hr0) in Hv. destruct (format_failed d0 d' _ e Hb Hrd0 Hv Erun) as [[? ?]|[Hrd' Hsc]];
      [left; by eapply mis_format|right]. apply old_or_new_ready; [done|left].
    eapply same_contents_trans; [by apply same_contents_roi|done].
  - pose proof (roi_bimg _ _ (bucket_of id) Hr0) as Hbm. rewrite <- Hbm in Hv.
    destruct (compact_recoverable cfg g Hg Ha sidx_wf d0 d' (Err e) (bucket_of id) Hb (rd_inv _ Hrd0) (rd_seal _ Hrd0) Hv Hcp)
      as [Hst|(Hi & Hal & Hc)]; [left; eapply mis_seal; [done|done|by rewrite <- Hbm]|right].
    split; [done|]. split; [done|]. left. intros id'. rewrite Hc. by apply slots_roi.
  - destruct (ap_res _ _ _ _ _ _ _ _ _ Hap) as [_ [Hcol|[Hinv' Hsc']]]; [left; by eapply mis_slot|right].
    apply old_or_new_ready.
    + split; [done|]. eapply (unsealed_other d0 _ (bucket_of id)); [lia|apply Hrd0|apply Hap].
    + destruct Hsc' as [Hs|Hs]; [left; by eapply same_contents_trans|right; by eapply set_value_trans].
Qed.

(** After an error the mounted store refuses to write, or it is sound and holds
    the contents of before or of after the operation. *)
Lemma mut_settled d d' id fl p r :
  ready d -> mut_end d id fl p r d' ->
  mishap d id fl p d' \/ wedged (d_st d') = true \/
  (d_st d' = d_st d /\ db_inv d' /\ slots_old_or_new d id (slot_value fl p) (slots cfg g d')).
Proof.
  intros Hrd Hend. pose proof (bucket_range cfg g Hg id) as Hb.
  destruct Hend as [d' Hrd' Hst Hsv|e d' _ Hrd' Hst Hsc|e d0 d' _ Hrd0 Hr0 Hv Erun|e d0 d' _ Hrd0 Hr0 Hv Erun Hcp|e d0 d' _ Hrd0 Hst Hsc Erun Hap].
  - right; right. split_and!; [done|apply Hrd'|by right].
  - right; right. split_and!; [done|apply Hrd'|by left].
  - rewrite <- (roi_bimg _ _ _ Hr0) in Hv. destruct (format_failed d0 d' _ e Hb Hrd0 Hv Erun) as [[? ?]|[Hrd' Hsc]];
      [left; by eapply mis_format|right; right]. split_and!; [|apply Hrd'|].
    + pose proof (wp_run _ _ _ _ _ (format_bucket_spec cfg g Hg Ha sidx_wf d0 _ Hb (inv_coh _ _ _ _ (rd_inv _ Hrd0))) Erun)
        as (_ & _ & b' & Hw & _). rewrite (wr_st _ _ _ _ Hw). apply Hr0.
    + left. eapply same_contents_trans; [by apply same_contents_roi|done].
  - pose proof (roi_bimg _ _ (bucket_of id) Hr0) as Hbm. rewrite <- Hbm in Hv. right.
    assert (d_st d' = d_st d0 -> db_inv d' /\ same_contents cfg g d0 d' -> wedged (d_st d') = true \/
      (d_st d' = d_st d /\ db_inv d' /\ slots_old_or_new d id (slot_value fl p) (slots cfg g d'))) as Hfin.
    { intros E [Hi Hs]. right. split_and!; [rewrite E; apply Hr0|done|]. left.
      eapply same_contents_trans; [by apply same_contents_roi|done]. }
    destruct (kept_or_wedged cfg g Hg sidx_wf d0 d' e (bucket_of id) Hb (rd_inv _ Hrd0) Hv Hcp) as [?|[? ?]]; [by left|auto].
  - destruct (ap_res _ _ _ _ _ _ _ _ _ Hap) as [_ [Hcol|[Hinv' Hsc']]]; [left; by eapply mis_slot|right; right].
    split_and!; [rewrite (ap_st _ _ _ _ _ _ _ _ _ Hap); done|done|].
    destruct Hsc' as [Hs|Hs]; [left; by eapply same_contents_trans|right; by eapply set_value_trans].
Qed.

Lemma mut_usable d d' id fl p r :
  ready d -> mut_end d id fl p r d' ->
  mishap d id fl p d' \/ wedged (d_st d') = true \/
  (d_st d' = d_st d /\ db_inv d' /\ old_or_new d id (slot_bytes fl p) (contents d')).
Proof.
  intros Hrd Hend. destruct (mut_settled d d' id fl p r Hrd Hend) as [?|[?|(? & ? & Hon)]]; auto.
  right; right. split_and!; [done|done|by apply (slots_old_or_new_contents _ _ (slot_value fl p))].
Qed.
End writes.
