(* ===== verification/Master.v ===== *)
(** The master log of blob_db.c: two master sectors, each a header written once
    per erase and an append-only log of records that carry the id ceiling; and
    id allocation on top of it. *)

From S2P Require Import Prelude Layout Store SlotIndexIface Image Core.

(** [enum master_class], with the header an ok sector carries. *)
Inductive master_class :=
  | MASTER_ERASED
  | MASTER_CORRUPT
  | MASTER_FOREIGN
  | MASTER_OK (h : blob_db_master_hdr).

(** [struct master_log]: [ml_newest] is -1 for none. *)
Record master_log := mk_master_log {
  ml_end : Z;
  ml_newest : Z;
  ml_tail_bad : bool;
  ml_rec : blob_db_master_rec;
}.

Definition zero_rec : blob_db_master_rec := mk_master_rec 0 0 0 0 0 0 0 0 0.

Section master.
Context (cfg : config) (g : geom) `{Crc}.

(** The header classification of the 128 bytes at the start of a sector. *)
Definition classify_bytes (buf : bytes) : master_class :=
  if all_erased buf then MASTER_ERASED
  else
    let c := dec_compat_hdr buf in
    if negb (prefix_crc16 c =? prefix_crc buf) then MASTER_CORRUPT
    else if negb (bool_decide (ch_magic c = MASTER_MAGIC)) then MASTER_FOREIGN
    else if negb (format_major c =? BLOB_DB_FORMAT_MAJOR) then MASTER_FOREIGN
    else if (hdr_len c <? 64) || (hdr_len c >? BLOB_DB_MASTER_HDR_MAX) then MASTER_FOREIGN
    else
      let out := dec_master_hdr buf in
      if negb (h_crc32 out =? master_hdr_crc out) then MASTER_CORRUPT else MASTER_OK out.

Definition master_accept (h : blob_db_master_hdr) : res unit :=
  let missing := Z.land (h_incompat h) (Z.lnot (BLOB_DB_BUILD_INCOMPAT cfg)) in
  if negb (Z.land missing (Z.lnot BLOB_DB_LIB_INCOMPAT) =? 0) then Err ENOTSUP
  else if negb (Z.land missing BLOB_DB_FEAT_LARGE_PAYLOADS =? 0) then Err ENOTSUP
  else if negb (Z.land (h_ro_compat h) (Z.lnot BLOB_DB_BUILD_RO_COMPAT) =? 0) then Err ENOTSUP
  else if negb (Z.land BLOB_DB_BUILD_REQUIRED (Z.lnot (h_incompat h)) =? 0) then Err ENOTSUP
  else if negb (h_suite h =? BLOB_DB_BUILD_SUITE) || negb (hdr_len (h_prefix h) =? BLOB_DB_BUILD_HDR_LEN) then Err ENOTSUP
  else if negb (h_peb_size h =? peb_size g) || negb (h_n_buckets h =? n_buckets g) then Err ENOTSUP
  else if negb (h_rec_size h =? rec_size g) then Err ENOTSUP
  else if h_max_payload_len h >? MAX_PAYLOAD_LEN cfg then Err ENOTSUP
  else if negb (h_write_align h =? write_align g) then Err ENOTSUP
  else Ok tt.

Definition master_rec_ok (rg : Z) (slot : bytes) (i : Z) : option blob_db_master_rec :=
  let out := dec_master_rec slot in
  if (rec_no out =? i) && (r_crc32 out =? master_rec_crc rg out) then Some out else None.

Definition master_rec_fill (st : st_t) : blob_db_master_rec :=
  let want := u64 (next_id st + 1 + BLOB_DB_ID_HINT_STEP) in
  mk_master_rec 0 0 (if ceiling_reset st then want else Z.max (next_id_hint st) want) 0 (seg_owner st) 0 (fuses st) 0 0.

(** The bytes [master_rec_stage()] puts in the record buffer. *)
Definition master_rec_stage (r : blob_db_master_rec) (no rg : Z) : bytes :=
  let r := mk_master_rec no (r_reserved0 r) (r_next_id_hint r) (r_seq_hint r) (r_seg_owner r) (r_reserved1 r)
             (r_fuses r) (r_reserved2 r) (r_crc32 r) in
  let r := mk_master_rec no (r_reserved0 r) (r_next_id_hint r) (r_seq_hint r) (r_seg_owner r) (r_reserved1 r)
             (r_fuses r) (r_reserved2 r) (master_rec_crc rg r) in
  enc_master_rec r ++ erased (rec_size g - 48).

(** The header [master_write_sector()] builds. *)
Definition master_hdr_of (st : st_t) (rg : Z) : blob_db_master_hdr :=
  let pre c := mk_compat_hdr MASTER_MAGIC BLOB_DB_FORMAT_MAJOR BLOB_DB_FORMAT_MINOR BLOB_DB_BUILD_HDR_LEN 0 c in
  let h c := mk_master_hdr (pre (prefix_crc (enc_compat_hdr (pre 0)))) rg (u32 (peb_size g)) (n_buckets g) (rec_size g)
    (incompat st) (ro_compat st) (compat st) BLOB_DB_BUILD_SUITE [0; 0; 0] (replicate 16 0) (MAX_PAYLOAD_LEN cfg)
    (u16 (write_align g)) c in
  h (master_hdr_crc (h 0)).

Definition master_sector (st : st_t) (rg : Z) (r : blob_db_master_rec) : bytes :=
  enc_master_hdr (master_hdr_of st rg) ++ erased (BLOB_DB_MASTER_LOG_OFF - 64) ++ master_rec_stage r 0 rg.

Context {S I : Type} `{!Store S} `{!SlotIndex I}.
Notation db := (db S I).

Definition master_classify (slot : Z) : M db master_class :=
  let* buf := io (blob_db_store_read (peb_offset g slot) BLOB_DB_MASTER_HDR_MAX) in
  mret (classify_bytes buf).

Definition master_slot_read (slot i : Z) : M db bytes :=
  io (blob_db_store_read (peb_offset g slot + BLOB_DB_MASTER_LOG_OFF + i * rec_size g) (rec_size g)).

(** The binary search of [master_log_load()]. *)
Fixpoint log_search (fuel : nat) (slot lo hi : Z) : M db Z :=
  match fuel with
  | O => mret lo
  | Datatypes.S fuel =>
      if lo <? hi then
        let mid := lo + (hi - lo) / 2 in
        let* b := master_slot_read slot mid in
        if all_erased b then log_search fuel slot lo mid else log_search fuel slot (mid + 1) hi
      else mret lo
  end.

(** Its walk back: [k] is [i + 1]. *)
Fixpoint log_newest (k : nat) (slot rg end_ : Z) (tail_bad : bool) : M db master_log :=
  match k with
  | O => mret (mk_master_log end_ (-1) tail_bad zero_rec)
  | Datatypes.S k =>
      let i := Z.of_nat k in
      let* b := master_slot_read slot i in
      match master_rec_ok rg b i with
      | Some r => mret (mk_master_log end_ i tail_bad r)
      | None => log_newest k slot rg end_ (tail_bad || (i =? end_ - 1))
      end
  end.

Definition master_log_load (slot rg : Z) : M db master_log :=
  let* end_ := log_search (Z.to_nat (log_cap g)) slot 0 (log_cap g) in
  log_newest (Z.to_nat end_) slot rg end_ false.

Definition master_write_sector (slot rg : Z) (r : blob_db_master_rec) : M db unit :=
  let* st := st_get id in
  io (blob_db_store_replace (peb_offset g slot) (master_sector st rg r)).

Definition master_rotate (r : blob_db_master_rec) : M db unit :=
  let* st := st_get id in
  let other := if active_master st =? 0 then 1 else 0 in
  if rot_gen st =? UINT32_MAX then mfail ENOSPC
  else
    master_write_sector other (rot_gen st + 1) r;;;
    st_mod (fun st => set_log_failed false (set_log_next 1 (set_rot_gen (rot_gen st + 1) (set_active_master other st)))).

Definition master_commit_how (force_rotate : bool) : M db unit :=
  let* st := st_get id in
  let r := master_rec_fill st in
  let* rc :=
    if force_rotate || log_failed st || (log_next st >=? log_cap g) then mtry (master_rotate r)
    else
      let at_ := peb_offset g (active_master st) + BLOB_DB_MASTER_LOG_OFF + log_next st * rec_size g in
      let buf := master_rec_stage r (log_next st) (rot_gen st) in
      let* rc := mtry (io (blob_db_store_write at_ buf)) in
      st_mod (fun st => set_log_next (u16 (log_next st + 1)) st);;;
      (if is_ok rc then mret tt else st_mod (set_log_failed true));;;
      mret rc in
  st_mod (set_ceiling_reset false);;;
  match rc with
  | Ok _ => st_mod (set_next_id_hint (r_next_id_hint r))
  | Err e => mfail e
  end.

Definition master_commit : M db unit := master_commit_how false.
Definition master_commit_rotate : M db unit := master_commit_how true.

Definition master_format : M db unit :=
  st_mod (fun st => set_ceiling_reset true (set_compat 0 (set_ro_compat BLOB_DB_BUILD_RO_COMPAT
    (set_incompat (BLOB_DB_BUILD_INCOMPAT cfg) (set_fuses 0 (set_seg_owner 0 (set_next_id 2 st)))))));;;
  let* st := st_get id in
  let r := master_rec_fill st in
  st_mod (set_ceiling_reset false);;;
  master_write_sector BLOB_DB_MASTER_B_SECTOR 1 r;;;
  master_write_sector BLOB_DB_MASTER_A_SECTOR 2 r;;;
  st_mod (fun st => set_next_id_hint (r_next_id_hint r) (set_log_failed false (set_log_next 1 (set_rot_gen 2
    (set_active_master BLOB_DB_MASTER_A_SECTOR st))))).

Definition persist_next_id_hint : M db unit := master_commit.

(** 0 stands for a failed allocation: it is never a valid id. *)
Definition alloc_id_impl : M db Z :=
  let* m := st_get mounted in
  if negb m then mret 0
  else
    let* st := st_get id in
    let* rc := if next_id st >=? next_id_hint st then mtry persist_next_id_hint else mret (Ok tt) in
    match rc with
    | Err _ => mret 0
    | Ok _ =>
        let* id := st_get next_id in
        st_mod (set_next_id (u64 (id + 1)));;;
        mret id
    end.
End master.
