(* ===== verification/MasterSpec.v ===== *)
(** The master log: a load finds the newest record that verifies, a commit adds
    one that a load then finds, and no id is handed out above the ceiling that
    is on flash. *)

From S2P Require Import Prelude Layout Store SlotIndexIface Image Core CoreRead Bucket Master.

Section bytes.
Context (cfg : config) (g : geom) `{Crc} (Hg : geom_ok cfg g) {CL : CrcLaws _}.

(** ** The log of a master sector, read as bytes *)

Definition rec_slot (sb : bytes) (i : Z) : bytes := slice (BLOB_DB_MASTER_LOG_OFF + i * rec_size g) (rec_size g) sb.
Definition rec_at (sb : bytes) (rg i : Z) : option blob_db_master_rec := master_rec_ok rg (rec_slot sb i) i.
Definition hdr_class (sb : bytes) : master_class := classify_bytes (slice 0 BLOB_DB_MASTER_HDR_MAX sb).

(** The log invariant: the written slots are the first [n]. *)
Record log_prefix (sb : bytes) (n : Z) : Prop := {
  lp_range : 0 <= n <= log_cap g;
  lp_written : forall i, 0 <= i < n -> all_erased (rec_slot sb i) = false;
  lp_blank : forall i, n <= i < log_cap g -> all_erased (rec_slot sb i) = true;
}.

(** The newest of the first [k] records that verifies. *)
Fixpoint newest_rec (sb : bytes) (rg : Z) (k : nat) : option (Z * blob_db_master_rec) :=
  match k with
  | O => None
  | S k => match rec_at sb rg (Z.of_nat k) with
           | Some r => Some (Z.of_nat k, r)
           | None => newest_rec sb rg k
           end
  end.

Lemma rec_size_spec : 48 <= rec_size g <= 64 /\ rec_size g mod write_align g = 0.
Proof.
  pose proof (ok_align _ _ Hg) as Ha. rewrite (ok_rec_size _ _ Hg). destruct (round_up_spec 48 (write_align g) Ha) as [Hb Hm].
  split; [|done]. unfold pow2_le32 in Ha. split; [lia|].
  destruct Ha as [->|[->|[->|[->|[->| ->]]]]]; vm_compute; discriminate || (intros; discriminate).
Qed.

Lemma rec_slot_bounds i : 0 <= i < log_cap g -> 0 <= BLOB_DB_MASTER_LOG_OFF + i * rec_size g /\
  BLOB_DB_MASTER_LOG_OFF + i * rec_size g + rec_size g <= peb_size g.
Proof.
  intros Hi. destruct rec_size_spec as [Hr _]. destruct (ok_log_cap _ _ Hg) as [_ Hc]. unfold_consts. nia.
Qed.

(** ** A staged record verifies *)

Definition rec_fits (r : blob_db_master_rec) : Prop :=
  0 <= r_next_id_hint r < 2 ^ 64 /\ 0 <= r_seg_owner r < 2 ^ 64 /\ 0 <= r_fuses r < 2 ^ 32 /\
  r_reserved0 r = 0 /\ r_seq_hint r = 0 /\ r_reserved1 r = 0 /\ r_reserved2 r = 0.

Definition rec_staged (r : blob_db_master_rec) (no rg : Z) : blob_db_master_rec :=
  let r := mk_master_rec no (r_reserved0 r) (r_next_id_hint r) (r_seq_hint r) (r_seg_owner r) (r_reserved1 r)
             (r_fuses r) (r_reserved2 r) (r_crc32 r) in
  mk_master_rec no (r_reserved0 r) (r_next_id_hint r) (r_seq_hint r) (r_seg_owner r) (r_reserved1 r)
    (r_fuses r) (r_reserved2 r) (master_rec_crc rg r).

Lemma len_enc_rec r : len (enc_master_rec r) = 48.
Proof. unfold enc_master_rec. rewrite !len_app, !len_le. done. Qed.

Lemma len_rec_stage r no rg : len (master_rec_stage g r no rg) = rec_size g.
Proof.
  destruct rec_size_spec. unfold master_rec_stage. rewrite len_app, len_enc_rec, len_erased by lia. lia.
Qed.

Lemma bytes_ok_rec_stage r no rg : bytes_ok (master_rec_stage g r no rg).
Proof.
  unfold master_rec_stage, enc_master_rec. rewrite !bytes_ok_app. split_and!; auto using bytes_ok_le, bytes_ok_erased.
Qed.

(** The CRC of a record does not cover its own field. *)
Lemma master_rec_crc_field rg no a b c d e f h x y :
  master_rec_crc rg (mk_master_rec no a b c d e f h x) = master_rec_crc rg (mk_master_rec no a b c d e f h y).
Proof.
  unfold master_rec_crc, enc_master_rec.
  cbn [rec_no r_reserved0 r_next_id_hint r_seq_hint r_seg_owner r_reserved1 r_fuses r_reserved2 r_crc32].
  assert (forall z, slice 0 44 (le 4 no ++ le 4 a ++ le 8 b ++ le 8 c ++ le 8 d ++ le 4 e ++ le 4 f ++ le 4 h ++ le 4 z) =
    le 4 no ++ le 4 a ++ le 8 b ++ le 8 c ++ le 8 d ++ le 4 e ++ le 4 f ++ le 4 h) as Hx; [|by rewrite !Hx].
  intros z. replace (le 4 no ++ le 4 a ++ le 8 b ++ le 8 c ++ le 8 d ++ le 4 e ++ le 4 f ++ le 4 h ++ le 4 z) with
    ((le 4 no ++ le 4 a ++ le 8 b ++ le 8 c ++ le 8 d ++ le 4 e ++ le 4 f ++ le 4 h) ++ le 4 z) by by rewrite <- !app_assoc.
  apply slice_here. rewrite !len_app, !len_le. done.
Qed.

Lemma rec_stage_ok r no rg :
  rec_fits r -> 0 <= no < 2 ^ 32 -> master_rec_ok rg (master_rec_stage g r no rg) no = Some (rec_staged r no rg).
Proof.
  intros (?&?&?&E0&E1&E2&E3) Hno. unfold master_rec_ok, master_rec_stage. fold (rec_staged r no rg).
  assert (master_rec_wf (rec_staged r no rg)) as Hwf.
  { unfold master_rec_wf, rec_staged. cbn. rewrite E0, E1, E2, E3. pose proof (crc32_update_range) as Hc.
    split_and!; try lia; unfold master_rec_crc; apply Hc. }
  change (mk_master_rec no _ _ _ _ _ _ _ (master_rec_crc rg _)) with (rec_staged r no rg).
  rewrite dec_enc_master_rec by done.
  assert (master_rec_crc rg (rec_staged r no rg) = r_crc32 (rec_staged r no rg)) as -> by apply master_rec_crc_field.
  rewrite Z.eqb_refl. unfold rec_staged at 1. cbn [rec_no]. by rewrite Z.eqb_refl.
Qed.

(** A written record never reads erased: its number is below the log's capacity. *)
Lemma rec_stage_written r no rg : 0 <= no < 65536 -> all_erased (master_rec_stage g r no rg) = false.
Proof.
  intros Hno. destruct (all_erased _) eqn:E; [|done]. exfalso. apply all_erased_spec in E. rewrite len_rec_stage in E.
  destruct rec_size_spec. assert (slice 0 4 (master_rec_stage g r no rg) = erased 4) as E4 by (rewrite E; apply slice_erased; lia).
  unfold master_rec_stage, enc_master_rec in E4. cbn [rec_no] in E4. rewrite <- app_assoc in E4.
  rewrite slice_here in E4 by (rewrite len_le; done). apply (f_equal le_dec) in E4.
  rewrite le_dec_le in E4 by lia. vm_compute in E4. lia.
Qed.

(** ** A sector as master_write_sector() leaves it *)

Definition feats_ok (st : st_t) : Prop :=
  0 <= incompat st < 2 ^ 32 /\ 0 <= ro_compat st < 2 ^ 32 /\ 0 <= compat st < 2 ^ 32.

Lemma prefix_crc_field m a b c d x y t t' :
  len m = 4 ->
  prefix_crc (enc_compat_hdr (mk_compat_hdr m a b c d x) ++ t) = prefix_crc (enc_compat_hdr (mk_compat_hdr m a b c d y) ++ t').
Proof.
  intros Hm. unfold prefix_crc, enc_compat_hdr. cbn [ch_magic format_major format_minor hdr_len ch_reserved prefix_crc16]. f_equal.
  assert (forall z u, slice 0 10 ((m ++ le 1 a ++ le 1 b ++ le 2 c ++ le 2 d ++ le 2 z) ++ u) = m ++ le 1 a ++ le 1 b ++ le 2 c ++ le 2 d)
    as Hx; [|by rewrite !Hx].
  intros z u. replace ((m ++ le 1 a ++ le 1 b ++ le 2 c ++ le 2 d ++ le 2 z) ++ u) with
    ((m ++ le 1 a ++ le 1 b ++ le 2 c ++ le 2 d) ++ le 2 z ++ u) by by rewrite <- !app_assoc.
  apply slice_here. rewrite !len_app, !len_le. lia.
Qed.

Lemma len_hdr_of st rg : len (enc_master_hdr (master_hdr_of cfg g st rg)) = 64.
Proof.
  unfold enc_master_hdr, enc_compat_hdr, master_hdr_of. rewrite !len_app, !len_le.
  cbn [h_prefix h_reserved0 h_store_uuid ch_magic]. done.
Qed.

Lemma hdr_of_wf st rg : 0 <= rg < 2 ^ 32 -> feats_ok st -> master_hdr_ok (master_hdr_of cfg g st rg).
Proof.
  intros Hrg (?&?&?). pose proof (ok_pebs _ _ Hg) as [Hp1 Hp2]. pose proof (ok_buckets _ _ Hg). destruct rec_size_spec as [Hr _].
  pose proof (ok_payload _ _ Hg). pose proof (ok_peb_size _ _ Hg) as Hps. unfold_consts.
  pose proof (Z.mul_div_le (peb_size g - 16) 2).
  unfold master_hdr_ok, compat_hdr_ok, master_hdr_of.
  cbn [h_prefix h_rot_gen h_peb_size h_n_buckets h_rec_size h_incompat h_ro_compat h_compat h_suite h_reserved0 h_store_uuid
    h_max_payload_len h_write_align h_crc32 ch_magic format_major format_minor hdr_len ch_reserved prefix_crc16].
  unfold u32, u16. pose proof (Z.mod_pos_bound (peb_size g) (2 ^ 32)). pose proof (Z.mod_pos_bound (write_align g) (2 ^ 16)).
  split_and!; try done; try lia; first [apply crc16_range|apply crc32_range|idtac].
Qed.

Lemma slice_hdr_crc h c :
  len (ch_magic (h_prefix h)) = 4 -> len (h_reserved0 h) = 3 -> len (h_store_uuid h) = 16 ->
  slice 0 60 (enc_master_hdr h) = slice 0 60 (enc_master_hdr (mk_master_hdr (h_prefix h) (h_rot_gen h) (h_peb_size h) (h_n_buckets h)
    (h_rec_size h) (h_incompat h) (h_ro_compat h) (h_compat h) (h_suite h) (h_reserved0 h) (h_store_uuid h) (h_max_payload_len h)
    (h_write_align h) c)).
Proof.
  intros H1 H2 H3. destruct h as [p a b c' d e f k l m n o q r]. cbn in *. unfold enc_master_hdr. cbn.
  assert (forall x, slice 0 60 (enc_compat_hdr p ++ le 4 a ++ le 4 b ++ le 2 c' ++ le 2 d ++ le 4 e ++ le 4 f ++ le 4 k ++ le 1 l ++
    m ++ n ++ le 2 o ++ le 2 q ++ le 4 x) = enc_compat_hdr p ++ le 4 a ++ le 4 b ++ le 2 c' ++ le 2 d ++ le 4 e ++ le 4 f ++ le 4 k ++
    le 1 l ++ m ++ n ++ le 2 o ++ le 2 q) as Hx; [|by rewrite !Hx].
  intros x. rewrite <- (slice_here 60 (enc_compat_hdr p ++ le 4 a ++ le 4 b ++ le 2 c' ++ le 2 d ++ le 4 e ++ le 4 f ++ le 4 k ++
    le 1 l ++ m ++ n ++ le 2 o ++ le 2 q) (le 4 x)).
  - by rewrite <- !app_assoc.
  - unfold enc_compat_hdr. rewrite !len_app, !len_le. lia.
Qed.

(** The header a master sector is given is accepted as ours. *)
Lemma classify_hdr_of st rg t :
  0 <= rg < 2 ^ 32 -> feats_ok st ->
  classify_bytes (enc_master_hdr (master_hdr_of cfg g st rg) ++ t) = MASTER_OK (master_hdr_of cfg g st rg).
Proof.
  intros Hrg Hf. pose proof (hdr_of_wf st rg Hrg Hf) as Hwf. set (h := master_hdr_of cfg g st rg) in *.
  assert (dec_master_hdr (enc_master_hdr h ++ t) = h) as Hdec by by apply dec_enc_master_hdr.
  assert (dec_compat_hdr (enc_master_hdr h ++ t) = h_prefix h) as Hpre by (by rewrite <- Hdec at 2).
  unfold classify_bytes. rewrite Hdec, Hpre.
  assert (all_erased (enc_master_hdr h ++ t) = false) as -> by done.
  assert (prefix_crc16 (h_prefix h) =? prefix_crc (enc_master_hdr h ++ t) = true) as ->.
  { apply Z.eqb_eq. unfold h, master_hdr_of at 1. cbn [h_prefix prefix_crc16]. unfold enc_master_hdr.
    rewrite <- app_assoc. rewrite <- (app_nil_r (enc_compat_hdr _)) at 1. by apply prefix_crc_field. }
  assert (h_crc32 h =? master_hdr_crc h = true) as ->.
  { apply Z.eqb_eq. unfold master_hdr_crc at 1. rewrite (slice_hdr_crc h 0) by apply Hwf. done. }
  assert (ch_magic (h_prefix h) = MASTER_MAGIC) as -> by done. rewrite bool_decide_true by done. done.
Qed.

Lemma accept_hdr_of st rg :
  incompat st = BLOB_DB_BUILD_INCOMPAT cfg -> ro_compat st = 0 -> master_accept cfg g (master_hdr_of cfg g st rg) = Ok tt.
Proof.
  intros Hi Hr. unfold master_accept, master_hdr_of.
  cbn [h_incompat h_ro_compat h_suite h_prefix hdr_len h_peb_size h_n_buckets h_rec_size h_max_payload_len h_write_align].
  rewrite Hi, Hr, Z.land_lnot_diag. cbn. pose proof (ok_peb_size _ _ Hg). pose proof (pow2_le32_pos _ (ok_align _ _ Hg)).
  rewrite u32_small, u16_small by lia. rewrite !Z.eqb_refl. cbn.
  destruct (Z.gtb_spec (MAX_PAYLOAD_LEN cfg) (MAX_PAYLOAD_LEN cfg)); [lia|done].
Qed.

(** The block after the replace. *)
Definition sector_block (st : st_t) (rg : Z) (r : blob_db_master_rec) : bytes :=
  let s := master_sector cfg g st rg r in s ++ erased (peb_size g - len s).

Lemma len_master_sector st rg r : len (master_sector cfg g st rg r) = 128 + rec_size g.
Proof.
  unfold master_sector. rewrite !len_app, len_hdr_of, len_rec_stage. rewrite len_erased by (vm_compute; discriminate). unfold_consts. lia.
Qed.

Lemma sector_block_spec st rg r :
  0 <= rg < 2 ^ 32 -> feats_ok st -> rec_fits r ->
  let sb := sector_block st rg r in
  hdr_class sb = MASTER_OK (master_hdr_of cfg g st rg) /\ log_prefix sb 1 /\ rec_at sb rg 0 = Some (rec_staged r 0 rg).
Proof.
  intros Hrg Hf Hr sb. pose proof (len_master_sector st rg r) as Hl. destruct rec_size_spec as [Hrs _].
  destruct (ok_log_cap _ _ Hg) as [Hc1 Hc2]. unfold BLOB_DB_MASTER_LOG_OFF, BLOB_DB_MASTER_HDR_MAX in Hc2.
  assert (rec_slot sb 0 = master_rec_stage g r 0 rg) as H0.
  { unfold rec_slot, sb, sector_block. unfold_consts. cbv zeta. rewrite slice_app_l by (unfold_consts; lia).
    unfold master_sector. rewrite slice_app_r by (rewrite len_hdr_of; lia). rewrite len_hdr_of.
    rewrite slice_app_r by (rewrite len_erased; vm_compute; discriminate). rewrite len_erased by (vm_compute; discriminate).
    unfold_consts. replace (128 + 0 * rec_size g - 64 - (128 - 64)) with 0 by lia. apply slice_all. by rewrite len_rec_stage. }
  split_and!.
  - unfold hdr_class, sb, sector_block, master_sector. cbv zeta. rewrite <- !app_assoc.
    rewrite <- (classify_hdr_of st rg (erased (BLOB_DB_MASTER_LOG_OFF - 64)) Hrg Hf). f_equal.
  - split; [lia|..].
    + intros i Hi. replace i with 0 by lia. rewrite H0. apply rec_stage_written. lia.
    + intros i Hi. unfold rec_slot, sb, sector_block. cbv zeta. unfold_consts.
      rewrite slice_app_r by (rewrite Hl; nia). rewrite Hl. rewrite slice_erased; [apply all_erased_erased|nia|lia|nia].
  - unfold rec_at. rewrite H0. apply rec_stage_ok; [done|lia].
Qed.
End bytes.

Section db.
Context (cfg : config) (g : geom) `{Crc}.
Context {S I : Type} `{!Store S} `{!StoreView S} `{!SlotIndex I}.
Context (Hg : geom_ok cfg g) (Ha : geom_aligned g) {SL : StoreLaws S (store_geom_of g)} {CL : CrcLaws _}.
Notation db := (db S I).
Implicit Types d : db.

Definition is_master (slot : Z) : Prop := slot = 0 \/ slot = 1.

Lemma master_peb slot : is_master slot -> 0 <= slot < n_pebs g.
Proof. intros Hs. pose proof (ok_pebs _ _ Hg). pose proof (ok_buckets _ _ Hg). unfold is_master in Hs. unfold_consts. lia. Qed.

Lemma ro_pimg d d' p : ro d d' -> pimg d' p = pimg d p.
Proof. intros Hr. apply (ro_flash _ _ Hr). Qed.

Lemma master_slot_read_spec d slot i :
  is_master slot -> 0 <= i < log_cap g ->
  reads_ok d (master_slot_read g slot i) (fun b => b = rec_slot g (pimg d slot) i).
Proof.
  intros Hs Hi. destruct (rec_slot_bounds cfg g Hg i Hi) as [H1 H2]. destruct (rec_size_spec cfg g Hg) as [? _].
  unfold master_slot_read. rewrite <- Z.add_assoc. apply (peb_read_spec g); [by apply master_peb|lia..].
Qed.

(** The binary search finds the end of the log. *)
Lemma log_search_spec fuel d slot lo hi n :
  is_master slot -> log_prefix g (pimg d slot) n -> 0 <= lo <= n -> n <= hi <= log_cap g -> hi - lo <= Z.of_nat fuel ->
  reads_ok d (log_search g fuel slot lo hi) (fun e => e = n).
Proof.
  intros Hs. revert d lo hi. induction fuel as [|fuel IH]; intros d lo hi Hp Hlo Hhi Hf; cbn [log_search].
  - apply reads_ok_ret. lia.
  - destruct (Z.ltb_spec lo hi); [|apply reads_ok_ret; lia].
    set (mid := lo + (hi - lo) / 2). assert (lo <= mid < hi) as Hmid.
    { unfold mid. pose proof (Z.div_pos (hi - lo) 2). pose proof (Z.div_lt_upper_bound (hi - lo) 2 (hi - lo)). lia. }
    eapply reads_ok_bnd; [apply master_slot_read_spec; [done|lia]|]. intros b d' Hr ->.
    rewrite <- (ro_pimg _ _ slot Hr) in Hp |- *. destruct (all_erased _) eqn:E; apply IH; try done; try lia.
    + destruct (decide (mid < n)) as [Hlt|]; [|lia]. rewrite (lp_written _ _ _ Hp mid) in E by lia. done.
    + destruct (decide (n <= mid)) as [Hge|]; [|lia]. rewrite (lp_blank _ _ _ Hp mid) in E by lia. done.
Qed.

Definition loaded (sb : bytes) (rg n : Z) : master_log :=
  mk_master_log n (match newest_rec g sb rg (Z.to_nat n) with Some (i, _) => i | None => -1 end)
    ((0 <? n) && (match rec_at g sb rg (n - 1) with Some _ => false | None => true end))
    (match newest_rec g sb rg (Z.to_nat n) with Some (_, r) => r | None => zero_rec end).

Lemma log_newest_spec k d slot rg n tb :
  is_master slot -> 0 <= n <= log_cap g -> Z.of_nat k <= n -> (tb = false -> Z.of_nat k = n) ->
  (tb = true -> Z.of_nat k < n) ->
  reads_ok d (log_newest g k slot rg n tb) (fun log =>
    let nr := newest_rec g (pimg d slot) rg k in
    log = mk_master_log n (match nr with Some (i, _) => i | None => -1 end)
            (tb || ((0 <? Z.of_nat k) && match rec_at g (pimg d slot) rg (n - 1) with Some _ => false | None => true end))
            (match nr with Some (_, r) => r | None => zero_rec end)).
Proof.
  intros Hs Hn. revert d tb. induction k as [|k IH]; intros d tb Hk Hf Ht; cbn [log_newest newest_rec].
  - apply reads_ok_ret. cbn. by rewrite orb_false_r.
  - eapply reads_ok_bnd; [apply master_slot_read_spec; [done|lia]|]. intros b d' Hr ->.
    fold (rec_at g (pimg d slot) rg (Z.of_nat k)). destruct (rec_at g (pimg d slot) rg (Z.of_nat k)) as [r|] eqn:E.
    + apply reads_ok_ret. cbv zeta. f_equal. destruct tb; [done|]. cbn [orb].
      replace (n - 1) with (Z.of_nat k) by (specialize (Hf eq_refl); lia). by rewrite E, andb_false_r.
    + rewrite <- (ro_pimg _ _ slot Hr) in E |- *.
      assert (tb || (Z.of_nat k =? n - 1) = true) as Htb.
      { destruct tb; [done|]. apply Z.eqb_eq. specialize (Hf eq_refl). lia. }
      rewrite Htb. eapply reads_ok_mono; [apply IH; [lia|done|lia]|]. cbv zeta. intros log ->. f_equal. symmetry. cbn [orb].
      destruct tb; [done|]. cbn [orb]. replace (n - 1) with (Z.of_nat k) by (specialize (Hf eq_refl); lia).
      rewrite E, andb_true_r. apply Z.ltb_lt. lia.
Qed.

Lemma master_log_load_spec d slot rg n :
  is_master slot -> log_prefix g (pimg d slot) n ->
  reads_ok d (master_log_load g slot rg) (fun log => log = loaded (pimg d slot) rg n).
Proof.
  intros Hs Hp. pose proof (lp_range _ _ _ Hp) as Hn. unfold master_log_load.
  eapply reads_ok_bnd; [eapply log_search_spec; try done; lia|]. intros e d' Hr ->. rewrite <- (ro_pimg _ _ slot Hr).
  eapply reads_ok_mono; [apply log_newest_spec; try done; lia|]. cbv zeta. intros log ->. unfold loaded.
  rewrite orb_false_l, Z2Nat.id by lia. done.
Qed.
End db.
