(* ===== verification/MasterInv.v ===== *)
(** The invariant of the two master sectors while a store is mounted, that every
    commit keeps it, whatever the device does, and what it means for ids: none
    is handed out that the ceiling on flash does not already cover. *)

From S2P Require Import Prelude Layout Store SlotIndexIface Image Core CoreRead Bucket Master MasterSpec.

Section bytes.
Context (cfg : config) (g : geom) `{Crc} (Hg : geom_ok cfg g) {CL : CrcLaws _}.

(** A sector a mount can take its state from: generation [rg], [n] written
    records, the newest that verifies carrying the ceiling [C]. *)
Record sector_ok (sb : bytes) (rg n C : Z) : Prop := {
  so_hdr : exists h, hdr_class sb = MASTER_OK h /\ h_rot_gen h = rg /\ master_accept cfg g h = Ok tt;
  so_log : log_prefix g sb n;
  so_rec : exists i r, newest_rec g sb rg (Z.to_nat n) = Some (i, r) /\ r_next_id_hint r = C;
}.

Lemma log_cap_small : 1 <= log_cap g < 65535.
Proof.
  destruct (ok_log_cap _ _ Hg) as [H1 H2]. destruct (rec_size_spec cfg g Hg) as [Hr _]. pose proof (ok_peb_size _ _ Hg).
  unfold_consts. nia.
Qed.

(** ** One more record *)

Definition put_rec (sb : bytes) (i : Z) (b : bytes) : bytes := splice (BLOB_DB_MASTER_LOG_OFF + i * rec_size g) b sb.

Lemma put_rec_slot sb n b i :
  len sb = peb_size g -> 0 <= n < log_cap g -> len b = rec_size g -> 0 <= i < log_cap g ->
  rec_slot g (put_rec sb n b) i = if decide (i = n) then b else rec_slot g sb i.
Proof.
  intros Hl Hn Hb Hi. destruct (rec_slot_bounds cfg g Hg n Hn), (rec_slot_bounds cfg g Hg i Hi).
  destruct (rec_size_spec cfg g Hg) as [Hr _]. unfold rec_slot, put_rec. case_decide as E.
  - subst. rewrite <- Hb at 2. apply slice_splice_same; lia.
  - apply slice_splice_ne; [lia..|]. rewrite Hb. nia.
Qed.

Lemma put_rec_hdr sb n b :
  len sb = peb_size g -> 0 <= n < log_cap g -> len b = rec_size g -> hdr_class (put_rec sb n b) = hdr_class sb.
Proof.
  intros Hl Hn Hb. destruct (rec_slot_bounds cfg g Hg n Hn). unfold hdr_class, put_rec. f_equal.
  destruct (rec_size_spec cfg g Hg) as [Hr _]. unfold_consts. apply slice_splice_ne; [lia..|]. left. nia.
Qed.

Lemma put_rec_newest sb n b rg (k : nat) :
  len sb = peb_size g -> 0 <= n < log_cap g -> len b = rec_size g -> Z.of_nat k <= n ->
  newest_rec g (put_rec sb n b) rg k = newest_rec g sb rg k.
Proof.
  intros Hl Hn Hb. induction k as [|k IH]; intros Hk; cbn [newest_rec]; [done|].
  unfold rec_at. rewrite put_rec_slot by (done || lia). rewrite decide_False by lia. rewrite IH by lia. done.
Qed.

(** What the sector holds once slot [n] of a log of [n] records reads [b]. *)
Lemma put_rec_sector sb rg n C b :
  len sb = peb_size g -> sector_ok sb rg n C -> n < log_cap g -> len b = rec_size g ->
  let C' := match master_rec_ok rg b n with Some r => r_next_id_hint r | None => C end in
  if all_erased b then sector_ok (put_rec sb n b) rg n C else sector_ok (put_rec sb n b) rg (n + 1) C'.
Proof.
  intros Hl [Hh Hp (i & r & Hn & Hc)] Hlt Hb. pose proof (lp_range _ _ _ Hp) as Hrg. cbv zeta.
  assert (forall j, 0 <= j < log_cap g -> j <> n -> all_erased (rec_slot g (put_rec sb n b) j) = all_erased (rec_slot g sb j)) as Hsame.
  { intros j Hj Hne. rewrite put_rec_slot, decide_False by (done || lia). done. }
  assert (rec_slot g (put_rec sb n b) n = b) as Hat by (rewrite put_rec_slot, decide_True by (done || lia); done).
  destruct (all_erased b) eqn:E.
  - split; [by rewrite put_rec_hdr by (done || lia)| |].
    + split; [done|..]; intros j Hj; (destruct (decide (j = n)) as [->|]; [|rewrite Hsame by (done || lia)]).
      * lia.
      * by apply (lp_written _ _ _ Hp).
      * by rewrite Hat.
      * by apply (lp_blank _ _ _ Hp).
    + exists i, r. rewrite put_rec_newest by (done || lia). done.
  - split; [by rewrite put_rec_hdr by (done || lia)| |].
    + split; [lia|..]; intros j Hj; (destruct (decide (j = n)) as [->|]; [|rewrite Hsame by (done || lia)]).
      * by rewrite Hat.
      * apply (lp_written _ _ _ Hp). lia.
      * lia.
      * apply (lp_blank _ _ _ Hp). lia.
    + replace (Z.to_nat (n + 1)) with (Datatypes.S (Z.to_nat n)) by lia. cbn [newest_rec].
      rewrite Z2Nat.id by lia. unfold rec_at. rewrite Hat.
      destruct (master_rec_ok rg b n) as [r'|]; [by eexists _, _|].
      exists i, r. rewrite put_rec_newest by (done || lia). done.
Qed.

(** A torn record that verifies all the same promises at least as much: a
    program only clears bits, so what it leaves is no smaller. *)
Lemma torn_rec_hint r no rg b r' :
  rec_fits r -> prog_torn (erased (rec_size g)) (master_rec_stage g r no rg) b -> master_rec_ok rg b no = Some r' ->
  r_next_id_hint r <= r_next_id_hint r'.
Proof.
  intros (Hh&_) (Hl & Hb & Ht & _) Hok. rewrite (len_rec_stage cfg g Hg) in Hl. destruct (rec_size_spec cfg g Hg) as [Hr _].
  unfold master_rec_ok in Hok. destruct (_ && _); [|done]. injection Hok as <-. unfold dec_master_rec. cbn [r_next_id_hint].
  assert (slice 8 8 (master_rec_stage g r no rg) = le 8 (r_next_id_hint r)) as Hs.
  { unfold master_rec_stage, enc_master_rec. cbn [rec_no r_reserved0 r_next_id_hint]. rewrite <- !app_assoc.
    rewrite slice_app_r by (rewrite len_le; lia). rewrite len_le. rewrite slice_app_r by (rewrite len_le; lia). rewrite len_le.
    apply slice_here. by rewrite len_le. }
  rewrite <- (le_dec_le 8 (r_next_id_hint r)), <- Hs by (change (256 ^ Z.of_nat 8) with (2 ^ 64); lia).
  unfold rd. apply le_dec_superset; [by apply bytes_ok_slice|]. apply Forall2_same_length_lookup_2.
  - pose proof (len_slice 8 8 b ltac:(lia) ltac:(lia) ltac:(lia)).
    pose proof (len_slice 8 8 (master_rec_stage g r no rg) ltac:(lia) ltac:(lia)). rewrite (len_rec_stage cfg g Hg) in *. unfold len in *. lia.
  - intros j x y. rewrite !lookup_slice by lia. case_decide; [|done]. intros Hx Hy. eapply Ht; [|exact Hy|exact Hx].
    apply lookup_erased. lia.
Qed.

Lemma sector_block_ok st rg r :
  0 <= rg < 2 ^ 32 -> feats_ok st -> rec_fits r -> incompat st = BLOB_DB_BUILD_INCOMPAT cfg -> ro_compat st = 0 ->
  sector_ok (sector_block cfg g st rg r) rg 1 (r_next_id_hint r).
Proof.
  intros Hrg Hf Hr Hi Hro. destruct (sector_block_spec cfg g Hg st rg r Hrg Hf Hr) as (Hh & Hp & Hn).
  split; [|done|].
  - eexists. split; [exact Hh|]. split; [done|]. by apply accept_hdr_of.
  - change (Z.to_nat 1) with 1%nat. cbn [newest_rec]. change (Z.of_nat 0) with 0. rewrite Hn. by eexists _, _.
Qed.
End bytes.

Section db.
Context (cfg : config) (g : geom) `{Crc}.
Context {S I : Type} `{!Store S} `{!StoreView S} `{!SlotIndex I}.
Context (Hg : geom_ok cfg g) (Ha : geom_aligned g) {SL : StoreLaws S (store_geom_of g)} {CL : CrcLaws _}.
Notation db := (db S I).
Notation sector_ok := (sector_ok cfg g).
Implicit Types d : db.

Definition other_of (a : Z) : Z := if a =? 0 then 1 else 0.

Lemma other_is_master a : is_master (other_of a).
Proof. unfold is_master, other_of. destruct (a =? 0); auto. Qed.

Lemma other_ne a : is_master a -> other_of a <> a.
Proof. unfold is_master, other_of. destruct (Z.eqb_spec a 0); lia. Qed.

Lemma other_other a : is_master a -> other_of (other_of a) = a.
Proof. intros [-> | ->]; done. Qed.

(** The log is full or was torn: the next commit rotates. *)
Definition must_rotate (st : st_t) : bool := log_failed st || (log_next st >=? log_cap g).

(** The sector that is not active: of an older generation, or a rotation that
    landed and was reported as failed, which the next commit repeats. *)
Definition other_ok (st : st_t) (sb : bytes) : Prop :=
  match hdr_class sb with
  | MASTER_ERASED | MASTER_CORRUPT => True
  | MASTER_FOREIGN => False
  | MASTER_OK h => master_accept cfg g h = Ok tt /\
      (h_rot_gen h < rot_gen st \/
       must_rotate st = true /\ exists n C, sector_ok sb (rot_gen st + 1) n C /\ next_id_hint st <= C)
  end.

Record master_inv d : Prop := {
  mi_active : is_master (active_master (d_st d));
  mi_gen : 0 <= rot_gen (d_st d) < 2 ^ 32;
  mi_feats : feats_ok (d_st d) /\ incompat (d_st d) = BLOB_DB_BUILD_INCOMPAT cfg /\ ro_compat (d_st d) = 0;
  mi_words : 0 <= seg_owner (d_st d) < 2 ^ 64 /\ 0 <= fuses (d_st d) < 2 ^ 32 /\ 0 <= next_id_hint (d_st d) < 2 ^ 64;
  mi_next : 0 <= log_next (d_st d) <= log_cap g;
  mi_reset : ceiling_reset (d_st d) = false;
  mi_here : exists n C, sector_ok (pimg d (active_master (d_st d))) (rot_gen (d_st d)) n C /\
    next_id_hint (d_st d) <= C /\ (log_failed (d_st d) = false -> n = log_next (d_st d));
  mi_other : other_ok (d_st d) (pimg d (other_of (active_master (d_st d))));
}.

(** Nothing but the two master sectors and the master fields of [st] changed. *)
Record only_masters d d' : Prop := {
  om_geo : d_geo d' = d_geo d;
  om_ix : d_ix d' = d_ix d;
  om_img : forall p, ~ is_master p -> pimg d' p = pimg d p;
  om_mounted : mounted (d_st d') = mounted (d_st d);
  om_wedged : wedged (d_st d') = wedged (d_st d);
}.

#[export] Instance only_masters_preorder : PreOrder only_masters.
Proof.
  split; [by intros d|]. intros d1 d2 d3 [E1 E2 E3 E4 E5] [F1 F2 F3 F4 F5].
  split; [congruence|congruence| |congruence|congruence]. intros p Hp. by rewrite F3, E3.
Qed.

(** A torn rotation whose bytes read as a master sector all the same. *)
Definition stray_master d d' : Prop :=
  let st := d_st d in let sb := pimg d' (other_of (active_master st)) in
  match hdr_class sb with
  | MASTER_ERASED | MASTER_CORRUPT => False
  | _ => sb <> sector_block cfg g st (rot_gen st + 1) (master_rec_fill st)
  end.

Lemma rec_fill_fits st :
  0 <= seg_owner st < 2 ^ 64 -> 0 <= fuses st < 2 ^ 32 -> 0 <= next_id_hint st < 2 ^ 64 -> rec_fits (master_rec_fill st).
Proof.
  intros H1 H2 H3. unfold rec_fits, master_rec_fill. cbn. unfold u64.
  pose proof (Z.mod_pos_bound (next_id st + 1 + BLOB_DB_ID_HINT_STEP) (2 ^ 64) ltac:(lia)).
  destruct (ceiling_reset st); split_and!; lia.
Qed.

Lemma rec_fill_hint st :
  ceiling_reset st = false -> next_id_hint st <= r_next_id_hint (master_rec_fill st).
Proof. intros Hr. unfold master_rec_fill. rewrite Hr. cbn. lia. Qed.

Lemma rec_fill_covers st :
  ceiling_reset st = false -> 0 <= next_id st < 2 ^ 64 - 257 -> next_id st < r_next_id_hint (master_rec_fill st).
Proof.
  intros Hr Hn. unfold master_rec_fill, BLOB_DB_ID_HINT_STEP. rewrite Hr. cbn. rewrite u64_small by lia. lia.
Qed.

(** ** Writing a sector *)

Lemma sector_write_spec d slot rg r :
  is_master slot -> rec_fits r ->
  wp (master_write_sector cfg g slot rg r) d (fun rc d' => works d rc d' /\ exists b, only_peb d d' slot b /\
    match rc with
    | Ok _ => b = sector_block cfg g (d_st d) rg r
    | Err e => device_err e
    end).
Proof.
  intros Hs Hr. unfold master_write_sector. apply wp_bnd, wp_gets. cbv beta iota.
  pose proof (len_master_sector cfg g Hg (d_st d) rg r) as Hl. destruct (rec_size_spec cfg g Hg) as [Hrs Hm].
  pose proof (ok_log_cap _ _ Hg) as [Hc1 Hc2]. pose proof (ok_align _ _ Hg) as Hal. pose proof (pow2_le32_pos _ Hal).
  eapply wp_mono; [eapply (peb_replace_spec g)|].
  - by apply (master_peb cfg g Hg).
  - unfold id. rewrite Hl. unfold_consts. nia.
  - unfold id. rewrite Hl. apply mod_add_0; [lia| |done].
    destruct Hal as [->|[->|[->|[->|[->| ->]]]]]; done.
  - unfold id, master_sector, enc_master_hdr, enc_compat_hdr, master_hdr_of.
    cbn [h_prefix h_reserved0 h_store_uuid ch_magic]. rewrite !bytes_ok_app.
    split_and!; auto using bytes_ok_le, bytes_ok_erased, bytes_ok_rec_stage;
      repeat constructor; unfold byte_ok; lia.
  - cbv beta. intros rc d' (Hw & b & Ho & Hb). split; [done|]. exists b. split; [done|]. destruct rc; [done|tauto].
Qed.

(** What the next mount reads: an authoritative sector whose ceiling is at
    least [C]. *)
Definition covers d (C : Z) : Prop :=
  exists a rg n C', is_master a /\ sector_ok (pimg d a) rg n C' /\ C <= C' /\
    match hdr_class (pimg d (other_of a)) with
    | MASTER_ERASED | MASTER_CORRUPT => True
    | MASTER_FOREIGN => False
    | MASTER_OK h => master_accept cfg g h = Ok tt /\ h_rot_gen h < rg
    end.

Lemma sector_ok_class sb rg n C : sector_ok sb rg n C -> exists h, hdr_class sb = MASTER_OK h /\ h_rot_gen h = rg /\ master_accept cfg g h = Ok tt.
Proof. intros Hs. apply (so_hdr _ _ _ _ _ _ Hs). Qed.

Lemma inv_covers d : master_inv d -> covers d (next_id_hint (d_st d)).
Proof.
  intros Hi. destruct (mi_here _ Hi) as (n & C & Hs & HC & _). pose proof (mi_other _ Hi) as Ho. unfold other_ok in Ho.
  pose proof (mi_active _ Hi) as Hact. set (a := active_master (d_st d)) in *.
  destruct (hdr_class (pimg d (other_of a))) as [| | |h] eqn:E; [| |done|].
  - exists a, (rot_gen (d_st d)), n, C. by rewrite E.
  - exists a, (rot_gen (d_st d)), n, C. by rewrite E.
  - destruct Ho as [Hacc [Hlt|(_ & n' & C' & Hs' & HC')]].
    + exists a, (rot_gen (d_st d)), n, C. by rewrite E.
    + exists (other_of a), (rot_gen (d_st d) + 1), n', C'. split; [apply other_is_master|]. split_and!; try done.
      rewrite other_other by done. destruct (sector_ok_class _ _ _ _ Hs) as (h0 & -> & <- & ->). split; [done|lia].
Qed.

(** ** Rotating *)

Lemma rotate_spec d r :
  is_master (active_master (d_st d)) -> rec_fits r ->
  let a := active_master (d_st d) in let st := d_st d in
  wp (master_rotate cfg g r) d (fun rc d' =>
    only_masters d d' /\ pimg d' a = pimg d a /\ (rot_gen st <> UINT32_MAX -> works d rc d') /\
    match rc with
    | Ok _ => rot_gen st <> UINT32_MAX /\ pimg d' (other_of a) = sector_block cfg g st (rot_gen st + 1) r /\
        d_st d' = set_log_failed false (set_log_next 1 (set_rot_gen (rot_gen st + 1) (set_active_master (other_of a) st)))
    | Err e => d_st d' = st /\
        (rot_gen st = UINT32_MAX /\ e = ENOSPC /\ pimg d' (other_of a) = pimg d (other_of a) \/
         rot_gen st <> UINT32_MAX /\ device_err e)
    end).
Proof.
  intros Hact Hr a st. unfold master_rotate. apply wp_bnd, wp_gets. cbv beta iota. unfold id. fold (other_of a). fold st.
  destruct (Z.eqb_spec (rot_gen st) UINT32_MAX) as [E|Hne].
  { apply wp_fail. split_and!; [reflexivity|done|done|done|]. left. done. }
  apply wp_bnd. eapply wp_mono; [apply (sector_write_spec _ _ _ _ (other_is_master a) Hr)|]. cbv beta.
  intros rc d' (Hw & b & Ho & Hb).
  assert (only_masters d d' /\ pimg d' a = pimg d a) as [Hom Hpa].
  { split; [|apply (op_other _ _ _ _ Ho), not_eq_sym, other_ne, Hact].
    split; [apply Ho|apply Ho| |by rewrite (op_st _ _ _ _ Ho)..]. intros p Hp. apply (op_other _ _ _ _ Ho).
    intros ->. apply Hp, other_is_master. }
  destruct rc as [[]|e].
  - apply wp_mod. rewrite (op_st _ _ _ _ Ho). split_and!.
    + destruct Hom as [E1 E2 E3 E4 E5]. split; try done.
    + done.
    + intros _ Hh. destruct (Hw Hh). done.
    + done.
    + change (pimg d' (other_of a) = sector_block cfg g st (rot_gen st + 1) r). rewrite (op_img _ _ _ _ Ho). done.
    + done.
  - split_and!; [done|done|intros _ Hh; by destruct (Hw Hh)|by apply (op_st _ _ _ _ Ho)|by right].
Qed.

(** ** Appending a record *)

Lemma append_rec_spec d n C :
  is_master (active_master (d_st d)) -> rec_fits (master_rec_fill (d_st d)) ->
  let st := d_st d in let a := active_master st in let r := master_rec_fill st in
  sector_ok (pimg d a) (rot_gen st) n C -> n < log_cap g ->
  wp (io (blob_db_store_write (peb_offset g a + BLOB_DB_MASTER_LOG_OFF + n * rec_size g) (master_rec_stage g r n (rot_gen st)))) d
    (fun rc d' => works d rc d' /\ only_peb d d' a (pimg d' a) /\
      match rc with
      | Ok _ => sector_ok (pimg d' a) (rot_gen st) (n + 1) (r_next_id_hint r) /\
          hdr_class (pimg d' a) = hdr_class (pimg d a) /\ rec_at g (pimg d' a) (rot_gen st) n = Some (rec_staged r n (rot_gen st))
      | Err e => device_err e /\ exists n' C', (n' = n \/ n' = n + 1) /\ sector_ok (pimg d' a) (rot_gen st) n' C' /\
          (C' = C \/ r_next_id_hint r <= C')
      end).
Proof.
  intros Hact Hr st a r Hs Hlt. pose proof (lp_range _ _ _ (so_log _ _ _ _ _ _ Hs)) as Hn.
  destruct (rec_slot_bounds cfg g Hg n ltac:(lia)) as [Hb1 Hb2]. destruct (rec_size_spec cfg g Hg) as [Hrs Hm].
  pose proof (ok_align _ _ Hg) as Hal. pose proof (pow2_le32_pos _ Hal) as Hpos. pose proof (len_rec_stage cfg g Hg r n (rot_gen st)) as Hlen.
  rewrite <- Z.add_assoc. pose proof (master_peb cfg g Hg a Hact) as Hp.
  assert (len (pimg d a) = peb_size g) as Hsl by (apply (img_len (StoreLaws := SL)); done).
  eapply wp_mono; [eapply (peb_write_erased g _ _ _ _ Hp Hb1)|].
  - lia.
  - rewrite Hlen. done.
  - apply mod_add_0; [lia| |].
    + unfold_consts. destruct Hal as [->|[->|[->|[->|[->| ->]]]]]; done.
    + rewrite Z.mul_mod, Hm, Z.mul_0_r by lia. apply Z.mod_0_l. lia.
  - by rewrite Hlen.
  - apply (bytes_ok_rec_stage g).
  - rewrite Hlen. pose proof (lp_blank _ _ _ (so_log _ _ _ _ _ _ Hs) n ltac:(lia)) as He. apply all_erased_spec in He.
    unfold rec_slot in He. rewrite len_slice in He by lia. done.
  - cbv beta. intros rc d' (Hw & b & Ho & Hb). split; [done|]. rewrite (op_img _ _ _ _ Ho). split; [done|].
    fold (put_rec g (pimg d a) n b).
    destruct rc as [[]|e].
    + subst b. pose proof (put_rec_sector cfg g Hg (pimg d a) (rot_gen st) n C _ Hsl Hs Hlt Hlen) as Hps. cbv zeta in Hps.
      rewrite (rec_stage_written cfg g Hg) in Hps by (pose proof (log_cap_small cfg g Hg); lia).
      rewrite rec_stage_ok in Hps by (done || pose proof (log_cap_small cfg g Hg); lia). split; [done|].
      split; [apply (put_rec_hdr cfg g Hg); done || lia|]. unfold rec_at. rewrite (put_rec_slot cfg g Hg), decide_True by (done || lia).
      pose proof (log_cap_small cfg g Hg). apply rec_stage_ok; done || lia.
    + destruct Hb as [He Ht]. split; [done|]. rewrite Hlen in Ht.
      assert (len b = rec_size g) as Hlb by (destruct Ht as [-> _]; done).
      pose proof (put_rec_sector cfg g Hg (pimg d a) (rot_gen st) n C b Hsl Hs Hlt Hlb) as Hps. cbv zeta in Hps.
      destruct (all_erased b); [exists n, C; tauto|]. eexists _, _. split; [by right|]. split; [exact Hps|].
      destruct (master_rec_ok (rot_gen st) b n) as [r'|] eqn:E; [|by left]. right. by eapply torn_rec_hint.
Qed.

(** ** Committing *)

(** [st] after the append path and after the rotate path of a commit. *)
Definition st_appended (ok : bool) (st : st_t) : st_t :=
  let st' := set_log_next (u16 (log_next st + 1)) st in
  let st' := set_ceiling_reset false (if ok then st' else set_log_failed true st') in
  if ok then set_next_id_hint (r_next_id_hint (master_rec_fill st)) st' else st'.

Definition st_rotated (st : st_t) : st_t :=
  set_next_id_hint (r_next_id_hint (master_rec_fill st)) (set_ceiling_reset false (set_log_failed false (set_log_next 1
    (set_rot_gen (rot_gen st + 1) (set_active_master (other_of (active_master st)) st))))).

(** The invariant without what a commit of a lowered ceiling suspends. *)
Record master_pre d : Prop := {
  mp_active : is_master (active_master (d_st d));
  mp_gen : 0 <= rot_gen (d_st d) < 2 ^ 32;
  mp_feats : feats_ok (d_st d) /\ incompat (d_st d) = BLOB_DB_BUILD_INCOMPAT cfg /\ ro_compat (d_st d) = 0;
  mp_words : 0 <= seg_owner (d_st d) < 2 ^ 64 /\ 0 <= fuses (d_st d) < 2 ^ 32 /\ 0 <= next_id_hint (d_st d) < 2 ^ 64;
  mp_next : 0 <= log_next (d_st d) <= log_cap g;
  mp_here : exists n C, sector_ok (pimg d (active_master (d_st d))) (rot_gen (d_st d)) n C /\
    (ceiling_reset (d_st d) = false -> next_id_hint (d_st d) <= C) /\ (log_failed (d_st d) = false -> n = log_next (d_st d));
  mp_other : match hdr_class (pimg d (other_of (active_master (d_st d)))) with
    | MASTER_ERASED | MASTER_CORRUPT => True
    | MASTER_FOREIGN => False
    | MASTER_OK h => master_accept cfg g h = Ok tt /\ (h_rot_gen h < rot_gen (d_st d) \/ must_rotate (d_st d) = true)
    end;
}.

Lemma inv_pre d : master_inv d -> master_pre d.
Proof.
  intros Hi. destruct (mi_here _ Hi) as (n & C & Hs & HC & Hn). split; try apply Hi; [eauto|].
  pose proof (mi_other _ Hi) as Ho. unfold other_ok in Ho. destruct (hdr_class _); try done. destruct Ho as [? [?|[? _]]]; auto.
Qed.

Lemma pre_fits d : master_pre d -> rec_fits (master_rec_fill (d_st d)).
Proof. intros Hi. apply rec_fill_fits; apply (mp_words _ Hi). Qed.

Lemma hint_range d : master_pre d -> 0 <= r_next_id_hint (master_rec_fill (d_st d)) < 2 ^ 64.
Proof. intros Hi. apply (pre_fits _ Hi). Qed.

Lemma appended_inv_ok d d' :
  master_pre d -> must_rotate (d_st d) = false -> only_peb d d' (active_master (d_st d)) (pimg d' (active_master (d_st d))) ->
  sector_ok (pimg d' (active_master (d_st d))) (rot_gen (d_st d)) (log_next (d_st d) + 1) (r_next_id_hint (master_rec_fill (d_st d))) ->
  master_inv (mk_db (st_appended true (d_st d)) (d_geo d') (d_ix d') (d_store d')).
Proof.
  intros Hp Hmr Ho Hs. pose proof (hint_range _ Hp) as Hh. pose proof (log_cap_small cfg g Hg).
  pose proof (lp_range _ _ _ (so_log _ _ _ _ _ _ Hs)) as Hn. pose proof (mp_other _ Hp) as Hot.
  assert (u16 (log_next (d_st d) + 1) = log_next (d_st d) + 1) as Eu by (apply u16_small; lia).
  unfold st_appended. split; cbn; rewrite ?Eu; try apply Hp; try done.
  - destruct (mp_words _ Hp) as (?&?&_). done.
  - eexists _, _. split; [exact Hs|]. split; [reflexivity|done].
  - unfold other_ok. cbn. unfold pimg at 1. cbn. fold (pimg d' (other_of (active_master (d_st d)))).
    rewrite (op_other _ _ _ _ Ho) by (apply other_ne, Hp). destruct (hdr_class _); try done.
    rewrite Hmr in Hot. destruct Hot as [? [?|?]]; [auto|done].
Qed.

Lemma appended_inv_err d d' n' C C' :
  master_inv d -> must_rotate (d_st d) = false -> only_peb d d' (active_master (d_st d)) (pimg d' (active_master (d_st d))) ->
  sector_ok (pimg d' (active_master (d_st d))) (rot_gen (d_st d)) n' C' ->
  next_id_hint (d_st d) <= C -> C' = C \/ r_next_id_hint (master_rec_fill (d_st d)) <= C' ->
  log_next (d_st d) < log_cap g ->
  master_inv (mk_db (st_appended false (d_st d)) (d_geo d') (d_ix d') (d_store d')).
Proof.
  intros Hi Hmr Ho Hs HC HC' Hlt. pose proof (log_cap_small cfg g Hg). pose proof (mi_next _ Hi).
  pose proof (rec_fill_hint _ (mi_reset _ Hi)) as Hf. pose proof (mi_other _ Hi) as Hot. unfold other_ok in Hot.
  assert (u16 (log_next (d_st d) + 1) = log_next (d_st d) + 1) as Eu by (apply u16_small; lia).
  unfold st_appended. split; cbn; rewrite ?Eu; try apply Hi; try done; try lia.
  - exists n', C'. split; [exact Hs|]. split; [lia|done].
  - unfold other_ok. cbn. unfold pimg at 1. cbn. fold (pimg d' (other_of (active_master (d_st d)))).
    rewrite (op_other _ _ _ _ Ho) by (apply other_ne, Hi). destruct (hdr_class _); try done.
    rewrite Hmr in Hot. destruct Hot as [? [?|[? _]]]; [auto|done].
Qed.

Lemma rotated_inv_ok d d' :
  master_pre d -> rot_gen (d_st d) <> UINT32_MAX ->
  pimg d' (active_master (d_st d)) = pimg d (active_master (d_st d)) ->
  pimg d' (other_of (active_master (d_st d))) = sector_block cfg g (d_st d) (rot_gen (d_st d) + 1) (master_rec_fill (d_st d)) ->
  master_inv (mk_db (st_rotated (d_st d)) (d_geo d') (d_ix d') (d_store d')).
Proof.
  intros Hp Hne Ha1 Ho. pose proof (hint_range _ Hp) as Hh. pose proof (log_cap_small cfg g Hg).
  destruct (mp_feats _ Hp) as (Hf1 & Hf2 & Hf3). pose proof (mp_gen _ Hp) as Hgen. unfold UINT32_MAX in Hne.
  unfold st_rotated. split; cbn; try apply Hp; try done; try lia; [apply other_is_master|..].
  - destruct (mp_words _ Hp) as (?&?&_). done.
  - eexists 1, _. unfold pimg. cbn. fold (pimg d' (other_of (active_master (d_st d)))). rewrite Ho. split_and!.
    + apply sector_block_ok; auto using pre_fits. lia.
    + reflexivity.
    + done.
  - unfold other_ok, pimg. cbn. rewrite other_other by apply Hp. fold (pimg d' (active_master (d_st d))). rewrite Ha1.
    destruct (mp_here _ Hp) as (n & C & Hs & _). destruct (sector_ok_class _ _ _ _ Hs) as (h & -> & <- & Hacc).
    split; [done|]. left. lia.
Qed.

(** A rotation that failed: the active sector is as it was. *)
Lemma rotated_inv_err d d' :
  master_inv d -> pimg d' (active_master (d_st d)) = pimg d (active_master (d_st d)) -> rot_gen (d_st d) < 2 ^ 32 - 1 ->
  d_st d' = set_ceiling_reset false (d_st d) ->
  stray_master d d' \/ (covers d' (next_id_hint (d_st d)) /\ (must_rotate (d_st d) = true -> master_inv d')).
Proof.
  intros Hi Ha1 Hgen Hst. pose proof (mi_gen _ Hi). destruct (mi_here _ Hi) as (n & C & Hs & HC & Hn).
  assert (set_ceiling_reset false (d_st d) = d_st d) as E.
  { pose proof (mi_reset _ Hi) as Er. destruct (d_st d). cbn in *. by subst. }
  rewrite E in Hst. clear E. destruct (mi_feats _ Hi) as (Hf1 & Hf2 & Hf3). pose proof (pre_fits _ (inv_pre _ Hi)) as Hfit.
  assert (other_ok (d_st d) (pimg d' (other_of (active_master (d_st d)))) -> master_inv d') as Hmk.
  { intros Ho. split; rewrite ?Hst; try apply Hi; [|done]. exists n, C. by rewrite Ha1. }
  set (sb := pimg d' (other_of (active_master (d_st d)))) in *.
  set (new := sector_block cfg g (d_st d) (rot_gen (d_st d) + 1) (master_rec_fill (d_st d))) in *.
  assert (sector_ok new (rot_gen (d_st d) + 1) 1 (r_next_id_hint (master_rec_fill (d_st d)))) as Hnew
    by (apply sector_block_ok; auto; lia).
  pose proof (rec_fill_hint _ (mi_reset _ Hi)) as Hhint.
  destruct (decide (sb = new)) as [Hsb|Hne].
  - right. destruct (sector_ok_class _ _ _ _ Hnew) as (h & Hc & Hg' & Hacc). split.
    + exists (other_of (active_master (d_st d))), (rot_gen (d_st d) + 1), 1, (r_next_id_hint (master_rec_fill (d_st d))).
      fold sb. rewrite Hsb. split; [apply other_is_master|]. split_and!; [done|done|].
      rewrite other_other, Ha1 by apply Hi. destruct (sector_ok_class _ _ _ _ Hs) as (h' & -> & <- & Hacc'). split; [done|lia].
    + intros Hmr. apply Hmk. unfold other_ok. rewrite Hsb, Hc. split; [done|]. right. split; [done|]. eauto.
  - unfold stray_master. fold sb new. destruct (hdr_class sb) eqn:Hc; try (by left); right.
    + assert (master_inv d') as Hi' by (apply Hmk; unfold other_ok; by rewrite Hc). rewrite <- Hst. split; [by apply inv_covers|done].
    + assert (master_inv d') as Hi' by (apply Hmk; unfold other_ok; by rewrite Hc). rewrite <- Hst. split; [by apply inv_covers|done].
Qed.

Lemma inv_only_st d d' :
  (forall p, is_master p -> pimg d' p = pimg d p) -> d_st d' = d_st d -> master_inv d -> master_inv d'.
Proof.
  intros Hf Hs Hi. split; rewrite ?Hs; try apply Hi; rewrite Hf by (apply Hi || apply other_is_master); apply Hi.
Qed.

Lemma is_master_split a p : is_master a -> is_master p -> p = a \/ p = other_of a.
Proof. intros [-> | ->] [-> | ->]; auto. Qed.

Lemma reset_noop d : master_inv d -> set_ceiling_reset false (d_st d) = d_st d.
Proof. intros Hi. pose proof (mi_reset _ Hi) as Er. destruct (d_st d). cbn in *. by subst. Qed.

(** ** What lets the next mount go ahead without doubt

    Both headers carry this build's cap and [st]'s features, and the last record
    written verifies. *)
Definition hdr_like (st : st_t) (sb : bytes) : Prop := exists h, hdr_class sb = MASTER_OK h /\ master_accept cfg g h = Ok tt /\
  h_incompat h = incompat st /\ h_ro_compat h = ro_compat st /\ h_compat h = compat st /\ h_max_payload_len h = MAX_PAYLOAD_LEN cfg.

Definition older (st : st_t) (sb : bytes) : Prop := exists h, hdr_class sb = MASTER_OK h /\ h_rot_gen h < rot_gen st.

Definition hdrs_clean d : Prop := (forall i, is_master i -> hdr_like (d_st d) (pimg d i)) /\
  older (d_st d) (pimg d (other_of (active_master (d_st d)))).

Definition last_ok d : Prop := log_failed (d_st d) = false /\ 1 <= log_next (d_st d) /\
  log_prefix g (pimg d (active_master (d_st d))) (log_next (d_st d)) /\
  exists r, rec_at g (pimg d (active_master (d_st d))) (rot_gen (d_st d)) (log_next (d_st d) - 1) = Some r /\
    r_next_id_hint r = next_id_hint (d_st d).

(** What a commit leaves, from a state in which the ceiling is not being lowered
    and from one in which it is. *)
Definition commit_post (force : bool) d (rc : res unit) d' : Prop :=
  only_masters d d' /\ next_id (d_st d') = next_id (d_st d) /\ (rot_gen (d_st d) <> UINT32_MAX -> works d rc d') /\
  match rc with
  | Ok _ => master_inv d' /\ next_id_hint (d_st d') = r_next_id_hint (master_rec_fill (d_st d)) /\
      rot_gen (d_st d) <= rot_gen (d_st d') <= rot_gen (d_st d) + 1 /\ last_ok d' /\ (hdrs_clean d -> hdrs_clean d')
  | Err e => next_id_hint (d_st d') = next_id_hint (d_st d) /\
      (master_inv d -> stray_master d d' \/
        (covers d' (next_id_hint (d_st d)) /\ (force = false \/ must_rotate (d_st d) = true -> master_inv d')))
  end.

Lemma appended_last d d' :
  master_pre d -> only_peb d d' (active_master (d_st d)) (pimg d' (active_master (d_st d))) ->
  let a := active_master (d_st d) in let r := master_rec_fill (d_st d) in let n := log_next (d_st d) in
  sector_ok (pimg d' a) (rot_gen (d_st d)) (n + 1) (r_next_id_hint r) -> hdr_class (pimg d' a) = hdr_class (pimg d a) ->
  rec_at g (pimg d' a) (rot_gen (d_st d)) n = Some (rec_staged r n (rot_gen (d_st d))) -> log_failed (d_st d) = false ->
  let d1 := mk_db (st_appended true (d_st d)) (d_geo d') (d_ix d') (d_store d') in last_ok d1 /\ (hdrs_clean d -> hdrs_clean d1).
Proof.
  intros Hp Ho a r n Hs Hh Hr Hlf d1. pose proof (lp_range _ _ _ (so_log _ _ _ _ _ _ Hs)) as Hn. pose proof (log_cap_small cfg g Hg).
  pose proof (mp_next _ Hp) as Hnx. fold n in Hnx. assert (u16 (n + 1) = n + 1) as Eu by (apply u16_small; lia). split.
  - unfold last_ok, d1, st_appended. cbn. fold n a. rewrite Eu, Hlf. split; [done|]. split; [lia|]. split; [apply Hs|].
    replace (n + 1 - 1) with n by lia. eexists. split; [exact Hr|done].
  - pose proof (other_ne _ (mp_active _ Hp)) as Hne. intros [Hc Hold]. change (pimg d1) with (pimg d'). split.
    + intros i Hi. destruct (Hc i Hi) as (h & E & Hx). exists h. split; [|exact Hx].
      destruct (is_master_split a i (mp_active _ Hp) Hi) as [-> | ->].
      * rewrite <- E. exact Hh.
      * change (hdr_class (pimg d' (other_of a)) = MASTER_OK h). by rewrite (op_other _ _ _ _ Ho).
    + destruct Hold as (h & E & Hlt). exists h. split; [|exact Hlt].
      change (hdr_class (pimg d' (other_of a)) = MASTER_OK h). by rewrite (op_other _ _ _ _ Ho).
Qed.

Lemma rotated_last d d' :
  master_pre d -> rot_gen (d_st d) <> UINT32_MAX ->
  pimg d' (active_master (d_st d)) = pimg d (active_master (d_st d)) ->
  pimg d' (other_of (active_master (d_st d))) = sector_block cfg g (d_st d) (rot_gen (d_st d) + 1) (master_rec_fill (d_st d)) ->
  let d1 := mk_db (st_rotated (d_st d)) (d_geo d') (d_ix d') (d_store d') in last_ok d1 /\ (hdrs_clean d -> hdrs_clean d1).
Proof.
  intros Hp Hne Ha1 Ho d1. destruct (mp_feats _ Hp) as (F1 & F2 & F3). pose proof (mp_gen _ Hp) as Hgen. unfold UINT32_MAX in Hne.
  destruct (sector_block_spec cfg g Hg (d_st d) (rot_gen (d_st d) + 1) (master_rec_fill (d_st d)) ltac:(lia) F1 (pre_fits _ Hp))
    as (Hh & Hl & Hr). rewrite <- Ho in Hh, Hl, Hr. split.
  - unfold last_ok, d1, st_rotated. cbn. split; [done|]. split; [lia|]. split; [exact Hl|]. eexists. split; [exact Hr|done].
  - intros [Hc _]. change (pimg d1) with (pimg d'). split.
    + intros i Hi. destruct (is_master_split _ i (mp_active _ Hp) Hi) as [-> | ->].
      * destruct (Hc _ Hi) as (h & E & Hx). exists h. split; [|exact Hx]. rewrite <- E. f_equal. exact Ha1.
      * eexists. split; [exact Hh|]. split; [by apply accept_hdr_of|]. done.
    + destruct (mp_here _ Hp) as (n & C & Hs & _). destruct (sector_ok_class _ _ _ _ Hs) as (h & E & Hg' & _).
      exists h. split; [|cbn; lia]. change (hdr_class (pimg d' (other_of (other_of (active_master (d_st d))))) = MASTER_OK h).
      by rewrite other_other, Ha1 by apply Hp.
Qed.

Lemma commit_rotate_spec force d :
  master_pre d -> (force = false -> must_rotate (d_st d) = true) ->
  wp (let* rc := mtry (master_rotate cfg g (master_rec_fill (d_st d))) in
      st_mod (set_ceiling_reset false);;;
      match rc with
      | Ok _ => st_mod (set_next_id_hint (r_next_id_hint (master_rec_fill (d_st d))))
      | Err e => mfail e
      end) d (commit_post force d).
Proof.
  intros Hp Hf. apply wp_bnd, wp_try. eapply wp_mono; [apply (rotate_spec d _ (mp_active _ Hp) (pre_fits _ Hp))|].
  cbv beta. intros rc d' (Hom & Hact & Hw & Hrc). apply wp_bnd, wp_mod. destruct rc as [[]|e].
  - destruct Hrc as (Hne & Hsb & Hst). apply wp_mod. cbn. rewrite Hst. fold (st_rotated (d_st d)).
    split; [|split; [done|split]].
    + destruct Hom. split; try done.
    + intros _ Hh. destruct (Hw Hne Hh). done.
    + split; [by apply (rotated_inv_ok d d')|]. split; [done|]. split; [cbn; lia|]. by apply (rotated_last d d').
  - destruct Hrc as [Hst Hrc]. apply wp_fail. cbn. rewrite Hst. split; [|split; [done|split]].
    + destruct Hom. split; try done.
    + intros Hne Hh. destruct (Hw Hne Hh). done.
    + split; [done|]. intros Hi. destruct (decide (rot_gen (d_st d) = UINT32_MAX)) as [Hm|Hne].
      * right. assert (master_inv (mk_db (set_ceiling_reset false (d_st d)) (d_geo d') (d_ix d') (d_store d'))) as Hi'.
        { eapply (inv_only_st d); [|by apply reset_noop|done]. intros p Hpm.
          destruct Hrc as [(_&_&Ho)|[? _]]; [destruct (is_master_split _ p (mp_active _ Hp) Hpm) as [-> | ->]; done|done]. }
        rewrite <- (reset_noop d Hi) at 1. split; [by apply (inv_covers _ Hi')|done].
      * destruct (rotated_inv_err d (mk_db (set_ceiling_reset false (d_st d)) (d_geo d') (d_ix d') (d_store d')) Hi Hact) as [Hstr|[Hc Hmi]];
          [unfold UINT32_MAX in Hne; pose proof (mi_gen _ Hi); lia|done|by left|].
        right. split; [done|]. intros [E|E]; [|by apply Hmi]. apply Hmi, Hf, E.
Qed.

Lemma commit_append_spec d :
  master_pre d -> must_rotate (d_st d) = false ->
  let r := master_rec_fill (d_st d) in
  wp (let* rc :=
        (let* rc := mtry (io (blob_db_store_write
            (peb_offset g (active_master (d_st d)) + BLOB_DB_MASTER_LOG_OFF + log_next (d_st d) * rec_size g)
            (master_rec_stage g r (log_next (d_st d)) (rot_gen (d_st d))))) in
         st_mod (fun st => set_log_next (u16 (log_next st + 1)) st);;;
         (if is_ok rc then mret tt else st_mod (set_log_failed true));;;
         mret rc) in
      st_mod (set_ceiling_reset false);;;
      match rc with
      | Ok _ => st_mod (set_next_id_hint (r_next_id_hint r))
      | Err e => mfail e
      end) d (commit_post false d).
Proof.
  intros Hp Hmr r. destruct (mp_here _ Hp) as (n & C & Hs & HC & Hn). unfold must_rotate in Hmr.
  apply orb_false_iff in Hmr as [Hlf Hcap]. rewrite Z.geb_leb in Hcap. apply Z.leb_gt in Hcap. rewrite (Hn Hlf) in Hs.
  assert (must_rotate (d_st d) = false) as Hmr by (unfold must_rotate; rewrite Hlf, Z.geb_leb; by apply Z.leb_gt).
  apply wp_bnd, wp_bnd, wp_try.
  eapply wp_mono; [apply (append_rec_spec d (log_next (d_st d)) C (mp_active _ Hp) (pre_fits _ Hp) Hs Hcap)|]. cbv beta.
  intros rc d' (Hw & Ho & Hrc).
  assert (forall st', mounted st' = mounted (d_st d) -> wedged st' = wedged (d_st d) ->
    only_masters d (mk_db st' (d_geo d') (d_ix d') (d_store d'))) as Hom.
  { intros st' E1 E2. split; cbn; [apply Ho|apply Ho| |done|done]. intros p Hpm. apply (op_other _ _ _ _ Ho). intros ->. apply Hpm, Hp. }
  destruct rc as [[]|e]; cbn [is_ok]; unfold mbnd, mret, mfail, st_mod, mmod, wp; cbn [d_st d_geo d_ix d_store]; rewrite (op_st _ _ _ _ Ho).
  - fold (st_appended true (d_st d)). split; [by apply Hom|]. split; [done|]. split; [intros _ Hh; by destruct (Hw Hh)|].
    destruct Hrc as (Hs' & Hh & Hr). split; [by apply appended_inv_ok|]. split; [done|]. split; [cbn; lia|]. by apply appended_last.
  - fold (st_appended false (d_st d)). destruct Hrc as (He & n' & C' & Hn' & Hs' & HC').
    split; [by apply Hom|]. split; [done|]. split; [intros _ Hh; by destruct (Hw Hh)|]. split; [done|]. intros Hi. right.
    assert (master_inv (mk_db (st_appended false (d_st d)) (d_geo d') (d_ix d') (d_store d'))) as Hi'.
    { apply (appended_inv_err d d' n' C C'); try done. apply HC, Hi. }
    split; [apply (inv_covers _ Hi')|done].
Qed.

Lemma commit_how_spec force d : master_pre d -> wp (master_commit_how cfg g force) d (commit_post force d).
Proof.
  intros Hp. unfold master_commit_how. apply wp_bnd, wp_gets. cbv beta iota zeta. unfold id.
  rewrite <- orb_assoc. fold (must_rotate (d_st d)). destruct (force || must_rotate (d_st d)) eqn:E.
  - apply commit_rotate_spec; [done|]. intros ->. done.
  - apply orb_false_iff in E as [-> E]. by apply commit_append_spec.
Qed.

(** ** Allocating an id *)

(** An id that was handed out is covered by the ceiling the next mount reads,
    and is not handed out again. *)
Lemma alloc_id_spec d :
  master_inv d -> mounted (d_st d) = true -> 0 < next_id (d_st d) < 2 ^ 64 - 257 -> rot_gen (d_st d) <> UINT32_MAX ->
  wp (alloc_id_impl cfg g) d (fun rc d' =>
    only_masters d d' /\ works d rc d' /\ exists id, rc = Ok id /\ (healthy (d_store d) -> id <> 0) /\
    ((id = next_id (d_st d) /\ next_id (d_st d') = id + 1 /\ master_inv d' /\ id < next_id_hint (d_st d') /\
      (hdrs_clean d -> hdrs_clean d') /\ (last_ok d -> last_ok d') /\
      rot_gen (d_st d') <= rot_gen (d_st d) + 1 /\ next_id_hint (d_st d') <= Z.max (next_id_hint (d_st d)) (id + 257)) \/
     (id = 0 /\ next_id (d_st d') = next_id (d_st d) /\ (stray_master d d' \/ master_inv d')))).
Proof.
  intros Hi Hm Hid Hgen. unfold alloc_id_impl. apply wp_bnd, wp_gets. rewrite Hm. cbn [negb].
  apply wp_bnd, wp_gets. cbv beta iota. unfold id. rewrite Z.geb_leb. apply wp_bnd. destruct (Z.leb_spec (next_id_hint (d_st d)) (next_id (d_st d))).
  - apply wp_try. eapply wp_mono; [apply (commit_how_spec false d (inv_pre _ Hi))|]. cbv beta.
    intros rc d' (Hom & Hnx & Hw & Hrc). destruct rc as [[]|e].
    + destruct Hrc as (Hi' & Hh & Hrg & Hlast & Hcl). unfold mbnd, st_get, st_mod, mgets, mmod, mret, wp. cbn [d_st d_geo d_ix d_store].
      pose proof (rec_fill_covers _ (mi_reset _ Hi) ltac:(lia)). rewrite Hnx, u64_small by lia.
      split; [destruct Hom; split; try done|]. split; [intros Hh'; by destruct (Hw Hgen Hh')|].
      eexists. split; [done|]. split; [lia|]. left. split_and!; [done|done| | | | | |].
      * destruct Hi'. by split.
      * change (next_id (d_st d) < next_id_hint (d_st d')). lia.
      * exact Hcl.
      * intros _. exact Hlast.
      * apply Hrg.
      * change (next_id_hint (d_st d') <= Z.max (next_id_hint (d_st d)) (next_id (d_st d) + 257)). rewrite Hh. unfold master_rec_fill.
        rewrite (mi_reset _ Hi). cbn. unfold BLOB_DB_ID_HINT_STEP. rewrite u64_small by lia. lia.
    + destruct Hrc as [Hh Hrc]. apply wp_ret. split; [done|]. split; [intros Hh'; by destruct (Hw Hgen Hh')|].
      exists 0. split; [done|]. split; [intros Hh'; by destruct (Hw Hgen Hh')|]. right. split_and!; [done|done|].
      destruct (Hrc Hi) as [?|[_ Hi']]; [by left|right; auto].
  - apply wp_ret. unfold mbnd, st_get, st_mod, mgets, mmod, mret, wp. cbn [d_st d_geo d_ix d_store].
    rewrite u64_small by lia. split; [by split|]. split; [done|]. eexists. split; [done|]. split; [lia|]. left.
    split_and!; [done|done| |done|done|done|cbn; lia|cbn; lia]. destruct Hi. by split.
Qed.
End db.
