(* ===== verification/Mount.v ===== *)
(** Opening, mounting, formatting, erasing and maintaining a store: the
    life-cycle half of blob_db.c, and the public calls. At the end, that none of
    them but an open changes the geometry. *)

From S2P Require Import Prelude Layout Store SlotIndexIface Image Core Compact Ops Master.

Section lifecycle.
Context (cfg : config) `{Crc}.
Context {S I : Type} `{!Store S} `{!SlotIndex I}.
Notation db := (db S I).

Definition geo_mod (f : geom -> geom) : M db unit := mmod (fun d => mk_db (d_st d) (f (d_geo d)) (d_ix d) (d_store d)).
Definition store_close : M db unit := mmod (fun d => mk_db (d_st d) (d_geo d) (d_ix d) (blob_db_store_close (d_store d))).

(** ** Opening *)

(** The fields [store_open_and_validate()] takes from the backend. *)
Definition geo_device (sg : blob_db_store_geom) (g : geom) : geom :=
  mk_geom (sg_n_pebs sg * sg_peb_size sg) (sg_peb_size sg) (if sg_write_align sg =? 0 then 1 else sg_write_align sg)
    (sg_n_pebs sg) (n_buckets g) (rec_size g) (log_cap g) (sg_preformat sg).

Definition geo_rec (g : geom) : geom :=
  mk_geom (fa_size g) (peb_size g) (write_align g) (n_pebs g) (n_buckets g) (u16 (round_up 48 (write_align g))) (log_cap g)
    (preformat g).

Definition geo_cap (g : geom) : geom :=
  let cap := u16 (Z.min ((peb_size g - BLOB_DB_MASTER_LOG_OFF) / rec_size g) UINT16_MAX) in
  let cap := if TEST_MASTER_LOG_CAP cfg >? 0 then Z.min cap (u16 (TEST_MASTER_LOG_CAP cfg)) else cap in
  mk_geom (fa_size g) (peb_size g) (write_align g) (n_pebs g) (n_buckets g) (rec_size g) cap (preformat g).

Definition geo_buckets (g : geom) : geom :=
  mk_geom (fa_size g) (peb_size g) (write_align g) (n_pebs g) (n_pebs g - BLOB_DB_FIRST_BUCKET) (rec_size g) (log_cap g)
    (preformat g).

Definition store_open_and_validate (discard : bool) : M db unit :=
  let* sg := io (blob_db_store_open discard) in
  let err_close e := store_close;;; mfail e in
  geo_mod (geo_device sg);;;
  let* g := mgets d_geo in
  if peb_size g >? SECTOR_BUF_SIZE cfg then err_close ENOTSUP
  else if (write_align g >? BLOB_DB_MAX_WRITE_ALIGN) || negb (Z.land (write_align g) (write_align g - 1) =? 0)
  then err_close ENOTSUP
  else
    geo_mod geo_rec;;;
    let* g := mgets d_geo in
    if peb_size g <? BLOB_DB_MASTER_LOG_OFF + 2 * rec_size g then err_close ENOTSUP
    else
      geo_mod geo_cap;;;
      if n_pebs g <? BLOB_DB_FIRST_BUCKET + 1 then err_close EINVAL
      else
        geo_mod geo_buckets;;;
        let sustainable := (peb_size g - BLOB_DB_BUCKET_DATA_OFF) / 2 - BLOB_DB_SLOT_OVERHEAD in
        if MAX_PAYLOAD_LEN cfg >? sustainable then err_close ENOTSUP else mret tt.

(** ** Emptying *)

Definition bind_root_empty (g : geom) : M db unit :=
  let root_bid := u16 (BLOB_DB_ROOT_ID mod n_buckets g) in
  format_bucket g root_bid;;;
  append_slot cfg g root_bid BLOB_DB_BUCKET_DATA_OFF BLOB_DB_ROOT_ID 0 [].

(** The loop of [invalidate_buckets()] over [bid]. *)
Fixpoint invalidate_loop (g : geom) (k : nat) (bid skip_bid : Z) : M db unit :=
  match k with
  | O => mret tt
  | Datatypes.S k =>
      if bid =? skip_bid then invalidate_loop g k (bid + 1) skip_bid
      else
        let off := peb_offset g (BLOB_DB_FIRST_BUCKET + bid) in
        let zlen := Z.max 4 (Z.min (write_align g) BLOB_DB_MAX_WRITE_ALIGN) in
        let zeros := replicate (Z.to_nat zlen) 0 in
        let* peek := io (blob_db_store_read off 4) in
        if negb (bool_decide (peek = BUCKET_MAGIC)) then invalidate_loop g k (bid + 1) skip_bid
        else
          (if blob_db_store_replace_is_atomic (S := S) then io (blob_db_store_replace off zeros)
           else io (blob_db_store_write off zeros));;;
          invalidate_loop g k (bid + 1) skip_bid
  end.

Definition invalidate_buckets (g : geom) (skip_bid : Z) : M db unit :=
  invalidate_loop g (Z.to_nat (n_buckets g)) 0 skip_bid.

Definition format_masters_fresh (g : geom) : M db unit :=
  invalidate_buckets g (-1);;;
  master_format cfg g;;;
  bind_root_empty g.

Definition format_whole_store (g : geom) : M db unit :=
  ix (blob_db_sidx_reset (n_buckets g));;;
  st_mod (set_wedged false);;;
  io (blob_db_store_erase 0 (fa_size g));;;
  master_format cfg g;;;
  bind_root_empty g.

Definition format_impl : M db unit :=
  let* m := st_get mounted in
  (if m then mret tt else store_open_and_validate true);;;
  let* g := mgets d_geo in
  let* rc := mtry (format_whole_store g) in
  match rc with
  | Err e => (if m then mret tt else store_close);;; mfail e
  | Ok _ => if m then mret tt else st_mod (set_mounted true)
  end.

Definition erase_all_impl : M db unit :=
  let* m := st_get mounted in
  let* w := st_get wedged in
  let* g := mgets d_geo in
  if negb m then mfail ENODEV
  else if w then mfail EIO
  else
    ix (blob_db_sidx_reset (n_buckets g));;;
    invalidate_buckets g (BLOB_DB_ROOT_ID mod n_buckets g);;;
    bind_root_empty g;;;
    let* prev_next := st_get next_id in
    st_mod (fun st => set_ceiling_reset true (set_next_id 2 st));;;
    let* rc := mtry (master_commit cfg g) in
    match rc with
    | Err e => st_mod (set_next_id prev_next);;; mfail e
    | Ok _ => mret tt
    end.

(** ** Mounting *)

(** The id scan of a mount in doubt: [scan_bucket()]'s loop, on the highest id
    so far. *)
Fixpoint id_scan_loop (g : geom) (fuel : nat) (bid cursor max_id : Z) : M db Z :=
  match fuel with
  | O => mret max_id
  | Datatypes.S fuel =>
      let base := peb_offset g (BLOB_DB_FIRST_BUCKET + bid) in
      if cursor + 14 <=? peb_size g then
        let* b := io (blob_db_store_read (base + cursor) 4) in
        let shdr := dec_slot_hdr b in
        if sh_flags shdr =? 255 then mret max_id
        else if negb (flag_set (sh_flags shdr) BLOB_DB_SLOT_F_SEALED) then mret max_id
        else if sh_val_len shdr >? MAX_PAYLOAD_LEN cfg then mret max_id
        else
          (if flags_unknown cfg (sh_flags shdr) then ix (blob_db_sidx_forget bid) else mret tt);;;
          let base_sz := 4 + 8 + sh_val_len shdr + 2 in
          let a := if write_align g =? 0 then 1 else write_align g in
          let slot_sz := Z.land (base_sz + a - 1) (Z.lnot (a - 1)) in
          if cursor + slot_sz >? peb_size g then mret max_id
          else
            let* idb := io (blob_db_store_read (base + cursor + 4) 8) in
            let id := le_dec idb in
            let max_id := if id >? max_id then id else max_id in
            ix (blob_db_sidx_note bid id cursor slot_sz (flag_set (sh_flags shdr) BLOB_DB_SLOT_F_TOMBSTONE));;;
            id_scan_loop g fuel bid (cursor + slot_sz) max_id
      else mret max_id
  end.

Definition scan_bucket (g : geom) (bid max_id : Z) : M db Z :=
  let base := peb_offset g (BLOB_DB_FIRST_BUCKET + bid) in
  let* b := io (blob_db_store_read base 16) in
  let bhdr := dec_bucket_hdr b in
  if negb (bool_decide (bh_magic bhdr = BUCKET_MAGIC)) then mret max_id
  else if negb (bh_crc32 bhdr =? hdr_crc32 b) then mret max_id
  else if negb (bh_bucket_id bhdr =? bid) then mret max_id
  else
    ix (blob_db_sidx_begin bid BLOB_DB_BUCKET_DATA_OFF);;;
    id_scan_loop g (walk_fuel g) bid BLOB_DB_BUCKET_DATA_OFF max_id.

Fixpoint scan_all (g : geom) (k : nat) (bid max_id : Z) : M db Z :=
  match k with
  | O => mret max_id
  | Datatypes.S k =>
      let* max_id := scan_bucket g bid max_id in
      scan_all g k (bid + 1) max_id
  end.

(** The features of one ok header, accepted and merged. *)
Definition accept_master (g : geom) (c : master_class) : M db unit :=
  match c with
  | MASTER_OK h =>
      mlift (master_accept cfg g h);;;
      st_mod (fun st => set_compat (Z.lor (compat st) (h_compat h)) (set_ro_compat (Z.lor (ro_compat st) (h_ro_compat h))
        (set_incompat (Z.lor (incompat st) (h_incompat h)) st)))
  | _ => mret tt
  end.

(** The sector a mount takes its state from, with its log: the ok one with the
    higher generation, or the other if that one holds no record that verifies. *)
Definition load_pick (g : geom) (hi : Z) (hh : blob_db_master_hdr) (other : master_class)
    : M db (option (Z * blob_db_master_hdr * master_log * bool)) :=
  let* log := master_log_load g hi (h_rot_gen hh) in
  if ml_newest log >=? 0 then mret (Some (hi, hh, log, false))
  else
    match other with
    | MASTER_OK hl =>
        let lo := 1 - hi in
        let* log := master_log_load g lo (h_rot_gen hl) in
        mret (if ml_newest log >=? 0 then Some (lo, hl, log, true) else None)
    | _ => mret None
    end.

Definition pick_master (g : geom) (c0 c1 : master_class) : M db (option (Z * blob_db_master_hdr * master_log * bool)) :=
  match c0, c1 with
  | MASTER_OK h0, MASTER_OK h1 =>
      if h_rot_gen h0 =? h_rot_gen h1 then mfail EIO
      else if h_rot_gen h0 >? h_rot_gen h1 then load_pick g 0 h0 c1 else load_pick g 1 h1 c0
  | MASTER_OK h0, _ => load_pick g 0 h0 c1
  | _, MASTER_OK h1 => load_pick g 1 h1 c0
  | _, _ => mret None
  end.

Definition is_master_ok (c : master_class) : bool := match c with MASTER_OK _ => true | _ => false end.

(** No sector can be used. *)
Definition mount_without_master (g : geom) (c0 c1 : master_class) : M db unit :=
  match c0, c1 with
  | MASTER_ERASED, MASTER_ERASED => format_masters_fresh g
  | _, _ => if AUTOFORMAT_ON_CORRUPT cfg then format_whole_store g else mfail EIO
  end.

(** Take the state from the sector picked; [(scan_ids, end_by_rotation)]. *)
Definition mount_adopt (g : geom) (c0 c1 : master_class) (p : Z * blob_db_master_hdr * master_log * bool) : M db (bool * bool) :=
  let '(active, h, log, fell_back) := p in
  let* damage := mgets (fun d => blob_db_store_open_found_damage (peb_offset g BLOB_DB_MASTER_A_SECTOR) (d_store d) ||
    blob_db_store_open_found_damage (peb_offset g BLOB_DB_MASTER_B_SECTOR) (d_store d)) in
  let other := if active =? 0 then c1 else c0 in
  let end_by_rotation := fell_back || negb (is_master_ok other) || damage in
  let scan_ids := end_by_rotation || ml_tail_bad log in
  let ceiling := r_next_id_hint (ml_rec log) in
  st_mod (fun st => set_fuses (r_fuses (ml_rec log)) (set_seg_owner (r_seg_owner (ml_rec log)) (set_next_id ceiling
    (set_next_id_hint ceiling (set_ceiling_reset false (set_log_failed false (set_log_next (ml_end log)
    (set_rot_gen (h_rot_gen h) (set_active_master active st)))))))));;;
  recover_compaction g;;;
  mret (scan_ids, end_by_rotation).

(** Raise [next_id] past every id on flash, in RAM. *)
Definition mount_doubt (g : geom) : M db unit :=
  let* nx := st_get next_id in
  let* max_id := scan_all g (Z.to_nat (n_buckets g)) 0 (if nx =? 0 then 0 else nx - 1) in
  if u64 (max_id + 1) >? nx then st_mod (set_next_id (u64 (max_id + 1))) else mret tt.

(** The lowest payload cap of the ok headers. *)
Definition old_cap (c0 c1 : master_class) : Z :=
  let cap c m := match c with MASTER_OK h => Z.min m (h_max_payload_len h) | _ => m end in
  cap c1 (cap c0 (MAX_PAYLOAD_LEN cfg)).

Definition features_split (c0 c1 : master_class) : bool :=
  match c0, c1 with
  | MASTER_OK h0, MASTER_OK h1 =>
      negb (h_incompat h0 =? h_incompat h1) || negb (h_ro_compat h0 =? h_ro_compat h1) || negb (h_compat h0 =? h_compat h1)
  | _, _ => false
  end.

(** Finish a half-done upgrade: whether it rotated. *)
Definition mount_upgrade (g : geom) (c0 c1 : master_class) (h : blob_db_master_hdr) : M db bool :=
  if features_split c0 c1 || (old_cap c0 c1 <? MAX_PAYLOAD_LEN cfg) then
    master_commit_rotate cfg g;;;
    let* st := st_get id in
    (if negb (h_incompat h =? incompat st) || negb (h_ro_compat h =? ro_compat st) || negb (h_compat h =? compat st) ||
        negb (h_max_payload_len h =? MAX_PAYLOAD_LEN cfg)
     then master_commit_rotate cfg g else mret tt);;;
    mret true
  else mret false.

(** The root-always-exists invariant. *)
Definition mount_root (g : geom) : M db unit :=
  let root_bid := u16 (BLOB_DB_ROOT_ID mod n_buckets g) in
  let* formatted := read_bucket_hdr g root_bid in
  let* root_live :=
    if formatted then
      let* r := find_live_slot cfg g root_bid BLOB_DB_ROOT_ID in
      match snd r with
      | Ok _ => mret true
      | Err ENOENT => mret false
      | Err e => mfail e
      end
    else mret false in
  if root_live then mret tt
  else
    let* nx := st_get next_id in
    (if nx <? 2 then st_mod (set_next_id 2) else mret tt);;;
    let* hint := st_get next_id_hint in
    (if hint <? 2 then persist_next_id_hint cfg g else mret tt);;;
    bind_root_empty g.

(** [mount_impl()] between opening the store and setting [mounted]. *)
Definition mount_body (g : geom) : M db unit :=
  let* c0 := master_classify g 0 in
  let* c1 := master_classify g 1 in
  match c0, c1 with
  | MASTER_FOREIGN, _ | _, MASTER_FOREIGN => mfail ENOTSUP
  | _, _ =>
      st_mod (fun st => set_compat 0 (set_ro_compat 0 (set_incompat 0 st)));;;
      accept_master g c0;;;
      accept_master g c1;;;
      let* p := pick_master g c0 c1 in
      match p with
      | None => mount_without_master g c0 c1
      | Some pk =>
          let* doubt := mount_adopt g c0 c1 pk in
          (if fst doubt then mount_doubt g else mret tt);;;
          let* rotated := mount_upgrade g c0 c1 (snd (fst (fst pk))) in
          if fst doubt && negb rotated
          then if snd doubt then master_commit_rotate cfg g else master_commit cfg g
          else mret tt
      end;;;
      mount_root g
  end.

Definition mount_impl : M db unit :=
  let* m := st_get mounted in
  if m then mfail EALREADY
  else
    st_mod (set_wedged false);;;
    store_open_and_validate false;;;
    let* g := mgets d_geo in
    ix (blob_db_sidx_reset (n_buckets g));;;
    let* rc := mtry (mount_body g) in
    match rc with
    | Ok _ => st_mod (set_mounted true)
    | Err e => ix blob_db_sidx_disable;;; store_close;;; mfail e
    end.

Definition unmount_impl : M db unit :=
  let* m := st_get mounted in
  if negb m then mret tt
  else
    store_close;;;
    st_mod (set_mounted false);;;
    ix blob_db_sidx_disable.

(** ** Maintenance *)

Definition maint_reset (g : geom) : M db unit :=
  st_mod (fun st => set_maint_scanned 0 (set_maint_start (u16 (next_id st mod n_buckets g)) st)).

(** [preformat_step()]: whether a bucket was formatted. *)
Fixpoint preformat_loop (fuel : nat) (g : geom) (format : bool) : M db bool :=
  match fuel with
  | O => mret false
  | Datatypes.S fuel =>
      let* st := st_get id in
      if maint_scanned st <? n_buckets g then
        let bid := u16 ((maint_start st + maint_scanned st) mod n_buckets g) in
        let scanned := st_mod (fun st => set_maint_scanned (u16 (maint_scanned st + 1)) st) in
        if bid =? u16 (BLOB_DB_ROOT_ID mod n_buckets g) then scanned;;; preformat_loop fuel g format
        else
          let* peek := io (blob_db_store_read (bucket_offset g bid) 16) in
          if bucket_hdr_valid peek bid then scanned;;; preformat_loop fuel g format
          else if negb format then mret false
          else format_bucket g bid;;; scanned;;; mret true
      else mret false
  end.

Definition preformat_step (g : geom) (format : bool) : M db bool :=
  preformat_loop (Datatypes.S (Z.to_nat (n_buckets g))) g format.

(** The loop of [blob_db_maintain()]: steps performed, and an error if a step
    failed. *)
Fixpoint maintain_loop (fuel : nat) (g : geom) (budget performed : Z) : M db (Z * res unit) :=
  match fuel with
  | O => mret (performed, Ok tt)
  | Datatypes.S fuel =>
      let* rc := mtry (preformat_step g (performed <? budget)) in
      match rc with
      | Err e => mret (performed, Err e)
      | Ok false => mret (performed, Ok tt)
      | Ok true => maintain_loop fuel g budget (u32 (performed + 1))
      end
  end.

(** The result is the return code with [*result]: steps performed and whether
    more is left, which are set whatever the code. *)
Definition blob_db_maintain (budget : Z) : M db (res unit * Z * bool) :=
  let* m := st_get mounted in
  let* w := st_get wedged in
  let* g := mgets d_geo in
  if negb m then mret (Err ENODEV, 0, false)
  else if w then mret (Err EIO, 0, false)
  else
    let* pm :=
      if preformat g then
        let* p := maintain_loop (Datatypes.S (Z.to_nat (n_buckets g))) g budget 0 in
        let* scanned := st_get maint_scanned in
        mret (p, scanned <? n_buckets g)
      else mret ((0, Ok tt), false) in
    match fst pm with
    | (performed, Err e) => mret (Err e, performed, false)
    | (performed, Ok _) =>
        let* r := fun d => let (r, s) := blob_db_store_maintain (u32 (budget - performed)) (d_store d) in
                           (Ok r, mk_db (d_st d) (d_geo d) (d_ix d) s) in
        let '(rc, done, more) := r in
        mret (rc, u32 (performed + done), snd pm || more)
    end.

(** ** The public calls *)

Definition blob_db_mount : M db unit :=
  mount_impl;;;
  let* g := mgets d_geo in
  maint_reset g.

Definition blob_db_unmount : M db unit := unmount_impl.

Definition blob_db_format : M db unit :=
  format_impl;;;
  let* g := mgets d_geo in
  maint_reset g.

Definition blob_db_erase_all : M db unit :=
  erase_all_impl;;;
  let* g := mgets d_geo in
  maint_reset g.

Definition blob_db_alloc_id : M db Z :=
  let* g := mgets d_geo in
  alloc_id_impl cfg g.

Definition read_rc {A} (m : M db A) : M db A :=
  let* rc := mtry m in
  match rc with
  | Ok a => mret a
  | Err ENOTSUP => mfail EIO
  | Err e => mfail e
  end.

Definition blob_db_get (id : Z) (out_null : bool) (out_sz : Z) : M db bytes :=
  let* g := mgets d_geo in
  read_rc (get_impl cfg g id out_null out_sz).

Definition blob_db_update (id : Z) (payload : option bytes) : M db unit :=
  let* g := mgets d_geo in
  update_impl cfg g id payload.

Definition blob_db_size (id : Z) (out_null : bool) : M db Z :=
  let* g := mgets d_geo in
  read_rc (size_impl cfg g id out_null).

Definition blob_db_read (id offset : Z) (out_null : bool) (n : Z) : M db bytes :=
  let* g := mgets d_geo in
  read_rc (read_impl cfg g id offset out_null n).

Definition blob_db_write (id offset : Z) (buf : option bytes) : M db unit :=
  let* g := mgets d_geo in
  write_impl cfg g id offset buf.

Definition blob_db_delete (id : Z) : M db unit :=
  let* g := mgets d_geo in
  delete_impl cfg g id.

Definition blob_db_exists (id : Z) : M db bool :=
  let* g := mgets d_geo in
  exists_impl cfg g id.

Definition blob_db_count : M db Z :=
  let* g := mgets d_geo in
  count_impl cfg g.

Definition blob_db_iterate {U} (cb : option (Z -> bytes -> U -> Z * U)) (user : U) : M db (Z * U) :=
  let* g := mgets d_geo in
  iterate_impl cfg g cb user.
End lifecycle.

(** What stays fixed while a store is open: its geometry, and whether it is
    mounted. Only opening sets the one and only mount, unmount and format the
    other, so an instance that was mounted keeps running the code these theorems
    are about. *)

Section geo.
Context (cfg : config) (g : geom) `{Crc}.
Context {S I : Type} `{!Store S} `{!SlotIndex I}.
Notation db := (db S I).

Definition fixed (d : db) : geom * bool := (d_geo d, mounted (d_st d)).

Definition geo_kept {A} (m : M db A) : Prop := forall d, fixed (snd (m d)) = fixed d.

Lemma geo_ret {A} (a : A) : geo_kept (mret a).
Proof. by intros d. Qed.
Lemma geo_fail {A} e : geo_kept (@mfail db A e).
Proof. by intros d. Qed.
Lemma geo_lift {A} (r : res A) : geo_kept (mlift r).
Proof. by intros d. Qed.
Lemma geo_gets {A} (f : db -> A) : geo_kept (mgets f).
Proof. by intros d. Qed.
Lemma geo_st_get {A} (f : st_t -> A) : geo_kept (st_get f).
Proof. by intros d. Qed.
Lemma geo_st_mod f : (forall st, mounted (f st) = mounted st) -> geo_kept (st_mod f).
Proof. intros Hf d. unfold fixed. cbn. by rewrite Hf. Qed.
Lemma geo_ix f : geo_kept (ix f).
Proof. by intros d. Qed.
Lemma geo_ix_get {A} (f : I -> A) : geo_kept (ix_get f).
Proof. by intros d. Qed.
Lemma geo_close : geo_kept store_close.
Proof. by intros d. Qed.

Lemma geo_io {A} (m : M S A) : geo_kept (io m).
Proof. intros d. unfold io. by destruct (m (d_store d)). Qed.

Lemma geo_bnd {A B} (m : M db A) (k : A -> M db B) : geo_kept m -> (forall a, geo_kept (k a)) -> geo_kept (mbnd m k).
Proof.
  intros Hm Hk d. unfold mbnd. specialize (Hm d). destruct (m d) as [[a|e] d']; cbn in *; [|done]. by rewrite Hk.
Qed.

Lemma geo_try {A} (m : M db A) : geo_kept m -> geo_kept (mtry m).
Proof. intros Hm d. unfold mtry. specialize (Hm d). by destruct (m d). Qed.

Lemma wp_geo {A} (m : M db A) d (Q : res A -> db -> Prop) :
  geo_kept m -> wp m d Q -> wp m d (fun r d' => (d_geo d' = d_geo d /\ mounted (d_st d') = mounted (d_st d)) /\ Q r d').
Proof. intros Hm. unfold wp. specialize (Hm d). destruct (m d). by injection Hm as -> ->. Qed.

Lemma geo_if {A} (b : bool) (m m' : M db A) : geo_kept m -> geo_kept m' -> geo_kept (if b then m else m').
Proof. by destruct b. Qed.
End geo.

Create HintDb geo discriminated.
#[export] Hint Extern 1 (geo_kept (st_mod _)) => apply geo_st_mod; intros; reflexivity : geo.
#[export] Hint Resolve geo_ret geo_fail geo_lift geo_gets geo_st_get geo_ix geo_ix_get geo_close geo_io geo_try : geo.

(** Goes through a translated function to the calls it makes. *)
Ltac geo_go :=
  repeat first
    [ solve [auto with geo]
    | apply geo_bnd; [|intros ?]
    | apply geo_if
    | apply geo_try
    | apply geo_st_mod; intros ?; reflexivity
    | match goal with |- geo_kept (match ?x with _ => _ end) => destruct x end
    | match goal with |- geo_kept (let _ := _ in _) => cbv zeta end ].

Section calls.
Context (cfg : config) (g : geom) `{Crc}.
Context {S I : Type} `{!Store S} `{!SlotIndex I}.
Notation db := (db S I).
Notation geo_kept := (geo_kept (S := S) (I := I)).

Lemma geo_read_bucket bid : geo_kept (read_bucket g bid).
Proof. apply geo_io. Qed.
#[local] Hint Resolve geo_read_bucket : geo.

Lemma geo_format_bucket bid : geo_kept (format_bucket g bid).
Proof. unfold format_bucket. geo_go. Qed.
#[local] Hint Resolve geo_format_bucket : geo.

Lemma geo_read_bucket_hdr bid : geo_kept (read_bucket_hdr g bid).
Proof. unfold read_bucket_hdr. geo_go. Qed.
#[local] Hint Resolve geo_read_bucket_hdr : geo.

Lemma geo_crc_chunks fuel at_ left c : geo_kept (crc_chunks fuel at_ left c).
Proof. revert at_ left c. induction fuel; intros; cbn [crc_chunks]; geo_go. Qed.
#[local] Hint Resolve geo_crc_chunks : geo.

Lemma geo_scan_loop fuel bid tid lim cur toff tgt : geo_kept (scan_loop cfg g fuel bid tid lim cur toff tgt).
Proof. revert cur toff tgt. induction fuel; intros; cbn [scan_loop]; unfold slot_crc_ok_on_flash; geo_go. Qed.

Lemma geo_scan_bucket_for bid tid lim : geo_kept (scan_bucket_for cfg g bid tid lim).
Proof. apply geo_scan_loop. Qed.
#[local] Hint Resolve geo_scan_bucket_for : geo.

Lemma geo_slot_verify bid sc : geo_kept (slot_verify g bid sc).
Proof. unfold slot_verify. geo_go. Qed.
#[local] Hint Resolve geo_slot_verify : geo.

Lemma geo_walk_live_loop fuel bid id lim learn : geo_kept (walk_live_loop cfg g fuel bid id lim learn).
Proof. revert lim. induction fuel; intros; cbn [walk_live_loop]; geo_go. Qed.

Lemma geo_find_live_slot bid id : geo_kept (find_live_slot cfg g bid id).
Proof. unfold find_live_slot, find_indexed_slot, walk_live_slot. pose proof geo_walk_live_loop. geo_go. Qed.
#[local] Hint Resolve geo_find_live_slot : geo.

Lemma geo_bucket_cursor bid id : geo_kept (bucket_cursor cfg g bid id).
Proof. unfold bucket_cursor. geo_go. Qed.
#[local] Hint Resolve geo_bucket_cursor : geo.

Lemma geo_confirm_cursor bid id sc : geo_kept (confirm_cursor cfg g bid id sc).
Proof. unfold confirm_cursor, cursor_past_torn_tail. geo_go. Qed.
#[local] Hint Resolve geo_confirm_cursor : geo.

Lemma geo_append_slot bid wc id fl p : geo_kept (append_slot cfg g bid wc id fl p).
Proof. unfold append_slot, append_slot2. geo_go. Qed.
#[local] Hint Resolve geo_append_slot : geo.

Lemma geo_compact_bucket bid : geo_kept (compact_bucket cfg g bid).
Proof. unfold compact_bucket, compact_commit, or_wedge, scratch_seal_write. geo_go. Qed.
#[local] Hint Resolve geo_compact_bucket : geo.

Lemma geo_recover_compaction : geo_kept (recover_compaction g).
Proof. unfold recover_compaction, scratch_sealed_bucket. geo_go. Qed.

Lemma geo_get id nul sz : geo_kept (get_impl cfg g id nul sz).
Proof. unfold get_impl. geo_go. Qed.

Lemma geo_update id p : geo_kept (update_impl cfg g id p).
Proof. unfold update_impl. geo_go. Qed.

Lemma geo_delete id : geo_kept (delete_impl cfg g id).
Proof. unfold delete_impl. geo_go. Qed.

Lemma geo_exists id : geo_kept (exists_impl cfg g id).
Proof. unfold exists_impl. geo_go. Qed.

Lemma geo_size id nul : geo_kept (size_impl cfg g id nul).
Proof. unfold size_impl. geo_go. Qed.

Lemma geo_read id off nul n : geo_kept (read_impl cfg g id off nul n).
Proof. unfold read_impl. geo_go. Qed.

Lemma geo_write id off b : geo_kept (write_impl cfg g id off b).
Proof. unfold write_impl, write_inline. geo_go. Qed.

Lemma geo_commit force : geo_kept (master_commit_how cfg g force).
Proof. unfold master_commit_how, master_rotate, master_write_sector. geo_go. Qed.
#[local] Hint Resolve geo_commit : geo.

Lemma geo_alloc : geo_kept (alloc_id_impl cfg g).
Proof. unfold alloc_id_impl, persist_next_id_hint, master_commit. geo_go. Qed.

Lemma geo_bind_root : geo_kept (bind_root_empty cfg g).
Proof. unfold bind_root_empty. geo_go. Qed.
#[local] Hint Resolve geo_bind_root geo_recover_compaction : geo.

Lemma geo_master_format : geo_kept (master_format cfg g).
Proof. unfold master_format, master_write_sector. geo_go. Qed.
#[local] Hint Resolve geo_master_format : geo.

Lemma geo_invalidate k bid skip : geo_kept (invalidate_loop g k bid skip).
Proof. revert bid. induction k; intros; cbn [invalidate_loop]; geo_go. Qed.
#[local] Hint Resolve geo_invalidate : geo.

Lemma geo_format_whole : geo_kept (format_whole_store cfg g).
Proof. unfold format_whole_store. geo_go. Qed.

Lemma geo_log_search fuel slot lo hi : geo_kept (log_search g fuel slot lo hi).
Proof. revert lo hi. induction fuel; intros; cbn [log_search]; unfold master_slot_read; geo_go. Qed.

Lemma geo_log_newest k slot rg e tb : geo_kept (log_newest g k slot rg e tb).
Proof. revert tb. induction k; intros; cbn [log_newest]; unfold master_slot_read; geo_go. Qed.
#[local] Hint Resolve geo_log_search geo_log_newest : geo.

Lemma geo_id_scan fuel bid cur mx : geo_kept (id_scan_loop cfg g fuel bid cur mx).
Proof. revert cur mx. induction fuel; intros; cbn [id_scan_loop]; geo_go. Qed.
#[local] Hint Resolve geo_id_scan : geo.

Lemma geo_scan_all k bid mx : geo_kept (scan_all cfg g k bid mx).
Proof. revert bid mx. induction k; intros; cbn [scan_all]; unfold scan_bucket; geo_go. Qed.
#[local] Hint Resolve geo_scan_all : geo.

Lemma geo_pick c0 c1 : geo_kept (pick_master g c0 c1).
Proof. unfold pick_master, load_pick, master_log_load. geo_go. Qed.
#[local] Hint Resolve geo_pick : geo.

Lemma geo_mount_body : geo_kept (mount_body cfg g).
Proof.
  unfold mount_body, master_classify, accept_master, mount_without_master, format_masters_fresh, format_whole_store, invalidate_buckets,
    mount_adopt, mount_doubt, mount_upgrade, mount_root, master_commit, master_commit_rotate, persist_next_id_hint. geo_go.
Qed.
End calls.
