(* ===== verification/MountSpec.v ===== *)
(** Opening, mounting and formatting: what each establishes. A mount of a clean
    store serves the contents recovery left and starts allocating at the
    ceiling on flash; a format leaves an empty root and nothing else. *)

From S2P Require Import Prelude Layout Store SlotIndexIface Image Core CoreRead Lookup Append Bucket Compact.
From S2P Require Import CompactImage Recovery CompactSpec Ops OpsRead OpsWrite Master Mount MasterSpec MasterInv.

(** ** The geometry *)

(** The geometry [store_open_and_validate()] derives from the device's. *)
Definition open_geom (cfg : config) (sg : blob_db_store_geom) : geom :=
  geo_buckets (geo_cap cfg (geo_rec (geo_device sg (mk_geom 0 0 0 0 0 0 0 false)))).

(** The checks it makes, as one test. *)
Definition open_err (cfg : config) (sg : blob_db_store_geom) : option errno :=
  let g := open_geom cfg sg in
  if peb_size g >? SECTOR_BUF_SIZE cfg then Some ENOTSUP
  else if (write_align g >? BLOB_DB_MAX_WRITE_ALIGN) || negb (Z.land (write_align g) (write_align g - 1) =? 0) then Some ENOTSUP
  else if peb_size g <? BLOB_DB_MASTER_LOG_OFF + 2 * rec_size g then Some ENOTSUP
  else if n_pebs g <? BLOB_DB_FIRST_BUCKET + 1 then Some EINVAL
  else if MAX_PAYLOAD_LEN cfg >? (peb_size g - BLOB_DB_BUCKET_DATA_OFF) / 2 - BLOB_DB_SLOT_OVERHEAD then Some ENOTSUP
  else None.

Lemma pow2_checked a : 1 <= a -> (a >? BLOB_DB_MAX_WRITE_ALIGN) || negb (Z.land a (a - 1) =? 0) = false -> pow2_le32 a.
Proof.
  intros H1 E. apply orb_false_iff in E as [E1 E2]. unfold BLOB_DB_MAX_WRITE_ALIGN in E1.
  assert (a <= 32) as H2 by lia. clear E1. unfold pow2_le32.
  assert (forallb (fun b => negb (Z.land b (b - 1) =? 0) || existsb (Z.eqb b) [1; 2; 4; 8; 16; 32]) (seqZ 1 32) = true) as Hall
    by (vm_compute; reflexivity).
  assert (In a (seqZ 1 32)) as Hin by (apply list_elem_of_In, elem_of_seqZ; lia).
  pose proof (proj1 (forallb_forall _ _) Hall a Hin) as Ha. cbv beta in Ha. rewrite E2 in Ha. cbn [orb existsb] in Ha.
  repeat (apply orb_true_iff in Ha as [Ha%Z.eqb_eq|Ha]; [tauto|]). done.
Qed.

Lemma open_geom_ok cfg sg :
  config_ok cfg -> 0 <= sg_peb_size sg -> 0 <= sg_write_align sg -> 0 <= sg_n_pebs sg <= 65535 ->
  open_err cfg sg = None -> geom_ok cfg (open_geom cfg sg).
Proof.
  intros (Hmp & Hsb & Htc) Hp Hw Hn. unfold open_err. cbv zeta. set (g := open_geom cfg sg).
  destruct (peb_size g >? _) eqn:E1; [done|]. destruct (_ || _) eqn:E2; [done|]. destruct (peb_size g <? _) eqn:E3; [done|].
  destruct (n_pebs g <? _) eqn:E4; [done|]. destruct (MAX_PAYLOAD_LEN cfg >? _) eqn:E5; [done|]. intros _.
  assert (1 <= write_align g) as Hw1 by (unfold g; cbn; destruct (Z.eqb_spec (sg_write_align sg) 0); lia).
  pose proof (pow2_checked _ Hw1 E2) as Hpow. destruct (round_up_spec 48 (write_align g) Hpow) as [Hr1 Hr2].
  pose proof (pow2_le32_pos _ Hpow) as Hle. unfold_consts.
  assert (rec_size g = round_up 48 (write_align g)) as Hrec by (change (rec_size g) with (u16 (round_up 48 (write_align g))); apply u16_small; lia).
  assert (n_pebs g = n_buckets g + 3 /\ n_pebs g = sg_n_pebs sg) as [Hnb Hnp].
  { change (n_buckets g) with (sg_n_pebs sg - 3). change (n_pebs g) with (sg_n_pebs sg). lia. }
  split; unfold_consts; try done; try lia.
  change (log_cap g) with (let cap := u16 (Z.min ((peb_size g - 128) / rec_size g) UINT16_MAX) in
    if TEST_MASTER_LOG_CAP cfg >? 0 then Z.min cap (u16 (TEST_MASTER_LOG_CAP cfg)) else cap).
  cbv zeta. set (q := (peb_size g - 128) / rec_size g).
  assert (2 <= q) by (apply Z.div_le_lower_bound; lia).
  assert (q * rec_size g <= peb_size g - 128) by (rewrite Z.mul_comm; apply Z.mul_div_le; lia).
  assert (q < 65536) by (apply Z.div_lt_upper_bound; nia). unfold UINT16_MAX. rewrite (u16_small (Z.min q 65535)) by lia.
  destruct (Z.gtb_spec (TEST_MASTER_LOG_CAP cfg) 0); [rewrite u16_small by lia|]; nia.
Qed.

Section open.
Context (cfg : config) `{Crc}.
Context {S I : Type} `{!Store S} `{!StoreView S} `{!SlotIndex I}.
Context (sg : blob_db_store_geom) {SL : StoreLaws S sg}.
Notation db := (db S I).
Implicit Types d : db.

(** A successful open leaves exactly this geometry, and the errors are the
    device's or those of the checks. *)
Lemma store_open_spec d discard :
  wp (store_open_and_validate cfg discard) d (fun r d' =>
    d_st d' = d_st d /\ d_ix d' = d_ix d /\ (discard = false -> same_flash (d_store d) (d_store d')) /\
    match r with
    | Ok _ => (bootable (d_store d) -> healthy (d_store d')) /\ open_err cfg sg = None /\ d_geo d' = open_geom cfg sg
    | Err e => open_err cfg sg = Some e /\ (bootable (d_store d) -> bootable (d_store d')) \/
        (~ bootable (d_store d) /\ device_err e)
    end).
Proof.
  assert (forall e s st g x, open_err cfg sg = Some e -> same_flash (d_store d) s \/ discard = true ->
    (bootable (d_store d) -> healthy s) -> st = d_st d -> x = d_ix d ->
    let d' := mk_db st g x (blob_db_store_close s) in
    d_st d' = d_st d /\ d_ix d' = d_ix d /\ (discard = false -> same_flash (d_store d) (d_store d')) /\
    (open_err cfg sg = Some e /\ (bootable (d_store d) -> bootable (d_store d')) \/ (~ bootable (d_store d) /\ device_err e))) as Hclose.
  { intros e s st g x He Hs Hh -> ->. destruct (close_law (StoreLaws := SL) s) as [Hc1 Hc2]. cbn. split_and!; [done..| |left; auto].
    intros Hd. destruct Hs as [Hs|]; [|congruence]. intros p. by rewrite Hc1. }
  unfold store_open_and_validate. apply wp_bnd. unfold io, wp. pose proof (open_law (StoreLaws := SL) discard (d_store d)) as Ho.
  unfold wp in Ho. destruct (blob_db_store_open discard (d_store d)) as [[sg'|e] s]; destruct Ho as (Hh & Hs & Hr).
  2: { cbn. split_and!; auto. right. split; [|done]. intros Hu. by destruct (Hh Hu). }
  subst sg'. assert (same_flash (d_store d) s \/ discard = true) as Hs' by (destruct discard; auto).
  assert (bootable (d_store d) -> healthy s) as Hh' by (intros Hu; by destruct (Hh Hu)).
  set (o := open_err cfg sg) in *. assert (o = open_err cfg sg) as Eo by done. revert Eo. clearbody o.
  unfold open_err. cbv zeta. unfold mbnd, geo_mod, store_close, mgets, mmod, mfail, mret. cbn [d_geo d_st d_ix d_store].
  change (peb_size (geo_device sg (d_geo d))) with (peb_size (open_geom cfg sg)).
  change (write_align (geo_device sg (d_geo d))) with (write_align (open_geom cfg sg)).
  destruct (peb_size (open_geom cfg sg) >? _); [intros Eo; exact (Hclose _ s _ _ _ Eo Hs' Hh' eq_refl eq_refl)|].
  destruct (_ || _); [intros Eo; exact (Hclose _ s _ _ _ Eo Hs' Hh' eq_refl eq_refl)|].
  cbn [d_geo d_st d_ix d_store].
  change (peb_size (geo_rec (geo_device sg (d_geo d)))) with (peb_size (open_geom cfg sg)).
  change (rec_size (geo_rec (geo_device sg (d_geo d)))) with (rec_size (open_geom cfg sg)).
  change (n_pebs (geo_rec (geo_device sg (d_geo d)))) with (n_pebs (open_geom cfg sg)).
  destruct (peb_size (open_geom cfg sg) <? _); [intros Eo; exact (Hclose _ s _ _ _ Eo Hs' Hh' eq_refl eq_refl)|]. cbn [d_geo d_st d_ix d_store].
  destruct (n_pebs (open_geom cfg sg) <? _); [intros Eo; exact (Hclose _ s _ _ _ Eo Hs' Hh' eq_refl eq_refl)|].
  cbn [d_geo d_st d_ix d_store].
  destruct (MAX_PAYLOAD_LEN cfg >? _); [intros Eo; exact (Hclose _ s _ _ _ Eo Hs' Hh' eq_refl eq_refl)|]. intros Eo. cbn. split_and!; auto.
Qed.
End open.

Section mount.
Context (cfg : config) (g : geom) `{Crc}.
Context {S I : Type} `{!Store S} `{!StoreView S} `{!SlotIndex I}.
Context (Hg : geom_ok cfg g) (Ha : geom_aligned g) {SL : StoreLaws S (store_geom_of g)} {CL : CrcLaws _}.
Context (sidx_wf : Z -> I -> Prop) {IL : SlotIndexLaws I sidx_wf}.
Notation db := (db S I).
Notation coherent := (coherent cfg g sidx_wf).
Notation db_inv := (db_inv cfg g sidx_wf).
Notation ready := (ready cfg g sidx_wf).
Notation contents := (contents cfg g).
Notation slots := (slots cfg g).
Notation heads_ok d := (heads_by cfg g (bimg d)).
Notation root_bid := (BLOB_DB_ROOT_ID mod n_buckets g).
Implicit Types d : db.

(** ** Binding an empty root *)

Lemma root_bucket : u16 root_bid = root_bid /\ 0 <= root_bid < n_buckets g.
Proof.
  pose proof (bucket_range cfg g Hg BLOB_DB_ROOT_ID). destruct (ok_pebs _ _ Hg). unfold_consts. split; [apply u16_small; lia|done].
Qed.

(** The root bucket starts over with the empty root; whatever else it held is
    gone. *)
Definition root_reset d d' : Prop := forall id,
  slots d' id = if decide (id = BLOB_DB_ROOT_ID) then slot_value 0 []
                else if decide (id mod n_buckets g = root_bid) then None else slots d id.

Lemma bind_root_spec d :
  coherent d -> unsealed g d ->
  (forall bid, 0 <= bid < n_buckets g -> bid <> root_bid -> bucket_hdr_valid (bimg d bid) bid = true -> bucket_inv cfg g bid (bimg d bid)) ->
  wp (bind_root_empty cfg g) d (fun r d' =>
    works d r d' /\ d_st d' = d_st d /\ d_geo d' = d_geo d /\ (forall p, p < BLOB_DB_FIRST_BUCKET -> pimg d' p = pimg d p) /\
    match r with Ok _ => ready d' /\ root_reset d d' /\ (heads_ok d -> heads_ok d') | Err e => device_err e end).
Proof.
  intros Hc Hu Hinv. destruct root_bucket as [Eu Hb]. unfold bind_root_empty. rewrite Eu. cbv zeta. apply wp_bnd.
  eapply wp_mono; [apply (format_bucket_spec cfg g Hg Ha sidx_wf d _ Hb Hc)|]. cbv beta.
  intros r d1 (Hw1 & Hc1 & b' & Hwr & Hr). assert (forall p, p < BLOB_DB_FIRST_BUCKET -> pimg d1 p = pimg d p) as Hlow1.
  { intros p Hp. apply (wr_other _ _ _ _ Hwr). lia. }
  destruct r as [[]|e].
  2: { split_and!; try done; apply Hwr. }
  subst b'. destruct (fmt_image_log cfg g Hg root_bid Hb) as (Hok & Hvf & Hl & He & Hbl). pose proof (ok_peb_size _ _ Hg) as Hps.
  pose proof (ok_payload _ _ Hg) as Hmp. destruct (blank_stop cfg g (fmt_image g root_bid) 16 (proj1 Hok)) as (_ & Hf & Ht); [lia|done|].
  assert (db_inv d1) as Hi1.
  { split; [done|]. intros bid Hbid Hv. destruct (decide (bid = root_bid)) as [->|Hne].
    - rewrite (wr_img _ _ _ _ Hwr). split; [unfold tail_ok; by rewrite He, Hf, Ht|]. intros en. rewrite Hl. by intros ?%elem_of_nil.
    - rewrite (wr_bimg _ _ _ _ _ Hwr Hne) in Hv |- *. auto. }
  assert (unsealed g d1) as Hu1 by (eapply (unsealed_other g d _ root_bid); [lia|done|apply Hwr]).
  assert (slot_size_for g 0 <= 46) as Hss.
  { destruct (slot_size_spec cfg g Hg 0) as (_ & Hs & _). pose proof (pow2_le32_pos _ (ok_align _ _ Hg)). lia. }
  eapply wp_mono.
  { change BLOB_DB_BUCKET_DATA_OFF with 16. rewrite <- He. rewrite <- (wr_img _ _ _ _ Hwr) at 1.
    apply (append_slot_spec cfg g Hg Ha sidx_wf d1 BLOB_DB_ROOT_ID 0 []); rewrite ?(wr_img _ _ _ _ Hwr), ?He, ?len_nil;
      try done; try lia; [apply flags_ok_plain|constructor]. }
  cbv beta. intros r d2 [Hw2 Hst Hge Hc2 Hoth _ Hlog Hres].
  assert (forall p, p < BLOB_DB_FIRST_BUCKET -> pimg d2 p = pimg d p) as Hlow2.
  { intros p Hp. rewrite <- Hlow1 by done. apply Hoth. lia. }
  split_and!; try done.
  - eapply works_trans; [exact Hw1|auto].
  - rewrite Hst. apply Hwr.
  - rewrite Hge. apply Hwr.
  - destruct r as [[]|e]; [|tauto]. destruct Hres as [Hi2 Hsv]. split; [|split].
    + split; [done|]. eapply (unsealed_other g d1 _ root_bid); [lia|done|apply Hoth].
    + intros id. rewrite (Hsv id). case_decide as E; [done|]. rewrite (slots_wrote cfg g _ _ _ _ id Hwr).
      case_decide as E2; [|done]. unfold bucket_slot. rewrite Hvf, Hl. done.
    + intros Hh bid e Hbid. destruct (decide (bid = root_bid)) as [->|Hne].
      * intros _. rewrite Hlog, (wr_img _ _ _ _ Hwr), Hl by done. cbn [app]. intros ->%list_elem_of_singleton. unfold_consts. cbn. done.
      * unfold bimg at 1 2. rewrite Hoth by (unfold_consts; lia). fold (bimg d1 bid). rewrite (wr_bimg _ _ _ _ _ Hwr Hne). by apply Hh.
Qed.

(** ** The root-always-exists invariant *)

Definition root_kept d d' : Prop :=
  match slots d BLOB_DB_ROOT_ID with
  | Some _ => same_contents cfg g d d'
  | None => root_reset d d'
  end.

Lemma mount_root_spec d :
  ready d -> 2 <= next_id (d_st d) -> 2 <= next_id_hint (d_st d) ->
  wp (mount_root cfg g) d (fun r d' =>
    works d r d' /\ d_st d' = d_st d /\ d_geo d' = d_geo d /\ (forall p, p < BLOB_DB_FIRST_BUCKET -> pimg d' p = pimg d p) /\
    match r with Ok _ => ready d' /\ root_kept d d' /\ (heads_ok d -> heads_ok d') | Err e => device_err e end).
Proof.
  intros Hrd Hn Hh. destruct root_bucket as [Eu Hb]. pose proof (inv_coh _ _ _ _ (rd_inv _ _ _ _ Hrd)) as Hc.
  assert (forall d1, roi d d1 -> coherent d1 -> slots d BLOB_DB_ROOT_ID = None ->
    wp (let* nx := st_get next_id in
        (if nx <? 2 then st_mod (set_next_id 2) else mret tt);;;
        let* hint := st_get next_id_hint in
        (if hint <? 2 then persist_next_id_hint cfg g else mret tt);;;
        bind_root_empty cfg g) d1 (fun r d' =>
      works d r d' /\ d_st d' = d_st d /\ d_geo d' = d_geo d /\ (forall p, p < BLOB_DB_FIRST_BUCKET -> pimg d' p = pimg d p) /\
      match r with Ok _ => ready d' /\ root_kept d d' /\ (heads_ok d -> heads_ok d') | Err e => device_err e end)) as Hbind.
  { intros d1 Hr1 Hc1 Hno. pose proof (ready_roi _ _ _ _ _ Hr1 Hc1 Hrd) as [Hi1 Hu1]. pose proof (roi_st _ _ Hr1) as Hst1.
    apply wp_bnd, wp_gets. rewrite Hst1. destruct (Z.ltb_spec (next_id (d_st d)) 2); [lia|]. apply wp_bnd, wp_ret, wp_bnd, wp_gets.
    rewrite Hst1. destruct (Z.ltb_spec (next_id_hint (d_st d)) 2); [lia|]. apply wp_bnd, wp_ret.
    eapply wp_mono; [apply (bind_root_spec d1 Hc1 Hu1); intros; by apply (inv_bucket _ _ _ _ Hi1)|]. cbv beta.
    intros r d2 (Hw & Hst & Hge & Hlow & Hr). split_and!.
    - intros Hd. apply Hw, (roi_healthy _ _ Hr1), Hd.
    - by rewrite Hst.
    - rewrite Hge. apply Hr1.
    - intros p Hp. rewrite Hlow by done. apply (roi_flash _ _ Hr1).
    - destruct r as [[]|e]; [|done]. destruct Hr as (Hrd2 & Hrr & Hhd). split; [done|]. split.
      + unfold root_kept. rewrite Hno. intros id. rewrite (Hrr id). repeat case_decide; try done. by apply slots_roi.
      + intros Hh0. apply Hhd. eapply heads_by_ext; [|exact Hh0]. intros b _. by apply roi_bimg. }
  unfold mount_root. rewrite Eu. cbv zeta. apply wp_bnd.
  eapply wp_mono; [exact (read_bucket_hdr_spec cfg g Hg sidx_wf d _ Hb Hc)|]. cbv beta. intros r d1 (Hr1 & Hc1 & Hq).
  assert (forall d' (e : errno), roi d d' -> device_err e -> ~ healthy (d_store d) -> works d (@Err unit e) d' /\ d_st d' = d_st d /\
    d_geo d' = d_geo d /\ (forall p, p < BLOB_DB_FIRST_BUCKET -> pimg d' p = pimg d p) /\ device_err e) as Herr.
  { intros d' e Hr He Hnh. split; [intros Hd; by destruct Hnh|]. split; [apply Hr|]. split; [apply Hr|]. split; [|done].
    intros p _. apply (roi_flash _ _ Hr). }
  destruct r as [v|e]; [subst v|destruct Hq; by apply Herr]. apply wp_bnd.
  destruct (bucket_hdr_valid (bimg d root_bid) root_bid) eqn:Hv.
  2: { apply wp_ret. cbv beta iota. apply Hbind; [done|done|]. by apply slots_unformatted. }
  pose proof (ready_roi _ _ _ _ _ Hr1 Hc1 Hrd) as Hrd1. apply wp_bnd.
  eapply wp_mono; [eapply (find_live_found cfg g Hg sidx_wf d1 BLOB_DB_ROOT_ID ltac:(unfold_consts; lia) (rd_inv _ _ _ _ Hrd1));
    [by rewrite (roi_bimg _ _ _ Hr1)|done]|]. cbv beta.
  intros r d2 (Hr2 & Hc2 & Hl). pose proof (transitivity Hr1 Hr2) as Hr12.
  destruct r as [[sc rc]|e]; [|destruct Hl as [Hnh He]; apply Herr; try done; intros Hd; apply Hnh, (roi_healthy _ _ Hr1), Hd].
  destruct Hl as (Hrc & _ & _). cbn [snd] in Hrc |- *. rewrite (slots_roi cfg g _ _ _ Hr1) in Hrc. subst rc.
  destruct (slots d BLOB_DB_ROOT_ID) as [[fl p]|] eqn:Ec.
  - apply wp_ret, wp_ret. split; [intros Hd; split; [done|by apply (roi_healthy _ _ Hr12)]|].
    split; [apply Hr12|]. split; [apply Hr12|]. split; [intros q _; apply (roi_flash _ _ Hr12)|].
    split; [by eapply ready_roi|]. split; [unfold root_kept; rewrite Ec; intros id; by apply slots_roi|].
    apply heads_by_ext. intros b _. by apply (roi_bimg _ _ _ Hr12).
  - apply wp_ret. cbv beta iota. by apply Hbind.
Qed.

(** ** Mounting a clean store *)

(** Both sectors ok, of this build's features and cap, and the newest record
    written verifies: nothing for the mount to doubt or upgrade. A build with
    large payloads finds the feature recorded. *)
Record clean_masters d (a : Z) (h h' : blob_db_master_hdr) (n : Z) (r : blob_db_master_rec) : Prop := {
  cm_active : is_master a;
  cm_hdr : hdr_class (pimg d a) = MASTER_OK h;
  cm_hdr' : hdr_class (pimg d (other_of a)) = MASTER_OK h';
  cm_accept : master_accept cfg g h = Ok tt /\ master_accept cfg g h' = Ok tt;
  cm_gen : h_rot_gen h' < h_rot_gen h;
  cm_feats : h_incompat h' = h_incompat h /\ h_ro_compat h' = h_ro_compat h /\ h_compat h' = h_compat h;
  cm_cap : h_max_payload_len h = MAX_PAYLOAD_LEN cfg /\ h_max_payload_len h' = MAX_PAYLOAD_LEN cfg;
  cm_log : log_prefix g (pimg d a) n /\ 1 <= n;
  cm_rec : rec_at g (pimg d a) (h_rot_gen h) (n - 1) = Some r;
  cm_hint : 2 <= r_next_id_hint r;
  cm_large : LARGE_PAYLOADS cfg = true -> h_incompat h = BLOB_DB_FEAT_LARGE_PAYLOADS;
}.

Lemma clean_ro d d' a h h' n r : (forall p, is_master p -> pimg d' p = pimg d p) -> clean_masters d a h h' n r -> clean_masters d' a h h' n r.
Proof.
  intros E Hm. split; try apply Hm; rewrite E by (apply Hm || apply other_is_master); apply Hm.
Qed.

Lemma clean_loaded d a h h' n r :
  clean_masters d a h h' n r -> loaded g (pimg d a) (h_rot_gen h) n = mk_master_log n (n - 1) false r.
Proof.
  intros Hm. destruct (cm_log _ _ _ _ _ _ Hm) as [_ Hn]. unfold loaded.
  replace (Z.to_nat n) with (Datatypes.S (Z.to_nat (n - 1))) by lia. cbn [newest_rec]. rewrite Z2Nat.id by lia.
  rewrite (cm_rec _ _ _ _ _ _ Hm). f_equal. apply andb_false_r.
Qed.

Lemma pick_clean d a h h' n r :
  clean_masters d a h h' n r ->
  reads_ok d (pick_master g (hdr_class (pimg d 0)) (hdr_class (pimg d 1))) (fun p =>
    p = Some (a, h, mk_master_log n (n - 1) false r, false)).
Proof.
  intros Hm. pose proof (cm_active _ _ _ _ _ _ Hm) as Hact. pose proof (cm_gen _ _ _ _ _ _ Hm) as Hgen.
  destruct (cm_log _ _ _ _ _ _ Hm) as [Hlg Hn].
  assert (forall c, reads_ok d (load_pick g a h c) (fun p => p = Some (a, h, mk_master_log n (n - 1) false r, false))) as Hl.
  { intros c. unfold load_pick. eapply reads_ok_bnd; [apply (master_log_load_spec cfg g Hg d a (h_rot_gen h) n Hact Hlg)|].
    intros log d' _ ->. rewrite (clean_loaded _ _ _ _ _ _ Hm). cbn [ml_newest].
    destruct (Z.geb_spec (n - 1) 0); [by apply reads_ok_ret|lia]. }
  pose proof (cm_hdr _ _ _ _ _ _ Hm) as E1. pose proof (cm_hdr' _ _ _ _ _ _ Hm) as E2. unfold pick_master.
  destruct Hact as [-> | ->]; cbn in E2; rewrite E1, E2;
    match goal with |- context [?x =? ?y] => destruct (Z.eqb_spec x y); [lia|] end;
    match goal with |- context [?x >? ?y] => destruct (Z.gtb_spec x y) end; try lia; apply Hl.
Qed.

Lemma master_classify_spec d slot : is_master slot -> reads_ok d (master_classify g slot) (fun c => c = hdr_class (pimg d slot)).
Proof.
  intros Hs. unfold master_classify. replace (peb_offset g slot) with (peb_offset g slot + 0) by lia. pose proof (ok_peb_size _ _ Hg).
  eapply reads_ok_bnd; [apply (peb_read_spec g); [by apply (master_peb cfg g Hg)|unfold_consts; lia..]|].
  intros b d' _ ->. by apply reads_ok_ret.
Qed.

(** What an accepted header and a record off flash have in range. *)
Lemma hdr_words d a h : is_master a -> hdr_class (pimg d a) = MASTER_OK h ->
  0 <= h_rot_gen h < 2 ^ 32 /\ 0 <= h_incompat h < 2 ^ 32 /\ 0 <= h_ro_compat h < 2 ^ 32 /\ 0 <= h_compat h < 2 ^ 32.
Proof.
  intros Hs E. destruct (pimg_ok g d a (master_peb cfg g Hg a Hs)) as [Hl Hb]. pose proof (ok_peb_size _ _ Hg).
  unfold hdr_class, classify_bytes in E. set (buf := slice 0 _ (pimg d a)) in E.
  assert (bytes_ok buf /\ len buf = 128) as [Hbo Hlo].
  { split; [by apply bytes_ok_slice|]. apply len_slice; unfold_consts; lia. }
  destruct (all_erased buf); [done|]. do 5 (destruct (negb _); [done|] || (destruct (_ || _); [done|])).
  injection E as <-. unfold dec_master_hdr. cbn [h_rot_gen h_incompat h_ro_compat h_compat].
  split_and!; apply (rd_range 4); done || lia.
Qed.

Lemma rec_words d a rg i r : is_master a -> 0 <= i < log_cap g -> rec_at g (pimg d a) rg i = Some r ->
  0 <= r_next_id_hint r < 2 ^ 64 /\ 0 <= r_seg_owner r < 2 ^ 64 /\ 0 <= r_fuses r < 2 ^ 32.
Proof.
  intros Hs Hi E. destruct (pimg_ok g d a (master_peb cfg g Hg a Hs)) as [Hl Hb]. destruct (rec_slot_bounds cfg g Hg i Hi).
  destruct (rec_size_spec cfg g Hg) as [Hr _].
  unfold rec_at, master_rec_ok in E. assert (bytes_ok (rec_slot g (pimg d a) i) /\ len (rec_slot g (pimg d a) i) = rec_size g) as [Hbo Hlo].
  { split; [by apply bytes_ok_slice|]. apply len_slice; lia. }
  destruct (_ && _); [|done]. injection E as <-. unfold dec_master_rec. cbn [r_next_id_hint r_seg_owner r_fuses].
  split_and!; [apply (rd_range 8)..|apply (rd_range 4)|apply (rd_range 4)]; done || lia.
Qed.

(** An index that knows nothing is coherent with any flash. *)
Definition idle d : Prop := sidx_wf (n_buckets g) (d_ix d) /\ forall b, 0 <= b -> blob_db_sidx_cursor b (d_ix d) = None.

Lemma idle_coherent d : idle d -> coherent d.
Proof.
  intros [Hw Hn]. split; [done|..].
  - intros bid c Hb Hc. rewrite Hn in Hc by lia. done.
  - intros id o c Hid Hl. pose proof (bucket_range cfg g Hg id). eapply lookup_needs_cursor in Hl; [|done|done]. rewrite Hn in Hl by lia. done.
Qed.

(** The slots once recovery has run, with the root bound. *)
Definition mounted_slots d (id : Z) : option (Z * bytes) :=
  match rslots cfg g d BLOB_DB_ROOT_ID with
  | Some _ => rslots cfg g d id
  | None => if decide (id = BLOB_DB_ROOT_ID) then slot_value 0 []
            else if decide (id mod n_buckets g = root_bid) then None else rslots cfg g d id
  end.

(** Recovery brings flash to what [rslots] reads. *)
Lemma recovered d d' :
  rinv cfg g d -> idle d' -> scratch d' = erased (peb_size g) \/ unsealed g d' -> (forall b, 0 <= b < n_buckets g -> bimg d' b = rimg g d b) ->
  ready d' /\ (forall id, slots d' id = rslots cfg g d id) /\ forall b, 0 <= b < n_buckets g -> bimg d' b = rimg g d b.
Proof.
  intros Hri Hid Hsc Hb. split; [|split; [|done]].
  - split; [|destruct Hsc as [Hs|]; [by apply (unsealed_erased cfg g Hg Ha)|done]].
    split; [by apply idle_coherent|]. intros bid Hbid. rewrite Hb by done. by apply Hri.
  - intros id. unfold Bucket.slots, rslots. rewrite Hb by apply (bucket_range cfg g Hg). done.
Qed.

Lemma recover_spec d :
  rinv cfg g d -> seal_aligned g d -> idle d ->
  wp (recover_compaction g) d (fun r d' => works d r d' /\ d_st d' = d_st d /\ idle d' /\
    (forall p, p < BLOB_DB_SCRATCH_SECTOR -> pimg d' p = pimg d p) /\
    match r with
    | Ok _ => ready d' /\ (forall id, slots d' id = rslots cfg g d id) /\ forall b, 0 <= b < n_buckets g -> bimg d' b = rimg g d b
    | Err _ => True
    end).
Proof.
  intros Hri Hal Hid. eapply wp_mono; [by apply (recover_compaction_spec cfg g Hg Ha)|]. cbv beta.
  intros r d' (Hw & Hst & Hix & Hr). assert (idle d') as Hid' by (unfold idle; by rewrite Hix).
  split; [done|]. split; [done|]. split; [done|].
  destruct (sealed_as g (scratch d)) as [[b il]|] eqn:Es.
  - destruct Hr as [Hoth Hr]. pose proof (sealed_bid_range cfg g Hg d b il Es) as Hb. split.
    + intros p Hp. apply Hoth; unfold_consts; lia.
    + destruct r as [[]|]; [|done]. destruct Hr as [Hbm Hsc]. apply recovered; try done; [by left|].
      intros b' Hb'. unfold rimg. rewrite Es. destruct (Z.eqb_spec b' b) as [->|]; [done|]. apply Hoth; unfold_consts; lia.
  - split; [intros p _; apply Hr|]. destruct r as [[]|]; [|done]. apply recovered; try done.
    + right. unfold unsealed, scratch, pimg. rewrite Hr. done.
    + intros b' Hb'. rewrite rimg_unsealed by done. apply Hr.
Qed.

(** [st] once the state of a sector has been adopted. *)
Definition st_adopted (a : Z) (h : blob_db_master_hdr) (n : Z) (r : blob_db_master_rec) (st : st_t) : st_t :=
  set_fuses (r_fuses r) (set_seg_owner (r_seg_owner r) (set_next_id (r_next_id_hint r) (set_next_id_hint (r_next_id_hint r)
    (set_ceiling_reset false (set_log_failed false (set_log_next n (set_rot_gen (h_rot_gen h) (set_active_master a
      (set_compat (h_compat h) (set_ro_compat (h_ro_compat h) (set_incompat (h_incompat h) st))))))))))).

Lemma accepted_feats h :
  0 <= h_incompat h -> 0 <= h_ro_compat h -> (LARGE_PAYLOADS cfg = true -> h_incompat h = BLOB_DB_FEAT_LARGE_PAYLOADS) ->
  master_accept cfg g h = Ok tt -> h_incompat h = BLOB_DB_BUILD_INCOMPAT cfg /\ h_ro_compat h = 0.
Proof.
  intros Hi Hr Hl. unfold master_accept, BLOB_DB_BUILD_INCOMPAT. destruct (LARGE_PAYLOADS cfg).
  { rewrite (Hl eq_refl). cbv zeta. change (Z.land BLOB_DB_FEAT_LARGE_PAYLOADS (Z.lnot BLOB_DB_FEAT_LARGE_PAYLOADS)) with 0.
    change (Z.lnot BLOB_DB_BUILD_RO_COMPAT) with (-1). rewrite !Z.land_0_l, Z.land_m1_r, Z.eqb_refl. cbn [negb].
    destruct (Z.eqb_spec (h_ro_compat h) 0); [done|]. done. }
  cbv zeta. change (Z.lnot 0) with (-1).
  rewrite !Z.land_m1_r. unfold BLOB_DB_LIB_INCOMPAT.
  destruct (Z.eqb_spec (Z.land (h_incompat h) (Z.lnot BLOB_DB_FEAT_LARGE_PAYLOADS)) 0) as [E1|]; [|done]. cbn [negb].
  destruct (Z.eqb_spec (Z.land (h_incompat h) BLOB_DB_FEAT_LARGE_PAYLOADS) 0) as [E2|]; [|done]. cbn [negb].
  destruct (Z.eqb_spec (h_ro_compat h) 0) as [E3|]; [|done]. intros _. split; [|done].
  apply Z.bits_inj'. intros k Hk. apply (f_equal (fun z => Z.testbit z k)) in E1, E2.
  rewrite Z.land_spec, Z.bits_0 in E1, E2. rewrite Z.lnot_spec in E1 by done. rewrite Z.bits_0.
  destruct (Z.testbit (h_incompat h) k); [|done]. by destruct (Z.testbit BLOB_DB_FEAT_LARGE_PAYLOADS k).
Qed.

Lemma adopted_inv d a h h' n r st' geo (x : I) s :
  clean_masters d a h h' n r -> (forall p, is_master p -> img s p = pimg d p) ->
  master_inv cfg g (mk_db (st_adopted a h n r st') geo x s).
Proof.
  intros Hm Hs. pose proof (cm_active _ _ _ _ _ _ Hm) as Hact. destruct (cm_log _ _ _ _ _ _ Hm) as [Hlg Hn].
  pose proof (lp_range _ _ _ Hlg) as Hrng. destruct (cm_accept _ _ _ _ _ _ Hm) as [Hacc Hacc'].
  destruct (hdr_words d a h Hact (cm_hdr _ _ _ _ _ _ Hm)) as (W1 & W2 & W3 & W4).
  destruct (rec_words d a (h_rot_gen h) (n - 1) r Hact ltac:(lia) (cm_rec _ _ _ _ _ _ Hm)) as (V1 & V2 & V3).
  destruct (accepted_feats h ltac:(lia) ltac:(lia) (cm_large _ _ _ _ _ _ Hm) Hacc) as [F1 F2].
  unfold st_adopted. split; cbn; try done.
  - exists n, (r_next_id_hint r). unfold pimg at 1. cbn. rewrite Hs by done. split_and!; [|lia|done]. split; [|done|].
    + exists h. split; [apply Hm|done].
    + replace (Z.to_nat n) with (Datatypes.S (Z.to_nat (n - 1))) by lia. cbn [newest_rec]. rewrite Z2Nat.id by lia.
      rewrite (cm_rec _ _ _ _ _ _ Hm). eauto.
  - unfold other_ok. unfold pimg. cbn. rewrite Hs by apply other_is_master. rewrite (cm_hdr' _ _ _ _ _ _ Hm).
    split; [done|]. left. apply (cm_gen _ _ _ _ _ _ Hm).
Qed.

Lemma st_merge h h' st :
  h_incompat h' = h_incompat h /\ h_ro_compat h' = h_ro_compat h /\ h_compat h' = h_compat h ->
  let merge x st := set_compat (Z.lor (compat st) (h_compat x)) (set_ro_compat (Z.lor (ro_compat st) (h_ro_compat x))
    (set_incompat (Z.lor (incompat st) (h_incompat x)) st)) in
  merge h (merge h' (set_compat 0 (set_ro_compat 0 (set_incompat 0 st)))) =
    set_compat (h_compat h) (set_ro_compat (h_ro_compat h) (set_incompat (h_incompat h) st)) /\
  merge h' (merge h (set_compat 0 (set_ro_compat 0 (set_incompat 0 st)))) =
    set_compat (h_compat h) (set_ro_compat (h_ro_compat h) (set_incompat (h_incompat h) st)).
Proof.
  intros (E1 & E2 & E3) merge. unfold merge. rewrite E1, E2, E3. destruct st; cbn. by rewrite !Z.lor_diag.
Qed.

(** The two ok headers, accepted and merged in either order. *)
Lemma accept_both_spec d a h h' n r (k : M db unit) Q :
  clean_masters d a h h' n r ->
  wp k (mk_db (set_compat (h_compat h) (set_ro_compat (h_ro_compat h) (set_incompat (h_incompat h) (d_st d))))
    (d_geo d) (d_ix d) (d_store d)) Q ->
  wp (st_mod (fun st => set_compat 0 (set_ro_compat 0 (set_incompat 0 st)));;;
      accept_master cfg g (hdr_class (pimg d 0));;; accept_master cfg g (hdr_class (pimg d 1));;; k) d Q.
Proof.
  intros Hm Hk. destruct (cm_accept _ _ _ _ _ _ Hm) as [A1 A2]. destruct (st_merge h h' (d_st d) (cm_feats _ _ _ _ _ _ Hm)) as [M1 M2].
  pose proof (cm_hdr _ _ _ _ _ _ Hm) as E1. pose proof (cm_hdr' _ _ _ _ _ _ Hm) as E2.
  destruct (cm_active _ _ _ _ _ _ Hm) as [-> | ->]; cbn [other_of Z.eqb] in E2; rewrite E1, E2; unfold accept_master; rewrite A1, A2;
    unfold mbnd, mlift, st_mod, mmod, wp; cbn [d_st d_geo d_ix d_store]; cbv zeta in M1, M2; rewrite ?M1, ?M2; exact Hk.
Qed.

Lemma no_upgrade a h h' :
  is_master a -> h_incompat h' = h_incompat h /\ h_ro_compat h' = h_ro_compat h /\ h_compat h' = h_compat h ->
  h_max_payload_len h = MAX_PAYLOAD_LEN cfg /\ h_max_payload_len h' = MAX_PAYLOAD_LEN cfg ->
  let c i := if i =? a then MASTER_OK h else MASTER_OK h' in
  features_split (c 0) (c 1) || (old_cap cfg (c 0) (c 1) <? MAX_PAYLOAD_LEN cfg) = false.
Proof.
  intros Hact (E1 & E2 & E3) [C1 C2] c. unfold c, features_split, old_cap.
  destruct Hact as [-> | ->]; rewrite Z.eqb_refl; change (1 =? 0) with false; change (0 =? 1) with false; cbv iota zeta beta;
    rewrite E1, E2, E3, C1, C2, !Z.eqb_refl; cbn [negb orb]; apply Z.ltb_ge; lia.
Qed.

Definition no_damage d : Prop := forall s, same_flash (d_store d) s ->
  blob_db_store_open_found_damage (peb_offset g BLOB_DB_MASTER_A_SECTOR) s = false /\
  blob_db_store_open_found_damage (peb_offset g BLOB_DB_MASTER_B_SECTOR) s = false.

(** What recovery reads is on flash alone. *)
Lemma rimg_same d d' b : same_flash (d_store d) (d_store d') -> rimg g d' b = rimg g d b.
Proof. intros Hs. unfold rimg, scratch, bimg, pimg. by rewrite !Hs. Qed.

Lemma rslots_same d d' id : same_flash (d_store d) (d_store d') -> rslots cfg g d' id = rslots cfg g d id.
Proof. intros Hs. unfold rslots. by rewrite (rimg_same _ _ _ Hs). Qed.

(** Adopting the sector picked: no doubt about the ceiling, recovery run. *)
Lemma mount_adopt_clean d a h h' n r :
  idle d -> clean_masters d a h h' n r -> no_damage d -> rinv cfg g d -> seal_aligned g d ->
  wp (mount_adopt g (hdr_class (pimg d 0)) (hdr_class (pimg d 1)) (a, h, mk_master_log n (n - 1) false r, false)) d (fun rc d' =>
    works d rc d' /\ d_geo d' = d_geo d /\ (forall p, is_master p -> pimg d' p = pimg d p) /\
    match rc with
    | Ok x => x = (false, false) /\ ready d' /\
        d_st d' = set_fuses (r_fuses r) (set_seg_owner (r_seg_owner r) (set_next_id (r_next_id_hint r)
          (set_next_id_hint (r_next_id_hint r) (set_ceiling_reset false (set_log_failed false (set_log_next n
            (set_rot_gen (h_rot_gen h) (set_active_master a (d_st d))))))))) /\
        (forall id, slots d' id = rslots cfg g d id) /\ forall b, 0 <= b < n_buckets g -> bimg d' b = rimg g d b
    | Err _ => True
    end).
Proof.
  intros Hid Hm Hnd Hri Hal. unfold mount_adopt. apply wp_bnd, wp_gets. cbv beta iota zeta.
  destruct (Hnd (d_store d) ltac:(done)) as [-> ->]. cbn [ml_tail_bad ml_rec ml_end orb]. apply wp_bnd, wp_mod. cbv beta iota.
  set (d1 := mk_db _ _ _ _). assert ((if a =? 0 then hdr_class (pimg d 1) else hdr_class (pimg d 0)) = MASTER_OK h') as ->.
  { pose proof (cm_hdr' _ _ _ _ _ _ Hm) as E. destruct (cm_active _ _ _ _ _ _ Hm) as [-> | ->]; exact E. }
  apply wp_bnd. eapply wp_mono; [apply wp_geo; [apply geo_recover_compaction|]; apply (recover_spec d1); [done|done|exact Hid]|].
  cbv beta. intros rc d2 ([Hge _] & Hw & Hst & Hid2 & Hlow & Hrc).
  assert (forall p, is_master p -> pimg d2 p = pimg d p) as Him.
  { intros p Hp. apply Hlow. unfold is_master in Hp. unfold_consts. lia. }
  destruct rc as [[]|e]; [|done]. apply wp_ret. destruct Hrc as (Hrd & Hct & Hbm). split; [done|]. split; [done|]. split; [done|].
  cbn [is_master_ok negb orb]. split; [done|]. split; [done|]. split; [by rewrite Hst|]. split; [intros id; by rewrite Hct|]. exact Hbm.
Qed.

Lemma clean_class d a h h' n r i : clean_masters d a h h' n r -> is_master i ->
  hdr_class (pimg d i) = if i =? a then MASTER_OK h else MASTER_OK h'.
Proof.
  intros Hm Hi. pose proof (cm_active _ _ _ _ _ _ Hm) as Hact. destruct (is_master_split a i Hact Hi) as [-> | ->].
  - rewrite Z.eqb_refl. apply Hm.
  - pose proof (other_ne a Hact). destruct (Z.eqb_spec (other_of a) a); [done|]. apply Hm.
Qed.

Definition st_picked (a : Z) (h : blob_db_master_hdr) (n : Z) (r : blob_db_master_rec) (st : st_t) : st_t :=
  set_fuses (r_fuses r) (set_seg_owner (r_seg_owner r) (set_next_id (r_next_id_hint r)
    (set_next_id_hint (r_next_id_hint r) (set_ceiling_reset false (set_log_failed false (set_log_next n
      (set_rot_gen (h_rot_gen h) (set_active_master a st)))))))).

(** [mount_body()] from the pick on. *)
Lemma mount_picked_spec d a h h' n r :
  idle d -> clean_masters d a h h' n r -> no_damage d -> rinv cfg g d -> seal_aligned g d ->
  let c0 := hdr_class (pimg d 0) in let c1 := hdr_class (pimg d 1) in
  wp ((let* doubt := mount_adopt g c0 c1 (a, h, mk_master_log n (n - 1) false r, false) in
       (if fst doubt then mount_doubt cfg g else mret tt);;;
       let* rotated := mount_upgrade cfg g c0 c1 h in
       if fst doubt && negb rotated
       then if snd doubt then master_commit_rotate cfg g else master_commit cfg g
       else mret tt);;; mount_root cfg g) d (fun rc d' =>
    works d rc d' /\ d_geo d' = d_geo d /\ (forall p, is_master p -> pimg d' p = pimg d p) /\
    match rc with
    | Ok _ => ready d' /\ d_st d' = st_picked a h n r (d_st d) /\ (forall id, slots d' id = mounted_slots d id) /\ (heads_by cfg g (rimg g d) -> heads_ok d')
    | Err _ => True
    end).
Proof.
  intros Hid Hm Hnd Hri Hal c0 c1. pose proof (cm_active _ _ _ _ _ _ Hm) as Hact.
  assert (forall i, is_master i -> hdr_class (pimg d i) = if i =? a then MASTER_OK h else MASTER_OK h') as Hcl
    by (intros i Hi; by eapply clean_class).
  apply wp_bnd, wp_bnd. eapply wp_mono; [by apply (mount_adopt_clean d a h h' n r)|]. cbv beta.
  intros rd d5 (Hw5 & Hge5 & Him5 & Hrd5). destruct rd as [x|e].
  2: { split; [intros Hd; by destruct (Hw5 Hd)|]. done. }
  destruct Hrd5 as (-> & Hrdy & Hst5 & Hct5 & Hbm5). cbn [fst snd]. apply wp_bnd, wp_ret, wp_bnd.
  assert (mount_upgrade cfg g c0 c1 h = mret false) as ->.
  { unfold mount_upgrade, c0, c1. rewrite (Hcl 0 (or_introl eq_refl)), (Hcl 1 (or_intror eq_refl)).
    rewrite (no_upgrade a h h'); [done|apply Hm|apply Hm|apply Hm]. }
  apply wp_ret. cbn [andb]. apply wp_ret. fold (st_picked a h n r (d_st d)) in Hst5.
  pose proof (cm_hint _ _ _ _ _ _ Hm) as Hh. eapply wp_mono; [apply (mount_root_spec d5 Hrdy); rewrite Hst5; exact Hh|]. cbv beta.
  intros rc d6 (Hw6 & Hst6 & Hge6 & Hlow6 & Hrc). split; [|split; [congruence|split]].
  - intros Hd. apply Hw6. by destruct (Hw5 Hd).
  - intros p Hp. rewrite Hlow6 by (unfold is_master in Hp; unfold_consts; lia). by rewrite Him5.
  - destruct rc as [[]|]; [|done]. destruct Hrc as (Hrdy6 & Hrk & Hhd). split; [done|]. split; [by rewrite Hst6|]. split.
    + intros id. unfold root_kept in Hrk. unfold mounted_slots. rewrite (Hct5 BLOB_DB_ROOT_ID) in Hrk.
      destruct (rslots cfg g d BLOB_DB_ROOT_ID); rewrite (Hrk id), Hct5; done.
    + intros Hh0. apply Hhd. eapply heads_by_ext; [exact Hbm5|exact Hh0].
Qed.

Lemma mount_body_spec d a h h' n r :
  idle d -> clean_masters d a h h' n r -> no_damage d -> rinv cfg g d -> seal_aligned g d ->
  wp (mount_body cfg g) d (fun rc d' => works d rc d' /\ d_geo d' = d_geo d /\ (forall p, is_master p -> pimg d' p = pimg d p) /\
    match rc with
    | Ok _ => ready d' /\ d_st d' = st_adopted a h n r (d_st d) /\ (forall id, slots d' id = mounted_slots d id) /\ (heads_by cfg g (rimg g d) -> heads_ok d')
    | Err _ => True
    end).
Proof.
  intros Hid Hm Hnd Hri Hal. unfold mount_body. apply wp_bnd.
  eapply wp_mono; [apply (master_classify_spec d 0); by left|]. cbv beta. intros r0 d1 [Hr1 Hq].
  assert (forall d' e, ro d d' -> ~ healthy (d_store d) -> works d (@Err unit e) d' /\ d_geo d' = d_geo d /\
    (forall p, is_master p -> pimg d' p = pimg d p) /\ True) as Herr.
  { intros d' e Hr Hnh. split; [intros Hd; by destruct Hnh|]. split; [apply Hr|]. split; [|done]. intros p _. apply (ro_flash _ _ Hr). }
  destruct r0 as [c0|e]; [subst c0|destruct Hq; by apply Herr]. apply wp_bnd.
  eapply wp_mono; [apply (master_classify_spec d1 1); by right|]. cbv beta. intros r1 d2 [Hr2 Hq].
  pose proof (transitivity Hr1 Hr2) as Hr12.
  destruct r1 as [c1|e]; [subst c1|destruct Hq as [Hnh ?]; apply Herr; [done|]; intros Hd; apply Hnh, (ro_healthy _ _ Hr1), Hd].
  rewrite (ro_pimg _ _ 1 Hr1). rewrite <- (ro_pimg _ _ 0 Hr12), <- (ro_pimg _ _ 1 Hr12).
  pose proof (clean_ro d d2 a h h' n r ltac:(intros p _; apply (ro_pimg _ _ p Hr12)) Hm) as Hm2.
  assert (forall i, is_master i -> hdr_class (pimg d2 i) = if i =? a then MASTER_OK h else MASTER_OK h') as Hcl
    by (intros i Hi; by eapply clean_class).
  assert (exists h0 h1, hdr_class (pimg d2 0) = MASTER_OK h0 /\ hdr_class (pimg d2 1) = MASTER_OK h1) as (h0 & h1 & E0 & E1).
  { rewrite (Hcl 0 (or_introl eq_refl)), (Hcl 1 (or_intror eq_refl)). destruct (0 =? a), (1 =? a); by do 2 eexists. }
  rewrite E0, E1 at 1. cbv iota. clear h0 h1 E0 E1. apply (accept_both_spec d2 a h h' n r _ _ Hm2). set (d3 := mk_db _ _ _ _).
  assert (clean_masters d3 a h h' n r) as Hm3 by (by apply (clean_ro d2)). apply wp_bnd.
  eapply wp_mono; [apply (pick_clean d3 a h h' n r Hm3)|]. cbv beta. intros rp d4 [Hr4 Hq].
  assert (same_flash (d_store d) (d_store d4)) as Hsf.
  { intros p. rewrite (ro_flash _ _ Hr4). apply (ro_flash _ _ Hr12). }
  assert (forall p, pimg d4 p = pimg d p) as Him4 by (intros p; apply Hsf).
  assert (d_geo d4 = d_geo d) as Hge4 by (rewrite (ro_geo _ _ Hr4); apply Hr12).
  assert (healthy (d_store d) -> healthy (d_store d4)) as Hh4 by (intros Hd; apply (ro_healthy _ _ Hr4), (ro_healthy _ _ Hr12), Hd).
  destruct rp as [p|e].
  2: { destruct Hq as [Hnh _]. split; [intros Hd; destruct Hnh; by apply (ro_healthy _ _ Hr12)|]. done. }
  subst p. assert (pimg d2 0 = pimg d4 0) as -> by (rewrite Him4; apply (ro_pimg _ _ 0 Hr12)).
  assert (pimg d2 1 = pimg d4 1) as -> by (rewrite Him4; apply (ro_pimg _ _ 1 Hr12)).
  assert (idle d4) as Hid4. { unfold idle. rewrite (ro_ix _ _ Hr4). cbn [d3 d_ix]. rewrite (ro_ix _ _ Hr12). exact Hid. }
  assert (clean_masters d4 a h h' n r) as Hm4 by (apply (clean_ro d); auto).
  assert (no_damage d4) as Hnd4. { intros s Hs. apply Hnd. intros p. by rewrite Hs. }
  assert (rinv cfg g d4) as Hri4. { intros bid Hb. rewrite (rimg_same _ _ _ Hsf). by apply Hri. }
  assert (seal_aligned g d4) as Hal4. { unfold seal_aligned, scratch. by rewrite Him4. }
  eapply wp_mono; [by apply (mount_picked_spec d4 a h h' n r)|]. cbv beta. intros rc d5 (Hw & Hge & Him & Hrc).
  split; [intros Hd; by apply Hw, Hh4|]. split; [congruence|]. split; [intros p Hp; by rewrite Him|].
  destruct rc as [[]|]; [|done]. destruct Hrc as (Hrdy & Hst & Hct & Hhd). split; [done|]. split; [|split].
  - rewrite Hst, (ro_st _ _ Hr4). cbn [d3 d_st]. by rewrite (ro_st _ _ Hr12).
  - intros id. rewrite Hct. unfold mounted_slots. by rewrite !(rslots_same _ _ _ Hsf).
  - intros Hh0. apply Hhd. eapply heads_by_ext; [|exact Hh0]. intros b _. apply (rimg_same _ _ _ Hsf).
Qed.

(** ** [mount_impl()] *)

Definition opens : Prop := open_err cfg (store_geom_of g) = None /\ open_geom cfg (store_geom_of g) = g.

Lemma ready_st d st' : ready d -> ready (mk_db st' (d_geo d) (d_ix d) (d_store d)).
Proof. intros [[[? ? ?] ?] ?]. split; [|done]. split; [by split|done]. Qed.

Lemma idle_reset d m : sidx_wf m (d_ix d) -> idle (mk_db (d_st d) (d_geo d) (blob_db_sidx_reset (n_buckets g) (d_ix d)) (d_store d)).
Proof.
  intros Hw. pose proof (ok_pebs _ _ Hg). pose proof (ok_buckets _ _ Hg). unfold_consts. split; cbn.
  - eapply reset_wf; [done|lia].
  - intros b Hb. eapply reset_cursor; [done|lia|done].
Qed.

Lemma inv_mounted b st geo (x : I) s : master_inv cfg g (mk_db st geo x s) -> master_inv cfg g (mk_db (set_mounted b st) geo x s).
Proof. intros []. by split. Qed.

(** What a call on a closed store does when it can be opened. *)
Definition boots {A} d (r : res A) d' : Prop := bootable (d_store d) -> is_ok r = true /\ healthy (d_store d').

Lemma mount_impl_spec d m a h h' n r :
  opens -> mounted (d_st d) = false -> sidx_wf m (d_ix d) -> clean_masters d a h h' n r -> no_damage d -> rinv cfg g d -> seal_aligned g d ->
  wp (mount_impl cfg) d (fun rc d' => boots d rc d' /\ (forall p, is_master p -> pimg d' p = pimg d p) /\
    match rc with
    | Ok _ => ready d' /\ master_inv cfg g d' /\ d_geo d' = g /\
        d_st d' = set_mounted true (st_adopted a h n r (set_wedged false (d_st d))) /\ (forall id, slots d' id = mounted_slots d id) /\
        (heads_by cfg g (rimg g d) -> heads_ok d')
    | Err _ => mounted (d_st d') = false
    end).
Proof.
  intros [Ho1 Ho2] Hm Hwf Hcm Hnd Hri Hal. unfold mount_impl. apply wp_bnd, wp_gets. rewrite Hm. apply wp_bnd, wp_mod. cbv beta iota.
  apply wp_bnd. eapply wp_mono; [apply (store_open_spec cfg (store_geom_of g))|]. cbv beta. intros ro d1 (Hst & Hix & Hfl & Hq).
  cbn [d_st d_ix d_store] in Hst, Hix, Hfl, Hq. specialize (Hfl eq_refl).
  destruct ro as [[]|e].
  2: { split; [intros Hd; destruct Hq as [[? _]|[? _]]; [congruence|done]|]. split; [intros p _; apply Hfl|]. by rewrite Hst. }
  destruct Hq as (Hh & _ & Hge). rewrite Ho2 in Hge. apply wp_bnd, wp_gets, wp_bnd, wp_mod. cbv beta iota. rewrite Hge.
  set (d2 := mk_db _ _ _ _). assert (same_flash (d_store d) (d_store d2)) as Hsf by exact Hfl.
  assert (idle d2) as Hid by (apply (idle_reset d1 m); by rewrite Hix).
  assert (clean_masters d2 a h h' n r) as Hcm2 by (apply (clean_ro d); [intros p _; apply Hsf|done]).
  apply wp_bnd, wp_try. eapply wp_mono; [apply wp_geo; [apply geo_mount_body|]; apply (mount_body_spec d2 a h h' n r Hid Hcm2)|].
  - intros s Hs. apply Hnd. intros p. by rewrite Hs.
  - intros bid Hb. rewrite (rimg_same _ _ _ Hsf). by apply Hri.
  - unfold seal_aligned, scratch, pimg. rewrite Hsf. exact Hal.
  - cbv beta. intros rc d3 ([_ Hmt] & Hw & Hge3 & Him & Hrc). cbn [d2 d_st] in Hmt.
    assert (forall p, is_master p -> pimg d3 p = pimg d p) as Him' by (intros p Hp; rewrite Him by done; apply Hsf).
    destruct rc as [[]|e].
    + apply wp_mod. destruct Hrc as (Hrd & Hst3 & Hct & Hhd). split; [intros Hd; by apply Hw, Hh|].
      split; [done|]. split; [by apply ready_st|]. split; [|split; [|split; [|split]]].
      * apply inv_mounted. rewrite Hst3. by apply (adopted_inv d a h h').
      * cbn [d_geo]. rewrite Hge3. done.
      * cbn [d_st]. rewrite Hst3. cbn [d2 d_st]. by rewrite Hst.
      * intros id. change (slots _ id) with (slots d3 id) at 1. rewrite Hct. unfold mounted_slots. by rewrite !(rslots_same _ _ _ Hsf).
      * intros Hh0. apply Hhd. eapply heads_by_ext; [|exact Hh0]. intros b _. apply (rimg_same _ _ _ Hsf).
    + apply wp_bnd, wp_mod, wp_bnd, wp_mod, wp_fail. cbn [d_st d_store].
      destruct (close_law (StoreLaws := SL) (d_store d3)) as [Hcl _].
      split; [intros Hd; by destruct (Hw (Hh Hd))|]. split.
      * intros p Hp. unfold pimg. cbn [d_store]. rewrite Hcl. by apply Him'.
      * by rewrite Hmt, Hst.
Qed.
End mount.

(** Formatting: what [blob_db_format()] leaves is an empty store with an empty
    root, that the next mount accepts without doubt. *)

Section format.
Context (cfg : config) (g : geom) `{Crc}.
Context {S I : Type} `{!Store S} `{!StoreView S} `{!SlotIndex I}.
Context (Hg : geom_ok cfg g) (Ha : geom_aligned g) {SL : StoreLaws S (store_geom_of g)} {CL : CrcLaws _}.
Context (sidx_wf : Z -> I -> Prop) {IL : SlotIndexLaws I sidx_wf}.
Notation db := (db S I).
Notation ready := (ready cfg g sidx_wf).
Notation slots := (slots cfg g).
Notation idle := (idle g sidx_wf).
Implicit Types d : db.

(** What [master_format()] sets before it writes, and after. *)
Definition st_blank (st : st_t) : st_t :=
  set_ceiling_reset false (set_compat 0 (set_ro_compat BLOB_DB_BUILD_RO_COMPAT (set_incompat (BLOB_DB_BUILD_INCOMPAT cfg)
    (set_fuses 0 (set_seg_owner 0 (set_next_id 2 st)))))).

Definition fresh_rec : blob_db_master_rec := mk_master_rec 0 0 259 0 0 0 0 0 0.

Definition st_fresh (st : st_t) : st_t :=
  set_next_id_hint 259 (set_log_failed false (set_log_next 1 (set_rot_gen 2 (set_active_master BLOB_DB_MASTER_A_SECTOR (st_blank st))))).

Lemma fresh_fits : rec_fits fresh_rec.
Proof. unfold rec_fits, fresh_rec. cbn. lia. Qed.

Lemma feats_blank st : feats_ok (st_blank st) /\ incompat (st_blank st) = BLOB_DB_BUILD_INCOMPAT cfg /\ ro_compat (st_blank st) = 0.
Proof. unfold feats_ok, st_blank, BLOB_DB_BUILD_INCOMPAT. cbn. destruct (LARGE_PAYLOADS cfg); split_and!; done || lia. Qed.

Lemma master_format_spec d :
  wp (master_format cfg g) d (fun r d' => works d r d' /\ d_ix d' = d_ix d /\ (forall p, ~ is_master p -> pimg d' p = pimg d p) /\
    match r with
    | Ok _ => d_st d' = st_fresh (d_st d) /\ pimg d' 0 = sector_block cfg g (st_blank (d_st d)) 2 fresh_rec /\
        pimg d' 1 = sector_block cfg g (st_blank (d_st d)) 1 fresh_rec
    | Err e => device_err e
    end).
Proof.
  unfold master_format. apply wp_bnd, wp_mod, wp_bnd, wp_gets, wp_bnd, wp_mod. cbn [d_st d_geo d_ix d_store].
  change (master_rec_fill _) with fresh_rec.
  change (set_ceiling_reset false _) with (st_blank (d_st d)). apply wp_bnd.
  eapply wp_mono; [apply (sector_write_spec cfg g Hg _ _ 1 fresh_rec ltac:(by right) fresh_fits)|]. cbv beta. cbn [d_st].
  intros r1 d1 (Hw1 & b1 & Ho1 & Hb1).
  assert (forall p, ~ is_master p -> pimg d1 p = pimg d p) as Hn1.
  { intros p Hp. apply (op_other _ _ _ _ Ho1). intros ->. apply Hp. by right. }
  destruct r1 as [[]|e]; [|split_and!; try done; apply (op_ix _ _ _ _ Ho1)]. apply wp_bnd.
  eapply wp_mono; [apply (sector_write_spec cfg g Hg d1 _ 2 fresh_rec ltac:(by left) fresh_fits)|]. cbv beta.
  intros r2 d2 (Hw2 & b2 & Ho2 & Hb2). rewrite (op_st _ _ _ _ Ho1) in Hb2. cbn [d_st] in Hb2.
  assert (works d r2 d2) as Hw by (intros Hd; apply Hw2; by destruct (Hw1 Hd)).
  assert (d_ix d2 = d_ix d) as Hix by (rewrite (op_ix _ _ _ _ Ho2); apply (op_ix _ _ _ _ Ho1)).
  assert (forall p, ~ is_master p -> pimg d2 p = pimg d p) as Hn2.
  { intros p Hp. rewrite <- Hn1 by done. apply (op_other _ _ _ _ Ho2). intros ->. apply Hp. by left. }
  destruct r2 as [[]|e]; [|done]. apply wp_mod. split; [done|]. split; [done|]. split; [done|].
  cbn [d_st]. rewrite (op_st _ _ _ _ Ho2), (op_st _ _ _ _ Ho1). split; [done|]. subst b1 b2. split.
  - apply (op_img _ _ _ _ Ho2).
  - change (pimg d2 1 = sector_block cfg g (st_blank (d_st d)) 1 fresh_rec). rewrite (op_other _ _ _ _ Ho2) by done. apply (op_img _ _ _ _ Ho1).
Qed.

(** The masters [master_format()] leaves are clean. *)
Definition fresh_masters d : Prop := exists h h' r, clean_masters cfg g d 0 h h' 1 r /\ r_next_id_hint r = 259 /\
  r_seg_owner r = 0 /\ r_fuses r = 0.

Lemma fresh_clean d st :
  pimg d 0 = sector_block cfg g (st_blank st) 2 fresh_rec -> pimg d 1 = sector_block cfg g (st_blank st) 1 fresh_rec -> fresh_masters d.
Proof.
  intros E0 E1. destruct (feats_blank st) as (F1 & F2 & F3).
  destruct (sector_block_spec cfg g Hg (st_blank st) 2 fresh_rec ltac:(lia) F1 fresh_fits) as (H0 & L0 & R0).
  destruct (sector_block_spec cfg g Hg (st_blank st) 1 fresh_rec ltac:(lia) F1 fresh_fits) as (H1 & L1 & R1).
  eexists _, _, _. split; [|split; [|split]].
  - split; cbn [other_of Z.eqb]; rewrite ?E0, ?E1.
    + by left.
    + exact H0.
    + exact H1.
    + split; by apply accept_hdr_of.
    + cbn. lia.
    + done.
    + done.
    + split; [exact L0|lia].
    + exact R0.
    + cbn. lia.
    + intros El. cbn. unfold st_blank, BLOB_DB_BUILD_INCOMPAT. cbn. by rewrite El.
  - done.
  - done.
  - done.
Qed.

Lemma fresh_inv d st :
  pimg d 0 = sector_block cfg g (st_blank st) 2 fresh_rec -> pimg d 1 = sector_block cfg g (st_blank st) 1 fresh_rec ->
  d_st d = st_fresh st -> master_inv cfg g d.
Proof.
  intros E0 E1 Es. destruct (feats_blank st) as (F1 & F2 & F3). pose proof (log_cap_small cfg g Hg).
  pose proof (sector_block_ok cfg g Hg (st_blank st) 2 fresh_rec ltac:(lia) F1 fresh_fits F2 F3) as S0.
  split; rewrite ?Es; cbn; try lia; try done.
  - by left.
  - exists 1, 259. unfold BLOB_DB_MASTER_A_SECTOR. rewrite E0. split; [exact S0|done].
  - unfold other_ok. cbn. rewrite E1.
    destruct (sector_block_spec cfg g Hg (st_blank st) 1 fresh_rec ltac:(lia) F1 fresh_fits) as (-> & _ & _).
    split; [by apply accept_hdr_of|]. left. cbn. lia.
Qed.

Lemma fresh_tidy d st :
  pimg d 0 = sector_block cfg g (st_blank st) 2 fresh_rec -> pimg d 1 = sector_block cfg g (st_blank st) 1 fresh_rec ->
  d_st d = st_fresh st -> hdrs_clean cfg g d /\ last_ok g d.
Proof.
  intros E0 E1 Es. destruct (feats_blank st) as (F1 & F2 & F3).
  destruct (sector_block_spec cfg g Hg (st_blank st) 2 fresh_rec ltac:(lia) F1 fresh_fits) as (H0 & L0 & R0).
  destruct (sector_block_spec cfg g Hg (st_blank st) 1 fresh_rec ltac:(lia) F1 fresh_fits) as (H1 & _ & _).
  rewrite <- E0 in H0, L0, R0. rewrite <- E1 in H1. unfold hdrs_clean, last_ok. rewrite Es. split; [split|].
  - intros i [-> | ->]; eexists; (split; [done|]); (split; [by apply accept_hdr_of|done]).
  - exists (master_hdr_of cfg g (st_blank st) 1). split; [exact H1|cbn; lia].
  - cbn. split_and!; [done|lia|exact L0|]. eexists. split; [exact R0|done].
Qed.

(** ** Erasing and starting over *)

Lemma hdr_valid_erased b : bucket_hdr_valid (erased (peb_size g)) b = false.
Proof.
  pose proof (ok_peb_size _ _ Hg). unfold bucket_hdr_valid, dec_bucket_hdr. cbv zeta. cbn [bh_magic].
  rewrite slice_erased by lia. done.
Qed.

(** The contents of a store that holds only the empty root. *)
Definition only_root (id : Z) : option bytes := if decide (id = BLOB_DB_ROOT_ID) then Some [] else None.
Definition only_root_slot (id : Z) : option (Z * bytes) := if decide (id = BLOB_DB_ROOT_ID) then slot_value 0 [] else None.

Lemma root_reset_only d d' : root_reset cfg g d d' -> (forall id, slots d id = None) -> forall id, slots d' id = only_root_slot id.
Proof.
  intros Hr Hn id. rewrite (Hr id). unfold only_root_slot. repeat case_decide; done || by rewrite Hn.
Qed.

Lemma only_root_contents d : (forall id, slots d id = only_root_slot id) -> forall id, contents cfg g d id = only_root id.
Proof. intros Hs id. unfold contents, only_root. rewrite Hs. unfold only_root_slot. by case_decide. Qed.

Lemma erased_slots d :
  (forall b, 0 <= b < n_buckets g -> bimg d b = erased (peb_size g)) -> forall id, slots d id = None.
Proof. intros Hb id. apply slots_unformatted. rewrite Hb by apply (bucket_range cfg g Hg). apply hdr_valid_erased. Qed.

Lemma format_whole_store_spec d m :
  sidx_wf m (d_ix d) ->
  wp (format_whole_store cfg g) d (fun r d' => works d r d' /\
    match r with
    | Ok _ => ready d' /\ master_inv cfg g d' /\ fresh_masters d' /\ (hdrs_clean cfg g d' /\ last_ok g d') /\ d_st d' = st_fresh (set_wedged false (d_st d)) /\
        (forall id, slots d' id = only_root_slot id) /\ heads_by cfg g (bimg d')
    | Err e => device_err e
    end).
Proof.
  intros Hwf. unfold format_whole_store. apply wp_bnd, wp_mod, wp_bnd, wp_mod. cbn [d_st d_geo d_ix d_store]. apply wp_bnd.
  set (d1 := mk_db _ _ _ _). pose proof (erase_all_law (StoreLaws := SL) (d_store d)) as He. cbn [sg_n_pebs sg_peb_size store_geom_of] in He.
  rewrite <- (ok_fa_size _ _ Hg) in He. unfold io at 1, wp at 1. unfold wp in He. cbn [d1 d_store].
  destruct (blob_db_store_erase 0 (fa_size g) (d_store d)) as [re s]. destruct He as [Hh1 He]. destruct re as [[]|e].
  2: { split; [intros Hd; by destruct (Hh1 Hd)|done]. }
  set (d2 := mk_db _ _ _ _). assert (forall p, 0 <= p < n_pebs g -> pimg d2 p = erased (peb_size g)) as Hp2 by exact He.
  assert (idle d2) as Hid by (apply (idle_reset cfg g Hg sidx_wf d m Hwf)).
  apply wp_bnd. eapply wp_mono; [apply (master_format_spec d2)|]. cbv beta. intros rm d3 (Hw3 & Hix3 & Hp3 & Hr3).
  destruct rm as [[]|e].
  2: { split; [intros Hd; destruct (Hh1 Hd) as [_ Hs]; by destruct (Hw3 Hs)|done]. }
  destruct Hr3 as (Hst3 & E0 & E1). assert (idle d3) as Hid3 by (unfold MountSpec.idle; by rewrite Hix3).
  assert (forall p, BLOB_DB_SCRATCH_SECTOR <= p < n_pebs g -> pimg d3 p = erased (peb_size g)) as Hp3'.
  { intros p Hp. unfold_consts. rewrite Hp3 by (unfold is_master; lia). apply Hp2. lia. }
  pose proof (ok_pebs _ _ Hg) as [Hnp _]. pose proof (ok_buckets _ _ Hg). unfold_consts.
  assert (forall b, 0 <= b < n_buckets g -> bimg d3 b = erased (peb_size g)) as Hb3 by (intros b Hb; apply Hp3'; unfold_consts; lia).
  eapply wp_mono; [apply (bind_root_spec cfg g Hg Ha sidx_wf d3)|].
  - by apply (idle_coherent cfg g Hg).
  - apply (unsealed_erased cfg g Hg Ha). apply Hp3'. unfold_consts. lia.
  - intros bid Hb _ Hv. rewrite Hb3, hdr_valid_erased in Hv by done. done.
  - cbv beta. intros r d4 (Hw4 & Hst4 & Hge4 & Hlow4 & Hr4).
    split; [intros Hd; destruct (Hh1 Hd) as [_ Hs]; destruct (Hw3 Hs) as [_ Hs3]; by apply Hw4|].
    destruct r as [[]|e]; [|done]. destruct Hr4 as (Hrd & Hrr & Hhd).
    rewrite <- (Hlow4 0) in E0 by (unfold_consts; lia). rewrite <- (Hlow4 1) in E1 by (unfold_consts; lia).
    split; [done|]. split; [apply (fresh_inv d4 (set_wedged false (d_st d))); [done|done|by rewrite Hst4]|].
    split; [by eapply fresh_clean|]. split; [apply (fresh_tidy d4 (set_wedged false (d_st d))); [done|done|by rewrite Hst4]|].
    split; [by rewrite Hst4|].
    split; [apply (root_reset_only d3); [done|]; by apply erased_slots|]. apply Hhd. intros b e Hb Hv. by rewrite Hb3, hdr_valid_erased in Hv.
Qed.
End format.
