(* ===== verification/Session.v ===== *)
(** A mounted store on a device that works, driven through its public calls: an
    abstract object store, and the proof that every sequence of calls, remounts
    included, is one of its runs. *)

From S2P Require Import Prelude Layout Store SlotIndexIface Image Core CoreRead Lookup Append Bucket Compact.
From S2P Require Import CompactImage Recovery CompactSpec Ops OpsRead OpsWrite Master Mount MasterSpec MasterInv.
From S2P Require Import MountSpec.

(** ** The abstract store *)

(** Objects by id, and the next id to hand out. *)
Record obj_store := mk_obj_store {
  os_objects : Z -> option bytes;
  os_next : Z;
}.

Inductive op :=
  | OpAlloc
  | OpGet (id sz : Z)
  | OpUpdate (id : Z) (p : bytes)
  | OpDelete (id : Z)
  | OpExists (id : Z)
  | OpSize (id : Z)
  | OpRead (id off n : Z)
  | OpWrite (id off : Z) (b : bytes)
  | OpCount
  | OpRemount.

Inductive reply :=
  | RpId (id : Z)
  | RpBytes (r : res bytes)
  | RpRc (r : res unit)
  | RpBool (b : bool)
  | RpLen (r : res Z)
  | RpCount (n : Z).

(** The contract of the caller: C types, and the root is never deleted. *)
Definition op_ok (o : op) : Prop :=
  match o with
  | OpAlloc | OpCount | OpRemount => True
  | OpGet id sz => 0 <= id < 2 ^ 64
  | OpUpdate id p => 0 <= id < 2 ^ 64 /\ bytes_ok p
  | OpDelete id => 0 <= id < 2 ^ 64 /\ id <> BLOB_DB_ROOT_ID
  | OpExists id | OpSize id => 0 <= id < 2 ^ 64
  | OpRead id off n => 0 <= id < 2 ^ 64 /\ 0 <= off /\ 0 <= n
  | OpWrite id off b => 0 <= id < 2 ^ 64 /\ 0 <= off < 2 ^ 32 /\ len b < 2 ^ 32 /\ bytes_ok b
  end.

Definition same_objects (s s' : obj_store) : Prop := forall id, os_objects s' id = os_objects s id.
Definition unchanged (s s' : obj_store) : Prop := os_next s' = os_next s /\ same_objects s s'.

Definition bound (s s' : obj_store) (id : Z) (v : option bytes) : Prop :=
  os_next s' = os_next s /\ forall id', os_objects s' id' = if decide (id' = id) then v else os_objects s id'.

(** A mutation is performed, or refused because the object's bucket is full. *)
Definition mutated (r : reply) (s s' : obj_store) (id : Z) (v : option bytes) (n : Z) (full_for : Z -> Z -> Prop) : Prop :=
  (r = RpRc (Ok tt) /\ bound s s' id v) \/ (r = RpRc (Err ENOSPC) /\ unchanged s s' /\ full_for id n).

Section abstract.
Context (cfg : config).

(** One call: [full_for id n] says the bucket of [id] cannot take a payload of
    [n] bytes. *)
Definition obj_step (full_for : Z -> Z -> Prop) (o : op) (r : reply) (s s' : obj_store) : Prop :=
  match o with
  | OpAlloc => r = RpId (os_next s) /\ os_next s' = os_next s + 1 /\ same_objects s s'
  | OpGet id sz => unchanged s s' /\ r = RpBytes (match os_objects s id with
      | Some p => if sz <? len p then Err ENOMEM else Ok p
      | None => Err ENOENT end)
  | OpUpdate id p =>
      if (id =? 0) || (id >=? os_next s) || (len p >? MAX_PAYLOAD_LEN cfg)
      then r = RpRc (Err EINVAL) /\ unchanged s s'
      else mutated r s s' id (Some p) (len p) full_for
  | OpDelete id =>
      match os_objects s id with
      | None => r = RpRc (Err ENOENT) /\ unchanged s s'
      | Some _ => mutated r s s' id None 0 full_for
      end
  | OpExists id => unchanged s s' /\ r = RpBool (match os_objects s id with Some _ => true | None => false end)
  | OpSize id => unchanged s s' /\ r = RpLen (match os_objects s id with Some p => Ok (len p) | None => Err ENOENT end)
  | OpRead id off n => unchanged s s' /\
      r = RpBytes (match os_objects s id with Some p => Ok (slice off n p) | None => Err ENOENT end)
  | OpWrite id off b =>
      if negb (id =? 0) && (off + len b >=? 2 ^ 32) then r = RpRc (Err EINVAL) /\ unchanged s s'
      else
        match os_objects s id with
        | None => r = RpRc (Err ENOENT) /\ unchanged s s'
        | Some p =>
            if len b =? 0 then r = RpRc (Ok tt) /\ unchanged s s'
            else if off + len b >? MAX_PAYLOAD_LEN cfg then r = RpRc (Err EFBIG) /\ unchanged s s'
            else mutated r s s' id (Some (patched off b p)) (len (patched off b p)) full_for
        end
  | OpCount => unchanged s s' /\ exists ids, NoDup ids /\ (forall id, id ∈ ids <-> os_objects s id <> None) /\ r = RpCount (u32 (len ids))
  | OpRemount => r = RpRc (Ok tt) /\ os_next s <= os_next s' /\ same_objects s s'
  end.
End abstract.

Section session.
Context (cfg : config) (g : geom) `{Crc}.
Context {S I : Type} `{!Store S} `{!StoreView S} `{!SlotIndex I}.
Context (Hg : geom_ok cfg g) (Ha : geom_aligned g) {SL : StoreLaws S (store_geom_of g)} {CL : CrcLaws _}.
Context (sidx_wf : Z -> I -> Prop) {IL : SlotIndexLaws I sidx_wf}.
Context (Hlp : LARGE_PAYLOADS cfg = false).
Notation db := (db S I).
Notation ready := (ready cfg g sidx_wf).
Notation coherent := (coherent cfg g sidx_wf).
Notation contents := (contents cfg g).
Implicit Types d : db.

(** The public call of an operation. *)
Definition rc_reply {A} (f : res A -> reply) (m : M db A) : db -> reply * db := fun d => let (r, d') := m d in (f r, d').

Definition exec (o : op) : db -> reply * db :=
  match o with
  | OpAlloc => rc_reply (fun r => RpId (match r with Ok id => id | Err _ => 0 end)) (blob_db_alloc_id cfg)
  | OpGet id sz => rc_reply RpBytes (blob_db_get cfg id false sz)
  | OpUpdate id p => rc_reply RpRc (blob_db_update cfg id (Some p))
  | OpDelete id => rc_reply RpRc (blob_db_delete cfg id)
  | OpExists id => rc_reply (fun r => RpBool (match r with Ok b => b | Err _ => false end)) (blob_db_exists cfg id)
  | OpSize id => rc_reply RpLen (blob_db_size cfg id false)
  | OpRead id off n => rc_reply RpBytes (blob_db_read cfg id off false n)
  | OpWrite id off b => rc_reply RpRc (blob_db_write cfg id off (Some b))
  | OpCount => rc_reply (fun r => RpCount (match r with Ok n => n | Err _ => 0 end)) (blob_db_count cfg)
  | OpRemount => rc_reply RpRc (blob_db_unmount;;; blob_db_mount cfg)
  end.

(** A mounted store with nothing left to repair. *)
Record live d : Prop := {
  lv_ready : ready d;
  lv_master : master_inv cfg g d;
  lv_hdrs : hdrs_clean cfg g d;
  lv_last : last_ok g d;
  lv_mounted : mounted (d_st d) = true;
  lv_usable : wedged (d_st d) = false;
  lv_geo : d_geo d = g;
  lv_next : 2 <= next_id (d_st d) <= next_id_hint (d_st d);
  lv_ceiling : next_id_hint (d_st d) <= next_id (d_st d) + 257;
  lv_root : contents d BLOB_DB_ROOT_ID <> None;
}.

(** The same on a device that works. *)
Record session d : Prop := { se_live : live d; se_healthy : healthy (d_store d) }.

(** Room for [k] more calls in the two counters that only grow: no id wraps and
    no rotation generation runs out. *)
Definition room d (k : Z) : Prop := next_id (d_st d) + 257 * k < 2 ^ 64 - 257 /\ rot_gen (d_st d) + k < UINT32_MAX.

(** What one call leaves: a session, with the counters in step. *)
Definition goes_on d d' : Prop :=
  session d' /\ next_id (d_st d') <= next_id (d_st d) + 257 /\ rot_gen (d_st d') <= rot_gen (d_st d) + 1 /\
  (next_id (d_st d') = next_id (d_st d) -> rot_gen (d_st d') = rot_gen (d_st d)).

Definition abs d : obj_store := mk_obj_store (contents d) (next_id (d_st d)).
Definition full_in d (id n : Z) : Prop := full cfg g d id n.

(** ** Carrying a session along *)

Lemma contents_pos d id p : db_inv cfg g sidx_wf d -> contents d id = Some p -> 0 < id < 2 ^ 64.
Proof.
  intros Hi Hc. pose proof (bucket_range cfg g Hg id) as Hb. pose proof (ok_buckets _ _ Hg).
  destruct (objects_from_complete cfg g d (Z.to_nat (n_buckets g)) 0 id p) as (e & He & <- & _); [done|lia..|done|].
  by destruct (objects_from_elem cfg g sidx_wf d (Z.to_nat (n_buckets g)) 0 e Hi ltac:(lia) ltac:(lia) He) as (_ & ? & _).
Qed.

Lemma contents_zero d : db_inv cfg g sidx_wf d -> contents d 0 = None.
Proof. intros Hi. destruct (contents d 0) eqn:E; [|done]. apply contents_pos in E; [lia|done]. Qed.

(** What a call must leave alone for the master half of a session to carry over. *)
Lemma masters_kept d d' :
  (forall p, is_master p -> pimg d' p = pimg d p) -> d_st d' = d_st d ->
  master_inv cfg g d -> hdrs_clean cfg g d -> last_ok g d -> master_inv cfg g d' /\ hdrs_clean cfg g d' /\ last_ok g d'.
Proof.
  intros Hf Hs Hi [Hc Ho] Hl. split; [by apply (inv_only_st cfg g d)|]. split.
  - split; [intros i Hp|]; rewrite Hs, Hf; auto using other_is_master.
  - unfold last_ok in *. rewrite Hs, Hf by apply Hi. done.
Qed.

Lemma session_kept d d' :
  ready d' -> d_st d' = d_st d -> d_geo d' = d_geo d -> (forall p, is_master p -> pimg d' p = pimg d p) -> healthy (d_store d') ->
  contents d' BLOB_DB_ROOT_ID <> None -> session d -> goes_on d d'.
Proof.
  intros Hr Hs Hge Hf Hh Hrt Se. destruct (masters_kept d d' Hf Hs) as (Hi & Hc & Hl); [apply Se..|].
  split; [|rewrite Hs; lia]. split; [|done]. split; rewrite ?Hs, ?Hge; try done; apply Se.
Qed.

Lemma session_roi d d' : roi d d' -> coherent d' -> session d -> goes_on d d'.
Proof.
  intros Hr Hc Se. apply (session_kept d); try apply Hr; try apply Se; try done.
  - by apply (ready_roi cfg g sidx_wf d), Se.
  - intros p _. apply (roi_flash _ _ Hr).
  - rewrite (contents_roi cfg g _ _ _ Hr). apply Se.
Qed.

Lemma ready_masters d d' : only_masters d d' -> ready d -> ready d'.
Proof.
  intros Ho [[Hc Hb] Hu]. assert (forall b, 0 <= b -> bimg d' b = bimg d b) as Hbm.
  { intros b Hb0. apply (om_img _ _ Ho). unfold is_master. unfold_consts. lia. }
  pose proof (bucket_range cfg g Hg) as Hbr. split; [split|].
  - destruct Hc as [Hw Hc Hl]. split; rewrite ?(om_ix _ _ Ho); [done|intros; rewrite Hbm by lia; auto|].
    intros id o c Hid. rewrite Hbm by apply Hbr. eauto.
  - intros bid Hbid. rewrite Hbm by lia. auto.
  - unfold unsealed, scratch. rewrite (om_img _ _ Ho); [done|]. unfold is_master. unfold_consts. lia.
Qed.

Lemma slots_masters d d' id : only_masters d d' -> slots cfg g d' id = slots cfg g d id.
Proof.
  intros Ho. pose proof (bucket_range cfg g Hg id). unfold slots.
  replace (bimg d' (id mod n_buckets g)) with (bimg d (id mod n_buckets g)); [done|].
  symmetry. apply (om_img _ _ Ho). unfold is_master. unfold_consts. lia.
Qed.

Lemma contents_masters d d' id : only_masters d d' -> contents d' id = contents d id.
Proof. intros Ho. unfold Bucket.contents. by rewrite (slots_masters _ _ _ Ho). Qed.

(** ** One call *)

Lemma goes_on_refl d : session d -> goes_on d d.
Proof. intros Se. split; [done|lia]. Qed.

Lemma unchanged_refl s : unchanged s s.
Proof. by split. Qed.

(** A call at a session: the session goes on and the call is a step of the
    abstract store. *)
Definition simulates (o : op) d : Prop :=
  let (r, d') := exec o d in goes_on d d' /\ obj_step cfg (full_in d) o r (abs d) (abs d').

Lemma exec_wp {A} (m : M db A) (f : res A -> reply) d (Q : reply -> db -> Prop) :
  wp m d (fun r d' => Q (f r) d') -> let (r, d') := rc_reply f m d in Q r d'.
Proof. unfold wp, rc_reply. by destruct (m d). Qed.

Lemma unchanged_roi d d' : roi d d' -> unchanged (abs d) (abs d').
Proof. intros Hr. split; [cbn; by rewrite (roi_st _ _ Hr)|]. intros id. by apply contents_roi. Qed.

Lemma alloc_sim d : session d -> room d 1 -> simulates OpAlloc d.
Proof.
  intros Se [Hr1 Hr2]. apply (exec_wp (blob_db_alloc_id cfg)). unfold blob_db_alloc_id. apply wp_bnd, wp_gets. rewrite (lv_geo _ (se_live _ Se)).
  eapply wp_mono; [apply wp_geo; [apply geo_alloc|]; apply (alloc_id_spec cfg g Hg d)|]; try apply Se.
  - pose proof (lv_next _ (se_live _ Se)). lia.
  - unfold UINT32_MAX in *. lia.
  - cbv beta. intros rc d' ([Hge Hmt] & Hom & Hw & id & -> & Hnz & Hc). destruct (Hw (se_healthy _ Se)) as [_ Hh].
    destruct Hc as [(-> & Hnx & Hi & Hlt & Hcl & Hl & Hrg & Hht)|(-> & _)]; [|by destruct (Hnz (se_healthy _ Se))].
    pose proof (lv_next _ (se_live _ Se)). pose proof (lv_ceiling _ (se_live _ Se)). split.
    + split; [|lia]. split; [|done]. split; try done; try lia.
      * by apply (ready_masters d), Se.
      * by apply Hcl, Se.
      * by apply Hl, Se.
      * by rewrite Hmt, (lv_mounted _ (se_live _ Se)).
      * rewrite (om_wedged _ _ Hom). apply Se.
      * by rewrite Hge, (lv_geo _ (se_live _ Se)).
      * rewrite (contents_masters d) by done. apply Se.
    + cbn. split_and!; [done|done|]. intros id. by apply contents_masters.
Qed.

Lemma reads_session {A} d (m : M db A) want :
  session d -> reads_rc cfg g sidx_wf d m want -> wp m d (fun r d' => r = want /\ roi d d' /\ goes_on d d').
Proof.
  intros Se Hm. eapply wp_mono; [apply Hm, inv_coh, Se|]. cbv beta. intros r d' (Hr & Hc & Hw).
  split_and!; [|done|by eapply session_roi]. destruct Hw as [?|(e & _ & Hh & _)]; [done|]. by destruct Hh; apply Se.
Qed.

(** The public wrapper only renames -ENOTSUP. *)
Lemma read_call {A} d (m : M db A) want (f : res A -> reply) o :
  session d -> want <> Err ENOTSUP -> reads_rc cfg g sidx_wf d m want ->
  (forall d', roi d d' -> unchanged (abs d) (abs d') -> obj_step cfg (full_in d) o (f want) (abs d) (abs d')) ->
  wp (read_rc m) d (fun r d' => goes_on d d' /\ obj_step cfg (full_in d) o (f r) (abs d) (abs d')).
Proof.
  intros Se Hne Hm Hst. unfold read_rc. apply wp_bnd, wp_try. eapply wp_mono; [by apply (reads_session d)|].
  cbv beta. intros r d' (-> & Hr & Se'). pose proof (Hst d' Hr (unchanged_roi _ _ Hr)) as Hq.
  destruct want as [a|e]; [by apply wp_ret|]. destruct e; (done || by apply wp_fail).
Qed.


Lemma get_any d id sz : session d -> 0 <= id < 2 ^ 64 ->
  reads_rc cfg g sidx_wf d (get_impl cfg g id false sz)
    (match contents d id with Some p => if sz <? len p then Err ENOMEM else Ok p | None => Err ENOENT end).
Proof.
  intros Se Hid. destruct (decide (id = 0)) as [->|].
  - rewrite contents_zero by apply Se. unfold get_impl. apply reads_rc_st. rewrite (lv_mounted _ (se_live _ Se)), andb_false_r. by apply reads_rc_fail.
  - apply get_impl_spec; try done; [lia|apply Se|apply Se].
Qed.

Lemma size_any d id : session d -> 0 <= id < 2 ^ 64 ->
  reads_rc cfg g sidx_wf d (size_impl cfg g id false) (match contents d id with Some p => Ok (len p) | None => Err ENOENT end).
Proof.
  intros Se Hid. destruct (decide (id = 0)) as [->|].
  - rewrite contents_zero by apply Se. unfold size_impl. apply reads_rc_st. rewrite (lv_mounted _ (se_live _ Se)). by apply reads_rc_fail.
  - apply size_impl_spec; try done; [lia|apply Se|apply Se].
Qed.

Lemma read_any d id off n : session d -> 0 <= id < 2 ^ 64 -> 0 <= off -> 0 <= n ->
  reads_rc cfg g sidx_wf d (read_impl cfg g id off false n) (match contents d id with Some p => Ok (slice off n p) | None => Err ENOENT end).
Proof.
  intros Se Hid Ho Hn. destruct (decide (id = 0)) as [->|].
  - rewrite contents_zero by apply Se. unfold read_impl. apply reads_rc_st. rewrite (lv_mounted _ (se_live _ Se)), andb_false_r. by apply reads_rc_fail.
  - apply read_impl_spec; try done; [lia|apply Se|apply Se].
Qed.

(** Starting a call: the geometry it runs with is the one of the session. *)
Ltac open_call Se := unfold simulates, exec; eapply exec_wp with (Q := fun r d' => goes_on _ d' /\ obj_step _ _ _ r _ (abs d'));
  apply wp_bnd, wp_gets; rewrite (lv_geo _ (se_live _ Se)).

Lemma get_sim d id sz : session d -> 0 <= id < 2 ^ 64 -> simulates (OpGet id sz) d.
Proof.
  intros Se Hid. open_call Se. eapply (read_call d _ _ RpBytes); [done| |by apply get_any|done].
  destruct (contents d id) as [p|]; [by destruct (sz <? len p)|done].
Qed.

Lemma size_sim d id : session d -> 0 <= id < 2 ^ 64 -> simulates (OpSize id) d.
Proof.
  intros Se Hid. open_call Se. eapply (read_call d _ _ RpLen); [done| |by apply size_any|done]. by destruct (contents d id).
Qed.

Lemma read_sim d id off n : session d -> 0 <= id < 2 ^ 64 -> 0 <= off -> 0 <= n -> simulates (OpRead id off n) d.
Proof.
  intros Se Hid Ho Hn. open_call Se. eapply (read_call d _ _ RpBytes); [done| |by apply read_any|done]. by destruct (contents d id).
Qed.

Lemma exists_sim d id : session d -> 0 <= id < 2 ^ 64 -> simulates (OpExists id) d.
Proof.
  intros Se Hid. open_call Se. destruct (decide (id = 0)) as [->|].
  - unfold exists_impl. apply wp_bnd, wp_gets. rewrite (lv_mounted _ (se_live _ Se)). apply wp_ret. split; [by apply goes_on_refl|].
    split; [done|]. cbn. by rewrite contents_zero by apply Se.
  - eapply wp_mono; [apply (exists_impl_spec cfg g Hg sidx_wf d id); try done; [lia|apply Se|apply Se]|]. cbv beta.
    intros r d' (Hr & Hc & Hq). split; [by eapply session_roi|]. split; [by apply unchanged_roi|]. cbn.
    destruct (contents d id); [|by subst r]. destruct Hq as [-> |[_ Hh]]; [done|]. by destruct Hh; apply Se.
Qed.

Lemma count_sim d : session d -> simulates OpCount d.
Proof.
  intros Se. open_call Se. pose proof (ok_buckets _ _ Hg). pose proof (rd_inv _ _ _ _ (lv_ready _ (se_live _ Se))) as Hi.
  unfold count_impl. apply wp_bnd, wp_gets. rewrite (lv_mounted _ (se_live _ Se)). cbn [negb]. change 0 with (u32 0) at 2.
  eapply wp_mono; [apply (count_loop_spec cfg g Hg); try done; [apply Se|lia]|].
  cbv beta. intros r d' [-> Hr]. split; [eapply session_roi; [by apply ro_roi| |done]; by eapply coherent_ro, Hi|].
  split; [by apply unchanged_roi, ro_roi|]. exists (e_id <$> objects cfg g d). split_and!.
  - apply (objects_from_nodup cfg g sidx_wf); [done|lia..].
  - intros id. rewrite list_elem_of_fmap. cbn. split.
    + intros (e & -> & He). destruct (objects_from_elem cfg g sidx_wf d (Z.to_nat (n_buckets g)) 0 e Hi ltac:(lia) ltac:(lia) He) as (_ & _ & ->). done.
    + intros Hne. destruct (contents d id) as [p|] eqn:E; [|done]. pose proof (bucket_range cfg g Hg id).
      destruct (objects_from_complete cfg g d (Z.to_nat (n_buckets g)) 0 id p) as (e & ? & ? & _); [done|lia..|done|]. by exists e.
  - do 2 f_equal. unfold len. by rewrite length_fmap.
Qed.

Lemma mut_session d d' id fl p r :
  session d -> (slot_bytes fl p = None -> id <> BLOB_DB_ROOT_ID) -> d_geo d' = d_geo d -> mut_post cfg g sidx_wf d id fl p r d' ->
  goes_on d d' /\ mutated (RpRc r) (abs d) (abs d') id (slot_bytes fl p) (len p) (full_in d).
Proof.
  intros Se Hrt Hge (Hsv & Hc & Hlow & Hend). destruct (Hsv (se_healthy _ Se)) as [Hh Hr].
  assert (forall q, is_master q -> pimg d' q = pimg d q) as Hm by (intros q Hq; apply Hlow; unfold is_master in Hq; unfold_consts; lia).
  assert (forall e, device_err e -> r = Err e -> False) as Hno.
  { intros e He ->. destruct Hr as [?|[= ->]]; [done|]. by destruct He as (_&_&_&_&_&_&_&?&_). }
  destruct Hend as [d' Hrd Hst Hval|e d' He Hrd Hst Hval|e d0 d' He|e d0 d' He|e d0 d' He]; try (by destruct (Hno e He)).
  - split; [|left; split; [done|]; split; [cbn; by rewrite Hst|intros id'; by apply set_value_contents]].
    apply (session_kept d); try done. rewrite (set_value_contents cfg g _ _ _ _ BLOB_DB_ROOT_ID Hval). case_decide as E; [|apply Se].
    intros En. by apply (Hrt En).
  - destruct Hr as [?|[= ->]]; [done|]. split; [|right; split_and!; [done|split; [cbn; by rewrite Hst|intros id'; by apply same_contents_at]|]].
    + apply (session_kept d); try done. rewrite (same_contents_at cfg g _ _ BLOB_DB_ROOT_ID Hval). apply Se.
    + destruct He as [[He _]|[_ Hf]]; [by destruct (Hno _ He)|exact Hf].
Qed.

Lemma slot_value_plain p : slot_bytes 0 p = Some p.
Proof. done. Qed.

Lemma slot_value_tomb : slot_bytes BLOB_DB_SLOT_F_TOMBSTONE [] = None.
Proof. done. Qed.

Lemma update_sim d id p : session d -> 0 <= id < 2 ^ 64 -> bytes_ok p -> simulates (OpUpdate id p) d.
Proof.
  intros Se Hid Hp. open_call Se. cbn [obj_step abs os_next os_objects].
  destruct ((id =? 0) || (id >=? next_id (d_st d)) || (len p >? MAX_PAYLOAD_LEN cfg)) eqn:E.
  - unfold update_impl. do 3 apply wp_bnd, wp_gets. rewrite (lv_mounted _ (se_live _ Se)), (lv_usable _ (se_live _ Se)). cbn [negb].
    destruct ((id =? 0) || (id >=? next_id (d_st d))); cbn [orb] in E; [|rewrite E]; apply wp_fail; auto using goes_on_refl, unchanged_refl.
  - apply orb_false_iff in E as [[E1%Z.eqb_neq E2]%orb_false_iff E3]. rewrite Z.geb_leb in E2. apply Z.leb_gt in E2.
    rewrite Z.gtb_ltb in E3. apply Z.ltb_ge in E3. rewrite <- (slot_value_plain p).
    eapply wp_mono; [apply wp_geo; [apply geo_update|]; apply (update_impl_spec cfg g Hg Ha sidx_wf d id p); try done; try apply Se; lia|].
    cbv beta. intros r d' ([Hge _] & Hpost). by apply mut_session.
Qed.

(** A mutation of an object that must exist. *)
Lemma mutates_session d d' id fl pay r :
  session d -> (forall p, slot_bytes fl (pay p) = None -> id <> BLOB_DB_ROOT_ID) -> d_geo d' = d_geo d ->
  mutates cfg g sidx_wf d id fl pay r d' ->
  goes_on d d' /\ match contents d id with
    | None => RpRc r = RpRc (Err ENOENT) /\ unchanged (abs d) (abs d')
    | Some p => mutated (RpRc r) (abs d) (abs d') id (slot_bytes fl (pay p)) (len (pay p)) (full_in d)
    end.
Proof.
  intros Se Hrt Hge Hm. unfold mutates in Hm. destruct (contents d id) as [p|]; [eapply mut_session; eauto|].
  destruct Hm as (Hr & Hc & Hq). split; [by eapply session_roi|]. split; [|by apply unchanged_roi].
  destruct Hq as [->|(e & _ & Hh & _)]; [done|]. by destruct Hh; apply Se.
Qed.

Lemma delete_sim d id : session d -> 0 <= id < 2 ^ 64 -> id <> BLOB_DB_ROOT_ID -> simulates (OpDelete id) d.
Proof.
  intros Se Hid Hrt. open_call Se. cbn [obj_step abs os_next os_objects]. destruct (decide (id = 0)) as [->|].
  - rewrite contents_zero by apply Se. unfold delete_impl. do 2 apply wp_bnd, wp_gets. rewrite (lv_mounted _ (se_live _ Se)), (lv_usable _ (se_live _ Se)).
    apply wp_fail. auto using goes_on_refl, unchanged_refl.
  - eapply wp_mono; [apply wp_geo; [apply geo_delete|]; apply (delete_impl_spec cfg g Hg Ha sidx_wf d id); try done; try apply Se; lia|].
    cbv beta. intros r d' ([Hge _] & Hpost). apply mutates_session in Hpost; [|done|done|done]. exact Hpost.
Qed.

(** A positioned write that needs no new slot. *)
Lemma write_refused d id off b :
  session d -> 0 < id < 2 ^ 64 -> 0 <= off -> off + len b < 2 ^ 32 -> len b = 0 \/ MAX_PAYLOAD_LEN cfg < off + len b ->
  reads_rc cfg g sidx_wf d (write_impl cfg g id off (Some b))
    (match contents d id with Some _ => if len b =? 0 then Ok tt else Err EFBIG | None => Err ENOENT end).
Proof.
  intros Se Hid Ho Hs Hcase. pose proof (len_nonneg b). unfold write_impl. do 2 apply reads_rc_st.
  rewrite (lv_mounted _ (se_live _ Se)), (lv_usable _ (se_live _ Se)). cbn [negb]. destruct (Z.eqb_spec id 0); [lia|].
  rewrite u32_small by lia. destruct (Z.ltb_spec (off + len b) off); [lia|].
  pose proof (rd_inv _ _ _ _ (lv_ready _ (se_live _ Se))) as Hi. eapply (formatted_spec cfg g Hg sidx_wf d id); [exact (Err ENOENT)|done| |].
  2: { intros Hv. by rewrite contents_unformatted. }
  intros Hv d1 Hr1 Hc1. pose proof (inv_roi _ _ _ _ _ Hr1 Hc1 Hi) as Hi1. revert Hc1. rewrite (id_to_bucket_eq cfg g Hg).
  eapply reads_rc_bnd; [apply find_live_located; try done; by rewrite (roi_bimg _ _ _ Hr1)|].
  intros [sc rc] d2 Hr2 Hl. apply (located_roi cfg g d d1) in Hl; [|done]. destruct Hl as (Hrc & _ & Hp). cbn [fst snd] in *. subst rc.
  destruct (contents d id) as [p|]; [|by apply reads_rc_fail]. destruct (Hp p eq_refl) as (Hl & Hmx & _ & Hsg).
  change (mlift (Ok p)) with (@mret db bytes p). eapply (reads_rc_bnd cfg g sidx_wf _ _ _ (fun x => x = p)); [by apply reads_co_ret|].
  intros x d3 _ ->. unfold write_inline. rewrite Hsg. destruct (Z.eqb_spec (len b) 0); [by apply reads_rc_ret|].
  rewrite u32_small by lia. destruct (Z.gtb_spec (Z.max (off + len b) (sh_val_len (head_hdr (target sc)))) (MAX_PAYLOAD_LEN cfg)); [|lia].
  by apply reads_rc_fail.
Qed.

Lemma write_sim d id off b : session d -> op_ok (OpWrite id off b) -> simulates (OpWrite id off b) d.
Proof.
  intros Se (Hid & Ho & Hb & Hbk). pose proof (len_nonneg b). open_call Se. cbn [obj_step abs os_next os_objects].
  destruct (decide (id = 0)) as [->|].
  - cbn [negb andb Z.eqb]. rewrite contents_zero by apply Se. unfold write_impl. do 2 apply wp_bnd, wp_gets.
    rewrite (lv_mounted _ (se_live _ Se)), (lv_usable _ (se_live _ Se)). apply wp_fail. auto using goes_on_refl, unchanged_refl.
  - destruct (Z.eqb_spec id 0); [done|]. cbn [negb andb]. rewrite Z.geb_leb. destruct (Z.leb_spec (2 ^ 32) (off + len b)).
    + unfold write_impl. do 2 apply wp_bnd, wp_gets. rewrite (lv_mounted _ (se_live _ Se)), (lv_usable _ (se_live _ Se)). cbn [negb].
      destruct (Z.eqb_spec id 0); [done|]. assert (u32 (off + len b) = off + len b - 2 ^ 32) as ->.
      { unfold u32. symmetry. apply (Z.mod_unique_pos _ _ 1); lia. }
      destruct (Z.ltb_spec (off + len b - 2 ^ 32) off); [apply wp_fail; auto using goes_on_refl, unchanged_refl|lia].
    + destruct (decide (len b = 0 \/ MAX_PAYLOAD_LEN cfg < off + len b)) as [Hc|Hc].
      * eapply wp_mono; [eapply (reads_session d); [done|apply (write_refused d id off b); done || lia]|].
        cbv beta. intros r d' (-> & Hr & Se'). split; [done|]. destruct (contents d id); [|split; [done|by apply unchanged_roi]].
        destruct (Z.eqb_spec (len b) 0); [split; [done|by apply unchanged_roi]|].
        destruct (Z.gtb_spec (off + len b) (MAX_PAYLOAD_LEN cfg)); [|lia]. split; [done|by apply unchanged_roi].
      * eapply wp_mono; [apply wp_geo; [apply geo_write|]; apply (write_impl_spec cfg g Hg Ha sidx_wf d id off b)|]; try done; try apply Se; try lia.
        { intros ->. apply Hc. by left. }
        cbv beta. intros r d' ([Hge _] & Hpost). apply mutates_session in Hpost; [|done|done|done]. destruct Hpost as [? Hq].
        split; [done|]. destruct (contents d id) as [p|]; [|done]. destruct (Z.eqb_spec (len b) 0); [lia|].
        destruct (Z.gtb_spec (off + len b) (MAX_PAYLOAD_LEN cfg)); [lia|]. exact Hq.
Qed.

(** ** Unmounting and mounting again *)

Context (Hop : opens cfg g) (Hnd : forall off (s : S), blob_db_store_open_found_damage off s = false).

Lemma session_clean d : live d -> exists h h' r,
  clean_masters cfg g d (active_master (d_st d)) h h' (log_next (d_st d)) r /\ r_next_id_hint r = next_id_hint (d_st d) /\
  h_rot_gen h = rot_gen (d_st d).
Proof.
  clear Hlp. intros Se. pose proof (mi_active _ _ _ (lv_master _ Se)) as Hact. destruct (lv_hdrs _ Se) as [Hc (h2 & E2 & Hlt)].
  destruct (Hc _ Hact) as (h & E & Hacc & F1 & F2 & F3 & F4).
  destruct (Hc _ (other_is_master (active_master (d_st d)))) as (h' & E' & Hacc' & G1 & G2 & G3 & G4).
  assert (h2 = h') as -> by congruence. destruct (lv_last _ Se) as (Hlf & Hln & Hlg & r & Hr & Hh).
  destruct (mi_here _ _ _ (lv_master _ Se)) as (n & C & Hs & _). destruct (sector_ok_class _ _ _ _ _ _ Hs) as (h1 & E1 & Hrg & _).
  assert (h1 = h) as -> by congruence. pose proof (lv_next _ Se). exists h, h', r. split; [|done].
  split; try done; try congruence; try lia.
  intros El. destruct (mi_feats _ _ _ (lv_master _ Se)) as (_ & Ei & _). rewrite F1, Ei. unfold BLOB_DB_BUILD_INCOMPAT. by rewrite El.
Qed.

Lemma adopted_session d a h h' n r st' geo (x : I) s :
  clean_masters cfg g d a h h' n r -> (forall p, is_master p -> img s p = pimg d p) ->
  hdrs_clean cfg g (mk_db (st_adopted a h n r st') geo x s) /\ last_ok g (mk_db (st_adopted a h n r st') geo x s).
Proof.
  intros Hm Hs. pose proof (cm_active _ _ _ _ _ _ _ _ Hm) as Hact. destruct (cm_feats _ _ _ _ _ _ _ _ Hm) as (F1 & F2 & F3).
  destruct (cm_accept _ _ _ _ _ _ _ _ Hm) as [A1 A2]. destruct (cm_cap _ _ _ _ _ _ _ _ Hm) as [K1 K2].
  destruct (cm_log _ _ _ _ _ _ _ _ Hm) as [Hlg Hn]. split.
  - split.
    + intros i Hi. unfold hdr_like, pimg. cbn. rewrite Hs by done. destruct (is_master_split a i Hact Hi) as [-> | ->].
      * exists h. split_and!; try done. apply Hm.
      * exists h'. split_and!; try done. apply Hm.
    + exists h'. unfold pimg. cbn. rewrite Hs by apply other_is_master. split; apply Hm.
  - unfold last_ok, pimg. cbn. rewrite Hs by done. split_and!; try done. exists r. split; [apply Hm|done].
Qed.

Lemma hdrs_mounted b st geo (x : I) s : hdrs_clean cfg g (mk_db st geo x s) -> hdrs_clean cfg g (mk_db (set_mounted b st) geo x s).
Proof. intros [H1 H2]. by split. Qed.

Lemma last_mounted b st geo (x : I) s : last_ok g (mk_db st geo x s) -> last_ok g (mk_db (set_mounted b st) geo x s).
Proof. by intros Hl. Qed.

(** A store at rest: unmounted, with clean masters, and buckets that are sound
    once a compaction that was cut has been recovered. *)
Record at_rest d a h h' n r : Prop := {
  ar_mounted : mounted (d_st d) = false;
  ar_index : exists m, sidx_wf m (d_ix d);
  ar_masters : clean_masters cfg g d a h h' n r;
  ar_buckets : rinv cfg g d;
  ar_seal : seal_aligned g d;
  ar_root : rcontents cfg g d BLOB_DB_ROOT_ID <> None;
}.

Definition maint_zero (st : st_t) : st_t := set_maint_scanned 0 (set_maint_start (u16 (next_id st mod n_buckets g)) st).

Lemma live_maint d : live d -> live (mk_db (maint_zero (d_st d)) (d_geo d) (d_ix d) (d_store d)).
Proof.
  intros [Hr [] [] Hl ? ? ? ? ? ?]. split; try done; [|by split..]. by apply (ready_st cfg g sidx_wf d).
Qed.

(** What a mount yields, before the maintenance walk is set up. *)
Lemma mount_impl_session d a h h' n r :
  at_rest d a h h' n r ->
  wp (mount_impl cfg) d (fun rc d' => boots d rc d' /\
    match rc with
    | Ok _ => live d' /\ next_id (d_st d') = r_next_id_hint r /\ rot_gen (d_st d') = h_rot_gen h /\
        (forall id, slots cfg g d' id = rslots cfg g d id) /\ (heads_by cfg g (rimg g d) -> heads_by cfg g (bimg d'))
    | Err _ => mounted (d_st d') = false
    end).
Proof.
  intros [Hm [m Hix] Hcm Hri Hal Hrt].
  eapply wp_mono; [apply (mount_impl_spec cfg g Hg Ha sidx_wf d m a h h' n r); try done|].
  cbv beta. intros rc d1 (Hw & Hmi & Hrc). destruct rc as [[]|e]; [|done]. destruct Hrc as (Hrd & Hi & Hge & Hst & Hct & Hhd).
  split; [done|]. destruct d1 as [st1 geo1 ix1 s1]. cbn [d_st d_geo d_ix d_store] in *.
  destruct (adopted_session d a h h' n r (set_wedged false (d_st d)) geo1 ix1 s1 Hcm Hmi) as [Hhc Hlo].
  pose proof (cm_hint _ _ _ _ _ _ _ _ Hcm). assert (forall id, slots cfg g (mk_db st1 geo1 ix1 s1) id = rslots cfg g d id) as Hct'.
  { intros id. rewrite Hct. unfold mounted_slots. unfold rcontents in Hrt. by destruct (rslots cfg g d BLOB_DB_ROOT_ID). }
  split; [|split; [by rewrite Hst|split; [by rewrite Hst|by split]]].
  split; [exact Hrd|exact Hi| | |by rewrite Hst|by rewrite Hst|exact Hge| | |unfold Bucket.contents; by rewrite Hct'].
  - rewrite Hst. by apply hdrs_mounted.
  - rewrite Hst. by apply last_mounted.
  - rewrite Hst. cbn. lia.
  - rewrite Hst. cbn. lia.
Qed.

Lemma mount_session d a h h' n r :
  at_rest d a h h' n r ->
  wp (blob_db_mount cfg) d (fun rc d' => boots d rc d' /\
    match rc with
    | Ok _ => live d' /\ next_id (d_st d') = r_next_id_hint r /\ rot_gen (d_st d') = h_rot_gen h /\
        forall id, slots cfg g d' id = rslots cfg g d id
    | Err _ => mounted (d_st d') = false
    end).
Proof.
  intros Har. unfold blob_db_mount. apply wp_bnd. eapply wp_mono; [exact (mount_impl_session d a h h' n r Har)|].
  cbv beta. intros rc d1 (Hw & Hrc). destruct rc as [[]|e]; [|done]. destruct Hrc as (Lv & Hnx & Hrg & Hct & _).
  apply wp_bnd, wp_gets. unfold maint_reset. rewrite (lv_geo _ Lv). apply wp_mod. fold (maint_zero (d_st d1)).
  split; [intros Hh; by destruct (Hw Hh)|]. split; [|done]. exact (live_maint _ Lv).
Qed.

(** A live store, once unmounted or cut off, is at rest. *)
Lemma live_at_rest d d' :
  live d -> mounted (d_st d') = false -> (exists m, sidx_wf m (d_ix d')) -> same_flash (d_store d) (d_store d') ->
  exists h h' r, at_rest d' (active_master (d_st d)) h h' (log_next (d_st d)) r /\ r_next_id_hint r = next_id_hint (d_st d) /\
    h_rot_gen h = rot_gen (d_st d) /\ forall id, rslots cfg g d' id = slots cfg g d id.
Proof.
  intros Lv Hm Hix Hf. destruct (session_clean d Lv) as (h & h' & r & Hcm & Hh & Hrg). exists h, h', r.
  destruct (ready_view cfg g sidx_wf d (lv_ready _ Lv)) as (Hri & Hal & Hv).
  assert (forall id, rslots cfg g d' id = slots cfg g d id) as Hct by (intros id; by rewrite (rslots_same cfg g _ _ _ Hf), Hv).
  split; [|done]. split; try done.
  - apply (clean_ro cfg g d); [intros p _; apply Hf|done].
  - intros bid Hb. rewrite (rimg_same g _ _ _ Hf). by apply Hri.
  - intros b il. unfold scratch, pimg. rewrite Hf. apply Hal.
  - unfold rcontents. rewrite Hct. apply Lv.
Qed.

Lemma remount_sim d : session d -> simulates OpRemount d.
Proof.
  intros Se. pose proof (se_live _ Se) as Lv. unfold simulates, exec.
  eapply exec_wp with (Q := fun r d' => goes_on _ d' /\ obj_step _ _ _ r _ (abs d')). unfold blob_db_unmount, unmount_impl.
  apply wp_bnd, wp_bnd, wp_gets. rewrite (lv_mounted _ Lv). cbn [negb]. apply wp_bnd, wp_mod, wp_bnd, wp_mod, wp_mod.
  cbn [d_st d_geo d_ix d_store]. set (d1 := mk_db _ _ _ _). destruct (close_law (StoreLaws := SL) (d_store d)) as [Hcf Hch].
  destruct (live_at_rest d d1 Lv) as (h & h' & r & Hr & Hh & Hrg & Hct); [done| |exact Hcf|].
  { exists (n_buckets g). eapply disable_wf, coh_wf, inv_coh, rd_inv, Lv. }
  eapply wp_mono; [exact (mount_session d1 _ _ _ _ _ Hr)|]. cbv beta. intros rc d2 [Hw Hrc]. destruct (Hw (Hch (se_healthy _ Se))) as [Hok Hh2].
  destruct rc as [[]|]; [|done]. destruct Hrc as (Lv2 & Hnx & Hrg2 & Hct2). pose proof (lv_next _ Lv). pose proof (lv_ceiling _ Lv).
  split; [split; [by split|lia]|]. cbn.
  split_and!; [done|lia|]. intros id. cbn. unfold Bucket.contents. by rewrite Hct2, Hct.
Qed.

(** ** Runs *)

Lemma step_sim d o : session d -> room d 1 -> op_ok o -> simulates o d.
Proof.
  intros Se Hr Ho. destruct o; cbn in Ho.
  - by apply alloc_sim.
  - by apply get_sim.
  - destruct Ho. by apply update_sim.
  - destruct Ho. by apply delete_sim.
  - by apply exists_sim.
  - by apply size_sim.
  - destruct Ho as (? & ? & ?). by apply read_sim.
  - by apply write_sim.
  - by apply count_sim.
  - by apply remount_sim.
Qed.

Fixpoint run (os : list op) d : list reply * db :=
  match os with
  | [] => ([], d)
  | o :: os => let (r, d) := exec o d in let (rs, d) := run os d in (r :: rs, d)
  end.

(** Runs of the abstract store; what is full is up to each state. *)
Inductive obj_steps : list op -> list reply -> obj_store -> obj_store -> Prop :=
  | obj_nil s s' : unchanged s s' -> obj_steps [] [] s s'
  | obj_cons o os r rs s s1 s' full_for : obj_step cfg full_for o r s s1 -> obj_steps os rs s1 s' -> obj_steps (o :: os) (r :: rs) s s'.

Lemma run_sim os d :
  session d -> room d (len os) -> Forall op_ok os -> let (rs, d') := run os d in session d' /\ obj_steps os rs (abs d) (abs d').
Proof.
  intros Se Hr Ho. revert d Se Hr. induction Ho as [|o os Ho Hos IH]; intros d Se Hr; cbn [run].
  - split; [done|]. by apply obj_nil.
  - rewrite len_cons in Hr. destruct Hr as [Hr1 Hr2]. pose proof (len_nonneg os).
    pose proof (step_sim d o Se ltac:(split; lia) Ho) as Hs. unfold simulates in Hs. destruct (exec o d) as [r d1].
    destruct Hs as [(Se1 & Hn & Hg1 & _) Hst]. specialize (IH d1 Se1 ltac:(split; lia)). destruct (run os d1) as [rs d2].
    destruct IH as [Se2 Hss]. split; [done|]. by eapply obj_cons.
Qed.

(** ** Power cuts *)

(** The state the next boot starts from: RAM gone, flash as it was left, and a
    device that can be opened and works. *)
Record power_cycled d d' : Prop := {
  pc_mounted : mounted (d_st d') = false;
  pc_index : exists m, sidx_wf m (d_ix d');
  pc_flash : same_flash (d_store d) (d_store d');
  pc_bootable : bootable (d_store d');
}.

(** A mutation of [id] to [v] ended somehow; the next boot mounts, and finds the
    old or the new contents and no id to be reissued. *)
Definition next_boot d d' (id : Z) (v : option bytes) : Prop :=
  forall d0, power_cycled d' d0 -> wp (blob_db_mount cfg) d0 (fun rc d1 => rc = Ok tt /\ session d1 /\
    next_id (d_st d) <= next_id (d_st d1) /\ old_or_new cfg g d id v (contents d1)).

(** The same of slots. *)
Definition next_boot_slots d d' (id : Z) (v : option (Z * bytes)) : Prop :=
  forall d0, power_cycled d' d0 -> wp (blob_db_mount cfg) d0 (fun rc d1 => rc = Ok tt /\ session d1 /\
    next_id (d_st d) <= next_id (d_st d1) /\ slots_old_or_new cfg g d id v (slots cfg g d1)).

Lemma mut_boot_slots d d' id fl p r :
  live d -> (slot_bytes fl p = None -> id <> BLOB_DB_ROOT_ID) -> mut_post cfg g sidx_wf d id fl p r d' ->
  mishap cfg g d id fl p d' \/ next_boot_slots d d' id (slot_value fl p).
Proof.
  intros Lv Hrt (_ & _ & Hlow & Hend). destruct (mut_crash cfg g Hg Ha sidx_wf d d' id fl p r (lv_ready _ Lv) Hend)
    as [?|(Hri & Hal & Hon)]; [by left|right]. intros d0 [Hm Hix Hf Hh].
  destruct (session_clean d Lv) as (h & h' & r0 & Hcm & Hht & Hrg).
  assert (at_rest d0 (active_master (d_st d)) h h' (log_next (d_st d)) r0) as Har.
  { split; try done.
    - apply (clean_ro cfg g d); [|done]. intros q Hq. rewrite <- Hlow by (unfold is_master in Hq; unfold_consts; lia). apply Hf.
    - intros bid Hb. rewrite (rimg_same g _ _ _ Hf). by apply Hri.
    - intros b il. unfold scratch, pimg. rewrite Hf. apply Hal.
    - unfold rcontents. rewrite (rslots_same cfg g _ _ _ Hf). destruct Hon as [Hon|Hon]; rewrite Hon; [apply Lv|].
      case_decide as E; [|apply Lv]. intros En. by apply (Hrt En). }
  eapply wp_mono; [exact (mount_session d0 _ _ _ _ _ Har)|]. cbv beta. intros rc d1 [Hw Hrc]. destruct (Hw Hh) as [Hok Hh1].
  destruct rc as [[]|]; [|done]. destruct Hrc as (Lv1 & Hnx & _ & Hct). pose proof (lv_next _ Lv).
  split; [done|]. split; [by split|]. split; [lia|].
  destruct Hon as [Hon|Hon]; [left|right]; intros id'; by rewrite Hct, (rslots_same cfg g _ _ _ Hf), Hon.
Qed.

Lemma mut_boot d d' id fl p r :
  live d -> (slot_bytes fl p = None -> id <> BLOB_DB_ROOT_ID) -> mut_post cfg g sidx_wf d id fl p r d' ->
  mishap cfg g d id fl p d' \/ next_boot d d' id (slot_bytes fl p).
Proof.
  intros Lv Hrt Hp. destruct (mut_boot_slots d d' id fl p r Lv Hrt Hp) as [?|Hn]; [by left|right]. intros d0 H0.
  eapply wp_mono; [exact (Hn d0 H0)|]. cbv beta. intros rc d1 (? & ? & ? & Hon). split_and!; try done.
  by apply (slots_old_or_new_contents cfg g d id (slot_value fl p)).
Qed.

(** ** Formatting *)

(** A store just formatted, once marked mounted, is live. *)
Lemma formatted_live d d' :
  d_geo d' = g ->
  ready d' /\ master_inv cfg g d' /\ fresh_masters cfg g d' /\ (hdrs_clean cfg g d' /\ last_ok g d') /\ d_st d' = st_fresh cfg (set_wedged false (d_st d)) /\
    (forall id, slots cfg g d' id = only_root_slot id) /\ heads_by cfg g (bimg d') ->
  let d2 := mk_db (set_mounted true (d_st d')) (d_geo d') (d_ix d') (d_store d') in
  live d2 /\ next_id (d_st d2) = 2 /\ rot_gen (d_st d2) = 2 /\ (forall id, slots cfg g d2 id = only_root_slot id) /\ heads_by cfg g (bimg d2).
Proof.
  intros Hge (Hrd & Hi & _ & [Hhc Hlo] & Hst2 & Hct & Hhd). destruct d' as [st2 geo2 ix2 s2]. cbn [d_st d_geo d_ix d_store] in *. subst geo2.
  split; [|split; [by rewrite Hst2|split; [by rewrite Hst2|split; [exact Hct|exact Hhd]]]]. split.
  - apply (ready_st cfg g sidx_wf (mk_db st2 g ix2 s2)), Hrd.
  - by apply inv_mounted.
  - by apply hdrs_mounted.
  - by apply last_mounted.
  - done.
  - cbn. by rewrite Hst2.
  - done.
  - cbn. rewrite Hst2. cbn. lia.
  - cbn. rewrite Hst2. cbn. lia.
  - change (contents (mk_db st2 g ix2 s2) BLOB_DB_ROOT_ID <> None). unfold Bucket.contents. by rewrite Hct.
Qed.

Lemma format_session d m :
  mounted (d_st d) = false -> sidx_wf m (d_ix d) -> bootable (d_store d) ->
  wp (blob_db_format cfg) d (fun rc d' => rc = Ok tt /\ session d' /\ next_id (d_st d') = 2 /\ rot_gen (d_st d') = 2 /\
    forall id, slots cfg g d' id = only_root_slot id).
Proof.
  intros Hm Hix Hh. unfold blob_db_format, format_impl. apply wp_bnd, wp_bnd, wp_gets. rewrite Hm. cbv beta iota.
  destruct Hop as [Ho1 Ho2].
  apply wp_bnd. eapply wp_mono; [apply (store_open_spec cfg (store_geom_of g))|]. cbv beta. intros ro d1 (Hst & Hx & _ & Hq).
  destruct ro as [[]|e]; [|destruct Hq as [[? _]|[? _]]; congruence]. destruct Hq as (Hh1 & _ & Hge). specialize (Hh1 Hh). rewrite Ho2 in Hge.
  apply wp_bnd, wp_gets, wp_bnd, wp_try. rewrite Hge. rewrite <- Hx in Hix.
  eapply wp_mono; [apply wp_geo; [apply geo_format_whole|]; apply (format_whole_store_spec cfg g Hg Ha sidx_wf d1 m Hix)|]. cbv beta.
  intros rf d2 ([Hge2 Hmt] & Hw & Hrf). destruct (Hw Hh1) as [Hok Hh2]. destruct rf as [[]|]; [|done].
  apply wp_mod, wp_bnd, wp_gets. cbv beta iota. cbn [d_geo].
  rewrite Hge2, Hge. unfold maint_reset. apply wp_mod. cbn [d_st d_geo d_ix d_store]. fold (maint_zero (set_mounted true (d_st d2))).
  rewrite Hge in Hge2. destruct (formatted_live d1 d2 Hge2 Hrf) as (Lv & Hnx & Hrg & Hct & _).
  pose proof (live_maint _ Lv) as Lm. cbn [d_st d_geo d_ix d_store] in Lm, Hct |- *. rewrite Hge2 in *.
  split; [done|]. split; [split; [exact Lm|done]|done].
Qed.

(** Whether the device will fail is not part of a live store. *)
Lemma live_device d s : live d -> same_flash (d_store d) s -> live (mk_db (d_st d) (d_geo d) (d_ix d) s).
Proof.
  intros Lv Hf. set (d' := mk_db _ _ _ _). assert (forall p, pimg d' p = pimg d p) as Hp by exact Hf.
  assert (forall b, bimg d' b = bimg d b) as Hb by (intros b; apply Hp).
  destruct (masters_kept d d' (fun p _ => Hp p) eq_refl) as (Hi & Hc & Hl); [apply Lv..|].
  assert (forall id, contents d' id = contents d id) as Hct by (intros id; unfold Bucket.contents, slots; by rewrite Hb).
  split; try done; try apply Lv.
  - destruct (lv_ready _ Lv) as [[[Hw Hcu Hlk] Hbk] Hu]. split; [split; [split|]|].
    + exact Hw.
    + intros bid c. rewrite Hb. apply Hcu.
    + intros id o c. rewrite Hb. apply Hlk.
    + intros bid Hbid. rewrite Hb. by apply Hbk.
    + unfold unsealed, scratch. rewrite Hp. exact Hu.
  - rewrite Hct. apply Lv.
Qed.
End session.
