(* ===== verification/Segments.v ===== *)
(** Large payloads: what CONFIG_BLOB_DB_LARGE_PAYLOADS adds to blob_db.c. An object
    too large for one slot is kept as segment slots, each under an internal id of
    its own, and an index slot at the object's id, whose append is the commit. The
    operations below are those of a build with the option; the test cuts
    (CONFIG_BLOB_DB_TEST_CRASH_HOOKS) are left out. At the end, the round trips of
    the records it packs. *)

From S2P Require Import Prelude Layout Store SlotIndexIface Image Core Compact Ops Master Mount.

Definition BLOB_DB_INDEX_MAGIC : bytes := [66; 88].
Definition BLOB_DB_INDEX_VERSION : Z := 1.
Definition BLOB_DB_INDEX_F_CRC32 : Z := 1.
Definition SEG_PLACEMENT_TRIES : nat := 8.

(** ** Records *)

Record blob_db_index_hdr := mk_index_hdr {
  ih_magic : bytes;
  ih_version : Z;
  ih_flags : Z;
  ih_total_len : Z;
  ih_payload_crc32 : Z;
  ih_seg_count : Z;
  ih_seg_len : Z;
}.

Record blob_db_seg_hdr := mk_seg_hdr { gh_owner_id : Z; gh_seq : Z; gh_reserved : Z }.

Definition enc_index_hdr (h : blob_db_index_hdr) : bytes :=
  ih_magic h ++ le 1 (ih_version h) ++ le 1 (ih_flags h) ++ le 4 (ih_total_len h) ++ le 4 (ih_payload_crc32 h) ++
  le 2 (ih_seg_count h) ++ le 2 (ih_seg_len h).
Definition dec_index_hdr (b : bytes) : blob_db_index_hdr :=
  mk_index_hdr (slice 0 2 b) (rd 1 2 b) (rd 1 3 b) (rd 4 4 b) (rd 4 8 b) (rd 2 12 b) (rd 2 14 b).

Definition enc_seg_hdr (h : blob_db_seg_hdr) : bytes := le 8 (gh_owner_id h) ++ le 2 (gh_seq h) ++ le 2 (gh_reserved h).
Definition dec_seg_hdr (b : bytes) : blob_db_seg_hdr := mk_seg_hdr (rd 8 0 b) (rd 2 8 b) (rd 2 10 b).

(** A segment table: the ids as they lie in [g_seg_a] or in an index record. *)
Definition enc_ids (ids : list Z) : bytes := concat (le 8 <$> ids).
Definition dec_ids (off : Z) (k : Z) (b : bytes) : list Z := (fun j => rd 8 (off + 8 * Z.of_nat j) b) <$> seq 0 (Z.to_nat k).
Definition seg_id_at (ids : list Z) (seq : Z) : Z := default 0 (ids !! Z.to_nat seq).

(** ** State *)

(** The statics: the instance, the index cache with the table it owns, and the
    segment geometry. *)
Record lp (S I : Type) := mk_lp {
  lp_db : db S I;
  g_idx_id : Z;
  g_idx_hdr : blob_db_index_hdr;
  g_idx_k : Z;
  g_seg_a : list Z;
  g_seg_len : Z;
  g_seg_max : Z;
}.
Arguments mk_lp {S I} _ _ _ _ _ _ _.
Arguments lp_db {S I} _.
Arguments g_idx_id {S I} _.
Arguments g_idx_hdr {S I} _.
Arguments g_idx_k {S I} _.
Arguments g_seg_a {S I} _.
Arguments g_seg_len {S I} _.
Arguments g_seg_max {S I} _.

Module Large.
Section segments.
Context (cfg : config) (MAX_OBJECT_LEN SEGMENT_LEN MAX_SEGMENTS : Z) `{Crc}.
Context {S I : Type} `{!Store S} `{!SlotIndex I}.
Notation db := (db S I).
Notation lp := (lp S I).

Definition on_db {A} (m : M db A) : M lp A := fun s =>
  let (r, d) := m (lp_db s) in (r, mk_lp d (g_idx_id s) (g_idx_hdr s) (g_idx_k s) (g_seg_a s) (g_seg_len s) (g_seg_max s)).

Definition idx_invalidate : M lp unit := mmod (fun s => mk_lp (lp_db s) 0 (g_idx_hdr s) (g_idx_k s) (g_seg_a s) (g_seg_len s) (g_seg_max s)).

(** ** Geometry *)

Definition inline_max : Z := MAX_PAYLOAD_LEN cfg.

Definition seg_enabled : M lp bool := on_db (st_get (fun st => negb (Z.land (incompat st) BLOB_DB_FEAT_LARGE_PAYLOADS =? 0))).

Definition seg_geometry_init (g : geom) : M lp unit :=
  let chunk_cap := u32 (inline_max - 12) in
  let sl := if SEGMENT_LEN =? 0 then peb_size g / 4 else SEGMENT_LEN in
  let sl := if sl >? chunk_cap then chunk_cap else sl in
  if sl =? 0 then mfail ENOTSUP
  else
    let idx_cap := u32 (inline_max - 16) / 8 in
    let usable := Z.min idx_cap MAX_SEGMENTS in
    let reach := u32 (usable * sl) in
    if reach <? MAX_OBJECT_LEN then mfail ENOTSUP
    else mmod (fun s => mk_lp (lp_db s) (g_idx_id s) (g_idx_hdr s) (g_idx_k s) (g_seg_a s) (u16 sl) (u16 usable)).

Definition persist_seg_owner (g : geom) (owner : Z) : M lp unit :=
  on_db (
    let* prev := st_get seg_owner in
    if prev =? owner then mret tt
    else
      st_mod (set_seg_owner owner);;;
      let* rc := mtry (master_commit cfg g) in
      match rc with
      | Err e => st_mod (set_seg_owner prev);;; mfail e
      | Ok _ => mret tt
      end).

(** ** The write primitive and its cursor *)

(** [append_slot2()] of this build: it drops the index cache once its checks have
    passed. *)
Definition seg_append (g : geom) (bid wc id extra_flags : Z) (hdr payload : bytes) : M lp unit :=
  (if (len (hdr ++ payload) >? MAX_PAYLOAD_LEN cfg) || (write_align g >? BLOB_DB_MAX_WRITE_ALIGN) then mret tt else idx_invalidate);;;
  on_db (append_slot2 cfg g bid wc id extra_flags hdr payload).

Definition walk_cursor (g : geom) (bid id : Z) : M lp Z :=
  on_db (
    let* sc := scan_bucket_for cfg g bid id (peb_size g) in
    confirm_cursor cfg g bid id sc).

(** ** The index record *)

Definition index_hdr_valid (seg_max : Z) (h : blob_db_index_hdr) (val_len : Z) : bool :=
  if negb (bool_decide (ih_magic h = BLOB_DB_INDEX_MAGIC)) || negb (ih_version h =? BLOB_DB_INDEX_VERSION) then false
  else if (ih_seg_count h =? 0) || (ih_seg_count h >? seg_max) || (ih_seg_len h =? 0) then false
  else if val_len <? 16 + ih_seg_count h * 8 then false
  else
    let span := ih_seg_count h * ih_seg_len h in
    if (ih_total_len h =? 0) || (ih_total_len h >? span) || (ih_total_len h <=? span - ih_seg_len h) then false else true.

(** [None] for an id that holds an inline payload. *)
Definition index_load (g : geom) (id : Z) : M lp (option (blob_db_index_hdr * Z)) :=
  let bid := id_to_bucket g id in
  let* formatted := on_db (read_bucket_hdr g bid) in
  if negb formatted then mfail ENOENT
  else
    let* r := on_db (find_live_slot cfg g bid id) in
    let* dst := mlift (snd r) in
    let hdr := head_hdr (target (fst r)) in
    if negb (flag_set (sh_flags hdr) BLOB_DB_SLOT_F_INDEXED) then mret None
    else if sh_val_len hdr <? 16 then mfail EIO
    else
      let h := dec_index_hdr dst in
      let* seg_max := mgets g_seg_max in
      if negb (index_hdr_valid seg_max h (sh_val_len hdr)) then mfail EIO
      else
        let ids := dec_ids 16 (ih_seg_count h) dst in
        mmod (fun s => mk_lp (lp_db s) (g_idx_id s) (g_idx_hdr s) (g_idx_k s) (ids ++ drop (length ids) (g_seg_a s)) (g_seg_len s) (g_seg_max s));;;
        mret (Some (h, ih_seg_count h)).

Definition index_load_cached (g : geom) (id : Z) : M lp (option (blob_db_index_hdr * Z)) :=
  let* s := mgets (fun s => s) in
  if g_idx_id s =? id then mret (Some (g_idx_hdr s, g_idx_k s))
  else
    let* r := index_load g id in
    match r with
    | Some (h, k) =>
        mmod (fun s => mk_lp (lp_db s) id h (u16 k) (g_seg_a s) (g_seg_len s) (g_seg_max s));;;
        mret r
    | None => mret None
    end.

(** ** Segments *)

Definition seg_chunk_read (g : geom) (owner seg_id seq skip n : Z) : M lp bytes :=
  on_db (
    let bid := id_to_bucket g seg_id in
    let* formatted := read_bucket_hdr g bid in
    if negb formatted then mfail EIO
    else
      let* r := find_live_slot cfg g bid seg_id in
      match snd r with
      | Err ENOENT => mfail EIO
      | Err e => mfail e
      | Ok dst =>
          let hdr := head_hdr (target (fst r)) in
          if negb (flag_set (sh_flags hdr) BLOB_DB_SLOT_F_SEGMENT) || (sh_val_len hdr <? 12) then mfail EIO
          else
            let sh := dec_seg_hdr dst in
            if negb (gh_owner_id sh =? owner) || negb (gh_seq sh =? seq) then mfail EIO
            else if skip + n >? sh_val_len hdr - 12 then mfail EIO
            else mret (slice (12 + skip) n dst)
      end).

(** The placement probes of [seg_write_chunk()]: a bucket that has no room, even
    compacted, is left for that of a fresh id; so is one whose compaction failed. *)
Fixpoint seg_place (tries : nat) (g : geom) (hdr chunk : bytes) : M lp Z :=
  match tries with
  | O => mfail ENOSPC
  | Datatypes.S tries =>
      let ssz := slot_size_for g (u16 (12 + len chunk)) in
      let* sid := on_db (alloc_id_impl cfg g) in
      if sid =? 0 then mfail EIO
      else
        let bid := id_to_bucket g sid in
        let* formatted := on_db (read_bucket_hdr g bid) in
        let* cursor :=
          if negb formatted then on_db (format_bucket g bid);;; mret BLOB_DB_BUCKET_DATA_OFF
          else walk_cursor g bid sid in
        let* cursor :=
          if cursor + ssz >? peb_size g then
            let* rc := mtry (on_db (compact_bucket cfg g bid)) in
            match rc with
            | Ok _ => walk_cursor g bid sid
            | Err _ => mret cursor
            end
          else mret cursor in
        if cursor + ssz >? peb_size g then seg_place tries g hdr chunk
        else
          seg_append g bid cursor sid BLOB_DB_SLOT_F_SEGMENT hdr chunk;;;
          mret sid
  end.

Definition seg_write_chunk (g : geom) (owner seq : Z) (chunk : bytes) : M lp Z :=
  seg_place SEG_PLACEMENT_TRIES g (enc_seg_hdr (mk_seg_hdr owner seq 0)) chunk.

(** Whether the bucket was compacted. *)
Definition seg_release_one (g : geom) (sid : Z) : M lp bool :=
  let bid := id_to_bucket g sid in
  let ssz := slot_size_for g 0 in
  let* formatted := on_db (read_bucket_hdr g bid) in
  if negb formatted then mfail ENOENT
  else
    let* cursor := walk_cursor g bid sid in
    let* cc :=
      if cursor + ssz >? peb_size g then
        on_db (compact_bucket cfg g bid);;;
        let* cursor := walk_cursor g bid sid in
        if cursor + ssz >? peb_size g then mfail ENOSPC else mret (cursor, true)
      else mret (cursor, false) in
    seg_append g bid (fst cc) sid (Z.lor BLOB_DB_SLOT_F_TOMBSTONE BLOB_DB_SLOT_F_SEGMENT) [] [];;;
    mret (snd cc).

Fixpoint seg_release (g : geom) (ids : list Z) : M lp unit :=
  match ids with
  | [] => mret tt
  | sid :: ids => mtry (seg_release_one g sid);;; seg_release g ids
  end.

(** ** The sweep *)

(** A turn of the loop over the slots of a bucket: the next cursor, or the end. *)
Definition sweep_step (g : geom) (bid owner k cursor : Z) : M lp (Z + unit) :=
  if cursor + BLOB_DB_SLOT_OVERHEAD >? peb_size g then mret (inr tt)
  else
    let* b := mtry (on_db (io (blob_db_store_read (bucket_offset g bid + cursor) 12))) in
    match b with
    | Err _ => mret (inr tt)
    | Ok b =>
        let sh := dec_slot_head b in
        let hdr := head_hdr sh in
        if (sh_flags hdr =? 255) || negb (flag_set (sh_flags hdr) BLOB_DB_SLOT_F_SEALED) || flags_unknown cfg (sh_flags hdr) ||
           (sh_val_len hdr >? MAX_PAYLOAD_LEN cfg)
        then mret (inr tt)
        else
          let ssz := slot_size_for g (sh_val_len hdr) in
          if cursor + ssz >? peb_size g then mret (inr tt)
          else
            let is_seg := flag_set (sh_flags hdr) BLOB_DB_SLOT_F_SEGMENT && negb (flag_set (sh_flags hdr) BLOB_DB_SLOT_F_TOMBSTONE) &&
                          (sh_val_len hdr >=? 12) in
            let next := cursor + ssz in
            if negb is_seg then mret (inl next)
            else
              let* r := mtry (on_db (find_live_slot cfg g bid (head_id sh))) in
              match r with
              | Err _ | Ok (_, Err _) => mret (inl next)
              | Ok (sc, Ok dst) =>
                  let hdr := head_hdr (target sc) in
                  if negb (flag_set (sh_flags hdr) BLOB_DB_SLOT_F_SEGMENT) || (sh_val_len hdr <? 12) then mret (inl next)
                  else if negb (gh_owner_id (dec_seg_hdr dst) =? owner) then mret (inl next)
                  else
                    let* ids := mgets g_seg_a in
                    if bool_decide (head_id sh ∈ take (Z.to_nat k) ids) then mret (inl next)
                    else
                      let* rc := mtry (seg_release_one g (head_id sh)) in
                      match rc with
                      | Ok true => mret (inl BLOB_DB_BUCKET_DATA_OFF)
                      | Ok false | Err ENOENT => mret (inl next)
                      | Err _ => mret (inr tt)
                      end
              end
    end.

Fixpoint sweep_buckets (n : nat) (g : geom) (bid owner k : Z) : M lp unit :=
  match n with
  | O => mret tt
  | Datatypes.S n =>
      let* formatted := mtry (on_db (read_bucket_hdr g bid)) in
      (match formatted with
       | Ok true => while64 (sweep_step g bid owner k) BLOB_DB_BUCKET_DATA_OFF
       | _ => mret tt
       end);;;
      sweep_buckets n g (bid + 1) owner k
  end.

Definition seg_sweep (g : geom) (owner : Z) : M lp unit :=
  let* rc := mtry (index_load_cached g owner) in
  let k := match rc with Ok (Some (_, k)) => u16 k | _ => 0 end in
  sweep_buckets (Z.to_nat (n_buckets g)) g 0 owner k;;;
  persist_seg_owner g 0.

Definition seg_finish_pending (g : geom) : M lp unit :=
  let* o := on_db (st_get seg_owner) in
  if o =? 0 then mret tt else seg_sweep g o.

(** ** Writing a segmented object *)

Definition index_commit (g : geom) (id : Z) (h : blob_db_index_hdr) (ids : list Z) : M lp unit :=
  let idx_len := u16 (16 + 8 * len ids) in
  let ssz := slot_size_for g idx_len in
  let bid := id_to_bucket g id in
  let* formatted := on_db (read_bucket_hdr g bid) in
  let* cursor :=
    if negb formatted then on_db (format_bucket g bid);;; mret BLOB_DB_BUCKET_DATA_OFF
    else walk_cursor g bid id in
  let* cursor :=
    if cursor + ssz >? peb_size g then
      on_db (compact_bucket cfg g bid);;;
      let* cursor := walk_cursor g bid id in
      if cursor + ssz >? peb_size g then mfail ENOSPC else mret cursor
    else mret cursor in
  seg_append g bid cursor id BLOB_DB_SLOT_F_INDEXED (enc_index_hdr h) (enc_ids ids).

(** The bytes of [old_bytes()] from [pos] on, [left] of them. *)
Fixpoint old_bytes (fuel : nat) (g : geom) (owner : Z) (h : blob_db_index_hdr) (ids : list Z) (k pos left : Z) : M lp bytes :=
  match fuel with
  | O => mret []
  | Datatypes.S fuel =>
      if left <=? 0 then mret []
      else
        let seq := u16 (pos / ih_seg_len h) in
        if (pos >=? ih_total_len h) || (seq >=? k) then mret (replicate (Z.to_nat left) 0)
        else
          let skip := pos mod ih_seg_len h in
          let n := Z.min (ih_seg_len h - skip) left in
          let n := if pos + n >? ih_total_len h then ih_total_len h - pos else n in
          let* b := seg_chunk_read g owner (seg_id_at ids seq) seq skip n in
          let* rest := old_bytes fuel g owner h ids k (pos + n) (left - n) in
          mret (b ++ rest)
  end.

(** What [pwrite_segmented()] puts in the chunk from [cstart] to [cend]. *)
Definition pwrite_chunk (g : geom) (id : Z) (h : blob_db_index_hdr) (k offset : Z) (buf : bytes) (cstart cend : Z) (touched : bool) : M lp bytes :=
  let clen := cend - cstart in
  if touched && (offset <=? cstart) && (offset + len buf >=? cend) then mret (slice (cstart - offset) clen buf)
  else
    let* ids := mgets g_seg_a in
    let* old := old_bytes (Z.to_nat clen) g id h ids k cstart clen in
    if touched then
      let s := Z.max offset cstart in
      let e := Z.min (offset + len buf) cend in
      mret (splice (s - cstart) (slice (s - offset) (e - s) buf) old)
    else mret old.

(** Its loop over the chunks, from [j] on, [n] of them left: the new table. *)
Fixpoint pwrite_loop (n : nat) (g : geom) (id : Z) (h : blob_db_index_hdr) (k offset : Z) (buf : bytes) (new_total j : Z) (seg_b : list Z) : M lp (list Z) :=
  match n with
  | O => mret seg_b
  | Datatypes.S n =>
      let seg_len := ih_seg_len h in
      let cstart := j * seg_len in
      let cend := Z.min (cstart + seg_len) new_total in
      let clen := cend - cstart in
      let touched := (offset <? cend) && (offset + len buf >? cstart) in
      let fresh := j >=? k in
      let old_clen := if fresh then 0 else Z.min (cstart + seg_len) (ih_total_len h) - cstart in
      let resized := negb fresh && negb (old_clen =? clen) in
      if negb touched && negb fresh && negb resized then pwrite_loop n g id h k offset buf new_total (j + 1) seg_b
      else
        let* chunk := pwrite_chunk g id h k offset buf cstart cend touched in
        let* sid := seg_write_chunk g id (u16 j) chunk in
        pwrite_loop n g id h k offset buf new_total (j + 1) (take (Z.to_nat j) seg_b ++ sid :: drop (Z.to_nat (j + 1)) seg_b)
  end.

(** The ids of [old] that [new] no longer has at their place. *)
Fixpoint replaced (old new : list Z) : list Z :=
  match old, new with
  | a :: old, b :: new => if a =? b then replaced old new else a :: replaced old new
  | _, _ => old
  end.

Definition pwrite_segmented (g : geom) (id offset : Z) (buf : bytes) : M lp unit :=
  let* r := index_load_cached g id in
  match r with
  | None => mfail EIO
  | Some (h, k) =>
      let* seg_max := mgets g_seg_max in
      let seg_len := ih_seg_len h in
      let new_total := Z.max (ih_total_len h) (u32 (offset + len buf)) in
      let new_k := u32 (new_total + seg_len - 1) / seg_len in
      if new_total >? MAX_OBJECT_LEN then mfail EFBIG
      else if new_k >? seg_max then mfail EFBIG
      else if seg_len >? MAX_PAYLOAD_LEN cfg then mfail EIO
      else
        persist_seg_owner g id;;;
        let* ids := mgets (fun s => take (Z.to_nat k) (g_seg_a s)) in
        let* seg_b := pwrite_loop (Z.to_nat new_k) g id h k offset buf new_total 0 ids in
        index_commit g id (mk_index_hdr BLOB_DB_INDEX_MAGIC BLOB_DB_INDEX_VERSION 0 (u32 new_total) 0 (u16 new_k) seg_len) seg_b;;;
        let* ids := mgets (fun s => take (Z.to_nat k) (g_seg_a s)) in
        seg_release g (replaced ids seg_b);;;
        persist_seg_owner g 0
  end.

(** The segments of [seg_update()], cut at [seg_len]. *)
Fixpoint seg_write_all (n : nat) (g : geom) (id seg_len j : Z) (src : bytes) : M lp (list Z) :=
  match n with
  | O => mret []
  | Datatypes.S n =>
      let* sid := seg_write_chunk g id (u16 j) (zt seg_len src) in
      let* ids := seg_write_all n g id seg_len (j + 1) (zd seg_len src) in
      mret (sid :: ids)
  end.

Definition seg_update (g : geom) (id : Z) (payload : bytes) (old_k : Z) : M lp unit :=
  let* seg_len := mgets g_seg_len in
  let* seg_max := mgets g_seg_max in
  let k := u32 (len payload + seg_len - 1) / seg_len in
  if len payload >? MAX_OBJECT_LEN then mfail EFBIG
  else if k >? seg_max then mfail EFBIG
  else
    persist_seg_owner g id;;;
    let* ids := seg_write_all (Z.to_nat k) g id seg_len 0 payload in
    index_commit g id (mk_index_hdr BLOB_DB_INDEX_MAGIC BLOB_DB_INDEX_VERSION BLOB_DB_INDEX_F_CRC32 (u32 (len payload)) (crc32_ieee payload) (u16 k) seg_len) ids;;;
    let* old := mgets (fun s => take (Z.to_nat old_k) (g_seg_a s)) in
    seg_release g old;;;
    persist_seg_owner g 0.

(** [seg_read_range()] from [pos] on, [left] bytes. *)
Fixpoint seg_read_loop (fuel : nat) (g : geom) (id : Z) (h : blob_db_index_hdr) (pos left : Z) : M lp bytes :=
  match fuel with
  | O => mret []
  | Datatypes.S fuel =>
      if left <=? 0 then mret []
      else
        let seq := u16 (pos / ih_seg_len h) in
        let skip := pos mod ih_seg_len h in
        let n := Z.min (ih_seg_len h - skip) left in
        let* ids := mgets g_seg_a in
        let* b := seg_chunk_read g id (seg_id_at ids seq) seq skip n in
        let* rest := seg_read_loop fuel g id h (pos + n) (left - n) in
        mret (b ++ rest)
  end.

Definition seg_read_range (g : geom) (id : Z) (h : blob_db_index_hdr) (offset n : Z) : M lp bytes :=
  if offset >=? ih_total_len h then mret []
  else
    let n := if n >? ih_total_len h - offset then ih_total_len h - offset else n in
    seg_read_loop (Z.to_nat n) g id h offset n.

(** ** The operations *)

Definition flags_of (r : bucket_scan * res bytes) : Z := sh_flags (head_hdr (target (fst r))).
Definition is_segment (r : bucket_scan * res bytes) : bool := flag_set (flags_of r) BLOB_DB_SLOT_F_SEGMENT.
Definition is_indexed (r : bucket_scan * res bytes) : bool := flag_set (flags_of r) BLOB_DB_SLOT_F_INDEXED.

Definition read_rc {A} (m : M lp A) : M lp A :=
  let* rc := mtry m in
  match rc with
  | Ok a => mret a
  | Err ENOTSUP => mfail EIO
  | Err e => mfail e
  end.

Definition read_impl (g : geom) (id offset : Z) (out_null : bool) (n : Z) : M lp bytes :=
  let* m := on_db (st_get mounted) in
  if negb m then mfail ENODEV
  else if (n >? 0) && out_null then mfail EINVAL
  else if id =? 0 then mfail ENOENT
  else
    let* s := mgets (fun s => s) in
    if g_idx_id s =? id then seg_read_range g id (g_idx_hdr s) offset n
    else
      let bid := id_to_bucket g id in
      let* formatted := on_db (read_bucket_hdr g bid) in
      if negb formatted then mfail ENOENT
      else
        let* r := on_db (find_live_slot cfg g bid id) in
        let* dst := mlift (snd r) in
        if is_segment r then mfail ENOENT
        else if is_indexed r then
          let* hk := index_load_cached g id in
          match hk with
          | Some (h, _) => seg_read_range g id h offset n
          | None => mfail EIO (* the slot was indexed *)
          end
        else
          let have := sh_val_len (head_hdr (target (fst r))) in
          if offset >=? have then mret []
          else
            let n := if n >? have - offset then have - offset else n in
            mret (slice offset n dst).

Definition get_impl (g : geom) (id : Z) (out_null : bool) (out_sz : Z) : M lp bytes :=
  let* m := on_db (st_get mounted) in
  if negb m then mfail ENODEV
  else if (out_sz >? 0) && out_null then mfail EINVAL
  else if id =? 0 then mfail ENOENT
  else
    let bid := id_to_bucket g id in
    let* formatted := on_db (read_bucket_hdr g bid) in
    if negb formatted then mfail ENOENT
    else
      let* r := on_db (find_live_slot cfg g bid id) in
      let* dst := mlift (snd r) in
      if is_segment r then mfail ENOENT
      else if is_indexed r then
        let* hk := index_load_cached g id in
        match hk with
        | Some (h, _) => if out_sz <? ih_total_len h then mfail ENOMEM else read_rc (read_impl g id 0 out_null (ih_total_len h))
        | None => mfail EIO (* the slot was indexed *)
        end
      else
        let val_len := sh_val_len (head_hdr (target (fst r))) in
        if out_sz <? val_len then mfail ENOMEM else mret (zt val_len dst).

Definition exists_impl (g : geom) (id : Z) : M lp bool :=
  let* m := on_db (st_get mounted) in
  if negb m || (id =? 0) then mret false
  else
    let bid := id_to_bucket g id in
    let* rc := mtry (on_db (read_bucket_hdr g bid)) in
    match rc with
    | Ok true =>
        let* r := mtry (on_db (find_live_slot cfg g bid id)) in
        mret (match r with Ok (sc, Ok p) => negb (is_segment (sc, Ok p)) | _ => false end)
    | _ => mret false
    end.

Definition size_impl (g : geom) (id : Z) (out_null : bool) : M lp Z :=
  let* m := on_db (st_get mounted) in
  if negb m then mfail ENODEV
  else if out_null then mfail EINVAL
  else if id =? 0 then mfail ENOENT
  else
    let bid := id_to_bucket g id in
    let* formatted := on_db (read_bucket_hdr g bid) in
    if negb formatted then mfail ENOENT
    else
      let* r := on_db (find_live_slot cfg g bid id) in
      let* dst := mlift (snd r) in
      let val_len := sh_val_len (head_hdr (target (fst r))) in
      if is_segment r then mfail ENOENT
      else if is_indexed r then
        let* seg_max := mgets g_seg_max in
        if (val_len <? 16) || negb (index_hdr_valid seg_max (dec_index_hdr dst) val_len) then mfail EIO
        else mret (ih_total_len (dec_index_hdr dst))
      else mret val_len.

(** [update_impl()] in a formatted bucket: the cursor, and the number of segments
    of the outgoing generation, whose table is in [g_seg_a]. *)
Definition update_probe (g : geom) (bid id : Z) : M lp (Z * Z) :=
  let* r := on_db (find_live_slot cfg g bid id) in
  match snd r with
  | Err ENOENT =>
      let* wc := on_db (confirm_cursor cfg g bid id (fst r)) in
      mret (wc, 0)
  | Err e => mfail e
  | Ok _ =>
      if is_segment r then mfail EINVAL
      else
        let* wc := on_db (confirm_cursor cfg g bid id (fst r)) in
        if is_indexed r then
          let* hk := mtry (index_load_cached g id) in
          mret (wc, match hk with Ok (Some (_, k)) => u16 k | _ => 0 end)
        else mret (wc, 0)
  end.

(** Releasing the generation an inline bind or a tombstone replaced. *)
Definition release_old (g : geom) (old_k : Z) : M lp unit :=
  if old_k >? 0 then
    let* ids := mgets (fun s => take (Z.to_nat old_k) (g_seg_a s)) in
    seg_release g ids;;;
    persist_seg_owner g 0
  else mret tt.

Definition update_inline (g : geom) (bid id wc : Z) (p : bytes) (old_k : Z) : M lp unit :=
  let ssz := slot_size_for g (u16 (len p)) in
  let* wc :=
    if wc + ssz >? peb_size g then
      on_db (
        compact_bucket cfg g bid;;;
        let* sc := bucket_cursor cfg g bid id in
        let* wc := confirm_cursor cfg g bid id sc in
        if wc + ssz >? peb_size g then mfail ENOSPC else mret wc)
    else mret wc in
  (if old_k >? 0 then persist_seg_owner g id else mret tt);;;
  seg_append g bid wc id 0 [] p;;;
  release_old g old_k.

Definition update_impl (g : geom) (id : Z) (payload : option bytes) : M lp unit :=
  let* m := on_db (st_get mounted) in
  let* w := on_db (st_get wedged) in
  let* nx := on_db (st_get next_id) in
  if negb m then mfail ENODEV
  else if w then mfail EIO
  else if (id =? 0) || (id >=? nx) then mfail EINVAL
  else
    match payload with
    | None => mfail EINVAL
    | Some p =>
        let* enabled := seg_enabled in
        if (len p >? MAX_OBJECT_LEN) || ((len p >? MAX_PAYLOAD_LEN cfg) && negb enabled) then mfail EINVAL
        else
          seg_finish_pending g;;;
          let bid := id_to_bucket g id in
          let* formatted := on_db (read_bucket_hdr g bid) in
          let* wk :=
            if negb formatted then on_db (format_bucket g bid);;; mret (BLOB_DB_BUCKET_DATA_OFF, 0)
            else update_probe g bid id in
          if len p >? MAX_PAYLOAD_LEN cfg then seg_update g id p (snd wk)
          else update_inline g bid id (fst wk) p (snd wk)
    end.

(** The slot to bury and where its tombstone goes. *)
Definition delete_room (g : geom) (bid id : Z) (r : bucket_scan * res bytes) : M lp (Z * bool) :=
  on_db (
    let ssz := slot_size_for g 0 in
    let* wc := confirm_cursor cfg g bid id (fst r) in
    if wc + ssz >? peb_size g then
      compact_bucket cfg g bid;;;
      let* r := find_live_slot cfg g bid id in
      mlift (snd r);;;
      let* wc := confirm_cursor cfg g bid id (fst r) in
      if wc + ssz >? peb_size g then mfail ENOSPC else mret (wc, is_indexed r)
    else mret (wc, is_indexed r)).

Definition delete_impl (g : geom) (id : Z) : M lp unit :=
  let* m := on_db (st_get mounted) in
  let* w := on_db (st_get wedged) in
  if negb m then mfail ENODEV
  else if w then mfail EIO
  else if id =? 0 then mfail ENOENT
  else
    seg_finish_pending g;;;
    let bid := id_to_bucket g id in
    let* formatted := on_db (read_bucket_hdr g bid) in
    if negb formatted then mfail ENOENT
    else
      let* r := on_db (find_live_slot cfg g bid id) in
      mlift (snd r);;;
      if is_segment r then mfail EINVAL
      else
        let* wi := delete_room g bid id r in
        let* old_k :=
          if snd wi then
            let* hk := mtry (index_load_cached g id) in
            match hk with
            | Ok (Some (_, k)) => persist_seg_owner g id;;; mret (u16 k)
            | _ => mret 0
            end
          else mret 0 in
        seg_append g bid (fst wi) id BLOB_DB_SLOT_F_TOMBSTONE [] [];;;
        release_old g old_k.

(** [write_impl()] on an inline object. *)
Definition write_inline (g : geom) (bid id offset : Z) (b : bytes) (sc : bucket_scan) (dst : bytes) : M lp unit :=
  let have := sh_val_len (head_hdr (target sc)) in
  let need := Z.max (u32 (offset + len b)) have in
  if need >? MAX_PAYLOAD_LEN cfg then mfail EFBIG
  else
    let ssz := slot_size_for g (u16 need) in
    let* wd := on_db (
      let* wc := confirm_cursor cfg g bid id sc in
      if wc + ssz >? peb_size g then
        compact_bucket cfg g bid;;;
        let* r := find_live_slot cfg g bid id in
        let* dst := mlift (snd r) in
        let* wc := confirm_cursor cfg g bid id (fst r) in
        if wc + ssz >? peb_size g then mfail ENOSPC else mret (wc, dst)
      else mret (wc, dst)) in
    seg_append g bid (fst wd) id 0 [] (staged (snd wd) b offset have need).

Definition write_impl (g : geom) (id offset : Z) (buf : option bytes) : M lp unit :=
  let* m := on_db (st_get mounted) in
  let* w := on_db (st_get wedged) in
  if negb m then mfail ENODEV
  else if w then mfail EIO
  else
    match buf with
    | None => mfail EINVAL
    | Some b =>
        if id =? 0 then mfail ENOENT
        else if u32 (offset + len b) <? offset then mfail EINVAL
        else
          seg_finish_pending g;;;
          let bid := id_to_bucket g id in
          let* formatted := on_db (read_bucket_hdr g bid) in
          if negb formatted then mfail ENOENT
          else
            let* r := on_db (find_live_slot cfg g bid id) in
            let* dst := mlift (snd r) in
            if is_segment r then mfail EINVAL
            else if len b =? 0 then mret tt
            else if is_indexed r then pwrite_segmented g id offset b
            else write_inline g bid id offset b (fst r) dst
    end.

(** ** Mounting and the public calls *)

Definition mount_impl : M lp unit :=
  let* m := on_db (st_get mounted) in
  if m then mfail EALREADY
  else
    idx_invalidate;;;
    on_db (mount_impl cfg);;;
    let* g := on_db (mgets d_geo) in
    let* rc := mtry (
      seg_geometry_init g;;;
      let* o := on_db (st_get seg_owner) in
      if negb (o =? 0) then seg_sweep g o else mret tt) in
    match rc with
    | Ok _ => mret tt
    | Err e => on_db (st_mod (set_mounted false);;; ix blob_db_sidx_disable;;; store_close);;; mfail e
    end.

Definition unmount_impl : M lp unit :=
  let* m := on_db (st_get mounted) in
  if negb m then mret tt else on_db unmount_impl;;; idx_invalidate.

Definition format_impl : M lp unit :=
  let* m := on_db (st_get mounted) in
  (if m then mret tt else on_db (store_open_and_validate cfg true));;;
  let* g := on_db (mgets d_geo) in
  idx_invalidate;;;
  let* rc := mtry (on_db (format_whole_store cfg g)) in
  match rc with
  | Err e => (if m then mret tt else on_db store_close);;; mfail e
  | Ok _ =>
      if m then mret tt
      else
        on_db (st_mod (set_mounted true));;;
        let* rc := mtry (seg_geometry_init g) in
        match rc with
        | Ok _ => mret tt
        | Err e => on_db (st_mod (set_mounted false);;; store_close);;; mfail e
        end
  end.

Definition erase_all_impl : M lp unit :=
  let* m := on_db (st_get mounted) in
  let* w := on_db (st_get wedged) in
  (if m && negb w then idx_invalidate else mret tt);;;
  on_db (erase_all_impl cfg).

Definition with_geo {A} (f : geom -> M lp A) : M lp A :=
  let* g := on_db (mgets d_geo) in
  f g.

Definition then_reset (m : M lp unit) : M lp unit := m;;; with_geo (fun g => on_db (maint_reset g)).

Definition blob_db_mount : M lp unit := then_reset mount_impl.
Definition blob_db_unmount : M lp unit := unmount_impl.
Definition blob_db_format : M lp unit := then_reset format_impl.
Definition blob_db_erase_all : M lp unit := then_reset erase_all_impl.
Definition blob_db_alloc_id : M lp Z := with_geo (fun g => on_db (alloc_id_impl cfg g)).
Definition blob_db_get (id : Z) (out_null : bool) (out_sz : Z) : M lp bytes := with_geo (fun g => read_rc (get_impl g id out_null out_sz)).
Definition blob_db_update (id : Z) (payload : option bytes) : M lp unit := with_geo (fun g => update_impl g id payload).
Definition blob_db_size (id : Z) (out_null : bool) : M lp Z := with_geo (fun g => read_rc (size_impl g id out_null)).
Definition blob_db_read (id offset : Z) (out_null : bool) (n : Z) : M lp bytes := with_geo (fun g => read_rc (read_impl g id offset out_null n)).
Definition blob_db_write (id offset : Z) (buf : option bytes) : M lp unit := with_geo (fun g => write_impl g id offset buf).
Definition blob_db_delete (id : Z) : M lp unit := with_geo (fun g => delete_impl g id).
Definition blob_db_exists (id : Z) : M lp bool := with_geo (fun g => exists_impl g id).
End segments.
End Large.

(** The records of large payloads: the index and segment headers and the id
    table round-trip, and what an index header that passes the checks says. *)

#[local] Opaque le.

(** ** Round trips *)

Definition index_hdr_wf (h : blob_db_index_hdr) : Prop :=
  len (ih_magic h) = 2 /\ 0 <= ih_version h < 2 ^ 8 /\ 0 <= ih_flags h < 2 ^ 8 /\ 0 <= ih_total_len h < 2 ^ 32 /\
  0 <= ih_payload_crc32 h < 2 ^ 32 /\ 0 <= ih_seg_count h < 2 ^ 16 /\ 0 <= ih_seg_len h < 2 ^ 16.

Definition seg_hdr_wf (h : blob_db_seg_hdr) : Prop :=
  0 <= gh_owner_id h < 2 ^ 64 /\ 0 <= gh_seq h < 2 ^ 16 /\ 0 <= gh_reserved h < 2 ^ 16.

Lemma len_enc_index_hdr h : len (ih_magic h) = 2 -> len (enc_index_hdr h) = 16.
Proof. intros Hm. unfold enc_index_hdr. rewrite !len_app, !len_le, Hm. lia. Qed.

Lemma len_enc_seg_hdr h : len (enc_seg_hdr h) = 12.
Proof. unfold enc_seg_hdr. rewrite !len_app, !len_le. lia. Qed.

Lemma dec_enc_index_hdr h t : index_hdr_wf h -> dec_index_hdr (enc_index_hdr h ++ t) = h.
Proof.
  destruct h. unfold index_hdr_wf, dec_index_hdr, enc_index_hdr. simpl. intros H. destruct_and?.
  rewrite <- !app_assoc. rd_fields. done.
Qed.

Lemma dec_enc_seg_hdr h t : seg_hdr_wf h -> dec_seg_hdr (enc_seg_hdr h ++ t) = h.
Proof.
  destruct h. unfold seg_hdr_wf, dec_seg_hdr, enc_seg_hdr. simpl. intros H. destruct_and?.
  rewrite <- !app_assoc. rd_fields. done.
Qed.

Lemma enc_ids_cons i ids : enc_ids (i :: ids) = le 8 i ++ enc_ids ids.
Proof. done. Qed.

Lemma len_enc_ids ids : len (enc_ids ids) = 8 * len ids.
Proof. induction ids as [|i ids IH]; [done|]. rewrite enc_ids_cons, len_cons, len_app, len_le, IH. lia. Qed.

Lemma dec_enc_ids ids a t : Forall (fun i => 0 <= i < 2 ^ 64) ids -> dec_ids (len a) (len ids) (a ++ enc_ids ids ++ t) = ids.
Proof.
  intros Hi. unfold dec_ids, len at 2. rewrite Nat2Z.id. revert a. induction Hi as [|i ids Hi His IH]; intros a; [done|].
  cbn [length seq]. rewrite fmap_cons, enc_ids_cons. f_equal.
  - rewrite rd_skip by lia. rewrite <- app_assoc. replace (len a + 8 * Z.of_nat 0 - len a) with 0 by lia. by apply rd_here.
  - etransitivity; [|exact (IH (a ++ le 8 i))]. rewrite <- fmap_S_seq, <- list_fmap_compose. apply list_fmap_ext. intros k j Hk.
    cbn [compose]. rewrite <- !app_assoc, len_app, len_le. unfold compose. f_equal. lia.
Qed.

Lemma bytes_ok_enc_ids ids : bytes_ok (enc_ids ids).
Proof. induction ids as [|i ids IH]; [constructor|]. rewrite enc_ids_cons. apply bytes_ok_app. split; [apply bytes_ok_le|done]. Qed.

Lemma bytes_ok_enc_seg_hdr h : bytes_ok (enc_seg_hdr h).
Proof. unfold enc_seg_hdr. rewrite !bytes_ok_app. split_and!; apply bytes_ok_le. Qed.

Lemma bytes_ok_enc_index_hdr h : bytes_ok (ih_magic h) -> bytes_ok (enc_index_hdr h).
Proof. intros Hm. unfold enc_index_hdr. rewrite !bytes_ok_app. split_and!; try apply bytes_ok_le. done. Qed.

Lemma len_dec_ids off k b : 0 <= k -> len (dec_ids off k b) = k.
Proof. intros Hk. unfold dec_ids, len. rewrite length_fmap, length_seq. lia. Qed.

(** ** What the checks of an index header establish *)

Lemma index_hdr_valid_spec sm h n :
  Large.index_hdr_valid sm h n = true <->
  ih_magic h = BLOB_DB_INDEX_MAGIC /\ ih_version h = BLOB_DB_INDEX_VERSION /\ ih_seg_count h <> 0 /\ ih_seg_count h <= sm /\ ih_seg_len h <> 0 /\
  16 + ih_seg_count h * 8 <= n /\ ih_total_len h <> 0 /\
  ih_seg_count h * ih_seg_len h - ih_seg_len h < ih_total_len h <= ih_seg_count h * ih_seg_len h.
Proof.
  unfold Large.index_hdr_valid. cbv zeta.
  repeat match goal with |- context [bool_decide ?P] => destruct (bool_decide_reflect P) end; cbn [negb orb]; [|split; [done|tauto]].
  destruct (Z.eqb_spec (ih_version h) BLOB_DB_INDEX_VERSION); cbn [negb]; [|split; [done|tauto]].
  destruct (Z.eqb_spec (ih_seg_count h) 0); cbn [orb]; [split; [done|tauto]|]. destruct (Z.gtb_spec (ih_seg_count h) sm); cbn [orb]; [split; [done|lia]|].
  destruct (Z.eqb_spec (ih_seg_len h) 0); cbn [orb]; [split; [done|tauto]|]. destruct (Z.ltb_spec n (16 + ih_seg_count h * 8)); [split; [done|lia]|].
  destruct (Z.eqb_spec (ih_total_len h) 0); cbn [orb]; [split; [done|tauto]|].
  destruct (Z.gtb_spec (ih_total_len h) (ih_seg_count h * ih_seg_len h)); cbn [orb]; [split; [done|lia]|].
  destruct (Z.leb_spec (ih_total_len h) (ih_seg_count h * ih_seg_len h - ih_seg_len h)); (split; [done|lia]) || split_and!; try done; lia.
Qed.

(** ** A payload cut into chunks *)

Lemma concat_slices sl (v : bytes) a k :
  0 <= a -> 0 <= sl -> concat ((fun j : nat => slice (a + Z.of_nat j * sl) sl v) <$> seq 0 k) = slice a (Z.of_nat k * sl) v.
Proof.
  intros Ha Hs. induction k as [|k IH]; [done|]. rewrite seq_S, fmap_app, List.concat_app, IH. cbn [concat fmap list_fmap]. rewrite app_nil_r.
  replace (Z.of_nat (Datatypes.S k) * sl) with (Z.of_nat k * sl + sl) by lia. rewrite slice_split by lia. done.
Qed.

Lemma slice_over n (v : bytes) : len v <= n -> slice 0 n v = v.
Proof. intros Hn. unfold slice, zt, zd, len in *. rewrite drop_0. apply take_ge. lia. Qed.

(** A slice that may run past the end. *)
Lemma len_slice_le off n (l : bytes) : 0 <= off <= len l -> 0 <= n -> len (slice off n l) = Z.min n (len l - off).
Proof. intros Ho Hn. unfold slice, zt, zd, len in *. rewrite length_take, length_drop. lia. Qed.

Lemma slice_past off n (l : bytes) : len l <= off -> slice off n l = [].
Proof. intros Ho. unfold slice, zt, zd, len in *. rewrite drop_ge by lia. apply take_nil. Qed.

Lemma slice_clip off n (l : bytes) : 0 <= off <= len l -> 0 <= n -> slice off n l = slice off (Z.min n (len l - off)) l.
Proof.
  intros Ho Hn. apply list_eq. intros i. rewrite !lookup_slice by lia. repeat case_decide; try done; try lia.
  apply lookup_ge_len. unfold len in *. lia.
Qed.

Lemma slice_in_chunk sl j skip n (v : bytes) :
  0 <= j -> 0 <= skip -> 0 <= n -> skip + n <= sl -> slice skip n (slice (j * sl) sl v) = slice (j * sl + skip) n v.
Proof. intros. rewrite slice_slice by nia. done. Qed.
