(* ===== verification/SegBase.v ===== *)
(** What the parts of large payloads have in common: the invariant of a store
    that holds segmented objects, and what the calls below it (reads, formatting,
    compaction, allocation, the owner word, an append) do to it on a device that
    works. *)

From S2P Require Import Prelude Layout Store SlotIndexIface Image Core CoreRead Lookup Append Bucket Compact.
From S2P Require Import CompactImage Recovery CompactSpec Ops OpsRead OpsWrite Master Mount MasterSpec MasterInv.
From S2P Require Import MountSpec Session Segments.

Section base.
Context (cfg : config) (MAX_OBJECT_LEN : Z) (g : geom) `{Crc}.
Context {S I : Type} `{!Store S} `{!StoreView S} `{!SlotIndex I}.
Context (Hg : geom_ok cfg g) (Ha : geom_aligned g) {SL : StoreLaws S (store_geom_of g)} {CL : CrcLaws _}.
Context (sidx_wf : Z -> I -> Prop) {IL : SlotIndexLaws I sidx_wf}.
Context (Hlarge : LARGE_PAYLOADS cfg = true).
Notation db := (db S I).
Notation lp := (lp S I).
Notation ready := (ready cfg g sidx_wf).
Notation coherent := (coherent cfg g sidx_wf).
Notation slots := (slots cfg g).
Notation session := (session cfg g sidx_wf).
Notation bucket_of id := (id mod n_buckets g).
Notation heads_ok d := (heads_by cfg g (bimg d)).
Implicit Types (d : db) (s : lp).

(** ** What a bucket needs compacted depends on its slots alone *)

Definition key (e : entry) : Z * (Z * bytes) := (e_id e, (sv_flags (e_sv e), e_payload e)).

Lemma survivors_keys l x : x ∈ key <$> survivors l <-> slot_of (fst x) l = Some (snd x).
Proof.
  rewrite list_elem_of_fmap. split.
  - intros (e & -> & He). by apply survivors_slot.
  - destruct x as [i v]. cbn. intros Hs. destruct (slot_survives _ _ _ Hs) as (e & He & <- & ->). by exists e.
Qed.

Lemma survivors_sizes l :
  (forall e, e ∈ l -> e_size e = slot_size_for g (len (e_payload e))) ->
  total_size (survivors l) = foldr Z.add 0 ((fun x => slot_size_for g (len (snd (snd x)))) <$> (key <$> survivors l)).
Proof.
  intros Hs. assert (forall e, e ∈ survivors l -> e_size e = slot_size_for g (len (e_payload e))) as Hs'.
  { intros e He. apply Hs. by apply survivors_elem in He as (? & _). }
  clear Hs. induction (survivors l) as [|e k IH]; [done|]. rewrite !fmap_cons. cbn [total_size foldr key snd].
  rewrite Hs' by apply list_elem_of_here. fold (total_size k). rewrite IH; [done|]. intros x Hx. apply Hs'. by apply list_elem_of_further.
Qed.

Lemma sum_permutation (l k : list Z) : l ≡ₚ k -> foldr Z.add 0 l = foldr Z.add 0 k.
Proof. induction 1; cbn [foldr]; lia. Qed.

(** The survivors of a bucket are the slots of its ids. *)
Lemma bucket_keys d bid x :
  db_inv cfg g sidx_wf d -> 0 <= bid < n_buckets g -> bucket_hdr_valid (bimg d bid) bid = true ->
  x ∈ key <$> survivors (bucket_log cfg g (bimg d bid)) <-> bucket_of (fst x) = bid /\ slots d (fst x) = Some (snd x).
Proof.
  intros Hi Hb Hv. rewrite survivors_keys. destruct x as [i v]. cbn [fst snd]. split.
  - intros E. destruct (slot_survives _ _ _ E) as (e & He & <- & _). destruct (survivors_elem _ _ He) as (Hin & Hint & _).
    destruct (bi_ids _ _ _ _ (inv_bucket _ _ _ _ Hi bid Hb Hv) e Hin Hint) as [_ Eb]. split; [done|].
    unfold Bucket.slots, bucket_slot. by rewrite Eb, Hv.
  - intros [Eb E]. unfold Bucket.slots, bucket_slot in E. by rewrite Eb, Hv in E.
Qed.

Lemma keys_NoDup l : NoDup (key <$> survivors l).
Proof. apply (NoDup_fmap_1 fst). rewrite <- list_fmap_compose. apply survivors_ids. Qed.

Lemma compact_len_slots d d' bid :
  0 <= bid < n_buckets g -> db_inv cfg g sidx_wf d -> db_inv cfg g sidx_wf d' -> same_contents cfg g d d' ->
  bucket_hdr_valid (bimg d bid) bid = true -> bucket_hdr_valid (bimg d' bid) bid = true ->
  compact_len cfg g (bimg d' bid) = compact_len cfg g (bimg d bid).
Proof.
  intros Hb Hi Hi' Hs Hv Hv'. unfold compact_len.
  assert (forall x : db, forall e, e ∈ bucket_log cfg g (bimg x bid) -> e_size e = slot_size_for g (len (e_payload e))) as Hsz.
  { intros x e He. destruct (elem_known cfg g Hg x bid e Hb He) as (Hl & _). rewrite Hl.
    pose proof (bimg_ok cfg g Hg x bid Hb) as [Hlen Hby]. destruct (parsed_log cfg g Hg _ Hby) as [Hlr _]. pose proof (ok_peb_size _ _ Hg).
    destruct (log_rel_elem cfg g _ _ _ _ e Hlr He) as [Hw _].
    destruct (log_rel_off_bounds cfg g Hg _ BLOB_DB_BUCKET_DATA_OFF _ _ e Hby ltac:(unfold_consts; lia) Hlr He) as (? & _).
    unfold_consts. by destruct (slot_walk_bounds cfg g Hg _ (e_off e) _ _ Hby ltac:(lia) Hw) as (_ & _ & _ & ?). }
  rewrite !survivors_sizes by apply Hsz. f_equal.
  apply sum_permutation, fmap_Permutation. apply NoDup_Permutation; [apply keys_NoDup..|].
  intros [i v]. rewrite (bucket_keys d'), (bucket_keys d) by done. by rewrite Hs.
Qed.

(** ** Objects

    An id holds an inline payload, or the chunks of the segments its index
    record lists; a segment's own id holds nothing a caller may see. *)

Definition is_seg (fl : Z) : bool := flag_set fl BLOB_DB_SLOT_F_SEGMENT.
Definition is_idx (fl : Z) : bool := flag_set fl BLOB_DB_SLOT_F_INDEXED.
Definition ids_of (p : bytes) : list Z := dec_ids 16 (ih_seg_count (dec_index_hdr p)) p.
Definition chunk_at d (sid : Z) : bytes := match slots d sid with Some (_, q) => zd 12 q | None => [] end.

Definition object d (id : Z) : option bytes :=
  match slots d id with
  | Some (fl, p) =>
      if is_seg fl then None else if is_idx fl then Some (concat (chunk_at d <$> ids_of p)) else Some p
  | None => None
  end.

Definition internal d (id : Z) : bool := match slots d id with Some (fl, _) => is_seg fl | None => false end.

(** [sid] holds chunk [c], the [seq]-th of [owner]. *)
Definition seg_of d (owner seq sid : Z) (c : bytes) : Prop := exists fl q,
  slots d sid = Some (fl, q) /\ is_seg fl = true /\ 12 <= len q /\
  gh_owner_id (dec_seg_hdr q) = owner /\ gh_seq (dec_seg_hdr q) = seq /\ zd 12 q = c.

(** [p] is an index record of [id], and the segments it lists hold [v] cut in
    chunks of [sl] bytes. *)
Record segmented d (sl sm id : Z) (p v : bytes) : Prop := {
  sg_valid : Large.index_hdr_valid sm (dec_index_hdr p) (len p) = true;
  sg_len : ih_seg_len (dec_index_hdr p) = sl;
  sg_total : ih_total_len (dec_index_hdr p) = len v;
  sg_max : len v <= MAX_OBJECT_LEN;
  sg_segs : forall j sid, ids_of p !! j = Some sid -> seg_of d id (Z.of_nat j) sid (slice (Z.of_nat j * sl) sl v);
}.

Lemma object_same d d' id : same_contents cfg g d d' -> object d' id = object d id.
Proof.
  intros Hs. unfold object. rewrite Hs. destruct (slots d id) as [[fl p]|]; [|done].
  assert (chunk_at d' <$> ids_of p = chunk_at d <$> ids_of p) as ->; [|done].
  apply list_fmap_ext. intros j sid _. unfold chunk_at. by rewrite Hs.
Qed.

Lemma internal_same d d' id : same_contents cfg g d d' -> internal d' id = internal d id.
Proof. intros Hs. unfold internal. by rewrite Hs. Qed.

(** Only the listed segments matter. *)
Lemma segmented_frame d d' sl sm id p v :
  (forall sid, sid ∈ ids_of p -> slots d' sid = slots d sid) -> segmented d sl sm id p v -> segmented d' sl sm id p v.
Proof.
  intros Hs [H1 H2 H3 H4 H5]. split; try done. intros j sid Hj. destruct (H5 j sid Hj) as (fl & q & E & ?).
  exists fl, q. rewrite Hs; [done|]. by eapply list_elem_of_lookup_2.
Qed.

Lemma segmented_same d d' sl sm id p v : same_contents cfg g d d' -> segmented d sl sm id p v -> segmented d' sl sm id p v.
Proof. intros Hs. apply segmented_frame. intros sid _. apply Hs. Qed.

Lemma seg_count_range p : bytes_ok p -> 16 <= len p -> 0 <= ih_seg_count (dec_index_hdr p) < 65536.
Proof. intros Hb Hl. cbn. apply (rd_range 2); [done|lia..]. Qed.

Lemma lookup_ids p j sid : ids_of p !! j = Some sid -> 0 <= ih_seg_count (dec_index_hdr p) -> Z.of_nat j < ih_seg_count (dec_index_hdr p).
Proof. intros Hj Hc. apply lookup_lt_Some in Hj. pose proof (len_dec_ids 16 _ p Hc). unfold ids_of, len in *. lia. Qed.

Lemma payload_small : 1 <= MAX_PAYLOAD_LEN cfg < 32768.
Proof.
  pose proof (ok_payload _ _ Hg). pose proof (ok_peb_size _ _ Hg). unfold_consts. pose proof (Z.mul_div_le (peb_size g - 16) 2). lia.
Qed.

(** What is known of a slot that is found. *)
Lemma slots_known d id fl p :
  db_inv cfg g sidx_wf d -> slots d id = Some (fl, p) ->
  0 < id < 2 ^ 64 /\ len p <= MAX_PAYLOAD_LEN cfg /\ bytes_ok p /\ bucket_hdr_valid (bimg d (bucket_of id)) (bucket_of id) = true.
Proof.
  intros Hi E. unfold Bucket.slots, bucket_slot in E. destruct (bucket_hdr_valid _ _) eqn:Hv in E; [|done].
  pose proof (bucket_range cfg g Hg id) as Hb. destruct (slot_survives _ _ _ E) as (e & He & <- & [= -> ->]).
  destruct (survivors_elem _ _ He) as (Hin & Hint & _). destruct (elem_known cfg g Hg d _ e Hb Hin) as (Hl & Hm & Hby & _).
  destruct (bi_ids _ _ _ _ (inv_bucket _ _ _ _ Hi _ Hb Hv) e Hin Hint) as [? _]. split_and!; try done; lia.
Qed.

Lemma segmented_object d sl sm id fl p v :
  slots d id = Some (fl, p) -> is_seg fl = false -> is_idx fl = true -> segmented d sl sm id p v -> 0 < sl -> 0 <= ih_seg_count (dec_index_hdr p) ->
  object d id = Some v.
Proof.
  intros E Hs Hi [Hv Hl Ht _ Hsg] Hsl Hc. unfold object. rewrite E, Hs, Hi. f_equal.
  apply index_hdr_valid_spec in Hv as (_ & _ & _ & _ & _ & _ & _ & Hspan).
  assert (chunk_at d <$> ids_of p = (fun j : nat => slice (0 + Z.of_nat j * sl) sl v) <$> seq 0 (length (ids_of p))) as ->.
  { apply list_eq. intros j. rewrite !list_lookup_fmap. destruct (ids_of p !! j) as [sid|] eqn:Ej.
    - rewrite lookup_seq_lt by (by eapply lookup_lt_Some). cbn. f_equal. destruct (Hsg j sid Ej) as (fl' & q & E' & _ & _ & _ & _ & Ec).
      unfold chunk_at. by rewrite E', Ec.
    - apply lookup_ge_None in Ej. rewrite lookup_seq_ge by done. done. }
  rewrite concat_slices by lia. apply slice_over. pose proof (len_dec_ids 16 _ p Hc) as Hn. fold (ids_of p) in Hn. rewrite Hl, Ht, <- Hn in Hspan. apply Hspan.
Qed.

(** ** The invariant *)

(** What seg_geometry_init() establishes. *)
Record seg_geo s : Prop := {
  gg_len : 1 <= g_seg_len s <= MAX_PAYLOAD_LEN cfg - 12;
  gg_max : 1 <= g_seg_max s <= 8192;
  gg_idx : 16 + 8 * g_seg_max s <= MAX_PAYLOAD_LEN cfg;
  gg_reach : MAX_OBJECT_LEN <= g_seg_max s * g_seg_len s;
}.

Definition cache_ok s : Prop := g_idx_id s = 0 \/ exists fl p,
  slots (lp_db s) (g_idx_id s) = Some (fl, p) /\ is_seg fl = false /\ is_idx fl = true /\ g_idx_hdr s = dec_index_hdr p /\
  g_idx_k s = ih_seg_count (dec_index_hdr p) /\ take (Z.to_nat (g_idx_k s)) (g_seg_a s) = ids_of p.

Record lsession s : Prop := {
  ls_session : session (lp_db s);
  ls_fresh : forall id, slots (lp_db s) id <> None -> id < next_id (d_st (lp_db s));
  ls_geo : seg_geo s;
  ls_wf : forall id fl p, slots (lp_db s) id = Some (fl, p) -> is_seg fl = false -> is_idx fl = true ->
    exists v, segmented (lp_db s) (g_seg_len s) (g_seg_max s) id p v;
  ls_flags : forall id fl p, slots (lp_db s) id = Some (fl, p) -> is_seg fl = true -> is_idx fl = false;
  ls_root : object (lp_db s) BLOB_DB_ROOT_ID <> None;
  ls_cache : cache_ok s;
  ls_heads : heads_ok (lp_db s);
}.

Definition with_db s d : lp := mk_lp d (g_idx_id s) (g_idx_hdr s) (g_idx_k s) (g_seg_a s) (g_seg_len s) (g_seg_max s).

(** The cursor bookkeeping apart: the counters may have grown by [k], no slot
    changed, and every formatted bucket still is. *)
Record kept (k : Z) s s' : Prop := {
  kp_session : session (lp_db s');
  kp_slots : same_contents cfg g (lp_db s) (lp_db s');
  kp_next : next_id (d_st (lp_db s)) <= next_id (d_st (lp_db s')) <= next_id (d_st (lp_db s)) + k;
  kp_rot : rot_gen (d_st (lp_db s')) <= rot_gen (d_st (lp_db s)) + k;
  kp_valid : forall b, 0 <= b < n_buckets g -> bucket_hdr_valid (bimg (lp_db s) b) b = true -> bucket_hdr_valid (bimg (lp_db s') b) b = true;
  kp_heads : heads_ok (lp_db s) -> heads_ok (lp_db s');
  kp_fields : s' = with_db s (lp_db s');
}.

Lemma kept_then k1 k2 s s1 s2 : kept k1 s s1 -> kept k2 s1 s2 -> kept (k1 + k2) s s2.
Proof.
  intros [A1 A2 A3 A4 A5 A7 A6] [B1 B2 B3 B4 B5 B7 B6]. split; try done; try lia.
  - by eapply same_contents_trans.
  - auto.
  - auto.
  - rewrite B6, A6. done.
Qed.

Lemma kept_le k k' s s' : k <= k' -> kept k s s' -> kept k' s s'.
Proof. intros Hk []. split; try done; lia. Qed.

Lemma kept_lsession k s s' : lsession s -> kept k s s' -> lsession s'.
Proof.
  intros [L1 L2 L3 L4 Lf L5 L6 Lh] [K1 K2 K3 K4 K5 K7 K6]. split; [done|..].
  - intros id Hid. rewrite K2 in Hid. specialize (L2 id Hid). lia.
  - rewrite K6. destruct L3. by split.
  - intros id fl p E Hs Hi. rewrite K2 in E. destruct (L4 id fl p E Hs Hi) as [v Hv]. exists v.
    apply (segmented_same (lp_db s)); [done|]. by rewrite K6.
  - intros id fl p. rewrite K2. apply Lf.
  - by rewrite (object_same _ _ _ K2).
  - unfold cache_ok in *. rewrite K6. cbn. destruct L6 as [?|(fl & p & E & ?)]; [by left|right]. exists fl, p. by rewrite K2.
  - auto.
Qed.

(** Room for [k] more ids and commits. *)
Definition lroom s (k : Z) : Prop :=
  next_id (d_st (lp_db s)) + k < 2 ^ 64 - 257 /\ rot_gen (d_st (lp_db s)) + k < UINT32_MAX.

Lemma kept_room k n s s' : kept k s s' -> lroom s (n + k) -> lroom s' n.
Proof. intros [_ _ ? ? _ _ _] [? ?]. split; lia. Qed.

(** ** The calls below *)

Lemma wp_on {A} (m : M db A) s (Q : res A -> lp -> Prop) : wp m (lp_db s) (fun r d => Q r (with_db s d)) -> wp (Large.on_db m) s Q.
Proof. unfold wp, Large.on_db. by destruct (m (lp_db s)). Qed.

(** A read: the store is what it was. *)
Definition seen s s' : Prop := roi (lp_db s) (lp_db s') /\ coherent (lp_db s') /\ s' = with_db s (lp_db s').

Lemma seen_kept s s' : session (lp_db s) -> seen s s' -> kept 0 s s'.
Proof.
  intros Se (Hr & Hc & Hf). destruct (session_roi cfg g sidx_wf _ _ Hr Hc Se) as (Se' & _). split; try done.
  - by apply same_contents_roi.
  - rewrite (roi_st _ _ Hr). lia.
  - rewrite (roi_st _ _ Hr). lia.
  - intros b _. by rewrite (roi_bimg _ _ b Hr).
  - intros Hh b e. rewrite (roi_bimg _ _ b Hr). apply Hh.
Qed.

Lemma seen_refl s : session (lp_db s) -> seen s s.
Proof. intros Se. split_and!; [reflexivity|apply Se|by destruct s]. Qed.

Lemma kept_here s : session (lp_db s) -> kept 0 s s.
Proof. intros Se. by apply seen_kept, seen_refl. Qed.

Lemma seen_trans s s1 s2 : seen s s1 -> seen s1 s2 -> seen s s2.
Proof. intros (R1 & C1 & F1) (R2 & C2 & F2). split_and!; [by etrans|done|]. rewrite F2, F1. done. Qed.

Lemma seen_bimg s s' b : seen s s' -> bimg (lp_db s') b = bimg (lp_db s) b.
Proof. intros (Hr & _). by apply roi_bimg. Qed.

Lemma seen_session s s' : session (lp_db s) -> seen s s' -> session (lp_db s').
Proof. intros Se Hs. by apply (seen_kept s s'). Qed.

Lemma on_reads {A} (m : M db A) s (Q : A -> Prop) (R : res A -> lp -> Prop) :
  session (lp_db s) -> reads_co cfg g sidx_wf (lp_db s) m Q -> (forall a s', seen s s' -> Q a -> R (Ok a) s') -> wp (Large.on_db m) s R.
Proof.
  intros Se Hm HR. apply wp_on. eapply wp_mono; [apply Hm, Se|]. cbv beta. intros r d' (Hr & Hc & Hq).
  destruct r as [a|e]; [|by destruct Hq as [Hn _]; destruct Hn; apply Se]. apply HR; [|done]. by split_and!.
Qed.

Lemma on_reads_rc {A} (m : M db A) s want (R : res A -> lp -> Prop) :
  session (lp_db s) -> reads_rc cfg g sidx_wf (lp_db s) m want -> (forall s', seen s s' -> R want s') -> wp (Large.on_db m) s R.
Proof.
  intros Se Hm HR. apply wp_on. eapply wp_mono; [apply Hm, Se|]. cbv beta. intros r d' (Hr & Hc & Hq).
  destruct Hq as [->|(e & _ & Hn & _)]; [|by destruct Hn; apply Se]. apply HR. by split_and!.
Qed.

Lemma se_inv s : session (lp_db s) -> db_inv cfg g sidx_wf (lp_db s).
Proof. intros Se. apply rd_inv, (lv_ready _ _ _ _ (se_live _ _ _ _ Se)). Qed.

Lemma on_header s bid (R : res bool -> lp -> Prop) :
  session (lp_db s) -> 0 <= bid < n_buckets g ->
  (forall s', seen s s' -> R (Ok (bucket_hdr_valid (bimg (lp_db s) bid) bid)) s') -> wp (Large.on_db (read_bucket_hdr g bid)) s R.
Proof.
  intros Se Hb HR. eapply on_reads; [done|by apply (read_bucket_hdr_spec cfg g Hg sidx_wf)|]. intros a s' Hs ->. by apply HR.
Qed.

Lemma on_find s id (R : res (bucket_scan * res bytes) -> lp -> Prop) :
  session (lp_db s) -> 0 < id < 2 ^ 64 -> bucket_hdr_valid (bimg (lp_db s) (bucket_of id)) (bucket_of id) = true ->
  (forall x s', seen s s' -> found cfg g (lp_db s) id x -> R (Ok x) s') -> wp (Large.on_db (find_live_slot cfg g (bucket_of id) id)) s R.
Proof.
  intros Se Hid Hv HR. eapply on_reads; [done|apply (find_live_found cfg g Hg sidx_wf); [done|by apply se_inv|done]|]. auto.
Qed.

(** Where the next slot of a sound bucket goes: past the end of the sector when
    the tail is torn. *)
Definition cursor_of d (bid : Z) : Z :=
  let e := log_end cfg g (bimg d bid) in if torn_at cfg g (bimg d bid) e then peb_size g else e.

Lemma cursor_append_at d bid :
  db_inv cfg g sidx_wf d -> 0 <= bid < n_buckets g -> bucket_hdr_valid (bimg d bid) bid = true ->
  append_at cfg g (bimg d bid) = Ok (cursor_of d bid).
Proof. apply (append_at_ok cfg g sidx_wf d bid). Qed.

Lemma on_confirm s id sc (R : res Z -> lp -> Prop) :
  session (lp_db s) -> let bid := bucket_of id in bucket_hdr_valid (bimg (lp_db s) bid) bid = true ->
  scan_of cfg g (bimg (lp_db s) bid) sc ->
  (forall s', seen s s' -> R (Ok (cursor_of (lp_db s) bid)) s') -> wp (Large.on_db (confirm_cursor cfg g bid id sc)) s R.
Proof.
  intros Se bid Hv Hs HR. pose proof (bucket_range cfg g Hg id) as Hb. fold bid in Hb.
  eapply on_reads_rc; [done|by apply (confirm_cursor_spec cfg g Hg sidx_wf)|].
  rewrite (cursor_append_at _ bid) by (done || by apply se_inv). done.
Qed.

(** [walk_live_cursor()]: the scan and its confirmation. *)
Lemma walk_cursor_spec s id :
  session (lp_db s) -> let bid := bucket_of id in bucket_hdr_valid (bimg (lp_db s) bid) bid = true ->
  wp (Large.walk_cursor cfg g bid id) s (fun r s' => seen s s' /\ r = Ok (cursor_of (lp_db s) bid)).
Proof.
  intros Se bid Hv. pose proof (bucket_range cfg g Hg id) as Hb. fold bid in Hb.
  unfold Large.walk_cursor. eapply on_reads_rc; [done| |intros s' Hs; split; [done|reflexivity]].
  rewrite <- (cursor_append_at _ bid) by (done || by apply se_inv).
  eapply (reads_rc_bnd cfg g sidx_wf _ _ _ (fun sc => scan_of cfg g (bimg (lp_db s) bid) sc)).
  - eapply reads_co_mono; [apply reads_co_of, (scan_bucket_for_spec cfg g Hg); done|].
    intros sc (?&Hfi&?&?&_). unfold scan_of. by rewrite Hfi.
  - intros sc d' Hr Hs. rewrite <- (roi_bimg _ _ bid Hr) in *. by apply (confirm_cursor_spec cfg g Hg).
Qed.

Lemma compact_ids d d' bid :
  0 <= bid < n_buckets g -> db_inv cfg g sidx_wf d -> compact_post cfg g sidx_wf d d' (Ok tt) bid ->
  forall e, e ∈ bucket_log cfg g (bimg d' bid) -> exists e0, e0 ∈ bucket_log cfg g (bimg d bid) /\ e_id e = e_id e0.
Proof.
  intros Hb Hi [Hge Hco Hoth _ Hres] e He. pose proof (bimg_ok cfg g Hg d bid Hb) as Hok.
  destruct (compact_buf_spec cfg g Hg _ bid Hok Hb) as [_ Hcp]. destruct Hres as [(? & _)|Hce]; [done|]. inversion Hce as [Hst Hbm Hs| | | |]; subst.
  destruct (committed_spec cfg g Hg _ bid _ Hok Hcp) as (_ & _ & Hlc & _). rewrite Hbm in He. unfold committed in Hlc. unfold compact_image in He. rewrite Hlc in He.
  destruct (reloc_elem _ _ _ He) as (e0 & He0 & Hsv & _). destruct (survivors_elem _ _ He0) as (Hin & _). exists e0. unfold e_id. by rewrite Hsv.
Qed.

(** [Ok]: the bucket holds its live slots only. *)
Lemma on_compact s bid :
  session (lp_db s) -> 0 <= bid < n_buckets g -> bucket_hdr_valid (bimg (lp_db s) bid) bid = true ->
  wp (Large.on_db (compact_bucket cfg g bid)) s (fun r s' => kept 0 s s' /\
    let cl := compact_len cfg g (bimg (lp_db s') bid) in
    ((r = Ok tt /\ cursor_of (lp_db s') bid = cl) \/ (r = Err ENOSPC /\ scratch_seal_off g < cl))).
Proof.
  intros Se Hb Hv. apply wp_on. pose proof (se_inv _ Se) as Hi. set (d := lp_db s) in *. apply wp_intro. intros r d' Erun.
  pose proof (wp_run _ _ _ _ _ (compact_bucket_spec cfg g Hg Ha sidx_wf d bid Hb Hi Hv) Erun) as Hcp.
  pose proof (cm_works _ _ _ _ _ _ _ Hcp (se_healthy _ _ _ _ Se)) as [Hh Hr]. pose proof (cm_geo _ _ _ _ _ _ _ Hcp) as Hge.
  assert (forall p, is_master p -> pimg d' p = pimg d p) as Hm.
  { intros p Hp. apply (cm_other _ _ _ _ _ _ _ Hcp); unfold is_master in Hp; unfold_consts; lia. }
  assert (forall b, 0 <= b < n_buckets g -> b <> bid -> bimg d' b = bimg d b) as Hoth.
  { intros b Hb' Hne. apply (cm_other _ _ _ _ _ _ _ Hcp); unfold_consts; lia. }
  cbn [with_db lp_db].
  assert (forall (Hrd : ready d') (Hst : d_st d' = d_st d) (Hsc : same_contents cfg g d d') (Hv' : bucket_hdr_valid (bimg d' bid) bid = true)
    (Hids : forall e, e ∈ bucket_log cfg g (bimg d' bid) -> exists e0, e0 ∈ bucket_log cfg g (bimg d bid) /\ e_id e = e_id e0),
    kept 0 s (with_db s d')) as Hkept.
  { intros Hrd Hst Hsc Hv' Hids. destruct (session_kept cfg g sidx_wf d d' Hrd Hst Hge Hm Hh) as (Se' & _);
      [rewrite (same_contents_at cfg g _ _ _ Hsc); apply Se|done|]. split; cbn [with_db lp_db]; try done; fold d; try (rewrite Hst; lia).
    - intros b Hb' Hvb. destruct (decide (b = bid)) as [->|Hne]; [done|]. by rewrite Hoth.
    - intros Hhd b e Hb'. destruct (decide (b = bid)) as [->|Hne]; [|rewrite Hoth by done; by apply Hhd].
      intros _ He. destruct (Hids e He) as (e0 & He0 & ->). by apply Hhd. }
  destruct Hr as [-> | ->].
  - destruct (compact_done cfg g Hg Ha sidx_wf d d' bid Hb Hi Hv Hcp) as (Hi' & Hsc & Hst & Hv' & He & Ht & Hf & Hu).
    assert (ready d') as Hrd by (split; [done|apply Hu, (lv_ready _ _ _ _ (se_live _ _ _ _ Se))]).
    split; [apply Hkept; try done; by apply compact_ids|]. left. split; [done|]. unfold cursor_of. rewrite Ht, He. symmetry. by apply (compact_len_slots d d' bid).
  - destruct (cm_res _ _ _ _ _ _ _ Hcp) as [(_ & Hcl & Hst & Hsf)|Hce].
    2: { exfalso. inversion Hce; subst; unfold device_err in *; tauto. }
    assert (roi d d') as Hr by (split; [done|done|done|done]). pose proof (cm_coh _ _ _ _ _ _ _ Hcp) as Hc'.
    split; [apply Hkept|right; split; [done|by rewrite (roi_bimg _ _ bid Hr)]]; try done.
    + eapply (ready_roi cfg g sidx_wf); [done|done|apply Se].
    + by apply same_contents_roi.
    + by rewrite (roi_bimg _ _ bid Hr).
    + intros e. rewrite (roi_bimg _ _ bid Hr). by exists e.
Qed.

Lemma on_format s bid :
  session (lp_db s) -> 0 <= bid < n_buckets g -> bucket_hdr_valid (bimg (lp_db s) bid) bid = false ->
  wp (Large.on_db (format_bucket g bid)) s (fun r s' => r = Ok tt /\ kept 0 s s' /\
    bucket_hdr_valid (bimg (lp_db s') bid) bid = true /\ cursor_of (lp_db s') bid = BLOB_DB_BUCKET_DATA_OFF).
Proof.
  intros Se Hb Hv. apply wp_on. pose proof (se_inv _ Se) as Hi. set (d := lp_db s) in *.
  eapply wp_mono; [apply (format_bucket_spec cfg g Hg Ha sidx_wf d bid Hb), Hi|]. cbv beta. intros r d' (Hw & Hc' & b' & Hwr & Hr).
  destruct (Hw (se_healthy _ _ _ _ Se)) as [Hok Hh]. destruct r as [[]|]; [|done]. subst b'. cbn [with_db lp_db].
  destruct (formatted_ready cfg g Hg sidx_wf d d' bid Hb (lv_ready _ _ _ _ (se_live _ _ _ _ Se)) Hv Hc' Hwr) as (Hrd & Hsc & Hv' & He & Hat).
  pose proof (wr_st _ _ _ _ Hwr) as Hst. pose proof (wr_geo _ _ _ _ Hwr) as Hge.
  assert (forall p, is_master p -> pimg d' p = pimg d p) as Hm.
  { intros p Hp. apply (wr_other _ _ _ _ Hwr). unfold is_master in Hp. unfold_consts. lia. }
  destruct (session_kept cfg g sidx_wf d d' Hrd Hst Hge Hm Hh) as (Se' & _); [rewrite (same_contents_at cfg g _ _ _ Hsc); apply Se|done|].
  split; [done|]. split; [|split; [done|]].
  - split; cbn [with_db lp_db]; fold d; try done; try (rewrite Hst; lia).
    + intros b Hb' Hvb. destruct (decide (b = bid)) as [->|Hne]; [congruence|]. by rewrite (wr_bimg _ _ _ _ _ Hwr Hne).
    + intros Hhd b e Hb' Hvb. destruct (decide (b = bid)) as [->|Hne]; [|rewrite (wr_bimg _ _ _ _ _ Hwr Hne) in Hvb |- *; by apply Hhd].
      destruct (fmt_image_log cfg g Hg bid Hb) as (_ & _ & Hlg & _). rewrite (wr_img _ _ _ _ Hwr), Hlg. by intros ?%elem_of_nil.
  - pose proof (cursor_append_at d' bid (rd_inv _ _ _ _ Hrd) Hb Hv') as E. rewrite Hat in E. by injection E as <-.
Qed.

(** A call that changes the master sectors alone. *)
Lemma masters_only s d' k :
  session (lp_db s) -> only_masters (lp_db s) d' -> master_inv cfg g d' -> hdrs_clean cfg g d' -> last_ok g d' -> healthy (d_store d') ->
  next_id (d_st (lp_db s)) <= next_id (d_st d') <= next_id (d_st (lp_db s)) + k ->
  rot_gen (d_st d') <= rot_gen (d_st (lp_db s)) + k ->
  next_id (d_st d') <= next_id_hint (d_st d') <= next_id (d_st d') + 257 -> kept k s (with_db s d').
Proof.
  intros Se Ho Hi Hc Hl Hh Hn Hr Hx. pose proof (se_live _ _ _ _ Se) as Lv. pose proof (lv_next _ _ _ _ Lv).
  assert (forall b, 0 <= b -> bimg d' b = bimg (lp_db s) b) as Hb.
  { intros b Hb. apply (om_img _ _ Ho). unfold is_master. unfold_consts. lia. }
  split; cbn [with_db lp_db]; try done.
  - split; [|done]. split; try done; try lia.
    + apply (ready_masters cfg g Hg sidx_wf (lp_db s)); [done|apply Lv].
    + rewrite (om_mounted _ _ Ho). apply Lv.
    + rewrite (om_wedged _ _ Ho). apply Lv.
    + rewrite (om_geo _ _ Ho). apply Lv.
    + rewrite (contents_masters cfg g Hg (lp_db s)) by done. apply Lv.
  - intros id. by apply (slots_masters cfg g Hg).
  - intros b Hb'. by rewrite Hb by lia.
  - intros Hhd b e Hb'. rewrite Hb by lia. by apply Hhd.
Qed.

Lemma on_alloc s :
  session (lp_db s) -> lroom s 1 ->
  wp (Large.on_db (alloc_id_impl cfg g)) s (fun r s' => r = Ok (next_id (d_st (lp_db s))) /\ kept 1 s s' /\
    next_id (d_st (lp_db s')) = next_id (d_st (lp_db s)) + 1).
Proof.
  intros Se [Hr1 Hr2]. pose proof (se_live _ _ _ _ Se) as Lv. pose proof (lv_next _ _ _ _ Lv). pose proof (lv_ceiling _ _ _ _ Lv).
  unfold UINT32_MAX in *. pose proof (mi_gen _ _ _ (lv_master _ _ _ _ Lv)) as Hgn. apply wp_on.
  eapply wp_mono; [apply (alloc_id_spec cfg g Hg (lp_db s)); try apply Lv; unfold UINT32_MAX; lia|]. cbv beta.
  intros rc d' (Hom & Hw & id & -> & Hnz & Hc). destruct (Hw (se_healthy _ _ _ _ Se)) as [_ Hh].
  destruct Hc as [(-> & Hnx & Hi & Hlt & Hcl & Hl & Hrg & Hht)|(-> & _)]; [|by destruct (Hnz (se_healthy _ _ _ _ Se))].
  split; [done|]. split; [|done]. apply masters_only; try done; try lia; [by apply Hcl, Lv|by apply Hl, Lv].
Qed.

Lemma owner_images s owner :
  session (lp_db s) -> lroom s 1 -> 0 <= owner < 2 ^ 64 ->
  wp (Large.persist_seg_owner cfg g owner) s (fun r s' => r = Ok tt /\ kept 1 s s' /\
    forall b, 0 <= b -> bimg (lp_db s') b = bimg (lp_db s) b).
Proof.
  intros Se [Hr1 Hr2] Ho. pose proof (se_live _ _ _ _ Se) as Lv. pose proof (lv_next _ _ _ _ Lv). pose proof (lv_ceiling _ _ _ _ Lv).
  pose proof (lv_master _ _ _ _ Lv) as Hmi. pose proof (mi_gen _ _ _ Hmi) as Hgn. unfold UINT32_MAX in *.
  unfold Large.persist_seg_owner. apply wp_on, wp_bnd, wp_gets. cbv beta iota. destruct (seg_owner (d_st (lp_db s)) =? owner).
  { apply wp_ret. split; [done|]. assert (with_db s (lp_db s) = s) as -> by (by destruct s).
    split; [|done]. eapply kept_le; [|by apply kept_here]. lia. }
  apply wp_bnd, wp_mod. cbv beta iota. set (d1 := mk_db _ _ _ _). apply wp_bnd, wp_try.
  assert (master_inv cfg g d1) as Hi1.
  { destruct Hmi as [M1 M2 M3 (_ & M4) M5 M6 M7 M8]. split; try done. }
  eapply wp_mono; [apply (commit_how_spec cfg g Hg false d1 (inv_pre _ _ _ Hi1))|]. cbv beta.
  intros rc d' (Hom & Hnx & Hw & Hrc). cbn [d1 d_st set_seg_owner] in Hw.
  destruct (Hw ltac:(unfold UINT32_MAX; cbn; lia) (se_healthy _ _ _ _ Se)) as [Hok Hh]. destruct rc as [[]|]; [|done]. apply wp_ret. split; [done|].
  destruct Hrc as (Hi & Hhint & Hrg & Hl & Hc). assert (only_masters (lp_db s) d') as Hom0 by (destruct Hom; by split).
  cbn [d1 d_st set_seg_owner next_id rot_gen] in Hnx, Hrg, Hhint.
  assert (next_id_hint (d_st d') = Z.max (next_id_hint (d_st (lp_db s))) (next_id (d_st (lp_db s)) + 257)) as Hmax.
  { rewrite Hhint. unfold master_rec_fill. cbn. rewrite (mi_reset _ _ _ Hmi). cbn. unfold BLOB_DB_ID_HINT_STEP. rewrite u64_small by lia. lia. }
  split; [apply masters_only; try done; try (cbn in *; lia); by apply Hc, Lv|].
  intros b Hb. apply (om_img _ _ Hom0). unfold is_master. unfold_consts. lia.
Qed.

Lemma owner_spec s owner :
  session (lp_db s) -> lroom s 1 -> 0 <= owner < 2 ^ 64 ->
  wp (Large.persist_seg_owner cfg g owner) s (fun r s' => r = Ok tt /\ kept 1 s s').
Proof. intros. eapply wp_mono; [by apply owner_images|]. cbv beta. intros r s' (? & ? & _). done. Qed.

(** One slot was appended, and the index cache dropped. *)
Record upd s s' (id : Z) (v : option (Z * bytes)) : Prop := {
  up_session : session (lp_db s');
  up_slots : set_value cfg g (lp_db s) (lp_db s') id v;
  up_st : d_st (lp_db s') = d_st (lp_db s);
  up_valid : forall b, 0 <= b < n_buckets g -> bucket_hdr_valid (bimg (lp_db s) b) b = true -> bucket_hdr_valid (bimg (lp_db s') b) b = true;
  up_heads : heads_ok (lp_db s) -> heads_ok (lp_db s');
  up_fields : s' = mk_lp (lp_db s') 0 (g_idx_hdr s) (g_idx_k s) (g_seg_a s) (g_seg_len s) (g_seg_max s);
}.

Lemma cursor_not_torn d bid n : 0 < n -> cursor_of d bid + n <= peb_size g ->
  cursor_of d bid = log_end cfg g (bimg d bid) /\ torn_at cfg g (bimg d bid) (log_end cfg g (bimg d bid)) = false.
Proof. intros Hn. unfold cursor_of. destruct (torn_at _ _ _ _); [lia|done]. Qed.

Lemma seg_append_spec s id fl hdr p :
  session (lp_db s) -> 0 < id < 2 ^ 64 -> let bid := bucket_of id in bucket_hdr_valid (bimg (lp_db s) bid) bid = true ->
  flags_ok cfg fl -> bytes_ok (hdr ++ p) -> len (hdr ++ p) <= MAX_PAYLOAD_LEN cfg ->
  cursor_of (lp_db s) bid + slot_size_for g (len (hdr ++ p)) <= peb_size g ->
  (slot_bytes fl (hdr ++ p) = None -> id <> BLOB_DB_ROOT_ID) ->
  wp (Large.seg_append cfg g bid (cursor_of (lp_db s) bid) id fl hdr p) s (fun r s' => r = Ok tt /\ upd s s' id (slot_value fl (hdr ++ p)) /\
    bucket_log cfg g (bimg (lp_db s') bid) = bucket_log cfg g (bimg (lp_db s) bid) ++ [new_entry g (cursor_of (lp_db s) bid) id fl (hdr ++ p)]).
Proof.
  intros Se Hid bid Hv Hfl Hb Hl Hfit Hrt. pose proof (bucket_range cfg g Hg id) as Hbid. fold bid in Hbid.
  pose proof (slot_size_pos cfg g Hg (len (hdr ++ p)) (len_nonneg _)). pose proof (pow2_le32_pos _ (ok_align _ _ Hg)).
  destruct (cursor_not_torn (lp_db s) bid (slot_size_for g (len (hdr ++ p))) ltac:(lia) Hfit) as [Ec Ht]. unfold Large.seg_append.
  destruct (Z.gtb_spec (len (hdr ++ p)) (MAX_PAYLOAD_LEN cfg)); [lia|].
  destruct (Z.gtb_spec (write_align g) BLOB_DB_MAX_WRITE_ALIGN); [unfold BLOB_DB_MAX_WRITE_ALIGN in *; lia|]. cbn [orb].
  apply wp_bnd, wp_mod. cbv beta iota. apply wp_on. cbn [lp_db]. rewrite Ec in Hfit |- *.
  change (append_slot2 cfg g bid ?e id fl hdr p) with (append_slot cfg g bid e id fl (hdr ++ p)).
  eapply wp_mono; [apply (append_slot_spec cfg g Hg Ha sidx_wf (lp_db s) id fl (hdr ++ p)); try done; by apply se_inv|]. cbv beta.
  intros r d' [Hw Hst Hge Hc Hoth Hv' Hlog Hres]. destruct (Hw (se_healthy _ _ _ _ Se)) as [Hok Hh]. destruct r as [[]|]; [|done].
  destruct Hres as [Hi' Hsv]. split; [done|]. split; [|by apply Hlog]. cbn [with_db lp_db g_idx_hdr g_idx_k g_seg_a g_seg_len g_seg_max].
  assert (forall q, is_master q -> pimg d' q = pimg (lp_db s) q) as Hm.
  { intros q Hq. apply Hoth. unfold is_master in Hq. unfold_consts. lia. }
  assert (ready d') as Hrd.
  { split; [done|]. eapply (unsealed_other g (lp_db s) _ bid); [lia|apply (lv_ready _ _ _ _ (se_live _ _ _ _ Se))|exact Hoth]. }
  destruct (session_kept cfg g sidx_wf (lp_db s) d' Hrd Hst Hge Hm Hh) as (Se' & _); [|done|].
  { rewrite (set_value_contents cfg g _ _ _ _ _ Hsv). case_decide as E; [|apply Se]. intros En. by apply (Hrt En). }
  assert (forall b, 0 <= b < n_buckets g -> b <> bid -> bimg d' b = bimg (lp_db s) b) as Hob.
  { intros b Hb' Hne. unfold bimg. apply Hoth. unfold_consts. lia. }
  split; cbn [lp_db]; try done.
  - intros b Hb' Hvb. destruct (decide (b = bid)) as [->|Hne]; [done|]. by rewrite Hob.
  - intros Hhd b e Hb'. destruct (decide (b = bid)) as [->|Hne]; [|cbn [with_db lp_db]; rewrite Hob by done; by apply Hhd].
    intros _. fold bid in Hlog. cbn [with_db lp_db]. rewrite Hlog by done. rewrite elem_of_app, list_elem_of_singleton. intros [He| ->]; [by apply Hhd|done].
Qed.

(** ** Appends and objects *)

Lemma flags_ok_large fl :
  fl = BLOB_DB_SLOT_F_INDEXED \/ fl = BLOB_DB_SLOT_F_SEGMENT \/ fl = Z.lor BLOB_DB_SLOT_F_TOMBSTONE BLOB_DB_SLOT_F_SEGMENT -> flags_ok cfg fl.
Proof. unfold flags_ok, flags_unknown, BLOB_DB_SLOT_F_KNOWN. rewrite Hlarge. by intros [->|[->| ->]]. Qed.

(** No index record but possibly its own lists [x]. *)
Definition unlisted d (x : Z) : Prop := forall id fl p,
  id <> x -> slots d id = Some (fl, p) -> is_seg fl = false -> is_idx fl = true -> x ∉ ids_of p.

Lemma listed_internal s id fl p x :
  lsession s -> slots (lp_db s) id = Some (fl, p) -> is_seg fl = false -> is_idx fl = true -> x ∈ ids_of p ->
  exists j v, ids_of p !! j = Some x /\ segmented (lp_db s) (g_seg_len s) (g_seg_max s) id p v /\
    seg_of (lp_db s) id (Z.of_nat j) x (slice (Z.of_nat j * g_seg_len s) (g_seg_len s) v).
Proof.
  intros Ls E Hs Hi Hx. destruct (ls_wf _ Ls id fl p E Hs Hi) as [v Hv]. apply list_elem_of_lookup in Hx as [j Hj].
  exists j, v. split; [done|]. split; [done|]. by apply (sg_segs _ _ _ _ _ _ Hv).
Qed.

Lemma not_internal_unlisted s x : lsession s -> internal (lp_db s) x = false -> unlisted (lp_db s) x.
Proof.
  intros Ls Hx id fl p _ E Hs Hi Hin. destruct (listed_internal s id fl p x Ls E Hs Hi Hin) as (j & v & _ & _ & (fl' & q & E' & Hs' & _)).
  unfold internal in Hx. rewrite E' in Hx. congruence.
Qed.

(** What [x] holds once its slot is [v]. *)
Lemma upd_object s s' x v id : unlisted (lp_db s) x -> upd s s' x v -> id <> x -> object (lp_db s') id = object (lp_db s) id.
Proof.
  intros Hu [_ Hs _ _ _ _] Hne. unfold object. rewrite Hs, decide_False by done. destruct (slots (lp_db s) id) as [[fl p]|] eqn:E; [|done].
  destruct (is_seg fl) eqn:E1; [done|]. destruct (is_idx fl) eqn:E2; [|done]. do 2 f_equal. apply list_fmap_ext. intros j sid Hj.
  unfold chunk_at. rewrite Hs, decide_False; [done|]. intros ->. apply (Hu id fl p Hne E E1 E2). by eapply list_elem_of_lookup_2.
Qed.

Lemma upd_lsession s s' x v :
  lsession s -> unlisted (lp_db s) x -> upd s s' x v -> (v <> None -> x < next_id (d_st (lp_db s))) ->
  (forall fl p, v = Some (fl, p) -> is_seg fl = false -> is_idx fl = true -> exists w, segmented (lp_db s') (g_seg_len s) (g_seg_max s) x p w) ->
  (forall fl p, v = Some (fl, p) -> is_seg fl = true -> is_idx fl = false) ->
  (x = BLOB_DB_ROOT_ID -> object (lp_db s') x <> None) -> lsession s'.
Proof.
  intros [L1 L2 L3 L4 Lf L5 L6 Lh] Hu Hup Hx Hw Hfl Hr. pose proof Hup as [U1 U2 U3 U4 U6 U5]. split; [done|..].
  - intros id. rewrite U2, U3. case_decide as E; [subst; done|apply L2].
  - rewrite U5. destruct L3. by split.
  - intros id fl p E Hs Hi. rewrite U2 in E. rewrite U5. cbn. case_decide as Ex; [subst; by apply (Hw fl p)|].
    destruct (L4 id fl p E Hs Hi) as [w Hsw]. exists w. apply (segmented_frame (lp_db s)); [|done]. intros sid Hin.
    rewrite U2, decide_False; [done|]. intros ->. by apply (Hu id fl p Ex E Hs Hi).
  - intros id fl p. rewrite U2. case_decide; [apply Hfl|apply Lf].
  - destruct (decide (x = BLOB_DB_ROOT_ID)) as [->|Hne]; [by apply Hr|]. by rewrite (upd_object s s' x v) by done.
  - left. by rewrite U5.
  - auto.
Qed.

(** The counters may have grown by [k]; the tables are as they were. *)
Record moves (k : Z) s s' : Prop := {
  mv_next : next_id (d_st (lp_db s)) <= next_id (d_st (lp_db s')) <= next_id (d_st (lp_db s)) + k;
  mv_rot : rot_gen (d_st (lp_db s')) <= rot_gen (d_st (lp_db s)) + k;
  mv_valid : forall b, 0 <= b < n_buckets g -> bucket_hdr_valid (bimg (lp_db s) b) b = true -> bucket_hdr_valid (bimg (lp_db s') b) b = true;
  mv_fields : s' = mk_lp (lp_db s') (g_idx_id s') (g_idx_hdr s) (g_idx_k s) (g_seg_a s) (g_seg_len s) (g_seg_max s);
}.

Lemma kept_moves k s s' : kept k s s' -> moves k s s'.
Proof. intros [_ _ ? ? ? _ Hf]. split; try done. rewrite Hf. done. Qed.

Lemma upd_moves s s' x v : upd s s' x v -> moves 0 s s'.
Proof. intros [_ _ Hst ? _ Hf]. split; rewrite ?Hst; try lia; try done. rewrite Hf. done. Qed.

Lemma moves_trans k1 k2 s s1 s2 : moves k1 s s1 -> moves k2 s1 s2 -> moves (k1 + k2) s s2.
Proof.
  intros [A1 A2 A3 A4] [B1 B2 B3 B4]. split; try lia; [auto|]. rewrite B4, A4. done.
Qed.

Lemma moves_le k k' s s' : k <= k' -> moves k s s' -> moves k' s s'.
Proof. intros Hk []. split; try done; lia. Qed.

Lemma moves_refl s : moves 0 s s.
Proof. split; try lia; [done|by destruct s]. Qed.

Lemma moves_room k n s s' : moves k s s' -> lroom s (n + k) -> lroom s' n.
Proof. intros [? ? _ _] [? ?]. split; lia. Qed.

(** The bucket of [id] cannot take [n] more bytes, even compacted. *)
Definition no_room d (id n : Z) : Prop := bucket_hdr_valid (bimg d (bucket_of id)) (bucket_of id) = true /\ full cfg g d id n.

(** The live slots of a bucket. *)
Definition live_count d (bid : Z) : Z := len (survivors (bucket_log cfg g (bimg d bid))).

Lemma live_count_le d bid : 0 <= bid < n_buckets g -> 0 <= live_count d bid <= peb_size g.
Proof.
  intros Hb. unfold live_count. destruct (bimg_ok cfg g Hg d bid Hb) as [_ Hby]. destruct (parsed_log cfg g Hg _ Hby) as [Hl _].
  pose proof (ok_peb_size _ _ Hg). apply (log_rel_bounds cfg g Hg) in Hl; [|done|unfold_consts; lia]. unfold_consts.
  assert (forall l : list entry, len (survivors l) <= len l) as Hs.
  { intros l. induction l as [|e l IH]; [done|]. cbn [survivors]. rewrite len_cons. destruct (_ && _); rewrite ?len_cons; lia. }
  pose proof (Hs (bucket_log cfg g (bimg d bid))). pose proof (len_nonneg (survivors (bucket_log cfg g (bimg d bid)))).
  pose proof (len_nonneg (bucket_log cfg g (bimg d bid))). lia.
Qed.

Lemma live_count_drop d d' sid v :
  db_inv cfg g sidx_wf d -> db_inv cfg g sidx_wf d' -> slots d sid = Some v -> set_value cfg g d d' sid None ->
  bucket_hdr_valid (bimg d' (bucket_of sid)) (bucket_of sid) = true -> live_count d' (bucket_of sid) < live_count d (bucket_of sid).
Proof.
  intros Hi Hi' E Hs Hv'. destruct v as [fl p]. destruct (slots_known d sid fl p Hi E) as (_ & _ & _ & Hv).
  pose proof (bucket_range cfg g Hg sid) as Hb. set (bid := bucket_of sid) in *. unfold live_count.
  assert (length ((sid, (fl, p)) :: (key <$> survivors (bucket_log cfg g (bimg d' bid)))) <= length (key <$> survivors (bucket_log cfg g (bimg d bid))))%nat as Hle.
  { apply submseteq_length, NoDup_submseteq.
    - apply list.NoDup_cons. split; [|apply keys_NoDup]. rewrite (bucket_keys d') by done. cbn. rewrite Hs, decide_True by done. by intros [_ ?].
    - intros [i w] Hin. rewrite (bucket_keys d) by done. apply elem_of_cons in Hin as [[= -> ->]|Hin]; [done|].
      rewrite (bucket_keys d') in Hin by done. destruct Hin as [Hin1 Hin2]. cbn in *. rewrite Hs in Hin2. case_decide; done. }
  cbn [length] in Hle. rewrite !length_fmap in Hle. unfold len. lia.
Qed.

Lemma no_room_kept k s s' id n : session (lp_db s) -> kept k s s' -> no_room (lp_db s) id n -> no_room (lp_db s') id n.
Proof.
  intros Se [K1 K2 _ _ K5 _ _] [Hv Hf]. pose proof (bucket_range cfg g Hg id) as Hb. pose proof (K5 _ Hb Hv) as Hv'. split; [done|].
  unfold full in *. rewrite (compact_len_slots (lp_db s) (lp_db s')); try done; by apply se_inv.
Qed.
End base.
