(* ===== verification/SegIo.v ===== *)
(** Segment slots on a device that works: where a new one goes, what writing one
    leaves, and what releasing one does. *)

From S2P Require Import Prelude Layout Store SlotIndexIface Image Core CoreRead Lookup Append Bucket Compact.
From S2P Require Import CompactImage Recovery CompactSpec Ops OpsRead OpsWrite Master Mount MasterSpec MasterInv.
From S2P Require Import MountSpec Session Segments SegBase.

Section io.
Context (cfg : config) (MAX_OBJECT_LEN : Z) (g : geom) `{Crc}.
Context {S I : Type} `{!Store S} `{!StoreView S} `{!SlotIndex I}.
Context (Hg : geom_ok cfg g) (Ha : geom_aligned g) {SL : StoreLaws S (store_geom_of g)} {CL : CrcLaws _}.
Context (sidx_wf : Z -> I -> Prop) {IL : SlotIndexLaws I sidx_wf}.
Context (Hlarge : LARGE_PAYLOADS cfg = true).
Notation db := (db S I).
Notation lp := (lp S I).
Notation slots := (slots cfg g).
Notation session := (session cfg g sidx_wf).
Notation lsession := (lsession cfg MAX_OBJECT_LEN g sidx_wf).
Notation kept := (kept cfg g sidx_wf).
Notation seen := (seen cfg g sidx_wf).
Notation upd := (upd cfg g sidx_wf).
Notation moves := (moves g).
Notation object := (object cfg g).
Notation internal := (internal cfg g).
Notation no_room := (no_room cfg g).
Notation cursor_of := (cursor_of cfg g).
Notation bucket_of id := (id mod n_buckets g).
Notation valid d id := (bucket_hdr_valid (bimg d (bucket_of id)) (bucket_of id) = true).
Implicit Types (d : db) (s : lp).

(** ** Room for a slot *)

(** [c] is where a slot of [id] with [n] payload bytes goes, or it does not fit
    and the bucket is full. *)
Definition placed s (id n c : Z) : Prop :=
  valid (lp_db s) id /\
  if c + slot_size_for g n >? peb_size g then no_room (lp_db s) id n else c = cursor_of (lp_db s) (bucket_of id).

Lemma full_of_cursor d id n : cursor_of d (bucket_of id) = compact_len cfg g (bimg d (bucket_of id)) ->
  peb_size g < cursor_of d (bucket_of id) + slot_size_for g n -> full cfg g d id n.
Proof. intros Hc Hn. right. by rewrite <- Hc. Qed.

(** The cursor after a compaction, if there was one. *)
Lemma walk_again s id n :
  session (lp_db s) -> valid (lp_db s) id -> cursor_of (lp_db s) (bucket_of id) = compact_len cfg g (bimg (lp_db s) (bucket_of id)) ->
  wp (Large.walk_cursor cfg g (bucket_of id) id) s (fun r s' => kept 0 s s' /\ exists c, r = Ok c /\ placed s' id n c).
Proof.
  intros Se Hv Hc. eapply wp_mono; [by apply (walk_cursor_spec cfg g Hg sidx_wf)|]. cbv beta. intros r s' [Hs ->].
  pose proof (seen_kept cfg g sidx_wf _ _ Se Hs) as K. pose proof (seen_bimg cfg g sidx_wf _ _ (bucket_of id) Hs) as Hb.
  split; [done|]. eexists. split; [done|]. split; [by rewrite Hb|].
  assert (cursor_of (lp_db s') (bucket_of id) = cursor_of (lp_db s) (bucket_of id)) as Ec by (unfold SegBase.cursor_of; by rewrite Hb).
  destruct (Z.gtb_spec (cursor_of (lp_db s) (bucket_of id) + slot_size_for g n) (peb_size g)); [|done].
  split; [by rewrite Hb|]. apply full_of_cursor; rewrite Ec; [by rewrite Hb|lia].
Qed.

(** Formatting the bucket of a fresh id where it is not. *)
Lemma first_cursor {A} s id (K : Z -> M lp A) Q :
  session (lp_db s) ->
  (forall s' c, kept 0 s s' -> valid (lp_db s') id -> c = cursor_of (lp_db s') (bucket_of id) -> wp (K c) s' Q) ->
  wp (mbnd (Large.on_db (read_bucket_hdr g (bucket_of id))) (fun formatted =>
    mbnd (if negb formatted then mbnd (Large.on_db (format_bucket g (bucket_of id))) (fun _ => mret BLOB_DB_BUCKET_DATA_OFF)
          else Large.walk_cursor cfg g (bucket_of id) id) K)) s Q.
Proof.
  intros Se HK. pose proof (bucket_range cfg g Hg id) as Hb. apply wp_bnd.
  apply (on_header cfg g Hg sidx_wf); [done|done|]. intros s1 Hs1. pose proof (seen_kept cfg g sidx_wf _ _ Se Hs1) as K1.
  pose proof (kp_session _ _ _ _ _ _ K1) as Se1. destruct (bucket_hdr_valid (bimg (lp_db s) (bucket_of id)) (bucket_of id)) eqn:Hv; cbn [negb]; apply wp_bnd.
  - eapply wp_mono; [apply (walk_cursor_spec cfg g Hg sidx_wf s1 id Se1); by rewrite (seen_bimg cfg g sidx_wf _ _ _ Hs1)|]. cbv beta.
    intros r s2 [Hs2 ->]. pose proof (seen_kept cfg g sidx_wf _ _ Se1 Hs2) as K2. apply HK.
    + exact (kept_then cfg g sidx_wf 0 0 _ _ _ K1 K2).
    + by rewrite (seen_bimg cfg g sidx_wf _ _ _ Hs2), (seen_bimg cfg g sidx_wf _ _ _ Hs1).
    + unfold SegBase.cursor_of. by rewrite (seen_bimg cfg g sidx_wf _ _ _ Hs2).
  - apply wp_bnd. eapply wp_mono; [apply (on_format cfg g Hg Ha sidx_wf s1 _ Se1 Hb); by rewrite (seen_bimg cfg g sidx_wf _ _ _ Hs1)|].
    cbv beta. intros r s2 (-> & K2 & Hv2 & Hc2). apply wp_ret. apply HK; [exact (kept_then cfg g sidx_wf 0 0 _ _ _ K1 K2)|done|done].
Qed.

(** Compacting where the slot does not fit, or giving up. *)
Lemma room_strict {A X} s id n c (f1 f2 : Z -> X) (K : X -> M lp A) Q :
  session (lp_db s) -> valid (lp_db s) id -> c = cursor_of (lp_db s) (bucket_of id) ->
  (forall s' c' x, kept 0 s s' -> valid (lp_db s') id -> c' = cursor_of (lp_db s') (bucket_of id) -> c' + slot_size_for g n <= peb_size g ->
    x = f1 c' \/ (x = f2 c' /\ s' = s) -> wp (K x) s' Q) ->
  (forall s', kept 0 s s' -> no_room (lp_db s') id n -> Q (Err ENOSPC) s') ->
  wp (mbnd (if c + slot_size_for g n >? peb_size g then
        mbnd (Large.on_db (compact_bucket cfg g (bucket_of id))) (fun _ => mbnd (Large.walk_cursor cfg g (bucket_of id) id) (fun c =>
          if c + slot_size_for g n >? peb_size g then mfail ENOSPC else mret (f1 c)))
      else mret (f2 c)) K) s Q.
Proof.
  intros Se Hv Hc HK Hno. pose proof (bucket_range cfg g Hg id) as Hb. apply wp_bnd.
  assert (kept 0 s s) as K0 by (by apply (kept_here cfg g sidx_wf)).
  destruct (Z.gtb_spec (c + slot_size_for g n) (peb_size g)) as [Hgt|Hle]; [|apply wp_ret; apply (HK s c); auto; lia].
  apply wp_bnd. eapply wp_mono; [by apply (on_compact cfg g Hg Ha sidx_wf)|]. cbv beta zeta. intros r s1 (K1 & Hr).
  pose proof (kp_session _ _ _ _ _ _ K1) as Se1. pose proof (kp_valid _ _ _ _ _ _ K1 _ Hb Hv) as Hv1.
  destruct Hr as [[-> Hcl]|[-> Hcl]].
  - apply wp_bnd. eapply wp_mono; [apply (walk_again s1 id n Se1 Hv1 Hcl)|]. cbv beta. intros r s2 (K2 & c2 & -> & Hv2 & Hp).
    pose proof (kept_then cfg g sidx_wf 0 0 _ _ _ K1 K2) as K12.
    destruct (Z.gtb_spec (c2 + slot_size_for g n) (peb_size g)); [by apply wp_fail, Hno|]. apply wp_ret, (HK s2 c2); auto; lia.
  - apply Hno; [done|]. split; [done|by left].
Qed.

(** Compacting where the slot does not fit, whatever comes of it. *)
Lemma room_lenient {A} s id n c (K : Z -> M lp A) Q :
  session (lp_db s) -> valid (lp_db s) id -> c = cursor_of (lp_db s) (bucket_of id) ->
  (forall s' c', kept 0 s s' -> placed s' id n c' -> wp (K c') s' Q) ->
  wp (mbnd (if c + slot_size_for g n >? peb_size g then
        mbnd (mtry (Large.on_db (compact_bucket cfg g (bucket_of id)))) (fun rc =>
          match rc with Ok _ => Large.walk_cursor cfg g (bucket_of id) id | Err _ => mret c end)
      else mret c) K) s Q.
Proof.
  intros Se Hv Hc HK. pose proof (bucket_range cfg g Hg id) as Hb. apply wp_bnd.
  destruct (Z.gtb_spec (c + slot_size_for g n) (peb_size g)) as [Hgt|Hle].
  2: { apply wp_ret. apply HK; [by apply (kept_here cfg g sidx_wf)|]. split; [done|].
       destruct (Z.gtb_spec (c + slot_size_for g n) (peb_size g)); [lia|done]. }
  apply wp_bnd, wp_try. eapply wp_mono; [by apply (on_compact cfg g Hg Ha sidx_wf)|]. cbv beta zeta. intros r s1 (K1 & Hr).
  pose proof (kp_session _ _ _ _ _ _ K1) as Se1. pose proof (kp_valid _ _ _ _ _ _ K1 _ Hb Hv) as Hv1.
  destruct Hr as [[-> Hcl]|[-> Hcl]].
  - eapply wp_mono; [apply (walk_again s1 id n Se1 Hv1 Hcl)|]. cbv beta. intros r s2 (K2 & c2 & -> & Hp).
    apply HK; [exact (kept_then cfg g sidx_wf 0 0 _ _ _ K1 K2)|done].
  - apply wp_ret. apply HK; [done|]. split; [done|]. destruct (Z.gtb_spec (c + slot_size_for g n) (peb_size g)); [|lia].
    split; [done|by left].
Qed.

(** ** Writing a segment *)

Lemma is_seg_value q : slot_value BLOB_DB_SLOT_F_SEGMENT q = Some (9, q).
Proof. done. Qed.

(** A fresh id's segment leaves every object alone. *)
Lemma fresh_upd s s' sid q :
  lsession s -> slots (lp_db s) sid = None -> sid < next_id (d_st (lp_db s)) -> upd s s' sid (slot_value BLOB_DB_SLOT_F_SEGMENT q) ->
  lsession s' /\ forall id, object (lp_db s') id = object (lp_db s) id.
Proof.
  intros Ls Hn Hlt Hu. assert (internal (lp_db s) sid = false) as Hi by (unfold SegBase.internal; by rewrite Hn).
  pose proof (not_internal_unlisted cfg MAX_OBJECT_LEN g sidx_wf s sid Ls Hi) as Hul.
  assert (forall id, object (lp_db s') id = object (lp_db s) id) as Ho.
  { intros id. destruct (decide (id = sid)) as [->|Hne]; [|by eapply (upd_object cfg g sidx_wf s s' sid)].
    unfold SegBase.object. rewrite (up_slots _ _ _ _ _ _ _ Hu), decide_True, Hn by done. done. }
  split; [|done]. eapply (upd_lsession cfg MAX_OBJECT_LEN g sidx_wf); [exact Ls|exact Hul|exact Hu|done| | |].
  - intros fl p E. rewrite is_seg_value in E. injection E as <- <-. done.
  - intros fl p E. rewrite is_seg_value in E. injection E as <- <-. done.
  - intros ->. rewrite Ho. apply Ls.
Qed.

Lemma seg_place_spec tries s hdr chunk :
  lsession s -> lroom s (Z.of_nat tries) -> bytes_ok (hdr ++ chunk) -> len hdr = 12 -> len (hdr ++ chunk) <= MAX_PAYLOAD_LEN cfg ->
  wp (Large.seg_place cfg tries g hdr chunk) s (fun r s' => lsession s' /\ moves (Z.of_nat tries) s s' /\
    match r with
    | Ok sid => next_id (d_st (lp_db s)) <= sid < next_id (d_st (lp_db s')) /\
        set_value cfg g (lp_db s) (lp_db s') sid (slot_value BLOB_DB_SLOT_F_SEGMENT (hdr ++ chunk)) /\
        forall id, object (lp_db s') id = object (lp_db s) id
    | Err e => e = ENOSPC /\ same_contents cfg g (lp_db s) (lp_db s') /\ kept (Z.of_nat tries) s s' /\
        forall i, 0 <= i < Z.of_nat tries -> no_room (lp_db s') (next_id (d_st (lp_db s)) + i) (len (hdr ++ chunk))
    end).
Proof.
  intros Ls Hroom Hb Hh Hl. revert s Ls Hroom. induction tries as [|tries IH]; intros s Ls Hroom; cbn [Large.seg_place].
  { apply wp_fail. assert (kept 0 s s) as K0 by (by apply (kept_here cfg g sidx_wf), Ls).
    split; [done|]. split; [by apply (kept_moves cfg g sidx_wf)|]. split; [done|]. split; [apply K0|]. split; [done|]. lia. }
  pose proof (ls_session _ _ _ _ _ Ls) as Se. pose proof (lv_next _ _ _ _ (se_live _ _ _ _ Se)) as Hnx.
  pose proof (ok_payload _ _ Hg). pose proof (ok_peb_size _ _ Hg). pose proof (len_nonneg chunk). pose proof (Z.mul_div_le (peb_size g - 16) 2). unfold_consts.
  rewrite len_app, Hh in Hl |- *. rewrite u16_small by lia. set (sid := next_id (d_st (lp_db s))) in *. set (n := 12 + len chunk) in *.
  assert (0 < sid < 2 ^ 64) as Hsid by (destruct Hroom; unfold sid; lia).
  apply wp_bnd. eapply wp_mono; [apply (on_alloc cfg g Hg sidx_wf s Se); destruct Hroom; split; lia|]. cbv beta.
  intros r s1 (-> & K1 & Hn1). fold sid in Hn1 |- *. destruct (Z.eqb_spec sid 0); [lia|]. rewrite (id_to_bucket_eq cfg g Hg).
  apply (first_cursor s1 sid); [apply K1|]. intros s2 c2 K2 Hv2 Hc2.
  apply (room_lenient s2 sid n c2); [apply K2|done|done|]. intros s3 c3 K3 [Hv3 Hp].
  pose proof (kept_then cfg g sidx_wf _ _ _ _ _ (kept_then cfg g sidx_wf _ _ _ _ _ K1 K2) K3) as K. cbn [Z.add] in K.
  pose proof (kept_lsession cfg MAX_OBJECT_LEN g sidx_wf _ _ _ Ls K) as Ls3.
  pose proof (kept_then cfg g sidx_wf _ _ _ _ _ K2 K3) as K23. pose proof (kp_next _ _ _ _ _ _ K23) as Hn23. cbn [Z.add] in Hn23.
  assert (next_id (d_st (lp_db s3)) = sid + 1) as Hn3 by lia.
  destruct (Z.gtb_spec (c3 + slot_size_for g n) (peb_size g)) as [Hgt|Hle].
  - eapply wp_mono; [apply (IH s3 Ls3)|]. { eapply kept_room; [exact K|]. destruct Hroom; split; lia. }
    cbv beta. rewrite Hn3, len_app, Hh. fold n. intros r s' (Ls' & Hm' & Hr). split; [done|].
    split; [eapply moves_le; [|eapply moves_trans; [by apply (kept_moves cfg g sidx_wf _ _ _ K)|exact Hm']]; lia|].
    destruct r as [x|e].
    + destruct Hr as (Hx & Hsv & Ho). split; [lia|]. split.
      * eapply set_value_trans; [apply K|done].
      * intros id. rewrite Ho. apply object_same, K.
    + destruct Hr as (-> & Hsc & K' & Hr). split; [done|]. split; [eapply same_contents_trans; [apply K|done]|].
      split; [eapply kept_le; [|eapply kept_then; [exact K|exact K']]; lia|].
      intros i Hi. destruct (decide (i = 0)) as [->|]; [|replace (sid + i) with (sid + 1 + (i - 1)) by lia; apply Hr; lia].
      rewrite Z.add_0_r. eapply (no_room_kept cfg g Hg sidx_wf); [apply Ls3|exact K'|exact Hp].
  - subst c3. apply wp_bnd. eapply wp_mono; [apply (seg_append_spec cfg g Hg Ha sidx_wf s3 sid BLOB_DB_SLOT_F_SEGMENT hdr chunk)|]; try done.
    + apply Ls3.
    + apply (flags_ok_large cfg Hlarge). auto.
    + rewrite len_app, Hh. done.
    + rewrite len_app, Hh. fold n. lia.
    + cbv beta. intros r s' (-> & Hu & _). apply wp_ret.
      assert (slots (lp_db s3) sid = None) as Hnone.
      { destruct (slots (lp_db s3) sid) eqn:E; [|done]. rewrite (kp_slots _ _ _ _ _ _ K) in E.
        pose proof (ls_fresh _ _ _ _ _ Ls sid ltac:(congruence)). unfold sid in *. lia. }
      destruct (fresh_upd s3 s' sid _ Ls3 Hnone ltac:(lia) Hu) as [Ls' Ho]. split; [done|].
      split; [eapply moves_le; [|eapply moves_trans; [by apply (kept_moves cfg g sidx_wf _ _ _ K)|by eapply upd_moves]]; lia|].
      pose proof (up_st _ _ _ _ _ _ _ Hu) as Hst. split; [rewrite Hst; unfold sid in *; lia|]. split.
      * eapply set_value_trans; [apply K|apply Hu].
      * intros id. rewrite Ho. apply object_same, K.
Qed.

(** No id given out so far changed its slot. *)
Definition old_kept s s' : Prop := forall x, x < next_id (d_st (lp_db s)) -> slots (lp_db s') x = slots (lp_db s) x.

Lemma old_kept_trans k s s1 s2 : moves k s s1 -> old_kept s s1 -> old_kept s1 s2 -> old_kept s s2.
Proof. intros Hm H1 H2 x Hx. pose proof (mv_next _ _ _ _ Hm). rewrite H2 by lia. by apply H1. Qed.

(** Eight ids in a row, and no bucket of theirs can take [n] bytes. *)
Definition crowded d : Prop := exists id n, 0 <= n <= MAX_PAYLOAD_LEN cfg /\ forall i, 0 <= i < 8 -> no_room d (id + i) n.

(** What writing segments leaves: the objects as they were. *)
Record wrote_segs (k : Z) s s' : Prop := {
  ws_session : lsession s';
  ws_moves : moves k s s';
  ws_objects : forall id, object (lp_db s') id = object (lp_db s) id;
  ws_old : old_kept s s';
}.

Lemma wrote_segs_trans k1 k2 s s1 s2 : wrote_segs k1 s s1 -> wrote_segs k2 s1 s2 -> wrote_segs (k1 + k2) s s2.
Proof.
  intros [A1 A2 A3 A4] [B1 B2 B3 B4]. split; [done|by eapply moves_trans| |by eapply old_kept_trans]. intros id. by rewrite B3, A3.
Qed.

Lemma wrote_segs_kept k s s' : lsession s -> kept k s s' -> wrote_segs k s s'.
Proof.
  intros Ls K. split; [by eapply kept_lsession|by apply (kept_moves cfg g sidx_wf)| |].
  - intros id. apply object_same, K.
  - intros x _. apply K.
Qed.

Lemma zd_seg owner seq chunk : zd 12 (enc_seg_hdr (mk_seg_hdr owner seq 0) ++ chunk) = chunk.
Proof. unfold zd. apply drop_app_length'. pose proof (len_enc_seg_hdr (mk_seg_hdr owner seq 0)) as Hl. unfold len in Hl. lia. Qed.

Lemma seg_write_chunk_spec s owner seq chunk :
  lsession s -> lroom s 8 -> 0 <= owner < 2 ^ 64 -> 0 <= seq < 2 ^ 16 -> bytes_ok chunk -> len chunk <= MAX_PAYLOAD_LEN cfg - 12 ->
  wp (Large.seg_write_chunk cfg g owner seq chunk) s (fun r s' => wrote_segs 8 s s' /\
    match r with
    | Ok sid => next_id (d_st (lp_db s)) <= sid < next_id (d_st (lp_db s')) /\ seg_of cfg g (lp_db s') owner seq sid chunk
    | Err e => e = ENOSPC /\ crowded (lp_db s')
    end).
Proof.
  intros Ls Hr Ho Hs Hb Hl. set (hdr := enc_seg_hdr (mk_seg_hdr owner seq 0)). assert (len hdr = 12) as Hh by apply len_enc_seg_hdr.
  unfold Large.seg_write_chunk. fold hdr. pose proof (len_nonneg chunk).
  eapply wp_mono; [apply (seg_place_spec SEG_PLACEMENT_TRIES s hdr chunk Ls Hr)|].
  - apply bytes_ok_app. split; [apply bytes_ok_enc_seg_hdr|done].
  - done.
  - rewrite len_app, Hh. lia.
  - cbv beta. change (Z.of_nat SEG_PLACEMENT_TRIES) with 8. intros r s' (Ls' & Hm & Hq). destruct r as [sid|e].
    + destruct Hq as (Hsid & Hsv & Hob). split; [|split; [done|]].
      * split; try done. intros x Hx. rewrite Hsv, decide_False by lia. done.
      * exists 9, (hdr ++ chunk). rewrite Hsv, decide_True by done. split_and!; try done.
        -- rewrite len_app, Hh. lia.
        -- unfold hdr. by rewrite dec_enc_seg_hdr by (unfold seg_hdr_wf; cbn; lia).
        -- unfold hdr. by rewrite dec_enc_seg_hdr by (unfold seg_hdr_wf; cbn; lia).
    + destruct Hq as (-> & Hsc & K & Hno). split; [by apply wrote_segs_kept|]. split; [done|].
      exists (next_id (d_st (lp_db s))), (len (hdr ++ chunk)). split; [rewrite len_app, Hh; lia|done].
Qed.

Lemma slice_zd a n b (l : bytes) : 0 <= a -> 0 <= b -> slice a n (zd b l) = slice (b + a) n l.
Proof. intros Ha' Hb. unfold slice, zd. rewrite drop_drop. do 2 f_equal. lia. Qed.

Lemma seg_of_frame d d' owner seq sid c : slots d' sid = slots d sid -> seg_of cfg g d owner seq sid c -> seg_of cfg g d' owner seq sid c.
Proof. intros E (fl & q & Hq & ?). exists fl, q. by rewrite E. Qed.

(** The segments written for [src] from the [j]-th on. *)
Definition new_segs s d (id sl j : Z) (src : bytes) (n : nat) (ids : list Z) : Prop :=
  length ids = n /\ forall i sid, ids !! i = Some sid ->
    next_id (d_st (lp_db s)) <= sid < next_id (d_st d) /\ seg_of cfg g d id (j + Z.of_nat i) sid (slice (Z.of_nat i * sl) sl src).

Lemma seg_write_all_spec n s id sl j src :
  lsession s -> lroom s (8 * Z.of_nat n) -> 0 <= id < 2 ^ 64 -> 0 <= j -> j + Z.of_nat n <= 2 ^ 16 -> bytes_ok src ->
  0 <= sl <= MAX_PAYLOAD_LEN cfg - 12 ->
  wp (Large.seg_write_all cfg n g id sl j src) s (fun r s' => wrote_segs (8 * Z.of_nat n) s s' /\
    match r with
    | Ok ids => new_segs s (lp_db s') id sl j src n ids
    | Err e => e = ENOSPC /\ crowded (lp_db s')
    end).
Proof.
  intros Ls Hr Hid Hj Hn Hb Hsl. revert s j src Ls Hr Hj Hn Hb. induction n as [|n IH]; intros s j src Ls Hr Hj Hn Hb; cbn [Large.seg_write_all].
  { apply wp_ret. split; [by apply wrote_segs_kept, (kept_here cfg g sidx_wf), Ls|]. split; [done|]. intros i sid Hi. by rewrite lookup_nil in Hi. }
  rewrite u16_small by lia. apply wp_bnd. eapply wp_mono.
  { apply (seg_write_chunk_spec s id j (zt sl src) Ls); [destruct Hr; split; lia|done|lia|rewrite zt_slice; by apply bytes_ok_slice|].
    unfold zt, len. rewrite length_take. lia. }
  cbv beta. intros r s1 [W1 Hq]. destruct r as [sid|e].
  2: { split; [|done]. destruct W1. split; try done. eapply moves_le; [|done]. lia. }
  destruct Hq as [Hsid Hsg]. apply wp_bnd. pose proof (ws_moves _ _ _ W1) as M1.
  eapply wp_mono; [apply (IH s1 (j + 1) (zd sl src)); [apply W1|eapply moves_room; [exact M1|destruct Hr; split; lia]|lia|lia|]|].
  { unfold zd. by apply Forall_drop. }
  cbv beta. intros r s2 [W2 Hq]. assert (wrote_segs (8 * Z.of_nat (Datatypes.S n)) s s2) as W.
  { replace (8 * Z.of_nat (Datatypes.S n)) with (8 + 8 * Z.of_nat n) by lia. by eapply wrote_segs_trans. }
  destruct r as [ids|e]; [|done]. apply wp_ret. split; [done|]. destruct Hq as [Hlen Hq]. pose proof (mv_next _ _ _ _ M1) as Hn1.
  pose proof (mv_next _ _ _ _ (ws_moves _ _ _ W2)) as Hn2.
  split; [cbn; lia|]. intros [|i] x Hx; cbn in Hx.
  - injection Hx as <-. split; [lia|]. rewrite Z.add_0_r. change (Z.of_nat 0 * sl) with 0. rewrite <- zt_slice.
    apply (seg_of_frame (lp_db s1)); [|done]. apply (ws_old _ _ _ W2). lia.
  - destruct (Hq i x Hx) as [Hx1 Hx2]. split; [lia|]. rewrite slice_zd in Hx2 by lia.
    replace (j + Z.of_nat (Datatypes.S i)) with (j + 1 + Z.of_nat i) by lia.
    replace (Z.of_nat (Datatypes.S i) * sl) with (sl + Z.of_nat i * sl) by lia. done.
Qed.

(** ** Releasing a segment *)

(** An id that shows nothing and that no index record lists. *)
Definition releasable d (sid : Z) : Prop := 0 < sid < 2 ^ 64 /\ object d sid = None /\ unlisted cfg g d sid.

Lemma releasable_slots d d' sid : same_contents cfg g d d' -> releasable d sid -> releasable d' sid.
Proof.
  intros Hs (Hid & Ho & Hu). split; [done|]. split; [by rewrite (object_same cfg g _ _ _ Hs)|].
  intros id fl p Hne E. rewrite Hs in E. by apply (Hu id fl p).
Qed.

(** Burying [sid] lists nothing anew. *)
Lemma releasable_upd s s' sid x : upd s s' sid None -> releasable (lp_db s) sid -> releasable (lp_db s) x -> releasable (lp_db s') x.
Proof.
  intros Hu (_ & Hos & Hul) (Hid & Ho & Hux). split; [done|]. split.
  - destruct (decide (x = sid)) as [->|Hne]; [|by rewrite (upd_object cfg g sidx_wf s s' sid None)].
    unfold SegBase.object. by rewrite (up_slots _ _ _ _ _ _ _ Hu), decide_True.
  - intros id fl p Hne E. rewrite (up_slots _ _ _ _ _ _ _ Hu) in E. case_decide; [done|]. by apply (Hux id fl p).
Qed.

(** What a call that only buries unlisted slots leaves. *)
Record buried s s' : Prop := {
  bu_session : lsession s';
  bu_moves : moves 0 s s';
  bu_objects : forall id, object (lp_db s') id = object (lp_db s) id;
  bu_more : forall x, releasable (lp_db s) x -> releasable (lp_db s') x;
  bu_plain : forall id, internal (lp_db s) id = false -> internal (lp_db s') id = false;
}.

Lemma buried_trans s s1 s2 : buried s s1 -> buried s1 s2 -> buried s s2.
Proof.
  intros [A1 A2 A3 A4 A5] [B1 B2 B3 B4 B5]. split; [done|exact (moves_trans g 0 0 _ _ _ A2 B2)| |auto..]. intros id. by rewrite B3, A3.
Qed.

Lemma kept_buried s s' : lsession s -> kept 0 s s' -> buried s s'.
Proof.
  intros Ls K. split; [by eapply kept_lsession|by apply (kept_moves cfg g sidx_wf)| | |].
  - intros id. apply object_same, K.
  - intros x. apply releasable_slots, K.
  - intros id. by rewrite (internal_same cfg g _ _ _ (kp_slots _ _ _ _ _ _ K)).
Qed.

Lemma upd_buried s s' sid : lsession s -> releasable (lp_db s) sid -> upd s s' sid None -> buried s s'.
Proof.
  intros Ls Hrel Hu. pose proof Hrel as (Hid & Ho & Hul).
  assert (forall id, object (lp_db s') id = object (lp_db s) id) as Hob.
  { intros id. destruct (decide (id = sid)) as [->|Hne]; [|by apply (upd_object cfg g sidx_wf s s' sid None)].
    rewrite Ho. unfold SegBase.object. by rewrite (up_slots _ _ _ _ _ _ _ Hu), decide_True. }
  split; [|exact (upd_moves cfg g sidx_wf _ _ _ _ Hu)|done|intros x; by apply (releasable_upd s s' sid x)|].
  2: { intros id. unfold SegBase.internal. rewrite (up_slots _ _ _ _ _ _ _ Hu). by case_decide. }
  eapply (upd_lsession cfg MAX_OBJECT_LEN g sidx_wf); [exact Ls|exact Hul|exact Hu|done|done|done|]. intros ->. rewrite Hob. apply Ls.
Qed.

Lemma seg_release_one_spec s sid :
  lsession s -> releasable (lp_db s) sid ->
  wp (Large.seg_release_one cfg g sid) s (fun r s' => buried s s' /\
    match r with
    | Ok b => set_value cfg g (lp_db s) (lp_db s') sid None /\
        (b = false -> exists e, bucket_log cfg g (bimg (lp_db s') (bucket_of sid)) = bucket_log cfg g (bimg (lp_db s) (bucket_of sid)) ++ [e])
    | Err e => kept 0 s s' /\ ((e = ENOENT /\ slots (lp_db s) sid = None) \/ (e = ENOSPC /\ no_room (lp_db s') sid 0))
    end).
Proof.
  intros Ls Hrel. pose proof Hrel as (Hid & Ho & Hul). pose proof (ls_session _ _ _ _ _ Ls) as Se.
  pose proof (bucket_range cfg g Hg sid) as Hb. unfold Large.seg_release_one. rewrite (id_to_bucket_eq cfg g Hg).
  apply wp_bnd. apply (on_header cfg g Hg sidx_wf); [done|done|]. intros s1 Hs1. pose proof (seen_kept cfg g sidx_wf _ _ Se Hs1) as K1.
  destruct (bucket_hdr_valid (bimg (lp_db s) (bucket_of sid)) (bucket_of sid)) eqn:Hv; cbn [negb].
  2: { apply wp_fail. split; [by apply kept_buried|]. split; [done|]. left. split; [done|]. by apply slots_unformatted. }
  pose proof (kp_session _ _ _ _ _ _ K1) as Se1. rewrite <- (seen_bimg cfg g sidx_wf _ _ (bucket_of sid) Hs1) in Hv.
  apply wp_bnd. eapply wp_mono; [by apply (walk_cursor_spec cfg g Hg sidx_wf s1 sid Se1)|]. cbv beta. intros r s2 [Hs2 ->].
  pose proof (seen_kept cfg g sidx_wf _ _ Se1 Hs2) as K2. pose proof (seen_bimg cfg g sidx_wf _ _ (bucket_of sid) Hs2) as Hb2.
  pose proof (kept_then cfg g sidx_wf 0 0 _ _ _ K1 K2) as K12. rewrite <- Hb2 in Hv.
  apply (room_strict s2 sid 0 _ (fun c => (c, true)) (fun c => (c, false))); [apply K2|done|unfold SegBase.cursor_of; by rewrite Hb2| |].
  2: { intros s' K3 Hno. pose proof (kept_then cfg g sidx_wf 0 0 _ _ _ K12 K3) as K. split; [by apply kept_buried|]. split; [done|]. by right. }
  intros s3 c3 x K3 Hv3 Hc3 Hfit Hx. pose proof (kept_then cfg g sidx_wf 0 0 _ _ _ K12 K3) as K. cbn [Z.add] in K.
  assert (fst x = c3) as -> by (destruct Hx as [->|[-> _]]; done). subst c3.
  pose proof (kept_lsession cfg MAX_OBJECT_LEN g sidx_wf _ _ _ Ls K) as Ls3.
  assert (releasable (lp_db s3) sid) as Hrel3 by (eapply releasable_slots; [apply K|done]).
  apply wp_bnd. eapply wp_mono; [apply (seg_append_spec cfg g Hg Ha sidx_wf s3 sid (Z.lor BLOB_DB_SLOT_F_TOMBSTONE BLOB_DB_SLOT_F_SEGMENT) [] [])|]; try done.
  - apply Ls3.
  - apply (flags_ok_large cfg Hlarge). auto.
  - constructor.
  - change (len ([] ++ [])) with 0. pose proof (ok_payload _ _ Hg). lia.
  - intros _ ->. by apply (ls_root _ _ _ _ _ Ls).
  - cbv beta. intros r s' (-> & Hu & Hlog). apply wp_ret.
    change (slot_value _ _) with (@None (Z * bytes)) in Hu. split; [eapply buried_trans; [by apply kept_buried|by eapply upd_buried]|].
    split; [eapply set_value_trans; [apply K|apply Hu]|]. intros Ef. destruct Hx as [->|[-> ->]]; [done|]. eexists. rewrite Hlog. do 2 f_equal.
    by rewrite Hb2, (seen_bimg cfg g sidx_wf _ _ (bucket_of sid) Hs1).
Qed.

(** Every id of the list is released, or its bucket has no room for a tombstone. *)
Lemma seg_release_spec ids s :
  lsession s -> Forall (releasable (lp_db s)) ids -> wp (Large.seg_release cfg g ids) s (fun r s' => r = Ok tt /\ buried s s').
Proof.
  revert s. induction ids as [|sid ids IH]; intros s Ls Hf; cbn [Large.seg_release].
  { apply wp_ret. split; [done|]. apply kept_buried; [done|]. by apply (kept_here cfg g sidx_wf), Ls. }
  apply list.Forall_cons in Hf as [Hx Hf]. apply wp_bnd, wp_try. eapply wp_mono; [by apply seg_release_one_spec|]. cbv beta.
  intros r s1 [B1 _]. eapply wp_mono; [apply (IH s1); [apply B1|]|].
  - eapply List.Forall_impl; [|exact Hf]. intros x; apply (bu_more _ _ B1).
  - cbv beta. intros r' s2 [-> B2]. split; [done|by eapply buried_trans].
Qed.
End io.
