(* ===== verification/SegRead.v ===== *)
(** Reading objects of a store with large payloads: index records and segment
    tables, the cache, and the windows of a segmented object, on a device that
    works. Every read answers from the object the id holds. *)

From S2P Require Import Prelude Layout Store SlotIndexIface Image Core CoreRead Lookup Append Bucket Compact.
From S2P Require Import CompactImage Recovery CompactSpec Ops OpsRead OpsWrite Master Mount MasterSpec MasterInv.
From S2P Require Import MountSpec Session Segments SegBase SegIo.

Section read.
Context (cfg : config) (MAX_OBJECT_LEN : Z) (g : geom) `{Crc}.
Context {S I : Type} `{!Store S} `{!StoreView S} `{!SlotIndex I}.
Context (Hg : geom_ok cfg g) (Ha : geom_aligned g) {SL : StoreLaws S (store_geom_of g)} {CL : CrcLaws _}.
Context (sidx_wf : Z -> I -> Prop) {IL : SlotIndexLaws I sidx_wf}.
Notation db := (db S I).
Notation lp := (lp S I).
Notation slots := (slots cfg g).
Notation session := (session cfg g sidx_wf).
Notation lsession := (lsession cfg MAX_OBJECT_LEN g sidx_wf).
Notation kept := (kept cfg g sidx_wf).
Notation seen := (seen cfg g sidx_wf).
Notation object := (object cfg g).
Notation internal := (internal cfg g).
Notation segmented := (segmented cfg MAX_OBJECT_LEN g).
Notation seg_of := (seg_of cfg g).
Notation bucket_of id := (id mod n_buckets g).
Implicit Types (d : db) (s : lp).

(** A read that may have filled the cache. *)
Record looked s s' : Prop := {
  lk_roi : roi (lp_db s) (lp_db s');
  lk_session : lsession s';
  lk_len : g_seg_len s' = g_seg_len s;
  lk_max : g_seg_max s' = g_seg_max s;
}.

Lemma looked_trans s s1 s2 : looked s s1 -> looked s1 s2 -> looked s s2.
Proof. intros [A1 A2 A3 A4] [B1 B2 B3 B4]. split; [by etrans|done|congruence..]. Qed.

Lemma seen_looked s s' : lsession s -> seen s s' -> looked s s'.
Proof.
  intros Ls Hs. pose proof (seen_kept cfg g sidx_wf _ _ (ls_session _ _ _ _ _ Ls) Hs) as K.
  split; [apply Hs|by eapply kept_lsession|..]; rewrite (kp_fields _ _ _ _ _ _ K); done.
Qed.

Lemma looked_slots s s' id : looked s s' -> slots (lp_db s') id = slots (lp_db s) id.
Proof. intros Hl. apply (same_contents_roi cfg g _ _ (lk_roi _ _ Hl)). Qed.

Lemma looked_object s s' id : looked s s' -> object (lp_db s') id = object (lp_db s) id.
Proof. intros Hl. apply object_same, same_contents_roi, Hl. Qed.

(** What an index record of the store says of its object. *)
Lemma index_object s id fl p :
  lsession s -> slots (lp_db s) id = Some (fl, p) -> is_idx fl = true ->
  is_seg fl = false /\ bytes_ok p /\ 16 <= len p /\ exists v, segmented (lp_db s) (g_seg_len s) (g_seg_max s) id p v /\ object (lp_db s) id = Some v /\
    0 < ih_seg_count (dec_index_hdr p) <= 8192 /\ len (ids_of p) = ih_seg_count (dec_index_hdr p).
Proof.
  intros Ls E Hi. assert (is_seg fl = false) as Hs.
  { destruct (is_seg fl) eqn:Ef; [|done]. by rewrite (ls_flags _ _ _ _ _ Ls id fl p E Ef) in Hi. }
  destruct (slots_known cfg g Hg sidx_wf _ _ _ _ (se_inv cfg g sidx_wf s (ls_session _ _ _ _ _ Ls)) E) as (_ & _ & Hb & _).
  destruct (ls_wf _ _ _ _ _ Ls id fl p E Hs Hi) as [v Hv]. pose proof (sg_valid _ _ _ _ _ _ _ _ _ Hv) as Hval.
  apply index_hdr_valid_spec in Hval as (_ & _ & Hc0 & Hcm & _ & Hl & _ & _). pose proof (ls_geo _ _ _ _ _ Ls) as [? Hm _ _].
  assert (0 <= ih_seg_count (dec_index_hdr p)) as Hc by (cbn; apply rd2_nonneg, Hb).
  split_and!; try done; try lia. exists v. split; [done|]. split; [|split; [lia|]].
  - apply (segmented_object cfg MAX_OBJECT_LEN g _ (g_seg_len s) (g_seg_max s) _ fl p v); try done. lia.
  - by apply len_dec_ids.
Qed.

(** ** Finding *)

(** The slot of an id, or the error of a lookup. *)
Lemma find_slot {A} s id (K : bucket_scan * res bytes -> bytes -> M lp A) Q :
  lsession s -> 0 < id < 2 ^ 64 ->
  (forall s' x fl p, seen s s' -> slots (lp_db s) id = Some (fl, p) -> sh_flags (head_hdr (target (fst x))) = fl ->
    sh_val_len (head_hdr (target (fst x))) = len p -> wp (K x p) s' Q) ->
  (forall s', seen s s' -> slots (lp_db s) id = None -> Q (Err ENOENT) s') ->
  wp (mbnd (Large.on_db (read_bucket_hdr g (id_to_bucket g id))) (fun formatted => if negb formatted then mfail ENOENT else
    mbnd (Large.on_db (find_live_slot cfg g (id_to_bucket g id) id)) (fun r => mbnd (mlift (snd r)) (K r)))) s Q.
Proof.
  intros Ls Hid HK Hno. pose proof (ls_session _ _ _ _ _ Ls) as Se. rewrite (id_to_bucket_eq cfg g Hg). pose proof (bucket_range cfg g Hg id) as Hb.
  apply wp_bnd. apply (on_header cfg g Hg sidx_wf); [done|done|]. intros s1 Hs1.
  destruct (bucket_hdr_valid (bimg (lp_db s) (bucket_of id)) (bucket_of id)) eqn:Hv; cbn [negb].
  2: { apply wp_fail, Hno; [done|]. by apply slots_unformatted. }
  pose proof (seen_session cfg g sidx_wf _ _ Se Hs1) as Se1. apply wp_bnd.
  apply (on_find cfg g Hg sidx_wf); [done|done|by rewrite (seen_bimg cfg g sidx_wf _ _ _ Hs1)|]. intros x s2 Hs2 Hf.
  pose proof (seen_trans cfg g sidx_wf _ _ _ Hs1 Hs2) as Hs. apply (found_roi cfg g (lp_db s)) in Hf; [|apply Hs1].
  destruct Hf as (Hrc & _ & Hx). rewrite Hrc. apply wp_bnd. destruct (slots (lp_db s) id) as [[fl p]|] eqn:E.
  - apply wp_ret. destruct (Hx fl p eq_refl) as (Hfl & Hln & _). by eapply HK.
  - by apply wp_fail, Hno.
Qed.

(** ** The index record and its cache *)

(** What looking an index up answers. *)
Definition indexed s (id : Z) (r : res (option (blob_db_index_hdr * Z))) s' : Prop :=
  match slots (lp_db s) id with
  | None => r = Err ENOENT
  | Some (fl, p) =>
      if is_idx fl
      then r = Ok (Some (dec_index_hdr p, ih_seg_count (dec_index_hdr p))) /\ take (Z.to_nat (ih_seg_count (dec_index_hdr p))) (g_seg_a s') = ids_of p
      else r = Ok None
  end.

Lemma indexed_set s d id hdr k a :
  lsession s -> seen s (with_db s d) -> slots (lp_db s) id <> None ->
  (forall fl p, slots (lp_db s) id = Some (fl, p) -> is_idx fl = true /\ hdr = dec_index_hdr p /\ k = ih_seg_count (dec_index_hdr p) /\
    take (Z.to_nat k) a = ids_of p) ->
  looked s (mk_lp d id hdr k a (g_seg_len s) (g_seg_max s)).
Proof.
  intros Ls Hs Hn Hp. pose proof (seen_looked _ _ Ls Hs) as [Hr [L1 L2 L3 L4 Lf L5 L6 Lh] _ _]. cbn [with_db lp_db] in *. split; try done.
  split; [done|done|by destruct L3; split|done|done|done| |done]. right. cbn. rewrite (same_contents_roi cfg g _ _ Hr). destruct (slots (lp_db s) id) as [[fl p]|] eqn:E; [|done].
  destruct (Hp fl p eq_refl) as (Hi & -> & -> & Ht). exists fl, p. destruct (index_object s id fl p Ls E Hi) as (? & _). done.
Qed.

Lemma index_load_spec s id :
  lsession s -> 0 < id < 2 ^ 64 -> wp (Large.index_load cfg g id) s (fun r s' =>
    roi (lp_db s) (lp_db s') /\ indexed s id r s' /\
    match r with
    | Ok (Some (h, k)) => exists d a, s' = mk_lp d (g_idx_id s) (g_idx_hdr s) (g_idx_k s) a (g_seg_len s) (g_seg_max s) /\ seen s (with_db s d)
    | _ => seen s s'
    end).
Proof.
  intros Ls Hid. unfold Large.index_load. cbv zeta. apply find_slot; [done|done| |].
  2: { intros s' Hs E. split; [apply Hs|]. split; [|done]. unfold indexed. by rewrite E. }
  intros s1 x fl p Hs E Hfl Hln. rewrite Hfl. fold (is_idx fl). destruct (is_idx fl) eqn:Hi; cbn [negb].
  2: { apply wp_ret. split; [apply Hs|]. split; [|done]. unfold indexed. by rewrite E, Hi. }
  destruct (index_object s id fl p Ls E Hi) as (_ & Hb & Hl & v & Hv & _ & Hc & Hids).
  rewrite Hln. destruct (Z.ltb_spec (len p) 16); [lia|]. apply wp_bnd, wp_gets. cbv beta.
  assert (g_seg_max s1 = g_seg_max s) as -> by (destruct Hs as (_ & _ & ->); done).
  rewrite (sg_valid _ _ _ _ _ _ _ _ _ Hv). cbn [negb]. apply wp_bnd, wp_mod. cbv beta. apply wp_ret.
  split; [apply Hs|]. split.
  - unfold indexed. rewrite E, Hi. split; [done|]. cbn [g_seg_a]. fold (ids_of p). rewrite take_app_length'; [done|]. unfold len in Hids. lia.
  - exists (lp_db s1). eexists. split; [|by destruct Hs as (Hr & Hc' & Hf); split_and!]. destruct Hs as (_ & _ & Hf). rewrite Hf. cbn. reflexivity.
Qed.

Lemma index_load_cached_spec s id :
  lsession s -> 0 < id < 2 ^ 64 -> wp (Large.index_load_cached cfg g id) s (fun r s' => looked s s' /\ indexed s id r s').
Proof.
  intros Ls Hid. unfold Large.index_load_cached. apply wp_bnd, wp_gets. cbv beta. destruct (Z.eqb_spec (g_idx_id s) id) as [Eid|Hne].
  - apply wp_ret. split; [apply seen_looked; [done|]; by apply (seen_refl cfg g sidx_wf), Ls|].
    destruct (ls_cache _ _ _ _ _ Ls) as [?|(fl & p & E & _ & Hi & Hh & Hk & Ht)]; [lia|]. rewrite Eid in E. unfold indexed.
    rewrite E, Hi, Hh, Hk in *. done.
  - apply wp_bnd. eapply wp_mono; [by apply index_load_spec|]. cbv beta. intros r s1 (Hr & Hx & Hc).
    destruct r as [[[h k]|]|e]; [|by apply wp_ret; split; [apply seen_looked|]|by split; [apply seen_looked|]].
    apply wp_bnd, wp_mod. cbv beta. apply wp_ret. destruct Hc as (d & a & -> & Hs). cbn [lp_db g_seg_a g_seg_len g_seg_max] in *.
    unfold indexed in *. cbn [g_seg_a] in *. destruct (slots (lp_db s) id) as [[fl p]|] eqn:E; [|done]. destruct (is_idx fl) eqn:Hi; [|done].
    destruct Hx as [[= -> ->] Ht]. destruct (index_object s id fl p Ls E Hi) as (_ & _ & _ & _ & _ & _ & Hc & _).
    change (rd 2 12 p) with (ih_seg_count (dec_index_hdr p)). split; [|done]. rewrite u16_small by lia. apply indexed_set; [done|done|congruence|]. intros fl' p' E'. rewrite E in E'. injection E' as <- <-. done.
Qed.

(** ** Segments *)

Lemma on_bnd {A B} (m : M db A) (k : A -> M db B) s Q :
  wp (mbnd (Large.on_db m) (fun a => Large.on_db (k a))) s Q -> wp (Large.on_db (mbnd m k)) s Q.
Proof. unfold wp, mbnd, Large.on_db. by destruct (m (lp_db s)) as [[a|e] d]. Qed.

Lemma on_ret {A} (a : A) s (Q : res A -> lp -> Prop) : Q (Ok a) s -> wp (Large.on_db (mret a)) s Q.
Proof. unfold wp, Large.on_db. by destruct s. Qed.

Lemma seg_chunk_read_spec s owner seq sid skip n c :
  lsession s -> seg_of (lp_db s) owner seq sid c -> 0 <= skip -> 0 <= n -> skip + n <= len c ->
  wp (Large.seg_chunk_read cfg g owner sid seq skip n) s (fun r s' => seen s s' /\ r = Ok (slice skip n c)).
Proof.
  intros Ls (fl & q & E & Hs & Hl & Ho & Hq & <-) Hsk Hn Hle. pose proof (ls_session _ _ _ _ _ Ls) as Se.
  destruct (slots_known cfg g Hg sidx_wf _ _ _ _ (se_inv cfg g sidx_wf s Se) E) as (Hid & _ & _ & Hv).
  pose proof (bucket_range cfg g Hg sid) as Hb. assert (len (zd 12 q) = len q - 12) as Hz by (apply len_zd; lia).
  unfold Large.seg_chunk_read. rewrite (id_to_bucket_eq cfg g Hg). cbv zeta. apply on_bnd, wp_bnd.
  apply (on_header cfg g Hg sidx_wf); [done|done|]. intros s1 Hs1. rewrite Hv. cbn [negb]. pose proof (seen_session cfg g sidx_wf _ _ Se Hs1) as Se1.
  apply on_bnd, wp_bnd. apply (on_find cfg g Hg sidx_wf); [done|done|by rewrite (seen_bimg cfg g sidx_wf _ _ _ Hs1)|].
  intros x s2 Hs2 Hf. apply (found_roi cfg g (lp_db s)) in Hf; [|apply Hs1]. destruct Hf as (Hrc & _ & Hx). rewrite E in Hrc, Hx. rewrite Hrc.
  destruct (Hx fl q eq_refl) as (Hfl & Hln & _). rewrite Hfl, Hln. fold (is_seg fl). rewrite Hs. cbn [negb orb].
  destruct (Z.ltb_spec (len q) 12); [lia|]. rewrite Ho, Hq, !Z.eqb_refl. cbn [negb orb].
  destruct (Z.gtb_spec (skip + n) (len q - 12)); [lia|]. apply on_ret.
  split; [by eapply (seen_trans cfg g sidx_wf)|]. by rewrite slice_zd by lia.
Qed.

(** The table of an object whose index record is [p], resident in [g_seg_a]. *)
Definition resident s (p : bytes) : Prop := take (Z.to_nat (ih_seg_count (dec_index_hdr p))) (g_seg_a s) = ids_of p.

Lemma resident_seg s id p v j :
  segmented (lp_db s) (g_seg_len s) (g_seg_max s) id p v -> resident s p -> len (ids_of p) = ih_seg_count (dec_index_hdr p) ->
  0 <= j < ih_seg_count (dec_index_hdr p) -> seg_of (lp_db s) id j (seg_id_at (g_seg_a s) j) (slice (j * g_seg_len s) (g_seg_len s) v).
Proof.
  intros Hv Hr Hl Hj. destruct (ids_of p !! Z.to_nat j) as [sid|] eqn:E.
  2: { apply lookup_ge_None in E. unfold len in Hl. lia. }
  pose proof (sg_segs _ _ _ _ _ _ _ _ _ Hv _ _ E) as Hs. rewrite Z2Nat.id in Hs by lia.
  rewrite <- Hr, lookup_take_lt in E by lia. unfold seg_id_at. by rewrite E.
Qed.

Lemma seg_read_loop_spec fuel s id p v pos left :
  lsession s -> segmented (lp_db s) (g_seg_len s) (g_seg_max s) id p v -> resident s p ->
  len (ids_of p) = ih_seg_count (dec_index_hdr p) -> ih_seg_count (dec_index_hdr p) <= 8192 ->
  0 <= pos -> 0 <= left <= Z.of_nat fuel -> pos + left <= len v ->
  wp (Large.seg_read_loop cfg fuel g id (dec_index_hdr p) pos left) s (fun r s' => seen s s' /\ r = Ok (slice pos left v)).
Proof.
  intros Ls Hv Hr Hl Hc. pose proof (ls_geo _ _ _ _ _ Ls) as [Hsl _ _ _]. pose proof (sg_len _ _ _ _ _ _ _ _ _ Hv) as El.
  pose proof (proj1 (index_hdr_valid_spec _ _ _) (sg_valid _ _ _ _ _ _ _ _ _ Hv)) as (_ & _ & _ & _ & _ & _ & _ & Hspan).
  rewrite (sg_total _ _ _ _ _ _ _ _ _ Hv), El in Hspan. revert s Ls Hv Hr Hsl El Hspan pos left.
  induction fuel as [|fuel IH]; intros s Ls Hv Hr Hsl El Hspan pos left Hp Hle Hend; cbn [Large.seg_read_loop].
  { apply wp_ret. split; [by apply (seen_refl cfg g sidx_wf), Ls|]. assert (left = 0) as -> by lia. done. }
  destruct (Z.leb_spec left 0); [apply wp_ret; split; [by apply (seen_refl cfg g sidx_wf), Ls|]; assert (left = 0) as -> by lia; done|].
  rewrite El. set (sl := g_seg_len s) in *. set (j := pos / sl). pose proof (Z.div_mod pos sl ltac:(lia)) as Hdm. fold j in Hdm.
  pose proof (Z.mod_pos_bound pos sl ltac:(lia)) as Hm. assert (0 <= j < ih_seg_count (dec_index_hdr p)) as Hj.
  { split; [apply Z.div_pos; lia|]. apply Z.div_lt_upper_bound; lia. }
  rewrite u16_small by lia. set (n := Z.min (sl - pos mod sl) left). apply wp_bnd, wp_gets. cbv beta. apply wp_bnd.
  pose proof (resident_seg s id p v j Hv Hr Hl Hj) as Hsg. fold sl in Hsg.
  eapply wp_mono; [apply (seg_chunk_read_spec s id j _ (pos mod sl) n _ Ls Hsg)|]; [lia|lia|rewrite len_slice_le by nia; lia|].
  cbv beta. intros r s1 [Hs1 ->]. pose proof (seen_looked _ _ Ls Hs1) as Lk. destruct Hs1 as (Hroi & Hco & Hf1).
  apply wp_bnd. eapply wp_mono; [apply (IH s1)|]; rewrite ?(lk_len _ _ Lk), ?(lk_max _ _ Lk); try done; try lia.
  - apply Lk.
  - by apply (segmented_same cfg MAX_OBJECT_LEN g (lp_db s)), Hv; apply same_contents_roi.
  - unfold resident. rewrite Hf1. apply Hr.
  - cbv beta. intros r s2 [Hs2 ->]. apply wp_ret. split; [by eapply (seen_trans cfg g sidx_wf); [split_and!|]|]. f_equal.
    rewrite slice_in_chunk by lia. replace (j * sl + pos mod sl) with pos by lia.
    replace left with (n + (left - n)) at 2 by lia. rewrite slice_split by lia. done.
Qed.

(** Of an object of [v], the bytes from [off] on, [n] of them, as far as they go. *)
Lemma seg_read_range_spec s id p v fl off n :
  lsession s -> slots (lp_db s) id = Some (fl, p) -> is_idx fl = true -> object (lp_db s) id = Some v -> resident s p -> 0 <= off -> 0 <= n ->
  wp (Large.seg_read_range cfg g id (dec_index_hdr p) off n) s (fun r s' => looked s s' /\ r = Ok (slice off n v)).
Proof.
  intros Ls E Hi Hob Hr Ho Hn. destruct (index_object s id fl p Ls E Hi) as (_ & _ & _ & w & Hv & Ew & Hc & Hl).
  rewrite Hob in Ew. injection Ew as <-. unfold Large.seg_read_range. rewrite (sg_total _ _ _ _ _ _ _ _ _ Hv).
  destruct (Z.geb_spec off (len v)).
  { apply wp_ret. split; [by apply seen_looked, (seen_refl cfg g sidx_wf), Ls|]. by rewrite slice_past. }
  set (n' := if n >? len v - off then len v - off else n). assert (n' = Z.min n (len v - off)) as En.
  { unfold n'. destruct (Z.gtb_spec n (len v - off)); lia. }
  rewrite slice_clip, <- En by lia. eapply wp_mono; [by apply (seg_read_loop_spec _ s id p v off n'); try done; lia|]. cbv beta.
  intros r s' [Hs ->]. split; [by apply seen_looked|done].
Qed.

(** ** The operations *)

(** The flags of a slot that was found, and whose object the id shows. *)
Lemma inline_object s id fl p :
  slots (lp_db s) id = Some (fl, p) -> is_seg fl = false -> is_idx fl = false -> object (lp_db s) id = Some p.
Proof. intros E Hs Hi. unfold SegBase.object. by rewrite E, Hs, Hi. Qed.

Lemma no_object s id : slots (lp_db s) id = None -> object (lp_db s) id = None.
Proof. intros E. unfold SegBase.object. by rewrite E. Qed.

Lemma object_zero s : session (lp_db s) -> object (lp_db s) 0 = None.
Proof.
  intros Se. apply no_object. destruct (slots (lp_db s) 0) as [[fl p]|] eqn:E; [|done].
  destruct (slots_known cfg g Hg sidx_wf _ _ _ _ (se_inv cfg g sidx_wf s Se) E). lia.
Qed.

Lemma segment_object s id fl p : slots (lp_db s) id = Some (fl, p) -> is_seg fl = true -> object (lp_db s) id = None.
Proof. intros E Hs. unfold SegBase.object. by rewrite E, Hs. Qed.

(** An indexed object: its record is loaded, its table resident. *)
Lemma load_indexed {A} s id fl p (K : option (blob_db_index_hdr * Z) -> M lp A) Q :
  lsession s -> slots (lp_db s) id = Some (fl, p) -> is_idx fl = true ->
  (forall s', looked s s' -> resident s' p -> wp (K (Some (dec_index_hdr p, ih_seg_count (dec_index_hdr p)))) s' Q) ->
  wp (mbnd (Large.index_load_cached cfg g id) K) s Q.
Proof.
  intros Ls E Hi HK. destruct (slots_known cfg g Hg sidx_wf _ _ _ _ (se_inv cfg g sidx_wf s (ls_session _ _ _ _ _ Ls)) E) as (Hid & _).
  apply wp_bnd. eapply wp_mono; [by apply index_load_cached_spec|]. cbv beta. intros r s' [Hl Hx]. unfold indexed in Hx. rewrite E, Hi in Hx.
  destruct Hx as [-> Hr]. by apply HK.
Qed.

Lemma looked_seen_then s s1 s2 : lsession s -> seen s s1 -> looked s1 s2 -> looked s s2.
Proof. intros Ls H1 H2. eapply looked_trans; [by apply seen_looked|done]. Qed.

Lemma seen_slots s s' id : seen s s' -> slots (lp_db s') id = slots (lp_db s) id.
Proof. intros Hs. apply (same_contents_roi cfg g _ _ (proj1 Hs)). Qed.

Lemma mounted_session s : session (lp_db s) -> mounted (d_st (lp_db s)) = true.
Proof. intros Se. apply (lv_mounted _ _ _ _ (se_live _ _ _ _ Se)). Qed.

Lemma on_get {A B} (f : st_t -> A) (K : A -> M lp B) s Q : wp (K (f (d_st (lp_db s)))) s Q -> wp (mbnd (Large.on_db (st_get f)) K) s Q.
Proof. unfold wp, mbnd, Large.on_db, st_get, mgets. by destruct s. Qed.

Lemma read_impl_large s id off n :
  lsession s -> 0 <= id < 2 ^ 64 -> 0 <= off -> 0 <= n ->
  wp (Large.read_impl cfg g id off false n) s (fun r s' => looked s s' /\
    r = match object (lp_db s) id with Some v => Ok (slice off n v) | None => Err ENOENT end).
Proof.
  intros Ls Hid Ho Hn. pose proof (ls_session _ _ _ _ _ Ls) as Se. unfold Large.read_impl. apply on_get.
  rewrite (mounted_session s Se), andb_false_r. cbn [negb]. pose proof (seen_refl cfg g sidx_wf s Se) as Hs0.
  destruct (Z.eqb_spec id 0) as [->|Hne].
  { apply wp_fail. split; [by apply seen_looked|]. by rewrite object_zero. }
  apply wp_bnd, wp_gets. cbv beta zeta. destruct (Z.eqb_spec (g_idx_id s) id) as [Eid|Hni].
  { destruct (ls_cache _ _ _ _ _ Ls) as [?|(fl & p & E & _ & Hi & Hh & Hk & Ht)]; [lia|]. rewrite Eid in E. rewrite Hh, Hk in *.
    destruct (index_object s id fl p Ls E Hi) as (_ & _ & _ & v & _ & Ev & _). rewrite Ev. by eapply seg_read_range_spec. }
  apply find_slot; [done|lia| |].
  2: { intros s' Hs E. split; [by apply seen_looked|]. by rewrite no_object. }
  intros s1 x fl p Hs E Hfl Hln. unfold Large.is_segment, Large.is_indexed, Large.flags_of. rewrite Hfl. fold (is_seg fl) (is_idx fl).
  pose proof (seen_looked _ _ Ls Hs) as Hl1.
  destruct (is_seg fl) eqn:Hsg; [apply wp_fail; split; [done|]; by erewrite segment_object|].
  destruct (is_idx fl) eqn:Hi.
  - destruct (index_object s id fl p Ls E Hi) as (_ & _ & _ & v & _ & Ev & _). rewrite Ev.
    eapply load_indexed; [apply Hl1|rewrite (seen_slots _ _ _ Hs); done|done|]. intros s2 Hl2 Hres.
    eapply wp_mono; [eapply (seg_read_range_spec s2 id p v fl off n)|]; try done.
    + apply Hl2.
    + by rewrite (looked_slots _ _ _ Hl2), (seen_slots _ _ _ Hs).
    + by rewrite (looked_object _ _ _ Hl2), (looked_object _ _ _ Hl1).
    + cbv beta. intros r s3 [Hl3 ->]. split; [|done]. by eapply looked_trans; [|eapply looked_trans].
  - rewrite (inline_object s id fl p) by done. rewrite Hln.
    destruct (Z.geb_spec off (len p)); [apply wp_ret; split; [done|]; by rewrite slice_past|].
    apply wp_ret. split; [done|]. f_equal. rewrite (slice_clip off n) by lia. f_equal. destruct (Z.gtb_spec n (len p - off)); lia.
Qed.

Lemma get_impl_large s id sz :
  lsession s -> 0 <= id < 2 ^ 64 ->
  wp (Large.get_impl cfg g id false sz) s (fun r s' => looked s s' /\
    r = match object (lp_db s) id with Some v => if sz <? len v then Err ENOMEM else Ok v | None => Err ENOENT end).
Proof.
  intros Ls Hid. pose proof (ls_session _ _ _ _ _ Ls) as Se. unfold Large.get_impl. apply on_get.
  rewrite (mounted_session s Se), andb_false_r. cbn [negb]. pose proof (seen_refl cfg g sidx_wf s Se) as Hs0.
  destruct (Z.eqb_spec id 0) as [->|Hne].
  { apply wp_fail. split; [by apply seen_looked|]. by rewrite object_zero. }
  cbv zeta. apply find_slot; [done|lia| |].
  2: { intros s' Hs E. split; [by apply seen_looked|]. by rewrite no_object. }
  intros s1 x fl p Hs E Hfl Hln. unfold Large.is_segment, Large.is_indexed, Large.flags_of. rewrite Hfl. fold (is_seg fl) (is_idx fl).
  pose proof (seen_looked _ _ Ls Hs) as Hl1.
  destruct (is_seg fl) eqn:Hsg; [apply wp_fail; split; [done|]; by erewrite segment_object|].
  destruct (is_idx fl) eqn:Hi.
  - destruct (index_object s id fl p Ls E Hi) as (_ & _ & _ & v & Hv & Ev & _). rewrite Ev.
    eapply load_indexed; [apply Hl1|rewrite (seen_slots _ _ _ Hs); done|done|]. intros s2 Hl2 _.
    pose proof (looked_trans _ _ _ Hl1 Hl2) as Hl. rewrite (sg_total _ _ _ _ _ _ _ _ _ Hv). destruct (sz <? len v); [by apply wp_fail|].
    unfold Large.read_rc. apply wp_bnd, wp_try. eapply wp_mono; [apply (read_impl_large s2 id 0 (len v)); [apply Hl2|done|done|apply len_nonneg]|].
    cbv beta. intros r s3 [Hl3 ->]. rewrite (looked_object _ _ _ Hl), Ev. apply wp_ret. split; [by eapply looked_trans|]. by rewrite slice_all.
  - rewrite (inline_object s id fl p) by done. rewrite Hln. destruct (sz <? len p); [by apply wp_fail|]. apply wp_ret.
    split; [done|]. by rewrite zt_slice, slice_all.
Qed.

Lemma size_impl_large s id :
  lsession s -> 0 <= id < 2 ^ 64 ->
  wp (Large.size_impl cfg g id false) s (fun r s' => looked s s' /\
    r = match object (lp_db s) id with Some v => Ok (len v) | None => Err ENOENT end).
Proof.
  intros Ls Hid. pose proof (ls_session _ _ _ _ _ Ls) as Se. unfold Large.size_impl. apply on_get.
  rewrite (mounted_session s Se). cbn [negb]. pose proof (seen_refl cfg g sidx_wf s Se) as Hs0.
  destruct (Z.eqb_spec id 0) as [->|Hne].
  { apply wp_fail. split; [by apply seen_looked|]. by rewrite object_zero. }
  cbv zeta. apply find_slot; [done|lia| |].
  2: { intros s' Hs E. split; [by apply seen_looked|]. by rewrite no_object. }
  intros s1 x fl p Hs E Hfl Hln. unfold Large.is_segment, Large.is_indexed, Large.flags_of. rewrite Hfl, Hln. fold (is_seg fl) (is_idx fl).
  pose proof (seen_looked _ _ Ls Hs) as Hl1.
  destruct (is_seg fl) eqn:Hsg; [apply wp_fail; split; [done|]; by erewrite segment_object|].
  destruct (is_idx fl) eqn:Hi.
  - destruct (index_object s id fl p Ls E Hi) as (_ & _ & Hl & v & Hv & Ev & _). rewrite Ev. apply wp_bnd, wp_gets. cbv beta.
    rewrite (lk_max _ _ Hl1), (sg_valid _ _ _ _ _ _ _ _ _ Hv). destruct (Z.ltb_spec (len p) 16); [lia|]. cbn [negb orb].
    apply wp_ret. by rewrite (sg_total _ _ _ _ _ _ _ _ _ Hv).
  - rewrite (inline_object s id fl p) by done. by apply wp_ret.
Qed.

Lemma exists_impl_large s id :
  lsession s -> 0 <= id < 2 ^ 64 ->
  wp (Large.exists_impl cfg g id) s (fun r s' => looked s s' /\ r = Ok (match object (lp_db s) id with Some _ => true | None => false end)).
Proof.
  intros Ls Hid. pose proof (ls_session _ _ _ _ _ Ls) as Se. unfold Large.exists_impl. apply on_get.
  rewrite (mounted_session s Se). cbn [negb orb]. pose proof (seen_refl cfg g sidx_wf s Se) as Hs0.
  destruct (Z.eqb_spec id 0) as [->|Hne].
  { apply wp_ret. split; [by apply seen_looked|]. by rewrite object_zero. }
  cbv zeta. rewrite (id_to_bucket_eq cfg g Hg). pose proof (bucket_range cfg g Hg id) as Hb. apply wp_bnd, wp_try.
  apply (on_header cfg g Hg sidx_wf); [done|done|]. intros s1 Hs1.
  destruct (bucket_hdr_valid (bimg (lp_db s) (bucket_of id)) (bucket_of id)) eqn:Hv.
  2: { apply wp_ret. split; [by apply seen_looked|]. rewrite no_object; [done|]. by apply slots_unformatted. }
  apply wp_bnd, wp_try. apply (on_find cfg g Hg sidx_wf); [by eapply (seen_session cfg g sidx_wf)|lia|by rewrite (seen_bimg cfg g sidx_wf _ _ _ Hs1)|].
  intros [sc rc] s2 Hs2 Hf. apply (found_roi cfg g (lp_db s)) in Hf; [|apply Hs1]. destruct Hf as (Hrc & _ & Hx). cbn [snd fst] in *. rewrite Hrc.
  apply wp_ret. split; [apply seen_looked; [done|by eapply (seen_trans cfg g sidx_wf)]|]. unfold SegBase.object, Large.is_segment, Large.flags_of.
  destruct (slots (lp_db s) id) as [[fl p]|]; [|done]. destruct (Hx fl p eq_refl) as (Hfl & _). cbn [fst]. rewrite Hfl. fold (is_seg fl).
  destruct (is_seg fl); [done|]. by destruct (is_idx fl).
Qed.
End read.
