(* ===== verification/SegSweep.v ===== *)
(** The sweep that collects the segments of an interrupted write: it ends, every
    object is as it was, and only segments that no index record lists are
    buried. *)

From S2P Require Import Prelude Layout Store SlotIndexIface Image Core CoreRead Lookup Append Bucket Compact.
From S2P Require Import CompactImage Recovery CompactSpec Ops OpsRead OpsWrite Master Mount MasterSpec MasterInv.
From S2P Require Import MountSpec Session Segments SegBase SegIo SegRead.

Section sweep.
Context (cfg : config) (MAX_OBJECT_LEN : Z) (g : geom) `{Crc}.
Context {S I : Type} `{!Store S} `{!StoreView S} `{!SlotIndex I}.
Context (Hg : geom_ok cfg g) (Ha : geom_aligned g) {SL : StoreLaws S (store_geom_of g)} {CL : CrcLaws _}.
Context (sidx_wf : Z -> I -> Prop) {IL : SlotIndexLaws I sidx_wf}.
Context (Hlarge : LARGE_PAYLOADS cfg = true).
Notation db := (db S I).
Notation lp := (lp S I).
Notation slots := (slots cfg g).
Notation session := (session cfg g sidx_wf).
Notation lsession := (lsession cfg MAX_OBJECT_LEN g sidx_wf).
Notation kept := (kept cfg g sidx_wf).
Notation seen := (seen cfg g sidx_wf).
Notation object := (object cfg g).
Notation internal := (internal cfg g).
Notation segmented := (segmented cfg MAX_OBJECT_LEN g).
Notation seg_of := (seg_of cfg g).
Notation looked := (looked cfg MAX_OBJECT_LEN g sidx_wf).
Notation buried := (buried cfg MAX_OBJECT_LEN g sidx_wf).
Notation wrote_segs := (wrote_segs cfg MAX_OBJECT_LEN g sidx_wf).
Notation releasable := (releasable cfg g).
Notation moves := (moves g).
Notation bucket_of id := (id mod n_buckets g).
Implicit Types (d : db) (s : lp).

(** What every call below a public one leaves: the objects as they were, the
    counters grown by [k] at most, the geometry as it was. *)
Record steady (k : Z) s s' : Prop := {
  sy_session : lsession s';
  sy_next : next_id (d_st (lp_db s)) <= next_id (d_st (lp_db s')) <= next_id (d_st (lp_db s)) + k;
  sy_rot : rot_gen (d_st (lp_db s')) <= rot_gen (d_st (lp_db s)) + k;
  sy_len : g_seg_len s' = g_seg_len s;
  sy_max : g_seg_max s' = g_seg_max s;
  sy_objects : forall id, object (lp_db s') id = object (lp_db s) id;
  sy_plain : forall id, id < next_id (d_st (lp_db s)) -> internal (lp_db s) id = false -> internal (lp_db s') id = false;
}.

Lemma steady_trans k1 k2 s s1 s2 : steady k1 s s1 -> steady k2 s1 s2 -> steady (k1 + k2) s s2.
Proof.
  intros [A1 A2 A3 A4 A5 A6 A7] [B1 B2 B3 B4 B5 B6 B7]. split; try done; try lia; [intros id; by rewrite B6, A6|].
  intros id Hn Hi. apply B7; [lia|by apply A7].
Qed.

Lemma steady_le k k' s s' : k <= k' -> steady k s s' -> steady k' s s'.
Proof. intros Hk []. split; try done; lia. Qed.

Lemma steady_room k n s s' : steady k s s' -> lroom s (n + k) -> lroom s' n.
Proof. intros [_ ? ? _ _ _ _] [? ?]. split; lia. Qed.

Lemma looked_steady s s' : looked s s' -> steady 0 s s'.
Proof.
  intros Hl. pose proof (lk_roi _ _ _ _ _ _ Hl) as Hr. split; try apply Hl; rewrite ?(roi_st _ _ Hr); try lia.
  - intros id. by eapply (looked_object cfg MAX_OBJECT_LEN g sidx_wf).
  - intros id _. by rewrite (internal_same cfg g _ _ _ (same_contents_roi cfg g _ _ Hr)).
Qed.

Lemma moves_steady k s s' :
  lsession s' -> moves k s s' -> (forall id, object (lp_db s') id = object (lp_db s) id) ->
  (forall id, id < next_id (d_st (lp_db s)) -> internal (lp_db s) id = false -> internal (lp_db s') id = false) -> steady k s s'.
Proof. intros Ls [? ? ? Hf] Ho Hp. split; try done; by rewrite Hf. Qed.

Lemma kept_steady k s s' : lsession s -> kept k s s' -> steady k s s'.
Proof.
  intros Ls K. apply moves_steady; [by eapply kept_lsession|by apply (kept_moves cfg g sidx_wf)| |].
  - intros id. apply object_same, K.
  - intros id _. by rewrite (internal_same cfg g _ _ _ (kp_slots _ _ _ _ _ _ K)).
Qed.

Lemma buried_steady s s' : buried s s' -> steady 0 s s'.
Proof. intros []. apply moves_steady; auto. Qed.

Lemma wrote_steady k s s' : wrote_segs k s s' -> steady k s s'.
Proof. intros [? ? ? Hold]. apply moves_steady; try done. intros id Hn. unfold SegBase.internal. by rewrite (Hold id Hn). Qed.

(** ** One bucket *)

(** [t] is the table of [owner]: no other id is one of its segments. *)
Definition table_of d (owner : Z) (t : list Z) : Prop := forall fl p, slots d owner = Some (fl, p) -> is_idx fl = true -> ids_of p = t.

(** A live segment of [owner] outside its table. *)
Lemma stray_releasable s owner t x fl q :
  lsession s -> table_of (lp_db s) owner t -> slots (lp_db s) x = Some (fl, q) -> is_seg fl = true ->
  gh_owner_id (dec_seg_hdr q) = owner -> x ∉ t -> releasable (lp_db s) x.
Proof.
  intros Ls Ht E Hs Ho Hx. pose proof (se_inv cfg g sidx_wf s (ls_session _ _ _ _ _ Ls)) as Hi.
  split; [by apply (slots_known cfg g Hg sidx_wf _ _ _ _ Hi E)|]. split; [by eapply (segment_object cfg g)|].
  intros id fl' p Hne E' Hs' Hi' Hin.
  destruct (listed_internal cfg MAX_OBJECT_LEN g sidx_wf s id fl' p x Ls E' Hs' Hi' Hin) as (j & v & _ & _ & (fl2 & q2 & E2 & _ & _ & Ho2 & _)).
  rewrite E in E2. injection E2 as <- <-. assert (owner = id) as -> by congruence. apply Hx. by rewrite <- (Ht fl' p E' Hi').
Qed.

Record sweeping s0 (owner : Z) (t : list Z) (bid cursor : Z) s : Prop := {
  sw_buried : buried s0 s;
  sw_table : table_of (lp_db s) owner t;
  sw_valid : bucket_hdr_valid (bimg (lp_db s) bid) bid = true;
  sw_at : exists l, log_rel cfg g (bimg (lp_db s) bid) BLOB_DB_BUCKET_DATA_OFF l cursor;
}.

Lemma sweeping_start s0 owner t bid s :
  buried s0 s -> table_of (lp_db s) owner t -> bucket_hdr_valid (bimg (lp_db s) bid) bid = true -> sweeping s0 owner t bid BLOB_DB_BUCKET_DATA_OFF s.
Proof. intros. split; try done. exists []. constructor. Qed.

Lemma table_same d d' owner t : same_contents cfg g d d' -> table_of d owner t -> table_of d' owner t.
Proof. intros Hs Ht fl p. rewrite Hs. apply Ht. Qed.

(** The step over a slot, the bucket unchanged. *)
Lemma sweeping_next s0 owner t bid cursor s s' sv i :
  sweeping s0 owner t bid cursor s -> seen s s' -> slot_walk_at cfg g (bimg (lp_db s) bid) cursor = Some (sv, i) ->
  sweeping s0 owner t bid (cursor + sv_total_size sv) s'.
Proof.
  intros [B T V [l Hl]] Hs Hw. pose proof (bu_session _ _ _ _ _ _ B) as Ls.
  split; rewrite ?(seen_bimg cfg g sidx_wf _ _ bid Hs); [|by eapply table_same; [apply same_contents_roi, Hs|]|done|].
  - eapply buried_trans; [exact B|]. apply kept_buried; [done|]. apply (seen_kept cfg g sidx_wf); [apply Ls|done].
  - eexists. eapply log_rel_app; [exact Hl|]. econstructor; [exact Hw|constructor].
Qed.

(** The same once a tombstone has been appended. *)
Lemma sweeping_buried s0 owner t bid cursor s s' sv i x e :
  sweeping s0 owner t bid cursor s -> 0 <= bid < n_buckets g -> slot_walk_at cfg g (bimg (lp_db s) bid) cursor = Some (sv, i) ->
  buried s s' -> set_value cfg g (lp_db s) (lp_db s') x None ->
  bucket_log cfg g (bimg (lp_db s') bid) = bucket_log cfg g (bimg (lp_db s) bid) ++ [e] ->
  sweeping s0 owner t bid (cursor + sv_total_size sv) s'.
Proof.
  intros [B T V [l Hl]] Hb Hw B' Hsv Hlog. split.
  - by eapply buried_trans.
  - intros fl p. rewrite Hsv. case_decide; [done|apply T].
  - by apply (mv_valid _ _ _ _ (bu_moves _ _ _ _ _ _ B')).
  - destruct (bimg_ok cfg g Hg (lp_db s) bid Hb) as [_ Hby]. destruct (bimg_ok cfg g Hg (lp_db s') bid Hb) as [_ Hby'].
    destruct (parsed_log cfg g Hg _ Hby) as [Hp Hpe]. destruct (parsed_log cfg g Hg _ Hby') as [Hp' _].
    assert (log_rel cfg g (bimg (lp_db s) bid) BLOB_DB_BUCKET_DATA_OFF (l ++ [mk_entry cursor sv i (slice cursor (sv_total_size sv) (bimg (lp_db s) bid))]) (cursor + sv_total_size sv)) as Hl1.
    { eapply log_rel_app; [exact Hl|]. econstructor; [exact Hw|constructor]. }
    destruct (log_rel_prefix cfg g _ _ _ _ _ _ Hl1 Hp Hpe) as (l2 & El & _). rewrite Hlog, El, <- !app_assoc in Hp'.
    cbn [app] in Hp'. apply log_rel_split in Hp' as (H1 & H2 & _ & _). eexists. eapply log_rel_app; [exact H1|]. econstructor; [exact H2|constructor].
Qed.

(** The turns left: a release lowers the number of live slots, a step the bytes
    ahead. *)
Definition sweep_left (bid cursor : Z) s : Z := live_count cfg g (lp_db s) bid * (peb_size g + 1) + (peb_size g - cursor).

Lemma seen_live s s' bid : seen s s' -> live_count cfg g (lp_db s') bid = live_count cfg g (lp_db s) bid.
Proof. intros Hs. unfold live_count. by rewrite (seen_bimg cfg g sidx_wf _ _ bid Hs). Qed.

Lemma sweeping_range s0 owner t bid cursor s :
  0 <= bid < n_buckets g -> sweeping s0 owner t bid cursor s -> 16 <= cursor <= peb_size g.
Proof.
  intros Hb [_ _ _ [l Hl]]. destruct (bimg_ok cfg g Hg (lp_db s) bid Hb) as [_ Hby]. pose proof (ok_peb_size _ _ Hg).
  apply (log_rel_bounds cfg g Hg) in Hl; unfold_consts; [|done|lia]. pose proof (len_nonneg l). lia.
Qed.

(** The slot at the cursor, as the walk reads it. *)
Lemma sweeping_head s0 owner t bid cursor s sv i :
  0 <= bid < n_buckets g -> sweeping s0 owner t bid cursor s -> slot_walk_at cfg g (bimg (lp_db s) bid) cursor = Some (sv, i) ->
  0 < sv_id sv < 2 ^ 64 /\ bucket_of (sv_id sv) = bid /\ 14 <= sv_total_size sv /\ cursor + sv_total_size sv <= peb_size g.
Proof.
  intros Hb Sw Hw. pose proof (sweeping_range _ _ _ _ _ _ Hb Sw) as Hc. destruct Sw as [B T V [l Hl]].
  destruct (bimg_ok cfg g Hg (lp_db s) bid Hb) as [_ Hby]. destruct (parsed_log cfg g Hg _ Hby) as [Hp Hpe].
  destruct (slot_walk_bounds cfg g Hg _ cursor _ _ Hby ltac:(lia) Hw) as (? & ? & _).
  set (en := mk_entry cursor sv i (slice cursor (sv_total_size sv) (bimg (lp_db s) bid))).
  assert (log_rel cfg g (bimg (lp_db s) bid) BLOB_DB_BUCKET_DATA_OFF (l ++ [en]) (cursor + sv_total_size sv)) as Hl1.
  { eapply log_rel_app; [exact Hl|]. econstructor; [exact Hw|constructor]. }
  destruct (log_rel_prefix cfg g _ _ _ _ _ _ Hl1 Hp Hpe) as (l2 & El & _).
  destruct (ls_heads _ _ _ _ _ (bu_session _ _ _ _ _ _ B) bid en Hb V) as [Hx1 Hx2]; [|done].
  rewrite El. apply elem_of_app. left. apply elem_of_app. right. apply list_elem_of_here.
Qed.

(** The step over the slot. *)
Lemma step_over s0 owner t bid cursor s s' sv i :
  0 <= bid < n_buckets g -> sweeping s0 owner t bid cursor s -> seen s s' -> slot_walk_at cfg g (bimg (lp_db s) bid) cursor = Some (sv, i) ->
  sweeping s0 owner t bid (cursor + sv_total_size sv) s' /\ 0 <= sweep_left bid (cursor + sv_total_size sv) s' < sweep_left bid cursor s.
Proof.
  intros Hb Sw Hs Hw. destruct (sweeping_head _ _ _ _ _ _ _ _ Hb Sw Hw) as (_ & _ & H1 & H2). split; [by eapply sweeping_next|].
  unfold sweep_left. rewrite (seen_live _ _ _ Hs). pose proof (live_count_le cfg g Hg (lp_db s) bid Hb). nia.
Qed.

Lemma sweep_step_spec s0 owner k bid cursor s :
  0 <= bid < n_buckets g -> let t := take (Z.to_nat k) (g_seg_a s0) in sweeping s0 owner t bid cursor s ->
  wp (Large.sweep_step cfg g bid owner k cursor) s (fun r s' =>
    match r with
    | Ok (inl c') => sweeping s0 owner t bid c' s' /\ 0 <= sweep_left bid c' s' < sweep_left bid cursor s
    | Ok (inr _) => buried s0 s' /\ table_of (lp_db s') owner t
    | Err _ => False
    end).
Proof.
  intros Hb t Sw. pose proof (sweeping_range _ _ _ _ _ _ Hb Sw) as Hc. pose proof Sw as [B T V _]. pose proof (bu_session _ _ _ _ _ _ B) as Ls.
  pose proof (ls_session _ _ _ _ _ Ls) as Se. unfold Large.sweep_step, BLOB_DB_SLOT_OVERHEAD.
  destruct (Z.gtb_spec (cursor + 14) (peb_size g)); [by apply wp_ret|].
  apply wp_bnd, wp_try. eapply (on_reads cfg g sidx_wf) with (Q := fun b => b = slice cursor 12 (bimg (lp_db s) bid)); [done| |].
  { apply reads_co_of, (read_bucket_bytes cfg g Hg); lia. }
  intros b s1 Hs1 ->. rewrite dec_slot_head_at by lia. cbv zeta. cbn [head_at head_hdr head_id sh_flags sh_val_len].
  set (buf := bimg (lp_db s) bid) in *. pose proof (slot_walk_at_eq cfg g buf cursor ltac:(lia)) as Hw.
  assert (buried s0 s1 /\ table_of (lp_db s1) owner t) as Hend.
  { split; [|by eapply table_same; [apply same_contents_roi, Hs1|]]. eapply buried_trans; [exact B|].
    apply kept_buried; [done|]. by apply (seen_kept cfg g sidx_wf). }
  destruct ((rd 1 cursor buf =? 255) || negb (flag_set (rd 1 cursor buf) BLOB_DB_SLOT_F_SEALED) || flags_unknown cfg (rd 1 cursor buf) ||
    (rd 2 (cursor + 2) buf >? MAX_PAYLOAD_LEN cfg)) eqn:Eh; [by apply wp_ret|].
  destruct (Z.gtb_spec (cursor + slot_size_for g (rd 2 (cursor + 2) buf)) (peb_size g)) as [|Hfit]; [by apply wp_ret|].
  assert (head_ok cfg g cursor (rd 1 cursor buf) (rd 2 (cursor + 2) buf) = true) as Ehd.
  { rewrite !orb_false_iff, negb_false_iff in Eh. destruct Eh as [[[E1 E2] E3] E4]. unfold head_ok. rewrite E1, E2, E3, E4. cbn [negb andb].
    destruct (Z.gtb_spec (cursor + 14) (peb_size g)); [lia|]. destruct (Z.gtb_spec (cursor + slot_size_for g (rd 2 (cursor + 2) buf)) (peb_size g)); [lia|done]. }
  rewrite Ehd in Hw. set (sv := mk_slot_view _ _ _ _) in Hw. change (slot_size_for g (rd 2 (cursor + 2) buf)) with (sv_total_size sv).
  change (rd 8 (cursor + 4) buf) with (sv_id sv). destruct (sweeping_head _ _ _ _ _ _ _ _ Hb Sw Hw) as (Hid & Hbid & Hsz & Hle).
  pose proof (step_over _ _ _ _ _ _ _ _ _ Hb Sw Hs1 Hw) as Hnext. cbn [negb].
  destruct (negb (_ && _)); [by apply wp_ret|].
  apply wp_bnd, wp_try. rewrite <- Hbid. apply (on_find cfg g Hg sidx_wf); [by eapply (seen_session cfg g sidx_wf)|done| |].
  { by rewrite (seen_bimg cfg g sidx_wf _ _ _ Hs1), Hbid. }
  intros [sc rc] s2 Hs2 Hf. apply (found_roi cfg g (lp_db s)) in Hf; [|apply Hs1]. destruct Hf as (Hrc & _ & Hx). cbn [fst snd] in *.
  pose proof (seen_trans cfg g sidx_wf _ _ _ Hs1 Hs2) as Hs12. rewrite Hbid.
  pose proof (step_over _ _ _ _ _ _ _ _ _ Hb Sw Hs12 Hw) as Hnext2.
  subst rc. destruct (slots (lp_db s) (sv_id sv)) as [[fl q]|] eqn:E; [|by apply wp_ret].
  destruct (Hx fl q eq_refl) as (Hfl & Hln & _). rewrite Hfl, Hln. fold (is_seg fl).
  destruct (is_seg fl) eqn:Hsg; cbn [negb orb]; [|by apply wp_ret]. destruct (len q <? 12); [by apply wp_ret|].
  destruct (Z.eqb_spec (gh_owner_id (dec_seg_hdr q)) owner) as [Hown|]; cbn [negb]; [|by apply wp_ret].
  apply wp_bnd, wp_gets. cbv beta.
  assert (take (Z.to_nat k) (g_seg_a s2) = t) as ->.
  { unfold t. pose proof (mv_fields _ _ _ _ (bu_moves _ _ _ _ _ _ B)) as Ef. destruct Hs12 as (_ & _ & E2). rewrite E2, Ef. done. }
  destruct (bool_decide_reflect (sv_id sv ∈ t)) as [|Hnt]; [by apply wp_ret|].
  pose proof (stray_releasable s owner t _ fl q Ls T E Hsg Hown Hnt) as Hrel.
  assert (buried s s2) as B2 by (apply kept_buried; [done|by apply (seen_kept cfg g sidx_wf)]).
  pose proof (bu_session _ _ _ _ _ _ B2) as Ls2.
  apply wp_bnd, wp_try. eapply wp_mono.
  { apply (seg_release_one_spec cfg MAX_OBJECT_LEN g Hg Ha sidx_wf Hlarge s2 (sv_id sv)); [done|by apply (bu_more _ _ _ _ _ _ B2)]. }
  cbv beta. intros r s3 [B3 Hr]. pose proof (buried_trans _ _ _ _ _ _ _ B2 B3) as B23.
  assert (slots (lp_db s2) (sv_id sv) = Some (fl, q)) as E2 by (by rewrite (seen_slots cfg g sidx_wf _ _ _ Hs12)).
  destruct r as [b|e].
  - destruct Hr as [Hsv Hlog]. assert (set_value cfg g (lp_db s) (lp_db s3) (sv_id sv) None) as Hsv'.
    { eapply set_value_trans; [apply same_contents_roi, Hs12|done]. }
    assert (bucket_hdr_valid (bimg (lp_db s3) bid) bid = true) as V3 by (by apply (mv_valid _ _ _ _ (bu_moves _ _ _ _ _ _ B23))).
    assert (live_count cfg g (lp_db s3) bid < live_count cfg g (lp_db s) bid) as Hdrop.
    { rewrite <- Hbid at 1 2. apply (live_count_drop cfg g Hg sidx_wf (lp_db s) (lp_db s3) _ (fl, q)); try done; [by apply se_inv|apply se_inv, B3|by rewrite Hbid]. }
    pose proof (live_count_le cfg g Hg (lp_db s3) bid Hb). pose proof (ok_peb_size _ _ Hg).
    destruct b; apply wp_ret.
    + split; [|unfold sweep_left, BLOB_DB_BUCKET_DATA_OFF; nia].
      apply sweeping_start; [by eapply buried_trans| |done]. intros fl' p'. rewrite Hsv'. case_decide; [done|apply T].
    + destruct (Hlog eq_refl) as [e Hl]. rewrite Hbid, (seen_bimg cfg g sidx_wf _ _ _ Hs12) in Hl.
      split; [by eapply (sweeping_buried s0 owner t bid cursor s)|]. unfold sweep_left. nia.
  - destruct Hr as [K3 [[-> ?]|[-> _]]]; [congruence|]. apply wp_ret. split; [by eapply buried_trans|].
    eapply table_same; [|exact T]. eapply same_contents_trans; [apply same_contents_roi, Hs12|apply K3].
Qed.

(** ** All of them *)

Lemma sweep_buckets_spec n s0 owner k bid s :
  0 <= bid -> bid + Z.of_nat n <= n_buckets g -> let t := take (Z.to_nat k) (g_seg_a s0) in
  buried s0 s -> table_of (lp_db s) owner t ->
  wp (Large.sweep_buckets cfg n g bid owner k) s (fun r s' => r = Ok tt /\ buried s0 s').
Proof.
  intros H0 Hn t. revert bid s H0 Hn. induction n as [|n IH]; intros bid s H0 Hn B T; cbn [Large.sweep_buckets]; [by apply wp_ret|].
  pose proof (bu_session _ _ _ _ _ _ B) as Ls. pose proof (ls_session _ _ _ _ _ Ls) as Se. pose proof (ok_peb_size _ _ Hg).
  assert (0 <= bid < n_buckets g) as Hb by lia. apply wp_bnd, wp_try. apply (on_header cfg g Hg sidx_wf); [done|done|]. intros s1 Hs1.
  assert (buried s0 s1 /\ table_of (lp_db s1) owner t) as [B1 T1].
  { split; [|by eapply table_same; [apply same_contents_roi, Hs1|]]. eapply buried_trans; [exact B|].
    apply kept_buried; [done|]. by apply (seen_kept cfg g sidx_wf). }
  destruct (bucket_hdr_valid (bimg (lp_db s) bid) bid) eqn:Hv; apply wp_bnd; [|apply wp_ret; apply IH; [lia|lia|done|done]].
  rewrite <- (seen_bimg cfg g sidx_wf _ _ bid Hs1) in Hv.
  eapply (wp_while64 _ (sweeping s0 owner t bid) (sweep_left bid)).
  - by apply sweeping_start.
  - unfold sweep_left, BLOB_DB_BUCKET_DATA_OFF. pose proof (live_count_le cfg g Hg (lp_db s1) bid Hb). nia.
  - intros c s2 Sw. eapply wp_mono; [apply (sweep_step_spec s0 owner k bid c s2 Hb Sw)|]. cbv beta.
    intros [[c'|[]]|e] s3 H3; [done| |done]. destruct H3 as [B3 T3]. apply IH; [lia|lia|done|done].
Qed.

(** The sweep of [owner]: whatever it could not bury, no object changed. *)
Lemma seg_sweep_spec s owner :
  lsession s -> lroom s 1 -> 0 < owner < 2 ^ 64 ->
  wp (Large.seg_sweep cfg g owner) s (fun r s' => r = Ok tt /\ steady 1 s s').
Proof.
  intros Ls Hr Ho. unfold Large.seg_sweep. apply wp_bnd, wp_try.
  eapply wp_mono; [by apply (index_load_cached_spec cfg MAX_OBJECT_LEN g Hg sidx_wf)|]. cbv beta zeta. intros rc s1 [Hl Hx].
  pose proof (lk_session _ _ _ _ _ _ Hl) as Ls1. set (k := match rc with Ok (Some (_, k)) => u16 k | _ => 0 end).
  assert (table_of (lp_db s1) owner (take (Z.to_nat k) (g_seg_a s1))) as Ht.
  { intros fl p. rewrite (looked_slots cfg MAX_OBJECT_LEN g sidx_wf _ _ _ Hl). intros E Hi. unfold indexed in Hx. rewrite E, Hi in Hx.
    destruct Hx as [-> Hx]. destruct (index_object cfg MAX_OBJECT_LEN g Hg sidx_wf s owner fl p Ls E Hi) as (_ & _ & _ & _ & _ & _ & Hc & _).
    unfold k. rewrite u16_small by lia. done. }
  apply wp_bnd. pose proof (ok_buckets _ _ Hg). eapply wp_mono; [apply (sweep_buckets_spec _ s1 owner k 0 s1)|]; [lia|lia| |done|].
  { apply kept_buried; [done|]. by apply (kept_here cfg g sidx_wf), Ls1. }
  cbv beta. intros r s2 [-> B]. pose proof (steady_trans 0 0 _ _ _ (looked_steady _ _ Hl) (buried_steady _ _ B)) as St. cbn [Z.add] in St.
  eapply wp_mono; [apply (owner_spec cfg g Hg sidx_wf s2 0)|]; [apply B|by eapply steady_room; [exact St|]|lia|].
  cbv beta. intros r s3 [-> K]. split; [done|]. change 1 with (0 + 1). eapply steady_trans; [exact St|]. apply kept_steady; [apply B|done].
Qed.

Lemma seg_finish_spec s :
  lsession s -> lroom s 1 ->
  wp (Large.seg_finish_pending cfg g) s (fun r s' => r = Ok tt /\ steady 1 s s').
Proof.
  intros Ls Hr. destruct (mi_words _ _ _ (lv_master _ _ _ _ (se_live _ _ _ _ (ls_session _ _ _ _ _ Ls)))) as (Ho & _).
  unfold Large.seg_finish_pending. apply on_get. destruct (Z.eqb_spec (seg_owner (d_st (lp_db s))) 0).
  - apply wp_ret. split; [done|]. eapply steady_le; [|by apply kept_steady, (kept_here cfg g sidx_wf), Ls]. lia.
  - apply seg_sweep_spec; [done|done|lia].
Qed.
End sweep.
