(* ===== verification/SegWrite.v ===== *)
(** Committing an object and updating a segmented one: the append of its slot is
    the commit, after which the id shows the new value and every other object is
    as it was; the generation it replaced is released. *)

From S2P Require Import Prelude Layout Store SlotIndexIface Image Core CoreRead Lookup Append Bucket Compact.
From S2P Require Import CompactImage Recovery CompactSpec Ops OpsRead OpsWrite Master Mount MasterSpec MasterInv.
From S2P Require Import MountSpec Session Segments SegBase SegIo SegRead SegSweep.

Section write.
Context (cfg : config) (MAX_OBJECT_LEN : Z) (g : geom) `{Crc}.
Context {S I : Type} `{!Store S} `{!StoreView S} `{!SlotIndex I}.
Context (Hg : geom_ok cfg g) (Ha : geom_aligned g) {SL : StoreLaws S (store_geom_of g)} {CL : CrcLaws _}.
Context (sidx_wf : Z -> I -> Prop) {IL : SlotIndexLaws I sidx_wf}.
Context (Hlarge : LARGE_PAYLOADS cfg = true).
Notation db := (db S I).
Notation lp := (lp S I).
Notation slots := (slots cfg g).
Notation session := (session cfg g sidx_wf).
Notation lsession := (lsession cfg MAX_OBJECT_LEN g sidx_wf).
Notation kept := (kept cfg g sidx_wf).
Notation seen := (seen cfg g sidx_wf).
Notation object := (object cfg g).
Notation internal := (internal cfg g).
Notation segmented := (segmented cfg MAX_OBJECT_LEN g).
Notation seg_of := (seg_of cfg g).
Notation looked := (looked cfg MAX_OBJECT_LEN g sidx_wf).
Notation buried := (buried cfg MAX_OBJECT_LEN g sidx_wf).
Notation wrote_segs := (wrote_segs cfg MAX_OBJECT_LEN g sidx_wf).
Notation releasable := (releasable cfg g).
Notation moves := (moves g).
Notation steady := (steady cfg MAX_OBJECT_LEN g sidx_wf).
Notation upd := (upd cfg g sidx_wf).
Notation no_room := (no_room cfg g).
Notation cursor_of := (cursor_of cfg g).
Notation valid d id := (bucket_hdr_valid (bimg d (id mod n_buckets g)) (id mod n_buckets g) = true).
Notation bucket_of id := (id mod n_buckets g).
Implicit Types (d : db) (s : lp).

(** A call that set [id] to [w]. *)
Record sets (k : Z) s s' (id : Z) (w : option bytes) : Prop := {
  st_session : lsession s';
  st_next : next_id (d_st (lp_db s)) <= next_id (d_st (lp_db s')) <= next_id (d_st (lp_db s)) + k;
  st_rot : rot_gen (d_st (lp_db s')) <= rot_gen (d_st (lp_db s)) + k;
  st_len : g_seg_len s' = g_seg_len s;
  st_max : g_seg_max s' = g_seg_max s;
  st_objects : forall i, object (lp_db s') i = if decide (i = id) then w else object (lp_db s) i;
  st_plain : forall i, i < next_id (d_st (lp_db s)) -> internal (lp_db s) i = false -> internal (lp_db s') i = false;
}.

Lemma steady_sets k1 k2 s s1 s2 id w : steady k1 s s1 -> sets k2 s1 s2 id w -> sets (k1 + k2) s s2 id w.
Proof.
  intros [A1 A2 A3 A4 A5 A6 A7] [B1 B2 B3 B4 B5 B6 B7]. split; try done; try lia; [intros i; rewrite B6; by case_decide|].
  intros i Hn Hi. apply B7; [lia|by apply A7].
Qed.

Lemma sets_steady k1 k2 s s1 s2 id w : sets k1 s s1 id w -> steady k2 s1 s2 -> sets (k1 + k2) s s2 id w.
Proof.
  intros [A1 A2 A3 A4 A5 A6 A7] [B1 B2 B3 B4 B5 B6 B7]. split; try done; try lia; [intros i; by rewrite B6, A6|].
  intros i Hn Hi. apply B7; [lia|by apply A7].
Qed.

Lemma sets_le k k' s s' id w : k <= k' -> sets k s s' id w -> sets k' s s' id w.
Proof. intros Hk []. split; try done; lia. Qed.

(** Setting an object to what it is. *)
Lemma steady_same k s s' id w : steady k s s' -> object (lp_db s) id = w -> sets k s s' id w.
Proof. intros [] Hw. split; try done. intros i. case_decide; [subst; congruence|done]. Qed.

(** ** The commit *)

(** A slot value an object may have, and what the id shows then. *)
Definition shows s (id : Z) (v : option (Z * bytes)) (w : option bytes) : Prop :=
  match v with
  | None => w = None
  | Some (fl, p) =>
      is_seg fl = false /\
      if is_idx fl then exists x, w = Some x /\ segmented (lp_db s) (g_seg_len s) (g_seg_max s) id p x /\ 16 <= len p /\ bytes_ok p
      else w = Some p
  end.

Lemma upd_sets s s' id v w :
  lsession s -> internal (lp_db s) id = false -> upd s s' id v -> shows s id v w -> id < next_id (d_st (lp_db s)) ->
  (id = BLOB_DB_ROOT_ID -> w <> None) -> sets 0 s s' id w.
Proof.
  intros Ls Hi Hu Hv Hn Hr. pose proof (not_internal_unlisted cfg MAX_OBJECT_LEN g sidx_wf s id Ls Hi) as Hul. pose proof (ls_geo _ _ _ _ _ Ls) as [? _ _ _].
  assert (forall fl p x, v = Some (fl, p) -> segmented (lp_db s) (g_seg_len s) (g_seg_max s) id p x ->
    segmented (lp_db s') (g_seg_len s) (g_seg_max s) id p x) as Hseg.
  { intros fl p x _ Hx. eapply segmented_frame; [|exact Hx]. intros sid Hin. rewrite (up_slots _ _ _ _ _ _ _ Hu), decide_False; [done|]. intros ->.
    apply list_elem_of_lookup in Hin as [j Hj]. destruct (sg_segs _ _ _ _ _ _ _ _ _ Hx _ _ Hj) as (fl' & q & E & Hs & _).
    unfold SegBase.internal in Hi. rewrite E in Hi. congruence. }
  assert (object (lp_db s') id = w) as Hob.
  { pose proof (up_slots _ _ _ _ _ _ _ Hu id) as E. rewrite decide_True in E by done. destruct v as [[fl p]|]; cbn in Hv.
    - destruct Hv as [Hs Hv]. destruct (is_idx fl) eqn:Hix; [|subst w; unfold SegBase.object; by rewrite E, Hs, Hix].
      destruct Hv as (x & -> & Hx & Hl & Hb). eapply segmented_object; try done; [by eapply Hseg|lia|]. by apply seg_count_range.
    - subst w. unfold SegBase.object. by rewrite E. }
  pose proof (up_st _ _ _ _ _ _ _ Hu) as Hst. pose proof (up_fields _ _ _ _ _ _ _ Hu) as Hf.
  split; try (rewrite Hst; lia); try (by rewrite Hf).
  - eapply (upd_lsession cfg MAX_OBJECT_LEN g sidx_wf); [exact Ls|exact Hul|exact Hu|done| | |].
    + intros fl p -> Hs Hix. cbn in Hv. rewrite Hix in Hv. destruct Hv as (_ & x & _ & Hx & _). exists x. by eapply Hseg.
    + intros fl p -> Hs. cbn in Hv. destruct Hv as [Hs' _]. congruence.
    + intros ->. rewrite Hob. by apply Hr.
  - intros i. case_decide; [by subst|]. by eapply (upd_object cfg g sidx_wf).
  - intros i _ Hp. unfold SegBase.internal. rewrite (up_slots _ _ _ _ _ _ _ Hu). case_decide; [|exact Hp].
    destruct v as [[fl p]|]; [by apply Hv|done].
Qed.

Lemma kept_sets s s1 s' id w : lsession s -> kept 0 s s1 -> sets 0 s1 s' id w -> sets 0 s s' id w.
Proof. intros Ls K. apply (steady_sets 0 0). by apply kept_steady. Qed.

(** Appending the slot, once its place is known. *)
Lemma commit_append s id fl hdr p w :
  lsession s -> 0 < id < 2 ^ 64 -> valid (lp_db s) id -> internal (lp_db s) id = false -> id < next_id (d_st (lp_db s)) ->
  flags_ok cfg fl -> bytes_ok (hdr ++ p) -> len (hdr ++ p) <= MAX_PAYLOAD_LEN cfg ->
  cursor_of (lp_db s) (bucket_of id) + slot_size_for g (len (hdr ++ p)) <= peb_size g ->
  shows s id (slot_value fl (hdr ++ p)) w -> (id = BLOB_DB_ROOT_ID -> w <> None) ->
  wp (Large.seg_append cfg g (bucket_of id) (cursor_of (lp_db s) (bucket_of id)) id fl hdr p) s (fun r s' =>
    r = Ok tt /\ sets 0 s s' id w /\ upd s s' id (slot_value fl (hdr ++ p))).
Proof.
  intros Ls Hid Hv Hi Hn Hfl Hb Hl Hfit Hsh Hr. eapply wp_mono; [apply (seg_append_spec cfg g Hg Ha sidx_wf s id fl hdr p); try done|].
  - apply Ls.
  - intros Hn'. intros E. apply (Hr E). unfold slot_bytes in Hn'. destruct (slot_value fl (hdr ++ p)) as [[? ?]|]; [done|]. apply Hsh.
  - cbv beta. intros r s' (-> & Hu & _). split; [done|]. split; [|done]. by eapply upd_sets.
Qed.

(** ** The index record *)

(** The segments of a new generation are in place. *)
Record generation s (id : Z) (h : blob_db_index_hdr) (ids : list Z) (v : bytes) : Prop := {
  gn_hdr : index_hdr_wf h;
  gn_magic : ih_magic h = BLOB_DB_INDEX_MAGIC;
  gn_version : ih_version h = BLOB_DB_INDEX_VERSION;
  gn_total : ih_total_len h = len v;
  gn_len : ih_seg_len h = g_seg_len s;
  gn_count : ih_seg_count h = len ids;
  gn_max : len ids <= g_seg_max s;
  gn_span : 0 < len v <= MAX_OBJECT_LEN /\ len ids * g_seg_len s - g_seg_len s < len v <= len ids * g_seg_len s;
  gn_ids : Forall (fun i => 0 <= i < 2 ^ 64) ids;
  gn_segs : forall j sid, ids !! j = Some sid -> seg_of (lp_db s) id (Z.of_nat j) sid (slice (Z.of_nat j * g_seg_len s) (g_seg_len s) v);
}.

Definition index_bytes (h : blob_db_index_hdr) (ids : list Z) : bytes := enc_index_hdr h ++ enc_ids ids.

Lemma generation_record s id h ids v :
  seg_geo cfg MAX_OBJECT_LEN s -> generation s id h ids v ->
  let p := index_bytes h ids in
  dec_index_hdr p = h /\ ids_of p = ids /\ len p = 16 + 8 * len ids /\ bytes_ok p /\ segmented (lp_db s) (g_seg_len s) (g_seg_max s) id p v.
Proof.
  intros [G1 G2 G3 G4] Hgn p. pose proof Hgn as [H1 H2 H3 H4 H5 H6 H7 H8 H9 H10]. pose proof H1 as (Hm & _).
  assert (dec_index_hdr p = h) as Ed by by apply dec_enc_index_hdr.
  assert (ids_of p = ids) as Ei.
  { unfold ids_of. rewrite Ed, H6. rewrite <- (len_enc_index_hdr h Hm). unfold p, index_bytes. rewrite <- (app_nil_r (enc_ids ids)). by apply dec_enc_ids. }
  assert (len p = 16 + 8 * len ids) as El by (unfold p, index_bytes; rewrite len_app, len_enc_index_hdr, len_enc_ids by done; lia).
  pose proof (len_nonneg ids). split_and!; try done.
  - apply bytes_ok_app. split; [|apply bytes_ok_enc_ids]. apply bytes_ok_enc_index_hdr. rewrite H2. repeat constructor; unfold byte_ok; lia.
  - split; rewrite ?Ed, ?Ei; try done; [|lia]. apply index_hdr_valid_spec. rewrite H4, H5, H6, El. split_and!; try done; try lia; nia.
Qed.

Lemma index_commit_spec s id h ids v :
  lsession s -> 0 < id < 2 ^ 64 -> internal (lp_db s) id = false -> id < next_id (d_st (lp_db s)) -> generation s id h ids v ->
  wp (Large.index_commit cfg g id h ids) s (fun r s' =>
    (r = Ok tt /\ exists s1, kept 0 s s1 /\ sets 0 s1 s' id (Some v) /\ upd s1 s' id (slot_value BLOB_DB_SLOT_F_INDEXED (index_bytes h ids))) \/
    (r = Err ENOSPC /\ kept 0 s s' /\ no_room (lp_db s') id (16 + 8 * len ids))).
Proof.
  intros Ls Hid Hi Hn Hgn. pose proof (ls_session _ _ _ _ _ Ls) as Se. pose proof (ls_geo _ _ _ _ _ Ls) as Hgeo. pose proof Hgeo as [G1 G2 G3 G4].
  destruct (generation_record s id h ids v Hgeo Hgn) as (Ed & Ei & El & Hb & Hseg). pose proof (len_nonneg ids). pose proof (gn_max _ _ _ _ _ Hgn).
  pose proof (payload_small cfg g Hg).
  unfold Large.index_commit. rewrite (id_to_bucket_eq cfg g Hg), u16_small by lia.
  apply (first_cursor cfg g Hg Ha sidx_wf s id); [done|]. intros s1 c1 K1 Hv1 Hc1.
  apply (room_strict cfg g Hg Ha sidx_wf s1 id (16 + 8 * len ids) c1 (fun c => c) (fun c => c)); [apply K1|done|done| |].
  2: { intros s2 K2 Hno. right. split; [done|]. split; [exact (kept_then cfg g sidx_wf 0 0 _ _ _ K1 K2)|done]. }
  intros s2 c2 x K2 Hv2 Hc2 Hfit Hx. assert (x = c2) as -> by (destruct Hx as [?|[? _]]; done). subst c2.
  pose proof (kept_then cfg g sidx_wf 0 0 _ _ _ K1 K2) as K. cbn [Z.add] in K. pose proof (kept_lsession cfg MAX_OBJECT_LEN g sidx_wf _ _ _ Ls K) as Ls2.
  eapply wp_mono; [apply (commit_append s2 id BLOB_DB_SLOT_F_INDEXED (enc_index_hdr h) (enc_ids ids) (Some v)); try done; fold (index_bytes h ids)|].
  - rewrite <- Hi. apply internal_same, K.
  - pose proof (kp_next _ _ _ _ _ _ K). lia.
  - apply (flags_ok_large cfg Hlarge). auto.
  - lia.
  - by rewrite El.
  - split; [done|]. change (is_idx _) with true. cbn [slot_value]. exists v. pose proof (kp_fields _ _ _ _ _ _ K) as Hf.
    split; [done|]. split; [|split; [lia|done]]. apply (segmented_same cfg MAX_OBJECT_LEN g (lp_db s)); [apply K|]. by rewrite Hf.
  - cbv beta. intros r s' (-> & Hs & Hu). left. split; [done|]. by exists s2.
Qed.

(** ** The outgoing generation *)

(** The [k] segments of [id] in the resident table; none for an inline object. *)
Definition old_gen s (id k : Z) : Prop :=
  k = 0 \/ exists fl p, slots (lp_db s) id = Some (fl, p) /\ is_idx fl = true /\ k = ih_seg_count (dec_index_hdr p) /\ resident s p.

Lemma old_gen_kept s s' id k :
  slots (lp_db s') id = slots (lp_db s) id -> g_seg_a s' = g_seg_a s -> old_gen s id k -> old_gen s' id k.
Proof.
  intros E Ea [?|(fl & p & ?)]; [by left|right]. exists fl, p. unfold resident. by rewrite E, Ea.
Qed.

(** Once the slot of [id] no longer lists them, its old segments may go. *)
Lemma old_releasable s s' id v fl p L :
  lsession s -> upd s s' id v -> slots (lp_db s) id = Some (fl, p) -> is_idx fl = true ->
  (forall x, x ∈ L -> x ∈ ids_of p /\ forall fl' p', v = Some (fl', p') -> is_idx fl' = true -> x ∉ ids_of p') ->
  Forall (releasable (lp_db s')) L.
Proof.
  intros Ls Hu E Hi HL. apply list.Forall_forall. intros x Hx. destruct (HL x Hx) as [Hin Hnew].
  destruct (index_object cfg MAX_OBJECT_LEN g Hg sidx_wf s id fl p Ls E Hi) as (Hs & _).
  destruct (listed_internal cfg MAX_OBJECT_LEN g sidx_wf s id fl p x Ls E Hs Hi Hin) as (j & w & _ & _ & (fl' & q & Ex & Hsx & _ & Ho & _)).
  assert (x <> id) as Hne by (intros ->; congruence).
  assert (slots (lp_db s') x = Some (fl', q)) as Ex' by (by rewrite (up_slots _ _ _ _ _ _ _ Hu), decide_False).
  destruct (slots_known cfg g Hg sidx_wf _ _ _ _ (se_inv cfg g sidx_wf s (ls_session _ _ _ _ _ Ls)) Ex) as (Hr & _).
  split; [done|]. split; [by eapply (segment_object cfg g)|]. intros i fl2 p2 Hi2 E2 Hs2 Hix2 Hin2.
  rewrite (up_slots _ _ _ _ _ _ _ Hu) in E2. case_decide as Ei; [by apply (Hnew fl2 p2)|].
  destruct (listed_internal cfg MAX_OBJECT_LEN g sidx_wf s i fl2 p2 x Ls E2 Hs2 Hix2 Hin2) as (j2 & w2 & _ & _ & (fl3 & q3 & E3 & _ & _ & Ho3 & _)).
  rewrite Ex in E3. injection E3 as <- <-. congruence.
Qed.

(** Releasing them, and clearing the owner word. *)
Lemma release_then_clear s L :
  lsession s -> Forall (releasable (lp_db s)) L -> lroom s 1 ->
  wp (mbnd (Large.seg_release cfg g L) (fun _ => Large.persist_seg_owner cfg g 0)) s (fun r s' => r = Ok tt /\ steady 1 s s').
Proof.
  intros Ls HL Hr. apply wp_bnd. eapply wp_mono; [by apply (seg_release_spec cfg MAX_OBJECT_LEN g Hg Ha sidx_wf Hlarge)|]. cbv beta.
  intros r s1 [-> B]. pose proof (buried_steady cfg MAX_OBJECT_LEN g sidx_wf _ _ B) as St.
  eapply wp_mono; [apply (owner_spec cfg g Hg sidx_wf s1 0); [apply B|by eapply (steady_room cfg MAX_OBJECT_LEN g sidx_wf); [exact St|]|lia]|].
  cbv beta. intros r s2 [-> K]. split; [done|]. change 1 with (0 + 1). eapply (steady_trans cfg MAX_OBJECT_LEN g sidx_wf); [exact St|].
  apply kept_steady; [apply B|done].
Qed.

(** What a write that found no room leaves: the bucket of [id] is full, or those
    of eight fresh ids in a row are. *)
Definition starved d (id : Z) : Prop := crowded cfg g d \/ exists n, 0 <= n <= MAX_PAYLOAD_LEN cfg /\ no_room d id n.

(** ** The update of a segmented object *)

Lemma chunk_count sl n : 1 <= sl -> 1 <= n -> let k := (n + sl - 1) / sl in 1 <= k /\ k * sl - sl < n <= k * sl.
Proof.
  intros Hs Hn k. pose proof (Z.div_mod (n + sl - 1) sl ltac:(lia)) as Hd. pose proof (Z.mod_pos_bound (n + sl - 1) sl ltac:(lia)). fold k in Hd.
  assert (sl * k < n + sl) by lia. assert (n <= sl * k) by lia. split; nia.
Qed.

Lemma wrote_frame k s s' id :
  lsession s -> wrote_segs k s s' -> id < next_id (d_st (lp_db s)) ->
  slots (lp_db s') id = slots (lp_db s) id /\ internal (lp_db s') id = internal (lp_db s) id /\ g_seg_a s' = g_seg_a s.
Proof.
  intros Ls W Hn. pose proof (ws_old _ _ _ _ _ _ _ W id Hn) as E. split; [done|]. split; [unfold SegBase.internal; by rewrite E|].
  by rewrite (mv_fields _ _ _ _ (ws_moves _ _ _ _ _ _ _ W)).
Qed.

(** The rest of the update, once the segments of the new generation are written
    and listed in [ids]. *)
Lemma commit_then_release s id h ids v (L : list Z -> list Z) old_k n0 :
  lsession s -> 0 < id < 2 ^ 64 -> internal (lp_db s) id = false -> id < next_id (d_st (lp_db s)) -> generation s id h ids v ->
  old_gen s id old_k -> L [] = [] ->
  (forall fl p, slots (lp_db s) id = Some (fl, p) -> is_idx fl = true -> forall x, x ∈ L (ids_of p) -> x ∈ ids_of p /\ x ∉ ids) -> lroom s (n0 + 1) -> 0 <= n0 ->
  wp (mbnd (Large.index_commit cfg g id h ids) (fun _ => mbnd (mgets (fun s => take (Z.to_nat old_k) (g_seg_a s)))
    (fun old => mbnd (Large.seg_release cfg g (L old)) (fun _ => Large.persist_seg_owner cfg g 0)))) s (fun r s' =>
    (r = Ok tt /\ sets 1 s s' id (Some v)) \/ (r = Err ENOSPC /\ steady 1 s s' /\ exists n, 0 <= n <= MAX_PAYLOAD_LEN cfg /\ no_room (lp_db s') id n)).
Proof.
  intros Ls Hid Hi Hn Hgn Hold HL0 HL Hr Hn0. pose proof (ls_geo _ _ _ _ _ Ls) as Hgeo. pose proof Hgeo as [G1 G2 G3 G4].
  destruct (generation_record s id h ids v Hgeo Hgn) as (Ed & Ei & El & Hb & Hseg). pose proof (len_nonneg ids). pose proof (gn_max _ _ _ _ _ Hgn).
  apply wp_bnd. eapply wp_mono; [by apply index_commit_spec|]. cbv beta. intros r s1 [(-> & s0 & K & Hs & Hu)|(-> & K & Hno)].
  2: { right. split; [done|]. split; [eapply (steady_le cfg MAX_OBJECT_LEN g sidx_wf); [|by apply kept_steady]; lia|].
       exists (16 + 8 * len ids). split; [lia|done]. }
  apply wp_bnd, wp_gets. cbv beta. pose proof (kept_lsession cfg MAX_OBJECT_LEN g sidx_wf _ _ _ Ls K) as Ls0.
  assert (g_seg_a s1 = g_seg_a s) as Ea by (rewrite (up_fields _ _ _ _ _ _ _ Hu), (kp_fields _ _ _ _ _ _ K); done).
  assert (Forall (releasable (lp_db s1)) (L (take (Z.to_nat old_k) (g_seg_a s1)))) as Hrel.
  { destruct Hold as [->|(fl & p & E & Hix & -> & Hres)]; [by rewrite take_0, HL0|]. rewrite Ea, Hres.
    eapply (old_releasable s0 s1 id _ fl p); [done|exact Hu|by rewrite (kp_slots _ _ _ _ _ _ K)|done|].
    intros x Hx. destruct (HL fl p E Hix x Hx) as [Hx1 Hx2]. split; [done|]. intros fl' p' E' _. injection E' as <- <-. by rewrite Ei. }
  pose proof (kept_sets s s0 s1 id (Some v) Ls K Hs) as Hs01. eapply wp_mono; [apply (release_then_clear s1 _ (st_session _ _ _ _ _ Hs01) Hrel)|].
  - destruct Hr, Hs01. split; lia.
  - cbv beta. intros r s2 [-> St]. left. split; [done|]. change 1 with (0 + 1). by eapply sets_steady.
Qed.

Lemma seg_update_spec s id payload old_k :
  lsession s -> 0 < id < 2 ^ 64 -> internal (lp_db s) id = false -> id < next_id (d_st (lp_db s)) -> bytes_ok payload ->
  1 <= len payload <= MAX_OBJECT_LEN -> old_gen s id old_k -> lroom s 65538 ->
  wp (Large.seg_update cfg MAX_OBJECT_LEN g id payload old_k) s (fun r s' =>
    (r = Ok tt /\ sets 65538 s s' id (Some payload)) \/ (r = Err ENOSPC /\ steady 65538 s s' /\ starved (lp_db s') id)).
Proof.
  intros Ls Hid Hi Hn Hb Hlen Hold Hr. pose proof (ls_geo _ _ _ _ _ Ls) as [G1 G2 G3 G4]. pose proof (payload_small cfg g Hg).
  set (sl := g_seg_len s) in *. set (sm := g_seg_max s) in *. unfold Large.seg_update. apply wp_bnd, wp_gets. cbv beta. apply wp_bnd, wp_gets. cbv beta.
  fold sl sm. destruct (chunk_count sl (len payload) ltac:(lia) ltac:(lia)) as [Hk0 Hk]. rewrite u32_small by nia.
  set (k := (len payload + sl - 1) / sl) in *. cbv zeta. assert (k <= sm) as Hkm by nia.
  destruct (Z.gtb_spec (len payload) MAX_OBJECT_LEN); [lia|]. destruct (Z.gtb_spec k sm); [lia|].
  apply wp_bnd. eapply wp_mono; [apply (owner_spec cfg g Hg sidx_wf s id); [apply Ls|destruct Hr; split; lia|lia]|].
  cbv beta. intros r s1 [-> K1]. pose proof (kept_lsession cfg MAX_OBJECT_LEN g sidx_wf _ _ _ Ls K1) as Ls1.
  pose proof (wrote_segs_kept cfg MAX_OBJECT_LEN g sidx_wf _ _ _ Ls K1) as W1.
  apply wp_bnd. eapply wp_mono.
  { apply (seg_write_all_spec cfg MAX_OBJECT_LEN g Hg Ha sidx_wf Hlarge (Z.to_nat k) s1 id sl 0 payload Ls1); try done; try lia.
    eapply (kept_room cfg g sidx_wf); [exact K1|]. destruct Hr; split; lia. }
  cbv beta. rewrite Z2Nat.id by lia. intros r s2 [W2 Hq]. pose proof (wrote_segs_trans cfg MAX_OBJECT_LEN g sidx_wf _ _ _ _ _ W1 W2) as W.
  pose proof (wrote_steady cfg MAX_OBJECT_LEN g sidx_wf _ _ _ W) as St.
  destruct r as [ids|e]. 2: { destruct Hq as [-> Hq]. right. split; [done|]. split; [eapply (steady_le cfg MAX_OBJECT_LEN g sidx_wf); [|exact St]; lia|by left]. }
  destruct Hq as [Hlids Hids]. destruct (wrote_frame _ s s2 id Ls W Hn) as (E2 & I2 & A2).
  pose proof (sy_next _ _ _ _ _ _ _ St) as Hnx. pose proof (ws_session _ _ _ _ _ _ _ W) as Ls2. pose proof (kp_next _ _ _ _ _ _ K1) as Hn1.
  assert (len ids = k) as Hlk by (unfold len; lia).
  rewrite !u32_small, u16_small by nia.
  eapply wp_mono; [apply (commit_then_release s2 id _ ids payload (fun l => l) old_k 0)|]; try done.
  - by rewrite I2.
  - lia.
  - split; cbn [ih_magic ih_version ih_total_len ih_seg_len ih_seg_count]; rewrite ?(sy_len _ _ _ _ _ _ _ St), ?(sy_max _ _ _ _ _ _ _ St); fold sl sm; try done; try lia.
    + unfold index_hdr_wf. cbn. pose proof (crc32_range payload). assert (len payload < 2 ^ 32) by nia. split_and!; try done; lia.
    + apply list.Forall_forall. intros x Hx. apply list_elem_of_lookup in Hx as [i Hi']. destruct (Hids i x Hi') as [Hx1 _].
      destruct Hr. pose proof (lv_next _ _ _ _ (se_live _ _ _ _ (ls_session _ _ _ _ _ Ls))). lia.
    + intros j sid Hj. destruct (Hids j sid Hj) as [_ Hsg]. done.
  - by apply (old_gen_kept s).
  - intros fl p E Hix x Hx. split; [done|]. intros Hin. apply list_elem_of_lookup in Hin as [i Hi']. destruct (Hids i x Hi') as [Hx1 _].
    rewrite E2 in E. destruct (index_object cfg MAX_OBJECT_LEN g Hg sidx_wf s id fl p Ls E Hix) as (Hs & _).
    destruct (listed_internal cfg MAX_OBJECT_LEN g sidx_wf s id fl p x Ls E Hs Hix Hx) as (j & w & _ & _ & (fl' & q & Ex & _)).
    pose proof (ls_fresh _ _ _ _ _ Ls x ltac:(congruence)). lia.
  - eapply (steady_room cfg MAX_OBJECT_LEN g sidx_wf); [exact St|]. destruct Hr; split; lia.
  - cbv beta. intros r s3 [[-> Hs]|(-> & St3 & Hno)].
    + left. split; [done|]. eapply sets_le; [|by eapply steady_sets; [exact St|exact Hs]]. lia.
    + right. split; [done|]. split; [|by right]. eapply (steady_le cfg MAX_OBJECT_LEN g sidx_wf); [|by eapply (steady_trans cfg MAX_OBJECT_LEN g sidx_wf)]. lia.
Qed.
End write.
