(* ===== verification/SegPatch.v ===== *)
(** The positioned write of a segmented object: the chunks it touches, resizes or
    adds are written anew, the others keep their segments, and the object becomes
    the old value with the bytes in place. *)

From S2P Require Import Prelude Layout Store SlotIndexIface Image Core CoreRead Lookup Append Bucket Compact.
From S2P Require Import CompactImage Recovery CompactSpec Ops OpsRead OpsWrite Master Mount MasterSpec MasterInv.
From S2P Require Import MountSpec Session Segments SegBase SegIo SegRead SegSweep SegWrite.

Section patch.
Context (cfg : config) (MAX_OBJECT_LEN : Z) (g : geom) `{Crc}.
Context {S I : Type} `{!Store S} `{!StoreView S} `{!SlotIndex I}.
Context (Hg : geom_ok cfg g) (Ha : geom_aligned g) {SL : StoreLaws S (store_geom_of g)} {CL : CrcLaws _}.
Context (sidx_wf : Z -> I -> Prop) {IL : SlotIndexLaws I sidx_wf}.
Context (Hlarge : LARGE_PAYLOADS cfg = true).
Notation db := (db S I).
Notation lp := (lp S I).
Notation slots := (slots cfg g).
Notation session := (session cfg g sidx_wf).
Notation lsession := (lsession cfg MAX_OBJECT_LEN g sidx_wf).
Notation kept := (kept cfg g sidx_wf).
Notation seen := (seen cfg g sidx_wf).
Notation object := (object cfg g).
Notation internal := (internal cfg g).
Notation segmented := (segmented cfg MAX_OBJECT_LEN g).
Notation seg_of := (seg_of cfg g).
Notation looked := (looked cfg MAX_OBJECT_LEN g sidx_wf).
Notation buried := (buried cfg MAX_OBJECT_LEN g sidx_wf).
Notation wrote_segs := (wrote_segs cfg MAX_OBJECT_LEN g sidx_wf).
Notation releasable := (releasable cfg g).
Notation moves := (moves g).
Notation steady := (steady cfg MAX_OBJECT_LEN g sidx_wf).
Notation upd := (upd cfg g sidx_wf).
Notation no_room := (no_room cfg g).
Notation cursor_of := (cursor_of cfg g).
Notation valid d id := (bucket_hdr_valid (bimg d (id mod n_buckets g)) (id mod n_buckets g) = true).
Notation sets := (sets cfg MAX_OBJECT_LEN g sidx_wf).
Notation bucket_of id := (id mod n_buckets g).
Implicit Types (d : db) (s : lp).

(** ** The bytes of a chunk *)

(** The old value, zeros after it, up to [n]. *)
Definition padded (v : bytes) (n : Z) : bytes := v ++ replicate (Z.to_nat (n - len v)) 0.

Lemma len_padded v n : len v <= n -> len (padded v n) = n.
Proof. intros Hn. unfold padded. rewrite len_app. unfold len at 2. rewrite length_replicate. lia. Qed.

Lemma patched_padded off b v : 0 <= off -> patched off b v = splice off b (padded v (Z.max (off + len b) (len v))).
Proof. intros Ho. unfold patched, staged, padded. do 3 f_equal. rewrite zt_slice. by apply slice_all. Qed.

Lemma padded_front pos n v m : 0 <= pos -> 0 <= n -> pos + n <= len v -> slice pos n (padded v m) = slice pos n v.
Proof. intros Hp Hn Hl. unfold padded. rewrite slice_app_l by lia. done. Qed.

Lemma padded_back pos n v m : len v <= pos -> 0 <= n -> pos + n <= m -> slice pos n (padded v m) = replicate (Z.to_nat n) 0.
Proof.
  intros Hp Hn Hm. pose proof (len_nonneg v). apply list_eq. intros i. rewrite lookup_slice by lia. unfold padded. case_decide.
  - rewrite lookup_app_r by (unfold len in *; lia). rewrite !lookup_replicate_2 by (unfold len in *; lia). done.
  - symmetry. apply lookup_ge_None_2. rewrite length_replicate. lia.
Qed.

(** A chunk of the new value: untouched, partly or wholly overwritten. *)
Lemma chunk_untouched off (b w : bytes) cs n :
  0 <= off -> 0 <= cs -> 0 <= n -> cs + n <= len w -> off + len b <= len w -> off >= cs + n \/ off + len b <= cs -> slice cs n (splice off b w) = slice cs n w.
Proof.
  intros Ho Hc Hn Hl Hb Ht. apply list_eq. intros i. rewrite !lookup_slice by lia. case_decide; [|done]. rewrite lookup_splice by lia.
  rewrite decide_False by lia. done.
Qed.

Lemma chunk_covered off (b w : bytes) cs n :
  0 <= off -> 0 <= cs -> 0 <= n -> off + len b <= len w -> off <= cs -> cs + n <= off + len b -> slice cs n (splice off b w) = slice (cs - off) n b.
Proof.
  intros Ho Hc Hn Hb H1 H2. apply list_eq. intros i. rewrite !lookup_slice by lia. case_decide; [|done]. rewrite lookup_splice by lia.
  rewrite decide_True by lia. f_equal. lia.
Qed.

Lemma chunk_mixed off (b w : bytes) cs n :
  0 <= off -> 0 <= cs -> 0 <= n -> cs + n <= len w -> off + len b <= len w -> off < cs + n -> cs < off + len b ->
  let s := Z.max off cs in let e := Z.min (off + len b) (cs + n) in
  splice (s - cs) (slice (s - off) (e - s) b) (slice cs n w) = slice cs n (splice off b w).
Proof.
  intros Ho Hc Hn Hl Hb H1 H2 s e. pose proof (len_nonneg b). assert (len (slice (s - off) (e - s) b) = e - s) as Hs by (apply len_slice; lia).
  assert (len (slice cs n w) = n) as Hw by (apply len_slice; lia). apply list_eq. intros i.
  rewrite lookup_splice by lia. rewrite Hs, (lookup_slice cs n (splice off b w)) by lia. case_decide as Hi.
  - rewrite lookup_slice by lia. rewrite !decide_True by lia. rewrite lookup_splice, decide_True by lia. f_equal. lia.
  - rewrite lookup_slice by lia. case_decide; [|done]. rewrite lookup_splice, decide_False by lia. done.
Qed.

(** ** Reading the outgoing bytes *)

Lemma old_bytes_spec fuel s id p v pos left m :
  lsession s -> segmented (lp_db s) (g_seg_len s) (g_seg_max s) id p v -> resident s p ->
  len (ids_of p) = ih_seg_count (dec_index_hdr p) -> ih_seg_count (dec_index_hdr p) <= 8192 ->
  0 <= pos -> 0 <= left <= Z.of_nat fuel -> pos + left <= m -> len v <= m -> m <= 8192 * g_seg_len s ->
  wp (Large.old_bytes cfg fuel g id (dec_index_hdr p) (g_seg_a s) (ih_seg_count (dec_index_hdr p)) pos left) s (fun r s' =>
    seen s s' /\ r = Ok (slice pos left (padded v m))).
Proof.
  intros Ls Hv Hr Hl Hc. pose proof (ls_geo _ _ _ _ _ Ls) as [Hsl _ _ _]. pose proof (sg_len _ _ _ _ _ _ _ _ _ Hv) as El.
  pose proof (sg_total _ _ _ _ _ _ _ _ _ Hv) as Et.
  pose proof (proj1 (index_hdr_valid_spec _ _ _) (sg_valid _ _ _ _ _ _ _ _ _ Hv)) as (_ & _ & _ & _ & _ & _ & _ & Hspan).
  rewrite Et, El in Hspan. remember (g_seg_a s) as a eqn:Ea. revert s Ls Hv Hr Ea Hsl El Hspan pos left.
  induction fuel as [|fuel IH]; intros s Ls Hv Hr Ea Hsl El Hspan pos left Hp Hle Hend Hvm Hm; cbn [Large.old_bytes].
  { apply wp_ret. split; [by apply (seen_refl cfg g sidx_wf), Ls|]. assert (left = 0) as -> by lia. done. }
  destruct (Z.leb_spec left 0); [apply wp_ret; split; [by apply (seen_refl cfg g sidx_wf), Ls|]; assert (left = 0) as -> by lia; done|].
  rewrite El, Et. set (sl := g_seg_len s) in *. set (j := pos / sl). pose proof (Z.div_mod pos sl ltac:(lia)) as Hdm. fold j in Hdm.
  pose proof (Z.mod_pos_bound pos sl ltac:(lia)) as Hmd. assert (0 <= j < 8192) as Hj.
  { split; [apply Z.div_pos; lia|]. apply Z.div_lt_upper_bound; lia. }
  rewrite u16_small by lia. set (k := ih_seg_count (dec_index_hdr p)) in *. cbv zeta.
  destruct (Z.geb_spec pos (len v)) as [Hpast|Hin]; cbn [orb].
  { apply wp_ret. split; [by apply (seen_refl cfg g sidx_wf), Ls|]. by rewrite padded_back by lia. }
  assert (j < k) as Hjk by (apply Z.div_lt_upper_bound; lia). destruct (Z.geb_spec j k); [lia|].
  set (n0 := Z.min (sl - pos mod sl) left). set (n := if pos + n0 >? len v then len v - pos else n0).
  assert (n = Z.min n0 (len v - pos)) as En by (unfold n; destruct (Z.gtb_spec (pos + n0) (len v)); lia).
  apply wp_bnd. pose proof (resident_seg cfg MAX_OBJECT_LEN g s id p v j Hv Hr Hl ltac:(lia)) as Hsg. fold sl in Hsg. rewrite <- Ea in Hsg.
  eapply wp_mono; [apply (seg_chunk_read_spec cfg MAX_OBJECT_LEN g Hg sidx_wf s id j _ (pos mod sl) n _ Ls Hsg)|]; [lia|lia|rewrite len_slice_le by nia; lia|].
  cbv beta. intros r s1 [Hs1 ->]. pose proof (seen_looked cfg MAX_OBJECT_LEN g sidx_wf _ _ Ls Hs1) as Lk. destruct Hs1 as (Hroi & Hco & Hf1).
  apply wp_bnd. eapply wp_mono; [apply (IH s1)|]; rewrite ?(lk_len _ _ _ _ _ _ Lk), ?(lk_max _ _ _ _ _ _ Lk); try done; try lia.
  - apply Lk.
  - by apply (segmented_same cfg MAX_OBJECT_LEN g (lp_db s)), Hv; apply same_contents_roi.
  - unfold resident. rewrite Hf1. apply Hr.
  - rewrite Hf1. done.
  - cbv beta. intros r s2 [Hs2 ->]. apply wp_ret. split; [by eapply (seen_trans cfg g sidx_wf); [split_and!|]|]. f_equal.
    rewrite slice_in_chunk by lia. replace (j * sl + pos mod sl) with pos by lia.
    replace left with (n + (left - n)) at 2 by lia. rewrite slice_split by lia. rewrite (padded_front pos n) by lia. done.
Qed.

(** ** The loop over the chunks *)

Section edit.
Context (s0 : lp) (id fl off : Z) (p v b : bytes).
Context (Ls0 : lsession s0) (E0 : slots (lp_db s0) id = Some (fl, p)) (Hix : is_idx fl = true) (Hob : object (lp_db s0) id = Some v) (Hres0 : resident s0 p).
Context (Hoff : 0 <= off) (Hb1 : 1 <= len b) (Hbb : bytes_ok b) (Hbv : bytes_ok v).
Notation nt := (Z.max (off + len b) (len v)).
Context (Hnt : nt <= MAX_OBJECT_LEN).
Notation sl := (g_seg_len s0).
Notation h := (dec_index_hdr p).
Notation k := (ih_seg_count (dec_index_hdr p)).
Notation v' := (patched off b v).

Lemma edit_geo : 1 <= sl <= MAX_PAYLOAD_LEN cfg - 12 /\ 1 <= g_seg_max s0 <= 8192 /\ nt <= g_seg_max s0 * sl /\ MAX_PAYLOAD_LEN cfg < 32768.
Proof. destruct (ls_geo _ _ _ _ _ Ls0) as [G1 G2 G3 G4]. pose proof (payload_small cfg g Hg). split_and!; lia. Qed.

Lemma edit_old : 0 < k <= 8192 /\ len (ids_of p) = k /\ k * sl - sl < len v <= k * sl /\ 0 < len v.
Proof.
  destruct (index_object cfg MAX_OBJECT_LEN g Hg sidx_wf s0 id fl p Ls0 E0 Hix) as (_ & _ & _ & w & Hw & Ew & Hc & Hl).
  rewrite Hob in Ew. injection Ew as <-.
  pose proof (proj1 (index_hdr_valid_spec _ _ _) (sg_valid _ _ _ _ _ _ _ _ _ Hw)) as (_ & _ & _ & _ & _ & _ & Ht & Hspan).
  rewrite (sg_total _ _ _ _ _ _ _ _ _ Hw), (sg_len _ _ _ _ _ _ _ _ _ Hw) in *. pose proof (len_nonneg v). split_and!; try done; lia.
Qed.

Lemma len_new : len v' = nt.
Proof. by apply patched_spec. Qed.

(** While segments are written, the outgoing generation is at hand. *)
Lemma edit_here n s :
  wrote_segs n s0 s -> lsession s /\ segmented (lp_db s) sl (g_seg_max s0) id p v /\ resident s p /\ g_seg_a s = g_seg_a s0 /\
    g_seg_len s = sl /\ g_seg_max s = g_seg_max s0 /\ slots (lp_db s) id = Some (fl, p).
Proof.
  intros W. pose proof (ws_session _ _ _ _ _ _ _ W) as Ls. pose proof (mv_fields _ _ _ _ (ws_moves _ _ _ _ _ _ _ W)) as Hf.
  pose proof (ls_fresh _ _ _ _ _ Ls0 id ltac:(congruence)) as Hn. pose proof (ws_old _ _ _ _ _ _ _ W id Hn) as E. rewrite E0 in E.
  assert (g_seg_a s = g_seg_a s0) as Ea by (by rewrite Hf). assert (g_seg_len s = sl) as El by (by rewrite Hf). assert (g_seg_max s = g_seg_max s0) as Em by (by rewrite Hf).
  destruct (index_object cfg MAX_OBJECT_LEN g Hg sidx_wf s id fl p Ls E Hix) as (_ & _ & _ & w & Hw & Ew & _).
  rewrite (ws_objects _ _ _ _ _ _ _ W), Hob in Ew. injection Ew as <-. rewrite El, Em in Hw. unfold resident. by rewrite Ea.
Qed.

Definition touches (j : Z) : bool := (off <? Z.min (j * sl + sl) nt) && (off + len b >? j * sl).

Lemma pwrite_chunk_spec n s j :
  wrote_segs n s0 s -> 0 <= j -> j * sl < nt -> let cs := j * sl in let ce := Z.min (cs + sl) nt in
  wp (Large.pwrite_chunk cfg g id h k off b cs ce (touches j)) s (fun r s' => seen s s' /\ r = Ok (slice cs sl v')).
Proof.
  intros W Hj Hcs cs ce. destruct (edit_here n s W) as (Ls & Hv & Hres & Ea & El & Em & _). destruct edit_geo as (Hsl & Hsm & Hreach & Hp).
  destruct edit_old as (Hk & Hlk & Hspan & Hv0). pose proof len_new as Hln. assert (0 <= cs) as Hcs0 by (unfold cs; nia).
  assert (slice cs sl v' = slice cs (ce - cs) v') as -> by (rewrite (slice_clip cs sl) by lia; f_equal; lia).
  set (base := padded v nt). assert (len base = nt) as Hlb by (apply len_padded; lia). rewrite patched_padded by done. fold base.
  unfold Large.pwrite_chunk. unfold touches. fold cs ce. set (t := (off <? ce) && (off + len b >? cs)).
  destruct (t && (off <=? cs) && (off + len b >=? ce)) eqn:Ec.
  { apply wp_ret. split; [by apply (seen_refl cfg g sidx_wf), Ls|]. f_equal. symmetry.
    apply andb_true_iff in Ec as [[_ H1%Z.leb_le]%andb_true_iff H2]. destruct (Z.geb_spec (off + len b) ce); [|done].
    apply chunk_covered; lia. }
  apply wp_bnd, wp_gets. cbv beta. apply wp_bnd. eapply wp_mono.
  { apply (old_bytes_spec _ s id p v cs (ce - cs) nt Ls); rewrite ?El, ?Em; try done; try lia; nia. }
  cbv beta. intros r s1 [Hs1 ->]. fold base. destruct t eqn:Et; apply wp_ret; (split; [done|]; f_equal); unfold t in Et.
  - apply andb_true_iff in Et as [H1%Z.ltb_lt H2]. destruct (Z.gtb_spec (off + len b) cs); [|done].
    replace ce with (cs + (ce - cs)) by lia. replace (cs + (ce - cs) - cs) with (ce - cs) by lia. apply chunk_mixed; lia.
  - symmetry. apply chunk_untouched; lia.
Qed.

(** The table once the chunks below [j] are done. *)
Record table_at s (j : Z) (t : list Z) : Prop := {
  ta_len : len t = Z.max k j;
  ta_done : forall i sid, t !! i = Some sid -> Z.of_nat i < j ->
    seg_of (lp_db s) id (Z.of_nat i) sid (slice (Z.of_nat i * sl) sl v') /\
    (ids_of p !! i = Some sid \/ next_id (d_st (lp_db s0)) <= sid < next_id (d_st (lp_db s)));
  ta_rest : forall i sid, t !! i = Some sid -> j <= Z.of_nat i -> ids_of p !! i = Some sid;
}.

Lemma table_start : table_at s0 0 (ids_of p).
Proof. destruct edit_old as (Hk & Hlk & _). split; [lia|lia|done]. Qed.

Lemma seg_of_fresh s sid o q c : lsession s -> seg_of (lp_db s) o q sid c -> sid < next_id (d_st (lp_db s)).
Proof. intros Ls (fl' & q' & E & _). apply (ls_fresh _ _ _ _ _ Ls). congruence. Qed.

Lemma table_frame n s s' j t : lsession s -> wrote_segs n s s' -> table_at s j t -> table_at s' j t.
Proof.
  intros Ls W [H1 H2 H3]. split; [done| |done]. intros i sid Hi Hj. destruct (H2 i sid Hi Hj) as [Hs Ho].
  pose proof (mv_next _ _ _ _ (ws_moves _ _ _ _ _ _ _ W)). split; [|destruct Ho; [by left|right; lia]].
  eapply seg_of_frame; [|exact Hs]. apply (ws_old _ _ _ _ _ _ _ W). by eapply seg_of_fresh.
Qed.

(** A chunk that keeps its segment. *)
Lemma table_keep n s j t :
  wrote_segs n s0 s -> table_at s j t -> 0 <= j < k -> j * sl < nt -> touches j = false ->
  Z.min (j * sl + sl) (len v) = Z.min (j * sl + sl) nt -> table_at s (j + 1) t.
Proof.
  intros W [H1 H2 H3] Hj Hcs Ht Hc. destruct (edit_here n s W) as (Ls & Hv & _). destruct edit_geo as (Hsl & _). destruct edit_old as (Hk & Hlk & Hspan & Hv0).
  split; [lia| |intros i sid Hi Hij; apply H3; [done|lia]]. intros i sid Hi Hij. destruct (decide (Z.of_nat i < j)) as [|Hge]; [by apply H2|].
  assert (Z.of_nat i = j) as Ei by lia. pose proof (H3 i sid Hi ltac:(lia)) as Hold. split; [|by left].
  pose proof (sg_segs _ _ _ _ _ _ _ _ _ Hv i sid Hold) as Hs. rewrite Ei in *.
  assert (slice (j * sl) sl v' = slice (j * sl) sl v) as ->; [|done].
  set (cs := j * sl) in *. assert (0 <= cs) by (unfold cs; nia). pose proof len_new as Hln. assert (len (padded v nt) = nt) as Hlb by (apply len_padded; lia).
  rewrite (slice_clip cs sl v') by lia. rewrite (slice_clip cs sl v) by (unfold cs in *; nia). rewrite Hln, patched_padded by done.
  replace (Z.min sl (len v - cs)) with (Z.min sl (nt - cs)) by lia. rewrite chunk_untouched; try lia; [apply padded_front; lia|].
  unfold touches in Ht. fold cs in Ht. apply andb_false_iff in Ht as [H4%Z.ltb_ge|H4]; [lia|]. destruct (Z.gtb_spec (off + len b) cs); [done|lia].
Qed.

(** A chunk that gets a new one. *)
Lemma table_put s j t sid :
  table_at s j t -> 0 <= j -> seg_of (lp_db s) id j sid (slice (j * sl) sl v') -> next_id (d_st (lp_db s0)) <= sid < next_id (d_st (lp_db s)) ->
  j <= len t -> table_at s (j + 1) (take (Z.to_nat j) t ++ sid :: drop (Z.to_nat (j + 1)) t).
Proof.
  intros [H1 H2 H3] Hj Hs Hn Hl. pose proof edit_old as (Hk & _). assert (length (take (Z.to_nat j) t) = Z.to_nat j) as Ht by (rewrite length_take; unfold len in *; lia).
  assert (forall i x, (take (Z.to_nat j) t ++ sid :: drop (Z.to_nat (j + 1)) t) !! i = Some x ->
    (Z.of_nat i < j /\ t !! i = Some x) \/ (Z.of_nat i = j /\ x = sid) \/ (j < Z.of_nat i /\ t !! i = Some x)) as Hlk.
  { intros i x Hi. destruct (decide (Z.of_nat i < j)) as [|Hge].
    - left. split; [done|]. rewrite lookup_app_l in Hi by lia. by rewrite lookup_take_lt in Hi by lia.
    - right. rewrite lookup_app_r in Hi by lia. rewrite Ht in Hi. rewrite lookup_cons in Hi. destruct (i - Z.to_nat j)%nat as [|m] eqn:Em.
      + left. split; [lia|congruence].
      + right. split; [lia|]. rewrite lookup_drop in Hi. replace i with (Z.to_nat (j + 1) + m)%nat by lia. done. }
  split.
  - rewrite len_app, len_cons. unfold len in *. rewrite Ht, length_drop. lia.
  - intros i x Hi Hij. destruct (Hlk i x Hi) as [[H4 H5]|[[H4 ->]|[H4 H5]]]; [by apply H2| |lia]. rewrite H4. split; [done|by right].
  - intros i x Hi Hij. destruct (Hlk i x Hi) as [[H4 H5]|[[H4 ->]|[H4 H5]]]; [lia|lia|]. apply H3; [done|lia].
Qed.
Notation new_k := ((nt + sl - 1) / sl).

Lemma new_count : k <= new_k <= 8192 /\ new_k <= g_seg_max s0 /\ new_k * sl - sl < nt <= new_k * sl.
Proof.
  destruct edit_geo as (Hsl & Hsm & Hreach & _). destruct edit_old as (Hk & _ & Hspan & _).
  destruct (chunk_count sl nt ltac:(lia) ltac:(lia)) as [H1 H2]. split_and!; nia.
Qed.

Lemma pwrite_loop_spec n m s j t :
  wrote_segs m s0 s -> table_at s j t -> 0 <= j -> j + Z.of_nat n = new_k -> lroom s (8 * Z.of_nat n) ->
  wp (Large.pwrite_loop cfg n g id h k off b nt j t) s (fun r s' => wrote_segs (m + 8 * Z.of_nat n) s0 s' /\
    match r with
    | Ok t' => table_at s' new_k t'
    | Err e => e = ENOSPC /\ crowded cfg g (lp_db s')
    end).
Proof.
  revert m s j t. induction n as [|n IH]; intros m s j t W Ht Hj Hn Hr; cbn [Large.pwrite_loop].
  { apply wp_ret. replace (m + 8 * Z.of_nat 0) with m by lia. split; [done|]. by replace new_k with j by lia. }
  destruct (edit_here m s W) as (Ls & Hv & Hres & Ea & El & Em & E). destruct edit_geo as (Hsl & Hsm & Hreach & Hp).
  destruct edit_old as (Hk & Hlk & Hspan & Hv0). destruct new_count as (Hnk & Hns & Hnsp). pose proof len_new as Hln.
  assert (j * sl < nt) as Hcs by nia.
  assert (ih_seg_len h = sl) as Eh by (rewrite (sg_len _ _ _ _ _ _ _ _ _ Hv); done).
  rewrite Eh, (sg_total _ _ _ _ _ _ _ _ _ Hv). cbv zeta. fold (touches j).
  set (fresh := j >=? k). set (old_clen := if fresh then 0 else Z.min (j * sl + sl) (len v) - j * sl).
  destruct (negb (touches j) && negb fresh && negb (negb fresh && negb (old_clen =? Z.min (j * sl + sl) nt - j * sl))) eqn:Eskip.
  - eapply wp_mono; [apply (IH m s (j + 1) t W)|]; [|lia|lia|destruct Hr; split; lia|].
    2: { cbv beta. intros r s' [W' Hq]. split; [|done]. destruct W'. split; try done. eapply moves_le; [|done]. lia. }
    apply andb_true_iff in Eskip as [[H1%negb_true_iff H2]%andb_true_iff H3]. rewrite H2 in H3. cbn [andb] in H3.
    unfold fresh in *. destruct (Z.geb_spec j k); [done|]. rewrite negb_involutive in H3. unfold old_clen in H3. apply Z.eqb_eq in H3.
    eapply table_keep; try done; lia.
  - apply wp_bnd. eapply wp_mono; [apply (pwrite_chunk_spec m s j W Hj Hcs)|]. cbv beta. intros r s1 [Hs1 ->].
    pose proof (seen_kept cfg g sidx_wf _ _ (ls_session _ _ _ _ _ Ls) Hs1) as K1. pose proof (wrote_segs_kept cfg MAX_OBJECT_LEN g sidx_wf _ _ _ Ls K1) as W1.
    pose proof (wrote_segs_trans cfg MAX_OBJECT_LEN g sidx_wf _ _ _ _ _ W W1) as W01. pose proof (table_frame _ _ _ _ _ Ls W1 Ht) as Ht1.
    rewrite u16_small by lia. apply wp_bnd. eapply wp_mono.
    { apply (seg_write_chunk_spec cfg MAX_OBJECT_LEN g Hg Ha sidx_wf Hlarge s1 id j (slice (j * sl) sl v')).
      - apply W1.
      - eapply (kept_room cfg g sidx_wf); [exact K1|]. destruct Hr; split; lia.
      - destruct (slots_known cfg g Hg sidx_wf _ _ _ _ (se_inv cfg g sidx_wf s0 (ls_session _ _ _ _ _ Ls0)) E0). lia.
      - lia.
      - by apply bytes_ok_slice, bytes_ok_patched.
      - rewrite len_slice_le by nia. lia. }
    cbv beta. intros r s2 [W2 Hq]. pose proof (wrote_segs_trans cfg MAX_OBJECT_LEN g sidx_wf _ _ _ _ _ W01 W2) as W02.
    destruct r as [sid|e]. 2: { split; [|done]. destruct W02. split; try done. eapply moves_le; [|done]. lia. }
    destruct Hq as [Hsid Hsg]. pose proof (table_frame _ _ _ _ _ (ws_session _ _ _ _ _ _ _ W1) W2 Ht1) as Ht2.
    pose proof (mv_next _ _ _ _ (ws_moves _ _ _ _ _ _ _ W01)). pose proof (mv_next _ _ _ _ (ws_moves _ _ _ _ _ _ _ W2)).
    eapply wp_mono; [apply (IH _ s2 (j + 1) _ W02)|]; [|lia|lia| |].
    + apply table_put; [done|done|done|lia|]. rewrite (ta_len _ _ _ Ht2). lia.
    + pose proof (ws_moves _ _ _ _ _ _ _ (wrote_segs_trans cfg MAX_OBJECT_LEN g sidx_wf _ _ _ _ _ W1 W2)) as M.
      eapply moves_room; [exact M|]. destruct Hr; split; lia.
    + cbv beta. intros r s' [W' Hq]. split; [|done]. destruct W'. split; try done. eapply moves_le; [|done]. lia.
Qed.
End edit.

Lemma replaced_spec old new x : x ∈ Large.replaced old new -> exists j, old !! j = Some x /\ new !! j <> Some x.
Proof.
  revert x new. induction old as [|a old IH]; intros x new Hx; [by apply elem_of_nil in Hx|]. destruct new as [|c new]; cbn [Large.replaced] in Hx.
  - apply list_elem_of_lookup in Hx as [j Hj]. exists j. split; [done|]. by rewrite lookup_nil.
  - assert (forall y, y ∈ Large.replaced old new -> exists j, (a :: old) !! j = Some y /\ (c :: new) !! j <> Some y) as Hgo.
    { intros y Hy. destruct (IH y new Hy) as (j & ? & ?). by exists (Datatypes.S j). }
    destruct (Z.eqb_spec a c) as [->|Hne]; [by apply Hgo|]. apply elem_of_cons in Hx as [->|Hx]; [|by apply Hgo].
    exists 0%nat. split; [done|]. intros [= ?]. congruence.
Qed.

Lemma object_bytes s id v : lsession s -> object (lp_db s) id = Some v -> bytes_ok v.
Proof.
  intros Ls. unfold SegBase.object. pose proof (se_inv cfg g sidx_wf s (ls_session _ _ _ _ _ Ls)) as Hi.
  destruct (slots (lp_db s) id) as [[fl p]|] eqn:E; [|done]. destruct (slots_known cfg g Hg sidx_wf _ _ _ _ Hi E) as (_ & _ & Hb & _).
  destruct (is_seg fl); [done|]. destruct (is_idx fl); intros [= <-]; [|done].
  induction (ids_of p) as [|x l IH]; [constructor|]. rewrite fmap_cons. cbn [concat]. apply bytes_ok_app. split; [|done]. unfold chunk_at.
  destruct (slots (lp_db s) x) as [[fl' q]|] eqn:Ex; [|constructor]. destruct (slots_known cfg g Hg sidx_wf _ _ _ _ Hi Ex) as (_ & _ & Hq & _).
  unfold zd. by apply Forall_drop.
Qed.

(** The positioned write of an object that is segmented. *)
Lemma pwrite_spec s id fl p v off b :
  lsession s -> slots (lp_db s) id = Some (fl, p) -> is_idx fl = true -> object (lp_db s) id = Some v ->
  0 <= off -> 1 <= len b -> off + len b < 2 ^ 32 -> bytes_ok b -> lroom s 65538 ->
  wp (Large.pwrite_segmented cfg MAX_OBJECT_LEN g id off b) s (fun r s' =>
    if Z.max (off + len b) (len v) <=? MAX_OBJECT_LEN
    then (r = Ok tt /\ sets 65538 s s' id (Some (patched off b v))) \/ (r = Err ENOSPC /\ steady 65538 s s' /\ starved cfg g (lp_db s') id)
    else r = Err EFBIG /\ steady 65538 s s').
Proof.
  intros Ls E Hix Hob Ho Hb1 Hsmall Hbb Hr. unfold Large.pwrite_segmented.
  eapply (load_indexed cfg MAX_OBJECT_LEN g Hg sidx_wf); [done|exact E|done|]. intros s1 Hl Hres.
  pose proof (lk_session _ _ _ _ _ _ Hl) as Ls1. rewrite <- (looked_slots cfg MAX_OBJECT_LEN g sidx_wf _ _ id Hl) in E.
  rewrite <- (looked_object cfg MAX_OBJECT_LEN g sidx_wf _ _ id Hl) in Hob. pose proof (looked_steady cfg MAX_OBJECT_LEN g sidx_wf _ _ Hl) as St1.
  destruct (edit_old s1 id fl off p v b Ls1 E Hix Hob) as (Hk & Hlk & Hspan & Hv0).
  destruct (index_object cfg MAX_OBJECT_LEN g Hg sidx_wf s1 id fl p Ls1 E Hix) as (Hs & Hpb & _ & w & Hv & Ew & _). rewrite Hob in Ew. injection Ew as <-.
  rewrite (sg_total _ _ _ _ _ _ _ _ _ Hv), (sg_len _ _ _ _ _ _ _ _ _ Hv). rewrite (u32_small (off + len b)) by lia. rewrite Z.max_comm.
  set (nt := Z.max (off + len b) (len v)) in *. apply wp_bnd, wp_gets. cbv beta zeta.
  destruct (Z.gtb_spec nt MAX_OBJECT_LEN) as [Hbig|Hnt].
  { destruct (Z.leb_spec nt MAX_OBJECT_LEN); [lia|]. apply wp_fail. split; [done|]. eapply (steady_le cfg MAX_OBJECT_LEN g sidx_wf); [|exact St1]. lia. }
  destruct (Z.leb_spec nt MAX_OBJECT_LEN); [|lia]. pose proof (object_bytes s1 id v Ls1 Hob) as Hvb.
  destruct (edit_geo s1 off v b Ls1 Hnt) as (Hsl & Hsm & Hreach & Hp).
  destruct (new_count s1 id fl off p v b Ls1 E Hix Hob Ho Hb1 Hnt) as (Hnk & Hns & Hnsp). fold nt in Hnk, Hns, Hnsp, Hreach.
  set (sl := g_seg_len s1) in *. rewrite u32_small by nia. set (nk := (nt + sl - 1) / sl) in *.
  destruct (Z.gtb_spec nk (g_seg_max s1)); [lia|]. destruct (Z.gtb_spec sl (MAX_PAYLOAD_LEN cfg)); [lia|].
  pose proof (ls_fresh _ _ _ _ _ Ls1 id ltac:(congruence)) as Hn.
  destruct (slots_known cfg g Hg sidx_wf _ _ _ _ (se_inv cfg g sidx_wf s1 (ls_session _ _ _ _ _ Ls1)) E) as (Hid & _).
  apply wp_bnd. eapply wp_mono.
  { apply (owner_spec cfg g Hg sidx_wf s1 id); [apply Ls1| |lia]. eapply (steady_room cfg MAX_OBJECT_LEN g sidx_wf); [exact St1|]. destruct Hr; split; lia. }
  cbv beta. intros r s2 [-> K2]. pose proof (wrote_segs_kept cfg MAX_OBJECT_LEN g sidx_wf _ _ _ Ls1 K2) as W2.
  apply wp_bnd, wp_gets. cbv beta.
  assert (take (Z.to_nat (ih_seg_count (dec_index_hdr p))) (g_seg_a s2) = ids_of p) as -> by (rewrite (kp_fields _ _ _ _ _ _ K2); done).
  apply wp_bnd. eapply wp_mono.
  { apply (pwrite_loop_spec s1 id fl off p v b Ls1 E Hix Hob Hres Ho Hb1 Hbb Hvb Hnt (Z.to_nat nk) 1 s2 0 (ids_of p) W2); fold nt; fold sl; fold nk; [|lia|lia|].
    - eapply table_frame; [exact Ls1|exact W2|]. by eapply table_start.
    - eapply (kept_room cfg g sidx_wf); [exact K2|]. pose proof (steady_room cfg MAX_OBJECT_LEN g sidx_wf 0 65538 _ _ St1 Hr) as [? ?]. split; lia. }
  cbv beta. fold nt. fold sl. fold nk. rewrite Z2Nat.id by lia. intros r s3 [W3 Hq]. pose proof (wrote_steady cfg MAX_OBJECT_LEN g sidx_wf _ _ _ W3) as St3.
  pose proof (steady_trans cfg MAX_OBJECT_LEN g sidx_wf _ _ _ _ _ St1 St3) as St13.
  destruct r as [t|e].
  2: { destruct Hq as [-> Hq]. right. split; [done|]. split; [eapply (steady_le cfg MAX_OBJECT_LEN g sidx_wf); [|exact St13]; lia|by left]. }
  destruct (edit_here s1 id fl p v Ls1 E Hix Hob Hres _ s3 W3) as (Ls3 & Hv3 & Hres3 & Ea3 & El3 & Em3 & E3). fold sl in El3.
  assert (len t = nk) as Hlt by (rewrite (ta_len _ _ _ _ _ _ _ _ _ Hq); lia). pose proof (sy_next _ _ _ _ _ _ _ St3) as Hnx.
  pose proof (len_new off v b Ho) as Hln. fold nt in Hln.
  assert (nt < 2 ^ 32) by nia. rewrite u32_small, u16_small by lia.
  eapply wp_mono; [apply (commit_then_release cfg MAX_OBJECT_LEN g Hg Ha sidx_wf Hlarge s3 id _ t (patched off b v) (fun old => Large.replaced old t) _ 0)|]; try done.
  - unfold SegBase.internal. by rewrite E3.
  - lia.
  - split; cbn [ih_magic ih_version ih_total_len ih_seg_len ih_seg_count]; rewrite ?El3, ?Em3, ?Hln; try done; try lia.
    + unfold index_hdr_wf. cbn. split_and!; try done; lia.
    + apply list.Forall_forall. intros x Hx. apply list_elem_of_lookup in Hx as [i Hi']. assert (i < length t)%nat by (by eapply lookup_lt_Some).
      destruct (ta_done _ _ _ _ _ _ _ _ _ Hq i x Hi') as [(fl' & q & Ex & _) _]; [unfold len in Hlt; lia|].
      destruct (slots_known cfg g Hg sidx_wf _ _ _ _ (se_inv cfg g sidx_wf s3 (ls_session _ _ _ _ _ Ls3)) Ex). lia.
    + intros j sid Hj. assert (j < length t)%nat by (by eapply lookup_lt_Some). apply (ta_done _ _ _ _ _ _ _ _ _ Hq j sid Hj). unfold len in Hlt. lia.
  - right. by exists fl, p.
  - intros fl' p' E' _ x Hx. rewrite E3 in E'. injection E' as <- <-. destruct (replaced_spec _ _ _ Hx) as (j & Hj & Hne).
    split; [by eapply list_elem_of_lookup_2|]. intros Hin. apply list_elem_of_lookup in Hin as [i Hi'].
    assert (i < length t)%nat by (by eapply lookup_lt_Some). pose proof (sg_segs _ _ _ _ _ _ _ _ _ Hv j x Hj) as (flx & q & Ex & _ & _ & _ & Hsq & _).
    destruct (ta_done _ _ _ _ _ _ _ _ _ Hq i x Hi') as [_ [Hio|Hnw]]; [unfold len in Hlt; lia| |].
    + destruct (sg_segs _ _ _ _ _ _ _ _ _ Hv i x Hio) as (flx' & q' & Ex' & _ & _ & _ & Hsq' & _). rewrite Ex in Ex'. injection Ex' as <- <-.
      assert (i = j) as -> by lia. congruence.
    + pose proof (ls_fresh _ _ _ _ _ Ls1 x ltac:(congruence)). lia.
  - eapply (steady_room cfg MAX_OBJECT_LEN g sidx_wf); [exact St13|]. destruct Hr; split; lia.
  - cbv beta. intros r s4 [[-> Hst]|(-> & St4 & Hno)].
    + left. split; [done|]. eapply sets_le; [|by eapply steady_sets; [exact St13|exact Hst]]. lia.
    + right. split; [done|]. split; [|by right]. eapply (steady_le cfg MAX_OBJECT_LEN g sidx_wf); [|by eapply (steady_trans cfg MAX_OBJECT_LEN g sidx_wf)]. lia.
Qed.
End patch.
