(* ===== verification/SegOps.v ===== *)
(** Update, delete and positioned write of a store with large payloads, on a
    device that works: the object becomes what the caller asked for and every
    other one is as it was, or the call says what is wrong and none changed. *)

From S2P Require Import Prelude Layout Store SlotIndexIface Image Core CoreRead Lookup Append Bucket Compact.
From S2P Require Import CompactImage Recovery CompactSpec Ops OpsRead OpsWrite Master Mount MasterSpec MasterInv.
From S2P Require Import MountSpec Session Segments SegBase SegIo SegRead SegSweep SegWrite SegPatch.

Section ops.
Context (cfg : config) (MAX_OBJECT_LEN : Z) (g : geom) `{Crc}.
Context {S I : Type} `{!Store S} `{!StoreView S} `{!SlotIndex I}.
Context (Hg : geom_ok cfg g) (Ha : geom_aligned g) {SL : StoreLaws S (store_geom_of g)} {CL : CrcLaws _}.
Context (sidx_wf : Z -> I -> Prop) {IL : SlotIndexLaws I sidx_wf}.
Context (Hlarge : LARGE_PAYLOADS cfg = true).
Notation db := (db S I).
Notation lp := (lp S I).
Notation slots := (slots cfg g).
Notation session := (session cfg g sidx_wf).
Notation lsession := (lsession cfg MAX_OBJECT_LEN g sidx_wf).
Notation kept := (kept cfg g sidx_wf).
Notation seen := (seen cfg g sidx_wf).
Notation object := (object cfg g).
Notation internal := (internal cfg g).
Notation segmented := (segmented cfg MAX_OBJECT_LEN g).
Notation seg_of := (seg_of cfg g).
Notation looked := (looked cfg MAX_OBJECT_LEN g sidx_wf).
Notation buried := (buried cfg MAX_OBJECT_LEN g sidx_wf).
Notation wrote_segs := (wrote_segs cfg MAX_OBJECT_LEN g sidx_wf).
Notation releasable := (releasable cfg g).
Notation moves := (moves g).
Notation steady := (steady cfg MAX_OBJECT_LEN g sidx_wf).
Notation upd := (upd cfg g sidx_wf).
Notation no_room := (no_room cfg g).
Notation cursor_of := (cursor_of cfg g).
Notation valid d id := (bucket_hdr_valid (bimg d (id mod n_buckets g)) (id mod n_buckets g) = true).
Notation sets := (sets cfg MAX_OBJECT_LEN g sidx_wf).
Notation old_gen := (old_gen cfg g).
Notation starved := (starved cfg g).
Notation bucket_of id := (id mod n_buckets g).
Implicit Types (d : db) (s : lp).

Lemma on_if {A} (c : bool) (m m' : M db A) s Q : wp (if c then Large.on_db m else Large.on_db m') s Q -> wp (Large.on_db (if c then m else m')) s Q.
Proof. by destruct c. Qed.

Lemma on_fail {A} e s (Q : res A -> lp -> Prop) : Q (Err e) s -> wp (Large.on_db (mfail e)) s Q.
Proof. unfold wp, Large.on_db. by destruct s. Qed.

(** ** Finding the place of a slot *)

Lemma placed_or_not s id n : session (lp_db s) -> valid (lp_db s) id ->
  cursor_of (lp_db s) (bucket_of id) = compact_len cfg g (bimg (lp_db s) (bucket_of id)) ->
  peb_size g < cursor_of (lp_db s) (bucket_of id) + slot_size_for g n -> no_room (lp_db s) id n.
Proof. intros Se Hv Hc Hn. split; [done|]. by apply full_of_cursor. Qed.

(** The cursor of a bucket after its compaction, as [update_impl()] takes it. *)
Lemma recursor_spec s id n :
  session (lp_db s) -> 0 < id < 2 ^ 64 -> valid (lp_db s) id ->
  wp (Large.on_db (mbnd (compact_bucket cfg g (bucket_of id)) (fun _ => mbnd (bucket_cursor cfg g (bucket_of id) id) (fun sc =>
    mbnd (confirm_cursor cfg g (bucket_of id) id sc) (fun wc => if wc + slot_size_for g n >? peb_size g then mfail ENOSPC else mret wc))))) s (fun r s' =>
    kept 0 s s' /\ ((r = Ok (cursor_of (lp_db s') (bucket_of id)) /\ cursor_of (lp_db s') (bucket_of id) + slot_size_for g n <= peb_size g) \/
      (r = Err ENOSPC /\ no_room (lp_db s') id n))).
Proof.
  intros Se Hid Hv. pose proof (bucket_range cfg g Hg id) as Hb. apply on_bnd, wp_bnd. eapply wp_mono; [by apply (on_compact cfg g Hg Ha sidx_wf)|].
  cbv beta zeta. intros r s1 (K1 & Hr). pose proof (kp_session _ _ _ _ _ _ K1) as Se1. pose proof (kp_valid _ _ _ _ _ _ K1 _ Hb Hv) as Hv1.
  destruct Hr as [[-> Hcl]|[-> Hcl]]. 2: { split; [done|]. right. split; [done|]. split; [done|by left]. }
  apply on_bnd, wp_bnd. eapply (on_reads cfg g sidx_wf) with (Q := scan_of cfg g (bimg (lp_db s1) (bucket_of id))); [done|by apply (bucket_cursor_spec cfg g Hg sidx_wf)|].
  intros sc s2 Hs2 Hsc. pose proof (seen_session cfg g sidx_wf _ _ Se1 Hs2) as Se2. pose proof (seen_bimg cfg g sidx_wf _ _ (bucket_of id) Hs2) as Eb.
  apply on_bnd, wp_bnd. apply (on_confirm cfg g Hg sidx_wf); [done|by rewrite Eb|by rewrite Eb|]. intros s3 Hs3.
  pose proof (seen_bimg cfg g sidx_wf _ _ (bucket_of id) Hs3) as Eb3.
  pose proof (kept_then cfg g sidx_wf 0 0 _ _ _ K1 (seen_kept cfg g sidx_wf _ _ Se1 (seen_trans cfg g sidx_wf _ _ _ Hs2 Hs3))) as K. cbn [Z.add] in K.
  assert (cursor_of (lp_db s3) (bucket_of id) = cursor_of (lp_db s2) (bucket_of id)) as Ec by (unfold SegBase.cursor_of; by rewrite Eb3).
  apply on_if. destruct (Z.gtb_spec (cursor_of (lp_db s2) (bucket_of id) + slot_size_for g n) (peb_size g)).
  - apply on_fail. split; [done|]. right. split; [done|]. apply placed_or_not; [apply K|by rewrite Eb3, Eb| |lia].
    rewrite Ec. unfold SegBase.cursor_of in *. rewrite Eb3, Eb. exact Hcl.
  - apply on_ret. split; [done|]. left. rewrite Ec. done.
Qed.

(** The same for an object that is found again, as delete and write do. *)
Lemma relocate_spec {X} s id n sc fl p (f : bucket_scan * res bytes -> bytes -> Z -> X) (y : Z -> X) :
  session (lp_db s) -> 0 < id < 2 ^ 64 -> valid (lp_db s) id -> slots (lp_db s) id = Some (fl, p) -> scan_of cfg g (bimg (lp_db s) (bucket_of id)) sc ->
  (forall r c, sh_flags (head_hdr (target (fst r))) = fl -> f r p c = y c) ->
  wp (Large.on_db (mbnd (confirm_cursor cfg g (bucket_of id) id sc) (fun wc => if wc + slot_size_for g n >? peb_size g
    then mbnd (compact_bucket cfg g (bucket_of id)) (fun _ => mbnd (find_live_slot cfg g (bucket_of id) id) (fun r => mbnd (mlift (snd r)) (fun dst =>
      mbnd (confirm_cursor cfg g (bucket_of id) id (fst r)) (fun wc => if wc + slot_size_for g n >? peb_size g then mfail ENOSPC else mret (f r dst wc)))))
    else mret (y wc)))) s (fun r s' => kept 0 s s' /\
    ((r = Ok (y (cursor_of (lp_db s') (bucket_of id))) /\ cursor_of (lp_db s') (bucket_of id) + slot_size_for g n <= peb_size g) \/
      (r = Err ENOSPC /\ no_room (lp_db s') id n))).
Proof.
  intros Se Hid Hv E Hsc Hf. pose proof (bucket_range cfg g Hg id) as Hb. apply on_bnd, wp_bnd.
  apply (on_confirm cfg g Hg sidx_wf); [done|done|done|]. intros s1 Hs1. pose proof (seen_kept cfg g sidx_wf _ _ Se Hs1) as K1.
  pose proof (kp_session _ _ _ _ _ _ K1) as Se1. pose proof (seen_bimg cfg g sidx_wf _ _ (bucket_of id) Hs1) as Eb1.
  apply on_if. destruct (Z.gtb_spec (cursor_of (lp_db s) (bucket_of id) + slot_size_for g n) (peb_size g)).
  2: { apply on_ret. split; [done|]. left. assert (cursor_of (lp_db s1) (bucket_of id) = cursor_of (lp_db s) (bucket_of id)) as ->; [|done].
       unfold SegBase.cursor_of. by rewrite Eb1. }
  rewrite <- Eb1 in Hv. apply on_bnd, wp_bnd. eapply wp_mono; [by apply (on_compact cfg g Hg Ha sidx_wf)|].
  cbv beta zeta. intros r s2 (K2 & Hr). pose proof (kept_then cfg g sidx_wf 0 0 _ _ _ K1 K2) as K12. cbn [Z.add] in K12.
  pose proof (kp_session _ _ _ _ _ _ K2) as Se2. pose proof (kp_valid _ _ _ _ _ _ K2 _ Hb Hv) as Hv2.
  destruct Hr as [[-> Hcl]|[-> Hcl]]. 2: { split; [done|]. right. split; [done|]. split; [done|by left]. }
  apply on_bnd, wp_bnd. apply (on_find cfg g Hg sidx_wf); [done|done|done|]. intros x s3 Hs3 (Hrc & Hsc3 & Hx).
  rewrite (kp_slots _ _ _ _ _ _ K12), E in Hrc, Hx. rewrite Hrc. destruct (Hx fl p eq_refl) as (Hfl & _).
  pose proof (seen_session cfg g sidx_wf _ _ Se2 Hs3) as Se3. pose proof (seen_bimg cfg g sidx_wf _ _ (bucket_of id) Hs3) as Eb3.
  apply on_bnd, wp_bnd. apply on_ret. apply on_bnd, wp_bnd. apply (on_confirm cfg g Hg sidx_wf); [done|by rewrite Eb3|by rewrite Eb3|]. intros s4 Hs4.
  pose proof (seen_bimg cfg g sidx_wf _ _ (bucket_of id) Hs4) as Eb4.
  pose proof (kept_then cfg g sidx_wf 0 0 _ _ _ K12 (seen_kept cfg g sidx_wf _ _ Se2 (seen_trans cfg g sidx_wf _ _ _ Hs3 Hs4))) as K. cbn [Z.add] in K.
  assert (cursor_of (lp_db s4) (bucket_of id) = cursor_of (lp_db s3) (bucket_of id)) as Ec by (unfold SegBase.cursor_of; by rewrite Eb4).
  apply on_if. destruct (Z.gtb_spec (cursor_of (lp_db s3) (bucket_of id) + slot_size_for g n) (peb_size g)).
  - apply on_fail. split; [done|]. right. split; [done|]. apply placed_or_not; [apply K|by rewrite Eb4, Eb3| |lia].
    rewrite Ec. unfold SegBase.cursor_of in *. rewrite Eb4, Eb3. exact Hcl.
  - apply on_ret. split; [done|]. left. rewrite Hf, Ec by done. done.
Qed.

(** Releasing what the slot replaced. *)
Lemma release_old_spec s s' id v old_k :
  lsession s -> lsession s' -> upd s s' id v -> old_gen s id old_k -> (forall fl p, v = Some (fl, p) -> is_idx fl = false) -> lroom s' 1 ->
  wp (Large.release_old cfg g old_k) s' (fun r s2 => r = Ok tt /\ steady 1 s' s2).
Proof.
  intros Ls Ls' Hu Hold Hv Hr. unfold Large.release_old. destruct (Z.gtb_spec old_k 0) as [Hpos|].
  - apply wp_bnd, wp_gets. cbv beta. destruct Hold as [->|(fl & p & E & Hix & -> & Hres)]; [lia|].
    apply (release_then_clear cfg MAX_OBJECT_LEN g Hg Ha sidx_wf Hlarge); [done| |done].
    assert (g_seg_a s' = g_seg_a s) as -> by (by rewrite (up_fields _ _ _ _ _ _ _ Hu)). rewrite Hres.
    eapply (old_releasable cfg MAX_OBJECT_LEN g Hg sidx_wf Hlarge s s' id v fl p); try done. intros x Hx. split; [done|].
    intros fl' p' E' Hi'. by rewrite (Hv fl' p' E') in Hi'.
  - apply wp_ret. split; [done|]. eapply (steady_le cfg MAX_OBJECT_LEN g sidx_wf); [|apply kept_steady, (kept_here cfg g sidx_wf), Ls'; done]. lia.
Qed.

(** The append of a plain slot or a tombstone, and the release that follows. *)
Lemma append_then_release s id fl p w old_k :
  lsession s -> 0 < id < 2 ^ 64 -> valid (lp_db s) id -> internal (lp_db s) id = false -> id < next_id (d_st (lp_db s)) ->
  flags_ok cfg fl -> bytes_ok p -> len p <= MAX_PAYLOAD_LEN cfg -> cursor_of (lp_db s) (bucket_of id) + slot_size_for g (len p) <= peb_size g ->
  (forall fl' q, slot_value fl p = Some (fl', q) -> is_seg fl' = false /\ is_idx fl' = false) -> w = snd <$> slot_value fl p ->
  (id = BLOB_DB_ROOT_ID -> w <> None) -> old_gen s id old_k -> lroom s 1 ->
  wp (mbnd (Large.seg_append cfg g (bucket_of id) (cursor_of (lp_db s) (bucket_of id)) id fl [] p) (fun _ => Large.release_old cfg g old_k)) s (fun r s' =>
    r = Ok tt /\ sets 1 s s' id w).
Proof.
  intros Ls Hid Hv Hi Hn Hfl Hb Hl Hfit Hpl Hw Hrt Hold Hr. apply wp_bnd.
  eapply wp_mono; [apply (commit_append cfg MAX_OBJECT_LEN g Hg Ha sidx_wf s id fl [] p w); try done|].
  - cbn [app]. subst w. destruct (slot_value fl p) as [[fl' q]|] eqn:E; [|done]. destruct (Hpl fl' q eq_refl) as [E1 E2]. cbn. by rewrite E1, E2.
  - cbv beta. cbn [app]. intros r s1 (-> & Hs & Hu). eapply wp_mono.
    { apply (release_old_spec s s1 id (slot_value fl p) old_k); try done; [apply Hs| |].
      - intros fl' q E. by apply (Hpl fl' q).
      - destruct Hr, Hs. split; lia. }
    cbv beta. intros r s2 [-> St]. split; [done|]. change 1 with (0 + 1). by eapply sets_steady.
Qed.

(** Recording the owner first leaves the bucket as it was. *)
Lemma owner_first {A} s id (K : unit -> M lp A) Q :
  lsession s -> 0 < id < 2 ^ 64 -> lroom s 1 ->
  (forall s', kept 1 s s' -> (forall b, 0 <= b -> bimg (lp_db s') b = bimg (lp_db s) b) -> wp (K tt) s' Q) ->
  wp (mbnd (Large.persist_seg_owner cfg g id) K) s Q.
Proof.
  intros Ls Hid Hr HK. apply wp_bnd. eapply wp_mono; [apply (owner_images cfg g Hg sidx_wf s id); [apply Ls|done|lia]|].
  cbv beta. intros r s' (-> & K1 & Hb). by apply HK.
Qed.

Lemma cursor_images s s' bid : bimg (lp_db s') bid = bimg (lp_db s) bid -> cursor_of (lp_db s') bid = cursor_of (lp_db s) bid.
Proof. intros E. unfold SegBase.cursor_of. by rewrite E. Qed.

(** What [append_then_release] needs survives it. *)
Lemma owner_then_append s id fl p w old_k :
  lsession s -> 0 < id < 2 ^ 64 -> valid (lp_db s) id -> internal (lp_db s) id = false -> id < next_id (d_st (lp_db s)) ->
  flags_ok cfg fl -> bytes_ok p -> len p <= MAX_PAYLOAD_LEN cfg -> cursor_of (lp_db s) (bucket_of id) + slot_size_for g (len p) <= peb_size g ->
  (forall fl' q, slot_value fl p = Some (fl', q) -> is_seg fl' = false /\ is_idx fl' = false) -> w = snd <$> slot_value fl p ->
  (id = BLOB_DB_ROOT_ID -> w <> None) -> old_gen s id old_k -> lroom s 2 ->
  wp (mbnd (Large.persist_seg_owner cfg g id) (fun _ => mbnd (Large.seg_append cfg g (bucket_of id) (cursor_of (lp_db s) (bucket_of id)) id fl [] p)
    (fun _ => Large.release_old cfg g old_k))) s (fun r s' => r = Ok tt /\ sets 2 s s' id w).
Proof.
  intros Ls Hid Hv Hi Hn Hfl Hb Hl Hfit Hpl Hw Hrt Hold Hr. pose proof (bucket_range cfg g Hg id) as Hbid.
  apply owner_first; [done|done|destruct Hr; split; lia|]. intros s1 K1 Him. specialize (Him (bucket_of id) ltac:(lia)).
  pose proof (kept_lsession cfg MAX_OBJECT_LEN g sidx_wf _ _ _ Ls K1) as Ls1. rewrite <- (cursor_images _ _ _ Him) in Hfit |- *.
  pose proof (kp_next _ _ _ _ _ _ K1).
  eapply wp_mono; [apply (append_then_release s1 id fl p w old_k); try done|].
  - by rewrite Him.
  - rewrite <- Hi. apply internal_same, K1.
  - lia.
  - eapply (old_gen_kept cfg g); [apply K1| |exact Hold]. by rewrite (kp_fields _ _ _ _ _ _ K1).
  - eapply (kept_room cfg g sidx_wf); [exact K1|]. destruct Hr; split; lia.
  - cbv beta. intros r s2 [-> Hs]. split; [done|]. change 2 with (1 + 1). eapply steady_sets; [by apply kept_steady|done].
Qed.

Lemma plain_value p fl' q : slot_value 0 p = Some (fl', q) -> is_seg fl' = false /\ is_idx fl' = false.
Proof. by intros [= <- <-]. Qed.

Lemma tomb_value fl' q : slot_value BLOB_DB_SLOT_F_TOMBSTONE [] = Some (fl', q) -> is_seg fl' = false /\ is_idx fl' = false.
Proof. done. Qed.

(** ** Update *)

Lemma update_probe_spec s id :
  lsession s -> 0 < id < 2 ^ 64 -> valid (lp_db s) id ->
  wp (Large.update_probe cfg g (bucket_of id) id) s (fun r s' => looked s s' /\
    ((r = Err EINVAL /\ internal (lp_db s') id = true) \/
     (internal (lp_db s') id = false /\ exists k, r = Ok (cursor_of (lp_db s') (bucket_of id), k) /\ old_gen s' id k))).
Proof.
  intros Ls Hid Hv. pose proof (ls_session _ _ _ _ _ Ls) as Se. unfold Large.update_probe. apply wp_bnd.
  apply (on_find cfg g Hg sidx_wf); [done|done|done|]. intros x s1 Hs1 (Hrc & Hsc & Hx). pose proof (seen_session cfg g sidx_wf _ _ Se Hs1) as Se1.
  pose proof (seen_bimg cfg g sidx_wf _ _ (bucket_of id) Hs1) as Eb1. rewrite <- Eb1 in Hv, Hsc. rewrite Hrc.
  pose proof (seen_slots cfg g sidx_wf _ _ id Hs1) as E1. pose proof (seen_looked cfg MAX_OBJECT_LEN g sidx_wf _ _ Ls Hs1) as Lk1.
  destruct (slots (lp_db s) id) as [[fl p]|] eqn:E.
  - destruct (Hx fl p eq_refl) as (Hfl & _). unfold Large.is_segment, Large.is_indexed, Large.flags_of. rewrite Hfl. fold (is_seg fl) (is_idx fl).
    destruct (is_seg fl) eqn:Hs.
    { apply wp_fail. split; [done|]. left. split; [done|]. unfold SegBase.internal. by rewrite E1. }
    apply wp_bnd. apply (on_confirm cfg g Hg sidx_wf); [done|done|done|]. intros s2 Hs2.
    pose proof (seen_looked cfg MAX_OBJECT_LEN g sidx_wf _ _ Ls (seen_trans cfg g sidx_wf _ _ _ Hs1 Hs2)) as Lk2.
    pose proof (seen_bimg cfg g sidx_wf _ _ (bucket_of id) Hs2) as Eb2. pose proof (lk_session _ _ _ _ _ _ Lk2) as Ls2.
    pose proof (looked_slots cfg MAX_OBJECT_LEN g sidx_wf _ _ id Lk2) as E2. rewrite E in E2.
    destruct (is_idx fl) eqn:Hix.
    + apply wp_bnd, wp_try. eapply wp_mono; [by apply (index_load_cached_spec cfg MAX_OBJECT_LEN g Hg sidx_wf)|]. cbv beta.
      intros r s3 [Lk3 Hq]. unfold indexed in Hq. rewrite E2, Hix in Hq. destruct Hq as [-> Hres]. apply wp_ret.
      pose proof (looked_trans cfg MAX_OBJECT_LEN g sidx_wf _ _ _ Lk2 Lk3) as Lk. split; [done|]. right.
      pose proof (looked_slots cfg MAX_OBJECT_LEN g sidx_wf _ _ id Lk) as E3. rewrite E in E3.
      destruct (index_object cfg MAX_OBJECT_LEN g Hg sidx_wf s id fl p Ls E Hix) as (_ & _ & _ & _ & _ & _ & Hc & _).
      split; [unfold SegBase.internal; by rewrite E3|]. exists (ih_seg_count (dec_index_hdr p)). rewrite u16_small by lia. split.
      * do 2 f_equal. symmetry. apply cursor_images. rewrite (roi_bimg _ _ _ (lk_roi _ _ _ _ _ _ Lk3)). done.
      * right. by exists fl, p.
    + apply wp_ret. split; [done|]. right. split; [unfold SegBase.internal; by rewrite E2|]. exists 0. split; [|by left].
      do 2 f_equal. symmetry. by apply cursor_images.
  - apply wp_bnd. apply (on_confirm cfg g Hg sidx_wf); [done|done|done|]. intros s2 Hs2. apply wp_ret.
    pose proof (seen_looked cfg MAX_OBJECT_LEN g sidx_wf _ _ Ls (seen_trans cfg g sidx_wf _ _ _ Hs1 Hs2)) as Lk2. split; [done|]. right.
    pose proof (looked_slots cfg MAX_OBJECT_LEN g sidx_wf _ _ id Lk2) as E2. rewrite E in E2. split; [unfold SegBase.internal; by rewrite E2|].
    exists 0. split; [|by left]. do 2 f_equal. symmetry. apply cursor_images. by apply (seen_bimg cfg g sidx_wf).
Qed.

Lemma update_inline_spec s id p old_k :
  lsession s -> 0 < id < 2 ^ 64 -> valid (lp_db s) id -> internal (lp_db s) id = false -> id < next_id (d_st (lp_db s)) ->
  bytes_ok p -> len p <= MAX_PAYLOAD_LEN cfg -> old_gen s id old_k -> lroom s 2 ->
  wp (Large.update_inline cfg g (bucket_of id) id (cursor_of (lp_db s) (bucket_of id)) p old_k) s (fun r s' =>
    (r = Ok tt /\ sets 2 s s' id (Some p)) \/ (r = Err ENOSPC /\ steady 2 s s' /\ starved (lp_db s') id)).
Proof.
  intros Ls Hid Hv Hi Hn Hb Hl Hold Hr. pose proof (payload_small cfg g Hg). pose proof (len_nonneg p). pose proof (ls_session _ _ _ _ _ Ls) as Se.
  unfold Large.update_inline. rewrite u16_small by lia. cbv zeta. apply wp_bnd.
  assert (forall s1, kept 0 s s1 -> cursor_of (lp_db s1) (bucket_of id) + slot_size_for g (len p) <= peb_size g ->
    wp (mbnd (if old_k >? 0 then Large.persist_seg_owner cfg g id else mret tt) (fun _ =>
      mbnd (Large.seg_append cfg g (bucket_of id) (cursor_of (lp_db s1) (bucket_of id)) id 0 [] p) (fun _ => Large.release_old cfg g old_k))) s1 (fun r s' =>
      (r = Ok tt /\ sets 2 s s' id (Some p)) \/ (r = Err ENOSPC /\ steady 2 s s' /\ starved (lp_db s') id))) as Hgo.
  { intros s1 K1 Hfit. pose proof (kept_lsession cfg MAX_OBJECT_LEN g sidx_wf _ _ _ Ls K1) as Ls1. pose proof (kp_next _ _ _ _ _ _ K1).
    assert (valid (lp_db s1) id) as Hv1 by (apply (kp_valid _ _ _ _ _ _ K1); [by apply bucket_range with cfg|done]).
    assert (internal (lp_db s1) id = false) as Hi1 by (rewrite <- Hi; apply internal_same, K1).
    assert (old_gen s1 id old_k) as Hold1 by (eapply (old_gen_kept cfg g); [apply K1| |exact Hold]; by rewrite (kp_fields _ _ _ _ _ _ K1)).
    assert (lroom s1 2) as Hr1 by (eapply (kept_room cfg g sidx_wf); [exact K1|]; destruct Hr; split; lia).
    destruct (old_k >? 0).
    - eapply wp_mono; [apply (owner_then_append s1 id 0 p (Some p) old_k); try done; [lia|apply flags_ok_plain|apply plain_value]|].
      cbv beta. intros r s2 [-> Hs]. left. split; [done|]. change 2 with (0 + 2). eapply steady_sets; [by apply kept_steady|done].
    - apply wp_bnd, wp_ret. eapply wp_mono; [apply (append_then_release s1 id 0 p (Some p) old_k); try done; [lia|apply flags_ok_plain|apply plain_value|destruct Hr1; split; lia]|].
      cbv beta. intros r s2 [-> Hs]. left. split; [done|]. eapply sets_le; [|eapply steady_sets; [by apply kept_steady|exact Hs]]. lia. }
  destruct (Z.gtb_spec (cursor_of (lp_db s) (bucket_of id) + slot_size_for g (len p)) (peb_size g)).
  - eapply wp_mono; [by apply recursor_spec|]. cbv beta. intros r s1 [K1 [[-> Hfit]|[-> Hno]]]; [by apply Hgo|].
    right. split; [done|]. split; [eapply (steady_le cfg MAX_OBJECT_LEN g sidx_wf); [|by apply kept_steady]; lia|]. right. exists (len p). split; [lia|done].
  - apply wp_ret, Hgo; [by apply (kept_here cfg g sidx_wf)|lia].
Qed.

(** How a write of [w] to [id] ends. *)
Definition written (k : Z) s s' (id : Z) (w : option bytes) (r : res unit) : Prop :=
  (r = Ok tt /\ sets k s s' id w) \/
  (r = Err EINVAL /\ steady k s s' /\ internal (lp_db s') id = true) \/
  (r = Err ENOSPC /\ steady k s s' /\ starved (lp_db s') id).

Lemma steady_written k1 k2 k s s1 s2 id w r : steady k1 s s1 -> k1 + k2 <= k -> written k2 s1 s2 id w r -> written k s s2 id w r.
Proof.
  intros St Hk [[-> Hs]|[(-> & St2 & Hi)|(-> & St2 & Hi)]].
  - left. split; [done|]. eapply sets_le; [|by eapply steady_sets]. done.
  - right; left. split; [done|]. split; [|done]. eapply steady_le; [|by eapply steady_trans]. done.
  - right; right. split; [done|]. split; [|done]. eapply steady_le; [|by eapply steady_trans]. done.
Qed.

Lemma wedged_session s : session (lp_db s) -> wedged (d_st (lp_db s)) = false.
Proof. intros Se. apply (lv_usable _ _ _ _ (se_live _ _ _ _ Se)). Qed.

Lemma enabled_session s : session (lp_db s) -> negb (Z.land (incompat (d_st (lp_db s))) BLOB_DB_FEAT_LARGE_PAYLOADS =? 0) = true.
Proof.
  intros Se. destruct (mi_feats _ _ _ (lv_master _ _ _ _ (se_live _ _ _ _ Se))) as (_ & -> & _).
  unfold BLOB_DB_BUILD_INCOMPAT. by rewrite Hlarge.
Qed.

(** In the bucket of [id], once it is known to be formatted. *)
Lemma update_in_bucket s id p old_k :
  lsession s -> 0 < id < 2 ^ 64 -> valid (lp_db s) id -> internal (lp_db s) id = false -> id < next_id (d_st (lp_db s)) ->
  bytes_ok p -> len p <= MAX_OBJECT_LEN -> old_gen s id old_k -> lroom s 65538 ->
  wp (if len p >? MAX_PAYLOAD_LEN cfg then Large.seg_update cfg MAX_OBJECT_LEN g id p old_k
      else Large.update_inline cfg g (bucket_of id) id (cursor_of (lp_db s) (bucket_of id)) p old_k) s (fun r s' => written 65538 s s' id (Some p) r).
Proof.
  intros Ls Hid Hv Hi Hn Hb Hl Hold Hr. pose proof (payload_small cfg g Hg). destruct (Z.gtb_spec (len p) (MAX_PAYLOAD_LEN cfg)).
  - eapply wp_mono; [apply (seg_update_spec cfg MAX_OBJECT_LEN g Hg Ha sidx_wf Hlarge s id p old_k); try done; lia|]. cbv beta. intros r s' [?|?]; [by left|by right; right].
  - eapply wp_mono; [apply (update_inline_spec s id p old_k); try done; destruct Hr; split; lia|]. cbv beta. intros r s' [[-> Hs]|(-> & St & Hno)].
    + left. split; [done|]. eapply sets_le; [|done]. lia.
    + right; right. split; [done|]. split; [|done]. eapply steady_le; [|done]. lia.
Qed.

Lemma update_impl_large s id p :
  lsession s -> 0 <= id < 2 ^ 64 -> bytes_ok p -> lroom s 65540 ->
  wp (Large.update_impl cfg MAX_OBJECT_LEN g id (Some p)) s (fun r s' =>
    if (id =? 0) || (next_id (d_st (lp_db s)) <=? id) || (MAX_OBJECT_LEN <? len p) then r = Err EINVAL /\ s' = s else written 65540 s s' id (Some p) r).
Proof.
  intros Ls Hid Hb Hr. pose proof (ls_session _ _ _ _ _ Ls) as Se. pose proof (bucket_range cfg g Hg id) as Hbid.
  unfold Large.update_impl. do 3 apply on_get. rewrite (mounted_session cfg g sidx_wf s Se), (wedged_session s Se). cbn [negb].
  rewrite Z.geb_leb. destruct ((id =? 0) || (next_id (d_st (lp_db s)) <=? id)) eqn:Ebad; cbn [orb]; [by apply wp_fail|].
  apply orb_false_iff in Ebad as [Hid0%Z.eqb_neq Hn%Z.leb_gt]. apply on_get. rewrite (enabled_session s Se), andb_false_r, orb_false_r, Z.gtb_ltb.
  destruct (Z.ltb_spec MAX_OBJECT_LEN (len p)); [by apply wp_fail|]. apply wp_bnd.
  eapply wp_mono; [apply (seg_finish_spec cfg MAX_OBJECT_LEN g Hg Ha sidx_wf Hlarge s Ls); destruct Hr; split; lia|]. cbv beta zeta. intros r s1 [-> St1].
  pose proof (sy_session _ _ _ _ _ _ _ St1) as Ls1. pose proof (ls_session _ _ _ _ _ Ls1) as Se1. pose proof (sy_next _ _ _ _ _ _ _ St1).
  rewrite (id_to_bucket_eq cfg g Hg). apply wp_bnd. apply (on_header cfg g Hg sidx_wf); [done|done|]. intros s2 Hs2.
  pose proof (seen_looked cfg MAX_OBJECT_LEN g sidx_wf _ _ Ls1 Hs2) as Lk2. pose proof (looked_steady cfg MAX_OBJECT_LEN g sidx_wf _ _ Lk2) as St2.
  pose proof (lk_session _ _ _ _ _ _ Lk2) as Ls2. pose proof (ls_session _ _ _ _ _ Ls2) as Se2. pose proof (seen_bimg cfg g sidx_wf _ _ (bucket_of id) Hs2) as Eb2.
  pose proof (steady_trans cfg MAX_OBJECT_LEN g sidx_wf _ _ _ _ _ St1 St2) as St12. cbn [Z.add] in St12.
  destruct (bucket_hdr_valid (bimg (lp_db s1) (bucket_of id)) (bucket_of id)) eqn:Hv; cbn [negb]; apply wp_bnd.
  - rewrite <- Eb2 in Hv. eapply wp_mono; [apply (update_probe_spec s2 id Ls2); [lia|done]|]. cbv beta. intros r s3 [Lk3 Hq].
    pose proof (looked_steady cfg MAX_OBJECT_LEN g sidx_wf _ _ Lk3) as St3. pose proof (steady_trans cfg MAX_OBJECT_LEN g sidx_wf _ _ _ _ _ St12 St3) as St. cbn [Z.add] in St.
    destruct Hq as [[-> Hi]|(Hi & k & -> & Hold)]; [right; left; split; [done|]; split; [|done]; eapply steady_le; [|exact St]; lia|]. cbn [fst snd].
    pose proof (sy_next _ _ _ _ _ _ _ St). eapply wp_mono; [apply (update_in_bucket s3 id p k); try done; try lia|].
    + apply Lk3.
    + by rewrite (roi_bimg _ _ _ (lk_roi _ _ _ _ _ _ Lk3)).
    + eapply steady_room; [exact St|]. destruct Hr; split; lia.
    + cbv beta. intros r s4 Hw. eapply steady_written; [exact St| |exact Hw]. lia.
  - rewrite <- Eb2 in Hv. apply wp_bnd. eapply wp_mono; [by apply (on_format cfg g Hg Ha sidx_wf s2 _ Se2 Hbid)|]. cbv beta. intros r s3 (-> & K3 & Hv3 & Hc3).
    apply wp_ret. cbn [fst snd]. pose proof (kept_steady cfg MAX_OBJECT_LEN g sidx_wf _ _ _ Ls2 K3) as St3.
    pose proof (steady_trans cfg MAX_OBJECT_LEN g sidx_wf _ _ _ _ _ St12 St3) as St. cbn [Z.add] in St. rewrite <- Hc3. pose proof (sy_next _ _ _ _ _ _ _ St).
    assert (slots (lp_db s3) id = None) as E3 by (rewrite (kp_slots _ _ _ _ _ _ K3); by apply slots_unformatted).
    eapply wp_mono; [apply (update_in_bucket s3 id p 0); try done; try lia|].
    + apply St.
    + unfold SegBase.internal. by rewrite E3.
    + by left.
    + eapply steady_room; [exact St|]. destruct Hr; split; lia.
    + cbv beta. intros r s4 Hw. eapply steady_written; [exact St| |exact Hw]. lia.
Qed.

(** ** Delete *)

Lemma delete_impl_large s id :
  lsession s -> 0 <= id < 2 ^ 64 -> id <> BLOB_DB_ROOT_ID -> lroom s 65540 ->
  wp (Large.delete_impl cfg g id) s (fun r s' =>
    match object (lp_db s) id with
    | None => steady 65540 s s' /\ (r = Err ENOENT \/ (r = Err EINVAL /\ internal (lp_db s') id = true))
    | Some _ => written 65540 s s' id None r
    end).
Proof.
  intros Ls Hid Hroot Hr. pose proof (ls_session _ _ _ _ _ Ls) as Se. pose proof (bucket_range cfg g Hg id) as Hbid.
  unfold Large.delete_impl. do 2 apply on_get. rewrite (mounted_session cfg g sidx_wf s Se), (wedged_session s Se). cbn [negb].
  destruct (Z.eqb_spec id 0) as [->|Hid0].
  { apply wp_fail. rewrite (object_zero cfg g Hg sidx_wf) by done. split; [|by left]. eapply steady_le; [|by apply kept_steady, (kept_here cfg g sidx_wf)]. lia. }
  apply wp_bnd. eapply wp_mono; [apply (seg_finish_spec cfg MAX_OBJECT_LEN g Hg Ha sidx_wf Hlarge s Ls); destruct Hr; split; lia|]. cbv beta zeta. intros r s1 [-> St1].
  pose proof (sy_session _ _ _ _ _ _ _ St1) as Ls1. pose proof (ls_session _ _ _ _ _ Ls1) as Se1. rewrite <- (sy_objects _ _ _ _ _ _ _ St1 id).
  assert (steady 65540 s s1) as Stk by (eapply steady_le; [|exact St1]; lia).
  rewrite (id_to_bucket_eq cfg g Hg). apply wp_bnd. apply (on_header cfg g Hg sidx_wf); [done|done|]. intros s2 Hs2.
  pose proof (seen_looked cfg MAX_OBJECT_LEN g sidx_wf _ _ Ls1 Hs2) as Lk2. pose proof (looked_steady cfg MAX_OBJECT_LEN g sidx_wf _ _ Lk2) as St2.
  pose proof (lk_session _ _ _ _ _ _ Lk2) as Ls2. pose proof (ls_session _ _ _ _ _ Ls2) as Se2. pose proof (seen_bimg cfg g sidx_wf _ _ (bucket_of id) Hs2) as Eb2.
  destruct (bucket_hdr_valid (bimg (lp_db s1) (bucket_of id)) (bucket_of id)) eqn:Hv; cbn [negb].
  2: { apply wp_fail. rewrite (no_object cfg g s1 id) by (by apply slots_unformatted). split; [|by left].
       eapply steady_le; [|eapply steady_trans; [exact St1|exact St2]]. lia. }
  rewrite <- Eb2 in Hv. apply wp_bnd. apply (on_find cfg g Hg sidx_wf); [done|lia|done|]. intros x s3 Hs3 (Hrc & Hsc & Hx).
  pose proof (seen_looked cfg MAX_OBJECT_LEN g sidx_wf _ _ Ls2 Hs3) as Lk3. pose proof (looked_trans cfg MAX_OBJECT_LEN g sidx_wf _ _ _ Lk2 Lk3) as Lk.
  pose proof (steady_trans cfg MAX_OBJECT_LEN g sidx_wf _ _ _ _ _ St1 (looked_steady cfg MAX_OBJECT_LEN g sidx_wf _ _ Lk)) as St. cbn [Z.add] in St.
  pose proof (lk_session _ _ _ _ _ _ Lk3) as Ls3. pose proof (looked_slots cfg MAX_OBJECT_LEN g sidx_wf _ _ id Lk) as E3.
  rewrite (looked_slots cfg MAX_OBJECT_LEN g sidx_wf _ _ id Lk2) in Hrc, Hx. rewrite Hrc.
  pose proof (seen_bimg cfg g sidx_wf _ _ (bucket_of id) Hs3) as Eb3. apply wp_bnd.
  destruct (slots (lp_db s1) id) as [[fl p]|] eqn:E1.
  2: { apply wp_fail. rewrite (no_object cfg g s1 id) by done. split; [|by left]. eapply steady_le; [|exact St]. lia. }
  destruct (Hx fl p eq_refl) as (Hfl & _). apply wp_ret. unfold Large.is_segment, Large.flags_of at 1. rewrite Hfl. fold (is_seg fl).
  destruct (is_seg fl) eqn:Hs.
  { apply wp_fail. rewrite (segment_object cfg g s1 id fl p) by done. split; [eapply steady_le; [|exact St]; lia|]. right. split; [done|].
    unfold SegBase.internal. by rewrite E3. }
  assert (exists v, object (lp_db s1) id = Some v) as [v ->].
  { unfold SegBase.object. rewrite E1, Hs. destruct (is_idx fl); by eexists. }
  apply wp_bnd. rewrite <- Eb3 in Hv, Hsc. unfold Large.delete_room.
  eapply wp_mono.
  { apply (relocate_spec s3 id 0 (fst x) fl p (fun r _ wc => (wc, Large.is_indexed r)) (fun wc => (wc, Large.is_indexed x))); try done; [apply Ls3|lia|].
    intros r c Hf. unfold Large.is_indexed, Large.flags_of. by rewrite Hf, Hfl. }
  cbv beta. intros r s4 [K4 Hq]. pose proof (kept_steady cfg MAX_OBJECT_LEN g sidx_wf _ _ _ Ls3 K4) as St4.
  pose proof (steady_trans cfg MAX_OBJECT_LEN g sidx_wf _ _ _ _ _ St St4) as St04. cbn [Z.add] in St04. pose proof (payload_small cfg g Hg).
  destruct Hq as [[-> Hfit]|[-> Hno]].
  2: { right; right. split; [done|]. split; [eapply steady_le; [|exact St04]; lia|]. right. exists 0. split; [lia|done]. }
  cbn [fst snd]. unfold Large.is_indexed, Large.flags_of. rewrite Hfl. fold (is_idx fl). pose proof (sy_session _ _ _ _ _ _ _ St4) as Ls4.
  assert (slots (lp_db s4) id = Some (fl, p)) as E4 by (rewrite (kp_slots _ _ _ _ _ _ K4); congruence).
  assert (valid (lp_db s4) id) as Hv4 by (by apply (kp_valid _ _ _ _ _ _ K4)).
  pose proof (ls_fresh _ _ _ _ _ Ls4 id ltac:(congruence)) as Hn4.
  assert (internal (lp_db s4) id = false) as Hi4 by (unfold SegBase.internal; by rewrite E4).
  assert (lroom s4 65539) as Hr4 by (eapply steady_room; [exact St04|]; destruct Hr; split; lia).
  destruct (is_idx fl) eqn:Hix.
  - apply wp_bnd. apply wp_bnd, wp_try. eapply wp_mono; [apply (index_load_cached_spec cfg MAX_OBJECT_LEN g Hg sidx_wf s4 id Ls4); lia|]. cbv beta. intros r s5 [Lk5 Hq].
    unfold indexed in Hq. rewrite E4, Hix in Hq. destruct Hq as [-> Hres]. pose proof (lk_session _ _ _ _ _ _ Lk5) as Ls5.
    pose proof (looked_slots cfg MAX_OBJECT_LEN g sidx_wf _ _ id Lk5) as E5. rewrite E4 in E5. pose proof (looked_steady cfg MAX_OBJECT_LEN g sidx_wf _ _ Lk5) as St5.
    destruct (index_object cfg MAX_OBJECT_LEN g Hg sidx_wf s5 id fl p Ls5 E5 Hix) as (_ & _ & _ & _ & _ & _ & Hc & _). rewrite u16_small by lia.
    pose proof (roi_bimg _ _ (bucket_of id) (lk_roi _ _ _ _ _ _ Lk5)) as Eb5. pose proof (sy_next _ _ _ _ _ _ _ St5).
    apply owner_first; [done|lia|eapply steady_room; [exact St5|]; destruct Hr4; split; lia|]. intros s6 K6 Him. apply wp_ret.
    specialize (Him (bucket_of id) ltac:(lia)). pose proof (kept_lsession cfg MAX_OBJECT_LEN g sidx_wf _ _ _ Ls5 K6) as Ls6. pose proof (kp_next _ _ _ _ _ _ K6).
    pose proof (kept_steady cfg MAX_OBJECT_LEN g sidx_wf _ _ _ Ls5 K6) as St6.
    assert (cursor_of (lp_db s6) (bucket_of id) = cursor_of (lp_db s4) (bucket_of id)) as Ec by (apply cursor_images; by rewrite Him, Eb5).
    rewrite <- Ec in Hfit |- *. assert (slots (lp_db s6) id = Some (fl, p)) as E6 by (by rewrite (kp_slots _ _ _ _ _ _ K6)).
    pose proof (steady_trans cfg MAX_OBJECT_LEN g sidx_wf _ _ _ _ _ (steady_trans cfg MAX_OBJECT_LEN g sidx_wf _ _ _ _ _ St04 St5) St6) as St06. cbn [Z.add] in St06.
    eapply wp_mono; [apply (append_then_release s6 id BLOB_DB_SLOT_F_TOMBSTONE [] None (ih_seg_count (dec_index_hdr p))); try done; try lia|].
    + by rewrite Him, Eb5.
    + unfold SegBase.internal. by rewrite E6.
    + apply flags_ok_tomb.
    + constructor.
    + change (len []) with 0. lia.
    + right. exists fl, p. split_and!; try done. unfold resident. rewrite (kp_fields _ _ _ _ _ _ K6). done.
    + eapply steady_room; [exact St06|]. destruct Hr; split; lia.
    + cbv beta. intros r s7 [-> Hst]. left. split; [done|]. eapply sets_le; [|eapply steady_sets; [exact St06|exact Hst]]. lia.
  - apply wp_bnd, wp_ret.
    eapply wp_mono; [apply (append_then_release s4 id BLOB_DB_SLOT_F_TOMBSTONE [] None 0); try done; try lia|].
    + apply flags_ok_tomb.
    + constructor.
    + change (len []) with 0. lia.
    + by left.
    + destruct Hr4; split; lia.
    + cbv beta. intros r s7 [-> Hst]. left. split; [done|]. eapply sets_le; [|eapply steady_sets; [exact St04|exact Hst]]. lia.
Qed.

(** ** Positioned write *)

(** The inline object [p] becomes [patched off b p]. *)
Lemma write_inline_large s id off b sc fl p :
  lsession s -> valid (lp_db s) id -> slots (lp_db s) id = Some (fl, p) -> is_seg fl = false -> is_idx fl = false ->
  scan_of cfg g (bimg (lp_db s) (bucket_of id)) sc -> sh_val_len (head_hdr (target sc)) = len p ->
  0 <= off -> off + len b < 2 ^ 32 -> bytes_ok b -> Z.max (off + len b) (len p) <= MAX_PAYLOAD_LEN cfg -> lroom s 1 ->
  wp (Large.write_inline cfg g (bucket_of id) id off b sc p) s (fun r s' => written 1 s s' id (Some (patched off b p)) r).
Proof.
  intros Ls Hv E Hs Hix Hsc Hln Ho Hsm Hb Hfit Hr. pose proof (payload_small cfg g Hg). pose proof (len_nonneg b). pose proof (len_nonneg p).
  pose proof (ls_session _ _ _ _ _ Ls) as Se. pose proof (bucket_range cfg g Hg id) as Hbid. pose proof (ls_fresh _ _ _ _ _ Ls id ltac:(congruence)) as Hn.
  destruct (slots_known cfg g Hg sidx_wf _ _ _ _ (se_inv cfg g sidx_wf s Se) E) as (Hid & _ & Hpb & _).
  unfold Large.write_inline. rewrite Hln, u32_small by lia. cbv zeta. set (need := Z.max (off + len b) (len p)) in *.
  destruct (Z.gtb_spec need (MAX_PAYLOAD_LEN cfg)); [lia|]. rewrite u16_small by lia. apply wp_bnd.
  eapply wp_mono; [apply (relocate_spec s id need sc fl p (fun _ dst wc => (wc, dst)) (fun wc => (wc, p))); done|].
  cbv beta. intros r s1 [K1 [[-> Hfit1]|[-> Hno]]].
  2: { right; right. split; [done|]. split; [eapply steady_le; [|by apply kept_steady]; lia|]. right. exists need. split; [lia|done]. }
  cbn [fst snd]. change (staged p b off (len p) need) with (patched off b p).
  destruct (patched_spec off b p Ho) as [Hlp _]. fold need in Hlp. rewrite <- Hlp in Hfit1.
  pose proof (kept_lsession cfg MAX_OBJECT_LEN g sidx_wf _ _ _ Ls K1) as Ls1. pose proof (kp_next _ _ _ _ _ _ K1).
  eapply wp_mono; [apply (commit_append cfg MAX_OBJECT_LEN g Hg Ha sidx_wf s1 id 0 [] (patched off b p) (Some (patched off b p))); cbn [app]; try done; try lia|].
  - by apply (kp_valid _ _ _ _ _ _ K1).
  - unfold SegBase.internal. by rewrite (kp_slots _ _ _ _ _ _ K1), E.
  - apply flags_ok_plain.
  - by apply bytes_ok_patched.
  - cbv beta. intros r s2 (-> & Hst & _). left. split; [done|]. eapply sets_le; [|eapply steady_sets; [by apply kept_steady|exact Hst]]. lia.
Qed.

(** The longest value a positioned write may leave: an inline object is not made
    a segmented one. *)
Definition write_cap s (id : Z) : Z :=
  match slots (lp_db s) id with Some (fl, _) => if is_idx fl then MAX_OBJECT_LEN else MAX_PAYLOAD_LEN cfg | None => 0 end.

(** An object of [n] bytes cannot be made one of [m]. *)
Definition too_big (n m : Z) : Prop := MAX_OBJECT_LEN < m \/ (n <= MAX_PAYLOAD_LEN cfg /\ MAX_PAYLOAD_LEN cfg < m).

(** In the bucket of [id], once its slot is found. *)
Lemma write_found s id off b x fl p v :
  lsession s -> valid (lp_db s) id -> slots (lp_db s) id = Some (fl, p) -> is_seg fl = false -> object (lp_db s) id = Some v ->
  found cfg g (lp_db s) id x -> 0 <= off -> off + len b < 2 ^ 32 -> bytes_ok b -> 1 <= len b -> lroom s 65538 ->
  wp (if Large.is_indexed x then Large.pwrite_segmented cfg MAX_OBJECT_LEN g id off b else Large.write_inline cfg g (bucket_of id) id off b (fst x) p) s (fun r s' =>
    if Z.max (off + len b) (len v) <=? write_cap s id then written 65538 s s' id (Some (patched off b v)) r else r = Err EFBIG /\ steady 65538 s s').
Proof.
  intros Ls Hv E Hs Hob (_ & Hsc & Hx) Ho Hsm Hb Hb1 Hr. rewrite E in Hx. destruct (Hx fl p eq_refl) as (Hfl & Hln & _).
  unfold Large.is_indexed, Large.flags_of, write_cap. rewrite Hfl, E. fold (is_idx fl). destruct (is_idx fl) eqn:Hix.
  - eapply wp_mono; [by apply (pwrite_spec cfg MAX_OBJECT_LEN g Hg Ha sidx_wf Hlarge s id fl p v off b)|]. cbv beta. intros r s' Hq.
    destruct (_ <=? _); [|done]. destruct Hq as [?|?]; [by left|by right; right].
  - rewrite (inline_object cfg g s id fl p) in Hob by done. injection Hob as ->. destruct (Z.leb_spec (Z.max (off + len b) (len v)) (MAX_PAYLOAD_LEN cfg)).
    + eapply wp_mono; [apply (write_inline_large s id off b (fst x) fl v); try done; destruct Hr; split; lia|]. cbv beta. intros r s' Hw.
      eapply (steady_written 0 1); [by apply kept_steady, (kept_here cfg g sidx_wf), Ls|lia|done].
    + unfold Large.write_inline. rewrite Hln, u32_small by (pose proof (len_nonneg b); lia). cbv zeta.
      destruct (Z.gtb_spec (Z.max (off + len b) (len v)) (MAX_PAYLOAD_LEN cfg)); [|lia]. apply wp_fail. split; [done|].
      eapply steady_le; [|by apply kept_steady, (kept_here cfg g sidx_wf), Ls]. lia.
Qed.

Lemma write_impl_large s id off b :
  lsession s -> 0 <= id < 2 ^ 64 -> 0 <= off < 2 ^ 32 -> len b < 2 ^ 32 -> bytes_ok b -> lroom s 65540 ->
  wp (Large.write_impl cfg MAX_OBJECT_LEN g id off (Some b)) s (fun r s' =>
    if id =? 0 then r = Err ENOENT /\ s' = s
    else if 2 ^ 32 <=? off + len b then r = Err EINVAL /\ s' = s
    else match object (lp_db s) id with
    | None => steady 65540 s s' /\ (r = Err ENOENT \/ (r = Err EINVAL /\ internal (lp_db s') id = true))
    | Some v =>
        if len b =? 0 then r = Ok tt /\ steady 65540 s s'
        else written 65540 s s' id (Some (patched off b v)) r \/
             (r = Err EFBIG /\ steady 65540 s s' /\ too_big (len v) (Z.max (off + len b) (len v)))
    end).
Proof.
  intros Ls Hid Ho Hlb Hb Hr. pose proof (ls_session _ _ _ _ _ Ls) as Se. pose proof (bucket_range cfg g Hg id) as Hbid. pose proof (len_nonneg b).
  unfold Large.write_impl. do 2 apply on_get. rewrite (mounted_session cfg g sidx_wf s Se), (wedged_session s Se). cbn [negb].
  destruct (Z.eqb_spec id 0) as [->|Hid0]; [by apply wp_fail|].
  destruct (Z.leb_spec (2 ^ 32) (off + len b)) as [Hof|Hsm].
  { assert (u32 (off + len b) <? off = true) as ->; [|by apply wp_fail]. apply Z.ltb_lt. unfold u32.
    rewrite (Z.mod_eq (off + len b) (2 ^ 32)) by lia. assert ((off + len b) / 2 ^ 32 = 1) as -> by (symmetry; apply (Z.div_unique _ _ _ (off + len b - 2 ^ 32)); lia). lia. }
  rewrite u32_small by lia. destruct (Z.ltb_spec (off + len b) off); [lia|].
  apply wp_bnd. eapply wp_mono; [apply (seg_finish_spec cfg MAX_OBJECT_LEN g Hg Ha sidx_wf Hlarge s Ls); destruct Hr; split; lia|]. cbv beta zeta. intros r s1 [-> St1].
  pose proof (sy_session _ _ _ _ _ _ _ St1) as Ls1. pose proof (ls_session _ _ _ _ _ Ls1) as Se1. rewrite <- (sy_objects _ _ _ _ _ _ _ St1 id).
  rewrite (id_to_bucket_eq cfg g Hg). apply wp_bnd. apply (on_header cfg g Hg sidx_wf); [done|done|]. intros s2 Hs2.
  pose proof (seen_looked cfg MAX_OBJECT_LEN g sidx_wf _ _ Ls1 Hs2) as Lk2. pose proof (looked_steady cfg MAX_OBJECT_LEN g sidx_wf _ _ Lk2) as St2.
  pose proof (lk_session _ _ _ _ _ _ Lk2) as Ls2. pose proof (ls_session _ _ _ _ _ Ls2) as Se2. pose proof (seen_bimg cfg g sidx_wf _ _ (bucket_of id) Hs2) as Eb2.
  destruct (bucket_hdr_valid (bimg (lp_db s1) (bucket_of id)) (bucket_of id)) eqn:Hv; cbn [negb].
  2: { apply wp_fail. rewrite (no_object cfg g s1 id) by (by apply slots_unformatted). split; [|by left].
       eapply steady_le; [|eapply steady_trans; [exact St1|exact St2]]. lia. }
  rewrite <- Eb2 in Hv. apply wp_bnd. apply (on_find cfg g Hg sidx_wf); [done|lia|done|]. intros x s3 Hs3 Hf.
  pose proof (seen_looked cfg MAX_OBJECT_LEN g sidx_wf _ _ Ls2 Hs3) as Lk3. pose proof (looked_trans cfg MAX_OBJECT_LEN g sidx_wf _ _ _ Lk2 Lk3) as Lk.
  pose proof (steady_trans cfg MAX_OBJECT_LEN g sidx_wf _ _ _ _ _ St1 (looked_steady cfg MAX_OBJECT_LEN g sidx_wf _ _ Lk)) as St. cbn [Z.add] in St.
  assert (steady 65540 s s3) as Stk by (eapply steady_le; [|exact St]; lia).
  pose proof (lk_session _ _ _ _ _ _ Lk3) as Ls3. pose proof (looked_slots cfg MAX_OBJECT_LEN g sidx_wf _ _ id Lk) as E3.
  pose proof (looked_object cfg MAX_OBJECT_LEN g sidx_wf _ _ id Lk) as O3.
  pose proof (seen_bimg cfg g sidx_wf _ _ (bucket_of id) Hs3) as Eb3. rewrite <- Eb3 in Hv.
  assert (found cfg g (lp_db s3) id x) as Hf3.
  { destruct Hf as (F1 & F2 & F3). pose proof (looked_slots cfg MAX_OBJECT_LEN g sidx_wf _ _ id Lk3) as E32. unfold found. by rewrite E32, Eb3. }
  pose proof Hf3 as (Hrc & _ & Hx). rewrite Hrc. apply wp_bnd. rewrite <- O3. rewrite E3 in Hx |- *.
  destruct (slots (lp_db s1) id) as [[fl p]|] eqn:E1.
  2: { apply wp_fail. rewrite (no_object cfg g s3 id) by done. split; [done|by left]. }
  apply wp_ret. destruct (Hx fl p eq_refl) as (Hfl & _). unfold Large.is_segment, Large.flags_of. rewrite Hfl. fold (is_seg fl).
  destruct (is_seg fl) eqn:Hs.
  { apply wp_fail. rewrite (segment_object cfg g s3 id fl p) by done. split; [done|]. right. split; [done|]. unfold SegBase.internal. by rewrite E3. }
  assert (exists v, object (lp_db s3) id = Some v) as [v Hob].
  { unfold SegBase.object. rewrite E3, Hs. destruct (is_idx fl); by eexists. }
  rewrite Hob. destruct (Z.eqb_spec (len b) 0); [by apply wp_ret|].
  eapply wp_mono; [apply (write_found s3 id off b x fl p v); try done; try lia; eapply steady_room; [exact St|destruct Hr; split; lia]|].
  cbv beta. intros r s4 Hq. destruct (Z.leb_spec (Z.max (off + len b) (len v)) (write_cap s3 id)).
  - left. eapply steady_written; [exact St| |exact Hq]. lia.
  - destruct Hq as [-> St4]. right. split; [done|]. split; [eapply steady_le; [|eapply steady_trans; [exact St|exact St4]]; lia|].
    destruct (slots_known cfg g Hg sidx_wf _ _ _ _ (se_inv cfg g sidx_wf s3 (ls_session _ _ _ _ _ Ls3)) E3) as (_ & Hlp & _).
    unfold write_cap in *. rewrite E3 in *. unfold too_big. destruct (is_idx fl) eqn:Hix; [by left|right].
    rewrite (inline_object cfg g s3 id fl p) in Hob by done. injection Hob as ->. done.
Qed.
End ops.
