(* ===== verification/SegMount.v ===== *)
(** A store with large payloads from one boot to the next: the segment geometry
    a build derives, what mounting, unmounting and formatting leave, and the
    count of a store that holds segments. *)

From S2P Require Import Prelude Layout Store SlotIndexIface Image Core CoreRead Lookup Append Bucket Compact.
From S2P Require Import CompactImage Recovery CompactSpec Ops OpsRead OpsWrite Master Mount MasterSpec MasterInv.
From S2P Require Import MountSpec Session Segments SegBase SegIo SegRead SegSweep.

Section boot.
Context (cfg : config) (MAX_OBJECT_LEN SEGMENT_LEN MAX_SEGMENTS : Z) (g : geom) `{Crc}.
Context {S I : Type} `{!Store S} `{!StoreView S} `{!SlotIndex I}.
Context (Hg : geom_ok cfg g) (Ha : geom_aligned g) {SL : StoreLaws S (store_geom_of g)} {CL : CrcLaws _}.
Context (sidx_wf : Z -> I -> Prop) {IL : SlotIndexLaws I sidx_wf}.
Context (Hlarge : LARGE_PAYLOADS cfg = true).
Context (Hop : opens cfg g) (Hnd : forall off (s : S), blob_db_store_open_found_damage off s = false).
Notation db := (db S I).
Notation lp := (lp S I).
Notation slots := (slots cfg g).
Notation live := (live cfg g sidx_wf).
Notation session := (session cfg g sidx_wf).
Notation lsession := (lsession cfg MAX_OBJECT_LEN g sidx_wf).
Notation object := (object cfg g).
Notation internal := (internal cfg g).
Notation looked := (looked cfg MAX_OBJECT_LEN g sidx_wf).
Notation steady := (steady cfg MAX_OBJECT_LEN g sidx_wf).
Notation heads_ok d := (heads_by cfg g (bimg d)).
Notation mount_impl := (Large.mount_impl cfg MAX_OBJECT_LEN SEGMENT_LEN MAX_SEGMENTS).
Notation blob_db_mount := (Large.blob_db_mount cfg MAX_OBJECT_LEN SEGMENT_LEN MAX_SEGMENTS).
Implicit Types (d : db) (s : lp).

(** ** The geometry of segments *)

(** The ranges of the options, and a payload that holds the record headers. *)
Record seg_build : Prop := {
  sb_payload : 16 <= MAX_PAYLOAD_LEN cfg;
  sb_object : 1 <= MAX_OBJECT_LEN < 2 ^ 32;
  sb_len : 0 <= SEGMENT_LEN;
  sb_segments : 0 <= MAX_SEGMENTS <= 8192;
}.
Context (Hbuild : seg_build).

Definition fit_len : Z := Z.min (if SEGMENT_LEN =? 0 then peb_size g / 4 else SEGMENT_LEN) (MAX_PAYLOAD_LEN cfg - 12).
Definition fit_max : Z := Z.min ((MAX_PAYLOAD_LEN cfg - 16) / 8) MAX_SEGMENTS.

(** The longest object of the build fits its index record. *)
Definition fits : Prop := MAX_OBJECT_LEN <= fit_max * fit_len.

#[export] Instance fits_dec : Decision fits.
Proof. unfold fits. apply _. Defined.

Lemma fit_bounds : 0 <= fit_len <= MAX_PAYLOAD_LEN cfg - 12 /\ 0 <= fit_max <= 8192 /\ 16 + 8 * fit_max <= MAX_PAYLOAD_LEN cfg.
Proof.
  destruct Hbuild as [B1 _ B3 B4]. unfold fit_len, fit_max. pose proof (ok_peb_size _ _ Hg). pose proof (Z.div_pos (peb_size g) 4 ltac:(lia) ltac:(lia)).
  pose proof (Z.mul_div_le (MAX_PAYLOAD_LEN cfg - 16) 8 ltac:(lia)). pose proof (Z.div_pos (MAX_PAYLOAD_LEN cfg - 16) 8 ltac:(lia) ltac:(lia)).
  destruct (SEGMENT_LEN =? 0); split_and!; lia.
Qed.

(** [seg_geometry_init()] sets the largest geometry of the build, and refuses a
    build whose largest object does not fit it. *)
Lemma seg_geometry_spec s :
  wp (Large.seg_geometry_init cfg MAX_OBJECT_LEN SEGMENT_LEN MAX_SEGMENTS g) s (fun r s' =>
    if bool_decide fits
    then r = Ok tt /\ s' = mk_lp (lp_db s) (g_idx_id s) (g_idx_hdr s) (g_idx_k s) (g_seg_a s) fit_len fit_max /\ seg_geo cfg MAX_OBJECT_LEN s'
    else r = Err ENOTSUP /\ s' = s).
Proof.
  pose proof Hbuild as [B1 B2 B3 B4]. pose proof fit_bounds as (F1 & F2 & F3). pose proof (payload_small cfg g Hg) as Hp.
  unfold Large.seg_geometry_init, Large.inline_max. cbv zeta.
  rewrite (u32_small (MAX_PAYLOAD_LEN cfg - 12)), (u32_small (MAX_PAYLOAD_LEN cfg - 16)) by lia.
  set (want := if SEGMENT_LEN =? 0 then _ else _). set (sl := if want >? _ then _ else _).
  assert (sl = fit_len) as -> by (unfold sl, fit_len; fold want; destruct (Z.gtb_spec want (MAX_PAYLOAD_LEN cfg - 12)); lia). fold fit_max.
  assert (0 <= fit_max * fit_len <= 8192 * 32768) by nia. rewrite u32_small by lia. unfold fits.
  destruct (Z.eqb_spec fit_len 0) as [E|Hne].
  { apply wp_fail. rewrite bool_decide_eq_false_2 by (rewrite E; lia). done. }
  destruct (Z.ltb_spec (fit_max * fit_len) MAX_OBJECT_LEN); [apply wp_fail; by rewrite bool_decide_eq_false_2 by lia|].
  rewrite bool_decide_eq_true_2 by lia. apply wp_mod. rewrite !u16_small by lia. split; [done|]. split; [done|].
  split; cbn [g_seg_len g_seg_max]; nia.
Qed.

(** The geometry in force is the one of the build. *)
Definition fitted s : Prop := g_seg_len s = fit_len /\ g_seg_max s = fit_max.

(** ** A store carried over a boot *)

Lemma lsession_boot s s' :
  lsession s -> session (lp_db s') -> same_contents cfg g (lp_db s) (lp_db s') -> next_id (d_st (lp_db s)) <= next_id (d_st (lp_db s')) ->
  heads_ok (lp_db s') -> g_seg_len s' = g_seg_len s -> g_seg_max s' = g_seg_max s -> g_idx_id s' = 0 -> lsession s'.
Proof.
  intros [L1 L2 [G1 G2 G3 G4] L4 Lf L5 L6 Lh] Se Hs Hn Hh E1 E2 E3. split; try done.
  - intros id Hid. rewrite Hs in Hid. specialize (L2 id Hid). lia.
  - split; rewrite ?E1, ?E2; done.
  - intros id fl p E Hsg Hi. rewrite Hs in E. destruct (L4 id fl p E Hsg Hi) as [v Hv]. exists v. rewrite E1, E2. by apply (segmented_same cfg MAX_OBJECT_LEN g (lp_db s)).
  - intros id fl p. rewrite Hs. apply Lf.
  - by rewrite (object_same cfg g _ _ _ Hs).
  - by left.
Qed.

(** A store whose only slot is the root. *)
Lemma lsession_fresh s :
  session (lp_db s) -> next_id (d_st (lp_db s)) = 2 -> (forall id, slots (lp_db s) id = only_root_slot id) -> heads_ok (lp_db s) ->
  seg_geo cfg MAX_OBJECT_LEN s -> g_idx_id s = 0 -> lsession s.
Proof.
  intros Se Hn Hs Hh Hge Hi. split; try done.
  - intros id. rewrite Hs, Hn. unfold only_root_slot, BLOB_DB_ROOT_ID. case_decide; [lia|done].
  - intros id fl p E. rewrite Hs in E. unfold only_root_slot in E. case_decide; [|done]. by injection E as <- <-.
  - intros id fl p E. rewrite Hs in E. unfold only_root_slot in E. case_decide; [|done]. by injection E as <- <-.
  - unfold SegBase.object. by rewrite Hs.
  - by left.
Qed.

(** [s1] is [s] at the next power-up: the flash of [s], a device that can
    be opened and works, and RAM of which only the [mounted] flag is known. *)
Record cycled s s1 : Prop := {
  cy_mounted : mounted (d_st (lp_db s1)) = false;
  cy_index : exists m, sidx_wf m (d_ix (lp_db s1));
  cy_flash : same_flash (d_store (lp_db s)) (d_store (lp_db s1));
  cy_bootable : bootable (d_store (lp_db s1));
}.

(** The objects, the geometry and the counters after a boot. *)
Record booted s s' : Prop := {
  bt_session : lsession s';
  bt_fitted : fitted s';
  bt_next : next_id (d_st (lp_db s)) <= next_id (d_st (lp_db s')) <= next_id (d_st (lp_db s)) + 258;
  bt_rot : rot_gen (d_st (lp_db s')) <= rot_gen (d_st (lp_db s)) + 1;
  bt_objects : forall id, object (lp_db s') id = object (lp_db s) id;
  bt_plain : forall id, id < next_id (d_st (lp_db s)) -> internal (lp_db s) id = false -> internal (lp_db s') id = false;
}.

Lemma heads_at_rest d d1 : live d -> same_flash (d_store d) (d_store d1) -> heads_ok d -> heads_by cfg g (rimg g d1).
Proof.
  intros Lv Hf Hh b e. rewrite (rimg_same g _ _ _ Hf), rimg_unsealed by apply Lv. apply Hh.
Qed.

(** The store itself, before the geometry is derived and the sweep runs. *)
Lemma mount_under s s1 :
  lsession s -> cycled s s1 ->
  wp (Large.on_db (Mount.mount_impl cfg)) s1 (fun r s2 => r = Ok tt /\ session (lp_db s2) /\ same_contents cfg g (lp_db s) (lp_db s2) /\
    next_id (d_st (lp_db s)) <= next_id (d_st (lp_db s2)) <= next_id (d_st (lp_db s)) + 257 /\
    rot_gen (d_st (lp_db s2)) = rot_gen (d_st (lp_db s)) /\ heads_ok (lp_db s2) /\ s2 = with_db s1 (lp_db s2)).
Proof.
  intros Ls [Hm Hix Hf Hh]. pose proof (se_live _ _ _ _ (ls_session _ _ _ _ _ Ls)) as Lv. pose proof (lv_next _ _ _ _ Lv). pose proof (lv_ceiling _ _ _ _ Lv).
  destruct (live_at_rest cfg g sidx_wf _ _ Lv Hm Hix Hf) as (h & h' & r & Har & Hn & Hrg & Hs).
  apply wp_on. eapply wp_mono; [exact (mount_impl_session cfg g Hg Ha sidx_wf Hop Hnd _ _ _ _ _ _ Har)|]. cbv beta.
  intros rc d2 [Hw Hrc]. destruct (Hw Hh) as [Hok Hh2]. destruct rc as [[]|]; [|done]. destruct Hrc as (Lv2 & Hn2 & Hr2 & Hs2 & Hd2).
  split; [done|]. cbn [with_db lp_db]. split; [by split|]. split; [intros id; by rewrite Hs2, Hs|]. split; [lia|]. split; [congruence|].
  split; [|done]. apply Hd2, (heads_at_rest (lp_db s)); [done|done|apply Ls].
Qed.

(** The maintenance walk is set up again: no slot moves. *)
Lemma maint_kept s : session (lp_db s) -> wp (Large.on_db (maint_reset g)) s (fun r s' => r = Ok tt /\ kept cfg g sidx_wf 0 s s').
Proof.
  intros [Lv Hh]. apply wp_on. unfold maint_reset. apply wp_mod. cbv beta. fold (maint_zero g (d_st (lp_db s))). split; [done|].
  pose proof (live_maint cfg g sidx_wf _ Lv) as Lm. split; cbn [with_db lp_db d_st next_id rot_gen]; try done; try (cbn; lia).
Qed.

(** Mounting: the geometry of the build, every object as it was, and whatever an
    interrupted write left unlisted on its way out. *)
Lemma mount_large s s1 :
  lsession s -> fitted s -> fits -> cycled s s1 -> lroom s 258 -> wp blob_db_mount s1 (fun r s' => r = Ok tt /\ booted s s').
Proof.
  intros Ls [Hl Hm] Hfit Hcy [Hr1 Hr2]. unfold Large.blob_db_mount, Large.then_reset. apply wp_bnd. unfold Large.mount_impl.
  apply on_get. rewrite (cy_mounted _ _ Hcy). apply wp_bnd, wp_mod. cbv beta iota. set (s1' := mk_lp _ _ _ _ _ _ _).
  assert (cycled s s1') as Hcy' by (destruct Hcy; by split). assert (g_idx_id s1' = 0) as Hi0 by done. clearbody s1'. clear Hcy s1.
  apply wp_bnd. eapply wp_mono; [by apply (mount_under s)|]. cbv beta. intros r s2 (-> & Se2 & Hs2 & Hn2 & Hg2 & Hh2 & Hf2). cbv beta iota.
  apply wp_bnd, wp_on, wp_gets. cbv beta. rewrite (lv_geo _ _ _ _ (se_live _ _ _ _ Se2)).
  assert (with_db s2 (lp_db s2) = s2) as -> by by destruct s2. apply wp_bnd, wp_try, wp_bnd.
  eapply wp_mono; [apply seg_geometry_spec|]. cbv beta. rewrite bool_decide_eq_true_2 by done. intros r s3 (-> & E3 & Hge).
  assert (g_idx_id s2 = 0) as Hi2 by by rewrite Hf2.
  assert (lsession s3) as Ls3.
  { apply (lsession_boot s); subst s3; cbn [lp_db g_seg_len g_seg_max g_idx_id]; try done; lia. }
  assert (lroom s3 1) as Hr3 by (subst s3; cbn [lp_db]; split; cbn [lp_db]; lia).
  assert (booted s s3) as Hb3.
  { split; rewrite ?E3; cbn [lp_db]; try done; try lia; [by subst s3| |].
    - intros id. by apply (object_same cfg g).
    - intros id _. by rewrite (internal_same cfg g _ _ _ Hs2). }
  assert (forall s4, steady 1 s3 s4 -> wp (Large.with_geo (fun g => Large.on_db (maint_reset g))) s4 (fun r s' => r = Ok tt /\ booted s s')) as Hend.
  { intros s4 [T1 T2 T3 T4 T5 T6 T7]. unfold Large.with_geo. apply wp_bnd, wp_on, wp_gets. cbv beta.
    pose proof (ls_session _ _ _ _ _ T1) as Se4. rewrite (lv_geo _ _ _ _ (se_live _ _ _ _ Se4)).
    assert (with_db s4 (lp_db s4) = s4) as -> by by destruct s4.
    eapply wp_mono; [by apply maint_kept|]. cbv beta. intros r s5 [-> K]. split; [done|]. pose proof (kp_next _ _ _ _ _ _ K). pose proof (kp_rot _ _ _ _ _ _ K).
    subst s3. cbn [lp_db g_seg_len g_seg_max] in *. split; try lia.
    - by eapply kept_lsession.
    - rewrite (kp_fields _ _ _ _ _ _ K). by split.
    - intros id. rewrite (object_same cfg g _ _ _ (kp_slots _ _ _ _ _ _ K)), T6. by apply (object_same cfg g).
    - intros id Hid Hi. rewrite (internal_same cfg g _ _ _ (kp_slots _ _ _ _ _ _ K)). apply T7; [lia|].
      by rewrite (internal_same cfg g _ _ _ Hs2). }
  apply on_get. destruct (mi_words _ _ _ (lv_master _ _ _ _ (se_live _ _ _ _ (ls_session _ _ _ _ _ Ls3)))) as (Ho & _).
  destruct (Z.eqb_spec (seg_owner (d_st (lp_db s3))) 0); cbn [negb].
  - apply wp_ret, wp_ret. apply Hend. eapply (steady_le cfg MAX_OBJECT_LEN g sidx_wf 0); [lia|].
    apply (kept_steady cfg MAX_OBJECT_LEN g sidx_wf); [done|]. by apply (kept_here cfg g sidx_wf), Ls3.
  - eapply wp_mono; [apply (seg_sweep_spec cfg MAX_OBJECT_LEN g Hg Ha sidx_wf Hlarge s3); [done|done|lia]|]. cbv beta.
    intros r s4 [-> St]. apply wp_ret. by apply Hend.
Qed.

(** Unmounting, and mounting again. *)
Lemma remount_large s :
  lsession s -> fitted s -> fits -> lroom s 258 ->
  wp (mbnd (Large.blob_db_unmount (S := S) (I := I)) (fun _ => blob_db_mount)) s (fun r s' => r = Ok tt /\ booted s s').
Proof.
  intros Ls Hfd Hfit Hr. pose proof (ls_session _ _ _ _ _ Ls) as Se. pose proof (se_live _ _ _ _ Se) as Lv.
  unfold Large.blob_db_unmount, Large.unmount_impl. apply wp_bnd, on_get. rewrite (lv_mounted _ _ _ _ Lv). cbn [negb].
  apply wp_bnd, wp_on. unfold Mount.unmount_impl. apply wp_bnd, wp_gets. cbv beta. rewrite (lv_mounted _ _ _ _ Lv). cbn [negb].
  apply wp_bnd, wp_mod, wp_bnd, wp_mod, wp_mod. cbv beta iota. apply wp_mod. cbn [with_db lp_db d_st d_geo d_ix d_store].
  destruct (close_law (StoreLaws := SL) (d_store (lp_db s))) as [Hcf Hch]. apply (mount_large s); try done.
  split; cbn [lp_db d_st d_ix d_store]; try done.
  - exists (n_buckets g). eapply disable_wf, coh_wf, inv_coh, rd_inv, Lv.
  - apply Hch, Se.
Qed.

(** A store just formatted. *)
Record fresh_store s : Prop := {
  fs_session : lsession s;
  fs_fitted : fitted s;
  fs_next : next_id (d_st (lp_db s)) = 2;
  fs_rot : rot_gen (d_st (lp_db s)) <= 2;
  fs_objects : forall id, object (lp_db s) id = if decide (id = BLOB_DB_ROOT_ID) then Some [] else None;
}.

(** Formatting, before the maintenance walk is set up. *)
Lemma format_impl_large s m :
  mounted (d_st (lp_db s)) = false -> sidx_wf m (d_ix (lp_db s)) -> bootable (d_store (lp_db s)) -> fits ->
  wp (Large.format_impl cfg MAX_OBJECT_LEN SEGMENT_LEN MAX_SEGMENTS) s (fun r s' => r = Ok tt /\ fresh_store s').
Proof.
  intros Hm Hix Hh Hfit. unfold Large.format_impl. apply on_get. rewrite Hm. destruct Hop as [Ho1 Ho2].
  apply wp_bnd, wp_on. eapply wp_mono; [apply (store_open_spec cfg (store_geom_of g))|]. cbv beta. intros ro d1 (Hst & Hx & _ & Hq).
  destruct ro as [[]|e]; [|destruct Hq as [[? _]|[? _]]; congruence]. destruct Hq as (Hh1 & _ & Hge). specialize (Hh1 Hh). rewrite Ho2 in Hge.
  apply wp_bnd, wp_on, wp_gets. cbn [with_db lp_db]. rewrite Hge. apply wp_bnd, wp_mod. cbv beta iota.
  apply wp_bnd, wp_try, wp_on. cbn [lp_db]. rewrite <- Hx in Hix.
  eapply wp_mono; [apply wp_geo; [apply geo_format_whole|]; apply (format_whole_store_spec cfg g Hg Ha sidx_wf d1 m Hix)|]. cbv beta.
  intros rf d2 ([Hge2 Hmt] & Hw & Hrf). destruct (Hw Hh1) as [Hok Hh2]. destruct rf as [[]|]; [|done]. cbn [with_db lp_db] in Hge2. rewrite Hge in Hge2.
  apply wp_bnd, wp_on, wp_mod. cbn [with_db lp_db g_idx_id g_idx_hdr g_idx_k g_seg_a g_seg_len g_seg_max].
  destruct (formatted_live cfg g sidx_wf d1 d2 Hge2 Hrf) as (Lv & Hn & Hrg & Hs & Hd). cbv zeta in *. set (d3 := mk_db _ _ _ _) in *.
  apply wp_bnd, wp_try. eapply wp_mono; [apply seg_geometry_spec|]. cbv beta. rewrite bool_decide_eq_true_2 by done.
  intros r s3 (-> & E3 & Hgg). apply wp_ret. split; [done|].
  assert (lp_db s3 = d3) as E by by subst s3. split.
  - apply lsession_fresh; rewrite ?E; try done. by subst s3.
  - by subst s3.
  - by rewrite E.
  - rewrite E. lia.
  - intros id. unfold SegBase.object. rewrite E, Hs. unfold only_root_slot. by case_decide.
Qed.

Lemma format_large s m :
  mounted (d_st (lp_db s)) = false -> sidx_wf m (d_ix (lp_db s)) -> bootable (d_store (lp_db s)) -> fits ->
  wp (Large.blob_db_format cfg MAX_OBJECT_LEN SEGMENT_LEN MAX_SEGMENTS) s (fun r s' => r = Ok tt /\ fresh_store s').
Proof.
  intros Hm Hix Hh Hfit. unfold Large.blob_db_format, Large.then_reset. apply wp_bnd.
  eapply wp_mono; [by eapply format_impl_large|]. cbv beta. intros r s1 [-> [F1 F2 F3 F4 F5]].
  pose proof (ls_session _ _ _ _ _ F1) as Se. unfold Large.with_geo. apply wp_bnd, wp_on, wp_gets. cbv beta.
  rewrite (lv_geo _ _ _ _ (se_live _ _ _ _ Se)). assert (with_db s1 (lp_db s1) = s1) as -> by by destruct s1.
  eapply wp_mono; [by apply maint_kept|]. cbv beta. intros r s2 [-> K]. split; [done|].
  pose proof (kp_next _ _ _ _ _ _ K). split.
  - by eapply kept_lsession.
  - by rewrite (kp_fields _ _ _ _ _ _ K).
  - lia.
  - pose proof (kp_rot _ _ _ _ _ _ K). lia.
  - intros id. by rewrite (object_same cfg g _ _ _ (kp_slots _ _ _ _ _ _ K)).
Qed.

(** A build that cannot hold its largest object is turned away, unmounted. *)
Lemma format_refused s m :
  mounted (d_st (lp_db s)) = false -> sidx_wf m (d_ix (lp_db s)) -> bootable (d_store (lp_db s)) -> ~ fits ->
  wp (Large.format_impl cfg MAX_OBJECT_LEN SEGMENT_LEN MAX_SEGMENTS) s (fun r s' => r = Err ENOTSUP /\ mounted (d_st (lp_db s')) = false).
Proof.
  intros Hm Hix Hh Hfit. unfold Large.format_impl. apply on_get. rewrite Hm. destruct Hop as [Ho1 Ho2].
  apply wp_bnd, wp_on. eapply wp_mono; [apply (store_open_spec cfg (store_geom_of g))|]. cbv beta. intros ro d1 (Hst & Hx & _ & Hq).
  destruct ro as [[]|e]; [|destruct Hq as [[? _]|[? _]]; congruence]. destruct Hq as (Hh1 & _ & Hge). specialize (Hh1 Hh). rewrite Ho2 in Hge.
  apply wp_bnd, wp_on, wp_gets. cbn [with_db lp_db]. rewrite Hge. apply wp_bnd, wp_mod. cbv beta iota.
  apply wp_bnd, wp_try, wp_on. cbn [lp_db]. rewrite <- Hx in Hix.
  eapply wp_mono; [apply (format_whole_store_spec cfg g Hg Ha sidx_wf d1 m Hix)|]. cbv beta.
  intros rf d2 (Hw & Hrf). destruct (Hw Hh1) as [Hok Hh2]. destruct rf as [[]|]; [|done].
  apply wp_bnd, wp_on, wp_mod. apply wp_bnd, wp_try. eapply wp_mono; [apply seg_geometry_spec|]. cbv beta.
  rewrite bool_decide_eq_false_2 by done. intros r s3 [-> ->].
  apply wp_bnd, wp_on. apply wp_bnd, wp_mod, wp_mod. by apply wp_fail.
Qed.
End boot.
