(* ===== verification/SegRuns.v ===== *)
(** A mounted store with large payloads, driven through its public calls: what a
    caller may see of it, and the proof that every sequence of calls, remounts
    included, is a run of that abstract store. *)

From S2P Require Import Prelude Layout Store SlotIndexIface Image Core CoreRead Lookup Append Bucket Compact.
From S2P Require Import CompactImage Recovery CompactSpec Ops OpsRead OpsWrite Master Mount MasterSpec MasterInv.
From S2P Require Import MountSpec Session Segments SegBase SegIo SegRead SegSweep SegWrite SegPatch SegOps SegMount.

(** ** The abstract store *)

(** The objects, the next id, and the ids the caller was given: the store takes
    ids of its own for segments, and those it may refuse. *)
Record lobj_store := mk_lobj_store {
  lo_objects : Z -> option bytes;
  lo_next : Z;
  lo_issued : list Z;
}.

Definition holds_on (a a' : lobj_store) : Prop :=
  lo_next a <= lo_next a' /\ lo_issued a' = lo_issued a /\ forall id, lo_objects a' id = lo_objects a id.

Definition puts (a a' : lobj_store) (id : Z) (w : option bytes) : Prop :=
  lo_next a <= lo_next a' /\ lo_issued a' = lo_issued a /\ forall i, lo_objects a' i = if decide (i = id) then w else lo_objects a i.

Section abstract.
Context (cfg : config) (MAX_OBJECT_LEN : Z).

(** Performed, refused for want of room, or refused because the id is one the
    store took for a segment. *)
Definition lmutated (starved_for : Z -> Prop) (r : reply) (a a' : lobj_store) (id : Z) (w : option bytes) : Prop :=
  (r = RpRc (Ok tt) /\ puts a a' id w) \/ (r = RpRc (Err ENOSPC) /\ holds_on a a' /\ starved_for id) \/
  (r = RpRc (Err EINVAL) /\ holds_on a a' /\ id ∉ lo_issued a).

Definition lmissing (r : reply) (a a' : lobj_store) (id : Z) : Prop :=
  holds_on a a' /\ (r = RpRc (Err ENOENT) \/ (r = RpRc (Err EINVAL) /\ id ∉ lo_issued a)).

Definition lobj_step (starved_for : Z -> Prop) (o : op) (r : reply) (a a' : lobj_store) : Prop :=
  match o with
  | OpAlloc => r = RpId (lo_next a) /\ lo_objects a (lo_next a) = None /\ lo_next a' = lo_next a + 1 /\
      lo_issued a' = lo_next a :: lo_issued a /\ forall id, lo_objects a' id = lo_objects a id
  | OpGet id sz => holds_on a a' /\ r = RpBytes (match lo_objects a id with
      | Some v => if sz <? len v then Err ENOMEM else Ok v
      | None => Err ENOENT end)
  | OpUpdate id p =>
      if (id =? 0) || (id >=? lo_next a) || (len p >? MAX_OBJECT_LEN)
      then r = RpRc (Err EINVAL) /\ holds_on a a'
      else lmutated starved_for r a a' id (Some p)
  | OpDelete id =>
      match lo_objects a id with
      | None => lmissing r a a' id
      | Some _ => lmutated starved_for r a a' id None
      end
  | OpExists id => holds_on a a' /\ r = RpBool (match lo_objects a id with Some _ => true | None => false end)
  | OpSize id => holds_on a a' /\ r = RpLen (match lo_objects a id with Some v => Ok (len v) | None => Err ENOENT end)
  | OpRead id off n => holds_on a a' /\
      r = RpBytes (match lo_objects a id with Some v => Ok (slice off n v) | None => Err ENOENT end)
  | OpWrite id off b =>
      if negb (id =? 0) && (off + len b >=? 2 ^ 32) then r = RpRc (Err EINVAL) /\ holds_on a a'
      else
        match lo_objects a id with
        | None => lmissing r a a' id
        | Some v =>
            if len b =? 0 then r = RpRc (Ok tt) /\ holds_on a a'
            else lmutated starved_for r a a' id (Some (patched off b v)) \/
                 (r = RpRc (Err EFBIG) /\ holds_on a a' /\ too_big cfg MAX_OBJECT_LEN (len v) (len (patched off b v)))
        end
  | OpCount => holds_on a a' /\ exists ids, NoDup ids /\ (forall id, id ∈ ids <-> lo_objects a id <> None) /\ r = RpCount (u32 (len ids))
  | OpRemount => r = RpRc (Ok tt) /\ holds_on a a'
  end.

(** Runs of the abstract store; what is starved of room is up to each state. *)
Inductive lobj_steps : list op -> list reply -> lobj_store -> lobj_store -> Prop :=
  | lobj_nil a : lobj_steps [] [] a a
  | lobj_cons o os r rs a a1 a' starved_for : lobj_step starved_for o r a a1 -> lobj_steps os rs a1 a' -> lobj_steps (o :: os) (r :: rs) a a'.
End abstract.

Section runs.
Context (cfg : config) (MAX_OBJECT_LEN SEGMENT_LEN MAX_SEGMENTS : Z) (g : geom) `{Crc}.
Context {S I : Type} `{!Store S} `{!StoreView S} `{!SlotIndex I}.
Context (Hg : geom_ok cfg g) (Ha : geom_aligned g) {SL : StoreLaws S (store_geom_of g)} {CL : CrcLaws _}.
Context (sidx_wf : Z -> I -> Prop) {IL : SlotIndexLaws I sidx_wf}.
Context (Hlarge : LARGE_PAYLOADS cfg = true).
Context (Hop : opens cfg g) (Hnd : forall off (s : S), blob_db_store_open_found_damage off s = false).
Context (Hbuild : seg_build cfg MAX_OBJECT_LEN SEGMENT_LEN MAX_SEGMENTS) (Hfits : fits cfg MAX_OBJECT_LEN SEGMENT_LEN MAX_SEGMENTS g).
Notation db := (db S I).
Notation lp := (lp S I).
Notation lsession := (lsession cfg MAX_OBJECT_LEN g sidx_wf).
Notation fitted := (fitted cfg SEGMENT_LEN MAX_SEGMENTS g).
Notation object := (object cfg g).
Notation internal := (internal cfg g).
Notation looked := (looked cfg MAX_OBJECT_LEN g sidx_wf).
Notation steady := (steady cfg MAX_OBJECT_LEN g sidx_wf).
Notation sets := (sets cfg MAX_OBJECT_LEN g sidx_wf).
Notation written := (written cfg MAX_OBJECT_LEN g sidx_wf).
Notation starved := (starved cfg g).
Implicit Types (d : db) (s : lp) (a : lobj_store).

(** The public call of an operation. *)
Definition lreply {A} (f : res A -> reply) (m : M lp A) : lp -> reply * lp := fun s => let (r, s') := m s in (f r, s').

Definition lexec (o : op) : lp -> reply * lp :=
  match o with
  | OpAlloc => lreply (fun r => RpId (match r with Ok id => id | Err _ => 0 end)) (Large.blob_db_alloc_id cfg)
  | OpGet id sz => lreply RpBytes (Large.blob_db_get cfg id false sz)
  | OpUpdate id p => lreply RpRc (Large.blob_db_update cfg MAX_OBJECT_LEN id (Some p))
  | OpDelete id => lreply RpRc (Large.blob_db_delete cfg id)
  | OpExists id => lreply (fun r => RpBool (match r with Ok b => b | Err _ => false end)) (Large.blob_db_exists cfg id)
  | OpSize id => lreply RpLen (Large.blob_db_size cfg id false)
  | OpRead id off n => lreply RpBytes (Large.blob_db_read cfg id off false n)
  | OpWrite id off b => lreply RpRc (Large.blob_db_write cfg MAX_OBJECT_LEN id off (Some b))
  | OpCount => lreply (fun r => RpCount (match r with Ok n => n | Err _ => 0 end)) (Large.on_db (blob_db_count cfg))
  | OpRemount => lreply RpRc (Large.blob_db_unmount;;; Large.blob_db_mount cfg MAX_OBJECT_LEN SEGMENT_LEN MAX_SEGMENTS)
  end.

Fixpoint lrun (os : list op) s : list reply * lp :=
  match os with
  | [] => ([], s)
  | o :: os => let (r, s) := lexec o s in let (rs, s) := lrun os s in (r :: rs, s)
  end.

(** [a] is what the caller of [s] sees. *)
Record matches s a : Prop := {
  mt_objects : forall id, lo_objects a id = object (lp_db s) id;
  mt_next : lo_next a = next_id (d_st (lp_db s));
  mt_issued : forall id, id ∈ lo_issued a -> id < next_id (d_st (lp_db s)) /\ internal (lp_db s) id = false;
}.

(** What one call leaves: [k] bounds what it takes of the counters. *)
Definition onward s s' : Prop :=
  lsession s' /\ fitted s' /\ next_id (d_st (lp_db s)) <= next_id (d_st (lp_db s')) <= next_id (d_st (lp_db s)) + 65540 /\
  rot_gen (d_st (lp_db s')) <= rot_gen (d_st (lp_db s)) + 65540.

Definition lsimulates (o : op) s a : Prop :=
  let (r, s') := lexec o s in onward s s' /\ exists a' starved_for, matches s' a' /\ lobj_step cfg MAX_OBJECT_LEN starved_for o r a a'.

(** ** Carrying the match along *)

Lemma steady_onward k s s' : fitted s -> steady k s s' -> 0 <= k <= 65540 -> onward s s'.
Proof. intros [F1 F2] [T1 T2 T3 T4 T5 _ _] Hk. split; [done|]. split; [split; congruence|lia]. Qed.

Lemma sets_onward k s s' id w : fitted s -> sets k s s' id w -> 0 <= k <= 65540 -> onward s s'.
Proof. intros [F1 F2] [T1 T2 T3 T4 T5 _ _] Hk. split; [done|]. split; [split; congruence|lia]. Qed.

Definition after s' a : lobj_store := mk_lobj_store (object (lp_db s')) (next_id (d_st (lp_db s'))) (lo_issued a).

Lemma steady_holds k s s' a : matches s a -> steady k s s' -> matches s' (after s' a) /\ holds_on a (after s' a).
Proof.
  intros [M1 M2 M3] [T1 T2 T3 T4 T5 T6 T7]. split; [split; cbn; try done|split; cbn; [lia|split; [done|]]].
  - intros id Hid. destruct (M3 id Hid) as [Hn Hi]. split; [lia|by apply T7].
  - intros id. by rewrite M1, T6.
Qed.

Lemma sets_puts k s s' id w a : matches s a -> sets k s s' id w -> matches s' (after s' a) /\ puts a (after s' a) id w.
Proof.
  intros [M1 M2 M3] [T1 T2 T3 T4 T5 T6 T7]. split; [split; cbn; try done|split; cbn; [lia|split; [done|]]].
  - intros i Hid. destruct (M3 i Hid) as [Hn Hi]. split; [lia|by apply T7].
  - intros i. rewrite T6. case_decide; [done|]. by rewrite M1.
Qed.

(** An id the store refuses as its own was never issued. *)
Lemma internal_not_issued k s s' a id : matches s a -> steady k s s' -> internal (lp_db s') id = true -> id ∉ lo_issued a.
Proof. intros [_ _ M3] St Hi Hin. destruct (M3 id Hin) as [Hn Hp]. rewrite (sy_plain _ _ _ _ _ _ _ St id Hn Hp) in Hi. done. Qed.

Lemma written_mutated s s' a id w r :
  matches s a -> fitted s -> written 65540 s s' id w r ->
  onward s s' /\ matches s' (after s' a) /\ lmutated (starved (lp_db s')) (RpRc r) a (after s' a) id w.
Proof.
  intros Hm Hf [[-> Hs]|[(-> & Hs & Hi)|(-> & Hs & Hi)]].
  - destruct (sets_puts _ _ _ _ _ _ Hm Hs) as [? ?]. split; [by eapply sets_onward|]. split; [done|]. by left.
  - destruct (steady_holds _ _ _ _ Hm Hs) as [? ?]. split; [by eapply steady_onward|]. split; [done|]. right; right. split; [done|].
    split; [done|]. by eapply internal_not_issued.
  - destruct (steady_holds _ _ _ _ Hm Hs) as [? ?]. split; [by eapply steady_onward|]. split; [done|]. by right; left.
Qed.

Lemma missing_step s s' a id r :
  matches s a -> fitted s -> steady 65540 s s' -> (r = Err ENOENT \/ (r = Err EINVAL /\ internal (lp_db s') id = true)) ->
  onward s s' /\ matches s' (after s' a) /\ lmissing (RpRc r) a (after s' a) id.
Proof.
  intros Hm Hf Hs Hr. destruct (steady_holds _ _ _ _ Hm Hs) as [? ?]. split; [by eapply steady_onward|]. split; [done|]. split; [done|].
  destruct Hr as [->|[-> Hi]]; [by left|right]. split; [done|]. by eapply internal_not_issued.
Qed.

(** ** One call *)

Lemma lexec_wp {A} (m : M lp A) (f : res A -> reply) s (Q : reply -> lp -> Prop) :
  wp m s (fun r s' => Q (f r) s') -> let (r, s') := lreply f m s in Q r s'.
Proof. unfold wp, lreply. by destruct (m s). Qed.

(** The geometry a call runs with is the one of the session. *)
Lemma with_geo_session {A} (f : geom -> M lp A) s Q : lsession s -> wp (f g) s Q -> wp (Large.with_geo f) s Q.
Proof.
  intros Ls Hf. unfold Large.with_geo. apply wp_bnd, wp_on, wp_gets. cbv beta.
  rewrite (lv_geo _ _ _ _ (se_live _ _ _ _ (ls_session _ _ _ _ _ Ls))). by assert (with_db s (lp_db s) = s) as -> by by destruct s.
Qed.

Ltac open_lcall Ls := unfold lsimulates, lexec;
  eapply lexec_wp with (Q := fun r s' => onward _ s' /\ exists a' starved_for, matches s' a' /\ lobj_step _ _ starved_for _ r _ a');
  apply (with_geo_session _ _ _ Ls).

(** A read through its public wrapper, which only renames -ENOTSUP. *)
Lemma lread_call {A} s a (m : M lp A) want (f : res A -> reply) o :
  lsession s -> fitted s -> matches s a -> want <> Err ENOTSUP -> wp m s (fun r s' => looked s s' /\ r = want) ->
  (forall a', holds_on a a' -> lobj_step cfg MAX_OBJECT_LEN (fun _ => False) o (f want) a a') ->
  wp (Large.read_rc m) s (fun r s' => onward s s' /\ exists a' sf, matches s' a' /\ lobj_step cfg MAX_OBJECT_LEN sf o (f r) a a').
Proof.
  intros Ls Hf Hm Hne Hr Hst. unfold Large.read_rc. apply wp_bnd, wp_try. eapply wp_mono; [exact Hr|]. cbv beta. intros r s' [Hl ->].
  pose proof (looked_steady cfg MAX_OBJECT_LEN g sidx_wf _ _ Hl) as St. destruct (steady_holds _ _ _ _ Hm St) as [Hm' Ho].
  assert (onward s s' /\ exists a' sf, matches s' a' /\ lobj_step cfg MAX_OBJECT_LEN sf o (f want) a a') as Hq.
  { split; [eapply steady_onward; [done|exact St|lia]|]. eexists _, _. split; [exact Hm'|by apply Hst]. }
  destruct want as [x|e]; [by apply wp_ret|]. destruct e; (done || by apply wp_fail).
Qed.

Lemma lget_sim s a id sz : lsession s -> fitted s -> matches s a -> 0 <= id < 2 ^ 64 -> lsimulates (OpGet id sz) s a.
Proof.
  intros Ls Hf Hm Hid. open_lcall Ls. eapply (lread_call s a _ _ RpBytes); [done|done|done| |by apply get_impl_large|].
  - destruct (object (lp_db s) id) as [v|]; [by destruct (sz <? len v)|done].
  - intros a' Ho. split; [done|]. by rewrite (mt_objects _ _ Hm).
Qed.

Lemma lsize_sim s a id : lsession s -> fitted s -> matches s a -> 0 <= id < 2 ^ 64 -> lsimulates (OpSize id) s a.
Proof.
  intros Ls Hf Hm Hid. open_lcall Ls. eapply (lread_call s a _ _ RpLen); [done|done|done| |by apply size_impl_large|].
  - by destruct (object (lp_db s) id).
  - intros a' Ho. split; [done|]. by rewrite (mt_objects _ _ Hm).
Qed.

Lemma lread_sim s a id off n : lsession s -> fitted s -> matches s a -> 0 <= id < 2 ^ 64 -> 0 <= off -> 0 <= n -> lsimulates (OpRead id off n) s a.
Proof.
  intros Ls Hf Hm Hid Ho Hn. open_lcall Ls. eapply (lread_call s a _ _ RpBytes); [done|done|done| |by apply read_impl_large|].
  - by destruct (object (lp_db s) id).
  - intros a' Hh. split; [done|]. by rewrite (mt_objects _ _ Hm).
Qed.

Lemma lexists_sim s a id : lsession s -> fitted s -> matches s a -> 0 <= id < 2 ^ 64 -> lsimulates (OpExists id) s a.
Proof.
  intros Ls Hf Hm Hid. open_lcall Ls. eapply wp_mono; [by apply (exists_impl_large cfg MAX_OBJECT_LEN g Hg sidx_wf)|]. cbv beta. intros r s' [Hl ->].
  pose proof (looked_steady cfg MAX_OBJECT_LEN g sidx_wf _ _ Hl) as St. destruct (steady_holds _ _ _ _ Hm St) as [Hm' Ho].
  split; [eapply steady_onward; [done|exact St|lia]|]. exists (after s' a), (fun _ => False). split; [done|]. split; [done|]. by rewrite (mt_objects _ _ Hm).
Qed.

Lemma lalloc_sim s a : lsession s -> fitted s -> matches s a -> lroom s 65540 -> lsimulates OpAlloc s a.
Proof.
  intros Ls Hf Hm Hr. pose proof (ls_session _ _ _ _ _ Ls) as Se. open_lcall Ls.
  eapply wp_mono; [apply (on_alloc cfg g Hg sidx_wf s Se); destruct Hr; split; lia|]. cbv beta. intros r s' (-> & K & Hn).
  pose proof (kept_steady cfg MAX_OBJECT_LEN g sidx_wf _ _ _ Ls K) as St. destruct (steady_holds _ _ _ _ Hm St) as [[M1 M2 M3] (_ & _ & Ho)].
  assert (slots cfg g (lp_db s) (next_id (d_st (lp_db s))) = None) as E.
  { destruct (slots cfg g (lp_db s) (next_id (d_st (lp_db s)))) eqn:E; [|done]. pose proof (ls_fresh _ _ _ _ _ Ls (next_id (d_st (lp_db s)))) as Hx.
    rewrite E in Hx. specialize (Hx ltac:(done)). lia. }
  split; [eapply steady_onward; [done|exact St|lia]|].
  exists (mk_lobj_store (object (lp_db s')) (next_id (d_st (lp_db s'))) (next_id (d_st (lp_db s)) :: lo_issued a)), (fun _ => False).
  cbn [lobj_step lo_objects lo_next lo_issued]. rewrite (mt_next _ _ Hm), (mt_objects _ _ Hm). split; [split|]; cbn [lo_objects lo_next lo_issued]; try done.
  - intros id [->|Hin]%elem_of_cons; [|by apply M3]. split; [lia|]. rewrite (internal_same cfg g _ _ _ (kp_slots _ _ _ _ _ _ K)).
    unfold SegBase.internal. by rewrite E.
  - split_and!; try done. by apply no_object.
Qed.

Lemma lupdate_sim s a id p :
  lsession s -> fitted s -> matches s a -> 0 <= id < 2 ^ 64 -> bytes_ok p -> lroom s 65540 -> lsimulates (OpUpdate id p) s a.
Proof.
  intros Ls Hf Hm Hid Hp Hr. open_lcall Ls. eapply wp_mono; [by apply (update_impl_large cfg MAX_OBJECT_LEN g Hg Ha sidx_wf Hlarge)|]. cbv beta. intros r s' Hq.
  cbn [lobj_step]. rewrite (mt_next _ _ Hm), Z.geb_leb, Z.gtb_ltb. destruct (_ || _ || _).
  - destruct Hq as [-> ->]. pose proof (kept_steady cfg MAX_OBJECT_LEN g sidx_wf _ _ _ Ls (kept_here cfg g sidx_wf s (ls_session _ _ _ _ _ Ls))) as St.
    destruct (steady_holds _ _ _ _ Hm St) as [Hm' Ho]. split; [eapply steady_onward; [done|exact St|lia]|]. by exists (after s a), (fun _ => False).
  - destruct (written_mutated _ _ _ _ _ _ Hm Hf Hq) as (? & ? & ?). split; [done|]. by exists (after s' a), (starved (lp_db s')).
Qed.

Lemma ldelete_sim s a id :
  lsession s -> fitted s -> matches s a -> 0 <= id < 2 ^ 64 -> id <> BLOB_DB_ROOT_ID -> lroom s 65540 -> lsimulates (OpDelete id) s a.
Proof.
  intros Ls Hf Hm Hid Hroot Hr. open_lcall Ls. eapply wp_mono; [by apply (delete_impl_large cfg MAX_OBJECT_LEN g Hg Ha sidx_wf Hlarge)|]. cbv beta. intros r s' Hq.
  cbn [lobj_step]. rewrite (mt_objects _ _ Hm). destruct (object (lp_db s) id) as [v|].
  - destruct (written_mutated _ _ _ _ _ _ Hm Hf Hq) as (? & ? & ?). split; [done|]. by exists (after s' a), (starved (lp_db s')).
  - destruct Hq as [St Hx]. destruct (missing_step _ _ _ _ _ Hm Hf St Hx) as (? & ? & ?). split; [done|]. by exists (after s' a), (fun _ => False).
Qed.

Lemma lwrite_sim s a id off b :
  lsession s -> fitted s -> matches s a -> 0 <= id < 2 ^ 64 -> 0 <= off < 2 ^ 32 -> len b < 2 ^ 32 -> bytes_ok b -> lroom s 65540 ->
  lsimulates (OpWrite id off b) s a.
Proof.
  intros Ls Hf Hm Hid Ho Hl Hb Hr. open_lcall Ls. eapply wp_mono; [by apply (write_impl_large cfg MAX_OBJECT_LEN g Hg Ha sidx_wf Hlarge)|]. cbv beta. intros r s' Hq.
  assert (forall k sf, steady k s s' -> 0 <= k <= 65540 -> (holds_on a (after s' a) -> lobj_step cfg MAX_OBJECT_LEN sf (OpWrite id off b) (RpRc r) a (after s' a)) ->
    onward s s' /\ exists a' sf, matches s' a' /\ lobj_step cfg MAX_OBJECT_LEN sf (OpWrite id off b) (RpRc r) a a') as Hkeep.
  { intros k sf St Hk Hst. destruct (steady_holds _ _ _ _ Hm St) as [Hm' Hh]. split; [by eapply steady_onward|]. exists (after s' a), sf. auto. }
  pose proof (kept_steady cfg MAX_OBJECT_LEN g sidx_wf _ _ _ Ls (kept_here cfg g sidx_wf s (ls_session _ _ _ _ _ Ls))) as St0.
  cbn [lobj_step] in *. rewrite (mt_objects _ _ Hm), Z.geb_leb in *. destruct (Z.eqb_spec id 0) as [->|Hne]; cbn [negb andb] in *.
  { destruct Hq as [-> ->]. apply (Hkeep 0 (fun _ => False)); [done|lia|]. intros Hh. rewrite (object_zero cfg g Hg sidx_wf) by apply Ls. split; [done|by left]. }
  destruct (2 ^ 32 <=? off + len b) eqn:Hbig.
  { destruct Hq as [-> ->]. by apply (Hkeep 0 (fun _ => False)). }
  destruct (object (lp_db s) id) as [v|].
  2: { destruct Hq as [St Hx]. destruct (missing_step _ _ _ _ _ Hm Hf St Hx) as (? & ? & ?). split; [done|]. by exists (after s' a), (fun _ => False). }
  destruct (len b =? 0) eqn:Hb0; [destruct Hq as [-> St]; by apply (Hkeep 65540 (fun _ => False))|].
  destruct Hq as [Hw|(-> & St & Hbg)].
  - destruct (written_mutated _ _ _ _ _ _ Hm Hf Hw) as (? & ? & ?). split; [done|]. exists (after s' a), (starved (lp_db s')). split; [done|by left].
  - apply (Hkeep 65540 (fun _ => False)); [done|lia|]. intros Hh. right. split; [done|]. split; [done|]. destruct (patched_spec off b v) as [-> _]; [lia|done].
Qed.

Lemma lcount_sim s a : lsession s -> fitted s -> matches s a -> lsimulates OpCount s a.
Proof.
  intros Ls Hf Hm. pose proof (ls_session _ _ _ _ _ Ls) as Se. pose proof (se_live _ _ _ _ Se) as Lv. pose proof (se_inv cfg g sidx_wf s Se) as Hi.
  pose proof (ok_buckets _ _ Hg). unfold lsimulates, lexec.
  eapply lexec_wp with (Q := fun r s' => onward s s' /\ exists a' sf, matches s' a' /\ lobj_step cfg MAX_OBJECT_LEN sf OpCount r a a').
  apply wp_on. unfold blob_db_count. apply wp_bnd, wp_gets. rewrite (lv_geo _ _ _ _ Lv). unfold count_impl. apply wp_bnd, wp_gets. rewrite (lv_mounted _ _ _ _ Lv).
  cbn [negb]. change 0 with (u32 0) at 2. eapply wp_mono; [apply (count_loop_spec cfg g Hg); try done; [apply Se|lia]|].
  cbv beta. intros r d' [-> Hr]. assert (kept cfg g sidx_wf 0 s (with_db s d')) as K.
  { apply (seen_kept cfg g sidx_wf); [done|]. split_and!; [by apply ro_roi|by eapply coherent_ro, Hi|done]. }
  pose proof (kept_steady cfg MAX_OBJECT_LEN g sidx_wf _ _ _ Ls K) as St. destruct (steady_holds _ _ _ _ Hm St) as [Hm' Hh].
  split; [eapply steady_onward; [done|exact St|lia]|]. exists (after (with_db s d') a), (fun _ => False). split; [done|]. split; [done|].
  exists (e_id <$> objects cfg g (lp_db s)). split_and!.
  - apply (objects_from_nodup cfg g sidx_wf); [done|lia..].
  - intros id. rewrite list_elem_of_fmap, (mt_objects _ _ Hm). unfold SegBase.object. split.
    + intros (e & -> & He). destruct (objects_from_slot cfg g sidx_wf (lp_db s) (Z.to_nat (n_buckets g)) 0 e Hi ltac:(lia) ltac:(lia) He) as (_ & _ & -> & Hsh).
      unfold shown_flags in Hsh. rewrite Hlarge in Hsh. apply negb_true_iff in Hsh. unfold is_seg. cbn [andb] in Hsh. rewrite Hsh. by destruct (is_idx _).
    + destruct (slots cfg g (lp_db s) id) as [[fl p]|] eqn:E; [|done]. destruct (is_seg fl) eqn:Hsg; [done|]. intros _. pose proof (bucket_range cfg g Hg id).
      destruct (objects_from_all cfg g (lp_db s) (Z.to_nat (n_buckets g)) 0 id fl p) as (e & ? & ? & _); [lia..|done| |by exists e].
      unfold shown_flags, is_seg in *. by rewrite Hsg, andb_false_r.
  - do 2 f_equal. unfold len. by rewrite length_fmap.
Qed.

Lemma lremount_sim s a : lsession s -> fitted s -> matches s a -> lroom s 65540 -> lsimulates OpRemount s a.
Proof.
  intros Ls Hf [M1 M2 M3] Hr. unfold lsimulates, lexec.
  eapply lexec_wp with (Q := fun r s' => onward s s' /\ exists a' sf, matches s' a' /\ lobj_step cfg MAX_OBJECT_LEN sf OpRemount r a a').
  eapply wp_mono; [apply (remount_large cfg MAX_OBJECT_LEN SEGMENT_LEN MAX_SEGMENTS g Hg Ha sidx_wf Hlarge Hop Hnd Hbuild s Ls Hf Hfits); destruct Hr; split; lia|].
  cbv beta. intros r s' [-> [B1 B2 B3 B4 B5 B6]]. split; [split_and!; try done; lia|]. exists (after s' a), (fun _ => False). split.
  - split; cbn; try done. intros id Hid. destruct (M3 id Hid) as [Hn Hi]. split; [lia|by apply B6].
  - split; [done|]. split; cbn; [lia|]. split; [done|]. intros id. by rewrite B5, M1.
Qed.

(** ** Runs *)

Lemma lstep_sim s a o : lsession s -> fitted s -> matches s a -> lroom s 65540 -> op_ok o -> lsimulates o s a.
Proof.
  intros Ls Hf Hm Hr Ho. destruct o; cbn in Ho.
  - by apply lalloc_sim.
  - by apply lget_sim.
  - destruct Ho. by apply lupdate_sim.
  - destruct Ho. by apply ldelete_sim.
  - by apply lexists_sim.
  - by apply lsize_sim.
  - destruct Ho as (? & ? & ?). by apply lread_sim.
  - destruct Ho as (? & ? & ? & ?). by apply lwrite_sim.
  - by apply lcount_sim.
  - by apply lremount_sim.
Qed.

Lemma lrun_sim os s a :
  lsession s -> fitted s -> matches s a -> lroom s (65540 * len os) -> Forall op_ok os ->
  let (rs, s') := lrun os s in lsession s' /\ fitted s' /\ exists a', matches s' a' /\ lobj_steps cfg MAX_OBJECT_LEN os rs a a'.
Proof.
  intros Ls Hf Hm Hr Ho. revert s a Ls Hf Hm Hr. induction Ho as [|o os Ho Hos IH]; intros s a Ls Hf Hm Hr; cbn [lrun].
  - split; [done|]. split; [done|]. exists a. split; [done|constructor].
  - rewrite len_cons in Hr. destruct Hr as [Hr1 Hr2]. pose proof (len_nonneg os).
    pose proof (lstep_sim s a o Ls Hf Hm ltac:(split; lia) Ho) as Hs. unfold lsimulates in Hs. destruct (lexec o s) as [r s1].
    destruct Hs as ((Ls1 & Hf1 & Hn & Hg1) & a1 & sf & Hm1 & Hst). specialize (IH s1 a1 Ls1 Hf1 Hm1 ltac:(split; lia)). destruct (lrun os s1) as [rs s2].
    destruct IH as (Ls2 & Hf2 & a2 & Hm2 & Hss). split; [done|]. split; [done|]. exists a2. split; [done|]. by eapply lobj_cons.
Qed.

(** A fresh store: the root, which is empty, and nothing else. *)
Definition lobj_fresh : lobj_store := mk_lobj_store (fun id => if decide (id = BLOB_DB_ROOT_ID) then Some [] else None) 2 [].

Lemma fresh_matches s : fresh_store cfg MAX_OBJECT_LEN SEGMENT_LEN MAX_SEGMENTS g sidx_wf s -> matches s lobj_fresh.
Proof. intros [F1 F2 F3 F4 F5]. split; cbn; [done|done|]. intros id Hid. by apply elem_of_nil in Hid. Qed.
End runs.
