(* ===== verification/Inspect.v ===== *)
(** Inspection (lib/blob_db/blob_db_inspect.c): the geometry of a mounted store
    and the occupancy of a bucket, and that the figures are those of the log: the
    slots reported live are the ones a compaction keeps, and the bytes of a
    bucket add up. *)

From S2P Require Import Prelude Layout Store SlotIndexIface Image Core CoreRead Compact CompactImage Ops OpsRead.

(** ** Data *)

(** [struct blob_db_core_state], and [struct blob_db_core_slot]. *)
Record blob_db_core_state := mk_core_state {
  cs_mounted : bool;
  cs_wedged : bool;
  cs_fa_size : Z;
  cs_peb_size : Z;
  cs_write_align : Z;
  cs_n_pebs : Z;
  cs_n_buckets : Z;
  cs_active_master : Z;
  cs_rot_gen : Z;
  cs_rec_size : Z;
  cs_log_used : Z;
  cs_log_cap : Z;
  cs_incompat : Z;
  cs_ro_compat : Z;
  cs_compat : Z;
  cs_suite : Z;
  cs_fuses : Z;
  cs_next_id : Z;
  cs_next_id_hint : Z;
  cs_seg_owner : Z;
}.

Record blob_db_core_slot := mk_core_slot {
  co_id : Z;
  co_flags : Z;
  co_val_len : Z;
  co_total_size : Z;
  co_intact : bool;
}.

Record blob_db_inspect_info := mk_inspect_info {
  partition_size : Z;
  sector_size : Z;
  info_write_align : Z;
  n_sectors : Z;
  info_n_buckets : Z;
  bucket_capacity : Z;
  info_max_payload_len : Z;
  slot_overhead : Z;
  info_format_major : Z;
  info_format_minor : Z;
  info_active_master : Z;
  info_rot_gen : Z;
  master_rec_size : Z;
  master_log_used : Z;
  master_log_cap : Z;
  info_incompat : Z;
  info_ro_compat : Z;
  info_compat : Z;
  info_suite : Z;
  info_fuses : Z;
  info_next_id : Z;
  info_next_id_hint : Z;
  info_seg_owner : Z;
  info_wedged : bool;
}.

Inductive blob_db_inspect_slot_state :=
  | BLOB_DB_INSPECT_LIVE
  | BLOB_DB_INSPECT_SUPERSEDED
  | BLOB_DB_INSPECT_TOMBSTONE
  | BLOB_DB_INSPECT_ROTTEN.

Record blob_db_inspect_slot := mk_inspect_slot {
  si_offset : Z;
  si_size : Z;
  si_id : Z;
  si_val_len : Z;
  si_flags : Z;
  si_state : blob_db_inspect_slot_state;
  si_segment : bool;
  si_index : bool;
}.

Record blob_db_inspect_bucket := mk_inspect_bucket {
  formatted : bool;
  ib_gen : Z;
  capacity : Z;
  live_bytes : Z;
  payload_bytes : Z;
  garbage_bytes : Z;
  tail_bytes : Z;
  free_bytes : Z;
  ib_objects : Z;
  ib_segments : Z;
  ib_superseded : Z;
  ib_tombstones : Z;
  ib_rotten : Z;
}.

Module Inspect.
Section defs.
Context (cfg : config) (g : geom) `{Crc}.
Context {S I : Type} `{!Store S} `{!SlotIndex I}.
Notation db := (db S I).

(** ** The hooks of blob_db.c *)

Definition blob_db_core_state_get (d : db) : blob_db_core_state :=
  let st := d_st d in
  let g := d_geo d in
  mk_core_state (mounted st) (wedged st) (fa_size g) (peb_size g) (write_align g) (n_pebs g) (n_buckets g)
    (active_master st) (rot_gen st) (rec_size g) (log_next st) (log_cap g) (incompat st) (ro_compat st) (compat st)
    BLOB_DB_BUILD_SUITE (fuses st) (next_id st) (next_id_hint st) (seg_owner st).

Definition blob_db_core_slot_at (buf : bytes) (off : Z) : option blob_db_core_slot :=
  match slot_walk_at cfg g buf off with
  | Some (sv, intact) => Some (mk_core_slot (sv_id sv) (sv_flags sv) (sv_val_len sv) (sv_total_size sv) intact)
  | None => None
  end.

Definition blob_db_core_bucket_hdr_valid (buf : bytes) (bid : Z) : bool := bucket_hdr_valid buf bid.

(** ** The calls *)

(** [out] tells whether the caller passed a place for the answer. *)
Definition info_get_impl (out : bool) : M db blob_db_inspect_info := fun d =>
  let st := blob_db_core_state_get d in
  if negb out then (Err EINVAL, d)
  else if negb (cs_mounted st) then (Err ENODEV, d)
  else
    (Ok (mk_inspect_info (cs_fa_size st) (cs_peb_size st) (cs_write_align st) (cs_n_pebs st) (cs_n_buckets st)
      (cs_peb_size st - BLOB_DB_BUCKET_DATA_OFF) (MAX_PAYLOAD_LEN cfg) BLOB_DB_SLOT_OVERHEAD
      BLOB_DB_FORMAT_MAJOR BLOB_DB_FORMAT_MINOR (cs_active_master st) (cs_rot_gen st) (cs_rec_size st)
      (cs_log_used st) (cs_log_cap st) (cs_incompat st) (cs_ro_compat st) (cs_compat st) (cs_suite st)
      (cs_fuses st) (cs_next_id st) (cs_next_id_hint st) (cs_seg_owner st) (cs_wedged st)), d).

(** The scan ahead of a slot for a newer intact one of its id. *)
Fixpoint newer_from (fuel : nat) (buf : bytes) (scan id : Z) : bool :=
  match fuel with
  | O => false
  | Datatypes.S fuel =>
      match blob_db_core_slot_at buf scan with
      | None => false
      | Some future =>
          if co_intact future && (co_id future =? id) then true
          else newer_from fuel buf (scan + co_total_size future) id
      end
  end.

(** A slot with its state, and what it adds to the figures. *)
Definition judge (cursor : Z) (sv : blob_db_core_slot) (superseded : bool) : blob_db_inspect_slot :=
  mk_inspect_slot (u32 cursor) (u32 (co_total_size sv)) (co_id sv) (co_val_len sv) (co_flags sv)
    (if negb (co_intact sv) then BLOB_DB_INSPECT_ROTTEN
     else if flag_set (co_flags sv) BLOB_DB_SLOT_F_TOMBSTONE then BLOB_DB_INSPECT_TOMBSTONE
     else if superseded then BLOB_DB_INSPECT_SUPERSEDED
     else BLOB_DB_INSPECT_LIVE)
    (LARGE_PAYLOADS cfg && flag_set (co_flags sv) BLOB_DB_SLOT_F_SEGMENT)
    (LARGE_PAYLOADS cfg && flag_set (co_flags sv) BLOB_DB_SLOT_F_INDEXED).

Definition add_slot (si : blob_db_inspect_slot) (o : blob_db_inspect_bucket) : blob_db_inspect_bucket :=
  let '(mk_inspect_bucket fm gen cap lv pay gb tl fr ob sg su to ro) := o in
  let gb' := u32 (gb + si_size si) in
  match si_state si with
  | BLOB_DB_INSPECT_ROTTEN => mk_inspect_bucket fm gen cap lv pay gb' tl fr ob sg su to (u16 (ro + 1))
  | BLOB_DB_INSPECT_TOMBSTONE => mk_inspect_bucket fm gen cap lv pay gb' tl fr ob sg su (u16 (to + 1)) ro
  | BLOB_DB_INSPECT_SUPERSEDED => mk_inspect_bucket fm gen cap lv pay gb' tl fr ob sg (u16 (su + 1)) to ro
  | BLOB_DB_INSPECT_LIVE =>
      mk_inspect_bucket fm gen cap (u32 (lv + si_size si)) (u32 (pay + si_val_len si)) gb tl fr
        (if si_segment si then ob else u16 (ob + 1)) (if si_segment si then u16 (sg + 1) else sg) su to ro
  end.

(** The walk over the slots: the value a callback stopped it with, or 0; where it
    ended; the figures; the caller's data. *)
Fixpoint bucket_walk {U} (fuel : nat) (buf : bytes) (cursor : Z) (cb : option (blob_db_inspect_slot -> U -> Z * U))
    (o : blob_db_inspect_bucket) (user : U) : Z * Z * blob_db_inspect_bucket * U :=
  match fuel with
  | O => (0, cursor, o, user)
  | Datatypes.S fuel =>
      match blob_db_core_slot_at buf cursor with
      | None => (0, cursor, o, user)
      | Some sv =>
          let next := cursor + co_total_size sv in
          let superseded := co_intact sv && newer_from (walk_fuel g) buf next (co_id sv) in
          let si := judge cursor sv superseded in
          let o := add_slot si o in
          match cb with
          | None => bucket_walk fuel buf next cb o user
          | Some f =>
              let (rc, user) := f si user in
              if negb (rc =? 0) then (rc, cursor, o, user) else bucket_walk fuel buf next cb o user
          end
      end
  end.

(** Down from the end of the sector over erased bytes: [k] bytes above [cursor]
    are left to look at. *)
Fixpoint programmed_end (k : nat) (buf : bytes) (cursor : Z) : Z :=
  match k with
  | O => cursor
  | Datatypes.S k =>
      if byte_at (cursor + Z.of_nat k) buf =? 255 then programmed_end k buf cursor else cursor + Z.of_nat k + 1
  end.

Definition close_figures (tail : Z) (o : blob_db_inspect_bucket) : blob_db_inspect_bucket :=
  mk_inspect_bucket (formatted o) (ib_gen o) (capacity o) (live_bytes o) (payload_bytes o) (garbage_bytes o)
    (u32 tail) (u32 (capacity o - live_bytes o - garbage_bytes o - u32 tail))
    (ib_objects o) (ib_segments o) (ib_superseded o) (ib_tombstones o) (ib_rotten o).

Definition empty_figures (fm : bool) (gen : Z) : blob_db_inspect_bucket :=
  let cap := u32 (peb_size g - BLOB_DB_BUCKET_DATA_OFF) in
  mk_inspect_bucket fm gen cap 0 0 0 0 cap 0 0 0 0 0.

(** An error of the action leaves [out] as it was; past the checks [out] is
    written and comes back with the code. *)
Definition bucket_get_impl {U} (bid : Z) (out : bool) (cb : option (blob_db_inspect_slot -> U -> Z * U)) (user : U) :
    M db (res Z * blob_db_inspect_bucket * U) :=
  if negb out then mfail EINVAL else
  let* m := st_get mounted in
  if negb m then mfail ENODEV
  else if bid >=? n_buckets g then mfail EINVAL
  else
    let* rc := mtry (io (blob_db_store_read (peb_offset g (BLOB_DB_FIRST_BUCKET + bid)) (peb_size g))) in
    match rc with
    | Err e => mret (Err e, empty_figures false 0, user)
    | Ok buf =>
        if negb (blob_db_core_bucket_hdr_valid buf bid) then mret (Ok 0, empty_figures false 0, user)
        else
          let o := empty_figures true (bh_gen (dec_bucket_hdr buf)) in
          let '(rc, cursor, o, user) := bucket_walk (walk_fuel g) buf BLOB_DB_BUCKET_DATA_OFF cb o user in
          if negb (rc =? 0) then mret (Ok rc, o, user)
          else
            let end_ := programmed_end (Z.to_nat (peb_size g - cursor)) buf cursor in
            mret (Ok 0, close_figures (end_ - cursor) o, user)
    end.

(** The public calls take the library lock around these. *)
Definition blob_db_inspect_info_get (out : bool) : M db blob_db_inspect_info := info_get_impl out.

Definition blob_db_inspect_bucket_get {U} (bid : Z) (out : bool) (cb : option (blob_db_inspect_slot -> U -> Z * U))
    (user : U) : M db (res Z * blob_db_inspect_bucket * U) := bucket_get_impl bid out cb user.
End defs.
End Inspect.

(** ** What the figures mean *)

Section figures.
Context (cfg : config) (g : geom) `{Crc}.
Context (Hg : geom_ok cfg g).

(** The slots of a log as the walk judges them. *)
Definition core_of (e : entry) : blob_db_core_slot :=
  mk_core_slot (e_id e) (sv_flags (e_sv e)) (sv_val_len (e_sv e)) (e_size e) (e_intact e).

Definition shadowed (e : entry) (l : list entry) : bool :=
  e_intact e && match newest (e_id e) l with Some _ => true | None => false end.

Fixpoint judged (l : list entry) : list blob_db_inspect_slot :=
  match l with
  | [] => []
  | e :: l => Inspect.judge cfg (e_off e) (core_of e) (shadowed e l) :: judged l
  end.

(** The slots in order, each counted and then shown to the callback. *)
Fixpoint report {U} (cb : option (blob_db_inspect_slot -> U -> Z * U)) (js : list blob_db_inspect_slot)
    (o : blob_db_inspect_bucket) (user : U) : Z * blob_db_inspect_bucket * U :=
  match js with
  | [] => (0, o, user)
  | j :: js =>
      match cb with
      | None => report cb js (Inspect.add_slot j o) user
      | Some f =>
          let (rc, user) := f j user in
          if negb (rc =? 0) then (rc, Inspect.add_slot j o, user) else report cb js (Inspect.add_slot j o) user
      end
  end.

Lemma newer_from_eq fuel buf scan id : Inspect.newer_from cfg g fuel buf scan id = superseded_from cfg g fuel buf scan id.
Proof.
  revert scan. induction fuel as [|fuel IH]; intros scan; [done|]. cbn [Inspect.newer_from superseded_from].
  unfold Inspect.blob_db_core_slot_at. destruct (slot_walk_at cfg g buf scan) as [[sv i]|]; [|done].
  cbn [co_intact co_id co_total_size]. by rewrite IH.
Qed.

Lemma bucket_walk_spec {U} fuel buf off l e (cb : option (blob_db_inspect_slot -> U -> Z * U)) o user :
  bytes_ok buf -> 16 <= off <= peb_size g ->
  log_rel cfg g buf off l e -> slot_walk_at cfg g buf e = None -> (length l < fuel)%nat ->
  exists c, Inspect.bucket_walk cfg g fuel buf off cb o user =
    (let '(rc, o', u) := report cb (judged l) o user in (rc, c, o', u)) /\
    ((report cb (judged l) o user).1.1 = 0 -> c = e).
Proof.
  intros Hb Ho Hl He. revert fuel o user Ho.
  induction Hl as [off|off sv i l e Hw Hl IH]; intros fuel o user Ho Hf; (destruct fuel as [|fuel]; [simpl in Hf; lia|]);
    cbn [Inspect.bucket_walk judged report]; unfold Inspect.blob_db_core_slot_at.
  - rewrite He. by exists off.
  - rewrite Hw. destruct (slot_walk_bounds cfg g Hg _ off _ _ Hb ltac:(lia) Hw) as (?&?&?&Hsz).
    destruct (slot_size_spec cfg g Hg (sv_val_len sv)) as (_ & Hs & _).
    pose proof (log_rel_bounds cfg g Hg _ (off + sv_total_size sv) _ _ Hb ltac:(lia) Hl) as Hbd. simpl in Hf.
    cbv zeta. cbn [co_intact co_id co_total_size]. rewrite newer_from_eq.
    assert (i && superseded_from cfg g (walk_fuel g) buf (off + sv_total_size sv) (sv_id sv) =
      shadowed (mk_entry off sv i (slice off (sv_total_size sv) buf)) l) as ->.
    { unfold shadowed, e_id. cbn [e_intact e_sv]. f_equal. eapply superseded_from_spec; [done..|].
      unfold walk_fuel, len in *. lia. }
    change (mk_core_slot (sv_id sv) (sv_flags sv) (sv_val_len sv) (sv_total_size sv) i)
      with (core_of (mk_entry off sv i (slice off (sv_total_size sv) buf))). cbn [e_off].
    set (j := Inspect.judge _ _ _ _). destruct cb as [f|]; [|by apply IH; [done|lia|lia]].
    destruct (f j user) as [rc u]. destruct (Z.eqb_spec rc 0) as [->|Hne]; cbn [negb]; [by apply IH; [done|lia|lia]|].
    exists off. split; [done|]. cbn. lia.
Qed.

(** What one slot adds. *)
Definition count_of (b : bool) : Z := if b then 1 else 0.

Definition slots_counted (o : blob_db_inspect_bucket) : Z :=
  ib_objects o + ib_segments o + ib_superseded o + ib_tombstones o + ib_rotten o.

Record sane (o : blob_db_inspect_bucket) : Prop := {
  sn_bytes : 0 <= payload_bytes o <= live_bytes o /\ 0 <= garbage_bytes o;
  sn_slots : 0 <= ib_objects o /\ 0 <= ib_segments o /\ 0 <= ib_superseded o /\ 0 <= ib_tombstones o /\ 0 <= ib_rotten o;
  sn_room : 14 * slots_counted o <= live_bytes o + garbage_bytes o;
}.

Definition dead (e : entry) (newer : bool) : bool := negb (e_intact e) || e_tomb e || newer.

Record added (e : entry) (newer : bool) (o o' : blob_db_inspect_bucket) : Prop := {
  ad_kept : formatted o' = formatted o /\ ib_gen o' = ib_gen o /\ capacity o' = capacity o;
  ad_live : live_bytes o' = live_bytes o + (if dead e newer then 0 else e_size e);
  ad_garbage : garbage_bytes o' = garbage_bytes o + (if dead e newer then e_size e else 0);
  ad_payload : payload_bytes o' = payload_bytes o + (if dead e newer then 0 else sv_val_len (e_sv e));
  ad_objects : ib_objects o' = ib_objects o + count_of (negb (dead e newer) && shown_flags cfg (sv_flags (e_sv e)));
  ad_live_slots : ib_objects o' + ib_segments o' = ib_objects o + ib_segments o + count_of (negb (dead e newer));
  ad_tombstones : ib_tombstones o' = ib_tombstones o + count_of (e_intact e && e_tomb e);
  ad_rotten : ib_rotten o' = ib_rotten o + count_of (negb (e_intact e));
  ad_slots : slots_counted o' = slots_counted o + 1;
  ad_sane : sane o';
}.

Lemma add_slot_spec e newer o :
  0 <= e_off e < 2 ^ 32 -> 0 <= sv_val_len (e_sv e) -> 14 + sv_val_len (e_sv e) <= e_size e ->
  sane o -> live_bytes o + garbage_bytes o + e_size e <= 65536 ->
  added e newer o (Inspect.add_slot (Inspect.judge cfg (e_off e) (core_of e) (e_intact e && newer)) o).
Proof.
  intros Ho Hv Hs [Hby Hsl Hrm] Hb. unfold slots_counted in Hrm. destruct o as [fm gen cap lv pay gb tl fr ob sg su to ro].
  cbn [payload_bytes live_bytes garbage_bytes ib_objects ib_segments ib_superseded ib_tombstones ib_rotten] in *.
  assert (u32 (e_size e) = e_size e) as Es by (apply u32_small; lia).
  assert (u32 (gb + e_size e) = gb + e_size e) as Eg by (apply u32_small; lia).
  assert (u32 (lv + e_size e) = lv + e_size e) as El by (apply u32_small; lia).
  assert (u32 (pay + sv_val_len (e_sv e)) = pay + sv_val_len (e_sv e)) as Ep by (apply u32_small; lia).
  assert (forall n, 0 <= n -> 14 * n <= 65536 -> u16 (n + 1) = n + 1) as Ec by (intros; apply u16_small; lia).
  unfold Inspect.add_slot, Inspect.judge, core_of.
  cbn [si_size si_state si_val_len si_segment co_id co_flags co_val_len co_total_size co_intact]. rewrite Es, Eg, El, Ep.
  rewrite !Ec by lia.
  change (flag_set (sv_flags (e_sv e)) BLOB_DB_SLOT_F_TOMBSTONE) with (e_tomb e).
  destruct (e_intact e) eqn:Ei; cbn [negb andb]; [destruct (e_tomb e) eqn:Et; [|destruct newer; [|destruct (LARGE_PAYLOADS cfg && flag_set (sv_flags (e_sv e)) BLOB_DB_SLOT_F_SEGMENT) eqn:Esg]]|];
    unfold slots_counted in *; (split; unfold dead, shown_flags, slots_counted; rewrite ?Ei, ?Et, ?Esg;
      cbn [negb andb orb count_of payload_bytes live_bytes garbage_bytes ib_objects ib_segments ib_superseded ib_tombstones ib_rotten formatted ib_gen capacity];
      try done; try lia; try (split; unfold slots_counted; cbn; lia)).
Qed.

Definition payload_total (l : list entry) : Z := foldr (fun e n => sv_val_len (e_sv e) + n) 0 l.

Record tallied (l : list entry) (o o' : blob_db_inspect_bucket) : Prop := {
  tl_kept : formatted o' = formatted o /\ ib_gen o' = ib_gen o /\ capacity o' = capacity o;
  tl_live : live_bytes o' = live_bytes o + total_size (survivors l);
  tl_bytes : live_bytes o' + garbage_bytes o' = live_bytes o + garbage_bytes o + total_size l;
  tl_payload : payload_bytes o' = payload_bytes o + payload_total (survivors l);
  tl_objects : ib_objects o' = ib_objects o + len (shown cfg (survivors l));
  tl_live_slots : ib_objects o' + ib_segments o' = ib_objects o + ib_segments o + len (survivors l);
  tl_tombstones : ib_tombstones o' = ib_tombstones o + len (List.filter (fun e => e_intact e && e_tomb e) l);
  tl_rotten : ib_rotten o' = ib_rotten o + len (List.filter (fun e => negb (e_intact e)) l);
  tl_slots : slots_counted o' = slots_counted o + len l;
  tl_sane : sane o';
}.

Lemma len_filter_cons {A} (P : A -> bool) x l : len (List.filter P (x :: l)) = count_of (P x) + len (List.filter P l).
Proof. cbn [List.filter]. destruct (P x); [by rewrite len_cons|done]. Qed.

Lemma survivors_cons e l :
  survivors (e :: l) = if dead e (match newest (e_id e) l with Some _ => true | None => false end) then survivors l else e :: survivors l.
Proof.
  cbn [survivors]. unfold dead. by destruct (e_intact e), (e_tomb e), (newest (e_id e) l).
Qed.

(** The state of the figures after all slots of a log. *)
Definition tally (js : list blob_db_inspect_slot) (o : blob_db_inspect_bucket) : blob_db_inspect_bucket :=
  foldl (fun o j => Inspect.add_slot j o) o js.

Lemma tally_spec l o :
  Forall (fun e => 0 <= e_off e < 2 ^ 32 /\ 0 <= sv_val_len (e_sv e) /\ 14 + sv_val_len (e_sv e) <= e_size e) l ->
  sane o -> live_bytes o + garbage_bytes o + total_size l <= 65536 -> tallied l o (tally (judged l) o).
Proof.
  intros Hf. revert o. induction Hf as [|e l (Ho & Hv & Hs) Hf IH]; intros o Hsn Hb.
  - split; try done; unfold shown, len; cbn; lia.
  - assert (0 <= total_size l) as Ht.
    { clear -Hf. induction Hf as [|e l (?&?&?) _ IH]; [done|]. cbn [total_size foldr]. fold (total_size l). lia. }
    cbn [total_size foldr] in Hb. fold (total_size l) in Hb. cbn [judged tally foldl]. unfold shadowed.
    set (newer := match newest (e_id e) l with Some _ => true | None => false end).
    destruct (add_slot_spec e newer o) as [(K1 & K2 & K3) A1 A2 A3 A4 A5 A6 A7 A8 A9]; [done|done|done|done|lia|].
    set (o1 := Inspect.add_slot _ o) in *. fold (tally (judged l) o1).
    destruct (IH o1 A9) as [(L1 & L2 & L3) B1 B2 B3 B4 B5 B6 B7 B8 B9]; [destruct (dead e newer); lia|].
    split; rewrite ?survivors_cons, ?len_filter_cons, ?len_cons; fold newer; cbn [total_size foldr]; fold (total_size l); try done.
    + split_and!; congruence.
    + rewrite B1, A1. destruct (dead e newer); cbn [total_size foldr]; fold (total_size (survivors l)); lia.
    + rewrite B2. destruct (dead e newer); lia.
    + rewrite B3, A3. destruct (dead e newer); cbn [payload_total foldr]; fold (payload_total (survivors l)); lia.
    + rewrite B4, A4. destruct (dead e newer); cbn [negb andb count_of]; [lia|].
      unfold shown. rewrite len_filter_cons. lia.
    + rewrite B5, A5. destruct (dead e newer); cbn [negb count_of]; rewrite ?len_cons; lia.
    + lia.
    + lia.
    + lia.
Qed.

Lemma report_none {U} js o (user : U) : report None js o user = (0, tally js o, user).
Proof. revert o. induction js as [|j js IH]; intros o; [done|]. cbn [report]. by rewrite IH. Qed.

(** A callback that never stops the walk sees every slot, in order. *)
Lemma report_all {U} (f : blob_db_inspect_slot -> U -> U) js o (user : U) :
  report (Some (fun j u => (0, f j u))) js o user = (0, tally js o, foldl (fun u j => f j u) user js).
Proof. revert o user. induction js as [|j js IH]; intros o user; [done|]. cbn [report]. by rewrite IH. Qed.

Lemma programmed_end_spec k buf cursor :
  let z := Inspect.programmed_end k buf cursor in
  cursor <= z <= cursor + Z.of_nat k /\
  (forall i, z <= i < cursor + Z.of_nat k -> byte_at i buf = 255) /\ (z = cursor \/ byte_at (z - 1) buf <> 255).
Proof.
  induction k as [|k IH]; cbn [Inspect.programmed_end].
  - split_and!; [lia..|auto].
  - destruct (Z.eqb_spec (byte_at (cursor + Z.of_nat k) buf) 255) as [E|E].
    + destruct IH as (H1 & H2 & H3). split_and!; [lia..| |done]. intros i Hi.
      destruct (decide (i = cursor + Z.of_nat k)) as [->|]; [done|]. apply H2. lia.
    + split_and!; [lia..| |right]; [intros i Hi; lia|]. by replace (cursor + Z.of_nat k + 1 - 1) with (cursor + Z.of_nat k) by lia.
Qed.

(** The slots of a bucket's log are as large and lie where the figures need. *)
Lemma log_slots_fit buf :
  img_ok g buf ->
  Forall (fun e => 0 <= e_off e < 2 ^ 32 /\ 0 <= sv_val_len (e_sv e) /\ 14 + sv_val_len (e_sv e) <= e_size e) (bucket_log cfg g buf) /\
  log_end cfg g buf = 16 + total_size (bucket_log cfg g buf).
Proof.
  intros [Hlen Hb]. destruct (parsed_log cfg g Hg buf Hb) as [Hl _]. pose proof (ok_peb_size _ _ Hg).
  assert (forall off l e, log_rel cfg g buf off l e -> 16 <= off <= peb_size g ->
    Forall (fun e => 0 <= e_off e < 2 ^ 32 /\ 0 <= sv_val_len (e_sv e) /\ 14 + sv_val_len (e_sv e) <= e_size e) l /\
    e = off + total_size l) as Hx; [|apply (Hx _ _ _ Hl); unfold_consts; lia].
  clear Hl. intros off l e Hl. induction Hl as [off|off sv i l e Hw Hl IH]; intros Ho; [split; [constructor|cbn; lia]|].
  destruct (slot_walk_bounds cfg g Hg _ off _ _ Hb ltac:(lia) Hw) as (?&?&?&Hsz).
  destruct (slot_size_spec cfg g Hg (sv_val_len sv)) as (_ & Hs & _). destruct IH as [IH1 IH2]; [lia|].
  split.
  - constructor; [|done]. cbn [e_off e_sv]. unfold e_size. cbn [e_sv]. split_and!; lia.
  - cbn [total_size foldr]. fold (total_size l). unfold e_size at 1. cbn [e_sv]. lia.
Qed.
End figures.

Section calls.
Context (cfg : config) (g : geom) `{Crc}.
Context {S I : Type} `{!Store S} `{!StoreView S} `{!SlotIndex I}.
Context (Hg : geom_ok cfg g) {SL : StoreLaws S (store_geom_of g)} {CL : CrcLaws _}.
Notation db := (db S I).
Implicit Types d : db.

Lemma empty_sane fm gen : sane (Inspect.empty_figures g fm gen).
Proof. by split; cbn. Qed.

(** The figures of a formatted bucket. *)
Definition figures (buf : bytes) : blob_db_inspect_bucket :=
  let o := tally (judged cfg (bucket_log cfg g buf)) (Inspect.empty_figures g true (bh_gen (dec_bucket_hdr buf))) in
  let e := log_end cfg g buf in
  Inspect.close_figures (Inspect.programmed_end (Z.to_nat (peb_size g - e)) buf e - e) o.

(** Reading the bucket is the only access, and its error the only one. *)
Lemma bucket_get_spec {U} d bid (f : blob_db_inspect_slot -> U -> U) user :
  mounted (d_st d) = true -> 0 <= bid < n_buckets g ->
  wp (Inspect.bucket_get_impl cfg g bid true (Some (fun j u => (0, f j u))) user) d (fun r d' => ro d d' /\
    match r with
    | Err _ => False
    | Ok (Err e, o, u) => ~ healthy (d_store d) /\ device_err e /\ o = Inspect.empty_figures g false 0 /\ u = user
    | Ok (Ok rc, o, u) => rc = 0 /\
        if bucket_hdr_valid (bimg d bid) bid
        then o = figures (bimg d bid) /\ u = foldl (fun u j => f j u) user (judged cfg (bucket_log cfg g (bimg d bid)))
        else o = Inspect.empty_figures g false 0 /\ u = user
    end).
Proof.
  intros Hm Hb. unfold Inspect.bucket_get_impl. cbn [negb]. apply wp_bnd, wp_gets. rewrite Hm. cbn [negb].
  destruct (Z.geb_spec bid (n_buckets g)); [lia|]. pose proof (ok_peb_size _ _ Hg).
  apply wp_bnd, wp_try. fold (bucket_offset g bid). rewrite <- (Z.add_0_r (bucket_offset g bid)).
  eapply wp_mono; [apply (read_bucket_bytes cfg g Hg d bid); lia|]. intros [buf|e] d' [Hr Hq].
  2: { apply wp_ret. tauto. }
  pose proof (bimg_ok cfg g Hg d bid Hb) as Hok. rewrite slice_all in Hq by (symmetry; apply Hok). subst buf.
  unfold Inspect.blob_db_core_bucket_hdr_valid. destruct (bucket_hdr_valid (bimg d bid) bid); cbn [negb]; [|by apply wp_ret].
  destruct Hok as [Hlen Hby]. destruct (parsed_log cfg g Hg _ Hby) as [Hl He].
  pose proof (log_rel_bounds cfg g Hg _ BLOB_DB_BUCKET_DATA_OFF _ _ Hby ltac:(unfold_consts; lia) Hl) as Hbd.
  destruct (bucket_walk_spec cfg g Hg (walk_fuel g) _ BLOB_DB_BUCKET_DATA_OFF _ _ (Some (fun j u => (0, f j u)))
    (Inspect.empty_figures g true (bh_gen (dec_bucket_hdr (bimg d bid)))) user Hby ltac:(unfold_consts; lia) Hl He) as (c & -> & Hc);
    [unfold walk_fuel, len in *; unfold_consts; lia|].
  rewrite report_all in *. rewrite (Hc eq_refl). cbn [negb Z.eqb]. apply wp_ret. done.
Qed.

(** They are true of the log. *)
Record accounts (buf : bytes) (o : blob_db_inspect_bucket) : Prop := {
  ac_formatted : formatted o = true /\ ib_gen o = bh_gen (dec_bucket_hdr buf) /\ capacity o = peb_size g - 16;
  ac_sum : live_bytes o + garbage_bytes o + tail_bytes o + free_bytes o = capacity o;
  ac_range : 0 <= payload_bytes o <= live_bytes o /\ 0 <= garbage_bytes o /\ 0 <= tail_bytes o /\ 0 <= free_bytes o;
  ac_live : 16 + live_bytes o = compact_len cfg g buf /\ payload_bytes o = payload_total (survivors (bucket_log cfg g buf));
  ac_log : 16 + live_bytes o + garbage_bytes o = log_end cfg g buf;
  ac_objects : ib_objects o = len (shown cfg (survivors (bucket_log cfg g buf)));
  ac_live_slots : ib_objects o + ib_segments o = len (survivors (bucket_log cfg g buf));
  ac_tombstones : ib_tombstones o = len (List.filter (fun e => e_intact e && e_tomb e) (bucket_log cfg g buf));
  ac_rotten : ib_rotten o = len (List.filter (fun e => negb (e_intact e)) (bucket_log cfg g buf));
  ac_slots : slots_counted o = len (bucket_log cfg g buf);
  ac_free : forall i, peb_size g - free_bytes o <= i < peb_size g -> byte_at i buf = 255;
  ac_tail : 0 < tail_bytes o -> byte_at (peb_size g - free_bytes o - 1) buf <> 255;
}.

Lemma figures_account buf : img_ok g buf -> accounts buf (figures buf).
Proof.
  intros Hok. pose proof (ok_peb_size _ _ Hg). destruct (log_slots_fit cfg g Hg buf Hok) as [Hf He].
  pose proof (log_end_bounds cfg g Hg buf (proj2 Hok)) as Hbd. unfold_consts.
  set (o0 := Inspect.empty_figures g true (bh_gen (dec_bucket_hdr buf))).
  destruct (tally_spec cfg (bucket_log cfg g buf) o0 Hf (empty_sane _ _)) as [(K1 & K2 & K3) B1 B2 B3 B4 B5 B6 B7 B8 [B9 _ _]];
    [cbn; lia|]. unfold figures. fold o0. set (o := tally _ o0) in *. set (e := log_end cfg g buf) in *.
  pose proof (programmed_end_spec (Z.to_nat (peb_size g - e)) buf e) as (P1 & P2 & P3).
  set (z := Inspect.programmed_end _ buf e) in *. rewrite Z2Nat.id in * by lia.
  assert (capacity o = peb_size g - 16) as Hcap by (rewrite K3; cbn; apply u32_small; unfold_consts; lia).
  cbn in B1, B2, B3, B4, B5, B6, B7. change (slots_counted o0) with 0 in B8.
  assert (u32 (z - e) = z - e) as Et by (apply u32_small; lia).
  assert (u32 (capacity o - live_bytes o - garbage_bytes o - (z - e)) = peb_size g - z) as Efr.
  { rewrite Hcap, <- (u32_small (peb_size g - z)) by lia. f_equal. lia. }
  split; cbn [Inspect.close_figures formatted ib_gen capacity live_bytes payload_bytes garbage_bytes tail_bytes free_bytes
    ib_objects ib_segments ib_superseded ib_tombstones ib_rotten slots_counted]; rewrite ?Et, ?Efr, ?Hcap.
  - done.
  - lia.
  - lia.
  - unfold compact_len. lia.
  - lia.
  - lia.
  - lia.
  - lia.
  - lia.
  - change (slots_counted (Inspect.close_figures (z - e) o)) with (slots_counted o). lia.
  - intros i Hi. apply P2. lia.
  - intros Hp. destruct P3 as [P3|P3]; [exfalso; revert Hp; rewrite ?Et; lia|]. by replace (peb_size g - (peb_size g - z) - 1) with (z - 1) by lia.
Qed.

(** The slots reported live are those a compaction keeps. *)
Definition is_live (j : blob_db_inspect_slot) : bool :=
  match si_state j with BLOB_DB_INSPECT_LIVE => true | _ => false end.

Lemma judged_live l :
  Forall (fun e => 0 <= e_off e < 2 ^ 32) l ->
  si_offset <$> List.filter is_live (judged cfg l) = e_off <$> survivors l.
Proof.
  intros Hf. induction Hf as [|e l Ho Hf IH]; [done|]. rewrite survivors_cons. cbn [judged List.filter].
  unfold is_live at 1, Inspect.judge, core_of, shadowed, dead. cbn [si_state co_intact co_flags].
  change (flag_set (sv_flags (e_sv e)) BLOB_DB_SLOT_F_TOMBSTONE) with (e_tomb e).
  destruct (e_intact e), (e_tomb e), (newest (e_id e) l); cbn [negb andb orb]; try apply IH.
  rewrite !fmap_cons, IH. cbn [si_offset]. by rewrite u32_small by lia.
Qed.

Lemma length_judged l : len (judged cfg l) = len l.
Proof. induction l as [|e l IH]; [done|]. cbn [judged]. by rewrite !len_cons, IH. Qed.

Lemma collect_slots js : forall acc : list blob_db_inspect_slot, foldl (fun u j => u ++ [j]) acc js = acc ++ js.
Proof. induction js as [|j js IH]; intros acc; cbn [foldl]; [by rewrite app_nil_r|]. by rewrite IH, <- app_assoc. Qed.

(** A compaction leaves the live bytes, and the rest of the bucket free. *)
Lemma newest_reloc_none id o l : newest id (reloc o l) = None <-> newest id l = None.
Proof.
  revert o. induction l as [|e l IH]; intros o; [done|]. cbn [reloc]. rewrite !newest_cons. specialize (IH (o + e_size e)).
  unfold e_id in *. cbn [e_sv e_intact].
  destruct (newest id (reloc _ l)), (newest id l); [done|by discriminate (proj2 IH eq_refl)|by discriminate (proj1 IH eq_refl)|by destruct (_ && _)].
Qed.

Lemma survivors_reloc_size o l : total_size (survivors (reloc o l)) = total_size (survivors l).
Proof.
  revert o. induction l as [|e l IH]; intros o; [done|]. cbn [reloc]. rewrite !survivors_cons.
  set (e' := mk_entry o (e_sv e) (e_intact e) (e_bytes e)).
  assert (match newest (e_id e') (reloc (o + e_size e) l) with Some _ => true | None => false end =
    match newest (e_id e) l with Some _ => true | None => false end) as ->.
  { pose proof (newest_reloc_none (e_id e) (o + e_size e) l) as Hx. change (e_id e') with (e_id e).
    destruct (newest _ (reloc _ l)), (newest _ l); try done; [|]; destruct Hx as [Hx Hy]; [by discriminate Hy|by discriminate Hx]. }
  change (dead e' ?b) with (dead e b). destruct (dead e _); [apply IH|]. cbn [total_size foldr].
  fold (total_size (survivors (reloc (o + e_size e) l))) (total_size (survivors l)). by rewrite IH.
Qed.

Lemma survivors_idem l : survivors (survivors l) = survivors l.
Proof.
  induction l as [|e l IH]; [done|]. rewrite survivors_cons. destruct (dead e _) eqn:Ed; [done|].
  rewrite survivors_cons, newest_survivors, IH. unfold live. unfold dead in *.
  destruct (newest (e_id e) l); [by rewrite orb_true_r in Ed|]. by rewrite Ed.
Qed.

Lemma figures_compacted buf bid buf' :
  img_ok g buf -> compacted cfg g buf bid buf' ->
  let c := figures (committed g (compact_len cfg g buf) buf') in
  live_bytes c = live_bytes (figures buf) /\ garbage_bytes c = 0 /\ tail_bytes c = 0 /\
  free_bytes c = peb_size g - compact_len cfg g buf.
Proof.
  intros Hok Hc. destruct (committed_spec cfg g Hg buf bid buf' Hok Hc) as (Hok' & _ & Hlog & Hend & Hbl).
  set (b := committed g (compact_len cfg g buf) buf') in *. cbv zeta.
  destruct (figures_account buf Hok) as [_ _ _ [A1 _] _ _ _ _ _ _ _ _].
  destruct (figures_account b Hok') as [(_ & _ & C0) C1 C2 [C3 _] C4 _ _ _ _ _ _ C5].
  unfold compact_len at 1 in C3. rewrite Hlog, survivors_reloc_size, survivors_idem in C3. fold (compact_len cfg g buf) in C3.
  rewrite Hend in C4. unfold compact_len in A1, C3, C4 |- *. pose proof (cp_len _ _ _ _ _ Hc) as Hlen.
  pose proof (log_end_bounds cfg g Hg buf (proj2 Hok)) as Hbd. unfold compact_len in Hlen.
  assert (tail_bytes (figures b) = 0) as Ht; [|lia].
  destruct (decide (0 < tail_bytes (figures b))) as [Hp|]; [|lia]. destruct (C5 Hp).
  unfold byte_at. rewrite (Hbl (Z.to_nat (peb_size g - free_bytes (figures b) - 1))); [done| |]; pose proof (proj1 Hok') as Hl; unfold len in Hl; unfold compact_len; lia.
Qed.
End calls.
