(* ===== verification/UbiStore.v ===== *)
(** The UBI backend (lib/blob_db/blob_db_store_ubi.c): the storage seam of
    Store.v over one volume of a UBI device. The UBI library (zephyr-ubi), PSA
    Crypto, the heap and the application's hooks are not in the repository; they
    are the classes below. The build is one without CONFIG_BLOB_DB_MAINT_WORK,
    where [blob_db_maint_kick()] is empty; the counters and the log are left
    out. *)

From Stdlib Require Import String.
From S2P Require Import Prelude Store FlashStore.
Open Scope Z_scope.

(** * What the backend calls *)

Inductive ubi_event_type :=
  | UBI_EVENT_HDR_CORRUPT
  | UBI_EVENT_HDR_TAMPERED
  | UBI_EVENT_VOLUME_TABLE_CORRUPT
  | UBI_EVENT_VOLUME_TABLE_DEGRADED
  | UBI_EVENT_LEB_ORPHANED
  | UBI_EVENT_PEB_BAD
  | UBI_EVENT_DATA_CORRUPT
  | UBI_EVENT_OTHER.

Record ubi_event := mk_ubi_event {
  ev_type : ubi_event_type;
  ev_pnum : Z;
  ev_vol_id : Z;
  ev_lnum : Z;
}.

(** The fields of [struct ubi_device_info] the backend reads. *)
Record ubi_device_info := mk_ubi_info {
  ui_leb_size : Z;
  ui_write_block_size : Z;
  ui_peb_count : Z;
  ui_free_lebs : Z;
  ui_corrupt_pebs : Z;
}.

Inductive ubi_state_verdict := UBI_STATE_TRUSTED | UBI_STATE_UNTRUSTED.

Inductive ubi_maintenance_op :=
  | UBI_MAINTENANCE_RECLAIM
  | UBI_MAINTENANCE_RELOCATE
  | UBI_MAINTENANCE_REPAIR
  | UBI_MAINTENANCE_DISCARD.

Record ubi_maintenance_result := mk_maint_result {
  mr_performed : Z;
  mr_remaining : Z;
}.

(** [struct ubi_config], the callbacks aside from [state_cb] being the events
    each call reports. *)
Record ubi_config := mk_ubi_config {
  flash_area_id : Z;
  key_context : bytes;
  ikm_key_id : Z;
  state_cb : ubi_device_info -> ubi_state_verdict;
}.

(** A call into UBI, with the events it reports through [event_cb]. *)
Definition EM (U A : Type) : Type := U -> res A * list ubi_event * U.

Class Ubi (U : Type) := {
  UBI_VOL_ID_INVALID : Z;
  psa_crypto_init : M U unit;
  psa_import_key : M U Z;
  psa_destroy_key : Z -> U -> U;
  blob_db_ubi_ikm_key : M U Z;
  k_calloc : U -> bool * U;
  k_free : U -> U;
  flash_area_open_id : Z -> M U Z;
  flash_area_erased_val : U -> Z;
  flash_area_read_at : Z -> Z -> M U bytes;
  flash_area_close_id : U -> U;
  ubi_device_init : ubi_config -> EM U unit;
  ubi_device_format : ubi_config -> EM U unit;
  ubi_device_deinit : EM U unit;
  ubi_device_get_info : EM U ubi_device_info;
  ubi_volume_find : string -> EM U Z;
  ubi_volume_create : string -> Z -> EM U Z;
  ubi_volume_get_info : Z -> EM U Z;
  ubi_maintenance : ubi_maintenance_op -> Z -> U -> res unit * ubi_maintenance_result * list ubi_event * U;
  ubi_leb_read : Z -> Z -> Z -> Z -> EM U bytes;
  ubi_leb_write_at : Z -> Z -> Z -> bytes -> EM U unit;
  ubi_leb_erase : Z -> Z -> EM U unit;
  ubi_leb_change : Z -> Z -> bytes -> EM U unit;
}.

(** The options of the build: the two counts, the atomic replace, the keying
    material (compiled in, or the application's), and the application's verdict
    on the device, which trusts it where the application brings none. *)
Record ubi_options := mk_ubi_options {
  BLOB_DB_UBI_SPARE_LEBS : Z;
  UBI_RELOCATE_BUDGET : Z;
  UBI_ATOMIC_REPLACE : bool;
  UBI_KEY_BUILTIN : bool;
  UBI_PARTITION : Z;
  blob_db_ubi_state_check : ubi_device_info -> ubi_state_verdict;
}.

(** * The backend *)

(** Its statics. [g_ubi] is whether the handle is set; the device it stands for
    is [u_dev], with the rest of what the calls above act on. *)
Record ubi_be (U : Type) := mk_ubi_be {
  g_ubi : bool;
  g_vol_id : Z;
  g_leb_size : Z;
  g_key_id : Z;
  g_damaged_lebs : Z;
  g_damaged_unplaced : bool;
  u_dev : U;
}.
Arguments mk_ubi_be {U} _ _ _ _ _ _ _.
Arguments g_ubi {U} _.
Arguments g_vol_id {U} _.
Arguments g_leb_size {U} _.
Arguments g_key_id {U} _.
Arguments g_damaged_lebs {U} _.
Arguments g_damaged_unplaced {U} _.
Arguments u_dev {U} _.

Definition BIT (n : Z) : Z := Z.shiftl 1 n.

Module UbiBackend.
Definition BLOB_DB_UBI_VOL_NAME : string := "blobdb".

Definition g_key_context : bytes := [98; 108; 111; 98; 95; 100; 98].

Definition set_handle {U} (v : bool) (s : ubi_be U) : ubi_be U :=
  mk_ubi_be v (g_vol_id s) (g_leb_size s) (g_key_id s) (g_damaged_lebs s) (g_damaged_unplaced s) (u_dev s).
Definition set_vol {U} (v : Z) (s : ubi_be U) : ubi_be U :=
  mk_ubi_be (g_ubi s) v (g_leb_size s) (g_key_id s) (g_damaged_lebs s) (g_damaged_unplaced s) (u_dev s).
Definition set_leb_size {U} (v : Z) (s : ubi_be U) : ubi_be U :=
  mk_ubi_be (g_ubi s) (g_vol_id s) v (g_key_id s) (g_damaged_lebs s) (g_damaged_unplaced s) (u_dev s).
Definition set_key {U} (v : Z) (s : ubi_be U) : ubi_be U :=
  mk_ubi_be (g_ubi s) (g_vol_id s) (g_leb_size s) v (g_damaged_lebs s) (g_damaged_unplaced s) (u_dev s).
Definition set_damage {U} (m : Z) (un : bool) (s : ubi_be U) : ubi_be U :=
  mk_ubi_be (g_ubi s) (g_vol_id s) (g_leb_size s) (g_key_id s) m un (u_dev s).
Definition set_dev {U} (u : U) (s : ubi_be U) : ubi_be U :=
  mk_ubi_be (g_ubi s) (g_vol_id s) (g_leb_size s) (g_key_id s) (g_damaged_lebs s) (g_damaged_unplaced s) u.

Definition on_event {U} `{!Ubi U} (s : ubi_be U) (event : ubi_event) : ubi_be U :=
  match ev_type event with
  | UBI_EVENT_HDR_CORRUPT | UBI_EVENT_HDR_TAMPERED | UBI_EVENT_DATA_CORRUPT =>
      if ev_vol_id event =? UBI_VOL_ID_INVALID (U := U) then set_damage (g_damaged_lebs s) true s
      else if ev_lnum event <? 32
      then set_damage (Z.lor (g_damaged_lebs s) (BIT (ev_lnum event))) (g_damaged_unplaced s) s
      else s
  | _ => s
  end.

Section ops.
Context (uo : ubi_options) {U : Type} `{!Ubi U}.
Notation be := (ubi_be U).

(** Calls on the device: with events, and without. *)
Definition ubi {A} (m : EM U A) : M be A := fun s =>
  let '(r, ev, u) := m (u_dev s) in (r, foldl on_event (set_dev u s) ev).
Definition sys {A} (m : M U A) : M be A := fun s => let (r, u) := m (u_dev s) in (r, set_dev u s).
Definition sys_mod (f : U -> U) : M be unit := mmod (fun s => set_dev (f (u_dev s)) s).

Definition on_state (info : ubi_device_info) : ubi_state_verdict := blob_db_ubi_state_check uo info.

Definition key_acquire : M be Z :=
  if UBI_KEY_BUILTIN uo then
    let* status := mtry (sys psa_import_key) in
    match status with Ok key_id => mret key_id | Err _ => mfail EIO end
  else sys blob_db_ubi_ikm_key.

Definition key_release (key_id : Z) : M be unit :=
  if UBI_KEY_BUILTIN uo then sys_mod (psa_destroy_key key_id) else mret tt.

(** The chunks of [partition_is_blank()]: a chunk that is not erased ends the
    loop, a failed read too. *)
Fixpoint blank_loop (fuel : nat) (erased_val fa_size off : Z) : M be bool :=
  match fuel with
  | O => mret true
  | S fuel =>
      if off <? fa_size then
        let n := Z.min 256 (fa_size - off) in
        let* chunk := sys (flash_area_read_at off n) in
        if forallb (fun b => b =? erased_val) chunk then blank_loop fuel erased_val fa_size (off + 256) else mret false
      else mret true
  end.

Definition partition_is_blank (fa_id : Z) : M be bool :=
  let* fa_size := sys (flash_area_open_id fa_id) in
  let* erased_val := mgets (fun s => flash_area_erased_val (u_dev s)) in
  let* rc := mtry (blank_loop (Z.to_nat (fa_size / 256 + 1)) erased_val fa_size 0) in
  sys_mod flash_area_close_id;;;
  mlift rc.

Definition attach (config : ubi_config) (discard : bool) : M be unit :=
  let* rc := mtry (ubi (ubi_device_init config)) in
  let format :=
    ubi (ubi_device_format config);;;
    ubi (ubi_device_init config) in
  match rc with
  | Ok _ => mret tt
  | Err e =>
      if discard then
        match e with
        | ENODEV | EBADMSG | ENOTSUP => format
        | _ => mfail e
        end
      else
        match e with
        | ENODEV =>
            let* blank := partition_is_blank (flash_area_id config) in
            if blank then format else mfail ENOTSUP
        | _ => mfail e
        end
  end.

Definition open_volume (info : ubi_device_info) : M be Z :=
  let* rc := mtry (ubi (ubi_volume_find BLOB_DB_UBI_VOL_NAME)) in
  let rest : M be Z :=
    let* vol := mgets g_vol_id in
    let* leb_count := ubi (ubi_volume_get_info vol) in
    if leb_count >? UINT16_MAX then mfail ENOTSUP else mret leb_count in
  match rc with
  | Ok vol => mmod (set_vol vol);;; rest
  | Err ENOENT =>
      if ui_free_lebs info <=? BLOB_DB_UBI_SPARE_LEBS uo then mfail EINVAL
      else
        let* vol := ubi (ubi_volume_create BLOB_DB_UBI_VOL_NAME (u32 (ui_free_lebs info - BLOB_DB_UBI_SPARE_LEBS uo))) in
        mmod (set_vol vol);;; rest
  | Err e => mfail e
  end.

(** [ubi_maintenance()] writes its result whatever it returns. *)
Definition ubi_maint (op : ubi_maintenance_op) (budget : Z) (s : be) : res unit * ubi_maintenance_result * be :=
  let '(rc, res, ev, u) := ubi_maintenance op budget (u_dev s) in (rc, res, foldl on_event (set_dev u s) ev).

Definition maintain (op : ubi_maintenance_op) (budget : Z) : M be unit := fun s =>
  let '(_, _, s) := ubi_maint op budget s in (Ok tt, s).

(** The ways out of [blob_db_store_open()]. *)
Definition err_key {A} (rc : errno) : M be A :=
  let* key := mgets g_key_id in
  key_release key;;;
  mfail rc.

Definition err_free {A} (rc : errno) : M be A :=
  sys_mod k_free;;;
  mmod (set_handle false);;;
  mmod (set_vol (UBI_VOL_ID_INVALID (U := U)));;;
  err_key rc.

Definition err_deinit {A} (rc : errno) : M be A :=
  let* _ := mtry (ubi ubi_device_deinit) in
  err_free rc.

(** [g_ubi = k_calloc(1, ubi_device_size())] *)
Definition alloc_handle : M be bool := fun s => let (ok, u) := k_calloc (u_dev s) in (Ok ok, set_handle ok (set_dev u s)).

(** The device attached: its geometry, the repairs, and the volume. *)
Definition open_attached : M be blob_db_store_geom :=
  let* rc := mtry (ubi ubi_device_get_info) in
  match rc with
  | Err e => err_deinit e
  | Ok info =>
      mmod (set_leb_size (ui_leb_size info));;;
      maintain UBI_MAINTENANCE_REPAIR (ui_peb_count info);;;
      let* rc := mtry (open_volume info) in
      match rc with
      | Err e => err_deinit e
      | Ok leb_count =>
          mret (mk_store_geom (ui_leb_size info)
            (if ui_write_block_size info =? 0 then 1 else ui_write_block_size info) (u16 leb_count) false)
      end
  end.

Definition blob_db_store_open (discard : bool) : M be blob_db_store_geom :=
  let* handle := mgets g_ubi in
  if handle then mfail EALREADY else
  let* status := mtry (sys psa_crypto_init) in
  match status with
  | Err _ => mfail EIO
  | Ok _ =>
      let* key := key_acquire in
      let config := mk_ubi_config (UBI_PARTITION uo) g_key_context key on_state in
      mmod (set_key key);;;
      mmod (set_damage 0 false);;;
      let* ok := alloc_handle in
      if negb ok then err_key ENOMEM
      else
        let* rc := mtry (attach config discard) in
        match rc with
        | Err e => err_free e
        | Ok _ => open_attached
        end
  end.

Definition blob_db_store_close : M be unit :=
  let* handle := mgets g_ubi in
  if negb handle then mret tt
  else
    let* _ := mtry (ubi ubi_device_deinit) in
    sys_mod k_free;;;
    mmod (set_handle false);;;
    mmod (set_vol (UBI_VOL_ID_INVALID (U := U)));;;
    let* key := mgets g_key_id in
    key_release key.

(** The LEB and the offset in it of a flat offset. *)
Definition lnum_of (s : be) (off : Z) : Z := u32 (off / g_leb_size s).
Definition within_of (s : be) (off : Z) : Z := u32 (off mod g_leb_size s).

Definition blob_db_store_read (off n : Z) : M be bytes := fun s =>
  ubi (ubi_leb_read (g_vol_id s) (lnum_of s off) (within_of s off) n) s.

Definition blob_db_store_write (off : Z) (buf : bytes) : M be unit := fun s =>
  ubi (ubi_leb_write_at (g_vol_id s) (lnum_of s off) (within_of s off) buf) s.

Definition relocate_step : M be unit :=
  if UBI_RELOCATE_BUDGET uo >? 0 then maintain UBI_MAINTENANCE_RELOCATE (UBI_RELOCATE_BUDGET uo) else mret tt.

Fixpoint erase_lebs (k : nat) (lnum : Z) : M be unit :=
  match k with
  | O => mret tt
  | S k =>
      let* vol := mgets g_vol_id in
      ubi (ubi_leb_erase vol lnum);;;
      erase_lebs k (lnum + 1)
  end.

Definition blob_db_store_erase (off n : Z) : M be unit := fun s =>
  if n =? 0 then (Ok tt, s)
  else
    let first := lnum_of s off in
    let last := lnum_of s (off + n - 1) in
    (erase_lebs (Z.to_nat (last - first + 1)) first;;;
     relocate_step) s.

Definition blob_db_store_replace (off : Z) (buf : bytes) : M be unit := fun s =>
  if negb (UBI_ATOMIC_REPLACE uo) then
    (blob_db_store_erase off (g_leb_size s);;;
     blob_db_store_write off buf) s
  else
    (ubi (ubi_leb_change (g_vol_id s) (lnum_of s off) buf);;;
     relocate_step) s.

Definition blob_db_store_replace_is_atomic : bool := UBI_ATOMIC_REPLACE uo.

Definition blob_db_store_open_found_damage (off : Z) (s : be) : bool :=
  let lnum := lnum_of s off in
  g_damaged_unplaced s || ((lnum <? 32) && negb (Z.land (g_damaged_lebs s) (BIT lnum) =? 0)).

(** The operations in turn: the code, the steps run, and whether work is left. *)
Fixpoint maintain_ops (ops : list ubi_maintenance_op) (budget performed : Z) (more : bool) (s : be) : (res unit * Z * bool) * be :=
  match ops with
  | [] => ((Ok tt, performed, more), s)
  | op :: ops =>
      let '(rc, res, s) := ubi_maint op (u32 (budget - performed)) s in
      let performed := u32 (performed + mr_performed res) in
      let more := if mr_remaining res =? 0 then more else true in
      match rc with
      | Ok _ | Err EBADMSG => maintain_ops ops budget performed more s
      | Err e => ((Err e, performed, more), s)
      end
  end.

Definition blob_db_store_maintain (budget : Z) (s : be) : (res unit * Z * bool) * be :=
  maintain_ops [UBI_MAINTENANCE_RECLAIM; UBI_MAINTENANCE_RELOCATE] budget 0 false s.

(** The calls of blob_db_ubi.h, under the library lock. *)
Definition blob_db_ubi_device_info : M be ubi_device_info :=
  let* handle := mgets g_ubi in
  if handle then ubi ubi_device_get_info else mfail ENODEV.

Definition blob_db_ubi_maintenance (op : ubi_maintenance_op) (budget : Z) : M be (res unit * ubi_maintenance_result) :=
  let* handle := mgets g_ubi in
  if handle then (fun s => let '(rc, res, s) := ubi_maint op budget s in (Ok (rc, res), s))
  else mret (Err ENODEV, mk_maint_result 0 0).
End ops.
End UbiBackend.

(** * What the library documents

    The volume of this store is [V], of [n] LEBs of [P] bytes with write unit
    [al]. [leb]: what a LEB reads as, erased where it is unmapped. [carries]: the
    partition holds an intact device with that volume. [ubi_up]: no call will
    fail. *)
Class UbiView (U : Type) := {
  leb : U -> Z -> bytes;
  carries : U -> Prop;
  ubi_up : U -> Prop;
}.

(** A device that is not damaged reports no damage. *)
Definition harmless (e : ubi_event) : Prop :=
  match ev_type e with
  | UBI_EVENT_HDR_CORRUPT | UBI_EVENT_HDR_TAMPERED | UBI_EVENT_DATA_CORRUPT => False
  | _ => True
  end.

Section documented.
Context {U : Type} `{!Ubi U} `{!UbiView U}.

(** A call that leaves every LEB as it was, and one that leaves every other. *)
Definition same_lebs (u u' : U) : Prop := forall p, leb u' p = leb u p.
Definition other_lebs (p : Z) (u u' : U) : Prop := forall q, q <> p -> leb u' q = leb u q.

(** [r] is what a call on [u] may end with, leaving [u']. *)
Definition ends {A} (u : U) (r : res A) (u' : U) : Prop :=
  carries u' /\ (ubi_up u -> is_ok r = true /\ ubi_up u') /\ match r with Ok _ => True | Err e => device_err e end.

Definition quiet {A} (m : EM U A) (Q : A -> Prop) : Prop := forall u, carries u ->
  let '(r, ev, u') := m u in ends u r u' /\ same_lebs u u' /\ Forall harmless ev /\ match r with Ok a => Q a | Err _ => True end.

Definition quiet_sys {A} (m : M U A) : Prop := forall u, carries u -> let (r, u') := m u in ends u r u' /\ same_lebs u u'.

Definition quiet_mod (f : U -> U) : Prop := forall u, carries u ->
  carries (f u) /\ (ubi_up u -> ubi_up (f u)) /\ same_lebs u (f u).

(** Whatever it is asked, a call leaves the device intact. *)
Definition intact {A} (m : EM U A) : Prop := forall u, carries u -> let '(_, ev, u') := m u in carries u' /\ Forall harmless ev.

(** [ubi_leb_read()] and the like return an errno of their own or a device's; on
    an intact device, and asked for what lies in the volume, only the latter. *)
Class UbiLaws (P al n V : Z) : Prop := {
  ub_geom : 0 < P < 2 ^ 32 /\ 0 < al /\ 1 <= n <= 65535;
  leb_len : forall u p, 0 <= p < n -> len (leb u p) = P;
  leb_bytes : forall u p, bytes_ok (leb u p);
  ub_psa : quiet_sys psa_crypto_init;
  ub_import : quiet_sys psa_import_key;
  ub_ikm : quiet_sys blob_db_ubi_ikm_key;
  ub_destroy : forall k, quiet_mod (psa_destroy_key k);
  ub_calloc : forall u, carries u -> let (ok, u') := k_calloc u in ok = true /\ carries u' /\ (ubi_up u -> ubi_up u') /\ same_lebs u u';
  ub_free : quiet_mod k_free;
  ub_init : forall c, quiet (ubi_device_init c) (fun _ => True);
  ub_deinit : quiet ubi_device_deinit (fun _ => True);
  ub_info : quiet ubi_device_get_info (fun info => ui_leb_size info = P /\
    (if ui_write_block_size info =? 0 then 1 else ui_write_block_size info) = al);
  ub_find : quiet (ubi_volume_find UbiBackend.BLOB_DB_UBI_VOL_NAME) (fun v => v = V);
  ub_volume : quiet (ubi_volume_get_info V) (fun k => k = n);
  ub_maint : forall op k u, carries u -> let '(rc, res, ev, u') := ubi_maintenance op k u in
    carries u' /\ (ubi_up u -> ubi_up u') /\ same_lebs u u' /\ Forall harmless ev;
  ub_read_intact : forall v p w k, intact (ubi_leb_read v p w k);
  ub_write_intact : forall v p w b, intact (ubi_leb_write_at v p w b);
  ub_erase_intact : forall v p, intact (ubi_leb_erase v p);
  ub_change_intact : forall v p b, intact (ubi_leb_change v p b);
  ub_read : forall u p w k, carries u -> 0 <= p < n -> 0 <= w -> 0 <= k -> w + k <= P ->
    let '(r, ev, u') := ubi_leb_read V p w k u in
    ends u r u' /\ same_lebs u u' /\ Forall harmless ev /\ match r with Ok b => b = slice w k (leb u p) | Err _ => True end;
  ub_write : forall u p w b, carries u -> 0 <= p < n -> 0 <= w -> w + len b <= P -> w mod al = 0 -> len b mod al = 0 -> bytes_ok b ->
    let '(r, ev, u') := ubi_leb_write_at V p w b u in
    ends u r u' /\ other_lebs p u u' /\ Forall harmless ev /\ exists b', leb u' p = splice w b' (leb u p) /\
      match r with
      | Ok _ => prog_done (slice w (len b) (leb u p)) b b'
      | Err _ => prog_torn (slice w (len b) (leb u p)) b b'
      end;
  ub_erase : forall u p, carries u -> 0 <= p < n ->
    let '(r, ev, u') := ubi_leb_erase V p u in
    ends u r u' /\ other_lebs p u u' /\ Forall harmless ev /\ match r with Ok _ => leb u' p = erased P | Err _ => True end;
  ub_change : forall u p b, carries u -> 0 <= p < n -> len b <= P -> len b mod al = 0 -> bytes_ok b ->
    let '(r, ev, u') := ubi_leb_change V p b u in
    ends u r u' /\ other_lebs p u u' /\ Forall harmless ev /\
    match r with
    | Ok _ => leb u' p = b ++ erased (P - len b)
    | Err _ => leb u' p = leb u p \/ leb u' p = b ++ erased (P - len b)
    end;
}.
End documented.

(** * The backend keeps the contract of the seam

    The states of the instance are those of a backend over an intact device
    with the volume. A call on a closed store, which blob_db never makes, is
    answered with an error here; in C it would follow a NULL handle. *)
Section instance.
Context (uo : ubi_options) {U : Type} `{!Ubi U} `{!UbiView U} (P al n V : Z) {UL : UbiLaws P al n V}.
Notation be := (ubi_be U).
Import UbiBackend.

Record ub_inv (s : be) : Prop := {
  ui_carries : carries (u_dev s);
  ui_damage : g_damaged_lebs s = 0 /\ g_damaged_unplaced s = false;
  ui_open : g_ubi s = true -> g_leb_size s = P /\ g_vol_id s = V;
}.

Definition ubi_geom : blob_db_store_geom := mk_store_geom P al n false.

Lemma harmless_events ev (s : be) : Forall harmless ev -> foldl on_event s ev = s.
Proof.
  intros Hf. induction Hf as [|e ev He _ IH]; [done|]. cbn [foldl]. unfold on_event at 2. unfold harmless in He.
  destruct (ev_type e); done.
Qed.

(** ** The calls that touch no LEB *)

Lemma wp_quiet {A} (m : EM U A) Q s (R : res A -> be -> Prop) :
  quiet m Q -> carries (u_dev s) ->
  (forall r u', ends (u_dev s) r u' -> same_lebs (u_dev s) u' -> match r with Ok a => Q a | Err _ => True end -> R r (set_dev u' s)) ->
  wp (ubi m) s R.
Proof.
  intros Hm Hc HR. specialize (Hm _ Hc). unfold wp, ubi. destruct (m (u_dev s)) as [[r ev] u']. destruct Hm as (He & Hl & Hev & Hq).
  rewrite harmless_events by done. by apply HR.
Qed.

Lemma wp_quiet_sys {A} (m : M U A) s (R : res A -> be -> Prop) :
  quiet_sys m -> carries (u_dev s) ->
  (forall r u', ends (u_dev s) r u' -> same_lebs (u_dev s) u' -> R r (set_dev u' s)) -> wp (sys m) s R.
Proof.
  intros Hm Hc HR. specialize (Hm _ Hc). unfold wp, sys. destruct (m (u_dev s)) as [r u']. destruct Hm. by apply HR.
Qed.

(** [t] is a state on the way of an open that began on the device [u]. *)
Record on_way (u : U) (t : be) : Prop := {
  ow_carries : carries (u_dev t);
  ow_up : ubi_up u -> ubi_up (u_dev t);
  ow_same : same_lebs u (u_dev t);
  ow_damage : g_damaged_lebs t = 0 /\ g_damaged_unplaced t = false;
}.

Lemma on_way_dev {A} u t (r : res A) u' :
  on_way u t -> ends (u_dev t) r u' -> same_lebs (u_dev t) u' -> on_way u (set_dev u' t) /\ (ubi_up u -> is_ok r = true).
Proof.
  intros [Hc Hu Hs Hd] (Hc' & Hu' & _) Hs'. split; [|intros Hup; by apply Hu', Hu].
  split; [done|intros Hup; by apply Hu', Hu|intros p; by rewrite Hs', Hs|done].
Qed.

Lemma on_way_mod u t f : on_way u t -> quiet_mod f -> on_way u (set_dev (f (u_dev t)) t).
Proof.
  intros [Hc Hu Hs Hd] Hf. destruct (Hf _ Hc) as (Hc' & Hu' & Hs'). split; [done|cbn; auto|intros p; cbn; by rewrite Hs', Hs|done].
Qed.

Lemma maintain_way u t op k (R : res unit -> be -> Prop) :
  on_way u t -> (forall u', on_way u (set_dev u' t) -> R (Ok tt) (set_dev u' t)) -> wp (maintain op k) t R.
Proof.
  intros [Hc Hu Hs Hd] HR. unfold wp, maintain, ubi_maint. pose proof (ub_maint (UbiLaws := UL) op k _ Hc) as Hm.
  destruct (ubi_maintenance op k (u_dev t)) as [[[rc rs] ev] u']. destruct Hm as (Hc' & Hu' & Hs' & Hev).
  rewrite harmless_events by done. apply HR. split; [done|cbn; auto|intros p; cbn; by rewrite Hs', Hs|done].
Qed.

Lemma alloc_handle_way u t (R : res bool -> be -> Prop) :
  on_way u t -> (forall u', on_way u (set_handle true (set_dev u' t)) -> R (Ok true) (set_handle true (set_dev u' t))) ->
  wp alloc_handle t R.
Proof.
  intros [Hc Hu Hs Hd] HR. unfold wp, alloc_handle. pose proof (ub_calloc (UbiLaws := UL) _ Hc) as Hk.
  destruct (k_calloc (u_dev t)) as [ok u']. destruct Hk as (-> & Hc' & Hu' & Hs'). apply HR.
  split; [done|intros Hup; by apply Hu', Hu|intros p; cbn; by rewrite Hs', Hs|done].
Qed.

(** ** Opening *)

Definition opened (u : U) (r : res blob_db_store_geom) (t : be) : Prop :=
  on_way u t /\ (ubi_up u -> is_ok r = true) /\
  match r with
  | Ok sg => sg = ubi_geom /\ g_ubi t = true /\ g_leb_size t = P /\ g_vol_id t = V
  | Err e => device_err e /\ g_ubi t = false
  end.

Lemma key_release_way u t k (R : res unit -> be -> Prop) :
  on_way u t -> (forall u', on_way u (set_dev u' t) -> R (Ok tt) (set_dev u' t)) -> wp (key_release uo k) t R.
Proof.
  intros Ho HR. unfold key_release. destruct (UBI_KEY_BUILTIN uo).
  - apply wp_mod, HR, on_way_mod; [done|]. apply (ub_destroy (UbiLaws := UL)).
  - apply wp_ret. assert (t = set_dev (u_dev t) t) as E by by destruct t. rewrite E. apply HR. by rewrite <- E.
Qed.

Lemma err_key_way u t e : on_way u t -> ~ ubi_up u -> device_err e -> g_ubi t = false -> wp (err_key uo e) t (opened u).
Proof.
  intros Ho Hn He Hg. unfold err_key. apply wp_bnd, wp_gets, wp_bnd. apply (key_release_way u); [done|]. intros u' Ho'.
  apply wp_fail. by split_and!.
Qed.

Lemma err_free_way u t e : on_way u t -> ~ ubi_up u -> device_err e -> wp (err_free uo e) t (opened u).
Proof.
  intros Ho Hn He. unfold err_free. apply wp_bnd, wp_mod, wp_bnd, wp_mod, wp_bnd, wp_mod.
  apply (on_way_mod _ _ k_free) in Ho; [|apply (ub_free (UbiLaws := UL))]. apply err_key_way; try done.
  destruct Ho. by split.
Qed.

Lemma err_deinit_way u t e : on_way u t -> ~ ubi_up u -> device_err e -> wp (err_deinit uo e) t (opened u).
Proof.
  intros Ho Hn He. unfold err_deinit. apply wp_bnd, wp_try. eapply wp_quiet; [apply (ub_deinit (UbiLaws := UL))|apply Ho|].
  intros r u' Hr Hs _. apply err_free_way; [by eapply on_way_dev|done|done].
Qed.

Lemma not_up u (Q : Prop) : (ubi_up u -> false = true) -> ~ ubi_up u.
Proof. intros H Hu. by discriminate (H Hu). Qed.

Lemma open_volume_way u t info (R : res Z -> be -> Prop) :
  on_way u t ->
  (forall u' v, on_way u (set_dev u' (set_vol v t)) -> v = V -> R (Ok n) (set_dev u' (set_vol v t))) ->
  (forall e u' v, on_way u (set_dev u' (set_vol v t)) -> ~ ubi_up u -> device_err e -> R (Err e) (set_dev u' (set_vol v t))) ->
  wp (open_volume uo info) t R.
Proof.
  intros Ho Hok Herr. unfold open_volume. apply wp_bnd, wp_try. eapply wp_quiet; [apply (ub_find (UbiLaws := UL))|apply Ho|].
  intros r u1 Hr Hs Hq. destruct (on_way_dev u t r u1 Ho Hr Hs) as [Ho1 Hup]. destruct Hr as (_ & _ & Hde). cbv beta iota zeta. destruct r as [v|e].
  - subst v. apply wp_bnd, wp_mod, wp_bnd, wp_gets. cbn [set_vol g_vol_id]. apply wp_bnd.
    eapply wp_quiet; [apply (ub_volume (UbiLaws := UL))|apply Ho1|]. intros r u2 Hr2 Hs2 Hq2. cbn [set_vol set_dev u_dev] in Hr2, Hs2.
    destruct (on_way_dev u (set_vol V (set_dev u1 t)) r u2) as [Ho2 Hup2]; [destruct Ho1; by split|done|done|].
    destruct Hr2 as (_ & _ & Hde2). destruct r as [k|e].
    + subst k. destruct (ub_geom (UbiLaws := UL)) as (_ & _ & Hn). unfold UINT16_MAX. destruct (Z.gtb_spec n 65535); [lia|].
      apply wp_ret. exact (Hok u2 V Ho2 eq_refl).
    + apply (Herr e u2 V Ho2); [|done]. intros Hu. by discriminate (Hup2 Hu).
  - assert (~ ubi_up u) as Hn by (intros Hu; by discriminate (Hup Hu)).
    assert (set_dev u1 t = set_dev u1 (set_vol (g_vol_id t) t)) as E by by destruct t.
    destruct (decide (e = ENOENT)) as [->|Hne]; [by destruct Hde as (_ & ? & _)|].
    assert (R (Err e) (set_dev u1 t)) as HR by (rewrite E; apply Herr; [by rewrite <- E|done|done]).
    destruct e; try (by apply wp_fail); done.
Qed.

Lemma open_attached_way u t : on_way u t -> g_ubi t = true -> wp (open_attached uo) t (opened u).
Proof.
  intros Ho Hg. unfold open_attached. apply wp_bnd, wp_try. eapply wp_quiet; [apply (ub_info (UbiLaws := UL))|apply Ho|].
  intros r u1 Hr Hs Hq. destruct (on_way_dev u t r u1 Ho Hr Hs) as [Ho1 Hup]. destruct Hr as (_ & _ & Hde). destruct r as [info|e].
  2: { apply err_deinit_way; [done| |done]. intros Hu. by discriminate (Hup Hu). }
  destruct Hq as [Hsz Hwb]. apply wp_bnd, wp_mod, wp_bnd. eapply maintain_way; [|].
  { instantiate (1 := u). destruct Ho1. by split. }
  intros u2 Ho2. apply wp_bnd, wp_try. eapply open_volume_way; [exact Ho2| |].
  - intros u3 v Ho3 ->. rewrite Hwb. rewrite Hsz in Ho3 |- *. apply wp_ret. split; [done|]. split; [done|]. destruct (ub_geom (UbiLaws := UL)) as (_ & _ & Hn).
    rewrite u16_small by lia. split_and!; try done.
  - intros e u3 v Ho3 Hn He. by apply err_deinit_way.
Qed.

Lemma ubi_open_spec discard s :
  ub_inv s -> g_ubi s = false -> wp (blob_db_store_open uo discard) s (opened (u_dev s)).
Proof.
  intros [Hc Hd _] Hg. unfold blob_db_store_open. apply wp_bnd, wp_gets. rewrite Hg. cbv beta iota.
  assert (on_way (u_dev s) s) as Ho by (by split). set (u := u_dev s) in *. clearbody u. clear Hc.
  apply wp_bnd, wp_try. eapply wp_quiet_sys; [apply (ub_psa (UbiLaws := UL))|apply Ho|]. intros r u1 Hr Hs.
  destruct (on_way_dev u s r u1 Ho Hr Hs) as [Ho1 Hup]. destruct r as [[]|e].
  2: { apply wp_fail. split; [done|]. split; [intros Hu; by discriminate (Hup Hu)|done]. }
  clear Hr Hs. apply wp_bnd. set (t := set_dev u1 s) in *. assert (g_ubi t = false) as Hgt by done. clearbody t. clear s Hg Ho Hd Hup.
  assert (forall (R : res Z -> be -> Prop),
    (forall k u', on_way u (set_dev u' t) -> R (Ok k) (set_dev u' t)) ->
    (forall e u', on_way u (set_dev u' t) -> ~ ubi_up u -> device_err e -> R (Err e) (set_dev u' t)) -> wp (key_acquire uo) t R) as Hkey.
  { intros R H1 H2. unfold key_acquire. destruct (UBI_KEY_BUILTIN uo).
    - apply wp_bnd, wp_try. eapply wp_quiet_sys; [apply (ub_import (UbiLaws := UL))|apply Ho1|]. intros r u2 Hr Hs.
      destruct (on_way_dev u t r u2 Ho1 Hr Hs) as [Ho2 Hup]. destruct r as [k|e]; [by apply wp_ret, H1|].
      apply wp_fail, H2; [done| |done]. intros Hu. by discriminate (Hup Hu).
    - eapply wp_quiet_sys; [apply (ub_ikm (UbiLaws := UL))|apply Ho1|]. intros r u2 Hr Hs.
      destruct (on_way_dev u t r u2 Ho1 Hr Hs) as [Ho2 Hup]. destruct r as [k|e]; [by apply H1|].
      apply H2; [done| |apply Hr]. intros Hu. by discriminate (Hup Hu). }
  apply Hkey; clear Hkey.
  2: { intros e u' Ho Hn He. by split_and!. }
  intros k u2 Ho2. apply wp_bnd, wp_mod, wp_bnd, wp_mod, wp_bnd. apply (alloc_handle_way u).
  { destruct Ho2. by split. }
  intros u3 Ho3. cbn [negb]. set (t3 := set_handle _ _) in *.
  assert (g_ubi t3 = true) as Hg3 by done. clearbody t3. clear -Ho3 Hg3 UL.
  set (config := mk_ubi_config _ _ _ _). clearbody config. apply wp_bnd, wp_try.
  unfold attach. apply wp_bnd, wp_try. eapply wp_quiet; [apply (ub_init (UbiLaws := UL))|apply Ho3|].
  intros r u4 Hr Hs _. destruct (on_way_dev u t3 r u4 Ho3 Hr Hs) as [Ho4 Hup]. destruct Hr as (_ & _ & Hde). cbv beta iota zeta.
  destruct r as [[]|e]; [by apply wp_ret, open_attached_way|].
  assert (~ ubi_up u) as Hn by (intros Hu; by discriminate (Hup Hu)).
  destruct (decide (e = ENODEV \/ e = EBADMSG \/ e = ENOTSUP)) as [Hbad|Hok].
  { exfalso. destruct Hde as (_ & _ & _ & _ & ? & ? & _ & _ & ?). by destruct Hbad as [->|[->| ->]]. }
  assert (wp (err_free uo e) (set_dev u4 t3) (opened u)) as Hx by (by apply err_free_way).
  destruct discard; destruct e; try (apply wp_fail; exact Hx); exfalso; apply Hok; auto.
Qed.

(** ** The states of the instance, and the calls as actions on them *)

Record ubi_st := mk_ubi_st { ub : be; ub_wf : ub_inv ub }.

Definition stays {A} (m : M be A) : Prop := forall s, ub_inv s -> ub_inv (snd (m s)) /\ g_ubi (snd (m s)) = g_ubi s.

Definition opened_only {A} (m : M be A) : M be A := fun s => if g_ubi s then m s else (Err EIO, s).

Definition on_st {A} (m : M be A) (H : forall s, ub_inv s -> ub_inv (snd (m s))) : M ubi_st A := fun s =>
  (fst (m (ub s)), mk_ubi_st (snd (m (ub s))) (H (ub s) (ub_wf s))).

Lemma stays_bnd {A B} (m : M be A) (k : A -> M be B) : stays m -> (forall a, stays (k a)) -> stays (mbnd m k).
Proof.
  intros Hm Hk s Hs. unfold mbnd. destruct (Hm s Hs) as [H1 H2]. destruct (m s) as [[a|e] s']; cbn [snd] in *; [|done].
  destruct (Hk a s' H1) as [H3 H4]. split; congruence.
Qed.

Lemma stays_ret {A} (a : A) : stays (mret a).
Proof. by intros s Hs. Qed.

Lemma stays_gets {A} (f : be -> A) : stays (mgets f).
Proof. by intros s Hs. Qed.

Lemma stays_ubi {A} (m : EM U A) : intact m -> stays (ubi m).
Proof.
  intros Hm s [Hc Hd Ho]. unfold ubi. specialize (Hm _ Hc). destruct (m (u_dev s)) as [[r ev] u']. destruct Hm as [Hc' Hev].
  cbn [snd]. rewrite harmless_events by done. by split.
Qed.

Lemma stays_maint op k s : ub_inv s -> let '(_, _, s') := ubi_maint op k s in
  ub_inv s' /\ g_ubi s' = g_ubi s /\ same_lebs (u_dev s) (u_dev s') /\ (ubi_up (u_dev s) -> ubi_up (u_dev s')).
Proof.
  intros [Hc Hd Ho]. unfold ubi_maint. pose proof (ub_maint (UbiLaws := UL) op k _ Hc) as Hm.
  destruct (ubi_maintenance op k (u_dev s)) as [[[rc rs] ev] u']. destruct Hm as (Hc' & Hu & Hs & Hev).
  rewrite harmless_events by done. by split_and!.
Qed.

Lemma stays_maintain op k : stays (maintain op k).
Proof.
  intros s Hs. pose proof (stays_maint op k s Hs) as Hm. unfold maintain. destruct (ubi_maint op k s) as [[? ?] s']. cbn [snd]. tauto.
Qed.

Lemma stays_relocate : stays (relocate_step uo).
Proof. unfold relocate_step. destruct (_ >? 0); [apply stays_maintain|apply stays_ret]. Qed.

Lemma stays_erase off k : stays (blob_db_store_erase uo off k).
Proof.
  intros s Hs. unfold blob_db_store_erase. destruct (k =? 0); [done|]. apply stays_bnd; [|intros; apply stays_relocate|done].
  generalize (Z.to_nat (lnum_of s (off + k - 1) - lnum_of s off + 1)) as j. generalize (lnum_of s off) as l.
  intros l j. revert l. induction j as [|j IH]; intros l; cbn [erase_lebs]; [apply stays_ret|].
  apply stays_bnd; [apply stays_gets|]. intros v. apply stays_bnd; [apply stays_ubi, (ub_erase_intact (UbiLaws := UL))|auto].
Qed.

Lemma stays_read off k : stays (blob_db_store_read off k).
Proof. intros s. apply stays_ubi, (ub_read_intact (UbiLaws := UL)). Qed.

Lemma stays_write off b : stays (blob_db_store_write off b).
Proof. intros s. apply stays_ubi, (ub_write_intact (UbiLaws := UL)). Qed.

Lemma stays_replace off b : stays (blob_db_store_replace uo off b).
Proof.
  intros s Hs. unfold blob_db_store_replace. destruct (negb _).
  - apply stays_bnd; [apply stays_erase|intros; apply stays_write|done].
  - apply stays_bnd; [apply stays_ubi, (ub_change_intact (UbiLaws := UL))|intros; apply stays_relocate|done].
Qed.

Lemma stays_opened {A} (m : M be A) : stays m -> forall s, ub_inv s -> ub_inv (snd (opened_only m s)).
Proof. intros Hm s Hs. unfold opened_only. destruct (g_ubi s); [apply Hm, Hs|done]. Qed.

Lemma ubi_open_inv d s : ub_inv s -> ub_inv (snd (blob_db_store_open uo d s)).
Proof.
  intros Hs. destruct (g_ubi s) eqn:Eg.
  - unfold blob_db_store_open, mbnd, mgets. by rewrite Eg.
  - pose proof (ubi_open_spec d s Hs Eg) as Ho. unfold wp in Ho. destruct (blob_db_store_open uo d s) as [r s'].
    destruct Ho as ([Hc _ _ Hd] & _ & Hr). cbn [snd]. split; [done..|]. destruct r; [tauto|]. destruct Hr as [_ ->]. done.
Qed.

Lemma ubi_close_spec s : ub_inv s -> wp (blob_db_store_close uo) s (fun _ s' =>
  ub_inv s' /\ g_ubi s' = false /\ same_lebs (u_dev s) (u_dev s') /\ (ubi_up (u_dev s) -> ubi_up (u_dev s'))).
Proof.
  intros Hs. pose proof Hs as [Hc Hd _]. unfold blob_db_store_close. apply wp_bnd, wp_gets. destruct (g_ubi s) eqn:Eg; cbn [negb].
  2: { by apply wp_ret. }
  assert (on_way (u_dev s) s) as Ho by by split. set (u := u_dev s) in *. clearbody u. clear Hc.
  apply wp_bnd, wp_try. eapply wp_quiet; [apply (ub_deinit (UbiLaws := UL))|apply Ho|]. intros r u1 Hr Hs1 _.
  destruct (on_way_dev u s r u1 Ho Hr Hs1) as [Ho1 _]. apply wp_bnd, wp_mod. apply (on_way_mod _ _ k_free) in Ho1; [|apply (ub_free (UbiLaws := UL))].
  apply wp_bnd, wp_mod, wp_bnd, wp_mod, wp_bnd, wp_gets. eapply (key_release_way u); [destruct Ho1; by split|].
  intros u' [Hc' Hu' Hs' Hd']. split; [by split|]. by split_and!.
Qed.

Lemma ubi_close_inv s : ub_inv s -> ub_inv (snd (blob_db_store_close uo s)).
Proof. intros Hs. pose proof (ubi_close_spec s Hs) as Hw. unfold wp in Hw. destruct (blob_db_store_close uo s). tauto. Qed.

Lemma maintain_ops_stays ops k p mo s : ub_inv s -> let s' := snd (maintain_ops ops k p mo s) in
  ub_inv s' /\ g_ubi s' = g_ubi s /\ same_lebs (u_dev s) (u_dev s') /\ (ubi_up (u_dev s) -> ubi_up (u_dev s')).
Proof.
  revert p mo s. induction ops as [|op ops IH]; intros p mo s Hs; cbn [maintain_ops]; [by split_and!|].
  pose proof (stays_maint op (u32 (k - p)) s Hs) as Hm. destruct (ubi_maint op (u32 (k - p)) s) as [[rc rs] s1]. destruct Hm as (Hs1 & Hg1 & Hl1 & Hu1).
  assert (forall x, let s' := snd ((x, s1) : (res unit * Z * bool) * be) in
    ub_inv s' /\ g_ubi s' = g_ubi s /\ same_lebs (u_dev s) (u_dev s') /\ (ubi_up (u_dev s) -> ubi_up (u_dev s'))) as Hend by done.
  assert (forall p mo, let s' := snd (maintain_ops ops k p mo s1) in
    ub_inv s' /\ g_ubi s' = g_ubi s /\ same_lebs (u_dev s) (u_dev s') /\ (ubi_up (u_dev s) -> ubi_up (u_dev s'))) as Hgo.
  { intros p' mo'. destruct (IH p' mo' s1 Hs1) as (H1 & H2 & H3 & H4). split_and!; [done|congruence|intros q; by rewrite H3, Hl1|auto]. }
  destruct rc as [[]|e]; [apply Hgo|]. destruct e; first [apply Hgo|apply Hend].
Qed.

Lemma ubi_maintain_inv k s : ub_inv s -> ub_inv (snd (blob_db_store_maintain k s)).
Proof. intros Hs. by destruct (maintain_ops_stays [UBI_MAINTENANCE_RECLAIM; UBI_MAINTENANCE_RELOCATE] k 0 false s Hs). Qed.

#[export] Instance ubi_store : Store ubi_st := {
  Store.blob_db_store_open d := on_st (blob_db_store_open uo d) (ubi_open_inv d);
  Store.blob_db_store_close s := mk_ubi_st _ (ubi_close_inv (ub s) (ub_wf s));
  Store.blob_db_store_read off k := on_st (opened_only (blob_db_store_read off k)) (stays_opened _ (stays_read off k));
  Store.blob_db_store_write off b := on_st (opened_only (blob_db_store_write off b)) (stays_opened _ (stays_write off b));
  Store.blob_db_store_erase off k := on_st (opened_only (blob_db_store_erase uo off k)) (stays_opened _ (stays_erase off k));
  Store.blob_db_store_replace off b := on_st (opened_only (blob_db_store_replace uo off b)) (stays_opened _ (stays_replace off b));
  Store.blob_db_store_replace_is_atomic := blob_db_store_replace_is_atomic uo;
  Store.blob_db_store_open_found_damage off s := blob_db_store_open_found_damage off (ub s);
  Store.blob_db_store_maintain k s := (fst (blob_db_store_maintain k (ub s)), mk_ubi_st _ (ubi_maintain_inv k (ub s) (ub_wf s)));
}.

#[export] Instance ubi_view : StoreView ubi_st := {
  img s p := leb (u_dev (ub s)) p;
  healthy s := g_ubi (ub s) = true /\ ubi_up (u_dev (ub s));
  bootable s := g_ubi (ub s) = false /\ ubi_up (u_dev (ub s));
}.

(** ** The contract *)

(** What a call on an open backend leaves: the statics, and its LEBs apart from
    those a test picks. *)
Definition leaves {A} (pick : Z -> Prop) (s : be) (r : res A) (s' : be) : Prop :=
  (ub_inv s' /\ g_ubi s' = g_ubi s) /\ (ubi_up (u_dev s) -> is_ok r = true /\ ubi_up (u_dev s')) /\
  (forall q, ~ pick q -> leb (u_dev s') q = leb (u_dev s) q) /\ match r with Ok _ => True | Err e => device_err e end.

Lemma at_lnum s p w : ub_inv s -> g_ubi s = true -> 0 <= p < n -> 0 <= w < P ->
  g_vol_id s = V /\ lnum_of s (p * P + w) = p /\ within_of s (p * P + w) = w.
Proof.
  intros [_ _ Ho] Hg Hp Hw. destruct (Ho Hg) as [El Ev]. destruct (ub_geom (UbiLaws := UL)) as (HP & _ & Hn).
  unfold lnum_of, within_of. rewrite El, Ev.
  rewrite Z.div_add_l, Z.div_small, Z.add_0_r by lia. rewrite (Z.add_comm (p * P)), Z.mod_add, Z.mod_small by lia.
  rewrite !u32_small by lia. done.
Qed.

Lemma leaves_trans {A B} pick s (r : res A) s1 (r' : res B) s2 :
  leaves pick s r s1 -> is_ok r = true -> leaves pick s1 r' s2 -> leaves pick s r' s2.
Proof.
  intros ((H1 & G1) & U1 & L1 & _) _ ((H2 & G2) & U2 & L2 & E2). split; [split; [done|congruence]|].
  split; [intros Hu; apply U2, U1, Hu|]. split; [|done]. intros q Hq. by rewrite L2, L1.
Qed.

Lemma leaves_more {A} (pick pick' : Z -> Prop) s (r : res A) s' :
  (forall q, pick q -> pick' q) -> leaves pick s r s' -> leaves pick' s r s'.
Proof. intros Hp (H1 & H2 & H3 & H4). split_and!; try done; [apply H1..|]. intros q Hq. apply H3. auto. Qed.

(** A call on the device as an action of the backend. *)
Lemma leaves_ubi {A} (m : EM U A) pick s (R : res A -> be -> Prop) :
  ub_inv s ->
  (let '(r, ev, u') := m (u_dev s) in ends (u_dev s) r u' /\ (forall q, ~ pick q -> leb u' q = leb (u_dev s) q) /\ Forall harmless ev /\
    (leaves pick s r (set_dev u' s) -> R r (set_dev u' s))) ->
  wp (ubi m) s R.
Proof.
  intros [Hc Hd Ho] Hm. unfold wp, ubi. destruct (m (u_dev s)) as [[r ev] u']. destruct Hm as ((Hc' & Hu & He) & Hl & Hev & HR).
  rewrite harmless_events by done. apply HR. split; [by split|]. by split_and!.
Qed.

Lemma relocate_leaves pick s (R : res unit -> be -> Prop) :
  ub_inv s -> (forall s', leaves pick s (Ok tt) s' -> same_lebs (u_dev s) (u_dev s') -> R (Ok tt) s') -> wp (relocate_step uo) s R.
Proof.
  intros Hs HR. unfold relocate_step. destruct (_ >? 0).
  - pose proof (stays_maint UBI_MAINTENANCE_RELOCATE (UBI_RELOCATE_BUDGET uo) s Hs) as Hm. unfold wp, maintain.
    destruct (ubi_maint _ _ s) as [[? ?] s']. destruct Hm as (H1 & H2 & H3 & H4). apply HR; [|done]. split_and!; try done. intros Hu. auto.
  - apply wp_ret, HR; [|done]. by split_and!.
Qed.

Lemma erase_lebs_spec k l s :
  ub_inv s -> g_ubi s = true -> 0 <= l -> l + Z.of_nat k <= n ->
  wp (erase_lebs k l) s (fun r s' => leaves (fun q => l <= q < l + Z.of_nat k) s r s' /\
    (r = Ok tt -> forall q, l <= q < l + Z.of_nat k -> leb (u_dev s') q = erased P)).
Proof.
  intros Hs Hg. revert l s Hs Hg. induction k as [|k IH]; intros l s Hs Hg Hl Hk; cbn [erase_lebs].
  - apply wp_ret. split; [by split_and!|]. intros _ q Hq. lia.
  - apply wp_bnd, wp_gets, wp_bnd. destruct (ui_open _ Hs Hg) as [_ ->]. apply (leaves_ubi _ (fun q => q = l)); [done|].
    pose proof (ub_erase (UbiLaws := UL) (u_dev s) l (ui_carries _ Hs) ltac:(lia)) as He.
    destruct (ubi_leb_erase V l (u_dev s)) as [[r ev] u']. destruct He as (He & Ho & Hev & Hr). split_and!; try done.
    intros Hv. destruct r as [[]|e].
    + pose proof Hv as ((Hs1 & Hg1) & _). rewrite Hg in Hg1. eapply wp_mono; [apply (IH (l + 1) _ Hs1 Hg1); lia|]. cbv beta.
      intros r s2 [Hv2 He2]. split.
      * eapply leaves_trans; [eapply leaves_more; [|exact Hv]; intros q ->; lia|done|]. eapply leaves_more; [|exact Hv2]. intros q Hq. cbv beta in *. lia.
      * intros -> q Hq. destruct (decide (q = l)) as [->|]; [|apply He2; [done|lia]].
        destruct Hv2 as (_ & _ & Hl2 & _). rewrite Hl2 by lia. exact Hr.
    + split; [|done]. eapply leaves_more; [|exact Hv]. intros q ->. lia.
Qed.

(** Erasing the LEBs from [p] on. *)
Lemma ubi_erase_spec s p k :
  ub_inv s -> g_ubi s = true -> 0 <= p -> 1 <= k -> p + k <= n ->
  wp (blob_db_store_erase uo (p * P) (k * P)) s (fun r s' => leaves (fun q => p <= q < p + k) s r s' /\
    (r = Ok tt -> forall q, p <= q < p + k -> leb (u_dev s') q = erased P)).
Proof.
  intros Hs Hg Hp Hk Hn. destruct (ub_geom (UbiLaws := UL)) as (HP & _ & Hn').
  destruct (at_lnum s p 0 Hs Hg ltac:(lia) ltac:(lia)) as (_ & E1 & _). rewrite Z.add_0_r in E1.
  destruct (at_lnum s (p + k - 1) (P - 1) Hs Hg ltac:(lia) ltac:(lia)) as (_ & E2 & _).
  replace ((p + k - 1) * P + (P - 1)) with (p * P + k * P - 1) in E2 by lia.
  unfold blob_db_store_erase. unfold wp. destruct (Z.eqb_spec (k * P) 0); [nia|]. rewrite E1, E2.
  replace (p + k - 1 - p + 1) with k by lia. fold (wp (erase_lebs (Z.to_nat k) p;;; relocate_step uo) s (fun r s' =>
    leaves (fun q => p <= q < p + k) s r s' /\ (r = Ok tt -> forall q, p <= q < p + k -> leb (u_dev s') q = erased P))).
  apply wp_bnd. eapply wp_mono; [apply (erase_lebs_spec (Z.to_nat k) p s Hs Hg); lia|]. rewrite Z2Nat.id by lia. cbv beta.
  intros [[]|e] s1 [Hv He]; [|done]. apply (relocate_leaves (fun q => p <= q < p + k)); [apply Hv|]. intros s2 Hv2 Hl2.
  split; [by eapply leaves_trans|]. intros _ q Hq. rewrite Hl2. by apply He.
Qed.

Lemma ubi_write_spec s p w b :
  ub_inv s -> g_ubi s = true -> 0 <= p < n -> 0 <= w < P -> w + len b <= P -> w mod al = 0 -> len b mod al = 0 -> bytes_ok b ->
  wp (blob_db_store_write (p * P + w) b) s (fun r s' => leaves (fun q => q = p) s r s' /\
    exists b', leb (u_dev s') p = splice w b' (leb (u_dev s) p) /\
      match r with
      | Ok _ => prog_done (slice w (len b) (leb (u_dev s) p)) b b'
      | Err _ => prog_torn (slice w (len b) (leb (u_dev s) p)) b b'
      end).
Proof.
  intros Hs Hg Hp Hw Hf Hm1 Hm2 Hb. destruct (at_lnum s p w Hs Hg Hp Hw) as (EV & E1 & E2).
  unfold blob_db_store_write, wp. rewrite EV, E1, E2. change (wp (ubi (ubi_leb_write_at V p w b)) s (fun r s' =>
    leaves (fun q => q = p) s r s' /\ exists b', leb (u_dev s') p = splice w b' (leb (u_dev s) p) /\
      match r with Ok _ => prog_done (slice w (len b) (leb (u_dev s) p)) b b'
      | Err _ => prog_torn (slice w (len b) (leb (u_dev s) p)) b b' end)).
  apply (leaves_ubi _ (fun q => q = p)); [done|].
  pose proof (ub_write (UbiLaws := UL) (u_dev s) p w b (ui_carries _ Hs) Hp ltac:(lia) Hf Hm1 Hm2 Hb) as He.
  destruct (ubi_leb_write_at V p w b (u_dev s)) as [[r ev] u']. destruct He as (He & Ho & Hev & b' & E & Hr). split_and!; try done.
  intros Hv. split; [done|]. by exists b'.
Qed.

Lemma ubi_replace_spec s p b :
  ub_inv s -> g_ubi s = true -> 0 <= p < n -> len b <= P -> len b mod al = 0 -> bytes_ok b ->
  wp (blob_db_store_replace uo (p * P) b) s (fun r s' => leaves (fun q => q = p) s r s' /\
    match r with
    | Ok _ => leb (u_dev s') p = b ++ erased (P - len b)
    | Err _ => UBI_ATOMIC_REPLACE uo = true -> leb (u_dev s') p = leb (u_dev s) p \/ leb (u_dev s') p = b ++ erased (P - len b)
    end).
Proof.
  intros Hs Hg Hp Hl Hm Hb. destruct (ub_geom (UbiLaws := UL)) as (HP & Hal & Hn). pose proof (len_nonneg b).
  unfold blob_db_store_replace, wp. destruct (UBI_ATOMIC_REPLACE uo) eqn:Ea; cbn [negb].
  - destruct (at_lnum s p 0 Hs Hg Hp ltac:(lia)) as (EV & E1 & _). rewrite Z.add_0_r in E1. rewrite EV, E1.
    match goal with |- let (r, s') := ?m s in ?Q => change (wp m s (fun r s' => Q)) end.
    apply wp_bnd, (leaves_ubi _ (fun q => q = p)); [done|].
    pose proof (ub_change (UbiLaws := UL) (u_dev s) p b (ui_carries _ Hs) Hp Hl Hm Hb) as He.
    destruct (ubi_leb_change V p b (u_dev s)) as [[r ev] u']. destruct He as (He & Ho & Hev & Hr). split_and!; try done.
    intros Hv. destruct r as [[]|e]; [|done]. apply (relocate_leaves (fun q => q = p)); [apply Hv|]. intros s2 Hv2 Hl2.
    split; [by eapply leaves_trans|]. by rewrite Hl2.
  - destruct (ui_open _ Hs Hg) as [-> _].
    match goal with |- let (r, s') := ?m s in ?Q => change (wp m s (fun r s' => Q)) end.
    apply wp_bnd. rewrite <- (Z.mul_1_l P) at 2. eapply wp_mono; [apply (ubi_erase_spec s p 1); lia || done|]. cbv beta.
    intros [[]|e] s1 [Hv He].
    2: { split; [|done]. eapply leaves_more; [|exact Hv]. cbv beta. intros q Hq. lia. }
    assert (leb (u_dev s1) p = erased P) as E1 by (apply He; [done|lia]).
    pose proof Hv as ((Hs1 & Hg1) & _). rewrite Hg in Hg1. rewrite <- (Z.add_0_r (p * P)).
    eapply wp_mono; [apply (ubi_write_spec s1 p 0 b); try done; lia|]. cbv beta. intros r s2 (Hv2 & b' & E2 & Hr).
    split; [eapply leaves_trans; [eapply leaves_more; [|exact Hv]; cbv beta; intros q Hq; lia|done|done]|].
    destruct r as [[]|e]; [|done]. rewrite E1, slice_erased in Hr by lia. apply prog_done_erased in Hr as ->; [|done].
    rewrite E2, E1. unfold splice. change (zt 0 (erased P)) with (@nil Z). rewrite app_nil_l. f_equal.
    unfold zd, erased. rewrite drop_replicate. f_equal. lia.
Qed.

Lemma wp_on_st {A} (m : M be A) H s (Q : res A -> ubi_st -> Prop) :
  wp m (ub s) (fun r b => forall Hb, Q r (mk_ubi_st b Hb)) -> wp (on_st m H) s Q.
Proof. unfold wp, on_st. generalize (H (ub s) (ub_wf s)). destruct (m (ub s)) as [r b]. cbn [fst snd]. intros Hb HQ. apply HQ. Qed.

(** On a closed store nothing happens. *)
Lemma wp_opened {A} (m : M be A) s (Q : res A -> be -> Prop) :
  (g_ubi s = true -> wp m s Q) -> (g_ubi s = false -> Q (Err EIO) s) -> wp (opened_only m) s Q.
Proof. intros H1 H2. unfold wp, opened_only. destruct (g_ubi s); [by apply H1|by apply H2]. Qed.

Lemma lor_byte_ff b : byte_ok b -> Z.lor 255 b = 255.
Proof.
  intros [H0 H1]. rewrite Z.lor_comm. apply (Z.lor_ones_low b 8); [done|]. destruct (decide (b = 0)) as [->|]; [done|].
  apply Z.log2_lt_pow2; lia.
Qed.

Lemma eio_device : device_err EIO.
Proof. by unfold device_err. Qed.

Lemma leaves_healthy {A} pick s (r : res A) b Hb :
  leaves pick (ub s) r b -> healthy s -> is_ok r = true /\ healthy (mk_ubi_st b Hb).
Proof. intros ((_ & Hg) & Hu & _) [H1 H2]. destruct (Hu H2). split; [done|]. split; [cbn; congruence|done]. Qed.

#[export] Instance ubi_store_laws : StoreLaws ubi_st ubi_geom.
Proof.
  destruct (ub_geom (UbiLaws := UL)) as (HP & Hal & Hn). split; cbn [sg_n_pebs sg_peb_size sg_write_align ubi_geom].
  - intros s p Hp. by apply (leb_len (UbiLaws := UL)).
  - intros s p. apply (leb_bytes (UbiLaws := UL)).
  - intros d s. apply wp_on_st. destruct (g_ubi (ub s)) eqn:Eg.
    + unfold blob_db_store_open. apply wp_bnd, wp_gets. rewrite Eg. apply wp_fail. intros Hb.
      split; [intros [? _]; cbn in *; congruence|]. split; [done|by unfold device_err].
    + eapply wp_mono; [apply (ubi_open_spec d _ (ub_wf s) Eg)|]. cbv beta. intros r b ([Hc Hu Hs Hd] & Hok & Hr) Hb.
      split; [intros [_ Hup]; split; [by apply Hok|]|split; [by intros _|]].
      * split; [|by apply Hu]. destruct r as [?|e]; [by destruct Hr as (_ & ? & _)|by discriminate (Hok Hup)].
      * by destruct r; destruct Hr.
  - intros s. pose proof (ubi_close_spec _ (ub_wf s)) as Hc. cbn [Store.blob_db_store_close ubi_store]. unfold wp in Hc.
    unfold same_flash, bootable, healthy. cbn [img ubi_view ub]. destruct (blob_db_store_close uo (ub s)) as [r b]. cbn [snd].
    destruct Hc as (_ & Hg & Hs & Hu). split; [exact Hs|]. intros [_ ?]. auto.
  - intros s p w k Hp Hw Hk Hf. apply wp_on_st, wp_opened.
    2: { intros Hg Hb. split; [intros [? _]; congruence|]. split; [by intros q|apply eio_device]. }
    intros Hg. destruct (at_lnum (ub s) p w (ub_wf s) Hg Hp ltac:(lia)) as (EV & E1 & E2). unfold blob_db_store_read, wp. rewrite EV, E1, E2.
    match goal with |- let (r, s') := ?m ?x in ?Q => change (wp m x (fun r s' => Q)) end.
    apply (leaves_ubi _ (fun _ => False)); [apply (ub_wf s)|].
    pose proof (ub_read (UbiLaws := UL) _ p w k (ui_carries _ (ub_wf s)) Hp Hw ltac:(lia) Hf) as He.
    destruct (ubi_leb_read V p w k (u_dev (ub s))) as [[r ev] u']. destruct He as (He & Ho & Hev & Hr).
    split; [done|]. split; [intros q _; apply Ho|]. split; [done|]. intros Hv Hb.
    split; [by apply (leaves_healthy _ _ _ _ _ Hv)|]. split; [exact Ho|]. destruct r; [done|]. by destruct He as (_ & _ & ?).
  - intros s p w b Hp Hw Hl Hf Hm1 Hm2 Hb. apply wp_on_st, wp_opened.
    2: { intros Hg Hb'. split; [intros [? _]; congruence|]. exists (slice w (len b) (leb (u_dev (ub s)) p)). pose proof (len_nonneg b).
         cbn [img ubi_view]. assert (len (leb (u_dev (ub s)) p) = P) as HlP by by apply (leb_len (UbiLaws := UL)).
         split; [split; [cbn [img ubi_view ub]; symmetry; apply splice_slice; lia|done]|]. split; [apply eio_device|].
         split; [rewrite len_slice by lia; lia|]. split; [apply bytes_ok_slice, (leb_bytes (UbiLaws := UL))|]. split; [|done].
         intros i n' x Hi Hn' Hx. rewrite Hi in Hx. injection Hx as <-. apply (lor_byte_ff n').
         unfold bytes_ok in Hb. rewrite list.Forall_forall in Hb. by eapply Hb, list_elem_of_lookup_2. }
    intros Hg. eapply wp_mono; [apply (ubi_write_spec (ub s) p w b); try done; [apply ub_wf|lia]|]. cbv beta.
    intros r b0 (Hv & b' & E & Hr) Hb0. split; [by apply (leaves_healthy _ _ _ _ _ Hv)|]. exists b'.
    split; [split; [exact E|intros q Hq; by apply Hv]|]. destruct r; [done|]. split; [apply Hv|done].
  - intros s p Hp. apply wp_on_st, wp_opened.
    2: { intros Hg Hb. split; [intros [? _]; congruence|]. exists (img s p). split; [by split|apply eio_device]. }
    intros Hg. rewrite <- (Z.mul_1_l P) at 2. eapply wp_mono; [apply (ubi_erase_spec (ub s) p 1 (ub_wf s) Hg); lia|]. cbv beta.
    intros r b0 (Hv & He) Hb0. split; [by apply (leaves_healthy _ _ _ _ _ Hv)|]. exists (leb (u_dev b0) p).
    split; [split; [done|intros q Hq; apply Hv; cbv beta; lia]|]. destruct r as [[]|]; [apply He; [done|lia]|apply Hv].
  - intros s. apply wp_on_st, wp_opened.
    2: { intros Hg Hb. split; [intros [? _]; congruence|apply eio_device]. }
    intros Hg. rewrite <- (Z.mul_0_l P) at 1. eapply wp_mono; [apply (ubi_erase_spec (ub s) 0 n (ub_wf s) Hg); lia|]. cbv beta.
    intros r b0 (Hv & He) Hb0. split; [by apply (leaves_healthy _ _ _ _ _ Hv)|]. destruct r as [[]|]; [|apply Hv].
    intros p Hp. apply He; [done|lia].
  - intros s p b Hp Hl Hm Hb. apply wp_on_st, wp_opened.
    2: { intros Hg Hb'. split; [intros [? _]; congruence|]. exists (img s p). split; [by split|]. split; [apply eio_device|auto]. }
    intros Hg. eapply wp_mono; [apply (ubi_replace_spec (ub s) p b); try done; apply ub_wf|]. cbv beta.
    intros r b0 (Hv & Hr) Hb0. split; [by apply (leaves_healthy _ _ _ _ _ Hv)|]. exists (leb (u_dev b0) p).
    split; [split; [done|intros q Hq; by apply Hv]|]. destruct r as [[]|]; [done|]. split; [apply Hv|done].
  - intros k s. destruct (maintain_ops_stays [UBI_MAINTENANCE_RECLAIM; UBI_MAINTENANCE_RELOCATE] k 0 false _ (ub_wf s)) as (_ & Hg & Hs & Hu).
    split; [exact Hs|]. intros [H1 H2]. split; [by rewrite <- H1|auto].
Qed.
End instance.
