(* ===== verification/UbiSpec.v ===== *)
(** More of the UBI backend: a mount formats only a partition that reads erased
    end to end, damage is reported for the LEBs it was found at, and an open that
    fails, or a close, gives back what the open took. *)

From S2P Require Import Prelude Store FlashStore UbiStore.
Import UbiBackend.

(** ** The partition under the device

    [part]: its bytes; [recognises]: whether they are a device this release of
    UBI can read. Reading the partition does not change it, nor does what an open
    does before it attaches; a UBI that cannot attach leaves it as it was. *)
Class PartView (U : Type) := { part : U -> bytes; recognises : bytes -> bool }.

Class PartLaws (U : Type) `{!Ubi U} `{!PartView U} : Prop := {
  pt_psa : forall u, part (psa_crypto_init u).2 = part u;
  pt_import : forall u, part (psa_import_key u).2 = part u;
  pt_destroy : forall k u, part (psa_destroy_key k u) = part u;
  pt_ikm : forall u, part (blob_db_ubi_ikm_key u).2 = part u;
  pt_calloc : forall u, part (k_calloc u).2 = part u;
  pt_free : forall u, part (k_free u) = part u;
  pt_erased : forall u, flash_area_erased_val u = 255;
  pt_open : forall id u, let (r, u') := flash_area_open_id id u in
    part u' = part u /\ match r with Ok sz => sz = len (part u) | Err e => device_err e end;
  pt_read : forall off k u, 0 <= off -> 0 <= k -> off + k <= len (part u) ->
    let (r, u') := flash_area_read_at off k u in
    part u' = part u /\ match r with Ok b => b = slice off k (part u) | Err e => device_err e end;
  pt_close : forall u, part (flash_area_close_id u) = part u;
  pt_init : forall c u, recognises (part u) = false ->
    let '(r, _, u') := ubi_device_init c u in is_ok r = false /\ part u' = part u;
}.

Section foreign.
Context {U : Type} `{!Ubi U} `{!PartView U} {PL : PartLaws U}.
Notation be := (ubi_be U).
Implicit Types s : be.

(** Events touch the damage report only. *)
Lemma events_dev ev s : u_dev (foldl on_event s ev) = u_dev s /\ g_ubi (foldl on_event s ev) = g_ubi s.
Proof.
  revert s. induction ev as [|e ev IH]; intros s; cbn [foldl]; [done|]. destruct (IH (on_event s e)) as [-> ->].
  unfold on_event. destruct (ev_type e); try done; destruct (_ =? _); try done; by destruct (_ <? _).
Qed.

(** The chunked loop reads the partition from [off] to its first byte that is
    not erased, or to its end. *)
Lemma blank_loop_spec fuel off s :
  0 <= off -> len (part (u_dev s)) - off <= 256 * Z.of_nat fuel ->
  wp (blank_loop fuel 255 (len (part (u_dev s))) off) s (fun r s' => part (u_dev s') = part (u_dev s) /\
    match r with
    | Ok b => b = all_erased (zd off (part (u_dev s)))
    | Err e => device_err e
    end).
Proof.
  assert (forall o (l : bytes), len l <= o -> zd o l = []) as Hend by (intros; apply drop_ge; unfold len in *; lia).
  revert off s. induction fuel as [|fuel IH]; intros off s Ho Hf; cbn [blank_loop].
  - apply wp_ret. split; [done|]. by rewrite Hend by lia.
  - set (sz := len (part (u_dev s))) in *. assert (len (part (u_dev s)) = sz) as Esz by done. destruct (Z.ltb_spec off sz) as [Hlt|Hge].
    2: { apply wp_ret. split; [done|]. by rewrite Hend. }
    apply wp_bnd. unfold wp at 1, sys. pose proof (pt_read (PartLaws := PL) off (Z.min 256 (sz - off)) (u_dev s) Ho ltac:(lia) ltac:(lia)) as Hr.
    destruct (flash_area_read_at _ _ _) as [r u']. destruct Hr as [Hp Hr]. destruct r as [b|e]; [|done]. subst b.
    set (n := Z.min 256 (sz - off)) in *.
    assert (zd off (part (u_dev s)) = slice off n (part (u_dev s)) ++ zd (off + n) (part (u_dev s))) as E.
    { unfold slice. rewrite <- (zt_zd n (zd off (part (u_dev s)))) at 1. f_equal. unfold zd. rewrite drop_drop. f_equal. lia. }
    change (forallb (fun b => b =? 255) ?x) with (all_erased x).
    assert (all_erased (zd off (part (u_dev s))) = all_erased (slice off n (part (u_dev s))) && all_erased (zd (off + n) (part (u_dev s)))) as Ea
      by (rewrite E; unfold all_erased; by rewrite forallb_app).
    rewrite Ea. destruct (all_erased (slice off n (part (u_dev s)))); cbn [andb]; [|by apply wp_ret].
    set (s1 := set_dev u' s). assert (part (u_dev s1) = part (u_dev s)) as E1 by exact Hp.
    replace sz with (len (part (u_dev s1))) at 1 by (by rewrite E1).
    eapply wp_mono; [apply IH; [lia|rewrite E1; lia]|]. cbv beta. intros r s2 [H1 H2]. rewrite E1 in *. split; [done|].
    destruct r as [b|]; [|done]. rewrite H2. destruct (decide (256 <= sz - off)).
    + by replace (off + n) with (off + 256) by lia.
    + rewrite !Hend by lia. done.
Qed.

Lemma partition_is_blank_spec id s :
  wp (partition_is_blank id) s (fun r s' => part (u_dev s') = part (u_dev s) /\
    match r with Ok b => b = all_erased (part (u_dev s)) | Err e => device_err e end).
Proof.
  unfold partition_is_blank. apply wp_bnd. unfold wp at 1, sys. pose proof (pt_open id (u_dev s)) as Ho.
  destruct (flash_area_open_id id (u_dev s)) as [[sz|e] u1]; destruct Ho as [Hp Ho]; [subst sz|done].
  apply wp_bnd, wp_gets, wp_bnd, wp_try. cbn [u_dev set_dev]. rewrite pt_erased, <- Hp.
  eapply wp_mono; [apply (blank_loop_spec _ 0 (set_dev u1 s)); [lia|]|].
  - cbn [u_dev set_dev]. pose proof (len_nonneg (part u1)). pose proof (Z.div_mod (len (part u1)) 256 ltac:(lia)).
    pose proof (Z.mod_pos_bound (len (part u1)) 256 ltac:(lia)). pose proof (Z.div_pos (len (part u1)) 256). lia.
  - cbv beta. intros r s2 [H1 H2]. cbn [u_dev set_dev] in H1, H2. apply wp_bnd, wp_mod. unfold wp, mlift. cbn [u_dev set_dev].
    rewrite pt_close, H1. split; [done|]. destruct r; done.
Qed.

(** Without leave to discard, a partition UBI cannot attach is formatted only if
    it reads erased; any other is left as it was. *)
Definition untouched {A} (s : be) (r : res A) (s' : be) : Prop := is_ok r = false /\ part (u_dev s') = part (u_dev s).

Lemma attach_spares config s :
  recognises (part (u_dev s)) = false -> all_erased (part (u_dev s)) = false -> wp (attach config false) s (untouched s).
Proof.
  intros Hrec Hne. unfold attach. apply wp_bnd, wp_try. unfold wp at 1, ubi. pose proof (pt_init config (u_dev s) Hrec) as Hi.
  destruct (ubi_device_init config (u_dev s)) as [[r ev] u']. destruct Hi as [Hr Hp]. destruct (events_dev ev (set_dev u' s)) as [Ed _].
  set (s1 := foldl on_event (set_dev u' s) ev) in *. cbn [u_dev set_dev] in Ed. destruct r as [[]|e]; [done|].
  assert (part (u_dev s1) = part (u_dev s)) as Hp1 by (by rewrite Ed). cbv zeta.
  assert (wp (mfail e) s1 (untouched (A := unit) s)) as Hfail by by apply wp_fail.
  destruct (decide (e = ENODEV)) as [->|Hnd]; [|by destruct e].
  apply wp_bnd. eapply wp_mono; [apply (partition_is_blank_spec (flash_area_id config) s1)|]. cbv beta. rewrite Hp1.
  intros [b|e] s2 [H1 H2]; [|done]. subst b. rewrite Hne. by apply wp_fail.
Qed.

Lemma key_release_spares uo k s : wp (key_release uo k) s (fun r s' => r = Ok tt /\ part (u_dev s') = part (u_dev s)).
Proof.
  unfold key_release. destruct (UBI_KEY_BUILTIN uo); [apply wp_mod|by apply wp_ret]. split; [done|apply pt_destroy].
Qed.

Lemma err_key_spares {A} uo e s s0 : part (u_dev s) = part (u_dev s0) -> wp (err_key (A := A) uo e) s (untouched s0).
Proof.
  intros Hp. unfold err_key. apply wp_bnd, wp_gets, wp_bnd. eapply wp_mono; [apply key_release_spares|]. cbv beta.
  intros r s' [-> E]. apply wp_fail. split; [done|congruence].
Qed.

Lemma key_acquire_spares uo s : wp (key_acquire uo) s (fun _ s' => part (u_dev s') = part (u_dev s)).
Proof.
  unfold key_acquire. destruct (UBI_KEY_BUILTIN uo).
  - apply wp_bnd, wp_try. unfold wp, sys. pose proof (pt_import (u_dev s)). by destruct (psa_import_key (u_dev s)) as [[?|?] ?].
  - unfold wp, sys. pose proof (pt_ikm (u_dev s)). by destruct (blob_db_ubi_ikm_key (u_dev s)).
Qed.

Lemma open_spares uo s :
  g_ubi s = false -> recognises (part (u_dev s)) = false -> all_erased (part (u_dev s)) = false ->
  wp (blob_db_store_open uo false) s (untouched s).
Proof.
  intros Hg Hrec Hne. unfold blob_db_store_open. apply wp_bnd, wp_gets. rewrite Hg. cbv beta iota. apply wp_bnd, wp_try.
  unfold wp at 1, sys. pose proof (pt_psa (u_dev s)) as Hp. destruct (psa_crypto_init (u_dev s)) as [r u1]. cbn [snd] in Hp.
  destruct r as [[]|e]; [|by apply wp_fail]. apply wp_bnd. eapply wp_mono; [apply key_acquire_spares|]. cbv beta.
  cbn [set_dev u_dev]. rewrite Hp. intros [key|e] s2 Hp2; [|done]. apply wp_bnd, wp_mod, wp_bnd, wp_mod, wp_bnd.
  set (s3 := set_damage _ _ _). assert (part (u_dev s3) = part (u_dev s)) as Hp3 by exact Hp2. clearbody s3.
  unfold wp at 1, alloc_handle. pose proof (pt_calloc (u_dev s3)) as Hc. destruct (k_calloc (u_dev s3)) as [ok u']. cbn [snd] in Hc.
  rewrite Hp3 in Hc. destruct ok; cbn [negb]; [|by apply err_key_spares].
  apply wp_bnd, wp_try. set (s4 := set_handle _ _). assert (part (u_dev s4) = part (u_dev s)) as Hp4 by exact Hc. clearbody s4.
  eapply wp_mono; [apply (attach_spares _ s4); by rewrite Hp4|]. cbv beta. intros r s5 [Hr Hp5]. destruct r as [[]|e]; [done|].
  unfold err_free. apply wp_bnd, wp_mod, wp_bnd, wp_mod, wp_bnd, wp_mod. apply err_key_spares.
  cbn [set_vol set_handle set_dev u_dev]. rewrite pt_free. congruence.
Qed.
End foreign.

(** ** Damage *)

Definition damaging (e : ubi_event) : bool :=
  match ev_type e with
  | UBI_EVENT_HDR_CORRUPT | UBI_EVENT_HDR_TAMPERED | UBI_EVENT_DATA_CORRUPT => true
  | _ => false
  end.

Section damage.
Context {U : Type} `{!Ubi U}.
Notation be := (ubi_be U).

(** An event that condemns LEB [l], as the report is to tell it. *)
Definition condemns (l : Z) (e : ubi_event) : bool :=
  damaging e && ((ev_vol_id e =? UBI_VOL_ID_INVALID (U := U)) || (ev_lnum e =? l)).

Lemma land_bit m i : 0 <= i -> negb (Z.land m (BIT i) =? 0) = Z.testbit m i.
Proof.
  intros Hi. unfold BIT. rewrite Z.shiftl_1_l.
  assert (Z.land m (2 ^ i) = if Z.testbit m i then 2 ^ i else 0) as ->.
  { apply Z.bits_inj'. intros k Hk. rewrite Z.land_spec, Z.pow2_bits_eqb by done. destruct (Z.eqb_spec i k) as [->|Hne].
    - rewrite andb_true_r. destruct (Z.testbit m k); [by rewrite Z.pow2_bits_true|by rewrite Z.bits_0].
    - rewrite andb_false_r. destruct (Z.testbit m i); [by rewrite Z.pow2_bits_false|by rewrite Z.bits_0]. }
  destruct (Z.testbit m i); [|done]. pose proof (Z.pow_pos_nonneg 2 i ltac:(lia) Hi). destruct (Z.eqb_spec (2 ^ i) 0); [lia|done].
Qed.

Definition told (s : be) (l : Z) : bool := g_damaged_unplaced s || Z.testbit (g_damaged_lebs s) l.

Lemma on_event_told (s : be) e l : 0 <= l < 32 -> 0 <= ev_lnum e -> told (on_event s e) l = told s l || condemns l e.
Proof.
  intros Hl He. unfold told, on_event, condemns, damaging.
  destruct (ev_type e); cbn [andb]; rewrite ?orb_false_r; try done;
    (destruct (_ =? UBI_VOL_ID_INVALID); cbn [orb set_damage g_damaged_unplaced g_damaged_lebs]; [by rewrite orb_true_r|];
     destruct (Z.ltb_spec (ev_lnum e) 32); cbn [set_damage g_damaged_unplaced g_damaged_lebs];
     [rewrite Z.lor_spec; unfold BIT; rewrite Z.shiftl_1_l, Z.pow2_bits_eqb by done; by rewrite orb_assoc
     |destruct (Z.eqb_spec (ev_lnum e) l); [lia|by rewrite orb_false_r]]).
Qed.

Lemma events_told ev (s : be) l : 0 <= l < 32 -> Forall (fun e => 0 <= ev_lnum e) ev ->
  told (foldl on_event s ev) l = told s l || existsb (condemns l) ev.
Proof.
  intros Hl Hf. revert s. induction Hf as [|e ev He _ IH]; intros s; cbn [foldl existsb]; [by rewrite orb_false_r|].
  by rewrite IH, on_event_told, orb_assoc.
Qed.

(** From a cleared report, the LEBs below 32 are told exactly. *)
Lemma found_damage_exact ev (s : be) off :
  g_damaged_lebs s = 0 -> g_damaged_unplaced s = false -> Forall (fun e => 0 <= ev_lnum e) ev -> lnum_of s off < 32 ->
  blob_db_store_open_found_damage off (foldl on_event s ev) = existsb (condemns (lnum_of s off)) ev.
Proof.
  intros H0 H1 Hf Hl. assert (0 <= lnum_of s off) as Hp by (apply Z.mod_pos_bound; lia).
  assert (g_leb_size (foldl on_event s ev) = g_leb_size s) as Eg.
  { clear. revert s. induction ev as [|e ev IH]; intros s; [done|]. cbn [foldl]. rewrite IH. unfold on_event.
    destruct (ev_type e); try done; destruct (_ =? _); try done; by destruct (_ <? _). }
  unfold blob_db_store_open_found_damage. change (lnum_of (foldl on_event s ev) off) with (u32 (off / g_leb_size (foldl on_event s ev))).
  rewrite Eg. fold (lnum_of s off). destruct (Z.ltb_spec (lnum_of s off) 32); [|lia]. cbn [andb]. rewrite land_bit by done.
  change (told (foldl on_event s ev) (lnum_of s off) = existsb (condemns (lnum_of s off)) ev).
  rewrite events_told by (done || lia). unfold told. by rewrite H0, H1, Z.bits_0.
Qed.
End damage.

(** ** What an open takes

    [held]: the heap blocks and the imported keys the backend owns. *)
Class HeldView (U : Type) := { held : U -> Z * Z }.

Section resources.
Context {U : Type} `{!Ubi U} `{!HeldView U}.
Notation be := (ubi_be U).

Definition gives (u u' : U) (heap keys : Z) : Prop := held u' = (fst (held u) + heap, snd (held u) + keys).

Definition frugal {A} (m : EM U A) : Prop := forall u, held (m u).2 = held u.
Definition frugal_sys {A} (m : M U A) : Prop := forall u, held (m u).2 = held u.

Class HeldLaws : Prop := {
  hd_calloc : forall u, let (ok, u') := k_calloc u in gives u u' (if ok then 1 else 0) 0;
  hd_free : forall u, gives u (k_free u) (-1) 0;
  hd_import : forall u, let (r, u') := psa_import_key u in gives u u' 0 (if is_ok r then 1 else 0);
  hd_destroy : forall k u, gives u (psa_destroy_key k u) 0 (-1);
  hd_psa : frugal_sys psa_crypto_init;
  hd_ikm : frugal_sys blob_db_ubi_ikm_key;
  hd_open : forall id, frugal_sys (flash_area_open_id id);
  hd_read : forall off k, frugal_sys (flash_area_read_at off k);
  hd_close : forall u, held (flash_area_close_id u) = held u;
  hd_init : forall c, frugal (ubi_device_init c);
  hd_format : forall c, frugal (ubi_device_format c);
  hd_deinit : frugal ubi_device_deinit;
  hd_info : frugal ubi_device_get_info;
  hd_find : forall nm, frugal (ubi_volume_find nm);
  hd_create : forall nm k, frugal (ubi_volume_create nm k);
  hd_volume : forall v, frugal (ubi_volume_get_info v);
  hd_maint : forall op k u, held (ubi_maintenance op k u).2 = held u;
}.

Context {HL : HeldLaws} (uo : ubi_options).

(** An action that takes and gives back nothing, and keeps the handle. *)
Definition calm {A} (m : M be A) : Prop := forall s, held (u_dev (m s).2) = held (u_dev s) /\ g_ubi (m s).2 = g_ubi s.

Lemma calm_bnd {A B} (m : M be A) (k : A -> M be B) : calm m -> (forall a, calm (k a)) -> calm (mbnd m k).
Proof.
  intros Hm Hk s. unfold mbnd. destruct (Hm s) as [H1 H2]. destruct (m s) as [[a|e] s']; cbn [snd] in *; [|done].
  destruct (Hk a s') as [H3 H4]. split; congruence.
Qed.

Lemma calm_try {A} (m : M be A) : calm m -> calm (mtry m).
Proof. intros Hm s. unfold mtry. specialize (Hm s). by destruct (m s). Qed.

Lemma calm_ubi {A} (m : EM U A) : frugal m -> calm (ubi m).
Proof.
  intros Hm s. unfold ubi. specialize (Hm (u_dev s)). destruct (m (u_dev s)) as [[r ev] u']. cbn [snd] in *.
  destruct (events_dev ev (set_dev u' s)) as [-> ->]. done.
Qed.

Lemma calm_sys {A} (m : M U A) : frugal_sys m -> calm (sys m).
Proof. intros Hm s. unfold sys. specialize (Hm (u_dev s)). by destruct (m (u_dev s)). Qed.

Lemma calm_ret {A} (a : A) : calm (mret a).
Proof. done. Qed.

Lemma calm_fail {A} e : calm (@mfail be A e).
Proof. done. Qed.

Lemma calm_gets {A} (f : be -> A) : calm (mgets f).
Proof. done. Qed.

Lemma calm_lift {A} (r : res A) : calm (mlift r).
Proof. done. Qed.

Lemma calm_maintain op k : calm (maintain op k).
Proof.
  intros s. unfold maintain, ubi_maint. pose proof (hd_maint op k (u_dev s)) as Hm.
  destruct (ubi_maintenance op k (u_dev s)) as [[[rc rs] ev] u']. cbn [snd] in *. destruct (events_dev ev (set_dev u' s)) as [-> ->]. done.
Qed.

Create HintDb calm.
#[local] Hint Resolve calm_bnd calm_try calm_ubi calm_sys calm_ret calm_fail calm_gets calm_lift calm_maintain : calm.
#[local] Hint Resolve hd_psa hd_ikm hd_open hd_read hd_init hd_format hd_deinit hd_info hd_find hd_create hd_volume : calm.

Lemma calm_blank fuel ev sz off : calm (blank_loop fuel ev sz off).
Proof.
  revert off. induction fuel as [|fuel IH]; intros off; cbn [blank_loop]; [apply calm_ret|]. destruct (off <? sz); [|apply calm_ret].
  apply calm_bnd; [auto with calm|]. intros b. destruct (forallb _ b); [apply IH|apply calm_ret].
Qed.

Lemma calm_partition_is_blank id : calm (partition_is_blank id).
Proof.
  unfold partition_is_blank. apply calm_bnd; [auto with calm|]. intros sz. apply calm_bnd; [apply calm_gets|]. intros ev.
  apply calm_bnd; [apply calm_try, calm_blank|]. intros rc. apply calm_bnd; [|intros _; apply calm_lift].
  intros s. split; [apply hd_close|done].
Qed.

Lemma calm_attach c discard : calm (attach c discard).
Proof.
  unfold attach. apply calm_bnd; [auto with calm|].
  assert (calm (ubi (ubi_device_format c);;; ubi (ubi_device_init c))) as Hf by (apply calm_bnd; auto with calm).
  intros [[]|e]; [apply calm_ret|]. destruct discard; destruct e; auto using calm_fail.
  apply calm_bnd; [apply calm_partition_is_blank|]. intros []; auto using calm_fail.
Qed.

Lemma calm_open_volume info : calm (open_volume uo info).
Proof.
  assert (forall v, calm (mmod (set_vol v) : M be unit)) as Hv by done.
  unfold open_volume. cbv zeta.
  assert (calm (let* vol := mgets g_vol_id in let* leb_count := ubi (ubi_volume_get_info vol) in
    if leb_count >? UINT16_MAX then mfail ENOTSUP else mret leb_count : M be Z)) as Hr.
  { apply calm_bnd; [apply calm_gets|]. intros v. apply calm_bnd; [auto with calm|]. intros k. destruct (k >? _); auto using calm_ret, calm_fail. }
  apply calm_bnd; [auto with calm|]. intros [v|e]; [by apply calm_bnd|]. destruct e; try apply calm_fail.
  destruct (_ <=? _); [apply calm_fail|]. apply calm_bnd; [auto with calm|]. intros v. by apply calm_bnd.
Qed.

(** The keys an acquire takes and a release gives back: none for a key of the
    application. *)
Definition key_cost : Z := if UBI_KEY_BUILTIN uo then 1 else 0.

Lemma wp_calm {A} (m : M be A) s (R : res A -> be -> Prop) :
  calm m -> (forall r s', held (u_dev s') = held (u_dev s) -> g_ubi s' = g_ubi s -> R r s') -> wp m s R.
Proof. intros Hm HR. destruct (Hm s). apply wp_intro. intros r s' E. rewrite E in *. by apply HR. Qed.

Lemma wp_maintain op k s (R : res unit -> be -> Prop) :
  (forall s', held (u_dev s') = held (u_dev s) -> g_ubi s' = g_ubi s -> R (Ok tt) s') -> wp (maintain op k) s R.
Proof.
  intros HR. destruct (calm_maintain op k s) as [H1 H2]. unfold wp, maintain in *. destruct (ubi_maint op k s) as [[? ?] s'].
  by apply HR.
Qed.

Lemma key_acquire_takes s : wp (key_acquire uo) s (fun r s' => g_ubi s' = g_ubi s /\
  gives (u_dev s) (u_dev s') 0 (if is_ok r then key_cost else 0)).
Proof.
  unfold key_acquire, key_cost. destruct (UBI_KEY_BUILTIN uo).
  - apply wp_bnd, wp_try. unfold wp, sys. pose proof (hd_import (u_dev s)) as Hi. destruct (psa_import_key (u_dev s)) as [[k|e] u']; done.
  - apply wp_calm; [auto with calm|]. intros r s' H1 H2. split; [done|]. unfold gives. rewrite H1. destruct r; cbn [is_ok]; rewrite !Z.add_0_r; by rewrite <- surjective_pairing.
Qed.

Lemma key_release_gives k s : wp (key_release uo k) s (fun r s' => r = Ok tt /\ g_ubi s' = g_ubi s /\ gives (u_dev s) (u_dev s') 0 (- key_cost)).
Proof.
  unfold key_release, key_cost. destruct (UBI_KEY_BUILTIN uo).
  - apply wp_mod. split_and!; [done..|]. apply hd_destroy.
  - apply wp_ret. split_and!; [done..|]. unfold gives. rewrite !Z.add_0_r. by rewrite <- surjective_pairing.
Qed.

Lemma gives_trans u u1 u2 a b c d : gives u u1 a b -> gives u1 u2 c d -> gives u u2 (a + c) (b + d).
Proof. unfold gives. intros -> ->. cbn [fst snd]. f_equal; lia. Qed.

Lemma gives_same u u1 u2 a b : gives u u1 a b -> held u2 = held u1 -> gives u u2 a b.
Proof. unfold gives. congruence. Qed.

Lemma err_key_gives {A} e s a k u0 :
  gives u0 (u_dev s) a k -> g_ubi s = false ->
  wp (err_key (A := A) uo e) s (fun r s' => r = Err e /\ g_ubi s' = false /\ gives u0 (u_dev s') a (k - key_cost)).
Proof.
  intros Hg Hf. unfold err_key. apply wp_bnd, wp_gets, wp_bnd. eapply wp_mono; [apply key_release_gives|]. cbv beta.
  intros r s' (-> & E & Hk). apply wp_fail. split; [done|]. split; [congruence|].
  replace a with (a + 0) by lia. replace (k - key_cost) with (k + - key_cost) by lia. by eapply gives_trans.
Qed.

Lemma err_free_gives {A} e s a k u0 :
  gives u0 (u_dev s) a k ->
  wp (err_free (A := A) uo e) s (fun r s' => r = Err e /\ g_ubi s' = false /\ gives u0 (u_dev s') (a - 1) (k - key_cost)).
Proof.
  intros Hg. unfold err_free. apply wp_bnd, wp_mod, wp_bnd, wp_mod, wp_bnd, wp_mod. apply err_key_gives; [|done].
  cbn. replace (a - 1) with (a + -1) by lia. replace k with (k + 0) by lia. eapply gives_trans; [done|apply hd_free].
Qed.

Lemma err_deinit_gives {A} e s a k u0 :
  gives u0 (u_dev s) a k ->
  wp (err_deinit (A := A) uo e) s (fun r s' => r = Err e /\ g_ubi s' = false /\ gives u0 (u_dev s') (a - 1) (k - key_cost)).
Proof.
  intros Hg. unfold err_deinit. apply wp_bnd, wp_try, wp_calm; [auto with calm|]. intros r s' H1 H2. apply err_free_gives. by eapply gives_same.
Qed.

Lemma open_attached_takes s :
  wp (open_attached uo) s (fun r s' => match r with
    | Ok _ => g_ubi s' = g_ubi s /\ held (u_dev s') = held (u_dev s)
    | Err _ => g_ubi s' = false /\ gives (u_dev s) (u_dev s') (-1) (- key_cost)
    end).
Proof.
  assert (forall e s1, held (u_dev s1) = held (u_dev s) -> wp (err_deinit uo e) s1 (fun (r : res blob_db_store_geom) s' => match r with
    | Ok _ => g_ubi s' = g_ubi s /\ held (u_dev s') = held (u_dev s)
    | Err _ => g_ubi s' = false /\ gives (u_dev s) (u_dev s') (-1) (- key_cost) end)) as Hx.
  { intros e s1 E. eapply wp_mono; [apply (err_deinit_gives _ _ 0 0 (u_dev s))|].
    - unfold gives. rewrite E, !Z.add_0_r. by rewrite <- surjective_pairing.
    - cbv beta. intros r s' (-> & H1 & H2). done. }
  unfold open_attached. apply wp_bnd, wp_try, wp_calm; [auto with calm|]. intros [info|e] s1 H1 G1; [|by apply Hx].
  apply wp_bnd, wp_mod, wp_bnd, wp_maintain. intros s2 H2 G2. cbn [set_leb_size u_dev g_ubi] in H2, G2.
  apply wp_bnd, wp_try, wp_calm; [apply calm_open_volume|].
  intros [k|e] s3 H3 G3; [apply wp_ret; split; congruence|apply Hx; congruence].
Qed.

(** An open that fails gives back what it took; one that succeeds holds the
    handle and, where it is compiled in, the key, until the close. *)
Lemma open_takes discard s :
  g_ubi s = false ->
  wp (blob_db_store_open uo discard) s (fun r s' => g_ubi s' = is_ok r /\
    gives (u_dev s) (u_dev s') (if is_ok r then 1 else 0) (if is_ok r then key_cost else 0)).
Proof.
  intros Hg. unfold blob_db_store_open. apply wp_bnd, wp_gets. rewrite Hg. cbv beta iota. apply wp_bnd, wp_try, wp_calm; [auto with calm|].
  intros r s1 H1 G1. rewrite Hg in G1. assert (gives (u_dev s) (u_dev s1) 0 0) as T1.
  { unfold gives. rewrite H1, !Z.add_0_r. by rewrite <- surjective_pairing. }
  destruct r as [[]|e]; [|by apply wp_fail]. apply wp_bnd. eapply wp_mono; [apply key_acquire_takes|]. cbv beta.
  intros r s2 [G2 T2]. pose proof (gives_trans _ _ _ _ _ _ _ T1 T2) as T12. rewrite !Z.add_0_l in T12. rewrite G1 in G2.
  destruct r as [key|e]; [|done]. cbn [is_ok] in *. apply wp_bnd, wp_mod, wp_bnd, wp_mod, wp_bnd.
  set (s3 := set_damage _ _ _). assert (g_ubi s3 = false) as G3 by done. assert (u_dev s3 = u_dev s2) as E3 by done. clearbody s3.
  unfold wp at 1, alloc_handle. pose proof (hd_calloc (u_dev s3)) as Hc. destruct (k_calloc (u_dev s3)) as [ok u']. cbv beta iota.
  rewrite <- E3 in T12. pose proof (gives_trans _ _ _ _ _ _ _ T12 Hc) as T. rewrite Z.add_0_l, Z.add_0_r in T.
  destruct ok; cbn [negb].
  - apply wp_bnd, wp_try, wp_calm; [apply calm_attach|]. intros r s4 H4 G4. cbn [set_handle set_dev u_dev g_ubi] in H4, G4.
    assert (gives (u_dev s) (u_dev s4) 1 key_cost) as T4 by (by eapply gives_same). destruct r as [[]|e].
    + eapply wp_mono; [apply open_attached_takes|]. cbv beta. intros [sg|e] s5; cbn [is_ok].
      * intros [G5 H5]. split; [congruence|]. by eapply gives_same.
      * intros [G5 T5]. split; [done|]. pose proof (gives_trans _ _ _ _ _ _ _ T4 T5) as T5'. replace (key_cost + - key_cost) with 0 in T5' by lia. exact T5'.
    + eapply wp_mono; [apply (err_free_gives _ _ 1 key_cost (u_dev s) T4)|]. cbv beta. intros r s5 (-> & G5 & T5). cbn [is_ok].
      split; [done|]. replace (key_cost - key_cost) with 0 in T5 by lia. exact T5.
  - eapply wp_mono; [apply (err_key_gives _ _ 0 key_cost (u_dev s)); done|]. cbv beta. intros r s5 (-> & G5 & T5). cbn [is_ok].
    split; [done|]. replace (key_cost - key_cost) with 0 in T5 by lia. exact T5.
Qed.

Lemma close_gives s :
  g_ubi s = true ->
  wp (blob_db_store_close uo) s (fun r s' => r = Ok tt /\ g_ubi s' = false /\ gives (u_dev s) (u_dev s') (-1) (- key_cost)).
Proof.
  intros Hg. unfold blob_db_store_close. apply wp_bnd, wp_gets. rewrite Hg. cbn [negb]. apply wp_bnd, wp_try, wp_calm; [auto with calm|].
  intros r s1 H1 _. apply wp_bnd, wp_mod, wp_bnd, wp_mod, wp_bnd, wp_mod, wp_bnd, wp_gets. eapply wp_mono; [apply key_release_gives|].
  cbv beta. intros r' s2 (-> & G2 & T2). cbn [set_vol set_handle set_dev u_dev g_ubi] in G2, T2. split; [done|]. split; [done|].
  pose proof (hd_free (u_dev s1)) as Hf. unfold gives in *. rewrite T2, Hf, H1. cbn [fst snd]. f_equal; lia.
Qed.
End resources.
