(* ===== verification/UbiSim.v ===== *)
(** A concrete UBI device: what its partition holds, and the heap blocks and
    keys taken. No call fails but for what it is asked. Every hypothesis on UBI
    holds of it. *)

From Stdlib Require Import String.
From S2P Require Import Prelude Store FlashStore Sim UbiStore UbiSpec.
Open Scope Z_scope.

(** Nothing, bytes of someone else, or a device, with the volume or without. *)
Inductive ubi_content :=
  | Blank
  | Foreign (b : bytes)
  | Device (vol : option (list bytes)).

Record usim := mk_usim {
  us_content : ubi_content;
  us_heap : Z;
  us_keys : Z;
}.

Section usim.
Context (P al n free : Z).

Definition us_vol : Z := 3.
Definition us_bytes : Z := (n + 8) * P.

Definition us_part (u : usim) : bytes :=
  match us_content u with
  | Blank => erased us_bytes
  | Foreign b => b
  | Device None => [1]
  | Device (Some lebs) => 1 :: List.concat lebs
  end.

Definition us_set (c : ubi_content) (u : usim) : usim := mk_usim c (us_heap u) (us_keys u).

Definition us_lebs (u : usim) : option (list bytes) :=
  match us_content u with Device (Some lebs) => Some lebs | _ => None end.

(** A call on LEB [p] of volume [v]. *)
Definition us_at {A} (v p : Z) (k : list bytes -> bytes -> res A * bytes) : EM usim A := fun u =>
  match us_lebs u with
  | Some lebs =>
      match (if (v =? us_vol) && (0 <=? p) then lebs !! Z.to_nat p else None) with
      | Some b => let (r, b') := k lebs b in (r, [], us_set (Device (Some (<[Z.to_nat p := b']> lebs))) u)
      | None => (Err EINVAL, [], u)
      end
  | None => (Err EINVAL, [], u)
  end.

(** Asked for what is not whole bytes of the LEB, a call refuses. *)
Definition fits_leb (w : Z) (b : bytes) : bool :=
  (0 <=? w) && (w + len b <=? P) && forallb (fun x => (0 <=? x) && (x <? 256)) b.

#[export] Instance usim_ubi : Ubi usim := {
  UBI_VOL_ID_INVALID := UINT32_MAX;
  psa_crypto_init u := (Ok tt, u);
  psa_import_key u := (Ok 7, mk_usim (us_content u) (us_heap u) (us_keys u + 1));
  psa_destroy_key _ u := mk_usim (us_content u) (us_heap u) (us_keys u - 1);
  blob_db_ubi_ikm_key u := (Ok 9, u);
  k_calloc u := (true, mk_usim (us_content u) (us_heap u + 1) (us_keys u));
  k_free u := mk_usim (us_content u) (us_heap u - 1) (us_keys u);
  flash_area_open_id _ u := (Ok (len (us_part u)), u);
  flash_area_erased_val _ := 255;
  flash_area_read_at off k u := (Ok (slice off k (us_part u)), u);
  flash_area_close_id u := u;
  ubi_device_init _ u := (match us_content u with Device _ => Ok tt | _ => Err ENODEV end, [], u);
  ubi_device_format _ u := (Ok tt, [], us_set (Device None) u);
  ubi_device_deinit u := (Ok tt, [], u);
  ubi_device_get_info u := (Ok (mk_ubi_info P al (n + 8) (match us_lebs u with Some _ => 4 | None => free end) 0), [], u);
  ubi_volume_find _ u := (match us_lebs u with Some _ => Ok us_vol | None => Err ENOENT end, [], u);
  ubi_volume_create _ k u := (Ok us_vol, [], us_set (Device (Some (replicate (Z.to_nat k) (erased P)))) u);
  ubi_volume_get_info v u := (match us_lebs u with Some lebs => Ok (len lebs) | None => Err ENOENT end, [], u);
  ubi_maintenance _ _ u := (Ok tt, mk_maint_result 0 0, [], u);
  ubi_leb_read v p w k := us_at v p (fun _ b => (Ok (slice w k b), b));
  ubi_leb_write_at v p w b := us_at v p (fun _ old =>
    if fits_leb w b then (Ok tt, splice w (program (slice w (len b) old) b) old) else (Err EINVAL, old));
  ubi_leb_erase v p := us_at v p (fun _ _ => (Ok tt, erased P));
  ubi_leb_change v p b := us_at v p (fun _ old =>
    if fits_leb 0 b then (Ok tt, b ++ erased (P - len b)) else (Err EINVAL, old));
}.

Definition leb_ok (b : bytes) : Prop := len b = P /\ bytes_ok b.

#[export] Instance leb_ok_dec b : Decision (leb_ok b).
Proof. unfold leb_ok, bytes_ok, byte_ok. apply _. Defined.

Definition us_leb (u : usim) (p : Z) : bytes :=
  match us_lebs u with
  | Some lebs =>
      match (if 0 <=? p then lebs !! Z.to_nat p else None) with
      | Some b => if decide (leb_ok b) then b else erased P
      | None => erased P
      end
  | None => erased P
  end.

#[export] Instance usim_view : UbiView usim := {
  leb := us_leb;
  carries u := exists lebs, us_lebs u = Some lebs /\ len lebs = n /\ Forall leb_ok lebs;
  ubi_up _ := True;
}.

#[export] Instance usim_part : PartView usim := {
  part := us_part;
  recognises b := match b with 1 :: _ => true | _ => false end;
}.

#[export] Instance usim_held : HeldView usim := { held u := (us_heap u, us_keys u) }.

#[export] Instance usim_held_laws : HeldLaws (U := usim).
Proof.
  assert (forall {A} v p (k : list bytes -> bytes -> res A * bytes) u, held (us_at v p k u).2 = held u) as Hat.
  { intros A v p k u. unfold us_at. by repeat case_match. }
  split; unfold gives, frugal, frugal_sys; cbn; intros; try done; f_equal; lia.
Qed.

Context (HP : 0 < P < 2 ^ 32) (Hal : 0 < al) (Hn : 1 <= n <= 65535).

Lemma leb_ok_erased : leb_ok (erased P).
Proof. split; [by apply len_erased; lia|apply bytes_ok_erased]. Qed.

Lemma us_leb_ok u p : leb_ok (us_leb u p).
Proof.
  unfold us_leb. repeat case_match; first [apply leb_ok_erased|done].
Qed.

Lemma us_leb_at u lebs p b : us_lebs u = Some lebs -> Forall leb_ok lebs -> 0 <= p -> lebs !! Z.to_nat p = Some b -> us_leb u p = b.
Proof.
  intros E Hf Hp Hb. unfold us_leb. rewrite E. destruct (Z.leb_spec 0 p); [|lia]. rewrite Hb. rewrite decide_True; [done|].
  exact (Forall_lookup_1 _ _ _ _ Hf Hb).
Qed.

(** What [us_at] does to an intact device. *)
Lemma us_at_spec {A} u p (k : list bytes -> bytes -> res A * bytes) :
  carries u -> 0 <= p < n -> (forall lebs b, leb_ok b -> leb_ok (k lebs b).2) ->
  exists lebs, let (r, b') := k lebs (us_leb u p) in exists u',
    us_at us_vol p k u = (r, [], u') /\ carries u' /\ us_leb u' p = b' /\ forall q, q <> p -> us_leb u' q = us_leb u q.
Proof.
  intros (lebs & E & Hl & Hf) Hp Hk. exists lebs. unfold us_at. rewrite E, Z.eqb_refl. destruct (Z.leb_spec 0 p); [|lia]. cbn [andb].
  destruct (lookup_lt_is_Some_2 lebs (Z.to_nat p)) as [b Hb]; [unfold len in Hl; lia|]. rewrite Hb.
  rewrite (us_leb_at u lebs p b E Hf) by (done || lia). pose proof (Forall_lookup_1 _ _ _ _ Hf Hb) as Hbo. specialize (Hk lebs b Hbo).
  destruct (k lebs b) as [r b']. cbn [snd] in Hk. eexists. split; [done|].
  assert (Forall leb_ok (<[Z.to_nat p := b']> lebs)) as Hf' by (by apply Forall_insert).
  split; [eexists; split; [done|split; [|done]]; unfold len in *; by rewrite length_insert|]. split.
  - eapply us_leb_at; [done|done|lia|]. apply list_lookup_insert_eq. unfold len in Hl. lia.
  - intros q Hq. unfold us_leb. rewrite E. cbn [us_set us_lebs us_content]. destruct (Z.leb_spec 0 q); [|done].
    by rewrite list_lookup_insert_ne by lia.
Qed.

Lemma us_at_intact {A} v p (k : list bytes -> bytes -> res A * bytes) :
  (forall lebs b, leb_ok b -> leb_ok (k lebs b).2) -> intact (us_at v p k).
Proof.
  intros Hk u (lebs & E & Hl & Hf). unfold us_at. rewrite E. destruct (if (v =? us_vol) && (0 <=? p) then lebs !! Z.to_nat p else None) as [b|] eqn:Eb.
  2: { split; [by exists lebs|constructor]. }
  assert (lebs !! Z.to_nat p = Some b) as Hb by (by destruct (_ && _)). specialize (Hk lebs b (Forall_lookup_1 _ _ _ _ Hf Hb)).
  destruct (k lebs b) as [r b']. split; [|constructor]. eexists. split; [done|].
  split; [unfold len in *; by rewrite length_insert|by apply Forall_insert].
Qed.

Lemma fits_leb_spec w b : fits_leb w b = true <-> 0 <= w /\ w + len b <= P /\ bytes_ok b.
Proof.
  unfold fits_leb. rewrite !andb_true_iff, Z.leb_le, Z.leb_le, forallb_forall. unfold bytes_ok, byte_ok. rewrite List.Forall_forall.
  split; [intros [[? ?] Hb]|intros (? & ? & Hb)]; split_and!; try done; intros x Hx; specialize (Hb x Hx); lia.
Qed.

Lemma write_leb_ok w b old : leb_ok old -> leb_ok (if fits_leb w b then (Ok tt : res unit, splice w (program (slice w (len b) old) b) old) else (Err EINVAL, old)).2.
Proof.
  intros [Hl Ho]. destruct (fits_leb w b) eqn:Ef; [|done]. apply fits_leb_spec in Ef as (H1 & H2 & H3). pose proof (len_nonneg b).
  assert (len (slice w (len b) old) = len b) as Hs by (apply len_slice; lia).
  split; cbn [snd]; [rewrite len_splice; [done|lia|rewrite len_program by done; lia]|].
  apply bytes_ok_splice; [done|]. apply bytes_ok_program; [by apply bytes_ok_slice|done].
Qed.

Lemma change_leb_ok b old : leb_ok old -> leb_ok (if fits_leb 0 b then (Ok tt : res unit, b ++ erased (P - len b)) else (Err EINVAL, old)).2.
Proof.
  intros Ho. destruct (fits_leb 0 b) eqn:Ef; [|done]. apply fits_leb_spec in Ef as (_ & H2 & H3). split; cbn [snd].
  - rewrite len_app, len_erased by lia. lia.
  - apply bytes_ok_app. split; [done|apply bytes_ok_erased].
Qed.

#[export] Instance usim_laws : UbiLaws P al n us_vol.
Proof.
  assert (forall (u : usim), same_lebs u u) as Hsame by done.
  split; try done.
  - intros u p _. apply us_leb_ok.
  - intros u p. apply us_leb_ok.
  - intros c u Hc. pose proof Hc as (lebs & E & Hl & Hf). cbn. unfold us_lebs in E. destruct (us_content u) as [| |[?|]] eqn:Ec; try done.
  - intros u Hc. cbn. split; [done|]. split; [done|]. split; [constructor|]. split; [done|]. destruct (Z.eqb_spec al 0); [lia|done].
  - intros u Hc. pose proof Hc as (lebs & E & Hl & Hf). cbn. rewrite E. done.
  - intros u Hc. pose proof Hc as (lebs & E & Hl & Hf). cbn. rewrite E. done.
  - intros v p w k. by apply us_at_intact.
  - intros v p w b. apply us_at_intact. intros _ old. apply write_leb_ok.
  - intros v p. apply us_at_intact. intros. apply leb_ok_erased.
  - intros v p b. apply us_at_intact. intros _ old. apply change_leb_ok.
  - intros u p w k Hc Hp Hw Hk Hf. cbn [ubi_leb_read usim_ubi].
    destruct (us_at_spec u p (fun _ b => (Ok (slice w k b), b)) Hc Hp) as (_ & u' & -> & Hc' & E & Ho); [done|].
    split; [done|]. split; [|split; [constructor|done]]. intros q. destruct (decide (q = p)) as [->|]; [done|by apply Ho].
  - intros u p w b Hc Hp Hw Hf Hm1 Hm2 Hb. cbn [ubi_leb_write_at usim_ubi].
    destruct (us_at_spec u p _ Hc Hp (fun _ => write_leb_ok w b)) as (_ & Hx). pose proof (us_leb_ok u p) as [Hl Ho]. pose proof (len_nonneg b).
    assert (fits_leb w b = true) as Ef by by apply fits_leb_spec. rewrite Ef in Hx |- *. destruct Hx as (u' & -> & Hc' & E & Hq).
    split; [done|]. split; [exact Hq|]. split; [constructor|]. exists (program (slice w (len b) (us_leb u p)) b). split; [exact E|].
    apply program_done; [apply len_slice; cbn; lia|by apply bytes_ok_slice|done].
  - intros u p Hc Hp. cbn [ubi_leb_erase usim_ubi].
    destruct (us_at_spec u p (fun _ _ => (Ok tt, erased P)) Hc Hp) as (_ & u' & -> & Hc' & E & Ho); [intros; apply leb_ok_erased|]. done.
  - intros u p b Hc Hp Hl Hm Hb. cbn [ubi_leb_change usim_ubi].
    destruct (us_at_spec u p _ Hc Hp (fun _ => change_leb_ok b)) as (_ & Hx).
    assert (fits_leb 0 b = true) as Ef by (apply fits_leb_spec; split_and!; [lia|lia|done]). rewrite Ef in Hx |- *.
    destruct Hx as (u' & -> & Hc' & E & Hq). done.
Qed.
End usim.

#[export] Instance usim_part_laws P al n free : 0 <= (n + 8) * P -> @PartLaws usim (usim_ubi P al n free) (usim_part P n).
Proof.
  intros Hb. split; try done.
  intros c u. cbn. unfold us_part. destruct (us_content u) as [|b|[l|]]; try done.
Qed.
