(* ===== verification/BlobIface.v ===== *)
(** blob_db as its clients see it: the calls the layers above make, what they may
    rely on, and a wrapper that lets any call fail or the power go. *)

From stdpp Require Export gmap.
From S2P Require Import Prelude.

#[global] Open Scope Z_scope.

(** ** The calls

    The entry points of include/app/lib/blob_db.h that rootreg, kvdb, the
    containers and blobfs use. [blob_alloc_id] reports a failure as id 0, the
    others as an error. [blob_max] is CONFIG_BLOB_DB_MAX_PAYLOAD_LEN. *)
Class Blobs (D : Type) := {
  blob_max : Z;
  blob_alloc_id : M D Z;
  blob_get : Z -> Z -> M D bytes;
  blob_size : Z -> M D Z;
  blob_read : Z -> Z -> Z -> M D bytes;
  blob_update : Z -> bytes -> M D unit;
  blob_write : Z -> Z -> bytes -> M D unit;
  blob_delete : Z -> M D unit;
}.

Definition BLOB_ROOT : Z := 1.

(** ** What they do

    The objects of a store are a finite map; what each call answers is a function
    of it. *)
Notation objs := (gmap Z bytes).

Definition get_reply (o : objs) (id sz : Z) : res bytes :=
  match o !! id with
  | Some p => if sz <? len p then Err ENOMEM else Ok p
  | None => Err ENOENT
  end.

Definition size_reply (o : objs) (id : Z) : res Z :=
  match o !! id with Some p => Ok (len p) | None => Err ENOENT end.

Definition read_reply (o : objs) (id off n : Z) : res bytes :=
  match o !! id with Some p => Ok (slice off n p) | None => Err ENOENT end.

(** [p] overwritten by [b] from [off] on, zero-filled up to there. *)
Definition overwrite (off : Z) (b p : bytes) : bytes :=
  splice off b (p ++ replicate (Z.to_nat (off + len b - len p)) 0).

(** Every object was handed out by the allocator, is made of bytes and fits. *)
Definition obs_wf (cap nx : Z) (o : objs) : Prop :=
  2 <= nx < 2 ^ 64 /\ map_Forall (fun id p => 0 < id < nx /\ bytes_ok p /\ len p <= cap) o.

(** Codes the clients give a meaning to; a device reports others. *)
Definition plain_code (e : errno) : Prop :=
  e <> EPERM /\ e <> ENOENT /\ e <> ENOMEM /\ e <> EINVAL /\ e <> ENOTSUP /\ e <> ENOSPC /\ e <> ENODATA /\ e <> EEXIST /\ e <> EISDIR.

(** How a call may end. An [answer] leaves what [H] describes and is the one
    wanted, or a fault. An [effect] leads to what [H'] describes, or leaves what
    [H] does and reports a fault or, where it may fill up, the want of space; where mutations tear, it
    may have happened although a fault is reported. *)
Definition answer {D A} (fault : errno -> Prop) (H : D -> Prop) (want r : res A) (d : D) : Prop :=
  H d /\ (r = want \/ exists e, fault e /\ r = Err e).

Definition effect {D} (fault : errno -> Prop) (fills tears : Prop) (H H' : D -> Prop) (r : res unit) (d : D) : Prop :=
  (r = Ok tt /\ H' d) \/
  (exists e, ((e = ENOSPC /\ fills) \/ fault e) /\ r = Err e /\ H d) \/
  (exists e, tears /\ fault e /\ r = Err e /\ H' d).

(** [holds n d nx o]: the store [d] holds the objects [o], the next id is [nx],
    and there is room for [n] more allocations. *)
Class BlobLaws (D : Type) `{!Blobs D} := {
  holds : nat -> Z -> objs -> D -> Prop;
  fault : errno -> Prop;
  fills : Prop;
  tears : Prop;
  fault_plain e : fault e -> plain_code e;
  holds_wf n d nx o : holds n nx o d -> obs_wf blob_max nx o;
  holds_le n n' d nx o : (n' <= n)%nat -> holds n nx o d -> holds n' nx o d;
  alloc_law n d nx o : holds (S n) nx o d ->
    wp blob_alloc_id d (fun r d' =>
      (r = Ok nx /\ holds n (nx + 1) o d') \/
      (r = Ok 0 /\ (exists e, fault e) /\ exists nx', nx <= nx' /\ holds n nx' o d'));
  get_law n d nx o id sz : holds n nx o d -> 0 <= id < 2 ^ 64 ->
    wp (blob_get id sz) d (answer fault (holds n nx o) (get_reply o id sz));
  size_law n d nx o id : holds n nx o d -> 0 <= id < 2 ^ 64 ->
    wp (blob_size id) d (answer fault (holds n nx o) (size_reply o id));
  read_law n d nx o id off k : holds n nx o d -> 0 <= id < 2 ^ 64 -> 0 <= off -> 0 <= k ->
    wp (blob_read id off k) d (answer fault (holds n nx o) (read_reply o id off k));
  update_law n d nx o id p : holds n nx o d -> 0 <= id < 2 ^ 64 -> bytes_ok p ->
    wp (blob_update id p) d
      (if (id =? 0) || (id >=? nx) || (len p >? blob_max) then answer fault (holds n nx o) (Err EINVAL)
       else effect fault fills tears (holds n nx o) (holds n nx (<[id := p]> o)));
  write_law n d nx o id off b p : holds n nx o d -> 0 < id < 2 ^ 64 -> 0 <= off -> off + len b < 2 ^ 32 -> bytes_ok b -> o !! id = Some p ->
    wp (blob_write id off b) d
      (if len b =? 0 then effect fault fills tears (holds n nx o) (holds n nx o)
       else if off + len b >? blob_max then answer fault (holds n nx o) (Err EFBIG)
       else effect fault fills tears (holds n nx o) (holds n nx (<[id := overwrite off b p]> o)));
  write_gone_law n d nx o id off b : holds n nx o d -> 0 < id < 2 ^ 64 -> 0 <= off -> off + len b < 2 ^ 32 -> bytes_ok b -> o !! id = None ->
    wp (blob_write id off b) d (answer fault (holds n nx o) (Err ENOENT));
  delete_law n d nx o id : holds n nx o d -> 0 <= id < 2 ^ 64 -> id <> BLOB_ROOT ->
    wp (blob_delete id) d
      (match o !! id with
       | None => answer fault (holds n nx o) (Err ENOENT)
       | Some _ => effect fault fills tears (holds n nx o) (holds n nx (delete id o))
       end);
}.

(** The codes a client may fail with because the store under it did; one that
    gets no id reports -EIO. *)
Definition refused {D} `{!Blobs D} {L : BlobLaws D} (e : errno) : Prop := (e = ENOSPC /\ fills) \/ fault e \/ (e = EIO /\ exists e', fault e').

Create HintDb blobs discriminated.
#[export] Hint Resolve holds_wf : blobs.

(** ** Keeping a store well formed *)

Lemma obs_wf_put cap nx o id p : obs_wf cap nx o -> 0 < id < nx -> bytes_ok p -> len p <= cap -> obs_wf cap nx (<[id := p]> o).
Proof. intros [Hn Ho] Hid Hp Hl. split; [done|]. by apply map_Forall_insert_2. Qed.

Lemma obs_wf_del cap nx o id : obs_wf cap nx o -> obs_wf cap nx (delete id o).
Proof. intros [Hn Ho]. split; [done|]. by apply map_Forall_delete. Qed.

Lemma obs_wf_next cap nx nx' o : obs_wf cap nx o -> nx <= nx' < 2 ^ 64 -> obs_wf cap nx' o.
Proof. intros [Hn Ho] Hx. split; [lia|]. eapply map_Forall_impl; [exact Ho|]. cbn. intros id p (? & ? & ?). split_and!; [lia..|done|done]. Qed.

Lemma obs_wf_lookup cap nx o id p : obs_wf cap nx o -> o !! id = Some p -> 0 < id < nx /\ bytes_ok p /\ len p <= cap.
Proof. intros [_ Ho] E. exact (Ho id p E). Qed.

Lemma obs_wf_fresh cap nx o id : obs_wf cap nx o -> nx <= id -> o !! id = None.
Proof. intros Hw Hid. destruct (o !! id) eqn:E; [|done]. apply (obs_wf_lookup cap nx) in E; [lia|done]. Qed.

Lemma overwrite_len off b p : 0 <= off -> len (overwrite off b p) = Z.max (off + len b) (len p).
Proof.
  intros Ho. pose proof (len_nonneg b). pose proof (len_nonneg p). unfold overwrite.
  assert (len (p ++ replicate (Z.to_nat (off + len b - len p)) 0) = Z.max (off + len b) (len p)) as Hl.
  { rewrite len_app. unfold len at 2. rewrite length_replicate. lia. }
  rewrite len_splice by lia. done.
Qed.

Lemma overwrite_ok off b p : 0 <= off -> bytes_ok b -> bytes_ok p -> bytes_ok (overwrite off b p).
Proof.
  intros Ho Hb Hp. unfold overwrite. apply bytes_ok_splice; [|done]. apply bytes_ok_app.
  split; [done|]. apply Forall_replicate. unfold byte_ok. lia.
Qed.

(** ** A store in RAM

    The simplest implementation of the contract, to run clients on. *)
Record ram := mk_ram { ram_objs : objs; ram_next : Z }.

Definition ram_upd (f : objs -> objs) (d : ram) : ram := mk_ram (f (ram_objs d)) (ram_next d).

Section ram.
Context (cap : Z).

#[export] Instance ram_blobs : Blobs ram := {
  blob_max := cap;
  blob_alloc_id := fun d => (Ok (ram_next d), mk_ram (ram_objs d) (ram_next d + 1));
  blob_get id sz := fun d => (get_reply (ram_objs d) id sz, d);
  blob_size id := fun d => (size_reply (ram_objs d) id, d);
  blob_read id off k := fun d => (read_reply (ram_objs d) id off k, d);
  blob_update id p := fun d =>
    if (id =? 0) || (id >=? ram_next d) || (len p >? cap) then (Err EINVAL, d)
    else (Ok tt, ram_upd (insert id p) d);
  blob_write id off b := fun d =>
    match ram_objs d !! id with
    | None => (Err ENOENT, d)
    | Some p =>
        if len b =? 0 then (Ok tt, d)
        else if off + len b >? cap then (Err EFBIG, d)
        else (Ok tt, ram_upd (insert id (overwrite off b p)) d)
    end;
  blob_delete id := fun d =>
    match ram_objs d !! id with
    | None => (Err ENOENT, d)
    | Some _ => (Ok tt, ram_upd (delete id) d)
    end;
}.

Definition ram_holds (n : nat) (nx : Z) (o : objs) (d : ram) : Prop :=
  ram_next d = nx /\ ram_objs d = o /\ obs_wf cap nx o /\ nx + Z.of_nat n < 2 ^ 64.

#[export] Instance ram_laws : BlobLaws ram.
Proof.
  refine {| holds := ram_holds; fault _ := False; fills := False; tears := False |}.
  - done.
  - intros n d nx o (_ & _ & ? & _). done.
  - intros n n' d nx o Hn (? & ? & ? & ?). split_and!; try done. lia.
  - intros n d nx o (<- & <- & Hw & Hr). left. split; [done|]. split_and!; try done; cbn; [|lia].
    pose proof (proj1 Hw). apply (obs_wf_next cap (ram_next d)); [done|lia].
  - intros n d nx o id sz (<- & <- & ?) _. split; [done|by left].
  - intros n d nx o id (<- & <- & ?) _. split; [done|by left].
  - intros n d nx o id off k (<- & <- & ?) _ _ _. split; [done|by left].
  - intros n d nx o id p (<- & <- & Hw & Hr) Hid Hp. unfold wp; cbn.
    destruct (_ || _) eqn:E; [by split; [|left]|]. left. split; [done|]. split_and!; try done. cbn.
    apply obs_wf_put; try done; lia.
  - intros n d nx o id off b p (<- & <- & Hw & Hr) Hid Ho Hs Hb E. unfold wp; cbn. rewrite E.
    destruct (obs_wf_lookup _ _ _ _ _ Hw E) as (H1 & H2 & H3).
    destruct (len b =? 0); [by left|]. destruct (off + len b >? cap) eqn:E2; [by split; [|left]|].
    left. split; [done|]. split_and!; try done. cbn in *. apply obs_wf_put; [done..|by apply overwrite_ok|]. rewrite overwrite_len by done. lia.
  - intros n d nx o id off b (<- & <- & Hw & Hr) _ _ _ _ E. unfold wp; cbn. rewrite E. by split; [|left].
  - intros n d nx o id (<- & <- & Hw & Hr) Hid Hne. unfold wp; cbn.
    destruct (ram_objs d !! id); [|by split; [|left]]. left. split; [done|]. split_and!; try done. by apply obs_wf_del.
Defined.
End ram.

(** ** A store whose calls may fail

    A schedule decides the fate of each call: it runs, it fails without effect
    (a mutation for want of space, or any call on the device), it is performed
    and fails all the same, or the power is off from here on. *)
Inductive fate := Fine | Fails | Full | Lands | Off.

Record flaky (D : Type) := mk_flaky { fl_in : D; fl_fates : list fate }.
Arguments mk_flaky {D} _ _.
Arguments fl_in {D} _.
Arguments fl_fates {D} _.

Section flaky.
Context {D : Type} `{!Blobs D}.

Definition next_fate (fs : list fate) : fate * list fate :=
  match fs with
  | [] => (Fine, [])
  | Off :: _ => (Off, fs)
  | f :: fs => (f, fs)
  end.

Definition inside {A} (m : M D A) (fs : list fate) (d : D) : res A * flaky D :=
  let (r, d') := m d in (r, mk_flaky d' fs).

Definition flaky_read {A} (m : M D A) : M (flaky D) A := fun d =>
  let (f, fs) := next_fate (fl_fates d) in
  match f with
  | Fine => inside m fs (fl_in d)
  | _ => (Err EIO, mk_flaky (fl_in d) fs)
  end.

Definition flaky_mut (m : M D unit) : M (flaky D) unit := fun d =>
  let (f, fs) := next_fate (fl_fates d) in
  match f with
  | Fine => inside m fs (fl_in d)
  | Full =>
      match m (fl_in d) with
      | (Ok _, _) => (Err ENOSPC, mk_flaky (fl_in d) fs)
      | (Err e, d') => (Err e, mk_flaky d' fs)
      end
  | Lands =>
      match m (fl_in d) with
      | (Ok _, d') => (Err EIO, mk_flaky d' fs)
      | (Err e, d') => (Err e, mk_flaky d' fs)
      end
  | _ => (Err EIO, mk_flaky (fl_in d) fs)
  end.

Definition flaky_alloc (m : M D Z) : M (flaky D) Z := fun d =>
  let (f, fs) := next_fate (fl_fates d) in
  match f with
  | Fine => inside m fs (fl_in d)
  | Lands => let (_, d') := m (fl_in d) in (Ok 0, mk_flaky d' fs)
  | _ => (Ok 0, mk_flaky (fl_in d) fs)
  end.
End flaky.

#[export] Instance flaky_blobs {D} `{!Blobs D} : Blobs (flaky D) := {
  blob_max := blob_max (D := D);
  blob_alloc_id := flaky_alloc blob_alloc_id;
  blob_get id sz := flaky_read (blob_get id sz);
  blob_size id := flaky_read (blob_size id);
  blob_read id off k := flaky_read (blob_read id off k);
  blob_update id p := flaky_mut (blob_update id p);
  blob_write id off b := flaky_mut (blob_write id off b);
  blob_delete id := flaky_mut (blob_delete id);
}.

Section flaky_laws.
Context {D : Type} `{!Blobs D} (fault : errno -> Prop) (torn : bool).
Implicit Types P Q : D -> Prop.
Notation fault' := (fun e => fault e \/ e = EIO).

(** Unless calls may be [torn], none is performed and reported failed. *)
Definition calm (fs : list fate) : Prop := torn = false -> Lands ∉ fs.
Notation under P := (fun d => P (fl_in d) /\ calm (fl_fates d)).

Lemma calm_next fs : calm fs -> calm (next_fate fs).2 /\ (torn = false -> (next_fate fs).1 <> Lands).
Proof.
  intros Hc. destruct fs as [|f fs]; [done|]. split.
  - intros Ht. specialize (Hc Ht). rewrite not_elem_of_cons in Hc. destruct f; cbn; try tauto. rewrite not_elem_of_cons. tauto.
  - intros Ht E. apply (Hc Ht). destruct f; try done. left.
Qed.

Lemma flaky_read_law {A} (m : M D A) d P want :
  under P d -> wp m (fl_in d) (answer fault P want) -> wp (flaky_read m) d (answer fault' (under P) want).
Proof.
  intros [Hp Hc]. destruct (calm_next _ Hc) as [Hc' _]. unfold wp, flaky_read, inside.
  destruct (next_fate _) as [f fs], (m (fl_in d)) as [r d']. intros [Hd Hr].
  destruct f; cbn; try by (split; [|right; eauto]). split; [done|]. destruct Hr as [?|(e & ? & ?)]; eauto.
Qed.

Lemma flaky_mut_same (m : M D unit) d P e :
  under P d -> wp m (fl_in d) (answer fault P (Err e)) -> wp (flaky_mut m) d (answer fault' (under P) (Err e)).
Proof.
  intros [Hp Hc]. destruct (calm_next _ Hc) as [Hc' _]. unfold wp, flaky_mut, inside.
  destruct (next_fate _) as [f fs], (m (fl_in d)) as [r d']. intros [Hd Hr].
  assert (exists e', r = Err e' /\ (e' = e \/ fault e')) as (e' & -> & He) by (destruct Hr as [?|(? & ? & ?)]; eauto).
  destruct f; cbn; (split; [done|]); first [by (right; eauto)|destruct He as [-> |]; eauto 6].
Qed.

Lemma flaky_mut_law (m : M D unit) d P Q fills tears : under P d -> wp m (fl_in d) (effect fault fills tears P Q) ->
  wp (flaky_mut m) d (effect fault' True (torn = true \/ tears) (under P) (under Q)).
Proof.
  intros [Hp Hc]. destruct (calm_next _ Hc) as [Hc' Hl]. unfold wp, flaky_mut, inside, effect.
  destruct (next_fate _) as [f fs], (m (fl_in d)) as [r d']. cbn in Hc', Hl.
  assert (f = Lands -> torn = true) as Ht by (intros ->; destruct torn; [done|by destruct Hl]).
  assert (forall e d'', ((e = ENOSPC /\ True) \/ fault' e) -> P d'' -> effect fault' True (torn = true \/ tears) (under P) (under Q) (Err e) (mk_flaky d'' fs)) as Hno.
  { intros e d'' He Hd''. right. left. exists e. by split_and!. }
  intros [[-> Hd]|[(e & He & -> & Hd)|(e & Htr & He & -> & Hd)]].
  - destruct f; cbn; try (apply Hno; by auto); [left; by split_and!|]. right. right. exists EIO. split_and!; auto.
  - destruct f; cbn; apply Hno; tauto.
  - destruct f; cbn; try (apply Hno; by auto); right; right; exists e; split_and!; auto.
Qed.
End flaky_laws.

(** A store that keeps the contract keeps it under any schedule, except that a
    mutation that reports a fault may have been performed when the schedule says
    so. *)
Definition flaky_laws_of {D} `{!Blobs D} {L : BlobLaws D} (torn : bool) : BlobLaws (flaky D).
Proof.
  refine {| holds n nx o d := holds n nx o (fl_in d) /\ calm torn (fl_fates d); fault e := fault e \/ e = EIO; fills := True; tears := torn = true \/ tears |}.
  - intros e [He| ->]; [by apply fault_plain|done].
  - intros n d nx o [Hh _]. by apply (holds_wf (D := D)) in Hh.
  - intros n n' d nx o Hn [Hh ?]. split; [|done]. by eapply holds_le.
  - intros n d nx o [Hh Hc]. pose proof (alloc_law n _ _ _ Hh) as Hl. pose proof (holds_le (S n) n _ _ _ (Nat.le_succ_diag_r n) Hh) as Hh'.
    destruct (calm_next torn _ Hc) as [Hc' _].
    unfold wp in *. cbn. unfold flaky_alloc, inside. destruct (next_fate (fl_fates d)) as [f fs], (blob_alloc_id (fl_in d)) as [r d'].
    destruct f; cbn; try by (right; split; [done|]; split; [eauto|]; exists nx; split; [lia|]).
    + destruct Hl as [[-> Hl]|(-> & [e He] & nx' & ? & Hl)]; [by left|right; eauto 8].
    + right. split; [done|]. split; [eauto|]. destruct Hl as [[-> Hl]|(-> & _ & nx' & ? & Hl)]; [exists (nx + 1); split; [lia|done]|eauto].
  - intros n d nx o id sz Hh Hid. apply (flaky_read_law fault torn _ _ (holds n nx o)); [done|by apply get_law, Hid; apply Hh].
  - intros n d nx o id Hh Hid. apply (flaky_read_law fault torn _ _ (holds n nx o)); [done|by apply size_law, Hid; apply Hh].
  - intros n d nx o id off k Hh Hid Ho Hk. apply (flaky_read_law fault torn _ _ (holds n nx o)); [done|by apply read_law; [apply Hh|..]].
  - intros n d nx o id p Hh Hid Hp. pose proof (update_law n _ _ _ id p (proj1 Hh) Hid Hp) as Hl. cbn in *. destruct (_ || _ || _).
    + by apply (flaky_mut_same fault torn _ _ (holds n nx o)).
    + by apply (flaky_mut_law fault torn _ _ (holds n nx o) (holds n nx (<[id:=p]> o)) fills tears).
  - intros n d nx o id off b p Hh Hid Ho Hs Hb E. pose proof (write_law n _ _ _ id off b p (proj1 Hh) Hid Ho Hs Hb E) as Hl. cbn in *.
    destruct (len b =? 0); [|destruct (off + len b >? _)].
    + by apply (flaky_mut_law fault torn _ _ (holds n nx o) (holds n nx o) fills tears).
    + by apply (flaky_mut_same fault torn _ _ (holds n nx o)).
    + by apply (flaky_mut_law fault torn _ _ (holds n nx o) (holds n nx (<[id:=overwrite off b p]> o)) fills tears).
  - intros n d nx o id off b Hh Hid Ho Hs Hb E. apply (flaky_mut_same fault torn _ _ (holds n nx o)); [done|]. by apply write_gone_law; [apply Hh|..].
  - intros n d nx o id Hh Hid Hne. pose proof (delete_law n _ _ _ id (proj1 Hh) Hid Hne) as Hl. cbn in *. destruct (o !! id).
    + by apply (flaky_mut_law fault torn _ _ (holds n nx o) (holds n nx (delete id o)) fills tears).
    + by apply (flaky_mut_same fault torn _ _ (holds n nx o)).
Defined.

#[export] Instance flaky_laws {D} `{!Blobs D} {L : BlobLaws D} : BlobLaws (flaky D) | 10 := flaky_laws_of true.
