(* ===== verification/BlobDb.v ===== *)
(** blob_db keeps the contract of BlobIface: a mounted store on a device that
    works is a store of objects for the layers above. *)

From S2P Require Import Prelude Layout Store SlotIndexIface Image Core CoreRead Lookup Append Bucket Compact.
From S2P Require Import CompactImage Recovery CompactSpec Ops OpsRead OpsWrite Master Mount MasterSpec MasterInv.
From S2P Require Import MountSpec Session BlobIface.

Section blob_db.
Context (cfg : config) (g : geom) `{Crc}.
Context {S I : Type} `{!Store S} `{!StoreView S} `{!SlotIndex I}.
Context (Hg : geom_ok cfg g) (Ha : geom_aligned g) {SL : StoreLaws S (store_geom_of g)} {CL : CrcLaws _}.
Context (sidx_wf : Z -> I -> Prop) {IL : SlotIndexLaws I sidx_wf}.
Context (Hlp : LARGE_PAYLOADS cfg = false).
Notation db := (db S I).
Notation session := (session cfg g sidx_wf).
Implicit Types d : db.

Definition db_blobs : Blobs db := {|
  blob_max := MAX_PAYLOAD_LEN cfg;
  blob_alloc_id := blob_db_alloc_id cfg;
  blob_get id sz := blob_db_get cfg id false sz;
  blob_size id := blob_db_size cfg id false;
  blob_read id off k := blob_db_read cfg id off false k;
  blob_update id p := blob_db_update cfg id (Some p);
  blob_write id off b := blob_db_write cfg id off (Some b);
  blob_delete id := blob_db_delete cfg id;
|}.
#[local] Existing Instance db_blobs.

(** The objects a session stands for, with room for [n] allocations. *)
Definition db_holds (n : nat) (nx : Z) (o : objs) d : Prop :=
  session d /\ room d (Z.of_nat n) /\ next_id (d_st d) = nx /\ (forall id, contents cfg g d id = o !! id) /\
  obs_wf (MAX_PAYLOAD_LEN cfg) nx o.

Lemma sim_wp {A} (m : M db A) (f : res A -> reply) d (Q : reply -> db -> Prop) :
  (let (r, d') := rc_reply f m d in Q r d') -> wp m d (fun r d' => Q (f r) d').
Proof. unfold wp, rc_reply. by destruct (m d). Qed.

(** A call that leaves the counters alone carries the budget along. *)
Lemma same_next n nx o o' d d' :
  db_holds n nx o d -> goes_on cfg g sidx_wf d d' -> next_id (d_st d') = next_id (d_st d) ->
  (forall id, contents cfg g d' id = o' !! id) -> obs_wf (MAX_PAYLOAD_LEN cfg) nx o' -> db_holds n nx o' d'.
Proof.
  intros (Se & [R1 R2] & Hn & Hc & Hw) (Se' & _ & _ & Er) En Hc' Hw'. specialize (Er En). split_and!; try done; [|lia].
  split; rewrite ?En, ?Er; done.
Qed.

Lemma holds_unchanged n nx o d d' :
  db_holds n nx o d -> goes_on cfg g sidx_wf d d' -> unchanged (abs cfg g d) (abs cfg g d') -> db_holds n nx o d'.
Proof.
  intros Hh Hgo [En Hs]. apply (same_next n nx o o d d'); try done; [|apply Hh]. intros id. pose proof (Hs id) as E. cbn in E.
  rewrite E. apply Hh.
Qed.

Lemma holds_bound n nx o d d' id v :
  db_holds n nx o d -> goes_on cfg g sidx_wf d d' -> bound (abs cfg g d) (abs cfg g d') id v ->
  obs_wf (MAX_PAYLOAD_LEN cfg) nx (partial_alter (fun _ => v) id o) -> db_holds n nx (partial_alter (fun _ => v) id o) d'.
Proof.
  intros Hh Hgo [En Hs] Hw. apply (same_next n nx o _ d d'); try done. intros id'. pose proof (Hs id') as E. cbn in E. rewrite E.
  case_decide as Ec; [subst; by rewrite lookup_partial_alter_eq|]. rewrite lookup_partial_alter_ne by congruence. apply Hh.
Qed.

(** Nothing fails on a device that works; a mutation may find its bucket full. *)
Definition no_fault (_ : errno) : Prop := False.

Lemma holds_mutated n nx o d d' r id v k ff :
  db_holds n nx o d -> goes_on cfg g sidx_wf d d' -> mutated (RpRc r) (abs cfg g d) (abs cfg g d') id v k ff ->
  obs_wf (MAX_PAYLOAD_LEN cfg) nx (partial_alter (fun _ => v) id o) ->
  effect no_fault True False (db_holds n nx o) (db_holds n nx (partial_alter (fun _ => v) id o)) r d'.
Proof.
  intros Hh Hgo [[[= ->] Hb]|[[= ->] [Hu _]]] Hw; [left; split; [done|by apply (holds_bound n nx o d)]|right; left].
  exists ENOSPC. split; [by left|]. split; [done|]. by apply (holds_unchanged n nx o d).
Qed.

Lemma holds_same n nx o d d' {A} (r want : res A) :
  db_holds n nx o d -> goes_on cfg g sidx_wf d d' -> unchanged (abs cfg g d) (abs cfg g d') -> r = want -> answer no_fault (db_holds n nx o) want r d'.
Proof. intros. split; [by apply (holds_unchanged n nx o d)|by left]. Qed.

(** Running a call at a session. *)
Ltac call f Hsim := eapply wp_mono; [eapply (sim_wp _ f) with (Q := fun r d' => goes_on cfg g sidx_wf _ d' /\ obj_step cfg _ _ r _ (abs cfg g d')); exact Hsim|cbv beta].

Lemma patched_overwrite off b p : patched off b p = overwrite off b p.
Proof.
  unfold patched, staged, overwrite. rewrite zt_slice, slice_all by done.
  by replace (Z.to_nat (Z.max (off + len b) (len p) - len p)) with (Z.to_nat (off + len b - len p)) by lia.
Qed.

Lemma db_alloc n nx o d : db_holds (Datatypes.S n) nx o d ->
  wp blob_alloc_id d (fun r d' => r = Ok nx /\ db_holds n (nx + 1) o d').
Proof.
  intros (Se & [R1 R2] & Hn & Hc & Hw). pose proof (alloc_sim cfg g Hg sidx_wf d Se ltac:(split; lia)) as Hs.
  unfold simulates, exec in Hs.
  assert (exists id, fst (blob_db_alloc_id cfg d) = Ok id) as [id Eid].
  { pose proof (lv_next _ _ _ _ (se_live _ _ _ _ Se)). unfold rc_reply in Hs. destruct (blob_db_alloc_id cfg d) as [[id|e] d']; [by exists id|].
    destruct Hs as [_ [[= E] _]]. cbn in E. lia. }
  unfold wp. cbn [blob_alloc_id db_blobs]. unfold rc_reply in Hs. destruct (blob_db_alloc_id cfg d) as [r d']. cbn in Eid. subst r.
  destruct Hs as [(Se' & Hn' & Hr' & _) ([= ->] & Hnx & Hso)]. cbn in *. rewrite Hn in *. split; [done|]. split_and!; try done.
  - split; lia.
  - intros id'. rewrite <- Hc. apply Hso.
  - apply (obs_wf_next _ nx); [done|lia].
Qed.

Lemma db_get n nx o d id sz : db_holds n nx o d -> 0 <= id < 2 ^ 64 ->
  wp (blob_get id sz) d (answer no_fault (db_holds n nx o) (get_reply o id sz)).
Proof.
  intros Hh Hid. call RpBytes (get_sim cfg g Hg sidx_wf Hlp d id sz (proj1 Hh) Hid). intros r d' [Hgo [Hu [= ->]]].
  apply (holds_same n nx o d); try done. unfold get_reply. destruct Hh as (_ & _ & _ & Hc & _). by rewrite <- Hc.
Qed.

Lemma db_size n nx o d id : db_holds n nx o d -> 0 <= id < 2 ^ 64 ->
  wp (blob_size id) d (answer no_fault (db_holds n nx o) (size_reply o id)).
Proof.
  intros Hh Hid. call RpLen (size_sim cfg g Hg sidx_wf Hlp d id (proj1 Hh) Hid). intros r d' [Hgo [Hu [= ->]]].
  apply (holds_same n nx o d); try done. unfold size_reply. destruct Hh as (_ & _ & _ & Hc & _). by rewrite <- Hc.
Qed.

Lemma db_read n nx o d id off k : db_holds n nx o d -> 0 <= id < 2 ^ 64 -> 0 <= off -> 0 <= k ->
  wp (blob_read id off k) d (answer no_fault (db_holds n nx o) (read_reply o id off k)).
Proof.
  intros Hh Hid Ho Hk. call RpBytes (read_sim cfg g Hg sidx_wf Hlp d id off k (proj1 Hh) Hid Ho Hk). intros r d' [Hgo [Hu [= ->]]].
  apply (holds_same n nx o d); try done. unfold read_reply. destruct Hh as (_ & _ & _ & Hc & _). by rewrite <- Hc.
Qed.

Lemma db_update n nx o d id p : db_holds n nx o d -> 0 <= id < 2 ^ 64 -> bytes_ok p ->
  wp (blob_update id p) d
    (if (id =? 0) || (id >=? nx) || (len p >? MAX_PAYLOAD_LEN cfg) then answer no_fault (db_holds n nx o) (Err EINVAL)
     else effect no_fault True False (db_holds n nx o) (db_holds n nx (<[id := p]> o))).
Proof.
  intros Hh Hid Hp. call RpRc (update_sim cfg g Hg Ha sidx_wf d id p (proj1 Hh) Hid Hp). intros r d' [Hgo Hs].
  destruct Hh as (Se & Hr & Hn & Hc & Hw). cbn [obj_step abs os_next] in Hs. rewrite Hn in Hs. destruct (_ || _) eqn:E.
  - destruct Hs as [[= ->] Hu]. by apply (holds_same n nx o d).
  - apply (holds_mutated n nx o d d' r id (Some p) (len p) (full_in cfg g d)); try done. apply obs_wf_put; try done; lia.
Qed.

Lemma db_delete n nx o d id : db_holds n nx o d -> 0 <= id < 2 ^ 64 -> id <> BLOB_ROOT ->
  wp (blob_delete id) d
    (match o !! id with
     | None => answer no_fault (db_holds n nx o) (Err ENOENT)
     | Some _ => effect no_fault True False (db_holds n nx o) (db_holds n nx (delete id o))
     end).
Proof.
  intros Hh Hid Hne. call RpRc (delete_sim cfg g Hg Ha sidx_wf Hlp d id (proj1 Hh) Hid Hne). intros r d' [Hgo Hs].
  destruct Hh as (Se & Hr & Hn & Hc & Hw). cbn [obj_step abs os_objects] in Hs. rewrite Hc in Hs. destruct (o !! id) eqn:E.
  - apply (holds_mutated n nx o d d' r id None 0 (full_in cfg g d)); try done. by apply obs_wf_del.
  - destruct Hs as [[= ->] Hu]. by apply (holds_same n nx o d).
Qed.

Lemma db_write n nx o d id off b p :
  db_holds n nx o d -> 0 < id < 2 ^ 64 -> 0 <= off -> off + len b < 2 ^ 32 -> bytes_ok b -> o !! id = Some p ->
  wp (blob_write id off b) d
    (if len b =? 0 then effect no_fault True False (db_holds n nx o) (db_holds n nx o)
     else if off + len b >? MAX_PAYLOAD_LEN cfg then answer no_fault (db_holds n nx o) (Err EFBIG)
     else effect no_fault True False (db_holds n nx o) (db_holds n nx (<[id := overwrite off b p]> o))).
Proof.
  intros Hh Hid Ho Hs Hb Ep. pose proof (len_nonneg b).
  call RpRc (write_sim cfg g Hg Ha sidx_wf Hlp d id off b (proj1 Hh) ltac:(cbn; split_and!; (done || lia))). intros r d' [Hgo Hst].
  destruct Hh as (Se & Hr & Hn & Hc & Hw). cbn [obj_step abs os_objects] in Hst. rewrite Hc, Ep in Hst.
  destruct (Z.eqb_spec id 0); [lia|]. rewrite Z.geb_leb in Hst. destruct (Z.leb_spec (2 ^ 32) (off + len b)); [lia|].
  cbn [negb andb] in Hst. destruct (len b =? 0); [|destruct (off + len b >? MAX_PAYLOAD_LEN cfg) eqn:E].
  - destruct Hst as [[= ->] Hu]. left. split; [done|]. by apply (holds_unchanged n nx o d).
  - destruct Hst as [[= ->] Hu]. by apply (holds_same n nx o d).
  - destruct (obs_wf_lookup _ _ _ _ _ Hw Ep) as (Q1 & Q2 & Q3). rewrite patched_overwrite in Hst.
    apply (holds_mutated n nx o d d' r id (Some (overwrite off b p)) (len (overwrite off b p)) (full_in cfg g d)); try done.
    apply obs_wf_put; try done; [by apply overwrite_ok|]. rewrite overwrite_len by done. lia.
Qed.

Lemma db_write_gone n nx o d id off b :
  db_holds n nx o d -> 0 < id < 2 ^ 64 -> 0 <= off -> off + len b < 2 ^ 32 -> bytes_ok b -> o !! id = None ->
  wp (blob_write id off b) d (answer no_fault (db_holds n nx o) (Err ENOENT)).
Proof.
  intros Hh Hid Ho Hs Hb Ep. pose proof (len_nonneg b).
  call RpRc (write_sim cfg g Hg Ha sidx_wf Hlp d id off b (proj1 Hh) ltac:(cbn; split_and!; (done || lia))). intros r d' [Hgo Hst].
  destruct Hh as (Se & Hr & Hn & Hc & Hw). cbn [obj_step abs os_objects] in Hst. rewrite Hc, Ep in Hst.
  destruct (Z.eqb_spec id 0); [lia|]. rewrite Z.geb_leb in Hst. destruct (Z.leb_spec (2 ^ 32) (off + len b)); [lia|].
  cbn [negb andb] in Hst. destruct Hst as [[= ->] Hu]. by apply (holds_same n nx o d).
Qed.

(** The contract, call by call. *)
Definition db_laws : BlobLaws db.
Proof.
  refine {| holds := db_holds; fault := no_fault; tears := False |}.
  - done.
  - intros n d nx o (_ & _ & _ & _ & Hw). exact Hw.
  - intros n n' d nx o Hn (Se & [R1 R2] & Hh). split; [done|]. split; [|done]. split; lia.
  - intros n d nx o Hh. eapply wp_mono; [by apply db_alloc|]. cbv beta. intros r d' Hr. by left.
  - intros n d nx o. exact (db_get n nx o d).
  - intros n d nx o. exact (db_size n nx o d).
  - intros n d nx o. exact (db_read n nx o d).
  - intros n d nx o. exact (db_update n nx o d).
  - intros n d nx o. exact (db_write n nx o d).
  - intros n d nx o. exact (db_write_gone n nx o d).
  - intros n d nx o. exact (db_delete n nx o d).
Defined.
End blob_db.
