(* ===== verification/Records.v ===== *)
(** Payloads made of packed records: lemmas the layers above blob_db share. *)

From S2P Require Import Prelude Layout.

Lemma len_fmap {A B} (f : A -> B) (l : list A) : len (f <$> l) = len l.
Proof. unfold len. by rewrite length_fmap. Qed.

Lemma len_replicate {A} n (x : A) : len (replicate n x) = Z.of_nat n.
Proof. unfold len. by rewrite length_replicate. Qed.

#[export] Hint Rewrite @len_fmap @len_replicate : len.

(** ** Lists of equal chunks *)

Lemma len_concat_same (k : Z) (l : list bytes) : Forall (fun c => len c = k) l -> len (concat l) = k * len l.
Proof. induction 1 as [|c l Hc _ IH]; cbn [concat]; autorewrite with len; lia. Qed.

Lemma slice_concat_same (k : Z) (l : list bytes) i c :
  0 <= k -> Forall (fun c => len c = k) l -> l !! i = Some c -> slice (k * Z.of_nat i) k (concat l) = c.
Proof.
  intros Hk Hl. revert i. induction Hl as [|c' l Hc _ IH]; intros i; [done|]. cbn [concat]. destruct i as [|i]; cbn.
  - intros [= ->]. rewrite Z.mul_0_r. by rewrite slice_here.
  - intros Hi. rewrite slice_app_r by lia. rewrite <- (IH i Hi). f_equal. lia.
Qed.

(** ** Overwriting part of a buffer *)

Lemma splice_prefix {A} (r l : list A) : splice 0 r l = r ++ zd (len r) l.
Proof. done. Qed.

Lemma splice_mid {A} (a b c r : list A) off : off = len a -> len b = len r -> splice off r (a ++ b ++ c) = a ++ r ++ c.
Proof.
  intros -> Hb. unfold splice, zt, zd, len in *. f_equal.
  - apply take_app_length'. lia.
  - f_equal. rewrite app_assoc. apply drop_app_length'. rewrite length_app. lia.
Qed.

Lemma splice_front {A} (b c r : list A) : len b = len r -> splice 0 r (b ++ c) = r ++ c.
Proof. intros. by apply (splice_mid [] b c r 0). Qed.

Lemma splice_app_l {A} (a c r : list A) off : 0 <= off -> off + len r <= len a -> splice off r (a ++ c) = splice off r a ++ c.
Proof.
  intros Ho Hl. pose proof (len_nonneg r). unfold splice, zt, zd, len in *. rewrite <- !app_assoc. rewrite take_app_le by lia. do 2 f_equal.
  rewrite drop_app_le by lia. done.
Qed.

Lemma splice_app_r {A} (a b r : list A) off : len a <= off -> splice off r (a ++ b) = a ++ splice (off - len a) r b.
Proof.
  intros Ho. pose proof (len_nonneg r). unfold splice, zt, zd, len in *.
  replace (Z.to_nat off) with (length a + Z.to_nat (off - Z.of_nat (length a)))%nat by lia.
  replace (Z.to_nat (off + Z.of_nat (length r))) with (length a + Z.to_nat (off - Z.of_nat (length a) + Z.of_nat (length r)))%nat by lia.
  by rewrite take_app_add, drop_app_add, <- app_assoc.
Qed.

Lemma zt_app_exact {A} (a c : list A) n : n = len a -> zt n (a ++ c) = a.
Proof. intros ->. unfold zt, len. apply take_app_length'. lia. Qed.

Lemma byte_at_app (a : bytes) x c off : off = len a -> byte_at off (a ++ x :: c) = x.
Proof. intros ->. unfold byte_at, len. rewrite Nat2Z.id, list_lookup_middle by done. done. Qed.

(** Setting chunk [i] of a list of equal chunks. *)
Lemma splice_concat_same (k : Z) (l : list bytes) i c : 0 <= k -> Forall (fun c => len c = k) l -> (i < length l)%nat -> len c = k ->
  splice (k * Z.of_nat i) c (concat l) = concat (<[i := c]> l).
Proof.
  intros Hk Hl Hi Hc. revert i Hi. induction Hl as [|c' l Hc' Hl IH]; intros i Hi; [cbn in Hi; lia|]. destruct i as [|i]; cbn [concat].
  - rewrite Z.mul_0_r. apply (splice_mid [] c' (concat l) c 0); [done|lia].
  - cbn in Hi. change (<[S i := c]> (c' :: l)) with (c' :: <[i := c]> l). cbn [concat]. rewrite <- (IH i) by lia. clear IH.
    rewrite splice_app_r by lia. do 2 f_equal. lia.
Qed.

Lemma splice_end {A} (a j r : list A) off : off = len a -> splice off r (a ++ j) = (a ++ r) ++ zd (len r) j.
Proof. intros ->. rewrite splice_app_r by lia. rewrite Z.sub_diag, splice_prefix. by rewrite app_assoc. Qed.

Lemma zd_zd {A} n k (l : list A) : 0 <= n -> 0 <= k -> zd n (zd k l) = zd (k + n) l.
Proof. intros. unfold zd. rewrite drop_drop. f_equal. lia. Qed.

(** A field at the end of a record. *)
Lemma rd_end n k v : n = Z.of_nat k -> 0 <= v < 256 ^ n -> rd n 0 (le k v) = v.
Proof. intros. rewrite <- (app_nil_r (le k v)). by apply rd_here. Qed.
