(* ===== verification/Logring.v ===== *)
(** logring.c: a bounded log, a chain of entries each in an object of its own,
    the next one's id reserved in advance. *)

From S2P Require Import BlobIface Prelude Layout Records.

Definition CLOG_MAGIC : bytes := [67; 76; 79; 71].
Definition CLOG_VERSION : Z := 1.
Definition CLOG_ROOT_LEN : Z := 56.
Definition CLOG_ENTRY_HDR : Z := 10.

(** [struct clog_root]. *)
Record clog_root := mk_clog_root {
  cr_magic : bytes; cr_version : Z; cr_flags : Z; cr_rsvd : Z; cr_epoch : Z; cr_capacity_bytes : Z; cr_live_bytes : Z; cr_count : Z;
  cr_waypoint_id : Z; cr_head_id : Z; cr_evict_from : Z; cr_evict_to : Z }.

Definition enc_clog_root (r : clog_root) : bytes :=
  cr_magic r ++ [cr_version r; cr_flags r] ++ le 2 (cr_rsvd r) ++ le 4 (cr_epoch r) ++ le 4 (cr_capacity_bytes r) ++ le 4 (cr_live_bytes r) ++
  le 4 (cr_count r) ++ le 8 (cr_waypoint_id r) ++ le 8 (cr_head_id r) ++ le 8 (cr_evict_from r) ++ le 8 (cr_evict_to r).

Definition dec_clog_root (b : bytes) : clog_root :=
  mk_clog_root (slice 0 4 b) (byte_at 4 b) (byte_at 5 b) (rd 2 6 b) (rd 4 8 b) (rd 4 12 b) (rd 4 16 b) (rd 4 20 b) (rd 8 24 b) (rd 8 32 b) (rd 8 40 b) (rd 8 48 b).

(** [struct clog_entry_hdr] and the record behind it. *)
Record clog_entry_hdr := mk_clog_entry_hdr { ce_next_id : Z; ce_len : Z }.
Definition enc_clog_entry_hdr (h : clog_entry_hdr) : bytes := le 8 (ce_next_id h) ++ le 2 (ce_len h).
Definition dec_clog_entry_hdr (b : bytes) : clog_entry_hdr := mk_clog_entry_hdr (rd 8 0 b) (rd 2 8 b).

(** [logring_t], [logring_cursor], [struct logring_moniker], [struct logring_stats]. *)
Record logring_t := mk_logring { lr_root : Z; lr_tail_id : Z; lr_next_free : Z; lr_head_id : Z; lr_epoch : Z; lr_capacity_bytes : Z;
  lr_live_bytes : Z; lr_count : Z; lr_since_ckpt : Z }.
Record logring_cursor := mk_cursor { lc_pos : Z; lc_epoch : Z }.
Record logring_moniker := mk_moniker { lm_epoch : Z; lm_id : Z }.
Record logring_stats_t := mk_lstats { ls_oldest_id : Z; ls_newest_id : Z; ls_count : Z; ls_bytes : Z }.

Section logring.
Context (CLOG_K : Z) {D : Type} `{!Blobs D}.
Notation MAX_PAYLOAD := (blob_max (D := D)).

Definition CLOG_MAX_RECORD : Z := MAX_PAYLOAD - CLOG_ENTRY_HDR.

(** A call works on the store and the handle it was given. *)
Record lrs := mk_lrs { lr_dev : D; lr_h : logring_t }.

Definition set_h (h : logring_t) (s : lrs) : lrs := mk_lrs (lr_dev s) h.
Definition on_store {A} (m : M D A) : M lrs A := fun s => let (r, d) := m (lr_dev s) in (r, mk_lrs d (lr_h s)).

(** ** Entries *)

(** [entry_read()]: the next id and the record; [out_sz] is [None] for a NULL
    buffer. *)
Definition entry_read (id : Z) (out_sz : option Z) : M D (Z * bytes) :=
  let* b := blob_get id MAX_PAYLOAD in
  if len b <? CLOG_ENTRY_HDR then mfail EIO
  else
    let h := dec_clog_entry_hdr b in
    if negb (CLOG_ENTRY_HDR + ce_len h =? len b) then mfail EIO
    else
      match out_sz with
      | Some sz => if ce_len h >? sz then mfail EMSGSIZE else mret (ce_next_id h, slice CLOG_ENTRY_HDR (ce_len h) b)
      | None => mret (ce_next_id h, slice CLOG_ENTRY_HDR (ce_len h) b)
      end.

Definition entry_write (id next_id : Z) (rec : bytes) : M D unit :=
  blob_update id (enc_clog_entry_hdr (mk_clog_entry_hdr next_id (u16 (len rec))) ++ rec).

(** ** The root *)

Definition root_load (root : Z) : M D clog_root :=
  let* rc := mtry (blob_get root CLOG_ROOT_LEN) in
  match rc with
  | Err ENOMEM => mfail ENOTSUP
  | Err e => mfail e
  | Ok b =>
      if len b <? CLOG_ROOT_LEN then mfail ENOTSUP
      else
        let r := dec_clog_root b in
        if negb (bool_decide (cr_magic r = CLOG_MAGIC)) || negb (cr_version r =? CLOG_VERSION) then mfail ENOTSUP else mret r
  end.

Definition root_of (h : logring_t) (evict_from evict_to : Z) : clog_root :=
  mk_clog_root CLOG_MAGIC CLOG_VERSION 0 0 (lr_epoch h) (lr_capacity_bytes h) (lr_live_bytes h) (lr_count h)
    (if lr_tail_id h =? 0 then lr_next_free h else lr_tail_id h) (lr_head_id h) evict_from evict_to.

Definition root_write (h : logring_t) (evict_from evict_to : Z) : M D unit :=
  blob_update (lr_root h) (enc_clog_root (root_of h evict_from evict_to)).

(** ** Eviction *)

(** The walk of [run_delete()]: the ids from [cur] to [to], [n] of them at most. *)
Fixpoint run_collect (n : nat) (cur to : Z) : M D (list Z) :=
  match n with
  | O => mret []
  | S n =>
      if cur =? to then mret []
      else
        let* rc := mtry (entry_read cur None) in
        match rc with
        | Err _ => mret []
        | Ok (nxt, _) => let* run := run_collect n nxt to in mret (cur :: run)
        end
  end.

(** Deleting in turn, whatever each delete says. *)
Fixpoint delete_each (ids : list Z) : M D unit :=
  match ids with
  | [] => mret tt
  | id :: ids => mtry (blob_delete id);;; delete_each ids
  end.

Definition run_delete (from to : Z) : M D unit :=
  let* run := run_collect (Z.to_nat CLOG_K) from to in
  delete_each (reverse run).

(** The loop of [checkpoint()]: where it stopped, how many it took and their bytes. *)
Fixpoint evict_walk (fuel : nat) (h : logring_t) (force : bool) (cur n freed : Z) : M D (Z * Z * Z) :=
  match fuel with
  | O => mret (cur, n, freed)
  | S fuel =>
      if negb (cur =? 0) && negb (cur =? lr_tail_id h) then
        let* '(nxt, rec) := entry_read cur None in
        let freed := u32 (freed + len rec) in
        if negb force && (u32 (lr_live_bytes h - freed) <=? lr_capacity_bytes h) then mret (nxt, n + 1, freed)
        else evict_walk fuel h force nxt (n + 1) freed
      else mret (cur, n, freed)
  end.

(** The handle with the run taken off its front. *)
Definition evicted (h : logring_t) (cur n freed : Z) : logring_t :=
  mk_logring (lr_root h) (lr_tail_id h) (lr_next_free h) cur (lr_epoch h) (lr_capacity_bytes h) (u32 (lr_live_bytes h - freed)) (u32 (lr_count h - n)) (lr_since_ckpt h).

Definition set_since (n : Z) (h : logring_t) : logring_t :=
  mk_logring (lr_root h) (lr_tail_id h) (lr_next_free h) (lr_head_id h) (lr_epoch h) (lr_capacity_bytes h) (lr_live_bytes h) (lr_count h) n.

Definition checkpoint (force : bool) : M lrs unit :=
  let* h := mgets lr_h in
  let want := force || (lr_live_bytes h >? lr_capacity_bytes h) in
  let* '(cur, n, freed) :=
    if want && negb (lr_head_id h =? 0) then on_store (evict_walk (Z.to_nat CLOG_K) h force (lr_head_id h) 0 0) else mret (0, 0, 0) in
  let from := if n >? 0 then lr_head_id h else 0 in
  let to := if n >? 0 then cur else 0 in
  let h := if n >? 0 then evicted h cur n freed else h in
  mmod (set_h h);;;
  on_store (root_write h from to);;;
  (if n >? 0 then on_store (run_delete from to) else mret tt);;;
  mmod (fun s => set_h (set_since 0 (lr_h s)) s).

(** ** Lifecycle *)

(** [rnd] is what sys_rand32_get() draws. *)
Definition logring_create (cfg : option Z) (out_null : bool) (rnd : Z) : M D Z :=
  match cfg with
  | None => mfail EINVAL
  | Some capacity_bytes =>
      if out_null || (capacity_bytes =? 0) then mfail EINVAL
      else
        let* root := blob_alloc_id in
        let* first := blob_alloc_id in
        if (root =? 0) || (first =? 0) then mfail EIO
        else
          let epoch := if rnd =? 0 then 1 else rnd in
          root_write (mk_logring root 0 first 0 epoch capacity_bytes 0 0 0) 0 0;;;
          mret root
  end.

(** What the walk of [logring_open()] carries: cur, tail, w_bound, w_bytes,
    first_len, first. *)
Record walk_t := mk_walk { wk_cur : Z; wk_tail : Z; wk_bound : Z; wk_bytes : Z; wk_first_len : Z; wk_first : bool }.

Definition open_step (w : walk_t) : M D (walk_t + walk_t) :=
  let* rc := mtry (entry_read (wk_cur w) None) in
  match rc with
  | Err ENOENT => mret (inr w)
  | Err e => mfail e
  | Ok (nxt, rec) =>
      if nxt <=? wk_cur w then mfail EIO
      else mret (inl (mk_walk nxt (wk_cur w) (u32 (wk_bound w + 1)) (u64 (wk_bytes w + len rec)) (if wk_first w then len rec else wk_first_len w) false))
  end.

Definition logring_open (root : Z) (h_null : bool) : M D logring_t :=
  if (root =? 0) || h_null then mfail EINVAL
  else
    let* r := root_load root in
    (if negb (cr_evict_from r =? 0) then run_delete (cr_evict_from r) (cr_evict_to r) else mret tt);;;
    let* w := while64 open_step (mk_walk (cr_waypoint_id r) 0 0 0 0 true) in
    let virgin := cr_head_id r =? 0 in
    mret (mk_logring root (wk_tail w) (wk_cur w)
            (if virgin then (if wk_tail w =? 0 then cr_head_id r else cr_waypoint_id r) else cr_head_id r)
            (cr_epoch r) (cr_capacity_bytes r)
            (if virgin then u32 (wk_bytes w) else u32 (cr_live_bytes r + u32 (wk_bytes w - wk_first_len w)))
            (if virgin then wk_bound w else u32 (cr_count r + u32 (wk_bound w - 1))) 0).

(** The chain of [logring_destroy()], entry by entry. *)
Definition destroy_step (next_free cur : Z) : M D (Z + unit) :=
  if negb (cur =? 0) && negb (cur =? next_free) then
    let* rc := mtry (entry_read cur None) in
    match rc with
    | Err _ => mret (inr tt)
    | Ok (nxt, _) => mtry (blob_delete cur);;; mret (inl nxt)
    end
  else mret (inr tt).

Definition logring_destroy (h_null : bool) : M lrs unit :=
  if h_null then mfail EINVAL
  else
    let* h := mgets lr_h in
    let* rc := mtry (on_store (root_load (lr_root h))) in
    let '(evict_from, evict_to) := match rc with Ok r => (cr_evict_from r, cr_evict_to r) | Err _ => (0, 0) end in
    let* rc := mtry (on_store (blob_delete (lr_root h))) in
    match rc with
    | Ok _ | Err ENOENT =>
        (if negb (evict_from =? 0) then on_store (run_delete evict_from evict_to) else mret tt);;;
        on_store (while64 (destroy_step (lr_next_free h)) (lr_head_id h))
    | Err e => mfail e
    end.

(** ** Append *)

(** The out-of-space backstop: evict and try again. *)
Definition append_retry (r_id r2 : Z) (rec : bytes) (rc : res unit) : M lrs (res unit + res unit) :=
  let* h := mgets lr_h in
  if (match rc with Err ENOSPC => true | _ => false end) && negb (lr_head_id h =? 0) && negb (lr_head_id h =? lr_tail_id h) then
    checkpoint true;;;
    let* rc := mtry (on_store (entry_write r_id r2 rec)) in
    mret (inl rc)
  else mret (inr rc).

(** The handle once the entry is bound. *)
Definition after_append (r_id r2 n : Z) (h : logring_t) : logring_t :=
  mk_logring (lr_root h) r_id r2 (if lr_tail_id h =? 0 then r_id else lr_head_id h) (lr_epoch h) (lr_capacity_bytes h)
    (u32 (lr_live_bytes h + n)) (u32 (lr_count h + 1)) (u32 (lr_since_ckpt h + 1)).

Definition logring_append (h_null rec_null : bool) (rec : bytes) : M lrs Z :=
  if h_null || (rec_null && (len rec >? 0)) then mfail EINVAL
  else if len rec >? CLOG_MAX_RECORD then mfail EMSGSIZE
  else
    let* h := mgets lr_h in
    let r_id := lr_next_free h in
    let* r2 := on_store blob_alloc_id in
    if r2 =? 0 then mfail EIO
    else
      let* rc := mtry (on_store (entry_write r_id r2 rec)) in
      let* rc := while64 (append_retry r_id r2 rec) rc in
      match rc with
      | Err e => mfail e
      | Ok _ =>
          let* h := mgets lr_h in
          let was_empty := lr_tail_id h =? 0 in
          mmod (set_h (after_append r_id r2 (len rec) h));;;
          (if was_empty || (u32 (lr_since_ckpt h + 1) >=? CLOG_K) then mtry (checkpoint false);;; mret tt else mret tt);;;
          mret r_id
      end.

(** ** Reading *)

Definition logring_seek_oldest (h_null c_null : bool) : M lrs logring_cursor :=
  if h_null || c_null then mfail EINVAL
  else let* h := mgets lr_h in mret (mk_cursor 0 (lr_epoch h)).

Definition logring_seek_newest (h_null c_null : bool) : M lrs logring_cursor :=
  if h_null || c_null then mfail EINVAL
  else let* h := mgets lr_h in mret (mk_cursor (lr_tail_id h) (lr_epoch h)).

(** [logring_next()]: its code with the record and its id, and the cursor it
    leaves. *)
Definition logring_next (h_null c_null : bool) (c : logring_cursor) (out_null : bool) (out_sz : Z) : M lrs (res (bytes * Z) * logring_cursor) :=
  if h_null || c_null || (out_null && (out_sz >? 0)) then mret (Err EINVAL, c)
  else
    let* h := mgets lr_h in
    if negb (lc_epoch c =? 0) && negb (lc_epoch c =? lr_epoch h) then mret (Err ESTALE, mk_cursor 0 (lr_epoch h))
    else
      let start := if lc_pos c =? 0 then lr_head_id h else lc_pos c in
      if start =? 0 then mret (Err ENOENT, c)
      else
        let* rc := mtry (on_store (entry_read start (if out_null then None else Some out_sz))) in
        match rc with
        | Err ENOENT => if start <? lr_next_free h then mret (Err ESTALE, mk_cursor 0 (lr_epoch h)) else mret (Err ENOENT, c)
        | Err e => mret (Err e, c)
        | Ok (nxt, rec) => mret (Ok (rec, start), mk_cursor nxt (lr_epoch h))
        end.

Definition logring_cursor_to_moniker (c : logring_cursor) : logring_moniker := mk_moniker (lc_epoch c) (lc_pos c).
Definition logring_cursor_from_moniker (c_null m_null : bool) (m : logring_moniker) : res logring_cursor :=
  if c_null || m_null then Err EINVAL else Ok (mk_cursor (lm_id m) (lm_epoch m)).

(** ** Statistics and reset *)

Definition logring_stats (h_null out_null : bool) : M lrs logring_stats_t :=
  if h_null || out_null then mfail EINVAL
  else let* h := mgets lr_h in mret (mk_lstats (lr_head_id h) (lr_tail_id h) (lr_count h) (lr_live_bytes h)).

(** One turn of the shrinking loop of [logring_reset()]. *)
Definition reset_step (_ : unit) : M lrs (unit + unit) :=
  let* h := mgets lr_h in
  if negb (lr_head_id h =? 0) && negb (lr_head_id h =? lr_tail_id h) then checkpoint true;;; mret (inl tt) else mret (inr tt).

Definition logring_reset (h_null : bool) : M lrs unit :=
  if h_null then mfail EINVAL
  else
    while64 reset_step tt;;;
    let* h := mgets lr_h in
    let old_tail := lr_tail_id h in
    let old_frontier := lr_next_free h in
    let* first := on_store blob_alloc_id in
    if first =? 0 then mfail EIO
    else
      let h := mk_logring (lr_root h) 0 first 0 (lr_epoch h) (lr_capacity_bytes h) 0 0 0 in
      mmod (set_h h);;;
      on_store (root_write h old_tail (if old_tail =? 0 then 0 else old_frontier));;;
      (if negb (old_tail =? 0) then on_store (run_delete old_tail old_frontier) else mret tt).
End logring.
