(* ===== verification/LogringSpec.v ===== *)
(** The log of logring.c as a queue: the chain of entries the objects of the store
    make up, the queue a handle stands for, and what each operation does to it. *)

From S2P Require Import BlobIface Prelude Layout Records Logring.

Notation entry := (Z * bytes)%type.
Implicit Types (e : entry) (q p es : list entry).

(** ** Encodings *)

Definition clog_root_ok (r : clog_root) : Prop :=
  len (cr_magic r) = 4 /\ bytes_ok (cr_magic r) /\ byte_ok (cr_version r) /\ byte_ok (cr_flags r) /\ 0 <= cr_rsvd r < 2 ^ 16 /\ 0 <= cr_epoch r < 2 ^ 32 /\
  0 <= cr_capacity_bytes r < 2 ^ 32 /\ 0 <= cr_live_bytes r < 2 ^ 32 /\ 0 <= cr_count r < 2 ^ 32 /\ 0 <= cr_waypoint_id r < 2 ^ 64 /\
  0 <= cr_head_id r < 2 ^ 64 /\ 0 <= cr_evict_from r < 2 ^ 64 /\ 0 <= cr_evict_to r < 2 ^ 64.

Lemma dec_enc_clog_root r : clog_root_ok r -> dec_clog_root (enc_clog_root r) = r.
Proof.
  destruct r as [mg ver fl rs ep cap lv ct wp hd ef et]. unfold clog_root_ok, dec_clog_root, enc_clog_root. cbn. intros (Hm & _ & _ & _ & ? & ? & ? & ? & ? & ? & ? & ? & ?).
  f_equal; try by rewrite !rd_skip by lens; autorewrite with len; rewrite ?Hm; first [apply rd_here|apply rd_end]; cbn; lia.
  - by apply slice_here.
  - apply byte_at_app. by rewrite Hm.
  - rewrite cons_middle, app_assoc. apply byte_at_app. lens.
Qed.

Lemma len_enc_clog_root r : len (cr_magic r) = 4 -> len (enc_clog_root r) = CLOG_ROOT_LEN.
Proof. intros Hm. unfold enc_clog_root. autorewrite with len. rewrite Hm. done. Qed.

Lemma bytes_ok_clog_root r : clog_root_ok r -> bytes_ok (enc_clog_root r).
Proof.
  intros (_ & ? & ? & ? & _). unfold enc_clog_root. rewrite !bytes_ok_app. split_and!; try apply bytes_ok_le; [done|].
  unfold bytes_ok. rewrite !list.Forall_cons. by split_and!.
Qed.

(** The object of an entry that promises [next] to its successor. *)
Definition ent_bytes (next : Z) (rec : bytes) : bytes := enc_clog_entry_hdr (mk_clog_entry_hdr next (u16 (len rec))) ++ rec.

Lemma len_ent_bytes next rec : len (ent_bytes next rec) = CLOG_ENTRY_HDR + len rec.
Proof. unfold ent_bytes, enc_clog_entry_hdr, CLOG_ENTRY_HDR. cbn. lens. Qed.

Lemma bytes_ok_ent next rec : bytes_ok rec -> bytes_ok (ent_bytes next rec).
Proof. intros. unfold ent_bytes, enc_clog_entry_hdr. rewrite !bytes_ok_app. split_and!; try apply bytes_ok_le. done. Qed.

Lemma dec_ent_bytes next rec : 0 <= next < 2 ^ 64 -> len rec < 2 ^ 16 ->
  dec_clog_entry_hdr (ent_bytes next rec) = mk_clog_entry_hdr next (len rec) /\ slice CLOG_ENTRY_HDR (len rec) (ent_bytes next rec) = rec.
Proof.
  intros Hn Hl. pose proof (len_nonneg rec). unfold dec_clog_entry_hdr, ent_bytes, enc_clog_entry_hdr. cbn [ce_next_id ce_len]. rewrite u16_small by lia. split.
  - f_equal; [rewrite <- app_assoc; apply rd_here; cbn; lia|]. rewrite <- app_assoc, rd_skip by lens. autorewrite with len. apply rd_here; cbn; lia.
  - rewrite slice_app_r by (unfold CLOG_ENTRY_HDR; lens). apply slice_all. done.
Qed.

(** ** Queues *)

Definition total q : Z := foldr (fun e n => len e.2 + n) 0 q.
Definition nxt_of q (nf : Z) : Z := match q with [] => nf | e :: _ => e.1 end.
Definition last_id q : Z := match list.last q with Some e => e.1 | None => 0 end.

Lemma total_cons e q : total (e :: q) = len e.2 + total q.
Proof. done. Qed.

Lemma total_nonneg q : 0 <= total q.
Proof. induction q as [|e q IH]; [done|]. rewrite total_cons. pose proof (len_nonneg e.2). lia. Qed.

Lemma total_app p q : total (p ++ q) = total p + total q.
Proof. induction p as [|e p IH]; [done|]. cbn [app]. rewrite !total_cons. lia. Qed.

Lemma last_id_snoc q e : last_id (q ++ [e]) = e.1.
Proof. unfold last_id. by rewrite last_snoc. Qed.

Lemma last_id_cons e e' q : last_id (e :: e' :: q) = last_id (e' :: q).
Proof. done. Qed.

Lemma nxt_of_app p q nf : nxt_of (p ++ q) nf = nxt_of p (nxt_of q nf).
Proof. by destruct p. Qed.

(** The run of oldest entries [checkpoint()] takes, and what it leaves. *)
Fixpoint plan (k : nat) (force : bool) (cap live freed : Z) q : list entry * list entry :=
  match k, q with
  | S k, e :: (_ :: _) as q' =>
      let freed := u32 (freed + len e.2) in
      if negb force && (u32 (live - freed) <=? cap) then ([e], q')
      else let (t, r) := plan k force cap live freed q' in (e :: t, r)
  | _, _ => ([], q)
  end.

Lemma plan_split k force cap live freed q : let (t, r) := plan k force cap live freed q in q = t ++ r /\ (q <> [] -> r <> []).
Proof.
  revert freed q. induction k as [|k IH]; intros freed q; [done|]. destruct q as [|e [|e' q]]; try done. cbn [plan].
  destruct (_ && _); [done|]. specialize (IH (u32 (freed + len e.2)) (e' :: q)). destruct (plan _ _ _ _ _ _) as [t r]. destruct IH as [IH Hr].
  split; [by rewrite IH|]. intros _. by apply Hr.
Qed.

Lemma plan_takes k force cap live freed q : (0 < k)%nat -> (2 <= length q)%nat -> (plan k force cap live freed q).1 <> [].
Proof.
  intros Hk Hq. destruct k as [|k]; [lia|]. destruct q as [|e [|e' q]]; try (cbn in Hq; lia). cbn [plan].
  destruct (_ && _); [done|]. by destruct (plan _ _ _ _ _ _).
Qed.

(** ** What the store holds

    [al_pre] was taken off the queue by a checkpoint whose write of the root
    failed: the log on flash still starts with it. [al_hist] is every entry that
    was ever appended, with the id it promised to its successor. *)
Record alog := mk_alog { al_pre : list entry; al_q : list entry; al_nf : Z; al_since : Z; al_hist : gmap Z (Z * bytes) }.
Notation hist := (gmap Z (Z * bytes)).
Definition on_flash (a : alog) : list entry := al_pre a ++ al_q a.

(** [es] linked by the ids their entries promise, up to the frontier [nf]. *)
Fixpoint chain (hi : hist) es (nf : Z) : Prop :=
  match es with
  | [] => True
  | e :: es => hi !! e.1 = Some (nxt_of es nf, e.2) /\ chain hi es nf
  end.

(** No entry before [to] links past it. *)
Definition next_le (hi : hist) (to : Z) : Prop := forall id nxt rec, hi !! id = Some (nxt, rec) -> id < to -> nxt <= to.
(** An id the log owns: that of an entry, or reserved for one. *)
Definition promised (hi : hist) (o : objs) (id : Z) : Prop := is_Some (hi !! id) \/ o !! id = None.
(** Entries before [to] may be gone. *)
Definition pruned (hi : hist) (to : Z) (o o' : objs) : Prop := forall id, o' !! id = o !! id \/ (o' !! id = None /\ is_Some (hi !! id) /\ id < to).

Lemma chain_app hi p q nf : chain hi (p ++ q) nf <-> chain hi p (nxt_of q nf) /\ chain hi q nf.
Proof. induction p as [|e p IH]; cbn [app chain]; [tauto|]. rewrite IH, nxt_of_app. tauto. Qed.

Lemma chain_in hi es nf e : chain hi es nf -> e ∈ es -> exists nxt, hi !! e.1 = Some (nxt, e.2).
Proof. induction es as [|e' es IH]; [by intros _ ?%not_elem_of_nil|]. intros [E Hc] [->|Hin]%elem_of_cons; [eauto|by apply IH]. Qed.

Lemma chain_weaken hi hi' es nf : chain hi es nf -> (forall e nxt, e ∈ es -> hi !! e.1 = Some (nxt, e.2) -> hi' !! e.1 = Some (nxt, e.2)) -> chain hi' es nf.
Proof.
  induction es as [|e es IH]; [done|]. intros [E Hc] Hh. split; [apply Hh; [by left|done]|]. apply IH; [done|]. intros e' nxt Hin. apply Hh. by right.
Qed.

Section logring_spec.
Context (CLOG_K : Z) {D : Type} `{!Blobs D} {L : BlobLaws D} (root epoch cap : Z).
Notation MAX_PAYLOAD := (blob_max (D := D)).
Notation lrs := (lrs (D := D)).
Implicit Types (o : objs) (a : alog) (hi : hist) (d : D) (s : lrs).

Definition entry_fits (rec : bytes) : Prop := bytes_ok rec /\ len rec <= CLOG_MAX_RECORD (D := D).

(** What every entry ever appended keeps to. *)
Definition hist_ok o (nf : Z) hi : Prop := forall id nxt rec, hi !! id = Some (nxt, rec) ->
  root < id < nxt /\ nxt <= nf /\ entry_fits rec /\ (o !! id = None \/ o !! id = Some (ent_bytes nxt rec)) /\ promised hi o nxt /\ next_le hi id.

Definition way_ok a (r : clog_root) : Prop :=
  (cr_head_id r = 0 /\ cr_waypoint_id r = nxt_of (on_flash a) (al_nf a) /\ cr_count r = 0 /\ cr_live_bytes r = 0) \/
  (exists x1 x x2, on_flash a = x1 ++ x :: x2 /\ cr_head_id r = nxt_of (on_flash a) 0 /\ cr_waypoint_id r = x.1 /\
    cr_count r = u32 (len (x1 ++ [x])) /\ cr_live_bytes r = u32 (total (x1 ++ [x]))).

Definition evict_ok o a (r : clog_root) : Prop :=
  (cr_evict_from r = 0 /\ cr_evict_to r = 0) \/
  (promised (al_hist a) o (cr_evict_from r) /\ root < cr_evict_from r <= cr_evict_to r /\ cr_evict_to r <= nxt_of (on_flash a) (al_nf a) /\
    next_le (al_hist a) (cr_evict_to r)).

Definition root_ok o a (r : clog_root) : Prop :=
  cr_magic r = CLOG_MAGIC /\ cr_version r = CLOG_VERSION /\ cr_flags r = 0 /\ cr_rsvd r = 0 /\ cr_epoch r = epoch /\ cr_capacity_bytes r = cap /\ way_ok a r /\ evict_ok o a r.

Record log_ok o (nx : Z) a : Prop := {
  lo_ids : BLOB_ROOT < root < al_nf a /\ al_nf a < nx;
  lo_front : o !! al_nf a = None;
  lo_hist : hist_ok o (al_nf a) (al_hist a);
  lo_chain : chain (al_hist a) (on_flash a) (al_nf a);
  lo_bound : Forall (fun e => is_Some (o !! e.1)) (on_flash a);
  lo_root : exists r, o !! root = Some (enc_clog_root r) /\ root_ok o a r;
}.

(** The handle of a queue. *)
Definition handle_of a : logring_t :=
  mk_logring root (last_id (al_q a)) (al_nf a) (nxt_of (al_q a) 0) epoch cap (u32 (total (al_q a))) (u32 (len (al_q a))) (al_since a).

Context (Hmax : CLOG_ROOT_LEN <= MAX_PAYLOAD <= 65545) (Hk : 1 <= CLOG_K) (Hsteady : ~ tears (D := D)) (Hepoch : 0 <= epoch < 2 ^ 32) (Hcap : 0 <= cap < 2 ^ 32).

(** *** Ids in order *)

Lemma chain_ge o nf hi es e : hist_ok o nf hi -> chain hi es nf -> e ∈ es -> nxt_of es nf <= e.1 < nf.
Proof.
  intros Hh. revert e. induction es as [|e' es IH]; intros e; [by intros _ ?%not_elem_of_nil|]. intros [E Hc] Hin. cbn [nxt_of].
  apply Hh in E as (? & ? & _). apply elem_of_cons in Hin as [->|Hin]; [lia|]. specialize (IH e Hc Hin). lia.
Qed.

Lemma nxt_of_le o nf hi es : hist_ok o nf hi -> chain hi es nf -> nxt_of es nf <= nf.
Proof. intros Hh Hc. destruct es as [|e es]; [done|]. pose proof (chain_ge _ _ _ _ e Hh Hc (list_elem_of_here _ _)). cbn [nxt_of] in *. lia. Qed.

Lemma chain_root o nf hi es e : hist_ok o nf hi -> chain hi es nf -> e ∈ es -> root < e.1.
Proof. intros Hh Hc Hin. destruct (chain_in _ _ _ _ Hc Hin) as [nxt E]. apply Hh in E. tauto. Qed.

(** The oldest entry is the newest only if it is alone. *)
Lemma head_tail o nf hi e q : hist_ok o nf hi -> chain hi (e :: q) nf -> (e.1 =? last_id (e :: q)) = match q with [] => true | _ => false end.
Proof.
  intros Hh [E Hc]. destruct q as [|e' q]; [unfold last_id; cbn; lia|]. rewrite last_id_cons. apply Z.eqb_neq. unfold last_id.
  destruct (list.last (e' :: q)) as [x|] eqn:El; [|by apply list.last_None in El]. apply list.last_Some_elem_of in El.
  pose proof (chain_ge _ _ _ _ x Hh Hc El). apply Hh in E as (? & _). cbn [nxt_of] in *. lia.
Qed.

(** *** Reading entries *)

Definition entry_reply (nxt : Z) (rec : bytes) (out_sz : option Z) : res (Z * bytes) :=
  match out_sz with
  | Some sz => if len rec >? sz then Err EMSGSIZE else Ok (nxt, rec)
  | None => Ok (nxt, rec)
  end.

Lemma entry_read_bound n d nx o id nxt rec out_sz : holds n nx o d -> o !! id = Some (ent_bytes nxt rec) -> 0 <= nxt < 2 ^ 64 -> entry_fits rec ->
  wp (entry_read id out_sz) d (answer fault (holds n nx o) (entry_reply nxt rec out_sz)).
Proof.
  intros Hh E Hn [Hb Hl]. pose proof (holds_wf _ _ _ _ Hh) as Hw. destruct (obs_wf_lookup _ _ _ _ _ Hw E) as (? & _ & Hle). pose proof (proj1 Hw).
  unfold CLOG_MAX_RECORD, CLOG_ENTRY_HDR in *. pose proof (len_nonneg rec).
  destruct (dec_ent_bytes nxt rec Hn ltac:(lia)) as [Ed Es].
  unfold entry_read. wp_step. wp_use (get_law n d nx o id MAX_PAYLOAD Hh ltac:(lia)). unfold get_reply. rewrite E.
  destruct (Z.ltb_spec MAX_PAYLOAD (len (ent_bytes nxt rec))); [lia|]. intros r d' [Hh' Hr].
  destruct Hr as [->|(e & He & ->)]; [|split; [done|right; eauto]]. rewrite len_ent_bytes. unfold CLOG_ENTRY_HDR in *.
  destruct (Z.ltb_spec (10 + len rec) 10); [lia|]. rewrite Ed. cbn [ce_len ce_next_id]. rewrite Z.eqb_refl. cbn [negb]. rewrite Es.
  unfold entry_reply. destruct out_sz as [sz|]; [destruct (len rec >? sz)|]; by split; [|left].
Qed.

Lemma entry_read_unbound n d nx o id out_sz : holds n nx o d -> o !! id = None -> 0 <= id < 2 ^ 64 ->
  wp (entry_read id out_sz) d (answer fault (holds n nx o) (Err ENOENT)).
Proof.
  intros Hh E Hid. unfold entry_read. wp_step. wp_use (get_law n d nx o id MAX_PAYLOAD Hh Hid). unfold get_reply. rewrite E.
  intros r d' [Hh' Hr]. destruct Hr as [->|(e & He & ->)]; split; try done; [by left|right; eauto].
Qed.

(** *** Deleting a run *)

Lemma pruned_refl hi to o : pruned hi to o o.
Proof. intros id. by left. Qed.

Lemma pruned_trans hi to o1 o2 o3 : pruned hi to o1 o2 -> pruned hi to o2 o3 -> pruned hi to o1 o3.
Proof. intros H1 H2 id. destruct (H2 id) as [->|?]; [apply H1|by right]. Qed.

Lemma pruned_none hi to o o' id : pruned hi to o o' -> o !! id = None -> o' !! id = None.
Proof. intros Hp E. destruct (Hp id) as [->|(? & _)]; done. Qed.

Lemma promised_pruned hi to o o' id : pruned hi to o o' -> promised hi o id -> promised hi o' id.
Proof. intros Hp [?|E]; [by left|right]. by apply (pruned_none hi to o). Qed.

Lemma hist_ok_pruned hi to nf o o' : hist_ok o nf hi -> pruned hi to o o' -> hist_ok o' nf hi.
Proof.
  intros Hh Hp id nxt rec E. destruct (Hh id nxt rec E) as (? & ? & ? & Hb & Hn & ?). split_and!; try done; [lia|lia| |by apply (promised_pruned hi to o)].
  destruct (Hp id) as [->|(? & _)]; [done|by left].
Qed.

Lemma pruned_root hi to nf o o' id : hist_ok o nf hi -> pruned hi to o o' -> id <= root -> o' !! id = o !! id.
Proof. intros Hh Hp Hid. destruct (Hp id) as [E|(_ & [[nxt rec] E] & _)]; [done|]. apply Hh in E. lia. Qed.

Lemma log_ok_pruned o o' nx a to : log_ok o nx a -> to <= nxt_of (on_flash a) (al_nf a) -> pruned (al_hist a) to o o' -> log_ok o' nx a.
Proof.
  intros [Hi Hf Hh Hc Hb (r & Er & Hr)] Hto Hp. split; try done.
  - by apply (pruned_none (al_hist a) to o).
  - by apply (hist_ok_pruned _ to _ o).
  - rewrite list.Forall_forall in *. intros e He. pose proof (chain_ge _ _ _ _ e Hh Hc He). specialize (Hb e He). destruct (Hp e.1) as [->|(_ & _ & ?)]; [done|lia].
  - exists r. rewrite (pruned_root (al_hist a) to (al_nf a) o) by (done || lia). split; [done|]. unfold root_ok in *. destruct Hr as (? & ? & ? & ? & ? & ? & ? & He). split_and!; try done.
    destruct He as [?|(Hpr & ? & ? & ?)]; [by left|right]. split_and!; try done; [|lia..]. by apply (promised_pruned _ to o).
Qed.

Lemma run_collect_spec n d nx o nf hi to k cur : holds n nx o d -> hist_ok o nf hi -> nf < nx -> promised hi o cur -> BLOB_ROOT < root < cur -> cur <= to -> to <= nf -> next_le hi to ->
  wp (run_collect k cur to) d (fun r d' => holds n nx o d' /\ exists ids, r = Ok ids /\ Forall (fun id => is_Some (hi !! id) /\ id < to) ids).
Proof.
  intros Hh Hhi Hnf. revert d cur Hh. induction k as [|k IH]; intros d cur Hh Hp Hr Hle Hto Hn; cbn [run_collect]; [apply wp_ret; by eauto|].
  destruct (Z.eqb_spec cur to) as [|Hne]; [apply wp_ret; by eauto|]. pose proof (proj1 (holds_wf _ _ _ _ Hh)) as Hnx. unfold BLOB_ROOT in Hr. do 2 wp_step.
  assert (0 <= cur < 2 ^ 64) as Hcur by lia.
  assert (o !! cur = None \/ exists nxt rec, hi !! cur = Some (nxt, rec) /\ o !! cur = Some (ent_bytes nxt rec)) as [E|(nxt & rec & E & Eo)].
  { destruct Hp as [[[nxt rec] E]|?]; [|by left]. pose proof (Hhi _ _ _ E) as (_ & _ & _ & [?|?] & _); [by left|right; eauto]. }
  - wp_use (entry_read_unbound n d nx o cur None Hh E Hcur). intros r d' [Hh' [->|(e & _ & ->)]]; apply wp_ret; by eauto.
  - destruct (Hhi _ _ _ E) as (? & ? & Hfit & _ & Hpn & _). pose proof (Hn _ _ _ E ltac:(lia)).
    wp_use (entry_read_bound n d nx o cur nxt rec None Hh Eo ltac:(lia) Hfit). intros r d' [Hh' Hr']. unfold entry_reply in Hr'.
    destruct Hr' as [->|(e & _ & ->)]; [|apply wp_ret; by eauto]. wp_step. wp_use (IH d' nxt Hh'); try done; try (unfold BLOB_ROOT; lia).
    intros r d'' (Hh'' & ids & -> & Hids). apply wp_ret. split; [done|]. exists (cur :: ids). split; [done|]. constructor; [|done]. split; [by eexists|lia].
Qed.

Lemma delete_each_spec n d nx o nf hi to ids : holds n nx o d -> hist_ok o nf hi -> nf < nx -> BLOB_ROOT < root ->
  Forall (fun id => is_Some (hi !! id) /\ id < to) ids ->
  wp (delete_each ids) d (fun r d' => r = Ok tt /\ exists o', holds n nx o' d' /\ pruned hi to o o').
Proof.
  intros Hh Hhi Hnf Hr Hids. revert d o Hh Hhi. induction Hids as [|id ids [[[nxt rec] E] Hlt] _ IH]; intros d o Hh Hhi; cbn [delete_each].
  { apply wp_ret. split; [done|]. exists o. split; [done|apply pruned_refl]. }
  pose proof (proj1 (holds_wf _ _ _ _ Hh)). destruct (Hhi _ _ _ E) as (? & ? & _). unfold BLOB_ROOT in *. do 2 wp_step.
  assert (pruned hi to o (delete id o)) as Hpd.
  { intros id'. destruct (decide (id' = id)) as [->|]; [right|left; by rewrite lookup_delete_ne]. rewrite lookup_delete_eq. split_and!; [done|by eexists|done]. }
  assert (forall d' o', holds n nx o' d' -> pruned hi to o o' -> wp (delete_each ids) d' (fun r d' => r = Ok tt /\ exists o', holds n nx o' d' /\ pruned hi to o o')) as Hrest.
  { intros d' o' Hh' Hp. wp_use (IH d' o' Hh'); [by apply (hist_ok_pruned hi to nf o)|]. intros r d'' (-> & o'' & ? & Hp'). split; [done|]. exists o''. split; [done|]. by eapply pruned_trans. }
  wp_use (delete_law n d nx o id Hh); [lia|unfold BLOB_ROOT; lia|]. intros r d' Hd. destruct (o !! id).
  - destruct Hd as [[-> ?]|[(e & _ & -> & ?)|(e & ? & _)]]; [by apply (Hrest d' (delete id o))|apply (Hrest d' o); [done|apply pruned_refl]|done].
  - destruct Hd as [Hd [->|(e & _ & ->)]]; (apply (Hrest d' o); [done|apply pruned_refl]).
Qed.

(** A run is deleted without touching anything else; nothing is said when that
    fails. *)
Lemma run_delete_spec n d nx o nf hi from to : holds n nx o d -> hist_ok o nf hi -> nf < nx -> promised hi o from -> BLOB_ROOT < root < from -> from <= to -> to <= nf -> next_le hi to ->
  wp (run_delete CLOG_K from to) d (fun r d' => r = Ok tt /\ exists o', holds n nx o' d' /\ pruned hi to o o').
Proof.
  intros Hh Hhi Hnf Hp Hr Hle Hto Hn. unfold run_delete. wp_step. wp_use (run_collect_spec n d nx o nf hi to (Z.to_nat CLOG_K) from); try done.
  intros r d' (Hh' & ids & -> & Hids). apply (delete_each_spec n d' nx o nf hi to); try done; [lia|]. apply list.Forall_forall. rewrite list.Forall_forall in Hids.
  intros id Hid. by apply Hids, list.elem_of_reverse.
Qed.

(** *** Checkpoints *)

Lemma chain_obj o nf hi e q : hist_ok o nf hi -> chain hi (e :: q) nf -> is_Some (o !! e.1) -> o !! e.1 = Some (ent_bytes (nxt_of q nf) e.2).
Proof. intros Hh [E _] [b Eb]. destruct (Hh _ _ _ E) as (_ & _ & _ & [?|?] & _); [congruence|done]. Qed.

Lemma u32_add_l x y : u32 (u32 x + y) = u32 (x + y).
Proof. unfold u32. by rewrite Zplus_mod_idemp_l. Qed.

Lemma u32_range x : 0 <= u32 x < 2 ^ 32.
Proof. unfold u32. apply Z.mod_pos_bound. lia. Qed.

Lemma evict_walk_spec n d nx o nf h force q : holds n nx o d -> forall hi fuel c freed, hist_ok o nf hi -> 0 < root -> nf < nx -> chain hi q nf -> Forall (fun e => is_Some (o !! e.1)) q -> q <> [] ->
  lr_tail_id h = last_id q -> 0 <= freed < 2 ^ 32 ->
  wp (evict_walk fuel h force (nxt_of q 0) c freed) d (answer fault (holds n nx o)
    (let (t, r) := plan fuel force (lr_capacity_bytes h) (lr_live_bytes h) freed q in Ok (nxt_of r 0, c + len t, u32 (freed + total t)))).
Proof.
  intros Hh hi fuel. revert d Hh q. induction fuel as [|fuel IH]; intros d Hh q c freed Hhi Hr Hnf Hc Hb Hne Ht Hf.
  { apply wp_ret. split; [done|left]. cbn. rewrite !Z.add_0_r, u32_small by lia. done. }
  destruct q as [|e q]; [done|]. cbn [evict_walk nxt_of]. rewrite Ht, (head_tail o nf hi) by done. pose proof (chain_root o nf hi (e :: q) e Hhi Hc ltac:(left)) as He.
  destruct (Z.eqb_spec e.1 0); [lia|]. cbn [negb andb]. destruct q as [|e' q]; cbn [negb].
  { apply wp_ret. split; [done|left]. cbn. rewrite !Z.add_0_r, u32_small by lia. done. }
  set (q' := e' :: q) in *. inversion Hb as [|? ? Hbe Hbq]; subst. pose proof (chain_obj o nf hi e q' Hhi Hc Hbe) as Eo. destruct Hc as [E Hc].
  destruct (Hhi _ _ _ E) as (? & ? & Hfit & _). pose proof (proj1 (holds_wf _ _ _ _ Hh)) as Hnx. wp_step.
  wp_use (entry_read_bound n d nx o e.1 (nxt_of q' nf) e.2 None Hh Eo ltac:(lia) Hfit). intros r d' [Hh' [->|(x & Hx & ->)]]; [|split; [done|right; eauto]].
  cbn [entry_reply plan]. change (plan (S fuel) ?a ?b ?c ?d (e :: q')) with
    (let f := u32 (d + len e.2) in if negb a && (u32 (c - f) <=? b) then ([e], q') else let (t, r) := plan fuel a b c f q' in (e :: t, r)). cbv zeta.
  destruct (_ && _).
  - apply wp_ret. split; [done|left]. cbn [nxt_of total foldr q']. unfold len at 2. cbn. by rewrite Z.add_0_r.
  - wp_use (IH d' Hh' q' (c + 1) (u32 (freed + len e.2))); try done; [apply u32_range|]. intros r d'' [Hh'' Hr']. split; [done|].
    subst q'. cbv iota. destruct (plan fuel _ _ _ _ (e' :: q)) as [t rest]. rewrite len_cons, total_cons, u32_add_l in *. rewrite Z.add_assoc, (Z.add_assoc freed). done.
Qed.

Definition no_room (e : errno) : Prop := (e = ENOSPC /\ fills (D := D)) \/ fault (D := D) e.

Lemma root_write_spec n d nx o h from to : holds n nx o d -> 0 < lr_root h < nx -> clog_root_ok (root_of h from to) ->
  wp (root_write h from to) d (fun r d' => (r = Ok tt /\ holds n nx (<[lr_root h := enc_clog_root (root_of h from to)]> o) d') \/
    (exists x, no_room x /\ r = Err x /\ holds n nx o d')).
Proof.
  intros Hh Hr Hok. pose proof (proj1 (holds_wf _ _ _ _ Hh)). unfold root_write. wp_use (update_law n d nx o (lr_root h) (enc_clog_root (root_of h from to)) Hh ltac:(lia) ltac:(by apply bytes_ok_clog_root)).
  rewrite len_enc_clog_root by done. destruct (Z.eqb_spec (lr_root h) 0); [lia|]. destruct (Z.geb_spec (lr_root h) nx); [lia|].
  destruct (Z.gtb_spec CLOG_ROOT_LEN MAX_PAYLOAD); [lia|]. cbn [orb]. intros r d' [[-> ?]|[(e & ? & -> & ?)|(e & ? & _)]]; [by left|right; eauto|done].
Qed.

Lemma hist_ok_other o nf hi id b : hist_ok o nf hi -> id <= root -> hist_ok (<[id := b]> o) nf hi.
Proof.
  intros Hh Hid id' nxt rec E. destruct (Hh _ _ _ E) as (? & ? & ? & ? & Hp & ?). rewrite lookup_insert_ne by lia. split_and!; try done; try lia.
  unfold promised in *. by rewrite lookup_insert_ne by lia.
Qed.

(** A log whose root was rewritten. *)
Lemma log_ok_put o nx a r : BLOB_ROOT < root < al_nf a /\ al_nf a < nx -> o !! al_nf a = None -> hist_ok o (al_nf a) (al_hist a) -> chain (al_hist a) (on_flash a) (al_nf a) ->
  Forall (fun e => is_Some (o !! e.1)) (on_flash a) -> root_ok o a r -> log_ok (<[root := enc_clog_root r]> o) nx a.
Proof.
  intros Hi Hf Hh Hc Hb Hr. split; try done.
  - rewrite lookup_insert_ne by lia. done.
  - by apply hist_ok_other.
  - rewrite list.Forall_forall in *. intros e He. pose proof (chain_root _ _ _ _ e Hh Hc He). rewrite lookup_insert_ne by lia. by apply Hb.
  - exists r. rewrite lookup_insert_eq. split; [done|]. unfold root_ok in *. destruct Hr as (? & ? & ? & ? & ? & ? & ? & He). split_and!; try done.
    destruct He as [?|(Hp & ? & ? & ?)]; [by left|right]. split_and!; try done; [|lia..]. unfold promised in *. by rewrite lookup_insert_ne by lia.
Qed.

Lemma log_ok_rooted o nx a a' r : log_ok o nx a -> al_nf a' = al_nf a -> al_hist a' = al_hist a -> chain (al_hist a) (on_flash a') (al_nf a) ->
  Forall (fun e => is_Some (o !! e.1)) (on_flash a') -> root_ok o a' r -> log_ok (<[root := enc_clog_root r]> o) nx a'.
Proof. intros [Hi Hf Hh Hc Hb _] En Eh Hc' Hb' Hr. apply log_ok_put; rewrite ?En, ?Eh; done. Qed.

Definition want (force : bool) a : bool := force || (u32 (total (al_q a)) >? cap).
Definition cut (force : bool) a : list entry * list entry :=
  if want force a then plan (Z.to_nat CLOG_K) force cap (u32 (total (al_q a))) 0 (al_q a) else ([], al_q a).

(** What a checkpoint answers, and the log it leaves. *)
Inductive ckpt (force : bool) a : res unit -> alog -> Prop :=
  | ck_done : ckpt force a (Ok tt) (mk_alog [] (cut force a).2 (al_nf a) 0 (al_hist a))
  | ck_read x : want force a = true -> fault (D := D) x -> ckpt force a (Err x) a
  | ck_write x : no_room x -> ckpt force a (Err x) (mk_alog (al_pre a ++ (cut force a).1) (cut force a).2 (al_nf a) (al_since a) (al_hist a)).

(** Objects that are not the log's. *)
Definition kept o o' : Prop := forall id, id < root -> o' !! id = o !! id.

Lemma log_kept_refl o : kept o o.
Proof. done. Qed.

Lemma log_kept_trans o1 o2 o3 : kept o1 o2 -> kept o2 o3 -> kept o1 o3.
Proof. intros H1 H2 id Hid. by rewrite H2, H1. Qed.

Lemma kept_put o id b : root <= id -> kept o (<[id := b]> o).
Proof. intros Hid id' H. by rewrite lookup_insert_ne by lia. Qed.

Lemma kept_pruned o o' nf hi to : hist_ok o nf hi -> pruned hi to o o' -> kept o o'.
Proof. intros Hh Hp id Hid. apply (pruned_root hi to nf); [done..|lia]. Qed.

(** What a checkpoint does to the objects: it binds none. *)
Definition tidied o o' : Prop := kept o o' /\ forall id, o !! id = None -> o' !! id = None.

Lemma tidied_refl o : tidied o o.
Proof. done. Qed.

Lemma tidied_trans o1 o2 o3 : tidied o1 o2 -> tidied o2 o3 -> tidied o1 o3.
Proof. intros [H1 H1'] [H2 H2']. split; [by eapply log_kept_trans|auto]. Qed.

Lemma tidied_put o id b : root <= id -> is_Some (o !! id) -> tidied o (<[id := b]> o).
Proof. intros Hid [b' E]. split; [by apply kept_put|]. intros id' E'. rewrite lookup_insert_ne; [done|]. intros ->. congruence. Qed.

Lemma tidied_pruned o o' nf hi to : hist_ok o nf hi -> pruned hi to o o' -> tidied o o'.
Proof. intros Hh Hp. split; [by eapply kept_pruned|]. intros id. by apply (pruned_none hi to). Qed.

Lemma cut_split force a : al_q a = (cut force a).1 ++ (cut force a).2 /\ (al_q a <> [] -> (cut force a).2 <> []).
Proof. unfold cut. destruct (want force a); [|done]. pose proof (plan_split (Z.to_nat CLOG_K) force cap (u32 (total (al_q a))) 0 (al_q a)). by destruct (plan _ _ _ _ _ _). Qed.

(** The log is what the store has of it: its counters and the split do not matter. *)
Lemma log_ok_same o nx a a' : log_ok o nx a -> on_flash a' = on_flash a -> al_nf a' = al_nf a -> al_hist a' = al_hist a -> log_ok o nx a'.
Proof.
  intros [Hi Hf Hh Hc Hb (r & Er & Hr)] Ef En Eh. split; rewrite ?Ef, ?En, ?Eh; try done. exists r. split; [done|]. unfold root_ok, way_ok, evict_ok in *. by rewrite ?Ef, ?En, ?Eh.
Qed.

Lemma list_last_split q : q <> [] -> exists q' e, q = q' ++ [e].
Proof. intros Hq. destruct (list.last q) as [e|] eqn:E; [|by apply list.last_None in E]. apply list.last_Some in E as [q' ->]. by exists q', e. Qed.

Lemma root_of_ok o nx a pre rest since from to : log_ok o nx a -> on_flash a = pre ++ rest -> 0 <= from < 2 ^ 64 -> 0 <= to < 2 ^ 64 -> nx < 2 ^ 64 ->
  clog_root_ok (root_of (handle_of (mk_alog pre rest (al_nf a) since (al_hist a))) from to).
Proof.
  intros Hl Ef Hfr Hto Hnx. pose proof (lo_ids _ _ _ Hl) as Hi. pose proof (u32_range (total rest)). pose proof (u32_range (len rest)).
  pose proof (lo_chain _ _ _ Hl) as Hc. rewrite Ef, chain_app in Hc. destruct Hc as [_ Hc]. pose proof (lo_hist _ _ _ Hl) as Hh. unfold BLOB_ROOT in Hi.
  assert (0 <= last_id rest < 2 ^ 64 /\ 0 <= nxt_of rest 0 < 2 ^ 64) as [? ?].
  { assert (forall e, e ∈ rest -> 0 <= e.1 < 2 ^ 64) as Hin.
    { intros e He. pose proof (chain_ge _ _ _ _ e Hh Hc He). pose proof (chain_root _ _ _ _ e Hh Hc He). lia. }
    split; [|destruct rest; [done|apply Hin; left]]. unfold last_id. destruct (list.last rest) eqn:E; [|lia]. apply Hin. by apply list.last_Some_elem_of. }
  unfold clog_root_ok, root_of, handle_of. cbn [lr_root lr_tail_id lr_next_free lr_head_id lr_epoch lr_capacity_bytes lr_live_bytes lr_count al_q al_nf cr_magic cr_version cr_flags cr_rsvd cr_epoch cr_capacity_bytes cr_live_bytes cr_count cr_waypoint_id cr_head_id cr_evict_from cr_evict_to].
  split_and!; try done; try lia; try (unfold CLOG_MAGIC, bytes_ok; repeat constructor; unfold byte_ok; lia); destruct (_ =? 0); lia.
Qed.

Lemma u32_sub_r x y : u32 (x - u32 y) = u32 (x - y).
Proof. unfold u32. by rewrite Zminus_mod_idemp_r. Qed.

Lemma u32_sub_l x y : u32 (u32 x - y) = u32 (x - y).
Proof. unfold u32. by rewrite Zminus_mod_idemp_l. Qed.

Lemma last_id_app p q : q <> [] -> last_id (p ++ q) = last_id q.
Proof. intros Hq. destruct (list_last_split q Hq) as (q' & e & ->). by rewrite app_assoc, !last_id_snoc. Qed.

Lemma handle_evicted a pre t rest : al_q a = t ++ rest -> rest <> [] ->
  evicted (handle_of a) (nxt_of rest 0) (len t) (u32 (total t)) = handle_of (mk_alog pre rest (al_nf a) (al_since a) (al_hist a)).
Proof.
  intros Eq Hr. unfold evicted, handle_of. cbn [lr_root lr_tail_id lr_next_free lr_head_id lr_epoch lr_capacity_bytes lr_live_bytes lr_count lr_since_ckpt al_q al_nf al_since].
  rewrite Eq, last_id_app by done. rewrite u32_sub_r, !u32_sub_l, total_app, len_app. f_equal; f_equal; lia.
Qed.

(** The intent a checkpoint records. *)
Definition run_from (t : list entry) : Z := nxt_of t 0.
Definition run_to (t rest : list entry) : Z := match t with [] => 0 | _ => nxt_of rest 0 end.

Lemma nxt_of_any q x y : q <> [] -> nxt_of q x = nxt_of q y.
Proof. by destruct q. Qed.

Lemma ckpt_evict_ok o nx a pre t rest since : log_ok o nx a -> on_flash a = pre ++ t ++ rest -> rest <> [] -> t <> [] ->
  promised (al_hist a) o (run_from t) /\ root < run_from t <= run_to t rest /\ next_le (al_hist a) (run_to t rest) /\
  run_to t rest <= nxt_of (on_flash (mk_alog [] rest (al_nf a) since (al_hist a))) (al_nf a).
Proof.
  intros [Hi _ Hh Hc Hb _] Ef Hr Ht. rewrite Ef, chain_app in Hc. destruct Hc as (_ & Hc). destruct t as [|e t]; [done|]. destruct rest as [|e' rest]; [done|].
  unfold on_flash. cbn [run_from run_to nxt_of al_pre al_q app] in *. set (q := e :: t ++ e' :: rest) in *. assert (e ∈ q) as He by left. assert (e' ∈ q) as He' by (apply (elem_of_app (e :: t)); right; left).
  destruct (chain_in _ _ _ _ Hc He) as [nxt E]. destruct (chain_in _ _ _ _ Hc He') as [nxt' E']. pose proof (chain_ge _ _ _ _ e' Hh Hc He') as Hg. cbn [nxt_of q] in Hg. split_and!.
  - left. by eexists.
  - by eapply chain_root.
  - lia.
  - by apply (Hh _ _ _ E').
  - lia.
Qed.

Lemma ckpt_root_ok o nx a pre t rest since : log_ok o nx a -> on_flash a = pre ++ t ++ rest -> rest <> [] ->
  root_ok o (mk_alog [] rest (al_nf a) since (al_hist a)) (root_of (handle_of (mk_alog [] rest (al_nf a) since (al_hist a))) (run_from t) (run_to t rest)).
Proof.
  intros Hl Ef Hr. unfold root_ok. split_and!; try done.
  - right. destruct (list_last_split rest Hr) as (q' & e & ->). exists q', e, []. unfold on_flash. cbn. rewrite last_id_snoc.
    assert (root < e.1) as He.
    { eapply (chain_root o (al_nf a) (al_hist a)); [apply Hl|apply Hl|]. rewrite Ef, !elem_of_app. do 3 right. by left. }
    pose proof (lo_ids _ _ _ Hl) as Hi. unfold BLOB_ROOT in Hi. destruct (Z.eqb_spec e.1 0); [lia|]. done.
  - destruct t as [|e t]; [by left|right]. pose proof (ckpt_evict_ok o nx a pre (e :: t) rest since Hl Ef Hr ltac:(done)) as (? & ? & ? & ?).
    split_and!; try done; cbn [root_of cr_evict_from cr_evict_to]; lia.
Qed.

Lemma wp_on_store {A} (m : M D A) s (Q : res A -> lrs -> Prop) : wp m (lr_dev s) (fun r d => Q r (mk_lrs d (lr_h s))) -> wp (on_store m) s Q.
Proof. unfold wp, on_store. by destruct (m (lr_dev s)). Qed.

(** The state of a call: the store holds a log and the handle is its handle. *)
Definition lg_holds (n : nat) nx o a s : Prop := holds n nx o (lr_dev s) /\ log_ok o nx a /\ lr_h s = handle_of a.

(** The commit of a checkpoint and what follows it, the run [t] being evicted. *)
Definition ckpt_commit (h : logring_t) (from to : Z) (evict : bool) : M lrs unit :=
  mmod (set_h h);;;
  on_store (root_write h from to);;;
  (if evict then on_store (run_delete CLOG_K from to) else mret tt);;;
  mmod (fun s => set_h (set_since 0 (lr_h s)) s).

Lemma run_range o nx a pre t rest : log_ok o nx a -> on_flash a = pre ++ t ++ rest -> rest <> [] -> nx < 2 ^ 64 -> 0 <= run_from t < 2 ^ 64 /\ 0 <= run_to t rest < 2 ^ 64.
Proof.
  intros Hl Ef Hr Hnx. assert (t = [] \/ t <> []) as [->|Ht] by (destruct t; [by left|by right]); [done|].
  pose proof (ckpt_evict_ok o nx a pre t rest 0 Hl Ef Hr Ht) as (_ & ? & _ & Hle). pose proof (lo_ids _ _ _ Hl) as Hi. unfold BLOB_ROOT in Hi.
  pose proof (lo_chain _ _ _ Hl) as Hc. rewrite Ef, !chain_app in Hc. pose proof (nxt_of_le o (al_nf a) (al_hist a) rest (lo_hist _ _ _ Hl) (proj2 (proj2 Hc))).
  unfold on_flash in Hle. cbn [al_pre al_q app] in Hle. lia.
Qed.

Lemma ckpt_commit_spec n nx o a pre t rest s h : holds n nx o (lr_dev s) -> log_ok o nx a -> on_flash a = pre ++ t ++ rest -> rest <> [] ->
  h = handle_of (mk_alog (pre ++ t) rest (al_nf a) (al_since a) (al_hist a)) ->
  wp (ckpt_commit h (run_from t) (run_to t rest) (match t with [] => false | _ => true end)) s (fun r s' => exists o', tidied o o' /\
    ((r = Ok tt /\ lg_holds n nx o' (mk_alog [] rest (al_nf a) 0 (al_hist a)) s') \/
     (exists x, no_room x /\ r = Err x /\ lg_holds n nx o' (mk_alog (pre ++ t) rest (al_nf a) (al_since a) (al_hist a)) s'))).
Proof.
  intros Hh Hl Ef Hr ->. set (a' := mk_alog (pre ++ t) rest _ _ _). set (a1 := mk_alog [] rest (al_nf a) 0 (al_hist a)). pose proof (lo_ids _ _ _ Hl) as Hi. unfold BLOB_ROOT in Hi.
  pose proof (proj1 (holds_wf _ _ _ _ Hh)) as Hnx. pose proof (lo_hist _ _ _ Hl) as Hhi. unfold ckpt_commit. wp_step. apply wp_mod. wp_step. apply wp_on_store.
  assert (t = [] \/ t <> []) as Ht by (destruct t; [by left|by right]).
  assert (clog_root_ok (root_of (handle_of a') (run_from t) (run_to t rest))) as Hok.
  { apply (root_of_ok o nx); [done| |..|lia]; [unfold on_flash in *; by rewrite Ef, <- app_assoc|..].
    - apply (run_range o nx a pre t rest); done || lia.
    - apply (run_range o nx a pre t rest); done || lia. }
  wp_use (root_write_spec n (lr_dev s) nx o (handle_of a') (run_from t) (run_to t rest)); [done|cbn; lia|done|]. cbn [handle_of lr_root]. intros r d' [[-> Hh']|(x & Hx & -> & Hh')].
  2: { exists o. split; [done|]. right. exists x. split_and!; try done. split; [done|]. split; [|done]. apply (log_ok_same o nx a); try done. unfold on_flash, a' in *. cbn. by rewrite Ef, <- app_assoc. }
  set (o1 := <[root := _]> o) in *. assert (log_ok o1 nx a1) as Hl1.
  { unfold o1. apply (log_ok_rooted o nx a); try done.
    - pose proof (lo_chain _ _ _ Hl) as Hc. rewrite Ef, !chain_app in Hc. apply Hc.
    - pose proof (lo_bound _ _ _ Hl) as Hb. rewrite Ef, !list.Forall_app in Hb. apply Hb.
    - by apply (ckpt_root_ok o nx a pre t rest 0). }
  assert (tidied o o1) as Hk1 by (destruct (lo_root _ _ _ Hl) as (r & Er & _); apply tidied_put; [lia|by eexists]). wp_step. destruct Ht as [->|Ht].
  { wp_step. apply wp_mod. exists o1. split; [done|]. left. split; [done|]. by split_and!. }
  pose proof (ckpt_evict_ok o nx a pre t rest 0 Hl Ef Hr Ht) as (Hp & Hft & Hn & Hle). replace (match t with [] => false | _ => true end) with true by by destruct t.
  pose proof (nxt_of_le o1 _ _ _ (lo_hist _ _ _ Hl1) (lo_chain _ _ _ Hl1)) as Hnf. cbn [a1 al_nf] in Hnf. fold a1 in Hle. apply wp_on_store.
  wp_use (run_delete_spec n d' nx o1 (al_nf a) (al_hist a) (run_from t) (run_to t rest) Hh'); try done; try lia.
  - apply (lo_hist _ _ _ Hl1).
  - unfold o1, promised in *. by rewrite lookup_insert_ne by lia.
  - unfold BLOB_ROOT. lia.
  - intros r d2 (-> & o2 & Hh2 & Hpr). wp_step. exists o2. split; [eapply tidied_trans; [done|by apply (tidied_pruned o1 o2 (al_nf a) (al_hist a) (run_to t rest)); [apply (lo_hist _ _ _ Hl1)|]]|]. left. split; [done|]. split; [done|]. split; [|done].
    by apply (log_ok_pruned o1 o2 nx a1 (run_to t rest)).
Qed.

Lemma checkpoint_spec force n nx o a s : lg_holds n nx o a s -> al_q a <> [] ->
  wp (checkpoint CLOG_K force) s (fun r s' => exists o' a', tidied o o' /\ lg_holds n nx o' a' s' /\ ckpt force a r a').
Proof.
  intros (Hh & Hl & Ehd) Hq. pose proof (lo_ids _ _ _ Hl) as Hi. unfold BLOB_ROOT in Hi. pose proof (lo_hist _ _ _ Hl) as Hhi. pose proof (lo_chain _ _ _ Hl) as Hc.
  unfold on_flash in Hc. rewrite chain_app in Hc. destruct Hc as [_ Hc]. pose proof (lo_bound _ _ _ Hl) as Hb. unfold on_flash in Hb. rewrite list.Forall_app in Hb. destruct Hb as [_ Hb].
  assert (nxt_of (al_q a) 0 <> 0) as Hhead.
  { destruct (al_q a) as [|e q] eqn:E; [done|]. pose proof (chain_root _ _ _ _ e Hhi Hc ltac:(left)). cbn [nxt_of]. lia. }
  unfold checkpoint. wp_step. apply wp_gets. rewrite Ehd. cbn [handle_of lr_live_bytes lr_capacity_bytes lr_head_id]. change (u32 (total (al_q a)) >? cap) with (want false a).
  replace (force || want false a) with (want force a) by (unfold want; by destruct force). replace (want force a && _) with (want force a) by (destruct (Z.eqb_spec (nxt_of (al_q a) 0) 0); [done|by rewrite andb_true_r]).
  assert (forall t rest d, cut force a = (t, rest) -> holds n nx o d -> wp (ckpt_commit (match t with [] => handle_of a | _ => evicted (handle_of a) (nxt_of rest 0) (len t) (u32 (total t)) end)
      (run_from t) (run_to t rest) (match t with [] => false | _ => true end)) (mk_lrs d (lr_h s)) (fun r s' => exists o' a', tidied o o' /\ lg_holds n nx o' a' s' /\ ckpt force a r a')) as Hcommit.
  { intros t rest d Ec Hd. pose proof (cut_split force a) as Hs. rewrite Ec in Hs. cbn [fst snd] in Hs. destruct Hs as [Eq Hr]. specialize (Hr Hq).
    wp_use (ckpt_commit_spec n nx o a (al_pre a) t rest (mk_lrs d (lr_h s))); [done|done|unfold on_flash; by rewrite Eq|done| |].
    - rewrite <- (handle_evicted a (al_pre a ++ t) t rest Eq Hr). destruct t; [|done]. rewrite (handle_evicted a (al_pre a) [] rest Eq Hr). by destruct a; cbn in *; subst.
    - intros r s' (o' & Hk' & [[-> ?]|(x & ? & -> & ?)]); exists o'; eexists; (split; [done|]); split; [done| |done|].
      + pose proof (ck_done force a) as Hck. by rewrite Ec in Hck.
      + pose proof (ck_write force a x) as Hck. rewrite Ec in Hck. by apply Hck. }
  wp_step. destruct (want force a) eqn:Ew.
  - apply wp_on_store. wp_use (evict_walk_spec n (lr_dev s) nx o (al_nf a) (handle_of a) force (al_q a) Hh (al_hist a)); try done; [lia|lia|]. intros r d' [Hh' Hr].
    cbn [handle_of lr_capacity_bytes lr_live_bytes] in Hr. assert (plan (Z.to_nat CLOG_K) force cap (u32 (total (al_q a))) 0 (al_q a) = cut force a) as Ep by (unfold cut; by rewrite Ew).
    rewrite Ep in Hr. destruct (cut force a) as [t rest] eqn:Ec. destruct Hr as [->|(x & Hx & ->)].
    + rewrite !Z.add_0_l. specialize (Hcommit t rest d' eq_refl Hh'). destruct t as [|e t]; [exact Hcommit|]. rewrite len_cons. pose proof (len_nonneg t).
      destruct (Z.gtb_spec (1 + len t) 0); [|lia]. pose proof (cut_split force a) as [Eq _]. rewrite Ec in Eq. cbn [fst] in Eq. rewrite Eq. rewrite <- (len_cons e). exact Hcommit.
    + exists o, a. split; [done|]. split; [done|]. by apply ck_read.
  - assert (cut force a = ([], al_q a)) as Ec by (unfold cut; by rewrite Ew). apply wp_ret. specialize (Hcommit [] (al_q a) (lr_dev s) Ec Hh). destruct s. exact Hcommit.
Qed.

(** *** Append *)

Lemma log_ok_next o nx nx' a : log_ok o nx a -> nx <= nx' -> log_ok o nx' a.
Proof. intros [[? ?] ? ? ? ? ?] Hn. split; try done. lia. Qed.

(** The log with one more entry. *)
Definition added a (r2 : Z) (rec : bytes) : alog :=
  mk_alog (al_pre a) (al_q a ++ [(al_nf a, rec)]) r2 (u32 (al_since a + 1)) (<[al_nf a := (r2, rec)]> (al_hist a)).

Lemma on_flash_added a r2 rec : on_flash (added a r2 rec) = on_flash a ++ [(al_nf a, rec)].
Proof. unfold on_flash, added. cbn. by rewrite app_assoc. Qed.

Lemma hist_ok_added o nf hi r2 rec : hist_ok o nf hi -> root < nf < r2 -> o !! r2 = None -> entry_fits rec ->
  hist_ok (<[nf := ent_bytes r2 rec]> o) r2 (<[nf := (r2, rec)]> hi).
Proof.
  intros Hh Hr Ef Hfit. assert (forall id, is_Some (hi !! id) -> id < nf) as Hlt by (intros id [[n b] E]; apply Hh in E; lia).
  assert (forall id, id <= nf -> next_le hi id -> next_le (<[nf := (r2, rec)]> hi) id) as Hnl.
  { intros id Hid Hn id' n' b' E' Hl. apply lookup_insert_Some in E' as [[<- _]|[_ E']]; [lia|by apply (Hn id' n' b')]. }
  intros id nxt b E. apply lookup_insert_Some in E as [[<- [= <- <-]]|[Hne E]].
  - split_and!; try done; try lia.
    + right. by rewrite lookup_insert_eq.
    + right. by rewrite lookup_insert_ne by lia.
    + apply Hnl; [lia|]. intros id' n' b' E' Hl. by apply Hh in E' as (_ & ? & _).
  - destruct (Hh _ _ _ E) as (? & ? & ? & Hb & Hp & Hn). split_and!; try done; try lia.
    + rewrite lookup_insert_ne by lia. done.
    + destruct (decide (nxt = nf)) as [->|]; [left; rewrite lookup_insert_eq; by eexists|]. unfold promised in *. by rewrite !lookup_insert_ne by done.
    + apply Hnl; [lia|done].
Qed.

Lemma log_ok_added o nx a r2 rec : log_ok o nx a -> al_nf a < r2 < nx -> o !! r2 = None -> entry_fits rec ->
  log_ok (<[al_nf a := ent_bytes r2 rec]> o) nx (added a r2 rec).
Proof.
  intros [Hi Hf Hh Hc Hb (r & Er & Hr)] Hr2 Ef Hfit. assert (forall e, e ∈ on_flash a -> e.1 < al_nf a) as Hlt by (intros e He; pose proof (chain_ge _ _ _ _ e Hh Hc He); lia).
  split; rewrite ?on_flash_added; cbn [added al_nf al_hist].
  - lia.
  - rewrite lookup_insert_ne by lia. done.
  - apply hist_ok_added; try done. lia.
  - rewrite chain_app. cbn [nxt_of chain fst snd]. rewrite lookup_insert_eq. split; [|done]. eapply chain_weaken; [exact Hc|]. intros e nxt He E. specialize (Hlt e He). by rewrite lookup_insert_ne by lia.
  - rewrite list.Forall_app. split; [|apply Forall_singleton; rewrite lookup_insert_eq; by eexists]. rewrite list.Forall_forall in *. intros e He. specialize (Hlt e He). rewrite lookup_insert_ne by lia. by apply Hb.
  - exists r. rewrite lookup_insert_ne by lia. split; [done|]. destruct Hr as (? & ? & ? & ? & ? & ? & Hw & He). unfold root_ok. split_and!; try done.
    + unfold way_ok in *. rewrite on_flash_added. cbn [added al_nf]. rewrite !nxt_of_app. cbn [nxt_of fst]. destruct Hw as [?|(x1 & x & x2 & E & ? & ? & ? & ?)]; [by left|right].
      exists x1, x, (x2 ++ [(al_nf a, rec)]). rewrite E, <- app_assoc. split_and!; try done. cbn [app]. by destruct x1; rewrite E in *.
    + unfold evict_ok in *. rewrite on_flash_added. cbn [added al_nf al_hist]. rewrite nxt_of_app. cbn [nxt_of fst]. destruct He as [?|(Hp & ? & Hle & Hn)]; [by left|right].
      pose proof (nxt_of_le _ _ _ _ Hh Hc). split_and!; try done; [|lia|lia|].
      * unfold promised in *. destruct (decide (cr_evict_from r = al_nf a)) as [->|]; [left; rewrite lookup_insert_eq; by eexists|]. by rewrite !lookup_insert_ne by done.
      * intros id n b E Hid. apply lookup_insert_Some in E as [[<- _]|[_ E]]; [lia|by apply (Hn id n b)].
Qed.

Lemma handle_added o nx a r2 rec : log_ok o nx a -> after_append (al_nf a) r2 (len rec) (handle_of a) = handle_of (added a r2 rec).
Proof.
  intros Hl. pose proof (lo_ids _ _ _ Hl) as Hi. unfold BLOB_ROOT in Hi. unfold after_append, handle_of, added.
  cbn [lr_root lr_tail_id lr_next_free lr_head_id lr_epoch lr_capacity_bytes lr_live_bytes lr_count lr_since_ckpt al_q al_nf al_since].
  rewrite last_id_snoc, !u32_add_l, total_app, len_app, nxt_of_app. cbn [fst nxt_of]. rewrite total_cons. cbn [snd]. change (total []) with 0. rewrite Z.add_0_r. f_equal.
  destruct (al_q a) as [|e q] eqn:E; [done|]. cbn [nxt_of]. pose proof (lo_chain _ _ _ Hl) as Hc. unfold on_flash in Hc. rewrite E, chain_app in Hc. destruct Hc as [_ Hc].
  destruct (list_last_split (e :: q) ltac:(done)) as (q' & e' & Eq). rewrite Eq, last_id_snoc in *. pose proof (chain_root _ _ _ _ e' (lo_hist _ _ _ Hl) Hc ltac:(apply elem_of_app; right; left)).
  destruct (Z.eqb_spec e'.1 0); [lia|done].
Qed.

(** Forced checkpoints, while there is more than one entry. *)
Inductive squeeze (why : Prop) a : alog -> Prop :=
  | sq_none : squeeze why a a
  | sq_more a1 a2 : squeeze why a a1 -> why -> (2 <= length (al_q a1))%nat -> ckpt true a1 (Ok tt) a2 -> squeeze why a a2.

Definition due a : bool := (match al_q a with [] => true | _ => false end) || (u32 (al_since a + 1) >=? CLOG_K).

(** What an append answers, and the log it leaves. *)
Inductive appends (rec : bytes) a : res Z -> alog -> Prop :=
  | ap_size : CLOG_MAX_RECORD (D := D) < len rec -> appends rec a (Err EMSGSIZE) a
  | ap_id x : fault (D := D) x -> appends rec a (Err EIO) a
  | ap_fault x a1 : squeeze (fills (D := D)) a a1 -> fault (D := D) x -> appends rec a (Err x) a1
  | ap_full a1 : squeeze (fills (D := D)) a a1 -> fills (D := D) -> (length (al_q a1) <= 1)%nat -> appends rec a (Err ENOSPC) a1
  | ap_stuck a1 x a2 : squeeze (fills (D := D)) a a1 -> fills (D := D) -> (2 <= length (al_q a1))%nat -> ckpt true a1 (Err x) a2 -> appends rec a (Err x) a2
  | ap_done a1 r2 a2 : squeeze (fills (D := D)) a a1 -> al_nf a < r2 ->
      (if due a1 then exists rc, ckpt false (added a1 r2 rec) rc a2 else a2 = added a1 r2 rec) -> appends rec a (Ok (al_nf a)) a2.

Lemma ckpt_nf force a r a' : ckpt force a r a' -> al_nf a' = al_nf a.
Proof. by destruct 1. Qed.

Lemma squeeze_nf why a a' : squeeze why a a' -> al_nf a' = al_nf a.
Proof. induction 1 as [|a1 a2 _ IH _ _ Hc]; [done|]. by rewrite (ckpt_nf _ _ _ _ Hc). Qed.

(** The test of the code: is there more than one entry? *)
Lemma shrinkable o nx a : log_ok o nx a ->
  (negb (lr_head_id (handle_of a) =? 0) && negb (lr_head_id (handle_of a) =? lr_tail_id (handle_of a))) = bool_decide (2 <= length (al_q a))%nat.
Proof.
  intros Hl. cbn [handle_of lr_head_id lr_tail_id]. pose proof (lo_ids _ _ _ Hl) as Hi. unfold BLOB_ROOT in Hi. pose proof (lo_chain _ _ _ Hl) as Hc. unfold on_flash in Hc. rewrite chain_app in Hc. destruct Hc as [_ Hc].
  destruct (al_q a) as [|e q] eqn:E; [done|]. cbn [nxt_of]. pose proof (chain_root _ _ _ _ e (lo_hist _ _ _ Hl) Hc ltac:(left)). destruct (Z.eqb_spec e.1 0); [lia|].
  rewrite (head_tail o (al_nf a) (al_hist a) e q) by (done || apply Hl). by destruct q.
Qed.

(** What bounds the loops that shrink the log. *)
Definition span (h : logring_t) : Z := lr_next_free h - lr_head_id h.

Lemma span_bounds o nx a : log_ok o nx a -> al_q a <> [] -> 0 <= span (handle_of a) < al_nf a.
Proof.
  intros Hl Hq. pose proof (lo_ids _ _ _ Hl) as Hi. unfold BLOB_ROOT in Hi. pose proof (lo_chain _ _ _ Hl) as Hc. unfold on_flash in Hc. rewrite chain_app in Hc. destruct Hc as [_ Hc].
  unfold span. cbn [handle_of lr_next_free lr_head_id]. destruct (al_q a) as [|e q] eqn:E; [done|]. cbn [nxt_of].
  pose proof (chain_ge _ _ _ _ e (lo_hist _ _ _ Hl) Hc ltac:(left)). pose proof (chain_root _ _ _ _ e (lo_hist _ _ _ Hl) Hc ltac:(left)). lia.
Qed.

Lemma span_shrinks o nx a a' : log_ok o nx a -> ckpt true a (Ok tt) a' -> (2 <= length (al_q a))%nat -> 0 <= span (handle_of a') < span (handle_of a) /\ al_q a' <> [].
Proof.
  intros Hl Hc Hq. remember (Ok tt) as r eqn:Er in Hc. destruct Hc; try done. pose proof (cut_split true a) as [Eq Hr].
  assert (al_q a <> []) as Hne by (by destruct (al_q a); [cbn in Hq; lia|]). specialize (Hr Hne).
  pose proof (plan_takes (Z.to_nat CLOG_K) true cap (u32 (total (al_q a))) 0 (al_q a) ltac:(lia) Hq) as Ht. change (plan _ _ _ _ _ _) with (cut true a) in Ht.
  pose proof (lo_chain _ _ _ Hl) as Hch. unfold on_flash in Hch. rewrite chain_app in Hch. destruct Hch as [_ Hch].
  unfold span. cbn [handle_of lr_next_free lr_head_id al_nf al_q]. rewrite Eq in Hch |- *. destruct (cut true a) as [t rest]. cbn [fst snd] in *. destruct t as [|e t]; [done|]. destruct rest as [|e' rest]; [done|].
  cbn [nxt_of app]. assert (e' ∈ t ++ e' :: rest) as He' by (apply elem_of_app; right; left). destruct Hch as [E Hch].
  pose proof (chain_ge _ _ _ _ e' (lo_hist _ _ _ Hl) Hch He'). apply (lo_hist _ _ _ Hl) in E as (? & _). split; [lia|done].
Qed.

Lemma entry_write_spec n d nx o id r2 rec : holds n nx o d -> 0 < id < nx -> entry_fits rec ->
  wp (entry_write id r2 rec) d (fun r d' => (r = Ok tt /\ holds n nx (<[id := ent_bytes r2 rec]> o) d') \/ (exists x, no_room x /\ r = Err x /\ holds n nx o d')).
Proof.
  intros Hh Hid [Hb Hl]. pose proof (proj1 (holds_wf _ _ _ _ Hh)). unfold entry_write. fold (ent_bytes r2 rec).
  wp_use (update_law n d nx o id (ent_bytes r2 rec) Hh ltac:(lia) ltac:(by apply bytes_ok_ent)). rewrite len_ent_bytes. unfold CLOG_MAX_RECORD in Hl.
  destruct (Z.eqb_spec id 0); [lia|]. destruct (Z.geb_spec id nx); [lia|]. destruct (Z.gtb_spec (CLOG_ENTRY_HDR + len rec) MAX_PAYLOAD); [lia|]. cbn [orb].
  intros r d' [[-> ?]|[(x & ? & -> & ?)|(x & ? & _)]]; [by left|right; eauto|done].
Qed.

Section append.
Context (n : nat) (nx : Z) (a : alog) (o0 : objs) (r2 : Z) (rec : bytes) (Hfit : entry_fits rec) (Hr2 : al_nf a < r2 < nx).

(** The entry could not be bound yet, or it is. *)
Definition tried (rc : res unit) s : Prop := exists o a1, tidied o0 o /\ squeeze (fills (D := D)) a a1 /\ o !! r2 = None /\
  match rc with
  | Ok _ => log_ok o nx a1 /\ holds n nx (<[al_nf a := ent_bytes r2 rec]> o) (lr_dev s) /\ lr_h s = handle_of a1
  | Err x => no_room x /\ lg_holds n nx o a1 s
  end.

Definition append_tried (r : res (res unit)) s : Prop :=
  match r with
  | Ok rc => tried rc s /\ (rc = Err ENOSPC -> exists o a1, tidied o0 o /\ squeeze (fills (D := D)) a a1 /\ lg_holds n nx o a1 s /\ fills (D := D) /\ (length (al_q a1) <= 1)%nat)
  | Err x => exists o a1 a2, tidied o0 o /\ squeeze (fills (D := D)) a a1 /\ fills (D := D) /\ (2 <= length (al_q a1))%nat /\ ckpt true a1 (Err x) a2 /\ lg_holds n nx o a2 s
  end.

Lemma try_entry o a1 s : tidied o0 o -> squeeze (fills (D := D)) a a1 -> o !! r2 = None -> lg_holds n nx o a1 s ->
  wp (entry_write (al_nf a) r2 rec) (lr_dev s) (fun r d => tried r (mk_lrs d (lr_h s))).
Proof.
  intros Hk' Hs E (Hh & Hl & Ehd). pose proof (lo_ids _ _ _ Hl) as Hi. unfold BLOB_ROOT in Hi. rewrite (squeeze_nf _ _ _ Hs) in Hi.
  wp_use (entry_write_spec n (lr_dev s) nx o (al_nf a) r2 rec Hh); [lia|done|]. intros r d' [[-> ?]|(x & ? & -> & ?)]; exists o, a1; by split_and!.
Qed.

Lemma nospc_fills : no_room ENOSPC -> fills (D := D).
Proof. intros [[_ ?]|Hf]; [done|]. apply fault_plain in Hf as (_ & _ & _ & _ & _ & ? & _). done. Qed.

Lemma append_loop rc s : tried rc s -> wp (while64 (append_retry CLOG_K (al_nf a) r2 rec) rc) s append_tried.
Proof.
  intros Ht. apply (wp_while64 _ tried (fun rc s => match rc with Err _ => span (lr_h s) | Ok _ => 0 end)); [done| |].
  { destruct rc as [[]|x]; [done|]. destruct Ht as (o & a1 & _ & Hs & _ & _ & Hh & Hl & ->). pose proof (proj1 (holds_wf _ _ _ _ Hh)). pose proof (lo_ids _ _ _ Hl). unfold span. cbn.
    destruct (al_q a1) as [|e q] eqn:E; [cbn; lia|]. pose proof (span_bounds o nx a1 Hl ltac:(by rewrite E)) as Hsp. unfold span in Hsp. cbn in Hsp. rewrite E in Hsp. lia. }
  clear rc s Ht. intros rc s Ht. unfold append_retry. wp_step. apply wp_gets.
  destruct rc as [[]|x]; [apply wp_ret; by split|]. assert (x = ENOSPC \/ x <> ENOSPC) as [->|Hx] by (destruct (decide (x = ENOSPC)); auto).
  2: { replace (match x with ENOSPC => true | _ => false end) with false by by destruct x. apply wp_ret. split; [done|]. by intros [= ?]. }
  pose proof Ht as (o & a1 & Hk' & Hs & E & Hnr & Hg). pose proof Hg as (Hh & Hl & Ehd). apply nospc_fills in Hnr. cbn [andb]. rewrite Ehd, (shrinkable o nx) by done.
  case_bool_decide as Hq; [|apply wp_ret; split; [done|]; intros _; exists o, a1; split_and!; try done; lia]. assert (al_q a1 <> []) as Hne by by destruct (al_q a1); [cbn in Hq; lia|].
  wp_step. wp_use (checkpoint_spec true n nx o a1 s Hg Hne). intros r s' (o' & a2 & Hk2 & Hg2 & Hc).
  assert (tidied o0 o') as Hk3 by by eapply tidied_trans.
  destruct r as [[]|x]; [|by exists o', a1, a2]. pose proof (span_shrinks o nx a1 a2 Hl Hc Hq) as [Hsp _].
  assert (squeeze (fills (D := D)) a a2) as Hs2 by by eapply sq_more. assert (o' !! r2 = None) as E' by by apply Hk2.
  wp_step. wp_step. apply wp_on_store. wp_use (try_entry o' a2 s' Hk3 Hs2 E' Hg2). intros r d' Ht'. apply wp_ret. split; [done|].
  destruct Hg2 as (_ & _ & Eh2). destruct r as [[]|x]; cbn [lr_h]; rewrite ?Eh2; lia.
Qed.
End append.

Lemma al_q_added a r2 rec : al_q (added a r2 rec) <> [].
Proof. cbn. by destruct (al_q a). Qed.

(** The entry is bound: the rest of the append. *)
Lemma append_bound n nx o a a1 o1 r2 rec s : squeeze (fills (D := D)) a a1 -> kept o o1 -> log_ok o1 nx a1 -> o1 !! r2 = None -> entry_fits rec -> al_nf a < r2 < nx ->
  holds n nx (<[al_nf a := ent_bytes r2 rec]> o1) (lr_dev s) -> lr_h s = handle_of a1 ->
  wp (let* h := mgets lr_h in
      mmod (set_h (after_append (al_nf a) r2 (len rec) h));;;
      (if (lr_tail_id h =? 0) || (u32 (lr_since_ckpt h + 1) >=? CLOG_K) then mtry (checkpoint CLOG_K false);;; mret tt else mret tt);;;
      mret (al_nf a)) s (fun r s' => exists o' a', kept o o' /\ lg_holds n nx o' a' s' /\ appends rec a r a').
Proof.
  intros Hs Hk' Hl E Hfit Hr2 Hh Ehd. pose proof (squeeze_nf _ _ _ Hs) as En. pose proof (lo_ids _ _ _ Hl) as Hi. unfold BLOB_ROOT in Hi.
  rewrite <- En in *. pose proof (log_ok_added o1 nx a1 r2 rec Hl Hr2 E Hfit) as Hl2. pose proof (handle_added o1 nx a1 r2 rec Hl) as Eh2.
  assert (kept o (<[al_nf a1 := ent_bytes r2 rec]> o1)) as Hk2 by (eapply log_kept_trans; [done|apply kept_put; lia]).
  wp_step. apply wp_gets. rewrite Ehd, Eh2. wp_step. apply wp_mod. wp_step.
  assert ((lr_tail_id (handle_of a1) =? 0) || (u32 (lr_since_ckpt (handle_of a1) + 1) >=? CLOG_K) = due a1) as ->.
  { unfold due. cbn [handle_of lr_tail_id lr_since_ckpt]. f_equal. pose proof (lo_chain _ _ _ Hl) as Hc. unfold on_flash in Hc. rewrite chain_app in Hc. destruct Hc as [_ Hc].
    destruct (al_q a1) as [|e q] eqn:Eq; [done|]. destruct (list_last_split (e :: q) ltac:(done)) as (q' & e' & Eq'). rewrite Eq' in *. rewrite last_id_snoc.
    pose proof (chain_root _ _ _ _ e' (lo_hist _ _ _ Hl) Hc ltac:(apply elem_of_app; right; left)). destruct (Z.eqb_spec e'.1 0); [lia|]. done. }
  assert (al_nf a < r2) as Hlt by lia. destruct (due a1) eqn:Ed.
  - do 2 wp_step. wp_use (checkpoint_spec false n nx (<[al_nf a1 := ent_bytes r2 rec]> o1) (added a1 r2 rec)); [by split_and!|apply al_q_added|].
    intros r s' (o' & a' & [Hk3 _] & Hg & Hc). wp_step. wp_step. exists o', a'. split; [by eapply log_kept_trans|]. split; [done|]. rewrite En. apply (ap_done _ _ a1 r2); [done..|]. rewrite Ed. by exists r.
  - apply wp_ret. apply wp_ret. exists (<[al_nf a1 := ent_bytes r2 rec]> o1), (added a1 r2 rec). split; [done|]. split; [by split_and!|]. rewrite En. apply (ap_done _ _ a1 r2); [done..|]. by rewrite Ed.
Qed.

Lemma append_spec n nx o a s rec : lg_holds (S n) nx o a s -> bytes_ok rec ->
  wp (logring_append CLOG_K false false rec) s (fun r s' => exists nx' o' a', nx <= nx' /\ kept o o' /\ lg_holds n nx' o' a' s' /\ appends rec a r a').
Proof.
  intros Hg Hb. pose proof Hg as (Hh & Hl & Ehd). assert (lg_holds n nx o a s) as Hg0 by (split; [eapply holds_le; [|exact Hh]; lia|done]).
  unfold logring_append. cbn [orb andb]. destruct (Z.gtb_spec (len rec) (CLOG_MAX_RECORD (D := D))) as [Hsz|Hsz].
  { apply wp_fail. exists nx, o, a. split; [lia|]. split; [done|]. split; [done|]. by apply ap_size. }
  assert (entry_fits rec) as Hfit by by split. pose proof (lo_ids _ _ _ Hl) as Hi. unfold BLOB_ROOT in Hi. wp_step. apply wp_gets. wp_step. apply wp_on_store.
  wp_use (alloc_law n (lr_dev s) nx o Hh). intros r d [[-> Hh1]|(-> & [x Hx] & nx' & Hnx & Hh1)].
  2: { cbn [Z.eqb]. apply wp_fail. exists nx', o, a. split; [done|]. split; [done|]. split; [|by eapply ap_id]. split; [done|]. split; [by eapply log_ok_next|done]. }
  destruct (Z.eqb_spec nx 0); [lia|]. set (s1 := mk_lrs d (lr_h s)). pose proof (log_ok_next o nx (nx + 1) a Hl ltac:(lia)) as Hl1. rewrite Ehd. cbn [handle_of lr_next_free].
  assert (o !! nx = None) as Ef by (eapply obs_wf_fresh; [exact (holds_wf _ _ _ _ Hh)|lia]). assert (al_nf a < nx < nx + 1) as Hr2 by lia.
  do 2 wp_step. apply wp_on_store. wp_use (try_entry n (nx + 1) a o nx rec Hfit o a s1); [done|apply sq_none|done|by split_and!|]. intros rc d1 Ht.
  wp_step. wp_use (append_loop n (nx + 1) a o nx rec Hfit rc (mk_lrs d1 (lr_h s1)) Ht). intros [rc'|x] s2 Hpost.
  - destruct Hpost as [(o1 & a1 & [Hk1 _] & Hs & E & Ht') Hfull]. destruct rc' as [[]|x].
    + destruct Ht' as (Hl2 & Hh2 & Eh2). wp_use (append_bound n (nx + 1) o a a1 o1 nx rec s2); try done. intros r s' (o' & a' & ? & ? & ?). exists (nx + 1), o', a'. by split_and!; [lia|..].
    + apply wp_fail. destruct Ht' as (Hnr & Hg1). destruct (decide (x = ENOSPC)) as [->|Hx].
      * destruct (Hfull eq_refl) as (o2 & a2 & [Hk2 _] & Hs2 & Hg2 & ? & ?). exists (nx + 1), o2, a2. split; [lia|]. split; [done|]. split; [done|]. by apply ap_full.
      * exists (nx + 1), o1, a1. split; [lia|]. split; [done|]. split; [done|]. apply ap_fault; [done|]. by destruct Hnr as [[? _]|?].
  - destruct Hpost as (o1 & a1 & a2 & [Hk1 _] & Hs & Hf & Hlen & Hc & Hg2). exists (nx + 1), o1, a2. split; [lia|]. split; [done|]. split; [done|]. by eapply ap_stuck.
Qed.

(** *** Create and open *)

Lemma root_load_spec n d nx o r : holds n nx o d -> 0 < root < nx -> o !! root = Some (enc_clog_root r) -> clog_root_ok r -> cr_magic r = CLOG_MAGIC -> cr_version r = CLOG_VERSION ->
  wp (root_load root) d (answer fault (holds n nx o) (Ok r)).
Proof.
  intros Hh Hr Er Hok Em Ev. pose proof (proj1 (holds_wf _ _ _ _ Hh)). unfold root_load. do 2 wp_step. wp_use (get_law n d nx o root CLOG_ROOT_LEN Hh ltac:(lia)). unfold get_reply. rewrite Er, len_enc_clog_root by apply Hok.
  destruct (Z.ltb_spec CLOG_ROOT_LEN CLOG_ROOT_LEN); [lia|]. intros r' d' [Hh' [->|(x & Hx & ->)]].
  - rewrite len_enc_clog_root by apply Hok. destruct (Z.ltb_spec CLOG_ROOT_LEN CLOG_ROOT_LEN); [lia|]. rewrite dec_enc_clog_root by done. rewrite Em, Ev, bool_decide_eq_true_2 by done. cbn. by split; [|left].
  - pose proof (fault_plain x Hx) as (_ & _ & Hne & _). replace (match x with ENOMEM => mfail ENOTSUP | _ => mfail x end) with (mfail (S := D) (A := clog_root) x) by by destruct x.
    split; [done|right; eauto].
Qed.

(** The log [logring_create()] makes. *)
Definition empty_log (nf : Z) : alog := mk_alog [] [] nf 0 ∅.

Lemma log_create_spec n nx o d rnd : holds (S (S n)) nx o d -> root = nx -> epoch = (if rnd =? 0 then 1 else rnd) -> 0 < cap ->
  wp (logring_create (Some cap) false rnd) d (fun r d' => exists nx' o', nx <= nx' /\ holds n nx' o' d' /\
    match r with
    | Ok id => id = root /\ kept o o' /\ log_ok o' nx' (empty_log (nx + 1))
    | Err x => refused (D := D) x /\ o' = o
    end).
Proof.
  intros Hh Er Ee Hc. pose proof (proj1 (holds_wf _ _ _ _ Hh)) as Hnx. unfold logring_create. destruct (Z.eqb_spec cap 0); [lia|]. cbn [orb]. wp_step. wp_use (alloc_law (S n) d nx o Hh).
  assert (forall n n' nx' d', (n <= n')%nat -> holds n' nx' o d' -> holds n nx' o d') as Hle by (intros; by eapply holds_le).
  intros r d1 [[-> Hh1]|(-> & [x Hx] & nx' & Hx' & Hh1)].
  2: { wp_step. wp_use (alloc_law n d1 nx' o Hh1). intros r d2 Hr. assert (exists nx2 y, r = Ok y /\ nx' <= nx2 /\ holds n nx2 o d2) as (nx2 & y & -> & Hnx2 & Hh2).
       { destruct Hr as [[-> ?]|(-> & _ & nx2 & ? & ?)]; [exists (nx' + 1), nx'|exists nx2, 0]; split_and!; (done || lia). }
       cbn [Z.eqb orb]. apply wp_fail. exists nx2, o. split; [lia|]. split; [done|]. split; [|done]. unfold refused. right. right. eauto. }
  wp_step. wp_use (alloc_law n d1 (nx + 1) o Hh1). intros r d2 [[-> Hh2]|(-> & [x Hx] & nx2 & Hx2 & Hh2)].
  2: { cbn [Z.eqb]. rewrite orb_true_r. apply wp_fail. exists nx2, o. split; [lia|]. split; [done|]. split; [|done]. unfold refused. right. right. eauto. }
  destruct (Z.eqb_spec nx 0); [lia|]. destruct (Z.eqb_spec (nx + 1) 0); [lia|]. cbn [orb]. rewrite <- Ee, <- Er.
  change (mk_logring root 0 (root + 1) 0 epoch cap 0 0 0) with (handle_of (empty_log (root + 1))). set (a := empty_log (root + 1)).
  pose proof (proj1 (holds_wf _ _ _ _ Hh2)) as Hnx2. rewrite <- Er in *. wp_step.
  wp_use (root_write_spec n d2 (root + 1 + 1) o (handle_of a) 0 0 Hh2); [cbn; lia| |].
  - unfold clog_root_ok, a. cbn. split_and!; try done; try lia; unfold CLOG_MAGIC, bytes_ok; repeat constructor; unfold byte_ok; lia.
  - intros r d3 [[-> Hh3]|(x & Hx & -> & Hh3)].
    + apply wp_ret. cbn [handle_of lr_root] in Hh3. eexists _, _. split; [|split; [exact Hh3|]]; [lia|]. split; [done|]. split; [apply kept_put; lia|].
      assert (o !! (root + 1) = None) as E by (eapply obs_wf_fresh; [exact (holds_wf _ _ _ _ Hh)|lia]). apply log_ok_put; cbn; try done; [unfold BLOB_ROOT; lia|].
      unfold root_ok. split_and!; try done; [by left|by left].
    + exists (root + 1 + 1), o. split; [lia|]. split; [done|]. split; [|done]. unfold refused, no_room in *. tauto.
Qed.

(** The log a handle stands for once it is opened. *)
Definition reopened a : alog := mk_alog [] (on_flash a) (al_nf a) 0 (al_hist a).

(** Where the walk of an open stands after [done]. *)
Definition walk_at (nf : Z) (done todo : list entry) : walk_t :=
  mk_walk (nxt_of todo nf) (last_id done) (u32 (len done)) (u64 (total done)) (match done with [] => 0 | e :: _ => len e.2 end) (match done with [] => true | _ => false end).

Lemma u64_add_l x y : u64 (u64 x + y) = u64 (x + y).
Proof. unfold u64. by rewrite Zplus_mod_idemp_l. Qed.

Lemma open_walk n d nx o a pre es : holds n nx o d -> log_ok o nx a -> on_flash a = pre ++ es ->
  wp (while64 open_step (walk_at (al_nf a) [] es)) d (answer fault (holds n nx o) (Ok (walk_at (al_nf a) es []))).
Proof.
  intros Hh Hl Ef. pose proof (lo_ids _ _ _ Hl) as Hi. unfold BLOB_ROOT in Hi. pose proof (lo_hist _ _ _ Hl) as Hhi. pose proof (proj1 (holds_wf _ _ _ _ Hh)) as Hnx.
  pose proof (lo_chain _ _ _ Hl) as Hc. rewrite Ef, chain_app in Hc. destruct Hc as [_ Hc]. pose proof (lo_bound _ _ _ Hl) as Hb. rewrite Ef, list.Forall_app in Hb. destruct Hb as [_ Hb].
  apply (wp_while64 _ (fun w d => holds n nx o d /\ exists x y, es = x ++ y /\ w = walk_at (al_nf a) x y) (fun w _ => al_nf a - wk_cur w)).
  { split; [done|]. by exists [], es. }
  { cbn. pose proof (nxt_of_le _ _ _ _ Hhi Hc). destruct es as [|e es]; cbn [nxt_of] in *; [lia|]. pose proof (chain_root _ _ _ _ e Hhi Hc ltac:(left)). lia. }
  intros w d' [Hh' (x & y & Ees & ->)]. rewrite Ees, chain_app in Hc. destruct Hc as [_ Hc]. rewrite Ees, list.Forall_app in Hb. destruct Hb as [_ Hb]. unfold open_step. do 2 wp_step.
  destruct y as [|e y]; cbn [walk_at wk_cur nxt_of].
  { wp_use (entry_read_unbound n d' nx o (al_nf a) None Hh' (lo_front _ _ _ Hl)); [lia|]. intros r d2 [Hh2 [->|(z & Hz & ->)]].
    - apply wp_ret. split; [done|left]. rewrite app_nil_r in Ees. by rewrite Ees.
    - pose proof (fault_plain z Hz) as (_ & Hne & _). replace (match z with ENOENT => _ | _ => _ end) with (mfail (S := D) (A := walk_t + walk_t) z) by by destruct z. split; [done|right; eauto]. }
  inversion Hb as [|? ? Hbe Hby]; subst. pose proof (chain_obj o (al_nf a) (al_hist a) e y Hhi Hc Hbe) as Eo. pose proof Hc as [E Hcy]. destruct (Hhi _ _ _ E) as (? & ? & Hfit & _).
  wp_use (entry_read_bound n d' nx o e.1 (nxt_of y (al_nf a)) e.2 None Hh' Eo ltac:(lia) Hfit). intros r d2 [Hh2 [->|(z & Hz & ->)]].
  - cbn [entry_reply]. destruct (Z.leb_spec (nxt_of y (al_nf a)) e.1); [lia|]. apply wp_ret. cbn [wk_cur wk_tail wk_bound wk_bytes wk_first_len wk_first walk_at]. split; [|lia].
    split; [done|]. exists (x ++ [e]), y. split; [by rewrite <- app_assoc|]. unfold walk_at. rewrite last_id_snoc, u32_add_l, u64_add_l, total_app, len_app. rewrite total_cons. change (total []) with 0. rewrite Z.add_0_r.
    f_equal; by destruct x.
  - pose proof (fault_plain z Hz) as (_ & Hne & _). replace (match z with ENOENT => _ | _ => _ end) with (mfail (S := D) (A := walk_t + walk_t) z) by by destruct z. split; [done|right; eauto].
Qed.

Lemma u32_u64 x : u32 (u64 x) = u32 x.
Proof. unfold u32, u64. apply Z.mod_mod_divide. by exists (2 ^ 32). Qed.

Lemma u32_add_r x y : u32 (x + u32 y) = u32 (x + y).
Proof. unfold u32. by rewrite Zplus_mod_idemp_r. Qed.

(** What an open makes of the root and the walk. *)
Lemma open_handle o nx a r W pre : log_ok o nx a -> root_ok o a r -> on_flash a = pre ++ W -> cr_waypoint_id r = nxt_of W (al_nf a) ->
  (cr_head_id r = 0 /\ pre = [] /\ cr_count r = 0 /\ cr_live_bytes r = 0) \/
    (exists x W', W = x :: W' /\ cr_head_id r = nxt_of (on_flash a) 0 /\ cr_count r = u32 (len (pre ++ [x])) /\ cr_live_bytes r = u32 (total (pre ++ [x]))) ->
  let w := walk_at (al_nf a) W [] in let virgin := cr_head_id r =? 0 in
  mk_logring root (wk_tail w) (wk_cur w) (if virgin then (if wk_tail w =? 0 then cr_head_id r else cr_waypoint_id r) else cr_head_id r) (cr_epoch r) (cr_capacity_bytes r)
    (if virgin then u32 (wk_bytes w) else u32 (cr_live_bytes r + u32 (wk_bytes w - wk_first_len w))) (if virgin then wk_bound w else u32 (cr_count r + u32 (wk_bound w - 1))) 0 = handle_of (reopened a).
Proof.
  intros Hl (_ & _ & _ & _ & -> & -> & _) Ef Ew Hcase. pose proof (lo_ids _ _ _ Hl) as Hi. unfold BLOB_ROOT in Hi. pose proof (lo_chain _ _ _ Hl) as Hc. pose proof (lo_hist _ _ _ Hl) as Hhi.
  unfold handle_of, reopened. cbn [walk_at wk_tail wk_cur wk_bound wk_bytes wk_first_len al_q al_nf al_since nxt_of]. destruct Hcase as [(-> & -> & Ecn & Elv)|(x & W' & -> & -> & -> & ->)].
  - cbn [app Z.eqb] in *. rewrite Ef, u32_u64. f_equal. rewrite Ew. destruct W as [|e W]; [done|]. destruct (list_last_split (e :: W) ltac:(done)) as (q & e' & Eq).
    rewrite Eq, last_id_snoc. rewrite Ef, Eq in Hc. pose proof (chain_root _ _ _ _ e' Hhi Hc ltac:(apply elem_of_app; right; left)). destruct (Z.eqb_spec e'.1 0); [lia|]. by destruct q.
  - rewrite Ef. assert (nxt_of (pre ++ x :: W') 0 <> 0) as Hne.
    { rewrite Ef in Hc. destruct (pre ++ x :: W') as [|e q] eqn:E; [by destruct pre|]. cbn. pose proof (chain_root _ _ _ _ e Hhi Hc ltac:(left)). lia. }
    destruct (Z.eqb_spec (nxt_of (pre ++ x :: W') 0) 0); [done|]. rewrite last_id_app by done. cbn [wk_bytes]. f_equal.
    + rewrite u32_add_l, u32_add_r, <- u32_add_r. rewrite <- (u32_sub_l (u64 _)), u32_u64, u32_sub_l, u32_add_r. f_equal. rewrite !total_app, !total_cons. change (total []) with 0. lia.
    + rewrite u32_add_l, u32_add_r, <- u32_add_r, u32_sub_l, u32_add_r. f_equal. lens.
Qed.

Lemma root_ok_enc o nx a r : log_ok o nx a -> nx < 2 ^ 64 -> root_ok o a r -> clog_root_ok r.
Proof.
  intros Hl Hnx (Em & Ev & Ef & Es & Ee & Ec & Hw & He). pose proof (lo_ids _ _ _ Hl) as Hi. unfold BLOB_ROOT in Hi. pose proof (lo_chain _ _ _ Hl) as Hc. pose proof (lo_hist _ _ _ Hl) as Hhi.
  assert (forall e, e ∈ on_flash a -> 0 <= e.1 < 2 ^ 64) as Hin.
  { intros e Hin. pose proof (chain_ge _ _ _ _ e Hhi Hc Hin). pose proof (chain_root _ _ _ _ e Hhi Hc Hin). lia. }
  assert (0 <= nxt_of (on_flash a) 0 < 2 ^ 64 /\ 0 <= nxt_of (on_flash a) (al_nf a) < 2 ^ 64) as [H1 H2].
  { destruct (on_flash a) as [|e es]; cbn; [lia|]. split; apply Hin; left. }
  assert (nxt_of (on_flash a) (al_nf a) <= al_nf a) by (by eapply nxt_of_le).
  assert (0 <= cr_evict_from r < 2 ^ 64 /\ 0 <= cr_evict_to r < 2 ^ 64) as [? ?].
  { destruct He as [[-> ->]|(_ & ? & ? & _)]; lia. }
  assert (0 <= cr_waypoint_id r < 2 ^ 64 /\ 0 <= cr_head_id r < 2 ^ 64 /\ 0 <= cr_count r < 2 ^ 32 /\ 0 <= cr_live_bytes r < 2 ^ 32) as (? & ? & ? & ?).
  { destruct Hw as [(-> & -> & -> & ->)|(x1 & x & x2 & Eo & -> & -> & -> & ->)]; [lia|]. split_and!; try apply u32_range; try apply H1; apply Hin; rewrite Eo; apply elem_of_app; right; left. }
  unfold clog_root_ok. rewrite Em, Ev, Ef, Es, Ee, Ec. unfold byte_ok, CLOG_VERSION. split_and!; try done; try lia. unfold CLOG_MAGIC, bytes_ok, byte_ok. repeat constructor; lia.
Qed.

(** The handle [logring_open()] gives is that of what is on flash. *)
Lemma log_open_spec n nx o a d : holds n nx o d -> log_ok o nx a ->
  wp (logring_open CLOG_K root false) d (fun r d' => exists o', kept o o' /\ holds n nx o' d' /\ log_ok o' nx a /\ (r = Ok (handle_of (reopened a)) \/ exists x, fault x /\ r = Err x)).
Proof.
  intros Hh Hl. pose proof (lo_ids _ _ _ Hl) as Hi. unfold BLOB_ROOT in Hi. pose proof (proj1 (holds_wf _ _ _ _ Hh)) as Hnx. pose proof (lo_hist _ _ _ Hl) as Hhi. pose proof (lo_chain _ _ _ Hl) as Hc.
  destruct (lo_root _ _ _ Hl) as (r & Er & Hr). pose proof (root_ok_enc o nx a r Hl ltac:(lia) Hr) as Hrok. unfold logring_open. destruct (Z.eqb_spec root 0); [lia|]. cbn [orb].
  wp_step. wp_use (root_load_spec n d nx o r Hh); [lia|done|done|apply Hr|apply Hr|]. intros r1 d1 [Hh1 [->|(x & Hx & ->)]]; [|exists o; split_and!; try done; right; eauto].
  assert (wp (if negb (cr_evict_from r =? 0) then run_delete CLOG_K (cr_evict_from r) (cr_evict_to r) else mret tt) d1
    (fun r d' => r = Ok tt /\ exists o', kept o o' /\ holds n nx o' d' /\ log_ok o' nx a)) as Hrun.
  { destruct (Z.eqb_spec (cr_evict_from r) 0); cbn [negb]; [apply wp_ret; split; [done|]; by exists o|].
    destruct Hr as (_ & _ & _ & _ & _ & _ & _ & [[? _]|(Hp & Hft & Hto & Hn)]); [done|]. pose proof (nxt_of_le _ _ _ _ Hhi Hc).
    wp_use (run_delete_spec n d1 nx o (al_nf a) (al_hist a) (cr_evict_from r) (cr_evict_to r) Hh1); try done; try (unfold BLOB_ROOT; lia).
    intros r2 d2 (-> & o2 & Hh2 & Hpr). split; [done|]. exists o2. split; [by eapply kept_pruned|]. split; [done|]. by eapply log_ok_pruned. }
  wp_step. wp_use Hrun. intros r2 d2 (-> & o2 & Hk2 & Hh2 & Hl2).
  assert (exists pre W, on_flash a = pre ++ W /\ cr_waypoint_id r = nxt_of W (al_nf a) /\ ((cr_head_id r = 0 /\ pre = [] /\ cr_count r = 0 /\ cr_live_bytes r = 0) \/
    (exists x W', W = x :: W' /\ cr_head_id r = nxt_of (on_flash a) 0 /\ cr_count r = u32 (len (pre ++ [x])) /\ cr_live_bytes r = u32 (total (pre ++ [x]))))) as (pre & W & Ef & Ew & Hcase).
  { destruct Hr as (_ & _ & _ & _ & _ & _ & Hw & _). destruct Hw as [(? & ? & ? & ?)|(x1 & x & x2 & E & ? & ? & ? & ?)]; [exists [], (on_flash a)|exists x1, (x :: x2)]; split_and!; try done; [by left|right]. exists x, x2. by split_and!. }
  wp_step. rewrite Ew. change (mk_walk (nxt_of W (al_nf a)) 0 0 0 0 true) with (walk_at (al_nf a) [] W). wp_use (open_walk n d2 nx o2 a pre W Hh2 Hl2 Ef).
  intros r3 d3 [Hh3 [->|(x & Hx & ->)]]; [|exists o2; split_and!; try done; right; eauto]. apply wp_ret. exists o2. split_and!; try done. left. f_equal.
  rewrite <- Ew. by apply (open_handle o nx a r W pre).
Qed.

(** *** Reading *)

(** What a cursor at [c] is given, into a buffer of [sz] bytes or none, and where it goes. *)
Definition next_step a (c : logring_cursor) (sz : option Z) (rc : res (bytes * Z) * logring_cursor) : Prop :=
  if negb (lc_epoch c =? 0) && negb (lc_epoch c =? epoch) then rc = (Err ESTALE, mk_cursor 0 epoch)
  else
    let start := if lc_pos c =? 0 then nxt_of (al_q a) 0 else lc_pos c in
    if start =? 0 then rc = (Err ENOENT, c)
    else
      (exists x, fault (D := D) x /\ rc = (Err x, c)) \/
      match al_hist a !! start with
      | Some (nxt, rec) =>
          rc = (match entry_reply nxt rec sz with Ok _ => (Ok (rec, start), mk_cursor nxt epoch) | Err x => (Err x, c) end) \/
          (start ∉ (on_flash a).*1 /\ rc = (Err ESTALE, mk_cursor 0 epoch))
      | None => rc = (if start <? al_nf a then (Err ESTALE, mk_cursor 0 epoch) else (Err ENOENT, c))
      end.

(** Cursors stand at the oldest entry, at an entry, or where one is to come. *)
Definition cursor_ok a (c : logring_cursor) : Prop :=
  lc_pos c = 0 \/ is_Some (al_hist a !! lc_pos c) \/ exists id rec, al_hist a !! id = Some (lc_pos c, rec).

Definition buf_of (sz : option Z) : bool * Z := match sz with None => (true, 0) | Some z => (false, z) end.

Lemma log_next_spec n nx o a s c sz : lg_holds n nx o a s -> cursor_ok a c ->
  wp (logring_next false false c (buf_of sz).1 (buf_of sz).2) s (fun r s' => exists rc, r = Ok rc /\ lg_holds n nx o a s' /\ next_step a c sz rc /\ cursor_ok a rc.2).
Proof.
  intros (Hh & Hl & Ehd) Hcur. pose proof (lo_ids _ _ _ Hl) as Hi. unfold BLOB_ROOT in Hi. pose proof (proj1 (holds_wf _ _ _ _ Hh)) as Hnx. pose proof (lo_hist _ _ _ Hl) as Hhi.
  unfold logring_next, next_step. replace (false || false || _) with false by by destruct sz. replace (if (buf_of sz).1 then None else Some (buf_of sz).2) with sz by by destruct sz.
  wp_step. apply wp_gets. rewrite Ehd. cbn [handle_of lr_epoch lr_head_id lr_next_free]. destruct (_ && _).
  { apply wp_ret. eexists. split_and!; [done|by split_and!|done|by left]. }
  set (start := if lc_pos c =? 0 then _ else _). destruct (Z.eqb_spec start 0) as [|Hs0].
  { apply wp_ret. eexists. by split_and!; [|split_and!|..]. }
  assert (is_Some (al_hist a !! start) \/ exists id rec, al_hist a !! id = Some (start, rec)) as Hst.
  { unfold start in *. destruct (Z.eqb_spec (lc_pos c) 0) as [E|E]; [left|destruct Hcur as [?|[?|?]]; [done|by left|by right]].
    destruct (al_q a) as [|e q] eqn:Eq; [done|]. cbn [nxt_of]. pose proof (lo_chain _ _ _ Hl) as Hc.
    destruct (chain_in _ _ _ e Hc) as [nxt E']; [unfold on_flash; rewrite Eq; apply elem_of_app; right; left|by eexists]. }
  assert (root < start <= al_nf a) as Hsr.
  { destruct Hst as [[[nxt rec] E]|(id & rec & E)]; apply Hhi in E; lia. }
  do 2 wp_step. apply wp_on_store.
  assert (forall d' x, holds n nx o d' -> fault x -> lg_holds n nx o a (mk_lrs d' (lr_h s)) /\ x <> ENOENT) as Hflt.
  { intros d' x Hh' Hx. split; [by split_and!|]. by apply fault_plain in Hx as (_ & ? & _). }
  destruct (o !! start) as [b|] eqn:Eo.
  - assert (exists nxt rec, al_hist a !! start = Some (nxt, rec) /\ o !! start = Some (ent_bytes nxt rec)) as (nxt & rec & E & Eb).
    { destruct Hst as [[[nxt rec] E]|(id & rec & E)].
      - destruct (Hhi _ _ _ E) as (_ & _ & _ & [?|?] & _); [congruence|eauto].
      - destruct (Hhi _ _ _ E) as (_ & _ & _ & _ & [[[n' b'] E']|?] & _); [|congruence]. destruct (Hhi _ _ _ E') as (_ & _ & _ & [?|?] & _); [congruence|eauto]. }
    destruct (Hhi _ _ _ E) as (? & ? & Hfit & _). rewrite E.
    wp_use (entry_read_bound n (lr_dev s) nx o start nxt rec sz Hh Eb ltac:(lia) Hfit). intros r d' [Hh' [->|(x & Hx & ->)]].
    + unfold entry_reply. assert (cursor_ok a (mk_cursor nxt epoch)) by (right; right; by eexists _, _). destruct sz as [sz|]; [destruct (len rec >? sz)|]; apply wp_ret; eexists; (split_and!; [done|by split_and!|right; by left|done]).
    + destruct (Hflt d' x Hh' Hx) as [? ?]. replace (match x with ENOENT => _ | _ => _ end) with (mret (S := lrs) (A := res (bytes * Z) * logring_cursor) (Err x, c)) by by destruct x.
      apply wp_ret. eexists. split_and!; [done|done| |done]. left. eauto.
  - wp_use (entry_read_unbound n (lr_dev s) nx o start sz Hh Eo); [lia|]. intros r d' [Hh' [->|(x & Hx & ->)]].
    2: { destruct (Hflt d' x Hh' Hx) as [? ?]. replace (match x with ENOENT => _ | _ => _ end) with (mret (S := lrs) (A := res (bytes * Z) * logring_cursor) (Err x, c)) by by destruct x.
         apply wp_ret. eexists. split_and!; [done|done| |done]. left. eauto. }
    destruct (al_hist a !! start) as [[nxt rec]|] eqn:E.
    + destruct (Hhi _ _ _ E) as (? & ? & _). destruct (Z.ltb_spec start (al_nf a)); [|lia]. apply wp_ret. eexists. split_and!; [done|by split_and!| |by left]. right. right. split; [|done].
      intros Hin. apply list_elem_of_fmap in Hin as (e & -> & Hin). pose proof (lo_bound _ _ _ Hl) as Hb. rewrite list.Forall_forall in Hb. destruct (Hb e Hin) as [b Eb]. congruence.
    + destruct (start <? al_nf a); apply wp_ret; eexists; (split_and!; [done|by split_and!|by right|]); [by left|done].
Qed.

(** *** Reset *)

(** What a reset answers, and the log it leaves; when the root cannot be written
    the log on flash is as before and the handle is not its handle any more. *)
Inductive resets a : res unit -> alog -> Prop :=
  | rs_stuck a1 x a2 : squeeze True a a1 -> (2 <= length (al_q a1))%nat -> ckpt true a1 (Err x) a2 -> resets a (Err x) a2
  | rs_id x a1 : squeeze True a a1 -> fault (D := D) x -> resets a (Err EIO) a1
  | rs_write x a1 : squeeze True a a1 -> no_room x -> resets a (Err x) a1
  | rs_done a1 r2 : squeeze True a a1 -> (length (al_q a1) <= 1)%nat -> al_nf a < r2 -> resets a (Ok tt) (mk_alog [] [] r2 0 (al_hist a)).

Lemma squeeze_hist why a a' : squeeze why a a' -> al_hist a' = al_hist a.
Proof. induction 1 as [|a1 a2 _ IH _ _ Hc]; [done|]. rewrite <- IH. by destruct Hc. Qed.

Lemma reset_loop n nx o a s : lg_holds n nx o a s ->
  wp (while64 (reset_step CLOG_K) tt) s (fun r s' => exists o' a1, tidied o o' /\ squeeze True a a1 /\
    match r with
    | Ok _ => (length (al_q a1) <= 1)%nat /\ lg_holds n nx o' a1 s'
    | Err x => (2 <= length (al_q a1))%nat /\ exists a2, ckpt true a1 (Err x) a2 /\ lg_holds n nx o' a2 s'
    end).
Proof.
  intros Hg. apply (wp_while64 _ (fun _ s => exists o1 a1, tidied o o1 /\ squeeze True a a1 /\ lg_holds n nx o1 a1 s) (fun _ s => span (lr_h s))).
  - exists o, a. split; [done|]. split; [apply sq_none|done].
  - destruct Hg as (Hh & Hl & ->). pose proof (proj1 (holds_wf _ _ _ _ Hh)). pose proof (lo_ids _ _ _ Hl). destruct (decide (al_q a = [])) as [E|Hne].
    + unfold span. cbn. rewrite E. cbn. lia.
    + pose proof (span_bounds o nx a Hl Hne). lia.
  - clear s Hg. intros [] s (o1 & a1 & Hk1 & Hs & Hg). pose proof Hg as (Hh & Hl & Ehd). unfold reset_step. wp_step. apply wp_gets. rewrite Ehd, (shrinkable o1 nx) by done. case_bool_decide as Hq.
    + assert (al_q a1 <> []) as Hne by by destruct (al_q a1); [cbn in Hq; lia|]. wp_step. wp_use (checkpoint_spec true n nx o1 a1 s Hg Hne). intros r s' (o2 & a2 & Hk2 & Hg2 & Hc).
      assert (tidied o o2) by by eapply tidied_trans. destruct r as [[]|x].
      * apply wp_ret. split; [exists o2, a2; split_and!; [done|by eapply sq_more|done]|]. destruct (span_shrinks o1 nx a1 a2 Hl Hc Hq) as [Hsp _]. destruct Hg2 as (_ & _ & ->). cbn in *. lia.
      * exists o2, a1. split_and!; try done. by exists a2.
    + apply wp_ret. exists o1, a1. split_and!; try done. lia.
Qed.

(** The root of a log that was emptied, its last entry to be evicted. *)
Lemma emptied_ok o nx a r2 : log_ok o nx a -> (length (al_q a) <= 1)%nat -> al_nf a < r2 -> r2 < nx -> nx < 2 ^ 64 -> o !! r2 = None ->
  let a' := mk_alog [] [] r2 0 (al_hist a) in let t := last_id (al_q a) in let r := root_of (handle_of a') t (if t =? 0 then 0 else al_nf a) in
  clog_root_ok r /\ log_ok (<[root := enc_clog_root r]> o) nx a' /\
  (t <> 0 -> promised (al_hist a) o t /\ root < t <= al_nf a /\ next_le (al_hist a) (al_nf a)).
Proof.
  intros Hl Hq Hr2 Hnx Hx E a' t r. pose proof (lo_ids _ _ _ Hl) as Hi. unfold BLOB_ROOT in Hi. pose proof (lo_chain _ _ _ Hl) as Hc. unfold on_flash in Hc. rewrite chain_app in Hc. destruct Hc as [_ Hc]. pose proof (lo_hist _ _ _ Hl) as Hhi.
  assert (next_le (al_hist a) (al_nf a)) as Hn by (intros id n b Eh _; by apply Hhi in Eh as (_ & ? & _)).
  assert (t = 0 \/ (promised (al_hist a) o t /\ root < t < al_nf a)) as Ht.
  { unfold t. destruct (al_q a) as [|e [|]] eqn:Eq; [by left| |cbn in Hq; lia]. right. unfold last_id. cbn. destruct Hc as [Eh _]. pose proof (Hhi _ _ _ Eh) as (? & ? & _). split; [left; by eexists|lia]. }
  assert (hist_ok o r2 (al_hist a)) as Hhi2. { intros id nxt rec Eh. destruct (Hhi _ _ _ Eh) as (? & ? & ?). split_and!; try tauto; lia. }
  split_and!.
  - unfold clog_root_ok, r, a', root_of, handle_of. cbn. split_and!; try done; try lia; try (unfold CLOG_MAGIC, bytes_ok, byte_ok; repeat constructor; lia);
      destruct Ht as [->|[_ ?]]; try done; try lia; destruct (Z.eqb_spec t 0); lia.
  - apply log_ok_put; cbn; try done; [unfold BLOB_ROOT; lia|]. unfold root_ok. split_and!; try done; [by left|]. unfold evict_ok, r. cbn. destruct Ht as [->|[Hp ?]]; [by left|right]. destruct (Z.eqb_spec t 0); [lia|]. split_and!; try done; lia.
  - intros Hne. destruct Ht as [?|[? ?]]; [done|]. split_and!; try done; lia.
Qed.

Lemma reset_spec n nx o a s : lg_holds (S n) nx o a s ->
  wp (logring_reset CLOG_K false) s (fun r s' => exists nx' o' a', nx <= nx' /\ kept o o' /\ holds n nx' o' (lr_dev s') /\ log_ok o' nx' a' /\ resets a r a' /\
    (r = Ok tt -> lr_h s' = handle_of a')).
Proof.
  intros Hg. pose proof (lo_ids _ _ _ (proj1 (proj2 Hg))) as Hi. unfold BLOB_ROOT in Hi. unfold logring_reset. wp_step. wp_use (reset_loop (S n) nx o a s Hg). intros r s1 (o1 & a1 & [Hk1 _] & Hs & Hr). destruct r as [[]|x].
  2: { destruct Hr as (Hq & a2 & Hc & Hh2 & Hl2 & _). exists nx, o1, a2. split; [lia|]. split; [done|]. split; [eapply holds_le; [|exact Hh2]; lia|]. split; [done|]. split; [by eapply rs_stuck|done]. }
  destruct Hr as (Hq & Hh1 & Hl1 & Eh1). wp_step. apply wp_gets. rewrite Eh1. cbn [handle_of lr_tail_id lr_next_free lr_root lr_epoch lr_capacity_bytes].
  pose proof (squeeze_nf _ _ _ Hs) as En. pose proof (squeeze_hist _ _ _ Hs) as Ehi. rewrite <- En in Hi. wp_step. apply wp_on_store. wp_use (alloc_law n (lr_dev s1) nx o1 Hh1).
  intros r d2 [[-> Hh2]|(-> & [x Hx] & nx' & Hnx & Hh2)].
  2: { cbn [Z.eqb]. apply wp_fail. exists nx', o1, a1. split_and!; try done; [by eapply log_ok_next|by eapply rs_id]. }
  pose proof (proj1 (holds_wf _ _ _ _ Hh2)) as Hnx2. destruct (Z.eqb_spec nx 0); [lia|]. set (a' := mk_alog [] [] nx 0 (al_hist a1)). set (t := last_id (al_q a1)).
  change (mk_logring root 0 nx 0 epoch cap 0 0 0) with (handle_of a'). pose proof (log_ok_next o1 nx (nx + 1) a1 Hl1 ltac:(lia)) as Hl1'.
  destruct (emptied_ok o1 (nx + 1) a1 nx Hl1' Hq) as (Hrok & Hl' & Ht); [lia|lia|lia|eapply obs_wf_fresh; [exact (holds_wf _ _ _ _ Hh1)|lia]|]. fold a' t in Hrok, Hl', Ht.
  wp_step. apply wp_mod. wp_step. apply wp_on_store. wp_use (root_write_spec n d2 (nx + 1) o1 (handle_of a') t (if t =? 0 then 0 else al_nf a1) Hh2); [cbn; lia|done|].
  cbn [handle_of lr_root]. set (o2 := <[root := _]> o1) in *. intros r d3 [[-> Hh3]|(x & Hx & -> & Hh3)].
  2: { exists (nx + 1), o1, a1. split; [lia|]. split_and!; try done. by apply rs_write. }
  assert (kept o o2) as Hk2 by (eapply log_kept_trans; [done|apply kept_put; lia]).
  assert (resets a (Ok tt) a') as Hrs by (unfold a'; rewrite Ehi; apply (rs_done a a1); [done..|lia]).
  destruct (Z.eqb_spec t 0) as [E0|Hne]; cbn [negb]; [apply wp_ret; exists (nx + 1), o2, a'; split; [lia|by split_and!]|]. apply wp_on_store. destruct (Ht Hne) as (Hp & Hlt & Hn).
  wp_use (run_delete_spec n d3 (nx + 1) o2 nx (al_hist a1) t (al_nf a1) Hh3); try done; try (unfold BLOB_ROOT; lia).
  - apply (lo_hist _ _ _ Hl').
  - unfold o2, promised in *. by rewrite lookup_insert_ne by lia.
  - intros r d4 (-> & o4 & Hh4 & Hpr). exists (nx + 1), o4, a'. split; [lia|]. split_and!; try done.
    + eapply log_kept_trans; [done|]. eapply kept_pruned; [apply (lo_hist _ _ _ Hl')|done].
    + eapply (log_ok_pruned o2); [done| |exact Hpr]. unfold on_flash. cbn. lia.
Qed.

(** *** Statistics *)

Lemma stats_spec n nx o a s : lg_holds n nx o a s ->
  wp (logring_stats false false) s (fun r s' => s' = s /\ r = Ok (mk_lstats (nxt_of (al_q a) 0) (last_id (al_q a)) (u32 (len (al_q a))) (u32 (total (al_q a))))).
Proof. intros (_ & _ & E). unfold wp, logring_stats, mbnd, mgets, mret. cbn [orb]. by rewrite E. Qed.
End logring_spec.
