(* ===== verification/RootReg.v ===== *)
(** lib/rootreg/rootreg.c: the registry of structure roots, a list of (key, root
    id) pairs in the one object with id 1, rewritten whole by every change. *)

From S2P Require Import BlobIface Prelude Layout.

(** ** The image *)

Definition RR_MAGIC : bytes := [82; 82; 69; 71].
Definition RR_VERSION : Z := 1.
Definition RR_HDR_LEN : Z := 8.
Definition RR_ENTRY_LEN : Z := 16.

Record rr_hdr := mk_rr_hdr { rr_magic : bytes; rr_version : Z; rr_count : Z }.
Record rr_entry := mk_rr_entry { re_key : Z; re_root_id : Z }.
Record rr_image := mk_rr_image { ri_hdr : rr_hdr; ri_e : list rr_entry }.

Definition enc_rr_hdr (h : rr_hdr) : bytes := rr_magic h ++ le 2 (rr_version h) ++ le 2 (rr_count h).
Definition enc_rr_entry (e : rr_entry) : bytes := le 8 (re_key e) ++ le 8 (re_root_id e).
Definition enc_rr_image (img : rr_image) : bytes := enc_rr_hdr (ri_hdr img) ++ concat (enc_rr_entry <$> ri_e img).

Definition dec_rr_hdr (b : bytes) : rr_hdr := mk_rr_hdr (slice 0 4 b) (rd 2 4 b) (rd 2 6 b).
Definition dec_rr_entry (b : bytes) (i : nat) : rr_entry :=
  let off := RR_HDR_LEN + RR_ENTRY_LEN * Z.of_nat i in mk_rr_entry (rd 8 off b) (rd 8 (off + 8) b).

Definition rr_set_e (i : Z) (e : rr_entry) (img : rr_image) : rr_image :=
  mk_rr_image (ri_hdr img) (<[Z.to_nat i := e]> (ri_e img)).
Definition rr_set_count (n : Z) (img : rr_image) : rr_image :=
  mk_rr_image (mk_rr_hdr (rr_magic (ri_hdr img)) (rr_version (ri_hdr img)) n) (ri_e img).

Definition rr_e (i : Z) (img : rr_image) : rr_entry := default (mk_rr_entry 0 0) (ri_e img !! Z.to_nat i).

(** [rr_find()]: the index of the first of [es] with key [key], from [i] on. *)
Fixpoint rr_find_from (es : list rr_entry) (i key : Z) : Z :=
  match es with
  | [] => -1
  | e :: es => if re_key e =? key then i else rr_find_from es (i + 1) key
  end.

Definition rr_find (img : rr_image) (key : Z) : Z := rr_find_from (zt (rr_count (ri_hdr img)) (ri_e img)) 0 key.

(** ** The operations *)

Section rootreg.
Context (MAX_ROOTS : Z) {D : Type} `{!Blobs D}.

Definition RR_IMAGE_MAX : Z := RR_HDR_LEN + MAX_ROOTS * RR_ENTRY_LEN.

(** The RAM image is the payload; its array has room for MAX_ROOTS entries. *)
Definition dec_rr_image (b : bytes) : rr_image :=
  mk_rr_image (dec_rr_hdr b) (dec_rr_entry b <$> seq 0 (Z.to_nat MAX_ROOTS)).

Definition rr_load : M D rr_image :=
  let* b := blob_get BLOB_ROOT RR_IMAGE_MAX in
  if len b <? RR_HDR_LEN then mfail ENOTSUP
  else
    let img := dec_rr_image b in
    if negb (bool_decide (rr_magic (ri_hdr img) = RR_MAGIC)) || negb (rr_version (ri_hdr img) =? RR_VERSION) then mfail ENOTSUP
    else if (rr_count (ri_hdr img) >? MAX_ROOTS) || negb (len b =? RR_HDR_LEN + rr_count (ri_hdr img) * RR_ENTRY_LEN) then mfail EIO
    else mret img.

Definition rr_store (img : rr_image) : M D unit :=
  blob_update BLOB_ROOT (zt (RR_HDR_LEN + rr_count (ri_hdr img) * RR_ENTRY_LEN) (enc_rr_image img)).

Definition rootreg_init : M D unit :=
  let* rc := mtry rr_load in
  match rc with
  | Ok _ => mret tt
  | Err ENOTSUP =>
      let* rc := mtry (blob_get BLOB_ROOT RR_HDR_LEN) in
      match rc with
      | Err ENOMEM => mfail ENOTSUP
      | Ok b =>
          if len b >? 0 then mfail ENOTSUP
          else rr_store (mk_rr_image (mk_rr_hdr RR_MAGIC RR_VERSION 0) (replicate (Z.to_nat MAX_ROOTS) (mk_rr_entry 0 0)))
      | Err e => mfail e
      end
  | Err e => mfail e
  end.

Definition rootreg_get (key : Z) (root_id_null : bool) : M D Z :=
  if (key =? 0) || root_id_null then mfail EINVAL
  else
    let* img := rr_load in
    let idx := rr_find img key in
    if idx <? 0 then mfail ENOENT else mret (re_root_id (rr_e idx img)).

(** Appending an entry, common to get_or_create and set. *)
Definition rr_append (img : rr_image) (key id : Z) : rr_image :=
  let n := rr_count (ri_hdr img) in rr_set_count (u16 (n + 1)) (rr_set_e n (mk_rr_entry key id) img).

Definition rootreg_get_or_create (key : Z) (root_id_null : bool) : M D Z :=
  let* rc := mtry (rootreg_get key root_id_null) in
  match rc with
  | Err ENOENT =>
      let* img := rr_load in
      if rr_count (ri_hdr img) >=? MAX_ROOTS then mfail ENOSPC
      else
        let* id := blob_alloc_id in
        if id =? 0 then mfail EIO
        else rr_store (rr_append img key id);;; mret id
  | _ => mlift rc
  end.

Definition rootreg_set (key root_id : Z) : M D unit :=
  if (key =? 0) || (root_id =? 0) then mfail EINVAL
  else
    let* img := rr_load in
    if rr_find img key >=? 0 then mfail EEXIST
    else if rr_count (ri_hdr img) >=? MAX_ROOTS then mfail ENOSPC
    else rr_store (rr_append img key root_id).

Definition rootreg_unregister (key : Z) : M D unit :=
  if key =? 0 then mfail EINVAL
  else
    let* img := rr_load in
    let idx := rr_find img key in
    if idx <? 0 then mfail ENOENT
    else
      let n := rr_count (ri_hdr img) in
      rr_store (rr_set_count (u16 (n - 1)) (rr_set_e idx (rr_e (n - 1) img) img)).

(** The walk of [rootreg_iterate()]: the callback's value and its user state. *)
Fixpoint rr_visit {U} (cb : Z -> Z -> U -> Z * U) (es : list rr_entry) (user : U) : Z * U :=
  match es with
  | [] => (0, user)
  | e :: es =>
      let (rc, user) := cb (re_key e) (re_root_id e) user in
      if negb (rc =? 0) then (rc, user) else rr_visit cb es user
  end.

Definition rootreg_iterate {U} (cb : option (Z -> Z -> U -> Z * U)) (user : U) : M D (Z * U) :=
  match cb with
  | None => mfail EINVAL
  | Some cb =>
      let* img := rr_load in
      mret (rr_visit cb (zt (rr_count (ri_hdr img)) (ri_e img)) user)
  end.
End rootreg.
