(* ===== verification/RootRegSpec.v ===== *)
(** The registry of RootReg is a finite map from keys to root ids: what each
    operation answers and leaves, on a store that may fail. *)

From S2P Require Import BlobIface Prelude Layout Records RootReg.

(** ** The image of a list of entries *)

Definition entry_ok (e : rr_entry) : Prop := 0 < re_key e < 2 ^ 64 /\ 0 < re_root_id e < 2 ^ 64.
Definition reg_hdr (es : list rr_entry) : rr_hdr := mk_rr_hdr RR_MAGIC RR_VERSION (len es).
Definition reg_bytes (es : list rr_entry) : bytes := enc_rr_hdr (reg_hdr es) ++ concat (enc_rr_entry <$> es).

Lemma len_enc_entries es : len (concat (enc_rr_entry <$> es)) = 16 * len es.
Proof.
  rewrite (len_concat_same 16); [by rewrite len_fmap|]. apply Forall_fmap, Forall_true. intros e. cbn. unfold enc_rr_entry. lens.
Qed.

Lemma len_reg_bytes es : len (reg_bytes es) = 8 + 16 * len es.
Proof. unfold reg_bytes, enc_rr_hdr. autorewrite with len. rewrite len_enc_entries. cbn [rr_magic reg_hdr]. change (len RR_MAGIC) with 4. lia. Qed.

Lemma bytes_ok_reg es : bytes_ok (reg_bytes es).
Proof.
  unfold reg_bytes, enc_rr_hdr, bytes_ok. rewrite !Forall_app. split_and!; try apply bytes_ok_le.
  - cbn. unfold RR_MAGIC. repeat constructor; unfold byte_ok; lia.
  - apply Forall_concat, Forall_fmap, Forall_true. intros e. cbn. unfold enc_rr_entry. apply Forall_app. split; apply bytes_ok_le.
Qed.

Lemma dec_reg_hdr es : len es < 65536 -> dec_rr_hdr (reg_bytes es) = reg_hdr es.
Proof.
  intros Hn. pose proof (len_nonneg es).
  assert (rd 2 6 (reg_bytes es) = len es) as E.
  { unfold reg_bytes, enc_rr_hdr. cbn [rr_magic rr_version rr_count reg_hdr]. rewrite <- !app_assoc, !rd_skip by done. by apply rd_here. }
  unfold dec_rr_hdr. rewrite E. reflexivity.
Qed.

Lemma dec_reg_entry es i e : es !! i = Some e -> entry_ok e -> dec_rr_entry (reg_bytes es) i = e.
Proof.
  intros Hi [Hk Hr]. destruct e as [k r]. cbn [re_key re_root_id] in Hk, Hr. unfold dec_rr_entry, RR_HDR_LEN, RR_ENTRY_LEN. cbv zeta.
  assert (slice (8 + 16 * Z.of_nat i) 16 (reg_bytes es) = enc_rr_entry (mk_rr_entry k r)) as Hs.
  { unfold reg_bytes. assert (len (enc_rr_hdr (reg_hdr es)) = 8) as Hh by (unfold enc_rr_hdr; autorewrite with len; done).
    rewrite slice_app_r by lia. rewrite Hh. replace (8 + 16 * Z.of_nat i - 8) with (16 * Z.of_nat i) by lia.
    apply slice_concat_same; [lia|apply Forall_fmap, Forall_true; intros e; cbn; unfold enc_rr_entry; lens|]. by rewrite list_lookup_fmap, Hi. }
  pose proof (rd_slice 8 0 (8 + 16 * Z.of_nat i) 16 (reg_bytes es) ltac:(lia) ltac:(lia) ltac:(lia)) as E1.
  pose proof (rd_slice 8 8 (8 + 16 * Z.of_nat i) 16 (reg_bytes es) ltac:(lia) ltac:(lia) ltac:(lia)) as E2.
  rewrite Z.add_0_r in E1. rewrite <- E1, <- E2, Hs. unfold enc_rr_entry. cbn [re_key re_root_id]. f_equal.
  - by rewrite rd_here by (cbn; lia).
  - rewrite rd_skip by done. rewrite <- (app_nil_r (le 8 r)). by rewrite rd_here by (cbn; lia).
Qed.

(** ** Searching and editing the list *)

Lemma find_from_absent es i key : key ∉ (re_key <$> es) -> rr_find_from es i key = -1.
Proof.
  revert i. induction es as [|e es IH]; intros i Hk; [done|]. rewrite fmap_cons, not_elem_of_cons in Hk. cbn [rr_find_from].
  destruct (Z.eqb_spec (re_key e) key); [destruct Hk; congruence|]. apply IH, Hk.
Qed.

Lemma find_from_present es i e key : key ∉ (re_key <$> take i es) -> es !! i = Some e -> re_key e = key ->
  forall j, rr_find_from es j key = j + Z.of_nat i.
Proof.
  revert i. induction es as [|e' es IH]; intros i Hk Hi Hkey j; [done|]. cbn. destruct i as [|i]; cbn in *.
  - injection Hi as ->. rewrite (proj2 (Z.eqb_eq _ _) Hkey). lia.
  - rewrite not_elem_of_cons in Hk. destruct Hk as [Hne Hk]. destruct (Z.eqb_spec (re_key e') key); [congruence|].
    rewrite (IH i Hk Hi Hkey). lia.
Qed.

(** A list of entries with distinct keys, as a map. *)
Definition pair_of (e : rr_entry) : Z * Z := (re_key e, re_root_id e).
Definition reg_map (es : list rr_entry) : gmap Z Z := list_to_map (pair_of <$> es).

Lemma reg_keys es : (pair_of <$> es).*1 = re_key <$> es.
Proof. rewrite <- list_fmap_compose. done. Qed.

Lemma reg_map_Some es k r : NoDup (re_key <$> es) -> reg_map es !! k = Some r <-> mk_rr_entry k r ∈ es.
Proof.
  intros Hn. unfold reg_map. rewrite <- elem_of_list_to_map by by rewrite reg_keys. rewrite list_elem_of_fmap. split.
  - intros ([] & [= -> ->] & He). done.
  - intros He. by exists (mk_rr_entry k r).
Qed.

Lemma reg_map_None es k : reg_map es !! k = None <-> k ∉ (re_key <$> es).
Proof. unfold reg_map. rewrite <- not_elem_of_list_to_map, reg_keys. done. Qed.

Lemma reg_map_snoc es e : re_key e ∉ (re_key <$> es) -> reg_map (es ++ [e]) = <[re_key e := re_root_id e]> (reg_map es).
Proof.
  intros Hk. unfold reg_map. rewrite fmap_app, list_to_map_app. cbn. rewrite <- insert_union_r.
  - by rewrite map_union_empty.
  - by apply not_elem_of_list_to_map_1; rewrite reg_keys.
Qed.

(** What [rootreg_unregister()] leaves: the last entry in the place of entry [i]. *)
Definition swap_out (i : nat) (es : list rr_entry) : list rr_entry :=
  take (length es - 1) (<[i := default (mk_rr_entry 0 0) (es !! (length es - 1)%nat)]> es).

Lemma swap_out_perm i es e : es !! i = Some e -> es ≡ₚ e :: swap_out i es.
Proof.
  intros Hi. destruct es as [|x es' _] using rev_ind; [done|].
  unfold swap_out. rewrite length_app. cbn [length]. replace (length es' + 1 - 1)%nat with (length es') by lia.
  rewrite (list_lookup_middle es' [] x (length es')) by done. change (default _ (Some x)) with x. destruct (decide (i = length es')) as [->|].
  - rewrite (list_lookup_middle es' [] x (length es')) in Hi by done. injection Hi as ->.
    rewrite insert_app_r_alt by lia. rewrite take_app_length. rewrite Permutation_app_comm. done.
  - assert (i < length es')%nat as Hlt. { apply lookup_lt_Some in Hi. rewrite length_app in Hi. cbn in Hi. lia. }
    rewrite lookup_app_l in Hi by done. rewrite insert_app_l by done. rewrite take_app_length' by (by rewrite length_insert).
    rewrite (insert_take_drop es' i x) by done.
    rewrite <- (take_drop_middle es' i e Hi) at 1. rewrite <- app_assoc. cbn. rewrite <- Permutation_middle. apply Permutation_skip.
    apply Permutation_app_head. rewrite Permutation_app_comm. done.
Qed.

Lemma swap_out_keys i es e : es !! i = Some e -> NoDup (re_key <$> es) ->
  NoDup (re_key <$> swap_out i es) /\ reg_map (swap_out i es) = delete (re_key e) (reg_map es).
Proof.
  intros Hi Hn. pose proof (swap_out_perm i es e Hi) as Hp. set (es' := swap_out i es) in *. clearbody es'.
  assert (NoDup (re_key <$> e :: es')) as Hn' by by rewrite <- Hp. pose proof Hn' as [Hk Hd]%list.NoDup_cons. split; [done|].
  assert (reg_map es = <[re_key e := re_root_id e]> (reg_map es')) as ->.
  { unfold reg_map. rewrite (list_to_map_proper (pair_of <$> es) (pair_of <$> e :: es')); [done|by rewrite reg_keys|by apply fmap_Permutation]. }
  rewrite delete_insert_id; [done|]. by apply reg_map_None.
Qed.

(** ** The registry a store holds *)

Section spec.
Context (MAX_ROOTS : Z) {D : Type} `{!Blobs D} {L : BlobLaws D}.
Context (Hmax : 1 <= MAX_ROOTS <= 1000) (Hfit : RR_IMAGE_MAX MAX_ROOTS <= blob_max).
Implicit Types (d : D) (o : objs) (es : list rr_entry) (m : gmap Z Z).

Definition reg_ok es : Prop := len es <= MAX_ROOTS /\ NoDup (re_key <$> es) /\ Forall entry_ok es.

(** The root object is the image of a list of at most MAX_ROOTS entries whose
    keys differ, the pairs of [m]. *)
Definition registry o m : Prop := exists es, o !! BLOB_ROOT = Some (reg_bytes es) /\ reg_ok es /\ m = reg_map es.

(** A RAM image that stands for [es]: what lies past the count is not read. *)
Definition img_for es (img : rr_image) : Prop :=
  ri_hdr img = reg_hdr es /\ len (ri_e img) = MAX_ROOTS /\ zt (len es) (ri_e img) = es.

Lemma img_for_count es img : img_for es img -> rr_count (ri_hdr img) = len es.
Proof. by intros (-> & _). Qed.

Lemma dec_img_for es : reg_ok es -> img_for es (dec_rr_image MAX_ROOTS (reg_bytes es)).
Proof.
  intros (Hl & _ & Hok). pose proof (len_nonneg es). split_and!; cbn.
  - apply dec_reg_hdr. lia.
  - autorewrite with len. unfold len. rewrite length_seq. lia.
  - apply list_eq. intros i. unfold zt. destruct (decide (i < length es)%nat) as [Hi|Hi].
    + rewrite lookup_take_lt by (unfold len in *; lia). destruct (lookup_lt_is_Some_2 es i Hi) as [e He].
      rewrite list_lookup_fmap, lookup_seq_lt by (unfold len in *; lia). rewrite He. cbn. f_equal. apply dec_reg_entry; [done|].
      by eapply Forall_lookup_1.
    + rewrite lookup_take_ge by (unfold len; lia). symmetry. apply lookup_ge_None_2. lia.
Qed.

Lemma enc_img_for es img : img_for es img -> zt (RR_HDR_LEN + len es * RR_ENTRY_LEN) (enc_rr_image img) = reg_bytes es.
Proof.
  intros (Hh & Hl & Ht). pose proof (len_nonneg es). unfold enc_rr_image. rewrite Hh. pose proof (zt_zd (len es) (ri_e img)) as E.
  rewrite Ht in E. rewrite <- E, fmap_app, concat_app, app_assoc. fold (reg_bytes es). rewrite zt_slice. apply slice_here.
  rewrite len_reg_bytes. unfold RR_HDR_LEN, RR_ENTRY_LEN. lia.
Qed.

Lemma append_img_for es img k r : img_for es img -> len es < MAX_ROOTS -> img_for (es ++ [mk_rr_entry k r]) (rr_append img k r).
Proof.
  intros (Hh & Hl & Ht) Hlt. pose proof (len_nonneg es). unfold rr_append, rr_set_count, rr_set_e, img_for. rewrite Hh. cbn. split_and!.
  - unfold reg_hdr. f_equal. autorewrite with len. rewrite u16_small by lia. lia.
  - unfold len in *. rewrite length_insert. lia.
  - autorewrite with len. replace (1 + 0) with 1 by lia. unfold zt in *.
    replace (Z.to_nat (len es + 1)) with (S (Z.to_nat (len es))) by lia.
    rewrite take_S_r with (x := mk_rr_entry k r) by (apply list_lookup_insert_eq; unfold len in *; lia).
    rewrite take_insert, decide_False by lia. by rewrite Ht.
Qed.

Lemma swap_img_for es img i : img_for es img -> (i < length es)%nat ->
  img_for (swap_out i es) (rr_set_count (u16 (len es - 1)) (rr_set_e (Z.of_nat i) (rr_e (len es - 1) img) img)) .
Proof.
  intros (Hh & Hl & Ht) Hi. assert (length (swap_out i es) = length es - 1)%nat as Hs.
  { unfold swap_out. rewrite length_take, length_insert. lia. }
  assert (0 < len es <= len (ri_e img)) as Hlen.
  { pose proof (f_equal length Ht) as E. unfold zt in E. rewrite length_take in E. unfold len in *. lia. }
  unfold rr_set_count, rr_set_e, img_for. rewrite Hh. cbn. split_and!.
  - unfold reg_hdr. f_equal. unfold len. rewrite Hs. rewrite u16_small; unfold len in *; lia.
  - unfold len in *. rewrite length_insert. lia.
  - unfold len at 1. rewrite Hs. unfold swap_out, rr_e, zt in *. rewrite Nat2Z.id.
    assert (ri_e img !! Z.to_nat (len es - 1) = es !! (length es - 1)%nat) as Hlast.
    { transitivity (take (Z.to_nat (len es)) (ri_e img) !! (length es - 1)%nat); [|by rewrite Ht].
      rewrite lookup_take_lt by (unfold len; lia). f_equal. unfold len. lia. }
    rewrite Hlast. set (x := default _ _). replace (Z.to_nat (Z.of_nat (length es - 1))) with (length es - 1)%nat by lia.
    transitivity (take (length es - 1) (<[i := x]> (take (Z.to_nat (len es)) (ri_e img)))); [|by rewrite Ht].
    rewrite Nat2Z.id, !take_insert, take_take.
    by replace ((length es - 1) `min` Z.to_nat (len es))%nat with (length es - 1)%nat by (unfold len; lia).
Qed.

(** ** Loading and storing *)

Lemma rr_load_spec n nx o d es : holds n nx o d -> o !! BLOB_ROOT = Some (reg_bytes es) -> reg_ok es ->
  wp (rr_load MAX_ROOTS) d (fun r d' => holds n nx o d' /\ ((exists img, r = Ok img /\ img_for es img) \/ exists e, fault e /\ r = Err e)).
Proof.
  intros Hh Ho Hes. pose proof (len_nonneg es). unfold rr_load. apply wp_bnd.
  eapply wp_mono; [apply (get_law n _ _ _ _ _ Hh); unfold BLOB_ROOT; lia|]. cbv beta. intros r d' [Hh' [->|(e & He & ->)]]; [|eauto 6].
  unfold get_reply. rewrite Ho. destruct (Z.ltb_spec (RR_IMAGE_MAX MAX_ROOTS) (len (reg_bytes es))) as [Hlt|_].
  { rewrite len_reg_bytes in Hlt. unfold RR_IMAGE_MAX, RR_HDR_LEN, RR_ENTRY_LEN in Hlt. destruct Hes. lia. }
  pose proof (dec_img_for es Hes) as Hi. pose proof (proj1 Hi) as Hhd. pose proof (len_reg_bytes es) as Hlb.
  destruct (Z.ltb_spec (len (reg_bytes es)) RR_HDR_LEN); [unfold RR_HDR_LEN in *; lia|]. rewrite Hhd. cbn [reg_hdr rr_magic rr_version rr_count].
  rewrite bool_decide_true by done. cbn [negb orb Z.eqb RR_VERSION Pos.eqb]. destruct Hes as [Hm _].
  destruct (Z.gtb_spec (len es) MAX_ROOTS); [lia|]. rewrite Hlb.
  destruct (Z.eqb_spec (8 + 16 * len es) (RR_HDR_LEN + len es * RR_ENTRY_LEN)); [|unfold RR_HDR_LEN, RR_ENTRY_LEN in *; lia].
  cbn [negb orb]. apply wp_ret. split; [done|]. left. eauto.
Qed.

Lemma rr_store_spec n nx o d es img : holds n nx o d -> img_for es img -> len es <= MAX_ROOTS ->
  wp (rr_store img) d (effect fault fills tears (holds n nx o) (holds n nx (<[BLOB_ROOT := reg_bytes es]> o))).
Proof.
  intros Hh Hi Hm. unfold rr_store. rewrite (img_for_count es) by done. rewrite (enc_img_for es) by done.
  pose proof (update_law n d nx o BLOB_ROOT (reg_bytes es) Hh ltac:(unfold BLOB_ROOT; lia) (bytes_ok_reg es)) as Hu.
  pose proof (proj1 (holds_wf _ _ _ _ Hh)) as Hnx. destruct (_ || _) eqn:E; [exfalso|done].
  rewrite len_reg_bytes in E. unfold BLOB_ROOT in E. unfold RR_IMAGE_MAX, RR_HDR_LEN, RR_ENTRY_LEN in Hfit. lia.
Qed.

Lemma find_img es img key : img_for es img -> rr_find img key = rr_find_from es 0 key.
Proof. intros Hi. unfold rr_find. rewrite (img_for_count es) by done. by rewrite (proj2 (proj2 Hi)). Qed.

(** Looking [key] up in the image of [es]. *)
Lemma rr_find_spec es img key : img_for es img -> reg_ok es ->
  match reg_map es !! key with
  | Some r => exists i, rr_find img key = Z.of_nat i /\ es !! i = Some (mk_rr_entry key r) /\ rr_e (Z.of_nat i) img = mk_rr_entry key r
  | None => rr_find img key = -1
  end.
Proof.
  intros Hi (_ & Hn & _). rewrite (find_img es) by done. destruct (reg_map es !! key) as [r|] eqn:E.
  - apply reg_map_Some in E as [i Ei]%list_elem_of_lookup; [|done]. exists i. split_and!; [|done|].
    + rewrite (find_from_present es i (mk_rr_entry key r)); [lia| |done|done]. intros Hin. rewrite <- (take_drop i es) in Hn.
      rewrite fmap_app in Hn. apply list.NoDup_app in Hn as (_ & Hd & _). apply (Hd key Hin). apply list_elem_of_fmap.
      exists (mk_rr_entry key r). split; [done|]. apply list_elem_of_lookup. exists 0%nat. by rewrite lookup_drop, Nat.add_0_r.
    + destruct Hi as (_ & _ & Ht). unfold rr_e. rewrite Nat2Z.id. rewrite <- Ht in Ei. unfold zt in Ei.
      apply lookup_take_Some in Ei as [-> _]. done.
  - apply find_from_absent. by apply reg_map_None.
Qed.

(** ** The abstract registry *)

Inductive rr_call :=
  | RrInit
  | RrGet (key : Z)
  | RrGetOrCreate (key : Z)
  | RrSet (key root_id : Z)
  | RrUnregister (key : Z).

Definition rr_exec (c : rr_call) : M D Z :=
  match c with
  | RrInit => rootreg_init MAX_ROOTS;;; mret 0
  | RrGet key => rootreg_get MAX_ROOTS key false
  | RrGetOrCreate key => rootreg_get_or_create MAX_ROOTS key false
  | RrSet key root_id => rootreg_set MAX_ROOTS key root_id;;; mret 0
  | RrUnregister key => rootreg_unregister MAX_ROOTS key;;; mret 0
  end.

Definition rr_call_ok (c : rr_call) : Prop :=
  match c with
  | RrInit => True
  | RrGet key | RrGetOrCreate key | RrUnregister key => 0 <= key < 2 ^ 64
  | RrSet key root_id => 0 <= key < 2 ^ 64 /\ 0 <= root_id < 2 ^ 64
  end.

(** What a call answers and leaves when nothing fails; [nx] is the next id. *)
Definition reg_step (nx : Z) m (c : rr_call) : res Z * gmap Z Z :=
  match c with
  | RrInit => (Ok 0, m)
  | RrGet key => (if key =? 0 then Err EINVAL else match m !! key with Some r => Ok r | None => Err ENOENT end, m)
  | RrGetOrCreate key =>
      if key =? 0 then (Err EINVAL, m)
      else match m !! key with
           | Some r => (Ok r, m)
           | None => if Z.of_nat (size m) >=? MAX_ROOTS then (Err ENOSPC, m) else (Ok nx, <[key := nx]> m)
           end
  | RrSet key root_id =>
      if (key =? 0) || (root_id =? 0) then (Err EINVAL, m)
      else match m !! key with
           | Some _ => (Err EEXIST, m)
           | None => if Z.of_nat (size m) >=? MAX_ROOTS then (Err ENOSPC, m) else (Ok 0, <[key := root_id]> m)
           end
  | RrUnregister key =>
      if key =? 0 then (Err EINVAL, m)
      else match m !! key with Some _ => (Ok 0, delete key m) | None => (Err ENOENT, m) end
  end.

(** The call ended as wanted, or was refused and changed nothing, unless the
    store tore its one write. No other object is touched. *)
Definition reg_post (n : nat) (nx : Z) o (want : res Z * gmap Z Z) (r : res Z) d : Prop :=
  exists nx' o', holds n nx' o' d /\ nx <= nx' /\ (forall id, id <> BLOB_ROOT -> o' !! id = o !! id) /\
    ((r = want.1 /\ registry o' want.2) \/
     (exists e, refused e /\ r = Err e /\ (o' = o \/ (tears /\ registry o' want.2)))).

Lemma post_same n nx o m d (r want : res Z) : holds n nx o d -> registry o m -> r = want \/ (exists e, fault e /\ r = Err e) -> reg_post n nx o (want, m) r d.
Proof.
  intros Hh Hr Hc. exists nx, o. split; [done|]. split; [lia|]. split; [done|]. destruct Hc as [->|(e & He & ->)]; [by left|right].
  exists e. unfold refused. eauto 8.
Qed.

Lemma post_fault n nx o want d e : holds n nx o d -> fault e -> reg_post n nx o want (Err e) d.
Proof. intros Hh He. exists nx, o. split_and!; try done. right. exists e. unfold refused. eauto 8. Qed.

Lemma post_store n nx nx0 o d es img v : holds n nx0 o d -> nx <= nx0 -> img_for es img -> reg_ok es ->
  wp (rr_store img;;; mret v) d (reg_post n nx o (Ok v, reg_map es)).
Proof.
  intros Hh Hnx Hi Hes. apply wp_bnd. eapply wp_mono; [apply (rr_store_spec n nx0 o d es img); try done; apply Hes|].
  assert (registry (<[BLOB_ROOT := reg_bytes es]> o) (reg_map es)) as Hr by (exists es; by rewrite lookup_insert_eq).
  assert (forall id, id <> BLOB_ROOT -> <[BLOB_ROOT := reg_bytes es]> o !! id = o !! id) as Hf by (intros; by rewrite lookup_insert_ne).
  cbv beta. intros r d' [[-> Hd]|[(e & He & -> & Hd)|(e & Ht & He & -> & Hd)]]; cbn.
  - exists nx0, (<[BLOB_ROOT := reg_bytes es]> o). eauto 6.
  - exists nx0, o. split_and!; try done. right. exists e. unfold refused. destruct He; eauto 6.
  - exists nx0, (<[BLOB_ROOT := reg_bytes es]> o). split_and!; try done. right. exists e. unfold refused. eauto 8.
Qed.

Lemma size_reg_map es : NoDup (re_key <$> es) -> Z.of_nat (size (reg_map es)) = len es.
Proof. intros Hn. unfold reg_map. rewrite map_size_list_to_map by by rewrite reg_keys. unfold len. by rewrite length_fmap. Qed.

Lemma reg_ok_snoc es k r : reg_ok es -> len es < MAX_ROOTS -> k ∉ (re_key <$> es) -> 0 < k < 2 ^ 64 -> 0 < r < 2 ^ 64 -> reg_ok (es ++ [mk_rr_entry k r]).
Proof.
  intros (_ & Hn & Hok) Hlt Hk Hkr Hr. split_and!.
  - autorewrite with len. lia.
  - rewrite fmap_app. apply list.NoDup_app. split_and!; [done| |apply NoDup_singleton]. intros x Hx ->%list_elem_of_singleton. done.
  - apply Forall_app. split; [done|]. by apply Forall_singleton.
Qed.

Lemma reg_ok_swap es i e : reg_ok es -> es !! i = Some e -> reg_ok (swap_out i es).
Proof.
  intros (Hm & Hn & Hok) Hi. pose proof (swap_out_perm i es e Hi) as Hp. split_and!.
  - pose proof (Permutation_length Hp) as Hl. cbn in Hl. unfold len in *. lia.
  - by apply (swap_out_keys i es e).
  - rewrite Hp in Hok. by apply Forall_cons_1 in Hok as [_ ?].
Qed.

(** ** Each operation *)

(** Continue after [rr_load()] at a registry, with the image or its fault. *)
Lemma load_then {A} n nx o d es (k : rr_image -> M D A) (Q : res A -> D -> Prop) :
  holds n nx o d -> o !! BLOB_ROOT = Some (reg_bytes es) -> reg_ok es ->
  (forall e d', fault e -> holds n nx o d' -> Q (Err e) d') ->
  (forall img d', img_for es img -> holds n nx o d' -> wp (k img) d' Q) -> wp (mbnd (rr_load MAX_ROOTS) k) d Q.
Proof.
  intros Hh Ho Hes Hf Hk. apply wp_bnd. eapply wp_mono; [by apply (rr_load_spec n nx o d es)|]. cbv beta.
  intros r d' [Hh' [(img & -> & Hi)|(e & He & ->)]]; [by apply Hk|by apply Hf].
Qed.

Lemma get_answer n nx o d m key : holds n nx o d -> registry o m ->
  wp (rootreg_get MAX_ROOTS key false) d (answer fault (holds n nx o) (reg_step nx m (RrGet key)).1).
Proof.
  intros Hh (es & Ho & Hes & ->). unfold rootreg_get, answer. rewrite orb_false_r. cbn [reg_step fst].
  destruct (key =? 0); [apply wp_fail; eauto|]. apply (load_then n nx o d es); try done; [eauto|].
  intros img d' Hi Hh'. pose proof (rr_find_spec es img key Hi Hes) as Hfd. destruct (reg_map es !! key) as [r|] eqn:E.
  - destruct Hfd as (i & -> & _ & ->). destruct (Z.ltb_spec (Z.of_nat i) 0); [lia|]. apply wp_ret; eauto.
  - rewrite Hfd. apply wp_fail; eauto.
Qed.

Lemma rr_get_spec n nx o d m key : holds n nx o d -> registry o m ->
  wp (rootreg_get MAX_ROOTS key false) d (reg_post n nx o (reg_step nx m (RrGet key))).
Proof.
  intros Hh Hr. eapply wp_mono; [by apply (get_answer n nx o d m key)|]. intros r d' [Hh' Hc]. by apply post_same.
Qed.

(** Adding an entry for an absent key. *)
Lemma add_spec n nx nx0 o d es img key id v : holds n nx0 o d -> nx <= nx0 -> img_for es img -> reg_ok es -> len es < MAX_ROOTS ->
  reg_map es !! key = None -> 0 < key < 2 ^ 64 -> 0 < id < 2 ^ 64 ->
  wp (rr_store (rr_append img key id);;; mret v) d (reg_post n nx o (Ok v, <[key := id]> (reg_map es))).
Proof.
  intros Hh Hnx Hi Hes Hlt Hk Hkr Hid. apply reg_map_None in Hk. pose proof (reg_map_snoc es (mk_rr_entry key id) Hk) as E. cbn in E.
  rewrite <- E. apply (post_store n nx nx0); [done|done|by apply append_img_for|by apply reg_ok_snoc].
Qed.

(** The tail of [rootreg_get_or_create()] for an absent key with room: the next
    id is reserved, then published. *)
Definition created (n : nat) (nx : Z) o m (key : Z) (r : res Z) d : Prop :=
  exists nx' o', holds n nx' o' d /\ nx <= nx' /\ (forall id, id <> BLOB_ROOT -> o' !! id = o !! id) /\
    ((r = Ok nx /\ nx < nx' /\ registry o' (<[key := nx]> m)) \/
     (exists e, refused e /\ r = Err e /\ (o' = o \/ (tears /\ registry o' (<[key := nx]> m))))).

Lemma get_or_create_new n nx o d m key : holds (S n) nx o d -> registry o m -> 0 < key < 2 ^ 64 -> m !! key = None ->
  Z.of_nat (size m) < MAX_ROOTS -> wp (rootreg_get_or_create MAX_ROOTS key false) d (created n nx o m key).
Proof.
  intros Hh Hr Hkr E Hroom. unfold rootreg_get_or_create. apply wp_bnd, wp_try. eapply wp_mono; [by apply (get_answer (S n) nx o d m)|]. cbv beta.
  intros r d1 [Hh1 Hc]. cbn [reg_step fst] in Hc. destruct (Z.eqb_spec key 0); [lia|]. rewrite E in Hc.
  assert (forall e d', fault e -> holds (S n) nx o d' -> created n nx o m key (Err e) d') as Hf.
  { intros e d' He Hh'. exists nx, o. split_and!; try done; [eapply holds_le; [|exact Hh']; lia|right]. exists e. unfold refused. eauto 8. }
  destruct Hc as [->|(e & He & ->)]; [|specialize (Hf e d1 He Hh1); pose proof (fault_plain e He) as (_ & ? & _); by destruct e].
  pose proof Hr as (es & Ho & Hes & ->). rewrite (size_reg_map es) in Hroom by apply Hes. apply (load_then (S n) nx o d1 es); try done.
  intros img d2 Hi Hh2. rewrite (img_for_count es) by done. destruct (Z.geb_spec (len es) MAX_ROOTS); [lia|].
  apply wp_bnd. eapply wp_mono; [by apply alloc_law|]. cbv beta. pose proof (proj1 (holds_wf _ _ _ _ Hh)) as Hnx.
  intros r d3 [[-> Hh3]|(-> & Hft & nx' & Hle' & Hh3)].
  - destruct (Z.eqb_spec nx 0); [lia|]. pose proof (proj1 (holds_wf _ _ _ _ Hh3)).
    eapply wp_mono; [apply (add_spec n (nx + 1) (nx + 1) o d3 es img key nx nx); (done || lia)|].
    intros r d4 (nx' & o' & Hh4 & Hle & Hf4 & Hres). exists nx', o'. split_and!; try done; [lia|]. cbn in Hres. destruct Hres as [[-> ?]|?]; [left; split; [done|]; split; [lia|done]|by right].
  - cbn. apply wp_fail. exists nx', o. split_and!; try done. right. exists EIO. unfold refused. eauto 8.
Qed.

Lemma get_or_create_spec n nx o d m key : holds (S n) nx o d -> registry o m -> 0 <= key < 2 ^ 64 ->
  wp (rootreg_get_or_create MAX_ROOTS key false) d (reg_post n nx o (reg_step nx m (RrGetOrCreate key))).
Proof.
  intros Hh Hr Hkr. assert (forall d', holds (S n) nx o d' -> holds n nx o d') as Hle by (intros d'; apply holds_le; lia).
  destruct (decide (key <> 0 /\ m !! key = None /\ Z.of_nat (size m) < MAX_ROOTS)) as [(Hk0 & E & Hroom)|Hno].
  - eapply wp_mono; [apply (get_or_create_new n nx o d m key); (done || lia)|]. cbn [reg_step]. destruct (Z.eqb_spec key 0); [done|]. rewrite E.
    destruct (Z.geb_spec (Z.of_nat (size m)) MAX_ROOTS); [lia|]. intros r d' (nx' & o' & Hh' & Hn & Hf & Hres). exists nx', o'. split_and!; try done.
    destruct Hres as [(-> & _ & ?)|?]; [by left|by right].
  - unfold rootreg_get_or_create. apply wp_bnd, wp_try. eapply wp_mono; [by apply (get_answer (S n) nx o d m)|]. cbv beta.
    intros r d1 [Hh1 Hc]. assert (forall r' d' v, holds (S n) nx o d' -> r' = v \/ (exists e, fault e /\ r' = Err e) -> reg_post n nx o (v, m) r' d') as Hsame.
    { intros. by apply post_same; [apply Hle| |]. }
    destruct Hc as [->|(e & He & ->)].
    2: { pose proof (post_fault n nx o (reg_step nx m (RrGetOrCreate key)) d1 e (Hle _ Hh1) He) as Hp. pose proof (fault_plain e He) as (_ & ? & _). by destruct e. }
    cbn [reg_step fst snd]. destruct (Z.eqb_spec key 0) as [->|Hk0]; [apply Hsame; eauto|]. destruct (m !! key) as [r|] eqn:E; [apply Hsame; eauto|].
    destruct (Z.geb_spec (Z.of_nat (size m)) MAX_ROOTS) as [Hfull|]; [|by destruct Hno]. pose proof Hr as (es & Ho & Hes & ->). rewrite (size_reg_map es) in Hfull by apply Hes.
    apply (load_then (S n) nx o d1 es); try done; [intros e d' He Hh'; apply post_fault; [apply Hle|]; done|].
    intros img d2 Hi Hh2. rewrite (img_for_count es) by done. destruct (Z.geb_spec (len es) MAX_ROOTS); [|lia]. apply wp_fail, Hsame; eauto.
Qed.

Lemma rr_set_spec n nx o d m key id : holds n nx o d -> registry o m -> 0 <= key < 2 ^ 64 -> 0 <= id < 2 ^ 64 ->
  wp (rootreg_set MAX_ROOTS key id;;; mret 0) d (reg_post n nx o (reg_step nx m (RrSet key id))).
Proof.
  intros Hh Hr Hkr Hid. unfold rootreg_set. cbn [reg_step]. destruct (_ || _) eqn:E0; [apply (post_same n nx o m); eauto|].
  pose proof Hr as (es & Ho & Hes & ->). rewrite (size_reg_map es) by apply Hes. apply wp_bnd, (load_then n nx o d es); try done.
  { intros e d' He Hh'. by apply post_fault. }
  intros img d' Hi Hh'. pose proof (rr_find_spec es img key Hi Hes) as Hfd. destruct (reg_map es !! key) as [r|] eqn:E.
  - destruct Hfd as (i & -> & _). rewrite Z.geb_leb. destruct (Z.leb_spec 0 (Z.of_nat i)); [|lia]. apply wp_fail, post_same; eauto.
  - rewrite Hfd. rewrite (img_for_count es) by done. change (-1 >=? 0) with false. cbv iota. rewrite Z.geb_leb.
    destruct (Z.leb_spec MAX_ROOTS (len es)); [apply wp_fail, post_same; eauto|].
    pose proof (add_spec n nx nx o d' es img key id 0 Hh' ltac:(lia) Hi Hes ltac:(lia) E ltac:(lia) ltac:(lia)) as Hw.
    unfold wp, mbnd in *. destruct (rr_store _ d') as [[] ?]; exact Hw.
Qed.

Lemma unregister_spec n nx o d m key : holds n nx o d -> registry o m ->
  wp (rootreg_unregister MAX_ROOTS key;;; mret 0) d (reg_post n nx o (reg_step nx m (RrUnregister key))).
Proof.
  intros Hh Hr. unfold rootreg_unregister. cbn [reg_step]. destruct (key =? 0); [apply (post_same n nx o m); eauto|].
  pose proof Hr as (es & Ho & Hes & ->). apply wp_bnd, (load_then n nx o d es); try done.
  { intros e d' He Hh'. by apply post_fault. }
  intros img d' Hi Hh'. pose proof (rr_find_spec es img key Hi Hes) as Hfd. destruct (reg_map es !! key) as [r|] eqn:E.
  - destruct Hfd as (i & -> & He & _). destruct (Z.ltb_spec (Z.of_nat i) 0); [lia|]. rewrite (img_for_count es) by done.
    destruct (swap_out_keys i es _ He (proj1 (proj2 Hes))) as [_ Hm]. cbn in Hm. rewrite <- Hm.
    pose proof (swap_img_for es img i Hi (lookup_lt_Some _ _ _ He)) as Hi'.
    pose proof (post_store n nx nx o d' (swap_out i es) _ 0 Hh' ltac:(lia) Hi' (reg_ok_swap es i _ Hes He)) as Hw.
    unfold wp, mbnd in *. destruct (rr_store _ d') as [[] ?]; exact Hw.
  - rewrite Hfd. apply wp_fail, post_same; eauto.
Qed.

(** ** Bootstrap *)

Definition zero_image : rr_image :=
  mk_rr_image (mk_rr_hdr RR_MAGIC RR_VERSION 0) (replicate (Z.to_nat MAX_ROOTS) (mk_rr_entry 0 0)).

Lemma zero_img_for : img_for [] zero_image.
Proof. split_and!; [done| |done]. cbn. rewrite len_replicate. lia. Qed.

Lemma reg_ok_nil : reg_ok [].
Proof. split_and!; [unfold len; cbn; lia|constructor|constructor]. Qed.

Lemma init_registered n nx o d m : holds n nx o d -> registry o m ->
  wp (rootreg_init MAX_ROOTS;;; mret 0) d (reg_post n nx o (reg_step nx m RrInit)).
Proof.
  intros Hh Hr. unfold rootreg_init. pose proof Hr as (es & Ho & Hes & ->). apply wp_bnd, wp_bnd, wp_try.
  eapply wp_mono; [by apply (rr_load_spec n nx o d es)|]. cbv beta. intros r d' [Hh' [(img & -> & Hi)|(e & He & ->)]].
  - apply wp_ret. apply (post_same n nx o (reg_map es)); eauto.
  - pose proof (fault_plain e He) as Hp. pose proof (post_fault n nx o (reg_step nx (reg_map es) RrInit) d' e Hh' He) as Hf.
    destruct e; try done; by destruct Hp as (_ & _ & _ & _ & ? & _).
Qed.

(** An empty root is given an empty registry by one update. *)
Lemma init_virgin n nx o d : holds n nx o d -> o !! BLOB_ROOT = Some [] ->
  wp (rootreg_init MAX_ROOTS;;; mret 0) d (reg_post n nx o (Ok 0, ∅)).
Proof.
  intros Hh Ho. unfold rootreg_init, rr_load. apply wp_bnd, wp_bnd, wp_try, wp_bnd.
  assert (forall sz, 0 <= sz -> get_reply o BLOB_ROOT sz = Ok []) as Hg.
  { intros sz Hsz. unfold get_reply. rewrite Ho. destruct (Z.ltb_spec sz (len (@nil Z))); [unfold len in *; cbn in *; lia|done]. }
  assert (forall e d', fault e -> holds n nx o d' -> reg_post n nx o (Ok 0, ∅) (Err e) d') as Hf by (intros; by apply post_fault).
  assert (forall e, fault e -> e <> ENOTSUP /\ e <> ENOMEM) as Hne by (intros e He; destruct (fault_plain e He) as (_ & _ & ? & _ & ? & _); done).
  eapply wp_mono; [apply (get_law n _ _ _ _ _ Hh); unfold BLOB_ROOT; lia|]. cbv beta. intros r d' [Hh' [->|(e & He & ->)]].
  2: { specialize (Hf e d' He Hh'). destruct (Hne e He). by destruct e. }
  rewrite Hg by (unfold RR_IMAGE_MAX, RR_HDR_LEN, RR_ENTRY_LEN; lia). apply wp_fail. apply wp_bnd, wp_try.
  eapply wp_mono; [apply (get_law n _ _ _ _ _ Hh'); unfold BLOB_ROOT; lia|]. cbv beta. intros r d2 [Hh2 [->|(e & He & ->)]].
  2: { specialize (Hf e d2 He Hh2). destruct (Hne e He). by destruct e. }
  rewrite Hg by (unfold RR_HDR_LEN; lia). change (len [] >? 0) with false. cbv iota. fold zero_image.
  pose proof (post_store n nx nx o d2 [] zero_image 0 Hh2 ltac:(lia) zero_img_for reg_ok_nil) as Hw.
  unfold wp, mbnd in *. destruct (rr_store _ d2) as [[] ?]; exact Hw.
Qed.

(** A bootstrap that reports success has left an empty registry. *)
Lemma init_ready n nx o d : holds n nx o d -> o !! BLOB_ROOT = Some [] -> fst ((rootreg_init MAX_ROOTS;;; mret 0) d) = Ok 0 ->
  exists nx' o', holds n nx' o' (snd ((rootreg_init MAX_ROOTS;;; mret 0) d)) /\ registry o' ∅.
Proof.
  intros Hh Ho E. pose proof (wp_out _ _ _ (init_virgin n nx o d Hh Ho)) as (nx' & o' & Hh' & _ & _ & [[_ Hr]|(e & _ & Ee & _)]); [by exists nx', o'|].
  by rewrite E in Ee.
Qed.

(** ** Every operation *)

Lemma registry_step c n nx o d m : holds (S n) nx o d -> registry o m -> rr_call_ok c ->
  wp (rr_exec c) d (reg_post n nx o (reg_step nx m c)).
Proof.
  intros Hh Hr Hc. assert (holds n nx o d) as Hh' by (apply (holds_le (S n)); [lia|done]).
  destruct c; cbn [rr_exec]; [by apply init_registered|by apply rr_get_spec|by apply get_or_create_spec| |by apply unregister_spec].
  destruct Hc. by apply rr_set_spec.
Qed.

(** The walk shows the callback every registered pair, each once. *)
Lemma iterate_spec {U} n nx o d m (cb : Z -> Z -> U -> Z * U) u : holds n nx o d -> registry o m ->
  exists es, pair_of <$> es ≡ₚ map_to_list m /\
    wp (rootreg_iterate MAX_ROOTS (Some cb) u) d (answer fault (holds n nx o) (Ok (rr_visit cb es u))).
Proof.
  intros Hh (es & Ho & Hes & ->). exists es. split.
  - unfold reg_map. symmetry. apply map_to_list_to_map. rewrite reg_keys. apply Hes.
  - cbn [rootreg_iterate]. apply (load_then n nx o d es); try done; [intros e d' He Hh'; split; eauto|].
    intros img d' Hi Hh'. apply wp_ret. split; [done|left]. by rewrite (img_for_count es), (proj2 (proj2 Hi)).
Qed.

(** ** A root that belongs to someone else *)

Definition foreign (b : bytes) : Prop :=
  b <> [] /\ (len b < RR_HDR_LEN \/ slice 0 4 b <> RR_MAGIC \/ rd 2 4 b <> RR_VERSION).

Definition bad_args (c : rr_call) : bool :=
  match c with
  | RrInit => false
  | RrGet key | RrGetOrCreate key | RrUnregister key => key =? 0
  | RrSet key root_id => (key =? 0) || (root_id =? 0)
  end.

Definition foreign_code (b : bytes) : errno := if RR_IMAGE_MAX MAX_ROOTS <? len b then ENOMEM else ENOTSUP.

Lemma load_foreign n nx o d b : holds n nx o d -> o !! BLOB_ROOT = Some b -> foreign b ->
  wp (rr_load MAX_ROOTS) d (answer fault (holds n nx o) (Err (foreign_code b))).
Proof.
  intros Hh Ho [_ Hf]. unfold rr_load, foreign_code. apply wp_bnd.
  eapply wp_mono; [apply (get_law n _ _ _ _ _ Hh); unfold BLOB_ROOT; lia|]. cbv beta. intros r d' [Hh' [->|(e & He & ->)]]; [|split; eauto].
  unfold get_reply. rewrite Ho. destruct (RR_IMAGE_MAX MAX_ROOTS <? len b); [by split; eauto|].
  destruct (Z.ltb_spec (len b) RR_HDR_LEN); [by split; eauto|]. cbn [dec_rr_image ri_hdr dec_rr_hdr rr_magic rr_version].
  destruct (_ || _) eqn:E; [by split; eauto|exfalso]. apply orb_false_iff in E as [E1 E2].
  apply negb_false_iff, bool_decide_eq_true in E1. apply negb_false_iff, Z.eqb_eq in E2. destruct Hf as [?|[?|?]]; [lia|done|done].
Qed.

(** A program that starts by loading ends with the load's error. *)
Lemma load_fails {A} n nx o d e (k : rr_image -> M D A) :
  wp (rr_load MAX_ROOTS) d (answer fault (holds n nx o) (Err e)) -> wp (mbnd (rr_load MAX_ROOTS) k) d (answer fault (holds n nx o) (Err e)).
Proof.
  intros Hl. apply wp_bnd. eapply wp_mono; [exact Hl|]. cbv beta. intros r d' [Hh [->|(e' & He & ->)]]; split; eauto.
Qed.

Lemma then_zero n nx o d e (m : M D unit) :
  wp m d (answer fault (holds n nx o) (Err e)) -> wp (m;;; mret 0) d (answer fault (holds n nx o) (Err e)).
Proof.
  intros Hl. apply wp_bnd. eapply wp_mono; [exact Hl|]. cbv beta. intros r d' [Hh [->|(e' & He & ->)]]; split; eauto.
Qed.

Lemma init_foreign n nx o d b : holds n nx o d -> o !! BLOB_ROOT = Some b -> foreign b ->
  wp (rootreg_init MAX_ROOTS) d (answer fault (holds n nx o) (Err (foreign_code b))).
Proof.
  intros Hh Ho Hf. unfold rootreg_init. apply wp_bnd, wp_try. eapply wp_mono; [by apply (load_foreign n nx o d b)|]. cbv beta.
  assert (forall e, fault e -> e <> ENOTSUP /\ e <> ENOMEM) as Hne by (intros e He; destruct (fault_plain e He) as (_ & _ & ? & _ & ? & _); done).
  intros r d' [Hh' [->|(e & He & ->)]].
  2: { assert (answer fault (holds n nx o) (Err (foreign_code b)) (@Err unit e) d') as Hx by (split; eauto). destruct (Hne e He). by destruct e. }
  unfold foreign_code. destruct (RR_IMAGE_MAX MAX_ROOTS <? len b); [split; eauto|].
  apply wp_bnd, wp_try. eapply wp_mono; [apply (get_law n _ _ _ _ _ Hh'); unfold BLOB_ROOT; lia|]. cbv beta. intros r d2 [Hh2 [->|(e & He & ->)]].
  - unfold get_reply. rewrite Ho. destruct (RR_HDR_LEN <? len b); [split; eauto|]. destruct (Z.gtb_spec (len b) 0); [split; eauto|].
    destruct Hf as [Hb _]. destruct b; [done|]. rewrite len_cons in *. pose proof (len_nonneg b). lia.
  - assert (answer fault (holds n nx o) (Err ENOTSUP) (@Err unit e) d2) as Hx by (split; eauto). destruct (Hne e He). by destruct e.
Qed.

Lemma foreign_step c n nx o d b : holds n nx o d -> o !! BLOB_ROOT = Some b -> foreign b ->
  wp (rr_exec c) d (answer fault (holds n nx o) (Err (if bad_args c then EINVAL else foreign_code b))).
Proof.
  intros Hh Ho Hf. pose proof (load_foreign n nx o d b Hh Ho Hf) as Hl.
  assert (forall key, wp (rootreg_get MAX_ROOTS key false) d (answer fault (holds n nx o) (Err (if key =? 0 then EINVAL else foreign_code b)))) as Hget.
  { intros key. unfold rootreg_get. rewrite orb_false_r. destruct (key =? 0); [by split; eauto|]. by apply load_fails. }
  destruct c; cbn [rr_exec bad_args].
  - by apply then_zero, (init_foreign n nx o d b).
  - apply Hget.
  - unfold rootreg_get_or_create. apply wp_bnd, wp_try. eapply wp_mono; [apply Hget|]. cbv beta. intros r d' [Hh' Hr].
    assert (forall e, r = Err e -> answer fault (holds n nx o) (Err (if key =? 0 then EINVAL else foreign_code b)) (@Err Z e) d') as Hx by (intros ? ->; split; done).
    destruct Hr as [->|(e & He & ->)].
    + specialize (Hx _ eq_refl). unfold foreign_code in *. by destruct (key =? 0), (RR_IMAGE_MAX MAX_ROOTS <? len b).
    + specialize (Hx _ eq_refl). pose proof (fault_plain e He) as (_ & ? & _). by destruct e.
  - apply then_zero. unfold rootreg_set. destruct (_ || _); [by split; eauto|]. by apply load_fails.
  - apply then_zero. unfold rootreg_unregister. destruct (key =? 0); [by split; eauto|]. by apply load_fails.
Qed.
End spec.
