(* ===== verification/KvHash.v ===== *)
(** lib/containers/kvhash/kvhash.c: a map from byte strings to byte strings, kept
    in a directory object, one packed object per bucket, and objects of their own
    for long keys and values. The build has no test hooks: FP_MASK is all ones
    and power_cut() is 0. *)

From S2P Require Import BlobIface Prelude Layout.

Definition KVHASH_DIR_MAGIC : Z := 0x4b564841.
Definition KVHASH_DIR_DYING : Z := 0x4b564844.
Definition KVHASH_VERSION : Z := 3.
Definition KVHASH_VERSION_MIN : Z := 2.
Definition DIR_HDR_LEN : Z := 8.
Definition ENTRY_HDR_LEN : Z := 4.
Definition ENT_SPILL : Z := 0x8000.
Definition ENT_LEN_MASK : Z := 0x7fff.
Definition KEY_REF_LEN : Z := 12.
Definition VAL_REF_LEN : Z := 8.
Definition KEY_CHUNK : Z := 64.
Definition DEFAULT_BUCKETS : Z := 8.
Definition SMALL_MAP_LOAD : Z := 4.
Definition ONE_LEVEL_MAX_BUCKETS : Z := 255.
Definition MIN_BUCKET_BYTES : Z := 4096.
Definition BUCKET_FILL_PCT : Z := 60.
Definition FP_MASK : Z := 0xffffffff.
Definition SIZE_MAX : Z := UINT32_MAX.

(** ** Accessors *)

Definition get_u16 (buf : bytes) (off : Z) : Z := rd 2 off buf.
Definition get_u32 (buf : bytes) (off : Z) : Z := rd 4 off buf.
Definition get_u64 (buf : bytes) (off : Z) : Z := rd 8 off buf.
Definition put_u16 (off v : Z) (buf : bytes) : bytes := splice off (le 2 v) buf.
Definition put_u32 (off v : Z) (buf : bytes) : bytes := splice off (le 4 v) buf.
Definition put_u64 (off v : Z) (buf : bytes) : bytes := splice off (le 8 v) buf.

Definition hash_fp (h : Z) : Z := Z.land h FP_MASK.
Definition idx_top (h n : Z) : Z := u16 (Z.shiftr h 16 mod n).
Definition idx_sub (h n : Z) : Z := u16 (Z.land h 0xffff mod n).

Definition dir_len (n : Z) : Z := DIR_HDR_LEN + n * 8.
Definition dir_child (buf : bytes) (idx : Z) : Z := get_u64 buf (DIR_HDR_LEN + idx * 8).
Definition dir_set_child (idx id : Z) (buf : bytes) : bytes := put_u64 (DIR_HDR_LEN + idx * 8) id buf.

(** [dir_format()] in a buffer: the first [dir_len n] bytes are written. *)
Definition dir_format (n depth : Z) (buf : bytes) : bytes :=
  let buf := splice 0 (replicate (Z.to_nat (dir_len n)) 0) buf in
  let buf := put_u32 0 KVHASH_DIR_MAGIC buf in
  let buf := put_u16 4 n buf in
  splice 7 [depth] (splice 6 [KVHASH_VERSION] buf).

(** The order of memcmp(): its sign. *)
Fixpoint memcmp (a b : bytes) : Z :=
  match a, b with
  | x :: a, y :: b => if x =? y then memcmp a b else if x <? y then -1 else 1
  | _, _ => 0
  end.

(** ** One entry of a packed bucket *)

Record ent := mk_ent {
  e_len : Z; e_kl : Z; e_vl : Z; e_kspill : bool; e_vspill : bool; e_kpos : Z; e_vpos : Z;
}.

(** The parse of the header at [off], and whether the entry is whole. *)
Definition ent_at (buf : bytes) (off : Z) : ent :=
  let kf := get_u16 buf off in
  let vf := get_u16 buf (off + 2) in
  let kspill := negb (Z.land kf ENT_SPILL =? 0) in
  let vspill := negb (Z.land vf ENT_SPILL =? 0) in
  let kl := Z.land kf ENT_LEN_MASK in
  let vl := Z.land vf ENT_LEN_MASK in
  let kpos := off + ENTRY_HDR_LEN in
  let kstored := if kspill then KEY_REF_LEN else kl in
  mk_ent (ENTRY_HDR_LEN + kstored + (if vspill then VAL_REF_LEN else vl)) kl vl kspill vspill kpos (kpos + kstored).

Definition bkt_entry (buf : bytes) (used off : Z) : option ent :=
  if off + ENTRY_HDR_LEN >? used then None
  else let e := ent_at buf off in if off + e_len e <=? used then Some e else None.

(** [for (off = 0; bkt_entry(buf, used, off, &e); off += e.len)]: the offsets and
    entries the loop passes. An entry has at least four bytes. *)
Fixpoint bkt_walk (fuel : nat) (buf : bytes) (used off : Z) : list (Z * ent) :=
  match fuel with
  | O => []
  | S fuel =>
      match bkt_entry buf used off with
      | None => []
      | Some e => (off, e) :: bkt_walk fuel buf used (off + e_len e)
      end
  end.

Definition bkt_ents (buf : bytes) (used : Z) : list (Z * ent) := bkt_walk (Z.to_nat used) buf used 0.

Definition ent_key_id (buf : bytes) (e : ent) : Z := if e_kspill e then get_u64 buf (e_kpos e + 4) else 0.
Definition ent_val_id (buf : bytes) (e : ent) : Z := if e_vspill e then get_u64 buf (e_vpos e) else 0.

(** A key in RAM (what a pointer to it reads) or in an object. *)
Record key_src := mk_key_src { ks_p : option bytes; ks_id : Z }.

Definition ent_key (buf : bytes) (e : ent) : key_src :=
  if e_kspill e then mk_key_src None (get_u64 buf (e_kpos e + 4)) else mk_key_src (Some (zd (e_kpos e) buf)) 0.

(** What the caller declares, and what a map reports. *)
Record map_config := mk_map_config { expected_entries : Z; typical_entry_bytes : Z; max_entry_bytes : Z }.
Record map_info := mk_map_info { mi_depth : Z; mi_fanout : Z; mi_buckets : Z; mi_entry_bytes_limit : Z }.

(** [while (side * side < buckets) side++]. *)
Fixpoint side_loop (fuel : nat) (side buckets : Z) : Z :=
  match fuel with
  | O => side
  | S fuel => if u32 (side * side) <? buckets then side_loop fuel (side + 1) buckets else side
  end.

Section kvhash.
Context `{Crc} {D : Type} `{!Blobs D}.
Notation MAX_PAYLOAD := (blob_max (D := D)).

Definition MAX_BUCKETS : Z := (MAX_PAYLOAD - DIR_HDR_LEN) / 8.
Definition ENTRY_LIMIT : Z := MAX_PAYLOAD - ENTRY_HDR_LEN.

Definition key_hash (key : bytes) : Z := crc32_ieee key.
Definition key_fp (key : bytes) : Z := hash_fp (key_hash key).

Definition ent_fp (buf : bytes) (e : ent) : Z :=
  if e_kspill e then get_u32 buf (e_kpos e) else key_fp (slice (e_kpos e) (e_kl e) buf).

(** ** The state: the store, the two file-scope buffers, the spill thresholds *)

Record kvh := mk_kvh { kv_dev : D; dir_buf : bytes; bkt_buf : bytes; key_inline_max : Z; val_inline_max : Z }.

Definition set_dir (b : bytes) (s : kvh) : kvh := mk_kvh (kv_dev s) b (bkt_buf s) (key_inline_max s) (val_inline_max s).
Definition set_bkt (b : bytes) (s : kvh) : kvh := mk_kvh (kv_dev s) (dir_buf s) b (key_inline_max s) (val_inline_max s).
Definition set_dev (d : D) (s : kvh) : kvh := mk_kvh d (dir_buf s) (bkt_buf s) (key_inline_max s) (val_inline_max s).

Definition on_dev {A} (m : M D A) : M kvh A := fun s => let (r, d) := m (kv_dev s) in (r, set_dev d s).

Definition kv_update (id : Z) (payload : bytes) : M kvh unit := on_dev (blob_update id payload).
Definition kv_delete (id : Z) : M kvh unit := on_dev (blob_delete id).

(** [blob_db_get()] into a buffer: the bytes past the payload stay as they were. *)
Definition get_dir (id : Z) : M kvh Z :=
  let* b := on_dev (blob_get id MAX_PAYLOAD) in
  mmod (fun s => set_dir (splice 0 b (dir_buf s)) s);;; mret (len b).
Definition get_bkt (id : Z) : M kvh Z :=
  let* b := on_dev (blob_get id MAX_PAYLOAD) in
  mmod (fun s => set_bkt (splice 0 b (bkt_buf s)) s);;; mret (len b).

Definition kvhash_set_inline_max (key_max val_max : Z) : M kvh unit :=
  mmod (fun s => mk_kvh (kv_dev s) (dir_buf s) (bkt_buf s) (Z.min key_max ENT_LEN_MASK) (Z.min val_max ENT_LEN_MASK)).

(** ** Directories *)

(** [dir_load_raw()]: n, depth and whether a destroy has committed. *)
Definition dir_load_raw (root : Z) : M kvh (Z * Z * bool) :=
  let* got := get_dir root in
  if got <? DIR_HDR_LEN then mfail EIO
  else
    let* buf := mgets dir_buf in
    let magic := get_u32 buf 0 in
    if negb (magic =? KVHASH_DIR_MAGIC) && negb (magic =? KVHASH_DIR_DYING) then mfail EIO
    else
      let version := byte_at 6 buf in
      if (version <? KVHASH_VERSION_MIN) || (version >? KVHASH_VERSION) then mfail EIO
      else
        let n := get_u16 buf 4 in
        let depth := byte_at 7 buf in
        if (n <? 2) || (n >? MAX_BUCKETS) || (got <? dir_len n) then mfail EIO
        else if negb (depth =? 1) && negb (depth =? 2) then mfail EIO
        else mret (n, depth, magic =? KVHASH_DIR_DYING).

Definition dir_load (root : Z) : M kvh (Z * Z) :=
  let* '(n, depth, dying) := dir_load_raw root in
  if (dying : bool) then mfail ENOENT else mret (n, depth).

(** [resolve_leaf()]: the leaf's root, its n and the bucket's index in it. *)
Definition resolve_leaf (root h : Z) : M kvh (Z * Z * Z) :=
  let* '(n, depth) := dir_load root in
  if depth =? 1 then mret (root, n, idx_sub h n)
  else
    let* buf := mgets dir_buf in
    let sub := dir_child buf (idx_top h n) in
    if sub =? 0 then mfail EIO
    else
      let* '(n, sub_depth) := dir_load sub in
      if negb (sub_depth =? 1) then mfail EIO else mret (sub, n, idx_sub h n).

Definition sub_load (sub : Z) : M kvh Z :=
  if sub =? 0 then mfail EIO
  else
    let* '(n, depth) := dir_load sub in
    if depth =? 1 then mret n else mfail EIO.

Definition top_child (root t : Z) : M kvh Z :=
  let* '(n, _) := dir_load root in
  if t >=? n then mfail EIO else mgets (fun s => dir_child (dir_buf s) t).

(** ** Keys *)

(** [key_chunk()]: [n] bytes of key [k] from [pos]. *)
Definition key_chunk (k : key_src) (pos n : Z) : M kvh bytes :=
  match ks_p k with
  | Some p => mret (slice pos n p)
  | None =>
      if ks_id k =? 0 then mfail EIO
      else
        let* rc := mtry (on_dev (blob_read (ks_id k) pos n)) in
        match rc with
        | Err ENOENT => mfail EIO
        | Err e => mfail e
        | Ok b => if len b =? n then mret b else mfail EIO
        end
  end.

(** The streamed comparison of [key_cmp_bytes()], chunk by chunk from [pos]. *)
Fixpoint key_cmp_chunks (fuel : nat) (a b : key_src) (l pos : Z) : M kvh Z :=
  match fuel with
  | O => mret 0
  | S fuel =>
      if pos <? l then
        let n := Z.min KEY_CHUNK (l - pos) in
        let* ca := key_chunk a pos n in
        let* cb := key_chunk b pos n in
        let cmp := memcmp ca cb in
        if negb (cmp =? 0) then mret cmp else key_cmp_chunks fuel a b l (pos + KEY_CHUNK)
      else mret 0
  end.

(** [key_cmp_bytes()]; with [scratch] the buffer is dir_buf. *)
Definition key_cmp_bytes (a b : key_src) (l : Z) (scratch : bool) : M kvh Z :=
  match ks_p a, ks_p b with
  | Some pa, Some pb => mret (memcmp (zt l pa) (zt l pb))
  | Some pa, None =>
      if scratch && (l <=? MAX_PAYLOAD) then
        let* c := key_chunk b 0 l in
        mmod (fun s => set_dir (splice 0 c (dir_buf s)) s);;; mret (memcmp (zt l pa) c)
      else key_cmp_chunks (Z.to_nat l) a b l 0
  | None, Some pb =>
      if scratch && (l <=? MAX_PAYLOAD) then
        let* c := key_chunk a 0 l in
        mmod (fun s => set_dir (splice 0 c (dir_buf s)) s);;; mret (memcmp c (zt l pb))
      else key_cmp_chunks (Z.to_nat l) a b l 0
  | None, None => key_cmp_chunks (Z.to_nat l) a b l 0
  end.

(** ** Searching a bucket *)

Fixpoint bkt_find_loop (es : list (Z * ent)) (buf key : bytes) (fp : Z) : M kvh (Z * ent) :=
  match es with
  | [] => mfail ENOENT
  | (off, e) :: es =>
      if negb (e_kl e =? len key) then bkt_find_loop es buf key fp
      else if negb (e_kspill e) then
        if negb (memcmp (slice (e_kpos e) (len key) buf) key =? 0) then bkt_find_loop es buf key fp else mret (off, e)
      else if negb (get_u32 buf (e_kpos e) =? fp) then bkt_find_loop es buf key fp
      else
        let* cmp := key_cmp_bytes (ent_key buf e) (mk_key_src (Some key) 0) (len key) true in
        if negb (cmp =? 0) then bkt_find_loop es buf key fp else mret (off, e)
  end.

(** [bkt_find()] on the bucket in bkt_buf, with dir_buf for scratch. *)
Definition bkt_find (used : Z) (key : bytes) (fp : Z) : M kvh (Z * ent) :=
  let* buf := mgets bkt_buf in
  bkt_find_loop (bkt_ents buf used) buf key fp.

Definition release_part (id : Z) : M kvh unit :=
  if id =? 0 then mret tt else mtry (kv_delete id);;; mret tt.

(** ** Geometry *)

(** [derive_geometry()]: depth, n_top and n_sub. *)
Definition derive_geometry (cfg : option map_config) : res (Z * Z * Z) :=
  let entries := match cfg with Some c => expected_entries c | None => 0 end in
  let typical := match cfg with Some c => typical_entry_bytes c | None => 0 end in
  let maxent := match cfg with Some c => max_entry_bytes c | None => 0 end in
  if negb (maxent =? 0) && (maxent >? ENTRY_LIMIT) then Err EINVAL
  else if negb (typical =? 0) && negb (maxent =? 0) && (typical >? maxent) then Err EINVAL
  else if entries =? 0 then Ok (1, DEFAULT_BUCKETS, 0)
  else
    let load :=
      if negb (maxent =? 0) then
        let by_size := MAX_PAYLOAD * BUCKET_FILL_PCT / 100 / maxent in
        let load := if by_size <? SMALL_MAP_LOAD then by_size else SMALL_MAP_LOAD in
        if load =? 0 then 1 else load
      else SMALL_MAP_LOAD in
    let want := Z.max (u32 (entries + load - 1) / load) 2 in
    if (want <=? ONE_LEVEL_MAX_BUCKETS) && (want <=? MAX_BUCKETS) then Ok (1, want, 0)
    else
      let buckets := if negb (typical =? 0) then Z.min entries (u32 (entries * typical) / MIN_BUCKET_BYTES) else entries in
      let buckets := Z.max buckets ONE_LEVEL_MAX_BUCKETS in
      let side := Z.max (side_loop (Z.to_nat 65536) 1 buckets) 2 in
      if side >? MAX_BUCKETS then Err EINVAL else Ok (2, u16 side, u16 side).

Definition fill_info (depth n_top n_sub : Z) : map_info :=
  mk_map_info depth (if depth =? 2 then n_top else 0) (if depth =? 2 then u32 (n_top * n_sub) else n_top) ENTRY_LIMIT.

(** ** map_ops *)

(** The loop of [kvhash_create()] over the sub-maps, [i] to n_top. *)
Fixpoint create_subs (fuel : nat) (i n_sub : Z) : M kvh unit :=
  match fuel with
  | O => mret tt
  | S fuel =>
      let* sub := on_dev blob_alloc_id in
      if sub =? 0 then mfail ENOSPC
      else
        let* b := mgets bkt_buf in
        kv_update sub (zt (dir_len n_sub) b);;;
        mmod (fun s => set_dir (dir_set_child i sub (dir_buf s)) s);;;
        create_subs fuel (i + 1) n_sub
  end.

Definition kvhash_create (root : Z) (cfg : option map_config) : M kvh unit :=
  let* '(depth, n_top, n_sub) := mlift (derive_geometry cfg) in
  if depth =? 1 then
    mmod (fun s => set_dir (dir_format n_top 1 (dir_buf s)) s);;;
    let* b := mgets dir_buf in
    kv_update root (zt (dir_len n_top) b)
  else
    mmod (fun s => set_dir (dir_format n_top 2 (dir_buf s)) s);;;
    mmod (fun s => set_bkt (dir_format n_sub 1 (bkt_buf s)) s);;;
    create_subs (Z.to_nat n_top) 0 n_sub;;;
    let* b := mgets dir_buf in
    kv_update root (zt (dir_len n_top) b).

Definition kvhash_stat (root : Z) (out_null : bool) : M kvh map_info :=
  if out_null then mfail EINVAL
  else
    let* '(n, depth) := dir_load root in
    if depth =? 1 then mret (fill_info 1 n 0)
    else
      let* buf := mgets dir_buf in
      let sub := dir_child buf 0 in
      if sub =? 0 then mfail EIO
      else
        let* '(n_sub, _) := dir_load sub in
        mret (fill_info 2 n n_sub).

(** [ent_value()]: the value's bytes, wherever they live. *)
Definition ent_value (buf : bytes) (e : ent) (out_sz : Z) : M kvh bytes :=
  if e_vl e >? out_sz then mfail ENOMEM
  else if negb (e_vspill e) then mret (slice (e_vpos e) (e_vl e) buf)
  else
    let vid := ent_val_id buf e in
    if vid =? 0 then mfail EIO
    else
      let* rc := mtry (on_dev (blob_get vid out_sz)) in
      match rc with
      | Err ENOENT | Err ENOMEM => mfail EIO
      | Err e => mfail e
      | Ok b => if len b =? e_vl e then mret b else mfail EIO
      end.

Definition kvhash_get (root : Z) (key : option bytes) (out_sz : Z) : M kvh bytes :=
  match key with
  | None => mfail EINVAL
  | Some key =>
      if (len key =? 0) || (len key >? 0xffff) then mfail EINVAL
      else if len key >? ENT_LEN_MASK then mfail ENOENT
      else
        let h := key_hash key in
        let* '(leaf, leaf_n, idx) := resolve_leaf root h in
        let* dir := mgets dir_buf in
        let bid := dir_child dir idx in
        if bid =? 0 then mfail ENOENT
        else
          let* used := get_bkt bid in
          let* '(off, e) := bkt_find used key (hash_fp h) in
          let* buf := mgets bkt_buf in
          ent_value buf e out_sz
  end.

(** What [kvhash_set()] knows of the entry it replaces: the parse, and the ids of
    its spilled parts. *)
Record old_ent := mk_old_ent { old_e : ent; old_kid : Z; old_vid : Z }.

(** Dropping the entry at [off] from the bucket in bkt_buf: the new [used]. *)
Definition bkt_drop (off elen used : Z) : M kvh Z :=
  mmod (fun s => set_bkt (splice off (slice (off + elen) (used - off - elen) (bkt_buf s)) (bkt_buf s)) s);;;
  mret (used - elen).

(** [undo:] of [kvhash_set()]. *)
Definition set_undo (vid : Z) (fresh_kid : bool) (kid : Z) (rc : errno) : M kvh unit :=
  release_part vid;;;
  (if fresh_kid then release_part kid else mret tt);;;
  mfail rc.

(** [or_undo m ...]: a failure of [m] goes to [undo:]. *)
Definition or_undo {A} (m : M kvh A) (vid : Z) (fresh_kid : bool) (kid : Z) (k : A -> M kvh unit) : M kvh unit :=
  let* rc := mtry m in
  match rc with Ok a => k a | Err e => set_undo vid fresh_kid kid e end.

(** The new entry, written at [used]. *)
Definition put_entry (used : Z) (key val : bytes) (kspill vspill : bool) (fp kid vid : Z) (b : bytes) : bytes :=
  let b := put_u16 used (Z.lor (len key) (if kspill then ENT_SPILL else 0)) b in
  let b := put_u16 (used + 2) (Z.lor (len val) (if vspill then ENT_SPILL else 0)) b in
  let pos := used + ENTRY_HDR_LEN in
  let b := if kspill then put_u64 (pos + 4) kid (put_u32 pos fp b) else splice pos key b in
  let pos := pos + (if kspill then KEY_REF_LEN else len key) in
  if vspill then put_u64 pos vid b else splice pos val b.

(** Step 2 and 3 of [kvhash_set()]: commit the bucket, release the old parts. *)
Definition set_commit (leaf leaf_n idx bid used need : Z) (key val : bytes) (kspill vspill : bool)
    (fp kid vid : Z) (fresh_kid : bool) (old_kid old_vid : Z) : M kvh unit :=
  mmod (fun s => set_bkt (put_entry used key val kspill vspill fp kid vid (bkt_buf s)) s);;;
  let used := used + need in
  let fresh_bucket := bid =? 0 in
  or_undo
    (if fresh_bucket
     then let* bid := on_dev blob_alloc_id in if bid =? 0 then mfail EIO else mret bid
     else mret bid) vid fresh_kid kid (fun bid =>
  or_undo
    (let* b := mgets bkt_buf in kv_update bid (zt used b)) vid fresh_kid kid (fun _ =>
  or_undo
    (if fresh_bucket
     then mmod (fun s => set_dir (dir_set_child idx bid (dir_buf s)) s);;;
          let* b := mgets dir_buf in kv_update leaf (zt (dir_len leaf_n) b)
     else mret tt) vid fresh_kid kid (fun _ =>
  (if negb (old_kid =? kid) then release_part old_kid else mret tt);;;
  release_part old_vid))).

(** Step 1: bind fresh objects for the spilled parts, then commit. *)
Definition set_bind (leaf leaf_n idx bid used : Z) (key val : bytes) (kspill vspill : bool) (fp : Z) (old : option old_ent) : M kvh unit :=
  let need := ENTRY_HDR_LEN + (if kspill then KEY_REF_LEN else len key) + (if vspill then VAL_REF_LEN else len val) in
  if used + need >? MAX_PAYLOAD then mfail ENOSPC
  else
    let okid := match old with Some o => old_kid o | None => 0 end in
    let ovid := match old with Some o => old_vid o | None => 0 end in
    let kid := match old with Some o => if kspill && e_kspill (old_e o) then okid else 0 | None => 0 end in
    let* '(kid, fresh_kid) :=
      if kspill && (kid =? 0) then
        let* kid := on_dev blob_alloc_id in
        if kid =? 0 then mfail EIO else kv_update kid key;;; mret (kid, true)
      else mret (kid, false) in
    if (vspill : bool) then
      or_undo
        (let* vid := on_dev blob_alloc_id in if vid =? 0 then mfail EIO else mret vid) 0 fresh_kid kid (fun vid =>
      or_undo (kv_update vid val) 0 fresh_kid kid (fun _ =>
        set_commit leaf leaf_n idx bid used need key val kspill vspill fp kid vid fresh_kid okid ovid))
    else set_commit leaf leaf_n idx bid used need key val kspill vspill fp kid 0 fresh_kid okid ovid.

(** [None] for [val] stands for NULL with a length that is not zero. *)
Definition kvhash_set (root : Z) (key val : option bytes) : M kvh unit :=
  match key, val with
  | Some key, Some val =>
      if (len key =? 0) || (len key >? 0xffff) || (len val >? 0xffff) then mfail EINVAL
      else if (len key >? ENT_LEN_MASK) || (len val >? ENT_LEN_MASK) then mfail ENOSPC
      else
        let h := key_hash key in
        let* '(leaf, leaf_n, idx) := resolve_leaf root h in
        let* s := mgets id in
        let can_spill := byte_at 6 (dir_buf s) >=? 3 in
        let kspill := can_spill && (len key >? key_inline_max s) in
        let vspill := can_spill && (len val >? val_inline_max s) in
        if kspill && (len key >? MAX_PAYLOAD) then mfail ENOSPC
        else
          let fp := hash_fp h in
          let bid := dir_child (dir_buf s) idx in
          if negb (bid =? 0) then
            let* used := get_bkt bid in
            let* rc := mtry (bkt_find used key fp) in
            match rc with
            | Ok (off, old) =>
                let* buf := mgets bkt_buf in
                let okid := ent_key_id buf old in
                let ovid := ent_val_id buf old in
                if Bool.eqb (e_kspill old) kspill && e_vspill old && vspill && (e_vl old =? len val) then
                  if ovid =? 0 then mfail EIO else kv_update ovid val
                else
                  let* used := bkt_drop off (e_len old) used in
                  set_bind leaf leaf_n idx bid used key val kspill vspill fp (Some (mk_old_ent old okid ovid))
            | Err ENOENT => set_bind leaf leaf_n idx bid used key val kspill vspill fp None
            | Err e => mfail e
            end
          else set_bind leaf leaf_n idx 0 0 key val kspill vspill fp None
  | _, _ => mfail EINVAL
  end.

Definition kvhash_del (root : Z) (key : option bytes) : M kvh unit :=
  match key with
  | None => mfail EINVAL
  | Some key =>
      if (len key =? 0) || (len key >? 0xffff) then mfail EINVAL
      else if len key >? ENT_LEN_MASK then mfail ENOENT
      else
        let h := key_hash key in
        let* '(leaf, leaf_n, idx) := resolve_leaf root h in
        let* dir := mgets dir_buf in
        let bid := dir_child dir idx in
        if bid =? 0 then mfail ENOENT
        else
          let* used := get_bkt bid in
          let* '(off, e) := bkt_find used key (hash_fp h) in
          let* buf := mgets bkt_buf in
          let kid := ent_key_id buf e in
          let vid := ent_val_id buf e in
          let* used := bkt_drop off (e_len e) used in
          let* b := mgets bkt_buf in
          kv_update bid (zt used b);;;
          release_part kid;;;
          release_part vid
  end.

(** ** Enumeration *)

Record okey := mk_okey { ok_kl : Z; ok_fp : Z; ok_src : key_src }.

Definition okey_cmp (a b : okey) : M kvh Z :=
  if negb (ok_kl a =? ok_kl b) then mret (if ok_kl a <? ok_kl b then -1 else 1)
  else if negb (ok_fp a =? ok_fp b) then mret (if ok_fp a <? ok_fp b then -1 else 1)
  else key_cmp_bytes (ok_src a) (ok_src b) (ok_kl a) false.

Definition ent_okey (buf : bytes) (e : ent) : okey := mk_okey (e_kl e) (ent_fp buf e) (ent_key buf e).

(** The loop of [bkt_first_after()]; [best] is the best entry so far. *)
Fixpoint first_after_loop (es : list (Z * ent)) (buf : bytes) (cursor : option okey) (best : option (Z * ent)) : M kvh Z :=
  match es with
  | [] => match best with Some (off, _) => mret off | None => mfail ENODATA end
  | (off, e) :: es =>
      let k := ent_okey buf e in
      let* c1 := match cursor with Some cur => okey_cmp k cur | None => mret 1 end in
      if c1 <=? 0 then first_after_loop es buf cursor best
      else
        let* c2 := match best with Some (_, be) => okey_cmp k (ent_okey buf be) | None => mret (-1) end in
        if c2 >=? 0 then first_after_loop es buf cursor best
        else first_after_loop es buf cursor (Some (off, e))
  end.

Definition bkt_first_after (used : Z) (cursor : option okey) : M kvh Z :=
  let* buf := mgets bkt_buf in
  first_after_loop (bkt_ents buf used) buf cursor None.

(** [leaf_first_after()], [fuel] buckets from [i] on; the cursor applies to
    bucket [start] only. *)
Fixpoint leaf_first_loop (fuel : nat) (i start : Z) (cursor : option okey) : M kvh Z :=
  match fuel with
  | O => mfail ENODATA
  | S fuel =>
      let* dir := mgets dir_buf in
      let bid := dir_child dir i in
      if bid =? 0 then leaf_first_loop fuel (i + 1) start cursor
      else
        let* used := get_bkt bid in
        let* rc := mtry (bkt_first_after used (if i =? start then cursor else None)) in
        match rc with
        | Err ENODATA => leaf_first_loop fuel (i + 1) start cursor
        | _ => mlift rc
        end
  end.

Definition leaf_first_after (n start : Z) (cursor : option okey) : M kvh Z :=
  leaf_first_loop (Z.to_nat (n - start)) start start cursor.

(** [tree_first_after()], [fuel] sub-maps from [t] on. *)
Fixpoint tree_first_loop (fuel : nat) (root t top_start : Z) (cursor : option okey) (ch : Z) : M kvh Z :=
  match fuel with
  | O => mfail ENODATA
  | S fuel =>
      let* sub := if t =? top_start then mgets (fun s => dir_child (dir_buf s) t) else top_child root t in
      let* sub_n := sub_load sub in
      let here := (t =? top_start) && match cursor with Some _ => true | None => false end in
      let* rc := mtry (leaf_first_after sub_n (if here then idx_sub ch sub_n else 0) (if here then cursor else None)) in
      match rc with
      | Err ENODATA => tree_first_loop fuel root (t + 1) top_start cursor ch
      | _ => mlift rc
      end
  end.

Definition tree_first_after (root n_top top_start : Z) (cursor : option okey) (ch : Z) : M kvh Z :=
  tree_first_loop (Z.to_nat (n_top - top_start)) root top_start top_start cursor ch.

(** [kvhash_next()]; the cursor [Some []] or [None] starts the walk. *)
Definition kvhash_next (root : Z) (key : option bytes) (kout_sz vout_sz : Z) : M kvh (bytes * bytes) :=
  let cur := default [] key in
  if len cur >? 0xffff then mfail EINVAL
  else
    let ch := if len cur =? 0 then 0 else key_hash cur in
    let cursor := if len cur =? 0 then None else Some (mk_okey (len cur) (hash_fp ch) (mk_key_src (Some cur) 0)) in
    let started := match cursor with Some _ => true | None => false end in
    let* '(n, depth) := dir_load root in
    let* off :=
      if depth =? 1 then leaf_first_after n (if started then idx_sub ch n else 0) cursor
      else tree_first_after root n (if started then idx_top ch n else 0) cursor ch in
    let* buf := mgets bkt_buf in
    match bkt_entry buf SIZE_MAX off with
    | None => mfail EIO
    | Some e =>
        if (e_kl e >? kout_sz) || (e_vl e >? vout_sz) then mfail ENOMEM
        else
          let* k := key_chunk (ent_key buf e) 0 (e_kl e) in
          let* v := ent_value buf e vout_sz in
          mret (k, v)
    end.

(** ** Counting *)

Definition bkt_entries (buf : bytes) (used : Z) : Z := len (bkt_ents buf used).

(** [leaf_count()], [fuel] buckets from [i] on. *)
Fixpoint leaf_count_loop (fuel : nat) (i acc : Z) : M kvh Z :=
  match fuel with
  | O => mret acc
  | S fuel =>
      let* dir := mgets dir_buf in
      let bid := dir_child dir i in
      if bid =? 0 then leaf_count_loop fuel (i + 1) acc
      else
        let* used := get_bkt bid in
        let* buf := mgets bkt_buf in
        leaf_count_loop fuel (i + 1) (u32 (acc + bkt_entries buf used))
  end.

Definition leaf_count (n acc : Z) : M kvh Z := leaf_count_loop (Z.to_nat n) 0 acc.

(** The two-level loop of [kvhash_count()], [fuel] sub-maps from [t] on. *)
Fixpoint tree_count_loop (fuel : nat) (root t sub total : Z) : M kvh Z :=
  match fuel with
  | O => mret total
  | S fuel =>
      let* sub := if t =? 0 then mret sub else top_child root t in
      let* sub_n := sub_load sub in
      let* total := leaf_count sub_n total in
      tree_count_loop fuel root (t + 1) sub total
  end.

Definition kvhash_count (root : Z) (out_null : bool) : M kvh Z :=
  if out_null then mfail EINVAL
  else
    let* '(n, depth) := dir_load root in
    if depth =? 1 then leaf_count n 0
    else
      let* sub := mgets (fun s => dir_child (dir_buf s) 0) in
      tree_count_loop (Z.to_nat n) root 0 sub 0.

(** ** Destroying *)

(** [first_err]: the first failure is remembered, the others do not stop. *)
Definition keep_first (first_err : option errno) (e : errno) : option errno :=
  match first_err with None => Some e | _ => first_err end.

(** A delete whose object may already be gone. *)
Definition del_part (id : Z) (first_err : option errno) : M kvh (option errno) :=
  if id =? 0 then mret first_err
  else
    let* rc := mtry (kv_delete id) in
    match rc with
    | Ok _ | Err ENOENT => mret first_err
    | Err e => mret (keep_first first_err e)
    end.

Fixpoint release_ents (es : list (Z * ent)) (buf : bytes) (first_err : option errno) : M kvh (option errno) :=
  match es with
  | [] => mret first_err
  | (_, e) :: es =>
      let* first_err := del_part (ent_key_id buf e) first_err in
      let* first_err := del_part (ent_val_id buf e) first_err in
      release_ents es buf first_err
  end.

Definition release_bucket (bid : Z) : M kvh unit :=
  let* rc := mtry (get_bkt bid) in
  match rc with
  | Err ENOENT => mret tt
  | Err e => mfail e
  | Ok used =>
      let* buf := mgets bkt_buf in
      let* first_err := release_ents (bkt_ents buf used) buf None in
      match first_err with
      | Some e => mfail e
      | None =>
          let* rc := mtry (kv_delete bid) in
          match rc with
          | Ok _ | Err ENOENT => mret tt
          | Err e => mfail e
          end
      end
  end.

(** [release_buckets()]: every bucket named by dir_buf, [fuel] of them from [i]. *)
Fixpoint release_buckets_loop (fuel : nat) (i : Z) (first_err : option errno) : M kvh (option errno) :=
  match fuel with
  | O => mret first_err
  | S fuel =>
      let* dir := mgets dir_buf in
      let bid := dir_child dir i in
      if bid =? 0 then release_buckets_loop fuel (i + 1) first_err
      else
        let* brc := mtry (release_bucket bid) in
        release_buckets_loop fuel (i + 1) (match brc with Ok _ => first_err | Err e => keep_first first_err e end)
  end.

Definition release_buckets (n : Z) : M kvh (option errno) := release_buckets_loop (Z.to_nat n) 0 None.

(** One turn of the two-level loop of [kvhash_destroy()]. *)
Definition destroy_sub (root i : Z) (first_err : option errno) : M kvh (option errno) :=
  let* trc := mtry (dir_load_raw root) in
  match trc with
  | Err e => mret (keep_first first_err e)
  | Ok (top_n, _, _) =>
      if negb (i <? top_n) then mret (keep_first first_err EIO)
      else
        let* sub := mgets (fun s => dir_child (dir_buf s) i) in
        if sub =? 0 then mret first_err
        else
          let* lrc := mtry (dir_load_raw sub) in
          match lrc with
          | Err ENOENT => mret first_err
          | Err e => mret (keep_first first_err e)
          | Ok (sub_n, _, _) =>
              let* brc := release_buckets sub_n in
              match brc with
              | Some e => mret (keep_first first_err e)
              | None =>
                  let* drc := mtry (kv_delete sub) in
                  match drc with
                  | Ok _ | Err ENOENT => mret first_err
                  | Err e => mret (keep_first first_err e)
                  end
              end
          end
  end.

Fixpoint destroy_subs (fuel : nat) (root i : Z) (first_err : option errno) : M kvh (option errno) :=
  match fuel with
  | O => mret first_err
  | S fuel =>
      let* first_err := destroy_sub root i first_err in
      destroy_subs fuel root (i + 1) first_err
  end.

Definition kvhash_destroy (root : Z) : M kvh unit :=
  let* '(n, depth, dying) := dir_load_raw root in
  (if (dying : bool) then mret tt
   else
     mmod (fun s => set_dir (put_u32 0 KVHASH_DIR_DYING (dir_buf s)) s);;;
     let* b := mgets dir_buf in
     kv_update root (zt (dir_len n) b));;;
  let* first_err := if depth =? 1 then release_buckets n else destroy_subs (Z.to_nat n) root 0 None in
  match first_err with
  | Some e => mfail e
  | None => kv_delete root
  end.
End kvhash.
