(* ===== verification/KvHashRep.v ===== *)
(** The structure a kvhash map keeps in the store: entries, packed buckets,
    directories; then the map from keys to values they stand for. *)

From S2P Require Import BlobIface Prelude Layout Records KvHash.

(** ** Length fields *)

Lemma land_spill_small l : 0 <= l <= ENT_LEN_MASK -> Z.land l ENT_SPILL = 0.
Proof.
  intros Hl. unfold ENT_SPILL, ENT_LEN_MASK in *. change 32768 with (2 ^ 15). apply Z.bits_inj'. intros k Hk.
  rewrite Z.land_spec, Z.bits_0, Z.pow2_bits_eqb by lia. destruct (Z.eqb_spec 15 k) as [<-|]; [|apply andb_false_r].
  rewrite andb_true_r. apply Z.testbit_false; [lia|]. by rewrite Z.div_small by (cbn; lia).
Qed.

Lemma lor_spill l : 0 <= l <= ENT_LEN_MASK -> Z.lor l ENT_SPILL = l + ENT_SPILL.
Proof. intros Hl. rewrite <- Z.add_lor_land, land_spill_small by done. lia. Qed.

Lemma land_mask l : 0 <= l <= ENT_LEN_MASK -> Z.land l ENT_LEN_MASK = l /\ Z.land (l + ENT_SPILL) ENT_LEN_MASK = l.
Proof.
  intros Hl. unfold ENT_LEN_MASK, ENT_SPILL in *. change 32767 with (Z.ones 15). rewrite !Z.land_ones by lia.
  change (2 ^ 15) with 32768. split; [rewrite Z.mod_small; lia|]. rewrite <- (Z.mul_1_l 32768) at 1. rewrite Z_mod_plus_full, Z.mod_small; lia.
Qed.

Lemma land_spill_set l : 0 <= l <= ENT_LEN_MASK -> Z.land (l + ENT_SPILL) ENT_SPILL <> 0.
Proof.
  intros Hl. rewrite <- lor_spill by done. rewrite Z.land_lor_distr_l, land_spill_small, Z.land_diag by done. done.
Qed.

(** ** Entries *)

(** An entry: its key and value, and the objects they live in, 0 when they lie
    in the bucket. *)
Record kent := mk_kent { k_key : bytes; k_kid : Z; k_val : bytes; k_vid : Z }.

Definition spilled (id : Z) : bool := negb (id =? 0).
Definition len_field (l id : Z) : Z := Z.lor l (if spilled id then ENT_SPILL else 0).

Section rep.
Context `{Crc}.

Definition key_part (e : kent) : bytes := if spilled (k_kid e) then le 4 (key_fp (k_key e)) ++ le 8 (k_kid e) else k_key e.
Definition val_part (e : kent) : bytes := if spilled (k_vid e) then le 8 (k_vid e) else k_val e.
Definition enc_kent (e : kent) : bytes :=
  le 2 (len_field (len (k_key e)) (k_kid e)) ++ le 2 (len_field (len (k_val e)) (k_vid e)) ++ key_part e ++ val_part e.
Definition bkt_bytes (es : list kent) : bytes := concat (enc_kent <$> es).

Record kent_ok (e : kent) : Prop := {
  ko_key : 0 < len (k_key e) <= ENT_LEN_MASK;
  ko_val : len (k_val e) <= ENT_LEN_MASK;
  ko_kbytes : bytes_ok (k_key e);
  ko_vbytes : bytes_ok (k_val e);
  ko_kid : 0 <= k_kid e < 2 ^ 64;
  ko_vid : 0 <= k_vid e < 2 ^ 64;
}.

(** The parse of [e] at [off]. *)
Definition ent_of (off : Z) (e : kent) : ent :=
  mk_ent (len (enc_kent e)) (len (k_key e)) (len (k_val e)) (spilled (k_kid e)) (spilled (k_vid e))
    (off + ENTRY_HDR_LEN) (off + ENTRY_HDR_LEN + len (key_part e)).

Fixpoint parsed (off : Z) (es : list kent) : list (Z * ent) :=
  match es with
  | [] => []
  | e :: es => (off, ent_of off e) :: parsed (off + len (enc_kent e)) es
  end.

Lemma len_key_part e : len (key_part e) = if spilled (k_kid e) then KEY_REF_LEN else len (k_key e).
Proof. unfold key_part, KEY_REF_LEN. destruct (spilled _); [lens|done]. Qed.

Lemma len_val_part e : len (val_part e) = if spilled (k_vid e) then VAL_REF_LEN else len (k_val e).
Proof. unfold val_part, VAL_REF_LEN. destruct (spilled _); [lens|done]. Qed.

Lemma len_enc_kent e : len (enc_kent e) = ENTRY_HDR_LEN + len (key_part e) + len (val_part e).
Proof. unfold enc_kent, ENTRY_HDR_LEN. lens. Qed.

Lemma len_field_range l id : 0 <= l <= ENT_LEN_MASK -> 0 <= len_field l id < 2 ^ 16.
Proof.
  intros Hl. unfold len_field. destruct (spilled id); [rewrite lor_spill by done|rewrite Z.lor_0_r]; unfold ENT_LEN_MASK, ENT_SPILL in *; cbn; lia.
Qed.

Lemma len_field_flag l id : 0 <= l <= ENT_LEN_MASK -> negb (Z.land (len_field l id) ENT_SPILL =? 0) = spilled id.
Proof.
  intros Hl. unfold len_field. destruct (spilled id).
  - rewrite lor_spill by done. pose proof (land_spill_set l Hl). by destruct (Z.eqb_spec (Z.land (l + ENT_SPILL) ENT_SPILL) 0).
  - rewrite Z.lor_0_r, land_spill_small by done. done.
Qed.

Lemma len_field_len l id : 0 <= l <= ENT_LEN_MASK -> Z.land (len_field l id) ENT_LEN_MASK = l.
Proof.
  intros Hl. unfold len_field. destruct (spilled id); [rewrite lor_spill by done|rewrite Z.lor_0_r]; by apply land_mask.
Qed.

Lemma bytes_ok_enc e : kent_ok e -> bytes_ok (enc_kent e).
Proof.
  intros He. unfold enc_kent, key_part, val_part. rewrite !bytes_ok_app. split_and!; try apply bytes_ok_le.
  - destruct (spilled _); [rewrite bytes_ok_app; split; apply bytes_ok_le|apply He].
  - destruct (spilled _); [apply bytes_ok_le|apply He].
Qed.

Lemma bytes_ok_bkt es : Forall kent_ok es -> bytes_ok (bkt_bytes es).
Proof. intros Hes. apply Forall_concat, Forall_fmap. eapply Forall_impl; [|exact Hes]. intros e. apply bytes_ok_enc. Qed.

(** ** Parsing what was packed *)

(** [e] is packed at [off] in [buf]. *)
Definition packed (buf : bytes) (off : Z) (e : kent) : Prop := 0 <= off /\ slice off (len (enc_kent e)) buf = enc_kent e.

Lemma rd_packed buf off e n k : packed buf off e -> 0 <= k -> k + n <= len (enc_kent e) -> rd n (off + k) buf = rd n k (enc_kent e).
Proof. intros [Ho Hp] Hk Hn. rewrite <- Hp. by rewrite rd_slice by lia. Qed.

Lemma slice_packed buf off e n k : packed buf off e -> 0 <= k -> k + n <= len (enc_kent e) -> slice (off + k) n buf = slice k n (enc_kent e).
Proof. intros [Ho Hp] Hk Hn. rewrite <- Hp. by rewrite slice_slice by lia. Qed.

Lemma len_enc_pos e : kent_ok e -> ENTRY_HDR_LEN <= len (enc_kent e).
Proof. intros _. rewrite len_enc_kent. pose proof (len_nonneg (key_part e)). pose proof (len_nonneg (val_part e)). lia. Qed.

Lemma ent_at_packed buf off e : packed buf off e -> kent_ok e -> ent_at buf off = ent_of off e.
Proof.
  intros Hp He. pose proof (len_enc_pos e He) as Hl. unfold ENTRY_HDR_LEN in Hl. destruct He as [Hk Hv _ _ _ _].
  pose proof (len_nonneg (k_val e)). pose proof (len_field_range (len (k_key e)) (k_kid e) ltac:(lia)) as Rk.
  pose proof (len_field_range (len (k_val e)) (k_vid e) ltac:(lia)) as Rv.
  assert (get_u16 buf off = len_field (len (k_key e)) (k_kid e)) as Ek.
  { unfold get_u16. replace off with (off + 0) by lia. rewrite (rd_packed _ _ e) by (done || lia). unfold enc_kent. by rewrite rd_here by (cbn; lia). }
  assert (get_u16 buf (off + 2) = len_field (len (k_val e)) (k_vid e)) as Ev.
  { unfold get_u16. rewrite (rd_packed _ _ e) by (done || lia). unfold enc_kent. rewrite rd_skip by lens. autorewrite with len. by rewrite rd_here by (cbn; lia). }
  unfold ent_at, ent_of. rewrite Ek, Ev, !len_field_flag, !len_field_len by lia. rewrite len_enc_kent, len_key_part, len_val_part. done.
Qed.

Lemma bkt_entry_packed buf used off e : packed buf off e -> kent_ok e -> off + len (enc_kent e) <= used -> bkt_entry buf used off = Some (ent_of off e).
Proof.
  intros Hp He Hu. pose proof (len_enc_pos e He). unfold bkt_entry. destruct (Z.gtb_spec (off + ENTRY_HDR_LEN) used); [lia|].
  rewrite (ent_at_packed _ _ e) by done. cbn [ent_of e_len]. destruct (Z.leb_spec (off + len (enc_kent e)) used); [done|lia].
Qed.

Lemma bkt_bytes_cons e es : bkt_bytes (e :: es) = enc_kent e ++ bkt_bytes es.
Proof. done. Qed.

Lemma bkt_bytes_app es es' : bkt_bytes (es ++ es') = bkt_bytes es ++ bkt_bytes es'.
Proof. unfold bkt_bytes. by rewrite fmap_app, concat_app. Qed.

Lemma packed_here pre e post : packed (pre ++ enc_kent e ++ post) (len pre) e.
Proof. split; [apply len_nonneg|]. rewrite slice_app_r by lia. rewrite Z.sub_diag. by apply slice_here. Qed.

Lemma parse_from fuel pre es post : Forall kent_ok es -> (length es <= fuel)%nat ->
  bkt_walk fuel (pre ++ bkt_bytes es ++ post) (len pre + len (bkt_bytes es)) (len pre) = parsed (len pre) es.
Proof.
  intros Hes. revert fuel pre. induction Hes as [|e es He Hes IH]; intros fuel pre Hf.
  - destruct fuel; [done|]. cbn [bkt_walk]. unfold bkt_entry. change (len (bkt_bytes [])) with 0. rewrite Z.add_0_r.
    destruct (Z.gtb_spec (len pre + ENTRY_HDR_LEN) (len pre)); [done|unfold ENTRY_HDR_LEN in *; lia].
  - destruct fuel as [|fuel]; [cbn in Hf; lia|]. cbn [bkt_walk parsed]. rewrite bkt_bytes_cons, len_app, <- app_assoc.
    pose proof (len_nonneg (bkt_bytes es)). rewrite (bkt_entry_packed _ _ _ e) by (done || apply packed_here || lia). f_equal.
    cbn [ent_of e_len]. rewrite app_assoc. replace (len pre + len (enc_kent e)) with (len (pre ++ enc_kent e)) by lens.
    replace (len pre + (len (enc_kent e) + len (bkt_bytes es))) with (len (pre ++ enc_kent e) + len (bkt_bytes es)) by lens.
    apply IH. cbn in Hf. lia.
Qed.

Lemma len_bkt_ge es : Forall kent_ok es -> ENTRY_HDR_LEN * len es <= len (bkt_bytes es).
Proof.
  induction 1 as [|e es He Hes IH]; [done|]. rewrite bkt_bytes_cons, len_cons, len_app. pose proof (len_enc_pos e He). lia.
Qed.

Lemma parse_bkt es junk : Forall kent_ok es -> bkt_ents (bkt_bytes es ++ junk) (len (bkt_bytes es)) = parsed 0 es.
Proof.
  intros Hes. pose proof (len_bkt_ge es Hes) as Hl. unfold ENTRY_HDR_LEN, len in Hl. apply (parse_from _ [] es junk Hes). unfold len. lia.
Qed.

(** ** Reading an entry back *)

Lemma len_parsed off es : len (parsed off es) = len es.
Proof. revert off. induction es as [|e es IH]; intros off; [done|]. cbn [parsed]. by rewrite !len_cons, IH. Qed.

Lemma key_inline buf off e : packed buf off e -> k_kid e = 0 -> slice (e_kpos (ent_of off e)) (len (k_key e)) buf = k_key e.
Proof.
  intros Hp Hk. cbn [ent_of e_kpos]. pose proof (len_enc_kent e) as Hl. rewrite len_key_part in Hl. unfold spilled in Hl. rewrite Hk in Hl. cbn in Hl.
  pose proof (len_nonneg (val_part e)). rewrite (slice_packed _ _ e) by (done || unfold ENTRY_HDR_LEN in *; lia).
  unfold enc_kent, key_part, spilled. rewrite Hk. cbn [negb Z.eqb]. rewrite slice_app_r by (unfold ENTRY_HDR_LEN; lens).
  rewrite slice_app_r by (unfold ENTRY_HDR_LEN; lens). autorewrite with len. by apply slice_here.
Qed.

Lemma key_spilled buf off e : packed buf off e -> kent_ok e -> k_kid e <> 0 ->
  0 <= key_fp (k_key e) < 2 ^ 32 -> get_u32 buf (e_kpos (ent_of off e)) = key_fp (k_key e) /\ get_u64 buf (e_kpos (ent_of off e) + 4) = k_kid e.
Proof.
  intros Hp He Hk Hfp. destruct He as [_ _ _ _ Hkid _]. pose proof (len_enc_kent e) as Hl. rewrite len_key_part in Hl.
  assert (spilled (k_kid e) = true) as Hs by (unfold spilled; by destruct (Z.eqb_spec (k_kid e) 0)). rewrite Hs in Hl.
  pose proof (len_nonneg (val_part e)). unfold ENTRY_HDR_LEN, KEY_REF_LEN in Hl. cbn [ent_of e_kpos]. unfold get_u32, get_u64, ENTRY_HDR_LEN.
  rewrite <- Z.add_assoc, !(rd_packed _ _ e) by (done || lia). unfold enc_kent, key_part. rewrite Hs, <- !app_assoc. split.
  - rewrite !rd_skip by lens. autorewrite with len. by rewrite rd_here by (cbn; lia).
  - rewrite !rd_skip by lens. autorewrite with len. by rewrite rd_here by (cbn; lia).
Qed.

Lemma val_read buf off e : packed buf off e -> kent_ok e ->
  if spilled (k_vid e) then get_u64 buf (e_vpos (ent_of off e)) = k_vid e else slice (e_vpos (ent_of off e)) (len (k_val e)) buf = k_val e.
Proof.
  intros Hp He. destruct He as [_ _ _ _ _ Hvid]. pose proof (len_enc_kent e) as Hl. rewrite len_val_part in Hl. cbn [ent_of e_vpos].
  pose proof (len_nonneg (key_part e)). unfold ENTRY_HDR_LEN in *. rewrite <- Z.add_assoc. destruct (spilled (k_vid e)) eqn:Hs.
  - unfold get_u64. unfold VAL_REF_LEN in Hl. rewrite (rd_packed _ _ e) by (done || lia). unfold enc_kent, val_part. rewrite Hs, !rd_skip by lens.
    autorewrite with len. rewrite <- (app_nil_r (le 8 (k_vid e))). replace (4 + len (key_part e) - _ - _ - _) with 0 by lia. by rewrite rd_here by (cbn; lia).
  - rewrite (slice_packed _ _ e) by (done || lia). unfold enc_kent, val_part. rewrite Hs, !slice_app_r by lens. autorewrite with len.
    replace (4 + len (key_part e) - _ - _ - _) with 0 by lia. by apply slice_all.
Qed.

(** ** Directories *)

Definition dir_hdr (magic n ver depth : Z) : bytes := le 4 magic ++ le 2 n ++ [ver; depth].
Definition dir_bytes (magic ver depth : Z) (cs : list Z) : bytes := dir_hdr magic (len cs) ver depth ++ concat (le 8 <$> cs).

Definition ids_ok (cs : list Z) : Prop := Forall (fun id => 0 <= id < 2 ^ 64) cs.

Lemma len_dir_hdr magic n ver depth : len (dir_hdr magic n ver depth) = DIR_HDR_LEN.
Proof. unfold dir_hdr, DIR_HDR_LEN. lens. Qed.

Lemma len_ids cs : len (concat (le 8 <$> cs)) = 8 * len cs.
Proof. rewrite (len_concat_same 8); [by rewrite len_fmap|]. apply Forall_fmap, Forall_true. intros x. apply (len_le 8 x). Qed.

Lemma len_dir_bytes magic ver depth cs : len (dir_bytes magic ver depth cs) = dir_len (len cs).
Proof. unfold dir_bytes, dir_len. rewrite len_app, len_dir_hdr, len_ids. lia. Qed.

Lemma bytes_ok_dir magic ver depth cs : byte_ok ver -> byte_ok depth -> bytes_ok (dir_bytes magic ver depth cs).
Proof.
  intros Hv Hd. unfold dir_bytes, dir_hdr. rewrite !bytes_ok_app. split_and!; try apply bytes_ok_le; [constructor; [done|]; constructor; [done|constructor]|].
  apply Forall_concat, Forall_fmap, Forall_true. intros x. apply bytes_ok_le.
Qed.

Section dir.
Context (magic ver depth : Z) (cs : list Z) (junk : bytes).
Context (Hm : 0 <= magic < 2 ^ 32) (Hn : len cs < 65536) (Hids : ids_ok cs).
Notation buf := (dir_bytes magic ver depth cs ++ junk).

Lemma dir_magic : get_u32 buf 0 = magic.
Proof. unfold get_u32, dir_bytes, dir_hdr. rewrite <- !app_assoc. by rewrite rd_here by (cbn; lia). Qed.

Lemma dir_n : get_u16 buf 4 = len cs.
Proof.
  pose proof (len_nonneg cs). unfold get_u16, dir_bytes, dir_hdr. rewrite <- !app_assoc. rewrite rd_skip by lens. autorewrite with len.
  by rewrite rd_here by (cbn; lia).
Qed.

Lemma dir_ver : byte_at 6 buf = ver.
Proof.
  unfold dir_bytes, dir_hdr. rewrite <- !app_assoc. cbn [app]. rewrite (app_assoc (le 4 _)). apply byte_at_app. lens.
Qed.

Lemma dir_depth : byte_at 7 buf = depth.
Proof.
  unfold dir_bytes, dir_hdr. rewrite <- !app_assoc. cbn [app]. change (ver :: depth :: ?x) with ([ver] ++ depth :: x).
  rewrite !(app_assoc (le _ _)), (app_assoc _ [ver]). apply byte_at_app. lens.
Qed.

Lemma dir_child_at i id : cs !! i = Some id -> dir_child buf (Z.of_nat i) = id.
Proof.
  intros Hi. pose proof (Forall_lookup_1 _ _ _ _ Hids Hi) as Hr. unfold dir_child, get_u64, rd, dir_bytes. rewrite <- app_assoc.
  rewrite slice_app_r by (rewrite len_dir_hdr; lia). rewrite len_dir_hdr.
  assert (Z.of_nat i < len cs) by (unfold len; apply lookup_lt_Some in Hi; lia).
  replace (DIR_HDR_LEN + Z.of_nat i * 8 - DIR_HDR_LEN) with (8 * Z.of_nat i) by lia. rewrite slice_app_l by (rewrite ?len_ids; lia).
  rewrite (slice_concat_same 8 _ i (le 8 id)); [by apply le_dec_le|lia| |by rewrite list_lookup_fmap, Hi].
  apply Forall_fmap, Forall_true. intros x. apply (len_le 8 x).
Qed.

Lemma dir_set_child_at i id : (i < length cs)%nat ->
  dir_set_child (Z.of_nat i) id buf = dir_bytes magic ver depth (<[i := id]> cs) ++ junk.
Proof.
  intros Hi. unfold dir_set_child, put_u64.
  rewrite splice_app_l; [|unfold DIR_HDR_LEN; lia|rewrite len_dir_bytes; unfold dir_len, DIR_HDR_LEN; autorewrite with len; unfold len; lia].
  f_equal. unfold dir_bytes. assert (len (<[i:=id]> cs) = len cs) as -> by (unfold len; by rewrite length_insert).
  rewrite splice_app_r by (rewrite len_dir_hdr; lia). rewrite len_dir_hdr. f_equal.
  replace (DIR_HDR_LEN + Z.of_nat i * 8 - DIR_HDR_LEN) with (8 * Z.of_nat i) by lia. rewrite list_fmap_insert.
  apply splice_concat_same; [lia|apply Forall_fmap, Forall_true; intros x; apply (len_le 8 x)|by rewrite length_fmap|apply (len_le 8 id)].
Qed.

Lemma dir_put_magic magic' : put_u32 0 magic' buf = dir_bytes magic' ver depth cs ++ junk.
Proof.
  unfold put_u32, dir_bytes, dir_hdr. rewrite <- !app_assoc. apply (splice_mid [] (le 4 magic)); [done|by rewrite !len_le].
Qed.

Lemma dir_take : zt (dir_len (len cs)) buf = dir_bytes magic ver depth cs.
Proof. apply zt_app_exact. by rewrite len_dir_bytes. Qed.
End dir.

Lemma zero_ids n : concat (le 8 <$> replicate n 0) = replicate (8 * n) 0.
Proof.
  induction n as [|n IH]; [done|]. cbn [replicate fmap list_fmap concat]. rewrite IH. replace (8 * S n)%nat with (8 + 8 * n)%nat by lia.
  by rewrite replicate_add.
Qed.

Lemma dir_format_spec n depth buf : 0 <= n ->
  dir_format n depth buf = dir_bytes KVHASH_DIR_MAGIC KVHASH_VERSION depth (replicate (Z.to_nat n) 0) ++ zd (dir_len n) buf.
Proof.
  intros Hn. unfold dir_format. rewrite splice_prefix. autorewrite with len.
  replace (Z.of_nat (Z.to_nat (dir_len n))) with (dir_len n) by (unfold dir_len, DIR_HDR_LEN; lia).
  unfold dir_bytes. rewrite zero_ids. autorewrite with len.
  replace (Z.to_nat (dir_len n)) with (4 + (2 + (1 + (1 + 8 * Z.to_nat n))))%nat by (unfold dir_len, DIR_HDR_LEN; lia).
  rewrite !replicate_add, <- !app_assoc. set (rest := replicate (8 * Z.to_nat n) 0 ++ zd (dir_len n) buf).
  unfold put_u32, put_u16. rewrite (splice_front (replicate 4 0)) by lens.
  rewrite (splice_mid (le 4 KVHASH_DIR_MAGIC) (replicate 2 0) _ (le 2 n) 4) by (done || lens).
  rewrite (app_assoc (le 4 _)). rewrite (splice_mid _ (replicate 1 0) _ [KVHASH_VERSION] 6) by (done || lens).
  rewrite (app_assoc (_ ++ le 2 n)). rewrite (splice_mid _ (replicate 1 0) _ [depth] 7) by (done || lens).
  unfold dir_hdr. rewrite <- !app_assoc. replace (Z.of_nat (Z.to_nat n)) with n by lia. done.
Qed.

(** ** Writing an entry *)

Lemma put_entry_spec es junk e :
  put_entry (len (bkt_bytes es)) (k_key e) (k_val e) (spilled (k_kid e)) (spilled (k_vid e)) (key_fp (k_key e)) (k_kid e) (k_vid e) (bkt_bytes es ++ junk)
    = bkt_bytes (es ++ [e]) ++ zd (len (enc_kent e)) junk.
Proof.
  rewrite bkt_bytes_app. assert (bkt_bytes [e] = enc_kent e) as -> by apply app_nil_r. unfold put_entry, put_u16, put_u32, put_u64.
  set (b := bkt_bytes es). rewrite (splice_end b) by done. rewrite (splice_end (b ++ _)) by lens.
  fold (len_field (len (k_key e)) (k_kid e)) (len_field (len (k_val e)) (k_vid e)).
  set (hd := (b ++ le 2 _) ++ le 2 _). set (j := zd _ (zd _ junk)).
  assert (len hd = len b + ENTRY_HDR_LEN) as Hh by (unfold hd, ENTRY_HDR_LEN; lens).
  assert ((if spilled (k_kid e) then splice (len b + ENTRY_HDR_LEN + 4) (le 8 (k_kid e)) (splice (len b + ENTRY_HDR_LEN) (le 4 (key_fp (k_key e))) (hd ++ j))
           else splice (len b + ENTRY_HDR_LEN) (k_key e) (hd ++ j)) = (hd ++ key_part e) ++ zd (len (key_part e)) j) as ->.
  { unfold key_part. destruct (spilled (k_kid e)); [|by rewrite splice_end]. rewrite (splice_end hd) by done. rewrite (splice_end (hd ++ _)) by lens.
    rewrite zd_zd by (apply len_nonneg). rewrite <- !app_assoc. by autorewrite with len. }
  rewrite <- len_key_part. assert (forall r, splice (len b + ENTRY_HDR_LEN + len (key_part e)) r ((hd ++ key_part e) ++ zd (len (key_part e)) j)
    = ((hd ++ key_part e) ++ r) ++ zd (len r) (zd (len (key_part e)) j)) as Hs by (intros r; apply splice_end; lens).
  assert ((if spilled (k_vid e) then splice (len b + ENTRY_HDR_LEN + len (key_part e)) (le 8 (k_vid e)) ((hd ++ key_part e) ++ zd (len (key_part e)) j)
           else splice (len b + ENTRY_HDR_LEN + len (key_part e)) (k_val e) ((hd ++ key_part e) ++ zd (len (key_part e)) j))
          = ((hd ++ key_part e) ++ val_part e) ++ zd (len (val_part e)) (zd (len (key_part e)) j)) as ->.
  { unfold val_part. destruct (spilled (k_vid e)); apply Hs. }
  unfold j. pose proof (len_nonneg (key_part e)). pose proof (len_nonneg (val_part e)). rewrite !len_le, !zd_zd by lia.
  rewrite len_enc_kent. unfold hd, enc_kent, ENTRY_HDR_LEN. rewrite <- !app_assoc.
  by replace (Z.of_nat 2 + (Z.of_nat 2 + (len (key_part e) + len (val_part e)))) with (4 + len (key_part e) + len (val_part e)) by lia.
Qed.
End rep.

#[global] Arguments bkt_bytes : simpl never.
#[global] Arguments enc_kent : simpl never.
#[global] Arguments dir_bytes : simpl never.

(** A kvhash map as a tree of directories and buckets: the objects it owns in the
    store, what makes it sound, and the finite map it stands for. *)

(** ** Replacing one element of a list of parts *)

Section parts.
Context {A B : Type} (f : A -> list B).

Lemma bind_take_out (l : list A) i x : l !! i = Some x -> l ≫= f ≡ₚ f x ++ (delete i l ≫= f).
Proof.
  intros Hi. by rewrite (delete_Permutation l i x Hi) at 1.
Qed.

Lemma bind_put_in (l : list A) i x : (i < length l)%nat -> <[i := x]> l ≫= f ≡ₚ f x ++ (delete i l ≫= f).
Proof.
  intros Hi. rewrite (bind_take_out (<[i := x]> l) i x) by by apply list_lookup_insert_eq. f_equiv.
  replace (delete i (<[i:=x]> l)) with (delete i l); [done|]. revert l Hi. induction i as [|i IH]; intros [|y l] Hi; cbn in *; try lia; [done|].
  f_equal. apply IH. lia.
Qed.
End parts.

(** ** Objects a structure owns *)

(** The listed objects are stored, none is listed twice and none is the root. *)
Definition stored (o : objs) (l : list (Z * bytes)) : Prop :=
  NoDup l.*1 /\ Forall (fun x => o !! x.1 = Some x.2 /\ x.1 <> BLOB_ROOT) l.

#[export] Instance stored_perm o : Proper (Permutation ==> iff) (stored o).
Proof. intros l l' Hl. unfold stored. by rewrite Hl. Qed.

Lemma stored_cons o id b l : stored o ((id, b) :: l) <-> o !! id = Some b /\ id <> BLOB_ROOT /\ id ∉ l.*1 /\ stored o l.
Proof. unfold stored. rewrite fmap_cons, list.NoDup_cons, list.Forall_cons. cbn. tauto. Qed.

Lemma stored_app o l l' : stored o (l ++ l') <-> stored o l /\ stored o l' /\ (forall id, id ∈ l.*1 -> id ∉ l'.*1).
Proof. unfold stored. rewrite fmap_app, list.NoDup_app, list.Forall_app. tauto. Qed.

Lemma stored_elem o l id b : stored o l -> (id, b) ∈ l -> o !! id = Some b /\ id <> BLOB_ROOT.
Proof. intros [_ Hf] Hin. rewrite list.Forall_forall in Hf. apply (Hf _ Hin). Qed.

Lemma stored_id o l id : stored o l -> id ∈ l.*1 -> exists b, o !! id = Some b.
Proof. intros Hs ([id' b] & -> & Hin)%list_elem_of_fmap. exists b. by apply (stored_elem o l). Qed.

(** Objects outside do not matter. *)
Lemma stored_frame o o' l : (forall id, id ∈ l.*1 -> o' !! id = o !! id) -> stored o l -> stored o' l.
Proof.
  intros Hf [Hn Hs]. split; [done|]. rewrite list.Forall_forall in *. intros x Hx. rewrite Hf; [by apply Hs|]. apply list_elem_of_fmap. by exists x.
Qed.

Lemma stored_put_other o l id b : id ∉ l.*1 -> stored o l -> stored (<[id := b]> o) l.
Proof. intros Hid. apply stored_frame. intros id' Hin. rewrite lookup_insert_ne; [done|]. intros ->. done. Qed.

Lemma stored_del_other o l id : id ∉ l.*1 -> stored o l -> stored (delete id o) l.
Proof. intros Hid. apply stored_frame. intros id' Hin. rewrite lookup_delete_ne; [done|]. intros ->. done. Qed.

Lemma stored_put o l id b b' : stored o ((id, b) :: l) -> stored (<[id := b']> o) ((id, b') :: l).
Proof.
  rewrite !stored_cons. intros (_ & Hr & Hn & Hs). split_and!; try done; [by rewrite lookup_insert_eq|by apply stored_put_other].
Qed.

Lemma stored_new o l id b : id ∉ l.*1 -> id <> BLOB_ROOT -> stored o l -> stored (<[id := b]> o) ((id, b) :: l).
Proof. rewrite stored_cons. intros Hn Hr Hs. split_and!; try done; [by rewrite lookup_insert_eq|by apply stored_put_other]. Qed.

Lemma stored_fresh cap nx o l id : obs_wf cap nx o -> stored o l -> nx <= id -> id ∉ l.*1.
Proof. intros Hw Hs Hid Hin. destruct (stored_id o l id Hs Hin) as [b Hb]. by rewrite (obs_wf_fresh cap nx) in Hb. Qed.

(** A structure's objects [a] became [a']; whatever was stored beside it still is,
    when below [nx] nothing else changed or was taken. *)
Lemma stored_replace cap nx o o' a a' r : obs_wf cap nx o -> stored o (a ++ r) -> stored o' a' ->
  (forall id, id < nx -> id ∉ a.*1 -> o' !! id = o !! id /\ id ∉ a'.*1) -> stored o' (a' ++ r).
Proof.
  intros Hw Hs Ha Hf. apply stored_app in Hs as (_ & Hr & Hd).
  assert (forall id, id ∈ r.*1 -> o' !! id = o !! id /\ id ∉ a'.*1) as Hold.
  { intros id Hin. apply Hf; [|intros Ha'; by apply (Hd id)]. destruct (stored_id o r id Hr Hin) as [b Hb]. apply (obs_wf_lookup cap nx) in Hb; [lia|done]. }
  apply stored_app. split_and!; [done| |].
  - apply (stored_frame o); [|done]. intros id Hin. by apply Hold.
  - intros id Ha' Hin. by apply (Hold id Hin).
Qed.

Lemma stored_bound cap nx o l id : obs_wf cap nx o -> stored o l -> id ∈ l.*1 -> 0 < id < nx /\ id <> BLOB_ROOT.
Proof.
  intros Hw Hs Hin. split; [destruct (stored_id o l id Hs Hin) as [b Hb]; apply (obs_wf_lookup cap nx) in Hb; [lia|done]|].
  apply list_elem_of_fmap in Hin as ([id' b] & -> & Hin). by destruct (stored_elem o l id' b Hs Hin).
Qed.

(** ** Trees *)

Record kleaf := mk_kleaf { lf_id : Z; lf_ver : Z; lf_bkts : list (Z * list kent) }.

(** A map of one level, or of two: a top directory and its sub-maps. *)
Inductive kvtree :=
  | Flat (l : kleaf)
  | Tree (root ver : Z) (subs : list kleaf).

Definition tree_root (t : kvtree) : Z := match t with Flat l => lf_id l | Tree root _ _ => root end.

Definition set_bucket (i : nat) (b : Z * list kent) (l : kleaf) : kleaf := mk_kleaf (lf_id l) (lf_ver l) (<[i := b]> (lf_bkts l)).

Section tree.
Context `{Crc} {D : Type} `{!Blobs D} {CL : CrcLaws _}.
Notation MAX_PAYLOAD := (blob_max (D := D)).
Context (Hmax : 24 <= MAX_PAYLOAD <= ENT_LEN_MASK).

Definition part_obj (id : Z) (b : bytes) : list (Z * bytes) := if spilled id then [(id, b)] else [].
Definition ent_objs (e : kent) : list (Z * bytes) := part_obj (k_kid e) (k_key e) ++ part_obj (k_vid e) (k_val e).
Definition bkt_objs (b : Z * list kent) : list (Z * bytes) :=
  if spilled b.1 then (b.1, bkt_bytes b.2) :: (b.2 ≫= ent_objs) else [].
Definition leaf_dir (l : kleaf) : bytes := dir_bytes KVHASH_DIR_MAGIC (lf_ver l) 1 (fst <$> lf_bkts l).
Definition leaf_objs (l : kleaf) : list (Z * bytes) := (lf_id l, leaf_dir l) :: (lf_bkts l ≫= bkt_objs).
Definition top_dir (ver : Z) (subs : list kleaf) : bytes := dir_bytes KVHASH_DIR_MAGIC ver 2 (lf_id <$> subs).
Definition tree_objs (t : kvtree) : list (Z * bytes) :=
  match t with
  | Flat l => leaf_objs l
  | Tree root ver subs => (root, top_dir ver subs) :: (subs ≫= leaf_objs)
  end.

(** A bucket at index [i] of [n]: its entries fit, their keys differ and hash to
    it. A bucket that was never written is empty. *)
Record bkt_ok (n : Z) (i : nat) (b : Z * list kent) : Prop := {
  bo_id : 0 <= b.1 < 2 ^ 64;
  bo_empty : b.1 = 0 -> b.2 = [];
  bo_ents : Forall kent_ok b.2;
  bo_fit : len (bkt_bytes b.2) <= MAX_PAYLOAD;
  bo_keys : NoDup (k_key <$> b.2);
  bo_place : Forall (fun e => idx_sub (key_hash (k_key e)) n = Z.of_nat i) b.2;
}.

Definition inline_ent (e : kent) : Prop := k_kid e = 0 /\ k_vid e = 0.

Record leaf_ok (l : kleaf) : Prop := {
  lo_n : 2 <= len (lf_bkts l) <= MAX_BUCKETS (D := D);
  lo_ver : KVHASH_VERSION_MIN <= lf_ver l <= KVHASH_VERSION;
  lo_id : 0 < lf_id l < 2 ^ 64;
  lo_bkts : forall i b, lf_bkts l !! i = Some b -> bkt_ok (len (lf_bkts l)) i b;
  lo_v2 : lf_ver l < 3 -> forall i b, lf_bkts l !! i = Some b -> Forall inline_ent b.2;
}.

Definition leaf_ents (l : kleaf) : list kent := lf_bkts l ≫= snd.

Definition tree_ok (t : kvtree) : Prop :=
  match t with
  | Flat l => leaf_ok l
  | Tree root ver subs =>
      2 <= len subs <= MAX_BUCKETS (D := D) /\ KVHASH_VERSION_MIN <= ver <= KVHASH_VERSION /\ 0 < root < 2 ^ 64 /\
      Forall leaf_ok subs /\
      forall i l, subs !! i = Some l -> Forall (fun e => idx_top (key_hash (k_key e)) (len subs) = Z.of_nat i) (leaf_ents l)
  end.

(** ** Where a key lives *)

Definition sub_index (t : kvtree) (k : bytes) : nat :=
  match t with Flat _ => 0 | Tree _ _ subs => Z.to_nat (idx_top (key_hash k) (len subs)) end.

Definition leaves (t : kvtree) : list kleaf := match t with Flat l => [l] | Tree _ _ subs => subs end.

Definition bkt_index (l : kleaf) (k : bytes) : nat := Z.to_nat (idx_sub (key_hash k) (len (lf_bkts l))).

(** The entries of the bucket of key [k]. *)
Definition bucket_of (t : kvtree) (k : bytes) : list kent :=
  match leaves t !! sub_index t k with
  | Some l => match lf_bkts l !! bkt_index l k with Some b => b.2 | None => [] end
  | None => []
  end.

(** The value of key [k] among [es]. *)
Fixpoint assoc (k : bytes) (es : list kent) : option bytes :=
  match es with
  | [] => None
  | e :: es => if bool_decide (k_key e = k) then Some (k_val e) else assoc k es
  end.

Definition tree_ents (t : kvtree) : list kent := leaves t ≫= leaf_ents.
Definition ent_pair (e : kent) : bytes * bytes := (k_key e, k_val e).

(** The finite map the tree stands for. *)
Definition tree_map (t : kvtree) : gmap bytes bytes := list_to_map (ent_pair <$> tree_ents t).

(** ** Looking a key up *)

Lemma assoc_app k es es' : assoc k (es ++ es') = match assoc k es with Some v => Some v | None => assoc k es' end.
Proof. induction es as [|e es IH]; [done|]. cbn. by case_bool_decide. Qed.

Lemma assoc_none k es : k ∉ (k_key <$> es) -> assoc k es = None.
Proof.
  induction es as [|e es IH]; [done|]. cbn. rewrite not_elem_of_cons. intros [Hne Hn]. rewrite bool_decide_false by done. by apply IH.
Qed.

Lemma assoc_some k v es : assoc k es = Some v -> exists e, e ∈ es /\ k_key e = k /\ k_val e = v.
Proof.
  induction es as [|e es IH]; [done|]. cbn. case_bool_decide.
  - intros [= <-]. exists e. split_and!; [left|done|done].
  - intros Ha. destruct (IH Ha) as (e' & ? & ? & ?). exists e'. split_and!; [by right|done|done].
Qed.

Lemma assoc_in k es e : NoDup (k_key <$> es) -> e ∈ es -> k_key e = k -> assoc k es = Some (k_val e).
Proof.
  induction es as [|e' es IH]; [by intros _ ?%not_elem_of_nil|]. rewrite fmap_cons, list.NoDup_cons. intros [Hn Hd] Hin Hk. cbn.
  case_bool_decide as Ek.
  - apply elem_of_cons in Hin as [->|Hin]; [done|]. destruct Hn. rewrite Ek, <- Hk. by apply list_elem_of_fmap_2.
  - apply elem_of_cons in Hin as [->|Hin]; [done|]. by apply IH.
Qed.

Lemma assoc_map es k : (list_to_map (ent_pair <$> es) : gmap bytes bytes) !! k = assoc k es.
Proof.
  induction es as [|e es IH]; [done|]. cbn. case_bool_decide as E; [subst; by rewrite lookup_insert_eq|]. by rewrite lookup_insert_ne.
Qed.

Lemma assoc_bind {A} (f : A -> list kent) (l : list A) i x k : l !! i = Some x ->
  (forall j y, l !! j = Some y -> j <> i -> k ∉ (k_key <$> f y)) -> assoc k (l ≫= f) = assoc k (f x).
Proof.
  revert i. induction l as [|y l IH]; intros i Hi Hne; [done|]. cbn [mbind list_bind]. rewrite assoc_app. destruct i as [|i]; cbn in Hi.
  - injection Hi as ->. destruct (assoc k (f x)) eqn:E; [done|]. apply assoc_none. intros Hin.
    apply list_elem_of_fmap in Hin as (e & -> & Hin). apply list_elem_of_bind in Hin as (z & Hz & Hj). apply list_elem_of_lookup in Hj as [j Hj].
    apply (Hne (S j) z Hj ltac:(lia)). by apply list_elem_of_fmap_2.
  - rewrite (assoc_none k (f y)) by (apply (Hne 0%nat y); [done|lia]). apply (IH i); [done|]. intros j z Hj Hji. apply (Hne (S j)); [done|lia].
Qed.

Lemma MAX_BUCKETS_lt : MAX_BUCKETS (D := D) < 65536.
Proof. unfold MAX_BUCKETS, DIR_HDR_LEN, ENT_LEN_MASK in *. apply Z.div_lt_upper_bound; lia. Qed.

Lemma idx_sub_range h n : 0 < n < 65536 -> 0 <= idx_sub h n < n.
Proof. intros Hn. unfold idx_sub. pose proof (Z.mod_pos_bound (Z.land h 65535) n ltac:(lia)). rewrite u16_small by lia. done. Qed.

Lemma idx_top_range h n : 0 < n < 65536 -> 0 <= idx_top h n < n.
Proof. intros Hn. unfold idx_top. pose proof (Z.mod_pos_bound (Z.shiftr h 16) n ltac:(lia)). rewrite u16_small by lia. done. Qed.

Lemma tree_leaf t k : tree_ok t -> exists l, leaves t !! sub_index t k = Some l /\ leaf_ok l.
Proof.
  pose proof MAX_BUCKETS_lt. destruct t as [l|root ver subs]; cbn; [by exists l|]. intros (Hn & _ & _ & Hl & _).
  pose proof (idx_top_range (key_hash k) (len subs) ltac:(lia)) as Hi.
  destruct (lookup_lt_is_Some_2 subs (Z.to_nat (idx_top (key_hash k) (len subs)))) as [l E]; [unfold len in *; lia|].
  exists l. split; [done|]. by eapply Forall_lookup_1.
Qed.

Lemma leaf_bkt l k : leaf_ok l -> exists b, lf_bkts l !! bkt_index l k = Some b /\ bkt_ok (len (lf_bkts l)) (bkt_index l k) b.
Proof.
  intros Hl. pose proof MAX_BUCKETS_lt. pose proof (lo_n _ Hl). unfold bkt_index.
  pose proof (idx_sub_range (key_hash k) (len (lf_bkts l)) ltac:(lia)) as Hi.
  destruct (lookup_lt_is_Some_2 (lf_bkts l) (Z.to_nat (idx_sub (key_hash k) (len (lf_bkts l))))) as [b E]; [unfold len in *; lia|].
  exists b. split; [done|]. by apply (lo_bkts _ Hl).
Qed.

(** A key other than those of its own bucket occurs nowhere. *)
Lemma leaf_assoc l k b : leaf_ok l -> lf_bkts l !! bkt_index l k = Some b -> assoc k (leaf_ents l) = assoc k b.2.
Proof.
  intros Hl Hb. apply (assoc_bind snd _ (bkt_index l k) b k Hb). intros j b' Hj Hne Hin.
  apply list_elem_of_fmap in Hin as (e & -> & Hin). pose proof (bo_place _ _ _ (lo_bkts _ Hl _ _ Hj)) as Hp.
  rewrite list.Forall_forall in Hp. specialize (Hp e Hin). destruct Hne. unfold bkt_index. rewrite Hp. by rewrite Nat2Z.id.
Qed.

Lemma tree_map_lookup t k : tree_ok t -> tree_map t !! k = assoc k (bucket_of t k).
Proof.
  intros Ht. unfold tree_map. rewrite assoc_map. destruct (tree_leaf t k Ht) as (l & El & Hl). destruct (leaf_bkt l k Hl) as (b & Eb & _).
  unfold bucket_of. rewrite El, Eb. rewrite <- (leaf_assoc l k b Hl Eb). unfold tree_ents. apply (assoc_bind leaf_ents _ (sub_index t k)); [done|].
  destruct t as [l0|root ver subs]; cbn in *.
  - intros [|j] y Hj Hne; [done|]. by destruct j.
  - destruct Ht as (_ & _ & _ & _ & Hp). intros j y Hj Hne Hin. apply list_elem_of_fmap in Hin as (e & -> & Hin).
    specialize (Hp j y Hj). rewrite list.Forall_forall in Hp. destruct Hne. rewrite (Hp e Hin). by rewrite Nat2Z.id.
Qed.

(** ** Replacing the bucket of a key *)

Definition put_leaf (t : kvtree) (i : nat) (l : kleaf) : kvtree :=
  match t with Flat _ => Flat l | Tree root ver subs => Tree root ver (<[i := l]> subs) end.

(** The tree with bucket [b] for key [k], given the leaf [l] of [k]. *)
Definition put_bucket (t : kvtree) (l : kleaf) (k : bytes) (b : Z * list kent) : kvtree :=
  put_leaf t (sub_index t k) (set_bucket (bkt_index l k) b l).

(** The objects of a tree that are not those of its leaf [i]. *)
Definition tree_ctx (t : kvtree) (i : nat) : list (Z * bytes) :=
  match t with Flat _ => [] | Tree root ver subs => (root, top_dir ver subs) :: (delete i subs ≫= leaf_objs) end.

(** The objects of a leaf but for its directory and bucket [i]. *)
Definition leaf_ctx (l : kleaf) (i : nat) : list (Z * bytes) := delete i (lf_bkts l) ≫= bkt_objs.

Lemma tree_split t i l : leaves t !! i = Some l -> tree_objs t ≡ₚ leaf_objs l ++ tree_ctx t i.
Proof.
  destruct t as [l0|root ver subs]; cbn [leaves tree_objs tree_ctx].
  - destruct i as [|[|]]; cbn; [|done..]. intros [= ->]. by rewrite app_nil_r.
  - intros Hi. rewrite (bind_take_out leaf_objs subs i l Hi). by rewrite Permutation_middle.
Qed.

Lemma tree_split_put t i l l' : leaves t !! i = Some l -> lf_id l' = lf_id l -> tree_objs (put_leaf t i l') ≡ₚ leaf_objs l' ++ tree_ctx t i.
Proof.
  destruct t as [l0|root ver subs]; cbn [leaves tree_objs tree_ctx put_leaf].
  - intros _ _. by rewrite app_nil_r.
  - intros Hi Hid. pose proof (lookup_lt_Some _ _ _ Hi) as Hlt.
    assert (top_dir ver (<[i := l']> subs) = top_dir ver subs) as ->.
    { unfold top_dir. by rewrite list_fmap_insert, Hid, list_insert_id by by rewrite list_lookup_fmap, Hi. }
    rewrite (bind_put_in leaf_objs subs i l' Hlt). by rewrite Permutation_middle.
Qed.

Lemma leaf_split l i b : lf_bkts l !! i = Some b -> leaf_objs l ≡ₚ (lf_id l, leaf_dir l) :: bkt_objs b ++ leaf_ctx l i.
Proof. intros Hi. unfold leaf_objs, leaf_ctx. by rewrite (bind_take_out bkt_objs _ i b Hi). Qed.

Lemma leaf_split_put l i b b' : lf_bkts l !! i = Some b ->
  leaf_objs (set_bucket i b' l) ≡ₚ (lf_id l, leaf_dir (set_bucket i b' l)) :: bkt_objs b' ++ leaf_ctx l i.
Proof.
  intros Hi. unfold leaf_objs, leaf_ctx. cbn [set_bucket lf_bkts lf_id]. by rewrite (bind_put_in bkt_objs _ i b' (lookup_lt_Some _ _ _ Hi)).
Qed.

Lemma leaf_dir_put l i b b' : lf_bkts l !! i = Some b -> b'.1 = b.1 -> leaf_dir (set_bucket i b' l) = leaf_dir l.
Proof.
  intros Hi Hb. unfold leaf_dir, set_bucket. cbn [lf_ver lf_bkts]. by rewrite list_fmap_insert, Hb, list_insert_id by by rewrite list_lookup_fmap, Hi.
Qed.

(** The bucket may be exchanged for a sound one. *)
Lemma leaf_ok_put l i b b' : leaf_ok l -> lf_bkts l !! i = Some b -> bkt_ok (len (lf_bkts l)) i b' ->
  (lf_ver l < 3 -> Forall inline_ent b'.2) -> leaf_ok (set_bucket i b' l).
Proof.
  intros [Hn Hv Hid Hb H2] Hi Hok Hin. assert (len (<[i := b']> (lf_bkts l)) = len (lf_bkts l)) as El by (unfold len; by rewrite length_insert).
  split; cbn; rewrite ?El; try done.
  - intros j x Hj. apply list_lookup_insert_Some in Hj as [(-> & -> & _)|[_ Hj]]; [done|by apply Hb].
  - intros Hlt j x Hj. apply list_lookup_insert_Some in Hj as [(-> & -> & _)|[_ Hj]]; [by apply Hin|by apply (H2 Hlt j)].
Qed.

Lemma leaves_put t i l l' : leaves t !! i = Some l -> leaves (put_leaf t i l') = <[i := l']> (leaves t).
Proof. destruct t as [l0|root ver subs]; cbn; [|done]. by destruct i. Qed.

(** Every entry of the new bucket belongs under the key's sub-map. *)
Definition same_top (t : kvtree) (k : bytes) (e : kent) : Prop :=
  match t with Flat _ => True | Tree _ _ subs => idx_top (key_hash (k_key e)) (len subs) = idx_top (key_hash k) (len subs) end.

Lemma tree_ok_put t l k b b' : tree_ok t -> leaves t !! sub_index t k = Some l -> lf_bkts l !! bkt_index l k = Some b ->
  bkt_ok (len (lf_bkts l)) (bkt_index l k) b' -> (lf_ver l < 3 -> Forall inline_ent b'.2) -> Forall (same_top t k) b'.2 ->
  tree_ok (put_bucket t l k b').
Proof.
  intros Ht El Eb Hok Hin Htop. unfold put_bucket. destruct t as [l0|root ver subs]; cbn in *.
  - injection El as ->. by apply (leaf_ok_put l _ b).
  - destruct Ht as (Hn & Hv & Hr & Hl & Hp). set (i := Z.to_nat _) in *.
    assert (len (<[i := set_bucket (bkt_index l k) b' l]> subs) = len subs) as El' by (unfold len; by rewrite length_insert).
    rewrite El'. split_and!; try done; try lia.
    + apply Forall_insert; [done|]. apply (leaf_ok_put l _ b); try done. by eapply Forall_lookup_1.
    + intros j l' Hj. apply list_lookup_insert_Some in Hj as [(<- & <- & _)|[_ Hj]]; [|by apply Hp].
      pose proof MAX_BUCKETS_lt. pose proof (idx_top_range (key_hash k) (len subs) ltac:(lia)) as Hr'.
      assert (Z.of_nat i = idx_top (key_hash k) (len subs)) as Ei by (unfold i; lia). rewrite Ei.
      rewrite list.Forall_forall in *. intros e He. unfold leaf_ents in He. cbn [set_bucket lf_bkts] in He.
      rewrite (bind_put_in snd _ _ b' (lookup_lt_Some _ _ _ Eb)) in He. apply elem_of_app in He as [He|He].
      * apply (Htop e He).
      * rewrite <- Ei. specialize (Hp i l El). rewrite list.Forall_forall in Hp. apply Hp. unfold leaf_ents.
        rewrite (bind_take_out snd _ _ b Eb). apply elem_of_app. by right.
Qed.

Lemma bucket_of_put t l k b b' k' : leaves t !! sub_index t k = Some l -> lf_bkts l !! bkt_index l k = Some b ->
  bucket_of (put_bucket t l k b') k' = if decide (sub_index t k' = sub_index t k /\ bkt_index l k' = bkt_index l k) then b'.2 else bucket_of t k'.
Proof.
  intros El Eb. unfold bucket_of, put_bucket. rewrite (leaves_put t _ l) by done. set (l' := set_bucket (bkt_index l k) b' l).
  assert (sub_index (put_leaf t (sub_index t k) l') k' = sub_index t k') as ->.
  { destruct t; cbn; [done|]. unfold len. by rewrite length_insert. }
  assert (bkt_index l' k' = bkt_index l k') as Ei by (unfold bkt_index, l', set_bucket; cbn; unfold len; by rewrite length_insert).
  destruct (decide (sub_index t k' = sub_index t k)) as [Es|Es].
  - rewrite Es, list_lookup_insert_eq by by eapply lookup_lt_Some. rewrite El, Ei. unfold l'. cbn [set_bucket lf_bkts].
    destruct (decide (bkt_index l k' = bkt_index l k)) as [Ek|Ek].
    + rewrite Ek, list_lookup_insert_eq by by eapply lookup_lt_Some. by rewrite decide_True.
    + rewrite list_lookup_insert_ne by done. rewrite decide_False by tauto. done.
  - rewrite list_lookup_insert_ne by done. rewrite decide_False by tauto. done.
Qed.

(** The map after the exchange, when the bucket changes at [k] only. *)
Lemma tree_map_put t l k b b' v : tree_ok t -> tree_ok (put_bucket t l k b') ->
  leaves t !! sub_index t k = Some l -> lf_bkts l !! bkt_index l k = Some b ->
  (forall k', assoc k' b'.2 = if decide (k' = k) then v else assoc k' b.2) ->
  tree_map (put_bucket t l k b') = partial_alter (fun _ => v) k (tree_map t).
Proof.
  intros Ht Ht' El Eb Ha. apply map_eq. intros k'. rewrite tree_map_lookup by done. rewrite (bucket_of_put t l k b b') by done.
  case_decide as Ep.
  - rewrite Ha. case_decide as Ek; [subst; by rewrite lookup_partial_alter_eq|]. rewrite lookup_partial_alter_ne by done.
    rewrite tree_map_lookup by done. unfold bucket_of. destruct Ep as [-> Eq]. by rewrite El, Eq, Eb.
  - assert (k <> k') as Hne by (intros ->; by destruct Ep). rewrite lookup_partial_alter_ne by done. by rewrite tree_map_lookup.
Qed.
End tree.
