(* ===== verification/KvHashRead.v ===== *)
(** What the loads and searches of kvhash do on a map in the store: directories,
    the leaf of a key, buckets and keys. *)

From S2P Require Import BlobIface Prelude Layout Records KvHash KvHashRep.

(** ** memcmp() *)

Lemma memcmp_eq a b : length a = length b -> memcmp a b = 0 <-> a = b.
Proof.
  revert b. induction a as [|x a IH]; intros [|y b] Hl; cbn in *; try done. destruct (Z.eqb_spec x y) as [->|Hne].
  - rewrite IH by lia. split; [by intros ->|by intros [= ->]].
  - split; [|by intros [= -> _]]. destruct (x <? y); done.
Qed.

Lemma memcmp_app a a' b b' : length a = length b -> memcmp (a ++ a') (b ++ b') = if memcmp a b =? 0 then memcmp a' b' else memcmp a b.
Proof.
  revert b. induction a as [|x a IH]; intros [|y b] Hl; cbn in *; try done. destruct (x =? y); [apply IH; lia|]. by destruct (x <? y).
Qed.

Section read.
Context `{Crc} {D : Type} `{!Blobs D} {CL : CrcLaws _} {L : BlobLaws D}.
Notation MAX_PAYLOAD := (blob_max (D := D)).
Notation kvh := (kvh (D := D)).
Context (Hmax : 24 <= MAX_PAYLOAD <= ENT_LEN_MASK).
Implicit Types (s : kvh) (o : objs).

(** The store holds [o] and the buffers have their size. *)
Definition khold (n : nat) (nx : Z) o s : Prop :=
  holds n nx o (kv_dev s) /\ len (dir_buf s) = MAX_PAYLOAD /\ len (bkt_buf s) = MAX_PAYLOAD.

Lemma khold_wf n nx o s : khold n nx o s -> obs_wf MAX_PAYLOAD nx o.
Proof. intros [Hh _]. by eapply holds_wf. Qed.

Lemma khold_dev n nx o n' nx' o' s d : khold n nx o s -> holds n' nx' o' d -> khold n' nx' o' (set_dev d s).
Proof. intros (_ & H1 & H2) Hd. by split. Qed.

(** A result that is a fault of the store, or satisfies [P]. *)
Definition or_fault {A} (n : nat) (nx : Z) o (P : A -> kvh -> Prop) (r : res A) s : Prop :=
  khold n nx o s /\ match r with Ok a => P a s | Err e => fault e end.

Lemma wp_on_dev {A} (m : M D A) s (Q : res A -> kvh -> Prop) : wp m (kv_dev s) (fun r d => Q r (set_dev d s)) -> wp (on_dev m) s Q.
Proof. unfold wp, on_dev. by destruct (m (kv_dev s)). Qed.

Lemma wp_orf {A B} n nx o (m : M kvh A) (k : A -> M kvh B) s P Q :
  wp m s (or_fault n nx o P) -> (forall a s', khold n nx o s' -> P a s' -> wp (k a) s' Q) ->
  (forall e s', khold n nx o s' -> fault e -> Q (Err e) s') -> wp (mbnd m k) s Q.
Proof.
  intros Hm Hk He. apply wp_bnd. eapply wp_mono; [exact Hm|]. cbv beta. intros [a|e] s' [Hh Hp]; [by apply Hk|by apply He].
Qed.

Lemma orf_mono {A} n nx o (m : M kvh A) s (P P' : A -> kvh -> Prop) :
  wp m s (or_fault n nx o P) -> (forall a s', khold n nx o s' -> P a s' -> P' a s') -> wp m s (or_fault n nx o P').
Proof. intros Hm Hp. eapply wp_mono; [exact Hm|]. intros [a|e] s' [Hh Hq]; split; auto. Qed.

Lemma orf_ret {A} n nx o (a : A) s (P : A -> kvh -> Prop) : khold n nx o s -> P a s -> wp (mret a) s (or_fault n nx o P).
Proof. by split. Qed.

Lemma orf_err {A} n nx o (P : A -> kvh -> Prop) e s : khold n nx o s -> fault e -> or_fault n nx o P (Err e) s.
Proof. by split. Qed.

(** ** Loading *)

Lemma splice_buf (b buf : bytes) : len b <= len buf -> len (splice 0 b buf) = len buf.
Proof. intros Hl. apply len_splice; lia. Qed.

(** The buffer starts with [b]. *)
Definition starts (b buf : bytes) : Prop := exists junk, buf = b ++ junk.

Lemma starts_splice b buf : starts b (splice 0 b buf).
Proof. exists (zd (len b) buf). apply splice_prefix. Qed.

Lemma get_reply_fits nx o id b : obs_wf MAX_PAYLOAD nx o -> o !! id = Some b -> get_reply o id MAX_PAYLOAD = Ok b /\ len b <= MAX_PAYLOAD.
Proof.
  intros Hw Hb. destruct (obs_wf_lookup _ _ _ _ _ Hw Hb) as (_ & _ & Hl). unfold get_reply. rewrite Hb.
  destruct (Z.ltb_spec MAX_PAYLOAD (len b)); [lia|done].
Qed.

Lemma get_dir_spec n nx o s id b : khold n nx o s -> 0 <= id < 2 ^ 64 -> o !! id = Some b ->
  wp (get_dir id) s (or_fault n nx o (fun got s' => got = len b /\ starts b (dir_buf s') /\ bkt_buf s' = bkt_buf s)).
Proof.
  intros Hh Hid Hb. destruct (get_reply_fits nx o id b (khold_wf _ _ _ _ Hh) Hb) as [Hg Hl]. unfold get_dir. apply wp_bnd, wp_on_dev.
  eapply wp_mono; [apply (get_law n _ nx o); [apply Hh|done]|]. cbv beta. intros r d [Hd Hr]. pose proof (khold_dev _ _ _ _ _ _ s d Hh Hd) as Hh'.
  rewrite Hg in Hr. destruct Hr as [->|(e & He & ->)]; [|by split]. apply wp_bnd, wp_mod, wp_ret. destruct Hh as (_ & H1 & H2).
  split; [split_and!; cbn; rewrite ?splice_buf; [done|lia|lia|done]|]. cbn. auto using starts_splice.
Qed.

Lemma get_bkt_spec n nx o s id b : khold n nx o s -> 0 <= id < 2 ^ 64 -> o !! id = Some b ->
  wp (get_bkt id) s (or_fault n nx o (fun got s' => got = len b /\ starts b (bkt_buf s') /\ dir_buf s' = dir_buf s)).
Proof.
  intros Hh Hid Hb. destruct (get_reply_fits nx o id b (khold_wf _ _ _ _ Hh) Hb) as [Hg Hl]. unfold get_bkt. apply wp_bnd, wp_on_dev.
  eapply wp_mono; [apply (get_law n _ nx o); [apply Hh|done]|]. cbv beta. intros r d [Hd Hr]. pose proof (khold_dev _ _ _ _ _ _ s d Hh Hd) as Hh'.
  rewrite Hg in Hr. destruct Hr as [->|(e & He & ->)]; [|by split]. apply wp_bnd, wp_mod, wp_ret. destruct Hh as (_ & H1 & H2).
  split; [split_and!; cbn; rewrite ?splice_buf; [done|done|lia|lia]|]. cbn. auto using starts_splice.
Qed.

(** A directory the code accepts. *)
Record dir_valid (magic ver depth : Z) (cs : list Z) : Prop := {
  dv_magic : magic = KVHASH_DIR_MAGIC \/ magic = KVHASH_DIR_DYING;
  dv_ver : KVHASH_VERSION_MIN <= ver <= KVHASH_VERSION;
  dv_depth : depth = 1 \/ depth = 2;
  dv_n : 2 <= len cs <= MAX_BUCKETS (D := D);
  dv_ids : ids_ok cs;
}.

Lemma dir_load_raw_spec n nx o s id magic ver depth cs :
  khold n nx o s -> 0 <= id < 2 ^ 64 -> o !! id = Some (dir_bytes magic ver depth cs) -> dir_valid magic ver depth cs ->
  wp (dir_load_raw id) s (or_fault n nx o (fun r s' => r = (len cs, depth, magic =? KVHASH_DIR_DYING) /\
    starts (dir_bytes magic ver depth cs) (dir_buf s') /\ bkt_buf s' = bkt_buf s)).
Proof.
  intros Hh Hid Hb [Hm Hv Hd Hn Hi]. pose proof (MAX_BUCKETS_lt Hmax) as Hmb. unfold dir_load_raw.
  eapply wp_orf; [by eapply (get_dir_spec n nx o s id)| |by intros; split]. intros got s' Hh' (-> & [junk Hj] & Hbk).
  assert (0 <= magic < 2 ^ 32) as Hmr by (destruct Hm as [-> | ->]; done).
  rewrite len_dir_bytes. destruct (Z.ltb_spec (dir_len (len cs)) DIR_HDR_LEN); [unfold dir_len, DIR_HDR_LEN in *; lia|].
  apply wp_bnd, wp_gets. rewrite Hj. rewrite dir_magic, dir_ver, dir_n, dir_depth by (done || lia).
  assert (negb (magic =? KVHASH_DIR_MAGIC) && negb (magic =? KVHASH_DIR_DYING) = false) as -> by (destruct Hm as [-> | ->]; done).
  assert ((ver <? KVHASH_VERSION_MIN) || (ver >? KVHASH_VERSION) = false) as -> by (unfold KVHASH_VERSION_MIN, KVHASH_VERSION in *; lia).
  assert ((len cs <? 2) || (len cs >? MAX_BUCKETS (D := D)) || (dir_len (len cs) <? dir_len (len cs)) = false) as -> by lia.
  assert (negb (depth =? 1) && negb (depth =? 2) = false) as -> by (destruct Hd as [-> | ->]; done).
  apply orf_ret; [done|]. split; [done|]. split; [|done]. rewrite Hj. by exists junk.
Qed.

Lemma dir_load_spec n nx o s id ver depth cs :
  khold n nx o s -> 0 <= id < 2 ^ 64 -> o !! id = Some (dir_bytes KVHASH_DIR_MAGIC ver depth cs) -> dir_valid KVHASH_DIR_MAGIC ver depth cs ->
  wp (dir_load id) s (or_fault n nx o (fun r s' => r = (len cs, depth) /\
    starts (dir_bytes KVHASH_DIR_MAGIC ver depth cs) (dir_buf s') /\ bkt_buf s' = bkt_buf s)).
Proof.
  intros Hh Hid Hb Hv. unfold dir_load. eapply wp_orf; [by apply (dir_load_raw_spec n nx o s id KVHASH_DIR_MAGIC ver depth cs)| |by intros; split].
  intros r s' Hh' (-> & Hs & Hk). by apply orf_ret.
Qed.

(** ** The leaf of a key *)

Lemma leaf_valid l : leaf_ok (D := D) l -> dir_valid KVHASH_DIR_MAGIC (lf_ver l) 1 (fst <$> lf_bkts l).
Proof.
  intros [Hn Hv Hid Hb _]. split; [by left|done|by left|by rewrite len_fmap|]. apply Forall_fmap, list.Forall_forall. intros b Hin. cbn.
  apply list_elem_of_lookup in Hin as [i Hi]. apply (bo_id _ _ _ (Hb i b Hi)).
Qed.

Lemma top_valid root ver subs : tree_ok (D := D) (Tree root ver subs) -> dir_valid KVHASH_DIR_MAGIC ver 2 (lf_id <$> subs).
Proof.
  intros (Hn & Hv & Hid & Hl & _). split; [by left|done|by right|by rewrite len_fmap|]. apply Forall_fmap. eapply Forall_impl; [|exact Hl].
  intros l Hok. cbn. pose proof (lo_id _ Hok). lia.
Qed.

Lemma leaf_stored o t k l : stored o (tree_objs t) -> leaves t !! sub_index t k = Some l -> stored o (leaf_objs l).
Proof. intros Hs El. rewrite (tree_split t _ l El), stored_app in Hs. apply Hs. Qed.

Lemma leaf_dir_stored o l : stored o (leaf_objs l) -> o !! lf_id l = Some (leaf_dir l).
Proof. intros Hs. unfold leaf_objs in Hs. rewrite stored_cons in Hs. apply Hs. Qed.

Lemma resolve_leaf_spec n nx o s t k l : khold n nx o s -> tree_ok (D := D) t -> stored o (tree_objs t) -> leaves t !! sub_index t k = Some l ->
  wp (resolve_leaf (tree_root t) (key_hash k)) s (or_fault n nx o (fun r s' =>
    r = (lf_id l, len (lf_bkts l), Z.of_nat (bkt_index l k)) /\ starts (leaf_dir l) (dir_buf s') /\ bkt_buf s' = bkt_buf s)).
Proof.
  intros Hh Ht Hs El. pose proof (MAX_BUCKETS_lt Hmax) as Hmb. pose proof (leaf_dir_stored o l (leaf_stored o t k l Hs El)) as Hd.
  destruct (tree_leaf Hmax t k Ht) as (l' & El' & Hl). assert (l' = l) as -> by congruence. pose proof (lo_n _ Hl) as Hn. pose proof (lo_id _ Hl) as Hid.
  assert (Z.of_nat (bkt_index l k) = idx_sub (key_hash k) (len (lf_bkts l))) as Ei.
  { unfold bkt_index. pose proof (idx_sub_range (key_hash k) (len (lf_bkts l)) ltac:(lia)). lia. }
  unfold resolve_leaf. destruct t as [l0|root ver subs]; cbn [tree_root].
  - injection El as ->. eapply wp_orf; [apply (dir_load_spec n nx o s); [done|lia|exact Hd|by apply leaf_valid]| |by intros; split].
    intros r s' Hh' (-> & Hst & Hb). cbn. rewrite len_fmap. apply orf_ret; [done|]. by rewrite Ei.
  - assert (o !! root = Some (top_dir ver subs)) as Htop by (cbn in Hs; rewrite stored_cons in Hs; apply Hs). pose proof Ht as (Hns & _ & Hroot & _).
    eapply wp_orf; [apply (dir_load_spec n nx o s root ver 2 (lf_id <$> subs)); [done|lia|exact Htop|by eapply top_valid]| |by intros; split].
    intros r s1 Hh1 (-> & [junk Hj] & Hb1). cbn [Z.eqb Pos.eqb]. apply wp_bnd, wp_gets. rewrite len_fmap.
    pose proof (idx_top_range (key_hash k) (len subs) ltac:(lia)) as Hr. cbn [sub_index leaves] in El.
    assert (dir_child (dir_buf s1) (idx_top (key_hash k) (len subs)) = lf_id l) as ->.
    { rewrite Hj. rewrite <- (Z2Nat.id (idx_top (key_hash k) (len subs))) by lia. apply dir_child_at.
      - apply (dv_ids _ _ _ _ (top_valid _ _ _ Ht)).
      - by rewrite list_lookup_fmap, El. }
    destruct (Z.eqb_spec (lf_id l) 0); [lia|].
    eapply wp_orf; [apply (dir_load_spec n nx o s1); [done|lia|exact Hd|by apply leaf_valid]| |by intros; split].
    intros r s2 Hh2 (-> & Hst & Hb2). cbn [Z.eqb negb Pos.eqb]. rewrite len_fmap. apply orf_ret; [done|]. rewrite Ei, Hb2. done.
Qed.

(** ** Keys *)

(** [k] denotes the bytes [key]: the pointer reads them, or the object holds
    them. *)
Definition src_is o (k : key_src) (key : bytes) : Prop :=
  match ks_p k with
  | Some p => zt (len key) p = key
  | None => 0 < ks_id k < 2 ^ 64 /\ o !! ks_id k = Some key
  end.

(** Neither buffer changes. *)
Definition bufs_kept s s' : Prop := dir_buf s' = dir_buf s /\ bkt_buf s' = bkt_buf s.

Lemma key_chunk_spec n nx o s k key pos c : khold n nx o s -> src_is o k key -> 0 <= pos -> 0 <= c -> pos + c <= len key ->
  wp (key_chunk k pos c) s (or_fault n nx o (fun b s' => b = slice pos c key /\ bufs_kept s s')).
Proof.
  intros Hh Hk Hp Hc Hl. unfold key_chunk, src_is in *. destruct (ks_p k) as [p|].
  - apply orf_ret; [done|]. split; [|done]. rewrite <- Hk. rewrite zt_slice, slice_slice by lia. by rewrite Z.add_0_l.
  - destruct Hk as [Hid Ho]. destruct (Z.eqb_spec (ks_id k) 0); [lia|]. apply wp_bnd, wp_try, wp_on_dev.
    eapply wp_mono; [apply (read_law n _ nx o); [apply Hh|lia..]|]. cbv beta. intros r d [Hd Hr]. pose proof (khold_dev _ _ _ _ _ _ s d Hh Hd) as Hh'.
    unfold read_reply in Hr. rewrite Ho in Hr. destruct Hr as [->|(e & He & ->)].
    + rewrite len_slice by lia. rewrite Z.eqb_refl. apply orf_ret; [done|]. by split.
    + pose proof (fault_plain e He) as (_ & Hne & _). assert (or_fault n nx o (fun b s' => b = slice pos c key /\ bufs_kept s s') (Err e) (set_dev d s)) as Hq by by split.
      destruct e; try done; exact Hq.
Qed.

Lemma slice_front (key : bytes) pos : 0 <= pos -> zd pos key = slice pos (len key - pos) key.
Proof. intros Hp. unfold slice, zt, zd, len. symmetry. apply take_ge. rewrite length_drop. lia. Qed.

Lemma zd_split (key : bytes) pos c : 0 <= pos -> 0 <= c -> zd pos key = slice pos c key ++ zd (pos + c) key.
Proof. intros Hp Hc. unfold slice. rewrite <- (zt_zd c (zd pos key)) at 1. f_equal. apply zd_zd; lia. Qed.

Lemma key_cmp_chunks_spec fuel n nx o s a b ka kb pos : khold n nx o s -> src_is o a ka -> src_is o b kb -> len ka = len kb ->
  0 <= pos -> len ka - pos <= Z.of_nat fuel ->
  wp (key_cmp_chunks fuel a b (len ka) pos) s (or_fault n nx o (fun c s' => c = memcmp (zd pos ka) (zd pos kb) /\ bufs_kept s s')).
Proof.
  intros Hh Ha Hb Hl. revert s pos Hh. induction fuel as [|fuel IH]; intros s pos Hh Hp Hf; cbn [key_cmp_chunks].
  - apply orf_ret; [done|]. split; [|done]. unfold zd, len in *. rewrite !drop_ge by lia. done.
  - destruct (Z.ltb_spec pos (len ka)) as [Hlt|Hge].
    2: { apply orf_ret; [done|]. split; [|done]. unfold zd, len in *. rewrite !drop_ge by lia. done. }
    cbv zeta. set (c := Z.min KEY_CHUNK (len ka - pos)). assert (0 < c /\ pos + c <= len ka) as [Hc0 Hc] by (unfold c, KEY_CHUNK; lia).
    eapply wp_orf; [apply (key_chunk_spec n nx o s a ka pos c); try done; lia| |by intros; split]. intros ca s1 Hh1 (-> & Hk1).
    eapply wp_orf; [apply (key_chunk_spec n nx o s1 b kb pos c); try done; lia| |by intros; split]. intros cb s2 Hh2 (-> & Hk2).
    assert (bufs_kept s s2) as Hk by (destruct Hk1, Hk2; split; congruence).
    assert (memcmp (zd pos ka) (zd pos kb) = if memcmp (slice pos c ka) (slice pos c kb) =? 0 then memcmp (zd (pos + c) ka) (zd (pos + c) kb)
      else memcmp (slice pos c ka) (slice pos c kb)) as Hm.
    { rewrite (zd_split ka pos c), (zd_split kb pos c) by lia. apply memcmp_app.
      pose proof (len_slice pos c ka ltac:(lia) ltac:(lia) ltac:(lia)). pose proof (len_slice pos c kb ltac:(lia) ltac:(lia) ltac:(lia)). unfold len in *. lia. }
    destruct (memcmp (slice pos c ka) (slice pos c kb) =? 0) eqn:E; cbn [negb].
    + destruct (Z.leb_spec (len ka - pos) KEY_CHUNK).
      * assert (c = len ka - pos) as Ec by (unfold c; lia).
        eapply orf_mono; [apply (IH s2 (pos + KEY_CHUNK) Hh2); unfold KEY_CHUNK in *; lia|]. intros r s3 _ (-> & Hk3).
        split; [|destruct Hk, Hk3; split; congruence]. rewrite Hm. unfold zd, len in *. rewrite !drop_ge by (unfold KEY_CHUNK in *; lia). done.
      * assert (c = KEY_CHUNK) as Ec by (unfold c; lia). rewrite Ec in Hm. eapply orf_mono; [apply (IH s2 (pos + KEY_CHUNK) Hh2); unfold KEY_CHUNK in *; lia|].
        intros r s3 _ (-> & Hk3). split; [by rewrite Hm|destruct Hk, Hk3; split; congruence].
    + apply orf_ret; [done|]. by split.
Qed.

(** With a scratch buffer dir_buf may be clobbered; without, nothing changes. *)
Lemma key_cmp_bytes_spec n nx o s a b ka kb (scratch : bool) : khold n nx o s -> src_is o a ka -> src_is o b kb -> len ka = len kb ->
  wp (key_cmp_bytes a b (len ka) scratch) s (or_fault n nx o (fun c s' => c = memcmp ka kb /\ bkt_buf s' = bkt_buf s /\
    (scratch = false -> dir_buf s' = dir_buf s))).
Proof.
  intros Hh Ha Hb Hl. pose proof (len_nonneg ka).
  assert (wp (key_cmp_chunks (Z.to_nat (len ka)) a b (len ka) 0) s (or_fault n nx o (fun c s' => c = memcmp ka kb /\ bkt_buf s' = bkt_buf s /\
    (scratch = false -> dir_buf s' = dir_buf s)))) as Hchunks.
  { eapply orf_mono; [apply (key_cmp_chunks_spec _ n nx o s a b ka kb 0); done || lia|]. intros c s' _ (-> & [Hd Hk]). done. }
  assert (forall k key, src_is o k key -> len key = len ka -> wp (key_chunk k 0 (len ka)) s (or_fault n nx o (fun c s' => c = key /\ bufs_kept s s'))) as Hwhole.
  { intros k key Hk Hlk. eapply orf_mono; [apply (key_chunk_spec n nx o s k key 0 (len ka)); done || lia|]. intros c s' _ (-> & Hb'). split; [|done].
    by apply slice_all. }
  assert (forall s1 c, khold n nx o s1 -> len c = len ka -> (len ka <=? MAX_PAYLOAD) = true -> khold n nx o (set_dir (splice 0 c (dir_buf s1)) s1)) as Hset.
  { intros s1 c (H1 & H2 & H3) Hc Hle. split_and!; cbn; rewrite ?splice_buf; try done; lia. }
  unfold key_cmp_bytes. pose proof Ha as Ha'. pose proof Hb as Hb'. unfold src_is in Ha, Hb. destruct (ks_p a) as [pa|] eqn:Epa, (ks_p b) as [pb|] eqn:Epb.
  - apply orf_ret; [done|]. split; [|done]. by rewrite Ha, Hl, Hb.
  - destruct (scratch && (len ka <=? MAX_PAYLOAD)) eqn:E; [|done]. apply andb_true_iff in E as [-> Hle].
    eapply wp_orf; [apply (Hwhole b kb); [done|lia]| |by intros; split]. intros c s1 Hh1 (-> & [_ Hk]). apply wp_bnd, wp_mod. apply orf_ret; [by apply Hset|].
    cbn. by rewrite Ha.
  - destruct (scratch && (len ka <=? MAX_PAYLOAD)) eqn:E; [|done]. apply andb_true_iff in E as [-> Hle].
    eapply wp_orf; [apply (Hwhole a ka); [done|lia]| |by intros; split]. intros c s1 Hh1 (-> & [_ Hk]). apply wp_bnd, wp_mod. apply orf_ret; [by apply Hset|].
    cbn. by rewrite Hl, Hb.
  - done.
Qed.

(** ** Entries of a bucket *)

(** The spilled parts of [e] are in the store. *)
Definition parts_stored o (e : kent) : Prop :=
  (k_kid e <> 0 -> o !! k_kid e = Some (k_key e)) /\ (k_vid e <> 0 -> o !! k_vid e = Some (k_val e)).

Lemma ent_objs_parts o e : stored o (ent_objs e) -> parts_stored o e.
Proof.
  unfold ent_objs. rewrite stored_app. intros (Hk & Hv & _). unfold part_obj, spilled in *. split; intros Hne.
  - destruct (Z.eqb_spec (k_kid e) 0); [done|]. cbn in Hk. rewrite stored_cons in Hk. apply Hk.
  - destruct (Z.eqb_spec (k_vid e) 0); [done|]. cbn in Hv. rewrite stored_cons in Hv. apply Hv.
Qed.

Lemma bkt_parts o b : spilled b.1 = true -> stored o (bkt_objs b) -> o !! b.1 = Some (bkt_bytes b.2) /\ Forall (parts_stored o) b.2.
Proof.
  intros Hs. unfold bkt_objs. rewrite Hs, stored_cons. intros (Hb & _ & _ & Hst). split; [done|]. apply list.Forall_forall. intros e He.
  apply ent_objs_parts. apply list_elem_of_lookup in He as [i Hi]. rewrite (bind_take_out ent_objs _ i e Hi), stored_app in Hst. apply Hst.
Qed.

Lemma key_fp_range key : 0 <= key_fp key < 2 ^ 32.
Proof.
  unfold key_fp, hash_fp, FP_MASK. change 4294967295 with (Z.ones 32). rewrite Z.land_ones by lia. apply Z.mod_pos_bound. lia.
Qed.

Lemma ent_src buf off e o : packed buf off e -> kent_ok e -> parts_stored o e -> src_is o (ent_key buf (ent_of off e)) (k_key e).
Proof.
  intros Hp He [Hk _]. unfold ent_key, src_is. cbn [ent_of e_kspill]. unfold spilled. destruct (Z.eqb_spec (k_kid e) 0) as [E|E]; cbn [negb ks_p ks_id].
  - exact (key_inline buf off e Hp E).
  - destruct (key_spilled buf off e Hp He E (key_fp_range _)) as [_ ->]. pose proof (ko_kid _ He). split; [lia|by apply Hk].
Qed.

Lemma ent_ids buf off e : packed buf off e -> kent_ok e -> ent_key_id buf (ent_of off e) = k_kid e /\ ent_val_id buf (ent_of off e) = k_vid e.
Proof.
  intros Hp He. unfold ent_key_id, ent_val_id. cbn [ent_of e_kspill e_vspill]. pose proof (val_read buf off e Hp He) as Hv. unfold spilled in *. split.
  - destruct (Z.eqb_spec (k_kid e) 0); [done|]. by apply key_spilled; [..|apply key_fp_range].
  - by destruct (Z.eqb_spec (k_vid e) 0).
Qed.

(** What a search for [key] among [es] comes to. *)
Definition found (es : list kent) (key : bytes) (r : res (Z * ent)) : Prop :=
  match r with
  | Ok (off, e) => exists es1 x es2, es = es1 ++ x :: es2 /\ k_key x = key /\ key ∉ (k_key <$> es1) /\ off = len (bkt_bytes es1) /\ e = ent_of off x
  | Err e => e = ENOENT /\ key ∉ (k_key <$> es)
  end.

(** The search ended so and left the bucket in bkt_buf, or met a fault. *)
Definition searched (n : nat) (nx : Z) o (buf : bytes) (es : list kent) (key : bytes) (r : res (Z * ent)) s : Prop :=
  khold n nx o s /\ ((bkt_buf s = buf /\ found es key r) \/ exists e, fault e /\ r = Err e).

Lemma bkt_find_loop_spec n nx o s key fp pre es post buf0 :
  khold n nx o s -> bkt_buf s = buf0 -> fp = key_fp key -> Forall kent_ok (pre ++ es) -> Forall (parts_stored o) es -> key ∉ (k_key <$> pre) ->
  wp (bkt_find_loop (parsed (len (bkt_bytes pre)) es) (bkt_bytes (pre ++ es) ++ post) key fp) s (searched n nx o buf0 (pre ++ es) key).
Proof.
  intros Hh Hb -> Hok Hst Hpre. revert pre s Hh Hb Hok Hpre. induction Hst as [|e es Hpt Hst IH]; intros pre s Hh Hb Hok Hpre; cbn [parsed bkt_find_loop].
  - apply wp_fail. split; [done|]. left. by rewrite app_nil_r.
  - set (off := len (bkt_bytes pre)). set (buf := bkt_bytes (pre ++ e :: es) ++ post).
    assert (packed buf off e) as Hp. { unfold buf, off. rewrite bkt_bytes_app, bkt_bytes_cons, <- !app_assoc. apply packed_here. }
    assert (kent_ok e) as He by (rewrite !list.Forall_app, list.Forall_cons in Hok; tauto).
    assert (forall s', khold n nx o s' -> bkt_buf s' = buf0 -> k_key e <> key ->
      wp (bkt_find_loop (parsed (off + len (enc_kent e)) es) buf key (key_fp key)) s' (searched n nx o buf0 (pre ++ e :: es) key)) as Hnext.
    { intros s' Hh' Hb' Hne. specialize (IH (pre ++ [e]) s' Hh' Hb'). rewrite <- app_assoc in IH. cbn [app] in IH. rewrite bkt_bytes_app, len_app in IH.
      assert (bkt_bytes [e] = enc_kent e) as E by apply app_nil_r. rewrite E in IH. fold off buf in IH. apply IH; [done|].
      rewrite fmap_app, not_elem_of_app. split; [done|]. by intros ->%list_elem_of_singleton. }
    assert (forall s', khold n nx o s' -> bkt_buf s' = buf0 -> k_key e = key -> searched n nx o buf0 (pre ++ e :: es) key (Ok (off, ent_of off e)) s') as Hhit.
    { intros s' Hh' Hb' Hk. split; [done|left]. split; [done|]. by exists pre, e, es. }
    assert (forall s', khold n nx o s' -> bkt_buf s' = buf0 -> len (k_key e) = len key ->
      wp (if negb (memcmp (k_key e) key =? 0) then bkt_find_loop (parsed (off + len (enc_kent e)) es) buf key (key_fp key) else mret (off, ent_of off e)) s'
        (searched n nx o buf0 (pre ++ e :: es) key)) as Hcmp.
    { intros s' Hh' Hb' El. pose proof (memcmp_eq (k_key e) key ltac:(unfold len in El; lia)) as Hm.
      destruct (Z.eqb_spec (memcmp (k_key e) key) 0) as [Ec|Ec]; cbn [negb]; [apply wp_ret, Hhit; try done; by apply Hm|].
      apply Hnext; try done. intros Ek. by apply Ec, Hm. }
    cbn [ent_of e_kl e_kspill]. destruct (Z.eqb_spec (len (k_key e)) (len key)) as [El|El]; cbn [negb].
    2: { apply Hnext; try done. intros E. by rewrite E in El. }
    unfold spilled. destruct (Z.eqb_spec (k_kid e) 0) as [E0|E0]; cbn [negb].
    + rewrite <- El. rewrite (key_inline buf off e Hp E0). by apply Hcmp.
    + destruct (key_spilled buf off e Hp He E0 (key_fp_range _)) as [-> _].
      destruct (Z.eqb_spec (key_fp (k_key e)) (key_fp key)) as [Ef|Ef]; cbn [negb].
      2: { apply Hnext; try done. intros E. by rewrite E in Ef. }
      rewrite <- El. eapply wp_orf; [apply (key_cmp_bytes_spec n nx o s _ _ (k_key e) key true); [done|by apply ent_src| |done]| |].
      * cbn. rewrite zt_slice. by apply slice_all.
      * intros c s1 Hh1 (-> & Hb1 & _). apply Hcmp; congruence.
      * intros er s1 Hh1 Hf. split; [done|right; eauto].
Qed.

Lemma bkt_find_spec n nx o s key es : khold n nx o s -> starts (bkt_bytes es) (bkt_buf s) -> Forall kent_ok es -> Forall (parts_stored o) es ->
  wp (bkt_find (len (bkt_bytes es)) key (hash_fp (key_hash key))) s (searched n nx o (bkt_buf s) es key).
Proof.
  intros Hh [junk Hj] Hok Hst. unfold bkt_find. apply wp_bnd, wp_gets. rewrite Hj, parse_bkt by done.
  apply (bkt_find_loop_spec n nx o s key _ [] es junk); try done. by apply not_elem_of_nil.
Qed.

(** The value of a found entry. *)
Definition value_reply (v : bytes) (sz : Z) : res bytes := if sz <? len v then Err ENOMEM else Ok v.

Lemma ent_value_spec n nx o s buf off e sz : khold n nx o s -> packed buf off e -> kent_ok e -> parts_stored o e ->
  wp (ent_value buf (ent_of off e) sz) s (fun r s' => khold n nx o s' /\ (r = value_reply (k_val e) sz \/ exists er, fault er /\ r = Err er)).
Proof.
  intros Hh Hp He [_ Hv]. unfold ent_value, value_reply. cbn [ent_of e_vl e_vspill]. rewrite Z.gtb_ltb.
  destruct (Z.ltb_spec sz (len (k_val e))) as [Hlt|Hge]; [by split; [|left]|]. pose proof (val_read buf off e Hp He) as Hr.
  destruct (spilled (k_vid e)) eqn:Es; cbn [negb].
  - unfold ent_val_id. cbn [ent_of e_vspill]. rewrite Es, Hr. unfold spilled in Es. destruct (Z.eqb_spec (k_vid e) 0); [done|].
    apply wp_bnd, wp_try, wp_on_dev. eapply wp_mono; [apply (get_law n _ nx o); [apply Hh|apply (ko_vid _ He)]|]. cbv beta. intros r d [Hd Hrp].
    pose proof (khold_dev _ _ _ _ _ _ s d Hh Hd) as Hh'. unfold get_reply in Hrp. rewrite Hv in Hrp by done.
    destruct (Z.ltb_spec sz (len (k_val e))); [lia|]. destruct Hrp as [->|(er & Her & ->)].
    + rewrite Z.eqb_refl. split; [done|by left].
    + pose proof (fault_plain er Her) as (_ & H1 & H2 & _).
      assert (khold n nx o (set_dev d s) /\ (@Err bytes er = Ok (k_val e) \/ exists er', fault er' /\ @Err bytes er = Err er')) as Hq by (split; eauto).
      destruct er; try done; exact Hq.
  - split; [done|left]. by rewrite Hr.
Qed.
End read.
