(* ===== verification/KvHashOps.v ===== *)
(** What the operations of kvhash do to the map: get, set, del and create. *)

From S2P Require Import BlobIface Prelude Layout Records KvHash KvHashRep KvHashRead.

Section ops.
Context `{Crc} {D : Type} `{!Blobs D} {CL : CrcLaws _} {L : BlobLaws D}.
Notation MAX_PAYLOAD := (blob_max (D := D)).
Notation kvh := (kvh (D := D)).
Context (Hmax : 24 <= MAX_PAYLOAD <= ENT_LEN_MASK).
Implicit Types (s : kvh) (o : objs) (m : gmap bytes bytes) (t : kvtree).

(** The map at [root] in the store is [m]. *)
Definition kvmap o (root : Z) m : Prop :=
  exists t, tree_root t = root /\ tree_ok (D := D) t /\ stored o (tree_objs t) /\ m = tree_map t.

(** ** The place of a key *)

Record located o t (k : bytes) (l : kleaf) (b : Z * list kent) : Prop := {
  lc_leaf : leaves t !! sub_index t k = Some l;
  lc_leaf_ok : leaf_ok (D := D) l;
  lc_bkt : lf_bkts l !! bkt_index l k = Some b;
  lc_bkt_ok : bkt_ok (D := D) (len (lf_bkts l)) (bkt_index l k) b;
  lc_stored : stored o ((lf_id l, leaf_dir l) :: bkt_objs b ++ leaf_ctx l (bkt_index l k) ++ tree_ctx t (sub_index t k));
  lc_map : tree_map t !! k = assoc k b.2;
}.

Lemma locate o t k : tree_ok (D := D) t -> stored o (tree_objs t) -> exists l b, located o t k l b.
Proof.
  intros Ht Hs. destruct (tree_leaf Hmax t k Ht) as (l & El & Hl). destruct (leaf_bkt Hmax l k Hl) as (b & Eb & Hb). exists l, b. split; try done.
  - rewrite (tree_split t _ l El), (leaf_split l _ b Eb) in Hs. cbn [app] in Hs. by rewrite app_assoc.
  - rewrite (tree_map_lookup Hmax) by done. unfold bucket_of. by rewrite El, Eb.
Qed.

Lemma located_dir_child o t k l b junk : located o t k l b -> dir_child (leaf_dir l ++ junk) (Z.of_nat (bkt_index l k)) = b.1.
Proof.
  intros Hlc. apply dir_child_at; [apply (dv_ids _ _ _ _ (leaf_valid l (lc_leaf_ok _ _ _ _ _ Hlc)))|].
  by rewrite list_lookup_fmap, (lc_bkt _ _ _ _ _ Hlc).
Qed.

Lemma located_bkt o t k l b : located o t k l b -> b.1 <> 0 -> o !! b.1 = Some (bkt_bytes b.2) /\ Forall (parts_stored o) b.2.
Proof.
  intros Hlc Hne. pose proof (lc_stored _ _ _ _ _ Hlc) as Hs. rewrite stored_cons, stored_app in Hs. apply (bkt_parts o b); [|apply Hs].
  unfold spilled. by destruct (Z.eqb_spec b.1 0).
Qed.

(** ** get *)

Definition kv_get_reply m (key : bytes) (sz : Z) : res bytes :=
  if (len key =? 0) || (len key >? 0xffff) then Err EINVAL
  else match m !! key with Some v => value_reply v sz | None => Err ENOENT end.

Lemma long_key_absent t k : tree_ok (D := D) t -> ENT_LEN_MASK < len k -> tree_map t !! k = None.
Proof.
  intros Ht Hk. rewrite (tree_map_lookup Hmax) by done. destruct (assoc k (bucket_of t k)) as [v|] eqn:E; [exfalso|done].
  apply assoc_some in E as (e & Hin & <- & _). destruct (tree_leaf Hmax t (k_key e) Ht) as (l & El & Hl).
  destruct (leaf_bkt Hmax l (k_key e) Hl) as (b & Eb & Hb). unfold bucket_of in Hin. rewrite El, Eb in Hin.
  pose proof (bo_ents _ _ _ Hb) as Hok. rewrite list.Forall_forall in Hok. pose proof (ko_key _ (Hok e Hin)). lia.
Qed.

Lemma found_value k b off e r : found b k (Ok (off, e)) -> NoDup (k_key <$> b) -> r = Ok (off, e) ->
  exists es1 x es2, b = es1 ++ x :: es2 /\ k_key x = k /\ k ∉ (k_key <$> es1) /\ off = len (bkt_bytes es1) /\ e = ent_of off x /\ assoc k b = Some (k_val x).
Proof.
  intros (es1 & x & es2 & -> & Hk & Hn & -> & ->) Hd _. exists es1, x, es2. split_and!; try done. apply assoc_in; [done| |done].
  apply elem_of_app. right. left.
Qed.

Lemma get_spec n nx o s root m key sz : khold n nx o s -> kvmap o root m ->
  wp (kvhash_get root (Some key) sz) s (fun r s' => khold n nx o s' /\ (r = kv_get_reply m key sz \/ exists e, fault e /\ r = Err e)).
Proof.
  intros Hh (t & <- & Ht & Hs & ->). unfold kvhash_get, kv_get_reply. destruct ((len key =? 0) || (len key >? 65535)); [by split; [|left]|].
  rewrite Z.gtb_ltb. destruct (Z.ltb_spec ENT_LEN_MASK (len key)); [rewrite long_key_absent by done; by split; [|left]|].
  destruct (locate o t key Ht Hs) as (l & b & Hlc). rewrite (lc_map _ _ _ _ _ Hlc).
  assert (forall (e : errno) s', khold n nx o s' -> fault e -> khold n nx o s' /\
    (@Err bytes e = match assoc key b.2 with Some v => value_reply v sz | None => Err ENOENT end \/ exists e', fault e' /\ @Err bytes e = Err e')) as Hf by (split; eauto).
  eapply wp_orf; [apply (resolve_leaf_spec Hmax n nx o s t key l); try done; apply Hlc| |exact Hf].
  intros r s1 Hh1 (-> & [junk Hj] & _). apply wp_bnd, wp_gets. rewrite Hj, (located_dir_child o t key l b) by done.
  pose proof (lc_bkt_ok _ _ _ _ _ Hlc) as Hb. destruct (Z.eqb_spec b.1 0) as [E0|E0].
  { rewrite (bo_empty _ _ _ Hb E0). by split; [|left]. }
  destruct (located_bkt o t key l b Hlc E0) as [Hbo Hparts].
  eapply wp_orf; [apply (get_bkt_spec n nx o s1 b.1 (bkt_bytes b.2) Hh1); [apply (bo_id _ _ _ Hb)|done]| |exact Hf]. intros used s2 Hh2 (-> & Hst & _).
  apply wp_bnd. eapply wp_mono; [apply (bkt_find_spec Hmax n nx o s2 key b.2 Hh2 Hst); [apply Hb|done]|]. cbv beta.
  intros r s3 [Hh3 [[Hb3 Hfd]|(e & He & ->)]]; [|by apply Hf]. destruct r as [[off e]|e].
  - destruct (found_value key b.2 off e _ Hfd (bo_keys _ _ _ Hb) eq_refl) as (es1 & x & es2 & Eb & Hk & _ & Ho & -> & ->). subst off. rewrite Eb in *.
    apply wp_bnd, wp_gets. rewrite Hb3. destruct Hst as [junk2 Hj2]. rewrite Hj2.
    eapply wp_mono; [apply (ent_value_spec n nx o s3 _ _ x sz Hh3)|].
    + rewrite bkt_bytes_app, bkt_bytes_cons, <- !app_assoc. apply packed_here.
    + pose proof (bo_ents _ _ _ Hb) as Hok. rewrite Eb, list.Forall_app, list.Forall_cons in Hok. tauto.
    + rewrite list.Forall_app, list.Forall_cons in Hparts. tauto.
    + done.
  - destruct Hfd as [-> Hn]. rewrite assoc_none by done. by split; [|left].
Qed.

(** ** Exchanging one entry of a bucket *)

(** [es] is [es0] with the entry of key [key], if any, taken out of it. *)
Definition without (es : list kent) (key : bytes) (old : option kent) (es0 : list kent) : Prop :=
  match old with
  | Some x => k_key x = key /\ exists es1 es2, es = es1 ++ x :: es2 /\ es0 = es1 ++ es2
  | None => es0 = es /\ key ∉ (k_key <$> es)
  end.

Definition old_objs (old : option kent) : list (Z * bytes) := match old with Some x => ent_objs x | None => [] end.

Lemma without_perm es key old es0 : without es key old es0 -> es ≡ₚ option_list old ++ es0.
Proof.
  destruct old as [x|]; cbn; [intros (_ & es1 & es2 & -> & ->); by rewrite Permutation_middle|by intros [-> _]].
Qed.

Lemma without_objs es key old es0 : without es key old es0 -> es ≫= ent_objs ≡ₚ old_objs old ++ (es0 ≫= ent_objs).
Proof. intros Hw. rewrite (without_perm _ _ _ _ Hw). destruct old; cbn; [done|done]. Qed.

Lemma without_keys es key old es0 : without es key old es0 -> NoDup (k_key <$> es) -> NoDup (k_key <$> es0) /\ key ∉ (k_key <$> es0).
Proof.
  destruct old as [x|]; cbn; [|by intros [-> ?]]. intros (<- & es1 & es2 & -> & ->) Hn. rewrite <- Permutation_middle in Hn.
  cbn in Hn. by apply list.NoDup_cons in Hn as [? ?].
Qed.

Lemma without_assoc es key old es0 k' : without es key old es0 -> NoDup (k_key <$> es) -> k' <> key -> assoc k' es0 = assoc k' es.
Proof.
  destruct old as [x|]; cbn; [|by intros [-> ?]]. intros (<- & es1 & es2 & -> & ->) _ Hne. rewrite !assoc_app. cbn. by rewrite bool_decide_false.
Qed.

Lemma without_forall {P : kent -> Prop} es key old es0 : without es key old es0 -> Forall P es -> Forall P es0.
Proof.
  intros Hw Hf. rewrite (without_perm _ _ _ _ Hw) in Hf. by apply list.Forall_app in Hf as [_ ?].
Qed.

Lemma assoc_put es key old es0 e k' : without es key old es0 -> NoDup (k_key <$> es) -> k_key e = key ->
  assoc k' (es0 ++ [e]) = if decide (k' = key) then Some (k_val e) else assoc k' es.
Proof.
  intros Hw Hn Hk. destruct (without_keys _ _ _ _ Hw Hn) as [_ Hnot]. rewrite assoc_app. cbn. rewrite Hk. case_decide as E.
  - subst k'. rewrite assoc_none by done. by rewrite bool_decide_true.
  - rewrite (without_assoc es key old es0) by done. rewrite bool_decide_false by done. by destruct (assoc k' es).
Qed.

Lemma assoc_drop es key old es0 k' : without es key old es0 -> NoDup (k_key <$> es) -> assoc k' es0 = if decide (k' = key) then None else assoc k' es.
Proof.
  intros Hw Hn. destruct (without_keys _ _ _ _ Hw Hn) as [_ Hnot]. case_decide as E; [subst; by apply assoc_none|]. by apply (without_assoc es key old).
Qed.

Lemma bkt_ok_drop n i b key old es0 : bkt_ok (D := D) n i b -> without b.2 key old es0 -> b.1 <> 0 -> bkt_ok (D := D) n i (b.1, es0).
Proof.
  intros [Hid He Hok Hfit Hn Hp] Hw Hne. split; cbn; try done; [by eapply without_forall| |by eapply without_keys|by eapply without_forall].
  assert (len (bkt_bytes es0) <= len (bkt_bytes b.2)); [|lia]. destruct old as [x|]; cbn in Hw.
  - destruct Hw as (_ & es1 & es2 & -> & ->). rewrite !bkt_bytes_app, bkt_bytes_cons, !len_app. pose proof (len_nonneg (enc_kent x)). lia.
  - destruct Hw as [-> _]. lia.
Qed.

Lemma bkt_ok_put n i b key old es0 e bid : bkt_ok (D := D) n i b -> without b.2 key old es0 -> 0 < bid < 2 ^ 64 -> kent_ok e -> k_key e = key ->
  idx_sub (key_hash key) n = Z.of_nat i -> len (bkt_bytes (es0 ++ [e])) <= MAX_PAYLOAD -> bkt_ok (D := D) n i (bid, es0 ++ [e]).
Proof.
  intros [Hid He Hok Hfit Hn Hp] Hw Hb Hoke Hk Hi Hl. destruct (without_keys _ _ _ _ Hw Hn) as [Hn0 Hnot]. split; cbn; [lia|lia| |done| |].
  - apply list.Forall_app. split; [by eapply without_forall|by apply Forall_singleton].
  - rewrite fmap_app. apply list.NoDup_app. split_and!; [done| |apply NoDup_singleton]. intros y Hy ->%list_elem_of_singleton. by rewrite Hk in Hy.
  - apply list.Forall_app. split; [by eapply without_forall|]. apply Forall_singleton. by rewrite Hk.
Qed.

(** All entries of a located bucket share the key's sub-map. *)
Lemma located_top o t k l b : tree_ok (D := D) t -> located o t k l b -> Forall (same_top t k) b.2.
Proof.
  intros Ht Hlc. destruct t as [l0|root ver subs]; [by apply Forall_true|]. destruct Ht as (Hn & _ & _ & _ & Hp).
  pose proof (lc_leaf _ _ _ _ _ Hlc) as El. cbn in El. specialize (Hp _ _ El). pose proof (MAX_BUCKETS_lt Hmax).
  pose proof (idx_top_range (key_hash k) (len subs) ltac:(lia)). rewrite Z2Nat.id in Hp by lia.
  unfold leaf_ents in Hp. rewrite (bind_take_out snd _ _ b (lc_bkt _ _ _ _ _ Hlc)) in Hp. apply list.Forall_app in Hp as [Hp _]. exact Hp.
Qed.

Lemma located_inline o t k l b : located o t k l b -> lf_ver l < 3 -> Forall inline_ent b.2.
Proof. intros Hlc Hv. exact (lo_v2 _ (lc_leaf_ok _ _ _ _ _ Hlc) Hv _ _ (lc_bkt _ _ _ _ _ Hlc)). Qed.

(** ** Changing the store *)

Lemma kv_update_spec n nx o s id p : khold n nx o s -> 0 < id < nx -> bytes_ok p -> len p <= MAX_PAYLOAD ->
  wp (kv_update id p) s (fun r s' => bufs_kept s s' /\ effect fault fills tears (khold n nx o) (khold n nx (<[id := p]> o)) r s').
Proof.
  intros Hh Hid Hp Hl. unfold kv_update. apply wp_on_dev. pose proof (khold_wf _ _ _ _ Hh) as [Hnx _].
  eapply wp_mono; [apply (update_law n _ nx o); [apply Hh|lia|done]|]. cbv beta. intros r d Hr. split; [done|].
  destruct (_ || _) eqn:E; [lia|]. assert (forall o', holds n nx o' d -> khold n nx o' (set_dev d s)) as Hk by (intros; by eapply khold_dev).
  destruct Hr as [[-> Hd]|[(e & He & -> & Hd)|(e & Ht & He & -> & Hd)]]; [left|right; left|right; right]; eauto 6.
Qed.

Lemma alloc_spec n nx o s : khold (S n) nx o s ->
  wp (on_dev blob_alloc_id) s (fun r s' => bufs_kept s s' /\
    ((r = Ok nx /\ khold n (nx + 1) o s') \/ (r = Ok 0 /\ (exists e, fault e) /\ exists nx', nx <= nx' /\ khold n nx' o s'))).
Proof.
  intros Hh. apply wp_on_dev. eapply wp_mono; [apply (alloc_law n), Hh|]. cbv beta. intros r d Hr. split; [done|].
  destruct Hr as [[-> Hd]|(-> & He & nx' & Hle & Hd)]; [left|right]; (split; [done|]).
  - by eapply khold_dev.
  - split; [done|]. exists nx'. split; [done|]. by eapply khold_dev.
Qed.

(** Releasing a part deletes its object or leaves it behind. *)
Lemma release_part_spec n nx o s id : khold n nx o s -> 0 <= id < 2 ^ 64 -> id <> BLOB_ROOT ->
  wp (release_part id) s (fun r s' => r = Ok tt /\ exists o', (o' = o \/ (id <> 0 /\ o' = delete id o)) /\ khold n nx o' s').
Proof.
  intros Hh Hid Hr. unfold release_part. destruct (Z.eqb_spec id 0); [split; eauto|]. apply wp_bnd, wp_try, wp_on_dev.
  eapply wp_mono; [apply (delete_law n _ nx o); [apply Hh|done|done]|]. cbv beta. intros r d Hd. apply wp_ret. split; [done|].
  assert (forall o', holds n nx o' d -> khold n nx o' (set_dev d s)) as Hk by (intros; by eapply khold_dev).
  destruct (o !! id).
  - destruct Hd as [[-> Hd]|[(e & He & -> & Hd)|(e & Ht & He & -> & Hd)]]; eauto 8.
  - destruct Hd as [Hd _]. eauto 8.
Qed.

(** Nothing but the listed ids differs. *)
Definition agree_off (ids : list Z) o o' : Prop := forall id, id ∉ ids -> o' !! id = o !! id.

Lemma release_stored n nx o s id l : khold n nx o s -> 0 <= id < 2 ^ 64 -> id <> BLOB_ROOT -> id ∉ l.*1 -> stored o l ->
  wp (release_part id) s (fun r s' => r = Ok tt /\ exists o', khold n nx o' s' /\ stored o' l /\ agree_off [id] o o').
Proof.
  intros Hh Hid Hr Hn Hs. eapply wp_mono; [by apply (release_part_spec n nx o s id)|]. cbv beta. intros r s' (-> & o' & Ho & Hh'). split; [done|].
  exists o'. split; [done|]. destruct Ho as [->|[_ ->]]; [done|]. split; [by apply stored_del_other|].
  intros id' Hne. apply lookup_delete_ne. intros ->. apply Hne. left.
Qed.

(** ** How a mutation ends *)

Notation own t := ((tree_objs t).*1).

(** The tree [t] became [t']: below the ids handed out since, no object that was
    not the map's has changed or become part of it. *)
Definition became (n : nat) (nx : Z) o t t' s : Prop :=
  exists nx' o', khold n nx' o' s /\ nx <= nx' /\ tree_root t' = tree_root t /\ tree_ok (D := D) t' /\ stored o' (tree_objs t') /\
    forall id, id < nx -> id ∉ own t -> o' !! id = o !! id /\ id ∉ own t'.

(** The call ended as wanted and the map is [m], or it was refused and the map is
    as before; where mutations tear it may have changed all the same. *)
Definition mut_post (n : nat) (nx : Z) o t (want : res unit) m (r : res unit) s : Prop :=
  exists t', became n nx o t t' s /\
    ((r = want /\ tree_map t' = m) \/
     (exists e, refused e /\ r = Err e /\ (tree_map t' = tree_map t \/ (tears /\ tree_map t' = m)))).

Lemma became_same n nx o t s : khold n nx o s -> tree_ok (D := D) t -> stored o (tree_objs t) -> became n nx o t t s.
Proof. intros Hh Ht Hs. exists nx, o. split_and!; try done; lia. Qed.

Lemma post_refused n nx o t s want m e : khold n nx o s -> tree_ok (D := D) t -> stored o (tree_objs t) -> refused e -> mut_post n nx o t want m (Err e) s.
Proof. intros. exists t. split; [by apply became_same|]. right. eauto. Qed.

Lemma post_want n nx o t s want : khold n nx o s -> tree_ok (D := D) t -> stored o (tree_objs t) -> mut_post n nx o t want (tree_map t) want s.
Proof. intros. exists t. split; [by apply became_same|]. by left. Qed.

Lemma khold_le n n' nx o s : (n' <= n)%nat -> khold n nx o s -> khold n' nx o s.
Proof. intros Hn (Hh & ?). split; [by eapply holds_le|done]. Qed.

Lemma fault_refused (e : errno) : fault e -> refused e.
Proof. unfold refused. eauto. Qed.

(** ** Putting the new tree together *)

Notation ctx t l k := (leaf_ctx l (bkt_index l k) ++ tree_ctx t (sub_index t k)).

Lemma own_located o t k l b : located o t k l b -> tree_objs t ≡ₚ (lf_id l, leaf_dir l) :: bkt_objs b ++ ctx t l k.
Proof.
  intros Hlc. rewrite (tree_split t _ l (lc_leaf _ _ _ _ _ Hlc)), (leaf_split l _ b (lc_bkt _ _ _ _ _ Hlc)). cbn [app]. by rewrite app_assoc.
Qed.

Lemma own_put o t k l b b' : located o t k l b ->
  tree_objs (put_bucket t l k b') ≡ₚ (lf_id l, leaf_dir (set_bucket (bkt_index l k) b' l)) :: bkt_objs b' ++ ctx t l k.
Proof.
  intros Hlc. unfold put_bucket. rewrite (tree_split_put t _ l) by (done || apply Hlc). rewrite (leaf_split_put l _ b b' (lc_bkt _ _ _ _ _ Hlc)).
  cbn [app]. by rewrite app_assoc.
Qed.

Lemma tree_root_put t l k b : leaves t !! sub_index t k = Some l -> tree_root (put_bucket t l k b) = tree_root t.
Proof. destruct t; cbn; [by intros [= ->]|done]. Qed.

(** The tree whose bucket for [k] is [b'], once the store holds its objects. *)
Lemma became_put n nx nx' o o' t l k b b' s v : tree_ok (D := D) t -> located o t k l b -> khold n nx' o' s -> nx <= nx' ->
  bkt_ok (D := D) (len (lf_bkts l)) (bkt_index l k) b' -> (lf_ver l < 3 -> Forall inline_ent b'.2) -> Forall (same_top t k) b'.2 ->
  stored o' ((lf_id l, leaf_dir (set_bucket (bkt_index l k) b' l)) :: bkt_objs b' ++ ctx t l k) ->
  (forall id, id < nx -> id ∉ own t -> o' !! id = o !! id) -> (forall id, id ∈ (bkt_objs b').*1 -> id < nx -> id ∈ own t) ->
  (forall k', assoc k' b'.2 = if decide (k' = k) then v else assoc k' b.2) ->
  became n nx o t (put_bucket t l k b') s /\ tree_map (put_bucket t l k b') = partial_alter (fun _ => v) k (tree_map t).
Proof.
  intros Ht Hlc Hh Hnx Hok Hin Htop Hs Hfr Hown Ha.
  assert (tree_ok (D := D) (put_bucket t l k b')) as Ht' by (apply (tree_ok_put Hmax t l k b); try done; apply Hlc).
  split; [|apply (tree_map_put Hmax t l k b); try done; apply Hlc].
  exists nx', o'. split_and!; try done.
  - apply tree_root_put, Hlc.
  - by rewrite (own_put o t k l b).
  - intros id Hid Hno. split; [by apply Hfr|]. rewrite (own_put o t k l b b') by done. intros Hin'. cbn in Hin'.
    apply elem_of_cons in Hin' as [->|Hin'].
    + apply Hno. rewrite (own_located o t k l b) by done. left.
    + rewrite fmap_app, elem_of_app in Hin'. destruct Hin' as [Hin'|Hin'].
      * apply Hno. by apply Hown.
      * apply Hno. rewrite (own_located o t k l b) by done. cbn. right. rewrite fmap_app. apply elem_of_app. by right.
Qed.

(** Releasing a part that is listed in front. *)
Lemma release_listed n nx o s id b l : khold n nx o s -> 0 <= id < 2 ^ 64 -> stored o (part_obj id b ++ l) ->
  wp (release_part id) s (fun r s' => r = Ok tt /\ exists o', khold n nx o' s' /\ stored o' l /\ agree_off (part_obj id b).*1 o o').
Proof.
  intros Hh Hid Hs. unfold part_obj, spilled in *. destruct (Z.eqb_spec id 0) as [->|Hne]; cbn in *.
  - split; [done|]. exists o. by split_and!.
  - rewrite stored_cons in Hs. destruct Hs as (_ & Hr & Hn & Hs). eapply wp_mono; [by apply (release_stored n nx o s id l)|]. done.
Qed.

Lemma agree_trans ids ids' o o' o'' : agree_off ids o o' -> agree_off ids' o' o'' -> agree_off (ids ++ ids') o o''.
Proof. intros H1 H2 id Hn. rewrite not_elem_of_app in Hn. destruct Hn. rewrite H2, H1; done. Qed.

Lemma agree_put id p o : agree_off [id] o (<[id := p]> o).
Proof. intros id' Hn. apply lookup_insert_ne. intros ->. apply Hn. left. Qed.

Lemma agree_sub ids ids' o o' : (forall id, id ∈ ids -> id ∈ ids') -> agree_off ids o o' -> agree_off ids' o o'.
Proof. intros Hs Ha id Hn. apply Ha. auto. Qed.

(** ** del *)

Lemma bkt_drop_spec n nx o s es1 x es2 : khold n nx o s -> starts (bkt_bytes (es1 ++ x :: es2)) (bkt_buf s) ->
  wp (bkt_drop (len (bkt_bytes es1)) (len (enc_kent x)) (len (bkt_bytes (es1 ++ x :: es2)))) s (fun r s' =>
    khold n nx o s' /\ r = Ok (len (bkt_bytes (es1 ++ es2))) /\ starts (bkt_bytes (es1 ++ es2)) (bkt_buf s') /\ dir_buf s' = dir_buf s).
Proof.
  intros (Hh & Hd & Hb) [junk Hj]. unfold bkt_drop. apply wp_bnd, wp_mod, wp_ret. rewrite bkt_bytes_app, bkt_bytes_cons in *. rewrite !len_app.
  set (a := bkt_bytes es1) in *. set (c := bkt_bytes es2) in *. set (e := enc_kent x) in *.
  assert (slice (len a + len e) (len a + (len e + len c) - len a - len e) (bkt_buf s) = c) as Hsl.
  { rewrite Hj, <- !app_assoc. rewrite app_assoc, slice_app_r by lens. autorewrite with len. rewrite Z.sub_diag. apply slice_here. lia. }
  assert (splice (len a) c (bkt_buf s) = (a ++ c) ++ zd (len c) (e ++ c ++ junk)) as Hsp.
  { rewrite Hj, <- !app_assoc. rewrite splice_end by done. by rewrite <- app_assoc. }
  pose proof (len_nonneg a). pose proof (len_nonneg e). assert (len (bkt_buf s) = len a + len e + len c + len junk) by (rewrite Hj; lens).
  pose proof (len_nonneg junk). split_and!.
  - split; [done|]. split; [done|]. cbn [set_bkt bkt_buf]. rewrite Hsl. rewrite len_splice by lia. done.
  - rewrite bkt_bytes_app, len_app. fold a c. f_equal. lia.
  - cbn [set_bkt bkt_buf]. rewrite Hsl, Hsp, bkt_bytes_app. by eexists.
  - done.
Qed.

Lemma old_in_bucket es key x es0 : without es key (Some x) es0 -> x ∈ es.
Proof. intros (_ & es1 & es2 & -> & _). apply elem_of_app. right. left. Qed.

(** The objects of a located bucket that holds [x], in the order they go. *)
Lemma bucket_objs o t k l b x es0 : located o t k l b -> b.1 <> 0 -> without b.2 k (Some x) es0 ->
  stored o ((b.1, bkt_bytes b.2) :: part_obj (k_kid x) (k_key x) ++ part_obj (k_vid x) (k_val x) ++ (lf_id l, leaf_dir l) :: (es0 ≫= ent_objs) ++ ctx t l k).
Proof.
  intros Hlc Hne Hw. pose proof (lc_stored _ _ _ _ _ Hlc) as Hs. unfold bkt_objs in Hs.
  assert (spilled b.1 = true) as Hsp by (unfold spilled; by destruct (Z.eqb_spec b.1 0)). rewrite Hsp in Hs.
  rewrite (without_objs _ _ _ _ Hw) in Hs. cbn [old_objs] in Hs. unfold ent_objs at 1 in Hs.
  eapply stored_perm; [|exact Hs]. set (p1 := part_obj (k_kid x) _). set (p2 := part_obj (k_vid x) _). set (r := es0 ≫= ent_objs).
  cbn [app]. rewrite <- !app_assoc. etransitivity; [|apply perm_swap]. apply Permutation_skip.
  rewrite (app_assoc p1 p2 (_ :: _)), (app_assoc p1 p2 (r ++ _)). symmetry. apply Permutation_middle.
Qed.

Definition del_want m (key : bytes) : res unit * gmap bytes bytes :=
  if (len key =? 0) || (len key >? 0xffff) then (Err EINVAL, m)
  else match m !! key with Some _ => (Ok tt, delete key m) | None => (Err ENOENT, m) end.

Lemma stored_drop o l l' : stored o (l ++ l') -> stored o l'.
Proof. rewrite stored_app. by intros (_ & ? & _). Qed.

Lemma bkt_objs_used bid es : bid <> 0 -> bkt_objs (bid, es) = (bid, bkt_bytes es) :: (es ≫= ent_objs).
Proof. intros Hne. unfold bkt_objs, spilled. cbn. by destruct (Z.eqb_spec bid 0). Qed.

Lemma located_ids o t k l b nx : obs_wf MAX_PAYLOAD nx o -> located o t k l b -> 0 < lf_id l < nx /\ (b.1 <> 0 -> 0 < b.1 < nx).
Proof.
  intros Hw Hlc. pose proof (lc_stored _ _ _ _ _ Hlc) as Hs. split.
  - rewrite stored_cons in Hs. by apply (obs_wf_lookup _ _ _ _ _ Hw (proj1 Hs)).
  - intros Hne. by apply (obs_wf_lookup _ _ _ _ _ Hw (proj1 (located_bkt o t k l b Hlc Hne))).
Qed.

(** After the bucket was rewritten without [x], the map lacks its key. *)
Lemma became_del n nx o o' s t k l b x es0 : tree_ok (D := D) t -> located o t k l b -> b.1 <> 0 -> without b.2 k (Some x) es0 ->
  khold n nx o' s -> stored o' ((b.1, bkt_bytes es0) :: (lf_id l, leaf_dir l) :: (es0 ≫= ent_objs) ++ ctx t l k) ->
  agree_off (b.1 :: (ent_objs x).*1) o o' -> exists t', became n nx o t t' s /\ tree_map t' = delete k (tree_map t).
Proof.
  intros Ht Hlc Hne Hw Hh Hs Ha. pose proof (lc_bkt_ok _ _ _ _ _ Hlc) as Hb.
  destruct (became_put n nx nx o o' t l k b (b.1, es0) s None Ht Hlc Hh ltac:(lia)) as [H1 H2]; [| | | | | | |by eauto].
  - by apply (bkt_ok_drop _ _ b k (Some x)).
  - intros Hv. eapply without_forall; [exact Hw|]. by apply (located_inline o t k l b).
  - eapply without_forall; [exact Hw|]. by apply (located_top o t k l b).
  - rewrite (leaf_dir_put l _ b) by (done || apply Hlc). rewrite bkt_objs_used by done. cbn [app]. rewrite perm_swap. exact Hs.
  - intros id _ Hno. apply Ha. intros Hin. apply Hno. rewrite (own_located o t k l b) by done.
    assert (bkt_objs b = (b.1, bkt_bytes b.2) :: (b.2 ≫= ent_objs)) as -> by (destruct b; by apply bkt_objs_used).
    cbn. right. apply elem_of_cons in Hin as [->|Hin]; [left|right]. rewrite fmap_app. apply elem_of_app. left. rewrite (without_objs _ _ _ _ Hw), fmap_app.
    apply elem_of_app. by left.
  - intros id Hin _. rewrite (own_located o t k l b) by done. rewrite bkt_objs_used in Hin by done.
    assert (bkt_objs b = (b.1, bkt_bytes b.2) :: (b.2 ≫= ent_objs)) as -> by (destruct b; by apply bkt_objs_used).
    cbn in Hin |- *. right. apply elem_of_cons in Hin as [->|Hin]; [left|right]. rewrite fmap_app. apply elem_of_app. left. rewrite (without_objs _ _ _ _ Hw), fmap_app.
    apply elem_of_app. by right.
  - intros k'. apply (assoc_drop b.2 k (Some x)); [done|apply Hb].
Qed.

Lemma del_commit n nx o s t k l b x es0 : tree_ok (D := D) t -> stored o (tree_objs t) -> located o t k l b -> b.1 <> 0 -> without b.2 k (Some x) es0 ->
  khold n nx o s -> starts (bkt_bytes es0) (bkt_buf s) ->
  wp (let* buf := mgets bkt_buf in kv_update b.1 (zt (len (bkt_bytes es0)) buf);;; release_part (k_kid x);;; release_part (k_vid x)) s
    (mut_post n nx o t (Ok tt) (delete k (tree_map t))).
Proof.
  intros Ht Hst Hlc Hne Hw Hh [junk Hj]. apply wp_bnd, wp_gets. rewrite Hj, zt_app_exact by done. pose proof (lc_bkt_ok _ _ _ _ _ Hlc) as Hb.
  pose proof (bkt_ok_drop _ _ b k (Some x) es0 Hb Hw Hne) as Hb0. pose proof (bucket_objs o t k l b x es0 Hlc Hne Hw) as Hs.
  assert (kent_ok x) as Hx. { pose proof (bo_ents _ _ _ Hb) as Ho. rewrite list.Forall_forall in Ho. apply Ho, (old_in_bucket _ _ _ _ Hw). }
  apply (stored_put _ _ _ _ (bkt_bytes es0)) in Hs. set (o1 := <[b.1 := bkt_bytes es0]> o) in *.
  set (rest := (lf_id l, leaf_dir l) :: (es0 ≫= ent_objs) ++ ctx t l k) in *.
  assert (stored o1 (part_obj (k_kid x) (k_key x) ++ part_obj (k_vid x) (k_val x) ++ (b.1, bkt_bytes es0) :: rest)) as Hs1.
  { eapply stored_perm; [|exact Hs]. rewrite !app_assoc. symmetry. apply Permutation_middle. }
  assert (forall s' o', khold n nx o' s' -> stored o' ((b.1, bkt_bytes es0) :: rest) -> agree_off (b.1 :: (ent_objs x).*1) o o' ->
    exists t', became n nx o t t' s' /\ tree_map t' = delete k (tree_map t)) as Hfin by (intros; by eapply (became_del n nx o o')).
  apply wp_bnd. eapply wp_mono; [apply (kv_update_spec n nx o s b.1 (bkt_bytes es0) Hh)|].
  - apply (located_ids o t k l b nx (khold_wf _ _ _ _ Hh) Hlc), Hne.
  - apply bytes_ok_bkt, (bo_ents _ _ _ Hb0).
  - apply (bo_fit _ _ _ Hb0).
  - cbv beta. intros r s1 [_ [[-> Hh1]|[(e & He & -> & Hh1)|(e & Htr & He & -> & Hh1)]]].
    + apply wp_bnd. eapply wp_mono; [apply (release_listed n nx o1 s1 _ _ _ Hh1 (ko_kid _ Hx) Hs1)|]. cbv beta. intros r s2 (-> & o2 & Hh2 & Hs2 & Ha2).
      eapply wp_mono; [apply (release_listed n nx o2 s2 _ _ _ Hh2 (ko_vid _ Hx) Hs2)|]. cbv beta. intros r s3 (-> & o3 & Hh3 & Hs3 & Ha3).
      destruct (Hfin s3 o3 Hh3 Hs3) as (t' & Hbc & Hm); [|exists t'; split; [done|by left]].
      change (b.1 :: (ent_objs x).*1) with ([b.1] ++ (ent_objs x).*1). eapply agree_trans; [apply agree_put|]. unfold ent_objs. rewrite fmap_app.
      by eapply agree_trans.
    + by apply post_refused; [..|destruct He as [[-> ?]|]; unfold refused; eauto].
    + destruct (Hfin s1 o1 Hh1) as (t' & Hbc & Hm); [by apply stored_drop, stored_drop in Hs1| |].
      * eapply agree_sub; [|apply agree_put]. intros id ->%list_elem_of_singleton. left.
      * exists t'. split; [done|]. right. exists e. split; [by apply fault_refused|]. eauto.
Qed.

Lemma del_spec n nx o s t key : khold n nx o s -> tree_ok (D := D) t -> stored o (tree_objs t) ->
  wp (kvhash_del (tree_root t) (Some key)) s (mut_post n nx o t (del_want (tree_map t) key).1 (del_want (tree_map t) key).2).
Proof.
  intros Hh Ht Hs. unfold kvhash_del, del_want. destruct ((len key =? 0) || (len key >? 65535)); [by apply post_want|].
  rewrite Z.gtb_ltb. destruct (Z.ltb_spec ENT_LEN_MASK (len key)); [rewrite long_key_absent by done; by apply post_want|].
  destruct (locate o t key Ht Hs) as (l & b & Hlc). rewrite (lc_map _ _ _ _ _ Hlc).
  set (w := match assoc key b.2 with Some _ => _ | None => _ end).
  assert (forall (e : errno) s', khold n nx o s' -> fault e -> mut_post n nx o t w.1 w.2 (Err e) s') as Hf by (intros; apply post_refused; auto using fault_refused).
  eapply wp_orf; [apply (resolve_leaf_spec Hmax n nx o s t key l); try done; apply Hlc| |exact Hf].
  intros r s1 Hh1 (-> & [junk Hj] & _). apply wp_bnd, wp_gets. rewrite Hj, (located_dir_child o t key l b) by done.
  pose proof (lc_bkt_ok _ _ _ _ _ Hlc) as Hb. destruct (Z.eqb_spec b.1 0) as [E0|E0].
  { unfold w. rewrite (bo_empty _ _ _ Hb E0). by apply post_want. }
  destruct (located_bkt o t key l b Hlc E0) as [Hbo Hparts].
  eapply wp_orf; [apply (get_bkt_spec n nx o s1 b.1 (bkt_bytes b.2) Hh1); [apply (bo_id _ _ _ Hb)|done]| |exact Hf]. intros used s2 Hh2 (-> & Hst & _).
  apply wp_bnd. eapply wp_mono; [apply (bkt_find_spec Hmax n nx o s2 key b.2 Hh2 Hst); [apply Hb|done]|]. cbv beta.
  intros r s3 [Hh3 [[Hb3 Hfd]|(e & He & ->)]]; [|by apply Hf]. destruct r as [[off e]|e].
  2: { destruct Hfd as [-> Hn]. unfold w. rewrite assoc_none by done. by apply post_want. }
  destruct (found_value key b.2 off e _ Hfd (bo_keys _ _ _ Hb) eq_refl) as (es1 & x & es2 & Eb & Hk & _ & Ho & -> & Eas). subst off.
  unfold w. rewrite Eas. cbn [fst snd]. apply wp_bnd, wp_gets. rewrite <- Hb3 in Hst.
  assert (packed (bkt_buf s3) (len (bkt_bytes es1)) x) as Hp.
  { destruct Hst as [j2 ->]. rewrite Eb, bkt_bytes_app, bkt_bytes_cons, <- !app_assoc. apply packed_here. }
  assert (kent_ok x) as Hx by (pose proof (bo_ents _ _ _ Hb) as Hok; rewrite Eb, list.Forall_app, list.Forall_cons in Hok; tauto).
  destruct (ent_ids _ _ x Hp Hx) as [-> ->].
  rewrite Eb in Hst |- *. cbn [ent_of e_len]. apply wp_bnd. eapply wp_mono; [by apply (bkt_drop_spec n nx o s3 es1 x es2)|]. cbv beta.
  intros r s4 (Hh4 & -> & Hst4 & _). eapply (del_commit n nx o s4 t key l b x); try done. rewrite Eb. split; [done|]. by exists es1, es2.
Qed.
End ops.
