(* ===== verification/KvHashSet.v ===== *)
(** What [kvhash_set()] does to the map: the value is replaced or added by one
    commit, and a failure before it leaves the map as it was. *)

From S2P Require Import BlobIface Prelude Layout Records KvHash KvHashRep KvHashRead KvHashOps.

Section set.
Context `{Crc} {D : Type} `{!Blobs D} {CL : CrcLaws _} {L : BlobLaws D}.
Notation MAX_PAYLOAD := (blob_max (D := D)).
Notation kvh := (kvh (D := D)).
Notation own t := ((tree_objs t).*1).
Notation ctx t l k := (leaf_ctx l (bkt_index l k) ++ tree_ctx t (sub_index t k)).
Context (Hmax : 24 <= MAX_PAYLOAD <= ENT_LEN_MASK) (Hsteady : ~ tears (D := D)).
Implicit Types (s : kvh) (o : objs) (m : gmap bytes bytes) (t : kvtree).

(** ** Objects bound but not yet named *)

(** Since the map held [t] in [o], the objects [F] were bound under fresh ids and
    no old object changed. *)
Record prepared t o (nx : Z) (F : list (Z * bytes)) (nx1 : Z) o1 : Prop := {
  sg_nx : nx <= nx1;
  sg_stored : stored o1 (F ++ tree_objs t);
  sg_fresh : Forall (fun x => nx <= x.1) F;
  sg_same : forall id, id < nx -> o1 !! id = o !! id;
}.

Lemma staged_nil t o nx : stored o (tree_objs t) -> prepared t o nx [] nx o.
Proof. intros Hs. split; [lia|done|constructor|done]. Qed.

Lemma staged_next t o nx F nx1 nx2 o1 : prepared t o nx F nx1 o1 -> nx1 <= nx2 -> prepared t o nx F nx2 o1.
Proof. intros [] Hle. split; try done. lia. Qed.

Lemma staged_bind n t o nx F nx1 o1 s b : prepared t o nx F nx1 o1 -> khold n nx1 o1 s -> prepared t o nx ((nx1, b) :: F) (nx1 + 1) (<[nx1 := b]> o1).
Proof.
  intros [Hn Hs Hf Ha] Hh. pose proof (khold_wf _ _ _ _ Hh) as Hw. split; [lia| | |].
  - apply stored_new; [apply (stored_fresh MAX_PAYLOAD nx1 o1); (done || lia)| |done]. destruct Hw. unfold BLOB_ROOT. lia.
  - constructor; [cbn; lia|done].
  - intros id Hid. rewrite lookup_insert_ne by lia. by apply Ha.
Qed.

(** An object nothing will name may stay behind. *)
Lemma staged_orphan n t o nx F nx1 o1 s b : prepared t o nx F nx1 o1 -> khold n nx1 o1 s -> prepared t o nx F (nx1 + 1) (<[nx1 := b]> o1).
Proof.
  intros Hg Hh. destruct (staged_bind n t o nx F nx1 o1 s b Hg Hh) as [H1 H2 H3 H4]. split; [done| | |done].
  - cbn in H2. rewrite stored_cons in H2. apply H2.
  - by apply Forall_cons_1 in H3 as [_ ?].
Qed.

Lemma staged_own t o nx F nx1 o1 : prepared t o nx F nx1 o1 -> stored o1 (tree_objs t).
Proof. intros [_ Hs _ _]. by apply stored_drop in Hs. Qed.

(** ** undo *)

Definition fresh_key (fresh : bool) (kid : Z) (key : bytes) : list (Z * bytes) := if fresh then part_obj kid key else [].

Lemma became_staged n nx nx1 o o1 t s : tree_ok (D := D) t -> khold n nx1 o1 s -> nx <= nx1 -> stored o1 (tree_objs t) ->
  (forall id, id < nx -> o1 !! id = o !! id) -> became n nx o t t s.
Proof. intros Ht Hh Hle Hs Ha. exists nx1, o1. split_and!; try done. auto. Qed.

Lemma set_undo_spec n nx o t F nx1 o1 s vid val (fresh : bool) kid key want m e : tree_ok (D := D) t ->
  F = part_obj vid val ++ fresh_key fresh kid key -> prepared t o nx F nx1 o1 -> khold n nx1 o1 s ->
  0 <= vid < 2 ^ 64 -> 0 <= kid < 2 ^ 64 -> refused e \/ (want = Err e /\ m = tree_map t) ->
  wp (set_undo vid fresh kid e) s (mut_post n nx o t want m).
Proof.
  intros Ht -> Hg Hh Hv Hk He. destruct Hg as [Hn Hs Hf Ha]. rewrite <- app_assoc in Hs. unfold set_undo. apply wp_bnd.
  eapply wp_mono; [apply (release_listed n nx1 o1 s _ _ _ Hh Hv Hs)|]. cbv beta. intros r s1 (-> & o2 & Hh2 & Hs2 & Ha2).
  apply list.Forall_app in Hf as [Hf1 Hf2].
  assert (forall F' : list (Z * bytes), Forall (fun x => nx <= x.1) F' -> forall id, id < nx -> id ∉ F'.*1) as Hbelow.
  { intros F' HF id Hid ([id' b] & -> & Hin)%list_elem_of_fmap. rewrite list.Forall_forall in HF. specialize (HF _ Hin). cbn in *. lia. }
  assert (wp (if fresh then release_part kid else mret tt) s1 (fun r s2 => r = Ok tt /\ exists o3, khold n nx1 o3 s2 /\ stored o3 (tree_objs t) /\
    forall id, id < nx -> o3 !! id = o !! id)) as Hrel.
  { destruct fresh; cbn [fresh_key] in *.
    - eapply wp_mono; [apply (release_listed n nx1 o2 s1 _ _ _ Hh2 Hk Hs2)|]. cbv beta. intros r s2 (-> & o3 & Hh3 & Hs3 & Ha3). split; [done|].
      exists o3. split_and!; try done. intros id Hid. rewrite Ha3, Ha2 by auto. by apply Ha.
    - split; [done|]. exists o2. split_and!; try done. intros id Hid. rewrite Ha2 by auto. by apply Ha. }
  apply wp_bnd. eapply wp_mono; [exact Hrel|]. cbv beta. intros r s2 (-> & o3 & Hh3 & Hs3 & Ha3). apply wp_fail.
  exists t. split; [by apply (became_staged n nx nx1 o o3)|]. destruct He as [He|[-> ->]]; [right; eauto|by left].
Qed.

(** [or_undo]: [m] succeeds, or the map is as it was. *)
Lemma or_undo_spec {A} n nx o t s (m : M kvh A) vid (fresh : bool) kid k want mm :
  wp m s (fun r s' => match r with Ok a => wp (k a) s' (mut_post n nx o t want mm) | Err e => wp (set_undo vid fresh kid e) s' (mut_post n nx o t want mm) end) ->
  wp (or_undo m vid fresh kid k) s (mut_post n nx o t want mm).
Proof. intros Hm. unfold or_undo. apply wp_bnd, wp_try. eapply wp_mono; [exact Hm|]. by intros [a|e] s'. Qed.

(** ** What the commit exchanges *)

Definition okid_of (old : option kent) : Z := match old with Some x => k_kid x | None => 0 end.
Definition ovid_of (old : option kent) : Z := match old with Some x => k_vid x | None => 0 end.

(** The parts only the old entry names. *)
Definition left_objs (old : option kent) (kid : Z) : list (Z * bytes) :=
  match old with
  | Some x => (if k_kid x =? kid then [] else part_obj (k_kid x) (k_key x)) ++ part_obj (k_vid x) (k_val x)
  | None => []
  end.

(** How the new entry's key is placed: in a fresh object, in the bucket, or in
    the object the old entry had. *)
Definition key_plan (old : option kent) (fresh : bool) (kid : Z) : Prop :=
  (fresh = true /\ kid <> 0 /\ okid_of old = 0) \/ (fresh = false /\ kid = 0) \/
  (fresh = false /\ kid <> 0 /\ exists x, old = Some x /\ k_kid x = kid).

Lemma parts_swap es es0 old fresh kid key vid val : without es key old es0 -> key_plan old fresh kid ->
  (part_obj vid val ++ fresh_key fresh kid key) ++ old_objs old ≡ₚ ent_objs (mk_kent key kid val vid) ++ left_objs old kid.
Proof.
  intros Hw Hp. unfold ent_objs. cbn [k_kid k_key k_vid k_val]. destruct old as [x|].
  - destruct Hw as [<- _]. cbn [old_objs left_objs okid_of] in *. unfold ent_objs. destruct Hp as [(-> & Hk & Ho)|[(-> & ->)|(-> & Hk & y & [= <-] & Hy)]]; cbn [fresh_key].
    + cbn in Ho. rewrite Ho. destruct (Z.eqb_spec 0 kid); [done|]. rewrite (Permutation_app_comm (part_obj vid val)). by rewrite <- !app_assoc.
    + destruct (Z.eqb_spec (k_kid x) 0) as [->|]; [|by rewrite app_nil_r]. by rewrite app_nil_r.
    + rewrite Hy, Z.eqb_refl, app_nil_r. cbn [app]. rewrite !app_assoc. by rewrite (Permutation_app_comm (part_obj vid val)).
  - cbn [old_objs left_objs]. rewrite !app_nil_r. destruct Hp as [(-> & Hk & Ho)|[(-> & ->)|(-> & Hk & y & [=] & _)]]; cbn [fresh_key].
    + by rewrite Permutation_app_comm.
    + by rewrite app_nil_r.
Qed.

Lemma release_left n nx o s old kid l : khold n nx o s -> (forall x, old = Some x -> kent_ok x) -> stored o (left_objs old kid ++ l) ->
  wp ((if negb (okid_of old =? kid) then release_part (okid_of old) else mret tt);;; release_part (ovid_of old)) s (fun r s' =>
    r = Ok tt /\ exists o', khold n nx o' s' /\ stored o' l /\ agree_off (left_objs old kid).*1 o o').
Proof.
  intros Hh Hx Hs. destruct old as [x|]; cbn [okid_of ovid_of left_objs] in *.
  2: { assert (release_part (D := D) 0 = mret tt) as -> by done. destruct (negb (0 =? kid)); (split; [done|]; exists o; by split_and!). }
  specialize (Hx x eq_refl). rewrite <- app_assoc in Hs. apply wp_bnd.
  assert (wp (if negb (k_kid x =? kid) then release_part (k_kid x) else mret tt) s (fun r s' => r = Ok tt /\ exists o', khold n nx o' s' /\
    stored o' (part_obj (k_vid x) (k_val x) ++ l) /\ agree_off (if k_kid x =? kid then [] else part_obj (k_kid x) (k_key x)).*1 o o')) as Hk.
  { destruct (k_kid x =? kid); cbn [negb]; [split; [done|]; exists o; by split_and!|]. apply (release_listed n nx o s _ _ _ Hh (ko_kid _ Hx) Hs). }
  eapply wp_mono; [exact Hk|]. cbv beta. intros r s1 (-> & o1 & Hh1 & Hs1 & Ha1).
  eapply wp_mono; [apply (release_listed n nx o1 s1 _ _ _ Hh1 (ko_vid _ Hx) Hs1)|]. cbv beta. intros r s2 (-> & o2 & Hh2 & Hs2 & Ha2).
  split; [done|]. exists o2. split_and!; try done. rewrite fmap_app. by eapply agree_trans.
Qed.

(** ** Committing *)

Section commit.
Context (n : nat) (nx : Z) (o : objs) (t : kvtree) (l : kleaf) (b : Z * list kent) (key val : bytes) (es0 : list kent) (old : option kent).
Context (kid vid : Z) (fresh : bool).
Notation e' := (mk_kent key kid val vid).
Notation F := (part_obj vid val ++ fresh_key fresh kid key).
Context (Ht : tree_ok (D := D) t) (Hlc : located o t key l b) (Hw : without b.2 key old es0) (He : kent_ok e') (Hplan : key_plan old fresh kid).
Context (Hfit : len (bkt_bytes (es0 ++ [e'])) <= MAX_PAYLOAD) (Hv2 : lf_ver l < 3 -> inline_ent e').

Lemma old_ok x : old = Some x -> kent_ok x.
Proof.
  intros E. rewrite E in Hw. pose proof (bo_ents _ _ _ (lc_bkt_ok _ _ _ _ _ Hlc)) as Ho. rewrite list.Forall_forall in Ho. apply Ho, (old_in_bucket _ _ _ _ Hw).
Qed.

(** All that is stored before the commit, sorted by what becomes of it. *)
Lemma before_commit nx1 o1 : prepared t o nx F nx1 o1 ->
  stored o1 ((lf_id l, leaf_dir l) :: (if b.1 =? 0 then [] else [(b.1, bkt_bytes b.2)]) ++ left_objs old kid ++ ((es0 ++ [e']) ≫= ent_objs) ++ ctx t l key).
Proof.
  intros [_ Hs _ _]. eapply stored_perm; [|exact Hs]. rewrite (own_located o t key l b Hlc).
  assert (bkt_objs b ≡ₚ (if b.1 =? 0 then [] else [(b.1, bkt_bytes b.2)]) ++ old_objs old ++ (es0 ≫= ent_objs)) as ->.
  { pose proof (without_objs _ _ _ _ Hw) as Hp. destruct (Z.eqb_spec b.1 0) as [E0|E0].
    - unfold bkt_objs, spilled. rewrite E0. cbn. rewrite (bo_empty _ _ _ (lc_bkt_ok _ _ _ _ _ Hlc) E0) in Hp. cbn in Hp. by rewrite <- Hp.
    - destruct b as [bid es]. rewrite bkt_objs_used by done. cbn [app fst snd]. by rewrite Hp. }
  rewrite bind_app. assert ([e'] ≫= ent_objs = ent_objs e') as -> by apply app_nil_r.
  pose proof (parts_swap _ _ _ _ _ _ vid val Hw Hplan) as Hsw.
  set (bo := if b.1 =? 0 then _ else _). set (r := es0 ≫= ent_objs). set (c := ctx t l key). set (d := (lf_id l, leaf_dir l)).
  transitivity (d :: bo ++ (ent_objs e' ++ left_objs old kid) ++ r ++ c); [solve_Permutation|]. rewrite <- Hsw. solve_Permutation.
Qed.
Notation ents' := (es0 ++ [e']).
Notation leaf' bid := (set_bucket (bkt_index l key) (bid, ents') l).

Lemma new_parts_owned id : Forall (fun x => nx <= x.1) F -> id ∈ (ents' ≫= ent_objs).*1 -> id < nx -> id ∈ (bkt_objs b).*1 /\ b.1 <> 0.
Proof.
  intros HF Hin Hid. assert (id ∈ (old_objs old ++ (es0 ≫= ent_objs)).*1) as Hold.
  { rewrite bind_app in Hin. assert ([e'] ≫= ent_objs = ent_objs e') as E by apply app_nil_r. rewrite E, fmap_app, elem_of_app in Hin.
    rewrite fmap_app, elem_of_app. destruct Hin as [Hin|Hin]; [by right|]. left.
    pose proof (parts_swap _ _ _ _ _ _ vid val Hw Hplan) as Hsw.
    assert (id ∈ (F ++ old_objs old).*1) as HinF by (rewrite Hsw, fmap_app; apply elem_of_app; by left).
    rewrite fmap_app in HinF. apply elem_of_app in HinF as [HinF|?]; [|done]. apply list_elem_of_fmap in HinF as (x & -> & Hx).
    rewrite list.Forall_forall in HF. specialize (HF x Hx). lia. }
  rewrite <- (without_objs _ _ _ _ Hw) in Hold. destruct (Z.eq_dec b.1 0) as [E0|E0].
  - rewrite (bo_empty _ _ _ (lc_bkt_ok _ _ _ _ _ Hlc) E0) in Hold. by apply not_elem_of_nil in Hold.
  - split; [|done]. destruct b as [bid es]. rewrite bkt_objs_used by done. cbn in *. by right.
Qed.

Lemma became_set nx' o' s bid : khold n nx' o' s -> nx <= nx' -> Forall (fun x => nx <= x.1) F -> 0 < bid < 2 ^ 64 ->
  (bid = b.1 \/ nx <= bid) ->
  stored o' ((lf_id l, leaf_dir (leaf' bid)) :: (bid, bkt_bytes ents') :: (ents' ≫= ent_objs) ++ ctx t l key) ->
  (forall id, id < nx -> id ∉ own t -> o' !! id = o !! id) ->
  mut_post n nx o t (Ok tt) (<[key := val]> (tree_map t)) (Ok tt) s.
Proof.
  intros Hh Hle HF Hbid Hnew Hs Hfr. pose proof (MAX_BUCKETS_lt Hmax). pose proof (lc_bkt_ok _ _ _ _ _ Hlc) as Hb. pose proof (lo_n _ (lc_leaf_ok _ _ _ _ _ Hlc)).
  destruct (became_put Hmax n nx nx' o o' t l key b (bid, ents') s (Some val) Ht Hlc Hh Hle) as [Q1 Q2].
  - apply (bkt_ok_put _ _ b key old es0 e' bid); try done. unfold bkt_index.
    pose proof (idx_sub_range (key_hash key) (len (lf_bkts l)) ltac:(lia)). lia.
  - intros Hv. cbn. apply list.Forall_app. split; [|apply Forall_singleton; by apply Hv2].
    eapply without_forall; [exact Hw|]. by apply (located_inline o t key l b).
  - cbn. apply list.Forall_app. split; [|apply Forall_singleton; by destruct t].
    eapply without_forall; [exact Hw|]. by apply (located_top Hmax o t key l b).
  - rewrite bkt_objs_used by lia. exact Hs.
  - exact Hfr.
  - intros id Hin Hid. rewrite bkt_objs_used in Hin by lia. cbn in Hin. rewrite (own_located o t key l b) by done. cbn. right. rewrite fmap_app. apply elem_of_app. left.
    apply elem_of_cons in Hin as [->|Hin].
    + destruct Hnew as [Ebid|]; [|lia]. destruct b as [bid0 es]. cbn in *. subst bid0. rewrite bkt_objs_used by lia. left.
    + by destruct (new_parts_owned id HF Hin Hid).
  - intros k'. cbn [snd]. by apply (assoc_put b.2 key old es0); [| apply Hb|].
  - exists (put_bucket t l key (bid, ents')). split; [done|]. by left.
Qed.

(** The bucket exists: one update commits, then the old parts are released. *)
Lemma commit_bucket nx1 o1 s : prepared t o nx F nx1 o1 -> khold n nx1 o1 s -> b.1 <> 0 ->
  wp (or_undo (kv_update b.1 (bkt_bytes ents')) vid fresh kid (fun _ => or_undo (mret tt) vid fresh kid (fun _ =>
    (if negb (okid_of old =? kid) then release_part (okid_of old) else mret tt);;; release_part (ovid_of old)))) s
    (mut_post n nx o t (Ok tt) (<[key := val]> (tree_map t))).
Proof.
  intros Hg Hh Hne. pose proof (before_commit nx1 o1 Hg) as Hs. destruct (Z.eqb_spec b.1 0); [done|]. cbn [app] in Hs.
  assert (stored o1 ((b.1, bkt_bytes b.2) :: left_objs old kid ++ (lf_id l, leaf_dir l) :: (ents' ≫= ent_objs) ++ ctx t l key)) as Hs'.
  { eapply stored_perm; [|exact Hs]. solve_Permutation. }
  apply (stored_put _ _ _ _ (bkt_bytes ents')) in Hs'. set (o2 := <[b.1 := bkt_bytes ents']> o1) in *.
  assert (Forall kent_ok ents') as Hok.
  { apply list.Forall_app. split; [|by apply Forall_singleton]. eapply without_forall; [exact Hw|apply (lc_bkt_ok _ _ _ _ _ Hlc)]. }
  assert (0 < b.1 < nx1) as Hb1.
  { rewrite stored_cons in Hs'. rewrite !stored_cons in Hs. destruct Hs as (_ & _ & _ & Hx & _). by apply (obs_wf_lookup _ _ _ _ _ (khold_wf _ _ _ _ Hh) Hx). }
  apply or_undo_spec. eapply wp_mono; [apply (kv_update_spec n nx1 o1 s b.1 (bkt_bytes ents') Hh Hb1); [by apply bytes_ok_bkt|done]|]. cbv beta.
  intros r s1 [_ [[-> Hh1]|[(e & Hre & -> & Hh1)|(e & Htr & _)]]]; [| |by destruct Hsteady].
  2: { eapply (set_undo_spec n nx o t F nx1 o1 s1 vid val fresh kid key); try done; [apply (ko_vid _ He)|apply (ko_kid _ He)|left; destruct Hre as [[-> ?]|]; unfold refused; eauto]. }
  apply or_undo_spec, wp_ret.
  assert (stored o2 (left_objs old kid ++ (b.1, bkt_bytes ents') :: (lf_id l, leaf_dir l) :: (ents' ≫= ent_objs) ++ ctx t l key)) as Hs2.
  { eapply stored_perm; [|exact Hs']. solve_Permutation. }
  eapply wp_mono; [apply (release_left n nx1 o2 s1 old kid _ Hh1 old_ok Hs2)|]. cbv beta. intros r s2 (-> & o3 & Hh3 & Hs3 & Ha3).
  pose proof (sg_nx _ _ _ _ _ _ Hg). apply (became_set nx1 o3 s2 b.1); try done; [apply Hg|pose proof (bo_id _ _ _ (lc_bkt_ok _ _ _ _ _ Hlc)); lia|by left| |].
  - rewrite (leaf_dir_put l _ b) by (done || apply Hlc). rewrite perm_swap. exact Hs3.
  - intros id Hid Hno.
    assert (id ∉ (bkt_objs b).*1) as Hnb.
    { intros Hin. apply Hno. rewrite (own_located o t key l b) by done. cbn. right. rewrite fmap_app. apply elem_of_app. by left. }
    assert (bkt_objs b = (b.1, bkt_bytes b.2) :: (b.2 ≫= ent_objs)) as Eb by (destruct b; by apply bkt_objs_used). rewrite Eb in Hnb. cbn in Hnb.
    rewrite not_elem_of_cons in Hnb. destruct Hnb as [Hnb Hnx]. rewrite Ha3.
    + unfold o2. rewrite lookup_insert_ne by done. by apply (sg_same _ _ _ _ _ _ Hg).
    + intros Hin. apply Hnx. rewrite (without_objs _ _ _ _ Hw), fmap_app. apply elem_of_app. left. destruct old as [x|]; [|done]. cbn [left_objs old_objs] in *.
      unfold ent_objs. rewrite fmap_app in Hin |- *. apply elem_of_app in Hin as [Hin|Hin]; apply elem_of_app; [left|by right].
      destruct (k_kid x =? kid); [by apply not_elem_of_nil in Hin|done].
Qed.
Lemma undo_here nx1 o1 s e want m : prepared t o nx F nx1 o1 -> khold n nx1 o1 s -> refused e -> wp (set_undo vid fresh kid e) s (mut_post n nx o t want m).
Proof.
  intros Hg Hh Hre. eapply (set_undo_spec n nx o t F nx1 o1 s vid val fresh kid key); try done; [apply (ko_vid _ He)|apply (ko_kid _ He)|by left].
Qed.

Lemma ents_ok : Forall kent_ok ents'.
Proof. apply list.Forall_app. split; [|by apply Forall_singleton]. eapply without_forall; [exact Hw|apply (lc_bkt_ok _ _ _ _ _ Hlc)]. Qed.

(** A failing update before the commit is undone. *)
Lemma update_or_undo nx1 o1 s id p k want m : prepared t o nx F nx1 o1 -> khold n nx1 o1 s -> 0 < id < nx1 -> bytes_ok p -> len p <= MAX_PAYLOAD ->
  (forall s', bufs_kept s s' -> khold n nx1 (<[id := p]> o1) s' -> wp (k tt) s' (mut_post n nx o t want m)) ->
  wp (kv_update id p) s (fun r s' => match r with Ok a => wp (k a) s' (mut_post n nx o t want m)
    | Err e => wp (set_undo vid fresh kid e) s' (mut_post n nx o t want m) end).
Proof.
  intros Hg Hh Hid Hp Hl Hk. eapply wp_mono; [by apply (kv_update_spec n nx1 o1 s id p)|]. cbv beta.
  intros r s1 [Hbf [[-> Hh1]|[(e & Hre & -> & Hh1)|(e & Htr & _)]]]; [by apply Hk| |by destruct Hsteady].
  apply (undo_here nx1 o1); [done|done|]. destruct Hre as [[-> ?]|]; unfold refused; eauto.
Qed.

(** The bucket is new: it is written under a fresh id, then published in the leaf
    directory. *)
Lemma commit_fresh nx1 o1 s : prepared t o nx F nx1 o1 -> khold (S n) nx1 o1 s -> b.1 = 0 ->
  starts (leaf_dir l) (dir_buf s) -> starts (bkt_bytes ents') (bkt_buf s) ->
  wp (or_undo (let* bid := on_dev blob_alloc_id in if bid =? 0 then mfail EIO else mret bid) vid fresh kid (fun bid =>
      or_undo (let* buf := mgets bkt_buf in kv_update bid (zt (len (bkt_bytes ents')) buf)) vid fresh kid (fun _ =>
      or_undo (mmod (fun s => set_dir (dir_set_child (Z.of_nat (bkt_index l key)) bid (dir_buf s)) s);;;
        let* buf := mgets dir_buf in kv_update (lf_id l) (zt (dir_len (len (lf_bkts l))) buf)) vid fresh kid (fun _ =>
      (if negb (okid_of old =? kid) then release_part (okid_of old) else mret tt);;; release_part (ovid_of old))))) s
    (mut_post n nx o t (Ok tt) (<[key := val]> (tree_map t))).
Proof.
  intros Hg Hh E0 [dj Hdj] [bj Hbj]. pose proof (bo_empty _ _ _ (lc_bkt_ok _ _ _ _ _ Hlc) E0) as Eb. pose proof (lc_leaf_ok _ _ _ _ _ Hlc) as Hlo.
  pose proof (sg_nx _ _ _ _ _ _ Hg) as Hnx. pose proof (khold_wf _ _ _ _ Hh) as Hwf. pose proof (MAX_BUCKETS_lt Hmax) as Hmb.
  assert (old = None) as Eold by (rewrite Eb in Hw; destruct old; [destruct Hw as (_ & [|] & ? & [=] & _)|done]).
  pose proof (before_commit nx1 o1 Hg) as Hs. rewrite E0, Eold in Hs. cbn [Z.eqb app left_objs] in Hs. rewrite Eold. cbn [okid_of ovid_of].
  apply or_undo_spec, wp_bnd. eapply wp_mono; [apply (alloc_spec n nx1 o1 s Hh)|]. cbv beta.
  intros r s1 [[Hd1 Hk1] [[-> Hh1]|(-> & Hft & nx2 & Hle & Hh1)]].
  2: { cbn [Z.eqb]. apply wp_fail. apply (undo_here nx2 o1); [by eapply staged_next|done|]. unfold refused. eauto. }
  pose proof (proj1 (khold_wf _ _ _ _ Hh1)) as Hnx1. pose proof (proj1 Hwf) as Hnx0. destruct (Z.eqb_spec nx1 0); [lia|]. apply wp_ret.
  assert (prepared t o nx F (nx1 + 1) o1) as Hg1 by (eapply staged_next; [exact Hg|lia]).
  apply or_undo_spec, wp_bnd, wp_gets. rewrite Hk1, Hbj, zt_app_exact by done.
  apply (update_or_undo (nx1 + 1) o1); try done; [lia|apply bytes_ok_bkt, ents_ok|]. intros s2 [Hd2 _] Hh2.
  pose proof (staged_orphan (S n) t o nx F nx1 o1 s (bkt_bytes ents') Hg Hh) as Hg2. set (o2 := <[nx1 := bkt_bytes ents']> o1) in *.
  pose proof (leaf_valid l Hlo) as Hlv. pose proof (lookup_lt_Some _ _ _ (lc_bkt _ _ _ _ _ Hlc)) as Hlt.
  apply or_undo_spec, wp_bnd, wp_mod, wp_bnd, wp_gets. cbn [dir_buf set_dir]. rewrite Hd2, Hd1, Hdj. unfold leaf_dir.
  rewrite dir_set_child_at by (rewrite ?length_fmap; done).
  replace (len (lf_bkts l)) with (len (<[bkt_index l key := nx1]> (fst <$> lf_bkts l))) by (unfold len; by rewrite length_insert, length_fmap).
  rewrite dir_take.
  assert (dir_bytes KVHASH_DIR_MAGIC (lf_ver l) 1 (<[bkt_index l key := nx1]> (fst <$> lf_bkts l)) = leaf_dir (leaf' nx1)) as ->.
  { unfold leaf_dir, set_bucket. cbn [lf_ver lf_bkts]. by rewrite list_fmap_insert. }
  assert (stored o2 ((nx1, bkt_bytes ents') :: (lf_id l, leaf_dir l) :: (ents' ≫= ent_objs) ++ ctx t l key)) as Hs2.
  { apply stored_new; [|unfold BLOB_ROOT; lia|done]. eapply stored_fresh; [done|exact Hs|lia]. }
  assert (len (leaf_dir (leaf' nx1)) = len (leaf_dir l)) as Hll.
  { unfold leaf_dir, set_bucket. cbn [lf_ver lf_bkts]. rewrite !len_dir_bytes, list_fmap_insert. unfold len. by rewrite length_insert. }
  assert (len (leaf_dir l ++ dj) = MAX_PAYLOAD) as Hdl by (rewrite <- Hdj; apply Hh). rewrite len_app in Hdl. pose proof (len_nonneg dj).
  assert (0 < lf_id l < nx1 + 1) as Hid.
  { rewrite stored_cons in Hs. destruct Hs as (Hx & _). apply (obs_wf_lookup _ _ _ _ _ Hwf) in Hx. lia. }
  pose proof (lo_ver _ Hlo) as Hver. unfold KVHASH_VERSION, KVHASH_VERSION_MIN in Hver.
  apply (update_or_undo (nx1 + 1) o2); [done| |done|apply bytes_ok_dir; unfold byte_ok; cbn; lia|lia|].
  { destruct Hh2 as (H1 & _ & H3). split_and!; cbn; [done|rewrite len_app; lia|done]. }
  intros s3 _ Hh3. assert (release_part (D := D) 0 = mret tt) as -> by done.
  assert (((if negb (0 =? kid) then mret tt else mret tt);;; mret tt) = mret (S := kvh) tt) as -> by (by destruct (negb (0 =? kid))).
  apply wp_ret, (became_set (nx1 + 1) (<[lf_id l := leaf_dir (leaf' nx1)]> o2) s3 nx1); try done; [lia|apply Hg|lia|by right| |].
  - eapply stored_put. eapply stored_perm; [|exact Hs2]. solve_Permutation.
  - intros id Hlt' Hno. rewrite lookup_insert_ne. 
    + by apply (sg_same _ _ _ _ _ _ Hg2).
    + intros <-. apply Hno. rewrite (own_located o t key l b) by done. left.
Qed.

(** Step 2 and 3 on the bucket with the old entry taken out. *)
Lemma set_commit_spec nx1 o1 s : prepared t o nx F nx1 o1 -> khold (S n) nx1 o1 s ->
  (b.1 = 0 -> starts (leaf_dir l) (dir_buf s)) -> starts (bkt_bytes es0) (bkt_buf s) ->
  wp (set_commit (lf_id l) (len (lf_bkts l)) (Z.of_nat (bkt_index l key)) b.1 (len (bkt_bytes es0)) (len (enc_kent e')) key val
        (spilled kid) (spilled vid) (hash_fp (key_hash key)) kid vid fresh (okid_of old) (ovid_of old)) s
    (mut_post n nx o t (Ok tt) (<[key := val]> (tree_map t))).
Proof.
  intros Hg Hh Hd [bj Hbj]. unfold set_commit. apply wp_bnd, wp_mod. cbv zeta.
  assert (put_entry (len (bkt_bytes es0)) key val (spilled kid) (spilled vid) (hash_fp (key_hash key)) kid vid (bkt_buf s)
    = bkt_bytes ents' ++ zd (len (enc_kent e')) bj) as Eput by (rewrite Hbj; apply (put_entry_spec es0 bj e')).
  assert (bkt_bytes ents' = bkt_bytes es0 ++ enc_kent e') as Eb.
  { rewrite bkt_bytes_app. f_equal. apply app_nil_r. }
  assert (len (bkt_bytes es0) + len (enc_kent e') = len (bkt_bytes ents')) as El by (by rewrite Eb, len_app).
  set (s1 := set_bkt _ s). rewrite El.
  assert (starts (bkt_bytes ents') (bkt_buf s1)) as Hst by (unfold s1; cbn; rewrite Eput; eexists; done).
  assert (khold (S n) nx1 o1 s1) as Hh1.
  { destruct Hh as (H1 & H2 & H3). split_and!; [done|done|]. unfold s1. cbn. rewrite Eput, len_app, <- El, <- H3, Hbj, len_app.
    pose proof (len_nonneg (enc_kent e')). assert (len (enc_kent e') <= len bj) as Hle by (rewrite Hbj, len_app in H3; lia). unfold zd, len in *. rewrite length_drop. lia. }
  destruct (Z.eqb_spec b.1 0) as [E0|E0].
  - apply (commit_fresh nx1 o1); try done. by apply Hd.
  - apply or_undo_spec, wp_ret. destruct Hst as [j Hj].
    assert (forall k, wp (or_undo (let* buf := mgets bkt_buf in kv_update b.1 (zt (len (bkt_bytes ents')) buf)) vid fresh kid k) s1
      = wp (or_undo (kv_update b.1 (bkt_bytes ents')) vid fresh kid k) s1) as Erw.
    { intros k. unfold wp, or_undo, mbnd, mtry, mgets. by rewrite Hj, zt_app_exact. }
    rewrite Erw. apply (commit_bucket nx1 o1); try done. eapply khold_le; [|exact Hh1]. lia.
Qed.
End commit.

(** ** Binding the spilled parts *)

(** What [kvhash_set()] was told of the old entry. *)
Definition old_ent_of (off : Z) (old : option kent) : option old_ent :=
  match old with Some x => Some (mk_old_ent (ent_of off x) (k_kid x) (k_vid x)) | None => None end.

(** The bytes of the new entry in its bucket. *)
Definition set_need (kspill vspill : bool) (key val : bytes) : Z :=
  ENTRY_HDR_LEN + (if kspill then KEY_REF_LEN else len key) + (if vspill then VAL_REF_LEN else len val).

(** What becomes of the map [m] when the rest of the bucket has [used] bytes. *)
Definition bind_want (used : Z) (kspill vspill : bool) (key val : bytes) m : res unit * gmap bytes bytes :=
  if used + set_need kspill vspill key val >? MAX_PAYLOAD then (Err ENOSPC, m)
  else if vspill && (len val >? MAX_PAYLOAD) then (Err EINVAL, m)
  else (Ok tt, <[key := val]> m).

Lemma kv_update_long n nx o s id p : khold n nx o s -> 0 <= id < 2 ^ 64 -> bytes_ok p -> MAX_PAYLOAD < len p ->
  wp (kv_update id p) s (fun r s' => khold n nx o s' /\ (r = Err EINVAL \/ exists e, fault e /\ r = Err e)).
Proof.
  intros Hh Hid Hp Hl. unfold kv_update. apply wp_on_dev. eapply wp_mono; [apply (update_law n _ nx o); [apply Hh|lia|done]|]. cbv beta. intros r d Hr.
  assert ((id =? 0) || (id >=? nx) || (len p >? MAX_PAYLOAD) = true) as E by lia. rewrite E in Hr. destruct Hr as [Hd Hr].
  split; [by eapply khold_dev|done].
Qed.

Section bind.
Context (n : nat) (nx : Z) (o : objs) (t : kvtree) (l : kleaf) (b : Z * list kent) (key val : bytes) (es0 : list kent) (old : option kent).
Context (Ht : tree_ok (D := D) t) (Hlc : located o t key l b) (Hw : without b.2 key old es0).
Context (Hkey : 0 < len key <= ENT_LEN_MASK) (Hval : len val <= ENT_LEN_MASK) (Hkb : bytes_ok key) (Hvb : bytes_ok val).

Lemma bind_ent_ok kid vid : 0 <= kid < 2 ^ 64 -> 0 <= vid < 2 ^ 64 -> kent_ok (mk_kent key kid val vid).
Proof. intros. by split. Qed.

Lemma bind_need kid vid : len (enc_kent (mk_kent key kid val vid)) = set_need (spilled kid) (spilled vid) key val.
Proof. rewrite len_enc_kent, len_key_part, len_val_part. done. Qed.

Lemma bind_commit nx1 o1 s kid vid (fresh kspill vspill : bool) : (lf_ver l < 3 -> kspill = false /\ vspill = false) ->
  prepared t o nx (part_obj vid val ++ fresh_key fresh kid key) nx1 o1 -> khold (S n) nx1 o1 s -> key_plan old fresh kid ->
  spilled kid = kspill -> spilled vid = vspill -> 0 <= kid < 2 ^ 64 -> 0 <= vid < 2 ^ 64 ->
  len (bkt_bytes es0) + set_need kspill vspill key val <= MAX_PAYLOAD ->
  (b.1 = 0 -> starts (leaf_dir l) (dir_buf s)) -> starts (bkt_bytes es0) (bkt_buf s) ->
  wp (set_commit (lf_id l) (len (lf_bkts l)) (Z.of_nat (bkt_index l key)) b.1 (len (bkt_bytes es0)) (set_need kspill vspill key val) key val
        kspill vspill (hash_fp (key_hash key)) kid vid fresh (okid_of old) (ovid_of old)) s
    (mut_post n nx o t (Ok tt) (<[key := val]> (tree_map t))).
Proof.
  intros Hv2 Hg Hh Hp <- <- Hkid Hvid Hfit Hd Hb. rewrite <- bind_need. apply (set_commit_spec n nx o t l b key val es0 old kid vid fresh) with (nx1 := nx1) (o1 := o1); try done.
  - rewrite bkt_bytes_app, len_app. assert (bkt_bytes [mk_kent key kid val vid] = enc_kent (mk_kent key kid val vid)) as -> by apply app_nil_r.
    rewrite bind_need. lia.
  - intros Hv. destruct (Hv2 Hv) as [E1 E2]. unfold spilled in *. split; cbn; lia.
Qed.

(** The value: in the bucket, or in a fresh object. *)
Lemma bind_value nx1 o1 s kid (fresh kspill vspill : bool) : (lf_ver l < 3 -> kspill = false /\ vspill = false) ->
  prepared t o nx (fresh_key fresh kid key) nx1 o1 -> khold (S (S n)) nx1 o1 s -> key_plan old fresh kid -> spilled kid = kspill -> 0 <= kid < 2 ^ 64 ->
  len (bkt_bytes es0) + set_need kspill vspill key val <= MAX_PAYLOAD ->
  (b.1 = 0 -> starts (leaf_dir l) (dir_buf s)) -> starts (bkt_bytes es0) (bkt_buf s) ->
  wp (if vspill then
        or_undo (let* vid := on_dev blob_alloc_id in if vid =? 0 then mfail EIO else mret vid) 0 fresh kid (fun vid =>
        or_undo (kv_update vid val) 0 fresh kid (fun _ =>
          set_commit (lf_id l) (len (lf_bkts l)) (Z.of_nat (bkt_index l key)) b.1 (len (bkt_bytes es0)) (set_need kspill vspill key val) key val
            kspill vspill (hash_fp (key_hash key)) kid vid fresh (okid_of old) (ovid_of old)))
      else set_commit (lf_id l) (len (lf_bkts l)) (Z.of_nat (bkt_index l key)) b.1 (len (bkt_bytes es0)) (set_need kspill vspill key val) key val
            kspill vspill (hash_fp (key_hash key)) kid 0 fresh (okid_of old) (ovid_of old)) s
    (mut_post n nx o t (bind_want (len (bkt_bytes es0)) kspill vspill key val (tree_map t)).1 (bind_want (len (bkt_bytes es0)) kspill vspill key val (tree_map t)).2).
Proof.
  intros Hv2 Hg Hh Hp Hsp Hkid Hfit Hd Hb. unfold bind_want. destruct (Z.gtb_spec (len (bkt_bytes es0) + set_need kspill vspill key val) MAX_PAYLOAD); [lia|].
  pose proof (khold_wf _ _ _ _ Hh) as Hwf. pose proof (proj1 Hwf) as Hnx.
  destruct vspill eqn:Ev; cbn [andb].
  2: { cbn [fst snd]. apply (bind_commit nx1 o1); try done; try lia. eapply khold_le; [|exact Hh]. lia. }
  set (w := if len val >? MAX_PAYLOAD then _ else _).
  assert (forall e nx2 o2 s2, prepared t o nx (fresh_key fresh kid key) nx2 o2 -> khold n nx2 o2 s2 -> refused e \/ (w.1 = Err e /\ w.2 = tree_map t) ->
    wp (set_undo 0 fresh kid e) s2 (mut_post n nx o t w.1 w.2)) as Hundo.
  { intros e nx2 o2 s2 Hg2 Hh2 He. by apply (set_undo_spec n nx o t (fresh_key fresh kid key) nx2 o2 s2 0 val fresh kid key). }
  apply or_undo_spec, wp_bnd. eapply wp_mono; [apply (alloc_spec (S n) nx1 o1 s Hh)|]. cbv beta.
  intros r s1 [[Hd1 Hk1] [[-> Hh1]|(-> & Hft & nx2 & Hle & Hh1)]].
  2: { cbn [Z.eqb]. apply wp_fail. apply (Hundo EIO nx2 o1); [by eapply staged_next|eapply khold_le; [|exact Hh1]; lia|unfold refused; eauto]. }
  pose proof (proj1 (khold_wf _ _ _ _ Hh1)) as Hnx1. destruct (Z.eqb_spec nx1 0); [lia|]. apply wp_ret, or_undo_spec.
  assert (prepared t o nx (fresh_key fresh kid key) (nx1 + 1) o1) as Hg1 by (eapply staged_next; [exact Hg|lia]).
  unfold w in *. destruct (Z.gtb_spec (len val) MAX_PAYLOAD).
  - eapply wp_mono; [apply (kv_update_long (S n) (nx1 + 1) o1 s1 nx1 val Hh1); (done || lia)|]. cbv beta. intros r s2 [Hh2 Hr].
    apply (khold_le (S n) n) in Hh2; [|lia]. destruct Hr as [->|(e & He & ->)]; apply (Hundo _ (nx1 + 1) o1); try done; [by right|left; by apply fault_refused].
  - eapply wp_mono; [apply (kv_update_spec (S n) (nx1 + 1) o1 s1 nx1 val Hh1); (done || lia)|]. cbv beta.
    intros r s2 [[Hd2 Hk2] [[-> Hh2]|[(e & Hre & -> & Hh2)|(e & Htr & _)]]]; [| |by destruct Hsteady].
    2: { apply (Hundo _ (nx1 + 1) o1); [done|eapply khold_le; [|exact Hh2]; lia|]. left. destruct Hre as [[-> ?]|]; unfold refused; eauto. }
    cbn [fst snd]. apply (bind_commit (nx1 + 1) (<[nx1 := val]> o1)); try done; try lia.
    + unfold part_obj, spilled. destruct (Z.eqb_spec nx1 0); [lia|]. by apply (staged_bind (S (S n)) t o nx _ nx1 o1 s).
    + unfold spilled. by destruct (Z.eqb_spec nx1 0).
    + rewrite Hd2, Hd1. done.
    + by rewrite Hk2, Hk1.
Qed.

(** The key: in the bucket, in the object the old entry had, or in a fresh one. *)
Lemma set_bind_spec off (kspill vspill : bool) s : (lf_ver l < 3 -> kspill = false /\ vspill = false) -> (kspill = true -> len key <= MAX_PAYLOAD) ->
  khold (S (S (S n))) nx o s -> stored o (tree_objs t) -> (b.1 = 0 -> starts (leaf_dir l) (dir_buf s)) -> starts (bkt_bytes es0) (bkt_buf s) ->
  (forall x, old = Some x -> kent_ok x) ->
  wp (set_bind (lf_id l) (len (lf_bkts l)) (Z.of_nat (bkt_index l key)) b.1 (len (bkt_bytes es0)) key val kspill vspill (hash_fp (key_hash key)) (old_ent_of off old)) s
    (mut_post n nx o t (bind_want (len (bkt_bytes es0)) kspill vspill key val (tree_map t)).1 (bind_want (len (bkt_bytes es0)) kspill vspill key val (tree_map t)).2).
Proof.
  intros Hv2 Hks Hh Hs Hd Hb Hold. unfold set_bind. fold (set_need kspill vspill key val). cbv zeta.
  pose proof (staged_nil t o nx Hs) as Hg. pose proof (proj1 (khold_wf _ _ _ _ Hh)) as Hnx.
  destruct (Z.gtb_spec (len (bkt_bytes es0) + set_need kspill vspill key val) MAX_PAYLOAD) as [Hfull|Hfit].
  { unfold bind_want. destruct (Z.gtb_spec (len (bkt_bytes es0) + set_need kspill vspill key val) MAX_PAYLOAD); [|lia].
    apply wp_fail, post_want; try done. eapply khold_le; [|exact Hh]. lia. }
  assert (match old_ent_of off old with Some o => old_kid o | None => 0 end = okid_of old) as -> by (by destruct old).
  assert (match old_ent_of off old with Some o => old_vid o | None => 0 end = ovid_of old) as -> by (by destruct old).
  assert (match old_ent_of off old with Some o0 => if kspill && e_kspill (old_e o0) then okid_of old else 0 | None => 0 end = if kspill then okid_of old else 0) as ->.
  { destruct old as [x|]; cbn; [|by destruct kspill]. destruct kspill; cbn [andb]; [|done]. unfold spilled. by destruct (Z.eqb_spec (k_kid x) 0). }
  set (w := bind_want _ _ _ _ _ _).
  assert (forall e nx2 o2 s2, prepared t o nx [] nx2 o2 -> khold n nx2 o2 s2 -> refused e -> mut_post n nx o t w.1 w.2 (Err e) s2) as Hno.
  { intros e nx2 o2 s2 Hg2 Hh2 He. exists t. split; [|right; eauto]. apply (became_staged n nx nx2 o o2); try done; [apply Hg2|by eapply staged_own|apply Hg2]. }
  destruct (kspill && ((if kspill then okid_of old else 0) =? 0)) eqn:Ek.
  - apply andb_true_iff in Ek as [-> Ek]. cbn in Ek. apply Z.eqb_eq in Ek. apply wp_bnd, wp_bnd.
    eapply wp_mono; [apply (alloc_spec (S (S n)) nx o s Hh)|]. cbv beta. intros r s1 [[Hd1 Hk1] [[-> Hh1]|(-> & Hft & nx2 & Hle & Hh1)]].
    2: { cbn [Z.eqb]. apply wp_fail. apply (Hno EIO nx2 o); [by eapply staged_next|eapply khold_le; [|exact Hh1]; lia|unfold refused; eauto]. }
    pose proof (proj1 (khold_wf _ _ _ _ Hh1)) as Hnx1. destruct (Z.eqb_spec nx 0); [lia|].
    assert (prepared t o nx [] (nx + 1) o) as Hg1 by (eapply staged_next; [exact Hg|lia]). apply wp_bnd.
    eapply wp_mono; [apply (kv_update_spec (S (S n)) (nx + 1) o s1 nx key Hh1); [lia|done|by apply Hks]|]. cbv beta.
    intros r s2 [[Hd2 Hk2] [[-> Hh2]|[(e & Hre & -> & Hh2)|(e & Htr & _)]]]; [| |by destruct Hsteady].
    2: { apply (Hno _ (nx + 1) o); [done|eapply khold_le; [|exact Hh2]; lia|]. destruct Hre as [[-> ?]|]; unfold refused; eauto. }
    apply wp_ret. unfold w. apply (bind_value (nx + 1) (<[nx := key]> o)); try done; try lia.
    + cbn [fresh_key]. unfold part_obj, spilled. destruct (Z.eqb_spec nx 0); [lia|]. by apply (staged_bind (S (S (S n))) t o nx [] nx o s).
    + left. split_and!; [done|lia|done].
    + unfold spilled. by destruct (Z.eqb_spec nx 0).
    + rewrite Hd2, Hd1. done.
    + by rewrite Hk2, Hk1.
  - apply wp_bnd, wp_ret. unfold w. apply (bind_value nx o); try done; try lia.
    + eapply khold_le; [|exact Hh]. lia.
    + destruct kspill; [|right; left; done]. cbn in Ek. apply Z.eqb_neq in Ek. right. right. split_and!; [done|done|].
      destruct old as [x|]; [|done]. by exists x.
    + destruct kspill; [|done]. cbn in Ek. unfold spilled. by rewrite Ek.
    + destruct kspill; [|lia]. destruct old as [x|]; cbn; [|lia]. apply (ko_kid _ (Hold x eq_refl)).
Qed.
End bind.

(** ** Replacing a spilled value by one of its length *)

Lemma set_in_place n nx o s t l b key val es1 x es2 : tree_ok (D := D) t -> located o t key l b -> b.2 = es1 ++ x :: es2 -> k_key x = key ->
  khold n nx o s -> stored o (tree_objs t) -> k_vid x <> 0 -> len (k_val x) = len val -> bytes_ok val ->
  wp (kv_update (k_vid x) val) s (mut_post n nx o t (Ok tt) (<[key := val]> (tree_map t))).
Proof.
  intros Ht Hlc Eb Hk Hh Hs Hv Hl Hvb. pose proof (khold_wf _ _ _ _ Hh) as Hwf. pose proof (lc_bkt_ok _ _ _ _ _ Hlc) as Hb.
  assert (b.1 <> 0) as Hb0 by (intros E; rewrite (bo_empty _ _ _ Hb E) in Eb; by destruct es1).
  destruct (located_bkt o t key l b Hlc Hb0) as [_ Hparts]. rewrite Eb, list.Forall_app, list.Forall_cons in Hparts. destruct Hparts as (_ & [_ Hpv] & _).
  specialize (Hpv Hv). destruct (obs_wf_lookup _ _ _ _ _ Hwf Hpv) as (Hid & _ & Hmx).
  set (x' := mk_kent key (k_kid x) val (k_vid x)). set (b' := (b.1, es1 ++ x' :: es2)).
  assert (enc_kent x' = enc_kent x) as Henc.
  { unfold enc_kent, key_part, val_part, x'. cbn [k_key k_kid k_val k_vid]. rewrite Hk, Hl. unfold spilled. by destruct (Z.eqb_spec (k_vid x) 0). }
  assert (bkt_bytes b'.2 = bkt_bytes b.2) as Hbb by (rewrite Eb; cbn [b' snd]; by rewrite !bkt_bytes_app, !bkt_bytes_cons, Henc).
  assert (without b.2 key (Some x) (es1 ++ es2)) as Hw by (split; [done|]; by exists es1, es2).
  assert (own t ≡ₚ (lf_id l :: (bkt_objs b).*1) ++ (ctx t l key).*1) as Hown.
  { by rewrite (own_located o t key l b Hlc), fmap_cons, fmap_app. }
  assert (bkt_objs b ≡ₚ (k_vid x, k_val x) :: (b.1, bkt_bytes b.2) :: part_obj (k_kid x) (k_key x) ++ ((es1 ++ es2) ≫= ent_objs)) as Hbo.
  { destruct b as [bid es]. rewrite bkt_objs_used by done. cbn in Eb |- *. rewrite (without_objs es key (Some x) (es1 ++ es2)) by done. cbn [old_objs]. unfold ent_objs at 1.
    assert (part_obj (k_vid x) (k_val x) = [(k_vid x, k_val x)]) as -> by (unfold part_obj, spilled; by destruct (Z.eqb_spec (k_vid x) 0)). solve_Permutation. }
  assert (bkt_objs b' ≡ₚ (k_vid x, val) :: (b.1, bkt_bytes b.2) :: part_obj (k_kid x) (k_key x) ++ ((es1 ++ es2) ≫= ent_objs)) as Hbo'.
  { unfold b'. rewrite bkt_objs_used by done. cbn [b' snd] in Hbb. rewrite Hbb. rewrite !bind_app. cbn [mbind list_bind]. unfold ent_objs at 2, x'. cbn [k_kid k_key k_vid k_val]. rewrite Hk.
    assert (part_obj (k_vid x) val = [(k_vid x, val)]) as -> by (unfold part_obj, spilled; by destruct (Z.eqb_spec (k_vid x) 0)). solve_Permutation. }
  pose proof (lc_stored _ _ _ _ _ Hlc) as Hst. rewrite Hbo in Hst.
  assert (stored o ((k_vid x, k_val x) :: (lf_id l, leaf_dir l) :: (b.1, bkt_bytes b.2) :: (part_obj (k_kid x) (k_key x) ++ ((es1 ++ es2) ≫= ent_objs)) ++ ctx t l key)) as Hst'.
  { eapply stored_perm; [|exact Hst]. solve_Permutation. }
  apply (stored_put _ _ _ _ val) in Hst'.
  eapply wp_mono; [by apply (kv_update_spec n nx o s (k_vid x) val); try done; lia|]. cbv beta.
  intros r s1 [_ [[-> Hh1]|[(e & Hre & -> & Hh1)|(e & Htr & _)]]]; [| |by destruct Hsteady].
  2: { apply post_refused; try done. destruct Hre as [[-> ?]|]; unfold refused; eauto. }
  pose proof (bo_ents _ _ _ Hb) as Hok. rewrite Eb, list.Forall_app, list.Forall_cons in Hok. destruct Hok as (Hok1 & Hokx & Hok2).
  destruct (became_put Hmax n nx nx o (<[k_vid x := val]> o) t l key b b' s1 (Some val) Ht Hlc Hh1) as [Q1 Q2].
  - lia.
  - destruct Hb as [B1 B2 B3 B4 B5 B6]. split; cbn [b' fst snd]; try done.
    + apply list.Forall_app. split; [done|]. apply list.Forall_cons. split; [|done]. destruct Hokx as [K1 K2 K3 K4 K5 K6]. rewrite Hk in K1, K3. rewrite Hl in K2. by split.
    + cbn [b' snd] in Hbb. by rewrite Hbb.
    + rewrite Eb, !fmap_app, !fmap_cons, Hk in B5. by rewrite fmap_app, fmap_cons.
    + rewrite Eb in B6. rewrite !list.Forall_app, !list.Forall_cons in B6 |- *. cbn. by rewrite Hk in B6.
  - intros Hv3. pose proof (located_inline o t key l b Hlc Hv3) as Hin. rewrite Eb, list.Forall_app, list.Forall_cons in Hin. by destruct Hin as (_ & [_ ?] & _).
  - pose proof (located_top Hmax o t key l b Ht Hlc) as Htop. cbn. rewrite Eb in Htop. rewrite list.Forall_app, list.Forall_cons in *.
    destruct Htop as (? & ? & ?). split_and!; try done. by destruct t.
  - rewrite (leaf_dir_put l _ b b') by (done || apply Hlc). rewrite Hbo'. eapply stored_perm; [|exact Hst']. solve_Permutation.
  - intros id _ Hno. apply lookup_insert_ne. intros <-. apply Hno. rewrite Hown, Hbo. apply elem_of_app. left. right. left.
  - intros id Hin _. rewrite Hown, Hbo. rewrite Hbo' in Hin. apply elem_of_app. left. right. exact Hin.
  - intros k'. cbn [b' snd]. rewrite Eb, !assoc_app. cbn. rewrite Hk. case_decide as Ek.
    + subst k'. rewrite bool_decide_true by done. rewrite assoc_none; [done|]. pose proof (bo_keys _ _ _ Hb) as Hn. rewrite Eb, fmap_app, fmap_cons, list.NoDup_app in Hn.
      intros Hin. destruct Hn as (_ & Hn & _). apply (Hn key Hin). rewrite Hk. left.
    + by rewrite bool_decide_false.
  - exists (put_bucket t l key b'). split; [done|]. by left.
Qed.

(** ** The thresholds *)

(** [m] leaves the spill thresholds alone. *)
Definition keeps_max {A} (m : M kvh A) : Prop :=
  forall s, key_inline_max (m s).2 = key_inline_max s /\ val_inline_max (m s).2 = val_inline_max s.

Lemma km_bnd {A B} (m : M kvh A) (k : A -> M kvh B) : keeps_max m -> (forall a, keeps_max (k a)) -> keeps_max (mbnd m k).
Proof.
  intros Hm Hk s. unfold mbnd. specialize (Hm s). destruct (m s) as [[a|e] s']; cbn in Hm |- *; [|done]. destruct (Hk a s') as [-> ->]. done.
Qed.
Lemma km_ret {A} (a : A) : keeps_max (mret a). Proof. done. Qed.
Lemma km_fail {A} e : keeps_max (A := A) (mfail e). Proof. done. Qed.
Lemma km_gets {A} (f : kvh -> A) : keeps_max (mgets f). Proof. done. Qed.
Lemma km_dir f : keeps_max (mmod (fun s => set_dir (f s) s)). Proof. done. Qed.
Lemma km_bkt f : keeps_max (mmod (fun s => set_bkt (f s) s)). Proof. done. Qed.
Lemma km_dev {A} (m : M D A) : keeps_max (on_dev m).
Proof. intros s. unfold on_dev. by destruct (m (kv_dev s)). Qed.
Lemma km_if {A} (c : bool) (m m' : M kvh A) : keeps_max m -> keeps_max m' -> keeps_max (if c then m else m').
Proof. by destruct c. Qed.

Lemma km_resolve root h : keeps_max (resolve_leaf root h).
Proof.
  assert (forall id, keeps_max (dir_load (D := D) id)) as Hl.
  { intros id. unfold dir_load, dir_load_raw, get_dir.
    repeat first [apply km_bnd; [|intros ?]|apply km_ret|apply km_fail|apply km_gets|apply km_dir|apply km_dev|apply km_if|progress cbv zeta|progress case_match]. }
  unfold resolve_leaf.
  repeat first [apply Hl|apply km_bnd; [|intros ?]|apply km_ret|apply km_fail|apply km_gets|apply km_if|progress cbv zeta|progress case_match].
Qed.

Lemma km_wp {A} (m : M kvh A) s (Q : res A -> kvh -> Prop) : keeps_max m -> wp m s Q ->
  wp m s (fun r s' => Q r s' /\ key_inline_max s' = key_inline_max s /\ val_inline_max s' = val_inline_max s).
Proof. intros Hk. specialize (Hk s). unfold wp. destruct (m s). cbn in Hk. tauto. Qed.

(** ** set *)

Definition may_spill t (key : bytes) : bool := match leaves t !! sub_index t key with Some l => lf_ver l >=? 3 | None => false end.
Definition spills_key s t (key : bytes) : bool := may_spill t key && (len key >? key_inline_max s).
Definition spills_val s t (key val : bytes) : bool := may_spill t key && (len val >? val_inline_max s).

(** The bytes of the other entries of the key's bucket. *)
Definition rest_bytes t (key : bytes) : Z := len (bkt_bytes (filter (fun e => k_key e <> key) (bucket_of t key))).

(** The call's result and the map after it. *)
Definition set_want s t (key val : bytes) : res unit * gmap bytes bytes :=
  let m := tree_map t in
  if (len key =? 0) || (len key >? 0xffff) || (len val >? 0xffff) then (Err EINVAL, m)
  else if (len key >? ENT_LEN_MASK) || (len val >? ENT_LEN_MASK) then (Err ENOSPC, m)
  else if spills_key s t key && (len key >? MAX_PAYLOAD) then (Err ENOSPC, m)
  else bind_want (rest_bytes t key) (spills_key s t key) (spills_val s t key val) key val m.

Lemma filter_others (es : list kent) key : key ∉ (k_key <$> es) -> filter (fun e => k_key e <> key) es = es.
Proof.
  induction es as [|e es IH]; [done|]. cbn [fmap list_fmap]. rewrite not_elem_of_cons. intros [Hne Hn]. rewrite filter_cons_True by done. by rewrite IH.
Qed.

Lemma without_filter es key old es0 : without es key old es0 -> NoDup (k_key <$> es) -> filter (fun e => k_key e <> key) es = es0.
Proof.
  destruct old as [x|]; cbn; [|intros [-> ?] _; by apply filter_others]. intros (<- & es1 & es2 & -> & ->). rewrite fmap_app, fmap_cons, list.NoDup_app, list.NoDup_cons.
  intros (_ & H1 & H2 & _). rewrite list.filter_app, filter_cons_False by tauto. rewrite !filter_others; [done|done|]. intros Hin. apply (H1 _ Hin). left.
Qed.

Lemma located_rest o t key l b old es0 : located o t key l b -> without b.2 key old es0 -> rest_bytes t key = len (bkt_bytes es0).
Proof.
  intros Hlc Hw. unfold rest_bytes, bucket_of. rewrite (lc_leaf _ _ _ _ _ Hlc), (lc_bkt _ _ _ _ _ Hlc).
  by rewrite (without_filter _ key old es0) by (done || apply (lc_bkt_ok _ _ _ _ _ Hlc)).
Qed.

Lemma set_spec n nx o s t key val : khold (S (S (S n))) nx o s -> tree_ok (D := D) t -> stored o (tree_objs t) -> bytes_ok key -> bytes_ok val ->
  wp (kvhash_set (tree_root t) (Some key) (Some val)) s (mut_post n nx o t (set_want s t key val).1 (set_want s t key val).2).
Proof.
  intros Hh Ht Hs Hkb Hvb. assert (khold n nx o s) as Hh0 by (eapply khold_le; [|exact Hh]; lia).
  unfold kvhash_set, set_want. cbv zeta. destruct ((len key =? 0) || (len key >? 65535) || (len val >? 65535)) eqn:E1; [by apply post_want|].
  destruct ((len key >? ENT_LEN_MASK) || (len val >? ENT_LEN_MASK)) eqn:E2; [by apply post_want|].
  assert (0 < len key <= ENT_LEN_MASK) as Hkl by (pose proof (len_nonneg key); lia). assert (len val <= ENT_LEN_MASK) as Hvl by lia. clear E1 E2.
  destruct (locate Hmax o t key Ht Hs) as (l & b & Hlc). pose proof (lc_bkt_ok _ _ _ _ _ Hlc) as Hb. set (w := if spills_key s t key && _ then _ else _).
  assert (forall (e : errno) s', khold (S (S (S n))) nx o s' -> refused e -> mut_post n nx o t w.1 w.2 (Err e) s') as Hf.
  { intros e s' Hh' He. apply post_refused; try done. eapply khold_le; [|exact Hh']. lia. }
  apply wp_bnd. pose proof (resolve_leaf_spec Hmax (S (S (S n))) nx o s t key l Hh Ht Hs (lc_leaf _ _ _ _ _ Hlc)) as Hres.
  eapply wp_mono; [by eapply km_wp; [apply km_resolve|exact Hres]|]. cbv beta.
  intros r s1 [[Hh1 Hr] [Hk1 Hv1]]. destruct r as [r|e]; [|apply Hf; [done|by apply fault_refused]]. destruct Hr as (-> & Hdir & _).
  apply wp_bnd, wp_gets. change (id s1) with s1. cbv zeta. rewrite Hk1, Hv1.
  assert (byte_at 6 (dir_buf s1) >=? 3 = may_spill t key) as ->.
  { unfold may_spill. rewrite (lc_leaf _ _ _ _ _ Hlc). destruct Hdir as [j ->]. unfold leaf_dir. by rewrite dir_ver. }
  fold (spills_key s t key) (spills_val s t key val). set (ks := spills_key s t key) in *. set (vs := spills_val s t key val) in *.
  assert (dir_child (dir_buf s1) (Z.of_nat (bkt_index l key)) = b.1) as -> by (destruct Hdir as [j ->]; by apply (located_dir_child o t)).
  destruct (ks && (len key >? MAX_PAYLOAD)) eqn:Ekl; [unfold w; apply wp_fail, post_want; try done; eapply khold_le; [|exact Hh1]; lia|].
  assert (ks = true -> len key <= MAX_PAYLOAD) as Hks by (intros Et; rewrite Et in Ekl; cbn in Ekl; lia).
  assert (lf_ver l < 3 -> ks = false /\ vs = false) as Hv2.
  { intros Hv. unfold ks, vs, spills_key, spills_val, may_spill. rewrite (lc_leaf _ _ _ _ _ Hlc). destruct (Z.geb_spec (lf_ver l) 3); [lia|done]. }
  destruct (Z.eqb_spec b.1 0) as [E0|E0]; cbn [negb].
  { pose proof (bo_empty _ _ _ Hb E0) as Eb. assert (without b.2 key None []) as Hw by (rewrite Eb; split; [done|apply not_elem_of_nil]).
    unfold w. rewrite (located_rest o t key l b None [] Hlc Hw).
    pose proof (set_bind_spec n nx o t l b key val [] None Ht Hlc Hw Hkl Hvl Hkb Hvb 0 ks vs s1 Hv2 Hks Hh1 Hs (fun _ => Hdir)) as Q.
    rewrite E0 in Q. apply Q; [by exists (bkt_buf s1)|done]. }
  destruct (located_bkt o t key l b Hlc E0) as [Hbo Hparts].
  eapply wp_orf; [apply (get_bkt_spec _ nx o s1 b.1 (bkt_bytes b.2) Hh1); [apply (bo_id _ _ _ Hb)|done]| |intros; apply Hf; [done|by apply fault_refused]].
  intros used s2 Hh2 (-> & Hst & _). apply wp_bnd, wp_try.
  eapply wp_mono; [apply (bkt_find_spec Hmax _ nx o s2 key b.2 Hh2 Hst); [apply Hb|done]|]. cbv beta.
  intros r s3 [Hh3 [[Hb3 Hfd]|(e & He & ->)]].
  2: { assert (mut_post n nx o t w.1 w.2 (Err e) s3) as Hq by (apply Hf; [done|by apply fault_refused]).
       destruct (fault_plain e He) as (_ & Hne & _). destruct e; try done; exact Hq. }
  rewrite <- Hb3 in Hst. destruct r as [[off e]|e].
  2: { destruct Hfd as [-> Hn]. assert (without b.2 key None b.2) as Hw by done. unfold w. rewrite (located_rest o t key l b None b.2 Hlc Hw).
       by apply (set_bind_spec n nx o t l b key val b.2 None) with (off := 0). }
  destruct (found_value key b.2 off e _ Hfd (bo_keys _ _ _ Hb) eq_refl) as (es1 & x & es2 & Eb & Hk & _ & Ho & -> & _). subst off.
  assert (without b.2 key (Some x) (es1 ++ es2)) as Hw by (split; [done|]; by exists es1, es2).
  apply wp_bnd, wp_gets. rewrite Eb in Hst.
  assert (packed (bkt_buf s3) (len (bkt_bytes es1)) x) as Hp.
  { destruct Hst as [j2 ->]. rewrite bkt_bytes_app, bkt_bytes_cons, <- !app_assoc. apply packed_here. }
  assert (kent_ok x) as Hx by (pose proof (bo_ents _ _ _ Hb) as Hok; rewrite Eb, list.Forall_app, list.Forall_cons in Hok; tauto).
  destruct (ent_ids _ _ x Hp Hx) as [-> ->]. cbn [ent_of e_kspill e_vspill e_vl e_len].
  pose proof (located_rest o t key l b _ _ Hlc Hw) as Hrest.
  destruct (Bool.eqb (spilled (k_kid x)) ks && spilled (k_vid x) && vs && (len (k_val x) =? len val)) eqn:Efast.
  - rewrite !andb_true_iff in Efast. destruct Efast as [[[Eks Evs] Evs'] El]. apply eqb_prop in Eks. apply Z.eqb_eq in El.
    unfold spilled in Evs. destruct (Z.eqb_spec (k_vid x) 0) as [|Ev0]; [done|]. clear Evs.
    assert (w = (Ok tt, <[key := val]> (tree_map t))) as ->.
    { unfold w, bind_want. rewrite Hrest. pose proof (bo_fit _ _ _ Hb) as Hfit. rewrite Eb, bkt_bytes_app, bkt_bytes_cons, !len_app, len_enc_kent, len_key_part, len_val_part in Hfit.
      rewrite bkt_bytes_app, len_app. unfold set_need. rewrite Evs', <- Eks. rewrite Hk in Hfit. unfold spilled at 2 in Hfit. destruct (Z.eqb_spec (k_vid x) 0); [done|]. cbn [negb] in Hfit.
      destruct (Z.gtb_spec (len (bkt_bytes es1) + len (bkt_bytes es2) + (ENTRY_HDR_LEN + (if spilled (k_kid x) then KEY_REF_LEN else len key) + VAL_REF_LEN)) MAX_PAYLOAD); [lia|].
      cbn [andb]. rewrite Eb, list.Forall_app, list.Forall_cons in Hparts. destruct Hparts as (_ & [_ Hpv] & _).
      destruct (obs_wf_lookup _ _ _ _ _ (khold_wf _ _ _ _ Hh) (Hpv n0)) as (_ & _ & Hm). destruct (Z.gtb_spec (len val) MAX_PAYLOAD); [lia|done]. }
    apply (set_in_place n nx o s3 t l b key val es1 x es2); try done. eapply khold_le; [|exact Hh3]. lia.
  - apply wp_bnd. rewrite Eb. eapply wp_mono; [by apply (bkt_drop_spec (S (S (S n))) nx o s3 es1 x es2)|]. cbv beta. intros r s4 (Hh4 & -> & Hst4 & _).
    unfold w. rewrite Hrest. apply (set_bind_spec n nx o t l b key val (es1 ++ es2) (Some x)) with (off := len (bkt_bytes es1)); try done. by intros y [= <-].
Qed.
End set.
