(* ===== verification/KvHashCreate.v ===== *)
(** Building and measuring a kvhash map: the geometry a declared population gets,
    the empty map [kvhash_create()] leaves behind, and [kvhash_stat()]. *)

From S2P Require Import BlobIface Prelude Layout Records KvHash KvHashRep KvHashRead KvHashOps KvHashSet.

(** ** The square root of the two-level geometry *)

(** Up to the largest square of 16 bits the loop finds the least side. *)
Lemma side_loop_least fuel side buckets : 1 <= side -> buckets <= 65535 * 65535 -> 65535 - side < Z.of_nat fuel -> (side - 1) * (side - 1) < buckets ->
  let r := side_loop fuel side buckets in side <= r <= Z.max side 65535 /\ buckets <= r * r /\ (r - 1) * (r - 1) < buckets.
Proof.
  revert side. induction fuel as [|fuel IH]; intros side Hs Hb Hf Hl; cbn [side_loop]; [nia|].
  destruct (Z.leb_spec side 65535) as [Hle|Hgt]; [|nia].
  rewrite u32_small by nia. destruct (Z.ltb_spec (side * side) buckets) as [Hlt|Hge]; [|nia].
  assert (side < 65535) by nia. specialize (IH (side + 1) ltac:(lia) Hb ltac:(lia) ltac:(replace (side + 1 - 1) with side by lia; lia)).
  cbv zeta in IH. lia.
Qed.

(** No side ever reaches the largest 32-bit population: the squares of 32-bit
    numbers are 0, 1 or 4 modulo 8. *)
Lemma side_loop_endless fuel side : side_loop fuel side UINT32_MAX = side + Z.of_nat fuel.
Proof.
  revert side. induction fuel as [|fuel IH]; intros side; cbn [side_loop]; [lia|].
  assert (u32 (side * side) < UINT32_MAX) as Hlt.
  { unfold u32, UINT32_MAX. pose proof (Z.mod_pos_bound (side * side) (2 ^ 32) ltac:(lia)) as Hr. change (2 ^ 32) with 4294967296 in *.
    assert ((side * side) mod 4294967296 <> 4294967295); [|lia]. intros E.
    assert ((side * side) mod 8 = 7) as E8.
    { rewrite (Z.div_mod (side * side) 4294967296) by lia. rewrite E. set (q := side * side / 4294967296).
      replace (4294967296 * q + 4294967295) with (7 + (536870912 * q + 536870911) * 8) by lia. by rewrite Z_mod_plus_full. }
    rewrite Z.mul_mod in E8 by lia. pose proof (Z.mod_pos_bound side 8 ltac:(lia)) as H8.
    assert (side mod 8 = 0 \/ side mod 8 = 1 \/ side mod 8 = 2 \/ side mod 8 = 3 \/ side mod 8 = 4 \/ side mod 8 = 5 \/ side mod 8 = 6 \/ side mod 8 = 7) as Hc by lia.
    repeat destruct Hc as [Hc|Hc]; rewrite Hc in E8; done. }
  destruct (Z.ltb_spec (u32 (side * side)) UINT32_MAX); [|lia]. rewrite IH. lia.
Qed.

Section create.
Context `{Crc} {D : Type} `{!Blobs D} {CL : CrcLaws _} {L : BlobLaws D}.
Notation MAX_PAYLOAD := (blob_max (D := D)).
Notation MAX_BUCKETS := (MAX_BUCKETS (D := D)).
Notation kvh := (kvh (D := D)).
Context (Hmax : 72 <= MAX_PAYLOAD <= ENT_LEN_MASK).
Implicit Types (s : kvh) (o : objs) (t : kvtree).

#[local] Definition Hmax24 : 24 <= MAX_PAYLOAD <= ENT_LEN_MASK := ltac:(lia).

(** ** The geometry *)

(** One level of [n] buckets, or [n] sub-maps of [n] buckets each. *)
Definition geometry_ok (g : Z * Z * Z) : Prop :=
  let '(depth, n_top, n_sub) := g in
  2 <= n_top <= MAX_BUCKETS /\ ((depth = 1 /\ n_sub = 0) \/ (depth = 2 /\ n_sub = n_top)).

Lemma MAX_BUCKETS_ge : 8 <= MAX_BUCKETS.
Proof. unfold KvHash.MAX_BUCKETS, DIR_HDR_LEN. apply Z.div_le_lower_bound; lia. Qed.

Lemma derive_geometry_ok cfg g : derive_geometry (D := D) cfg = Ok g -> geometry_ok g.
Proof.
  pose proof MAX_BUCKETS_ge. pose proof (MAX_BUCKETS_lt Hmax24). unfold derive_geometry. cbv zeta.
  set (entries := match cfg with Some c => expected_entries c | None => 0 end). destruct (_ && _); [done|]. destruct (_ && _); [done|].
  destruct (entries =? 0); [intros [= <-]; unfold geometry_ok, DEFAULT_BUCKETS; lia|]. set (want := Z.max _ 2).
  generalize (side_loop (Z.to_nat 65536) 1). intros root. set (side := Z.max (root _) 2). assert (2 <= side) by lia. clearbody side.
  destruct ((want <=? ONE_LEVEL_MAX_BUCKETS) && (want <=? MAX_BUCKETS)) eqn:E; [intros [= <-]; unfold geometry_ok; lia|].
  destruct (Z.gtb_spec side MAX_BUCKETS); [done|]. intros [= <-]. unfold geometry_ok. rewrite u16_small by lia. lia.
Qed.

(** Within 32-bit arithmetic the geometry is as large as it was declared: a flat
    map has a bucket per four entries, a two-level one a bucket per entry or per
    4 KB, whichever is less. *)
Lemma derive_geometry_covers c g : 0 < expected_entries c -> 0 <= typical_entry_bytes c -> max_entry_bytes c = 0 ->
  expected_entries c + 3 < 2 ^ 32 -> expected_entries c * typical_entry_bytes c < 2 ^ 32 -> expected_entries c <= 65535 * 65535 ->
  derive_geometry (D := D) (Some c) = Ok g ->
  let '(depth, n_top, _) := g in
  if depth =? 1 then expected_entries c <= n_top * SMALL_MAP_LOAD
  else expected_entries c <= n_top * n_top \/
       (typical_entry_bytes c <> 0 /\ expected_entries c * typical_entry_bytes c / MIN_BUCKET_BYTES <= n_top * n_top).
Proof.
  intros He Ht Hm H1 H2 Hs. pose proof (MAX_BUCKETS_lt Hmax24). unfold derive_geometry. rewrite Hm. cbn [Z.eqb negb andb]. rewrite andb_false_r. cbv zeta.
  destruct (Z.eqb_spec (expected_entries c) 0); [lia|]. unfold SMALL_MAP_LOAD in *. set (e := expected_entries c) in *. set (ty := typical_entry_bytes c) in *.
  rewrite u32_small by lia. set (want := Z.max ((e + 4 - 1) / 4) 2). assert (e <= want * 4) as Hw.
  { unfold want. pose proof (Z.div_mod (e + 4 - 1) 4 ltac:(lia)). pose proof (Z.mod_pos_bound (e + 4 - 1) 4 ltac:(lia)). lia. }
  rewrite (u32_small (e * ty)) by nia.
  set (b0 := if negb (ty =? 0) then Z.min e (e * ty / MIN_BUCKET_BYTES) else e). set (b := Z.max b0 ONE_LEVEL_MAX_BUCKETS).
  assert (b <= 65535 * 65535) as Hb by (unfold b, b0, ONE_LEVEL_MAX_BUCKETS; destruct (negb _); lia).
  assert (0 < b) as Hb0 by (unfold b, ONE_LEVEL_MAX_BUCKETS; lia).
  destruct (side_loop_least (Z.to_nat 65536) 1 b ltac:(lia) Hb ltac:(lia) ltac:(lia)) as (Hr & Hc & _).
  revert Hr Hc. generalize (side_loop (Z.to_nat 65536) 1 b). intros r Hr Hc.
  destruct ((want <=? ONE_LEVEL_MAX_BUCKETS) && (want <=? MAX_BUCKETS)); [by intros [= <-]|]. destruct (Z.gtb_spec (Z.max r 2) MAX_BUCKETS); [done|]. intros [= <-].
  cbn [Z.eqb Pos.eqb]. rewrite u16_small by lia. assert (b0 <= Z.max r 2 * Z.max r 2) as Hb1 by (unfold b in Hc; nia).
  unfold b0 in Hb1. destruct (Z.eqb_spec ty 0) as [|Hty]; cbn [negb] in Hb1; [by left|].
  destruct (Z.min_spec e (e * ty / MIN_BUCKET_BYTES)) as [[_ E]|[_ E]]; rewrite E in Hb1; [by left|by right].
Qed.

(** ** create *)

Definition empty_leaf (n_sub : Z) (id : Z) : kleaf := mk_kleaf id KVHASH_VERSION (replicate (Z.to_nat n_sub) (0, [])).
Notation leaf_img n_sub := (dir_bytes KVHASH_DIR_MAGIC KVHASH_VERSION 1 (replicate (Z.to_nat n_sub) 0)).

Lemma leaf_dir_empty n_sub id : leaf_dir (empty_leaf n_sub id) = leaf_img n_sub.
Proof. unfold leaf_dir, empty_leaf. cbn [lf_ver lf_bkts]. by rewrite fmap_replicate. Qed.

Lemma leaf_objs_empty n_sub id : leaf_objs (empty_leaf n_sub id) = [(id, leaf_img n_sub)].
Proof.
  unfold leaf_objs. rewrite leaf_dir_empty. f_equal. unfold empty_leaf. cbn [lf_bkts]. by induction (Z.to_nat n_sub).
Qed.

Lemma leaf_ents_empty n_sub id : leaf_ents (empty_leaf n_sub id) = [].
Proof. unfold leaf_ents, empty_leaf. cbn [lf_bkts]. by induction (Z.to_nat n_sub). Qed.

Lemma empty_leaf_ok n_sub id : 2 <= n_sub <= MAX_BUCKETS -> 0 < id < 2 ^ 64 -> leaf_ok (D := D) (empty_leaf n_sub id).
Proof.
  intros Hn Hid. assert (len (replicate (Z.to_nat n_sub) (0, @nil kent)) = n_sub) as El by (unfold len; rewrite length_replicate; lia).
  split; cbn; rewrite ?El; [done|unfold KVHASH_VERSION_MIN, KVHASH_VERSION; lia|done| |].
  - intros i b Hb. apply lookup_replicate in Hb as [-> _]. split; cbn; try constructor; try done; try lia. change (len (bkt_bytes [])) with 0. lia.
  - intros _ i b Hb. apply lookup_replicate in Hb as [-> _]. constructor.
Qed.

(** The tree of an empty map: the directory alone, or with its sub-maps. *)
Definition empty_tree (g : Z * Z * Z) (root : Z) (ids : list Z) : kvtree :=
  let '(depth, n_top, n_sub) := g in
  if depth =? 1 then Flat (empty_leaf n_top root) else Tree root KVHASH_VERSION (empty_leaf n_sub <$> ids).

Definition allocs_of (g : Z * Z * Z) : nat := let '(depth, n_top, _) := g in if depth =? 1 then 0 else Z.to_nat n_top.

Lemma empty_tree_map g root ids : tree_map (empty_tree g root ids) = ∅.
Proof.
  destruct g as [[depth n_top] n_sub]. cbn. unfold tree_map, tree_ents. destruct (depth =? 1); cbn [leaves mbind list_bind].
  - by rewrite leaf_ents_empty.
  - induction ids as [|id ids IH]; [done|]. cbn [fmap list_fmap mbind list_bind]. by rewrite leaf_ents_empty.
Qed.

Lemma empty_tree_ids g root ids id : id ∈ (tree_objs (empty_tree g root ids)).*1 -> id = root \/ id ∈ ids.
Proof.
  destruct g as [[depth n_top] n_sub]. cbn. destruct (depth =? 1); cbn [tree_objs].
  - rewrite leaf_objs_empty. cbn. intros ->%list_elem_of_singleton. by left.
  - cbn. intros [->|Hin]%elem_of_cons; [by left|right]. induction ids as [|x ids IH]; [by apply not_elem_of_nil in Hin|].
    cbn [fmap list_fmap mbind list_bind] in Hin. rewrite leaf_objs_empty in Hin. apply elem_of_cons in Hin as [->|Hin]; [by left|right; by apply IH].
Qed.

Lemma empty_tree_ok g root ids : geometry_ok g -> 0 < root < 2 ^ 64 -> length ids = allocs_of g -> Forall (fun id => 0 < id < 2 ^ 64) ids ->
  tree_ok (D := D) (empty_tree g root ids) /\ tree_root (empty_tree g root ids) = root.
Proof.
  destruct g as [[depth n_top] n_sub]. intros [Hn Hg] Hr Hl Hids. unfold empty_tree, allocs_of in *. destruct (Z.eqb_spec depth 1).
  - split; [|done]. by apply empty_leaf_ok.
  - destruct Hg as [[? _]|[_ ->]]; [done|]. split; [|done]. cbn. rewrite len_fmap. unfold len at 1 2. rewrite Hl.
    split_and!; try done; try lia; try (unfold KVHASH_VERSION_MIN, KVHASH_VERSION; lia).
    + apply Forall_fmap. eapply Forall_impl; [|exact Hids]. intros id Hid. by apply empty_leaf_ok.
    + intros i l Hi. rewrite list_lookup_fmap in Hi. destruct (ids !! i); [|done]. injection Hi as <-. rewrite leaf_ents_empty. constructor.
Qed.

(** A create may also end for want of an id. *)
Definition create_refused (e : errno) : Prop := refused (D := D) e \/ (e = ENOSPC /\ exists e', fault (D := D) e').

(** The objects bound since, besides those of [root]: fresh, and the old ones as
    before. *)
Definition below (nx : Z) o o' : Prop := forall id, id < nx -> o' !! id = o !! id.

Lemma create_subs_spec nx o n_top n_sub dj fuel n s ids nx1 o1 : 0 <= n_sub -> len (leaf_img n_sub) <= MAX_PAYLOAD ->
  khold (fuel + n) nx1 o1 s -> nx <= nx1 -> starts (leaf_img n_sub) (bkt_buf s) -> (length ids + fuel = n_top)%nat ->
  dir_buf s = dir_bytes KVHASH_DIR_MAGIC KVHASH_VERSION 2 (ids ++ replicate fuel 0) ++ dj ->
  stored o1 ((fun id => (id, leaf_img n_sub)) <$> ids) -> Forall (fun id => nx <= id) ids -> below nx o o1 ->
  ~ tears (D := D) ->
  wp (create_subs fuel (len ids) n_sub) s (fun r s' => exists nx2 o2, khold n nx2 o2 s' /\ nx <= nx2 /\ below nx o o2 /\
    match r with
    | Ok _ => exists ids', length ids' = n_top /\ dir_buf s' = dir_bytes KVHASH_DIR_MAGIC KVHASH_VERSION 2 ids' ++ dj /\
        stored o2 ((fun id => (id, leaf_img n_sub)) <$> ids') /\ Forall (fun id => nx <= id) ids'
    | Err e => create_refused e
    end).
Proof.
  intros Hns Himg. revert s ids nx1 o1. induction fuel as [|fuel IH]; intros s ids nx1 o1 Hh Hnx [kj Hkj] Hlen Hdir Hst Hids Hbel Hsteady; cbn [create_subs].
  - apply wp_ret. exists nx1, o1. split_and!; try done. exists ids. rewrite app_nil_r in Hdir. split_and!; try done. lia.
  - pose proof (khold_wf _ _ _ _ Hh) as Hwf. pose proof (proj1 Hwf) as Hn1.
    apply wp_bnd. eapply wp_mono; [apply (alloc_spec (fuel + n) nx1 o1 s Hh)|]. cbv beta. intros r s1 [[Hd1 Hk1] [[-> Hh1]|(-> & Hft & nx2 & Hle & Hh1)]].
    2: { cbn [Z.eqb]. apply wp_fail. exists nx2, o1. split_and!; try done; [eapply khold_le; [|exact Hh1]; lia|lia|by right]. }
    pose proof (proj1 (khold_wf _ _ _ _ Hh1)) as Hn2. destruct (Z.eqb_spec nx1 0); [lia|]. apply wp_bnd, wp_gets. rewrite Hk1, Hkj.
    replace (dir_len n_sub) with (dir_len (len (replicate (Z.to_nat n_sub) 0))) by (unfold len; rewrite length_replicate; f_equal; lia). rewrite dir_take.
    apply wp_bnd. eapply wp_mono; [apply (kv_update_spec _ (nx1 + 1) o1 s1 nx1 (leaf_img n_sub) Hh1); [lia|apply bytes_ok_dir; done|done]|]. cbv beta.
    intros r s2 [[Hd2 Hk2] [[-> Hh2]|[(e & Hre & -> & Hh2)|(e & Htr & _)]]]; [| |by destruct Hsteady].
    2: { exists (nx1 + 1), o1. split_and!; try done; [eapply khold_le; [|exact Hh2]; lia|lia|]. left. destruct Hre as [[-> ?]|]; unfold refused; eauto. }
    apply wp_bnd, wp_mod.
    assert (dir_set_child (len ids) nx1 (dir_buf s2) = dir_bytes KVHASH_DIR_MAGIC KVHASH_VERSION 2 ((ids ++ [nx1]) ++ replicate fuel 0) ++ dj) as Hset.
    { rewrite Hd2, Hd1, Hdir. unfold len. rewrite dir_set_child_at by (rewrite length_app, length_replicate; lia).
      f_equal. f_equal. rewrite insert_app_r_alt by lia. rewrite Nat.sub_diag. cbn. by rewrite <- app_assoc. }
    rewrite Hset. replace (len ids + 1) with (len (ids ++ [nx1])) by lens.
    apply (IH _ _ (nx1 + 1) (<[nx1 := leaf_img n_sub]> o1)); try done; [ | lia| | | | |].
    + destruct Hh2 as (H1 & H2 & H3). split_and!; cbn; [done| |done]. rewrite <- H2, Hd2, Hd1, Hdir, !len_app, !len_dir_bytes. autorewrite with len. unfold dir_len. lia.
    + cbn. exists kj. by rewrite Hk2, Hk1, Hkj.
    + rewrite length_app. cbn. lia.
    + rewrite fmap_app. cbn. rewrite Permutation_app_comm. cbn. apply stored_new; [|unfold BLOB_ROOT; lia|done].
      eapply stored_fresh; [exact Hwf|done|lia].
    + apply list.Forall_app. split; [done|]. by apply Forall_singleton.
    + intros id Hid. rewrite lookup_insert_ne by lia. by apply Hbel.
Qed.

(** The outcome of [kvhash_create()]: an empty map of the declared geometry, or
    a refusal that leaves the root and all older objects as they were. *)
Definition create_post (n : nat) (nx : Z) o root (g : res (Z * Z * Z)) (r : res unit) s : Prop :=
  exists nx' o', khold n nx' o' s /\ nx <= nx' /\
    match r with
    | Ok _ => exists geo ids, g = Ok geo /\ geometry_ok geo /\ length ids = allocs_of geo /\ Forall (fun id => nx <= id) ids /\
        tree_ok (D := D) (empty_tree geo root ids) /\ stored o' (tree_objs (empty_tree geo root ids)) /\
        forall id, id < nx -> id <> root -> o' !! id = o !! id
    | Err e => below nx o o' /\ (g = Err e \/ create_refused e)
    end.

Lemma dir_image_fits ver depth cs : len cs <= MAX_BUCKETS -> len (dir_bytes KVHASH_DIR_MAGIC ver depth cs) <= MAX_PAYLOAD.
Proof.
  intros Hl. rewrite len_dir_bytes. unfold KvHash.MAX_BUCKETS, dir_len, DIR_HDR_LEN in *.
  pose proof (Z.mul_div_le (MAX_PAYLOAD - 8) 8 ltac:(lia)). lia.
Qed.

(** Publishing the directory in dir_buf at the root. *)
Lemma publish_spec n nx nx1 o o1 s root ver depth cs dj geo ids : khold n nx1 o1 s -> nx <= nx1 -> 0 < root < nx -> root <> BLOB_ROOT ->
  dir_buf s = dir_bytes KVHASH_DIR_MAGIC ver depth cs ++ dj -> byte_ok ver -> byte_ok depth -> len cs <= MAX_BUCKETS ->
  geometry_ok geo -> length ids = allocs_of geo -> Forall (fun id => nx <= id) ids -> Forall (fun id => 0 < id < 2 ^ 64) ids -> below nx o o1 -> ~ tears (D := D) ->
  stored (<[root := dir_bytes KVHASH_DIR_MAGIC ver depth cs]> o1) (tree_objs (empty_tree geo root ids)) ->
  wp (let* b := mgets dir_buf in kv_update root (zt (dir_len (len cs)) b)) s (create_post n nx o root (Ok geo)).
Proof.
  intros Hh Hnx Hr Hr1 Hd Hv Hdp Hcs Hg Hl Hnew Hids Hbel Hsteady Hst. pose proof (proj1 (khold_wf _ _ _ _ Hh)) as Hn1.
  apply wp_bnd, wp_gets. rewrite Hd, dir_take.
  eapply wp_mono; [apply (kv_update_spec n nx1 o1 s root _ Hh); [lia|by apply bytes_ok_dir|by apply dir_image_fits]|]. cbv beta.
  intros r s1 [_ [[-> Hh1]|[(e & Hre & -> & Hh1)|(e & Htr & _)]]]; [| |by destruct Hsteady].
  - exists nx1, (<[root := dir_bytes KVHASH_DIR_MAGIC ver depth cs]> o1). split_and!; try done. exists geo, ids. split_and!; try done.
    + apply empty_tree_ok; try done. lia.
    + intros id Hid Hne. rewrite lookup_insert_ne by done. by apply Hbel.
  - exists nx1, o1. split_and!; try done. right. left. destruct Hre as [[-> ?]|]; unfold refused; eauto.
Qed.

Lemma create_spec n nx o s root cfg : khold (Z.to_nat MAX_BUCKETS + n) nx o s -> 0 < root < nx -> root <> BLOB_ROOT -> ~ tears (D := D) ->
  wp (kvhash_create root cfg) s (create_post n nx o root (derive_geometry (D := D) cfg)).
Proof.
  intros Hh Hr Hr1 Hsteady. pose proof (MAX_BUCKETS_lt Hmax24) as Hmb. assert (khold n nx o s) as Hh0 by (eapply khold_le; [|exact Hh]; lia).
  pose proof (khold_wf _ _ _ _ Hh) as Hwf. pose proof (proj1 Hwf) as Hnx. unfold kvhash_create.
  destruct (derive_geometry cfg) as [[[depth n_top] n_sub]|e] eqn:Eg.
  2: { apply wp_bnd. exists nx, o. split_and!; try done. by left. }
  pose proof (derive_geometry_ok cfg _ Eg) as Hg. pose proof Hg as [Hn Hgd]. apply wp_bnd, wp_ret.
  assert (forall k dp buf, 2 <= k <= MAX_BUCKETS -> len buf = MAX_PAYLOAD -> exists j, dir_format k dp buf = dir_bytes KVHASH_DIR_MAGIC KVHASH_VERSION dp (replicate (Z.to_nat k) 0) ++ j /\
    len (dir_format k dp buf) = MAX_PAYLOAD /\ len (replicate (Z.to_nat k) 0) = k) as Hfmt.
  { intros k dp buf Hk Hb. rewrite dir_format_spec by lia. eexists. split; [done|].
    assert (len (replicate (Z.to_nat k) 0) = k) as El by (unfold len; rewrite length_replicate; lia). split; [|done].
    rewrite len_app, len_dir_bytes, El. pose proof (dir_image_fits KVHASH_VERSION dp (replicate (Z.to_nat k) 0) ltac:(lia)) as Hf.
    rewrite len_dir_bytes, El in Hf. unfold dir_len, DIR_HDR_LEN in *. rewrite len_zd by lia. lia. }
  destruct (Z.eqb_spec depth 1) as [->|Hd].
  - apply wp_bnd, wp_mod. destruct (Hfmt n_top 1 (dir_buf s) Hn ltac:(apply Hh)) as (j & Ef & El & Ec). rewrite Ef in *.
    set (s1 := set_dir _ s). pose proof (publish_spec n nx nx o o s1 root KVHASH_VERSION 1 (replicate (Z.to_nat n_top) 0) j (1, n_top, n_sub) []) as Q.
    rewrite Ec in Q. apply Q; try done; try lia.
    + destruct Hh0 as (H1 & H2 & H3). by split_and!.
    + cbn. rewrite leaf_objs_empty. apply stored_new; [apply not_elem_of_nil|done|]. by split; constructor.
  - destruct Hgd as [[? _]|[-> ->]]; [done|]. apply wp_bnd, wp_mod, wp_bnd, wp_mod.
    destruct (Hfmt n_top 2 (dir_buf s) Hn ltac:(apply Hh)) as (j & Ef & El & Ec). cbn [bkt_buf set_dir].
    destruct (Hfmt n_top 1 (bkt_buf s) Hn ltac:(apply Hh)) as (k & Ef' & El' & _). rewrite Ef, Ef' in *.
    set (s1 := set_bkt _ _). apply wp_bnd. change (create_subs (Z.to_nat n_top) 0 n_top) with (create_subs (D := D) (Z.to_nat n_top) (len (@nil Z)) n_top).
    eapply wp_mono; [apply (create_subs_spec nx o (Z.to_nat n_top) n_top j (Z.to_nat n_top) n s1 [] nx o)|].
    all: try done; try lia.
    + apply dir_image_fits. lia.
    + destruct Hh as (H1 & H2 & H3). split_and!; cbn; try done. eapply holds_le; [|exact H1]. lia.
    + by exists k.
    + by split; constructor.
    + cbv beta. intros r s2 (nx2 & o2 & Hh2 & Hle & Hbel & Hres). destruct r as [[]|e].
      2: { exists nx2, o2. split_and!; try done. by right. }
      destruct Hres as (ids & Hl & Hdir & Hst & Hids). pose proof (khold_wf _ _ _ _ Hh2) as Hwf2.
      assert (len ids = n_top) as Eids by (unfold len; lia). 
      assert (Forall (fun id => 0 < id < 2 ^ 64) ids) as Hid64.
      { apply list.Forall_forall. intros id Hin. assert (id ∈ ((fun id => (id, leaf_img n_top)) <$> ids).*1) as Hin' by (rewrite <- list_fmap_compose; by rewrite list_fmap_id).
        destruct (stored_id _ _ _ Hst Hin') as [b Hb]. pose proof (obs_wf_lookup _ _ _ _ _ Hwf2 Hb). pose proof (proj1 Hwf2). lia. }
      pose proof (publish_spec n nx nx2 o o2 s2 root KVHASH_VERSION 2 ids j (2, n_top, n_top) ids) as Q. rewrite Eids in Q. apply Q; try done; try lia.
      cbn. assert (top_dir KVHASH_VERSION (empty_leaf n_top <$> ids) = dir_bytes KVHASH_DIR_MAGIC KVHASH_VERSION 2 ids) as ->.
      { unfold top_dir. rewrite <- list_fmap_compose. by rewrite list_fmap_id. }
      assert ((empty_leaf n_top <$> ids) ≫= leaf_objs = (fun id => (id, leaf_img n_top)) <$> ids) as ->.
      { clear. induction ids as [|id ids IH]; [done|]. cbn [fmap list_fmap mbind list_bind]. rewrite leaf_objs_empty. cbn. by f_equal. }
      apply stored_new; [|done|done]. rewrite <- list_fmap_compose. rewrite list_fmap_id. rewrite list.Forall_forall in Hids. intros Hin. specialize (Hids _ Hin). cbn in Hids. lia.
Qed.
End create.
