(* ===== verification/KvHashWalk.v ===== *)
(** Visiting every bucket of a kvhash map: sub-maps and buckets in index order,
    the entry count, and [kvhash_stat()]; then [kvhash_next()], which visits the
    entries one call at a time. *)

From S2P Require Import BlobIface Prelude Layout Records KvHash KvHashRep KvHashRead KvHashOps.

Section walk.
Context `{Crc} {D : Type} `{!Blobs D} {CL : CrcLaws _} {L : BlobLaws D}.
Notation MAX_PAYLOAD := (blob_max (D := D)).
Notation kvh := (kvh (D := D)).
Context (Hmax : 24 <= MAX_PAYLOAD <= ENT_LEN_MASK).
Implicit Types (s : kvh) (o : objs) (t : kvtree) (l : kleaf).

(** ** Parts of a stored tree *)

Lemma leaf_bkt_stored o l i b : stored o (leaf_objs l) -> lf_bkts l !! i = Some b -> stored o (bkt_objs b).
Proof. intros Hs Hb. rewrite (leaf_split l i b Hb), stored_cons, stored_app in Hs. apply Hs. Qed.

Lemma sub_stored o root ver subs i l : stored o (tree_objs (Tree root ver subs)) -> subs !! i = Some l -> stored o (leaf_objs l).
Proof. intros Hs Hl. cbn in Hs. rewrite stored_cons, (bind_take_out leaf_objs _ i l Hl), stored_app in Hs. apply Hs. Qed.

Lemma leaf_child l i b junk : leaf_ok (D := D) l -> lf_bkts l !! i = Some b -> dir_child (leaf_dir l ++ junk) (Z.of_nat i) = b.1.
Proof.
  intros Hl Hb. apply dir_child_at; [apply (dv_ids _ _ _ _ (leaf_valid l Hl))|]. by rewrite list_lookup_fmap, Hb.
Qed.

(** Reading the bucket [b] of leaf [l]. *)
Lemma leaf_get_bkt n nx o s l i b : khold n nx o s -> leaf_ok (D := D) l -> stored o (leaf_objs l) -> lf_bkts l !! i = Some b -> b.1 <> 0 ->
  wp (get_bkt b.1) s (or_fault n nx o (fun got s' => got = len (bkt_bytes b.2) /\ starts (bkt_bytes b.2) (bkt_buf s') /\ dir_buf s' = dir_buf s)).
Proof.
  intros Hh Hl Hs Hb Hne. pose proof (leaf_bkt_stored o l i b Hs Hb) as Hbs. destruct (bkt_parts o b) as [Hbo _]; [unfold spilled; by destruct (Z.eqb_spec b.1 0)|done|].
  apply get_bkt_spec; [done|apply (bo_id _ _ _ (lo_bkts _ Hl i b Hb))|done].
Qed.

Lemma sub_load_spec n nx o s l : khold n nx o s -> leaf_ok (D := D) l -> stored o (leaf_objs l) ->
  wp (sub_load (lf_id l)) s (or_fault n nx o (fun k s' => k = len (lf_bkts l) /\ starts (leaf_dir l) (dir_buf s') /\ bkt_buf s' = bkt_buf s)).
Proof.
  intros Hh Hl Hs. pose proof (lo_id _ Hl). unfold sub_load. destruct (Z.eqb_spec (lf_id l) 0); [lia|].
  eapply wp_orf; [apply (dir_load_spec Hmax n nx o s); [done|lia|by apply leaf_dir_stored|by apply leaf_valid]| |by intros; split].
  intros r s1 Hh1 (-> & Hst & Hb). cbn [Z.eqb Pos.eqb]. rewrite len_fmap. by apply orf_ret.
Qed.

Section tree.
Context (root ver : Z) (subs : list kleaf).
Notation t := (Tree root ver subs).

Lemma top_load_spec n nx o s : khold n nx o s -> tree_ok (D := D) t -> stored o (tree_objs t) ->
  wp (dir_load root) s (or_fault n nx o (fun r s' => r = (len subs, 2) /\ starts (top_dir ver subs) (dir_buf s') /\ bkt_buf s' = bkt_buf s)).
Proof.
  intros Hh Ht Hs. assert (o !! root = Some (top_dir ver subs)) as Htop by (cbn in Hs; rewrite stored_cons in Hs; apply Hs).
  pose proof Ht as (_ & _ & Hroot & _). rewrite <- (len_fmap lf_id subs).
  eapply (dir_load_spec Hmax n nx o s root ver 2 (lf_id <$> subs)); [done|lia|exact Htop|by eapply top_valid].
Qed.

Lemma top_child_at junk i l : tree_ok (D := D) t -> subs !! i = Some l -> dir_child (top_dir ver subs ++ junk) (Z.of_nat i) = lf_id l.
Proof.
  intros Ht Hl. apply dir_child_at; [apply (dv_ids _ _ _ _ (top_valid _ _ _ Ht))|]. by rewrite list_lookup_fmap, Hl.
Qed.

Lemma top_child_spec n nx o s i l : khold n nx o s -> tree_ok (D := D) t -> stored o (tree_objs t) -> subs !! i = Some l ->
  wp (top_child root (Z.of_nat i)) s (or_fault n nx o (fun id s' => id = lf_id l /\ bkt_buf s' = bkt_buf s)).
Proof.
  intros Hh Ht Hs Hl. unfold top_child. eapply wp_orf; [by apply (top_load_spec n nx o s)| |by intros; split].
  intros r s1 Hh1 (-> & [junk Hj] & Hb). pose proof (lookup_lt_Some _ _ _ Hl). destruct (Z.geb_spec (Z.of_nat i) (len subs)); [unfold len in *; lia|].
  apply wp_gets. split; [done|]. split; [|done]. rewrite Hj. by apply top_child_at.
Qed.
End tree.

(** ** Counting *)

Lemma leaf_count_loop_spec fuel n nx o s l i acc : khold n nx o s -> leaf_ok (D := D) l -> stored o (leaf_objs l) -> starts (leaf_dir l) (dir_buf s) ->
  (i + fuel = length (lf_bkts l))%nat -> 0 <= acc < 2 ^ 32 ->
  wp (leaf_count_loop fuel (Z.of_nat i) acc) s (or_fault n nx o (fun c _ => c = u32 (acc + len (drop i (lf_bkts l) ≫= snd)))).
Proof.
  intros Hh Hl Hs. revert s i acc Hh. induction fuel as [|fuel IH]; intros s i acc Hh [junk Hj] Hi Ha; cbn [leaf_count_loop].
  - rewrite drop_ge by lia. change (len (@nil (Z * list kent) ≫= snd)) with 0. apply orf_ret; [done|]. rewrite u32_small by lia. lia.
  - destruct (lookup_lt_is_Some_2 (lf_bkts l) i ltac:(lia)) as [b Hb]. rewrite (drop_S _ b i Hb). cbn [mbind list_bind]. rewrite len_app.
    apply wp_bnd, wp_gets. rewrite Hj, (leaf_child l i b) by done. replace (Z.of_nat i + 1) with (Z.of_nat (S i)) by lia.
    destruct (Z.eqb_spec b.1 0) as [E0|E0].
    + rewrite (bo_empty _ _ _ (lo_bkts _ Hl i b Hb) E0). change (len []) with 0. rewrite Z.add_0_l. apply IH; [done|by exists junk|lia|lia].
    + eapply wp_orf; [by apply (leaf_get_bkt n nx o s l i b)| |by intros; split]. intros used s1 Hh1 (-> & [j2 Hj2] & Hd1).
      apply wp_bnd, wp_gets. rewrite Hj2. unfold bkt_entries. rewrite parse_bkt by apply (lo_bkts _ Hl i b Hb). rewrite len_parsed.
      eapply orf_mono; [apply IH; [done|exists junk; by rewrite Hd1|lia|unfold u32; apply Z.mod_pos_bound; lia]|]. intros c s2 _ ->. unfold u32.
      rewrite Zplus_mod_idemp_l. f_equal. unfold mbind. lia.
Qed.

Lemma leaf_count_spec n nx o s l acc : khold n nx o s -> leaf_ok (D := D) l -> stored o (leaf_objs l) -> starts (leaf_dir l) (dir_buf s) -> 0 <= acc < 2 ^ 32 ->
  wp (leaf_count (len (lf_bkts l)) acc) s (or_fault n nx o (fun c _ => c = u32 (acc + len (leaf_ents l)))).
Proof.
  intros Hh Hl Hs Hst Ha. unfold leaf_count, len at 1. rewrite Nat2Z.id. apply (leaf_count_loop_spec _ n nx o s l 0 acc); done.
Qed.

Lemma tree_count_loop_spec fuel n nx o s root ver subs i sub acc : khold n nx o s -> tree_ok (D := D) (Tree root ver subs) -> stored o (tree_objs (Tree root ver subs)) ->
  (i + fuel = length subs)%nat -> 0 <= acc < 2 ^ 32 -> (i = 0%nat -> forall l, subs !! 0%nat = Some l -> sub = lf_id l) ->
  wp (tree_count_loop fuel root (Z.of_nat i) sub acc) s (or_fault n nx o (fun c _ => c = u32 (acc + len (drop i subs ≫= leaf_ents)))).
Proof.
  intros Hh Ht Hs Hi Ha Hsub. revert s i sub acc Hh Hi Ha Hsub. induction fuel as [|fuel IH]; intros s i sub acc Hh Hi Ha Hsub; cbn [tree_count_loop].
  - rewrite drop_ge by lia. change (len (@nil kleaf ≫= leaf_ents)) with 0. apply orf_ret; [done|]. rewrite u32_small by lia. lia.
  - destruct (lookup_lt_is_Some_2 subs i ltac:(lia)) as [l Hl]. rewrite (drop_S _ l i Hl). cbn [mbind list_bind]. rewrite len_app.
    assert (leaf_ok (D := D) l) as Hlo by (destruct Ht as (_ & _ & _ & Hf & _); by eapply Forall_lookup_1).
    pose proof (sub_stored o root ver subs i l Hs Hl) as Hls.
    assert (wp (if Z.of_nat i =? 0 then mret sub else top_child root (Z.of_nat i)) s (or_fault n nx o (fun id _ => id = lf_id l))) as Hid.
    { destruct (Z.eqb_spec (Z.of_nat i) 0).
      - apply orf_ret; [done|]. apply Hsub; [lia|]. by replace 0%nat with i by lia.
      - eapply orf_mono; [by apply (top_child_spec root ver subs n nx o s i l)|]. by intros id s' _ [-> _]. }
    eapply wp_orf; [exact Hid| |by intros; split]. intros id s1 Hh1 ->.
    eapply wp_orf; [by apply (sub_load_spec n nx o s1 l)| |by intros; split]. intros k s2 Hh2 (-> & Hst & _).
    eapply wp_orf; [by apply (leaf_count_spec n nx o s2 l acc)| |by intros; split]. intros c s3 Hh3 ->.
    replace (Z.of_nat i + 1) with (Z.of_nat (S i)) by lia.
    eapply orf_mono; [apply IH; [done|lia|unfold u32; apply Z.mod_pos_bound; lia|lia]|]. intros c s4 _ ->. unfold u32.
    rewrite Zplus_mod_idemp_l. f_equal. unfold mbind. lia.
Qed.

(** No key occurs twice. *)
Lemma leaf_keys l : leaf_ok (D := D) l -> NoDup (k_key <$> leaf_ents l).
Proof.
  intros Hl. unfold leaf_ents. assert (forall i bs, drop i (lf_bkts l) = bs -> NoDup (k_key <$> (bs ≫= snd))) as Hd; [|by apply (Hd 0%nat)].
  intros i bs. revert i. induction bs as [|b bs IH]; intros i Hi; [constructor|]. cbn [mbind list_bind]. rewrite fmap_app.
  assert (lf_bkts l !! i = Some b) as Hb. { rewrite <- (Nat.add_0_r i), <- lookup_drop, Hi. done. }
  apply list.NoDup_app. split_and!; [apply (lo_bkts _ Hl i b Hb)| |apply (IH (S i))].
  - intros k Hk Hk'. apply list_elem_of_fmap in Hk as (e & -> & He). apply list_elem_of_fmap in Hk' as (e' & Hke & He').
    apply list_elem_of_bind in He' as (b' & He' & Hb'). apply list_elem_of_lookup in Hb' as [j Hj].
    assert (lf_bkts l !! (i + S j)%nat = Some b') as Hb'. { rewrite <- lookup_drop, Hi. done. }
    pose proof (bo_place _ _ _ (lo_bkts _ Hl _ _ Hb)) as P1. pose proof (bo_place _ _ _ (lo_bkts _ Hl _ _ Hb')) as P2.
    rewrite list.Forall_forall in P1, P2. specialize (P1 _ He). specialize (P2 _ He'). rewrite <- Hke in P2. lia.
  - replace (S i) with (i + 1)%nat by lia. rewrite <- drop_drop, Hi. done.
Qed.

Lemma tree_keys t : tree_ok (D := D) t -> NoDup (k_key <$> tree_ents t).
Proof.
  unfold tree_ents. destruct t as [l|root ver subs]; cbn [leaves].
  - intros Hl. cbn [mbind list_bind]. rewrite app_nil_r. by apply leaf_keys.
  - intros (_ & _ & _ & Hl & Hp). assert (forall i ls, drop i subs = ls -> NoDup (k_key <$> (ls ≫= leaf_ents))) as Hd; [|by apply (Hd 0%nat)].
    intros i ls. revert i. induction ls as [|l ls IH]; intros i Hi; [constructor|]. cbn [mbind list_bind]. rewrite fmap_app.
    assert (subs !! i = Some l) as Hb. { rewrite <- (Nat.add_0_r i), <- lookup_drop, Hi. done. }
    apply list.NoDup_app. split_and!; [apply leaf_keys; by eapply Forall_lookup_1| |apply (IH (S i))].
    + intros k Hk Hk'. apply list_elem_of_fmap in Hk as (e & -> & He). apply list_elem_of_fmap in Hk' as (e' & Hke & He').
      apply list_elem_of_bind in He' as (l' & He' & Hl'). apply list_elem_of_lookup in Hl' as [j Hj].
      assert (subs !! (i + S j)%nat = Some l') as Hl'. { rewrite <- lookup_drop, Hi. done. }
      pose proof (Hp _ _ Hb) as P1. pose proof (Hp _ _ Hl') as P2.
      rewrite list.Forall_forall in P1, P2. specialize (P1 _ He). specialize (P2 _ He'). rewrite <- Hke in P2. lia.
    + replace (S i) with (i + 1)%nat by lia. rewrite <- drop_drop, Hi. done.
Qed.

Lemma tree_map_size t : tree_ok (D := D) t -> Z.of_nat (size (tree_map t)) = len (tree_ents t).
Proof.
  intros Ht. unfold tree_map, len. rewrite <- (length_fmap ent_pair). f_equal. apply map_size_list_to_map.
  rewrite <- list_fmap_compose. change (fst ∘ ent_pair) with k_key. by apply tree_keys.
Qed.

Lemma count_spec n nx o s root m : khold n nx o s -> kvmap o root m ->
  wp (kvhash_count root false) s (or_fault n nx o (fun c _ => c = u32 (Z.of_nat (size m)))).
Proof.
  intros Hh (t & <- & Ht & Hs & ->). rewrite (tree_map_size t Ht). unfold kvhash_count. destruct t as [l|root ver subs]; cbn [tree_root].
  - unfold tree_ents. cbn [leaves mbind list_bind]. rewrite app_nil_r. pose proof (lo_id _ Ht).
    eapply wp_orf; [apply (dir_load_spec Hmax n nx o s); [done|lia|by apply leaf_dir_stored|by apply leaf_valid]| |by intros; split].
    intros r s1 Hh1 (-> & Hst & _). cbn [Z.eqb Pos.eqb]. rewrite len_fmap. rewrite <- (Z.add_0_l (len (leaf_ents l))). by apply leaf_count_spec.
  - eapply wp_orf; [by apply (top_load_spec root ver subs n nx o s)| |by intros; split]. intros r s1 Hh1 (-> & [junk Hj] & _). cbn [Z.eqb Pos.eqb].
    apply wp_bnd, wp_gets. unfold len at 1. rewrite Nat2Z.id, <- (Z.add_0_l (len (tree_ents _))). apply (tree_count_loop_spec _ n nx o s1 root ver subs 0); try done.
    intros _ l Hl. rewrite Hj. by apply (top_child_at root ver subs junk 0).
Qed.

(** ** stat *)

Definition tree_info t : map_info :=
  match t with
  | Flat l => fill_info (D := D) 1 (len (lf_bkts l)) 0
  | Tree _ _ subs => fill_info (D := D) 2 (len subs) (match subs with l :: _ => len (lf_bkts l) | [] => 0 end)
  end.

Lemma stat_spec n nx o s t : khold n nx o s -> tree_ok (D := D) t -> stored o (tree_objs t) ->
  wp (kvhash_stat (tree_root t) false) s (or_fault n nx o (fun r _ => r = tree_info t)).
Proof.
  intros Hh Ht Hs. unfold kvhash_stat. destruct t as [l|root ver subs]; cbn [tree_root].
  - pose proof (lo_id _ Ht). eapply wp_orf; [apply (dir_load_spec Hmax n nx o s); [done|lia|by apply leaf_dir_stored|by apply leaf_valid]| |by intros; split].
    intros r s1 Hh1 (-> & Hst & _). cbn [Z.eqb Pos.eqb]. rewrite len_fmap. by apply orf_ret.
  - eapply wp_orf; [by apply (top_load_spec root ver subs n nx o s)| |by intros; split]. intros r s1 Hh1 (-> & [junk Hj] & _). cbn [Z.eqb Pos.eqb].
    apply wp_bnd, wp_gets. pose proof Ht as (Hn & _ & _ & Hf & _). destruct (lookup_lt_is_Some_2 subs 0 ltac:(unfold len in Hn; lia)) as [l Hl].
    rewrite Hj. pose proof (top_child_at root ver subs junk 0 l Ht Hl) as Ec. change (Z.of_nat 0) with 0 in Ec. rewrite Ec.
    assert (leaf_ok (D := D) l) as Hlo by by eapply Forall_lookup_1. pose proof (lo_id _ Hlo). destruct (Z.eqb_spec (lf_id l) 0); [lia|].
    eapply wp_orf; [apply (dir_load_spec Hmax n nx o s1); [done|lia|by apply leaf_dir_stored, (sub_stored o root ver subs 0)|by apply leaf_valid]| |by intros; split].
    intros r s2 Hh2 (-> & _). apply orf_ret; [done|]. rewrite len_fmap. destruct subs as [|l0 subs]; [done|]. injection Hl as <-. done.
Qed.
End walk.

(** The enumeration order of kvhash and [kvhash_next()]: the first entry after
    the cursor in that order, so that a walk passes every entry once. *)

From Stdlib Require Import Sorting.Sorted.
From stdpp Require Import lexico.

Lemma wp_unbnd {T A B} (m : M T A) (k : A -> M T B) (s : T) (Q : res B -> T -> Prop) :
  wp (mbnd m k) s Q -> wp m s (fun r s' => match r with Ok a => wp (k a) s' Q | Err e => Q (Err e) s' end).
Proof. unfold wp, mbnd. by destruct (m s) as [[a|e] s']. Qed.

(** ** memcmp() is the lexicographic order *)

Lemma lex_cons (x y : Z) (a b : bytes) : lexico (x :: a) (y :: b) <-> x < y \/ (x = y /\ lexico a b).
Proof. done. Qed.

Lemma memcmp_lex a b : length a = length b -> memcmp a b < 0 <-> lexico a b.
Proof.
  revert b. induction a as [|x a IH]; intros [|y b] Hl; cbn [memcmp]; try done. rewrite lex_cons. cbn in Hl. specialize (IH b ltac:(lia)).
  destruct (Z.eqb_spec x y) as [->|Hne]; [rewrite IH; split; [by right|intros [?|[_ ?]]; [lia|done]]|].
  destruct (Z.ltb_spec x y); split; try lia.
Qed.

(** ** The first entry after a cursor *)

Section least.
Context (rk : bytes -> list Z) (cur : option bytes).

Definition after (k : bytes) : Prop := match cur with Some c => lexico (rk c) (rk k) | None => True end.

(** [r] is the entry of [es] after the cursor that no other one precedes. *)
Definition least (es : list kent) (r : option kent) : Prop :=
  match r with
  | Some x => x ∈ es /\ after (k_key x) /\ forall y, y ∈ es -> after (k_key y) -> k_key y = k_key x \/ lexico (rk (k_key x)) (rk (k_key y))
  | None => forall y, y ∈ es -> ~ after (k_key y)
  end.

Lemma least_nil : least [] None.
Proof. by intros y ?%not_elem_of_nil. Qed.

Lemma least_app_left es es' x : least es (Some x) -> (forall y, y ∈ es' -> lexico (rk (k_key x)) (rk (k_key y))) -> least (es ++ es') (Some x).
Proof.
  intros (Hx & Ha & Hl) Hr. split; [apply elem_of_app; by left|]. split; [done|]. intros y [Hy|Hy]%elem_of_app Hay; [by apply Hl|right; by apply Hr].
Qed.

Lemma least_app_right es es' r : least es None -> least es' r -> least (es ++ es') r.
Proof.
  intros Hn Hr. destruct r as [x|].
  - destruct Hr as (Hx & Ha & Hl). split; [apply elem_of_app; by right|]. split; [done|]. intros y [Hy|Hy]%elem_of_app Hay; [by destruct (Hn y Hy)|by apply Hl].
  - intros y [Hy|Hy]%elem_of_app; [by apply Hn|by apply Hr].
Qed.

(** One more entry is compared with the best so far. *)
Lemma least_skip es e r : least es r -> ~ after (k_key e) -> least (es ++ [e]) r.
Proof.
  intros Hl Hn. destruct r as [x|].
  - destruct Hl as (Hx & Ha & Hl). split; [apply elem_of_app; by left|]. split; [done|].
    intros y [Hy| ->%list_elem_of_singleton]%elem_of_app Hay; [by apply Hl|done].
  - intros y [Hy| ->%list_elem_of_singleton]%elem_of_app; [by apply Hl|done].
Qed.

Lemma least_keep es e x : least es (Some x) -> k_key e = k_key x \/ lexico (rk (k_key x)) (rk (k_key e)) -> least (es ++ [e]) (Some x).
Proof.
  intros (Hx & Ha & Hl) He. split; [apply elem_of_app; by left|]. split; [done|].
  intros y [Hy| ->%list_elem_of_singleton]%elem_of_app Hay; [by apply Hl|done].
Qed.

Lemma least_new es e r : least es r -> after (k_key e) -> (forall x, r = Some x -> lexico (rk (k_key e)) (rk (k_key x))) -> least (es ++ [e]) (Some e).
Proof.
  intros Hl Ha Hr. split; [apply elem_of_app; right; left|]. split; [done|]. intros y [Hy| ->%list_elem_of_singleton]%elem_of_app Hay; [|by left].
  destruct r as [x|]; [|by destruct (Hl y Hy)]. destruct Hl as (_ & _ & Hl). specialize (Hr x eq_refl). right. destruct (Hl y Hy Hay) as [->|Hxy]; [done|].
  by transitivity (rk (k_key x)).
Qed.
End least.

(** Only the order among the entries and the cursor counts. *)
Lemma least_iff rk rk' cur cur' es r : (forall y, y ∈ es -> after rk cur (k_key y) <-> after rk' cur' (k_key y)) ->
  (forall x y, x ∈ es -> y ∈ es -> lexico (rk (k_key x)) (rk (k_key y)) <-> lexico (rk' (k_key x)) (rk' (k_key y))) ->
  least rk cur es r -> least rk' cur' es r.
Proof.
  intros Ha Hl. destruct r as [x|]; cbn.
  - intros (Hx & Hax & Hr). split; [done|]. split; [by apply Ha|]. intros y Hy Hay. destruct (Hr y Hy) as [->|?]; [by apply Ha|by left|]. right. by apply Hl.
  - intros Hn y Hy Hay. apply (Hn y Hy). by apply Ha.
Qed.

Section next.
Context `{Crc} {D : Type} `{!Blobs D} {CL : CrcLaws _} {L : BlobLaws D}.
Notation MAX_PAYLOAD := (blob_max (D := D)).
Notation kvh := (kvh (D := D)).
Context (Hmax : 24 <= MAX_PAYLOAD <= ENT_LEN_MASK).
Implicit Types (s : kvh) (o : objs) (t : kvtree) (l : kleaf).

(** A key's rank in its bucket, in its leaf, and in the map. *)
Definition bkt_rank (k : bytes) : list Z := len k :: key_fp k :: k.
Definition leaf_rank l (k : bytes) : list Z := Z.of_nat (bkt_index l k) :: bkt_rank k.
Definition walk_rank t (k : bytes) : list Z :=
  Z.of_nat (sub_index t k) :: match leaves t !! sub_index t k with Some l => leaf_rank l k | None => bkt_rank k end.

Lemma rank_lex a b : lexico (bkt_rank a) (bkt_rank b) <->
  len a < len b \/ (len a = len b /\ (key_fp a < key_fp b \/ (key_fp a = key_fp b /\ lexico a b))).
Proof. done. Qed.

(** ** Comparing keys *)

Definition okey_is o (a : okey) (k : bytes) : Prop := ok_kl a = len k /\ ok_fp a = key_fp k /\ src_is o (ok_src a) k.

Lemma okey_cmp_spec n nx o s a b ka kb : khold n nx o s -> okey_is o a ka -> okey_is o b kb ->
  wp (okey_cmp a b) s (or_fault n nx o (fun c s' => (c < 0 <-> lexico (bkt_rank ka) (bkt_rank kb)) /\ (c = 0 <-> ka = kb) /\ bufs_kept s s')).
Proof.
  intros Hh (Hal & Haf & Has) (Hbl & Hbf & Hbs). unfold okey_cmp. rewrite Hal, Hbl, Haf, Hbf.
  destruct (Z.eqb_spec (len ka) (len kb)) as [El|El]; cbn [negb].
  2: { apply orf_ret; [done|]. split_and!; [rewrite rank_lex|split; [destruct (len ka <? len kb); lia|by intros ->]|done..]. destruct (Z.ltb_spec (len ka) (len kb)); lia. }
  destruct (Z.eqb_spec (key_fp ka) (key_fp kb)) as [Ef|Ef]; cbn [negb].
  2: { apply orf_ret; [done|]. split_and!; [rewrite rank_lex|split; [destruct (key_fp ka <? key_fp kb); lia|by intros ->]|done..]. destruct (Z.ltb_spec (key_fp ka) (key_fp kb)); lia. }
  eapply orf_mono; [by apply (key_cmp_bytes_spec n nx o s (ok_src a) (ok_src b) ka kb false)|]. intros c s' _ (-> & Hb & Hd).
  assert (length ka = length kb) as Hlen by (unfold len in El; lia). split_and!; [|by apply memcmp_eq|split; auto].
  rewrite memcmp_lex by done. rewrite rank_lex, El, Ef. split; [tauto|]. intros [?|[_ [?|[_ ?]]]]; [lia|lia|done].
Qed.

Lemma ent_okey_is o buf off x : packed buf off x -> kent_ok x -> parts_stored o x -> okey_is o (ent_okey buf (ent_of off x)) (k_key x).
Proof.
  intros Hp Hx Hst. split; [done|]. split; [|by apply ent_src]. cbn [ent_okey ok_fp]. unfold ent_fp. cbn [ent_of e_kspill e_kl]. unfold spilled.
  destruct (Z.eqb_spec (k_kid x) 0) as [E0|E0]; cbn [negb].
  - by rewrite (key_inline buf off x Hp E0).
  - by destruct (key_spilled buf off x Hp Hx E0 (key_fp_range _)) as [-> _].
Qed.

(** ** One bucket *)

(** The search came upon the first entry after the cursor, found none, or met a
    fault; [d] is in dir_buf. *)
Definition picked (n : nat) (nx : Z) o (d : bytes) (rk : bytes -> list Z) (cur : option bytes) (es : list kent) (r : res Z) s : Prop :=
  khold n nx o s /\
  ((dir_buf s = d /\
    ((exists off x, r = Ok off /\ least rk cur es (Some x) /\ packed (bkt_buf s) off x /\ off + len (enc_kent x) <= MAX_PAYLOAD) \/
     (r = Err ENODATA /\ least rk cur es None))) \/
   exists e, fault e /\ r = Err e).

Definition cursor_is o (cursor : option okey) (cur : option bytes) : Prop :=
  match cursor, cur with Some a, Some k => okey_is o a k | None, None => True | _, _ => False end.

Definition best_is (buf : bytes) (best : option (Z * ent)) (r : option kent) : Prop :=
  match best, r with
  | Some (off, e), Some x => e = ent_of off x /\ packed buf off x /\ off + len (enc_kent x) <= MAX_PAYLOAD
  | None, None => True
  | _, _ => False
  end.

Lemma first_after_loop_spec n nx o s d buf pre es post cursor cur best r : khold n nx o s -> dir_buf s = d -> bkt_buf s = buf ->
  buf = bkt_bytes (pre ++ es) ++ post -> len (bkt_bytes (pre ++ es)) <= MAX_PAYLOAD ->
  Forall kent_ok (pre ++ es) -> Forall (parts_stored o) (pre ++ es) -> cursor_is o cursor cur -> best_is buf best r -> least bkt_rank cur pre r ->
  wp (first_after_loop (parsed (len (bkt_bytes pre)) es) buf cursor best) s (picked n nx o d bkt_rank cur (pre ++ es)).
Proof.
  intros Hh Hd Hb Hbuf Hfit Hok Hst Hcur. revert s pre best r Hh Hd Hb Hbuf Hfit Hok Hst.
  induction es as [|e es IH]; intros s pre best r Hh Hd Hb Hbuf Hfit Hok Hst Hbest Hl; cbn [parsed first_after_loop].
  - rewrite app_nil_r. destruct best as [[off be]|], r as [x|]; try done; cbn in Hbest; (split; [done|left; split; [done|]]).
    + left. exists off, x. rewrite Hb. destruct Hbest as (_ & ? & ?). by split_and!.
    + by right.
  - set (off := len (bkt_bytes pre)).
    assert (packed buf off e) as Hp. { rewrite Hbuf, bkt_bytes_app, bkt_bytes_cons, <- !app_assoc. apply packed_here. }
    pose proof Hok as Hok'. pose proof Hst as Hst'. rewrite list.Forall_app, list.Forall_cons in Hok', Hst'. destruct Hok' as (Hokp & Hoke & _), Hst' as (Hstp & Hste & _).
    pose proof (ent_okey_is o buf off e Hp Hoke Hste) as Hke.
    assert (off + len (enc_kent e) <= MAX_PAYLOAD) as Hoff.
    { rewrite bkt_bytes_app, bkt_bytes_cons, !len_app in Hfit. pose proof (len_nonneg (bkt_bytes es)). unfold off. lia. }
    assert (pre ++ e :: es = (pre ++ [e]) ++ es) as Eapp by by rewrite <- app_assoc.
    assert (forall s' best' r', khold n nx o s' -> bufs_kept s s' -> best_is buf best' r' -> least bkt_rank cur (pre ++ [e]) r' ->
      wp (first_after_loop (parsed (off + e_len (ent_of off e)) es) buf cursor best') s' (picked n nx o d bkt_rank cur (pre ++ e :: es))) as Hnext.
    { intros s' best' r' Hh' [Hd' Hb'] Hbest' Hl'. rewrite Eapp in *. cbn [ent_of e_len].
      assert (off + len (enc_kent e) = len (bkt_bytes (pre ++ [e]))) as ->.
      { rewrite bkt_bytes_app, len_app. f_equal. by rewrite bkt_bytes_cons, len_app, Z.add_0_r. }
      apply (IH s' (pre ++ [e]) best' r'); try done; congruence. }
    assert (wp (match cursor with Some c => okey_cmp (ent_okey buf (ent_of off e)) c | None => mret 1 end) s
      (or_fault n nx o (fun c s' => (0 < c <-> after bkt_rank cur (k_key e)) /\ bufs_kept s s'))) as Hc1.
    { unfold cursor_is in Hcur. destruct cursor as [a|], cur as [k|]; try done.
      - eapply orf_mono; [by apply (okey_cmp_spec n nx o s _ _ (k_key e) k)|]. intros c s' _ (Hlt & Heq & Hk). split; [|done]. unfold after.
        destruct (trichotomyT lexico (bkt_rank k) (bkt_rank (k_key e))) as [[Hx|Hx]|Hx].
        + split; [done|]. intros _. destruct (Z.lt_trichotomy c 0) as [Hc|[Hc|Hc]]; [|apply Heq in Hc; subst k; by destruct (irreflexivity lexico (bkt_rank (k_key e)))|done].
          apply Hlt in Hc. destruct (irreflexivity lexico (bkt_rank k)). by transitivity (bkt_rank (k_key e)).
        + assert (k_key e = k) as Ek by (unfold bkt_rank in Hx; congruence). apply Heq in Ek. split; [lia|]. intros Hx'. rewrite Hx in Hx'. by destruct (irreflexivity lexico (bkt_rank (k_key e))).
        + apply Hlt in Hx as Hc. split; [lia|]. intros Hx'. destruct (irreflexivity lexico (bkt_rank k)). by transitivity (bkt_rank (k_key e)).
    }
    eapply wp_orf; [exact Hc1| |intros; by split; [|right; eauto]]. intros c1 s1 Hh1 (Hca & Hk1).
    destruct (Z.leb_spec c1 0) as [Hle|Hgt]; [apply (Hnext s1 best r); try done; apply least_skip; [done|]; rewrite <- Hca; lia|].
    apply Hca in Hgt. clear Hca Hc1.
    assert (wp (match best with Some (_, be) => okey_cmp (ent_okey buf (ent_of off e)) (ent_okey buf be) | None => mret (-1) end) s1
      (or_fault n nx o (fun c s' => bufs_kept s1 s' /\ if 0 <=? c then (exists x, r = Some x /\ (k_key e = k_key x \/ lexico (bkt_rank (k_key x)) (bkt_rank (k_key e))))
        else forall x, r = Some x -> lexico (bkt_rank (k_key e)) (bkt_rank (k_key x))))) as Hc2.
    { unfold best_is in Hbest. destruct best as [[boff be]|], r as [x|]; try done.
      - destruct Hbest as (-> & Hbp & _). assert (x ∈ pre) as Hx by apply Hl. rewrite list.Forall_forall in Hokp, Hstp.
        pose proof (ent_okey_is o buf boff x Hbp (Hokp x Hx) (Hstp x Hx)) as Hkx.
        eapply orf_mono; [by apply (okey_cmp_spec n nx o s1 _ _ (k_key e) (k_key x))|]. intros c s' _ (Hlt & Heq & Hk). split; [done|].
        destruct (Z.leb_spec 0 c) as [Hc|Hc]; [|intros y [= <-]; by apply Hlt]. exists x. split; [done|].
        destruct (trichotomyT lexico (bkt_rank (k_key x)) (bkt_rank (k_key e))) as [[Hx'|Hx']|Hx']; [by right| |apply Hlt in Hx'; lia].
        left. unfold bkt_rank in Hx'. congruence.
    }
    eapply wp_orf; [exact Hc2| |intros; by split; [|right; eauto]]. intros c2 s2 Hh2 (Hk2 & Hcb).
    assert (bufs_kept s s2) as Hk by (destruct Hk1, Hk2; split; congruence). rewrite Z.geb_leb. destruct (0 <=? c2).
    + destruct Hcb as (x & -> & Hx). apply (Hnext s2 best (Some x)); try done. by apply least_keep.
    + apply (Hnext s2 (Some (off, ent_of off e)) (Some e)); try done. by eapply least_new.
Qed.

Lemma bkt_first_after_spec n nx o s es cursor cur : khold n nx o s -> starts (bkt_bytes es) (bkt_buf s) -> len (bkt_bytes es) <= MAX_PAYLOAD ->
  Forall kent_ok es -> Forall (parts_stored o) es -> cursor_is o cursor cur ->
  wp (bkt_first_after (len (bkt_bytes es)) cursor) s (picked n nx o (dir_buf s) bkt_rank cur es).
Proof.
  intros Hh [junk Hj] Hl Hok Hst Hc. unfold bkt_first_after. apply wp_bnd, wp_gets. rewrite Hj at 1. rewrite parse_bkt by done.
  apply (first_after_loop_spec n nx o s (dir_buf s) (bkt_buf s) [] es junk cursor cur None None); try done. apply least_nil.
Qed.

(** ** One leaf *)

(** From a bucket's order to its leaf's, for the entries of bucket [i]. *)
Lemma leaf_order l i es cur r : Forall (fun e => idx_sub (key_hash (k_key e)) (len (lf_bkts l)) = Z.of_nat i) es ->
  (forall c, cur = Some c -> (bkt_index l c <= i)%nat) ->
  least bkt_rank (match cur with Some c => if (bkt_index l c =? i)%nat then cur else None | None => None end) es r -> least (leaf_rank l) cur es r.
Proof.
  intros Hp Hc. assert (forall y, y ∈ es -> bkt_index l (k_key y) = i) as Hi.
  { intros y Hy. rewrite list.Forall_forall in Hp. unfold bkt_index. rewrite (Hp y Hy). by rewrite Nat2Z.id. }
  apply least_iff.
  - intros y Hy. unfold after. destruct cur as [c|]; [|done]. unfold leaf_rank at 1 2. rewrite lex_cons, (Hi y Hy). specialize (Hc c eq_refl).
    destruct (Nat.eqb_spec (bkt_index l c) i) as [->|Hne]; [|split; [intros _; left; lia|done]]. split; [by right|intros [?|[_ ?]]; [lia|done]].
  - intros x y Hx Hy. unfold leaf_rank. rewrite lex_cons, (Hi x Hx), (Hi y Hy). split; [by right|intros [?|[_ ?]]; [lia|done]].
Qed.

Lemma leaf_later l i e e' : bkt_index l (k_key e) = i -> (i < bkt_index l (k_key e'))%nat -> lexico (leaf_rank l (k_key e)) (leaf_rank l (k_key e')).
Proof. intros <- Hi. unfold leaf_rank. rewrite lex_cons. left. lia. Qed.

Lemma bkt_place l i b e : leaf_ok (D := D) l -> lf_bkts l !! i = Some b -> e ∈ b.2 -> bkt_index l (k_key e) = i.
Proof.
  intros Hl Hb He. pose proof (bo_place _ _ _ (lo_bkts _ Hl i b Hb)) as Hp. rewrite list.Forall_forall in Hp. unfold bkt_index. rewrite (Hp e He). by rewrite Nat2Z.id.
Qed.

(** The result of a leaf search; dir_buf is not needed after it. *)
Definition found_first (n : nat) (nx : Z) o (rk : bytes -> list Z) (cur : option bytes) (es : list kent) (r : res Z) s : Prop :=
  exists d, picked n nx o d rk cur es r s.

Lemma leaf_first_loop_spec fuel n nx o s l i start cursor cur : khold n nx o s -> leaf_ok (D := D) l -> stored o (leaf_objs l) ->
  starts (leaf_dir l) (dir_buf s) -> (i + fuel = length (lf_bkts l))%nat -> (start <= i)%nat -> cursor_is o cursor cur ->
  (forall c, cur = Some c -> start = bkt_index l c) ->
  wp (leaf_first_loop fuel (Z.of_nat i) (Z.of_nat start) cursor) s (found_first n nx o (leaf_rank l) cur (drop i (lf_bkts l) ≫= snd)).
Proof.
  intros Hh Hl Hs Hst Hi Hsi Hcur Hcs. revert s i Hh Hst Hi Hsi. induction fuel as [|fuel IH]; intros s i Hh Hst Hi Hsi; cbn [leaf_first_loop].
  - rewrite drop_ge by lia. exists (dir_buf s). split; [done|left]. split; [done|right]. split; [done|apply least_nil].
  - destruct (lookup_lt_is_Some_2 (lf_bkts l) i ltac:(lia)) as [b Hb]. rewrite (drop_S _ b i Hb). cbn [mbind list_bind]. fold (mbind (M := list) (A := Z * list kent) snd).
    pose proof (lo_bkts _ Hl i b Hb) as Hbk. assert (starts (leaf_dir l) (dir_buf s)) as [junk Hj] by done. apply wp_bnd, wp_gets.
    rewrite Hj, (leaf_child l i b) by done. replace (Z.of_nat i + 1) with (Z.of_nat (S i)) by lia.
    destruct (Z.eqb_spec b.1 0) as [E0|E0]; [rewrite (bo_empty _ _ _ Hbk E0); apply IH; try done; lia|].
    pose proof (leaf_bkt_stored o l i b Hs Hb) as Hbs. destruct (bkt_parts o b) as [_ Hparts]; [unfold spilled; by destruct (Z.eqb_spec b.1 0)|done|].
    eapply wp_orf; [by apply (leaf_get_bkt n nx o s l i b)| |intros e s' ? ?; exists (dir_buf s'); split; [done|right; eauto]]. intros used s1 Hh1 (-> & Hst1 & Hd1).
    apply wp_bnd, wp_try.
    set (cur' := match cur with Some c => if (bkt_index l c =? i)%nat then cur else None | None => None end).
    assert (cursor_is o (if Z.of_nat i =? Z.of_nat start then cursor else None) cur') as Hc'.
    { unfold cur'. destruct cur as [c|]; [|by destruct cursor; destruct (_ =? _)]. rewrite <- (Hcs c eq_refl).
      destruct (Z.eqb_spec (Z.of_nat i) (Z.of_nat start)), (Nat.eqb_spec start i); try lia; [done|by destruct cursor]. }
    eapply wp_mono; [apply (bkt_first_after_spec n nx o s1 b.2 _ cur' Hh1 Hst1); [apply Hbk..|done|done]|]. cbv beta.
    assert (forall r, least bkt_rank cur' b.2 r -> least (leaf_rank l) cur b.2 r) as Hord.
    { intros r. apply leaf_order; [apply Hbk|]. intros c Hc. rewrite <- (Hcs c Hc). done. }
    assert (forall y, y ∈ drop (S i) (lf_bkts l) ≫= snd -> (i < bkt_index l (k_key y))%nat) as Hrest.
    { intros y Hy. apply list_elem_of_bind in Hy as (b' & Hy & Hb'). apply list_elem_of_lookup in Hb' as [j Hj']. rewrite lookup_drop in Hj'.
      rewrite (bkt_place l _ b' y Hl Hj' Hy). lia. }
    intros r s2 [Hh2 [[Hd2 [(off & x & -> & Hlx & Hp & Ho)|(-> & Hn)]]|(e & He & ->)]].
    + exists (dir_buf s2). split; [done|left]. split; [done|left]. exists off, x. split_and!; try done. apply Hord in Hlx.
      apply least_app_left; [done|]. intros y Hy. apply (leaf_later l i); [|by apply Hrest]. apply (bkt_place l i b); try done. apply Hlx.
    + eapply wp_mono; [apply (IH s2 (S i)); try done; [exists junk; congruence|lia|lia]|]. cbv beta. intros r s3 (d & Hh3 & Hr). exists d. split; [done|].
      destruct Hr as [[Hd3 [(off & x & -> & Hlx & Hp & Ho)|(-> & Hn3)]]|Hf]; [left|left|by right]; (split; [done|]).
      * left. exists off, x. split_and!; try done. apply least_app_right; [by apply Hord|done].
      * right. split; [done|]. apply least_app_right; [by apply Hord|done].
    + assert (found_first n nx o (leaf_rank l) cur (b.2 ++ (drop (S i) (lf_bkts l) ≫= snd)) (Err e) s2) as Hq by (exists (dir_buf s2); split; [done|right; eauto]).
      pose proof (fault_plain e He) as (_ & _ & _ & _ & _ & _ & Hne & _). destruct e; try done; exact Hq.
Qed.

Lemma leaf_first_after_spec n nx o s l cursor cur : khold n nx o s -> leaf_ok (D := D) l -> stored o (leaf_objs l) ->
  starts (leaf_dir l) (dir_buf s) -> cursor_is o cursor cur ->
  wp (leaf_first_after (len (lf_bkts l)) (match cur with Some c => idx_sub (key_hash c) (len (lf_bkts l)) | None => 0 end) cursor) s
    (found_first n nx o (leaf_rank l) cur (leaf_ents l)).
Proof.
  intros Hh Hl Hs Hst Hcur. pose proof (lo_n _ Hl) as Hn. pose proof (MAX_BUCKETS_lt Hmax) as Hmb.
  set (start := match cur with Some c => bkt_index l c | None => 0%nat end).
  assert (match cur with Some c => idx_sub (key_hash c) (len (lf_bkts l)) | None => 0 end = Z.of_nat start) as ->.
  { unfold start. destruct cur as [c|]; [|done]. unfold bkt_index. pose proof (idx_sub_range (key_hash c) (len (lf_bkts l)) ltac:(lia)). lia. }
  assert (start <= length (lf_bkts l))%nat as Hlt.
  { unfold start. destruct cur as [c|]; [|lia]. destruct (leaf_bkt Hmax l c Hl) as (b & Hb & _). apply lookup_lt_Some in Hb. lia. }
  unfold leaf_first_after. eapply wp_mono; [apply (leaf_first_loop_spec _ n nx o s l start start cursor cur); try done|].
  - unfold len. lia.
  - intros c ->. done.
  - cbv beta. intros r s' (d & Hh' & Hr). exists d. split; [done|]. destruct Hr as [[Hd Hr]|Hf]; [left|by right]. split; [done|].
    assert (forall r, least (leaf_rank l) cur (drop start (lf_bkts l) ≫= snd) r -> least (leaf_rank l) cur (leaf_ents l) r) as Hall.
    { intros r' Hl'. unfold leaf_ents. rewrite <- (take_drop start (lf_bkts l)), bind_app. apply least_app_right; [|done].
      intros y Hy. apply list_elem_of_bind in Hy as (b & Hy & Hb). apply list_elem_of_lookup in Hb as [j Hj]. apply lookup_take_Some in Hj as [Hj Hlj].
      pose proof (bkt_place l j b y Hl Hj Hy) as Hpl. unfold start in Hlj. destruct cur as [c|]; [|lia]. unfold after, leaf_rank. rewrite lex_cons. lia. }
    destruct Hr as [(off & x & ? & ? & ? & ?)|[? ?]]; [left; exists off, x; split_and!; auto|right; auto].
Qed.

(** ** The tree *)

Lemma walk_order t i l es cur r : leaves t !! i = Some l -> (forall e, e ∈ es -> sub_index t (k_key e) = i) ->
  (forall c, cur = Some c -> (sub_index t c <= i)%nat) ->
  least (leaf_rank l) (match cur with Some c => if (sub_index t c =? i)%nat then cur else None | None => None end) es r -> least (walk_rank t) cur es r.
Proof.
  intros Hl Hi Hc. assert (forall k, sub_index t k = i -> walk_rank t k = Z.of_nat i :: leaf_rank l k) as Hrk.
  { intros k <-. unfold walk_rank. by rewrite Hl. }
  apply least_iff.
  - intros y Hy. unfold after. destruct cur as [c|]; [|done]. specialize (Hc c eq_refl). rewrite (Hrk (k_key y)) by auto.
    destruct (Nat.eqb_spec (sub_index t c) i) as [E|Hne].
    + rewrite (Hrk c E), lex_cons. split; [by right|intros [?|[_ ?]]; [lia|done]].
    + unfold walk_rank. rewrite lex_cons. split; [intros _; left; lia|done].
  - intros x y Hx Hy. rewrite !Hrk by auto. rewrite lex_cons. split; [by right|intros [?|[_ ?]]; [lia|done]].
Qed.

Lemma leaf_place t i l e : tree_ok (D := D) t -> leaves t !! i = Some l -> e ∈ leaf_ents l -> sub_index t (k_key e) = i.
Proof.
  destruct t as [l0|root ver subs]; cbn [leaves sub_index]; [intros _ Hl _; by destruct i|]. intros (_ & _ & _ & _ & Hp) Hl He.
  specialize (Hp i l Hl). rewrite list.Forall_forall in Hp. rewrite (Hp e He). by rewrite Nat2Z.id.
Qed.

Lemma tree_first_loop_spec fuel n nx o s root ver subs i start cursor cur : khold n nx o s ->
  tree_ok (D := D) (Tree root ver subs) -> stored o (tree_objs (Tree root ver subs)) ->
  (i = start -> starts (top_dir ver subs) (dir_buf s)) -> (i + fuel = length subs)%nat -> (start <= i)%nat -> cursor_is o cursor cur ->
  (forall c, cur = Some c -> start = sub_index (Tree root ver subs) c) ->
  wp (tree_first_loop fuel root (Z.of_nat i) (Z.of_nat start) cursor (match cur with Some c => key_hash c | None => 0 end)) s
    (found_first n nx o (walk_rank (Tree root ver subs)) cur (drop i subs ≫= leaf_ents)).
Proof.
  intros Hh Ht Hs Hst Hi Hsi Hcur Hcs. set (t := Tree root ver subs) in *. revert s i Hh Hst Hi Hsi.
  induction fuel as [|fuel IH]; intros s i Hh Hst Hi Hsi; cbn [tree_first_loop].
  - rewrite drop_ge by lia. exists (dir_buf s). split; [done|left]. split; [done|right]. split; [done|apply least_nil].
  - destruct (lookup_lt_is_Some_2 subs i ltac:(lia)) as [l Hl]. rewrite (drop_S _ l i Hl). cbn [mbind list_bind]. fold (mbind (M := list) (A := kleaf) leaf_ents).
    assert (leaf_ok (D := D) l) as Hlo by (destruct Ht as (_ & _ & _ & Hf & _); by eapply Forall_lookup_1).
    pose proof (sub_stored o root ver subs i l Hs Hl) as Hls.
    assert (forall (e : errno) s', khold n nx o s' -> fault e -> found_first n nx o (walk_rank t) cur (leaf_ents l ++ (drop (S i) subs ≫= leaf_ents)) (Err e) s') as Hf.
    { intros e s' Hh' He. exists (dir_buf s'). split; [done|right; eauto]. }
    assert (wp (if Z.of_nat i =? Z.of_nat start then mgets (fun s => dir_child (dir_buf s) (Z.of_nat i)) else top_child root (Z.of_nat i)) s
      (or_fault n nx o (fun id _ => id = lf_id l))) as Hid.
    { destruct (Z.eqb_spec (Z.of_nat i) (Z.of_nat start)) as [E|E].
      - destruct (Hst ltac:(lia)) as [junk Hj]. apply wp_gets. split; [done|]. rewrite Hj. by apply (top_child_at root ver subs).
      - eapply orf_mono; [by apply (top_child_spec Hmax root ver subs n nx o s i l)|]. by intros id s' _ [-> _]. }
    eapply wp_orf; [exact Hid| |exact Hf]. intros id s1 Hh1 ->.
    eapply wp_orf; [by apply (sub_load_spec Hmax n nx o s1 l)| |exact Hf]. intros k s2 Hh2 (-> & Hst2 & _). cbv zeta.
    set (cur' := match cur with Some c => if (sub_index t c =? i)%nat then cur else None | None => None end).
    assert (exists cursor', cursor_is o cursor' cur' /\
      (if (Z.of_nat i =? Z.of_nat start) && match cursor with Some _ => true | None => false end then cursor else None) = cursor' /\
      (if (Z.of_nat i =? Z.of_nat start) && match cursor with Some _ => true | None => false end
       then idx_sub (match cur with Some c => key_hash c | None => 0 end) (len (lf_bkts l)) else 0)
      = match cur' with Some c => idx_sub (key_hash c) (len (lf_bkts l)) | None => 0 end) as (cursor' & Hc' & -> & ->).
    { unfold cur'. destruct cur as [c|], cursor as [a|]; try done.
      - rewrite <- (Hcs c eq_refl). destruct (Z.eqb_spec (Z.of_nat i) (Z.of_nat start)), (Nat.eqb_spec start i); try lia; cbn [andb]; eauto. by exists None.
      - rewrite andb_false_r. by exists None. }
    apply wp_bnd, wp_try. eapply wp_mono; [by apply (leaf_first_after_spec n nx o s2 l cursor' cur')|]. cbv beta.
    assert (forall r, least (leaf_rank l) cur' (leaf_ents l) r -> least (walk_rank t) cur (leaf_ents l) r) as Hord.
    { intros r. apply (walk_order t i l); [done| |intros c Hc; by rewrite <- (Hcs c Hc)]. intros e. by apply leaf_place. }
    assert (forall x y, x ∈ leaf_ents l -> y ∈ drop (S i) subs ≫= leaf_ents -> lexico (walk_rank t (k_key x)) (walk_rank t (k_key y))) as Hrest.
    { intros x y Hx Hy. apply list_elem_of_bind in Hy as (l' & Hy & Hl'). apply list_elem_of_lookup in Hl' as [j Hj']. rewrite lookup_drop in Hj'.
      pose proof (leaf_place t i l x Ht Hl Hx) as Ex. pose proof (leaf_place t _ l' y Ht Hj' Hy) as Ey.
      unfold walk_rank. rewrite lex_cons, Ex, Ey. left. lia. }
    intros r s3 (d & Hh3 & [[Hd3 [(off & x & -> & Hlx & Hp & Ho)|(-> & Hn)]]|(e & He & ->)]).
    + exists (dir_buf s3). split; [done|left]. split; [done|left]. exists off, x. split_and!; try done.
      apply least_app_left; [by apply Hord|]. intros y Hy. apply Hrest; [apply Hlx|done].
    + replace (Z.of_nat i + 1) with (Z.of_nat (S i)) by lia. eapply wp_mono; [apply (IH s3 (S i)); try done; lia|]. cbv beta.
      intros r s4 (d4 & Hh4 & Hr). exists d4. split; [done|].
      destruct Hr as [[Hd4 [(off & x & -> & Hlx & Hp & Ho)|(-> & Hn4)]]|Hff]; [left|left|by right]; (split; [done|]).
      * left. exists off, x. split_and!; try done. apply least_app_right; [by apply Hord|done].
      * right. split; [done|]. apply least_app_right; [by apply Hord|done].
    + pose proof (Hf e s3 Hh3 He) as Hq.
      pose proof (fault_plain e He) as (_ & _ & _ & _ & _ & _ & Hne & _). destruct e; try done; exact Hq.
Qed.

(** ** next *)

(** An empty key starts the walk. *)
Definition walk_cursor (key : option bytes) : option bytes := match key with Some ((_ :: _) as k) => Some k | _ => None end.

Lemma cursor_some k : 0 < len k -> walk_cursor (Some k) = Some k.
Proof. destruct k; [intros Hk; by unfold len in Hk|done]. Qed.

Definition next_reply (r : option kent) (kout_sz vout_sz : Z) : res (bytes * bytes) :=
  match r with
  | Some x => if (len (k_key x) >? kout_sz) || (len (k_val x) >? vout_sz) then Err ENOMEM else Ok (ent_pair x)
  | None => Err ENODATA
  end.

Lemma tree_ent_stored o t x : tree_ok (D := D) t -> stored o (tree_objs t) -> x ∈ tree_ents t -> kent_ok x /\ parts_stored o x.
Proof.
  intros Ht Hs Hx. apply list_elem_of_bind in Hx as (l & Hx & Hl). apply list_elem_of_lookup in Hl as [i Hl].
  assert (leaf_ok (D := D) l /\ stored o (leaf_objs l)) as [Hlo Hls].
  { destruct t as [l0|root ver subs]; cbn in *.
    - destruct i; [|done]. by injection Hl as ->.
    - split; [|by apply (sub_stored o root ver subs i)]. destruct Ht as (_ & _ & _ & Hf & _). by eapply Forall_lookup_1. }
  unfold leaf_ents in Hx. apply list_elem_of_bind in Hx as (b & Hx & Hb). apply list_elem_of_lookup in Hb as [j Hb]. pose proof (lo_bkts _ Hlo j b Hb) as Hbk.
  pose proof (bo_ents _ _ _ Hbk) as Hok. rewrite list.Forall_forall in Hok. split; [by apply Hok|].
  assert (b.1 <> 0) as Hne by (intros E; rewrite (bo_empty _ _ _ Hbk E) in Hx; by apply not_elem_of_nil in Hx).
  destruct (bkt_parts o b) as [_ Hp]; [unfold spilled; by destruct (Z.eqb_spec b.1 0)|by apply (leaf_bkt_stored o l j)|].
  rewrite list.Forall_forall in Hp. by apply Hp.
Qed.

(** The search part of [kvhash_next()]. *)
Lemma first_spec n nx o s t cur (ch := match cur with Some c => key_hash c | None => 0 end)
    (cursor := match cur with Some c => Some (mk_okey (len c) (hash_fp ch) (mk_key_src (Some c) 0)) | None => None end) :
  khold n nx o s -> tree_ok (D := D) t -> stored o (tree_objs t) ->
  wp (let* '(k, depth) := dir_load (tree_root t) in
      if depth =? 1 then leaf_first_after k (match cursor with Some _ => idx_sub ch k | None => 0 end) cursor
      else tree_first_after (tree_root t) k (match cursor with Some _ => idx_top ch k | None => 0 end) cursor ch) s
    (found_first n nx o (walk_rank t) cur (tree_ents t)).
Proof.
  intros Hh Ht Hs. assert (cursor_is o cursor cur) as Hcur.
  { unfold cursor, cursor_is, ch. destruct cur as [c|]; [|done]. split; [done|]. split; [done|]. cbn. rewrite zt_slice. by apply slice_all. }
  assert (forall (e : errno) s', khold n nx o s' -> fault e -> found_first n nx o (walk_rank t) cur (tree_ents t) (Err e) s') as Hf.
  { intros e s' Hh' He. exists (dir_buf s'). split; [done|right; eauto]. }
  destruct t as [l|root ver subs]; cbn [tree_root].
  - pose proof (lo_id _ Ht). eapply wp_orf; [apply (dir_load_spec Hmax n nx o s); [done|lia|by apply leaf_dir_stored|by apply leaf_valid]| |exact Hf].
    intros r s1 Hh1 (-> & Hst & _). cbn [Z.eqb Pos.eqb]. rewrite len_fmap.
    replace (match cursor with Some _ => idx_sub ch (len (lf_bkts l)) | None => 0 end) with (match cur with Some c => idx_sub (key_hash c) (len (lf_bkts l)) | None => 0 end) by (unfold cursor, ch; by destruct cur).
    eapply wp_mono; [by apply (leaf_first_after_spec n nx o s1 l cursor cur)|]. cbv beta. intros r s2 (d & Hh2 & Hr). exists d. split; [done|].
    unfold tree_ents. cbn [leaves mbind list_bind]. rewrite app_nil_r.
    assert (forall r, least (leaf_rank l) cur (leaf_ents l) r -> least (walk_rank (Flat l)) cur (leaf_ents l) r) as Hord.
    { intros r' Hr'. apply (walk_order (Flat l) 0 l); [done..|]. by destruct cur. }
    destruct Hr as [[Hd2 [(off & x & -> & Hlx & Hp & Ho)|(-> & Hn2)]]|Hff]; [left|left|by right]; (split; [done|]); [left; exists off, x; split_and!; auto|right; auto].
  - eapply wp_orf; [by apply (top_load_spec Hmax root ver subs n nx o s)| |exact Hf]. intros r s1 Hh1 (-> & Hst & _). cbn [Z.eqb Pos.eqb].
    pose proof Ht as (Hns & _). pose proof (MAX_BUCKETS_lt Hmax).
    set (start := match cur with Some c => sub_index (Tree root ver subs) c | None => 0%nat end).
    assert (match cursor with Some _ => idx_top ch (len subs) | None => 0 end = Z.of_nat start) as ->.
    { unfold start, cursor, ch. destruct cur as [c|]; [|done]. cbn. pose proof (idx_top_range (key_hash c) (len subs) ltac:(lia)). lia. }
    assert (start < length subs)%nat as Hlt.
    { unfold start. destruct cur as [c|]; [|unfold len in *; lia]. destruct (tree_leaf Hmax _ c Ht) as (l & Hl & _). by apply lookup_lt_Some in Hl. }
    unfold tree_first_after. eapply wp_mono; [apply (tree_first_loop_spec _ n nx o s1 root ver subs start start cursor cur); try done|].
    + unfold len. lia.
    + by intros c ->.
    + cbv beta. intros r s2 (d & Hh2 & Hr). exists d. split; [done|].
      assert (forall r, least (walk_rank (Tree root ver subs)) cur (drop start subs ≫= leaf_ents) r -> least (walk_rank (Tree root ver subs)) cur (tree_ents (Tree root ver subs)) r) as Hall.
      { intros r' Hl'. unfold tree_ents. cbn [leaves]. rewrite <- (take_drop start subs), bind_app. apply least_app_right; [|by rewrite take_drop].
        intros y Hy. apply list_elem_of_bind in Hy as (l & Hy & Hl). apply list_elem_of_lookup in Hl as [j Hj]. apply lookup_take_Some in Hj as [Hj Hlj].
        rewrite take_drop. pose proof (leaf_place _ j l y Ht Hj Hy) as Hpl. unfold start in Hlj. destruct cur as [c|]; [|lia]. unfold after, walk_rank. rewrite lex_cons. lia. }
      destruct Hr as [[Hd2 [(off & x & -> & Hlx & Hp & Ho)|(-> & Hn2)]]|Hff]; [left|left|by right]; (split; [done|]); [left; exists off, x; split_and!; auto|right; auto].
Qed.

Lemma kv_next_spec n nx o s t key kout_sz vout_sz : khold n nx o s -> tree_ok (D := D) t -> stored o (tree_objs t) ->
  wp (kvhash_next (tree_root t) key kout_sz vout_sz) s (fun r s' => khold n nx o s' /\
    if len (default [] key) >? 0xffff then r = Err EINVAL
    else (exists x, least (walk_rank t) (walk_cursor key) (tree_ents t) x /\ r = next_reply x kout_sz vout_sz) \/ (exists e, fault e /\ r = Err e)).
Proof.
  intros Hh Ht Hs. unfold kvhash_next. cbv zeta. destruct (len (default [] key) >? 65535); [by split|].
  pose proof (first_spec n nx o s t (walk_cursor key) Hh Ht Hs) as Hfirst. cbv zeta in Hfirst.
  assert (wp (let* '(k, depth) := dir_load (tree_root t) in
      let* off := (if depth =? 1 then leaf_first_after k (match walk_cursor key with Some c => idx_sub (key_hash c) k | None => 0 end)
          (match walk_cursor key with Some c => Some (mk_okey (len c) (hash_fp (key_hash c)) (mk_key_src (Some c) 0)) | None => None end)
        else tree_first_after (tree_root t) k (match walk_cursor key with Some c => idx_top (key_hash c) k | None => 0 end)
          (match walk_cursor key with Some c => Some (mk_okey (len c) (hash_fp (key_hash c)) (mk_key_src (Some c) 0)) | None => None end)
          (match walk_cursor key with Some c => key_hash c | None => 0 end)) in
      let* buf := mgets bkt_buf in
      match bkt_entry buf SIZE_MAX off with
      | None => mfail EIO
      | Some e =>
          if (e_kl e >? kout_sz) || (e_vl e >? vout_sz) then mfail ENOMEM
          else
            let* k := key_chunk (ent_key buf e) 0 (e_kl e) in
            let* v := ent_value buf e vout_sz in
            mret (k, v)
      end) s (fun r s' => khold n nx o s' /\
        ((exists x, least (walk_rank t) (walk_cursor key) (tree_ents t) x /\ r = next_reply x kout_sz vout_sz) \/ (exists e, fault e /\ r = Err e)))) as Hgoal.
  2: { destruct key as [[|x k]|]; [exact Hgoal| |exact Hgoal].
       assert (len (default [] (Some (x :: k))) =? 0 = false) as E by (apply Z.eqb_neq; change (default [] (Some (x :: k))) with (x :: k); unfold len; cbn [length]; lia).
       rewrite E. change (default [] (Some (x :: k))) with (x :: k). cbn [walk_cursor] in Hgoal |- *. exact Hgoal. }
  apply wp_unbnd in Hfirst. apply wp_bnd. eapply wp_mono; [exact Hfirst|]. cbv beta. clear Hfirst.
  assert (forall e s1, found_first n nx o (walk_rank t) (walk_cursor key) (tree_ents t) (Err e) s1 -> khold n nx o s1 /\
    ((exists x, least (walk_rank t) (walk_cursor key) (tree_ents t) x /\ @Err (bytes * bytes) e = next_reply x kout_sz vout_sz) \/
     (exists e', fault e' /\ @Err (bytes * bytes) e = Err e'))) as Herr.
  { intros e s1 (d & Hh1 & [[Hd [(off' & x & [=] & _)|([= ->] & Hn)]]|(e' & He & [= ->])]); (split; [done|]); [left; by exists None|right; eauto]. }
  intros [[k depth]|e] s0 Hk; [|by apply Herr]. apply wp_bnd.
  eapply (wp_mono _ _ (found_first n nx o (walk_rank t) (walk_cursor key) (tree_ents t))); [destruct (walk_cursor key); exact Hk|]. clear Hk. cbv beta. intros [off|e] s1 Hfd; [|by apply Herr].
  - revert Hfd. intros (d & Hh1 & [[Hd [(off' & x & [= ->] & Hlx & Hp & Ho)|([=] & _)]]|(e & He & [=])]).
    assert (x ∈ tree_ents t) as Hx by apply Hlx. destruct (tree_ent_stored o t x Ht Hs Hx) as [Hok Hst].
    apply wp_bnd, wp_gets. rewrite (bkt_entry_packed _ _ _ x) by (done || unfold SIZE_MAX, UINT32_MAX, ENT_LEN_MASK in *; lia).
    cbn [ent_of e_kl e_vl]. assert (forall r s', khold n nx o s' -> r = (if (len (k_key x) >? kout_sz) || (len (k_val x) >? vout_sz) then Err ENOMEM else Ok (ent_pair x)) -> khold n nx o s' /\
      ((exists x, least (walk_rank t) (walk_cursor key) (tree_ents t) x /\ r = next_reply x kout_sz vout_sz) \/ (exists e, fault e /\ r = Err e))) as Hdone.
    { intros r s' Hh' ->. split; [done|left]. by exists (Some x). }
    destruct ((len (k_key x) >? kout_sz) || (len (k_val x) >? vout_sz)) eqn:Esz; [by apply wp_fail, Hdone|].
    eapply wp_orf; [apply (key_chunk_spec n nx o s1 _ (k_key x) 0 (len (k_key x)) Hh1 (ent_src _ _ _ _ Hp Hok Hst)); pose proof (len_nonneg (k_key x)); lia| |by intros; split; eauto].
    intros kb s2 Hh2 (-> & Hb2). rewrite slice_all by done.
    apply wp_bnd. eapply wp_mono; [by apply (ent_value_spec n nx o s2 _ off' x vout_sz Hh2 Hp)|]. cbv beta. intros r s3 [Hh3 Hr].
    unfold value_reply in Hr. destruct (Z.ltb_spec vout_sz (len (k_val x))); [lia|]. destruct Hr as [->|(e & He & ->)]; [by apply wp_ret, Hdone|split; eauto].
Qed.

(** ** A whole walk *)

(** The caller's loop: the last key is the next cursor, until -ENODATA. *)
Fixpoint walk (fuel : nat) (root : Z) (cur : option bytes) (kout_sz vout_sz : Z) : M kvh (list (bytes * bytes)) :=
  match fuel with
  | O => mfail EIO
  | S fuel =>
      let* rc := mtry (kvhash_next root cur kout_sz vout_sz) in
      match rc with
      | Err ENODATA => mret []
      | Err e => mfail e
      | Ok (k, v) =>
          let* rest := walk fuel root (Some k) kout_sz vout_sz in
          mret ((k, v) :: rest)
      end
  end.

(** The keys come in strictly rising order. *)
Definition rising t (kvs : list (bytes * bytes)) : Prop := StronglySorted (fun a b => lexico (walk_rank t a.1) (walk_rank t b.1)) kvs.

Lemma walk_from fuel n nx o s t cur es kout_sz vout_sz : khold n nx o s -> tree_ok (D := D) t -> stored o (tree_objs t) ->
  ENT_LEN_MASK <= kout_sz -> ENT_LEN_MASK <= vout_sz -> (len (default [] cur) <= 0xffff) ->
  (forall e, e ∈ es <-> e ∈ tree_ents t /\ after (walk_rank t) (walk_cursor cur) (k_key e)) -> (length es < fuel)%nat ->
  wp (walk fuel (tree_root t) cur kout_sz vout_sz) s (fun r s' => khold n nx o s' /\
    ((exists kvs, r = Ok kvs /\ rising t kvs /\ forall k v, (k, v) ∈ kvs <-> (k, v) ∈ (ent_pair <$> es)) \/ (exists e, fault e /\ r = Err e))).
Proof.
  intros Hh Ht Hs Hks Hvs. revert s cur es Hh. induction fuel as [|fuel IH]; intros s cur es Hh Hcl Hes Hf; [lia|]. cbn [walk].
  apply wp_bnd, wp_try. eapply wp_mono; [by apply (kv_next_spec n nx o s t cur kout_sz vout_sz)|]. cbv beta. intros r s1 [Hh1 Hr].
  destruct (Z.gtb_spec (len (default [] cur)) 65535); [lia|]. destruct Hr as [(x & Hl & ->)|(e & He & ->)].
  2: { pose proof (fault_plain e He) as (_ & _ & _ & _ & _ & _ & Hne & _).
       assert (khold n nx o s1 /\ ((exists kvs, @Err (list (bytes * bytes)) e = Ok kvs /\ rising t kvs /\ forall k v, (k, v) ∈ kvs <-> (k, v) ∈ (ent_pair <$> es)) \/
         (exists e', fault e' /\ @Err (list (bytes * bytes)) e = Err e'))) as Hq by (split; eauto). destruct e; try done; exact Hq. }
  destruct x as [x|]; cbn [next_reply].
  - assert (x ∈ tree_ents t) as Hx by apply Hl. destruct (tree_ent_stored o t x Ht Hs Hx) as [[Hk Hv _ _ _ _] _].
    destruct ((len (k_key x) >? kout_sz) || (len (k_val x) >? vout_sz)) eqn:E; [lia|]. cbn [ent_pair]. set (key := k_key x) in *.
    assert (walk_cursor (Some key) = Some key) as Ec by (apply cursor_some; lia).
    destruct Hl as (_ & Hax & Hl). set (es' := filter (fun e => k_key e <> key) es).
    assert (x ∈ es) as Hxe by by apply Hes.
    assert (forall e, e ∈ es' <-> e ∈ tree_ents t /\ after (walk_rank t) (walk_cursor (Some key)) (k_key e)) as Hes'.
    { intros e. unfold es'. rewrite list_elem_of_filter, Hes, Ec. unfold after at 2. split.
      - intros (Hne & He & Ha). split; [done|]. by destruct (Hl e He Ha).
      - intros (He & Ha). split_and!; [|done|].
        + intros E'. unfold after in Ha. rewrite E' in Ha. by destruct (irreflexivity lexico (walk_rank t key)).
        + unfold after in Hax |- *. destruct (walk_cursor cur); [|done]. by transitivity (walk_rank t key). }
    assert (length es' < length es)%nat as Hlt by (by apply (length_filter_lt _ es x Hxe); intros Hne).
    apply wp_bnd. eapply wp_mono; [apply (IH s1 (Some key) es' Hh1); [cbn; unfold ENT_LEN_MASK in *; lia|done|lia]|]. cbv beta.
    intros r s2 [Hh2 [(kvs & -> & Hrise & Hmem)|(e & He & ->)]]; [|split; eauto]. split; [done|left]. exists ((key, k_val x) :: kvs). split; [done|]. split.
    + constructor; [done|]. apply list.Forall_forall. intros [k v] Hkv. cbn. apply Hmem in Hkv. apply list_elem_of_fmap in Hkv as (e & [= -> ->] & He).
      apply Hes' in He as [_ He]. by rewrite Ec in He.
    + intros k v. rewrite elem_of_cons, Hmem. split.
      * intros [[= -> ->]|Hkv]; [by apply (list_elem_of_fmap_2 ent_pair)|]. apply list_elem_of_fmap in Hkv as (e & -> & He).
        apply list_elem_of_fmap_2. unfold es' in He. by apply list_elem_of_filter in He as [_ ?].
      * intros Hkv. apply list_elem_of_fmap in Hkv as (e & [= -> ->] & He). destruct (decide (k_key e = key)) as [Ek|Ek].
        -- left. assert (e = x) as ->; [|done]. pose proof (tree_keys t Ht) as Hnd. apply Hes in He as [He _].
           apply list_elem_of_lookup in He as [i Hi]. apply list_elem_of_lookup in Hx as [j Hj].
           assert (i = j) as ->; [|congruence]. apply (NoDup_lookup _ i j key Hnd); rewrite list_lookup_fmap, ?Hi, ?Hj; cbn; by rewrite ?Ek.
        -- right. apply (list_elem_of_fmap_2 ent_pair). unfold es'. by apply list_elem_of_filter.
  - split; [done|left]. exists []. split; [done|]. split; [constructor|]. intros k v. split; [by intros ?%not_elem_of_nil|].
    intros Hkv. apply list_elem_of_fmap in Hkv as (e & _ & He). apply Hes in He as [He Ha]. by destruct (Hl e He).
Qed.

Lemma rising_nodup t kvs : rising t kvs -> NoDup kvs.*1.
Proof.
  induction 1 as [|[k v] kvs Hs IH Hf]; [constructor|]. cbn. apply list.NoDup_cons. split; [|done]. intros Hin.
  apply list_elem_of_fmap in Hin as ([k' v'] & -> & Hin). rewrite list.Forall_forall in Hf. specialize (Hf _ Hin). cbn in Hf.
  by destruct (irreflexivity lexico (walk_rank t k')).
Qed.

(** A walk from the start passes every entry of the map, in rising order. *)
Lemma walk_spec n nx o s t kout_sz vout_sz : khold n nx o s -> tree_ok (D := D) t -> stored o (tree_objs t) ->
  ENT_LEN_MASK <= kout_sz -> ENT_LEN_MASK <= vout_sz ->
  wp (walk (S (size (tree_map t))) (tree_root t) None kout_sz vout_sz) s (fun r s' => khold n nx o s' /\
    ((exists kvs, r = Ok kvs /\ rising t kvs /\ NoDup kvs.*1 /\ list_to_map kvs = tree_map t) \/ (exists e, fault e /\ r = Err e))).
Proof.
  intros Hh Ht Hs Hks Hvs. eapply wp_mono; [apply (walk_from _ n nx o s t None (tree_ents t)); try done|].
  - intros e. cbn. tauto.
  - pose proof (tree_map_size t Ht). unfold len in *. lia.
  - cbv beta. intros r s' [Hh' [(kvs & -> & Hr & Hm)|Hf]]; [|by split; [|right]]. split; [done|left]. exists kvs. split_and!; try done; [by eapply rising_nodup|].
    pose proof (rising_nodup t kvs Hr) as Hnd. apply map_eq. intros k. apply option_eq. intros v. unfold tree_map.
    rewrite <- !elem_of_list_to_map; [by rewrite Hm| |done]. rewrite <- list_fmap_compose. by apply tree_keys.
Qed.
End next.
