(* ===== verification/KvHashDestroy.v ===== *)
(** [kvhash_destroy()]: one directory write condemns the map, then every object
    of it is deleted; an interrupted destroy can be repeated. *)

From S2P Require Import BlobIface Prelude Layout Records KvHash KvHashRep KvHashRead KvHashOps KvHashWalk.

Lemma bind_apart {A B} (f : A -> list (Z * B)) (l : list A) i j x y id : NoDup (l ≫= f).*1 -> l !! i = Some x -> l !! j = Some y -> i <> j ->
  id ∈ (f x).*1 -> id ∉ (f y).*1.
Proof.
  intros Hn Hi Hj Hne Hid Hid'. assert (delete i l !! (if decide (j < i)%nat then j else pred j) = Some y) as Hd.
  { case_decide; [rewrite list_lookup_delete_lt by lia; done|]. rewrite list_lookup_delete_ge by lia. by replace (S (pred j)) with j by lia. }
  rewrite (bind_take_out f l i x Hi), fmap_app, list.NoDup_app in Hn. destruct Hn as (_ & Hn & _). apply (Hn id Hid).
  rewrite (bind_take_out f _ _ y Hd), fmap_app. apply elem_of_app. by left.
Qed.

Section destroy.
Context `{Crc} {D : Type} `{!Blobs D} {CL : CrcLaws _} {L : BlobLaws D}.
Notation MAX_PAYLOAD := (blob_max (D := D)).
Notation kvh := (kvh (D := D)).
Context (Hmax : 24 <= MAX_PAYLOAD <= ENT_LEN_MASK).
Implicit Types (s : kvh) (o : objs) (t : kvtree) (l : kleaf).

(** ** What may be left of a condemned map

    A part is there or gone; a bucket that is gone has no parts left, a sub-map
    that is gone has nothing left. *)
Definition gone o (l : list (Z * bytes)) : Prop := forall id, id ∈ l.*1 -> o !! id = None.
Definition part_left o (x : Z * bytes) : Prop := o !! x.1 = Some x.2 \/ o !! x.1 = None.
Definition bkt_left o (b : Z * list kent) : Prop :=
  gone o (bkt_objs b) \/ (o !! b.1 = Some (bkt_bytes b.2) /\ Forall (part_left o) (b.2 ≫= ent_objs)).
Definition leaf_left o l : Prop :=
  gone o (leaf_objs l) \/ (o !! lf_id l = Some (leaf_dir l) /\ Forall (bkt_left o) (lf_bkts l)).

Definition dying_dir l : bytes := dir_bytes KVHASH_DIR_DYING (lf_ver l) 1 (fst <$> lf_bkts l).
Definition dying_top (ver : Z) (subs : list kleaf) : bytes := dir_bytes KVHASH_DIR_DYING ver 2 (lf_id <$> subs).

(** The map at the root is condemned and partly released. *)
Definition condemned o t : Prop :=
  match t with
  | Flat l => o !! lf_id l = Some (dying_dir l) /\ Forall (bkt_left o) (lf_bkts l)
  | Tree root ver subs => o !! root = Some (dying_top ver subs) /\ Forall (leaf_left o) subs
  end.

(** No id occurs twice in the tree, and the root blob is not part of it. *)
Definition apart t : Prop := NoDup (tree_objs t).*1 /\ BLOB_ROOT ∉ (tree_objs t).*1.

Lemma stored_apart o t : stored o (tree_objs t) -> apart t.
Proof.
  intros Hs. split; [apply Hs|]. intros Hin. apply list_elem_of_fmap in Hin as ([id b] & E & Hin). destruct (stored_elem o _ id b Hs Hin) as [_ Hne]. by apply Hne.
Qed.

(** ** Frames *)

Lemma gone_frame o o' (l : list (Z * bytes)) : (forall id, id ∈ l.*1 -> o' !! id = o !! id) -> gone o l -> gone o' l.
Proof. intros Hf Hg id Hid. rewrite Hf by done. by apply Hg. Qed.

Lemma gone_app o (l l' : list (Z * bytes)) : gone o (l ++ l') <-> gone o l /\ gone o l'.
Proof.
  unfold gone. rewrite fmap_app. split; [intros Hg; split; intros id Hid; apply Hg, elem_of_app; auto|]. intros [H1 H2] id [Hid|Hid]%elem_of_app; auto.
Qed.

Lemma gone_cons o id b (l : list (Z * bytes)) : gone o ((id, b) :: l) <-> o !! id = None /\ gone o l.
Proof.
  unfold gone. cbn. split; [intros Hg; split; [apply Hg; left|intros id' Hid; apply Hg; by right]|]. intros [H1 H2] id' [->|Hid]%elem_of_cons; auto.
Qed.

Lemma parts_frame o o' (l : list (Z * bytes)) : (forall id, id ∈ l.*1 -> o' !! id = o !! id) -> Forall (part_left o) l -> Forall (part_left o') l.
Proof.
  intros Hf Hl. rewrite list.Forall_forall in *. intros x Hx. unfold part_left. rewrite Hf by (by apply list_elem_of_fmap_2). by apply Hl.
Qed.

Lemma bkt_left_frame o o' b : (forall id, id ∈ (bkt_objs b).*1 -> o' !! id = o !! id) -> (b.1 = 0 -> b.2 = []) -> bkt_left o b -> bkt_left o' b.
Proof.
  intros Hf He [Hg|[Hb Hp]]; [left; by eapply gone_frame|]. destruct (Z.eq_dec b.1 0) as [E|E].
  - left. unfold bkt_objs, spilled. rewrite E. by intros id ?%not_elem_of_nil.
  - assert (bkt_objs b = (b.1, bkt_bytes b.2) :: (b.2 ≫= ent_objs)) as Eb by (destruct b; by apply bkt_objs_used). rewrite Eb in Hf. right. split.
    + rewrite Hf; [done|]. left.
    + eapply parts_frame; [|exact Hp]. intros id Hid. apply Hf. by right.
Qed.

Lemma gone_bind {A} o (f : A -> list (Z * bytes)) (l : list A) : gone o (l ≫= f) <-> Forall (fun x => gone o (f x)) l.
Proof.
  induction l as [|x l IH]; [split; [constructor|by intros _ id ?%not_elem_of_nil]|]. cbn [mbind list_bind]. by rewrite gone_app, IH, list.Forall_cons.
Qed.

Lemma leaf_left_frame o o' l : leaf_ok (D := D) l -> (forall id, id ∈ (leaf_objs l).*1 -> o' !! id = o !! id) -> leaf_left o l -> leaf_left o' l.
Proof.
  intros Hl Hf [Hg|[Hd Hb]]; [left; by eapply gone_frame|]. right. split; [rewrite Hf; [done|left]|].
  rewrite list.Forall_forall in *. intros b Hin. apply list_elem_of_lookup in Hin as [i Hi].
  apply (bkt_left_frame o); [|apply (lo_bkts _ Hl i b Hi)|by apply Hb; apply list_elem_of_lookup; exists i].
  intros id Hid. apply Hf. cbn. right. rewrite (bind_take_out bkt_objs _ i b Hi), fmap_app. apply elem_of_app. by left.
Qed.

(** ** Deleting parts *)

(** Deleting [id] went through, or was refused: the object is gone, or as before. *)
Lemma kv_delete_spec n nx o s id : khold n nx o s -> 0 < id < 2 ^ 64 -> id <> BLOB_ROOT ->
  wp (kv_delete id) s (fun r s' => bufs_kept s s' /\ exists o', khold n nx o' s' /\ agree_off [id] o o' /\
    match r with
    | Ok _ | Err ENOENT => o' !! id = None
    | Err e => refused e /\ (o' = o \/ o' !! id = None)
    end).
Proof.
  intros Hh Hid Hr. unfold kv_delete. apply wp_on_dev. eapply wp_mono; [apply (delete_law n _ nx o); [apply Hh|lia|done]|]. cbv beta. intros r d Hd. split; [done|].
  assert (forall o', holds n nx o' d -> khold n nx o' (set_dev d s)) as Hk by (intros; by eapply khold_dev).
  assert (agree_off [id] o (delete id o)) as Hag by (intros id' Hne; apply lookup_delete_ne; intros ->; apply Hne; left).
  assert (forall e o', refused e -> (o' = o \/ o' !! id = None) -> match e with ENOENT => o' !! id = None | _ => refused e /\ (o' = o \/ o' !! id = None) end) as Hrf.
  { intros e o' [[-> ?]|[He|[-> ?]]] Ho'; [split; [left|]; done| |split; [right; right|]; done].
    pose proof (fault_plain e He) as (_ & Hne & _). destruct e; try done; (split; [right; by left|done]). }
  destruct (o !! id) eqn:E.
  - destruct Hd as [[-> Hd]|[(e & He & -> & Hd)|(e & Ht & He & -> & Hd)]].
    + exists (delete id o). split_and!; auto. by rewrite lookup_delete_eq.
    + exists o. split_and!; [auto|done|]. apply Hrf; [|by left]. unfold refused. destruct He; auto.
    + exists (delete id o). split_and!; [auto|done|]. apply Hrf; [unfold refused; auto|right]. by rewrite lookup_delete_eq.
  - destruct Hd as [Hd [->|(e & He & ->)]]; exists o; (split_and!; [auto|done|]); [done|]. apply Hrf; [unfold refused; auto|by left].
Qed.

Definition err_ok (first : option errno) : Prop := match first with Some e => refused (D := D) e | None => True end.

Lemma keep_first_ok f e : err_ok f -> refused (D := D) e -> err_ok (keep_first f e) /\ keep_first f e <> None.
Proof. by destruct f. Qed.

(** One part: it is gone, or an error is noted; nothing else changed. *)
Lemma del_part_spec n nx o s id b f : khold n nx o s -> 0 <= id < 2 ^ 64 -> id <> BLOB_ROOT -> err_ok f -> Forall (part_left o) (part_obj id b) ->
  wp (del_part id f) s (fun r s' => bufs_kept s s' /\ exists o' f', khold n nx o' s' /\ r = Ok f' /\ err_ok f' /\
    agree_off (part_obj id b).*1 o o' /\ Forall (part_left o') (part_obj id b) /\ (f' = None -> f = None /\ gone o' (part_obj id b))).
Proof.
  intros Hh Hid Hr Hf Hp. unfold del_part, part_obj, spilled in *. destruct (Z.eqb_spec id 0) as [E|E]; cbn [negb] in *.
  { apply wp_ret. split; [done|]. exists o, f. split_and!; try done. intros Hfn. split; [done|]. by intros id' ?%not_elem_of_nil. }
  apply wp_bnd, wp_try. eapply wp_mono; [apply (kv_delete_spec n nx o s id Hh); [lia|done]|]. cbv beta. intros r s1 (Hb & o' & Hh1 & Ha & Hres).
  assert (o' !! id = None -> wp (mret f) s1 (fun r s' => bufs_kept s s' /\ exists o' f', khold n nx o' s' /\ r = Ok f' /\ err_ok f' /\
    agree_off [id] o o' /\ Forall (part_left o') [(id, b)] /\ (f' = None -> f = None /\ gone o' [(id, b)]))) as Hgone.
  { intros Hn. apply wp_ret. split; [done|]. exists o', f. split_and!; try done; [constructor; [by right|constructor]|].
    intros Hfn. split; [done|]. intros id' ->%list_elem_of_singleton. done. }
  assert (forall e, refused e -> o' = o \/ o' !! id = None -> wp (mret (keep_first f e)) s1 (fun r s' => bufs_kept s s' /\ exists o' f', khold n nx o' s' /\ r = Ok f' /\ err_ok f' /\
    agree_off [id] o o' /\ Forall (part_left o') [(id, b)] /\ (f' = None -> f = None /\ gone o' [(id, b)]))) as Hkeep.
  { intros e He Ho. destruct (keep_first_ok f e Hf He) as [Hk Hkn]. apply wp_ret. split; [done|]. exists o', (keep_first f e). split_and!; try done.
    destruct Ho as [->|Hn]; [done|]. constructor; [by right|constructor]. }
  destruct r as [u|e]; [by apply Hgone|]. destruct e; try (by apply Hgone); destruct Hres; by apply Hkeep.
Qed.

(** ** One bucket *)

(** The outcome of releasing the objects [q]: afterwards [left] holds of them, all
    are gone if no error is noted, and nothing else changed. *)
Definition released {A} (n : nat) (nx : Z) o (dir : bytes) (q : list (Z * bytes)) (left : objs -> Prop) (ok : A -> Prop) (r : A) s : Prop :=
  dir_buf s = dir /\ exists o', khold n nx o' s /\ agree_off q.*1 o o' /\ left o' /\ (ok r -> gone o' q).

Lemma agree_frame o o' (q q' : list (Z * bytes)) : agree_off q.*1 o o' -> (forall id, id ∈ q'.*1 -> id ∉ q.*1) -> forall id, id ∈ q'.*1 -> o' !! id = o !! id.
Proof. intros Ha Hd id Hid. apply Ha. by apply Hd. Qed.

Lemma release_ents_spec n nx o s es buf off f : khold n nx o s -> (forall pre x post, es = pre ++ x :: post -> packed buf (off + len (bkt_bytes pre)) x) ->
  Forall kent_ok es -> NoDup (es ≫= ent_objs).*1 -> BLOB_ROOT ∉ (es ≫= ent_objs).*1 -> Forall (part_left o) (es ≫= ent_objs) -> err_ok f ->
  wp (release_ents (parsed off es) buf f) s (fun r s' => dir_buf s' = dir_buf s /\ exists o' f', khold n nx o' s' /\ r = Ok f' /\ err_ok f' /\
    agree_off (es ≫= ent_objs).*1 o o' /\ Forall (part_left o') (es ≫= ent_objs) /\ (f' = None -> f = None /\ gone o' (es ≫= ent_objs))).
Proof.
  intros Hh Hpk Hok. revert o s off f Hh Hpk. induction Hok as [|e es He Hok IH]; intros o s off f Hh Hpk Hnd Hroot Hleft Hf; cbn [parsed release_ents].
  - apply wp_ret. split; [done|]. exists o, f. split_and!; try done. intros Hfn. split; [done|]. by intros id ?%not_elem_of_nil.
  - assert (packed buf off e) as Hp by (specialize (Hpk [] e es eq_refl); by rewrite Z.add_0_r in Hpk). destruct (ent_ids buf off e Hp He) as [-> ->].
    cbn [mbind list_bind] in *. fold (mbind (M := list) ent_objs es) in *. rewrite fmap_app in Hnd, Hroot. apply list.Forall_app in Hleft as [Hle Hls].
    apply list.NoDup_app in Hnd as (Hne & Hdis & Hns). rewrite not_elem_of_app in Hroot. destruct Hroot as [Hre Hrs].
    unfold ent_objs at 1 in Hle. apply list.Forall_app in Hle as [Hlk Hlv].
    assert (ent_objs e = part_obj (k_kid e) (k_key e) ++ part_obj (k_vid e) (k_val e)) as Eobj by done. rewrite Eobj, fmap_app in Hne, Hdis, Hre.
    rewrite not_elem_of_app in Hre. destruct Hre as [Hrk Hrv]. apply list.NoDup_app in Hne as (_ & Hkv & _).
    assert (forall id (b : bytes), BLOB_ROOT ∉ (part_obj id b).*1 -> id <> BLOB_ROOT) as Hnr.
    { intros id b Hn ->. apply Hn. left. }
    apply wp_bnd. eapply wp_mono; [apply (del_part_spec n nx o s (k_kid e) (k_key e) f Hh (ko_kid _ He)); eauto|]. cbv beta.
    intros r s1 ([Hd1 _] & o1 & f1 & Hh1 & -> & Hf1 & Ha1 & Hl1 & Hn1).
    assert (Forall (part_left o1) (part_obj (k_vid e) (k_val e))) as Hlv1.
    { eapply parts_frame; [|exact Hlv]. eapply agree_frame; [exact Ha1|]. intros id Hid Hid'. by apply (Hkv id). }
    apply wp_bnd. eapply wp_mono; [apply (del_part_spec n nx o1 s1 (k_vid e) (k_val e) f1 Hh1 (ko_vid _ He)); eauto|]. cbv beta.
    intros r s2 ([Hd2 _] & o2 & f2 & Hh2 & -> & Hf2 & Ha2 & Hl2 & Hn2).
    assert (agree_off (ent_objs e).*1 o o2) as Ha12 by (rewrite Eobj, fmap_app; by eapply agree_trans).
    assert (Forall (part_left o2) (es ≫= ent_objs)) as Hls2.
    { eapply parts_frame; [|exact Hls]. eapply agree_frame; [exact Ha12|]. intros id Hid Hid'. rewrite Eobj, fmap_app in Hid'. by apply (Hdis id). }
    assert (forall id, id ∈ (part_obj (k_kid e) (k_key e)).*1 -> o2 !! id = o1 !! id) as Hk2.
    { eapply agree_frame; [exact Ha2|]. intros id Hid Hid'. by apply (Hkv id). }
    eapply wp_mono; [apply (IH o2 s2 (off + len (enc_kent e)) f2 Hh2); try done|].
    + intros pre x post ->. specialize (Hpk (e :: pre) x post eq_refl). by rewrite bkt_bytes_cons, len_app, Z.add_assoc in Hpk.
    + cbv beta. intros r s3 (Hd3 & o3 & f3 & Hh3 & -> & Hf3 & Ha3 & Hl3 & Hn3). split; [congruence|]. exists o3, f3.
      assert (forall id, id ∈ (ent_objs e).*1 -> o3 !! id = o2 !! id) as H32.
      { eapply agree_frame; [exact Ha3|]. intros id Hid Hid'. rewrite Eobj, fmap_app in Hid. by apply (Hdis id). }
      split_and!; try done.
      * rewrite fmap_app. by eapply agree_trans.
      * apply list.Forall_app. split; [|done]. apply (parts_frame o2); [done|]. rewrite Eobj. apply list.Forall_app. split; [|done]. by apply (parts_frame o1).
      * intros Hfn. destruct (Hn3 Hfn) as [-> Hg3]. destruct (Hn2 eq_refl) as [-> Hg2]. destruct (Hn1 eq_refl) as [-> Hg1]. split; [done|].
        apply gone_app. split; [|done]. apply (gone_frame o2); [done|]. rewrite Eobj. apply gone_app. split; [|done]. by apply (gone_frame o1).
Qed.

Definition unit_ok (r : res unit) : Prop := r = Ok tt.

Lemma get_bkt_any n nx o s id : khold n nx o s -> 0 <= id < 2 ^ 64 ->
  wp (get_bkt id) s (fun r s' => khold n nx o s' /\ dir_buf s' = dir_buf s /\
    ((exists e, fault e /\ r = Err e) \/
     match o !! id with Some b => r = Ok (len b) /\ starts b (bkt_buf s') | None => r = Err ENOENT end)).
Proof.
  intros Hh Hid. destruct (o !! id) as [b|] eqn:E.
  - pose proof (get_bkt_spec n nx o s id b Hh Hid E) as Hg. unfold wp in *.
    assert (dir_buf (get_bkt id s).2 = dir_buf s) as Hd.
    { unfold get_bkt, mbnd, on_dev, mmod. destruct (blob_get id MAX_PAYLOAD (kv_dev s)) as [[x|x] d']; done. }
    destruct (get_bkt id s) as [[a|e] s']; cbn in Hd; destruct Hg as [Hh' Hg].
    + destruct Hg as (-> & Hst & _). split_and!; try done. by right.
    + split_and!; try done. left. eauto.
  - unfold get_bkt. apply wp_bnd, wp_on_dev. eapply wp_mono; [apply (get_law n _ nx o); [apply Hh|done]|]. cbv beta. intros r d [Hd Hr].
    unfold get_reply in Hr. rewrite E in Hr. pose proof (khold_dev _ _ _ _ _ _ s d Hh Hd) as Hh'. destruct Hr as [->|(e & He & ->)]; (split_and!; [done|done|]); [by right|left; eauto].
Qed.

Lemma release_bucket_spec n nx o s k i b : khold n nx o s -> bkt_ok (D := D) k i b -> b.1 <> 0 -> NoDup (bkt_objs b).*1 -> BLOB_ROOT ∉ (bkt_objs b).*1 -> bkt_left o b ->
  wp (release_bucket b.1) s (fun r s' => released n nx o (dir_buf s) (bkt_objs b) (fun o' => bkt_left o' b) unit_ok r s' /\ forall e, r = Err e -> refused e).
Proof.
  intros Hh Hb Hne Hnd Hroot Hleft. assert (bkt_objs b = (b.1, bkt_bytes b.2) :: (b.2 ≫= ent_objs)) as Eb by (destruct b; by apply bkt_objs_used).
  pose proof (bo_id _ _ _ Hb) as Hid. rewrite Eb in Hnd, Hroot. cbn in Hnd, Hroot. apply list.NoDup_cons in Hnd as [Hbn Hnd]. rewrite not_elem_of_cons in Hroot. destruct Hroot as [Hbr Hroot].
  assert (forall r s', (r = Ok tt -> gone o (bkt_objs b)) -> khold n nx o s' -> dir_buf s' = dir_buf s ->
    released n nx o (dir_buf s) (bkt_objs b) (fun o' => bkt_left o' b) unit_ok r s') as Hsame by (intros r s' Hr Hh' Hd; split; [done|]; exists o; by split_and!).
  unfold release_bucket. apply wp_bnd, wp_try. eapply wp_mono; [by apply (get_bkt_any n nx o s b.1)|]. cbv beta.
  intros r s1 (Hh1 & Hd1 & [(e & He & ->)|Hr]).
  { assert (released n nx o (dir_buf s) (bkt_objs b) (fun o' => bkt_left o' b) unit_ok (Err e) s1 /\ forall e', @Err unit e = Err e' -> refused e') as Hq.
    { split; [by apply Hsame|]. intros e' [= <-]. unfold refused. auto. }
    pose proof (fault_plain e He) as (_ & Hn & _). destruct e; try done; exact Hq. }
  destruct Hleft as [Hg|[Hbo Hparts]].
  { rewrite (Hg b.1) in Hr by (rewrite Eb; left). subst r. split; [by apply Hsame|done]. }
  rewrite Hbo in Hr. destruct Hr as [-> [junk Hj]]. apply wp_bnd, wp_gets. rewrite Hj. rewrite parse_bkt by apply Hb.
  apply wp_bnd. eapply wp_mono; [apply (release_ents_spec n nx o s1 b.2 _ 0 None Hh1); try done; [|apply Hb]|].
  { intros pre x post E. rewrite E, bkt_bytes_app, bkt_bytes_cons, <- !app_assoc. apply packed_here. }
  cbv beta. intros r s2 (Hd2 & o2 & f & Hh2 & -> & Hf & Ha2 & Hl2 & Hn2).
  assert (o2 !! b.1 = Some (bkt_bytes b.2)) as Hbo2 by (by rewrite (Ha2 _ Hbn)).
  assert (agree_off (bkt_objs b).*1 o o2) as Ha2'.
  { intros id Hin. apply Ha2. intros Hin'. apply Hin. rewrite Eb. by right. }
  destruct f as [e|].
  { apply wp_fail. split; [|by intros e' [= <-]]. split; [congruence|]. exists o2. split_and!; try done. right. done. }
  destruct (Hn2 eq_refl) as [_ Hg2]. apply wp_bnd, wp_try. eapply wp_mono; [apply (kv_delete_spec n nx o2 s2 b.1 Hh2); [lia|done]|]. cbv beta.
  intros r s3 ([Hd3 _] & o3 & Hh3 & Ha3 & Hr).
  assert (forall id, id ∈ (b.2 ≫= ent_objs).*1 -> o3 !! id = None) as Hg3.
  { intros id Hin. rewrite Ha3; [by apply Hg2|]. intros ->%list_elem_of_singleton. done. }
  assert (agree_off (bkt_objs b).*1 o o3) as Ha3'.
  { intros id Hin. rewrite Ha3; [by apply Ha2'|]. intros ->%list_elem_of_singleton. apply Hin. rewrite Eb. left. }
  assert (o3 !! b.1 = None -> gone o3 (bkt_objs b)) as Hgone by (intros E; rewrite Eb; apply gone_cons; done).
  assert (o3 !! b.1 = None -> released n nx o (dir_buf s) (bkt_objs b) (fun o' => bkt_left o' b) unit_ok (Ok tt) s3 /\ forall e, @Ok unit tt = Err e -> refused e) as Hdone.
  { intros E. split; [|done]. split; [congruence|]. exists o3. split_and!; auto. left. auto. }
  assert (forall e, refused e -> o3 = o2 \/ o3 !! b.1 = None -> released n nx o (dir_buf s) (bkt_objs b) (fun o' => bkt_left o' b) unit_ok (Err e) s3 /\ forall e', @Err unit e = Err e' -> refused e') as Hfail.
  { intros e He Ho. split; [|by intros e' [= <-]]. split; [congruence|]. exists o3. split_and!; try done. destruct Ho as [->|E]; [by right|left; auto]. }
  destruct r as [u|e]; [by apply wp_ret, Hdone|]. destruct e; try (by apply wp_ret, Hdone); destruct Hr; by apply wp_fail, Hfail.
Qed.

(** ** The buckets of one leaf *)

Notation bkts_objs l := (lf_bkts l ≫= bkt_objs).

Definition names (dir : bytes) l : Prop := forall i b, lf_bkts l !! i = Some b -> dir_child dir (Z.of_nat i) = b.1.

Definition none_noted (r : res (option errno)) : Prop := r = Ok None.

Lemma bkt_objs_empty b : b.1 = 0 -> bkt_objs b = [].
Proof. intros E. unfold bkt_objs, spilled. by rewrite E. Qed.

Lemma release_buckets_loop_spec fuel n nx o s l i f : khold n nx o s -> leaf_ok (D := D) l -> names (dir_buf s) l ->
  NoDup (bkts_objs l).*1 -> BLOB_ROOT ∉ (bkts_objs l).*1 -> Forall (bkt_left o) (lf_bkts l) -> (i + fuel = length (lf_bkts l))%nat -> err_ok f ->
  (f = None -> Forall (fun b => gone o (bkt_objs b)) (take i (lf_bkts l))) ->
  wp (release_buckets_loop fuel (Z.of_nat i) f) s (fun r s' => dir_buf s' = dir_buf s /\ exists o' f', khold n nx o' s' /\ r = Ok f' /\ err_ok f' /\
    agree_off (bkts_objs l).*1 o o' /\ Forall (bkt_left o') (lf_bkts l) /\ (f' = None -> gone o' (bkts_objs l))).
Proof.
  intros Hh Hl Hnm Hnd Hroot. revert o s i f Hh Hnm. induction fuel as [|fuel IH]; intros o s i f Hh Hnm Hleft Hi Hf Hpre; cbn [release_buckets_loop].
  - apply wp_ret. split; [done|]. exists o, f. split_and!; try done. intros Hfn. apply gone_bind. rewrite <- (firstn_all (lf_bkts l)). replace (length (lf_bkts l)) with i by lia. by apply Hpre.
  - destruct (lookup_lt_is_Some_2 (lf_bkts l) i ltac:(lia)) as [b Hb]. apply wp_bnd, wp_gets. rewrite (Hnm i b Hb). replace (Z.of_nat i + 1) with (Z.of_nat (S i)) by lia.
    pose proof (take_S_r _ _ _ Hb) as Htk. destruct (Z.eqb_spec b.1 0) as [E0|E0].
    + apply (IH o s (S i) f); try done; [lia|]. intros Hfn. rewrite Htk. apply list.Forall_app. split; [by apply Hpre|]. constructor; [|constructor].
      rewrite (bkt_objs_empty b E0). by intros id ?%not_elem_of_nil.
    + pose proof (lo_bkts _ Hl i b Hb) as Hbk. pose proof (bind_take_out bkt_objs _ i b Hb) as Hperm.
      pose proof Hnd as Hndb. rewrite Hperm, fmap_app, list.NoDup_app in Hndb. destruct Hndb as (Hndb & _ & _).
      pose proof Hroot as Hrb. rewrite Hperm, fmap_app, not_elem_of_app in Hrb. destruct Hrb as [Hrb _].
      apply wp_bnd, wp_try. eapply wp_mono; [apply (release_bucket_spec n nx o s _ i b Hh Hbk E0 Hndb Hrb)|].
      { rewrite list.Forall_forall in Hleft. apply Hleft. apply list_elem_of_lookup. by exists i. }
      cbv beta. intros r s1 [(Hd1 & o1 & Hh1 & Ha1 & Hl1 & Hg1) He1].
      assert (agree_off (bkts_objs l).*1 o o1) as Ha1'.
      { intros id Hin. apply Ha1. intros Hin'. apply Hin. rewrite Hperm, fmap_app. apply elem_of_app. by left. }
      assert (forall j b', lf_bkts l !! j = Some b' -> j <> i -> forall id, id ∈ (bkt_objs b').*1 -> o1 !! id = o !! id) as Hother.
      { intros j b' Hb' Hji. eapply agree_frame; [exact Ha1|]. intros id. by apply (bind_apart bkt_objs (lf_bkts l) j i b' b). }
      eapply wp_mono; [apply (IH o1 s1 (S i) (match r with Ok _ => f | Err e => keep_first f e end)); try done|].
      * by rewrite Hd1.
      * apply list.Forall_forall. intros b' Hin. apply list_elem_of_lookup in Hin as [j Hj]. destruct (decide (j = i)) as [->|Hne]; [by replace b' with b by congruence|].
        apply (bkt_left_frame o); [by apply (Hother j)|apply (lo_bkts _ Hl j b' Hj)|]. rewrite list.Forall_forall in Hleft. apply Hleft. apply list_elem_of_lookup. by exists j.
      * lia.
      * destruct r as [u|e]; [done|]. by apply keep_first_ok, He1.
      * destruct r as [u|e].
        -- intros Hfn. rewrite Htk. apply list.Forall_app. split; [|constructor; [apply Hg1; by destruct u|constructor]].
           specialize (Hpre Hfn). apply list.Forall_forall. intros b' Hin. apply list_elem_of_lookup in Hin as [j Hj]. apply lookup_take_Some in Hj as [Hj Hlt].
           apply (gone_frame o); [apply (Hother j b' Hj); lia|]. rewrite list.Forall_forall in Hpre. apply Hpre. apply list_elem_of_lookup. exists j. by apply lookup_take_Some.
        -- intros Hfn. by destruct f.
      * cbv beta. intros r2 s2 (Hd2 & o2 & f2 & Hh2 & -> & Hf2 & Ha2 & Hl2 & Hg2). split; [congruence|]. exists o2, f2. split_and!; try done.
        intros id Hin. rewrite Ha2, Ha1' by done. done.
Qed.

Lemma release_buckets_spec n nx o s l : khold n nx o s -> leaf_ok (D := D) l -> names (dir_buf s) l ->
  NoDup (bkts_objs l).*1 -> BLOB_ROOT ∉ (bkts_objs l).*1 -> Forall (bkt_left o) (lf_bkts l) ->
  wp (release_buckets (len (lf_bkts l))) s (fun r s' => dir_buf s' = dir_buf s /\ exists o' f', khold n nx o' s' /\ r = Ok f' /\ err_ok f' /\
    agree_off (bkts_objs l).*1 o o' /\ Forall (bkt_left o') (lf_bkts l) /\ (f' = None -> gone o' (bkts_objs l))).
Proof.
  intros. unfold release_buckets, len. rewrite Nat2Z.id. apply (release_buckets_loop_spec _ n nx o s l 0 None); done.
Qed.

Lemma names_dir magic l junk : leaf_ok (D := D) l -> names (dir_bytes magic (lf_ver l) 1 (fst <$> lf_bkts l) ++ junk) l.
Proof.
  intros Hl i b Hb. apply dir_child_at; [apply (dv_ids _ _ _ _ (leaf_valid l Hl))|]. by rewrite list_lookup_fmap, Hb.
Qed.

(** ** The sub-maps *)

Lemma dir_load_raw_any n nx o s id magic ver depth cs : khold n nx o s -> 0 <= id < 2 ^ 64 ->
  o !! id = Some (dir_bytes magic ver depth cs) \/ o !! id = None -> dir_valid (D := D) magic ver depth cs ->
  wp (dir_load_raw id) s (fun r s' => khold n nx o s' /\
    ((exists e, fault e /\ r = Err e) \/
     (o !! id = None /\ r = Err ENOENT) \/
     (o !! id = Some (dir_bytes magic ver depth cs) /\ r = Ok (len cs, depth, magic =? KVHASH_DIR_DYING) /\ starts (dir_bytes magic ver depth cs) (dir_buf s')))).
Proof.
  intros Hh Hid Ho Hv. destruct (o !! id) as [b|] eqn:E.
  - destruct Ho as [[= ->]|]; [|done]. eapply wp_mono; [by apply (dir_load_raw_spec Hmax n nx o s id magic ver depth cs)|]. cbv beta.
    intros [r|e] s' [Hh' Hr]; (split; [done|]); [|left; eauto]. destruct Hr as (-> & ? & _). right. by right.
  - unfold dir_load_raw, get_dir. apply wp_bnd, wp_bnd, wp_on_dev. eapply wp_mono; [apply (get_law n _ nx o); [apply Hh|done]|]. cbv beta. intros r d [Hd Hr].
    unfold get_reply in Hr. rewrite E in Hr. pose proof (khold_dev _ _ _ _ _ _ s d Hh Hd) as Hh'. destruct Hr as [->|(e & He & ->)]; (split; [done|]); [right; by left|left; eauto].
Qed.

Section tree.
Context (root ver : Z) (subs : list kleaf).
Notation t := (Tree root ver subs).
Context (Ht : tree_ok (D := D) t) (Hap : apart t).

Lemma dying_top_valid : dir_valid (D := D) KVHASH_DIR_DYING ver 2 (lf_id <$> subs).
Proof. destruct (top_valid _ _ _ Ht). split; try done. by right. Qed.

Lemma destroy_sub_spec n nx o s i l f : khold n nx o s -> subs !! i = Some l -> o !! root = Some (dying_top ver subs) -> leaf_left o l -> err_ok f ->
  wp (destroy_sub root (Z.of_nat i) f) s (fun r s' => exists o' f', khold n nx o' s' /\ r = Ok f' /\ err_ok f' /\
    agree_off (leaf_objs l).*1 o o' /\ leaf_left o' l /\ (f' = None -> f = None /\ gone o' (leaf_objs l))).
Proof.
  intros Hh Hl Hro Hleft Hf. pose proof Ht as (Hn & _ & Hroot & Hfl & _). assert (leaf_ok (D := D) l) as Hlo by by eapply Forall_lookup_1.
  assert (forall e s', refused e -> khold n nx o s' -> wp (mret (keep_first f e)) s' (fun r s' => exists o' f', khold n nx o' s' /\ r = Ok f' /\ err_ok f' /\
    agree_off (leaf_objs l).*1 o o' /\ leaf_left o' l /\ (f' = None -> f = None /\ gone o' (leaf_objs l)))) as Hkeep.
  { intros e s' He Hh'. destruct (keep_first_ok f e Hf He). apply wp_ret. exists o, (keep_first f e). by split_and!. }
  assert (forall e : errno, fault e -> refused e) as Hfr by (unfold refused; auto).
  unfold destroy_sub. apply wp_bnd, wp_try. eapply wp_mono; [apply (dir_load_raw_any n nx o s root KVHASH_DIR_DYING ver 2 (lf_id <$> subs) Hh); [lia|by left|apply dying_top_valid]|].
  cbv beta. intros r s1 (Hh1 & [(e & He & ->)|[[E _]|(_ & -> & [junk Hj])]]); [by apply Hkeep; auto|congruence|]. rewrite len_fmap.
  pose proof (lookup_lt_Some _ _ _ Hl) as Hlt. destruct (Z.ltb_spec (Z.of_nat i) (len subs)); [|unfold len in *; lia]. cbn [negb].
  apply wp_bnd, wp_gets. assert (dir_child (dir_buf s1) (Z.of_nat i) = lf_id l) as ->.
  { rewrite Hj. apply dir_child_at; [apply (dv_ids _ _ _ _ dying_top_valid)|]. by rewrite list_lookup_fmap, Hl. }
  pose proof (lo_id _ Hlo) as Hid. destruct (Z.eqb_spec (lf_id l) 0); [lia|].
  assert (o !! lf_id l = Some (leaf_dir l) \/ o !! lf_id l = None) as Hld.
  { destruct Hleft as [Hg|[Hd _]]; [right; apply Hg; left|by left]. }
  apply wp_bnd, wp_try. eapply wp_mono; [apply (dir_load_raw_any n nx o s1 (lf_id l) KVHASH_DIR_MAGIC (lf_ver l) 1 (fst <$> lf_bkts l) Hh1); [lia|exact Hld|by apply leaf_valid]|].
  cbv beta. intros r s2 (Hh2 & [(e & He & ->)|[(E & ->)|(E & -> & [junk2 Hj2])]]).
  { pose proof (Hkeep e s2 (Hfr e He) Hh2) as Hq. pose proof (fault_plain e He) as (_ & Hne & _). destruct e; try done; exact Hq. }
  { apply wp_ret. exists o, f. split_and!; try done. intros Hfn. split; [done|]. destruct Hleft as [Hg|[Hd _]]; [done|congruence]. }
  destruct Hleft as [Hg|[_ Hbl]]; [by rewrite (Hg (lf_id l)) in E by left|].
  destruct Hap as [Hnd Hroot']. cbn in Hnd, Hroot'. apply list.NoDup_cons in Hnd as [_ Hnd]. rewrite not_elem_of_cons in Hroot'. destruct Hroot' as [_ Hrr].
  rewrite (bind_take_out leaf_objs subs i l Hl), fmap_app in Hnd, Hrr. apply list.NoDup_app in Hnd as (Hnd & _ & _). rewrite not_elem_of_app in Hrr. destruct Hrr as [Hrr _].
  cbn in Hnd, Hrr. apply list.NoDup_cons in Hnd as [Hidn Hnd]. rewrite not_elem_of_cons in Hrr. destruct Hrr as [Hidr Hrr].
  rewrite len_fmap. apply wp_bnd. eapply wp_mono; [apply (release_buckets_spec n nx o s2 l Hh2 Hlo); try done|].
  { rewrite Hj2. by apply names_dir. }
  cbv beta. intros r s3 (_ & o3 & f3 & Hh3 & -> & Hf3 & Ha3 & Hl3 & Hg3).
  assert (o3 !! lf_id l = Some (leaf_dir l)) as Hd3 by (by rewrite (Ha3 _ Hidn)).
  assert (agree_off (leaf_objs l).*1 o o3) as Ha3' by (intros id Hin; apply Ha3; intros Hin'; apply Hin; by right).
  destruct f3 as [e|].
  { destruct (keep_first_ok f e Hf Hf3). apply wp_ret. exists o3, (keep_first f e). split_and!; try done. by right. }
  specialize (Hg3 eq_refl). apply wp_bnd, wp_try. eapply wp_mono; [apply (kv_delete_spec n nx o3 s3 (lf_id l) Hh3); [lia|done]|]. cbv beta.
  intros r s4 (_ & o4 & Hh4 & Ha4 & Hr).
  assert (forall id, id ∈ (bkts_objs l).*1 -> o4 !! id = None) as Hg4.
  { intros id Hin. rewrite Ha4; [by apply Hg3|]. intros ->%list_elem_of_singleton. done. }
  assert (agree_off (leaf_objs l).*1 o o4) as Ha4'.
  { intros id Hin. rewrite Ha4; [by apply Ha3'|]. intros ->%list_elem_of_singleton. apply Hin. left. }
  assert (o4 !! lf_id l = None -> gone o4 (leaf_objs l)) as Hgone by (intros E4; apply gone_cons; done).
  assert (o4 !! lf_id l = None -> wp (mret f) s4 (fun r s' => exists o' f', khold n nx o' s' /\ r = Ok f' /\ err_ok f' /\
    agree_off (leaf_objs l).*1 o o' /\ leaf_left o' l /\ (f' = None -> f = None /\ gone o' (leaf_objs l)))) as Hdone.
  { intros E4. apply wp_ret. exists o4, f. split_and!; auto. left. auto. }
  assert (forall e, refused e -> o4 = o3 \/ o4 !! lf_id l = None -> wp (mret (keep_first f e)) s4 (fun r s' => exists o' f', khold n nx o' s' /\ r = Ok f' /\ err_ok f' /\
    agree_off (leaf_objs l).*1 o o' /\ leaf_left o' l /\ (f' = None -> f = None /\ gone o' (leaf_objs l)))) as Hfail.
  { intros e He Ho. destruct (keep_first_ok f e Hf He). apply wp_ret. exists o4, (keep_first f e). split_and!; try done. destruct Ho as [->|E4]; [by right|left; auto]. }
  destruct r as [u|e]; [by apply Hdone|]. destruct e; try (by apply Hdone); destruct Hr; by apply Hfail.
Qed.

Lemma root_apart i l : subs !! i = Some l -> root ∉ (leaf_objs l).*1.
Proof.
  intros Hl Hin. destruct Hap as [Hnd _]. cbn in Hnd. apply list.NoDup_cons in Hnd as [Hn _]. apply Hn.
  rewrite (bind_take_out leaf_objs subs i l Hl), fmap_app. apply elem_of_app. by left.
Qed.

Lemma destroy_subs_spec fuel n nx o s i f : khold n nx o s -> o !! root = Some (dying_top ver subs) -> Forall (leaf_left o) subs ->
  (i + fuel = length subs)%nat -> err_ok f -> (f = None -> Forall (fun l => gone o (leaf_objs l)) (take i subs)) ->
  wp (destroy_subs fuel root (Z.of_nat i) f) s (fun r s' => exists o' f', khold n nx o' s' /\ r = Ok f' /\ err_ok f' /\
    agree_off (subs ≫= leaf_objs).*1 o o' /\ Forall (leaf_left o') subs /\ o' !! root = Some (dying_top ver subs) /\ (f' = None -> gone o' (subs ≫= leaf_objs))).
Proof.
  revert o s i f. induction fuel as [|fuel IH]; intros o s i f Hh Hro Hleft Hi Hf Hpre; cbn [destroy_subs].
  - apply wp_ret. exists o, f. split_and!; try done. intros Hfn. apply gone_bind. rewrite <- (firstn_all subs). replace (length subs) with i by lia. by apply Hpre.
  - destruct (lookup_lt_is_Some_2 subs i ltac:(lia)) as [l Hl]. pose proof Ht as (_ & _ & _ & Hfl & _). pose proof (take_S_r _ _ _ Hl) as Htk.
    apply wp_bnd. eapply wp_mono; [apply (destroy_sub_spec n nx o s i l f Hh Hl Hro); [|done]|].
    { rewrite list.Forall_forall in Hleft. apply Hleft. apply list_elem_of_lookup. by exists i. }
    cbv beta. intros r s1 (o1 & f1 & Hh1 & -> & Hf1 & Ha1 & Hl1 & Hg1).
    assert (forall j l', subs !! j = Some l' -> j <> i -> forall id, id ∈ (leaf_objs l').*1 -> o1 !! id = o !! id) as Hother.
    { intros j l' Hl' Hji. eapply agree_frame; [exact Ha1|]. intros id. destruct Hap as [Hnd _]. cbn in Hnd. apply list.NoDup_cons in Hnd as [_ Hnd].
      by apply (bind_apart leaf_objs subs j i l' l). }
    replace (Z.of_nat i + 1) with (Z.of_nat (S i)) by lia. eapply wp_mono; [apply (IH o1 s1 (S i) f1); try done|].
    + rewrite Ha1; [done|]. by apply (root_apart i).
    + apply list.Forall_forall. intros l' Hin. apply list_elem_of_lookup in Hin as [j Hj]. destruct (decide (j = i)) as [->|Hne]; [by replace l' with l by congruence|].
      apply (leaf_left_frame o); [by eapply Forall_lookup_1|by apply (Hother j)|]. rewrite list.Forall_forall in Hleft. apply Hleft. apply list_elem_of_lookup. by exists j.
    + lia.
    + intros Hfn. destruct (Hg1 Hfn) as [Hfo Hg]. rewrite Htk. apply list.Forall_app. split; [|by constructor; [|constructor]].
      specialize (Hpre Hfo). apply list.Forall_forall. intros l' Hin. apply list_elem_of_lookup in Hin as [j Hj]. apply lookup_take_Some in Hj as [Hj Hlt].
      apply (gone_frame o); [apply (Hother j l' Hj); lia|]. rewrite list.Forall_forall in Hpre. apply Hpre. apply list_elem_of_lookup. exists j. by apply lookup_take_Some.
    + cbv beta. intros r s2 (o2 & f2 & Hh2 & -> & Hf2 & Ha2 & Hl2 & Hr2 & Hg2). exists o2, f2. split_and!; try done.
      intros id Hin. rewrite Ha2 by done. apply Ha1. intros Hin'. apply Hin. rewrite (bind_take_out leaf_objs subs i l Hl), fmap_app. apply elem_of_app. by left.
Qed.
End tree.

(** ** The whole map *)

Definition dying_image t : bytes := match t with Flat l => dying_dir l | Tree _ ver subs => dying_top ver subs end.
Definition rest_objs t : list (Z * bytes) := match t with Flat l => bkts_objs l | Tree _ _ subs => subs ≫= leaf_objs end.
Definition live_image t : bytes := match t with Flat l => leaf_dir l | Tree _ ver subs => top_dir ver subs end.

Lemma tree_objs_root t : tree_objs t = (tree_root t, live_image t) :: rest_objs t.
Proof. by destruct t. Qed.

Lemma condemned_root o t : condemned o t -> o !! tree_root t = Some (dying_image t).
Proof. by destruct t; intros [? _]. Qed.

Lemma stored_bkt_left o b : (b.1 = 0 -> b.2 = []) -> stored o (bkt_objs b) -> bkt_left o b.
Proof.
  intros He Hs. destruct (Z.eq_dec b.1 0) as [E|E]; [left; rewrite (bkt_objs_empty b E); by intros id ?%not_elem_of_nil|]. right.
  assert (bkt_objs b = (b.1, bkt_bytes b.2) :: (b.2 ≫= ent_objs)) as Eb by (destruct b; by apply bkt_objs_used). rewrite Eb, stored_cons in Hs.
  destruct Hs as (Hb & _ & _ & Hs). split; [done|]. apply list.Forall_forall. intros x Hx. left. destruct x. by apply (stored_elem o _ _ _ Hs Hx).
Qed.

Lemma stored_bkts_left o l : leaf_ok (D := D) l -> stored o (bkts_objs l) -> Forall (bkt_left o) (lf_bkts l).
Proof.
  intros Hl Hs. apply list.Forall_forall. intros b Hin. apply list_elem_of_lookup in Hin as [i Hi].
  rewrite (bind_take_out bkt_objs _ i b Hi), stored_app in Hs. apply stored_bkt_left; [apply (lo_bkts _ Hl i b Hi)|apply Hs].
Qed.

(** Writing the condemned directory over the live one. *)
Lemma condemn o t : tree_ok (D := D) t -> stored o (tree_objs t) -> condemned (<[tree_root t := dying_image t]> o) t.
Proof.
  intros Ht Hs. assert (stored (<[tree_root t := dying_image t]> o) (rest_objs t)) as Hr.
  { rewrite tree_objs_root, stored_cons in Hs. apply stored_put_other; tauto. }
  destruct t as [l|root ver subs]; cbn in *; (split; [by rewrite lookup_insert_eq|]); [by apply stored_bkts_left|].
  destruct Ht as (_ & _ & _ & Hf & _). apply list.Forall_forall. intros l Hin. apply list_elem_of_lookup in Hin as [i Hi].
  rewrite (bind_take_out leaf_objs _ i l Hi), stored_app in Hr. destruct Hr as (Hl & _ & _). unfold leaf_objs in Hl. rewrite stored_cons in Hl.
  right. split; [apply Hl|]. apply stored_bkts_left; [by eapply Forall_lookup_1|apply Hl].
Qed.

Lemma condemned_frame o o' t : tree_ok (D := D) t -> (forall id, id ∈ (tree_objs t).*1 -> o' !! id = o !! id) -> condemned o t -> condemned o' t.
Proof.
  intros Ht Hf. rewrite tree_objs_root in Hf. destruct t as [l|root ver subs]; cbn in *.
  - intros [Hd Hb]. split; [rewrite Hf; [done|left]|]. rewrite list.Forall_forall in *. intros b Hin. apply list_elem_of_lookup in Hin as [i Hi].
    apply (bkt_left_frame o); [|apply (lo_bkts _ Ht i b Hi)|by apply Hb; apply list_elem_of_lookup; exists i].
    intros id Hid. apply Hf. right. rewrite (bind_take_out bkt_objs _ i b Hi), fmap_app. apply elem_of_app. by left.
  - intros [Hd Hl]. destruct Ht as (_ & _ & _ & Hfl & _). split; [rewrite Hf; [done|left]|]. rewrite list.Forall_forall in *. intros l Hin.
    apply list_elem_of_lookup in Hin as [i Hi]. assert (l ∈ subs) as Hin by (apply list_elem_of_lookup; by exists i). apply (leaf_left_frame o); [by apply Hfl| |by apply Hl].
    intros id Hid. apply Hf. right. rewrite (bind_take_out leaf_objs _ i l Hi), fmap_app. apply elem_of_app. by left.
Qed.

(** How a destroy ends: everything released, or refused with the map untouched,
    or condemned. *)
Definition destroy_post (n : nat) (nx : Z) o t (r : res unit) s : Prop :=
  exists o', khold n nx o' s /\ agree_off (tree_objs t).*1 o o' /\
    ((r = Ok tt /\ gone o' (tree_objs t)) \/
     (exists e, refused e /\ r = Err e /\ (o' = o \/ condemned o' t \/ (tears /\ gone o' (tree_objs t))))).

Lemma delete_root n nx o s t : khold n nx o s -> tree_ok (D := D) t -> apart t -> condemned o t -> gone o (rest_objs t) -> forall o0, agree_off (tree_objs t).*1 o0 o ->
  wp (kv_delete (tree_root t)) s (destroy_post n nx o0 t).
Proof.
  intros Hh Ht Hap Hc Hg o0 Ha. pose proof (condemned_root o t Hc) as Hr. pose proof (obs_wf_lookup _ _ _ _ _ (khold_wf _ _ _ _ Hh) Hr) as (Hid & _).
  pose proof (proj1 (khold_wf _ _ _ _ Hh)) as Hnx.
  assert (tree_root t <> BLOB_ROOT) as Hne. { destruct Hap as [_ Hn]. rewrite tree_objs_root in Hn. intros E. apply Hn. rewrite <- E. left. }
  assert (gone (delete (tree_root t) o) (tree_objs t)) as Hgone.
  { rewrite tree_objs_root. apply gone_cons. split; [by rewrite lookup_delete_eq|]. intros id Hin. destruct (decide (id = tree_root t)) as [->|Hd]; [by rewrite lookup_delete_eq|].
    rewrite lookup_delete_ne by done. by apply Hg. }
  assert (agree_off (tree_objs t).*1 o0 (delete (tree_root t) o)) as Ha'.
  { intros id Hin. rewrite lookup_delete_ne; [by apply Ha|]. intros <-. apply Hin. rewrite tree_objs_root. left. }
  unfold kv_delete. apply wp_on_dev. eapply wp_mono; [apply (delete_law n _ nx o); [apply Hh|lia|done]|]. cbv beta. rewrite Hr. intros r d Hd.
  assert (forall o', holds n nx o' d -> khold n nx o' (set_dev d s)) as Hk by (intros; by eapply khold_dev).
  destruct Hd as [[-> Hd]|[(e & He & -> & Hd)|(e & Htr & He & -> & Hd)]].
  - exists (delete (tree_root t) o). split_and!; auto.
  - exists o. split_and!; auto. right. exists e. split_and!; [unfold refused; destruct He; auto|done|]. right. by left.
  - exists (delete (tree_root t) o). split_and!; auto. right. exists e. split_and!; [unfold refused; auto|done|]. right. by right.
Qed.

(** Releasing a condemned map, whose directory is in dir_buf when it is flat. *)
Lemma release_condemned n nx o s t k depth : khold n nx o s -> tree_ok (D := D) t -> apart t -> condemned o t ->
  match t with Flat l => k = len (lf_bkts l) /\ depth = 1 /\ names (dir_buf s) l | Tree _ _ subs => k = len subs /\ depth = 2 end ->
  forall o0, agree_off (tree_objs t).*1 o0 o ->
  wp (let* first_err := (if depth =? 1 then release_buckets k else destroy_subs (Z.to_nat k) (tree_root t) 0 None) in
      match first_err with Some e => mfail e | None => kv_delete (tree_root t) end) s (destroy_post n nx o0 t).
Proof.
  intros Hh Ht Hap Hc Hk o0 Ha.
  assert (wp (if depth =? 1 then release_buckets k else destroy_subs (Z.to_nat k) (tree_root t) 0 None) s (fun r s' => exists o' f', khold n nx o' s' /\ r = Ok f' /\ err_ok f' /\
    agree_off (rest_objs t).*1 o o' /\ condemned o' t /\ (f' = None -> gone o' (rest_objs t)))) as Hrel.
  { destruct t as [l|root ver subs]; cbn in Hc, Ht.
    - destruct Hk as (-> & -> & Hnm), Hc as [Hd Hb]. destruct Hap as [Hnd Hnr]. cbn in Hnd, Hnr. apply list.NoDup_cons in Hnd as [Hin Hnd]. rewrite not_elem_of_cons in Hnr. destruct Hnr as [_ Hnr].
      eapply wp_mono; [by apply (release_buckets_spec n nx o s l)|]. cbv beta. intros r s1 (_ & o1 & f1 & Hh1 & -> & Hf1 & Ha1 & Hl1 & Hg1).
      exists o1, f1. split_and!; try done. cbn. split; [|done]. by rewrite (Ha1 _ Hin).
    - destruct Hk as (-> & ->), Hc as [Hd Hb]. cbn [Z.eqb Pos.eqb]. unfold len. rewrite Nat2Z.id.
      eapply wp_mono; [apply (destroy_subs_spec root ver subs Ht Hap _ n nx o s 0 None); try done|].
      cbv beta. intros r s1 (o1 & f1 & Hh1 & -> & Hf1 & Ha1 & Hl1 & Hr1 & Hg1). exists o1, f1. by split_and!. }
  apply wp_bnd. eapply wp_mono; [exact Hrel|]. cbv beta. intros r s1 (o1 & f1 & Hh1 & -> & Hf1 & Ha1 & Hc1 & Hg1).
  assert (agree_off (tree_objs t).*1 o0 o1) as Ha2.
  { intros id Hin. rewrite Ha1, Ha; [done|done|]. intros Hin'. apply Hin. rewrite tree_objs_root. by right. }
  destruct f1 as [e|]; [|by eapply delete_root; eauto]. apply wp_fail. exists o1. split_and!; try done. right. exists e. split_and!; auto.
Qed.

Definition tree_n t : Z := match t with Flat l => len (lf_bkts l) | Tree _ _ subs => len subs end.
Definition tree_depth t : Z := match t with Flat _ => 1 | Tree _ _ _ => 2 end.
Definition tree_ver t : Z := match t with Flat l => lf_ver l | Tree _ ver _ => ver end.
Definition tree_children t : list Z := match t with Flat l => fst <$> lf_bkts l | Tree _ _ subs => lf_id <$> subs end.

Lemma tree_valid t magic : tree_ok (D := D) t -> magic = KVHASH_DIR_MAGIC \/ magic = KVHASH_DIR_DYING -> dir_valid (D := D) magic (tree_ver t) (tree_depth t) (tree_children t).
Proof.
  intros Ht Hm. destruct t as [l|root ver subs]; [destruct (leaf_valid l Ht)|destruct (top_valid _ _ _ Ht)]; by split.
Qed.

Lemma len_children t : len (tree_children t) = tree_n t.
Proof. destruct t; apply len_fmap. Qed.

Lemma tree_root_range t : tree_ok (D := D) t -> 0 < tree_root t < 2 ^ 64.
Proof. destruct t; [intros Ht; apply (lo_id _ Ht)|by intros (_ & _ & ? & _)]. Qed.

Lemma destroy_spec n nx o s t : khold n nx o s -> tree_ok (D := D) t -> apart t -> stored o (tree_objs t) \/ condemned o t ->
  wp (kvhash_destroy (tree_root t)) s (destroy_post n nx o t).
Proof.
  intros Hh Ht Hap Hst. pose proof (tree_root_range t Ht) as Hid.
  assert (forall e s', refused e -> khold n nx o s' -> destroy_post n nx o t (Err e) s') as Hno.
  { intros e s' He Hh'. exists o. split_and!; try done. right. eauto. }
  assert (exists magic, (magic = KVHASH_DIR_MAGIC \/ magic = KVHASH_DIR_DYING) /\ o !! tree_root t = Some (dir_bytes magic (tree_ver t) (tree_depth t) (tree_children t)) /\
    if magic =? KVHASH_DIR_DYING then condemned o t else stored o (tree_objs t)) as (magic & Hm & Hro & Hwhich).
  { destruct Hst as [Hs|Hc]; [exists KVHASH_DIR_MAGIC|exists KVHASH_DIR_DYING].
    - split; [by left|]. split; [|done]. rewrite tree_objs_root, stored_cons in Hs. destruct Hs as [Hs _]. by destruct t.
    - split; [by right|]. split; [|done]. rewrite (condemned_root o t Hc). by destruct t. }
  unfold kvhash_destroy. eapply wp_orf; [apply (dir_load_raw_spec Hmax n nx o s (tree_root t) magic (tree_ver t) (tree_depth t) (tree_children t) Hh); [lia|done|by apply tree_valid]| |].
  2: { intros e s' Hh' He. apply Hno; [|done]. unfold refused. auto. }
  intros r s1 Hh1 (-> & [junk Hj] & _). rewrite len_children.
  assert (forall s' o', khold n nx o' s' -> condemned o' t -> agree_off (tree_objs t).*1 o o' -> starts (dying_image t) (dir_buf s') \/ starts (live_image t) (dir_buf s') ->
    wp (let* first_err := (if tree_depth t =? 1 then release_buckets (tree_n t) else destroy_subs (Z.to_nat (tree_n t)) (tree_root t) 0 None) in
        match first_err with Some e => mfail e | None => kv_delete (tree_root t) end) s' (destroy_post n nx o t)) as Hgo.
  { intros s' o' Hh' Hc' Ha' Hdir. apply (release_condemned n nx o' s' t); try done. destruct t as [l|]; [|done]. split_and!; try done.
    destruct Hdir as [[j ->]|[j ->]]; by apply names_dir. }
  destruct (magic =? KVHASH_DIR_DYING) eqn:Emg.
  - apply wp_bnd, wp_ret. apply (Hgo s1 o); try done. left. apply Z.eqb_eq in Emg. subst magic. exists junk. rewrite Hj. by destruct t.
  - assert (magic = KVHASH_DIR_MAGIC) as -> by (destruct Hm as [|Hm]; [done|by rewrite Hm in Emg]).
    apply wp_bnd, wp_bnd, wp_mod, wp_bnd, wp_gets. cbn [dir_buf set_dir]. rewrite Hj, dir_put_magic. rewrite <- len_children, dir_take, len_children.
    assert (dir_bytes KVHASH_DIR_DYING (tree_ver t) (tree_depth t) (tree_children t) = dying_image t) as -> by by destruct t.
    pose proof (obs_wf_lookup _ _ _ _ _ (khold_wf _ _ _ _ Hh1) Hro) as (Hidn & _ & Hfit).
    assert (len (dying_image t ++ junk) = MAX_PAYLOAD) as Hlen.
    { destruct Hh1 as (_ & Hb & _). rewrite <- Hb, Hj, !len_app. f_equal. destruct t; cbn; unfold dying_dir, dying_top; by rewrite !len_dir_bytes. }
    assert (byte_ok (tree_ver t)) as Hver.
    { pose proof (dv_ver _ _ _ _ (tree_valid t KVHASH_DIR_MAGIC Ht ltac:(by left))) as Hv. unfold KVHASH_VERSION, KVHASH_VERSION_MIN, byte_ok in *. lia. }
    eapply wp_mono; [apply (kv_update_spec n nx o _ (tree_root t) (dying_image t)); [|done| |]|].
    + destruct Hh1 as (H1 & _ & H3). by split_and!.
    + destruct t; apply bytes_ok_dir; done.
    + rewrite <- Hlen, len_app. pose proof (len_nonneg junk). lia.
    + cbv beta. assert (condemned (<[tree_root t:=dying_image t]> o) t) as Hcd by by apply condemn.
      assert (agree_off (tree_objs t).*1 o (<[tree_root t:=dying_image t]> o)) as Hag.
      { intros id Hin. rewrite lookup_insert_ne; [done|]. intros <-. apply Hin. rewrite tree_objs_root. left. }
      intros r s2 [[Hd2 _] [[-> Hh2]|[(e & Hre & -> & Hh2)|(e & Htr & He & -> & Hh2)]]].
      * apply (Hgo s2 (<[tree_root t:=dying_image t]> o)); try done. left. exists junk. by rewrite Hd2.
      * apply Hno; [|done]. unfold refused. destruct Hre; auto.
      * exists (<[tree_root t:=dying_image t]> o). split_and!; try done. right. exists e. split_and!; [unfold refused; auto|done|]. right. by left.
Qed.

(** A condemned map answers nothing but [kvhash_destroy()]. *)
Lemma condemned_load n nx o s t : khold n nx o s -> tree_ok (D := D) t -> condemned o t ->
  wp (dir_load (tree_root t)) s (fun r s' => khold n nx o s' /\ (r = Err ENOENT \/ exists e, fault e /\ r = Err e)).
Proof.
  intros Hh Ht Hc. pose proof (tree_root_range t Ht) as Hid. unfold dir_load.
  eapply wp_orf; [apply (dir_load_raw_spec Hmax n nx o s (tree_root t) KVHASH_DIR_DYING (tree_ver t) (tree_depth t) (tree_children t) Hh); [lia| |apply tree_valid; auto]| |].
  - rewrite (condemned_root o t Hc). by destruct t.
  - intros r s1 Hh1 (-> & _). apply wp_fail. split; [done|by left].
  - intros e s' Hh' He. split; [done|]. eauto.
Qed.
End destroy.
