(* ===== verification/KvHashRuns.v ===== *)
(** Sequences of calls on a kvhash map, and the finite map they run on. *)

From S2P Require Import BlobIface Prelude Layout Records KvHash KvHashRep KvHashRead KvHashOps KvHashSet KvHashWalk.

Inductive kv_call :=
  | KvGet (key : bytes) (sz : Z)
  | KvSet (key val : bytes)
  | KvDel (key : bytes)
  | KvCount.

Inductive kv_reply :=
  | KrBytes (r : res bytes)
  | KrRc (r : res unit)
  | KrCount (r : res Z).

Definition kv_call_ok (c : kv_call) : Prop := match c with KvSet key val => bytes_ok key /\ bytes_ok val | _ => True end.

Section kv_runs.
Context `{Crc} {D : Type} `{!Blobs D} {CL : CrcLaws _} {L : BlobLaws D}.
Notation MAX_PAYLOAD := (blob_max (D := D)).
Notation kvh := (kvh (D := D)).
Implicit Types (s : kvh) (o : objs) (m : gmap bytes bytes) (t : kvtree).

Definition reply_of {A} (f : res A -> kv_reply) (m : M kvh A) s : kv_reply * kvh := let (r, s') := m s in (f r, s').

Definition kv_exec (root : Z) (c : kv_call) : kvh -> kv_reply * kvh :=
  match c with
  | KvGet key sz => reply_of KrBytes (kvhash_get root (Some key) sz)
  | KvSet key val => reply_of KrRc (kvhash_set root (Some key) (Some val))
  | KvDel key => reply_of KrRc (kvhash_del root (Some key))
  | KvCount => reply_of KrCount (kvhash_count root false)
  end.

Fixpoint kv_run (root : Z) (cs : list kv_call) s : list kv_reply * kvh :=
  match cs with
  | [] => ([], s)
  | c :: cs =>
      let (r, s) := kv_exec root c s in
      let (rs, s) := kv_run root cs s in
      (r :: rs, s)
  end.

(** One call on the finite map [m]: the reply, and the map after it. A refused
    call changes nothing. *)
Definition kv_step m (c : kv_call) (r : kv_reply) m' : Prop :=
  match c with
  | KvGet key sz => m' = m /\ (r = KrBytes (kv_get_reply m key sz) \/ exists e, fault e /\ r = KrBytes (Err e))
  | KvSet key val =>
      (r = KrRc (Ok tt) /\ m' = <[key := val]> m /\ 0 < len key <= ENT_LEN_MASK /\ len val <= ENT_LEN_MASK) \/
      (m' = m /\ exists e, r = KrRc (Err e) /\
        (refused e \/ e = ENOSPC \/ (e = EINVAL /\ (len key = 0 \/ 0xffff < len key \/ 0xffff < len val \/ MAX_PAYLOAD < len val))))
  | KvDel key =>
      (r = KrRc (del_want m key).1 /\ m' = (del_want m key).2) \/ (m' = m /\ exists e, refused e /\ r = KrRc (Err e))
  | KvCount => m' = m /\ (r = KrCount (Ok (u32 (Z.of_nat (size m)))) \/ exists e, fault e /\ r = KrCount (Err e))
  end.

Inductive kv_steps : gmap bytes bytes -> list kv_call -> list kv_reply -> gmap bytes bytes -> Prop :=
  | kv_done m : kv_steps m [] [] m
  | kv_more m c r m1 cs rs m2 : kv_step m c r m1 -> kv_steps m1 cs rs m2 -> kv_steps m (c :: cs) (r :: rs) m2.

Context (Hmax : 24 <= MAX_PAYLOAD <= ENT_LEN_MASK) (Hsteady : ~ tears (D := D)).

(** A call that changes nothing it is asked to keep. *)
Lemma became_kept n nx o t s : khold n nx o s -> tree_ok (D := D) t -> stored o (tree_objs t) -> became n nx o t t s.
Proof. apply became_same. Qed.

Lemma reply_wp {A} (f : res A -> kv_reply) (m : M kvh A) s (Q : kv_reply -> kvh -> Prop) :
  wp m s (fun r s' => Q (f r) s') -> let (r, s') := reply_of f m s in Q r s'.
Proof. unfold wp, reply_of. by destruct (m s). Qed.

Lemma kv_exec_step n nx o s t c : khold (3 + n) nx o s -> tree_ok (D := D) t -> stored o (tree_objs t) -> kv_call_ok c ->
  let (r, s') := kv_exec (tree_root t) c s in exists t', became n nx o t t' s' /\ kv_step (tree_map t) c r (tree_map t').
Proof.
  intros Hh Ht Hs Hc. assert (khold n nx o s) as Hh0 by (eapply khold_le; [|exact Hh]; lia).
  assert (kvmap o (tree_root t) (tree_map t)) as Hm by (by exists t). destruct c as [key sz|key val|key|]; cbn [kv_exec].
  - apply reply_wp. eapply wp_mono; [by apply (get_spec Hmax n nx o s (tree_root t) (tree_map t) key sz)|]. cbv beta. intros r s' [Hh' Hr].
    exists t. split; [by apply became_kept|]. split; [done|]. destruct Hr as [->|(e & He & ->)]; eauto.
  - destruct Hc as [Hk Hv]. apply reply_wp. eapply wp_mono; [by apply (set_spec Hmax Hsteady n nx o s t key val)|]. cbv beta.
    intros r s' (t' & Hb & Hr). exists t'. split; [done|]. unfold kv_step, set_want, bind_want in *. pose proof (len_nonneg key).
    destruct Hr as [[-> Hm']|(e & He & -> & Hm')]; [|right; split; [by destruct Hm' as [?|[? _]]|exists e; auto]].
    destruct (_ || _ || _) eqn:E1; [right; split; [done|]; exists EINVAL; split; [done|]; right; right; split; [done|lia]|].
    destruct (_ || _) eqn:E2 in Hm' |- *; [right; split; [done|]; exists ENOSPC; auto|]. 
    destruct (_ && _) in Hm' |- *; [right; split; [done|]; exists ENOSPC; auto|].
    destruct (_ >? _) in Hm' |- *; [right; split; [done|]; exists ENOSPC; auto|].
    destruct (_ && _) eqn:E3 in Hm' |- *; [right; split; [done|]; exists EINVAL; split; [done|]; right; right; split; [done|lia]|].
    left. split_and!; try done; lia.
  - apply reply_wp. eapply wp_mono; [by apply (del_spec Hmax n nx o s t key)|]. cbv beta. intros r s' (t' & Hb & Hr). exists t'. split; [done|].
    destruct Hr as [[-> ->]|(e & He & -> & Hm')]; [by left|right]. split; [by destruct Hm' as [?|[? _]]|eauto].
  - apply reply_wp. eapply wp_mono; [by apply (count_spec Hmax n nx o s (tree_root t) (tree_map t))|]. cbv beta. intros [c|e] s' [Hh' Hr].
    + exists t. split; [by apply became_kept|]. split; [done|]. subst c. by left.
    + exists t. split; [by apply became_kept|]. split; [done|]. right. eauto.
Qed.
End kv_runs.
