(* ===== verification/Kvdb.v ===== *)
(** kvdb.c: named maps. The registry entry of a name points at a small meta
    object, the meta names the back end and the root of its structure, and the
    calls go to that back end's operations. *)

From S2P Require Import BlobIface Prelude Layout Records RootReg KvHash.

Definition KVDB_MAGIC : Z := 0x4b564442.
Definition KVDB_META_VERSION : Z := 1.
Definition KVDB_NAME_MAX : Z := 15.

(** [enum kvdb_backend]. *)
Definition KVDB_BACKEND_DEFAULT : Z := 0.
Definition KVDB_BACKEND_HASH : Z := 1.
Definition KVDB_BACKEND_TREE : Z := 2.
Definition KVDB_BACKEND_LIST : Z := 3.
Definition KVDB_DEFAULT_BACKEND : Z := KVDB_BACKEND_HASH.

(** [ROOTREG_KEY()] of rootreg.h. *)
Definition ROOTREG_KEY (magic32 instance32 : Z) : Z := Z.lor (u64 (Z.shiftl (u32 magic32) 32)) (u32 instance32).

(** ** The meta object *)

Record kvdb_meta := mk_kvdb_meta {
  km_magic : Z; km_backend : Z; km_version : Z; km_name_len : Z; km_rsvd : Z; km_struct_root : Z; km_name : bytes }.

Definition KVDB_META_LEN : Z := 32.

Definition enc_kvdb_meta (m : kvdb_meta) : bytes :=
  le 4 (km_magic m) ++ [km_backend m; km_version m; km_name_len m; km_rsvd m] ++ le 8 (km_struct_root m) ++ km_name m.

Definition dec_kvdb_meta (b : bytes) : kvdb_meta :=
  mk_kvdb_meta (rd 4 0 b) (byte_at 4 b) (byte_at 5 b) (byte_at 6 b) (byte_at 7 b) (rd 8 8 b) (slice 16 (KVDB_NAME_MAX + 1) b).

(** ** Strings

    A [const char *] is the bytes from where it points on; past the end of the
    list there is the NUL. *)
Fixpoint strlen (p : bytes) : Z :=
  match p with
  | [] => 0
  | c :: p => if c =? 0 then 0 else 1 + strlen p
  end.

Definition cstr (p : bytes) : bytes := zt (strlen p) p.

(** The loop of [kvdb_open()] over the name, [nlen] so far. *)
Fixpoint name_len_loop (fuel : nat) (p : bytes) (nlen : Z) : Z :=
  match fuel, p with
  | S fuel, c :: p => if (nlen <=? KVDB_NAME_MAX) && negb (c =? 0) then name_len_loop fuel p (nlen + 1) else nlen
  | _, _ => nlen
  end.

(** One turn of FNV-1a. *)
Definition name_hash_step (h c : Z) : Z := u32 (Z.lxor h (u8 c) * 0x01000193).
Definition name_hash (name : bytes) : Z := fold_left name_hash_step name 0x811c9dc5.

(** ** Back ends *)

Section kvdb.
Context `{Crc} {D : Type} `{!Blobs D} (MAX_ROOTS : Z).
Notation kvh := (kvh (D := D)).

(** [struct map_ops]. *)
Record map_ops := mk_map_ops {
  mo_create : Z -> option map_config -> M kvh unit;
  mo_stat : Z -> bool -> M kvh map_info;
  mo_get : Z -> option bytes -> Z -> M kvh bytes;
  mo_set : Z -> option bytes -> option bytes -> M kvh unit;
  mo_del : Z -> option bytes -> M kvh unit;
  mo_next : Z -> option bytes -> Z -> Z -> M kvh (bytes * bytes);
  mo_count : Z -> bool -> M kvh Z;
  mo_destroy : Z -> M kvh unit }.

Definition kvhash_map_ops : map_ops :=
  mk_map_ops kvhash_create kvhash_stat kvhash_get kvhash_set kvhash_del kvhash_next kvhash_count kvhash_destroy.

Definition resolve (b : Z) : option map_ops := if b =? KVDB_BACKEND_HASH then Some kvhash_map_ops else None.

Record kvdb_config := mk_kvdb_config { kc_backend : Z; kc_map : map_config }.
Record kvdb_t := mk_kvdb { kd_root : Z; kd_ops : map_ops }.

(** ** Opening *)

Definition create_instance (meta_id : Z) (name : bytes) (cfg : option kvdb_config) : M kvh kvdb_t :=
  let want := match cfg with
              | Some c => if negb (kc_backend c =? KVDB_BACKEND_DEFAULT) then kc_backend c else KVDB_DEFAULT_BACKEND
              | None => KVDB_DEFAULT_BACKEND
              end in
  match resolve want with
  | None => mfail ENOTSUP
  | Some ops =>
      let* struct_root := on_dev blob_alloc_id in
      if struct_root =? 0 then mfail EIO
      else
        let mc := match cfg with Some c => kc_map c | None => mk_map_config 0 0 0 end in
        mo_create ops struct_root (Some mc);;;
        let meta := mk_kvdb_meta KVDB_MAGIC (u8 want) KVDB_META_VERSION (u8 (len name)) 0 struct_root
                      (splice 0 name (replicate (Z.to_nat (KVDB_NAME_MAX + 1)) 0)) in
        on_dev (blob_update meta_id (enc_kvdb_meta meta));;;
        mret (mk_kvdb struct_root ops)
  end.

Definition kvdb_open (db_null : bool) (name : option bytes) (cfg : option kvdb_config) : M kvh kvdb_t :=
  match name with
  | None => mfail EINVAL
  | Some p =>
      if db_null then mfail EINVAL
      else
        let nlen := name_len_loop (Z.to_nat (KVDB_NAME_MAX + 1)) p 0 in
        if (nlen =? 0) || (nlen >? KVDB_NAME_MAX) then mfail EINVAL
        else
          let name := zt nlen p in
          let key := ROOTREG_KEY KVDB_MAGIC (name_hash name) in
          let* meta_id := on_dev (rootreg_get_or_create MAX_ROOTS key false) in
          let* rc := mtry (on_dev (blob_get meta_id KVDB_META_LEN)) in
          match rc with
          | Err ENOENT | Ok [] => create_instance meta_id name cfg
          | Err e => mfail e
          | Ok b =>
              let meta := dec_kvdb_meta b in
              if (len b <? KVDB_META_LEN) || negb (km_magic meta =? KVDB_MAGIC) then mfail EIO
              else if negb (km_name_len meta =? nlen) || negb (memcmp (zt nlen (km_name meta)) name =? 0) then mfail EEXIST
              else
                match resolve (km_backend meta) with
                | None => mfail ENOTSUP
                | Some ops => mret (mk_kvdb (km_struct_root meta) ops)
                end
          end
  end.

(** ** Keys and values *)

Definition kvdb_set (db : option kvdb_t) (key : option bytes) (val : option bytes) : M kvh unit :=
  match db, key with
  | Some db, Some key => mo_set (kd_ops db) (kd_root db) (Some (cstr key)) val
  | _, _ => mfail EINVAL
  end.

Definition kvdb_get (db : option kvdb_t) (key : option bytes) (out_sz : Z) : M kvh bytes :=
  match db, key with
  | Some db, Some key => mo_get (kd_ops db) (kd_root db) (Some (cstr key)) out_sz
  | _, _ => mfail EINVAL
  end.

Definition kvdb_delete (db : option kvdb_t) (key : option bytes) : M kvh unit :=
  match db, key with
  | Some db, Some key => mo_del (kd_ops db) (kd_root db) (Some (cstr key))
  | _, _ => mfail EINVAL
  end.

Definition kvdb_has (db : option kvdb_t) (key : option bytes) : M kvh bool :=
  match db, key with
  | Some db, Some key =>
      let* rc := mtry (mo_get (kd_ops db) (kd_root db) (Some (cstr key)) 0) in
      mret (match rc with Err ENOENT => false | _ => true end)
  | _, _ => mret false
  end.
End kvdb.
