(* ===== verification/KvdbSpec.v ===== *)
(** The named maps of kvdb: what the store holds for them, and that opening a
    name and using its handle act on its own finite map; then sequences of calls
    by a client that keeps handles. *)

From S2P Require Import BlobIface Prelude Layout Records RootReg RootRegSpec.
From S2P Require Import KvHash KvHashRep KvHashRead KvHashOps KvHashSet KvHashCreate KvHashWalk KvHashRuns Kvdb.

(** ** Names *)

Definition good_name (nm : bytes) : Prop := 0 < len nm <= KVDB_NAME_MAX /\ bytes_ok nm.
Definition name_key (nm : bytes) : Z := ROOTREG_KEY KVDB_MAGIC (name_hash nm).

Lemma strlen_bounds p : 0 <= strlen p <= len p.
Proof. induction p as [|c p IH]; cbn [strlen]; [done|]. rewrite len_cons. destruct (c =? 0); lia. Qed.

Lemma len_cstr p : len (cstr p) = strlen p.
Proof. unfold cstr. pose proof (strlen_bounds p). rewrite len_zt; lia. Qed.

Lemma bytes_ok_zt n p : bytes_ok p -> bytes_ok (zt n p).
Proof. apply Forall_take. Qed.

Lemma name_len_spec fuel p n : n + Z.of_nat fuel = KVDB_NAME_MAX + 1 -> name_len_loop fuel p n = n + Z.min (Z.of_nat fuel) (strlen p).
Proof.
  revert p n. induction fuel as [|fuel IH]; intros p n Hn; [cbn; pose proof (strlen_bounds p); lia|].
  destruct p as [|c p]; cbn [name_len_loop strlen]; [lia|]. destruct (Z.leb_spec n KVDB_NAME_MAX); [|lia].
  pose proof (strlen_bounds p). destruct (c =? 0); cbn [negb andb]; [lia|]. rewrite IH by lia. lia.
Qed.

Lemma name_hash_range nm : 0 <= name_hash nm < 2 ^ 32.
Proof.
  unfold name_hash. assert (0 <= 0x811c9dc5 < 2 ^ 32) as Hh by lia. revert Hh. generalize 0x811c9dc5. induction nm as [|c nm IH]; intros h Hh; [done|].
  cbn [fold_left]. apply IH. unfold name_hash_step, u32. apply Z.mod_pos_bound. lia.
Qed.

Lemma name_key_range nm : 0 < name_key nm < 2 ^ 64.
Proof.
  unfold name_key, ROOTREG_KEY. pose proof (name_hash_range nm) as Hh. rewrite (u32_small (name_hash nm)) by lia.
  change (u64 (Z.shiftl (u32 KVDB_MAGIC) 32)) with (KVDB_MAGIC * 2 ^ 32). set (a := KVDB_MAGIC * 2 ^ 32). set (h := name_hash nm) in *.
  assert (0 <= Z.lor a h) as Hnn by (apply Z.lor_nonneg; unfold a, KVDB_MAGIC; lia).
  assert (Z.lor a h <> 0) as Hne by (rewrite Z.lor_eq_0_iff; unfold a, KVDB_MAGIC; lia).
  split; [lia|]. apply Z.log2_lt_cancel. change (Z.log2 (2 ^ 64)) with 64. rewrite Z.log2_lor by (unfold a, KVDB_MAGIC; lia).
  apply Z.max_lub_lt; [by vm_compute|]. destruct (Z.eq_dec h 0) as [->|]; [by vm_compute|]. pose proof (proj1 (Z.log2_lt_pow2 h 32 ltac:(lia)) ltac:(lia)). lia.
Qed.

(** ** The meta object *)

Definition kvdb_meta_ok (m : kvdb_meta) : Prop :=
  0 <= km_magic m < 2 ^ 32 /\ byte_ok (km_backend m) /\ byte_ok (km_version m) /\ byte_ok (km_name_len m) /\ byte_ok (km_rsvd m) /\
  0 <= km_struct_root m < 2 ^ 64 /\ len (km_name m) = KVDB_NAME_MAX + 1 /\ bytes_ok (km_name m).

Lemma dec_enc_kvdb_meta m : kvdb_meta_ok m -> dec_kvdb_meta (enc_kvdb_meta m) = m.
Proof.
  destruct m as [mg be ve nl rs ro nm]. unfold kvdb_meta_ok, dec_kvdb_meta, enc_kvdb_meta. cbn [km_magic km_backend km_version km_name_len km_rsvd km_struct_root km_name].
  intros (Hm & _ & _ & _ & _ & Hr & Hl & _). f_equal.
  - by rewrite rd_here by (cbn; lia).
  - rewrite !(rd_skip 8) by lens. autorewrite with len. by rewrite rd_here by (cbn; lia).
  - rewrite !slice_app_r by lens. autorewrite with len. by apply slice_all.
Qed.

Lemma len_enc_kvdb_meta m : kvdb_meta_ok m -> len (enc_kvdb_meta m) = KVDB_META_LEN.
Proof. intros (_ & _ & _ & _ & _ & _ & Hl & _). unfold enc_kvdb_meta. autorewrite with len. rewrite Hl. done. Qed.

Lemma bytes_ok_kvdb_meta m : kvdb_meta_ok m -> bytes_ok (enc_kvdb_meta m).
Proof.
  intros (_ & ? & ? & ? & ? & _ & _ & ?). unfold enc_kvdb_meta. rewrite !bytes_ok_app. split; [apply bytes_ok_le|]. split; [unfold bytes_ok; rewrite !list.Forall_cons; by split_and!|].
  split; [apply bytes_ok_le|done].
Qed.

(** A named map: its name, its meta object and the tree of its entries. *)
Record inst := mk_inst { in_name : bytes; in_meta : Z; in_tree : kvtree }.

Definition meta_for (nm : bytes) (root : Z) : kvdb_meta :=
  mk_kvdb_meta KVDB_MAGIC KVDB_BACKEND_HASH KVDB_META_VERSION (len nm) 0 root (splice 0 nm (replicate (Z.to_nat (KVDB_NAME_MAX + 1)) 0)).

Lemma meta_for_ok nm root : good_name nm -> 0 <= root < 2 ^ 64 -> kvdb_meta_ok (meta_for nm root).
Proof.
  intros [Hl Hb] Hr. unfold KVDB_NAME_MAX in *. unfold kvdb_meta_ok, meta_for. cbn [km_magic km_backend km_version km_name_len km_rsvd km_struct_root km_name].
  unfold byte_ok, KVDB_BACKEND_HASH, KVDB_META_VERSION, KVDB_MAGIC, KVDB_NAME_MAX. split_and!; try lia.
  - rewrite len_splice by (rewrite ?len_replicate; lia). by rewrite len_replicate.
  - rewrite splice_prefix. rewrite bytes_ok_app. split; [done|]. apply Forall_drop, Forall_replicate. unfold byte_ok. lia.
Qed.

(** The name is compared over its length. *)
Lemma meta_for_name nm root n : good_name nm -> n = len nm -> zt n (km_name (meta_for nm root)) = nm.
Proof. intros _ ->. cbn [meta_for km_name]. rewrite splice_prefix. by apply zt_app_exact. Qed.

Section kvdb_spec.
Context `{Crc} {D : Type} `{!Blobs D} {CL : CrcLaws _} {L : BlobLaws D} (MAX_ROOTS : Z).
Notation MAX_PAYLOAD := (blob_max (D := D)).
Notation kvh := (kvh (D := D)).
Notation registry := (registry MAX_ROOTS).
Implicit Types (s : kvh) (o : objs) (reg : gmap Z Z) (i : inst) (js : list inst).

Definition inst_objs i : list (Z * bytes) :=
  (in_meta i, enc_kvdb_meta (meta_for (in_name i) (tree_root (in_tree i)))) :: tree_objs (in_tree i).
Definition shelf js : list (Z * bytes) := js ≫= inst_objs.
Definition inst_ok i : Prop := good_name (in_name i) /\ tree_ok (D := D) (in_tree i).

(** An id the registry has handed out for a name, with nothing opened yet. *)
Definition unbound o (id : Z) : Prop := o !! id = None \/ o !! id = Some [].

(** What the store holds: the registry names the meta object of each map; each
    map owns its objects; a name registered but not yet created has an id of its
    own. *)
Record world o (nx : Z) reg js : Prop := {
  wd_reg : registry o reg;
  wd_stored : stored o (shelf js);
  wd_names : NoDup (in_name <$> js);
  wd_ok : Forall inst_ok js;
  wd_bound : Forall (fun i => reg !! name_key (in_name i) = Some (in_meta i)) js;
  wd_ids : forall nm id, good_name nm -> reg !! name_key nm = Some id -> BLOB_ROOT < id < nx;
  wd_free : forall nm id, good_name nm -> reg !! name_key nm = Some id ->
    (exists i, i ∈ js /\ in_meta i = id /\ name_key (in_name i) = name_key nm) \/ (unbound o id /\ id ∉ (shelf js).*1);
  wd_inj : forall nm nm' id, good_name nm -> good_name nm' -> reg !! name_key nm = Some id -> reg !! name_key nm' = Some id -> name_key nm = name_key nm';
}.

Lemma shelf_take_out js1 i js2 : shelf (js1 ++ i :: js2) ≡ₚ tree_objs (in_tree i) ++ (in_meta i, enc_kvdb_meta (meta_for (in_name i) (tree_root (in_tree i)))) :: shelf (js1 ++ js2).
Proof. unfold shelf. rewrite <- Permutation_middle. cbn [mbind list_bind]. unfold inst_objs at 1. cbn [app]. by rewrite Permutation_middle. Qed.

Lemma shelf_in js i id : i ∈ js -> id ∈ (inst_objs i).*1 -> id ∈ (shelf js).*1.
Proof.
  intros Hin Hid. apply list_elem_of_fmap in Hid as (x & -> & Hx). apply list_elem_of_fmap. exists x. split; [done|]. apply list_elem_of_bind. by exists i.
Qed.

Lemma world_inst o nx reg js i : world o nx reg js -> i ∈ js ->
  inst_ok i /\ reg !! name_key (in_name i) = Some (in_meta i) /\ stored o (inst_objs i).
Proof.
  intros W Hin. pose proof (wd_ok _ _ _ _ W) as Hok. pose proof (wd_bound _ _ _ _ W) as Hb. rewrite list.Forall_forall in Hok, Hb. split_and!; [by apply Hok|by apply Hb|].
  pose proof (wd_stored _ _ _ _ W) as Hs. apply list_elem_of_split in Hin as (js1 & js2 & ->). unfold shelf in Hs. rewrite bind_app in Hs.
  apply stored_app in Hs as (_ & Hs & _). cbn [mbind list_bind] in Hs. apply stored_app in Hs. apply Hs.
Qed.

(** Objects allotted since, and what is not kvdb's, do not matter. *)
Lemma world_frame o o' nx nx' reg js : world o nx reg js -> obs_wf MAX_PAYLOAD nx o -> nx <= nx' -> registry o' reg ->
  (forall id, id < nx -> id <> BLOB_ROOT -> o' !! id = o !! id) -> world o' nx' reg js.
Proof.
  intros W Hw Hnx Hr Hf. destruct W as [_ Hs Hn Ho Hb Hi Hfr Hj]. split; try done.
  - apply (stored_frame o); [|done]. intros id Hin. destruct (stored_bound _ _ _ _ _ Hw Hs Hin). apply Hf; [lia|done].
  - intros nm id Hg E. specialize (Hi nm id Hg E). lia.
  - intros nm id Hg E. pose proof (Hi nm id Hg E). destruct (Hfr nm id Hg E) as [?|[Hu Hni]]; [by left|right]. split; [|done].
    unfold unbound. rewrite Hf by lia. done.
Qed.

(** One map changed. *)
Lemma world_changed o o' nx nx' reg js1 js2 i t : world o nx reg (js1 ++ i :: js2) -> obs_wf MAX_PAYLOAD nx o -> nx <= nx' ->
  tree_root t = tree_root (in_tree i) -> tree_ok (D := D) t -> stored o' (tree_objs t) ->
  (forall id, id < nx -> id ∉ (tree_objs (in_tree i)).*1 -> o' !! id = o !! id /\ id ∉ (tree_objs t).*1) ->
  world o' nx' reg (js1 ++ mk_inst (in_name i) (in_meta i) t :: js2).
Proof.
  intros W Hw Hnx Hr Ht Hs Hf. pose proof (world_inst _ _ _ _ i W ltac:(apply elem_of_app; right; left)) as ([Hg _] & Ebi & Hsi).
  destruct W as [Hreg Hst Hn Ho Hb Hi Hfr Hj]. split.
  - assert (o' !! BLOB_ROOT = o !! BLOB_ROOT) as E; [|destruct Hreg as (es & Er & ?); exists es; by rewrite E].
    apply Hf; [pose proof (proj1 Hw); unfold BLOB_ROOT; lia|]. intros Hin. apply stored_cons in Hsi as (_ & _ & _ & Hsi). by destruct (stored_bound _ _ _ _ _ Hw Hsi Hin).
  - rewrite shelf_take_out in *. cbn [in_tree in_meta in_name]. rewrite Hr. by apply (stored_replace MAX_PAYLOAD nx o o' (tree_objs (in_tree i))).
  - rewrite fmap_app, fmap_cons in *. done.
  - apply list.Forall_app in Ho as [Ho1 Ho2]. apply list.Forall_cons in Ho2 as [_ Ho2]. apply list.Forall_app. split; [done|]. by apply list.Forall_cons.
  - apply list.Forall_app in Hb as [Hb1 Hb2]. apply list.Forall_cons in Hb2 as [_ Hb2]. apply list.Forall_app. split; [done|]. by apply list.Forall_cons.
  - intros nm id Hgn E. specialize (Hi nm id Hgn E). lia.
  - intros nm id Hgn E. pose proof (Hi nm id Hgn E) as Hid. destruct (Hfr nm id Hgn E) as [(j & Hj1 & Hj2 & Hj3)|[Hu Hni]].
    + left. apply elem_of_app in Hj1 as [Hj1|[->|Hj1]%elem_of_cons]; [exists j|exists (mk_inst (in_name i) (in_meta i) t)|exists j]; split_and!; try done; apply elem_of_app; [by left|right; left|right; by right].
    + right. rewrite (shelf_take_out js1 i), fmap_app in Hni. rewrite not_elem_of_app in Hni. destruct Hni as [Hn1 Hn2]. destruct (Hf id) as [E1 E2]; [lia|done|].
      split; [unfold unbound; by rewrite E1|]. rewrite shelf_take_out, fmap_app, not_elem_of_app. cbn [in_tree in_meta in_name]. rewrite Hr. done.
  - done.
Qed.

(** A name was registered under the next id. *)
Lemma world_reserved o o' nx nx' reg js nm : world o nx reg js -> obs_wf MAX_PAYLOAD nx o -> good_name nm -> reg !! name_key nm = None -> nx < nx' ->
  registry o' (<[name_key nm := nx]> reg) -> (forall id, id <> BLOB_ROOT -> o' !! id = o !! id) ->
  world o' nx' (<[name_key nm := nx]> reg) js /\ unbound o' nx /\ nx ∉ (shelf js).*1.
Proof.
  intros W Hw Hg E Hnx Hr Hf. pose proof (proj1 Hw) as Hn2. assert (o' !! nx = None) as En.
  { rewrite Hf by (unfold BLOB_ROOT; lia). by apply (obs_wf_fresh MAX_PAYLOAD nx). }
  assert (nx ∉ (shelf js).*1) as Hni by (eapply stored_fresh; [exact Hw|apply W|lia]). split; [|split; [by left|done]].
  destruct W as [Hreg Hst Hn Ho Hb Hi Hfr Hj]. split; try done.
  - apply (stored_frame o); [|done]. intros id Hin. apply Hf. by destruct (stored_bound _ _ _ _ _ Hw Hst Hin).
  - eapply Forall_impl; [|exact Hb]. cbn. intros i Ei. rewrite lookup_insert_ne; [done|]. intros Ek. by rewrite Ek, Ei in E.
  - intros nm' id Hg' E'. apply lookup_insert_Some in E' as [[_ <-]|[_ E']]; [unfold BLOB_ROOT; lia|]. specialize (Hi nm' id Hg' E'). lia.
  - intros nm' id Hg' E'. apply lookup_insert_Some in E' as [[_ <-]|[_ E']]; [by right; split; [left|]|]. pose proof (Hi nm' id Hg' E') as Hid.
    destruct (Hfr nm' id Hg' E') as [?|[Hu Hnj]]; [by left|right]. split; [|done]. unfold unbound. rewrite Hf by lia. done.
  - intros n1 n2 id Hg1 Hg2 E1 E2. apply lookup_insert_Some in E1 as [[K1 I1]|[_ E1]]; apply lookup_insert_Some in E2 as [[K2 I2]|[_ E2]].
    + congruence.
    + pose proof (Hi n2 id Hg2 E2). lia.
    + pose proof (Hi n1 id Hg1 E1). lia.
    + by apply (Hj n1 n2 id).
Qed.

(** A registered name was given its map. *)
Lemma world_created o o' nx nx' reg js nm mid t : world o nx reg js -> obs_wf MAX_PAYLOAD nx o -> nx <= nx' -> good_name nm -> reg !! name_key nm = Some mid ->
  unbound o mid -> mid ∉ (shelf js).*1 -> tree_ok (D := D) t -> stored o' (tree_objs t) -> (forall id, id ∈ (tree_objs t).*1 -> nx <= id) ->
  o' !! mid = Some (enc_kvdb_meta (meta_for nm (tree_root t))) -> (forall id, id < nx -> id <> mid -> o' !! id = o !! id) ->
  world o' nx' reg (js ++ [mk_inst nm mid t]).
Proof.
  intros W Hw Hnx Hg E Hu Hni Ht Hst' Hnew Em Hf. pose proof (wd_ids _ _ _ _ W nm mid Hg E) as Hmid. pose proof (proj1 Hw) as Hn2.
  assert (nm ∉ in_name <$> js) as Hnm.
  { intros Hin. apply list_elem_of_fmap in Hin as (i & -> & Hin). destruct (world_inst _ _ _ _ i W Hin) as (_ & Ei & _). rewrite E in Ei. injection Ei as ->.
    apply Hni, (shelf_in _ i); [done|]. apply elem_of_cons. by left. }
  destruct W as [Hreg Hst Hn Ho Hb Hi Hfr Hj]. assert (shelf (js ++ [mk_inst nm mid t]) = shelf js ++ inst_objs (mk_inst nm mid t)) as Esh.
  { unfold shelf. rewrite bind_app. cbn [mbind list_bind]. by rewrite app_nil_r. }
  split.
  - destruct Hreg as (es & Er & ?). exists es. rewrite Hf by (unfold BLOB_ROOT in *; lia). done.
  - rewrite Esh. apply stored_app. split_and!.
    + apply (stored_frame o); [|done]. intros id Hin. destruct (stored_bound _ _ _ _ _ Hw Hst Hin). apply Hf; [lia|]. by intros ->.
    + apply stored_cons. split_and!; [done|cbn; lia| |done]. intros Hin. specialize (Hnew mid Hin). cbn in Hnew. lia.
    + intros id Hin [->|Hin']%elem_of_cons; [done|]. specialize (Hnew id Hin'). destruct (stored_bound _ _ _ _ _ Hw Hst Hin). lia.
  - rewrite fmap_app. apply list.NoDup_app. split_and!; [done| |apply NoDup_singleton]. by intros x Hx ->%list_elem_of_singleton.
  - apply list.Forall_app. split; [done|]. by apply Forall_singleton.
  - apply list.Forall_app. split; [done|]. by apply Forall_singleton.
  - intros nm' id Hg' E'. specialize (Hi nm' id Hg' E'). lia.
  - intros nm' id Hg' E'. destruct (decide (id = mid)) as [->|Hne].
    + left. exists (mk_inst nm mid t). split_and!; [apply elem_of_app; right; by left|done|]. by apply (Hj nm nm' mid).
    + pose proof (Hi nm' id Hg' E'). destruct (Hfr nm' id Hg' E') as [(i & Hi1 & Hi2 & Hi3)|[Hu' Hnj]]; [left|right].
      * exists i. split_and!; try done. apply elem_of_app. by left.
      * split; [unfold unbound; rewrite Hf by (done || lia); done|]. rewrite Esh, fmap_app, not_elem_of_app. split; [done|].
        intros [->|Hin]%elem_of_cons; [done|]. specialize (Hnew id Hin). lia.
  - done.
Qed.

(** ** Opening *)

Context (Hmax : 72 <= MAX_PAYLOAD <= ENT_LEN_MASK) (Hsteady : ~ tears (D := D)) (Hroots : 1 <= MAX_ROOTS <= 1000) (Hfit : RR_IMAGE_MAX MAX_ROOTS <= MAX_PAYLOAD).

Definition handle (t : kvtree) : kvdb_t (D := D) := mk_kvdb (tree_root t) kvhash_map_ops.

Definition want_backend (cfg : option kvdb_config) : Z :=
  match cfg with
  | Some c => if negb (kc_backend c =? KVDB_BACKEND_DEFAULT) then kc_backend c else KVDB_DEFAULT_BACKEND
  | None => KVDB_DEFAULT_BACKEND
  end.
Definition want_map (cfg : option kvdb_config) : map_config := match cfg with Some c => kc_map c | None => mk_map_config 0 0 0 end.

(** Why a map may not be created: the store, the back end asked for, or what it
    cannot deliver. *)
Definition create_error (cfg : option kvdb_config) (e : errno) : Prop :=
  create_refused (D := D) e \/ (e = ENOTSUP /\ want_backend cfg <> KVDB_BACKEND_HASH) \/ derive_geometry (D := D) (Some (want_map cfg)) = Err e.

Definition opened n nx js nm cfg (r : res (kvdb_t (D := D))) s : Prop := exists nx' o' reg', khold n nx' o' s /\ nx <= nx' /\
  match r with
  | Ok h => exists js' i, world o' nx' reg' js' /\ i ∈ js' /\ in_name i = nm /\ h = handle (in_tree i) /\
      (js' = js \/ (js' = js ++ [i] /\ tree_map (in_tree i) = ∅))
  | Err e => world o' nx' reg' js /\
      (refused (D := D) e \/ (nm ∉ in_name <$> js /\
        (create_error cfg e \/ (e = ENOSPC /\ MAX_ROOTS <= Z.of_nat (size reg')) \/
         (e = EEXIST /\ exists i, i ∈ js /\ in_name i <> nm /\ name_key (in_name i) = name_key nm))))
  end.

Lemma absent_name o nx reg js nm mid : world o nx reg js -> reg !! name_key nm = Some mid -> mid ∉ (shelf js).*1 -> nm ∉ in_name <$> js.
Proof.
  intros W E Hni Hin. apply list_elem_of_fmap in Hin as (i & -> & Hin). destruct (world_inst _ _ _ _ i W Hin) as (_ & Ei & _).
  rewrite E in Ei. injection Ei as ->. apply Hni, (shelf_in _ i); [done|]. apply elem_of_cons. by left.
Qed.

Lemma create_instance_spec n nx o s reg js nm mid cfg : khold (S (Z.to_nat (MAX_BUCKETS (D := D)) + n)) nx o s -> world o nx reg js -> good_name nm ->
  reg !! name_key nm = Some mid -> unbound o mid -> mid ∉ (shelf js).*1 -> wp (create_instance mid nm cfg) s (opened n nx js nm cfg).
Proof.
  intros Hh W Hg Ek Hu Hni. pose proof (absent_name _ _ _ _ _ _ W Ek Hni) as Hnm. pose proof (khold_wf _ _ _ _ Hh) as Hw. pose proof (proj1 Hw) as Hn2.
  pose proof (wd_ids _ _ _ _ W nm mid Hg Ek) as Hmid. unfold BLOB_ROOT in *.
  assert (forall n' nx' o' s' e, (n <= n')%nat -> khold n' nx' o' s' -> nx <= nx' -> below nx o o' -> create_error cfg e -> opened n nx js nm cfg (Err e) s') as Hfail.
  { intros n' nx' o' s' e Hn' Hh' Hle Hb He. exists nx', o', reg. split; [by eapply khold_le|]. split; [done|]. split; [|by right; split; [|left]].
    apply (world_frame o o' nx); try done; [|intros id Hid _; by apply Hb]. destruct (wd_reg _ _ _ _ W) as (es & Er & ?). exists es. rewrite Hb; [done|unfold BLOB_ROOT; lia]. }
  unfold create_instance. fold (want_backend cfg). fold (want_map cfg). unfold resolve. destruct (Z.eqb_spec (want_backend cfg) KVDB_BACKEND_HASH) as [Ew|Hne].
  2: { apply wp_fail. eapply (Hfail _ nx o); [|exact Hh|lia|by intros id _|by right; left]. lia. }
  apply wp_bnd. eapply wp_mono; [by apply alloc_spec|]. cbv beta. intros r s1 [_ [[-> Hh1]|(-> & Hft & nx1 & Hle1 & Hh1)]].
  2: { cbn. apply wp_fail. eapply (Hfail _ nx1 o); [|exact Hh1|lia|by intros id _|]; [lia|]. left. left. by right; right. }
  destruct (Z.eqb_spec nx 0); [lia|]. cbn [mo_create kvhash_map_ops].
  apply wp_bnd. eapply wp_mono; [apply (create_spec Hmax n (nx + 1) o s1 nx (Some (want_map cfg)) Hh1); (done || unfold BLOB_ROOT; lia)|]. cbv beta.
  intros r s2 (nx2 & o2 & Hh2 & Hle2 & Hres). destruct r as [[]|e].
  2: { destruct Hres as [Hb He]. eapply (Hfail n nx2 o2); [done|exact Hh2|lia|intros id Hid; apply Hb; lia|]. destruct He; [right; by right|by left]. }
  destruct Hres as (geo & ids & _ & Hgeo & Hl & Hids & Hok & Hst & Hf2). pose proof (khold_wf _ _ _ _ Hh2) as Hw2.
  assert (below nx o o2) as Hb2 by (intros id Hid; apply Hf2; lia).
  assert (tree_root (empty_tree geo nx ids) = nx) as Eroot by (destruct geo as [[dp ?] ?]; cbn; by destruct (dp =? 1)).
  assert (forall id, id ∈ (tree_objs (empty_tree geo nx ids)).*1 -> nx <= id) as Hnew.
  { intros id [->|Hin]%empty_tree_ids; [lia|]. rewrite list.Forall_forall in Hids. specialize (Hids id Hin). cbn in Hids. lia. }
  change (u8 (want_backend cfg)) with (want_backend cfg mod 2 ^ 8). rewrite Ew. change (KVDB_BACKEND_HASH mod 2 ^ 8) with KVDB_BACKEND_HASH.
  assert (u8 (len nm) = len nm) as -> by (unfold u8; destruct Hg as [? _]; unfold KVDB_NAME_MAX in *; apply Z.mod_small; lia). fold (meta_for nm nx).
  pose proof (meta_for_ok nm nx Hg ltac:(lia)) as Hmok.
  apply wp_bnd. eapply wp_mono; [apply (kv_update_spec n nx2 o2 s2 mid (enc_kvdb_meta (meta_for nm nx)) Hh2); [lia|by apply bytes_ok_kvdb_meta|rewrite len_enc_kvdb_meta by done; unfold KVDB_META_LEN; lia]|].
  cbv beta. intros r s3 [_ [[-> Hh3]|[(e & He & -> & Hh3)|(e & Ht & _)]]]; [| |by destruct Hsteady].
  - apply wp_ret. exists nx2, (<[mid := enc_kvdb_meta (meta_for nm nx)]> o2), reg. split; [done|]. split; [lia|].
    exists (js ++ [mk_inst nm mid (empty_tree geo nx ids)]), (mk_inst nm mid (empty_tree geo nx ids)). split_and!.
    + apply (world_created o _ nx); try done; [lia| | |].
      * apply stored_put_other; [|done]. intros Hin. specialize (Hnew mid Hin). lia.
      * by rewrite Eroot, lookup_insert_eq.
      * intros id Hid Hne. rewrite lookup_insert_ne by done. by apply Hb2.
    + apply elem_of_app. right. by left.
    + done.
    + unfold handle. cbn [in_tree]. by rewrite Eroot.
    + right. split; [done|]. apply empty_tree_map.
  - eapply (Hfail n nx2 o2); [done|exact Hh3|lia|done|]. left. left. destruct He as [[-> ?]|?]; [left|right; left]; done.
Qed.

Definition bad_name (p : bytes) : bool := (strlen p =? 0) || (strlen p >? KVDB_NAME_MAX).

Lemma good_cstr p : bad_name p = false -> bytes_ok p -> good_name (cstr p).
Proof. unfold bad_name. intros E Hp. split; [rewrite len_cstr; pose proof (strlen_bounds p); lia|by apply bytes_ok_zt]. Qed.

(** The registry's answer for a name: its id, reserved now or before. *)
Lemma reserve_spec n nx o s reg js nm : khold (S n) nx o s -> world o nx reg js -> good_name nm ->
  wp (on_dev (rootreg_get_or_create MAX_ROOTS (name_key nm) false)) s (fun r s' => exists nx' o', khold n nx' o' s' /\ nx <= nx' /\
    match r with
    | Ok mid => exists reg', world o' nx' reg' js /\ reg' !! name_key nm = Some mid
    | Err e => world o' nx' reg js /\ (refused (D := D) e \/ (e = ENOSPC /\ reg !! name_key nm = None /\ MAX_ROOTS <= Z.of_nat (size reg)))
    end).
Proof.
  intros Hh W Hg. pose proof (khold_wf _ _ _ _ Hh) as Hw. pose proof (name_key_range nm) as Hk. pose proof (wd_reg _ _ _ _ W) as Hr.
  assert (forall nx' o' s' d r, holds n nx' o' d -> s' = set_dev d s -> nx <= nx' -> (forall id, id <> BLOB_ROOT -> o' !! id = o !! id) ->
    registry o' reg -> r = Ok tt \/ True -> khold n nx' o' s' /\ world o' nx' reg js) as Hsame.
  { intros nx' o' s' d r Hd -> Hle Hf Hr' _. split; [by eapply khold_dev|]. apply (world_frame o o' nx); try done. intros id _. apply Hf. }
  apply wp_on_dev. destruct (reg !! name_key nm) as [mid|] eqn:E; [|destruct (decide (Z.of_nat (size reg) < MAX_ROOTS)) as [Hroom|Hfull]].
  - eapply wp_mono; [apply (get_or_create_spec MAX_ROOTS Hroots Hfit n nx o _ reg); [apply Hh|done|lia]|]. cbv beta. cbn [reg_step]. destruct (Z.eqb_spec (name_key nm) 0); [lia|]. rewrite E.
    intros r d (nx' & o' & Hd & Hle & Hf & Hres). exists nx', o'. destruct Hres as [[-> Hr']|(e & He & -> & Hr')]; cbn in *.
    + destruct (Hsame nx' o' _ d (Ok tt) Hd eq_refl Hle Hf Hr' ltac:(by left)) as [? ?]. split; [done|]. split; [done|]. by exists reg.
    + destruct (Hsame nx' o' _ d (Ok tt) Hd eq_refl Hle Hf) as [? ?]; [destruct Hr' as [->|[? _]]; done|by left|]. split_and!; try done. by left.
  - eapply wp_mono; [apply (get_or_create_new MAX_ROOTS Hroots Hfit n nx o _ reg); [apply Hh|done|done|done|done]|]. cbv beta.
    intros r d (nx' & o' & Hd & Hle & Hf & Hres). exists nx', o'. destruct Hres as [(-> & Hlt & Hr')|(e & He & -> & Hr')].
    + split; [by eapply khold_dev|]. split; [done|]. exists (<[name_key nm := nx]> reg). split; [|by rewrite lookup_insert_eq].
      by apply (world_reserved o o' nx nx' reg js nm).
    + destruct (Hsame nx' o' _ d (Ok tt) Hd eq_refl Hle Hf) as [? ?]; [destruct Hr' as [->|[? _]]; done|by left|]. split_and!; try done. by left.
  - eapply wp_mono; [apply (get_or_create_spec MAX_ROOTS Hroots Hfit n nx o _ reg); [apply Hh|done|lia]|]. cbv beta. cbn [reg_step]. destruct (Z.eqb_spec (name_key nm) 0); [lia|]. rewrite E.
    destruct (Z.geb_spec (Z.of_nat (size reg)) MAX_ROOTS); [|lia].
    intros r d (nx' & o' & Hd & Hle & Hf & Hres). exists nx', o'. destruct Hres as [[-> Hr']|(e & He & -> & Hr')]; cbn in *.
    + destruct (Hsame nx' o' _ d (Ok tt) Hd eq_refl Hle Hf Hr' ltac:(by left)) as [? ?]. split_and!; try done. right. split_and!; [done|done|lia].
    + destruct (Hsame nx' o' _ d (Ok tt) Hd eq_refl Hle Hf) as [? ?]; [destruct Hr' as [->|[? _]]; done|by left|]. split_and!; try done. by left.
Qed.

Lemma tree_root_in t : tree_root t ∈ (tree_objs t).*1.
Proof. destruct t; apply elem_of_cons; by left. Qed.

Lemma shelf_meta_inj o js i j : stored o (shelf js) -> i ∈ js -> j ∈ js -> in_meta i = in_meta j -> i = j.
Proof.
  intros Hs Hi Hj E. apply list_elem_of_split in Hi as (js1 & js2 & ->). rewrite shelf_take_out in Hs. apply stored_app in Hs as (_ & Hs & _).
  apply stored_cons in Hs as (_ & _ & Hni & _). assert (j ∈ js1 ++ js2 -> i = j) as Hrest.
  { intros Hj'. exfalso. apply Hni. rewrite E. apply (shelf_in _ j); [done|]. apply elem_of_cons. by left. }
  apply elem_of_app in Hj as [?|[->|?]%elem_of_cons]; [|done|]; apply Hrest, elem_of_app; [by left|by right].
Qed.

Lemma memcmp_self b : memcmp b b = 0.
Proof. by apply memcmp_eq. Qed.

Lemma open_spec n nx o s reg js p cfg : khold (S (S (Z.to_nat (MAX_BUCKETS (D := D)) + n))) nx o s -> world o nx reg js -> bytes_ok p ->
  wp (kvdb_open MAX_ROOTS false (Some p) cfg) s (fun r s' =>
    if bad_name p then r = Err EINVAL /\ khold n nx o s' else opened n nx js (cstr p) cfg r s').
Proof.
  intros Hh W Hp. unfold kvdb_open. rewrite name_len_spec by done. pose proof (strlen_bounds p) as Hsl. set (nlen := 0 + _).
  assert ((nlen =? 0) || (nlen >? KVDB_NAME_MAX) = bad_name p) as -> by (unfold bad_name, nlen, KVDB_NAME_MAX; apply eq_true_iff_eq; rewrite !orb_true_iff, !Z.eqb_eq, !Z.gtb_lt; lia).
  destruct (bad_name p) eqn:Eb; [apply wp_fail; split; [done|]; eapply khold_le; [|exact Hh]; lia|].
  pose proof (good_cstr p Eb Hp) as Hg. assert (nlen = strlen p) as -> by (unfold bad_name, nlen, KVDB_NAME_MAX in *; lia). fold (cstr p). fold (name_key (cstr p)).
  assert (len (cstr p) = strlen p) as El by apply len_cstr. revert El Hg. generalize (cstr p) as nm. intros nm El Hg. rewrite <- El. clear Eb Hsl El.
  apply wp_bnd. eapply wp_mono; [by apply (reserve_spec _ nx o s reg js nm Hh W Hg)|]. cbv beta. intros r s1 (nx1 & o1 & Hh1 & Hle1 & Hr1).
  destruct r as [mid|e].
  2: { exists nx1, o1, reg. split; [eapply khold_le; [|exact Hh1]; lia|]. split; [done|]. destruct Hr1 as [W1 [He|(-> & En & Hfull)]]; [by split; [|left]|]. split; [done|].
    right. split; [|right; left; done]. intros Hin. apply list_elem_of_fmap in Hin as (i & -> & Hin). destruct (world_inst _ _ _ _ i W Hin) as (_ & Ei & _). by rewrite En in Ei. }
  destruct Hr1 as (reg1 & W1 & Ek). pose proof (wd_ids _ _ _ _ W1 nm mid Hg Ek) as Hmid. unfold BLOB_ROOT in Hmid. pose proof (proj1 (khold_wf _ _ _ _ Hh1)) as Hn1.
  assert (forall r s', opened n nx1 js nm cfg r s' -> opened n nx js nm cfg r s') as Hmono.
  { intros r s'. unfold opened. intros (nx' & o' & reg' & H1 & H2 & H3). exists nx', o', reg'. split_and!; [done|lia|done]. }
  assert (forall e s', fault (D := D) e -> khold (S (Z.to_nat (MAX_BUCKETS (D := D)) + n)) nx1 o1 s' -> opened n nx js nm cfg (Err e) s') as Hfail.
  { intros e s' He Hh'. exists nx1, o1, reg1. split; [eapply khold_le; [|exact Hh']; lia|]. split; [lia|]. split; [done|]. left. right. by left. }
  apply wp_bnd, wp_try, wp_on_dev. eapply wp_mono; [eapply get_law; [apply Hh1|lia]|]. cbv beta.
  intros r d [Hd Hr]. pose proof (khold_dev _ _ _ _ _ _ _ _ Hh1 Hd) as Hh2. destruct Hr as [->|(e & He & ->)].
  2: { specialize (Hfail e _ He Hh2). pose proof (fault_plain e He) as (_ & Hne & _). by destruct e. }
  assert (unbound o1 mid -> mid ∉ (shelf js).*1 -> wp (create_instance mid nm cfg) (set_dev d s1) (opened n nx js nm cfg)) as Hnew.
  { intros Hu Hni. eapply wp_mono; [by apply (create_instance_spec n nx1 o1 _ reg1 js nm mid cfg)|]. cbv beta. intros r s'. apply Hmono. }
  unfold get_reply. destruct (wd_free _ _ _ _ W1 nm mid Hg Ek) as [(i & Hin & Em & Ekey)|[Hu Hni]].
  2: { specialize (Hnew Hu Hni). destruct Hu as [->| ->]; [done|]. by change (KVDB_META_LEN <? len (@nil Z)) with false. }
  clear Hnew. subst mid. destruct (world_inst _ _ _ _ i W1 Hin) as ([Hgi Hti] & Eki & Hsi). apply stored_cons in Hsi as (-> & _ & _ & Hsi).
  set (meta := meta_for (in_name i) (tree_root (in_tree i))). pose proof (stored_bound _ _ _ _ (tree_root (in_tree i)) (khold_wf _ _ _ _ Hh1) Hsi (tree_root_in (in_tree i))) as Hroot.
  assert (kvdb_meta_ok meta) as Hmo by (apply meta_for_ok; [done|lia]). pose proof (len_enc_kvdb_meta meta Hmo) as El. pose proof (dec_enc_kvdb_meta meta Hmo) as Ed.
  destruct (enc_kvdb_meta meta) as [|x b]; [done|]. rewrite El. change (KVDB_META_LEN <? KVDB_META_LEN) with false. cbv iota zeta. rewrite El, Ed. change (KVDB_META_LEN <? KVDB_META_LEN) with false.
  change (km_magic meta) with KVDB_MAGIC. rewrite Z.eqb_refl. cbn [negb orb]. change (km_name_len meta) with (len (in_name i)).
  assert (opened n nx1 js nm cfg (if negb (len (in_name i) =? len nm) || negb (memcmp (zt (len nm) (km_name meta)) nm =? 0) then Err EEXIST else Ok (handle (in_tree i))) (set_dev d s1)) as Hres.
  { exists nx1, o1, reg1. split; [eapply khold_le; [|exact Hh2]; lia|]. split; [lia|]. destruct (_ || _) eqn:Ec.
    - split; [done|]. right. assert (in_name i <> nm) as Hne.
      { intros <-. unfold meta in Ec. rewrite meta_for_name, memcmp_self, Z.eqb_refl in Ec by done. done. }
      split; [|right; right; split; [done|]; by exists i]. intros Hin'. apply list_elem_of_fmap in Hin' as (j & -> & Hj).
      destruct (world_inst _ _ _ _ j W1 Hj) as (_ & Ej & Hsj). rewrite Ek in Ej. injection Ej as Ej. apply Hne. f_equal. apply (shelf_meta_inj o1 js); [apply W1|done..].
    - apply orb_false_iff in Ec as [E1 E2]. apply negb_false_iff, Z.eqb_eq in E1, E2. unfold meta in E2. rewrite meta_for_name in E2 by done. apply memcmp_eq in E2; [|unfold len in E1; lia].
      exists js, i. split_and!; try done. by left. }
  apply Hmono in Hres. destruct (_ || _); [by apply wp_fail|]. by apply wp_ret.
Qed.

(** ** Named finite maps *)

Definition kmaps js : gmap bytes (gmap bytes bytes) := list_to_map ((fun i => (in_name i, tree_map (in_tree i))) <$> js).

Lemma kmaps_keys js : ((fun i => (in_name i, tree_map (in_tree i))) <$> js).*1 = in_name <$> js.
Proof. by rewrite <- list_fmap_compose. Qed.

Lemma kmaps_in js i : NoDup (in_name <$> js) -> i ∈ js -> kmaps js !! in_name i = Some (tree_map (in_tree i)).
Proof. intros Hn Hin. apply elem_of_list_to_map; [by rewrite kmaps_keys|]. apply list_elem_of_fmap. by exists i. Qed.

Lemma kmaps_out js nm : nm ∉ in_name <$> js <-> kmaps js !! nm = None.
Proof. unfold kmaps. by rewrite <- not_elem_of_list_to_map, kmaps_keys. Qed.

Lemma kmaps_snoc js i : in_name i ∉ in_name <$> js -> kmaps (js ++ [i]) = <[in_name i := tree_map (in_tree i)]> (kmaps js).
Proof. intros Hni. unfold kmaps. rewrite fmap_app. cbn. apply list_to_map_snoc. by rewrite kmaps_keys. Qed.

Lemma kmaps_change js1 js2 i t : NoDup (in_name <$> js1 ++ i :: js2) ->
  kmaps (js1 ++ mk_inst (in_name i) (in_meta i) t :: js2) = <[in_name i := tree_map t]> (kmaps (js1 ++ i :: js2)).
Proof.
  intros Hn. assert (forall j, in_name j = in_name i -> kmaps (js1 ++ j :: js2) = <[in_name i := tree_map (in_tree j)]> (kmaps (js1 ++ js2))) as Hj.
  { intros j Ej. unfold kmaps. rewrite <- Ej. rewrite (list_to_map_proper _ ((fun i => (in_name i, tree_map (in_tree i))) <$> j :: js1 ++ js2)); [done| |by rewrite Permutation_middle].
    rewrite kmaps_keys, fmap_app, fmap_cons in *. by rewrite Ej. }
  rewrite (Hj (mk_inst _ _ _)) by done. rewrite (Hj i) by done. by rewrite insert_insert_eq.
Qed.
End kvdb_spec.

(** Sequences of kvdb calls by a client that keeps the handles it opened, and the
    named finite maps they run on. *)

Inductive kd_call :=
  | KdOpen (name : bytes) (cfg : option kvdb_config)
  | KdSet (name key val : bytes)
  | KdGet (name key : bytes) (sz : Z)
  | KdDelete (name key : bytes)
  | KdHas (name key : bytes).

Inductive kd_reply :=
  | KdOpened (r : res unit)
  | KdMap (r : kv_reply)
  | KdBool (b : bool)
  | KdNoHandle.

Definition kd_call_ok (c : kd_call) : Prop :=
  match c with
  | KdOpen name _ => bytes_ok name
  | KdSet _ key val => bytes_ok key /\ bytes_ok val
  | _ => True
  end.

Section runs.
Context `{Crc} {D : Type} `{!Blobs D} {CL : CrcLaws _} {L : BlobLaws D} (MAX_ROOTS : Z).
Notation MAX_PAYLOAD := (blob_max (D := D)).
Notation kvh := (kvh (D := D)).
Notation handles := (gmap bytes (kvdb_t (D := D))).
Notation maps := (gmap bytes (gmap bytes bytes)).
Implicit Types (s : kvh) (o : objs) (ms : maps) (op : gset bytes) (hs : handles).

(** ** The client *)

Definition with_handle (name : bytes) (f : kvdb_t (D := D) -> kvh -> kd_reply * kvh) hs s : kd_reply * (handles * kvh) :=
  match hs !! name with
  | None => (KdNoHandle, (hs, s))
  | Some h => let (r, s) := f h s in (r, (hs, s))
  end.

Definition kd_exec (c : kd_call) (st : handles * kvh) : kd_reply * (handles * kvh) :=
  let (hs, s) := st in
  match c with
  | KdOpen name cfg =>
      let (r, s) := kvdb_open MAX_ROOTS false (Some name) cfg s in
      match r with
      | Ok h => (KdOpened (Ok tt), (<[cstr name := h]> hs, s))
      | Err e => (KdOpened (Err e), (hs, s))
      end
  | KdSet name key val => with_handle name (fun h s => let (r, s) := kvdb_set (Some h) (Some key) (Some val) s in (KdMap (KrRc r), s)) hs s
  | KdGet name key sz => with_handle name (fun h s => let (r, s) := kvdb_get (Some h) (Some key) sz s in (KdMap (KrBytes r), s)) hs s
  | KdDelete name key => with_handle name (fun h s => let (r, s) := kvdb_delete (Some h) (Some key) s in (KdMap (KrRc r), s)) hs s
  | KdHas name key =>
      with_handle name (fun h s => let (r, s) := kvdb_has (Some h) (Some key) s in (KdBool (match r with Ok b => b | Err _ => false end), s)) hs s
  end.

Fixpoint kd_run (cs : list kd_call) (st : handles * kvh) : list kd_reply * (handles * kvh) :=
  match cs with
  | [] => ([], st)
  | c :: cs =>
      let (r, st) := kd_exec c st in
      let (rs, st) := kd_run cs st in
      (r :: rs, st)
  end.

(** ** The abstract store: named maps, and the names opened *)

(** What [kvdb_has()] answers: true unless the lookup says -ENOENT. *)
Definition has_reply (m : gmap bytes bytes) (key : bytes) : bool := match kv_get_reply m key 0 with Err ENOENT => false | _ => true end.

Definition on_map ms op (name : bytes) (r : kd_reply) ms' (P : gmap bytes bytes -> gmap bytes bytes -> Prop) : Prop :=
  if decide (name ∈ op) then exists m m', ms !! name = Some m /\ ms' = <[name := m']> ms /\ P m m'
  else r = KdNoHandle /\ ms' = ms.

Definition kd_step ms op (c : kd_call) (r : kd_reply) ms' op' : Prop :=
  match c with
  | KdOpen p cfg =>
      let nm := cstr p in
      if bad_name p then r = KdOpened (Err EINVAL) /\ ms' = ms /\ op' = op
      else
        (r = KdOpened (Ok tt) /\ op' = {[nm]} ∪ op /\ ms' = match ms !! nm with Some _ => ms | None => <[nm := ∅]> ms end) \/
        (exists e, r = KdOpened (Err e) /\ op' = op /\ ms' = ms /\
          (refused (D := D) e \/ (ms !! nm = None /\
            (create_error (D := D) cfg e \/ e = ENOSPC \/ (e = EEXIST /\ exists nm', is_Some (ms !! nm') /\ nm' <> nm /\ name_key nm' = name_key nm)))))
  | KdSet name key val => op' = op /\ on_map ms op name r ms' (fun m m' => exists q, r = KdMap q /\ kv_step (D := D) m (KvSet (cstr key) val) q m')
  | KdGet name key sz => op' = op /\ on_map ms op name r ms' (fun m m' => exists q, r = KdMap q /\ kv_step (D := D) m (KvGet (cstr key) sz) q m')
  | KdDelete name key => op' = op /\ on_map ms op name r ms' (fun m m' => exists q, r = KdMap q /\ kv_step (D := D) m (KvDel (cstr key)) q m')
  | KdHas name key =>
      op' = op /\ on_map ms op name r ms' (fun m m' => m' = m /\ (r = KdBool (has_reply m (cstr key)) \/ (r = KdBool true /\ exists e, fault (D := D) e)))
  end.

Inductive kd_steps : maps -> gset bytes -> list kd_call -> list kd_reply -> maps -> gset bytes -> Prop :=
  | kd_done ms op : kd_steps ms op [] [] ms op
  | kd_more ms op c r ms1 op1 cs rs ms2 op2 : kd_step ms op c r ms1 op1 -> kd_steps ms1 op1 cs rs ms2 op2 -> kd_steps ms op (c :: cs) (r :: rs) ms2 op2.

(** ** The simulation *)

Context (Hmax : 72 <= MAX_PAYLOAD <= ENT_LEN_MASK) (Hsteady : ~ tears (D := D)) (Hroots : 1 <= MAX_ROOTS <= 1000) (Hfit : RR_IMAGE_MAX MAX_ROOTS <= MAX_PAYLOAD).

(** The client's handles are those of maps in the store. *)
Definition handles_ok hs (js : list inst) : Prop :=
  forall nm h, hs !! nm = Some h -> exists i, i ∈ js /\ in_name i = nm /\ h = handle (in_tree i).

Definition kd_inv (n : nat) ms op (st : handles * kvh) : Prop := exists nx o reg js, khold n nx o st.2 /\ world (D := D) MAX_ROOTS o nx reg js /\
  ms = kmaps js /\ op = dom st.1 /\ handles_ok st.1 js.

(** Allocations one call may make. *)
Definition kd_cost : nat := S (S (Z.to_nat (MAX_BUCKETS (D := D)))).

Lemma open_sim (n : nat) ms op hs s p cfg : kd_inv (kd_cost + n) ms op (hs, s) -> bytes_ok p ->
  let (r, st') := kd_exec (KdOpen p cfg) (hs, s) in exists ms' op', kd_inv n ms' op' st' /\ kd_step ms op (KdOpen p cfg) r ms' op'.
Proof.
  intros (nx & o & reg & js & Hh & W & -> & -> & Hhs) Hp. cbn in Hh, Hhs. cbn [kd_exec kd_step]. pose proof (open_spec MAX_ROOTS Hmax Hsteady Hroots Hfit n nx o s reg js p cfg Hh W Hp) as Hw.
  unfold wp in Hw. destruct (kvdb_open MAX_ROOTS false (Some p) cfg s) as [r s']. destruct (bad_name p).
  { destruct Hw as [-> Hh']. exists (kmaps js), (dom hs). split; [|by split_and!]. by exists nx, o, reg, js. }
  destruct Hw as (nx' & o' & reg' & Hh' & Hle & Hr). destruct r as [h|e].
  - destruct Hr as (js' & i & W' & Hin & Hnm & -> & Hjs). exists (kmaps js'), ({[cstr p]} ∪ dom hs). split.
    + exists nx', o', reg', js'. split_and!; try done; [cbn [fst]; by rewrite dom_insert_L|]. intros nm h E. cbn in E. apply lookup_insert_Some in E as [[<- <-]|[_ E]]; [by exists i|].
      destruct (Hhs nm h E) as (j & Hj & ? & ?). exists j. split_and!; try done. destruct Hjs as [->|[-> _]]; [done|]. apply elem_of_app. by left.
    + left. split_and!; try done. destruct Hjs as [->|[-> Em]].
      * rewrite <- Hnm, (kmaps_in js i) by (done || apply W'). done.
      * pose proof (wd_names _ _ _ _ _ W') as Hn. rewrite fmap_app in Hn. apply list.NoDup_app in Hn as (_ & Hd & _).
        assert (in_name i ∉ in_name <$> js) as Hni by (intros Hi; apply (Hd _ Hi); by left). rewrite kmaps_snoc by done. rewrite <- Hnm.
        apply kmaps_out in Hni. by rewrite Hni, Em.
  - destruct Hr as [W' He]. exists (kmaps js), (dom hs). split; [by exists nx', o', reg', js|]. right. exists e. split_and!; try done. destruct He as [?|[Hni He]]; [by left|right].
    split; [by apply kmaps_out|]. destruct He as [?|[[? _]|(? & i & Hin & Hne & Hk)]]; [by left|right; by left|right; right]. split; [done|]. exists (in_name i). split_and!; try done.
    rewrite (kmaps_in js i); [done|apply W'|done].
Qed.

(** A call through a handle acts on the map of that name alone. *)
Lemma handle_sim (n : nat) ms op hs s (name : bytes) (f : kvdb_t (D := D) -> kvh -> kd_reply * kvh) (P : gmap bytes bytes -> gmap bytes bytes -> kd_reply -> Prop) :
  kd_inv (kd_cost + n) ms op (hs, s) ->
  (forall nx o t, khold (3 + n) nx o s -> tree_ok (D := D) t -> stored o (tree_objs t) ->
    let (r, s') := f (handle t) s in exists t', became n nx o t t' s' /\ P (tree_map t) (tree_map t') r) ->
  let (r, st') := with_handle name f hs s in exists ms', kd_inv n ms' op st' /\ on_map ms op name r ms' (fun m m' => P m m' r).
Proof.
  intros (nx & o & reg & js & Hh & W & -> & -> & Hhs) Hf. cbn in Hh, Hhs. unfold with_handle, on_map. pose proof (khold_wf _ _ _ _ Hh) as Hw.
  assert (3 <= kd_cost)%nat as Hc by (unfold kd_cost; pose proof (MAX_BUCKETS_ge Hmax); lia).
  assert (khold (3 + n) nx o s) as Hh3 by (apply (khold_le (kd_cost + n)); [clear -Hc; lia|done]). cbn [fst]. destruct (hs !! name) as [h|] eqn:E.
  2: { exists (kmaps js). rewrite decide_False by by rewrite not_elem_of_dom. split; [|done]. exists nx, o, reg, js. split_and!; try done. eapply khold_le; [|exact Hh3]. lia. }
  destruct (Hhs name h E) as (i & Hin & <- & ->). destruct (world_inst _ _ _ _ _ i W Hin) as ([_ Ht] & _ & Hsi). apply stored_cons in Hsi as (_ & _ & _ & Hsi).
  specialize (Hf nx o (in_tree i) Hh3 Ht Hsi). destruct (f (handle (in_tree i)) s) as [r s']. destruct Hf as (t' & (nx' & o' & Hh' & Hle & Hr & Ht' & Hs' & Hfr) & HP).
  pose proof (wd_names _ _ _ _ _ W) as Hn. apply list_elem_of_split in Hin as (js1 & js2 & ->).
  exists (kmaps (js1 ++ mk_inst (in_name i) (in_meta i) t' :: js2)). rewrite decide_True by (apply elem_of_dom; by eexists). split.
  - exists nx', o', reg, (js1 ++ mk_inst (in_name i) (in_meta i) t' :: js2). split_and!; try done; [by apply (world_changed MAX_ROOTS o o' nx)|].
    intros nm h Eh. destruct (Hhs nm h Eh) as (j & Hj & Hnm & Ej). apply elem_of_app in Hj as [Hj|[->|Hj]%elem_of_cons].
    + exists j. split_and!; try done. apply elem_of_app. by left.
    + exists (mk_inst (in_name i) (in_meta i) t'). split_and!; try done; [apply elem_of_app; right; by left|]. rewrite Ej. unfold handle. cbn [in_tree]. by rewrite Hr.
    + exists j. split_and!; try done. apply elem_of_app. right. by right.
  - exists (tree_map (in_tree i)), (tree_map t'). split_and!; [|by apply kmaps_change|done]. apply kmaps_in; [done|]. apply elem_of_app. right. by left.
Qed.

(** A call [f] through the handle of [name] that is the map's call [c]. *)
Ltac through f c :=
  match goal with
  | Hi : kd_inv _ ?ms ?op (?hs, ?s), Hkv : context [kv_exec] |- context [with_handle ?name _ ?hs ?s] =>
      let Hx := fresh in
      pose proof (handle_sim _ ms op hs s name f (fun m m' r => exists q, r = KdMap q /\ kv_step m c q m') Hi) as Hx;
      destruct (with_handle name _ hs s); destruct Hx as (?ms & ? & ?);
      [intros nx o t ? ? ?; cbn [kvdb_set kvdb_get kvdb_delete handle kd_ops kd_root mo_set mo_get mo_del kvhash_map_ops];
       specialize (Hkv nx o t c); cbn [kv_exec] in Hkv; unfold reply_of in Hkv;
       match goal with |- context [let (_, _) := let (_, _) := ?m s in _ in _] => destruct (m s) end;
       destruct Hkv as (? & ? & ?); [done..| |by eauto]|by eauto 6]; try done
  end.

Lemma kd_exec_step (n : nat) ms op st c : kd_inv (kd_cost + n) ms op st -> kd_call_ok c ->
  let (r, st') := kd_exec c st in exists ms' op', kd_inv n ms' op' st' /\ kd_step ms op c r ms' op'.
Proof.
  destruct st as [hs s]. intros Hi Hc. assert (24 <= MAX_PAYLOAD <= ENT_LEN_MASK) as Hmax24 by lia.
  pose proof (fun nx o t c' Hh Ht Hs Hok => kv_exec_step Hmax24 Hsteady n nx o s t c' Hh Ht Hs Hok) as Hkv.
  destruct c as [p cfg|name key val|name key sz|name key|name key]; [by apply open_sim|..]; cbn [kd_exec kd_step].
  - through (fun h s => let (r, s) := kvdb_set (Some h) (Some key) (Some val) s in (KdMap (KrRc r), s)) (KvSet (cstr key) val).
    destruct Hc. split; [by apply bytes_ok_zt|done].
  - through (fun h s => let (r, s) := kvdb_get (Some h) (Some key) sz s in (KdMap (KrBytes r), s)) (KvGet (cstr key) sz).
  - through (fun h s => let (r, s) := kvdb_delete (Some h) (Some key) s in (KdMap (KrRc r), s)) (KvDel (cstr key)).
  - pose proof (handle_sim n ms op hs s name (fun h s => let (r, s) := kvdb_has (Some h) (Some key) s in (KdBool (match r with Ok b => b | Err _ => false end), s))
      (fun m m' r => m' = m /\ (r = KdBool (has_reply m (cstr key)) \/ (r = KdBool true /\ exists e, fault (D := D) e))) Hi) as Hx.
    destruct (with_handle name _ hs s) as [r st']. destruct Hx as (ms' & ? & ?); [|by exists ms', op].
    intros nx o t Hh Ht Hs. specialize (Hkv nx o t (KvGet (cstr key) 0) Hh Ht Hs I).
    cbn [kv_exec] in Hkv. unfold reply_of in Hkv. cbn [kvdb_has handle kd_ops kd_root mo_get kvhash_map_ops]. unfold mbnd, mtry, mret.
    destruct (kvhash_get _ _ _ s) as [r' s']. destruct Hkv as (t' & Hb & Em & Hr). exists t'. split; [done|]. split; [done|]. unfold has_reply. destruct Hr as [[= ->]|(e & He & [= ->])].
    + left. by destruct (kv_get_reply _ _ _) as [?|[]].
    + right. split; [|eauto]. pose proof (fault_plain e He) as (_ & Hne & _). by destruct e.
Qed.

(** A store whose registry is new has no maps yet. *)
Lemma kd_start (n : nat) nx o s : khold n nx o s -> registry MAX_ROOTS o ∅ -> kd_inv n ∅ ∅ (∅, s).
Proof.
  intros Hh Hr. exists nx, o, ∅, []. split_and!; [done| |done| |]; cbn [fst].
  - split; try done; try constructor; cbn; [constructor|constructor].
  - by rewrite dom_empty_L.
  - intros nm h E. by rewrite lookup_empty in E.
Qed.
End runs.
