(* ===== verification/Blobfs.v ===== *)
(** blobfs.c: files and directories. A directory is a kvhash map from names to
    dirents; a file's dirent names the object that is its body, a directory's the
    root of its map. The meta object, named by the registry, holds the root
    directory and the intent of a rename under way. *)

From S2P Require Import BlobIface Prelude Layout Records RootReg KvHash Kvdb.

Definition BLOBFS_MAGIC : Z := 0x42465331.
Definition BLOBFS_META_VERSION : Z := 2.
Definition BLOBFS_META_VERSION_1 : Z := 1.
Definition BLOBFS_DIRENT_VERSION : Z := 1.
Definition BLOBFS_TYPE_FILE : Z := 1.
Definition BLOBFS_TYPE_DIR : Z := 2.

(** ** Formats *)

Record blobfs_dirent := mk_dirent { de_type : Z; de_version : Z; de_rsvd : Z; de_rsvd2 : Z; de_body_id : Z }.
Definition DIRENT_LEN : Z := 16.

Definition enc_dirent (d : blobfs_dirent) : bytes := [de_type d; de_version d] ++ le 2 (de_rsvd d) ++ le 4 (de_rsvd2 d) ++ le 8 (de_body_id d).
Definition dec_dirent (b : bytes) : blobfs_dirent := mk_dirent (byte_at 0 b) (byte_at 1 b) (rd 2 2 b) (rd 4 4 b) (rd 8 8 b).

(** [struct blobfs_meta]; the names are the whole arrays. *)
Record blobfs_meta := mk_bmeta {
  bm_magic : Z; bm_version : Z; bm_rename_in_flight : Z; bm_from_len : Z; bm_to_len : Z; bm_dir_root : Z; bm_rename_body : Z; bm_from_dir : Z; bm_to_dir : Z;
  bm_from : bytes; bm_to : bytes }.

Record blobfs_meta_v1 := mk_bmeta_v1 {
  b1_magic : Z; b1_version : Z; b1_rename_in_flight : Z; b1_from_len : Z; b1_to_len : Z; b1_dir_root : Z; b1_rename_body : Z; b1_from : bytes; b1_to : bytes }.

(** ** Paths *)

Definition SLASH : Z := 47.
Definition DOT : Z := 46.

Fixpoint skip_slashes (p : bytes) : bytes :=
  match p with
  | c :: p' => if c =? SLASH then skip_slashes p' else p
  | [] => []
  end.

(** Up to the next slash or NUL, and from there on. *)
Fixpoint to_slash (p : bytes) : bytes * bytes :=
  match p with
  | c :: p' => if (c =? 0) || (c =? SLASH) then ([], p) else let (n, r) := to_slash p' in (c :: n, r)
  | [] => ([], [])
  end.

(** The next component, and where the path pointer is left. *)
Definition component (p : bytes) : bytes * bytes := to_slash (skip_slashes p).

Record where_t := mk_where { w_dir : Z; w_name : bytes; w_want_dir : bool }.
Definition where_0 : where_t := mk_where 0 [] false.
Definition at_root (w : where_t) : bool := len (w_name w) =? 0.

Definition is_name (p q : bytes) : bool := bool_decide (p = q).

Inductive blobfs_entry_type := BLOBFS_ENTRY_FILE | BLOBFS_ENTRY_DIR.
Record blobfs_stat_t := mk_bstat { bst_type : blobfs_entry_type; bst_size : Z }.

(** The static state of the module. *)
Record bfs_state := mk_bst { bs_mounted : bool; bs_meta_v1 : bool; bs_intent_pending : bool; bs_meta_id : Z; bs_dir_root : Z }.

Section blobfs.
Context `{Crc} {D : Type} `{!Blobs D} (MAX_ROOTS BLOBFS_NAME_MAX : Z).
Notation kvh := (kvh (D := D)).

Definition BLOBFS_FILE_MAX : Z := blob_max (D := D).

(** The structs end at a multiple of eight. *)
Definition META_LEN : Z := round_up (40 + 2 * (BLOBFS_NAME_MAX + 1)) 8.
Definition META_V1_LEN : Z := round_up (24 + 2 * (BLOBFS_NAME_MAX + 1)) 8.
Definition META_PAD : Z := META_LEN - (40 + 2 * (BLOBFS_NAME_MAX + 1)).

Definition enc_bmeta (m : blobfs_meta) : bytes :=
  le 4 (bm_magic m) ++ [bm_version m; bm_rename_in_flight m; bm_from_len m; bm_to_len m] ++
  le 8 (bm_dir_root m) ++ le 8 (bm_rename_body m) ++ le 8 (bm_from_dir m) ++ le 8 (bm_to_dir m) ++ bm_from m ++ bm_to m ++ replicate (Z.to_nat META_PAD) 0.

Definition dec_bmeta (b : bytes) : blobfs_meta :=
  mk_bmeta (rd 4 0 b) (byte_at 4 b) (byte_at 5 b) (byte_at 6 b) (byte_at 7 b) (rd 8 8 b) (rd 8 16 b) (rd 8 24 b) (rd 8 32 b)
    (slice 40 (BLOBFS_NAME_MAX + 1) b) (slice (40 + (BLOBFS_NAME_MAX + 1)) (BLOBFS_NAME_MAX + 1) b).

Definition dec_bmeta_v1 (b : bytes) : blobfs_meta_v1 :=
  mk_bmeta_v1 (rd 4 0 b) (byte_at 4 b) (byte_at 5 b) (byte_at 6 b) (byte_at 7 b) (rd 8 8 b) (rd 8 16 b)
    (slice 24 (BLOBFS_NAME_MAX + 1) b) (slice (24 + (BLOBFS_NAME_MAX + 1)) (BLOBFS_NAME_MAX + 1) b).

Definition no_name : bytes := replicate (Z.to_nat (BLOBFS_NAME_MAX + 1)) 0.

(** ** State *)

Record bfs := mk_bfs { fs_kv : kvh; fs_st : bfs_state }.

Definition on_kv {A} (m : M kvh A) : M bfs A := fun s => let (r, k) := m (fs_kv s) in (r, mk_bfs k (fs_st s)).
Definition on_blob {A} (m : M D A) : M bfs A := on_kv (on_dev m).
Definition st_get : M bfs bfs_state := mgets fs_st.
Definition st_mod (f : bfs_state -> bfs_state) : M bfs unit := mmod (fun s => mk_bfs (fs_kv s) (f (fs_st s))).

Definition set_mounted (b : bool) (s : bfs_state) : bfs_state := mk_bst b (bs_meta_v1 s) (bs_intent_pending s) (bs_meta_id s) (bs_dir_root s).
Definition set_meta_v1 (b : bool) (s : bfs_state) : bfs_state := mk_bst (bs_mounted s) b (bs_intent_pending s) (bs_meta_id s) (bs_dir_root s).
Definition set_pending (b : bool) (s : bfs_state) : bfs_state := mk_bst (bs_mounted s) (bs_meta_v1 s) b (bs_meta_id s) (bs_dir_root s).
Definition set_roots (meta_id dir_root : Z) (s : bfs_state) : bfs_state := mk_bst (bs_mounted s) (bs_meta_v1 s) (bs_intent_pending s) meta_id dir_root.

Definition dir_ops : map_ops (D := D) := kvhash_map_ops.

(** ** Directories *)

Definition dir_create (root : Z) : M bfs unit := on_kv (mo_create dir_ops root (Some (mk_map_config 0 0 (BLOBFS_NAME_MAX + DIRENT_LEN)))).

Definition check_name (name : bytes) : res unit :=
  if is_name name [DOT] || is_name name [DOT; DOT] then Err EINVAL
  else if len name >? BLOBFS_NAME_MAX then Err ENAMETOOLONG
  else Ok tt.

Definition dirent_check (b : bytes) : res blobfs_dirent :=
  let de := dec_dirent b in
  if negb (len b =? DIRENT_LEN) || (negb (de_type de =? BLOBFS_TYPE_FILE) && negb (de_type de =? BLOBFS_TYPE_DIR)) || negb (de_version de =? BLOBFS_DIRENT_VERSION)
  then Err EIO else Ok de.

Definition dirent_get (dir : Z) (name : bytes) : M bfs blobfs_dirent :=
  let* b := on_kv (mo_get dir_ops dir (Some name) DIRENT_LEN) in
  mlift (dirent_check b).

(** ** Resolving *)

(** [walk()] at a component: it and what follows it. A component is at least a
    byte long, so the path's length is fuel enough. *)
Fixpoint walk_loop (fuel : nat) (dir : Z) (name rest : bytes) : M bfs where_t :=
  match fuel with
  | O => mfail EIO
  | S fuel =>
      if len name =? 0 then mret (mk_where dir [] false)
      else
        mlift (check_name name);;;
        let (next, rest') := component rest in
        if len next =? 0 then mret (mk_where dir name (match rest with c :: _ => c =? SLASH | [] => false end))
        else
          let* de := dirent_get dir name in
          if negb (de_type de =? BLOBFS_TYPE_DIR) then mfail ENOTDIR
          else walk_loop fuel (de_body_id de) next rest'
  end.

Definition walk (path : option bytes) : M bfs where_t :=
  match path with
  | None => mfail EINVAL
  | Some p =>
      let* st := st_get in
      if negb (bs_mounted st) then mfail ENODEV
      else
        let (name, rest) := component p in
        walk_loop (S (length p)) (bs_dir_root st) name rest
  end.

(** The codes of [resolve()] and [walk_to_free_name()] go with the [struct where]
    they leave, the zeroed one when the walk itself fails. *)
Definition resolve_path (path : option bytes) : M bfs (res blobfs_dirent * where_t) :=
  let* rc := mtry (walk path) in
  match rc with
  | Err e => mret (Err e, where_0)
  | Ok w =>
      if at_root w then mret (Err EISDIR, w)
      else
        let* rc := mtry (dirent_get (w_dir w) (w_name w)) in
        match rc with
        | Err e => mret (Err e, w)
        | Ok de => if w_want_dir w && negb (de_type de =? BLOBFS_TYPE_DIR) then mret (Err ENOTDIR, w) else mret (Ok de, w)
        end
  end.

Definition walk_to_free_name (path : option bytes) : M bfs (res unit * where_t) :=
  let* rc := mtry (walk path) in
  match rc with
  | Err e => mret (Err e, where_0)
  | Ok w =>
      if at_root w then mret (Err EEXIST, w)
      else
        let* rc := mtry (dirent_get (w_dir w) (w_name w)) in
        match rc with
        | Ok _ => mret (Err EEXIST, w)
        | Err ENOENT => mret (Ok tt, w)
        | Err e => mret (Err e, w)
        end
  end.

(** ** The meta object and the rename intent *)

Definition meta_write (m : blobfs_meta) : M bfs unit :=
  let* st := st_get in
  on_blob (blob_update (bs_meta_id st) (enc_bmeta m));;;
  st_mod (set_meta_v1 false).

Definition intent_clear (m : blobfs_meta) : blobfs_meta :=
  mk_bmeta (bm_magic m) (bm_version m) 0 0 0 (bm_dir_root m) 0 0 0 no_name no_name.

Definition meta_from (m : blobfs_meta) : bytes := zt (bm_from_len m) (bm_from m).
Definition meta_to (m : blobfs_meta) : bytes := zt (bm_to_len m) (bm_to m).

Definition rename_recover (m : blobfs_meta) : M bfs unit :=
  if (bm_from_len m =? 0) || (bm_from_len m >? BLOBFS_NAME_MAX) || (bm_to_len m =? 0) || (bm_to_len m >? BLOBFS_NAME_MAX) || (bm_from_dir m =? 0) || (bm_to_dir m =? 0)
  then mfail EIO
  else
    let* rc := mtry (dirent_get (bm_to_dir m) (meta_to m)) in
    (match rc with
     | Ok de =>
         if de_body_id de =? bm_rename_body m then
           let* rc := mtry (dirent_get (bm_from_dir m) (meta_from m)) in
           match rc with
           | Ok from_de => if de_body_id from_de =? bm_rename_body m then on_kv (mo_del dir_ops (bm_from_dir m) (Some (meta_from m))) else mret tt
           | Err ENOENT => mret tt
           | Err e => mfail e
           end
         else mret tt
     | Err ENOENT => mret tt
     | Err e => mfail e
     end);;;
    meta_write (intent_clear m).

(** What [meta_read()] makes of a payload: the meta, and whether it was version 1. *)
Definition meta_decode (b : bytes) : res (blobfs_meta * bool) :=
  if len b =? 0 then Err ENOENT
  else
    let v2 := dec_bmeta b in
    let v1 := dec_bmeta_v1 b in
    if (len b =? META_LEN) && (bm_magic v2 =? BLOBFS_MAGIC) && (bm_version v2 =? BLOBFS_META_VERSION) then Ok (v2, false)
    else if (len b =? META_V1_LEN) && (b1_magic v1 =? BLOBFS_MAGIC) && (b1_version v1 =? BLOBFS_META_VERSION_1) then
      Ok (mk_bmeta BLOBFS_MAGIC BLOBFS_META_VERSION (b1_rename_in_flight v1) (b1_from_len v1) (b1_to_len v1) (b1_dir_root v1) (b1_rename_body v1)
            (b1_dir_root v1) (b1_dir_root v1) (b1_from v1) (b1_to v1), true)
    else Err EIO.

Definition meta_read (meta_id : Z) : M bfs (blobfs_meta * bool) :=
  let* b := on_blob (blob_get meta_id META_LEN) in
  mlift (meta_decode b).

Definition meta_upgrade : M bfs unit :=
  let* st := st_get in
  if negb (bs_meta_v1 st) then mret tt
  else
    let* '(m, _) := meta_read (bs_meta_id st) in
    meta_write m.

Definition intent_settle : M bfs unit :=
  let* st := st_get in
  if negb (bs_intent_pending st) then mret tt
  else
    let* '(m, _) := meta_read (bs_meta_id st) in
    (if negb (bm_rename_in_flight m =? 0) then rename_recover m else mret tt);;;
    st_mod (set_pending false).

(** ** Mounting *)

(** The part of [blobfs_mount()] that makes a virgin file system. *)
Definition mount_create (meta_id : Z) : M bfs (blobfs_meta * bool) :=
  let* dir_root := on_blob blob_alloc_id in
  if dir_root =? 0 then mfail EIO
  else
    dir_create dir_root;;;
    let m := mk_bmeta BLOBFS_MAGIC BLOBFS_META_VERSION 0 0 0 dir_root 0 0 0 no_name no_name in
    on_blob (blob_update meta_id (enc_bmeta m));;;
    mret (m, false).

Definition blobfs_mount : M bfs unit :=
  let* st := st_get in
  if bs_mounted st then mfail EALREADY
  else
    let* meta_id := on_blob (rootreg_get_or_create MAX_ROOTS (ROOTREG_KEY BLOBFS_MAGIC 0) false) in
    let* rc := mtry (meta_read meta_id) in
    let* '(m, was_v1) :=
      match rc with
      | Err ENOENT => mount_create meta_id
      | Err e => mfail e
      | Ok r => mret r
      end in
    st_mod (fun st => set_pending false (set_meta_v1 was_v1 (set_roots meta_id (bm_dir_root m) st)));;;
    (if negb (bm_rename_in_flight m =? 0) then
       let* rc := mtry (rename_recover m) in
       match rc with
       | Err e => st_mod (set_roots 0 0);;; mfail e
       | Ok _ => mret tt
       end
     else mret tt);;;
    st_mod (set_mounted true).

Definition blobfs_unmount : M bfs unit := st_mod (fun _ => mk_bst false false false 0 0).

(** ** Files and directories *)

Definition new_dirent (type body_id : Z) : blobfs_dirent := mk_dirent type BLOBFS_DIRENT_VERSION 0 0 body_id.
Definition dir_set (dir : Z) (name : bytes) (de : blobfs_dirent) : M bfs unit := on_kv (mo_set dir_ops dir (Some name) (Some (enc_dirent de))).
Definition dir_del (dir : Z) (name : bytes) : M bfs unit := on_kv (mo_del dir_ops dir (Some name)).

Definition blobfs_create (path : option bytes) : M bfs unit :=
  let* '(rc, w) := walk_to_free_name path in
  match rc with
  | Err e => if bool_decide (e = EEXIST) && at_root w then mfail EISDIR else mfail e
  | Ok _ =>
      if w_want_dir w then mfail EISDIR
      else
        let* body_id := on_blob blob_alloc_id in
        if body_id =? 0 then mfail EIO
        else
          on_blob (blob_update body_id []);;;
          dir_set (w_dir w) (w_name w) (new_dirent BLOBFS_TYPE_FILE body_id)
  end.

Definition blobfs_mkdir (path : option bytes) : M bfs unit :=
  let* '(rc, w) := walk_to_free_name path in
  mlift rc;;;
  meta_upgrade;;;
  let* dir_id := on_blob blob_alloc_id in
  if dir_id =? 0 then mfail EIO
  else
    dir_create dir_id;;;
    let* rc := mtry (dir_set (w_dir w) (w_name w) (new_dirent BLOBFS_TYPE_DIR dir_id)) in
    match rc with
    | Ok _ => mret tt
    | Err e => mtry (on_kv (mo_destroy dir_ops dir_id));;; mfail e
    end.

Definition blobfs_lookup (path : option bytes) (out_null : bool) : M bfs Z :=
  if out_null then mfail EINVAL
  else
    let* '(rc, _) := resolve_path path in
    let* de := mlift rc in
    if de_type de =? BLOBFS_TYPE_DIR then mfail EISDIR else mret (de_body_id de).

Definition blobfs_size_id (body_id : Z) (size_null : bool) : M bfs Z :=
  if size_null then mfail EINVAL else on_blob (blob_size body_id).

Definition blobfs_read_id (body_id off : Z) (buf_null : bool) (n : Z) (out_null : bool) : M bfs bytes :=
  if (buf_null && negb (n =? 0)) || out_null then mfail EINVAL else on_blob (blob_read body_id off n).

Definition blobfs_write_id (body_id off : Z) (buf_null : bool) (buf : bytes) : M bfs unit :=
  if buf_null && negb (len buf =? 0) then mfail EINVAL
  else if len buf =? 0 then on_blob (blob_size body_id);;; mret tt
  else if (off >? BLOBFS_FILE_MAX) || (len buf >? BLOBFS_FILE_MAX - off) then mfail ENOSPC
  else on_blob (blob_write body_id off buf).

Definition blobfs_truncate_id (body_id size : Z) : M bfs unit :=
  if size >? BLOBFS_FILE_MAX then mfail ENOSPC
  else
    let* cur := on_blob (blob_size body_id) in
    if size =? cur then mret tt
    else if size >? cur then on_blob (blob_write body_id (size - 1) [0])
    else
      let* b := on_blob (blob_read body_id 0 size) in
      if negb (len b =? size) then mfail EIO else on_blob (blob_update body_id b).

Definition stat_of (de : blobfs_dirent) : M bfs blobfs_stat_t :=
  if de_type de =? BLOBFS_TYPE_DIR then mret (mk_bstat BLOBFS_ENTRY_DIR 0)
  else
    let* size := on_blob (blob_size (de_body_id de)) in
    mret (mk_bstat BLOBFS_ENTRY_FILE size).

Definition blobfs_stat (path : option bytes) (stat_null : bool) : M bfs blobfs_stat_t :=
  if stat_null then mfail EINVAL
  else
    let* '(rc, w) := resolve_path path in
    match rc with
    | Err e => if bool_decide (e = EISDIR) && at_root w then mret (mk_bstat BLOBFS_ENTRY_DIR 0) else mfail e
    | Ok de => stat_of de
    end.

Definition blobfs_read (path : option bytes) (off : Z) (buf_null : bool) (n : Z) (out_null : bool) : M bfs bytes :=
  let* body_id := blobfs_lookup path false in
  blobfs_read_id body_id off buf_null n out_null.

Definition blobfs_write (path : option bytes) (off : Z) (buf_null : bool) (buf : bytes) : M bfs unit :=
  let* body_id := blobfs_lookup path false in
  blobfs_write_id body_id off buf_null buf.

Definition blobfs_truncate (path : option bytes) (size : Z) : M bfs unit :=
  let* body_id := blobfs_lookup path false in
  blobfs_truncate_id body_id size.

(** ** Removing and renaming *)

Definition dir_is_empty (dir : Z) : M bfs bool :=
  let* rc := mtry (on_kv (mo_next dir_ops dir None 0 0)) in
  match rc with
  | Err ENODATA | Err ENOENT => mret true
  | Ok _ | Err ENOMEM => mret false
  | Err e => mfail e
  end.

Definition blobfs_unlink (path : option bytes) : M bfs unit :=
  intent_settle;;;
  let* '(rc, w) := resolve_path path in
  match rc with
  | Err e => if bool_decide (e = EISDIR) && at_root w then mfail EBUSY else mfail e
  | Ok de =>
      (if de_type de =? BLOBFS_TYPE_DIR then
         let* empty := dir_is_empty (de_body_id de) in
         if (empty : bool) then mret tt else mfail ENOTEMPTY
       else mret tt);;;
      dir_del (w_dir w) (w_name w);;;
      (if de_type de =? BLOBFS_TYPE_DIR then mtry (on_kv (mo_destroy dir_ops (de_body_id de))) else mtry (on_blob (blob_delete (de_body_id de))));;;
      mret tt
  end.

Definition intent_of (dir_root : Z) (wf wt : where_t) (de : blobfs_dirent) : blobfs_meta :=
  mk_bmeta BLOBFS_MAGIC BLOBFS_META_VERSION 1 (u8 (len (w_name wf))) (u8 (len (w_name wt))) dir_root (de_body_id de) (w_dir wf) (w_dir wt)
    (splice 0 (w_name wf) no_name) (splice 0 (w_name wt) no_name).

(** Withdrawing or ending an intent, whatever the write says. *)
Definition intent_end (m : blobfs_meta) : M bfs (res unit) :=
  let* rc := mtry (meta_write (intent_clear m)) in
  (match rc with Ok _ => st_mod (set_pending false) | Err _ => mret tt end);;;
  mret rc.

Definition blobfs_rename (from to : option bytes) : M bfs unit :=
  intent_settle;;;
  let* '(rc, wf) := resolve_path from in
  match rc with
  | Err e => if bool_decide (e = EISDIR) && at_root wf then mfail EBUSY else mfail e
  | Ok de =>
      let* wt := walk to in
      if at_root wt then mfail EBUSY
      else if w_want_dir wt && negb (de_type de =? BLOBFS_TYPE_DIR) then mfail ENOTDIR
      else if negb (w_dir wt =? w_dir wf) then mfail EXDEV
      else
        let* rc := mtry (dirent_get (w_dir wt) (w_name wt)) in
        match rc with
        | Ok _ => mfail EEXIST
        | Err ENOENT =>
            let* st := st_get in
            let m := intent_of (bs_dir_root st) wf wt de in
            meta_write m;;;
            st_mod (set_pending true);;;
            let* rc := mtry (dir_set (w_dir wt) (w_name wt) de) in
            match rc with
            | Err e => intent_end m;;; mfail e
            | Ok _ =>
                dir_del (w_dir wf) (w_name wf);;;
                let* rc := intent_end m in
                mlift rc
            end
        | Err e => mfail e
        end
  end.

(** ** Listing *)

Definition blobfs_opendir (path : option bytes) (out_null : bool) : M bfs Z :=
  if out_null then mfail EINVAL
  else
    let* '(rc, w) := resolve_path path in
    match rc with
    | Err e =>
        if bool_decide (e = EISDIR) && at_root w then
          let* st := st_get in
          mret (bs_dir_root st)
        else mfail e
    | Ok de => if negb (de_type de =? BLOBFS_TYPE_DIR) then mfail ENOTDIR else mret (de_body_id de)
    end.

(** [blobfs_next_id()]: its code, with what it stores in [stat] when given one,
    and the name it leaves; the name is not followed where the map's own step
    fails. *)
Definition blobfs_next_id (dir_id : Z) (after : option bytes) (name_null want_stat : bool) : M bfs (res (option blobfs_stat_t) * bytes) :=
  match after with
  | None => mret (Err EINVAL, [])
  | Some after =>
      if name_null then mret (Err EINVAL, [])
      else
        let* st := st_get in
        if negb (bs_mounted st) then mret (Err ENODEV, [])
        else if strlen after >? BLOBFS_NAME_MAX then mret (Err ENAMETOOLONG, [])
        else
          let* rc := mtry (on_kv (mo_next dir_ops dir_id (Some (cstr after)) BLOBFS_NAME_MAX DIRENT_LEN)) in
          match rc with
          | Err ENOMEM => mret (Err EIO, [])
          | Err e => mret (Err e, [])
          | Ok (name, b) =>
              match dirent_check b with
              | Err e => mret (Err e, name)
              | Ok de =>
                  if negb want_stat then mret (Ok None, name)
                  else
                    let* rc := mtry (stat_of de) in
                    match rc with
                    | Err ENOENT => mret (Err EIO, name)
                    | Err e => mret (Err e, name)
                    | Ok s => mret (Ok (Some s), name)
                    end
              end
          end
  end.
End blobfs.
