(* ===== verification/BlobfsSpec.v ===== *)
(** The file system of blobfs.c: the tree of names the objects of the store make
    up, and what path resolution and the changes of a directory do to it. *)

From S2P Require Import BlobIface Prelude Layout Records RootReg RootRegSpec.
From S2P Require Import KvHash KvHashRep KvHashRead KvHashOps KvHashSet KvHashCreate KvHashWalk KvHashDestroy KvHashRuns Kvdb KvdbSpec Blobfs.

(** ** Formats *)

Definition dirent_ok (de : blobfs_dirent) : Prop :=
  (de_type de = BLOBFS_TYPE_FILE \/ de_type de = BLOBFS_TYPE_DIR) /\ de_version de = BLOBFS_DIRENT_VERSION /\ 0 <= de_rsvd de < 2 ^ 16 /\ 0 <= de_rsvd2 de < 2 ^ 32 /\ 0 <= de_body_id de < 2 ^ 64.

Lemma len_enc_dirent de : len (enc_dirent de) = DIRENT_LEN.
Proof. unfold enc_dirent, DIRENT_LEN. lens. Qed.

Lemma bytes_ok_dirent de : dirent_ok de -> bytes_ok (enc_dirent de).
Proof.
  intros (Ht & Hv & _). unfold enc_dirent. rewrite !bytes_ok_app. split_and!; try apply bytes_ok_le.
  unfold bytes_ok, byte_ok. rewrite !list.Forall_cons. unfold BLOBFS_TYPE_FILE, BLOBFS_TYPE_DIR, BLOBFS_DIRENT_VERSION in *. split_and!; (lia || done).
Qed.

Lemma dec_enc_dirent de : dirent_ok de -> dec_dirent (enc_dirent de) = de.
Proof.
  destruct de as [ty ve r1 r2 id]. unfold dirent_ok, dec_dirent, enc_dirent. cbn [de_type de_version de_rsvd de_rsvd2 de_body_id]. intros (_ & _ & ? & ? & ?).
  f_equal; rewrite !rd_skip by lens; autorewrite with len; first [apply rd_here|apply rd_end]; cbn; lia.
Qed.

Lemma dirent_check_enc de : dirent_ok de -> dirent_check (enc_dirent de) = Ok de.
Proof.
  intros Hok. unfold dirent_check. rewrite dec_enc_dirent, len_enc_dirent, Z.eqb_refl by done. destruct Hok as ([->| ->] & -> & _); done.
Qed.

Section blobfs_meta.
Context (BLOBFS_NAME_MAX : Z) (Hname : 1 <= BLOBFS_NAME_MAX <= 255).
Notation META_LEN := (META_LEN BLOBFS_NAME_MAX).
Notation enc_bmeta := (enc_bmeta BLOBFS_NAME_MAX).
Notation dec_bmeta := (dec_bmeta BLOBFS_NAME_MAX).

Definition bmeta_ok (m : blobfs_meta) : Prop :=
  0 <= bm_magic m < 2 ^ 32 /\ byte_ok (bm_version m) /\ byte_ok (bm_rename_in_flight m) /\ byte_ok (bm_from_len m) /\ byte_ok (bm_to_len m) /\
  0 <= bm_dir_root m < 2 ^ 64 /\ 0 <= bm_rename_body m < 2 ^ 64 /\ 0 <= bm_from_dir m < 2 ^ 64 /\ 0 <= bm_to_dir m < 2 ^ 64 /\
  len (bm_from m) = BLOBFS_NAME_MAX + 1 /\ len (bm_to m) = BLOBFS_NAME_MAX + 1 /\ bytes_ok (bm_from m) /\ bytes_ok (bm_to m).

Lemma pow2_8 : pow2_le32 8.
Proof. unfold pow2_le32. lia. Qed.

Lemma META_LEN_bounds : 40 + 2 * (BLOBFS_NAME_MAX + 1) <= META_LEN < 40 + 2 * (BLOBFS_NAME_MAX + 1) + 8.
Proof. unfold Blobfs.META_LEN. apply (round_up_spec (40 + 2 * (BLOBFS_NAME_MAX + 1)) 8 pow2_8). Qed.

Lemma len_enc_bmeta m : bmeta_ok m -> len (enc_bmeta m) = META_LEN.
Proof.
  intros (_ & _ & _ & _ & _ & _ & _ & _ & _ & Hf & Ht & _). pose proof META_LEN_bounds as Hl. unfold Blobfs.enc_bmeta, META_PAD. autorewrite with len. rewrite Hf, Ht. fold META_LEN. lia.
Qed.

Lemma bytes_ok_bmeta m : bmeta_ok m -> bytes_ok (enc_bmeta m).
Proof.
  intros (_ & ? & ? & ? & ? & _ & _ & _ & _ & _ & _ & ? & ?). unfold Blobfs.enc_bmeta. rewrite !bytes_ok_app. split_and!; try apply bytes_ok_le; try done.
  - unfold bytes_ok. rewrite !list.Forall_cons. by split_and!.
  - apply Forall_replicate. unfold byte_ok. lia.
Qed.

Lemma dec_enc_bmeta m : bmeta_ok m -> dec_bmeta (enc_bmeta m) = m.
Proof.
  destruct m as [mg ve rf fl tl dr rb fd td fr to]. unfold bmeta_ok, Blobfs.dec_bmeta, Blobfs.enc_bmeta.
  cbn [bm_magic bm_version bm_rename_in_flight bm_from_len bm_to_len bm_dir_root bm_rename_body bm_from_dir bm_to_dir bm_from bm_to].
  intros (? & _ & _ & _ & _ & ? & ? & ? & ? & Hf & Ht & _). f_equal; try (rewrite ?rd_skip by lens; autorewrite with len; apply rd_here; cbn; lia).
  - rewrite !slice_app_r by lens. autorewrite with len. by apply slice_here.
  - rewrite !slice_app_r by lens. autorewrite with len. rewrite Hf. replace (40 + (BLOBFS_NAME_MAX + 1) - _ - _ - _ - _ - _ - _ - _) with 0 by lia. by apply slice_here.
Qed.

Lemma meta_decode_enc m : bmeta_ok m -> bm_magic m = BLOBFS_MAGIC -> bm_version m = BLOBFS_META_VERSION -> meta_decode BLOBFS_NAME_MAX (enc_bmeta m) = Ok (m, false).
Proof.
  intros Hm E1 E2. pose proof META_LEN_bounds. unfold meta_decode. rewrite len_enc_bmeta, dec_enc_bmeta, E1, E2 by done. destruct (Z.eqb_spec META_LEN 0); [lia|]. by rewrite Z.eqb_refl.
Qed.
End blobfs_meta.

(** ** The abstract file system

    Directories and files under their ids, and the rename that is half done, if
    one is. *)
Notation dirents := (gmap bytes blobfs_dirent).
Record intent := mk_intent { in_dir : Z; in_from : bytes; in_to : bytes; in_body : Z }.
Record fs := mk_fs { fs_dirs : gmap Z dirents; fs_files : gmap Z bytes; fs_intent : option intent }.

Definition entry_at (f : fs) (d : Z) (n : bytes) : option blobfs_dirent := fs_dirs f !! d ≫= (.!! n).
Definition set_entry (d : Z) (n : bytes) (de : blobfs_dirent) (f : fs) : fs := mk_fs (alter (insert n de) d (fs_dirs f)) (fs_files f) (fs_intent f).
Definition del_entry (d : Z) (n : bytes) (f : fs) : fs := mk_fs (alter (delete n) d (fs_dirs f)) (fs_files f) (fs_intent f).
Definition set_file (id : Z) (b : bytes) (f : fs) : fs := mk_fs (fs_dirs f) (<[id := b]> (fs_files f)) (fs_intent f).
Definition del_file (id : Z) (f : fs) : fs := mk_fs (fs_dirs f) (delete id (fs_files f)) (fs_intent f).
Definition set_dir_of (id : Z) (es : dirents) (f : fs) : fs := mk_fs (<[id := es]> (fs_dirs f)) (fs_files f) (fs_intent f).
Definition del_dir (id : Z) (f : fs) : fs := mk_fs (delete id (fs_dirs f)) (fs_files f) (fs_intent f).
Definition set_intent (i : option intent) (f : fs) : fs := mk_fs (fs_dirs f) (fs_files f) i.

(** Looking a path up. *)
Definition alookup (f : fs) (d : Z) (n : bytes) : res blobfs_dirent := match entry_at f d n with Some de => Ok de | None => Err ENOENT end.

Section paths.
Context (BLOBFS_NAME_MAX root : Z) (f : fs).

Fixpoint awalk_loop (fuel : nat) (dir : Z) (name rest : bytes) : res where_t :=
  match fuel with
  | O => Err EIO
  | S fuel =>
      if len name =? 0 then Ok (mk_where dir [] false)
      else
        match check_name BLOBFS_NAME_MAX name with
        | Err e => Err e
        | Ok _ =>
            let (next, rest') := component rest in
            if len next =? 0 then Ok (mk_where dir name (match rest with c :: _ => c =? SLASH | [] => false end))
            else
              match alookup f dir name with
              | Err e => Err e
              | Ok de => if negb (de_type de =? BLOBFS_TYPE_DIR) then Err ENOTDIR else awalk_loop fuel (de_body_id de) next rest'
              end
        end
  end.

Definition awalk (p : bytes) : res where_t := let (name, rest) := component p in awalk_loop (S (length p)) root name rest.

Definition aresolve (p : bytes) : res blobfs_dirent * where_t :=
  match awalk p with
  | Err e => (Err e, where_0)
  | Ok w =>
      if at_root w then (Err EISDIR, w)
      else
        match alookup f (w_dir w) (w_name w) with
        | Err e => (Err e, w)
        | Ok de => if w_want_dir w && negb (de_type de =? BLOBFS_TYPE_DIR) then (Err ENOTDIR, w) else (Ok de, w)
        end
  end.

Definition afree (p : bytes) : res unit * where_t :=
  match awalk p with
  | Err e => (Err e, where_0)
  | Ok w => if at_root w then (Err EEXIST, w) else match alookup f (w_dir w) (w_name w) with Ok _ => (Err EEXIST, w) | Err _ => (Ok tt, w) end
  end.

(** The fuel is never the answer. *)
Lemma to_slash_split p : (to_slash p).1 ++ (to_slash p).2 = p.
Proof. induction p as [|c p IH]; [done|]. cbn [to_slash]. destruct (_ || _); [done|]. destruct (to_slash p) as [n r]. cbn in *. by rewrite IH. Qed.

Lemma skip_slashes_le p : (length (skip_slashes p) <= length p)%nat.
Proof. induction p as [|c p IH]; [done|]. cbn [skip_slashes]. destruct (c =? SLASH); [cbn; lia|done]. Qed.

Lemma component_len p : (length (component p).1 + length (component p).2 <= length p)%nat.
Proof. unfold component. pose proof (skip_slashes_le p). pose proof (to_slash_split (skip_slashes p)) as E. apply (f_equal length) in E. rewrite List.length_app in E. lia. Qed.

Lemma awalk_loop_fuel fuel dir name rest : (length name + length rest < fuel)%nat -> awalk_loop fuel dir name rest <> Err EIO.
Proof.
  revert dir name rest. induction fuel as [|fuel IH]; intros dir name rest Hf; [lia|]. cbn [awalk_loop]. destruct (Z.eqb_spec (len name) 0); [done|].
  assert (0 < length name)%nat by (unfold len in *; lia). unfold check_name. destruct (_ || _); [done|]. destruct (_ >? _); [done|].
  pose proof (component_len rest) as Hc. destruct (component rest) as [next rest']. cbn [fst snd] in Hc. destruct (len next =? 0); [done|].
  unfold alookup. destruct (entry_at f dir name) as [de|]; [|done]. destruct (negb _); [done|]. apply IH. lia.
Qed.

Lemma awalk_fuel p : awalk p <> Err EIO.
Proof. unfold awalk. pose proof (component_len p) as Hc. destruct (component p) as [name rest]. apply awalk_loop_fuel. cbn in Hc. lia. Qed.
End paths.

(** ** Well-formed file systems *)

Section wf.
Context (BLOBFS_NAME_MAX root : Z).
Implicit Types (f : fs) (de : blobfs_dirent) (n : bytes).

(** A name in a directory: neither of the special entries, and of bytes that are
    neither a NUL nor a slash. *)
Definition name_byte (c : Z) : Prop := byte_ok c /\ c <> 0 /\ c <> SLASH.
Definition entry_name (n : bytes) : Prop := 0 < len n <= BLOBFS_NAME_MAX /\ Forall name_byte n /\ n <> [DOT] /\ n <> [DOT; DOT].

Lemma entry_name_len n : entry_name n -> 0 < len n <= BLOBFS_NAME_MAX.
Proof. by intros []. Qed.

Lemma entry_name_ok n : entry_name n -> bytes_ok n.
Proof. intros (_ & Hb & _). unfold bytes_ok. apply (list.Forall_impl name_byte); [done|]. by intros c []. Qed.

Definition target f de : Prop :=
  (de_type de = BLOBFS_TYPE_FILE -> is_Some (fs_files f !! de_body_id de)) /\
  (de_type de = BLOBFS_TYPE_DIR -> is_Some (fs_dirs f !! de_body_id de) /\ de_body_id de <> root).

(** The two ends of the rename that is half done. *)
Definition aliased f (b d : Z) n (d' : Z) n' : Prop := exists i, fs_intent f = Some i /\ in_body i = b /\ d = in_dir i /\ d' = in_dir i /\
  ((n = in_from i /\ n' = in_to i) \/ (n = in_to i /\ n' = in_from i)).

Record fs_wf f : Prop := {
  wf_root : is_Some (fs_dirs f !! root);
  wf_entry d n de : entry_at f d n = Some de -> dirent_ok de /\ entry_name n /\ target f de;
  wf_uniq d n de d' n' de' : entry_at f d n = Some de -> entry_at f d' n' = Some de' -> de_body_id de = de_body_id de' -> (d = d' /\ n = n') \/ aliased f (de_body_id de) d n d' n';
  wf_intent i : fs_intent f = Some i -> is_Some (fs_dirs f !! in_dir i) /\ entry_name (in_from i) /\ entry_name (in_to i) /\ in_from i <> in_to i;
}.

(** No name leads to [id]. *)
Definition unnamed f (id : Z) : Prop := forall d n de, entry_at f d n = Some de -> de_body_id de <> id.

Lemma entry_set_entry d n de f d' n' : entry_at (set_entry d n de f) d' n' =
  if decide (d' = d /\ n' = n) then (if fs_dirs f !! d then Some de else None) else entry_at f d' n'.
Proof.
  unfold entry_at, set_entry. cbn [fs_dirs]. destruct (decide (d' = d)) as [->|Hd].
  - rewrite lookup_alter_eq. destruct (fs_dirs f !! d) as [es|] eqn:E; cbn; [|by destruct (decide _)]. destruct (decide (n' = n)) as [->|Hn].
    + rewrite lookup_insert_eq. by rewrite decide_True.
    + rewrite lookup_insert_ne by done. rewrite decide_False; [done|]. by intros [_ ?].
  - rewrite lookup_alter_ne by done. rewrite decide_False; [done|]. by intros [? _].
Qed.

Lemma entry_del_entry d n f d' n' : entry_at (del_entry d n f) d' n' = if decide (d' = d /\ n' = n) then None else entry_at f d' n'.
Proof.
  unfold entry_at, del_entry. cbn [fs_dirs]. destruct (decide (d' = d)) as [->|Hd].
  - rewrite lookup_alter_eq. destruct (fs_dirs f !! d) as [es|] eqn:E; cbn; [|by destruct (decide _)]. destruct (decide (n' = n)) as [->|Hn].
    + rewrite lookup_delete_eq. by rewrite decide_True.
    + rewrite lookup_delete_ne by done. rewrite decide_False; [done|]. by intros [_ ?].
  - rewrite lookup_alter_ne by done. rewrite decide_False; [done|]. by intros [? _].
Qed.

Lemma entry_dirs f d n de : entry_at f d n = Some de -> is_Some (fs_dirs f !! d).
Proof. unfold entry_at. destruct (fs_dirs f !! d); [by eexists|done]. Qed.

Lemma entry_set_dir id f d n : entry_at (set_dir_of id ∅ f) d n = if decide (d = id) then None else entry_at f d n.
Proof.
  unfold entry_at, set_dir_of. cbn [fs_dirs]. case_decide as E; [subst; rewrite lookup_insert_eq; cbn; by rewrite lookup_empty|by rewrite lookup_insert_ne].
Qed.

Lemma entry_del_dir id f d n : entry_at (del_dir id f) d n = if decide (d = id) then None else entry_at f d n.
Proof. unfold entry_at, del_dir. cbn [fs_dirs]. case_decide as E; [subst; by rewrite lookup_delete_eq|by rewrite lookup_delete_ne]. Qed.

Lemma dirs_alter_some (g : dirents -> dirents) d f d' : is_Some (alter g d (fs_dirs f) !! d') <-> is_Some (fs_dirs f !! d').
Proof. rewrite !is_Some_alt. destruct (decide (d' = d)) as [->|]; [rewrite lookup_alter_eq; by destruct (fs_dirs f !! d)|by rewrite lookup_alter_ne]. Qed.

(** Files come and go, a body in use excepted. *)
Lemma wf_set_file id b f : fs_wf f -> fs_wf (set_file id b f).
Proof.
  intros [Hr He Hu Hi]. split; try done. intros d n de E. destruct (He d n de E) as (? & ? & [Hf Hd]). split_and!; try done. split; [|done].
  intros Ht. cbn. apply lookup_insert_is_Some'. right. by apply Hf.
Qed.

Lemma wf_del_file id f : fs_wf f -> unnamed f id -> fs_wf (del_file id f).
Proof.
  intros [Hr He Hu Hi] Hn. split; try done. intros d n de E. destruct (He d n de E) as (? & ? & [Hf Hd]). split_and!; try done. split; [|done].
  intros Ht. cbn. rewrite lookup_delete_ne; [by apply Hf|]. intros Ei. by apply (Hn d n de E).
Qed.

Lemma wf_del_entry d n f : fs_wf f -> fs_wf (del_entry d n f).
Proof.
  intros [Hr He Hu Hi]. assert (forall d' n' de, entry_at (del_entry d n f) d' n' = Some de -> entry_at f d' n' = Some de) as Hsub.
  { intros d' n' de. rewrite entry_del_entry. by case_decide. }
  split; cbn [del_entry fs_dirs fs_files fs_intent].
  - by apply dirs_alter_some.
  - intros d' n' de E. apply Hsub in E. destruct (He d' n' de E) as (? & ? & [Hf Hd]). split_and!; try done. split; [done|]. intros Ht. cbn. rewrite dirs_alter_some. by apply Hd.
  - intros d1 n1 de1 d2 n2 de2 E1 E2. apply Hsub in E1, E2. by apply Hu.
  - intros i Ei. rewrite dirs_alter_some. by apply Hi.
Qed.

Lemma wf_set_entry d n de f : fs_wf f -> entry_at f d n = None -> dirent_ok de -> entry_name n -> target f de ->
  (forall d' n' de', entry_at f d' n' = Some de' -> de_body_id de' = de_body_id de -> aliased f (de_body_id de) d n d' n' /\ aliased f (de_body_id de) d' n' d n) -> fs_wf (set_entry d n de f).
Proof.
  intros [Hr He Hu Hi] Hnone Hok Hn Ht Hal. split; cbn [set_entry fs_dirs fs_files fs_intent].
  - by apply dirs_alter_some.
  - intros d' n' de' E. rewrite entry_set_entry in E. case_decide as Ec.
    + destruct Ec as [-> ->]. destruct (fs_dirs f !! d); [cbn in E; injection E as <-|done]. split_and!; try done. destruct Ht as [Hf Hd]. split; [done|]. intros Hty. cbn. rewrite dirs_alter_some. by apply Hd.
    + destruct (He d' n' de' E) as (? & ? & [Hf Hd]). split_and!; try done. split; [done|]. intros Hty. cbn. rewrite dirs_alter_some. by apply Hd.
  - intros d1 n1 de1 d2 n2 de2 E1 E2 Eb. rewrite entry_set_entry in E1, E2. destruct (decide (d1 = d /\ n1 = n)) as [C1|C1]; destruct (decide (d2 = d /\ n2 = n)) as [C2|C2].
    + destruct C1 as [-> ->], C2 as [-> ->]. by left.
    + destruct C1 as [-> ->]. destruct (fs_dirs f !! d); [cbn in E1; injection E1 as <-|done]. right. by apply (Hal d2 n2 de2).
    + destruct C2 as [-> ->]. destruct (fs_dirs f !! d); [cbn in E2; injection E2 as <-|done]. right. rewrite Eb. by apply (Hal d1 n1 de1).
    + by apply (Hu d1 n1 de1 d2 n2 de2).
  - intros i Ei. rewrite dirs_alter_some. by apply Hi.
Qed.

Lemma wf_add_dir id f : fs_wf f -> fs_dirs f !! id = None -> fs_wf (set_dir_of id ∅ f).
Proof.
  intros [Hr He Hu Hi] Hno. assert (forall d' n' de, entry_at (set_dir_of id ∅ f) d' n' = Some de -> entry_at f d' n' = Some de) as Hsub.
  { intros d' n' de. rewrite entry_set_dir. by case_decide. }
  assert (forall d, is_Some (fs_dirs f !! d) -> is_Some (<[id := ∅]> (fs_dirs f) !! d)) as Hmono by (intros d Hd; apply lookup_insert_is_Some'; by right).
  split; cbn [set_dir_of fs_dirs fs_files fs_intent].
  - by apply Hmono.
  - intros d' n' de E. apply Hsub in E. destruct (He d' n' de E) as (? & ? & [Hf Hd]). split_and!; try done. split; [done|]. intros Ht. destruct (Hd Ht). split; [by apply Hmono|done].
  - intros d1 n1 de1 d2 n2 de2 E1 E2. apply Hsub in E1, E2. by apply Hu.
  - intros i Ei. destruct (Hi i Ei) as (? & ?). split; [by apply Hmono|done].
Qed.

Lemma wf_del_dir id f : fs_wf f -> unnamed f id -> id <> root -> (forall i, fs_intent f = Some i -> in_dir i <> id) -> fs_wf (del_dir id f).
Proof.
  intros [Hr He Hu Hi] Hn Hne Hid. assert (forall d' n' de, entry_at (del_dir id f) d' n' = Some de -> entry_at f d' n' = Some de) as Hsub.
  { intros d' n' de. rewrite entry_del_dir. by case_decide. }
  split; cbn [del_dir fs_dirs fs_files fs_intent].
  - by rewrite lookup_delete_ne.
  - intros d' n' de E. apply Hsub in E. destruct (He d' n' de E) as (? & ? & [Hf Hd]). split_and!; try done. split; [done|]. intros Ht. destruct (Hd Ht). cbn. rewrite lookup_delete_ne; [done|]. intros Ei. by apply (Hn d' n' de E).
  - intros d1 n1 de1 d2 n2 de2 E1 E2. apply Hsub in E1, E2. by apply Hu.
  - intros i Ei. destruct (Hi i Ei) as (? & ?). specialize (Hid i Ei). rewrite lookup_delete_ne by done. done.
Qed.

(** The intent may be dropped once only one of its names leads to its body. *)
Lemma wf_no_intent f : fs_wf f -> (forall i de de', fs_intent f = Some i -> entry_at f (in_dir i) (in_from i) = Some de -> entry_at f (in_dir i) (in_to i) = Some de' ->
  de_body_id de = in_body i -> de_body_id de' = in_body i -> False) -> fs_wf (set_intent None f).
Proof.
  intros [Hr He Hu Hi] Hal. split; try done. intros d n de d' n' de' E E' Eb. destruct (Hu d n de d' n' de' E E' Eb) as [?|(i & Ei & Hb & -> & -> & Hn)]; [by left|exfalso].
  destruct Hn as [[-> ->]|[-> ->]]; [apply (Hal i de de' Ei E E')|apply (Hal i de' de Ei E' E)]; congruence.
Qed.

Lemma wf_new_intent i f : fs_wf f -> fs_intent f = None -> is_Some (fs_dirs f !! in_dir i) -> entry_name (in_from i) -> entry_name (in_to i) -> in_from i <> in_to i -> fs_wf (set_intent (Some i) f).
Proof.
  intros [Hr He Hu Hi] Hno Hd Hf Ht Hne. split; try done.
  - intros d n de d' n' de' E E' Eb. destruct (Hu d n de d' n' de' E E' Eb) as [?|(j & Ej & _)]; [by left|congruence].
  - by intros j [= <-].
Qed.
End wf.
