(* ===== verification/BlobfsOps.v ===== *)
(** The file system in the store, and blobfs's steps on it: resolving paths,
    binding and dropping names, the meta object, bodies and directories. *)

From S2P Require Import BlobIface Prelude Layout Records RootReg RootRegSpec.
From S2P Require Import KvHash KvHashRep KvHashRead KvHashOps KvHashSet KvHashCreate KvHashWalk KvHashDestroy KvHashRuns Kvdb KvdbSpec Blobfs BlobfsSpec.

Section blobfs_ops.
Context `{Crc} {D : Type} `{!Blobs D} {CL : CrcLaws _} {L : BlobLaws D} (MAX_ROOTS BLOBFS_NAME_MAX meta root : Z).
Notation MAX_PAYLOAD := (blob_max (D := D)).
Notation kvh := (kvh (D := D)).
Notation bfs := (bfs (D := D)).
Notation META_LEN := (META_LEN BLOBFS_NAME_MAX).
Notation fs_wf := (fs_wf BLOBFS_NAME_MAX root).
Notation entry_name := (entry_name BLOBFS_NAME_MAX).
Notation registry := (registry MAX_ROOTS).
Implicit Types (s : bfs) (o : objs) (f : fs) (trees : gmap Z kvtree) (reg : gmap Z Z).

(** ** The objects of a file system *)

Definition FS_KEY : Z := ROOTREG_KEY BLOBFS_MAGIC 0.

Definition fshelf (mb : bytes) trees (files : gmap Z bytes) : list (Z * bytes) :=
  (meta, mb) :: (map_to_list trees ≫= fun x => tree_objs x.2) ++ map_to_list files.

Lemma fshelf_new_dir mb trees files d t : trees !! d = None -> fshelf mb (<[d := t]> trees) files ≡ₚ tree_objs t ++ fshelf mb trees files.
Proof.
  intros E. unfold fshelf. rewrite map_to_list_insert by done. cbn [mbind list_bind snd]. rewrite <- app_assoc. by rewrite Permutation_middle.
Qed.

Lemma fshelf_dir mb trees files d t : trees !! d = Some t -> fshelf mb trees files ≡ₚ tree_objs t ++ fshelf mb (delete d trees) files.
Proof. intros E. rewrite <- (insert_delete_id trees d t E) at 1. apply fshelf_new_dir. apply lookup_delete_eq. Qed.

Lemma fshelf_set_dir mb trees files d t : fshelf mb (<[d := t]> trees) files ≡ₚ tree_objs t ++ fshelf mb (delete d trees) files.
Proof. rewrite <- insert_delete_eq. apply fshelf_new_dir. apply lookup_delete_eq. Qed.

Lemma fshelf_new_file mb trees files id b : files !! id = None -> fshelf mb trees (<[id := b]> files) ≡ₚ (id, b) :: fshelf mb trees files.
Proof.
  intros E. unfold fshelf. rewrite map_to_list_insert by done. rewrite <- Permutation_middle. apply perm_swap.
Qed.

Lemma fshelf_file mb trees files id b : files !! id = Some b -> fshelf mb trees files ≡ₚ (id, b) :: fshelf mb trees (delete id files).
Proof. intros E. rewrite <- (insert_delete_id files id b E) at 1. apply fshelf_new_file. apply lookup_delete_eq. Qed.

Lemma fshelf_set_file mb trees files id b : fshelf mb trees (<[id := b]> files) ≡ₚ (id, b) :: fshelf mb trees (delete id files).
Proof. rewrite <- insert_delete_eq. apply fshelf_new_file. apply lookup_delete_eq. Qed.

(** Each directory is the map of its dirents. *)
Definition dir_ok (d : Z) (t : kvtree) (es : dirents) : Prop := tree_root t = d /\ tree_ok (D := D) t /\ tree_map t = enc_dirent <$> es.
Definition dirs_ok trees (dirs : gmap Z dirents) : Prop :=
  forall d, match trees !! d, dirs !! d with Some t, Some es => dir_ok d t es | None, None => True | _, _ => False end.

(** What the meta object says. *)
Definition tells (m : blobfs_meta) (i : option intent) : Prop := bm_magic m = BLOBFS_MAGIC /\ bm_version m = BLOBFS_META_VERSION /\ bm_dir_root m = root /\
  match i with
  | None => bm_rename_in_flight m = 0
  | Some i => bm_rename_in_flight m <> 0 /\ bm_from_len m = len (in_from i) /\ bm_to_len m = len (in_to i) /\ meta_from m = in_from i /\ meta_to m = in_to i /\
      bm_from_dir m = in_dir i /\ bm_to_dir m = in_dir i /\ bm_rename_body m = in_body i
  end.
Definition meta_says (mb : bytes) (i : option intent) : Prop := exists m v1, meta_decode BLOBFS_NAME_MAX mb = Ok (m, v1) /\ len mb <= META_LEN /\ tells m i.

Record fsys o reg mb trees f : Prop := {
  fy_reg : registry o reg;
  fy_key : reg !! FS_KEY = Some meta;
  fy_stored : stored o (fshelf mb trees (fs_files f));
  fy_meta : meta_says mb (fs_intent f);
  fy_dirs : dirs_ok trees (fs_dirs f);
  fy_wf : fs_wf f;
}.

Definition holds_fs (n : nat) nx o f s : Prop := khold n nx o (fs_kv s) /\ exists reg mb trees, fsys o reg mb trees f.

Context (Hmax : 72 <= MAX_PAYLOAD <= ENT_LEN_MASK) (Hsteady : ~ tears (D := D)) (Hname : 1 <= BLOBFS_NAME_MAX <= 255) (Hmeta : META_LEN <= MAX_PAYLOAD).

Lemma fsys_dir o reg mb trees f d es : fsys o reg mb trees f -> fs_dirs f !! d = Some es -> exists t, trees !! d = Some t /\ dir_ok d t es /\ stored o (tree_objs t).
Proof.
  intros F E. pose proof (fy_dirs _ _ _ _ _ F d) as Hd. rewrite E in Hd. destruct (trees !! d) as [t|] eqn:Et; [|done]. exists t. split; [done|]. split; [done|].
  pose proof (fy_stored _ _ _ _ _ F) as Hs. rewrite (fshelf_dir mb trees _ d t Et) in Hs. apply stored_app in Hs. tauto.
Qed.

Lemma fsys_file o reg mb trees f id b : fsys o reg mb trees f -> fs_files f !! id = Some b -> o !! id = Some b /\ id <> BLOB_ROOT.
Proof.
  intros F E. pose proof (fy_stored _ _ _ _ _ F) as Hs. rewrite (fshelf_file mb trees _ id b E), stored_cons in Hs. tauto.
Qed.

Lemma fsys_meta o reg mb trees f : fsys o reg mb trees f -> o !! meta = Some mb /\ meta <> BLOB_ROOT.
Proof. intros F. pose proof (fy_stored _ _ _ _ _ F) as Hs. unfold fshelf in Hs. apply stored_cons in Hs. tauto. Qed.

(** ** Reading names *)

Lemma wp_on_kv {A} (m : M kvh A) s (Q : res A -> bfs -> Prop) : wp m (fs_kv s) (fun r k => Q r (mk_bfs k (fs_st s))) -> wp (on_kv m) s Q.
Proof. unfold wp, on_kv. by destruct (m (fs_kv s)). Qed.

Lemma wp_on_blob {A} (m : M D A) s (Q : res A -> bfs -> Prop) : wp m (kv_dev (fs_kv s)) (fun r d => Q r (mk_bfs (set_dev d (fs_kv s)) (fs_st s))) -> wp (on_blob m) s Q.
Proof. intros Hw. by apply wp_on_kv, wp_on_dev. Qed.

(** The store and the module's state are as they were; the reply is the one
    wanted, or a fault. *)
Definition same {A} (n : nat) nx o s (want r : res A) s' : Prop :=
  khold n nx o (fs_kv s') /\ fs_st s' = fs_st s /\ (r = want \/ exists e, fault (D := D) e /\ r = Err e).

Lemma entry_len f d nm de : fs_wf f -> entry_at f d nm = Some de -> dirent_ok de.
Proof. intros W E. apply (wf_entry _ _ _ W) in E. tauto. Qed.

Lemma dirent_get_spec n nx o s reg mb trees f d nm : khold n nx o (fs_kv s) -> fsys o reg mb trees f -> is_Some (fs_dirs f !! d) -> 0 < len nm <= 0xffff ->
  wp (dirent_get d nm) s (same n nx o s (alookup f d nm)).
Proof.
  intros Hh F [es E] Hn. destruct (fsys_dir _ _ _ _ _ d es F E) as (t & _ & (Hr & Hok & Hm) & Hs). assert (24 <= MAX_PAYLOAD <= ENT_LEN_MASK) as Hm24 by lia.
  unfold dirent_get. wp_step. apply wp_on_kv. cbn [mo_get dir_ops kvhash_map_ops]. rewrite <- Hr. wp_use (get_spec Hm24 n nx o (fs_kv s) (tree_root t) (tree_map t) nm DIRENT_LEN); [done|by exists t|].
  intros r k [Hh' Hrep]. unfold kv_get_reply in Hrep. destruct (Z.eqb_spec (len nm) 0); [lia|]. destruct (Z.gtb_spec (len nm) 0xffff); [lia|]. cbn [orb] in Hrep. rewrite Hm, lookup_fmap in Hrep.
  unfold alookup, entry_at. rewrite Hr, E. cbn [mbind option_bind]. destruct (es !! nm) as [de|] eqn:Ee; cbn [fmap option_fmap option_map] in Hrep.
  - assert (dirent_ok de) as Hde by (apply (entry_len f d nm); [apply F|unfold entry_at; by rewrite E]). unfold value_reply in Hrep. rewrite len_enc_dirent, Z.ltb_irrefl in Hrep.
    destruct Hrep as [->|(e & He & ->)]; [|split; [done|split; [done|right; eauto]]]. unfold wp, mlift. rewrite dirent_check_enc by done. split; [done|split; [done|by left]].
  - destruct Hrep as [->|(e & He & ->)]; (split; [done|split; [done|]]); [by left|right; eauto].
Qed.

Lemma same_refl {A} n nx o s (r : res A) s' : khold n nx o (fs_kv s') -> fs_st s' = fs_st s -> same n nx o s r r s'.
Proof. intros. split; [done|]. split; [done|by left]. Qed.

(** Going on from a step that changed nothing. *)
Lemma same_bnd {A B} n nx o s (m : M bfs A) (k : A -> M bfs B) (want : res A) (want' : res B) :
  wp m s (same n nx o s want) ->
  (forall a s', want = Ok a -> khold n nx o (fs_kv s') -> fs_st s' = fs_st s -> wp (k a) s' (same n nx o s want')) ->
  (forall e, want = Err e -> want' = Err e) -> wp (mbnd m k) s (same n nx o s want').
Proof.
  intros Hm Hk He. wp_step. wp_use Hm. intros r s' (Hh & Est & Hr). destruct Hr as [->|(e & Hf & ->)].
  - destruct want as [a|e]; [by apply Hk|]. split; [done|]. split; [done|]. left. symmetry. by apply He.
  - split; [done|]. split; [done|]. right. eauto.
Qed.

Lemma same_from {A} n nx o s1 s2 (want r : res A) s' : fs_st s1 = fs_st s2 -> same n nx o s1 want r s' -> same n nx o s2 want r s'.
Proof. intros E (? & Est & ?). split; [done|]. split; [congruence|done]. Qed.

Lemma alookup_ok f d nm de : alookup f d nm = Ok de -> entry_at f d nm = Some de.
Proof. unfold alookup. destruct (entry_at f d nm); [by intros [= ->]|done]. Qed.

Lemma alookup_err f d nm e : alookup f d nm = Err e -> e = ENOENT /\ entry_at f d nm = None.
Proof. unfold alookup. destruct (entry_at f d nm); [done|by intros [= <-]]. Qed.

Lemma entry_is_dir f d nm de : fs_wf f -> entry_at f d nm = Some de -> negb (de_type de =? BLOBFS_TYPE_DIR) = false -> is_Some (fs_dirs f !! de_body_id de) /\ de_body_id de <> root.
Proof. intros W E Ht. apply (wf_entry _ _ _ W) in E as (_ & _ & [_ Hd]). apply Hd. lia. Qed.

Definition ready f s : Prop := bs_mounted (fs_st s) = true /\ bs_meta_id (fs_st s) = meta /\ bs_dir_root (fs_st s) = root /\ (fs_intent f <> None -> bs_intent_pending (fs_st s) = true).

Lemma walk_loop_spec n nx o reg mb trees f fuel d nm rest s : khold n nx o (fs_kv s) -> fsys o reg mb trees f -> is_Some (fs_dirs f !! d) ->
  wp (walk_loop BLOBFS_NAME_MAX fuel d nm rest) s (same n nx o s (awalk_loop BLOBFS_NAME_MAX f fuel d nm rest)).
Proof.
  intros Hh F. revert d nm rest s Hh. induction fuel as [|fuel IH]; intros d nm rest s Hh Hd; cbn [walk_loop awalk_loop]; [by apply wp_fail, same_refl|].
  destruct (Z.eqb_spec (len nm) 0); [by apply wp_ret, same_refl|]. wp_step. unfold wp at 1, mlift. destruct (check_name BLOBFS_NAME_MAX nm) as [[]|e] eqn:Ec; [|by apply same_refl].
  assert (0 < len nm <= 0xffff) as Hn.
  { pose proof (len_nonneg nm). unfold check_name in Ec. destruct (_ || _); [done|]. destruct (Z.gtb_spec (len nm) BLOBFS_NAME_MAX); [done|lia]. }
  destruct (component rest) as [next rest']. destruct (Z.eqb_spec (len next) 0); [by apply wp_ret, same_refl|].
  apply (same_bnd n nx o s _ _ (alookup f d nm)); [by eapply dirent_get_spec| |by intros e ->]. intros de s' Ea Hh' Est. rewrite Ea.
  destruct (negb (de_type de =? BLOBFS_TYPE_DIR)) eqn:Et; [by apply wp_fail, same_refl|].
  eapply wp_mono; [apply (IH (de_body_id de) next rest' s' Hh')|intros r s2; by apply same_from]. by apply (entry_is_dir f d nm); [apply F|apply alookup_ok|].
Qed.
Lemma path_walk_spec n nx o reg mb trees f s p : khold n nx o (fs_kv s) -> fsys o reg mb trees f -> ready f s ->
  wp (walk BLOBFS_NAME_MAX (Some p)) s (same n nx o s (awalk BLOBFS_NAME_MAX root f p)).
Proof.
  intros Hh F (Hm & _ & Hr & _). unfold walk, st_get, awalk. wp_step. apply wp_gets. rewrite Hm. cbn [negb]. destruct (component p) as [nm rest]. rewrite Hr.
  eapply walk_loop_spec; [done|done|]. apply (wf_root _ _ _ (fy_wf _ _ _ _ _ F)).
Qed.

Lemma at_root_name w : at_root w = false -> w_name w <> [].
Proof. unfold at_root. intros E Hn. by rewrite Hn in E. Qed.

(** Where a walk leads there is a directory, and a name that may be stored. *)
Lemma awalk_loop_where f fuel d nm rest w : fs_wf f -> is_Some (fs_dirs f !! d) -> awalk_loop BLOBFS_NAME_MAX f fuel d nm rest = Ok w ->
  is_Some (fs_dirs f !! w_dir w) /\ (at_root w = false -> 0 < len (w_name w) <= BLOBFS_NAME_MAX).
Proof.
  intros W. revert d nm rest. induction fuel as [|fuel IH]; intros d nm rest Hd; cbn [awalk_loop]; [done|].
  destruct (Z.eqb_spec (len nm) 0); [intros [= <-]; by split|]. pose proof (len_nonneg nm). destruct (check_name BLOBFS_NAME_MAX nm) as [[]|e] eqn:Ec; [|done].
  destruct (component rest) as [next rest']. destruct (Z.eqb_spec (len next) 0).
  - intros [= <-]. cbn. split; [done|]. intros _. unfold check_name in Ec. destruct (_ || _); [done|]. destruct (Z.gtb_spec (len nm) BLOBFS_NAME_MAX); [done|lia].
  - destruct (alookup f d nm) as [de|e] eqn:Ea; [|done]. destruct (negb _) eqn:Et; [done|]. apply IH. by apply (entry_is_dir f d nm); [|apply alookup_ok|].
Qed.

Lemma awalk_where f p w : fs_wf f -> awalk BLOBFS_NAME_MAX root f p = Ok w -> is_Some (fs_dirs f !! w_dir w) /\ (at_root w = false -> 0 < len (w_name w) <= BLOBFS_NAME_MAX).
Proof. intros W. unfold awalk. destruct (component p). apply awalk_loop_where; [done|apply (wf_root _ _ _ W)]. Qed.

(** It is a name a directory may hold. *)
Lemma to_slash_ok p : bytes_ok p -> Forall name_byte (to_slash p).1 /\ bytes_ok (to_slash p).2.
Proof.
  induction 1 as [|c p Hc Hp IH]; [by split; constructor|]. cbn [to_slash]. destruct (_ || _) eqn:E; [split; [constructor|by constructor]|].
  destruct (to_slash p) as [n r]. cbn in *. destruct IH as [IH1 IH2]. split; [|done]. constructor; [|done]. unfold name_byte. split; [done|]. unfold SLASH in *. lia.
Qed.

Lemma skip_slashes_ok p : bytes_ok p -> bytes_ok (skip_slashes p).
Proof. induction 1 as [|c p Hc Hp IH]; [constructor|]. cbn [skip_slashes]. destruct (c =? SLASH); [done|by constructor]. Qed.

Lemma component_ok p : bytes_ok p -> Forall name_byte (component p).1 /\ bytes_ok (component p).2.
Proof. intros Hp. by apply to_slash_ok, skip_slashes_ok. Qed.

Lemma check_name_ok nm : len nm <> 0 -> Forall name_byte nm -> check_name BLOBFS_NAME_MAX nm = Ok tt -> entry_name nm.
Proof.
  intros Hn Hb. pose proof (len_nonneg nm). unfold check_name, is_name. do 2 case_bool_decide; cbn; try done. destruct (Z.gtb_spec (len nm) BLOBFS_NAME_MAX); [done|]. intros _. split_and!; (done || lia).
Qed.

Lemma awalk_loop_ok f fuel d nm rest w : Forall name_byte nm -> bytes_ok rest -> awalk_loop BLOBFS_NAME_MAX f fuel d nm rest = Ok w -> at_root w = false -> entry_name (w_name w).
Proof.
  revert d nm rest. induction fuel as [|fuel IH]; intros d nm rest Hn Hr; cbn [awalk_loop]; [done|]. destruct (Z.eqb_spec (len nm) 0); [by intros [= <-]|].
  destruct (check_name _ _) as [[]|] eqn:Ec; [|done]. pose proof (component_ok _ Hr) as [H1 H2]. destruct (component rest) as [next rest']. cbn [fst snd] in *.
  destruct (len next =? 0); [intros [= <-] _; by apply check_name_ok|]. destruct (alookup f d nm); [|done]. destruct (negb _); [done|]. by apply IH.
Qed.

Lemma awalk_name f p w : bytes_ok p -> awalk BLOBFS_NAME_MAX root f p = Ok w -> at_root w = false -> entry_name (w_name w).
Proof.
  intros Hp. unfold awalk. pose proof (component_ok _ Hp) as [H1 H2]. destruct (component p) as [nm rest]. by apply awalk_loop_ok.
Qed.

(** A call that reports its code and where it got to; a fault may come anywhere,
    and is never taken for the root. *)
Definition same_at {A} (n : nat) nx o s (want : res A * where_t) (r : res (res A * where_t)) s' : Prop :=
  khold n nx o (fs_kv s') /\ fs_st s' = fs_st s /\ exists rc w, r = Ok (rc, w) /\ ((rc, w) = want \/ exists e, fault (D := D) e /\ rc = Err e).

Lemma resolve_spec n nx o reg mb trees f s p : khold n nx o (fs_kv s) -> fsys o reg mb trees f -> ready f s ->
  wp (resolve_path BLOBFS_NAME_MAX (Some p)) s (same_at n nx o s (aresolve BLOBFS_NAME_MAX root f p)).
Proof.
  intros Hh F Hrd. unfold resolve_path, aresolve. do 2 wp_step. wp_use (path_walk_spec n nx o reg mb trees f s p); try done. intros r s1 (Hh1 & E1 & Hr).
  destruct Hr as [->|(e & He & ->)]; [|split; [done|split; [done|eexists _, _; split; [done|right; eauto]]]].
  destruct (awalk BLOBFS_NAME_MAX root f p) as [w|e] eqn:Ew; [|split; [done|split; [done|eexists _, _; by split; [|left]]]].
  destruct (at_root w) eqn:Ea; [split; [done|split; [done|eexists _, _; by split; [|left]]]|]. destruct (awalk_where f p w (fy_wf _ _ _ _ _ F) Ew) as [Hd Hn]. specialize (Hn Ea).
  do 2 wp_step. wp_use (dirent_get_spec n nx o s1 reg mb trees f (w_dir w) (w_name w)); try done; [lia|]. intros r s2 (Hh2 & E2 & Hr). rewrite E1 in E2.
  destruct Hr as [->|(e & He & ->)]; [|split; [done|split; [done|eexists _, _; split; [done|right; eauto]]]].
  destruct (alookup f (w_dir w) (w_name w)) as [de|e]; [destruct (_ && _)|]; (split; [done|split; [done|eexists _, _; by split; [|left]]]).
Qed.

Lemma free_spec n nx o reg mb trees f s p : khold n nx o (fs_kv s) -> fsys o reg mb trees f -> ready f s ->
  wp (walk_to_free_name BLOBFS_NAME_MAX (Some p)) s (same_at n nx o s (afree BLOBFS_NAME_MAX root f p)).
Proof.
  intros Hh F Hrd. unfold walk_to_free_name, afree. do 2 wp_step. wp_use (path_walk_spec n nx o reg mb trees f s p); try done. intros r s1 (Hh1 & E1 & Hr).
  destruct Hr as [->|(e & He & ->)]; [|split; [done|split; [done|eexists _, _; split; [done|right; eauto]]]].
  destruct (awalk BLOBFS_NAME_MAX root f p) as [w|e] eqn:Ew; [|split; [done|split; [done|eexists _, _; by split; [|left]]]].
  destruct (at_root w) eqn:Ea; [split; [done|split; [done|eexists _, _; by split; [|left]]]|]. destruct (awalk_where f p w (fy_wf _ _ _ _ _ F) Ew) as [Hd Hn]. specialize (Hn Ea).
  do 2 wp_step. wp_use (dirent_get_spec n nx o s1 reg mb trees f (w_dir w) (w_name w)); try done; [lia|]. intros r s2 (Hh2 & E2 & Hr). rewrite E1 in E2.
  destruct Hr as [->|(e & He & ->)].
  - destruct (alookup f (w_dir w) (w_name w)) as [de|e] eqn:El; [|apply alookup_err in El as [-> _]]; (split; [done|split; [done|eexists _, _; by split; [|left]]]).
  - pose proof (fault_plain e He) as (_ & Hne & _). replace (match e with ENOENT => _ | _ => _ end) with (mret (S := bfs) (A := res unit * where_t) (Err e, w)) by by destruct e.
    split; [done|split; [done|eexists _, _; split; [done|right; eauto]]].
Qed.

(** ** Changes

    What a change leaves: a file system in a store that may have grown. The ids
    handed out before at which the store held what the files [fl] say, be it a
    file or nothing, are still such. *)
Definition tracks (nx : Z) o (fl : gmap Z bytes) o' (fl' : gmap Z bytes) : Prop := forall id, id < nx -> o !! id = fl !! id -> o' !! id = fl' !! id.

Definition moved (n : nat) nx o (fl : gmap Z bytes) f s : Prop := exists nx' o' reg mb trees, nx <= nx' /\ tracks nx o fl o' (fs_files f) /\ khold n nx' o' (fs_kv s) /\ fsys o' reg mb trees f.

Lemma tracks_refl nx o fl : tracks nx o fl o fl.
Proof. by intros id. Qed.

Lemma tracks_trans nx nx1 o fl o1 fl1 o2 fl2 : nx <= nx1 -> tracks nx o fl o1 fl1 -> tracks nx1 o1 fl1 o2 fl2 -> tracks nx o fl o2 fl2.
Proof. intros Hle H1 H2 id Hid E. apply H2; [lia|by apply H1]. Qed.

Lemma moved_here n nx o reg mb trees f s : khold n nx o (fs_kv s) -> fsys o reg mb trees f -> moved n nx o (fs_files f) f s.
Proof. intros Hh F. exists nx, o, reg, mb, trees. split; [lia|]. split; [apply tracks_refl|]. by split. Qed.

Lemma moved_trans n n1 nx o fl nx1 o1 fl1 f s : moved n nx1 o1 fl1 f s -> nx <= nx1 -> tracks nx o fl o1 fl1 -> (n1 <= n)%nat -> moved n1 nx o fl f s.
Proof.
  intros (nx' & o' & reg & mb & trees & Hle & Hq & Hh & F) Hnx Hq1 Hn. exists nx', o', reg, mb, trees. split; [lia|]. split; [by eapply tracks_trans|]. split; [by eapply khold_le|done].
Qed.

Lemma moved_le n n1 nx o fl f s : moved n nx o fl f s -> (n1 <= n)%nat -> moved n1 nx o fl f s.
Proof. intros Hm Hn. eapply moved_trans; [exact Hm|lia|apply tracks_refl|done]. Qed.

Lemma tracks_put nx o fl id b : tracks nx o fl (<[id := b]> o) (<[id := b]> fl).
Proof. intros i _ E. destruct (decide (i = id)) as [->|]; [by rewrite !lookup_insert_eq|by rewrite !lookup_insert_ne]. Qed.

Lemma tracks_del nx o fl id : tracks nx o fl (delete id o) (delete id fl).
Proof. intros i _ E. destruct (decide (i = id)) as [->|]; [by rewrite !lookup_delete_eq|by rewrite !lookup_delete_ne]. Qed.

(** Objects of others may change at will. *)
Lemma tracks_off nx o o' fl (l : list (Z * bytes)) : stored o l -> (forall id, is_Some (fl !! id) -> id ∉ l.*1) -> (forall id, id < nx -> id ∉ l.*1 -> o' !! id = o !! id) -> tracks nx o fl o' fl.
Proof.
  intros Hs Hd Hf id Hid E. destruct (decide (id ∈ l.*1)) as [Hin|Hn]; [|by rewrite Hf]. destruct (stored_id _ _ _ Hs Hin) as [b Eb]. destruct (Hd id); [rewrite <- E, Eb; by eexists|done].
Qed.

Lemma tracks_frame nx o o' fl : (forall id, id < nx -> o' !! id = o !! id) -> tracks nx o fl o' fl.
Proof. intros Hf id Hid E. by rewrite Hf. Qed.

Lemma fshelf_file_id mb trees files id : is_Some (files !! id) -> id ∈ (fshelf mb trees files).*1.
Proof. intros [b E]. rewrite (fshelf_file mb trees _ id b E). by left. Qed.

Lemma fsys_tree_apart o reg mb trees f d t id : fsys o reg mb trees f -> trees !! d = Some t -> is_Some (fs_files f !! id) -> id ∉ (tree_objs t).*1.
Proof.
  intros F Et Hid Hin. pose proof (fy_stored _ _ _ _ _ F) as Hs. rewrite (fshelf_dir mb trees _ d t Et) in Hs. apply stored_app in Hs as (_ & _ & Hd). by apply (Hd id), fshelf_file_id.
Qed.

Lemma fsys_meta_apart o reg mb trees f id : fsys o reg mb trees f -> is_Some (fs_files f !! id) -> id ∉ [(meta, mb)].*1.
Proof.
  intros F Hid ->%list_elem_of_singleton. pose proof (fy_stored _ _ _ _ _ F) as Hs. destruct Hid as [b E]. rewrite (fshelf_file mb trees _ meta b E) in Hs. apply stored_cons in Hs as (_ & _ & Hn & _). apply Hn. by left.
Qed.

Lemma registry_keep o o' reg : registry o reg -> o' !! BLOB_ROOT = o !! BLOB_ROOT -> registry o' reg.
Proof. intros (es & E & ?) Er. exists es. by rewrite Er. Qed.

(** *** Files *)

Lemma fsys_put_file o reg mb trees f id b : fsys o reg mb trees f -> id <> BLOB_ROOT -> is_Some (fs_files f !! id) \/ id ∉ (fshelf mb trees (fs_files f)).*1 ->
  fsys (<[id := b]> o) reg mb trees (set_file id b f).
Proof.
  intros F Hne Hid. destruct F as [Hr Hk Hs Hm Hd W]. split; cbn [set_file fs_files fs_dirs fs_intent]; try done.
  - eapply registry_keep; [done|]. by rewrite lookup_insert_ne.
  - rewrite fshelf_set_file. destruct (fs_files f !! id) as [b0|] eqn:E.
    + rewrite (fshelf_file _ _ _ _ _ E) in Hs. by eapply stored_put.
    + rewrite delete_id by done. destruct Hid as [[? ?]|Hid]; [done|]. by apply stored_new.
  - by apply wf_set_file.
Qed.

Lemma fsys_del_file o o' reg mb trees f id : fsys o reg mb trees f -> unnamed f id -> is_Some (fs_files f !! id) -> o' = o \/ o' = delete id o -> fsys o' reg mb trees (del_file id f).
Proof.
  intros F Hn [b E] Ho. destruct (fsys_file _ _ _ _ _ _ _ F E) as [_ Hne]. destruct F as [Hr Hk Hs Hm Hd W]. rewrite (fshelf_file _ _ _ _ _ E), stored_cons in Hs. destruct Hs as (_ & _ & Hni & Hs).
  split; cbn [del_file fs_files fs_dirs fs_intent]; try done.
  - destruct Ho as [->| ->]; [done|]. eapply registry_keep; [done|]. by rewrite lookup_delete_ne.
  - destruct Ho as [->| ->]; [done|]. by apply stored_del_other.
  - by apply wf_del_file.
Qed.

(** *** The meta object *)

Lemma fsys_put_meta o reg mb mb' trees f i : fsys o reg mb trees f -> meta_says mb' i -> fs_wf (set_intent i f) -> fsys (<[meta := mb']> o) reg mb' trees (set_intent i f).
Proof.
  intros F Hsay W. destruct (fsys_meta _ _ _ _ _ F) as [_ Hne]. destruct F as [Hr Hk Hs Hm Hd _]. split; cbn [set_intent fs_files fs_dirs fs_intent]; try done.
  - eapply registry_keep; [done|]. by rewrite lookup_insert_ne.
  - unfold fshelf in *. by eapply stored_put.
Qed.

(** *** Directories *)

Lemma fsys_set_dir n nx o reg mb trees f d t t' es' k : obs_wf MAX_PAYLOAD nx o -> fsys o reg mb trees f -> trees !! d = Some t -> became n nx o t t' k -> tree_map t' = enc_dirent <$> es' ->
  fs_wf (mk_fs (<[d := es']> (fs_dirs f)) (fs_files f) (fs_intent f)) -> forall st, moved n nx o (fs_files f) (mk_fs (<[d := es']> (fs_dirs f)) (fs_files f) (fs_intent f)) (mk_bfs k st).
Proof.
  intros Hw F Et (nx' & o' & Hh' & Hle & Hr & Hok & Hs' & Hf) Hm W st. pose proof F as [Hreg Hk Hs Hmt Hd _]. pose proof Hs as Hs0. rewrite (fshelf_dir _ _ _ _ _ Et) in Hs0. pose proof Hs0 as Hst. apply stored_app in Hst as [Hst _].
  exists nx', o', reg, mb, (<[d := t']> trees). split; [done|]. split; [by eapply tracks_off; [exact Hst|intros id; exact (fsys_tree_apart o reg mb trees f d t id F Et)|]; intros id Hid Hni; apply Hf|]. split; [done|]. split; cbn [fs_files fs_dirs fs_intent]; try done.
  - eapply registry_keep; [done|]. apply Hf; [pose proof (proj1 Hw); unfold BLOB_ROOT; lia|]. intros Hin. destruct (stored_bound _ _ _ _ _ Hw Hst Hin). done.
  - rewrite fshelf_set_dir. by apply (stored_replace MAX_PAYLOAD nx o o' (tree_objs t)).
  - intros d'. specialize (Hd d'). destruct (decide (d' = d)) as [->|Hne]; [|by rewrite !lookup_insert_ne]. rewrite !lookup_insert_eq. rewrite Et in Hd.
    destruct (fs_dirs f !! d) as [es|]; [|done]. destruct Hd as (Hrt & _). split_and!; [congruence|done|done].
Qed.

Lemma set_entry_eq d nm de f es : fs_dirs f !! d = Some es -> set_entry d nm de f = mk_fs (<[d := <[nm := de]> es]> (fs_dirs f)) (fs_files f) (fs_intent f).
Proof.
  intros E. unfold set_entry. f_equal. apply map_eq. intros d'. destruct (decide (d' = d)) as [->|]; [rewrite lookup_alter_eq, lookup_insert_eq, E; done|by rewrite lookup_alter_ne, lookup_insert_ne].
Qed.

Lemma del_entry_eq d nm f es : fs_dirs f !! d = Some es -> del_entry d nm f = mk_fs (<[d := delete nm es]> (fs_dirs f)) (fs_files f) (fs_intent f).
Proof.
  intros E. unfold del_entry. f_equal. apply map_eq. intros d'. destruct (decide (d' = d)) as [->|]; [rewrite lookup_alter_eq, lookup_insert_eq, E; done|by rewrite lookup_alter_ne, lookup_insert_ne].
Qed.

(** One call on the map of a directory. *)
Lemma dir_call n nx o reg mb trees f d es s c : khold (3 + n) nx o (fs_kv s) -> fsys o reg mb trees f -> fs_dirs f !! d = Some es -> kv_call_ok c ->
  let (r, k) := kv_exec d c (fs_kv s) in exists m', kv_step (D := D) (enc_dirent <$> es) c r m' /\
    forall es', m' = enc_dirent <$> es' -> fs_wf (mk_fs (<[d := es']> (fs_dirs f)) (fs_files f) (fs_intent f)) -> moved n nx o (fs_files f) (mk_fs (<[d := es']> (fs_dirs f)) (fs_files f) (fs_intent f)) (mk_bfs k (fs_st s)).
Proof.
  intros Hh F E Hc. destruct (fsys_dir _ _ _ _ _ d es F E) as (t & Et & (Hr & Hok & Hm) & Hs). pose proof (khold_wf _ _ _ _ Hh) as Hw. assert (24 <= MAX_PAYLOAD <= ENT_LEN_MASK) as Hm24 by lia.
  pose proof (kv_exec_step Hm24 Hsteady n nx o (fs_kv s) t c Hh Hok Hs Hc) as Hx. rewrite Hr in Hx. destruct (kv_exec d c (fs_kv s)) as [r k]. destruct Hx as (t' & Hb & Hst). exists (tree_map t'). rewrite Hm in Hst. split; [done|].
  intros es' Em W. by apply (fsys_set_dir n nx o reg mb trees f d t t' es' k).
Qed.

Lemma fs_dir_same f d es : fs_dirs f !! d = Some es -> mk_fs (<[d := es]> (fs_dirs f)) (fs_files f) (fs_intent f) = f.
Proof. intros E. rewrite insert_id by done. by destruct f. Qed.

Definition set_refused (e : errno) : Prop := refused (D := D) e \/ e = ENOSPC.

Lemma dir_set_spec n nx o reg mb trees f d nm de s : khold (3 + n) nx o (fs_kv s) -> fsys o reg mb trees f -> is_Some (fs_dirs f !! d) -> entry_name nm -> dirent_ok de -> fs_wf (set_entry d nm de f) ->
  wp (dir_set d nm de) s (fun r s' => fs_st s' = fs_st s /\ ((r = Ok tt /\ moved n nx o (fs_files f) (set_entry d nm de f) s') \/ (exists e, set_refused e /\ r = Err e /\ moved n nx o (fs_files f) f s'))).
Proof.
  intros Hh F [es E] Hnm Hok W. pose proof (entry_name_ok _ _ Hnm) as Hb. pose proof (entry_name_len _ _ Hnm) as Hl. pose proof (fy_wf _ _ _ _ _ F) as Wf. unfold dir_set. apply wp_on_kv. cbn [mo_set dir_ops kvhash_map_ops].
  pose proof (dir_call n nx o reg mb trees f d es s (KvSet nm (enc_dirent de)) Hh F E ltac:(split; [done|by apply bytes_ok_dirent])) as Hx. cbn [kv_exec] in Hx. unfold reply_of in Hx. unfold wp.
  destruct (kvhash_set d (Some nm) (Some (enc_dirent de)) (fs_kv s)) as [r k]. destruct Hx as (m' & Hst & Hmv). split; [done|]. cbn [kv_step] in Hst. destruct Hst as [([= ->] & -> & _)|(-> & e & [= ->] & He)].
  - left. split; [done|]. rewrite (set_entry_eq d nm de f es E) in *. apply Hmv; [by rewrite fmap_insert|done].
  - right. exists e. split; [|split; [done|]].
    + destruct He as [?|[->|(_ & Hlen)]]; [by left|by right|]. rewrite len_enc_dirent in Hlen. unfold DIRENT_LEN in Hlen. lia.
    + specialize (Hmv es eq_refl). rewrite fs_dir_same in Hmv by done. by apply Hmv.
Qed.

Lemma dir_del_spec n nx o reg mb trees f d nm s de : khold (3 + n) nx o (fs_kv s) -> fsys o reg mb trees f -> entry_at f d nm = Some de ->
  wp (dir_del d nm) s (fun r s' => fs_st s' = fs_st s /\ ((r = Ok tt /\ moved n nx o (fs_files f) (del_entry d nm f) s') \/ (exists e, refused (D := D) e /\ r = Err e /\ moved n nx o (fs_files f) f s'))).
Proof.
  intros Hh F Ee. pose proof (fy_wf _ _ _ _ _ F) as Wf. destruct (wf_entry _ _ _ Wf _ _ _ Ee) as (_ & Hl%entry_name_len & _). unfold entry_at in Ee. destruct (fs_dirs f !! d) as [es|] eqn:E; [|done]. cbn in Ee.
  unfold dir_del. apply wp_on_kv. cbn [mo_del dir_ops kvhash_map_ops].
  pose proof (dir_call n nx o reg mb trees f d es s (KvDel nm) Hh F E I) as Hx. cbn [kv_exec] in Hx. unfold reply_of in Hx. unfold wp.
  destruct (kvhash_del d (Some nm) (fs_kv s)) as [r k]. destruct Hx as (m' & Hst & Hmv). split; [done|]. cbn [kv_step] in Hst. unfold del_want in Hst.
  destruct (Z.eqb_spec (len nm) 0); [lia|]. destruct (Z.gtb_spec (len nm) 0xffff); [lia|]. cbn [orb] in Hst. rewrite lookup_fmap, Ee in Hst. cbn [fmap option_fmap option_map fst snd] in Hst.
  destruct Hst as [([= ->] & ->)|(-> & e & He & [= ->])].
  - left. split; [done|]. pose proof (wf_del_entry BLOBFS_NAME_MAX root d nm f Wf) as W. rewrite (del_entry_eq d nm f es E) in *. apply Hmv; [by rewrite fmap_delete|done].
  - right. exists e. split; [done|split; [done|]]. specialize (Hmv es eq_refl). rewrite fs_dir_same in Hmv by done. by apply Hmv.
Qed.

(** *** Making and removing a directory's map *)

Definition dir_config : option map_config := Some (mk_map_config 0 0 (BLOBFS_NAME_MAX + DIRENT_LEN)).
Definition make_error (e : errno) : Prop := create_refused (D := D) e \/ derive_geometry (D := D) dir_config = Err e.
Definition dir_cost : nat := Z.to_nat (MAX_BUCKETS (D := D)).

Lemma dir_create_objs n nx o s id : khold (dir_cost + n) nx o (fs_kv s) -> 0 < id < nx -> id <> BLOB_ROOT ->
  wp (dir_create BLOBFS_NAME_MAX id) s (fun r s' => fs_st s' = fs_st s /\ exists nx' o', khold n nx' o' (fs_kv s') /\ nx <= nx' /\
    match r with
    | Ok _ => exists t, dir_ok id t ∅ /\ stored o' (tree_objs t) /\ (forall i, i ∈ (tree_objs t).*1 -> i = id \/ nx <= i) /\ (forall i, i < nx -> i <> id -> o' !! i = o !! i)
    | Err e => (forall i, i < nx -> o' !! i = o !! i) /\ make_error e
    end).
Proof.
  intros Hh Hid Hne. unfold dir_create. apply wp_on_kv. cbn [mo_create dir_ops kvhash_map_ops]. fold dir_config. wp_use (create_spec Hmax n nx o (fs_kv s) id dir_config); try done.
  intros r k (nx' & o' & Hh' & Hle & Hres). split; [done|]. exists nx', o'. split; [done|]. split; [done|]. destruct r as [[]|e].
  - destruct Hres as (geo & ids & _ & Hgeo & Hl & Hids & Hok & Hst & Hf). exists (empty_tree geo id ids). split; [|split; [done|split; [|done]]].
    + split; [destruct geo as [[dp ?] ?]; cbn; by destruct (dp =? 1)|]. split; [done|]. rewrite fmap_empty. by apply empty_tree_map.
    + intros i [->|Hin]%empty_tree_ids; [by left|right]. rewrite list.Forall_forall in Hids. by apply (Hids i Hin).
  - destruct Hres as [Hb He]. split; [done|]. destruct He; [by right|by left].
Qed.
End blobfs_ops.

(** What a fact about the file system already says is left out of these. *)
Arguments fsys_dir {H D Blobs0 MAX_ROOTS BLOBFS_NAME_MAX meta root} Hmax Hname {o reg mb trees f} d {es} _ _.
Arguments fsys_file {H D Blobs0 MAX_ROOTS BLOBFS_NAME_MAX meta root} Hmax Hname {o reg mb trees f} id b _ _.
Arguments fsys_meta {H D Blobs0 MAX_ROOTS BLOBFS_NAME_MAX meta root} Hmax Hname {o reg mb trees f} _.
Arguments dirent_get_spec {H D Blobs0 L MAX_ROOTS BLOBFS_NAME_MAX meta root} Hmax Hname n nx {o} s {reg mb trees f} d nm _ _ _ _.
Arguments path_walk_spec {H D Blobs0 L MAX_ROOTS BLOBFS_NAME_MAX meta root} Hmax Hname n nx {o reg mb trees f} s p _ _ _.
Arguments awalk_where {BLOBFS_NAME_MAX root f} p w _ _.
Arguments resolve_spec {H D Blobs0 L MAX_ROOTS BLOBFS_NAME_MAX meta root} Hmax Hname n nx {o reg mb trees f} s p _ _ _.
Arguments free_spec {H D Blobs0 L MAX_ROOTS BLOBFS_NAME_MAX meta root} Hmax Hname n nx {o reg mb trees f} s p _ _ _.
Arguments moved_here {H D Blobs0 L MAX_ROOTS BLOBFS_NAME_MAX meta root} n nx {o reg mb trees f} s _ _.
Arguments moved_trans {H D Blobs0 L MAX_ROOTS BLOBFS_NAME_MAX meta root} n n1 nx {o fl} nx1 o1 {fl1 f} s _ _ _ _.
Arguments moved_le {H D Blobs0 L MAX_ROOTS BLOBFS_NAME_MAX meta root} n n1 nx {o fl f} s _ _.
Arguments fsys_put_file {H D Blobs0 MAX_ROOTS BLOBFS_NAME_MAX meta root o reg mb trees f} id b _ _ _.
Arguments fsys_del_file {H D Blobs0 MAX_ROOTS BLOBFS_NAME_MAX meta root} Hmax Hname {o} o' {reg mb trees f} id _ _ _ _.
Arguments fsys_put_meta {H D Blobs0 MAX_ROOTS BLOBFS_NAME_MAX meta root} Hmax Hname {o reg mb} mb' {trees f} i _ _ _.
Arguments fsys_set_dir {H D Blobs0 L MAX_ROOTS BLOBFS_NAME_MAX meta root} n nx {o reg mb trees f} d t t' es' k _ _ _ _ _ _ st.
Arguments dir_set_spec {H D Blobs0 L MAX_ROOTS BLOBFS_NAME_MAX meta root} Hmax Hsteady Hname n nx {o reg mb trees f} d nm de s _ _ _ _ _ _.
Arguments dir_del_spec {H D Blobs0 L MAX_ROOTS BLOBFS_NAME_MAX meta root} Hmax Hsteady Hname n nx {o reg mb trees f} d nm s de _ _ _.
Arguments dir_create_objs {H D Blobs0 L} BLOBFS_NAME_MAX Hmax Hsteady n nx o s id _ _ _.
Arguments entry_is_dir {BLOBFS_NAME_MAX root f} d nm de _ _ _.
Arguments awalk_name {BLOBFS_NAME_MAX root f} p w _ _ _.
Arguments entry_len {D Blobs0 BLOBFS_NAME_MAX root} Hmax Hname {f} d nm de _ _.
Arguments fy_reg {H D Blobs0 MAX_ROOTS BLOBFS_NAME_MAX meta root o reg mb trees f} _.
Arguments fy_key {H D Blobs0 MAX_ROOTS BLOBFS_NAME_MAX meta root o reg mb trees f} _.
Arguments fy_stored {H D Blobs0 MAX_ROOTS BLOBFS_NAME_MAX meta root o reg mb trees f} _.
Arguments fy_meta {H D Blobs0 MAX_ROOTS BLOBFS_NAME_MAX meta root o reg mb trees f} _.
Arguments fy_dirs {H D Blobs0 MAX_ROOTS BLOBFS_NAME_MAX meta root o reg mb trees f} _ d.
Arguments fy_wf {H D Blobs0 MAX_ROOTS BLOBFS_NAME_MAX meta root o reg mb trees f} _.
Arguments fsys_tree_apart {H D Blobs0 MAX_ROOTS BLOBFS_NAME_MAX meta root o reg mb trees f} d t id _ _ _ _.
Arguments fsys_meta_apart {H D Blobs0 MAX_ROOTS BLOBFS_NAME_MAX meta root o reg mb trees f} id _ _.
