(* ===== verification/BlobfsMeta.v ===== *)
(** The meta object of a file system: reading and writing it, and finishing the
    rename it may tell of. *)

From S2P Require Import BlobIface Prelude Layout Records RootReg RootRegSpec.
From S2P Require Import KvHash KvHashRep KvHashRead KvHashOps KvHashSet KvHashCreate KvHashWalk KvHashDestroy KvHashRuns Kvdb KvdbSpec Blobfs BlobfsSpec BlobfsOps.

(** ** Finishing a rename, on the abstract file system *)

Definition names_body (f : fs) (d : Z) (n : bytes) (b : Z) : bool :=
  match entry_at f d n with Some de => de_body_id de =? b | None => false end.

(** The old name goes if both lead to the body. *)
Definition rolled (f : fs) : fs :=
  match fs_intent f with
  | Some i => if names_body f (in_dir i) (in_to i) (in_body i) && names_body f (in_dir i) (in_from i) (in_body i) then del_entry (in_dir i) (in_from i) f else f
  | None => f
  end.

Definition settled (f : fs) : fs := set_intent None (rolled f).

Section blobfs_meta.
Context `{Crc} {D : Type} `{!Blobs D} {CL : CrcLaws _} {L : BlobLaws D} (MAX_ROOTS BLOBFS_NAME_MAX meta root : Z).
Notation MAX_PAYLOAD := (blob_max (D := D)).
Notation kvh := (kvh (D := D)).
Notation bfs := (bfs (D := D)).
Notation META_LEN := (META_LEN BLOBFS_NAME_MAX).
Notation fs_wf := (fs_wf BLOBFS_NAME_MAX root).
Notation entry_name := (entry_name BLOBFS_NAME_MAX).
Notation fsys := (fsys (D := D) MAX_ROOTS BLOBFS_NAME_MAX meta root).
Notation moved := (moved MAX_ROOTS BLOBFS_NAME_MAX meta root).
Notation ready := (ready meta root).
Notation meta_says := (meta_says BLOBFS_NAME_MAX root).
Notation enc_bmeta := (enc_bmeta BLOBFS_NAME_MAX).
Implicit Types (s : bfs) (o : objs) (f : fs) (trees : gmap Z kvtree) (reg : gmap Z Z).
Context (Hsteady : ~ tears (D := D)).

(** ** Calls on objects *)

Lemma blob_answer {A} n nx o s (m : M D A) want : khold n nx o (fs_kv s) -> wp m (kv_dev (fs_kv s)) (answer fault (holds n nx o) want) -> wp (on_blob m) s (same n nx o s want).
Proof. intros Hh Hw. apply wp_on_blob. eapply wp_mono; [exact Hw|]. cbv beta. intros r d [Hd Hr]. split; [by eapply khold_dev|by split]. Qed.

Definition commits {A} (s : bfs) (P P' : kvh -> Prop) (a : A) (r : res A) s' : Prop :=
  fs_st s' = fs_st s /\ ((r = Ok a /\ P' (fs_kv s')) \/ exists e, refused (D := D) e /\ r = Err e /\ P (fs_kv s')).

Lemma blob_effect n nx o o' s (m : M D unit) : khold n nx o (fs_kv s) -> wp m (kv_dev (fs_kv s)) (effect fault fills tears (holds n nx o) (holds n nx o')) ->
  wp (on_blob m) s (commits s (khold n nx o) (khold n nx o') tt).
Proof.
  intros Hh Hw. apply wp_on_blob. eapply wp_mono; [exact Hw|]. cbv beta. intros r d Hr. split; [done|]. destruct Hr as [[-> Hd]|[(e & He & -> & Hd)|(e & Ht & _)]]; [left|right|done].
  - split; [done|]. by eapply khold_dev.
  - exists e. split; [|split; [done|by eapply khold_dev]]. unfold refused. tauto.
Qed.

Lemma blob_put n nx o s id p : khold n nx o (fs_kv s) -> 0 < id < nx -> bytes_ok p -> len p <= MAX_PAYLOAD ->
  wp (on_blob (blob_update id p)) s (commits s (khold n nx o) (khold n nx (<[id := p]> o)) tt).
Proof.
  intros Hh Hid Hp Hl. pose proof (khold_wf _ _ _ _ Hh) as [Hnx _]. apply blob_effect; [done|]. eapply wp_mono; [apply (update_law n _ nx o); [apply Hh|lia|done]|]. cbv beta. intros r d Hr.
  destruct (_ || _) eqn:E; [lia|done].
Qed.

Lemma blob_new n nx o s : khold (S n) nx o (fs_kv s) ->
  wp (on_blob blob_alloc_id) s (fun r s' => fs_st s' = fs_st s /\ ((r = Ok nx /\ khold n (nx + 1) o (fs_kv s')) \/ (r = Ok 0 /\ refused (D := D) EIO /\ exists nx', nx <= nx' /\ khold n nx' o (fs_kv s')))).
Proof.
  intros Hh. apply wp_on_blob. eapply wp_mono; [apply (alloc_law n), Hh|]. cbv beta. intros r d Hr. split; [done|]. destruct Hr as [[-> Hd]|(-> & He & nx' & Hle & Hd)]; [left|right]; (split; [done|]).
  - by eapply khold_dev.
  - split; [right; right; by split|]. exists nx'. split; [done|]. by eapply khold_dev.
Qed.

(** ** The module's state *)

Context (Hmax : 72 <= MAX_PAYLOAD <= ENT_LEN_MASK) (Hname : 1 <= BLOBFS_NAME_MAX <= 255) (Hmeta : META_LEN <= MAX_PAYLOAD).

Definition live n nx o fl f s : Prop := moved n nx o fl f s /\ ready f s.

Lemma fs_ready_st f s s' : ready f s -> fs_st s' = fs_st s -> ready f s'.
Proof. unfold BlobfsOps.ready. by intros Hr ->. Qed.

Lemma ready_of f f' s : ready f s -> fs_intent f' = fs_intent f \/ fs_intent f' = None -> ready f' s.
Proof. intros (H1 & H2 & H3 & H4) Hi. split_and!; try done. intros Hn. apply H4. destruct Hi as [<-|?]; done. Qed.

(** ** Writing and reading the meta object *)

Lemma root_range o reg mb trees f n nx s : khold n nx o (fs_kv s) -> fsys o reg mb trees f -> 0 < root < 2 ^ 64.
Proof.
  intros Hh F. destruct (wf_root _ _ _ (fy_wf F)) as [es E]. destruct (fsys_dir Hmax Hname _ F E) as (t & _ & (Hr & _) & Hs).
  pose proof (khold_wf _ _ _ _ Hh) as Hw. destruct (stored_bound _ _ _ _ root Hw Hs) as [? _]; [rewrite <- Hr; apply tree_root_in|]. pose proof (proj1 Hw). lia.
Qed.

Lemma meta_write_spec n nx o reg mb trees f m i s : khold n nx o (fs_kv s) -> fsys o reg mb trees f -> bs_meta_id (fs_st s) = meta -> bmeta_ok BLOBFS_NAME_MAX m -> meta_says (enc_bmeta m) i -> fs_wf (set_intent i f) ->
  wp (meta_write BLOBFS_NAME_MAX m) s (fun r s' => (r = Ok tt /\ fs_st s' = set_meta_v1 false (fs_st s) /\ moved n nx o (fs_files f) (set_intent i f) s') \/
    (exists e, refused (D := D) e /\ r = Err e /\ fs_st s' = fs_st s /\ moved n nx o (fs_files f) f s')).
Proof.
  intros Hh F Em Hm Hsay W. destruct (fsys_meta Hmax Hname F) as [Eo _]. pose proof (khold_wf _ _ _ _ Hh) as Hw. destruct (obs_wf_lookup _ _ _ _ _ Hw Eo) as (Hid & _).
  unfold meta_write, st_get, st_mod. wp_step. wp_step. rewrite Em. wp_step. wp_use (blob_put n nx o s meta (enc_bmeta m)); [done|done|by apply bytes_ok_bmeta|by rewrite len_enc_bmeta|].
  intros r s' (Est & Hr). destruct Hr as [[-> Hh']|(e & He & -> & Hh')].
  - apply wp_mod. left. split; [done|]. cbn. split; [by rewrite Est|]. exists nx, (<[meta := enc_bmeta m]> o), reg, (enc_bmeta m), trees. split; [lia|]. split; [apply (tracks_off nx o _ _ [(meta, mb)]); [apply stored_cons; split_and!; [done|by apply (fsys_meta Hmax Hname F)|apply not_elem_of_nil|split; constructor]|intros id; apply (fsys_meta_apart id F)|intros id _ Hni; rewrite lookup_insert_ne; [done|]; intros ->; apply Hni; by left]|]. split; [done|].
    by eapply fsys_put_meta.
  - right. exists e. split_and!; try done. by eapply moved_here.
Qed.

Lemma meta_read_spec n nx o reg mb trees f s : khold n nx o (fs_kv s) -> fsys o reg mb trees f -> wp (meta_read BLOBFS_NAME_MAX meta) s (same n nx o s (meta_decode BLOBFS_NAME_MAX mb)).
Proof.
  intros Hh F. destruct (fsys_meta Hmax Hname F) as [Eo _]. pose proof (khold_wf _ _ _ _ Hh) as Hw. destruct (obs_wf_lookup _ _ _ _ _ Hw Eo) as (Hid & _). pose proof (proj1 Hw) as Hnx.
  destruct (fy_meta F) as (m & v1 & Ed & Hl & _). unfold meta_read. apply (same_bnd n nx o s _ _ (Ok mb)); [| |done].
  - apply blob_answer; [done|]. eapply wp_mono; [apply (get_law n _ nx o meta); [apply Hh|lia]|]. cbv beta. unfold get_reply. rewrite Eo. by destruct (Z.ltb_spec META_LEN (len mb)); [lia|].
  - intros b s' [= <-] Hh' Est. unfold wp, mlift. by apply same_refl.
Qed.

(** ** Intents *)

Lemma no_name_len : len (no_name BLOBFS_NAME_MAX) = BLOBFS_NAME_MAX + 1.
Proof. unfold no_name. rewrite len_replicate. lia. Qed.

Lemma no_name_ok : bytes_ok (no_name BLOBFS_NAME_MAX).
Proof. apply Forall_replicate. unfold byte_ok. lia. Qed.

Lemma says_enc m i : bmeta_ok BLOBFS_NAME_MAX m -> tells root m i -> meta_says (enc_bmeta m) i.
Proof. intros Hm (E1 & E2 & E3 & Hi). exists m, false. split; [by apply meta_decode_enc|]. by split; [by rewrite len_enc_bmeta|]. Qed.

Lemma clear_ok m i : tells root m i -> 0 < root < 2 ^ 64 ->
  bmeta_ok BLOBFS_NAME_MAX (intent_clear BLOBFS_NAME_MAX m) /\ meta_says (enc_bmeta (intent_clear BLOBFS_NAME_MAX m)) None.
Proof.
  intros (E1 & E2 & E3 & _) Hr. assert (bmeta_ok BLOBFS_NAME_MAX (intent_clear BLOBFS_NAME_MAX m)) as Hok.
  { unfold bmeta_ok, intent_clear, byte_ok. cbn [bm_magic bm_version bm_rename_in_flight bm_from_len bm_to_len bm_dir_root bm_rename_body bm_from_dir bm_to_dir bm_from bm_to]. rewrite E1, E2, E3, no_name_len.
    unfold BLOBFS_MAGIC, BLOBFS_META_VERSION. split_and!; try lia; apply no_name_ok. }
  split; [done|]. by apply says_enc.
Qed.

Lemma splice_name nm : entry_name nm -> splice 0 nm (no_name BLOBFS_NAME_MAX) = nm ++ replicate (Z.to_nat (BLOBFS_NAME_MAX + 1 - len nm)) 0.
Proof. intros Hn. apply entry_name_len in Hn. rewrite splice_prefix. f_equal. unfold zd, no_name. rewrite drop_replicate. f_equal. lia. Qed.

Lemma zt_here (nm x : bytes) : zt (len nm) (nm ++ x) = nm.
Proof. by apply zt_app_exact. Qed.

(** The intent a rename writes. *)
Lemma intent_of_says w w' de : entry_name (w_name w) -> entry_name (w_name w') -> w_dir w' = w_dir w -> 0 < root < 2 ^ 64 -> 0 <= w_dir w < 2 ^ 64 -> dirent_ok de ->
  bmeta_ok BLOBFS_NAME_MAX (intent_of BLOBFS_NAME_MAX root w w' de) /\
  tells root (intent_of BLOBFS_NAME_MAX root w w' de) (Some (mk_intent (w_dir w) (w_name w) (w_name w') (de_body_id de))).
Proof.
  intros Hn Hn' Ed Hr Hd (_ & _ & _ & _ & Hb). pose proof (entry_name_len _ _ Hn) as Hl. pose proof (entry_name_len _ _ Hn') as Hl'.
  assert (forall nm, entry_name nm -> len (splice 0 nm (no_name BLOBFS_NAME_MAX)) = BLOBFS_NAME_MAX + 1 /\ bytes_ok (splice 0 nm (no_name BLOBFS_NAME_MAX))) as Hsp.
  { intros nm H1. split; [|apply bytes_ok_splice; [apply no_name_ok|by eapply entry_name_ok]]. apply entry_name_len in H1. rewrite len_splice; [apply no_name_len|lia|rewrite no_name_len; lia]. }
  assert (bmeta_ok BLOBFS_NAME_MAX (intent_of BLOBFS_NAME_MAX root w w' de)) as Hok.
  { unfold bmeta_ok, intent_of, byte_ok. cbn [bm_magic bm_version bm_rename_in_flight bm_from_len bm_to_len bm_dir_root bm_rename_body bm_from_dir bm_to_dir bm_from bm_to]. unfold u8. rewrite Ed, !Z.mod_small by lia.
    unfold BLOBFS_MAGIC, BLOBFS_META_VERSION. destruct (Hsp _ Hn), (Hsp _ Hn'). split_and!; (done || lia). }
  split; [done|]. unfold tells, intent_of, meta_from, meta_to, u8. cbn. rewrite !Z.mod_small by lia. rewrite !splice_name, !zt_here by done. by split_and!.
Qed.

(** ** Finishing a rename *)

(** A refused recovery may have dropped the old name. *)
Inductive recovered f : res unit -> fs -> Prop :=
  | rec_done : recovered f (Ok tt) (settled f)
  | rec_none e : refused (D := D) e -> recovered f (Err e) f
  | rec_half e : refused (D := D) e -> recovered f (Err e) (rolled f).

Lemma names_body_ok f d nm b : names_body f d nm b = match alookup f d nm with Ok de => de_body_id de =? b | Err _ => false end.
Proof. unfold names_body, alookup. by destruct (entry_at f d nm). Qed.

Lemma wf_rolled f : fs_wf f -> fs_wf (rolled f).
Proof. intros W. unfold rolled. destruct (fs_intent f); [|done]. destruct (_ && _); [by apply wf_del_entry|done]. Qed.

Lemma rolled_intent f : fs_intent (rolled f) = fs_intent f.
Proof. unfold rolled. destruct (fs_intent f) eqn:E; [|done]. by destruct (_ && _). Qed.

Lemma rolled_files f : fs_files (rolled f) = fs_files f.
Proof. unfold rolled. destruct (fs_intent f); [|done]. by destruct (_ && _). Qed.

Lemma wf_settled f : fs_wf f -> fs_wf (settled f).
Proof.
  intros W. apply wf_no_intent; [by apply wf_rolled|]. rewrite rolled_intent. intros i de de' Ei E E' Eb Eb'. pose proof (wf_intent _ _ _ W i Ei) as (_ & _ & _ & Hne). unfold rolled in E, E'. rewrite Ei in E, E'.
  destruct (_ && _) eqn:Ec in E, E'; [by rewrite entry_del_entry, decide_True in E|]. unfold names_body in Ec. rewrite E, E', Eb, Eb', Z.eqb_refl in Ec. done.
Qed.

Lemma settled_none f : fs_intent f = None -> settled f = f.
Proof. intros E. unfold settled, rolled, set_intent. rewrite E. destruct f. cbn in *. by subst. Qed.

Definition went (n : nat) nx o fl s (P : res unit -> fs -> Prop) (r : res unit) s' : Prop := exists f', moved n nx o fl f' s' /\ P r f' /\ (fs_st s' = fs_st s \/ fs_st s' = set_meta_v1 false (fs_st s)).

(** The last step of a recovery. *)
Lemma recover_end n nx nx1 o fl o1 reg mb trees f0 i s0 s m : khold n nx1 o1 (fs_kv s) -> nx <= nx1 -> tracks nx o fl o1 (fs_files f0) -> fsys o1 reg mb trees (rolled f0) -> fs_wf f0 -> bs_meta_id (fs_st s) = meta -> fs_st s = fs_st s0 ->
  tells root m i -> wp (meta_write BLOBFS_NAME_MAX (intent_clear BLOBFS_NAME_MAX m)) s (went n nx o fl s0 (recovered f0)).
Proof.
  intros Hh Hle Hq F W Em Est Ht. rewrite <- (rolled_files f0) in Hq. destruct (clear_ok m i Ht) as [Hok Hsay]; [by eapply root_range|]. wp_use (meta_write_spec n nx1 o1 reg mb trees (rolled f0) (intent_clear BLOBFS_NAME_MAX m) None s); try done; [by apply wf_settled|].
  intros r s' [(-> & E & Hmv)|(e & He & -> & E & Hmv)]; [exists (settled f0)|exists (rolled f0)]; (split; [by eapply moved_trans|]).
  - split; [constructor|]. right. by rewrite E, Est.
  - split; [by constructor|]. left. by rewrite E.
Qed.

Lemma rename_recover_spec n nx o reg mb trees f i s m : khold (3 + n) nx o (fs_kv s) -> fsys o reg mb trees f -> bs_meta_id (fs_st s) = meta -> fs_intent f = Some i -> tells root m (Some i) ->
  wp (rename_recover BLOBFS_NAME_MAX m) s (went n nx o (fs_files f) s (recovered f)).
Proof.
  intros Hh F Em Ei Ht. pose proof (fy_wf F) as W. destruct (wf_intent _ _ _ W i Ei) as (Hd & Hnf & Hnt & Hne). pose proof Ht as (_ & _ & _ & _ & Elf & Elt & Ef & Et & Edf & Edt & Eb).
  pose proof (entry_name_len _ _ Hnf). pose proof (entry_name_len _ _ Hnt). assert (0 < in_dir i < 2 ^ 64) as Hid.
  { destruct Hd as [es E]. destruct (fsys_dir Hmax Hname _ F E) as (t & _ & (Hr & _) & Hs). pose proof (khold_wf _ _ _ _ Hh) as Hw. destruct (stored_bound _ _ _ _ (in_dir i) Hw Hs) as [? _]; [rewrite <- Hr; apply tree_root_in|]. pose proof (proj1 Hw). lia. }
  assert (forall e s', refused (D := D) e -> khold (3 + n) nx o (fs_kv s') -> fs_st s' = fs_st s -> went n nx o (fs_files f) s (recovered f) (Err e) s') as Hno.
  { intros e s' He Hh' Est. exists f. split; [eapply moved_here; [eapply khold_le; [|exact Hh']; lia|done]|]. split; [by constructor|by left]. }
  assert (forall s', khold (3 + n) nx o (fs_kv s') -> fs_st s' = fs_st s -> rolled f = f -> wp (meta_write BLOBFS_NAME_MAX (intent_clear BLOBFS_NAME_MAX m)) s' (went n nx o (fs_files f) s (recovered f))) as Hend.
  { intros s' Hh' Est Er. eapply (recover_end n nx nx o _ o reg mb trees f (Some i)); try done; [eapply khold_le; [|exact Hh']; lia|apply tracks_refl|by rewrite Er|by rewrite Est]. }
  unfold rename_recover. rewrite Elf, Elt, Edf, Edt, Ef, Et, Eb. destruct (_ || _) eqn:Ec; [lia|]. clear Ec.
  do 2 wp_step. wp_use (dirent_get_spec Hmax Hname (3 + n) nx s (in_dir i) (in_to i) Hh F); try done; [lia|]. intros r s1 (Hh1 & E1 & Hr).
  assert (rolled f = if match alookup f (in_dir i) (in_to i) with Ok de => de_body_id de =? in_body i | Err _ => false end && match alookup f (in_dir i) (in_from i) with Ok de => de_body_id de =? in_body i | Err _ => false end
    then del_entry (in_dir i) (in_from i) f else f) as Er by (unfold rolled; by rewrite Ei, !names_body_ok).
  destruct Hr as [->|(e & He & ->)].
  2: { pose proof (fault_plain e He) as (_ & Hne1 & _). wp_step. replace (match e with ENOENT => _ | _ => _ end) with (mfail (S := bfs) (A := unit) e) by by destruct e. wp_step. apply Hno; [by apply fault_refused|done|done]. }
  destruct (alookup f (in_dir i) (in_to i)) as [de|e] eqn:Ea; [|apply alookup_err in Ea as [-> _]; do 2 wp_step; by apply Hend].
  destruct (Z.eqb_spec (de_body_id de) (in_body i)); [|do 2 wp_step; by apply Hend].
  do 3 wp_step. wp_use (dirent_get_spec Hmax Hname (3 + n) nx s1 (in_dir i) (in_from i) Hh1 F); try done; [lia|]. intros r s2 (Hh2 & E2 & Hr). rewrite E1 in E2.
  destruct Hr as [->|(e2 & He & ->)].
  2: { pose proof (fault_plain e2 He) as (_ & Hne1 & _). replace (match e2 with ENOENT => _ | _ => _ end) with (mfail (S := bfs) (A := unit) e2) by by destruct e2. wp_step. apply Hno; [by apply fault_refused|done|done]. }
  destruct (alookup f (in_dir i) (in_from i)) as [de2|e2] eqn:Eb2; [|apply alookup_err in Eb2 as [-> _]; wp_step; by apply Hend].
  destruct (Z.eqb_spec (de_body_id de2) (in_body i)) as [Eq|]; [|wp_step; by apply Hend]. apply alookup_ok in Eb2.
  wp_use (dir_del_spec Hmax Hsteady Hname n nx (in_dir i) (in_from i) s2 de2 Hh2 F); try done. intros r s3 (E3 & Hr). rewrite E2 in E3. cbn in Er.
  destruct Hr as [[-> (nx' & o' & reg' & mb' & trees' & Hle & Hq & Hh' & F')]|(e3 & He & -> & Hmv)].
  - eapply (recover_end n nx nx' o _ o' reg' mb' trees' f (Some i)); try done; [by rewrite Er|by rewrite E3].
  - exists f. split; [done|]. split; [by constructor|by left].
Qed.

(** ** Settling *)

Lemma ready_pending f s b : ready f s -> (fs_intent f <> None -> b = true) -> bs_mounted (set_pending b (fs_st s)) = true /\ bs_meta_id (set_pending b (fs_st s)) = meta /\ bs_dir_root (set_pending b (fs_st s)) = root /\
  (fs_intent f <> None -> bs_intent_pending (set_pending b (fs_st s)) = true).
Proof. by intros (H1 & H2 & H3 & H4) Hb. Qed.

Lemma ready_v1 f s s' : ready f s -> fs_st s' = fs_st s \/ fs_st s' = set_meta_v1 false (fs_st s) -> ready f s'.
Proof. unfold BlobfsOps.ready. by intros Hr [->| ->]. Qed.

Lemma settle_spec n nx o reg mb trees f s : khold (3 + n) nx o (fs_kv s) -> fsys o reg mb trees f -> ready f s ->
  wp (intent_settle BLOBFS_NAME_MAX) s (fun r s' => exists f', live n nx o (fs_files f) f' s' /\ recovered f r f').
Proof.
  intros Hh F Hr. pose proof Hr as (_ & Em & _ & Hp). destruct (fy_meta F) as (m & v1 & Ed & _ & Ht).
  assert (forall s', khold (3 + n) nx o (fs_kv s') -> moved n nx o (fs_files f) f s') as Hhere by (intros s' Hh'; eapply moved_here; [eapply khold_le; [|exact Hh']; lia|done]).
  unfold intent_settle, st_get, st_mod. do 2 wp_step. destruct (bs_intent_pending (fs_st s)) eqn:Epd; cbn [negb].
  2: { assert (fs_intent f = None) as En by (destruct (fs_intent f); [by discriminate Hp|done]). wp_step. exists f. split; [by split; [apply Hhere|]|]. rewrite <- (settled_none f) at 2 by done. constructor. }
  wp_step. rewrite Em. wp_use (meta_read_spec (3 + n) nx o reg mb trees f s); try done. intros r s1 (Hh1 & E1 & Hrr). rewrite Ed in Hrr.
  destruct Hrr as [->|(e & He & ->)]; [|exists f; split; [split; [by apply Hhere|by eapply fs_ready_st]|by constructor; apply fault_refused]].
  destruct (fs_intent f) as [i|] eqn:Ei.
  - pose proof Ht as (_ & _ & _ & Hfl & _). destruct (Z.eqb_spec (bm_rename_in_flight m) 0); [done|]. cbn [negb]. wp_step. wp_use (rename_recover_spec n nx o reg mb trees f i s1 m); try done; [by rewrite E1|].
    intros r s2 (f' & Hmv & Hrc & Est). assert (ready f s2) as Hr2 by (apply (ready_v1 f s1); [by eapply fs_ready_st|done]). destruct Hrc as [|e He|e He].
    + wp_step. cbn. exists (settled f). split; [split; [exact Hmv|]|constructor]. unfold BlobfsOps.ready. cbn [fs_st]. apply ready_pending; [|done]. apply (ready_of f); [done|by right].
    + exists f. split; [by split|by constructor].
    + exists (rolled f). split; [split; [done|]|by constructor]. apply (ready_of f); [done|left; apply rolled_intent].
  - pose proof Ht as (_ & _ & _ & ->). rewrite Z.eqb_refl. cbn [negb]. do 3 wp_step. cbn. exists f. split; [split; [by apply Hhere|]|].
    + unfold BlobfsOps.ready. cbn [fs_st]. apply ready_pending; [by eapply fs_ready_st|]. by rewrite Ei.
    + rewrite <- (settled_none f) at 2 by done. constructor.
Qed.
End blobfs_meta.

Arguments blob_answer {D Blobs0 L A} n nx {o} s m want _ _.
Arguments blob_effect {D Blobs0 L} Hsteady n nx {o} o' s m _ _.
Arguments blob_put {D Blobs0 L} Hsteady n nx {o} s id p _ _ _ _.
Arguments blob_new {D Blobs0 L} n nx {o} s _.
Arguments root_range {H D Blobs0 L MAX_ROOTS BLOBFS_NAME_MAX meta root} Hmax Hname {o reg mb trees f} n nx s _ _.
Arguments meta_write_spec {H D Blobs0 L MAX_ROOTS BLOBFS_NAME_MAX meta root} Hsteady Hmax Hname Hmeta n nx {o reg mb trees f} m i s _ _ _ _ _ _.
Arguments meta_read_spec {H D Blobs0 L MAX_ROOTS BLOBFS_NAME_MAX meta root} Hmax Hname n nx {o reg mb trees f} s _ _.
Arguments intent_of_says {BLOBFS_NAME_MAX root} Hname w w' de _ _ _ _ _ _.
Arguments settle_spec {H D Blobs0 L MAX_ROOTS BLOBFS_NAME_MAX meta root} Hsteady Hmax Hname Hmeta n nx {o reg mb trees f} s _ _ _.
Arguments rename_recover_spec {H D Blobs0 L MAX_ROOTS BLOBFS_NAME_MAX meta root} Hsteady Hmax Hname Hmeta n nx {o reg mb trees f} i s m _ _ _ _ _.
Arguments wf_settled {BLOBFS_NAME_MAX root f} _.
Arguments wf_rolled {BLOBFS_NAME_MAX root f} _.
Arguments fs_ready_st {D meta root f} s s' _ _.
Arguments ready_of {D meta root f} f' s _ _.
Arguments ready_v1 {D meta root f} s s' _ _.
Arguments ready_pending {D meta root f} s b _ _.
Arguments clear_ok {BLOBFS_NAME_MAX root} Hname m i _ _.
Arguments says_enc {BLOBFS_NAME_MAX root} Hname m i _ _.
