(* ===== verification/BlobfsSteps.v ===== *)
(** What every call of blobfs does to the file system. *)

From S2P Require Import BlobIface Prelude Layout Records RootReg RootRegSpec.
From S2P Require Import KvHash KvHashRep KvHashRead KvHashOps KvHashSet KvHashCreate KvHashWalk KvHashDestroy KvHashRuns Kvdb KvdbSpec Blobfs BlobfsSpec BlobfsOps BlobfsMeta.

(** ** Replies, as functions of the abstract file system *)

Section replies.
Context (BLOBFS_NAME_MAX FILE_MAX root : Z) (f : fs).

Definition lookup_want (p : bytes) : res Z :=
  match (aresolve BLOBFS_NAME_MAX root f p).1 with
  | Err e => Err e
  | Ok de => if de_type de =? BLOBFS_TYPE_DIR then Err EISDIR else Ok (de_body_id de)
  end.

Definition stat_of_want (de : blobfs_dirent) : res blobfs_stat_t :=
  if de_type de =? BLOBFS_TYPE_DIR then Ok (mk_bstat BLOBFS_ENTRY_DIR 0)
  else match size_reply (fs_files f) (de_body_id de) with Ok n => Ok (mk_bstat BLOBFS_ENTRY_FILE n) | Err e => Err e end.

Definition stat_want (p : bytes) : res blobfs_stat_t :=
  match aresolve BLOBFS_NAME_MAX root f p with
  | (Err e, w) => if bool_decide (e = EISDIR) && at_root w then Ok (mk_bstat BLOBFS_ENTRY_DIR 0) else Err e
  | (Ok de, _) => stat_of_want de
  end.

Definition void {A} (r : res A) : res unit := match r with Ok _ => Ok tt | Err e => Err e end.

Definition write_want (id off : Z) (b : bytes) : res unit * fs :=
  if len b =? 0 then (void (size_reply (fs_files f) id), f)
  else if (off >? FILE_MAX) || (len b >? FILE_MAX - off) then (Err ENOSPC, f)
  else match fs_files f !! id with None => (Err ENOENT, f) | Some p => (Ok tt, set_file id (overwrite off b p) f) end.

(** [p] cut or filled with zeros to [size]. *)
Definition resized (size : Z) (p : bytes) : bytes := zt size p ++ replicate (Z.to_nat (size - len p)) 0.

Definition truncate_want (id size : Z) : res unit * fs :=
  if size >? FILE_MAX then (Err ENOSPC, f)
  else match fs_files f !! id with None => (Err ENOENT, f) | Some p => (Ok tt, set_file id (resized size p) f) end.

(** Going on from a lookup. *)
Definition at_path {A} (p : bytes) (k : Z -> res A * fs) : res A * fs := match lookup_want p with Err e => (Err e, f) | Ok id => k id end.
End replies.

Section blobfs_steps.
Context `{Crc} {D : Type} `{!Blobs D} {CL : CrcLaws _} {L : BlobLaws D} (MAX_ROOTS BLOBFS_NAME_MAX meta root : Z).
Notation MAX_PAYLOAD := (blob_max (D := D)).
Notation kvh := (kvh (D := D)).
Notation bfs := (bfs (D := D)).
Notation META_LEN := (META_LEN BLOBFS_NAME_MAX).
Notation fs_wf := (fs_wf BLOBFS_NAME_MAX root).
Notation entry_name := (entry_name BLOBFS_NAME_MAX).
Notation fsys := (fsys (D := D) MAX_ROOTS BLOBFS_NAME_MAX meta root).
Notation moved := (moved MAX_ROOTS BLOBFS_NAME_MAX meta root).
Notation live := (live MAX_ROOTS BLOBFS_NAME_MAX meta root).
Notation ready := (ready meta root).
Notation fshelf := (fshelf meta).
Implicit Types (s : bfs) (o : objs) (f : fs) (trees : gmap Z kvtree) (reg : gmap Z Z).
Context (Hmax : 72 <= MAX_PAYLOAD <= ENT_LEN_MASK) (Hsteady : ~ tears (D := D)) (Hname : 1 <= BLOBFS_NAME_MAX <= 255) (Hmeta : META_LEN <= MAX_PAYLOAD).

(** ** Ids the file system does not use *)

Lemma fsys_dir_id o reg mb trees f d : fsys o reg mb trees f -> is_Some (fs_dirs f !! d) -> d ∈ (fshelf mb trees (fs_files f)).*1.
Proof.
  intros F [es E]. destruct (fsys_dir Hmax Hname d F E) as (t & Et & (<- & _) & _). rewrite (fshelf_dir meta mb trees _ _ t Et), fmap_app. apply elem_of_app. left. apply tree_root_in.
Qed.

Lemma fsys_file_id o reg mb trees f id : fsys o reg mb trees f -> is_Some (fs_files f !! id) -> id ∈ (fshelf mb trees (fs_files f)).*1.
Proof. intros F [b E]. rewrite (fshelf_file meta mb trees _ id b E). by left. Qed.

Record unused f trees (id : Z) : Prop := { uu_dir : fs_dirs f !! id = None; uu_file : fs_files f !! id = None; uu_tree : trees !! id = None; uu_name : unnamed f id }.

Lemma fsys_unused o reg mb trees f id : fsys o reg mb trees f -> id ∉ (fshelf mb trees (fs_files f)).*1 -> unused f trees id.
Proof.
  intros F Hid. assert (fs_dirs f !! id = None) as Hd. { destruct (fs_dirs f !! id) eqn:E; [|done]. destruct Hid. eapply fsys_dir_id; [done|by rewrite E]. }
  assert (fs_files f !! id = None) as Hf. { destruct (fs_files f !! id) eqn:E; [|done]. destruct Hid. eapply fsys_file_id; [done|by rewrite E]. }
  split; try done.
  - pose proof (fy_dirs F id) as Ht. rewrite Hd in Ht. by destruct (trees !! id).
  - intros d n de E Ei. destruct (wf_entry _ _ _ (fy_wf F) _ _ _ E) as ((Hty & _) & _ & [H1 H2]). destruct Hty as [Hty|Hty].
    + destruct (H1 Hty) as [? ?]. congruence.
    + destruct (H2 Hty) as [[? ?] _]. congruence.
Qed.

Lemma fsys_fresh n nx o reg mb trees f id s : khold n nx o (fs_kv s) -> fsys o reg mb trees f -> nx <= id -> id ∉ (fshelf mb trees (fs_files f)).*1 /\ unused f trees id.
Proof.
  intros Hh F Hid. assert (id ∉ (fshelf mb trees (fs_files f)).*1) as Hn by (eapply stored_fresh; [by eapply khold_wf|apply (fy_stored F)|done]). split; [done|by eapply fsys_unused].
Qed.

(** ** Directories come and go *)

Lemma fsys_new_dir nx o o' reg mb trees f id t : obs_wf MAX_PAYLOAD nx o -> fsys o reg mb trees f -> id ∉ (fshelf mb trees (fs_files f)).*1 -> id <> BLOB_ROOT -> dir_ok id t ∅ -> stored o' (tree_objs t) ->
  (forall i, i ∈ (tree_objs t).*1 -> i = id \/ nx <= i) -> (forall i, i < nx -> i <> id -> o' !! i = o !! i) -> fsys o' reg mb (<[id := t]> trees) (set_dir_of id ∅ f).
Proof.
  intros Hw F Hid Hne Hok Hst Hids Hf. destruct (fsys_unused _ _ _ _ _ _ F Hid) as [Ud Uf Ut Un]. pose proof (fy_stored F) as Hs.
  assert (forall i, i ∈ (fshelf mb trees (fs_files f)).*1 -> i < nx) as Hlt by (intros i Hi; destruct (stored_bound _ _ _ _ _ Hw Hs Hi); lia).
  destruct F as [Hr Hk _ Hm Hd W]. split; cbn [set_dir_of fs_files fs_dirs fs_intent]; try done.
  - eapply registry_keep; [done|]. apply Hf; [pose proof (proj1 Hw); unfold BLOB_ROOT; lia|done].
  - rewrite fshelf_new_dir by done. apply stored_app. split; [done|]. split.
    + eapply stored_frame; [|exact Hs]. intros i Hi. apply Hf; [by apply Hlt|]. by intros ->.
    + intros i Hi Hi'. destruct (Hids i Hi) as [->|]; [done|]. specialize (Hlt i Hi'). lia.
  - intros d. specialize (Hd d). destruct (decide (d = id)) as [->|]; [by rewrite !lookup_insert_eq|by rewrite !lookup_insert_ne].
  - by apply wf_add_dir.
Qed.

Lemma drop_dir n nx o reg mb trees f d es s : khold n nx o (fs_kv s) -> fsys o reg mb trees f -> fs_dirs f !! d = Some es -> fs_wf (del_dir d f) ->
  wp (on_kv (mo_destroy dir_ops d)) s (fun r s' => fs_st s' = fs_st s /\ moved n nx o (fs_files f) (del_dir d f) s').
Proof.
  intros Hh F E W. destruct (fsys_dir Hmax Hname d F E) as (t & Et & (Hr & Hok & _) & Hs). apply wp_on_kv. cbn [mo_destroy dir_ops kvhash_map_ops]. rewrite <- Hr at 1. assert (24 <= MAX_PAYLOAD <= ENT_LEN_MASK) as Hm24 by lia.
  wp_use (destroy_spec Hm24 n nx o (fs_kv s) t Hh Hok); [by eapply stored_apart|by left|]. intros r k (o' & Hh' & Ha & _). split; [done|]. exists nx, o', reg, mb, (delete d trees). split; [lia|].
  split; [eapply tracks_off; [exact Hs|intros id; apply (fsys_tree_apart d t id F Et)|]; intros id _ Hid; by apply Ha|]. split; [done|]. pose proof (fy_stored F) as Hall. rewrite (fshelf_dir _ _ _ _ _ _ Et) in Hall. apply stored_app in Hall as (_ & Hrest & Hdisj).
  destruct F as [Hreg Hk _ Hm Hd _]. split; cbn [del_dir fs_files fs_dirs fs_intent]; try done.
  - eapply registry_keep; [done|]. apply Ha. intros Hin. apply list_elem_of_fmap in Hin as ([i b] & Hi & Hin). destruct (stored_elem _ _ _ _ Hs Hin) as [_ Hne]. by apply Hne.
  - eapply stored_frame; [|exact Hrest]. intros i Hi. apply Ha. intros Hi'. by apply (Hdisj i).
  - intros d'. specialize (Hd d'). destruct (decide (d' = d)) as [->|]; [by rewrite !lookup_delete_eq|by rewrite !lookup_delete_ne].
Qed.

(** ** Files, by id

    The ids a client may use: those of files, and those that were. *)
Definition known nx o f (id : Z) : Prop := 0 < id < nx /\ id <> BLOB_ROOT /\ o !! id = fs_files f !! id.

Lemma known_file n nx o reg mb trees f id s : khold n nx o (fs_kv s) -> fsys o reg mb trees f -> is_Some (fs_files f !! id) -> known nx o f id.
Proof.
  intros Hh F [b E]. destruct (fsys_file Hmax Hname id b F E) as [Eo Hne]. split; [|split; [done|congruence]]. destruct (obs_wf_lookup _ _ _ _ _ (khold_wf _ _ _ _ Hh) Eo). done.
Qed.

Lemma known_range n nx o f id s : khold n nx o (fs_kv s) -> known nx o f id -> 0 < id < 2 ^ 64.
Proof. intros Hh [Hid _]. pose proof (proj1 (khold_wf _ _ _ _ Hh)). lia. Qed.

Lemma size_reply_known nx o f id : known nx o f id -> size_reply o id = size_reply (fs_files f) id.
Proof. intros (_ & _ & E). unfold size_reply. by rewrite E. Qed.

Lemma size_id_spec n nx o f id s : khold n nx o (fs_kv s) -> known nx o f id -> wp (blobfs_size_id id false) s (same n nx o s (size_reply (fs_files f) id)).
Proof.
  intros Hh Hk. pose proof (known_range _ _ _ _ _ _ Hh Hk). cbn [blobfs_size_id]. rewrite <- (size_reply_known nx o f id Hk). apply blob_answer; [done|]. apply size_law; [apply Hh|lia].
Qed.

Lemma read_id_spec n nx o f id off k s : khold n nx o (fs_kv s) -> known nx o f id -> 0 <= off -> 0 <= k -> wp (blobfs_read_id id off false k false) s (same n nx o s (read_reply (fs_files f) id off k)).
Proof.
  intros Hh Hk Ho Hn. pose proof (known_range _ _ _ _ _ _ Hh Hk). cbn [blobfs_read_id andb orb]. replace (read_reply (fs_files f) id off k) with (read_reply o id off k) by (unfold read_reply; by destruct Hk as (_ & _ & ->)).
  apply blob_answer; [done|]. apply read_law; [apply Hh|lia..].
Qed.

(** A step whose outcome is [want], or that is refused and changes nothing. *)
Definition outcome {A} f (want : res A * fs) (r : res A) f' : Prop := (r = want.1 /\ f' = want.2) \/ exists e, refused (D := D) e /\ r = Err e /\ f' = f.
Definition lands {A} (n : nat) nx o f s (want : res A * fs) (r : res A) s' : Prop := exists f', moved n nx o (fs_files f) f' s' /\ fs_st s' = fs_st s /\ outcome f want r f'.

Lemma lands_same {A} n nx o reg mb trees f s (want r : res A) s' : fsys o reg mb trees f -> same n nx o s want r s' -> lands n nx o f s (want, f) r s'.
Proof.
  intros F (Hh & Est & Hr). exists f. split; [by eapply moved_here|]. split; [done|]. destruct Hr as [->|(e & He & ->)]; [by left|right]. exists e. split; [by apply fault_refused|done].
Qed.

Lemma lands_commit n nx o o' reg mb trees f s id b r s' : fsys o reg mb trees f -> o' = <[id := b]> o -> is_Some (fs_files f !! id) -> known nx o f id -> commits s (khold n nx o) (khold n nx o') tt r s' ->
  lands n nx o f s (Ok tt, set_file id b f) r s'.
Proof.
  intros F -> [p E] (_ & Hne & Eo) (Est & [[-> Hh]|(e & He & -> & Hh)]).
  - exists (set_file id b f). split; [|split; [done|by left]]. exists nx, (<[id := b]> o), reg, mb, trees. split; [lia|]. split; [apply tracks_put|]. split; [done|].
    apply fsys_put_file; [done|done|left; by rewrite E].
  - exists f. split; [by eapply moved_here|]. split; [done|right]. eauto.
Qed.

Lemma wp_bnd_void {A} (m : M bfs A) s (Q : res unit -> bfs -> Prop) : wp m s (fun r s' => Q (void r) s') -> wp (m;;; mret tt) s Q.
Proof. intros Hw. wp_step. eapply wp_mono; [exact Hw|]. cbv beta. intros [a|e] s' Hq; [by apply wp_ret|done]. Qed.

Lemma write_id_spec n nx o reg mb trees f id off b s : khold n nx o (fs_kv s) -> fsys o reg mb trees f -> known nx o f id -> 0 <= off -> bytes_ok b ->
  wp (blobfs_write_id id off false b) s (lands n nx o f s (write_want MAX_PAYLOAD f id off b)).
Proof.
  intros Hh F Hk Ho Hb. pose proof (known_range _ _ _ _ _ _ Hh Hk). pose proof (len_nonneg b). unfold blobfs_write_id, write_want, BLOBFS_FILE_MAX. cbn [andb]. destruct (Z.eqb_spec (len b) 0).
  - apply wp_bnd_void. eapply wp_mono; [by apply (size_id_spec n nx o f id)|]. cbv beta. intros r s' Hs. eapply lands_same; [done|]. destruct Hs as (Hh' & Est & Hr). split; [done|]. split; [done|].
    destruct Hr as [->|(x & Hx & ->)]; [by left|right]. by exists x.
  - destruct (_ || _) eqn:E; [by apply wp_fail; eapply lands_same; [|apply same_refl]|]. destruct Hk as (Hid & Hne & Eo). destruct (fs_files f !! id) as [p|] eqn:Ef; rewrite ?Ef in Eo.
    + eapply wp_mono; [apply (blob_effect Hsteady n nx (<[id := overwrite off b p]> o) s _ Hh)|].
      * eapply wp_mono; [apply (write_law n _ nx o id off b p); [apply Hh|lia|lia|unfold ENT_LEN_MASK in *; lia|done|done]|]. cbv beta. intros r d. destruct (Z.eqb_spec (len b) 0); [lia|]. by destruct (Z.gtb_spec (off + len b) MAX_PAYLOAD); [lia|].
      * cbv beta. intros r s'. apply (lands_commit n nx o _ reg mb trees f); try done. split; [done|]. split; [done|]. by rewrite Ef.
    + eapply wp_mono; [apply (blob_answer n nx s _ (Err ENOENT) Hh)|].
      * apply (write_gone_law n _ nx o id off b); [apply Hh|lia|lia|unfold ENT_LEN_MASK in *; lia|done|done].
      * cbv beta. intros r s'. by apply lands_same with reg mb trees.
Qed.

(** Going on from an answer of the store. *)
Lemma same_then {A B} n nx o s (m : M bfs A) (k : A -> M bfs B) want (Q : res B -> bfs -> Prop) : wp m s (same n nx o s want) ->
  (forall s', khold n nx o (fs_kv s') -> fs_st s' = fs_st s -> match want with Ok a => wp (k a) s' Q | Err e => Q (Err e) s' end) ->
  (forall e s', fault (D := D) e -> khold n nx o (fs_kv s') -> fs_st s' = fs_st s -> Q (Err e) s') -> wp (mbnd m k) s Q.
Proof.
  intros Hm Hk He. wp_step. eapply wp_mono; [exact Hm|]. cbv beta. intros r s' (Hh & Est & [->|(e & Hf & ->)]); [specialize (Hk s' Hh Est); by destruct want|by apply He].
Qed.

Lemma lands_from {A} n nx o f s1 s2 (want : res A * fs) r s' : fs_st s1 = fs_st s2 -> lands n nx o f s1 want r s' -> lands n nx o f s2 want r s'.
Proof. intros E (f' & ? & Est & ?). exists f'. split; [done|]. split; [congruence|done]. Qed.

Lemma lands_fault {A} n nx o reg mb trees f s (want : res A * fs) e s' : fsys o reg mb trees f -> fault (D := D) e -> khold n nx o (fs_kv s') -> fs_st s' = fs_st s -> lands n nx o f s want (Err e) s'.
Proof. intros F He Hh Est. exists f. split; [by eapply moved_here|]. split; [done|right]. exists e. split; [by apply fault_refused|done]. Qed.

Lemma lands_err {A} n nx o reg mb trees f s (r : res A) s' : fsys o reg mb trees f -> khold n nx o (fs_kv s') -> fs_st s' = fs_st s -> lands n nx o f s (r, f) r s'.
Proof. intros F Hh Est. eapply lands_same; [done|by apply same_refl]. Qed.

Lemma lookup_same f id p : fs_files f !! id = Some p -> set_file id p f = f.
Proof. intros E. unfold set_file. rewrite insert_id by done. by destruct f. Qed.

Lemma resized_grow size (p : bytes) : len p < size -> overwrite (size - 1) [0] p = resized size p.
Proof.
  intros Hs. pose proof (len_nonneg p). unfold overwrite, resized, zt. rewrite take_ge by (unfold len in *; lia). change (len [0]) with 1. replace (size - 1 + 1) with size by lia. set (z := replicate _ 0).
  assert (len z = size - len p) as Hz by (unfold z; rewrite len_replicate; lia). replace [0] with (slice (size - 1) 1 (p ++ z)); [apply splice_slice; rewrite ?len_app; lia|].
  rewrite slice_app_r by lia. unfold slice, zt, zd, z. rewrite drop_replicate, take_replicate. by replace (Init.Nat.min _ _) with 1%nat by lia.
Qed.

Lemma resized_cut size (p : bytes) : 0 <= size <= len p -> resized size p = slice 0 size p.
Proof. intros Hs. unfold resized. replace (Z.to_nat (size - len p)) with 0%nat by lia. cbn. by rewrite app_nil_r, zt_slice. Qed.

Lemma truncate_id_spec n nx o reg mb trees f id size s : khold n nx o (fs_kv s) -> fsys o reg mb trees f -> known nx o f id -> 0 <= size ->
  wp (blobfs_truncate_id id size) s (lands n nx o f s (truncate_want MAX_PAYLOAD f id size)).
Proof.
  intros Hh F Hk Hs. pose proof (known_range _ _ _ _ _ _ Hh Hk). pose proof Hk as (Hid & Hne & Eo). pose proof (khold_wf _ _ _ _ Hh) as Hw. unfold blobfs_truncate_id, truncate_want, BLOBFS_FILE_MAX.
  destruct (Z.gtb_spec size MAX_PAYLOAD); [by apply wp_fail; eapply lands_err|]. apply (same_then n nx o s _ _ (size_reply (fs_files f) id)).
  { apply blob_answer; [done|]. rewrite <- (size_reply_known nx o f id Hk). apply size_law; [apply Hh|lia]. }
  2: by intros e s' He Hh' Est; eapply lands_fault.
  intros s1 Hh1 E1. unfold size_reply. destruct (fs_files f !! id) as [p|] eqn:Ef; [|by eapply lands_err]. rewrite ?Ef in Eo. destruct (obs_wf_lookup _ _ _ _ _ Hw Eo) as (_ & Hpb & Hpl). pose proof (len_nonneg p).
  assert (forall b r s', commits s1 (khold n nx o) (khold n nx (<[id := b]> o)) tt r s' -> lands n nx o f s (Ok tt, set_file id b f) r s') as Hput.
  { intros b r s' Hc. eapply lands_from; [exact E1|]. apply (lands_commit n nx o (<[id := b]> o) reg mb trees); try done; by rewrite Ef. }
  destruct (Z.eqb_spec size (len p)) as [->|].
  { apply wp_ret. rewrite resized_cut, slice_all, lookup_same by (done || lia). by eapply lands_err. }
  destruct (Z.gtb_spec size (len p)).
  - eapply wp_mono; [apply (blob_effect Hsteady n nx (<[id := resized size p]> o) s1 _ Hh1)|cbv beta; intros r s'; apply Hput].
    eapply wp_mono; [apply (write_law n _ nx o id (size - 1) [0] p); [apply Hh1|lia|lia|unfold ENT_LEN_MASK in *; change (len [0]) with 1; lia|repeat constructor; unfold byte_ok; lia|done]|].
    cbv beta. intros r d. change (len [0]) with 1. cbn [Z.eqb]. rewrite resized_grow by lia. by destruct (Z.gtb_spec (size - 1 + 1) MAX_PAYLOAD); [lia|].
  - rewrite resized_cut by lia. apply (same_then n nx o s1 _ _ (Ok (slice 0 size p))).
    + apply blob_answer; [done|]. replace (Ok (slice 0 size p)) with (read_reply o id 0 size) by (unfold read_reply; by rewrite Eo). apply read_law; [apply Hh1|lia..].
    + intros s2 Hh2 E2. rewrite len_slice, Z.eqb_refl by lia. cbn [negb]. eapply wp_mono; [apply (blob_put Hsteady n nx s2 id (slice 0 size p) Hh2 Hid)|].
      * by apply bytes_ok_slice.
      * rewrite len_slice; lia.
      * cbv beta. intros r s' [Est Hc]. apply Hput. split; [congruence|done].
    + intros e s' He Hh' Est. eapply lands_fault; [done..|congruence].
Qed.

(** ** Files and directories, by path *)

Lemma aresolve_ok f p de w : aresolve BLOBFS_NAME_MAX root f p = (Ok de, w) -> awalk BLOBFS_NAME_MAX root f p = Ok w /\ at_root w = false /\ entry_at f (w_dir w) (w_name w) = Some de.
Proof.
  unfold aresolve. destruct (awalk _ _ _ _) as [w'|e]; [|done]. destruct (at_root w') eqn:Ea; [done|]. destruct (alookup _ _ _) as [de'|e] eqn:El; [|done]. apply alookup_ok in El.
  destruct (_ && _); [done|]. by intros [= -> ->].
Qed.

Lemma lookup_file f p id : fs_wf f -> lookup_want BLOBFS_NAME_MAX root f p = Ok id -> is_Some (fs_files f !! id).
Proof.
  intros W. unfold lookup_want. destruct (aresolve _ _ _ _) as [[de|e] w] eqn:E; [|done]. cbn. apply aresolve_ok in E as (_ & _ & E). destruct (wf_entry _ _ _ W _ _ _ E) as ((Ht & _) & _ & [Hf _]).
  destruct (Z.eqb_spec (de_type de) BLOBFS_TYPE_DIR); [done|]. intros [= <-]. apply Hf. by destruct Ht.
Qed.

Lemma path_lookup_spec n nx o reg mb trees f s p : khold n nx o (fs_kv s) -> fsys o reg mb trees f -> ready f s ->
  wp (blobfs_lookup BLOBFS_NAME_MAX (Some p) false) s (same n nx o s (lookup_want BLOBFS_NAME_MAX root f p)).
Proof.
  intros Hh F Hr. unfold blobfs_lookup, lookup_want. wp_step. wp_use (resolve_spec Hmax Hname n nx s p Hh F Hr). intros r s1 (Hh1 & E1 & rc & w & -> & Hrc).
  destruct Hrc as [Hrc|(e & He & ->)]; [|by cbn; split; [|split; [|right; eauto]]]. rewrite <- Hrc. cbn [fst]. destruct rc as [de|e]; [|by cbn; apply same_refl].
  wp_step. unfold wp at 1, mlift. destruct (de_type de =? BLOBFS_TYPE_DIR); by apply same_refl.
Qed.

Lemma entry_known n nx o reg mb trees f d nm de s : khold n nx o (fs_kv s) -> fsys o reg mb trees f -> entry_at f d nm = Some de -> (de_type de =? BLOBFS_TYPE_DIR) = false -> known nx o f (de_body_id de).
Proof.
  intros Hh F E Ht. eapply known_file; [done..|]. destruct (wf_entry _ _ _ (fy_wf F) _ _ _ E) as (([?|?] & _) & _ & [Hf _]); [by apply Hf|lia].
Qed.

Lemma stat_of_spec n nx o reg mb trees f d nm de s : khold n nx o (fs_kv s) -> fsys o reg mb trees f -> entry_at f d nm = Some de -> wp (stat_of de) s (same n nx o s (stat_of_want f de)).
Proof.
  intros Hh F E. unfold stat_of, stat_of_want. destruct (de_type de =? BLOBFS_TYPE_DIR) eqn:Et; [by apply wp_ret, same_refl|]. apply (same_bnd n nx o s _ _ (size_reply (fs_files f) (de_body_id de))).
  - apply (size_id_spec n nx o f (de_body_id de) s Hh). by eapply entry_known.
  - intros k s' -> Hh' Est. by apply wp_ret, same_refl.
  - by intros e ->.
Qed.

Lemma fault_not_dir e w : fault (D := D) e -> bool_decide (e = EISDIR) && at_root w = false.
Proof. intros He. pose proof (fault_plain e He) as (_ & _ & _ & _ & _ & _ & _ & _ & Hne). by rewrite bool_decide_eq_false_2. Qed.

Lemma path_stat_spec n nx o reg mb trees f s p : khold n nx o (fs_kv s) -> fsys o reg mb trees f -> ready f s ->
  wp (blobfs_stat BLOBFS_NAME_MAX (Some p) false) s (same n nx o s (stat_want BLOBFS_NAME_MAX root f p)).
Proof.
  intros Hh F Hr. unfold blobfs_stat, stat_want. wp_step. wp_use (resolve_spec Hmax Hname n nx s p Hh F Hr). intros r s1 (Hh1 & E1 & rc & w & -> & Hrc).
  destruct Hrc as [Hrc|(e & He & ->)].
  - rewrite <- Hrc. destruct rc as [de|e]; [|destruct (_ && _); by apply same_refl]. symmetry in Hrc. apply aresolve_ok in Hrc as (_ & _ & E).
    eapply wp_mono; [by eapply stat_of_spec|]. cbv beta. intros r s'. by apply same_from.
  - rewrite fault_not_dir by done. split; [done|]. split; [done|right; eauto].
Qed.

Lemma read_spec n nx o reg mb trees f s p off k : khold n nx o (fs_kv s) -> fsys o reg mb trees f -> ready f s -> 0 <= off -> 0 <= k ->
  wp (blobfs_read BLOBFS_NAME_MAX (Some p) off false k false) s (same n nx o s (at_path BLOBFS_NAME_MAX root f p (fun id => (read_reply (fs_files f) id off k, f))).1).
Proof.
  intros Hh F Hr Ho Hk. unfold blobfs_read, at_path. apply (same_bnd n nx o s _ _ (lookup_want BLOBFS_NAME_MAX root f p)); [by eapply path_lookup_spec| |by intros e ->].
  intros id s' E Hh' Est. rewrite E. cbn [fst]. eapply wp_mono; [apply (read_id_spec n nx o f id); [done| |done..]|cbv beta; intros r s2; by apply same_from].
  eapply known_file; [exact Hh'|exact F|]. by apply (lookup_file f p); [apply (fy_wf F)|].
Qed.

Lemma path_lands n nx o reg mb trees f s p (k : Z -> M bfs unit) (want : Z -> res unit * fs) : khold n nx o (fs_kv s) -> fsys o reg mb trees f -> ready f s ->
  (forall id s', khold n nx o (fs_kv s') -> known nx o f id -> wp (k id) s' (lands n nx o f s' (want id))) ->
  wp (let* id := blobfs_lookup BLOBFS_NAME_MAX (Some p) false in k id) s (lands n nx o f s (at_path BLOBFS_NAME_MAX root f p want)).
Proof.
  intros Hh F Hr Hk. unfold at_path. eapply same_then; [by eapply path_lookup_spec| |by intros e s' He Hh' Est; eapply lands_fault].
  intros s' Hh' Est. destruct (lookup_want _ _ _ _) as [id|e] eqn:E; [|by eapply lands_err]. eapply wp_mono; [apply Hk; [done|]|cbv beta; intros r s2; by apply lands_from].
  eapply known_file; [exact Hh'|exact F|]. by apply (lookup_file f p); [apply (fy_wf F)|].
Qed.

Lemma write_spec n nx o reg mb trees f s p off b : khold n nx o (fs_kv s) -> fsys o reg mb trees f -> ready f s -> 0 <= off -> bytes_ok b ->
  wp (blobfs_write BLOBFS_NAME_MAX (Some p) off false b) s (lands n nx o f s (at_path BLOBFS_NAME_MAX root f p (fun id => write_want MAX_PAYLOAD f id off b))).
Proof. intros Hh F Hr Ho Hb. eapply path_lands; [done..|]. intros id s' Hh' Hk. by eapply write_id_spec. Qed.

Lemma truncate_spec n nx o reg mb trees f s p size : khold n nx o (fs_kv s) -> fsys o reg mb trees f -> ready f s -> 0 <= size ->
  wp (blobfs_truncate BLOBFS_NAME_MAX (Some p) size) s (lands n nx o f s (at_path BLOBFS_NAME_MAX root f p (fun id => truncate_want MAX_PAYLOAD f id size))).
Proof. intros Hh F Hr Hs. eapply path_lands; [done..|]. intros id s' Hh' Hk. by eapply truncate_id_spec. Qed.

(** ** Making files and directories *)

Lemma afree_ok f p w : afree BLOBFS_NAME_MAX root f p = (Ok tt, w) -> awalk BLOBFS_NAME_MAX root f p = Ok w /\ at_root w = false /\ entry_at f (w_dir w) (w_name w) = None.
Proof.
  unfold afree. destruct (awalk _ _ _ _) as [w'|e]; [|done]. destruct (at_root w') eqn:Ea; [done|]. destruct (alookup _ _ _) as [de'|e] eqn:El; [done|]. apply alookup_err in El as [_ El]. by intros [= ->].
Qed.

(** A name is bound to something new, or the call is refused and nothing changes. *)
Definition binds (fresh : Z -> Prop) (bad : errno -> Prop) f (make : Z -> fs) (r : res unit) f' : Prop :=
  (exists id, fresh id /\ r = Ok tt /\ f' = make id) \/ (exists e, (refused (D := D) e \/ bad e) /\ r = Err e /\ f' = f).

Definition creates (fresh : Z -> Prop) f p (r : res unit) f' : Prop :=
  match afree BLOBFS_NAME_MAX root f p with
  | (Err e, w) => outcome f (Err (if bool_decide (e = EEXIST) && at_root w then EISDIR else e), f) r f'
  | (Ok _, w) =>
      if w_want_dir w then outcome f (Err EISDIR, f) r f'
      else binds fresh (fun e => e = ENOSPC) f (fun id => set_entry (w_dir w) (w_name w) (new_dirent BLOBFS_TYPE_FILE id) (set_file id [] f)) r f'
  end.

Definition makes (fresh : Z -> Prop) f p (r : res unit) f' : Prop :=
  match afree BLOBFS_NAME_MAX root f p with
  | (Err e, _) => outcome f (Err e, f) r f'
  | (Ok _, w) => binds fresh (fun e => e = ENOSPC \/ derive_geometry (D := D) (dir_config BLOBFS_NAME_MAX) = Err e) f (fun id => set_entry (w_dir w) (w_name w) (new_dirent BLOBFS_TYPE_DIR id) (set_dir_of id ∅ f)) r f'
  end.

Lemma outcome_refused {A} f (want : res A * fs) e : refused (D := D) e -> outcome f want (Err e) f.
Proof. intros He. right. eauto. Qed.

Lemma creates_refused fresh f p e : refused (D := D) e -> creates fresh f p (Err e) f.
Proof. intros He. unfold creates. destruct (afree _ _ _ _) as [[]]; [destruct (w_want_dir _); [by apply outcome_refused|right; eauto 6]|by apply outcome_refused]. Qed.

Lemma makes_refused fresh f p e : refused (D := D) e -> makes fresh f p (Err e) f.
Proof. intros He. unfold makes. destruct (afree _ _ _ _) as [[]]; [right; eauto 6|by apply outcome_refused]. Qed.

Lemma new_dirent_ok type id : type = BLOBFS_TYPE_FILE \/ type = BLOBFS_TYPE_DIR -> 0 <= id < 2 ^ 64 -> dirent_ok (new_dirent type id).
Proof. intros Ht Hid. unfold dirent_ok. cbn. split_and!; (done || lia). Qed.

Lemma wf_bind_new d nm type id f f1 : fs_wf f1 -> unnamed f id -> (forall d' n' de, entry_at f1 d' n' = Some de -> entry_at f d' n' = Some de) -> entry_at f d nm = None -> entry_name nm -> dirent_ok (new_dirent type id) ->
  target root f1 (new_dirent type id) -> fs_wf (set_entry d nm (new_dirent type id) f1).
Proof.
  intros W Hun Hsub Hno Hn Hok Ht. apply wf_set_entry; try done.
  - destruct (entry_at f1 d nm) eqn:E; [|done]. apply Hsub in E. congruence.
  - intros d' n' de' E Eb. apply Hsub in E. by destruct (Hun _ _ _ E).
Qed.

(** The next id, for a body or a directory. *)
Lemma new_body n nx o reg mb trees f s : khold (S n) nx o (fs_kv s) -> fsys o reg mb trees f ->
  nx ∉ (fshelf mb trees (fs_files f)).*1 /\ unused f trees nx /\ 0 < nx < 2 ^ 64 /\ nx <> BLOB_ROOT.
Proof.
  intros Hh F. pose proof (proj1 (khold_wf _ _ _ _ Hh)). assert (nx <= nx) as Hle by lia. destruct (fsys_fresh _ _ _ _ _ _ _ _ _ Hh F Hle). split_and!; (done || unfold BLOB_ROOT; lia).
Qed.

Lemma create_file_spec n nx o reg mb trees f s p : khold (4 + n) nx o (fs_kv s) -> fsys o reg mb trees f -> ready f s -> bytes_ok p ->
  wp (blobfs_create BLOBFS_NAME_MAX (Some p)) s (fun r s' => exists f', live n nx o (fs_files f) f' s' /\ creates (fun id => nx <= id) f p r f').
Proof.
  intros Hh F Hrd Hp. pose proof (fy_wf F) as W.
  assert (forall k nx' r s', (n <= k)%nat -> nx <= nx' -> khold k nx' o (fs_kv s') -> fs_st s' = fs_st s -> creates (fun id => nx <= id) f p r f -> exists f', live n nx o (fs_files f) f' s' /\ creates (fun id => nx <= id) f p r f') as Hsame.
  { intros k nx' r s' Hle Hnx Hh' Est Hc. exists f. split; [|done]. split; [|by eapply fs_ready_st]. exists nx', o, reg, mb, trees. split; [done|]. split; [apply tracks_refl|]. split; [by eapply khold_le|done]. }
  unfold blobfs_create. wp_step. wp_use (free_spec Hmax Hname (4 + n) nx s p Hh F Hrd). intros r s1 (Hh1 & E1 & rc & w & -> & Hrc).
  destruct Hrc as [Hrc|(e & He & ->)].
  2: { pose proof (fault_plain e He) as (_ & _ & _ & _ & _ & _ & _ & Hne & _). rewrite bool_decide_eq_false_2 by done. cbn [andb]. wp_step. apply (Hsame (4 + n)%nat nx); try done; try lia. by apply creates_refused, fault_refused. }
  symmetry in Hrc. assert (forall r f', creates (fun id => nx <= id) f p r f' <-> match rc with Err e => outcome f (Err (if bool_decide (e = EEXIST) && at_root w then EISDIR else e), f) r f' | Ok _ => if w_want_dir w then outcome f (Err EISDIR, f) r f' else binds (fun id => nx <= id) (fun e => e = ENOSPC) f (fun id => set_entry (w_dir w) (w_name w) (new_dirent BLOBFS_TYPE_FILE id) (set_file id [] f)) r f' end) as Hcr by (intros; unfold creates; rewrite Hrc; by destruct rc).
  destruct rc as [[]|e]; [|destruct (_ && _); wp_step; apply (Hsame (4 + n)%nat nx); try done; try lia; apply Hcr; by left].
  apply afree_ok in Hrc as (Ew & Ea & En). destruct (awalk_where p w W Ew) as [Hd _]. pose proof (awalk_name p w Hp Ew Ea) as Hn.
  destruct (w_want_dir w); [wp_step; apply (Hsame (4 + n)%nat nx); try done; try lia; apply Hcr; by left|].
  wp_step. wp_use (blob_new (3 + n) nx s1 Hh1). intros r s2 (E2 & [[-> Hh2]|(-> & He & nx' & Hle & Hh2)]).
  2: { cbn [Z.eqb]. wp_step. apply (Hsame (3 + n)%nat nx'); try done; try lia; [congruence|]. by apply creates_refused. }
  destruct (new_body _ _ _ _ _ _ _ _ Hh1 F) as (Hni & Hu & Hid & Hne). destruct (Z.eqb_spec nx 0); [lia|]. wp_step. pose proof (len_nonneg (@nil Z)).
  wp_use (blob_put Hsteady (3 + n) (nx + 1) s2 nx [] Hh2); [lia|constructor|change (len []) with 0; lia|]. intros r s3 (E3 & [[-> Hh3]|(e & He & -> & Hh3)]).
  2: { apply (Hsame (3 + n)%nat (nx + 1)); try done; try lia; [congruence|]. by apply creates_refused. }
  pose proof (fsys_put_file nx [] F Hne ltac:(by right)) as F3. pose proof (new_dirent_ok BLOBFS_TYPE_FILE nx ltac:(by left) ltac:(lia)) as Hok.
  assert (fs_wf (set_entry (w_dir w) (w_name w) (new_dirent BLOBFS_TYPE_FILE nx) (set_file nx [] f))) as W3.
  { eapply (wf_bind_new _ _ _ _ f); try done; [apply (fy_wf F3)|by destruct Hu|]. split; [|done]. intros _. cbn. rewrite lookup_insert_eq. by eexists. }
  wp_use (dir_set_spec Hmax Hsteady Hname n (nx + 1) (w_dir w) (w_name w) (new_dirent BLOBFS_TYPE_FILE nx) s3 Hh3 F3 Hd Hn Hok W3). intros r s4 (E4 & Hr).
  assert (tracks nx o (fs_files f) (<[nx := []]> o) (fs_files (set_file nx [] f))) as Hq by apply tracks_put. assert (fs_st s4 = fs_st s) as Est by congruence.
  destruct Hr as [[-> Hmv]|(e & He & -> & Hmv)].
  - eexists. split; [split; [apply (moved_trans (o := o) n n nx (nx + 1) _ s4 Hmv); [lia|done|lia]|]|apply Hcr; left; exists nx; split; [lia|done]]. apply (ready_of (f := f)); [by eapply fs_ready_st|by left].
  - exists f. split; [split; [|by eapply fs_ready_st]|].
    + destruct Hmv as (nx' & o' & reg' & mb' & trees' & Hle & Hq' & Hh' & F'). assert (fs_files f !! nx = None) as Hfn by apply Hu. exists nx', o', reg', mb', trees'. split; [lia|]. split; [intros id Hlt Eo; rewrite (Hq' id ltac:(lia) (Hq id Hlt Eo)); cbn; by rewrite lookup_insert_ne by lia|]. split; [done|].
      pose proof (fsys_del_file Hmax Hname o' nx F' ltac:(by destruct Hu) ltac:(cbn; rewrite lookup_insert_eq; by eexists) ltac:(by left)) as Fd. unfold del_file, set_file in Fd. cbn in Fd. rewrite delete_insert_id in Fd by done. by destruct f.
    + apply Hcr. right. exists e. unfold set_refused in He. tauto.
Qed.

(** *** The meta object brought up to date *)

Lemma META_V1_bounds : 24 + 2 * (BLOBFS_NAME_MAX + 1) <= META_V1_LEN BLOBFS_NAME_MAX.
Proof. unfold META_V1_LEN. apply (round_up_spec (24 + 2 * (BLOBFS_NAME_MAX + 1)) 8 pow2_8). Qed.

Lemma decode_ok mb m v1 : bytes_ok mb -> meta_decode BLOBFS_NAME_MAX mb = Ok (m, v1) -> bmeta_ok BLOBFS_NAME_MAX m.
Proof.
  intros Hb. pose proof (META_LEN_bounds BLOBFS_NAME_MAX). pose proof META_V1_bounds. unfold meta_decode. destruct (len mb =? 0); [done|].
  assert (forall n off, 0 <= off -> 0 <= n -> off + n <= len mb -> 0 <= rd n off mb < 256 ^ n) as Hr by (intros; by apply rd_range). pose proof (fun off => byte_at_ok off mb Hb) as Hby.
  assert (forall off, 0 <= off -> off + (BLOBFS_NAME_MAX + 1) <= len mb -> len (slice off (BLOBFS_NAME_MAX + 1) mb) = BLOBFS_NAME_MAX + 1 /\ bytes_ok (slice off (BLOBFS_NAME_MAX + 1) mb)) as Hsl by (intros; split; [apply len_slice; lia|by apply bytes_ok_slice]).
  unfold bmeta_ok. change (2 ^ 32) with (256 ^ 4). change (2 ^ 64) with (256 ^ 8). destruct (_ && (bm_version _ =? _)) eqn:E1; [|destruct (_ && (b1_version _ =? _)) eqn:E2; [|done]].
  - intros [= <- _]. cbn [dec_bmeta bm_magic bm_version bm_rename_in_flight bm_from_len bm_to_len bm_dir_root bm_rename_body bm_from_dir bm_to_dir bm_from bm_to].
    assert (len mb = META_LEN) by lia. split_and!; first [apply Hby|apply Hr; lia|apply Hsl; lia].
  - intros [= <- _]. cbn [dec_bmeta_v1 bm_magic bm_version bm_rename_in_flight bm_from_len bm_to_len bm_dir_root bm_rename_body bm_from_dir bm_to_dir bm_from bm_to
      b1_magic b1_version b1_rename_in_flight b1_from_len b1_to_len b1_dir_root b1_rename_body b1_from b1_to].
    assert (len mb = META_V1_LEN BLOBFS_NAME_MAX) by lia. unfold BLOBFS_MAGIC, BLOBFS_META_VERSION. split_and!; first [done|apply Hby|apply Hr; lia|apply Hsl; lia|unfold byte_ok; lia].
Qed.

Lemma upgrade_spec n nx o reg mb trees f s : khold n nx o (fs_kv s) -> fsys o reg mb trees f -> ready f s ->
  wp (meta_upgrade BLOBFS_NAME_MAX) s (fun r s' => live n nx o (fs_files f) f s' /\ (r = Ok tt \/ exists e, refused (D := D) e /\ r = Err e)).
Proof.
  intros Hh F Hrd. pose proof Hrd as (_ & Em & _). destruct (fy_meta F) as (m & v1 & Ed & _ & Ht). destruct (fsys_meta Hmax Hname F) as [Eo _]. pose proof (obs_wf_lookup _ _ _ _ _ (khold_wf _ _ _ _ Hh) Eo) as (_ & Hb & _).
  unfold meta_upgrade, st_get. do 2 wp_step. destruct (bs_meta_v1 (fs_st s)); cbn [negb]; [|wp_step; split; [|by left]; split; [by eapply moved_here|done]].
  wp_step. rewrite Em. wp_use (meta_read_spec Hmax Hname n nx s Hh F). intros r s1 (Hh1 & E1 & Hr). rewrite Ed in Hr.
  destruct Hr as [->|(e & He & ->)]; [|split; [split; [by eapply moved_here|by eapply fs_ready_st]|right; exists e; split; [by apply fault_refused|done]]].
  assert (set_intent (fs_intent f) f = f) as Ef by by destruct f. pose proof (decode_ok mb m v1 Hb Ed) as Hok.
  wp_use (meta_write_spec Hsteady Hmax Hname Hmeta n nx m (fs_intent f) s1 Hh1 F); [by rewrite E1|done|by apply says_enc|rewrite Ef; apply (fy_wf F)|].
  rewrite Ef. intros r s2 [(-> & E2 & Hmv)|(e & He & -> & E2 & Hmv)].
  - split; [split; [done|]|by left]. apply (ready_v1 s); [done|right]. by rewrite E2, E1.
  - split; [split; [done|]|right; eauto]. apply (fs_ready_st s); [done|congruence].
Qed.

Lemma del_set_dir id f : fs_dirs f !! id = None -> del_dir id (set_dir_of id ∅ f) = f.
Proof. intros E. unfold del_dir, set_dir_of. cbn. rewrite delete_insert_id by done. by destruct f. Qed.

Lemma fsys_frame nx o o' reg mb trees f : obs_wf MAX_PAYLOAD nx o -> fsys o reg mb trees f -> (forall i, i < nx -> o' !! i = o !! i) -> fsys o' reg mb trees f.
Proof.
  intros Hw F Hf. pose proof (fy_stored F) as Hs. destruct F as [Hr Hk _ Hm Hd W]. split; try done.
  - eapply registry_keep; [done|]. apply Hf. pose proof (proj1 Hw). unfold BLOB_ROOT. lia.
  - eapply stored_frame; [|exact Hs]. intros i Hi. apply Hf. destruct (stored_bound _ _ _ _ _ Hw Hs Hi). lia.
Qed.

Lemma make_error_bad e : make_error (D := D) BLOBFS_NAME_MAX e -> refused (D := D) e \/ e = ENOSPC \/ derive_geometry (D := D) (dir_config BLOBFS_NAME_MAX) = Err e.
Proof. intros [[?|[-> _]]|?]; auto. Qed.

(** A directory made under the id just handed out, and named; taken back when it
    cannot be. *)
Lemma mkdir_end n nx o reg mb trees f s p w : khold (dir_cost (D := D) + (3 + n)) (nx + 1) o (fs_kv s) -> fsys o reg mb trees f -> ready f s -> nx ∉ (fshelf mb trees (fs_files f)).*1 -> 0 < nx -> nx <> BLOB_ROOT ->
  bytes_ok p -> afree BLOBFS_NAME_MAX root f p = (Ok tt, w) ->
  wp (dir_create BLOBFS_NAME_MAX nx;;;
      let* rc := mtry (dir_set (w_dir w) (w_name w) (new_dirent BLOBFS_TYPE_DIR nx)) in
      match rc with
      | Ok _ => mret tt
      | Err e => mtry (on_kv (mo_destroy dir_ops nx));;; mfail e
      end) s (fun r s' => exists f', live n nx o (fs_files f) f' s' /\ makes (fun id => nx <= id) f p r f').
Proof.
  intros Hh F Hrd Hni Hid Hne Hp Hfree. pose proof (khold_wf _ _ _ _ Hh) as Hw. pose proof (fsys_unused _ _ _ _ _ _ F Hni) as Hu. pose proof (fy_wf F) as W.
  assert (forall r f', makes (fun id => nx <= id) f p r f' <-> binds (fun id => nx <= id) (fun e => e = ENOSPC \/ derive_geometry (D := D) (dir_config BLOBFS_NAME_MAX) = Err e) f (fun id => set_entry (w_dir w) (w_name w) (new_dirent BLOBFS_TYPE_DIR id) (set_dir_of id ∅ f)) r f') as Hmk by (intros; unfold makes; by rewrite Hfree).
  apply afree_ok in Hfree as (Ew & Ea & En). destruct (awalk_where p w W Ew) as [Hd _]. pose proof (awalk_name p w Hp Ew Ea) as Hn.
  wp_step. wp_use (dir_create_objs BLOBFS_NAME_MAX Hmax Hsteady (3 + n) (nx + 1) o s nx Hh); [lia|done|]. intros r s1 (E1 & nx1 & o1 & Hh1 & Hle & Hr).
  destruct r as [[]|e].
  2: { destruct Hr as [Hf He]. exists f. split; [split; [|by eapply fs_ready_st]|apply Hmk; right; exists e; split; [by apply make_error_bad|done]].
       exists nx1, o1, reg, mb, trees. split; [lia|]. split; [apply tracks_frame; intros i Hi; apply Hf; lia|]. split; [eapply khold_le; [|exact Hh1]; lia|by eapply fsys_frame]. }
  destruct Hr as (t & Hok & Hst & Hids & Hf). assert (forall i, i ∈ (tree_objs t).*1 -> i = nx \/ nx + 1 <= i) as Hids' by done.
  pose proof (fsys_new_dir (nx + 1) o o1 reg mb trees f nx t Hw F Hni Hne Hok Hst Hids' Hf) as F1. assert (tracks nx o (fs_files f) o1 (fs_files f)) as Hq by (apply tracks_frame; intros i Hi; apply Hf; lia).
  pose proof (proj1 Hw) as Hnx. pose proof (new_dirent_ok BLOBFS_TYPE_DIR nx ltac:(by right) ltac:(lia)) as Hde.
  assert (fs_wf (set_entry (w_dir w) (w_name w) (new_dirent BLOBFS_TYPE_DIR nx) (set_dir_of nx ∅ f))) as W1.
  { eapply (wf_bind_new _ _ _ _ f); try done; [apply (fy_wf F1)|by destruct Hu|intros d' n' de; rewrite entry_set_dir; by case_decide|]. split; [done|]. intros _. cbn. rewrite lookup_insert_eq. split; [by eexists|].
    intros Er. rewrite <- Er in W. destruct (wf_root _ _ _ W) as [? E]. destruct Hu as [E' _ _ _]. congruence. }
  do 2 wp_step. assert (is_Some (fs_dirs (set_dir_of nx ∅ f) !! w_dir w)) as Hd1 by (cbn; apply lookup_insert_is_Some'; by right).
  wp_use (dir_set_spec Hmax Hsteady Hname n nx1 (w_dir w) (w_name w) (new_dirent BLOBFS_TYPE_DIR nx) s1 Hh1 F1 Hd1 Hn Hde W1). intros r s2 (E2 & Hr).
  destruct Hr as [[-> Hmv]|(e & He & -> & Hmv)].
  - wp_step. eexists. split; [split; [apply (moved_trans (o := o) n n nx nx1 _ s2 Hmv); [lia|done|lia]|]|apply Hmk; left; exists nx; split; [lia|done]].
    apply (ready_of (f := f)); [apply (fs_ready_st s); [done|congruence]|by left].
  - destruct Hmv as (nx2 & o2 & reg2 & mb2 & trees2 & Hle2 & Hq2 & Hh2 & F2). do 2 wp_step. assert (fs_dirs f !! nx = None) as Efd by apply Hu.
    wp_use (drop_dir n nx2 o2 reg2 mb2 trees2 _ nx ∅ s2 Hh2 F2); [apply lookup_insert_eq|by rewrite del_set_dir|]. rewrite del_set_dir by done. intros r s3 (E3 & Hmv). wp_step. exists f. split; [split|].
    + apply (moved_trans (o := o) n n nx nx2 o2 s3 Hmv); [lia|by apply (tracks_trans nx nx1 o (fs_files f) o1 (fs_files f)); [lia|..]|lia].
    + apply (fs_ready_st s); [done|congruence].
    + apply Hmk. right. exists e. unfold set_refused in He. tauto.
Qed.

Lemma mkdir_spec n nx o reg mb trees f s p : khold (S (dir_cost (D := D) + (3 + n))) nx o (fs_kv s) -> fsys o reg mb trees f -> ready f s -> bytes_ok p ->
  wp (blobfs_mkdir BLOBFS_NAME_MAX (Some p)) s (fun r s' => exists f', live n nx o (fs_files f) f' s' /\ makes (fun id => nx <= id) f p r f').
Proof.
  intros Hh F Hrd Hp. assert (forall k r s' nx1 o1, (n <= k)%nat -> live k nx1 o1 (fs_files f) f s' -> nx <= nx1 -> tracks nx o (fs_files f) o1 (fs_files f) -> makes (fun id => nx <= id) f p r f -> exists f', live n nx o (fs_files f) f' s' /\ makes (fun id => nx <= id) f p r f') as Hsame.
  { intros k r s' nx1 o1 Hle [Hmv Hr] Hnx Hq Hm. exists f. split; [split; [by eapply moved_trans|done]|done]. }
  unfold blobfs_mkdir. wp_step. wp_use (free_spec Hmax Hname _ nx s p Hh F Hrd). intros r s1 (Hh1 & E1 & rc & w & -> & Hrc). pose proof (fs_ready_st s s1 Hrd E1) as Hrd1. wp_step. unfold wp at 1, mlift.
  assert (forall k s' , khold k nx o (fs_kv s') -> fs_st s' = fs_st s -> live k nx o (fs_files f) f s') as Hlive by (intros k s' Hh' Est; split; [by eapply moved_here|by apply (fs_ready_st s)]).
  assert (forall x, makes (fun id => nx <= id) f p (Err x) f -> rc = Err x -> exists f', live n nx o (fs_files f) f' s1 /\ makes (fun id => nx <= id) f p (Err x) f') as Herr.
  { intros x Hm _. eapply (Hsame _ _ s1 nx o); [|by apply (Hlive _ s1 Hh1 E1)|lia|apply tracks_refl|done]. lia. }
  destruct Hrc as [Hrc|(e & He & ->)]; [|by apply Herr; [apply makes_refused, fault_refused|]]. symmetry in Hrc.
  destruct rc as [[]|e]; [|apply Herr; [unfold makes; rewrite Hrc; by left|done]]. clear Herr.
  wp_step. wp_use (upgrade_spec _ nx o reg mb trees f s1 Hh1 F Hrd1). intros r s2 (Hl2 & Hr). destruct Hr as [->|(e & He & ->)]; [|eapply Hsame; [|exact Hl2|lia|apply tracks_refl|by apply makes_refused]; lia].
  destruct Hl2 as [(nx2 & o2 & reg2 & mb2 & trees2 & Hle2 & Hq2 & Hh2 & F2) Hrd2]. wp_step. wp_use (blob_new _ nx2 s2 Hh2). intros r s3 (E3 & [[-> Hh3]|(-> & He & nx3 & Hle & Hh3)]).
  2: { cbn [Z.eqb]. wp_step. eapply (Hsame _ _ s3 nx3 o2); [|split; [by eapply moved_here|by apply (fs_ready_st s2)]|lia|done|by apply makes_refused]. lia. }
  destruct (new_body _ _ _ _ _ _ _ _ Hh2 F2) as (Hni & _ & Hid & Hne). destruct (Z.eqb_spec nx2 0); [lia|].
  eapply wp_mono; [apply (mkdir_end n nx2 o2 reg2 mb2 trees2 f s3 p w Hh3 F2); try done; [by apply (fs_ready_st s2)|lia]|]. cbv beta. intros r s4 (f' & [Hmv Hrd4] & Hm). exists f'. split.
  - split; [|done]. by apply (moved_trans (o := o) n n nx nx2 o2 s4 Hmv).
  - unfold makes in *. rewrite Hrc in *. unfold binds in *. destruct Hm as [(id & Hid' & ? & ?)|?]; [left; exists id; split; [lia|done]|by right].
Qed.
End blobfs_steps.

Arguments fsys_dir_id {H D Blobs0 MAX_ROOTS BLOBFS_NAME_MAX meta root} Hmax Hname {o reg mb trees f} d _ _.
Arguments fsys_file_id {H D Blobs0 MAX_ROOTS BLOBFS_NAME_MAX meta root o reg mb trees f} id _ _.
Arguments fsys_unused {H D Blobs0 MAX_ROOTS BLOBFS_NAME_MAX meta root} Hmax Hname {o reg mb trees f} id _ _.
Arguments fsys_fresh {H D Blobs0 L MAX_ROOTS BLOBFS_NAME_MAX meta root} Hmax Hname n nx {o reg mb trees f} id s _ _ _.
Arguments fsys_new_dir {H D Blobs0 MAX_ROOTS BLOBFS_NAME_MAX meta root} Hmax Hname nx {o} o' {reg mb trees f} id t _ _ _ _ _ _ _ _.
Arguments drop_dir {H D Blobs0 L MAX_ROOTS BLOBFS_NAME_MAX meta root} Hmax Hname n nx {o reg mb trees f} d {es} s _ _ _ _.
Arguments known_file {H D Blobs0 L MAX_ROOTS BLOBFS_NAME_MAX meta root} Hmax Hname n nx {o reg mb trees f} id s _ _ _.
Arguments known_range {D Blobs0 L} n nx {o f} id s _ _.
Arguments size_id_spec {D Blobs0 L} n nx {o f} id s _ _.
Arguments read_id_spec {D Blobs0 L} n nx {o f} id off k s _ _ _ _.
Arguments write_id_spec {H D Blobs0 L MAX_ROOTS BLOBFS_NAME_MAX meta root} Hmax Hsteady n nx {o reg mb trees f} id off b s _ _ _ _ _.
Arguments truncate_id_spec {H D Blobs0 L MAX_ROOTS BLOBFS_NAME_MAX meta root} Hmax Hsteady n nx {o reg mb trees f} id size s _ _ _ _.
Arguments lands_same {H D Blobs0 L MAX_ROOTS BLOBFS_NAME_MAX meta root A} n nx {o reg mb trees f} s want r s' _ _.
Arguments same_then {D Blobs0 L A B} n nx {o} s m k want Q _ _ _.
Arguments aresolve_ok {BLOBFS_NAME_MAX root f} p de w _.
Arguments lookup_file {BLOBFS_NAME_MAX root f} p id _ _.
Arguments path_lookup_spec {H D Blobs0 L MAX_ROOTS BLOBFS_NAME_MAX meta root} Hmax Hname n nx {o reg mb trees f} s p _ _ _.
Arguments path_stat_spec {H D Blobs0 L MAX_ROOTS BLOBFS_NAME_MAX meta root} Hmax Hname n nx {o reg mb trees f} s p _ _ _.
Arguments stat_of_spec {H D Blobs0 L MAX_ROOTS BLOBFS_NAME_MAX meta root} Hmax Hname n nx {o reg mb trees f} d nm de s _ _ _.
Arguments read_spec {H D Blobs0 L MAX_ROOTS BLOBFS_NAME_MAX meta root} Hmax Hname n nx {o reg mb trees f} s p off k _ _ _ _ _.
Arguments write_spec {H D Blobs0 L MAX_ROOTS BLOBFS_NAME_MAX meta root} Hmax Hsteady Hname n nx {o reg mb trees f} s p off b _ _ _ _ _.
Arguments truncate_spec {H D Blobs0 L MAX_ROOTS BLOBFS_NAME_MAX meta root} Hmax Hsteady Hname n nx {o reg mb trees f} s p size _ _ _ _.
Arguments fault_not_dir {D Blobs0 L} e w _.
Arguments create_file_spec {H D Blobs0 L MAX_ROOTS BLOBFS_NAME_MAX meta root} Hmax Hsteady Hname n nx {o reg mb trees f} s p _ _ _ _.
Arguments mkdir_spec {H D Blobs0 L MAX_ROOTS BLOBFS_NAME_MAX meta root} Hmax Hsteady Hname Hmeta n nx {o reg mb trees f} s p _ _ _ _.
Arguments upgrade_spec {H D Blobs0 L MAX_ROOTS BLOBFS_NAME_MAX meta root} Hmax Hsteady Hname Hmeta n nx {o reg mb trees f} s _ _ _.
Arguments fsys_frame {H D Blobs0 MAX_ROOTS BLOBFS_NAME_MAX meta root} nx {o} o' {reg mb trees f} _ _ _.
Arguments entry_known {H D Blobs0 L MAX_ROOTS BLOBFS_NAME_MAX meta root} Hmax Hname n nx {o reg mb trees f} d nm de s _ _ _ _.
