(* ===== verification/BlobfsTree.v ===== *)
(** Removing, renaming and listing in a file system. *)

From S2P Require Import BlobIface Prelude Layout Records RootReg RootRegSpec.
From S2P Require Import KvHash KvHashRep KvHashRead KvHashOps KvHashSet KvHashCreate KvHashWalk KvHashDestroy KvHashRuns Kvdb KvdbSpec Blobfs BlobfsSpec BlobfsOps BlobfsMeta BlobfsSteps.

Section blobfs_tree.
Context `{Crc} {D : Type} `{!Blobs D} {CL : CrcLaws _} {L : BlobLaws D} (MAX_ROOTS BLOBFS_NAME_MAX meta root : Z).
Notation MAX_PAYLOAD := (blob_max (D := D)).
Notation kvh := (kvh (D := D)).
Notation bfs := (bfs (D := D)).
Notation META_LEN := (META_LEN BLOBFS_NAME_MAX).
Notation fs_wf := (fs_wf BLOBFS_NAME_MAX root).
Notation entry_name := (entry_name BLOBFS_NAME_MAX).
Notation fsys := (fsys (D := D) MAX_ROOTS BLOBFS_NAME_MAX meta root).
Notation moved := (moved MAX_ROOTS BLOBFS_NAME_MAX meta root).
Notation live := (live MAX_ROOTS BLOBFS_NAME_MAX meta root).
Notation ready := (ready meta root).
Notation outcome := (outcome (D := D)).
Notation recovered := (recovered (D := D)).
Implicit Types (s : bfs) (o : objs) (f : fs) (trees : gmap Z kvtree) (reg : gmap Z Z).
Context (Hmax : 72 <= MAX_PAYLOAD <= ENT_LEN_MASK) (Hsteady : ~ tears (D := D)) (Hname : 1 <= BLOBFS_NAME_MAX <= 255) (Hmeta : META_LEN <= MAX_PAYLOAD).
#[local] Definition Hmax24 : 24 <= MAX_PAYLOAD <= ENT_LEN_MASK := ltac:(lia).

(** ** Empty directories *)

Lemma tree_map_elem t k v : tree_ok (D := D) t -> tree_map t !! k = Some v <-> exists x, x ∈ tree_ents t /\ k_key x = k /\ k_val x = v.
Proof.
  intros Ht. unfold tree_map. rewrite <- elem_of_list_to_map by (rewrite <- list_fmap_compose; by apply tree_keys). rewrite list_elem_of_fmap. split.
  - intros (x & [= -> ->] & Hx). by exists x.
  - intros (x & Hx & <- & <-). by exists x.
Qed.

Lemma dir_names d t es x : dir_ok (D := D) d t es -> x ∈ tree_ents t -> exists de, es !! k_key x = Some de /\ k_val x = enc_dirent de.
Proof.
  intros (_ & Ht & Hm) Hx. assert (tree_map t !! k_key x = Some (k_val x)) as E by (apply tree_map_elem; eauto). rewrite Hm, lookup_fmap in E.
  destruct (es !! k_key x) as [de|]; [|done]. injection E as E. by exists de.
Qed.

Lemma dir_entry d t es nm de : dir_ok (D := D) d t es -> es !! nm = Some de -> exists x, x ∈ tree_ents t /\ k_key x = nm /\ k_val x = enc_dirent de.
Proof. intros (_ & Ht & Hm) E. apply tree_map_elem; [done|]. by rewrite Hm, lookup_fmap, E. Qed.

Lemma is_empty_spec n nx o reg mb trees f d es s : khold n nx o (fs_kv s) -> fsys o reg mb trees f -> fs_dirs f !! d = Some es -> wp (dir_is_empty d) s (same n nx o s (Ok (bool_decide (es = ∅)))).
Proof.
  intros Hh F E. destruct (fsys_dir Hmax Hname d F E) as (t & _ & Hok & Hs). pose proof Hok as (Hr & Ht & _). unfold dir_is_empty. do 2 wp_step. apply wp_on_kv. cbn [mo_next dir_ops kvhash_map_ops]. rewrite <- Hr.
  wp_use (kv_next_spec Hmax24 n nx o (fs_kv s) t None 0 0 Hh Ht Hs). intros r k [Hh' Hrep]. cbn [default] in Hrep. change (len [] >? 65535) with false in Hrep. destruct Hrep as [(x & Hl & ->)|(e & He & ->)].
  - destruct x as [x|]; cbn [next_reply least walk_cursor] in *.
    + destruct Hl as (Hx & _). destruct (tree_ent_stored o t x Ht Hs Hx) as [Hko _]. pose proof (ko_key _ Hko). destruct (Z.gtb_spec (len (k_key x)) 0); [|lia]. cbn [orb].
      rewrite bool_decide_eq_false_2; [by apply wp_ret, same_refl|]. intros ->. by destruct (dir_names _ _ _ _ Hok Hx) as (? & ? & _).
    + rewrite bool_decide_eq_true_2; [by apply wp_ret, same_refl|]. apply map_eq. intros nm. rewrite lookup_empty. destruct (es !! nm) as [de|] eqn:En; [|done].
      destruct (dir_entry _ _ _ _ _ Hok En) as (x & Hx & _). by destruct (Hl x Hx).
  - pose proof (fault_plain e He) as (_ & Hne1 & Hne2 & _ & _ & _ & Hne3 & _). replace (match e with ENOENT => _ | _ => _ end) with (mfail (S := bfs) (A := bool) e) by by destruct e.
    apply wp_fail. split; [done|]. split; [done|right; eauto].
Qed.

(** ** Unlink *)

Definition empty_dir f (d : Z) : bool := match fs_dirs f !! d with Some es => bool_decide (es = ∅) | None => true end.
Definition is_dir (de : blobfs_dirent) : bool := de_type de =? BLOBFS_TYPE_DIR.
Definition drop_body (de : blobfs_dirent) f : fs := if is_dir de then del_dir (de_body_id de) f else del_file (de_body_id de) f.

(** A body that cannot be deleted stays, without a name. *)
Definition unlinks f p (r : res unit) f' : Prop :=
  (exists e, r = Err e /\ recovered f (Err e) f') \/
  (let f := settled f in
   match aresolve BLOBFS_NAME_MAX root f p with
   | (Err e, w) => outcome f (Err (if bool_decide (e = EISDIR) && at_root w then EBUSY else e), f) r f'
   | (Ok de, w) =>
       let gone := del_entry (w_dir w) (w_name w) f in
       if is_dir de && negb (empty_dir f (de_body_id de)) then outcome f (Err ENOTEMPTY, f) r f'
       else outcome f (Ok tt, drop_body de gone) r f' \/ (is_dir de = false /\ r = Ok tt /\ f' = gone /\ exists e, refused (D := D) e)
   end).

Lemma unnamed_after f d nm de : fs_wf f -> fs_intent f = None -> entry_at f d nm = Some de -> unnamed (del_entry d nm f) (de_body_id de).
Proof.
  intros W Ei E d' n' de' E' Eb. rewrite entry_del_entry in E'. case_decide as Ec; [done|]. destruct (wf_uniq _ _ _ W _ _ _ _ _ _ E' E Eb) as [[-> ->]|(i & Ei' & _)]; [by destruct Ec|congruence].
Qed.

Lemma delete_body_spec n nx o reg mb trees f id s : khold n nx o (fs_kv s) -> fsys o reg mb trees f -> unnamed f id -> is_Some (fs_files f !! id) ->
  wp (on_blob (blob_delete id)) s (fun r s' => fs_st s' = fs_st s /\ (moved n nx o (fs_files f) (del_file id f) s' \/ (moved n nx o (fs_files f) f s' /\ exists e, refused (D := D) e))).
Proof.
  intros Hh F Hun [b E]. destruct (fsys_file Hmax Hname id b F E) as [Eo Hne]. pose proof (khold_wf _ _ _ _ Hh) as Hw. destruct (obs_wf_lookup _ _ _ _ _ Hw Eo) as (Hid & _). pose proof (proj1 Hw).
  eapply wp_mono; [apply (blob_effect Hsteady n nx (delete id o) s _ Hh)|].
  - eapply wp_mono; [apply (delete_law n _ nx o id); [apply Hh|lia|done]|]. cbv beta. intros r d. by rewrite Eo.
  - cbv beta. intros r s' (Est & [[-> Hh']|(e & He & -> & Hh')]); (split; [done|]).
    + left. exists nx, (delete id o), reg, mb, trees. split; [lia|]. split; [apply tracks_del|]. split; [done|]. by apply (fsys_del_file Hmax Hname (delete id o) id F Hun); [rewrite E; eexists|right].
    + right. split; [by eapply moved_here|eauto].
Qed.

(** The release of what a dropped name led to. *)
Lemma release_spec n nx o reg mb trees f f0 d nm de s : khold n nx o (fs_kv s) -> fsys o reg mb trees f -> fs_wf f0 -> fs_intent f0 = None -> entry_at f0 d nm = Some de -> f = del_entry d nm f0 ->
  wp ((if de_type de =? BLOBFS_TYPE_DIR then mtry (on_kv (mo_destroy dir_ops (de_body_id de))) else mtry (on_blob (blob_delete (de_body_id de))));;; mret tt) s
    (fun r s' => r = Ok tt /\ fs_st s' = fs_st s /\ (moved n nx o (fs_files f) (drop_body de f) s' \/ (is_dir de = false /\ moved n nx o (fs_files f) f s' /\ exists e, refused (D := D) e))).
Proof.
  intros Hh F W Ei E ->. pose proof (unnamed_after f0 d nm de W Ei E) as Hun. destruct (wf_entry _ _ _ W _ _ _ E) as ((Ht & _) & _ & [Hf Hd]). unfold drop_body, is_dir. wp_step.
  destruct (Z.eqb_spec (de_type de) BLOBFS_TYPE_DIR) as [Et|Et].
  - destruct (Hd Et) as [[es Ed] Hne]. wp_step. destruct (proj2 (dirs_alter_some (delete nm) d f0 (de_body_id de)) ltac:(by rewrite Ed)) as [es' Ed'].
    wp_use (drop_dir Hmax Hname n nx (de_body_id de) s Hh F Ed'); [apply wf_del_dir; [apply (fy_wf F)|done|done|cbn; rewrite Ei; by intros i [=]]|].
    intros r s' (Est & Hmv). apply wp_ret. split; [done|]. split; [done|by left].
  - wp_step. wp_use (delete_body_spec n nx o reg mb trees _ (de_body_id de) s Hh F Hun); [cbn; apply Hf; by destruct Ht|].
    intros r s' (Est & Hmv). apply wp_ret. split; [done|]. split; [done|]. destruct Hmv as [?|?]; [by left|by right].
Qed.

(** *** After a recovery *)

Lemma live_le n k nx o fl f s : live k nx o fl f s -> (n <= k)%nat -> live n nx o fl f s.
Proof. intros [Hmv Hr] Hn. split; [by apply (moved_le k)|done]. Qed.

Lemma live_same n k nx nx1 o fl o1 reg mb trees f s s' : fsys o1 reg mb trees f -> ready f s -> khold k nx1 o1 (fs_kv s') -> fs_st s' = fs_st s -> nx <= nx1 -> tracks nx o fl o1 (fs_files f) -> (n <= k)%nat -> live n nx o fl f s'.
Proof. intros F Hr Hh Est Hle Hq Hn. split; [|by apply (fs_ready_st s)]. exists nx1, o1, reg, mb, trees. split_and!; try done. by eapply khold_le. Qed.

Lemma settled_then {A} n nx o reg mb trees f s (k : M bfs A) (Q : res A -> bfs -> Prop) : khold (3 + n) nx o (fs_kv s) -> fsys o reg mb trees f -> ready f s ->
  (forall e s' f', live n nx o (fs_files f) f' s' -> recovered f (Err e) f' -> Q (Err e) s') ->
  (forall s' nx1 o1 reg1 mb1 trees1, nx <= nx1 -> tracks nx o (fs_files f) o1 (fs_files (settled f)) -> khold n nx1 o1 (fs_kv s') -> fsys o1 reg1 mb1 trees1 (settled f) -> ready (settled f) s' -> wp k s' Q) ->
  wp (intent_settle BLOBFS_NAME_MAX;;; k) s Q.
Proof.
  intros Hh F Hrd Hno Hk. wp_step. wp_use (settle_spec Hsteady Hmax Hname Hmeta n nx s Hh F Hrd). intros r s1 (f1 & Hl & Hrec). destruct r as [[]|e]; [|by eapply Hno].
  assert (f1 = settled f) as -> by by inversion Hrec. destruct Hl as [(nx1 & o1 & reg1 & mb1 & trees1 & Hle & Hq & Hh1 & F1) Hrd1]. by eapply Hk.
Qed.

Lemma settled_intent f : fs_intent (settled f) = None.
Proof. done. Qed.

Lemma unlink_spec n nx o reg mb trees f s p : khold (3 + (3 + n)) nx o (fs_kv s) -> fsys o reg mb trees f -> ready f s ->
  wp (blobfs_unlink BLOBFS_NAME_MAX (Some p)) s (fun r s' => exists f', live n nx o (fs_files f) f' s' /\ unlinks f p r f').
Proof.
  intros Hh F Hrd. unfold blobfs_unlink. apply (settled_then (3 + n) nx o reg mb trees f s); try done.
  { intros e s' f' Hl Hr. exists f'. split; [by apply (live_le n (3 + n)); [|lia]|left; eauto]. }
  intros s1 nx1 o1 reg1 mb1 trees1 Hle Hq Hh1 F1 Hrd1. set (f1 := settled f) in *.
  assert (forall r s' f', (exists k, (n <= k)%nat /\ moved k nx1 o1 (fs_files f1) f' s') -> fs_st s' = fs_st s1 -> fs_intent f' = None -> unlinks f p r f' -> exists f', live n nx o (fs_files f) f' s' /\ unlinks f p r f') as Hdone.
  { intros r s' f' (k & Hk & Hmv) Est Ei Hu. exists f'. split; [split; [by apply (moved_trans (o := o) k n nx nx1 o1 s' Hmv)|]|done]. apply (ready_of (f := f1)); [by apply (fs_ready_st s1)|by right]. }
  assert (forall k s', khold k nx1 o1 (fs_kv s') -> (n <= k)%nat -> exists k, (n <= k)%nat /\ moved k nx1 o1 (fs_files f1) f1 s') as Hhere by (intros k s' Hh' Hk; exists k; split; [done|by eapply moved_here]).
  wp_step. wp_use (resolve_spec Hmax Hname (3 + n) nx1 s1 p Hh1 F1 Hrd1). intros r s2 (Hh2 & E2 & rc & w & -> & Hrc).
  assert (forall e s', refused (D := D) e -> khold (3 + n) nx1 o1 (fs_kv s') -> fs_st s' = fs_st s1 -> exists f', live n nx o (fs_files f) f' s' /\ unlinks f p (Err e) f') as Href.
  { intros e s' He Hh' Est. apply (Hdone (Err e) s' f1); [by apply (Hhere (3 + n)%nat); [|lia]|done|done|]. right. fold f1. cbv zeta. destruct (aresolve _ _ _ _) as [[de|e']]; [destruct (_ && _); [by apply outcome_refused|left; by apply outcome_refused]|by apply outcome_refused]. }
  destruct Hrc as [Hrc|(e & He & ->)]; [|rewrite fault_not_dir by done; wp_step; by apply Href; [apply fault_refused|..]]. symmetry in Hrc.
  assert (forall r f', unlinks f p r f' <-> (exists e, r = Err e /\ recovered f (Err e) f') \/ match rc with
    | Err e => outcome f1 (Err (if bool_decide (e = EISDIR) && at_root w then EBUSY else e), f1) r f'
    | Ok de => if is_dir de && negb (empty_dir f1 (de_body_id de)) then outcome f1 (Err ENOTEMPTY, f1) r f'
       else outcome f1 (Ok tt, drop_body de (del_entry (w_dir w) (w_name w) f1)) r f' \/ (is_dir de = false /\ r = Ok tt /\ f' = del_entry (w_dir w) (w_name w) f1 /\ exists e, refused (D := D) e) end) as Hun.
  { intros r f'. unfold unlinks. fold f1. cbv zeta. rewrite Hrc. by destruct rc. }
  destruct rc as [de|e]; [|destruct (_ && _); wp_step; (apply (Hdone _ s2 f1); [by apply (Hhere (3 + n)%nat); [|lia]|done|done|apply Hun; right; by left])].
  apply aresolve_ok in Hrc as (_ & _ & E). pose proof (fy_wf F1) as W1. destruct (wf_entry _ _ _ W1 _ _ _ E) as (_ & _ & [_ Hd]).
  assert (forall s3, khold (3 + n) nx1 o1 (fs_kv s3) -> fs_st s3 = fs_st s1 -> is_dir de && negb (empty_dir f1 (de_body_id de)) = false ->
    wp (dir_del (w_dir w) (w_name w);;; (if de_type de =? BLOBFS_TYPE_DIR then mtry (on_kv (mo_destroy dir_ops (de_body_id de))) else mtry (on_blob (blob_delete (de_body_id de))));;; mret tt) s3
      (fun r s' => exists f', live n nx o (fs_files f) f' s' /\ unlinks f p r f')) as Hgo.
  { intros s3 Hh3 E3 Hc. wp_step. wp_use (dir_del_spec Hmax Hsteady Hname n nx1 (w_dir w) (w_name w) s3 de Hh3 F1 E). intros r s4 (E4 & [[-> Hmv]|(e & He & -> & Hmv)]).
    2: { apply (Hdone (Err e) s4 f1); [by exists n|congruence|done|apply Hun; right; rewrite Hc; left; by apply outcome_refused]. }
    destruct Hmv as (nx4 & o4 & reg4 & mb4 & trees4 & Hle4 & Hq4 & Hh4 & F4). eapply wp_mono; [by apply (release_spec n nx4 o4 reg4 mb4 trees4 _ f1 (w_dir w) (w_name w) de s4 Hh4 F4)|]. cbv beta.
    intros r s5 (-> & E5 & [Hmv|(Hnd & Hmv & He)]); eapply Hdone; try (exists n; split; [done|]; by apply (moved_trans (o := o1) (fl := fs_files f1) n n nx1 nx4 o4 s5 Hmv)); try congruence.
    - unfold drop_body. by destruct (is_dir de).
    - apply Hun. right. rewrite Hc. left. by left.
    - done.
    - apply Hun. right. rewrite Hc. right. by split_and!. }
  destruct (de_type de =? BLOBFS_TYPE_DIR) eqn:Et.
  - destruct (Hd ltac:(lia)) as [[es Ed] _]. wp_step. wp_step. wp_use (is_empty_spec (3 + n) nx1 o1 reg1 mb1 trees1 f1 _ es s2 Hh2 F1 Ed). intros r s3 (Hh3 & E3 & [->|(e & He & ->)]); [|apply Href; [by apply fault_refused|done|congruence]].
    assert (empty_dir f1 (de_body_id de) = bool_decide (es = ∅)) as Eem by (unfold empty_dir; by rewrite Ed). unfold is_dir in *. rewrite Et, Eem in *.
    destruct (bool_decide (es = ∅)); cbn [andb negb] in *; wp_step; [apply Hgo; [done|congruence|done]|]. apply (Hdone _ s3 f1); [by apply (Hhere (3 + n)%nat); [|lia]|congruence|done|apply Hun; right; by left].
  - do 2 wp_step. apply Hgo; [done|done|unfold is_dir; by rewrite Et].
Qed.

(** ** Rename *)

(** Past its checks a rename ends with the new name only; or nothing is renamed;
    or its intent stays behind, with the old name, both, or the new one. *)
Inductive renaming f d nm nm' de : res unit -> fs -> Prop :=
  | ren_done : renaming f d nm nm' de (Ok tt) (del_entry d nm (set_entry d nm' de f))
  | ren_refused e : set_refused (D := D) e -> renaming f d nm nm' de (Err e) f
  | ren_noted e : set_refused (D := D) e -> renaming f d nm nm' de (Err e) (set_intent (Some (mk_intent d nm nm' (de_body_id de))) f)
  | ren_both e : refused (D := D) e -> renaming f d nm nm' de (Err e) (set_intent (Some (mk_intent d nm nm' (de_body_id de))) (set_entry d nm' de f))
  | ren_late e : refused (D := D) e -> renaming f d nm nm' de (Err e) (set_intent (Some (mk_intent d nm nm' (de_body_id de))) (del_entry d nm (set_entry d nm' de f))).

Definition renames f p q (r : res unit) f' : Prop :=
  (exists e, r = Err e /\ recovered f (Err e) f') \/
  (let f := settled f in
   match aresolve BLOBFS_NAME_MAX root f p with
   | (Err e, w) => outcome f (Err (if bool_decide (e = EISDIR) && at_root w then EBUSY else e), f) r f'
   | (Ok de, wf) =>
       match awalk BLOBFS_NAME_MAX root f q with
       | Err e => outcome f (Err e, f) r f'
       | Ok wt =>
           if at_root wt then outcome f (Err EBUSY, f) r f'
           else if w_want_dir wt && negb (is_dir de) then outcome f (Err ENOTDIR, f) r f'
           else if negb (w_dir wt =? w_dir wf) then outcome f (Err EXDEV, f) r f'
           else match entry_at f (w_dir wt) (w_name wt) with
                | Some _ => outcome f (Err EEXIST, f) r f'
                | None => renaming f (w_dir wf) (w_name wf) (w_name wt) de r f'
                end
       end
   end).

Lemma intent_end_spec n nx o reg mb trees f i s m : khold n nx o (fs_kv s) -> fsys o reg mb trees f -> ready f s -> tells root m i -> fs_wf (set_intent None f) ->
  wp (intent_end BLOBFS_NAME_MAX m) s (fun r s' => (r = Ok (Ok tt) /\ live n nx o (fs_files f) (set_intent None f) s') \/ (exists e, refused (D := D) e /\ r = Ok (Err e) /\ live n nx o (fs_files f) f s')).
Proof.
  intros Hh F Hrd Ht W. destruct (clear_ok Hname m i Ht (root_range Hmax Hname n nx s Hh F)) as [Hok Hsay]. unfold intent_end, st_mod. do 2 wp_step.
  wp_use (meta_write_spec Hsteady Hmax Hname Hmeta n nx (intent_clear BLOBFS_NAME_MAX m) None s Hh F); try done; [apply Hrd|]. intros r s1 [(-> & E1 & Hmv)|(e & He & -> & E1 & Hmv)].
  - do 3 wp_step. left. split; [done|]. split; [done|]. apply (ready_pending (f := set_intent None f) s1 false); [|done]. apply (ready_v1 s); [|by right]. apply (ready_of (f := f)); [done|by right].
  - do 3 wp_step. right. exists e. split; [done|]. split; [done|]. split; [done|by apply (fs_ready_st s)].
Qed.

Lemma ren_back i f : fs_intent f = None -> set_intent None (set_intent (Some i) f) = f.
Proof. intros Hi. unfold set_intent. cbn. rewrite <- Hi. by destruct f. Qed.

Lemma ren_end i d nm nm' de f : fs_intent f = None -> set_intent None (del_entry d nm (set_entry d nm' de (set_intent (Some i) f))) = del_entry d nm (set_entry d nm' de f).
Proof. intros Hi. unfold set_intent, del_entry, set_entry. cbn. by rewrite Hi. Qed.

Section renaming.
Context (f : fs) (d : Z) (nm nm' : bytes) (de : blobfs_dirent).
Context (W : fs_wf f) (Hi : fs_intent f = None) (E : entry_at f d nm = Some de) (E' : entry_at f d nm' = None) (Hn : entry_name nm').
Notation i := (mk_intent d nm nm' (de_body_id de)).

Lemma ren_ne : nm <> nm'.
Proof. intros ->. congruence. Qed.

Lemma ren_wf_noted : fs_wf (set_intent (Some i) f).
Proof. destruct (wf_entry _ _ _ W _ _ _ E) as (_ & H1 & _). apply wf_new_intent; try done; [by eapply entry_dirs|apply ren_ne]. Qed.

Lemma ren_wf_both : fs_wf (set_entry d nm' de (set_intent (Some i) f)).
Proof.
  destruct (wf_entry _ _ _ W _ _ _ E) as (H0 & H1 & H2). apply wf_set_entry; try done; [apply ren_wf_noted|].
  intros d1 n1 de1 E1 Eb. destruct (wf_uniq _ _ _ W _ _ _ _ _ _ E1 E Eb) as [[-> ->]|(j & Ej & _)]; [|congruence].
  split; exists i; (split_and!; [done..|]); [by right|by left].
Qed.

Lemma ren_wf_done : fs_wf (set_intent None (del_entry d nm (set_entry d nm' de (set_intent (Some i) f)))).
Proof.
  apply wf_no_intent; [apply wf_del_entry, ren_wf_both|]. intros j x y [= <-] Ex _ _ _. rewrite entry_del_entry, decide_True in Ex by done. done.
Qed.

End renaming.

Lemma rename_end n nx o reg mb trees f s wf wt de : khold (3 + (3 + n)) nx o (fs_kv s) -> fsys o reg mb trees f -> ready f s -> fs_intent f = None -> entry_at f (w_dir wf) (w_name wf) = Some de ->
  entry_name (w_name wt) -> w_dir wt = w_dir wf -> entry_at f (w_dir wt) (w_name wt) = None ->
  let m := intent_of BLOBFS_NAME_MAX root wf wt de in
  wp (meta_write BLOBFS_NAME_MAX m;;;
      st_mod (set_pending true);;;
      let* rc := mtry (dir_set (w_dir wt) (w_name wt) de) in
      match rc with
      | Err e => intent_end BLOBFS_NAME_MAX m;;; mfail e
      | Ok _ =>
          dir_del (w_dir wf) (w_name wf);;;
          let* rc := intent_end BLOBFS_NAME_MAX m in
          mlift rc
      end) s (fun r s' => exists f', live n nx o (fs_files f) f' s' /\ renaming f (w_dir wf) (w_name wf) (w_name wt) de r f').
Proof.
  intros Hh F Hrd Hi E Hn Ed E' m. rewrite Ed in *. set (d := w_dir wf) in *. set (nm := w_name wf) in *. set (nm' := w_name wt) in *. set (i := mk_intent d nm nm' (de_body_id de)).
  pose proof (fy_wf F) as W. pose proof (ren_wf_noted f d nm nm' de W Hi E E' Hn) as W1. pose proof (ren_wf_both f d nm nm' de W Hi E E' Hn) as W2. pose proof (ren_wf_done f d nm nm' de W Hi E E' Hn) as W3. fold i in W1, W2, W3.
  destruct (wf_entry _ _ _ W _ _ _ E) as (Hok & Hn0 & _). pose proof (entry_dirs _ _ _ _ E) as Hd. assert (0 <= d < 2 ^ 64) as Hdr.
  { destruct Hd as [es Ees]. destruct (fsys_dir Hmax Hname _ F Ees) as (t & _ & (Hr & _) & Hs). pose proof (khold_wf _ _ _ _ Hh) as Hw. destruct (stored_bound _ _ _ _ d Hw Hs) as [? _]; [rewrite <- Hr; apply tree_root_in|]. pose proof (proj1 Hw). lia. }
  destruct (intent_of_says Hname wf wt de Hn0 Hn Ed (root_range Hmax Hname _ nx s Hh F) Hdr Hok) as [Hmok Hsay]. fold m d nm nm' i in Hmok, Hsay.
  pose proof (says_enc Hname m (Some i) Hmok Hsay) as Hms. wp_step. wp_use (meta_write_spec Hsteady Hmax Hname Hmeta (3 + (3 + n)) nx m (Some i) s Hh F); try done; [apply Hrd|].
  intros r s1 [(-> & E1 & Hmv)|(e & He & -> & E1 & Hmv)]; [|exists f; split; [split; [by apply (moved_le (3 + (3 + n))); [|lia]|by apply (fs_ready_st s)]|apply ren_refused; by left]].
  destruct Hmv as (nx1 & o1 & reg1 & mb1 & trees1 & Hle1 & Hq1 & Hh1 & F1). unfold st_mod. do 2 wp_step. set (s2 := mk_bfs _ _).
  assert (ready (set_intent (Some i) f) s2) as Hrd2 by (destruct Hrd as (R1 & R2 & R3 & _); unfold BlobfsOps.ready; cbn; rewrite E1; by split_and!).
  do 2 wp_step. wp_use (dir_set_spec Hmax Hsteady Hname (3 + n) nx1 d nm' de s2 Hh1 F1 Hd Hn Hok W2). intros r s3 (E3 & [[-> Hmv]|(e & He & -> & Hmv)]);
    destruct Hmv as (nx3 & o3 & reg3 & mb3 & trees3 & Hle3 & Hq3 & Hh3 & F3); (assert (tracks nx o (fs_files f) o3 (fs_files f)) as Hq03 by (by apply (tracks_trans nx nx1 o _ o1 (fs_files f)); [lia|..])).
  2: { wp_step. wp_use (intent_end_spec (3 + n) nx3 o3 reg3 mb3 trees3 _ (Some i) s3 m Hh3 F3); [by apply (fs_ready_st s2)|done|by rewrite ren_back|]. rewrite ren_back by done. intros r s4 [(-> & [Hmv Hr])|(x & Hx & -> & [Hmv Hr])]; wp_step.
       - exists f. split; [split; [|done]|by apply ren_refused]. apply (moved_trans (o := o) (3 + n) n nx nx3 o3 s4 Hmv); [lia|done|lia].
       - exists (set_intent (Some i) f). split; [split; [|done]|by apply ren_noted]. apply (moved_trans (o := o) (3 + n) n nx nx3 o3 s4 Hmv); [lia|done|lia]. }
  wp_step. assert (entry_at (set_entry d nm' de (set_intent (Some i) f)) d nm = Some de) as E3'.
  { rewrite entry_set_entry, decide_False; [done|]. intros [_ Enm]. congruence. }
  wp_use (dir_del_spec Hmax Hsteady Hname n nx3 d nm s3 de Hh3 F3 E3'). intros r s4 (E4 & [[-> Hmv]|(e & He & -> & Hmv)]).
  2: { exists (set_intent (Some i) (set_entry d nm' de f)). split; [|by apply ren_both]. split; [apply (moved_trans (o := o) n n nx nx3 o3 s4 Hmv); [lia|done|lia]|]. apply (ready_of (f := set_intent (Some i) f)); [apply (fs_ready_st s2); [done|congruence]|by left]. }
  destruct Hmv as (nx4 & o4 & reg4 & mb4 & trees4 & Hle4 & Hq4 & Hh4 & F4). wp_step.
  wp_use (intent_end_spec n nx4 o4 reg4 mb4 trees4 _ (Some i) s4 m Hh4 F4); [apply (ready_of (f := set_intent (Some i) f)); [apply (fs_ready_st s2); [done|congruence]|by left]|done|done|].
  assert (tracks nx o (fs_files f) o4 (fs_files f)) as Hq04 by (by apply (tracks_trans nx nx3 o _ o3 (fs_files f)); [lia|..]). rewrite ren_end by done. intros r s5 [(-> & [Hmv Hr])|(e & He & -> & [Hmv Hr])]; unfold wp, mlift.
  - eexists. split; [split; [|exact Hr]|by apply ren_done]. apply (moved_trans (o := o) n n nx nx4 o4 s5 Hmv); [lia|done|lia].
  - eexists. split; [split; [|exact Hr]|by apply ren_late]. apply (moved_trans (o := o) n n nx nx4 o4 s5 Hmv); [lia|done|lia].
Qed.

Lemma rename_spec n nx o reg mb trees f s p q : khold (3 + (3 + (3 + n))) nx o (fs_kv s) -> fsys o reg mb trees f -> ready f s -> bytes_ok q ->
  wp (blobfs_rename BLOBFS_NAME_MAX (Some p) (Some q)) s (fun r s' => exists f', live n nx o (fs_files f) f' s' /\ renames f p q r f').
Proof.
  intros Hh F Hrd Hq. unfold blobfs_rename. apply (settled_then (3 + (3 + n)) nx o reg mb trees f s); try done.
  { intros e s' f' Hl Hr. exists f'. split; [by apply (live_le n (3 + (3 + n))); [|lia]|left; eauto]. }
  intros s1 nx1 o1 reg1 mb1 trees1 Hle Hqu Hh1 F1 Hrd1. set (f1 := settled f) in *.
  assert (forall k s', khold (3 + (3 + n)) nx1 o1 (fs_kv s') -> fs_st s' = fs_st s1 -> renames f p q k f1 -> exists f', live n nx o (fs_files f) f' s' /\ renames f p q k f') as Hsame.
  { intros k s' Hh' Est Hr. exists f1. split; [|done]. eapply (live_same n (3 + (3 + n)) nx nx1 o _ o1 _ _ _ f1 s1 s'); try done. lia. }
  assert (forall e, refused (D := D) e -> renames f p q (Err e) f1) as Href.
  { intros e He. right. fold f1. cbv zeta. destruct (aresolve _ _ _ _) as [[de|e'] wf]; [|by apply outcome_refused]. destruct (awalk _ _ _ _) as [wt|e']; [|by apply outcome_refused].
    destruct (at_root wt); [by apply outcome_refused|]. destruct (_ && _); [by apply outcome_refused|]. destruct (negb _); [by apply outcome_refused|]. destruct (entry_at _ _ _); [by apply outcome_refused|apply ren_refused; by left]. }
  wp_step. wp_use (resolve_spec Hmax Hname _ nx1 s1 p Hh1 F1 Hrd1). intros r s2 (Hh2 & E2 & rc & wf & -> & Hrc).
  destruct Hrc as [Hrc|(e & He & ->)]; [|rewrite fault_not_dir by done; wp_step; by apply Hsame; [..|apply Href, fault_refused]]. symmetry in Hrc.
  destruct rc as [de|e]; [|destruct (_ && _) eqn:Eb; wp_step; (apply Hsame; [done|done|right; fold f1; cbv zeta; rewrite Hrc, Eb; by left])].
  apply (same_then (o := o1) (3 + (3 + n)) nx1 s2 _ _ (awalk BLOBFS_NAME_MAX root f1 q)); [apply (path_walk_spec Hmax Hname _ nx1 s2 q Hh2 F1); by apply (fs_ready_st s1)| |intros e s' He Hh' Est; apply Hsame; [done|congruence|by apply Href, fault_refused]].
  intros s3 Hh3 E3. rewrite E2 in E3. destruct (awalk BLOBFS_NAME_MAX root f1 q) as [wt|e] eqn:Ew; [|apply Hsame; [done|done|right; fold f1; cbv zeta; rewrite Hrc, Ew; by left]].
  assert (forall x, (forall f', outcome f1 (Err x : res unit, f1) (Err x) f' -> renames f p q (Err x) f') -> wp (mfail (S := bfs) (A := unit) x) s3 (fun r s' => exists f', live n nx o (fs_files f) f' s' /\ renames f p q r f')) as Hfail.
  { intros x Hx. apply wp_fail, Hsame; [done|done|]. apply Hx. by left. }
  destruct (at_root wt) eqn:Ea; [apply Hfail; intros f' Ho; right; fold f1; cbv zeta; by rewrite Hrc, Ew, Ea|].
  change (de_type de =? BLOBFS_TYPE_DIR) with (is_dir de). destruct (w_want_dir wt && negb (is_dir de)) eqn:Ec; [apply Hfail; intros f' Ho; right; fold f1; cbv zeta; by rewrite Hrc, Ew, Ea, Ec|].
  destruct (negb (w_dir wt =? w_dir wf)) eqn:Ed; [apply Hfail; intros f' Ho; right; fold f1; cbv zeta; by rewrite Hrc, Ew, Ea, Ec, Ed|].
  destruct (awalk_where q wt (fy_wf F1) Ew) as [Hd _]. pose proof (awalk_name q wt Hq Ew Ea) as Hn. pose proof (entry_name_len _ _ Hn). do 2 wp_step.
  wp_use (dirent_get_spec Hmax Hname _ nx1 s3 (w_dir wt) (w_name wt) Hh3 F1 Hd); [lia|]. intros r s4 (Hh4 & E4 & [->|(e & He & ->)]); rewrite E3 in E4.
  2: { pose proof (fault_plain e He) as (_ & Hne & _). replace (match e with ENOENT => _ | _ => _ end) with (mfail (S := bfs) (A := unit) e) by by destruct e. wp_step. apply Hsame; [done|done|by apply Href, fault_refused]. }
  assert (forall r f', match entry_at f1 (w_dir wt) (w_name wt) with Some _ => outcome f1 (Err EEXIST, f1) r f' | None => renaming f1 (w_dir wf) (w_name wf) (w_name wt) de r f' end -> renames f p q r f') as Hren.
  { intros r f' Ho. right. fold f1. cbv zeta. by rewrite Hrc, Ew, Ea, Ec, Ed. }
  unfold alookup. destruct (entry_at f1 (w_dir wt) (w_name wt)) as [x|] eqn:Ex; [wp_step; apply Hsame; [done|done|apply Hren; by left]|].
  apply aresolve_ok in Hrc as (_ & _ & Ee). unfold st_get. do 2 wp_step. rewrite E4. destruct Hrd1 as (R1 & R2 & R3 & R4). rewrite R3.
  eapply wp_mono; [apply (rename_end n nx1 o1 reg1 mb1 trees1 f1 s4 wf wt de Hh4 F1); try done; [by apply (fs_ready_st s1)|lia]|]. cbv beta. intros r s5 (f' & [Hmv Hl] & Hr). exists f'. split; [split; [|done]|by apply Hren].
  by apply (moved_trans (o := o) n n nx nx1 o1 s5 Hmv).
Qed.
End blobfs_tree.

Arguments unlink_spec {H D Blobs0 L MAX_ROOTS BLOBFS_NAME_MAX meta root} Hmax Hsteady Hname Hmeta n nx {o reg mb trees f} s p _ _ _.
Arguments rename_spec {H D Blobs0 L MAX_ROOTS BLOBFS_NAME_MAX meta root} Hmax Hsteady Hname Hmeta n nx {o reg mb trees f} s p q _ _ _ _.
Arguments is_empty_spec {H D Blobs0 L MAX_ROOTS BLOBFS_NAME_MAX meta root} Hmax Hname n nx {o reg mb trees f} d {es} s _ _ _.
Arguments live_le {H D Blobs0 L MAX_ROOTS BLOBFS_NAME_MAX meta root} n k nx {o fl f} s _ _.
Arguments live_same {H D Blobs0 L MAX_ROOTS BLOBFS_NAME_MAX meta root} n k nx nx1 {o fl} o1 {reg mb trees f} s s' _ _ _ _ _ _ _.
Arguments dir_names {H D Blobs0} d t {es} x _ _.
Arguments dir_entry {H D Blobs0} d t {es} nm de _ _.

(** Listing a directory of a file system, name by name. *)

(** What [blobfs_opendir()] answers. *)
Definition dir_want (BLOBFS_NAME_MAX root : Z) (f : fs) (p : bytes) : res Z :=
  match aresolve BLOBFS_NAME_MAX root f p with
  | (Err e, w) => if bool_decide (e = EISDIR) && at_root w then Ok root else Err e
  | (Ok de, _) => if negb (is_dir de) then Err ENOTDIR else Ok (de_body_id de)
  end.

(** ** C strings *)

Lemma strlen_plain (p : bytes) : 0 ∉ p -> strlen p = len p.
Proof.
  induction p as [|c p IH]; [done|]. rewrite not_elem_of_cons. intros [Hc Hp]. cbn [strlen]. destruct (Z.eqb_spec c 0); [congruence|]. rewrite len_cons, IH by done. done.
Qed.

Lemma cstr_plain (p : bytes) : 0 ∉ p -> cstr p = p.
Proof. intros Hp. unfold cstr. rewrite strlen_plain by done. rewrite zt_slice. by apply slice_all. Qed.

Section blobfs_list.
Context `{Crc} {D : Type} `{!Blobs D} {CL : CrcLaws _} {L : BlobLaws D} (MAX_ROOTS BLOBFS_NAME_MAX meta root : Z).
Notation MAX_PAYLOAD := (blob_max (D := D)).
Notation kvh := (kvh (D := D)).
Notation bfs := (bfs (D := D)).
Notation fsys := (fsys (D := D) MAX_ROOTS BLOBFS_NAME_MAX meta root).
Notation ready := (ready meta root).
Notation entry_name := (entry_name BLOBFS_NAME_MAX).
Implicit Types (s : bfs) (o : objs) (f : fs) (trees : gmap Z kvtree) (reg : gmap Z Z).
Context (Hmax : 72 <= MAX_PAYLOAD <= ENT_LEN_MASK) (Hname : 1 <= BLOBFS_NAME_MAX <= 255).
#[local] Definition Hlist24 : 24 <= MAX_PAYLOAD <= ENT_LEN_MASK := ltac:(lia).

(** ** The caller's loop: each name is the cursor for the next *)

Fixpoint list_dir (fuel : nat) (d : Z) (cur : bytes) : M bfs (list (bytes * blobfs_stat_t)) :=
  match fuel with
  | O => mfail EIO
  | S fuel =>
      let* '(rc, name) := blobfs_next_id BLOBFS_NAME_MAX d (Some cur) false true in
      match rc with
      | Err ENODATA => mret []
      | Err e => mfail e
      | Ok None => mfail EIO
      | Ok (Some st) =>
          let* rest := list_dir fuel d name in
          mret ((name, st) :: rest)
      end
  end.

Definition list_path (p : bytes) (fuel : nat) : M bfs (list (bytes * blobfs_stat_t)) :=
  let* d := blobfs_opendir BLOBFS_NAME_MAX (Some p) false in
  list_dir fuel d [].

(** ** One step *)

Definition cursor_name (cur : bytes) : Prop := len cur <= BLOBFS_NAME_MAX /\ 0 ∉ cur.

Lemma entry_cursor nm : entry_name nm -> cursor_name nm.
Proof. intros (Hl & Hb & _). split; [lia|]. intros H0. rewrite list.Forall_forall in Hb. by destruct (Hb 0 H0) as (_ & ? & _). Qed.

(** Every entry has a status. *)
Lemma stat_total o reg mb trees f d nm de : fsys o reg mb trees f -> entry_at f d nm = Some de -> exists st, stat_of_want f de = Ok st.
Proof.
  intros F E. destruct (wf_entry _ _ _ (fy_wf F) _ _ _ E) as ((Ht & _) & _ & [Hf _]). unfold stat_of_want. destruct (Z.eqb_spec (de_type de) BLOBFS_TYPE_DIR); [eauto|].
  destruct Hf as [b Eb]; [by destruct Ht|]. unfold size_reply. rewrite Eb. eauto.
Qed.

Definition stepped f d t cur (a : res (option blobfs_stat_t) * bytes) : Prop := exists x, least (walk_rank t) (walk_cursor (Some cur)) (tree_ents t) x /\
  match x with
  | None => a.1 = Err ENODATA
  | Some x => a.2 = k_key x /\ exists de st, entry_at f d (k_key x) = Some de /\ stat_of_want f de = Ok st /\ a.1 = Ok (Some st)
  end.

Lemma next_id_spec n nx o reg mb trees f d t s cur : khold n nx o (fs_kv s) -> fsys o reg mb trees f -> ready f s -> trees !! d = Some t -> cursor_name cur ->
  wp (blobfs_next_id BLOBFS_NAME_MAX d (Some cur) false true) s (fun r s' => khold n nx o (fs_kv s') /\ fs_st s' = fs_st s /\ exists a, r = Ok a /\ (stepped f d t cur a \/ exists e, fault (D := D) e /\ a.1 = Err e)).
Proof.
  intros Hh F (R1 & _) Et [Hl H0]. pose proof (fy_dirs F d) as Hd. rewrite Et in Hd. destruct (fs_dirs f !! d) as [es|] eqn:E; [|done]. pose proof Hd as (Hr & Hok & Hm).
  pose proof (fy_stored F) as Hs. rewrite (fshelf_dir _ _ _ _ _ _ Et) in Hs. apply stored_app in Hs as [Hs _].
  unfold blobfs_next_id, st_get. do 2 wp_step. rewrite R1, strlen_plain, cstr_plain by done. cbn [negb]. destruct (Z.gtb_spec (len cur) BLOBFS_NAME_MAX); [lia|]. do 2 wp_step. apply wp_on_kv. cbn [mo_next dir_ops kvhash_map_ops]. rewrite <- Hr at 1.
  wp_use (kv_next_spec Hlist24 n nx o (fs_kv s) t (Some cur) BLOBFS_NAME_MAX DIRENT_LEN Hh Hok Hs). intros r k [Hh' Hrep]. change (default [] (Some cur)) with cur in Hrep. destruct (Z.gtb_spec (len cur) 65535); [lia|].
  assert (forall e, fault (D := D) e -> (exists a, @Ok (res (option blobfs_stat_t) * bytes) (Err e, []) = Ok a /\ (stepped f d t cur a \/ exists e, fault (D := D) e /\ a.1 = Err e))) as Hf by (intros e He; eexists; split; [done|right; eauto]).
  destruct Hrep as [(x & Hlx & ->)|(e & He & ->)].
  2: { pose proof (fault_plain e He) as (_ & _ & Hne & _). replace (match e with ENOMEM => _ | _ => _ end) with (mret (S := bfs) (A := res (option blobfs_stat_t) * bytes) (Err e, [])) by by destruct e. apply wp_ret. split; [done|]. split; [done|]. by apply Hf. }
  destruct x as [x|]; cbn [next_reply].
  2: { apply wp_ret. split; [done|]. split; [done|]. eexists. split; [done|]. left. by exists None. }
  destruct (dir_names d t x Hd (proj1 Hlx)) as (de & Ede & Ev). assert (entry_at f d (k_key x) = Some de) as Ee by (unfold entry_at; by rewrite E). destruct (wf_entry _ _ _ (fy_wf F) _ _ _ Ee) as (Hde & Hn & _). pose proof (entry_name_len _ _ Hn).
  rewrite Ev, len_enc_dirent. change (DIRENT_LEN >? DIRENT_LEN) with false. rewrite orb_false_r. destruct (Z.gtb_spec (len (k_key x)) BLOBFS_NAME_MAX); [lia|]. unfold ent_pair. rewrite Ev, dirent_check_enc by done. cbn [negb]. destruct (stat_total _ _ _ _ _ _ _ _ F Ee) as [st Est].
  do 2 wp_step. wp_use (stat_of_spec Hmax Hname n nx d (k_key x) de (mk_bfs k (fs_st s)) Hh' F Ee). rewrite Est. intros r s2 (Hh2 & E2 & [->|(e & He & ->)]).
  - apply wp_ret. split; [done|]. split; [done|]. eexists. split; [done|]. left. exists (Some x). split; [done|]. split; [done|]. eauto.
  - pose proof (fault_plain e He) as (_ & Hne & _). replace (match e with ENOENT => _ | _ => _ end) with (mret (S := bfs) (A := res (option blobfs_stat_t) * bytes) (Err e, k_key x)) by by destruct e. apply wp_ret. split; [done|]. split; [done|].
    eexists. split; [done|]. right. eauto.
Qed.

(** ** The whole listing *)

Definition listing f d (es : list kent) (l : list (bytes * blobfs_stat_t)) : Prop := NoDup l.*1 /\
  forall nm st, (nm, st) ∈ l <-> exists x de, x ∈ es /\ k_key x = nm /\ entry_at f d nm = Some de /\ stat_of_want f de = Ok st.

Lemma list_from fuel n nx o reg mb trees f d t s cur es : khold n nx o (fs_kv s) -> fsys o reg mb trees f -> ready f s -> trees !! d = Some t -> cursor_name cur ->
  (forall e, e ∈ es <-> e ∈ tree_ents t /\ after (walk_rank t) (walk_cursor (Some cur)) (k_key e)) ->
  wp (list_dir fuel d cur) s (fun r s' => khold n nx o (fs_kv s') /\ fs_st s' = fs_st s /\
    ((exists l, r = Ok l /\ listing f d es l) \/ (exists e, fault (D := D) e /\ r = Err e) \/ ((fuel <= length es)%nat /\ r = Err EIO))).
Proof.
  intros Hh F Hrd Et. revert s cur es Hh Hrd. induction fuel as [|fuel IH]; intros s cur es Hh Hrd Hcur Hes; cbn [list_dir]; [apply wp_fail; split_and!; try done; right; right; split; [lia|done]|].
  wp_step. wp_use (next_id_spec n nx o reg mb trees f d t s cur Hh F Hrd Et Hcur). intros r s1 (Hh1 & E1 & [rc nm] & -> & [Hst|(e & He & Ea)]).
  2: { cbn in Ea. subst rc. pose proof (fault_plain e He) as (_ & _ & _ & _ & _ & _ & Hne & _). replace (match e with ENODATA => _ | _ => _ end) with (mfail (S := bfs) (A := list (bytes * blobfs_stat_t)) e) by by destruct e. apply wp_fail. split; [done|]. split; [done|]. right. left. eauto. }
  destruct Hst as ([x|] & Hl & Hx); cbn [fst snd] in Hx.
  2: { subst rc. apply wp_ret. split; [done|]. split; [done|]. left. exists []. split; [done|]. split; [constructor|]. intros nm' st. split; [by intros ?%not_elem_of_nil|]. intros (y & _ & Hy & _). apply Hes in Hy as [Hy Ha]. by destruct (Hl y Hy). }
  destruct Hx as (-> & de & st & Ee & Est & ->). set (key := k_key x) in *. destruct (wf_entry _ _ _ (fy_wf F) _ _ _ Ee) as (_ & Hn & _). pose proof (entry_name_len _ _ Hn).
  assert (walk_cursor (Some key) = Some key) as Ec by (apply cursor_some; lia). destruct Hl as (Hx & Hax & Hl). set (es' := filter (fun e => k_key e <> key) es). assert (x ∈ es) as Hxe by by apply Hes.
  assert (forall e, e ∈ es' <-> e ∈ tree_ents t /\ after (walk_rank t) (walk_cursor (Some key)) (k_key e)) as Hes'.
  { intros e. unfold es'. rewrite list_elem_of_filter, Hes, Ec. unfold after at 2. split.
    - intros (Hne & He & Ha). split; [done|]. by destruct (Hl e He Ha).
    - intros (He & Ha). split_and!; [|done|].
      + intros E'. rewrite E' in Ha. by destruct (irreflexivity lexico (walk_rank t key)).
      + unfold after in Hax |- *. destruct (walk_cursor (Some cur)); [|done]. by transitivity (walk_rank t key). }
  assert (length es' < length es)%nat as Hlt by (by apply (length_filter_lt _ es x Hxe); intros Hne).
  wp_step. eapply wp_mono; [apply (IH s1 key es' Hh1); [by apply (fs_ready_st s)|by apply entry_cursor|done]|]. cbv beta. intros r s2 (Hh2 & E2 & [(l & -> & Hnd & Hm)|[(e & He & ->)|(Hf & ->)]]).
  - apply wp_ret. split; [done|]. split; [congruence|]. left. exists ((key, st) :: l). split; [done|]. split.
    + cbn. apply list.NoDup_cons. split; [|done]. intros Hin. apply list_elem_of_fmap in Hin as ([nm' st'] & Ek & Hin). cbn in Ek. subst nm'. apply Hm in Hin as (y & _ & Hy & Eky & _). apply Hes' in Hy as [_ Ha]. rewrite Ec, Eky in Ha.
      by destruct (irreflexivity lexico (walk_rank t key)).
    + intros nm' st'. rewrite elem_of_cons, Hm. split.
      * intros [[= -> ->]|(y & de' & Hy & Hrest)]; [exists x, de; by split_and!|]. exists y, de'. split; [|done]. by apply list_elem_of_filter in Hy as [_ ?].
      * intros (y & de' & Hy & Ek & Ee' & Est'). destruct (decide (nm' = key)) as [->|Hne]; [left; f_equal; congruence|right]. exists y, de'. split; [|done]. apply list_elem_of_filter. split; [congruence|done].
  - split; [done|]. split; [congruence|]. right. left. eauto.
  - split; [done|]. split; [congruence|]. right. right. split; [lia|done].
Qed.

(** A listing of a path has every entry of its directory once, with its status,
    given fuel for one step more than there are entries. *)
Definition lists f p (fuel : nat) (r : res (list (bytes * blobfs_stat_t))) : Prop :=
  (exists e, fault (D := D) e /\ r = Err e) \/
  match dir_want BLOBFS_NAME_MAX root f p with
  | Err e => r = Err e
  | Ok d => exists es, fs_dirs f !! d = Some es /\
      ((exists l, r = Ok l /\ NoDup l.*1 /\ forall nm st, (nm, st) ∈ l <-> exists de, es !! nm = Some de /\ stat_of_want f de = Ok st) \/ ((fuel <= size es)%nat /\ r = Err EIO))
  end.

Lemma opendir_spec n nx o reg mb trees f s p : khold n nx o (fs_kv s) -> fsys o reg mb trees f -> ready f s ->
  wp (blobfs_opendir BLOBFS_NAME_MAX (Some p) false) s (same n nx o s (dir_want BLOBFS_NAME_MAX root f p)).
Proof.
  intros Hh F Hrd. unfold blobfs_opendir, dir_want. wp_step. wp_use (resolve_spec Hmax Hname n nx s p Hh F Hrd). intros r s1 (Hh1 & E1 & rc & w & -> & Hrc).
  destruct Hrc as [Hrc|(e & He & ->)]; [|rewrite fault_not_dir by done; split; [done|split; [done|right; eauto]]]. rewrite <- Hrc. destruct rc as [de|e].
  - unfold is_dir. destruct (negb _); by apply same_refl.
  - destruct (_ && _); [|by apply same_refl]. unfold st_get. do 3 wp_step. destruct Hrd as (_ & _ & <- & _). rewrite <- E1 at 1. by apply same_refl.
Qed.

Lemma dir_want_dir f p d : fs_wf BLOBFS_NAME_MAX root f -> dir_want BLOBFS_NAME_MAX root f p = Ok d -> is_Some (fs_dirs f !! d).
Proof.
  intros W. unfold dir_want. destruct (aresolve _ _ _ _) as [[de|e] w] eqn:E; [|destruct (_ && _); [intros [= <-]; apply (wf_root _ _ _ W)|done]].
  apply aresolve_ok in E as (_ & _ & E). destruct (wf_entry _ _ _ W _ _ _ E) as (_ & _ & [_ Hd]). unfold is_dir. destruct (Z.eqb_spec (de_type de) BLOBFS_TYPE_DIR) as [Et|]; [|done]. intros [= <-]. by apply Hd.
Qed.

Lemma list_spec n nx o reg mb trees f s p fuel : khold n nx o (fs_kv s) -> fsys o reg mb trees f -> ready f s ->
  wp (list_path p fuel) s (fun r s' => khold n nx o (fs_kv s') /\ fs_st s' = fs_st s /\ lists f p fuel r).
Proof.
  intros Hh F Hrd. unfold list_path, lists. eapply same_then; [by apply (opendir_spec n nx o reg mb trees f)| |intros e s' He Hh' Est; split; [done|]; split; [done|left; eauto]].
  intros s1 Hh1 E1. destruct (dir_want _ _ _ _) as [d|e] eqn:Ed; [|by split; [|split; [|right]]]. destruct (dir_want_dir f p d (fy_wf F) Ed) as [es E]. destruct (fsys_dir Hmax Hname d F E) as (t & Et & Hok & Hs).
  eapply wp_mono; [apply (list_from fuel n nx o reg mb trees f d t s1 [] (tree_ents t) Hh1 F); [by apply (fs_ready_st s)|done|by split; [unfold len; cbn; lia|apply not_elem_of_nil]|intros e; cbn; tauto]|]. cbv beta.
  intros r s2 (Hh2 & E2 & Hr). split; [done|]. split; [congruence|]. destruct Hr as [(l & -> & Hnd & Hm)|[(e & He & ->)|(Hf & ->)]]; [right|left; eauto|right]; exists es; (split; [done|]).
  - left. exists l. split; [done|]. split; [done|]. intros nm st. rewrite Hm. unfold entry_at. rewrite E. cbn. split.
    + intros (x & de & _ & _ & ? & ?). by exists de.
    + intros (de & Ede & Est). destruct (dir_entry d t nm de Hok Ede) as (x & Hx & Ek & _). by exists x, de.
  - right. split; [|done]. destruct Hok as (_ & Hok & Hmp). pose proof (tree_map_size t Hok) as Hsz. rewrite Hmp, map_size_fmap in Hsz. unfold len in Hsz. lia.
Qed.
End blobfs_list.

Arguments list_spec {H D Blobs0 L MAX_ROOTS BLOBFS_NAME_MAX meta root} Hmax Hname n nx {o reg mb trees f} s p fuel _ _ _.
