(* ===== verification/BlobfsMount.v ===== *)
(** Mounting a file system, a rename cut short being finished; then sequences of
    calls, the power going between any two. *)

From S2P Require Import BlobIface Prelude Layout Records RootReg RootRegSpec.
From S2P Require Import KvHash KvHashRep KvHashRead KvHashOps KvHashSet KvHashCreate KvHashWalk KvHashDestroy KvHashRuns Kvdb KvdbSpec Blobfs BlobfsSpec BlobfsOps BlobfsMeta BlobfsSteps BlobfsTree.

Definition empty_fs (root : Z) : fs := mk_fs {[root := ∅]} ∅ None.

Section blobfs_mount.
Context `{Crc} {D : Type} `{!Blobs D} {CL : CrcLaws _} {L : BlobLaws D} (MAX_ROOTS BLOBFS_NAME_MAX : Z).
Notation MAX_PAYLOAD := (blob_max (D := D)).
Notation kvh := (kvh (D := D)).
Notation bfs := (bfs (D := D)).
Notation META_LEN := (META_LEN BLOBFS_NAME_MAX).
Notation fsys := (fsys (D := D) MAX_ROOTS BLOBFS_NAME_MAX).
Notation live := (live MAX_ROOTS BLOBFS_NAME_MAX).
Notation moved := (moved MAX_ROOTS BLOBFS_NAME_MAX).
Notation registry := (registry MAX_ROOTS).
Implicit Types (s : bfs) (o : objs) (f : fs) (trees : gmap Z kvtree) (reg : gmap Z Z).
Context (Hmax : 72 <= MAX_PAYLOAD <= ENT_LEN_MASK) (Hsteady : ~ tears (D := D)) (Hname : 1 <= BLOBFS_NAME_MAX <= 255) (Hmeta : META_LEN <= MAX_PAYLOAD).
Context (Hroots : 1 <= MAX_ROOTS <= 1000) (Hfit : RR_IMAGE_MAX MAX_ROOTS <= MAX_PAYLOAD).

(** ** The meta object's id *)

Lemma FS_KEY_range : 0 < FS_KEY < 2 ^ 64.
Proof. by vm_compute. Qed.

Lemma old_key_spec n nx o reg meta s : khold n nx o (fs_kv s) -> registry o reg -> reg !! FS_KEY = Some meta -> wp (on_blob (rootreg_get_or_create MAX_ROOTS FS_KEY false)) s (same n nx o s (Ok meta)).
Proof.
  intros Hh Hr E. apply blob_answer; [done|]. unfold rootreg_get_or_create. apply wp_bnd, wp_try. eapply wp_mono; [apply (get_answer MAX_ROOTS Hroots n nx o _ reg FS_KEY); [apply Hh|done]|]. cbv beta.
  intros r d [Hd Hc]. cbn [reg_step fst] in Hc. rewrite E in Hc. change (FS_KEY =? 0) with false in Hc. destruct Hc as [->|(e & He & ->)]; [by split; [|left]|].
  pose proof (fault_plain e He) as (_ & Hne & _). replace (match e with ENOENT => _ | _ => _ end) with (mlift (S := D) (A := Z) (Err e)) by by destruct e. split; [done|right; eauto].
Qed.

(** A store without a file system; the key may be taken already. *)
Definition reserved nx o reg (meta : Z) : Prop := registry o reg /\ reg !! FS_KEY = Some meta /\ unbound o meta /\ 0 < meta < nx /\ meta <> BLOB_ROOT.
Definition virgin nx o : Prop := exists reg, registry o reg /\ forall meta, reg !! FS_KEY = Some meta -> reserved nx o reg meta.

Lemma virgin_reserved nx o reg meta : reserved nx o reg meta -> virgin nx o.
Proof. intros Hr. exists reg. split; [apply Hr|]. intros m E. destruct Hr as (? & E' & ?). assert (m = meta) as -> by congruence. done. Qed.

Lemma reserved_frame nx nx' o o' reg meta : reserved nx o reg meta -> nx <= nx' -> registry o' reg -> o' !! meta = o !! meta -> reserved nx' o' reg meta.
Proof. intros (_ & E & Hu & Hid & Hne) Hle Hr Em. split_and!; try done; [|lia|lia]. unfold unbound. by rewrite Em. Qed.

Definition no_fs (n : nat) nx s : Prop := exists nx' o', nx <= nx' /\ khold n nx' o' (fs_kv s) /\ virgin nx' o'.

Definition mount_refused (e : errno) : Prop := make_error (D := D) BLOBFS_NAME_MAX e \/ e = ENOSPC.

Lemma new_key_spec n nx o s : khold (S n) nx o (fs_kv s) -> virgin nx o ->
  wp (on_blob (rootreg_get_or_create MAX_ROOTS FS_KEY false)) s (fun r s' => fs_st s' = fs_st s /\
    ((exists meta nx' o' reg, r = Ok meta /\ nx <= nx' /\ khold n nx' o' (fs_kv s') /\ reserved nx' o' reg meta) \/ (exists e, mount_refused e /\ r = Err e /\ no_fs n nx s'))).
Proof.
  intros Hh (reg & Hr & Hv). pose proof FS_KEY_range as Hk. assert (khold n nx o (fs_kv s)) as Hh0 by (eapply khold_le; [|exact Hh]; lia). pose proof (khold_wf _ _ _ _ Hh) as Hw.
  destruct (reg !! FS_KEY) as [meta|] eqn:E.
  { wp_use (old_key_spec n nx o reg meta s Hh0 Hr E). intros r s' (Hh' & Est & [->|(e & He & ->)]); (split; [done|]); [left|right].
    - exists meta, nx, o, reg. split; [done|]. split; [lia|]. split; [done|by apply Hv].
    - exists e. split; [left; left; left; by apply fault_refused|]. split; [done|]. exists nx, o. split; [lia|]. split; [done|]. exists reg. split; [done|]. intros m Em. apply Hv. congruence. }
  assert (forall d nx' o' e, nx <= nx' -> holds n nx' o' d -> registry o' reg -> mount_refused e -> exists e', mount_refused e' /\ @Err Z e = Err e' /\ no_fs n nx (mk_bfs (set_dev d (fs_kv s)) (fs_st s))) as Hno.
  { intros d nx' o' e Hle Hd Hr' He. exists e. split; [done|]. split; [done|]. exists nx', o'. split; [done|]. split; [by eapply khold_dev|]. exists reg. split; [done|]. intros m Em. congruence. }
  apply wp_on_blob. destruct (decide (Z.of_nat (size reg) < MAX_ROOTS)) as [Hroom|Hfull].
  - eapply wp_mono; [apply (get_or_create_new MAX_ROOTS Hroots Hfit n nx o _ reg); [apply Hh|done..]|]. cbv beta. intros r d (nx' & o' & Hd & Hle & Hf & Hres). split; [done|]. destruct Hres as [(-> & Hlt & Hr')|(e & He & -> & Hr')].
    + left. exists nx, nx', o', (<[FS_KEY := nx]> reg). split; [done|]. split; [done|]. split; [by eapply khold_dev|]. pose proof (proj1 Hw). assert (nx <> BLOB_ROOT) as Hne by (unfold BLOB_ROOT; lia).
      split_and!; [done|by rewrite lookup_insert_eq| |lia|lia|done]. left. rewrite Hf by done. apply (obs_wf_fresh _ _ _ _ Hw). lia.
    + right. apply (Hno d nx' o'); try done; [destruct Hr' as [->|[? _]]; done|left; left; by left].
  - eapply wp_mono; [apply (get_or_create_spec MAX_ROOTS Hroots Hfit n nx o _ reg); [apply Hh|done|lia]|]. cbv beta. cbn [reg_step]. change (FS_KEY =? 0) with false. rewrite E.
    destruct (Z.geb_spec (Z.of_nat (size reg)) MAX_ROOTS); [|lia]. intros r d (nx' & o' & Hd & Hle & Hf & Hres). split; [done|]. right. destruct Hres as [[-> Hr']|(e & He & -> & Hr')]; cbn in *.
    + apply (Hno d nx' o'); try done. by right.
    + apply (Hno d nx' o'); try done; [destruct Hr' as [->|[? _]]; done|left; left; by left].
Qed.

(** ** A new file system *)

Lemma meta_read_new n nx o reg meta s : khold n nx o (fs_kv s) -> reserved nx o reg meta -> wp (meta_read BLOBFS_NAME_MAX meta) s (same n nx o s (Err ENOENT)).
Proof.
  intros Hh (_ & _ & Hu & Hid & _). pose proof (proj1 (khold_wf _ _ _ _ Hh)). unfold meta_read. pose proof (META_LEN_bounds BLOBFS_NAME_MAX).
  apply (same_bnd n nx o s _ _ (get_reply o meta META_LEN)); [apply blob_answer; [done|]; apply get_law; [apply Hh|lia]| |]; unfold get_reply; destruct Hu as [->| ->].
  - done.
  - destruct (Z.ltb_spec META_LEN (len (@nil Z))) as [Hl|]; [change (len []) with 0 in Hl; lia|]. intros b s' [= <-] Hh' Est. unfold wp, mlift. cbn. by apply same_refl.
  - by intros e [= <-].
  - destruct (Z.ltb_spec META_LEN (len (@nil Z))) as [Hl|]; [change (len []) with 0 in Hl; lia|done].
Qed.

Definition new_meta (root : Z) : blobfs_meta := mk_bmeta BLOBFS_MAGIC BLOBFS_META_VERSION 0 0 0 root 0 0 0 (no_name BLOBFS_NAME_MAX) (no_name BLOBFS_NAME_MAX).

Lemma new_meta_ok root : 0 < root < 2 ^ 64 -> bmeta_ok BLOBFS_NAME_MAX (new_meta root) /\ tells root (new_meta root) None.
Proof. intros Hr. assert (tells root (new_meta root) None) as Ht by done. destruct (clear_ok Hname (new_meta root) None Ht Hr) as [Hok _]. done. Qed.

Lemma empty_wf root : fs_wf BLOBFS_NAME_MAX root (empty_fs root).
Proof.
  assert (forall d nm de, entry_at (empty_fs root) d nm = Some de -> False) as Hno.
  { intros d nm de. unfold entry_at, empty_fs. cbn. destruct (decide (d = root)) as [->|]; [by rewrite lookup_singleton_eq|by rewrite lookup_singleton_ne]. }
  split; [cbn; rewrite lookup_singleton_eq; by eexists|by intros ??? ?%Hno|by intros ?????? ?%Hno|done].
Qed.

Definition made (n : nat) nx meta s (r : res (blobfs_meta * bool)) : Prop := exists root nx' o' reg mb trees, r = Ok (new_meta root, false) /\ nx <= root /\ nx <= nx' /\ khold n nx' o' (fs_kv s) /\ fsys meta root o' reg mb trees (empty_fs root).

Lemma mount_create_spec n nx o reg meta s : khold (S (dir_cost (D := D) + n)) nx o (fs_kv s) -> reserved nx o reg meta ->
  wp (mount_create BLOBFS_NAME_MAX meta) s (fun r s' => fs_st s' = fs_st s /\ (made n nx meta s' r \/ (exists e, mount_refused e /\ r = Err e /\ no_fs n nx s'))).
Proof.
  intros Hh Hres. pose proof Hres as (Hreg & Hkey & Hu & Hid & Hne). pose proof (proj1 (khold_wf _ _ _ _ Hh)) as Hnx.
  assert (forall k nx' o' s' e, nx <= nx' -> khold k nx' o' (fs_kv s') -> (n <= k)%nat -> registry o' reg -> o' !! meta = o !! meta -> mount_refused e -> exists e', mount_refused e' /\ @Err (blobfs_meta * bool) e = Err e' /\ no_fs n nx s') as Hno.
  { intros k nx' o' s' e Hle Hh' Hk Hr' Em He. exists e. split; [done|]. split; [done|]. exists nx', o'. split; [done|]. split; [by eapply khold_le|]. by apply (virgin_reserved nx' o' reg meta), (reserved_frame nx nx' o). }
  unfold mount_create. wp_step. wp_use (blob_new _ nx s Hh). intros r s1 (E1 & [[-> Hh1]|(-> & He & nx1 & Hle1 & Hh1)]).
  2: { cbn [Z.eqb]. wp_step. split; [done|right]. eapply (Hno _ nx1 o s1); try done; [lia|left; left; by left]. }
  destruct (Z.eqb_spec nx 0); [lia|]. assert (nx <> BLOB_ROOT) as Hnr by (unfold BLOB_ROOT; lia). wp_step. wp_use (dir_create_objs BLOBFS_NAME_MAX Hmax Hsteady n (nx + 1) o s1 nx Hh1); [lia|done|].
  intros r s2 (E2 & nx2 & o2 & Hh2 & Hle2 & Hr). rewrite E1 in E2. destruct r as [[]|e].
  2: { destruct Hr as [Hf He]. split; [done|right]. eapply (Hno _ nx2 o2 s2); try done; [lia|eapply registry_keep; [done|]; apply Hf; unfold BLOB_ROOT; lia|apply Hf; lia|by left]. }
  destruct Hr as (t & Hok & Hst & Hids & Hf). assert (o2 !! meta = o !! meta) as Em by (apply Hf; lia). assert (registry o2 reg) as Hreg2 by (eapply registry_keep; [done|]; apply Hf; [unfold BLOB_ROOT; lia|done]).
  destruct (new_meta_ok nx ltac:(lia)) as [Hmok Ht]. fold (new_meta nx). cbv zeta. wp_step. wp_use (blob_put Hsteady n nx2 s2 meta (enc_bmeta BLOBFS_NAME_MAX (new_meta nx)) Hh2); [lia|by apply bytes_ok_bmeta|by rewrite len_enc_bmeta|].
  intros r s3 (E3 & [[-> Hh3]|(e & He & -> & Hh3)]); (split; [congruence|]); [left|right; by eapply (Hno _ nx2 o2 s3); try done; [lia|left; left; by left]].
  exists nx, nx2, (<[meta := enc_bmeta BLOBFS_NAME_MAX (new_meta nx)]> o2), reg, (enc_bmeta BLOBFS_NAME_MAX (new_meta nx)), {[nx := t]}. split; [done|]. split; [lia|]. split; [lia|]. split; [done|].
  split; cbn [empty_fs fs_files fs_dirs fs_intent]; try done.
  - eapply registry_keep; [done|]. by rewrite lookup_insert_ne.
  - unfold fshelf. rewrite map_to_list_singleton, map_to_list_empty. cbn. rewrite !app_nil_r. apply stored_new; [|done|done]. intros Hin. destruct (Hids _ Hin); lia.
  - by apply says_enc.
  - intros d. destruct (decide (d = nx)) as [->|]; [by rewrite !lookup_singleton_eq|by rewrite !lookup_singleton_ne].
  - apply empty_wf.
Qed.

(** ** Mounting *)

Definition still_down s s' : Prop := bs_mounted (fs_st s') = false /\ (bs_intent_pending (fs_st s) = false -> bs_intent_pending (fs_st s') = false).

Lemma still_down_st s s' : bs_mounted (fs_st s) = false -> fs_st s' = fs_st s -> still_down s s'.
Proof. intros Hm E. split; [congruence|]. by rewrite E. Qed.

Lemma mount_old_spec n nx o reg mb trees meta root f s : khold (3 + n) nx o (fs_kv s) -> fsys meta root o reg mb trees f -> bs_mounted (fs_st s) = false ->
  wp (blobfs_mount MAX_ROOTS BLOBFS_NAME_MAX) s (fun r s' => exists f', moved meta root n nx o (fs_files f) f' s' /\ recovered (D := D) f r f' /\ match r with Ok _ => ready meta root f' s' | Err _ => still_down s s' end).
Proof.
  intros Hh F Hdn. assert (forall e s', fault (D := D) e -> khold (3 + n) nx o (fs_kv s') -> fs_st s' = fs_st s -> exists f', moved meta root n nx o (fs_files f) f' s' /\ recovered (D := D) f (Err e) f' /\ still_down s s') as Hno.
  { intros e s' He Hh' Est. exists f. split; [eapply moved_here; [eapply khold_le; [|exact Hh']; lia|exact F]|]. split; [constructor; by apply fault_refused|by apply still_down_st]. }
  destruct (fy_meta F) as (m & v1 & Ed & _ & Ht). unfold blobfs_mount, st_get, st_mod. do 2 wp_step. rewrite Hdn. cbv iota. wp_step.
  wp_use (old_key_spec (3 + n) nx o reg meta s Hh (fy_reg F) (fy_key F)). intros r s1 (Hh1 & E1 & [->|(e & He & ->)]); [|by apply Hno].
  do 2 wp_step. wp_use (meta_read_spec Hmax Hname (3 + n) nx s1 Hh1 F). rewrite Ed. intros r s2 (Hh2 & E2 & [->|(e & He & ->)]); rewrite E1 in E2.
  2: { pose proof (fault_plain e He) as (_ & Hne & _). replace (match e with ENOENT => _ | _ => _ end) with (mfail (S := bfs) (A := blobfs_meta * bool) e) by by destruct e. wp_step. wp_step. by apply Hno. }
  do 4 wp_step. pose proof Ht as (_ & _ & Er & Hi). rewrite Er. set (s3 := mk_bfs _ _).
  assert (forall f' s', fs_intent f' = None -> fs_st s' = fs_st s3 \/ fs_st s' = set_meta_v1 false (fs_st s3) -> ready meta root f' (mk_bfs (fs_kv s') (set_mounted true (fs_st s')))) as Hup.
  { intros f' s' En Est. unfold ready. cbn. rewrite En. destruct Est as [->| ->]; by split_and!. }
  destruct (fs_intent f) as [i|] eqn:Ei.
  - destruct Hi as [Hfl _]. destruct (Z.eqb_spec (bm_rename_in_flight m) 0); [done|]. cbn [negb]. do 3 wp_step.
    wp_use (rename_recover_spec Hsteady Hmax Hname Hmeta n nx i s3 m Hh2 F); try done. intros r s4 (f' & Hmv & Hrec & Est). destruct r as [[]|e].
    + do 2 wp_step. exists f'. split; [done|]. split; [done|]. apply Hup; [by inversion Hrec|done].
    + do 2 wp_step. wp_step. exists f'. split; [done|]. split; [done|]. split; cbn; [|intros _]; destruct Est as [->| ->]; cbn; by rewrite ?E2.
  - rewrite Hi. cbn [Z.eqb negb]. do 3 wp_step. exists f. split; [eapply (moved_here n nx (mk_bfs _ _)); [eapply khold_le; [|exact Hh2]; lia|exact F]|]. split; [rewrite <- (settled_none f) at 2 by done; constructor|]. apply (Hup f s3); [done|by left].
Qed.

Lemma mount_new_spec n nx o s : khold (S (S (dir_cost (D := D) + n))) nx o (fs_kv s) -> virgin nx o -> bs_mounted (fs_st s) = false ->
  wp (blobfs_mount MAX_ROOTS BLOBFS_NAME_MAX) s (fun r s' =>
    (r = Ok tt /\ exists meta root nx' o' reg mb trees, nx <= root /\ khold n nx' o' (fs_kv s') /\ fsys meta root o' reg mb trees (empty_fs root) /\ ready meta root (empty_fs root) s') \/
    (exists e, mount_refused e /\ r = Err e /\ still_down s s' /\ no_fs n nx s')).
Proof.
  intros Hh Hv Hdn. assert (forall k s', no_fs k nx s' -> (n <= k)%nat -> no_fs n nx s') as Hle by (intros k s' (nx' & o' & ? & ? & ?) Hk; exists nx', o'; split_and!; [done|by eapply khold_le|done]).
  unfold blobfs_mount, st_get, st_mod. do 2 wp_step. rewrite Hdn. cbv iota. wp_step. wp_use (new_key_spec _ nx o s Hh Hv). intros r s1 (E1 & [(meta & nx1 & o1 & reg & -> & Hle1 & Hh1 & Hres)|(e & He & -> & Hno)]).
  2: { right. exists e. split; [done|]. split; [done|]. split; [by apply still_down_st|]. eapply Hle; [exact Hno|lia]. }
  do 2 wp_step. wp_use (meta_read_new _ nx1 o1 reg meta s1 Hh1 Hres). intros r s2 (Hh2 & E2 & Hr). rewrite E1 in E2. assert (n <= S (dir_cost (D := D) + n))%nat as Hlen by lia.
  destruct Hr as [->|(e & He & ->)].
  2: { pose proof (fault_plain e He) as (_ & Hne & _). replace (match e with ENOENT => _ | _ => _ end) with (mfail (S := bfs) (A := blobfs_meta * bool) e) by by destruct e. do 2 wp_step. right. exists e. split; [left; left; left; by apply fault_refused|].
       split; [done|]. split; [by apply still_down_st|]. exists nx1, o1. split; [done|]. split; [by eapply khold_le|by eapply virgin_reserved]. }
  wp_step. wp_use (mount_create_spec n nx1 o1 reg meta s2 Hh2 Hres). intros r s3 (E3 & [(root & nx3 & o3 & reg3 & mb & trees & -> & Hroot & Hle3 & Hh3 & F)|(e & He & -> & Hno)]).
  - do 3 wp_step. cbn [new_meta bm_rename_in_flight bm_dir_root Z.eqb negb]. do 2 wp_step. left. split; [done|]. exists meta, root, nx3, o3, reg3, mb, trees. split; [lia|]. by split_and!.
  - right. exists e. split; [done|]. split; [done|]. split; [apply still_down_st; [done|congruence]|]. destruct Hno as (nx' & o' & ? & ? & ?). exists nx', o'. split_and!; try done. lia.
Qed.
End blobfs_mount.

Arguments mount_old_spec {H D Blobs0 L MAX_ROOTS BLOBFS_NAME_MAX} Hmax Hsteady Hname Hmeta Hroots n nx {o reg mb trees meta root f} s _ _ _.
Arguments mount_new_spec {H D Blobs0 L MAX_ROOTS BLOBFS_NAME_MAX} Hmax Hsteady Hname Hmeta Hroots Hfit n nx {o} s _ _ _.

(** Sequences of blobfs calls by a client that keeps the ids of files it opened,
    and the tree of names they run on. *)

Inductive fs_call :=
  | FsMount
  | FsUnmount
  | FsCreate (p : bytes)
  | FsMkdir (p : bytes)
  | FsUnlink (p : bytes)
  | FsRename (p q : bytes)
  | FsStat (p : bytes)
  | FsList (p : bytes) (fuel : nat)
  | FsRead (p : bytes) (off n : Z)
  | FsWrite (p : bytes) (off : Z) (b : bytes)
  | FsTruncate (p : bytes) (size : Z)
  | FsOpen (h : Z) (p : bytes)
  | FsSizeId (h : Z)
  | FsReadId (h off n : Z)
  | FsWriteId (h off : Z) (b : bytes)
  | FsTruncateId (h size : Z).

Inductive fs_reply :=
  | FsRc (r : res unit)
  | FsStatus (r : res blobfs_stat_t)
  | FsNames (r : res (list (bytes * blobfs_stat_t)))
  | FsBytes (r : res bytes)
  | FsLen (r : res Z)
  | FsNoHandle.

Definition fs_call_ok (c : fs_call) : Prop :=
  match c with
  | FsCreate p | FsMkdir p => bytes_ok p
  | FsRename _ q => bytes_ok q
  | FsRead _ off n | FsReadId _ off n => 0 <= off /\ 0 <= n
  | FsWrite _ off b | FsWriteId _ off b => 0 <= off /\ bytes_ok b
  | FsTruncate _ size | FsTruncateId _ size => 0 <= size
  | _ => True
  end.

(** The client's view: the file system there is, with the id of its root; whether
    it is mounted; the ids of the files opened. *)
Record fview := mk_fview { fv_fs : option (Z * fs); fv_up : bool; fv_ids : gmap Z Z }.

Section runs.
Context `{Crc} {D : Type} `{!Blobs D} {CL : CrcLaws _} {L : BlobLaws D} (MAX_ROOTS BLOBFS_NAME_MAX : Z).
Notation MAX_PAYLOAD := (blob_max (D := D)).
Notation bfs := (bfs (D := D)).
Notation META_LEN := (META_LEN BLOBFS_NAME_MAX).
Notation fsys := (fsys (D := D) MAX_ROOTS BLOBFS_NAME_MAX).
Notation live := (live MAX_ROOTS BLOBFS_NAME_MAX).
Notation moved := (moved MAX_ROOTS BLOBFS_NAME_MAX).
Notation client := (gmap Z Z * bfs)%type.
Implicit Types (s : bfs) (o : objs) (f : fs) (fv : fview) (hs : gmap Z Z).

(** ** The client *)

Definition fs_say {A} (say : res A -> fs_reply) (m : M bfs A) (w : client) : fs_reply * client := let (r, s) := m w.2 in (say r, (w.1, s)).
Definition fs_held (h : Z) (k : Z -> client -> fs_reply * client) (w : client) : fs_reply * client := match w.1 !! h with Some id => k id w | None => (FsNoHandle, w) end.

Definition fs_exec (c : fs_call) (w : client) : fs_reply * client :=
  match c with
  | FsMount => fs_say FsRc (blobfs_mount MAX_ROOTS BLOBFS_NAME_MAX) w
  | FsUnmount => fs_say FsRc blobfs_unmount w
  | FsCreate p => fs_say FsRc (blobfs_create BLOBFS_NAME_MAX (Some p)) w
  | FsMkdir p => fs_say FsRc (blobfs_mkdir BLOBFS_NAME_MAX (Some p)) w
  | FsUnlink p => fs_say FsRc (blobfs_unlink BLOBFS_NAME_MAX (Some p)) w
  | FsRename p q => fs_say FsRc (blobfs_rename BLOBFS_NAME_MAX (Some p) (Some q)) w
  | FsStat p => fs_say FsStatus (blobfs_stat BLOBFS_NAME_MAX (Some p) false) w
  | FsList p fuel => fs_say FsNames (list_path BLOBFS_NAME_MAX p fuel) w
  | FsRead p off n => fs_say FsBytes (blobfs_read BLOBFS_NAME_MAX (Some p) off false n false) w
  | FsWrite p off b => fs_say FsRc (blobfs_write BLOBFS_NAME_MAX (Some p) off false b) w
  | FsTruncate p size => fs_say FsRc (blobfs_truncate BLOBFS_NAME_MAX (Some p) size) w
  | FsOpen h p =>
      let (r, s) := blobfs_lookup BLOBFS_NAME_MAX (Some p) false w.2 in
      match r with
      | Ok id => (FsRc (Ok tt), (<[h := id]> w.1, s))
      | Err e => (FsRc (Err e), (w.1, s))
      end
  | FsSizeId h => fs_held h (fun id => fs_say FsLen (blobfs_size_id id false)) w
  | FsReadId h off n => fs_held h (fun id => fs_say FsBytes (blobfs_read_id id off false n false)) w
  | FsWriteId h off b => fs_held h (fun id => fs_say FsRc (blobfs_write_id id off false b)) w
  | FsTruncateId h size => fs_held h (fun id => fs_say FsRc (blobfs_truncate_id id size)) w
  end.

Fixpoint fs_run (cs : list fs_call) (w : client) : list fs_reply * client :=
  match cs with
  | [] => ([], w)
  | c :: cs =>
      let (r, w) := fs_exec c w in
      let (rs, w) := fs_run cs w in
      (r :: rs, w)
  end.

(** ** One call on the client's view *)

Definition answers {A} (want r : res A) : Prop := r = want \/ exists e, fault (D := D) e /\ r = Err e.

(** An id that is nobody's. *)
Definition fresh_id f hs (id : Z) : Prop := fs_files f !! id = None /\ fs_dirs f !! id = None /\ forall h, hs !! h <> Some id.

(** A call on the mounted tree. *)
Definition on_tree fv (r : fs_reply) fv' (no : fs_reply) (P : Z -> fs -> fs -> Prop) : Prop :=
  if fv_up fv then exists root f f', fv_fs fv = Some (root, f) /\ P root f f' /\ fv' = mk_fview (Some (root, f')) true (fv_ids fv)
  else r = no /\ fv' = fv.

(** A call on a file opened before. *)
Definition on_id fv (h : Z) (r : fs_reply) fv' (P : Z -> fs -> fs -> Prop) : Prop :=
  match fv_ids fv !! h with
  | None => r = FsNoHandle /\ fv' = fv
  | Some id => exists root f f', fv_fs fv = Some (root, f) /\ P id f f' /\ fv' = mk_fview (Some (root, f')) (fv_up fv) (fv_ids fv)
  end.

Definition mounts fv (r : res unit) fv' : Prop :=
  if fv_up fv then r = Err EALREADY /\ fv' = fv
  else
    match fv_fs fv with
    | None =>
        (r = Ok tt /\ exists root, fv' = mk_fview (Some (root, empty_fs root)) true (fv_ids fv)) \/
        (exists e, mount_refused (D := D) BLOBFS_NAME_MAX e /\ r = Err e /\ fv' = fv)
    | Some (root, f) => exists f', recovered (D := D) f r f' /\ fv' = mk_fview (Some (root, f')) (is_ok r) (fv_ids fv)
    end.

Definition fs_step fv (c : fs_call) (r : fs_reply) fv' : Prop :=
  match c with
  | FsMount => exists q, r = FsRc q /\ mounts fv q fv'
  | FsUnmount => r = FsRc (Ok tt) /\ fv' = mk_fview (fv_fs fv) false (fv_ids fv)
  | FsCreate p => on_tree fv r fv' (FsRc (Err ENODEV)) (fun root f f' => exists q, r = FsRc q /\ creates (D := D) BLOBFS_NAME_MAX root (fresh_id f (fv_ids fv)) f p q f')
  | FsMkdir p => on_tree fv r fv' (FsRc (Err ENODEV)) (fun root f f' => exists q, r = FsRc q /\ makes (D := D) BLOBFS_NAME_MAX root (fresh_id f (fv_ids fv)) f p q f')
  | FsUnlink p => on_tree fv r fv' (FsRc (Err ENODEV)) (fun root f f' => exists q, r = FsRc q /\ unlinks (D := D) BLOBFS_NAME_MAX root f p q f')
  | FsRename p p' => on_tree fv r fv' (FsRc (Err ENODEV)) (fun root f f' => exists q, r = FsRc q /\ renames (D := D) BLOBFS_NAME_MAX root f p p' q f')
  | FsStat p => on_tree fv r fv' (FsStatus (Err ENODEV)) (fun root f f' => f' = f /\ exists q, r = FsStatus q /\ answers (stat_want BLOBFS_NAME_MAX root f p) q)
  | FsList p fuel => on_tree fv r fv' (FsNames (Err ENODEV)) (fun root f f' => f' = f /\ exists q, r = FsNames q /\ lists (D := D) BLOBFS_NAME_MAX root f p fuel q)
  | FsRead p off n => on_tree fv r fv' (FsBytes (Err ENODEV)) (fun root f f' => f' = f /\ exists q, r = FsBytes q /\
      answers (at_path BLOBFS_NAME_MAX root f p (fun id => (read_reply (fs_files f) id off n, f))).1 q)
  | FsWrite p off b => on_tree fv r fv' (FsRc (Err ENODEV)) (fun root f f' => exists q, r = FsRc q /\
      outcome (D := D) f (at_path BLOBFS_NAME_MAX root f p (fun id => write_want MAX_PAYLOAD f id off b)) q f')
  | FsTruncate p size => on_tree fv r fv' (FsRc (Err ENODEV)) (fun root f f' => exists q, r = FsRc q /\
      outcome (D := D) f (at_path BLOBFS_NAME_MAX root f p (fun id => truncate_want MAX_PAYLOAD f id size)) q f')
  | FsOpen h p =>
      if fv_up fv then exists root f q, fv_fs fv = Some (root, f) /\ answers (lookup_want BLOBFS_NAME_MAX root f p) q /\ r = FsRc (void q) /\
        fv' = mk_fview (fv_fs fv) true (match q with Ok id => <[h := id]> (fv_ids fv) | Err _ => fv_ids fv end)
      else r = FsRc (Err ENODEV) /\ fv' = fv
  | FsSizeId h => on_id fv h r fv' (fun id f f' => f' = f /\ exists q, r = FsLen q /\ answers (size_reply (fs_files f) id) q)
  | FsReadId h off n => on_id fv h r fv' (fun id f f' => f' = f /\ exists q, r = FsBytes q /\ answers (read_reply (fs_files f) id off n) q)
  | FsWriteId h off b => on_id fv h r fv' (fun id f f' => exists q, r = FsRc q /\ outcome (D := D) f (write_want MAX_PAYLOAD f id off b) q f')
  | FsTruncateId h size => on_id fv h r fv' (fun id f f' => exists q, r = FsRc q /\ outcome (D := D) f (truncate_want MAX_PAYLOAD f id size) q f')
  end.

Inductive fs_steps : fview -> list fs_call -> list fs_reply -> fview -> Prop :=
  | fs_done fv : fs_steps fv [] [] fv
  | fs_more fv c r fv1 cs rs fv2 : fs_step fv c r fv1 -> fs_steps fv1 cs rs fv2 -> fs_steps fv (c :: cs) (r :: rs) fv2.

(** ** Calls while nothing is mounted *)

Section down.
Context (s : bfs) (Hdn : bs_mounted (fs_st s) = false) (Hpd : bs_intent_pending (fs_st s) = false).

Lemma walk_down p : walk BLOBFS_NAME_MAX (Some p) s = (Err ENODEV, s).
Proof. unfold walk, st_get, mbnd, mgets. by rewrite Hdn. Qed.

Lemma resolve_down p : resolve_path BLOBFS_NAME_MAX (Some p) s = (Ok (Err ENODEV, where_0), s).
Proof. unfold resolve_path, mbnd, mtry. by rewrite walk_down. Qed.

Lemma free_down p : walk_to_free_name BLOBFS_NAME_MAX (Some p) s = (Ok (Err ENODEV, where_0), s).
Proof. unfold walk_to_free_name, mbnd, mtry. by rewrite walk_down. Qed.

Lemma settle_down : intent_settle BLOBFS_NAME_MAX s = (Ok tt, s).
Proof. unfold intent_settle, st_get, mbnd, mgets. by rewrite Hpd. Qed.

Lemma lookup_down p : blobfs_lookup BLOBFS_NAME_MAX (Some p) false s = (Err ENODEV, s).
Proof. unfold blobfs_lookup, mbnd. by rewrite resolve_down. Qed.

Lemma unlink_down p : blobfs_unlink BLOBFS_NAME_MAX (Some p) s = (Err ENODEV, s).
Proof. unfold blobfs_unlink. unfold mbnd at 1. rewrite settle_down. unfold mbnd at 1. by rewrite resolve_down. Qed.

Lemma rename_down p q : blobfs_rename BLOBFS_NAME_MAX (Some p) q s = (Err ENODEV, s).
Proof. unfold blobfs_rename. unfold mbnd at 1. rewrite settle_down. unfold mbnd at 1. by rewrite resolve_down. Qed.
End down.

(** ** The simulation *)

Context (Hmax : 72 <= MAX_PAYLOAD <= ENT_LEN_MASK) (Hsteady : ~ tears (D := D)) (Hname : 1 <= BLOBFS_NAME_MAX <= 255) (Hmeta : META_LEN <= MAX_PAYLOAD).
Context (Hroots : 1 <= MAX_ROOTS <= 1000) (Hfit : RR_IMAGE_MAX MAX_ROOTS <= MAX_PAYLOAD).

Definition fs_there nx o fv s : Prop :=
  match fv_fs fv with
  | None => fv_up fv = false /\ fv_ids fv = ∅ /\ virgin MAX_ROOTS nx o
  | Some (root, f) => exists meta, (exists reg mb trees, fsys meta root o reg mb trees f) /\ (fv_up fv = true -> ready meta root f s) /\ map_Forall (fun _ id => known nx o f id) (fv_ids fv)
  end.

Definition fs_inv (n : nat) fv (w : client) : Prop := exists nx o, khold n nx o (fs_kv w.2) /\ fv_ids fv = w.1 /\ bs_mounted (fs_st w.2) = fv_up fv /\ (fv_up fv = false -> bs_intent_pending (fs_st w.2) = false) /\ fs_there nx o fv w.2.

(** Allocations one call may make. *)
Definition fs_cost : nat := 12 + dir_cost (D := D).

Lemma inv_le n k fv w : fs_inv n fv w -> (k <= n)%nat -> fs_inv k fv w.
Proof. intros (nx & o & Hh & Hrest) Hk. exists nx, o. split; [by eapply khold_le|done]. Qed.

Lemma known_moved nx nx' o o' f f' id : known nx o f id -> nx <= nx' -> tracks nx o (fs_files f) o' (fs_files f') -> known nx' o' f' id.
Proof. intros ([Hid Hlt] & Hne & E) Hle Ht. split; [lia|]. split; [done|by apply Ht]. Qed.

(** The view of a tree that has changed. *)
Lemma inv_moved n nx o meta root f f' hs s' up : moved meta root n nx o (fs_files f) f' s' -> map_Forall (fun _ id => known nx o f id) hs -> bs_mounted (fs_st s') = up -> (up = false -> bs_intent_pending (fs_st s') = false) ->
  (up = true -> ready meta root f' s') -> fs_inv n (mk_fview (Some (root, f')) up hs) (hs, s').
Proof.
  intros (nx' & o' & reg & mb & trees & Hle & Ht & Hh & F) Hk Hm Hp Hr. exists nx', o'. split; [done|]. split; [done|]. split; [done|]. split; [done|]. exists meta. split; [by exists reg, mb, trees|]. split; [done|].
  intros h id E. apply (known_moved nx nx' o o' f f'); [by apply (Hk h)|done|done].
Qed.

Lemma inv_live n nx o meta root f f' hs s' : live meta root n nx o (fs_files f) f' s' -> map_Forall (fun _ id => known nx o f id) hs -> fs_inv n (mk_fview (Some (root, f')) true hs) (hs, s').
Proof. intros [Hmv Hr] Hk. eapply inv_moved; try done. apply Hr. Qed.

Definition fs_sim (n : nat) fv (w : client) (c : fs_call) : Prop := let (r, w') := fs_exec c w in exists fv', fs_inv n fv' w' /\ fs_step fv c r fv'.

(** A call on the tree: what it does when mounted, and that it says [no] when not. *)
Lemma tree_sim {A} n fv w (m : M bfs A) (say : res A -> fs_reply) no (P : fs_reply -> Z -> fs -> fs -> Prop) : fs_inv (fs_cost + n) fv w ->
  (bs_mounted (fs_st w.2) = false -> bs_intent_pending (fs_st w.2) = false -> m w.2 = (no, w.2)) ->
  (forall nx o meta root reg mb trees f, khold (fs_cost + n) nx o (fs_kv w.2) -> fsys meta root o reg mb trees f -> ready meta root f w.2 -> map_Forall (fun _ id => known nx o f id) (fv_ids fv) ->
     wp m w.2 (fun r s' => exists f', live meta root n nx o (fs_files f) f' s' /\ P (say r) root f f')) ->
  let (r, w') := fs_say say m w in exists fv', fs_inv n fv' w' /\ on_tree fv r fv' (say no) (P r).
Proof.
  intros Hi Hdown Hup. pose proof Hi as (nx & o & Hh & Hids & Hm & Hp & Hth). unfold fs_say, on_tree. destruct (fv_up fv) eqn:Eup.
  - unfold fs_there in Hth. destruct (fv_fs fv) as [[root f]|]; [|by rewrite Eup in Hth; destruct Hth]. destruct Hth as (meta & (reg & mb & trees & F) & Hr & Hk).
    specialize (Hup nx o meta root reg mb trees f Hh F (Hr Eup) Hk). unfold wp in Hup. destruct (m w.2) as [r s']. destruct Hup as (f' & Hl & HP). rewrite Hids in *.
    exists (mk_fview (Some (root, f')) true w.1). split; [by eapply inv_live|]. by exists root, f, f'.
  - rewrite Hdown by auto. exists fv. split; [|done]. apply (inv_le (fs_cost + n)); [|lia]. by destruct w.
Qed.

(** A call on a file held. *)
Lemma id_sim {A} n fv w h (m : Z -> M bfs A) (say : res A -> fs_reply) (P : fs_reply -> Z -> fs -> fs -> Prop) : fs_inv (fs_cost + n) fv w ->
  (forall nx o meta root reg mb trees f id, khold (fs_cost + n) nx o (fs_kv w.2) -> fsys meta root o reg mb trees f -> known nx o f id ->
     wp (m id) w.2 (fun r s' => exists f', moved meta root n nx o (fs_files f) f' s' /\ fs_st s' = fs_st w.2 /\ fs_intent f' = fs_intent f /\ P (say r) id f f')) ->
  let (r, w') := fs_held h (fun id => fs_say say (m id)) w in exists fv', fs_inv n fv' w' /\ on_id fv h r fv' (P r).
Proof.
  intros Hi Hop. pose proof Hi as (nx & o & Hh & Hids & Hm & Hp & Hth). unfold fs_held, on_id. rewrite <- Hids. destruct (fv_ids fv !! h) as [id|] eqn:E.
  - unfold fs_there in Hth. destruct (fv_fs fv) as [[root f]|]; [|destruct Hth as (_ & E0 & _); by rewrite E0, lookup_empty in E]. destruct Hth as (meta & (reg & mb & trees & F) & Hr & Hk).
    specialize (Hop nx o meta root reg mb trees f id Hh F (Hk h id E)). unfold fs_say. unfold wp in Hop. destruct (m id w.2) as [r s']. destruct Hop as (f' & Hmv & Est & Ei & HP).
    exists (mk_fview (Some (root, f')) (fv_up fv) (fv_ids fv)). rewrite <- Hids. split; [|by exists root, f, f']. eapply inv_moved; try done; [by rewrite Est|by rewrite Est|].
    intros Eu. apply (ready_of (f := f)); [apply (fs_ready_st w.2); [by apply Hr|done]|by left].
  - exists fv. split; [|done]. by apply (inv_le (fs_cost + n)); [|lia].
Qed.

(** *** What the calls leave *)

Lemma same_live {A} n k nx o meta root reg mb trees f s s' (want r : res A) : fsys meta root o reg mb trees f -> ready meta root f s -> same k nx o s want r s' -> (n <= k)%nat ->
  live meta root n nx o (fs_files f) f s' /\ answers want r.
Proof. intros F Hr (Hh & Est & Ha) Hk. split; [|done]. apply (live_same n k nx nx o s s' F Hr); try done; apply tracks_refl. Qed.

Lemma lands_live {A} n k nx o meta root f s s' (want : res A * fs) r : ready meta root f s -> fs_intent want.2 = fs_intent f -> lands MAX_ROOTS BLOBFS_NAME_MAX meta root k nx o f s want r s' -> (n <= k)%nat ->
  exists f', live meta root n nx o (fs_files f) f' s' /\ fs_st s' = fs_st s /\ fs_intent f' = fs_intent f /\ outcome (D := D) f want r f'.
Proof.
  intros Hr Hi (f' & Hmv & Est & Ho) Hk. assert (fs_intent f' = fs_intent f) as Ei by (destruct Ho as [[_ ->]|(e & _ & _ & ->)]; done). exists f'. split; [split; [by apply (moved_le k)|]|done].
  apply (ready_of (f := f)); [by apply (fs_ready_st s)|by left].
Qed.

Lemma lands_moved {A} n k nx o meta root f s s' (want : res A * fs) r : fs_intent want.2 = fs_intent f -> lands MAX_ROOTS BLOBFS_NAME_MAX meta root k nx o f s want r s' -> (n <= k)%nat ->
  exists f', moved meta root n nx o (fs_files f) f' s' /\ fs_st s' = fs_st s /\ fs_intent f' = fs_intent f /\ outcome (D := D) f want r f'.
Proof.
  intros Hi (f' & Hmv & Est & Ho) Hk. assert (fs_intent f' = fs_intent f) as Ei by (destruct Ho as [[_ ->]|(e & _ & _ & ->)]; done). exists f'. split; [by apply (moved_le k)|done].
Qed.

Lemma write_want_intent f id off b : fs_intent (write_want MAX_PAYLOAD f id off b).2 = fs_intent f.
Proof. unfold write_want. destruct (_ =? 0); [done|]. destruct (_ || _); [done|]. by destruct (_ !! _). Qed.

Lemma truncate_want_intent f id size : fs_intent (truncate_want MAX_PAYLOAD f id size).2 = fs_intent f.
Proof. unfold truncate_want. destruct (_ >? _); [done|]. by destruct (_ !! _). Qed.

Lemma at_path_intent {A} root f p (k : Z -> res A * fs) : (forall id, fs_intent (k id).2 = fs_intent f) -> fs_intent (at_path BLOBFS_NAME_MAX root f p k).2 = fs_intent f.
Proof. intros Hk. unfold at_path. by destruct (lookup_want _ _ _ _). Qed.

Lemma binds_mono (P Q : Z -> Prop) bad f make r f' : (forall id, P id -> Q id) -> binds (D := D) P bad f make r f' -> binds (D := D) Q bad f make r f'.
Proof. intros HPQ [(id & Hid & Hrest)|?]; [left; exists id; split; [by apply HPQ|done]|by right]. Qed.

Lemma creates_mono (P Q : Z -> Prop) root f p r f' : (forall id, P id -> Q id) -> creates (D := D) BLOBFS_NAME_MAX root P f p r f' -> creates (D := D) BLOBFS_NAME_MAX root Q f p r f'.
Proof. intros HPQ. unfold creates. destruct (afree _ _ _ _) as [[]]; [destruct (w_want_dir _); [done|by apply binds_mono]|done]. Qed.

Lemma makes_mono (P Q : Z -> Prop) root f p r f' : (forall id, P id -> Q id) -> makes (D := D) BLOBFS_NAME_MAX root P f p r f' -> makes (D := D) BLOBFS_NAME_MAX root Q f p r f'.
Proof. intros HPQ. unfold makes. destruct (afree _ _ _ _) as [[]]; [by apply binds_mono|done]. Qed.

Lemma fresh_above n nx o meta root reg mb trees f s hs : khold n nx o (fs_kv s) -> fsys meta root o reg mb trees f -> map_Forall (fun _ id => known nx o f id) hs -> forall id, nx <= id -> fresh_id f hs id.
Proof.
  intros Hh F Hk id Hid. destruct (fsys_fresh Hmax Hname n nx id s Hh F Hid) as [_ Hu]. split; [by apply Hu|]. split; [by apply Hu|]. intros h E. destruct (Hk h id E) as ([_ Hlt] & _). lia.
Qed.

(** *** Every call *)

Lemma mount_sim n fv w : fs_inv (fs_cost + n) fv w -> fs_sim n fv w FsMount.
Proof.
  intros (nx & o & Hh & Hids & Hm & Hp & Hth). unfold fs_sim. cbn [fs_exec fs_step]. unfold fs_say, mounts. destruct (fv_up fv) eqn:Eup.
  { unfold blobfs_mount at 1, mbnd at 1, st_get, mgets. rewrite Hm. cbn. exists fv. split; [|by exists (Err EALREADY)]. exists nx, o. rewrite Eup. split; [eapply khold_le; [|exact Hh]; lia|]. by split_and!. }
  unfold fs_there in Hth. destruct (fv_fs fv) as [[root f]|] eqn:Efs.
  - destruct Hth as (meta & (reg & mb & trees & F) & _ & Hk). assert (khold (3 + n) nx o (fs_kv w.2)) as Hh3 by (eapply khold_le; [|exact Hh]; unfold fs_cost; lia).
    pose proof (mount_old_spec Hmax Hsteady Hname Hmeta Hroots n nx w.2 Hh3 F Hm) as Hw. unfold wp in Hw. destruct (blobfs_mount _ _ w.2) as [r s']. destruct Hw as (f' & Hmv & Hrec & Hr). rewrite Hids in *.
    exists (mk_fview (Some (root, f')) (is_ok r) w.1). split; [|exists r; split; [done|by exists f']]. destruct r as [[]|e]; cbn [is_ok].
    + eapply inv_live; [split; [exact Hmv|exact Hr]|done].
    + destruct Hr as [Hr1 Hr2]. eapply inv_moved; try done. intros _. apply Hr2. by apply Hp.
  - destruct Hth as (_ & E0 & Hv). assert (khold (S (S (dir_cost (D := D) + n))) nx o (fs_kv w.2)) as Hh3 by (eapply khold_le; [|exact Hh]; unfold fs_cost; lia).
    pose proof (mount_new_spec Hmax Hsteady Hname Hmeta Hroots Hfit n nx w.2 Hh3 Hv Hm) as Hw. unfold wp in Hw. destruct (blobfs_mount _ _ w.2) as [r s']. destruct Hw as [(-> & meta & root & nx' & o' & reg & mb & trees & _ & Hh' & F & Hr)|(e & He & -> & [Hr1 Hr2] & (nx' & o' & Hle & Hh' & Hv'))].
    + exists (mk_fview (Some (root, empty_fs root)) true w.1). split; [|exists (Ok tt); split; [done|left; rewrite Hids; by split; [|exists root]]]. exists nx', o'. cbn [fst snd fv_ids fv_up]. split; [done|]. split; [done|]. split; [apply Hr|]. split; [done|].
      exists meta. split; [by exists reg, mb, trees|]. split; [done|]. cbn [fv_ids]. rewrite <- Hids, E0. apply map_Forall_empty.
    + exists fv. split; [|exists (Err e); split; [done|right; by exists e]]. exists nx', o'. cbn [fst snd]. rewrite Eup. split; [done|]. split; [done|]. split; [done|]. split; [intros _; by apply Hr2, Hp|]. unfold fs_there. rewrite Efs. by split_and!.
Qed.

Lemma path_open_sim n fv w h p : fs_inv (fs_cost + n) fv w -> fs_sim n fv w (FsOpen h p).
Proof.
  intros Hi. pose proof Hi as (nx & o & Hh & Hids & Hm & Hp & Hth). unfold fs_sim. cbn [fs_exec fs_step]. destruct (fv_up fv) eqn:Eup.
  - unfold fs_there in Hth. destruct (fv_fs fv) as [[root f]|] eqn:Efs; [|by rewrite Eup in Hth; destruct Hth]. destruct Hth as (meta & (reg & mb & trees & F) & Hr & Hk).
    assert (khold n nx o (fs_kv w.2)) as Hh0 by (eapply khold_le; [|exact Hh]; lia). pose proof (path_lookup_spec Hmax Hname n nx w.2 p Hh0 F (Hr Eup)) as Hw. unfold wp in Hw. destruct (blobfs_lookup _ _ _ w.2) as [q s']. 
    destruct (same_live n n nx o meta root reg mb trees f w.2 s' _ q F (Hr Eup) Hw ltac:(lia)) as [Hl Ha]. assert (forall id, q = Ok id -> known nx o f id) as Hid.
    { intros id ->. destruct Ha as [Ha|(e & _ & [=])]. eapply (known_file Hmax Hname n nx id w.2 Hh0 F). by apply (lookup_file p _ (fy_wf F)). }
    rewrite Hids in *. destruct q as [id|e]; eexists.
    + split; [|exists root, f, (Ok id); by split_and!]. eapply inv_live; [exact Hl|]. apply map_Forall_insert_2; [by apply Hid|done].
    + split; [|exists root, f, (Err e); by split_and!]. by eapply inv_live.
  - rewrite lookup_down by auto. exists fv. split; [|done]. apply (inv_le (fs_cost + n)); [|lia]. by destruct w.
Qed.

Ltac with_room := eapply khold_le; [|eassumption]; unfold fs_cost; lia.

Lemma fs_exec_step n fv w c : fs_inv (fs_cost + n) fv w -> fs_call_ok c -> fs_sim n fv w c.
Proof.
  intros Hi Hc. destruct c as [| |p|p|p|p q|p|p fuel|p off k|p off b|p size|h p|h|h off k|h off b|h size]; [by apply mount_sim|..|by apply path_open_sim| | | |]; unfold fs_sim; cbn [fs_exec fs_step]; cbn [fs_call_ok] in Hc.
  - destruct Hi as (nx & o & Hh & Hids & Hm & Hp & Hth). exists (mk_fview (fv_fs fv) false (fv_ids fv)). split; [|done]. exists nx, o. cbn. split; [with_room|]. split_and!; try done. unfold fs_there in *. cbn.
    destruct (fv_fs fv) as [[root f]|]; [|by destruct Hth as (_ & ? & ?)]. destruct Hth as (meta & F & _ & Hk). by exists meta.
  - eapply tree_sim; [done|intros; by unfold blobfs_create, mbnd; rewrite free_down|]. intros nx o meta root reg mb trees f Hh F Hr Hk.
    eapply wp_mono; [eapply (create_file_spec Hmax Hsteady Hname n nx w.2 p); [with_room|done|done|done]|]. cbv beta. intros r s' (f' & Hl & Hcr). exists f'. split; [done|]. exists r. split; [done|]. eapply creates_mono; [|exact Hcr]. by eapply fresh_above.
  - eapply tree_sim; [done|intros; by unfold blobfs_mkdir, mbnd at 1; rewrite free_down|]. intros nx o meta root reg mb trees f Hh F Hr Hk.
    eapply wp_mono; [eapply (mkdir_spec Hmax Hsteady Hname Hmeta n nx w.2 p); [with_room|done|done|done]|]. cbv beta. intros r s' (f' & Hl & Hcr). exists f'. split; [done|]. exists r. split; [done|]. eapply makes_mono; [|exact Hcr]. by eapply fresh_above.
  - eapply tree_sim; [done|intros; by apply unlink_down|]. intros nx o meta root reg mb trees f Hh F Hr Hk.
    eapply wp_mono; [eapply (unlink_spec Hmax Hsteady Hname Hmeta n nx w.2 p); [with_room|done|done]|]. cbv beta. intros r s' (f' & Hl & Hu). exists f'. split; [done|]. by exists r.
  - eapply tree_sim; [done|intros; by apply rename_down|]. intros nx o meta root reg mb trees f Hh F Hr Hk.
    eapply wp_mono; [eapply (rename_spec Hmax Hsteady Hname Hmeta n nx w.2 p q); [with_room|done|done|done]|]. cbv beta. intros r s' (f' & Hl & Hu). exists f'. split; [done|]. by exists r.
  - eapply tree_sim; [done|intros; by unfold blobfs_stat, mbnd; rewrite resolve_down|]. intros nx o meta root reg mb trees f Hh F Hr Hk.
    eapply wp_mono; [eapply (path_stat_spec Hmax Hname n nx w.2 p); [with_room|done|done]|]. cbv beta. intros r s' Hs. exists f. destruct (same_live n n _ _ _ _ _ _ _ _ _ _ _ _ F Hr Hs ltac:(lia)). split; [done|]. split; [done|]. by exists r.
  - eapply tree_sim; [done|intros; by unfold list_path, blobfs_opendir, mbnd; rewrite resolve_down|]. intros nx o meta root reg mb trees f Hh F Hr Hk.
    eapply wp_mono; [eapply (list_spec Hmax Hname n nx w.2 p fuel); [with_room|done|done]|]. cbv beta. intros r s' (Hh' & Est & Hl). exists f. split; [|split; [done|by exists r]].
    apply (live_same n n nx nx o w.2 s' F Hr Hh' Est); [lia|apply tracks_refl|done].
  - destruct Hc. eapply tree_sim; [done|intros; by unfold blobfs_read, mbnd; rewrite lookup_down|]. intros nx o meta root reg mb trees f Hh F Hr Hk.
    eapply wp_mono; [eapply (read_spec Hmax Hname n nx w.2 p off k); [with_room|done..]|]. cbv beta. intros r s' Hs. exists f. destruct (same_live n n _ _ _ _ _ _ _ _ _ _ _ _ F Hr Hs ltac:(lia)). split; [done|]. split; [done|]. by exists r.
  - destruct Hc. eapply tree_sim; [done|intros; by unfold blobfs_write, mbnd; rewrite lookup_down|]. intros nx o meta root reg mb trees f Hh F Hr Hk.
    eapply wp_mono; [eapply (write_spec Hmax Hsteady Hname n nx w.2 p off b); [with_room|done..]|]. cbv beta. intros r s' Hs.
    eapply (lands_live n) in Hs as (f' & Hl & _ & _ & Ho); [|done|apply at_path_intent; intros; apply write_want_intent|lia]. exists f'. split; [done|]. by exists r.
  - eapply tree_sim; [done|intros; by unfold blobfs_truncate, mbnd; rewrite lookup_down|]. intros nx o meta root reg mb trees f Hh F Hr Hk.
    eapply wp_mono; [eapply (truncate_spec Hmax Hsteady Hname n nx w.2 p size); [with_room|done..]|]. cbv beta. intros r s' Hs.
    eapply (lands_live n) in Hs as (f' & Hl & _ & _ & Ho); [|done|apply at_path_intent; intros; apply truncate_want_intent|lia]. exists f'. split; [done|]. by exists r.
  - eapply id_sim; [done|]. intros nx o meta root reg mb trees f id Hh F Hk. eapply wp_mono; [eapply (size_id_spec n nx id w.2); [with_room|done]|]. cbv beta. intros r s' (Hh' & Est & Ha).
    exists f. split; [by eapply moved_here|]. split_and!; try done. by exists r.
  - destruct Hc. eapply id_sim; [done|]. intros nx o meta root reg mb trees f id Hh F Hk. eapply wp_mono; [eapply (read_id_spec n nx id off k w.2); [with_room|done..]|]. cbv beta. intros r s' (Hh' & Est & Ha).
    exists f. split; [by eapply moved_here|]. split_and!; try done. by exists r.
  - destruct Hc. eapply id_sim; [done|]. intros nx o meta root reg mb trees f id Hh F Hk. eapply wp_mono; [eapply (write_id_spec Hmax Hsteady n nx id off b w.2); [with_room|done..]|]. cbv beta. intros r s' Hs.
    eapply (lands_moved n) in Hs as (f' & Hmv & Est & Ei & Ho); [|apply write_want_intent|lia]. exists f'. split_and!; try done. by exists r.
  - eapply id_sim; [done|]. intros nx o meta root reg mb trees f id Hh F Hk. eapply wp_mono; [eapply (truncate_id_spec Hmax Hsteady n nx id size w.2); [with_room|done..]|]. cbv beta. intros r s' Hs.
    eapply (lands_moved n) in Hs as (f' & Hmv & Est & Ei & Ho); [|apply truncate_want_intent|lia]. exists f'. split_and!; try done. by exists r.
Qed.

Lemma fs_run_steps n cs fv w : Forall fs_call_ok cs -> fs_inv (fs_cost * length cs + n) fv w -> let (rs, w') := fs_run cs w in exists fv', fs_inv n fv' w' /\ fs_steps fv cs rs fv'.
Proof.
  intros Hcs. revert fv w. induction Hcs as [|c cs Hc _ IH]; intros fv w Hi; cbn [fs_run]; [exists fv; split; [by apply (inv_le (fs_cost * 0 + n)); [|lia]|constructor]|].
  pose proof (fs_exec_step (fs_cost * length cs + n) fv w c ltac:(eapply inv_le; [exact Hi|cbn [length]; lia]) Hc) as Hs. unfold fs_sim in Hs. destruct (fs_exec c w) as [r w1]. destruct Hs as (fv1 & Hi1 & Hst).
  specialize (IH fv1 w1 Hi1). destruct (fs_run cs w1) as [rs w2]. destruct IH as (fv2 & Hi2 & Hsts). exists fv2. split; [done|]. by econstructor.
Qed.

(** What holds of any file system a client sees. *)
Lemma inv_wf n root f up hs w : fs_inv n (mk_fview (Some (root, f)) up hs) w -> fs_wf BLOBFS_NAME_MAX root f.
Proof. intros (nx & o & _ & _ & _ & _ & meta & (reg & mb & trees & F) & _). apply (fy_wf F). Qed.
End runs.
