(* ===== verification/KvCorrect.v ===== *)
(** What the development establishes of the layers over the object store: the
    root registry and the kvhash map. *)

From S2P Require Import Prelude Layout Store SlotIndexIface Image Core CoreRead Lookup Append Bucket Compact.
From S2P Require Import CompactImage Recovery CompactSpec Ops OpsRead OpsWrite Master Mount MasterSpec MasterInv.
From S2P Require Import MountSpec Session BlobIface BlobDb.
From S2P Require Import BlobIface Prelude Layout Records RootReg RootRegSpec.
From S2P Require Import KvHash KvHashRep KvHashRead KvHashOps KvHashSet KvHashCreate KvHashWalk KvHashDestroy KvHashRuns.
From S2P Require Import Kvdb KvdbSpec.

(** ** The object store, as the layers above see it *)

Section contract.
Context (cfg : config) (g : geom) `{Crc}.
Context {S I : Type} `{!Store S} `{!StoreView S} `{!SlotIndex I}.
Context (Hg : geom_ok cfg g) (Ha : geom_aligned g) {SL : StoreLaws S (store_geom_of g)} {CL : CrcLaws _}.
Context (sidx_wf : Z -> I -> Prop) {IL : SlotIndexLaws I sidx_wf}.
Context (Hlp : LARGE_PAYLOADS cfg = false).
Notation holds := (db_holds cfg g sidx_wf).

(** C30: in a session on a device that works blob_db is a finite map from ids to
    payloads: the replies of its calls are computed from the map, an allocation
    gives the next id, and a mutation changes its own id only, or is refused
    with -ENOSPC and changes nothing. *)
Theorem blob_db_is_an_object_map n nx o (d : db S I) id p sz off k : holds n nx o d -> 0 <= id < 2 ^ 64 -> 0 <= off -> 0 <= k -> bytes_ok p ->
  (forall n', n = Datatypes.S n' -> wp (blob_db_alloc_id cfg) d (fun r d' => r = Ok nx /\ holds n' (nx + 1) o d')) /\
  wp (blob_db_get cfg id false sz) d (fun r d' => r = get_reply o id sz /\ holds n nx o d') /\
  wp (blob_db_size cfg id false) d (fun r d' => r = size_reply o id /\ holds n nx o d') /\
  wp (blob_db_read cfg id off false k) d (fun r d' => r = read_reply o id off k /\ holds n nx o d') /\
  wp (blob_db_update cfg id (Some p)) d (fun r d' =>
    if (id =? 0) || (id >=? nx) || (len p >? MAX_PAYLOAD_LEN cfg) then r = Err EINVAL /\ holds n nx o d'
    else (r = Ok tt /\ holds n nx (<[id := p]> o) d') \/ (r = Err ENOSPC /\ holds n nx o d')) /\
  (id <> BLOB_ROOT -> wp (blob_db_delete cfg id) d (fun r d' =>
    match o !! id with
    | None => r = Err ENOENT /\ holds n nx o d'
    | Some _ => (r = Ok tt /\ holds n nx (delete id o) d') \/ (r = Err ENOSPC /\ holds n nx o d')
    end)) /\
  (forall old, o !! id = Some old -> 0 < id -> off + len p <= MAX_PAYLOAD_LEN cfg -> off + len p < 2 ^ 32 -> p <> [] ->
    wp (blob_db_write cfg id off (Some p)) d (fun r d' =>
      (r = Ok tt /\ holds n nx (<[id := overwrite off p old]> o) d') \/ (r = Err ENOSPC /\ holds n nx o d'))).
Proof.
  intros Hh Hid Ho Hk Hp.
  assert (forall A (want r : res A) d', answer no_fault (holds n nx o) want r d' -> r = want /\ holds n nx o d') as Hans by (intros A want r d' [? [?|(? & [] & _)]]; done).
  assert (forall o' r d', effect no_fault True False (holds n nx o) (holds n nx o') r d' -> (r = Ok tt /\ holds n nx o' d') \/ (r = Err ENOSPC /\ holds n nx o d')) as Heff.
  { intros o' r d' [[-> ?]|[(e & [[-> _]|[]] & -> & ?)|(e & [] & _)]]; auto. }
  split_and!.
  - intros n' ->. by apply (db_alloc cfg g Hg sidx_wf n' nx o d).
  - eapply wp_mono; [by apply (db_get cfg g Hg sidx_wf Hlp n nx o d id sz)|]. apply Hans.
  - eapply wp_mono; [by apply (db_size cfg g Hg sidx_wf Hlp n nx o d id)|]. apply Hans.
  - eapply wp_mono; [by apply (db_read cfg g Hg sidx_wf Hlp n nx o d id off k)|]. apply Hans.
  - eapply wp_mono; [by apply (db_update cfg g Hg Ha sidx_wf n nx o d id p)|]. cbv beta. intros r d' Hr. destruct (_ || _); auto.
  - intros Hne. eapply wp_mono; [by apply (db_delete cfg g Hg Ha sidx_wf Hlp n nx o d id)|]. cbv beta. intros r d' Hr. destruct (o !! id); auto.
  - intros old E Hid0 Hf Hs Hne. eapply wp_mono; [apply (db_write cfg g Hg Ha sidx_wf Hlp n nx o d id off p old); (done || lia)|]. cbv beta. intros r d' Hr.
    destruct (Z.eqb_spec (len p) 0) as [E0|_]; [by destruct p; [|rewrite len_cons in E0; pose proof (len_nonneg p); lia]|].
    destruct (Z.gtb_spec (off + len p) (MAX_PAYLOAD_LEN cfg)); [lia|]. by apply Heff.
Qed.
End contract.

(** ** The root registry *)

Section registry.
Context (MAX_ROOTS : Z) {D : Type} `{!Blobs D} {L : BlobLaws D}.
Context (Hmax : 1 <= MAX_ROOTS <= 1000) (Hfit : RR_IMAGE_MAX MAX_ROOTS <= blob_max).
Notation registry := (registry MAX_ROOTS).
Implicit Types (o : objs) (m : gmap Z Z).

(** C31: every registry call is one step of a finite map from keys to root ids,
    or it is refused and leaves the registry as it was; a key is bound once, an
    id is reserved before it is published, and no object but the root is
    written. *)
Theorem registry_refines_map c n nx o (d : D) m : holds (S n) nx o d -> registry o m -> rr_call_ok c ->
  wp (rr_exec MAX_ROOTS c) d (fun r d' => exists nx' o', holds n nx' o' d' /\ nx <= nx' /\
    (forall id, id <> BLOB_ROOT -> o' !! id = o !! id) /\
    ((r = (reg_step MAX_ROOTS nx m c).1 /\ registry o' (reg_step MAX_ROOTS nx m c).2) \/
     (exists e, refused e /\ r = Err e /\ (o' = o \/ (tears /\ registry o' (reg_step MAX_ROOTS nx m c).2))))).
Proof. apply registry_step; done. Qed.

(** C32: a root object that is not a registry is never overwritten: every call is
    refused, with -ENOTSUP, or with -ENOMEM when the object is larger than a
    registry can be. *)
Theorem registry_leaves_foreign_root_alone c n nx o (d : D) b : holds n nx o d -> o !! BLOB_ROOT = Some b -> foreign b ->
  wp (rr_exec MAX_ROOTS c) d (fun r d' => holds n nx o d' /\
    (r = Err (if bad_args c then EINVAL else if RR_IMAGE_MAX MAX_ROOTS <? len b then ENOMEM else ENOTSUP) \/
     exists e, fault e /\ r = Err e)).
Proof. apply foreign_step; done. Qed.
End registry.

(** ** Runs of a map *)

Section kv_runs.
Context `{Crc} {D : Type} `{!Blobs D} {CL : CrcLaws _} {L : BlobLaws D}.
Notation MAX_PAYLOAD := (blob_max (D := D)).
Notation kvh := (kvh (D := D)).
Implicit Types (s : kvh) (o : objs) (m : gmap bytes bytes) (t : kvtree).
Context (Hmax : 24 <= MAX_PAYLOAD <= ENT_LEN_MASK) (Hsteady : ~ tears (D := D)).


(** C34: on a store that neither fails nor fills, [kvhash_set()] does exactly what
    its bucket allows: the value is stored iff the packed entries still fit, and
    the code tells a bad argument from a full bucket. *)
Theorem kvhash_set_is_exact n nx o s t key val : ~ fills (D := D) -> (forall e, ~ fault (D := D) e) ->
  khold (3 + n) nx o s -> tree_ok (D := D) t -> stored o (tree_objs t) -> bytes_ok key -> bytes_ok val ->
  wp (kvhash_set (tree_root t) (Some key) (Some val)) s (fun r s' => exists t',
    became n nx o t t' s' /\ r = (set_want s t key val).1 /\ tree_map t' = (set_want s t key val).2).
Proof.
  intros Hnf Hf Hh Ht Hs Hk Hv. eapply wp_mono; [by apply (set_spec Hmax Hsteady n nx o s t key val)|]. cbv beta.
  intros r s' (t' & Hb & [[-> Hm]|(e & He & _)]); [by exists t'|]. exfalso. destruct He as [[_ ?]|[He|[_ [e' He]]]]; [done|by apply (Hf e)|by apply (Hf e')].
Qed.

(** C36: a walk with [kvhash_next()] from the start passes every entry of the map
    exactly once, in the order of its directories, and ends. *)
Theorem kvhash_walk_passes_each_entry_once n nx o s t kout_sz vout_sz :
  khold n nx o s -> tree_ok (D := D) t -> stored o (tree_objs t) -> ENT_LEN_MASK <= kout_sz -> ENT_LEN_MASK <= vout_sz ->
  wp (walk (S (size (tree_map t))) (tree_root t) None kout_sz vout_sz) s (fun r s' => khold n nx o s' /\
    ((exists kvs, r = Ok kvs /\ rising t kvs /\ NoDup kvs.*1 /\ list_to_map kvs = tree_map t) \/ (exists e, fault e /\ r = Err e))).
Proof. apply walk_spec, Hmax. Qed.
End kv_runs.

Section kv_life.
Context `{Crc} {D : Type} `{!Blobs D} {CL : CrcLaws _} {L : BlobLaws D}.
Notation MAX_PAYLOAD := (blob_max (D := D)).
Notation kvh := (kvh (D := D)).
Implicit Types (s : kvh) (o : objs) (t : kvtree).


(** C37: [kvhash_destroy()] of a map, live or left by an earlier attempt, either
    releases every object of it or reports an error that leaves the map
    untouched or condemned, so that it can be repeated; nothing else is touched,
    and a condemned map opens no more. *)
Theorem kvhash_destroy_is_resumable n nx o s t : 24 <= MAX_PAYLOAD <= ENT_LEN_MASK ->
  khold n nx o s -> tree_ok (D := D) t -> apart t -> stored o (tree_objs t) \/ condemned o t ->
  wp (kvhash_destroy (tree_root t)) s (fun r s' => exists o', khold n nx o' s' /\
    (forall id, id ∉ (tree_objs t).*1 -> o' !! id = o !! id) /\
    ((r = Ok tt /\ (forall id, id ∈ (tree_objs t).*1 -> o' !! id = None)) \/
     (exists e, refused e /\ r = Err e /\
       (o' = o \/ condemned o' t \/ (tears /\ gone o' (tree_objs t)))))) /\
  (condemned o t -> wp (dir_load (tree_root t)) s (fun r s' => khold n nx o s' /\ (r = Err ENOENT \/ exists e, fault e /\ r = Err e))).
Proof.
  intros Hmax Hh Ht Hap Hst. split; [|by apply condemned_load]. eapply wp_mono; [by apply (destroy_spec Hmax n nx o s t)|]. cbv beta.
  intros r s' (o' & Hh' & Ha & Hr). exists o'. by split_and!.
Qed.
End kv_life.

(** ** Named maps *)

Section kvdb.
Context `{Crc} {D : Type} `{!Blobs D} {CL : CrcLaws _} {L : BlobLaws D} (MAX_ROOTS : Z).
Notation MAX_PAYLOAD := (blob_max (D := D)).
Context (Hmax : 72 <= MAX_PAYLOAD <= ENT_LEN_MASK) (Hsteady : ~ tears (D := D)) (Hroots : 1 <= MAX_ROOTS <= 1000) (Hfit : RR_IMAGE_MAX MAX_ROOTS <= MAX_PAYLOAD).

End kvdb.
