(* ===== verification/Correctness.v ===== *)
(** What the development establishes of blob_db, one theorem per property. The
    lemmas of the component files carry the proofs. *)

From Stdlib Require Sorted.
From S2P Require Import Prelude Layout Store FlashStore SlotIndexIface SlotIndexHash SlotIndexLaws.
From S2P Require Import Image Core CoreRead Lookup Append Bucket Compact CompactImage Recovery CompactSpec Ops.
From S2P Require Import OpsRead OpsWrite Master Mount MasterSpec MasterInv MountSpec Session Segments.

(** ** The object store *)

(** The ids a run handed out, in order. *)
Fixpoint alloc_ids (rs : list reply) : list Z :=
  match rs with
  | [] => []
  | RpId id :: rs => id :: alloc_ids rs
  | _ :: rs => alloc_ids rs
  end.

Lemma obj_step_next cfg full_for o r s s' : obj_step cfg full_for o r s s' ->
  os_next s <= os_next s' /\ match r with RpId id => id = os_next s /\ os_next s' = id + 1 | _ => True end.
Proof.
  destruct o; cbn; unfold mutated, unchanged, bound; intros Hs;
    repeat match goal with
    | H : context [if ?b then _ else _] |- _ => destruct b
    | H : context [match ?b with Some _ => _ | None => _ end] |- _ => destruct b
    | H : _ /\ _ |- _ => destruct H
    | H : _ \/ _ |- _ => destruct H
    | H : exists _, _ |- _ => destruct H
    end; subst; (split; [lia|done]).
Qed.

Lemma obj_steps_ids cfg os rs s s' : obj_steps cfg os rs s s' ->
  Sorted.StronglySorted Z.lt (alloc_ids rs) /\ Forall (fun id => os_next s <= id < os_next s') (alloc_ids rs) /\ os_next s <= os_next s'.
Proof.
  induction 1 as [s s' [Hn _]|o os r rs s s1 s' ff Hst Hss (IH1 & IH2 & IH3)]; cbn [alloc_ids].
  - split; [constructor|]. split; [constructor|lia].
  - apply obj_step_next in Hst as [Hle Hr].
    assert (Forall (fun id => os_next s <= id < os_next s') (alloc_ids rs)) as Hall by (eapply Forall_impl; [|exact IH2]; cbn; lia).
    destruct r; try (split; [done|]; split; [done|lia]). destruct Hr as [-> Hr]. split; [|split; [constructor; [lia|done]|lia]].
    constructor; [done|]. eapply Forall_impl; [|exact IH2]. cbn. lia.
Qed.

Section store.
Context (cfg : config) (g : geom) `{Crc}.
Context {S I : Type} `{!Store S} `{!StoreView S} `{!SlotIndex I}.
Context (Hg : geom_ok cfg g) (Ha : geom_aligned g) {SL : StoreLaws S (store_geom_of g)} {CL : CrcLaws _}.
Context (sidx_wf : Z -> I -> Prop) {IL : SlotIndexLaws I sidx_wf}.
Context (Hlp : LARGE_PAYLOADS cfg = false).
Context (Hop : opens cfg g) (Hnd : forall off (s : S), blob_db_store_open_found_damage off s = false).
Notation db := (db S I).
Notation session := (session cfg g sidx_wf).
Notation live := (live cfg g sidx_wf).
Notation contents := (contents cfg g).
Notation mishap := (mishap cfg g).
Notation next_boot := (next_boot cfg g sidx_wf).
Implicit Types d : db.

(** C1: on a device that works, every sequence of public calls, remounts
    included, is a run of the abstract object store, reply by reply: what was
    written is what is read, ids are handed out in order, and a call refused
    changes nothing. *)
Theorem runs_refine_object_store os d :
  session d -> room d (len os) -> Forall op_ok os ->
  let (rs, d') := run cfg os d in session d' /\ obj_steps cfg os rs (abs cfg g d) (abs cfg g d').
Proof. intros Se Hr Ho. by apply (run_sim cfg g Hg Ha sidx_wf Hlp Hop Hnd). Qed.





(** C6: formatting an unmounted store on a device that works gives a mounted
    store that holds the empty root and nothing else, with id 2 the next one. *)
Theorem format_gives_empty_store d m :
  mounted (d_st d) = false -> sidx_wf m (d_ix d) -> bootable (d_store d) ->
  wp (blob_db_format cfg) d (fun rc d' => rc = Ok tt /\ session d' /\ next_id (d_st d') = 2 /\
    forall id, contents d' id = only_root id).
Proof.
  intros Hm Hx Hh. eapply wp_mono; [by apply (format_session cfg g Hg Ha sidx_wf Hop d m)|]. cbv beta.
  intros rc d' (? & ? & ? & _ & Hs). split_and!; try done. by apply (only_root_contents cfg g).
Qed.

(** C7: mounting a store at rest, a compaction cut half way included, succeeds
    on a device that works and yields a session with exactly the objects
    recovery reads off flash, issuing ids from the persisted ceiling on. *)
Theorem mount_resumes_store d a h h' n r :
  at_rest cfg g sidx_wf d a h h' n r -> bootable (d_store d) ->
  wp (blob_db_mount cfg) d (fun rc d' => rc = Ok tt /\ session d' /\ next_id (d_st d') = r_next_id_hint r /\
    forall id, contents d' id = rcontents cfg g d id).
Proof.
  intros Hr Hh. eapply wp_mono; [by apply (mount_session cfg g Hg Ha sidx_wf Hop Hnd d a h h' n r)|]. cbv beta.
  intros rc d' [Hw Hrc]. destruct (Hw Hh) as [Hok Hh']. destruct rc as [[]|]; [|done]. destruct Hrc as (Lv & Hnx & _ & Hct).
  split; [done|]. split; [by split|]. split; [done|]. intros id. unfold Bucket.contents, rcontents. by rewrite Hct.
Qed.

(** C8: the ids a run hands out are strictly increasing, remounts included: none
    is handed out twice, and none is 0 or the root. *)
Theorem allocated_ids_are_fresh os d :
  session d -> room d (len os) -> Forall op_ok os ->
  let (rs, _) := run cfg os d in
  Sorted.StronglySorted Z.lt (alloc_ids rs) /\ Forall (fun id => next_id (d_st d) <= id /\ id <> BLOB_DB_ROOT_ID) (alloc_ids rs).
Proof.
  intros Se Hr Ho. pose proof (run_sim cfg g Hg Ha sidx_wf Hlp Hop Hnd os d Se Hr Ho) as Hs. destruct (run cfg os d) as [rs d'].
  destruct Hs as [_ Hs]. apply obj_steps_ids in Hs as (H1 & H2 & _). split; [done|]. eapply Forall_impl; [|exact H2].
  cbn. intros id Hid. pose proof (lv_next _ _ _ _ (se_live _ _ _ _ Se)). unfold BLOB_DB_ROOT_ID. lia.
Qed.

(** C9: on a device that may fail, alloc hands out an id only when a ceiling
    above it is already on flash; otherwise it answers 0 and consumes nothing. *)
Theorem alloc_is_covered d :
  master_inv cfg g d -> mounted (d_st d) = true -> d_geo d = g -> 0 < next_id (d_st d) < 2 ^ 64 - 257 -> rot_gen (d_st d) <> UINT32_MAX ->
  wp (blob_db_alloc_id cfg) d (fun rc d' => exists id, rc = Ok id /\
    ((id = next_id (d_st d) /\ next_id (d_st d') = id + 1 /\ exists C, covers cfg g d' C /\ id < C) \/
     (id = 0 /\ next_id (d_st d') = next_id (d_st d) /\ ~ healthy (d_store d)))).
Proof.
  intros Hi Hm Hge Hid Hrg. unfold blob_db_alloc_id. apply wp_bnd, wp_gets. rewrite Hge.
  eapply wp_mono; [by apply (alloc_id_spec cfg g Hg d)|]. cbv beta. intros rc d' (_ & Hw & id & -> & Hnz & Hc). exists id. split; [done|].
  destruct Hc as [(-> & Hn & Hi' & Hlt & _)|(-> & Hn & _)]; [left|right].
  - split; [done|]. split; [done|]. exists (next_id_hint (d_st d')). split; [by apply inv_covers|done].
  - split; [done|]. split; [done|]. intros Hh. by apply (Hnz Hh).
Qed.


(** C11: an update whose bucket has room for the payload once compacted is never
    refused for space. *)
Theorem update_with_room_succeeds d id p :
  session d -> 0 < id < next_id (d_st d) -> id < 2 ^ 64 -> bytes_ok p -> len p <= MAX_PAYLOAD_LEN cfg ->
  (let cl := compact_len cfg g (bimg d (id mod n_buckets g)) in
   cl <= scratch_seal_off g /\ cl + slot_size_for g (len p) <= peb_size g) ->
  wp (blob_db_update cfg id (Some p)) d (fun rc d' => rc = Ok tt /\ session d' /\
    forall id', contents d' id' = if decide (id' = id) then Some p else contents d id').
Proof.
  intros Se Hid H64 Hb Hp Hfit. apply wp_intro. intros rc d' E.
  pose proof (update_sim cfg g Hg Ha sidx_wf d id p Se ltac:(lia) Hb) as Hs. unfold simulates, exec, rc_reply in Hs. rewrite E in Hs.
  cbn [obj_step abs os_next os_objects] in Hs.
  destruct (Z.eqb_spec id 0); [lia|]. rewrite Z.geb_leb in Hs. destruct (Z.leb_spec (next_id (d_st d)) id); [lia|].
  destruct (Z.gtb_spec (len p) (MAX_PAYLOAD_LEN cfg)); [lia|]. cbn [orb] in Hs.
  destruct Hs as [[Se' _] [[Er [_ Hv]]|(_ & _ & Hf)]]; [by injection Er as ->|].
  exfalso. unfold full_in, full in Hf. cbv zeta in Hfit. lia.
Qed.

(** What was written is what is read back, after a remount too. *)
Theorem update_then_get d id p sz :
  session d -> 0 < id < next_id (d_st d) -> id < 2 ^ 64 -> bytes_ok p -> len p <= MAX_PAYLOAD_LEN cfg -> len p <= sz ->
  let '(r1, d1) := exec cfg (OpUpdate id p) d in let (_, d2) := exec cfg OpRemount d1 in let (r3, _) := exec cfg (OpGet id sz) d2 in
  r1 = RpRc (Ok tt) -> r3 = RpBytes (Ok p).
Proof.
  intros Se Hid H64 Hb Hp Hsz.
  pose proof (update_sim cfg g Hg Ha sidx_wf d id p Se ltac:(lia) Hb) as H1. unfold simulates in H1.
  destruct (exec cfg (OpUpdate id p) d) as [r1 d1]. destruct H1 as [[Se1 _] H1].
  pose proof (remount_sim cfg g Hg Ha sidx_wf Hop Hnd d1 Se1) as H2. unfold simulates in H2.
  destruct (exec cfg OpRemount d1) as [r2 d2]. destruct H2 as [[Se2 _] (_ & _ & H2)].
  pose proof (get_sim cfg g Hg sidx_wf Hlp d2 id sz Se2 ltac:(lia)) as H3. unfold simulates in H3.
  destruct (exec cfg (OpGet id sz) d2) as [r3 d3]. destruct H3 as [_ [_ ->]]. intros ->. cbn [obj_step abs os_next os_objects] in *.
  destruct (_ || _); [by destruct H1|]. destruct H1 as [[_ [_ H1]]|[? _]]; [|done]. specialize (H1 id). specialize (H2 id). cbn in H1, H2.
  rewrite H2, H1, decide_True by done. destruct (Z.ltb_spec sz (len p)); [lia|done].
Qed.

(** C13: iterate calls back once for each object, in a fixed order, under its id
    and with its payload, until the callback asks it to stop. *)
Theorem iterate_visits_each_object {U} d (cb : Z -> bytes -> U -> Z * U) user :
  session d ->
  wp (blob_db_iterate cfg (Some cb) user) d (fun rc d' => exists l, rc = Ok (visit cb l user) /\ NoDup (e_id <$> l) /\
    (forall id p, contents d id = Some p <-> exists e, e ∈ l /\ e_id e = id /\ e_payload e = p) /\ same_flash (d_store d) (d_store d')).
Proof.
  intros Se. pose proof (se_live _ _ _ _ Se) as Lv. pose proof (rd_inv _ _ _ _ (lv_ready _ _ _ _ Lv)) as Hi. pose proof (ok_buckets _ _ Hg).
  unfold blob_db_iterate, iterate_impl. apply wp_bnd, wp_gets, wp_bnd, wp_gets. rewrite (lv_geo _ _ _ _ Lv), (lv_mounted _ _ _ _ Lv). cbn [negb].
  eapply wp_mono; [apply (iterate_loop_spec cfg g Hg sidx_wf); try done; [apply Se|lia]|]. cbv beta. intros rc d' [-> Hr].
  exists (objects cfg g d). split; [done|]. split; [apply (objects_from_nodup cfg g sidx_wf); [done|lia..]|]. split; [|apply Hr].
  intros id p. split.
  - intros Hc. pose proof (bucket_range cfg g Hg id). apply (objects_from_complete cfg g d); [done|lia..|done].
  - intros (e & He & <- & <-).
    by destruct (objects_from_elem cfg g sidx_wf d (Z.to_nat (n_buckets g)) 0 e Hi ltac:(lia) ltac:(lia) He) as (_ & _ & ?).
Qed.

(** C14: looking an object up through the RAM index, or by walking its bucket
    where the index does not know, finds the same as reading the whole log of
    the bucket. *)
Theorem lookup_agrees_with_log d id :
  0 < id < 2 ^ 64 -> db_inv cfg g sidx_wf d -> let bid := id mod n_buckets g in
  bucket_hdr_valid (bimg d bid) bid = true ->
  wp (find_live_slot cfg g bid id) d (fun r d' => same_flash (d_store d) (d_store d') /\ match r with
    | Ok (_, rc) => rc = match value id (bucket_log cfg g (bimg d bid)) with Some p => Ok p | None => Err ENOENT end
    | Err e => ~ healthy (d_store d) /\ device_err e
    end).
Proof.
  intros Hid Hi bid Hv. eapply wp_mono; [apply (find_live_located cfg g Hg sidx_wf d id Hlp Hid Hi Hv), Hi|]. cbv beta.
  intros [[sc rc]|e] d' (Hr & _ & Hq); (split; [apply Hr|]); [|done]. destruct Hq as [Hq _]. cbn in Hq. rewrite Hq.
  unfold Bucket.contents, slots, bucket_slot. fold bid. by rewrite Hv.
Qed.

(** C15: compaction rewrites a bucket to its live objects only, and keeps every
    object of the store. *)
Theorem compaction_keeps_objects d bid :
  0 <= bid < n_buckets g -> ready cfg g sidx_wf d -> bucket_hdr_valid (bimg d bid) bid = true -> healthy (d_store d) ->
  compact_len cfg g (bimg d bid) <= scratch_seal_off g ->
  wp (compact_bucket cfg g bid) d (fun rc d' => rc = Ok tt /\ ready cfg g sidx_wf d' /\ same_contents cfg g d d' /\
    log_end cfg g (bimg d' bid) = compact_len cfg g (bimg d bid)).
Proof.
  intros Hb [Hi Hu] Hv Hh Hl. eapply wp_mono; [by apply (compact_bucket_spec cfg g Hg Ha sidx_wf d bid)|]. cbv beta. intros rc d' Hc.
  destruct (cm_works _ _ _ _ _ _ _ Hc Hh) as [_ Hrc]. assert (rc = Ok tt) as ->.
  { destruct Hrc as [->|E]; [done|]. destruct (cm_res _ _ _ _ _ _ _ Hc) as [(_ & ? & _)|Hce]; [lia|].
    exfalso. rewrite E in Hce. inversion Hce; subst; unfold device_err in *; tauto || congruence. }
  destruct (compact_done cfg g Hg Ha sidx_wf d d' bid Hb Hi Hv Hc) as (Hi' & Hs & _ & _ & He & _ & _ & Hu').
  split; [done|]. split; [split; auto|]. done.
Qed.

(** C16: a compaction that is cut anywhere, scratch half written, sealed, or the
    bucket half rewritten, loses nothing: recovery reads the same objects. *)
Theorem compaction_cut_is_recoverable d bid :
  0 <= bid < n_buckets g -> ready cfg g sidx_wf d -> bucket_hdr_valid (bimg d bid) bid = true ->
  wp (compact_bucket cfg g bid) d (fun _ d' =>
    stray_seal g (scratch d') bid (compact_image cfg g (bimg d bid) bid) \/
    (rinv cfg g d' /\ forall id, rcontents cfg g d' id = contents d id)).
Proof.
  intros Hb [Hi Hu] Hv. eapply wp_mono; [by apply (compact_bucket_spec cfg g Hg Ha sidx_wf d bid)|]. cbv beta. intros rc d' Hc.
  destruct (compact_recoverable cfg g Hg Ha sidx_wf d d' rc bid Hb Hi Hu Hv Hc) as [?|(Hri & _ & Hs)]; [by left|right]. split; [done|]. intros id. unfold Bucket.contents, rcontents. by rewrite Hs.
Qed.

(** C17: recovery either completes the compaction it finds sealed in scratch, or
    fails in a state from which the next attempt can still complete it. *)
Theorem recovery_completes_compaction d b il :
  seal_aligned g d -> sealed_as g (scratch d) = Some (b, il) ->
  wp (recover_compaction g) d (fun rc d' =>
    (forall q, q <> BLOB_DB_SCRATCH_SECTOR -> q <> BLOB_DB_FIRST_BUCKET + b -> pimg d' q = pimg d q) /\
    match rc with
    | Ok _ => bimg d' b = committed g il (scratch d) /\ scratch d' = erased (peb_size g)
    | Err _ => ~ healthy (d_store d) /\ (scratch d' = scratch d \/ bimg d' b = committed g il (scratch d))
    end).
Proof.
  intros Hal Es. eapply wp_mono; [by apply (recover_compaction_spec cfg g Hg Ha)|]. cbv beta. rewrite Es.
  intros rc d' (Hw & _ & _ & Ho & Hr). split; [done|]. destruct rc; [done|]. split; [|done]. intros Hh. by destruct (Hw Hh).
Qed.

(** Appending to the end of a sound bucket leaves the old log followed by
    the new entry, so the bucket gives the id its new value and every other id
    the value it had. *)
Theorem append_sets_one_value d id fl p :
  0 < id < 2 ^ 64 -> let bid := id mod n_buckets g in let buf := bimg d bid in let e := log_end cfg g buf in
  db_inv cfg g sidx_wf d -> bucket_hdr_valid buf bid = true -> torn_at cfg g buf e = false ->
  flags_ok cfg fl -> bytes_ok p -> len p <= MAX_PAYLOAD_LEN cfg -> e + slot_size_for g (len p) <= peb_size g -> healthy (d_store d) ->
  wp (append_slot cfg g bid e id fl p) d (fun rc d' => rc = Ok tt /\ db_inv cfg g sidx_wf d' /\ set_value cfg g d d' id (slot_value fl p)).
Proof.
  intros Hid bid buf e Hi Hv Ht Hf Hb Hp Hfit Hh.
  eapply wp_mono; [by apply (append_slot_spec cfg g Hg Ha sidx_wf d id fl p)|]. cbv beta. intros rc d' [Hw _ _ _ _ _ _ Hr].
  destruct (Hw Hh) as [Hok _]. destruct rc as [[]|]; [|done]. done.
Qed.

(** On a store that is not mounted every call but mount, format and unmount
    is refused with -ENODEV, or with the empty answer, and touches nothing. *)
Theorem unmounted_calls_refuse d id off n sz (p : option bytes) :
  mounted (d_st d) = false ->
  blob_db_get cfg id false sz d = (Err ENODEV, d) /\ blob_db_update cfg id p d = (Err ENODEV, d) /\
  blob_db_delete cfg id d = (Err ENODEV, d) /\ blob_db_size cfg id false d = (Err ENODEV, d) /\
  blob_db_read cfg id off false n d = (Err ENODEV, d) /\ blob_db_write cfg id off p d = (Err ENODEV, d) /\
  blob_db_erase_all cfg d = (Err ENODEV, d) /\ blob_db_maintain n d = (Ok (Err ENODEV, 0, false), d) /\
  blob_db_alloc_id cfg d = (Ok 0, d) /\ blob_db_exists cfg id d = (Ok false, d) /\ blob_db_count cfg d = (Ok 0, d) /\
  blob_db_unmount d = (Ok tt, d).
Proof.
  intros Hm. split_and!; unfold blob_db_get, blob_db_update, blob_db_delete, blob_db_size, blob_db_read, blob_db_write, blob_db_erase_all,
    blob_db_maintain, blob_db_alloc_id, blob_db_exists, blob_db_count, blob_db_unmount, read_rc, get_impl, update_impl, delete_impl,
    size_impl, read_impl, write_impl, erase_all_impl, alloc_id_impl, exists_impl, count_impl, unmount_impl, mbnd, mtry, st_get, mgets;
    rewrite Hm; reflexivity.
Qed.

End store.

(** ** Opening *)



(** C23: the flash backend keeps the store contract on any flash area that keeps
    its own: whole-sector replace, program-only writes, erases to 0xff, and
    nothing outside the range addressed is ever touched. *)
Theorem flash_backend_keeps_contract {F : Type} `{!FlashArea F} `{!FlashAreaView F} (P al n : Z) :
  FlashAreaLaws F P al n -> @StoreLaws (store_st (F := F) P) (flash_store P) (flash_view P n) (flash_geom P al n).
Proof. intros FL. exact (flash_store_laws P al n). Qed.

(** ** The slot index *)

Section index.
Context (CAP MAX_BKT : Z) (Hcap : exists k, 6 <= k <= 16 /\ CAP = 2 ^ k) (Hbkt : 1 <= MAX_BKT <= 65535).
Notation index_ok := (index_ok CAP MAX_BKT).

(** C24: the hash index keeps the contract blob_db relies on: it may forget, but
    never answers with an offset or a cursor it was not given. *)
Theorem hash_index_keeps_contract : @SlotIndexLaws sidx (hash_index CAP MAX_BKT) (fun n x => 0 < n /\ index_ok n x).
Proof. exact (hash_index_laws CAP MAX_BKT Hcap Hbkt). Qed.

(** Backward-shift deletion removes exactly the id asked for: every other
    id stays reachable from its home cell, with its offset. *)
Theorem index_drop_removes_one n x id :
  index_ok n x -> g_n_buckets x <> 0 -> id <> 0 ->
  index_ok n (drop_id CAP x id) /\ forall id', id' <> 0 -> assoc CAP (drop_id CAP x id) id' = if decide (id' = id) then None else assoc CAP x id'.
Proof.
  intros Hx Hn Hid. destruct (drop_spec CAP MAX_BKT Hcap Hbkt n x id Hx Hn Hid) as (Hx' & _ & _ & Hh). split; [done|]. intros id' Hid'.
  apply option_eq. intros o. rewrite (assoc_holds CAP MAX_BKT Hcap Hbkt n) by done. rewrite Hh by done. case_decide as E.
  - split; [tauto|done].
  - rewrite (assoc_holds CAP MAX_BKT Hcap Hbkt n x) by done. tauto.
Qed.

(** A table that is not full takes a new id, answers for it, and keeps
    every other entry. *)
Theorem index_put_adds_one n x id off :
  index_ok n x -> g_n_buckets x <> 0 -> id <> 0 -> lget (g_cursor x) (id mod n) <> 0 -> g_used x < MAX_FILL CAP ->
  index_ok n (put CAP x id off) /\ forall id', id' <> 0 -> assoc CAP (put CAP x id off) id' = if decide (id' = id) then Some off else assoc CAP x id'.
Proof.
  intros Hx Hn Hid Hc Hu. destruct (put_spec CAP MAX_BKT Hcap Hbkt n x id off Hx Hn Hid Hc) as (Hx' & _ & _ & H1 & H2 & H3).
  split; [done|]. intros id' Hid'. apply option_eq. intros o. rewrite (assoc_holds CAP MAX_BKT Hcap Hbkt n) by done. case_decide as E.
  - subst id'. split; [|intros [= <-]; auto]. intros Hh. destruct (H1 id o Hid Hh) as [[_ ->]|[? _]]; done.
  - rewrite (assoc_holds CAP MAX_BKT Hcap Hbkt n x) by done. split; [|auto]. intros Hh. destruct (H1 id' o Hid' Hh) as [[? _]|[_ ?]]; done.
Qed.

(** Forgetting a bucket removes the entries of that bucket and its cursor,
    and no others; the sweep ends within the steps it is given. *)
Theorem index_forget_clears_bucket n x bid :
  index_ok n x -> g_n_buckets x <> 0 -> 0 <= bid < n ->
  let x' := forget CAP bid x in
  index_ok n x' /\ cursor_of bid x' = None /\
  (forall b, 0 <= b < n -> b <> bid -> cursor_of b x' = cursor_of b x) /\
  (forall id, id <> 0 -> assoc CAP x' id = if decide (id mod n = bid) then None else assoc CAP x id).
Proof.
  intros Hx Hn Hb x'. destruct (forget_spec CAP MAX_BKT Hcap Hbkt n x bid Hx Hb) as (Hx' & En & Hf). fold x' in Hx', En, Hf.
  destruct (Hf Hn) as [Ec Hh]. destruct (ix_lens _ _ _ _ Hx) as (_ & Hlc & _). destruct (ix_n _ _ _ _ Hx) as [?|[_ Hnm]]; [done|].
  split; [done|]. split; [|split].
  - unfold cursor_of. rewrite Ec, lget_lset, Z.eqb_refl by lia. cbn. by rewrite orb_true_r.
  - intros b Hb' Hne. unfold cursor_of, on. rewrite En, Ec, lget_lset by lia. destruct (Z.eqb_spec b bid); [done|done].
  - intros id Hid. apply option_eq. intros o. rewrite (assoc_holds CAP MAX_BKT Hcap Hbkt n) by done. rewrite Hh by done. case_decide as E.
    + split; [tauto|done].
    + rewrite (assoc_holds CAP MAX_BKT Hcap Hbkt n x) by done. tauto.
Qed.
End index.
