(* ===== verification/Demo.v ===== *)
(** A concrete system the theorems are applied to: the flash backend on the
    simulated NOR part of Sim.v, six sectors of 256 bytes with an 8-byte write
    unit, the hash index, and a build with 32-byte payloads. *)

From S2P Require Import Prelude Layout Store FlashStore Sim SlotIndexIface SlotIndexHash SlotIndexLaws.
From S2P Require Import Image Core CoreRead Lookup Append Bucket Compact CompactImage Recovery CompactSpec Ops.
From S2P Require Import OpsRead OpsWrite Master Mount MasterSpec MasterInv MountSpec Session.

Definition demo_cfg : config := mkconfig 32 256 0 false false.

Definition demo_P : Z := 256.
Definition demo_al : Z := 8.
Definition demo_n : Z := 6.
Definition demo_cap : Z := 64.
Definition demo_max : Z := 16.

Definition demo_geom : geom := open_geom demo_cfg (flash_geom demo_P demo_al demo_n).

#[export] Instance demo_flash : FlashArea nor := nor_flash demo_P demo_al demo_n.
#[export] Instance demo_view : FlashAreaView nor := nor_view demo_P demo_n.
#[export] Instance demo_area_laws : FlashAreaLaws nor demo_P demo_al demo_n.
Proof. apply nor_laws; by vm_compute. Qed.

Notation demo_S := (store_st (F := nor) demo_P).
#[export] Instance demo_store : Store demo_S := flash_store demo_P.
#[export] Instance demo_store_view : StoreView demo_S := flash_view demo_P demo_n.
#[export] Instance demo_store_laws : StoreLaws demo_S (store_geom_of demo_geom).
Proof. exact (flash_store_laws demo_P demo_al demo_n). Qed.

#[export] Instance demo_index : SlotIndex sidx := hash_index demo_cap demo_max.
Definition demo_wf : Z -> sidx -> Prop := fun n x => 0 < n /\ index_ok demo_cap demo_max n x.

Lemma demo_cap_ok : exists k, 6 <= k <= 16 /\ demo_cap = 2 ^ k.
Proof. exists 6. by vm_compute. Qed.

Lemma demo_max_ok : 1 <= demo_max <= 65535.
Proof. by vm_compute. Qed.

#[export] Instance demo_index_laws : SlotIndexLaws sidx demo_wf.
Proof. exact (hash_index_laws demo_cap demo_max demo_cap_ok demo_max_ok). Qed.

(** The statics before anything ran. *)
Definition sidx_zero : sidx :=
  mk_sidx (replicate (Z.to_nat demo_cap) 0) (replicate (Z.to_nat demo_cap) 0) 0 (replicate (Z.to_nat demo_max) 0)
    (replicate (Z.to_nat demo_max) 0) 0.

Lemma lget_zero q c : lget (replicate q 0) c = 0.
Proof. unfold lget. destruct (replicate q 0 !! Z.to_nat c) eqn:E; [|done]. by apply lookup_replicate in E as [-> _]. Qed.

Lemma sidx_zero_wf : demo_wf 1 sidx_zero.
Proof.
  split; [lia|]. split; cbn [sidx_zero g_ids g_offs g_used g_cursor g_bcnt g_n_buckets].
  - split; [done|..]; intros i j Hi Hj; by rewrite lget_zero.
  - done.
  - by left.
  - by vm_compute.
  - done.
  - done.
Qed.

Definition st_zero : st_t := mk_st false 0 0 0 false false 0 0 0 0 0 0 0 false 0 0.
Definition geo_zero : geom := mk_geom 0 0 0 0 0 0 0 false.

Lemma be_zero_wf (f : nor) : be_inv demo_P (mk_flash_be false demo_P f).
Proof. done. Qed.

(** The instance on a part with the given cells and faults to come. *)
Definition demo_part (c : bytes) (fs : list bool) : demo_S := mk_store_st demo_P (mk_flash_be false demo_P (mk_nor c fs)) (be_zero_wf _).
Definition demo_off (c : bytes) (fs : list bool) : db demo_S sidx := mk_db st_zero geo_zero sidx_zero (demo_part c fs).

Lemma demo_geom_ok : geom_ok demo_cfg demo_geom.
Proof. apply open_geom_ok; by vm_compute. Qed.

Lemma demo_aligned : geom_aligned demo_geom.
Proof. split; by vm_compute. Qed.

Lemma demo_opens : opens demo_cfg demo_geom.
Proof. split; by vm_compute. Qed.

Lemma demo_damage off (s : demo_S) : blob_db_store_open_found_damage off s = false.
Proof. done. Qed.

(** The store once formatted, on a part that works. *)
Definition demo_db : db demo_S sidx := snd (blob_db_format demo_cfg (demo_off [] [])).

Notation demo_session := (session demo_cfg demo_geom demo_wf).
Notation demo_live := (live demo_cfg demo_geom demo_wf).

Lemma demo_format : fst (blob_db_format demo_cfg (demo_off [] [])) = Ok tt /\ demo_session demo_db /\
  next_id (d_st demo_db) = 2 /\ rot_gen (d_st demo_db) = 2.
Proof.
  assert (bootable (d_store (demo_off [] []))) as Hh by exact (List.Forall_nil _).
  pose proof (wp_out _ _ _ (format_session demo_cfg demo_geom demo_geom_ok demo_aligned demo_wf demo_opens (demo_off [] []) 1
    eq_refl sidx_zero_wf Hh)) as (H1 & H2 & H3 & H4 & _). exact (conj H1 (conj H2 (conj H3 H4))).
Qed.

(** The store with one object, id 2, and the same on a part that will fail in
    the second operation from here. *)
Definition demo_one : db demo_S sidx := snd (run demo_cfg [OpAlloc; OpUpdate 2 [1; 2; 3]] demo_db).

Lemma demo_one_session : demo_session demo_one.
Proof.
  destruct demo_format as (_ & Se & Hn & Hr).
  assert (room demo_db (len [OpAlloc; OpUpdate 2 [1; 2; 3]])) as Hroom by (unfold room; rewrite Hn, Hr; by vm_compute).
  assert (Forall op_ok [OpAlloc; OpUpdate 2 [1; 2; 3]]) as Hok by (repeat constructor; by vm_compute).
  pose proof (run_sim demo_cfg demo_geom demo_geom_ok demo_aligned demo_wf eq_refl demo_opens demo_damage _ _ Se Hroom Hok) as Hrun.
  unfold demo_one. destruct (run demo_cfg _ demo_db) as [rs d']. exact (proj1 Hrun).
Qed.

Definition with_faults (fs : list bool) (d : db demo_S sidx) : db demo_S sidx :=
  let b := be _ (d_store d) in
  mk_db (d_st d) (d_geo d) (d_ix d)
    (mk_store_st demo_P (mk_flash_be (g_fa b) (g_peb_size b) (mk_nor (cells (dev b)) fs)) (be_wf _ (d_store d))).

Lemma faults_live fs d : demo_live d -> demo_live (with_faults fs d).
Proof. intros Lv. apply (live_device demo_cfg demo_geom demo_wf d); [done|]. by intros p. Qed.

Definition demo_cut : db demo_S sidx := with_faults [false; true] demo_one.

Lemma demo_cut_live : demo_live demo_cut.
Proof. apply faults_live, demo_one_session. Qed.

Lemma demo_one_next : next_id (d_st demo_one) = 3 /\ rot_gen (d_st demo_one) = 2.
Proof. split; vm_compute; reflexivity. Qed.

Lemma demo_cut_next : next_id (d_st demo_cut) = 3.
Proof. vm_compute. reflexivity. Qed.

Lemma demo_one_holds : contents demo_cfg demo_geom demo_one 2 = Some [1; 2; 3].
Proof. vm_compute. reflexivity. Qed.

Lemma demo_cut_holds : contents demo_cfg demo_geom demo_cut 2 = Some [1; 2; 3].
Proof. vm_compute. reflexivity. Qed.
