(* ===== verification/Witness.v ===== *)
(** The theorems of Correctness.v at work: each is applied to the concrete
    system of Demo.v, where its hypotheses hold. *)

From S2P Require Import Prelude Layout Store FlashStore Sim SlotIndexIface SlotIndexHash SlotIndexLaws.
From S2P Require Import Image Core CoreRead Lookup Append Bucket Compact CompactImage Recovery CompactSpec Ops.
From S2P Require Import OpsRead OpsWrite Master Mount MasterSpec MasterInv MountSpec Session.
From S2P Require Import Correctness Demo.

Notation demo_mishap := (mishap demo_cfg demo_geom).
Notation demo_boot := (next_boot demo_cfg demo_geom demo_wf).
Notation demo_contents := (contents demo_cfg demo_geom).

(** A run that writes, overwrites, remounts, reads back and allocates again. *)
Definition demo_ops : list op :=
  [OpAlloc; OpUpdate 2 [1; 2; 3]; OpWrite 2 1 [9]; OpRemount; OpGet 2 10; OpAlloc; OpDelete 2; OpExists 2; OpCount].

Lemma demo_ops_ok : Forall op_ok demo_ops.
Proof. repeat constructor; by vm_compute. Qed.

Lemma demo_room : room demo_db (len demo_ops).
Proof. destruct demo_format as (_ & _ & Hn & Hr). unfold room. rewrite Hn, Hr. by vm_compute. Qed.

Lemma demo_db_session : demo_session demo_db.
Proof. apply demo_format. Qed.

Lemma runs_refine_object_store_witness :
  fst (run demo_cfg demo_ops demo_db) =
    [RpId 2; RpRc (Ok tt); RpRc (Ok tt); RpRc (Ok tt); RpBytes (Ok [1; 9; 3]); RpId 259; RpRc (Ok tt); RpBool false; RpCount 1] /\
  let (rs, d') := run demo_cfg demo_ops demo_db in
  demo_session d' /\ obj_steps demo_cfg demo_ops rs (abs demo_cfg demo_geom demo_db) (abs demo_cfg demo_geom d').
Proof.
  split; [vm_compute; reflexivity|].
  exact (runs_refine_object_store demo_cfg demo_geom demo_geom_ok demo_aligned demo_wf eq_refl demo_opens demo_damage demo_ops demo_db
    demo_db_session demo_room demo_ops_ok).
Defined.





Lemma demo_off_bootable : bootable (d_store (demo_off [] [])).
Proof. exact (List.Forall_nil _). Qed.

Lemma format_gives_empty_store_witness :
  wp (blob_db_format demo_cfg) (demo_off [] []) (fun rc d' => rc = Ok tt /\ demo_session d' /\ next_id (d_st d') = 2 /\
    forall id, demo_contents d' id = only_root id).
Proof.
  exact (format_gives_empty_store demo_cfg demo_geom demo_geom_ok demo_aligned demo_wf demo_opens (demo_off [] []) 1 eq_refl
    sidx_zero_wf demo_off_bootable).
Defined.

(** A store after a power cut: RAM blank, flash as it was. *)
Definition cut_off (d : db demo_S sidx) : db demo_S sidx := mk_db st_zero geo_zero sidx_zero (d_store d).

Lemma cut_off_rests d : demo_live d -> exists a h h' n r, at_rest demo_cfg demo_geom demo_wf (cut_off d) a h h' n r.
Proof.
  intros Lv. destruct (live_at_rest demo_cfg demo_geom demo_wf d (cut_off d) Lv eq_refl (ex_intro _ 1 sidx_zero_wf)) as (h & h' & r & Hr & _);
    [by intros p|eauto 10].
Qed.

Lemma cut_off_bootable d : healthy (d_store d) -> bootable (d_store (cut_off d)).
Proof. done. Qed.

Lemma mount_resumes_store_witness :
  exists a h h' n r, at_rest demo_cfg demo_geom demo_wf (cut_off demo_one) a h h' n r /\
  wp (blob_db_mount demo_cfg) (cut_off demo_one) (fun rc d' => rc = Ok tt /\ demo_session d' /\ next_id (d_st d') = r_next_id_hint r /\
    forall id, demo_contents d' id = rcontents demo_cfg demo_geom (cut_off demo_one) id).
Proof.
  destruct (cut_off_rests demo_one (se_live _ _ _ _ demo_one_session)) as (a & h & h' & n & r & Hr).
  exists a, h, h', n, r. split; [exact Hr|].
  exact (mount_resumes_store demo_cfg demo_geom demo_geom_ok demo_aligned demo_wf demo_opens demo_damage (cut_off demo_one) _ _ _ _ _ Hr
    (cut_off_bootable _ (se_healthy _ _ _ _ demo_one_session))).
Defined.

Lemma allocated_ids_are_fresh_witness :
  let (rs, _) := run demo_cfg demo_ops demo_db in
  Sorted.StronglySorted Z.lt (alloc_ids rs) /\ Forall (fun id => next_id (d_st demo_db) <= id /\ id <> BLOB_DB_ROOT_ID) (alloc_ids rs).
Proof.
  exact (allocated_ids_are_fresh demo_cfg demo_geom demo_geom_ok demo_aligned demo_wf eq_refl demo_opens demo_damage demo_ops demo_db
    demo_db_session demo_room demo_ops_ok).
Defined.

(** Alloc and commit on the part that is about to fail. *)
Lemma demo_cut_gen : rot_gen (d_st demo_cut) = 2.
Proof. vm_compute. reflexivity. Qed.

Lemma alloc_is_covered_witness :
  wp (blob_db_alloc_id demo_cfg) demo_cut (fun rc d' => exists id, rc = Ok id /\
    ((id = next_id (d_st demo_cut) /\ next_id (d_st d') = id + 1 /\ exists C, covers demo_cfg demo_geom d' C /\ id < C) \/
     (id = 0 /\ next_id (d_st d') = next_id (d_st demo_cut) /\ ~ healthy (d_store demo_cut)))).
Proof.
  apply (alloc_is_covered demo_cfg demo_geom demo_geom_ok demo_cut (lv_master _ _ _ _ demo_cut_live) (lv_mounted _ _ _ _ demo_cut_live)
    (lv_geo _ _ _ _ demo_cut_live)).
  - rewrite demo_cut_next. lia.
  - rewrite demo_cut_gen. done.
Defined.


Lemma demo_one_room (p : bytes) : len p <= 32 -> let cl := compact_len demo_cfg demo_geom (bimg demo_one (2 mod n_buckets demo_geom)) in
  cl <= scratch_seal_off demo_geom /\ cl + slot_size_for demo_geom (len p) <= peb_size demo_geom.
Proof.
  intros Hp. assert (compact_len demo_cfg demo_geom (bimg demo_one (2 mod n_buckets demo_geom)) = 40) as -> by (vm_compute; reflexivity).
  destruct (slot_size_spec demo_cfg demo_geom demo_geom_ok (len p)) as (_ & Hs & _). change (write_align demo_geom) with 8 in *.
  change (scratch_seal_off demo_geom) with 240. change (peb_size demo_geom) with 256. lia.
Qed.

Lemma update_with_room_succeeds_witness :
  wp (blob_db_update demo_cfg 2 (Some [4; 5])) demo_one (fun rc d' => rc = Ok tt /\ demo_session d' /\
    forall id', demo_contents d' id' = if decide (id' = 2) then Some [4; 5] else demo_contents demo_one id').
Proof.
  apply (update_with_room_succeeds demo_cfg demo_geom demo_geom_ok demo_aligned demo_wf demo_one 2 [4; 5] demo_one_session).
  - destruct demo_one_next as [-> _]. lia.
  - lia.
  - repeat constructor; by vm_compute.
  - by vm_compute.
  - apply demo_one_room. by vm_compute.
Defined.

Lemma update_then_get_witness :
  let '(r1, d1) := exec demo_cfg (OpUpdate 2 [4; 5]) demo_one in let (_, d2) := exec demo_cfg OpRemount d1 in
  let (r3, _) := exec demo_cfg (OpGet 2 2) d2 in r1 = RpRc (Ok tt) -> r3 = RpBytes (Ok [4; 5]).
Proof.
  apply (update_then_get demo_cfg demo_geom demo_geom_ok demo_aligned demo_wf eq_refl demo_opens demo_damage demo_one 2 [4; 5] 2 demo_one_session).
  - destruct demo_one_next as [-> _]. lia.
  - lia.
  - repeat constructor; by vm_compute.
  - by vm_compute.
  - by vm_compute.
Defined.

Lemma iterate_visits_each_object_witness :
  let cb := fun (id : Z) (_ : bytes) (l : list Z) => (0, l ++ [id]) in
  wp (blob_db_iterate demo_cfg (Some cb) []) demo_one (fun rc d' => exists l, rc = Ok (visit cb l []) /\ NoDup (e_id <$> l) /\
    (forall id p, demo_contents demo_one id = Some p <-> exists e, e ∈ l /\ e_id e = id /\ e_payload e = p) /\
    same_flash (d_store demo_one) (d_store d')).
Proof.
  intros cb. exact (iterate_visits_each_object demo_cfg demo_geom demo_geom_ok demo_wf eq_refl demo_one cb [] demo_one_session).
Defined.

(** ** Buckets *)

Lemma demo_hdr : bucket_hdr_valid (bimg demo_one 2) 2 = true.
Proof. vm_compute. reflexivity. Qed.

Lemma demo_one_ready : ready demo_cfg demo_geom demo_wf demo_one.
Proof. apply demo_one_session. Qed.

Lemma lookup_agrees_with_log_witness :
  wp (find_live_slot demo_cfg demo_geom (2 mod n_buckets demo_geom) 2) demo_one (fun r d' => same_flash (d_store demo_one) (d_store d') /\ match r with
    | Ok (_, rc) => rc = match value 2 (bucket_log demo_cfg demo_geom (bimg demo_one (2 mod n_buckets demo_geom))) with
                         | Some p => Ok p | None => Err ENOENT end
    | Err e => ~ healthy (d_store demo_one) /\ device_err e
    end).
Proof.
  apply (lookup_agrees_with_log demo_cfg demo_geom demo_geom_ok demo_wf eq_refl demo_one 2); [lia|apply demo_one_ready|exact demo_hdr].
Defined.

Lemma compaction_keeps_objects_witness :
  wp (compact_bucket demo_cfg demo_geom 2) demo_one (fun rc d' => rc = Ok tt /\ ready demo_cfg demo_geom demo_wf d' /\
    same_contents demo_cfg demo_geom demo_one d' /\
    log_end demo_cfg demo_geom (bimg d' 2) = compact_len demo_cfg demo_geom (bimg demo_one 2)).
Proof.
  apply (compaction_keeps_objects demo_cfg demo_geom demo_geom_ok demo_aligned demo_wf demo_one 2).
  - by vm_compute.
  - exact demo_one_ready.
  - exact demo_hdr.
  - exact (se_healthy _ _ _ _ demo_one_session).
  - by vm_compute.
Defined.

(** The same on a part that fails after the seal was written. *)
Definition demo_late : db demo_S sidx := with_faults [false; false; false; false; true] demo_one.

Lemma demo_late_ready : ready demo_cfg demo_geom demo_wf demo_late.
Proof. apply (lv_ready demo_cfg), (faults_live _ demo_one), demo_one_session. Qed.

Lemma demo_late_hdr : bucket_hdr_valid (bimg demo_late 2) 2 = true.
Proof. vm_compute. reflexivity. Qed.

Lemma compaction_cut_is_recoverable_witness :
  wp (compact_bucket demo_cfg demo_geom 2) demo_late (fun _ d' =>
    stray_seal demo_geom (scratch d') 2 (compact_image demo_cfg demo_geom (bimg demo_late 2) 2) \/
    (rinv demo_cfg demo_geom d' /\ forall id, rcontents demo_cfg demo_geom d' id = demo_contents demo_late id)).
Proof.
  apply (compaction_cut_is_recoverable demo_cfg demo_geom demo_geom_ok demo_aligned demo_wf demo_late 2); 
    [by vm_compute|exact demo_late_ready|exact demo_late_hdr].
Defined.

Definition demo_sealed : db demo_S sidx := snd (compact_bucket demo_cfg demo_geom 2 demo_late).

Lemma demo_sealed_as : sealed_as demo_geom (scratch demo_sealed) = Some (2, 40).
Proof. vm_compute. reflexivity. Qed.

Lemma recovery_completes_compaction_witness :
  wp (recover_compaction demo_geom) demo_sealed (fun rc d' =>
    (forall q, q <> BLOB_DB_SCRATCH_SECTOR -> q <> BLOB_DB_FIRST_BUCKET + 2 -> pimg d' q = pimg demo_sealed q) /\
    match rc with
    | Ok _ => bimg d' 2 = committed demo_geom 40 (scratch demo_sealed) /\ scratch d' = erased (peb_size demo_geom)
    | Err _ => ~ healthy (d_store demo_sealed) /\ (scratch d' = scratch demo_sealed \/ bimg d' 2 = committed demo_geom 40 (scratch demo_sealed))
    end).
Proof.
  apply (recovery_completes_compaction demo_cfg demo_geom demo_geom_ok demo_aligned demo_sealed 2 40); [|exact demo_sealed_as].
  intros b il. rewrite demo_sealed_as. intros [= <- <-]. reflexivity.
Defined.

Lemma append_sets_one_value_witness :
  let e := log_end demo_cfg demo_geom (bimg demo_one (2 mod n_buckets demo_geom)) in
  wp (append_slot demo_cfg demo_geom (2 mod n_buckets demo_geom) e 2 0 [6]) demo_one (fun rc d' => rc = Ok tt /\
    db_inv demo_cfg demo_geom demo_wf d' /\ set_value demo_cfg demo_geom demo_one d' 2 (slot_value 0 [6])).
Proof.
  apply (append_sets_one_value demo_cfg demo_geom demo_geom_ok demo_aligned demo_wf demo_one 2 0 [6]).
  - lia.
  - apply demo_one_ready.
  - exact demo_hdr.
  - vm_compute. reflexivity.
  - apply flags_ok_plain.
  - repeat constructor; by vm_compute.
  - by vm_compute.
  - by vm_compute.
  - exact (se_healthy _ _ _ _ demo_one_session).
Defined.

(** ** Refusals *)

Lemma unmounted_calls_refuse_witness :
  let d := demo_off [] [] in
  blob_db_get demo_cfg 2 false 4 d = (Err ENODEV, d) /\ blob_db_update demo_cfg 2 (Some [1]) d = (Err ENODEV, d) /\
  blob_db_delete demo_cfg 2 d = (Err ENODEV, d) /\ blob_db_size demo_cfg 2 false d = (Err ENODEV, d) /\
  blob_db_read demo_cfg 2 0 false 1 d = (Err ENODEV, d) /\ blob_db_write demo_cfg 2 0 (Some [1]) d = (Err ENODEV, d) /\
  blob_db_erase_all demo_cfg d = (Err ENODEV, d) /\ blob_db_maintain 1 d = (Ok (Err ENODEV, 0, false), d) /\
  blob_db_alloc_id demo_cfg d = (Ok 0, d) /\ blob_db_exists demo_cfg 2 d = (Ok false, d) /\ blob_db_count demo_cfg d = (Ok 0, d) /\
  blob_db_unmount d = (Ok tt, d).
Proof. intros d. apply (unmounted_calls_refuse demo_cfg d 2 0 1 4 (Some [1])). reflexivity. Defined.

Definition demo_wedged : db demo_S sidx := mk_db (set_wedged true (set_mounted true st_zero)) demo_geom sidx_zero (demo_part [] []).


(** ** Opening, layouts, backend *)



Lemma flash_backend_keeps_contract_witness :
  @StoreLaws (store_st (F := nor) demo_P) (flash_store demo_P) (flash_view demo_P demo_n) (flash_geom demo_P demo_al demo_n).
Proof. apply flash_backend_keeps_contract. apply nor_laws; by vm_compute. Defined.

(** ** The slot index *)

(** Three buckets; bucket 2 known, its log ending at 40 with id 5 at 16. *)
Definition demo_begun : sidx := begin demo_cap 2 16 (reset demo_cap demo_max 3 sidx_zero).
Definition demo_noted : sidx := note demo_cap 2 5 16 24 false demo_begun.

Lemma demo_begun_ok : demo_wf 3 demo_begun.
Proof.
  apply (begin_wf (SlotIndexLaws := demo_index_laws) 3 (reset demo_cap demo_max 3 sidx_zero) 2 16); [|lia|lia].
  apply (reset_wf (SlotIndexLaws := demo_index_laws) 1); [exact sidx_zero_wf|lia].
Qed.

Lemma demo_noted_ok : demo_wf 3 demo_noted.
Proof. apply (note_wf (SlotIndexLaws := demo_index_laws) 3 demo_begun 5 16 24 false demo_begun_ok); lia. Qed.

Lemma hash_index_keeps_contract_witness : @SlotIndexLaws sidx (hash_index demo_cap demo_max) (fun n x => 0 < n /\ index_ok demo_cap demo_max n x).
Proof. exact (hash_index_keeps_contract demo_cap demo_max demo_cap_ok demo_max_ok). Defined.

Lemma index_drop_removes_one_witness :
  assoc demo_cap demo_noted 5 = Some 16 /\ index_ok demo_cap demo_max 3 (drop_id demo_cap demo_noted 5) /\
  forall id', id' <> 0 -> assoc demo_cap (drop_id demo_cap demo_noted 5) id' = if decide (id' = 5) then None else assoc demo_cap demo_noted id'.
Proof.
  split; [vm_compute; reflexivity|].
  apply (index_drop_removes_one demo_cap demo_max demo_cap_ok demo_max_ok 3 demo_noted 5 (proj2 demo_noted_ok)); [by vm_compute|lia].
Defined.

Lemma index_put_adds_one_witness :
  index_ok demo_cap demo_max 3 (put demo_cap demo_noted 8 40) /\
  forall id', id' <> 0 -> assoc demo_cap (put demo_cap demo_noted 8 40) id' = if decide (id' = 8) then Some 40 else assoc demo_cap demo_noted id'.
Proof.
  apply (index_put_adds_one demo_cap demo_max demo_cap_ok demo_max_ok 3 demo_noted 8 40 (proj2 demo_noted_ok)); by vm_compute.
Defined.

Lemma index_forget_clears_bucket_witness :
  let x' := forget demo_cap 2 demo_noted in
  index_ok demo_cap demo_max 3 x' /\ cursor_of 2 x' = None /\ (forall b, 0 <= b < 3 -> b <> 2 -> cursor_of b x' = cursor_of b demo_noted) /\
  (forall id, id <> 0 -> assoc demo_cap x' id = if decide (id mod 3 = 2) then None else assoc demo_cap demo_noted id).
Proof.
  apply (index_forget_clears_bucket demo_cap demo_max demo_cap_ok demo_max_ok 3 demo_noted 2 (proj2 demo_noted_ok)); by vm_compute.
Defined.
