(* ===== verification/StackDemo.v ===== *)
(** The whole stack at once: kvdb over the root registry and kvhash, over blob_db,
    over the flash back end on a simulated NOR part of eight sectors of 512 bytes,
    with 128-byte payloads. *)

From S2P Require Import Prelude Layout Store FlashStore Sim SlotIndexIface SlotIndexHash SlotIndexLaws.
From S2P Require Import Image Core CoreRead Lookup Append Bucket Compact CompactImage Recovery CompactSpec Ops.
From S2P Require Import OpsRead OpsWrite Master Mount MasterSpec MasterInv MountSpec Session Demo.
From S2P Require Import BlobIface BlobDb.
From S2P Require Import BlobIface Prelude Layout Records RootReg RootRegSpec.
From S2P Require Import KvHash KvHashRep KvHashRead KvHashOps KvHashSet KvHashCreate KvHashWalk KvHashRuns Kvdb KvdbSpec.

Definition stack_cfg : config := mkconfig 128 512 0 false false.
Definition stack_P : Z := 512.
Definition stack_al : Z := 8.
Definition stack_n : Z := 8.
Definition stack_geom : geom := open_geom stack_cfg (flash_geom stack_P stack_al stack_n).

#[export] Instance stack_flash : FlashArea nor := nor_flash stack_P stack_al stack_n.
#[export] Instance stack_fview : FlashAreaView nor := nor_view stack_P stack_n.
#[export] Instance stack_area_laws : FlashAreaLaws nor stack_P stack_al stack_n.
Proof. apply nor_laws; by vm_compute. Qed.

Notation stack_S := (store_st (F := nor) stack_P).
#[export] Instance stack_store : Store stack_S := flash_store stack_P.
#[export] Instance stack_view : StoreView stack_S := flash_view stack_P stack_n.
#[export] Instance stack_store_laws : StoreLaws stack_S (store_geom_of stack_geom).
Proof. exact (flash_store_laws stack_P stack_al stack_n). Qed.

Lemma stack_zero_wf (f : nor) : be_inv stack_P (mk_flash_be false stack_P f).
Proof. done. Qed.

Notation stack_D := (db stack_S sidx).
Definition stack_off : stack_D := mk_db st_zero geo_zero sidx_zero (mk_store_st stack_P (mk_flash_be false stack_P (mk_nor [] [])) (stack_zero_wf _)).

Lemma stack_geom_ok : geom_ok stack_cfg stack_geom.
Proof. apply open_geom_ok; by vm_compute. Qed.

Lemma stack_aligned : geom_aligned stack_geom.
Proof. split; by vm_compute. Qed.

Lemma stack_opens : opens stack_cfg stack_geom.
Proof. split; by vm_compute. Qed.

#[export] Instance stack_blobs : Blobs stack_D := db_blobs stack_cfg.
#[export] Instance stack_laws : BlobLaws stack_D := db_laws stack_cfg stack_geom stack_geom_ok stack_aligned demo_wf eq_refl.

(** Formatted, then given a registry of four names. *)
Definition stack_db : stack_D := snd (blob_db_format stack_cfg stack_off).
Notation stack_ready := ((rootreg_init 4;;; mret 0) stack_db).
Definition root_only : objs := {[1 := []]}.

Lemma stack_format : session stack_cfg stack_geom demo_wf stack_db /\ next_id (d_st stack_db) = 2 /\ rot_gen (d_st stack_db) = 2 /\
  (forall id, contents stack_cfg stack_geom stack_db id = only_root id).
Proof.
  assert (bootable (d_store stack_off)) as Hh by exact (List.Forall_nil _).
  pose proof (wp_out _ _ _ (format_session stack_cfg stack_geom stack_geom_ok stack_aligned demo_wf stack_opens stack_off 1
    eq_refl sidx_zero_wf Hh)) as (_ & H2 & H3 & H4 & H5). exact (conj H2 (conj H3 (conj H4 (only_root_contents _ _ _ H5)))).
Qed.

Lemma stack_db_holds n : (n <= 1000)%nat -> holds (D := stack_D) n 2 root_only stack_db.
Proof.
  intros Hn0. destruct stack_format as (Se & Hn & Hr & Hc). split; [done|]. split; [unfold room; rewrite Hn, Hr; unfold UINT32_MAX; lia|]. split; [done|]. split.
  - intros id. etransitivity; [exact (Hc id)|]. unfold only_root, root_only. change BLOB_DB_ROOT_ID with 1. case_decide as Ec; [subst id; by rewrite lookup_singleton_eq|by rewrite lookup_singleton_ne].
  - split; [by vm_compute|]. apply map_Forall_singleton. split; [lia|]. split; [constructor|by vm_compute].
Qed.

Definition stack_kvh : kvh (D := stack_D) := mk_kvh stack_ready.2 (replicate 128 0) (replicate 128 0) 64 64.

Lemma stack_fits : RR_IMAGE_MAX 4 <= blob_max (D := stack_D).
Proof. by vm_compute. Qed.

Lemma stack_bounds : 72 <= blob_max (D := stack_D) <= ENT_LEN_MASK.
Proof. by vm_compute. Qed.

Lemma stack_steady : ~ tears (D := stack_D).
Proof. by intros []. Qed.

Lemma stack_ready_ok : fst stack_ready = Ok 0.
Proof. vm_compute. reflexivity. Qed.

Lemma stack_registry n : (n <= 1000)%nat -> exists nx o, holds (D := stack_D) n nx o (snd stack_ready) /\ registry 4 o ∅.
Proof. intros Hn. exact (init_ready 4 ltac:(lia) stack_fits n 2 root_only stack_db (stack_db_holds n Hn) eq_refl stack_ready_ok). Qed.

Lemma stack_start n : (n <= 1000)%nat -> kd_inv (D := stack_D) 4 n ∅ ∅ (∅, stack_kvh).
Proof. intros Hn. destruct (stack_registry n Hn) as (nx & o & Hh & Hr). apply (kd_start 4 n nx o); [|done]. by split_and!. Qed.
