(* ===== verification/KvWitness.v ===== *)
(** The theorems of KvCorrect.v at work, on the demo system and on a store in
    RAM with 256-byte payloads. *)

From S2P Require Import Prelude Layout Store FlashStore Sim SlotIndexIface SlotIndexHash SlotIndexLaws.
From S2P Require Import Image Core CoreRead Lookup Append Bucket Compact CompactImage Recovery CompactSpec Ops.
From S2P Require Import OpsRead OpsWrite Master Mount MasterSpec MasterInv MountSpec Session Demo.
From S2P Require Import BlobIface BlobDb.
From S2P Require Import BlobIface Prelude Layout Records RootReg RootRegSpec.
From S2P Require Import KvHash KvHashRep KvHashRead KvHashOps KvHashSet KvHashCreate KvHashWalk KvHashDestroy KvHashRuns.
From S2P Require Import Kvdb KvdbSpec KvCorrect StackDemo.

(** ** blob_db as an object map *)

Lemma demo_db_holds : db_holds demo_cfg demo_geom demo_wf 5 2 root_only demo_db.
Proof.
  destruct demo_format as (_ & Se & Hn & Hr).
  assert (bootable (d_store (demo_off [] []))) as Hh by exact (List.Forall_nil _).
  pose proof (wp_out _ _ _ (format_session demo_cfg demo_geom demo_geom_ok demo_aligned demo_wf demo_opens (demo_off [] []) 1
    eq_refl sidx_zero_wf Hh)) as (_ & _ & _ & _ & Hc). pose proof (only_root_contents _ _ _ Hc) as Hct. clear Hc.
  split; [done|]. split; [unfold room; rewrite Hn, Hr; by vm_compute|]. split; [done|]. split.
  - intros id. etransitivity; [exact (Hct id)|]. unfold only_root, root_only. change BLOB_DB_ROOT_ID with 1. case_decide as Ec; [subst id; by rewrite lookup_singleton_eq|by rewrite lookup_singleton_ne].
  - split; [by vm_compute|]. apply map_Forall_singleton. split; [lia|]. split; [constructor|by vm_compute].
Qed.

Lemma blob_db_is_an_object_map_witness :
  wp (blob_db_alloc_id demo_cfg) demo_db (fun r d' => r = Ok 2 /\ db_holds demo_cfg demo_geom demo_wf 4 3 root_only d').
Proof.
  pose proof (blob_db_is_an_object_map demo_cfg demo_geom demo_geom_ok demo_aligned demo_wf eq_refl 5 2 root_only demo_db 1 [7] 10 0 4
    demo_db_holds ltac:(lia) ltac:(lia) ltac:(lia) ltac:(repeat constructor; by vm_compute)) as H.
  exact (proj1 H 4%nat eq_refl).
Defined.

(** ** A store in RAM *)

#[local] Instance demo_ram : Blobs ram := ram_blobs 256.
#[local] Instance demo_ram_laws : BlobLaws ram := ram_laws 256.

Lemma ram_holds_at o nx n : obs_wf 256 nx o -> nx + Z.of_nat n < 2 ^ 64 -> holds (D := ram) n nx o (mk_ram o nx).
Proof. intros Hw Hn. by split_and!. Qed.

Lemma virgin_wf nx : 2 <= nx < 2 ^ 64 -> obs_wf 256 nx root_only.
Proof. intros Hn. split; [done|]. apply map_Forall_singleton. split; [lia|]. split; [constructor|by vm_compute]. Qed.

Lemma ram_fits : RR_IMAGE_MAX 4 <= blob_max (D := ram).
Proof. by vm_compute. Qed.

Lemma ram_bounds : 24 <= blob_max (D := ram) <= ENT_LEN_MASK.
Proof. by vm_compute. Qed.

Lemma ram_steady : ~ tears (D := ram).
Proof. by intros []. Qed.

Definition reg_start : ram := snd (rootreg_init 4 (mk_ram root_only 2)).
Definition reg_objs : objs := {[1 := reg_bytes []]}.

Lemma reg_start_objs : reg_start = mk_ram reg_objs 2.
Proof. vm_compute. reflexivity. Qed.

Lemma registry_refines_map_witness :
  wp (rr_exec 4 (RrGetOrCreate 77)) reg_start (fun r d' => exists nx' o', holds 1 nx' o' d' /\ 2 <= nx' /\
    (forall id, id <> BLOB_ROOT -> o' !! id = reg_objs !! id) /\
    ((r = (reg_step 4 2 ∅ (RrGetOrCreate 77)).1 /\ registry 4 o' (reg_step 4 2 ∅ (RrGetOrCreate 77)).2) \/
     (exists e, refused e /\ r = Err e /\ (o' = reg_objs \/ (tears (D := ram) /\ registry 4 o' (reg_step 4 2 ∅ (RrGetOrCreate 77)).2))))).
Proof.
  apply (registry_refines_map (D := ram) 4 ltac:(lia) ram_fits (RrGetOrCreate 77) 1 2 reg_objs).
  - rewrite reg_start_objs. apply ram_holds_at; [|by vm_compute]. split; [lia|]. apply map_Forall_singleton. split; [lia|]. split; [|by vm_compute].
    repeat constructor; by vm_compute.
  - exists []. split; [by vm_compute|]. split; [|done]. 
    split; [by vm_compute|]. split; constructor.
  - by vm_compute.
Defined.

Lemma registry_leaves_foreign_root_alone_witness :
  wp (rr_exec 4 RrInit) (mk_ram {[1 := [1; 2; 3]]} 2) (fun r d' => holds 1 2 {[1 := [1; 2; 3]]} d' /\
    (r = Err ENOTSUP \/ exists e, fault (D := ram) e /\ r = Err e)).
Proof.
  apply (registry_leaves_foreign_root_alone (D := ram) 4 RrInit 1 2 {[1 := [1; 2; 3]]} _ [1; 2; 3]).
  - apply ram_holds_at; [|by vm_compute]. split; [lia|]. apply map_Forall_singleton. split; [lia|]. split; [repeat constructor; by vm_compute|by vm_compute].
  - by vm_compute.
  - split; [done|]. left. by vm_compute.
Defined.

(** ** An empty map at id 2 *)

Definition kv_virgin : kvh (D := ram) := mk_kvh (mk_ram root_only 3) (replicate 256 0) (replicate 256 0) 16 16.

Lemma kv_virgin_held n : (n <= 1000)%nat -> khold n 3 root_only kv_virgin.
Proof. intros Hn. split_and!; [|done|done]. apply ram_holds_at; [apply virgin_wf; lia|lia]. Qed.


Definition kv_start : kvh (D := ram) := snd (kvhash_create 2 None kv_virgin).
Definition kv_tree : kvtree := empty_tree (1, 8, 0) 2 [].
Definition kv_objs : objs := ram_objs (kv_dev kv_start).

Lemma kv_tree_ok : tree_ok (D := ram) kv_tree.
Proof. apply (empty_tree_ok (D := ram)); [by vm_compute|split; [by vm_compute|by left]|lia|done|constructor]. Qed.

Lemma kv_tree_stored : stored kv_objs (tree_objs kv_tree).
Proof.
  split; [repeat constructor; by intros ?%not_elem_of_nil|]. repeat constructor; by vm_compute.
Qed.

Lemma kv_start_held n : (n <= 1000)%nat -> khold n 3 kv_objs kv_start.
Proof.
  intros Hn. split_and!; [|by vm_compute|by vm_compute]. apply (ram_holds_at kv_objs 3 n); [|lia]. split; [lia|].
  apply map_Forall_insert; [done|]. split; [|apply virgin_wf; lia]. split; [lia|]. split; [repeat constructor; by vm_compute|by vm_compute].
Qed.

Definition kv_calls : list kv_call :=
  [KvSet [1; 2] [9]; KvSet [3] (replicate 20 5); KvGet [3] 100; KvSet [1; 2] [8; 8]; KvDel [3]; KvGet [3] 100; KvGet [1; 2] 100; KvCount].


Lemma kvhash_set_is_exact_witness :
  wp (kvhash_set 2 (Some [7]) (Some [1])) kv_start (fun r s' => exists t',
    became 5 3 kv_objs kv_tree t' s' /\ r = (set_want kv_start kv_tree [7] [1]).1 /\ tree_map t' = (set_want kv_start kv_tree [7] [1]).2).
Proof.
  apply (kvhash_set_is_exact (D := ram) ram_bounds ram_steady 5 3 kv_objs kv_start kv_tree [7] [1]).
  - by intros [].
  - by intros e [].
  - apply kv_start_held. lia.
  - exact kv_tree_ok.
  - exact kv_tree_stored.
  - repeat constructor; by vm_compute.
  - repeat constructor; by vm_compute.
Defined.

Lemma kvhash_walk_passes_each_entry_once_witness :
  wp (walk (S (size (tree_map kv_tree))) 2 None 32767 32767) kv_start (fun r s' => khold 0 3 kv_objs s' /\
    ((exists kvs, r = Ok kvs /\ rising kv_tree kvs /\ NoDup kvs.*1 /\ list_to_map kvs = tree_map kv_tree) \/ (exists e, fault (D := ram) e /\ r = Err e))).
Proof.
  apply (kvhash_walk_passes_each_entry_once (D := ram) ram_bounds 0 3 kv_objs kv_start kv_tree 32767 32767).
  - apply kv_start_held. lia.
  - exact kv_tree_ok.
  - exact kv_tree_stored.
  - done.
  - done.
Defined.

Lemma kvhash_destroy_is_resumable_witness :
  wp (kvhash_destroy 2) kv_start (fun r s' => exists o', khold 0 3 o' s' /\
    (forall id, id ∉ (tree_objs kv_tree).*1 -> o' !! id = kv_objs !! id) /\
    ((r = Ok tt /\ (forall id, id ∈ (tree_objs kv_tree).*1 -> o' !! id = None)) \/
     (exists e, refused (D := ram) e /\ r = Err e /\
       (o' = kv_objs \/ condemned o' kv_tree \/ (tears (D := ram) /\ gone o' (tree_objs kv_tree)))))).
Proof.
  apply (fun H1 H2 H3 H4 H5 => proj1 (kvhash_destroy_is_resumable 0 3 kv_objs kv_start kv_tree H1 H2 H3 H4 H5)).
  - by vm_compute.
  - apply kv_start_held. lia.
  - exact kv_tree_ok.
  - apply (stored_apart kv_objs), kv_tree_stored.
  - left. exact kv_tree_stored.
Defined.

(** ** Named maps on the whole stack *)

Definition name_a : bytes := [97; 98].
Definition name_b : bytes := [98; 0; 7].

Definition kd_calls : list kd_call :=
  [KdOpen name_a None; KdSet name_a [1; 2] [9]; KdOpen name_b None; KdHas [98] [1; 2]; KdGet name_a [1; 2; 0] 4; KdDelete name_a [1; 2]; KdHas name_a [1; 2];
   KdHas name_a []; KdGet [5] [1] 4].

