(* ===== verification/FsCorrect.v ===== *)
(** The property of blobfs: its calls, on a store that may fail, are those of a
    tree of directories and files; and a concrete file system it is applied to. *)

From S2P Require Import BlobIface Prelude Layout Records RootReg RootRegSpec.
From S2P Require Import KvHash KvHashRep KvHashRead KvHashOps KvHashSet KvHashCreate KvHashWalk KvHashDestroy KvHashRuns Kvdb KvdbSpec.
From S2P Require Import Blobfs BlobfsSpec BlobfsOps BlobfsMeta BlobfsSteps BlobfsTree BlobfsMount.
From S2P Require Import Store FlashStore Sim.

(** The module's state when the system boots, and after an unmount. *)
Definition bfs_boot : bfs_state := mk_bst false false false 0 0.


(** The theorem of FsCorrect.v at work on a store in RAM whose calls fail as a
    schedule says: a rename is cut short, its two names stand on one body, and the
    next mount finishes it. *)

From Stdlib Require Import String Ascii.

#[local] Instance fsw_ram : Blobs ram := ram_blobs 128.
#[local] Instance fsw_ram_laws : BlobLaws ram := ram_laws 128.
#[local] Instance fsw_flaky_laws : BlobLaws (flaky ram) | 0 := flaky_laws_of false.

(** A store whose root is a registry with no entry, that goes by [fs]. *)
Definition fsw_objs : objs := {[1 := reg_bytes []]}.
Definition fsw_store (fs : list fate) : flaky ram := mk_flaky (mk_ram fsw_objs 2) fs.
Definition fsw_start (fs : list fate) : bfs (D := flaky ram) := mk_bfs (mk_kvh (fsw_store fs) (replicate 128 0) (replicate 128 0) 64 64) bfs_boot.

Definition never_lands (fs : list fate) : bool := forallb (fun f => match f with Lands => false | _ => true end) fs.

Lemma fsw_held (n : nat) fs : never_lands fs = true -> 2 + Z.of_nat n < 2 ^ 64 -> khold n 2 fsw_objs (fs_kv (fsw_start fs)).
Proof.
  intros Hf Hn. split_and!; [|by vm_compute|by vm_compute].
  cbn. split; [|intros _ Hin; apply list_elem_of_In in Hin; unfold never_lands in Hf; rewrite forallb_forall in Hf; by apply Hf in Hin]. split_and!; try done.
  split; [lia|]. apply map_Forall_singleton. split; [lia|]. split; [repeat constructor; by vm_compute|by vm_compute].
Qed.

Lemma fsw_registry : registry 4 fsw_objs ∅.
Proof. exists []. split; [by vm_compute|]. split; [|done]. split; [by vm_compute|]. split; constructor. Qed.

Lemma fsw_steady : ~ tears (D := flaky ram).
Proof. by intros [?|[]]. Qed.

Definition name_of (s : string) : bytes := (fun c => Z.of_nat (nat_of_ascii c)) <$> list_ascii_of_string s.
Notation "# s" := (name_of s%string) (at level 1, format "# s").

Definition fs_calls : list fs_call :=
  [FsStat #"/"; FsMount; FsMkdir #"/d"; FsCreate #"/d/a"; FsWrite #"/d/a" 2 [7; 8]; FsRead #"d//a" 0 9; FsOpen 5 #"/d/a"; FsUnlink #"/d"; FsCreate #"/d/a/"; FsCreate #"/d/a/x"; FsCreate #"/f";
   FsRename #"/d/a" #"/d/b"; FsList #"d" 9; FsUnmount; FsWriteId 5 0 [1]; FsMount; FsMount; FsList #"/d/" 9; FsList #"/" 2; FsReadId 5 0 3; FsTruncate #"/d/b" 1; FsUnlink #"/d/b"; FsSizeId 5; FsUnlink #"/d"; FsRename #"/f" #"/e"; FsStat #"/e"; FsOpen 5 #"/"].

(** The write that takes the old name out of the directory fails. *)
Definition fs_fates : list fate := replicate 71 Fine ++ [Fails].

Definition fs_file (size : Z) : blobfs_stat_t := mk_bstat BLOBFS_ENTRY_FILE size.

Definition fs_answers : list fs_reply :=
  [FsStatus (Err ENODEV); FsRc (Ok tt); FsRc (Ok tt); FsRc (Ok tt); FsRc (Ok tt); FsBytes (Ok [0; 0; 7; 8]); FsRc (Ok tt); FsRc (Err ENOTEMPTY); FsRc (Err EEXIST); FsRc (Err ENOTDIR); FsRc (Ok tt);
   FsRc (Err EIO); FsNames (Ok [(#"b", fs_file 4); (#"a", fs_file 4)]); FsRc (Ok tt); FsRc (Ok tt); FsRc (Ok tt); FsRc (Err EALREADY); FsNames (Ok [(#"b", fs_file 4)]);
   FsNames (Err EIO); FsBytes (Ok [1; 0; 7]); FsRc (Ok tt); FsRc (Ok tt); FsLen (Err ENOENT); FsRc (Ok tt); FsRc (Ok tt); FsStatus (Ok (fs_file 0)); FsRc (Err EISDIR)].


(** What a store that tears would allow. The bind of the new name reports an error
    and lands; the rename withdraws its intent, so nothing knows of the two names,
    and removing one frees the body of the other, for good. *)
Definition fs_torn : list fs_reply :=
  drop 11 (fst (fs_run 4 16 (take 12 fs_calls ++ [FsUnlink #"/d/a"; FsList #"/d" 9; FsUnmount; FsMount; FsStat #"/d/b"; FsRename #"/f" #"/d/b"])
    (∅, fsw_start (replicate 68 Fine ++ [Lands])))).

Example torn_bind_leaves_two_names :
  fs_torn = [FsRc (Err EIO); FsRc (Ok tt); FsNames (Err EIO); FsRc (Ok tt); FsRc (Ok tt); FsStatus (Err ENOENT); FsRc (Err EXDEV)].
Proof. vm_compute. reflexivity. Qed.
