(* ===== verification/LogCorrect.v ===== *)
(** Sequences of logring calls by a client that may lose power between any two,
    the queue they run on, the property of logring, and a concrete log it is
    applied to. *)

From S2P Require Import BlobIface Prelude Layout Records Logring LogringSpec.

Inductive lg_call :=
  | LgOpen
  | LgPowerCut
  | LgAppend (rec : bytes)
  | LgSeekOldest
  | LgSeekNewest
  | LgNext (sz : option Z)
  | LgStats
  | LgReset.

Inductive lg_reply :=
  | LgRc (r : res unit)
  | LgId (r : res Z)
  | LgRec (r : res (bytes * Z))
  | LgInfo (s : logring_stats_t)
  | LgNoHandle.

Definition lg_call_ok (c : lg_call) : Prop := match c with LgAppend rec => bytes_ok rec | _ => True end.

Section runs.
Context (CLOG_K : Z) {D : Type} `{!Blobs D} {L : BlobLaws D} (root epoch cap : Z).
Implicit Types (o : objs) (a : alog) (d : D).

(** ** The client

    It keeps a handle while the log is open, and a cursor, of which it saves the
    moniker when the power goes. It gives the handle up when a reset fails. *)
Record client := mk_client { cl_dev : D; cl_handle : option logring_t; cl_cursor : logring_cursor }.

Definition with_log {A} (m : M (lrs (D := D)) A) (f : res A -> lg_reply) (close : res A -> bool) (w : client) : lg_reply * client :=
  match cl_handle w with
  | None => (LgNoHandle, w)
  | Some h => let (r, s) := m (mk_lrs (cl_dev w) h) in (f r, mk_client (lr_dev s) (if close r then None else Some (lr_h s)) (cl_cursor w))
  end.

(** A call that moves the cursor. *)
Definition with_cursor (m : M (lrs (D := D)) (lg_reply * logring_cursor)) (w : client) : lg_reply * client :=
  match cl_handle w with
  | None => (LgNoHandle, w)
  | Some h =>
      let (r, s) := m (mk_lrs (cl_dev w) h) in
      match r with
      | Ok (r, c) => (r, mk_client (lr_dev s) (Some (lr_h s)) c)
      | Err e => (LgRc (Err e), mk_client (lr_dev s) (Some (lr_h s)) (cl_cursor w))
      end
  end.

Definition lg_exec (c : lg_call) (w : client) : lg_reply * client :=
  match c with
  | LgOpen =>
      let (r, d) := logring_open CLOG_K root false (cl_dev w) in
      match r with
      | Ok h => (LgRc (Ok tt), mk_client d (Some h) (cl_cursor w))
      | Err e => (LgRc (Err e), mk_client d (cl_handle w) (cl_cursor w))
      end
  | LgPowerCut =>
      match logring_cursor_from_moniker false false (logring_cursor_to_moniker (cl_cursor w)) with
      | Ok c => (LgRc (Ok tt), mk_client (cl_dev w) None c)
      | Err e => (LgRc (Err e), mk_client (cl_dev w) None (cl_cursor w))
      end
  | LgAppend rec => with_log (logring_append CLOG_K false false rec) LgId (fun _ => false) w
  | LgSeekOldest => with_cursor (let* c := logring_seek_oldest false false in mret (LgRc (Ok tt), c)) w
  | LgSeekNewest => with_cursor (let* c := logring_seek_newest false false in mret (LgRc (Ok tt), c)) w
  | LgNext sz => with_cursor (let* '(r, c) := logring_next false false (cl_cursor w) (buf_of sz).1 (buf_of sz).2 in mret (LgRec r, c)) w
  | LgStats => with_log (logring_stats false false) (fun r => match r with Ok s => LgInfo s | Err e => LgRc (Err e) end) (fun _ => false) w
  | LgReset => with_log (logring_reset CLOG_K false) LgRc (fun r => negb (is_ok r)) w
  end.

Fixpoint lg_run (cs : list lg_call) (w : client) : list lg_reply * client :=
  match cs with
  | [] => ([], w)
  | c :: cs =>
      let (r, w) := lg_exec c w in
      let (rs, w) := lg_run cs w in
      (r :: rs, w)
  end.

(** ** The queue they run on: a log, whether it is open, and a cursor *)

Definition lg_step a (op : bool) (cu : logring_cursor) (c : lg_call) (r : lg_reply) a' (op' : bool) (cu' : logring_cursor) : Prop :=
  match c with
  | LgOpen => cu' = cu /\ ((r = LgRc (Ok tt) /\ a' = reopened a /\ op' = true) \/ (exists x, fault (D := D) x /\ r = LgRc (Err x) /\ a' = a /\ op' = op))
  | LgPowerCut => r = LgRc (Ok tt) /\ a' = a /\ op' = false /\ cu' = cu
  | _ =>
      if negb op then r = LgNoHandle /\ a' = a /\ op' = op /\ cu' = cu
      else
        match c with
        | LgAppend rec => op' = true /\ cu' = cu /\ exists q, r = LgId q /\ appends CLOG_K (D := D) cap rec a q a'
        | LgSeekOldest => r = LgRc (Ok tt) /\ a' = a /\ op' = true /\ cu' = mk_cursor 0 epoch
        | LgSeekNewest => r = LgRc (Ok tt) /\ a' = a /\ op' = true /\ cu' = mk_cursor (last_id (al_q a)) epoch
        | LgNext sz => a' = a /\ op' = true /\ exists q, r = LgRec q /\ next_step (D := D) epoch a cu sz (q, cu')
        | LgStats => r = LgInfo (mk_lstats (nxt_of (al_q a) 0) (last_id (al_q a)) (u32 (len (al_q a))) (u32 (total (al_q a)))) /\ a' = a /\ op' = true /\ cu' = cu
        | _ => cu' = cu /\ exists q, r = LgRc q /\ op' = is_ok q /\ resets CLOG_K (D := D) cap a q a'
        end
  end.

Inductive lg_steps : alog -> bool -> logring_cursor -> list lg_call -> list lg_reply -> alog -> bool -> logring_cursor -> Prop :=
  | lg_done a op cu : lg_steps a op cu [] [] a op cu
  | lg_more a op cu c r a1 op1 cu1 cs rs a2 op2 cu2 : lg_step a op cu c r a1 op1 cu1 -> lg_steps a1 op1 cu1 cs rs a2 op2 cu2 ->
      lg_steps a op cu (c :: cs) (r :: rs) a2 op2 cu2.

(** ** The simulation *)

Context (Hmax : CLOG_ROOT_LEN <= blob_max (D := D) <= 65545) (Hk : 1 <= CLOG_K) (Hsteady : ~ tears (D := D)) (Hepoch : 0 <= epoch < 2 ^ 32) (Hcap : 0 <= cap < 2 ^ 32).
Notation log_ok := (log_ok (D := D) root epoch cap).
Notation handle_of := (handle_of root epoch cap).
Notation kept := (kept root).

Lemma cursor_mono a a' c : cursor_ok a c -> al_hist a ⊆ al_hist a' -> cursor_ok a' c.
Proof.
  intros Hc Hs. destruct Hc as [?|[[x E]|(id & rec & E)]]; [by left|right; left; exists x; by eapply lookup_weaken|right; right; exists id, rec; by eapply lookup_weaken].
Qed.

Lemma ckpt_hist force a r a' : ckpt CLOG_K (D := D) cap force a r a' -> al_hist a' = al_hist a.
Proof. by destruct 1. Qed.

Lemma appends_hist rec a r a' : appends CLOG_K (D := D) cap rec a r a' -> al_hist a !! al_nf a = None -> al_hist a ⊆ al_hist a'.
Proof.
  intros Ha Hn. destruct Ha as [| |? ? Hs _|? Hs _ _|a1 x a2 Hs _ _ Hc|a1 r2 a2 Hs _ Hd]; try done.
  - by rewrite (squeeze_hist _ _ _ _ _ Hs).
  - by rewrite (squeeze_hist _ _ _ _ _ Hs).
  - by rewrite (ckpt_hist _ _ _ _ Hc), (squeeze_hist _ _ _ _ _ Hs).
  - assert (al_hist a2 = <[al_nf a := (r2, rec)]> (al_hist a)) as ->; [|by apply insert_subseteq].
    rewrite <- (squeeze_nf _ _ _ _ _ Hs), <- (squeeze_hist _ _ _ _ _ Hs). destruct (due CLOG_K a1); [destruct Hd as [rc Hc]; by rewrite (ckpt_hist _ _ _ _ Hc)|by rewrite Hd].
Qed.

Lemma resets_hist a r a' : resets CLOG_K (D := D) cap a r a' -> al_hist a' = al_hist a.
Proof.
  intros Hr. destruct Hr as [a1 x a2 Hs _ Hc|x a1 Hs _|x a1 Hs _|a1 r2 Hs _ _]; cbn [al_hist].
  - by rewrite (ckpt_hist _ _ _ _ Hc), (squeeze_hist _ _ _ _ _ Hs).
  - by rewrite (squeeze_hist _ _ _ _ _ Hs).
  - by rewrite (squeeze_hist _ _ _ _ _ Hs).
  - done.
Qed.

(** The objects of others, those below the root, are [o0]'s. *)
Definition lg_inv (n : nat) o0 a (op : bool) (w : client) : Prop := exists nx o, holds n nx o (cl_dev w) /\ log_ok o nx a /\ kept o0 o /\ cursor_ok a (cl_cursor w) /\
  match cl_handle w with Some h => op = true /\ h = handle_of a | None => op = false end.

Definition simulates (n : nat) o0 a op cu c (rw : lg_reply * client) : Prop := exists a' op' cu',
  lg_inv n o0 a' op' rw.2 /\ cu' = cl_cursor rw.2 /\ lg_step a op cu c rw.1 a' op' cu'.

Lemma with_log_sim {A} n o0 a op w c (m : M (lrs (D := D)) A) f close :
  lg_inv (S n) o0 a op w ->
  (op = false -> lg_step a op (cl_cursor w) c LgNoHandle a op (cl_cursor w)) ->
  (forall nx o s, op = true -> lg_holds root epoch cap (S n) nx o a s -> wp m s (fun r s' => exists nx' o' a', kept o o' /\ holds n nx' o' (lr_dev s') /\ log_ok o' nx' a' /\
    al_hist a ⊆ al_hist a' /\ (close r = false -> lr_h s' = handle_of a') /\ lg_step a true (cl_cursor w) c (f r) a' (negb (close r)) (cl_cursor w))) ->
  simulates n o0 a op (cl_cursor w) c (with_log m f close w).
Proof.
  intros (nx & o & Hh & Hl & Hk' & Hc & Hop) Hno Hm. unfold with_log. destruct (cl_handle w) as [h|] eqn:E.
  - destruct Hop as [-> ->]. specialize (Hm nx o (mk_lrs (cl_dev w) (handle_of a)) eq_refl ltac:(by split_and!)). unfold wp in Hm. destruct (m _) as [r s'].
    destruct Hm as (nx' & o' & a' & Hk2 & Hh' & Hl' & Hs & Hcl & Hst). exists a', (negb (close r)), (cl_cursor w). split; [|done]. exists nx', o'. cbn. split_and!; try done.
    + by eapply log_kept_trans.
    + by eapply cursor_mono.
    + destruct (close r); [done|]. split; [done|by apply Hcl].
  - subst op. exists a, false, (cl_cursor w). split; [|split; [done|by apply Hno]]. exists nx, o. cbn. rewrite E. split_and!; try done. eapply holds_le; [|exact Hh]. lia.
Qed.

Lemma with_cursor_sim n o0 a op w c (m : M (lrs (D := D)) (lg_reply * logring_cursor)) :
  lg_inv (S n) o0 a op w ->
  (op = false -> lg_step a op (cl_cursor w) c LgNoHandle a op (cl_cursor w)) ->
  (forall nx o s, op = true -> lg_holds root epoch cap (S n) nx o a s -> wp m s (fun r s' => lg_holds root epoch cap (S n) nx o a s' /\
     exists q cu', r = Ok (q, cu') /\ cursor_ok a cu' /\ lg_step a true (cl_cursor w) c q a true cu')) ->
  simulates n o0 a op (cl_cursor w) c (with_cursor m w).
Proof.
  intros (nx & o & Hh & Hl & Hk' & Hc & Hop) Hno Hm. assert (holds n nx o (cl_dev w)) as Hh0 by (eapply holds_le; [|exact Hh]; lia). unfold with_cursor. destruct (cl_handle w) as [h|] eqn:E.
  - destruct Hop as [-> ->]. specialize (Hm nx o (mk_lrs (cl_dev w) (handle_of a)) eq_refl ltac:(by split_and!)). unfold wp in Hm. destruct (m _) as [r s'].
    destruct Hm as ((Hh' & _ & Eh) & q & cu' & -> & Hcu & Hst). exists a, true, cu'. split; [|done]. exists nx, o. cbn. split_and!; try done. eapply holds_le; [|exact Hh']. lia.
  - subst op. exists a, false, (cl_cursor w). split; [|split; [done|by apply Hno]]. exists nx, o. cbn. rewrite E. by split_and!.
Qed.

Lemma lg_exec_step n o0 a op w c : lg_inv (S n) o0 a op w -> lg_call_ok c -> simulates n o0 a op (cl_cursor w) c (lg_exec c w).
Proof.
  intros Hi Hc. destruct c as [| |rec| | |sz| |]; cbn [lg_exec].
  - destruct Hi as (nx & o & Hh & Hl & Hk' & Hcu & Hop). pose proof (log_open_spec CLOG_K root epoch cap Hmax Hsteady Hepoch Hcap (S n) nx o a (cl_dev w) Hh Hl) as Hw. unfold wp in Hw.
    destruct (logring_open _ _ _ _) as [r d]. destruct Hw as (o' & Hk2 & Hh2 & Hl2 & Hr). apply (holds_le (S n) n) in Hh2; [|lia]. assert (kept o0 o') as Hk3 by by eapply log_kept_trans.
    destruct Hr as [->|(x & Hx & ->)].
    + exists (reopened a), true, (cl_cursor w). cbn. split; [|by split_and!; [..|left]]. exists nx, o'. cbn. split_and!; try done. by eapply log_ok_same.
    + exists a, op, (cl_cursor w). cbn. split; [by exists nx, o'|]. split_and!; try done. right. eauto.
  - destruct Hi as (nx & o & Hh & Hl & Hk' & Hcu & Hop). exists a, false, (cl_cursor w). cbn. destruct (cl_cursor w). split; [|by split_and!]. exists nx, o. cbn. split_and!; try done. eapply holds_le; [|exact Hh]. lia.
  - apply with_log_sim; [done|by intros ->|]. intros nx o s -> Hg. pose proof Hg as (Hh & Hl & _). wp_use (append_spec CLOG_K root epoch cap Hmax Hk Hsteady Hepoch Hcap n nx o a s rec Hg Hc).
    intros r s' (nx' & o' & a' & _ & Hk2 & (Hh' & Hl' & Eh) & Ha). exists nx', o', a'. split_and!; try done; [|by cbn; split_and!; [..|eauto]].
    apply (appends_hist rec a r a' Ha). destruct (al_hist a !! al_nf a) as [[x b]|] eqn:E; [|done]. apply (lo_hist _ _ _ _ _ _ Hl) in E. lia.
  - apply with_cursor_sim; [done|by intros ->|]. intros nx o s -> Hg. pose proof Hg as (Hh & Hl & Eh). unfold wp, logring_seek_oldest, mbnd, mgets, mret. cbn [orb]. rewrite Eh.
    split; [done|]. eexists _, _. split; [done|]. split; [by left|done].
  - apply with_cursor_sim; [done|by intros ->|]. intros nx o s -> Hg. pose proof Hg as (Hh & Hl & Eh). unfold wp, logring_seek_newest, mbnd, mgets, mret. cbn [orb]. rewrite Eh.
    split; [done|]. eexists _, _. split; [done|]. split; [|done]. cbn. pose proof (lo_chain _ _ _ _ _ _ Hl) as Hch. unfold on_flash in Hch. rewrite chain_app in Hch. destruct Hch as [_ Hch].
    unfold last_id. destruct (list.last (al_q a)) as [e|] eqn:El; [right; left|by left]. destruct (chain_in _ _ _ e Hch) as [x E]; [by apply list.last_Some_elem_of|]. cbn. by eexists.
  - apply with_cursor_sim; [done|by intros ->|]. destruct Hi as (_ & _ & _ & _ & _ & Hcu & _). intros nx o s -> Hg. wp_step. wp_use (log_next_spec root epoch cap Hmax (S n) nx o a s (cl_cursor w) sz Hg Hcu).
    intros r s' ([r' cu'] & -> & Hg' & Hst & Hcu'). wp_step. split; [done|]. eexists _, _. split; [done|]. split; [done|]. cbn. split_and!; try done. eauto.
  - apply with_log_sim; [done|by intros ->|]. intros nx o s -> Hg. pose proof Hg as (Hh & Hl & Eh). wp_use (stats_spec root epoch cap (S n) nx o a s Hg). intros r s' [-> ->]. exists nx, o, a. split_and!; try done.
    eapply holds_le; [|exact Hh]. lia.
  - apply with_log_sim; [done|by intros ->|]. intros nx o s -> Hg. wp_use (reset_spec CLOG_K root epoch cap Hmax Hk Hsteady Hepoch Hcap n nx o a s Hg).
    intros r s' (nx' & o' & a' & _ & Hk2 & Hh' & Hl' & Hr & Eh). exists nx', o', a'. split_and!; try done.
    + by rewrite (resets_hist a r a' Hr).
    + destruct r as [[]|]; [|done]. intros _. by apply Eh.
    + cbn. split; [done|]. exists r. split_and!; try done. by destruct r.
Qed.

Lemma lg_run_steps n o0 cs a op w : Forall lg_call_ok cs -> lg_inv (length cs + n) o0 a op w ->
  let (rs, w') := lg_run cs w in exists a' op', lg_inv n o0 a' op' w' /\ lg_steps a op (cl_cursor w) cs rs a' op' (cl_cursor w').
Proof.
  intros Hcs. revert a op w. induction Hcs as [|c cs Hc _ IH]; intros a op w Hi; cbn [lg_run]; [exists a, op; split; [done|constructor]|].
  pose proof (lg_exec_step (length cs + n) o0 a op w c Hi Hc) as (a1 & op1 & cu1 & Hi1 & -> & Hst). destruct (lg_exec c w) as [r w1]. specialize (IH a1 op1 w1 Hi1). destruct (lg_run cs w1) as [rs w2].
  destruct IH as (a2 & op2 & Hi2 & Hsts). exists a2, op2. split; [done|]. by econstructor.
Qed.
End runs.

(** The property of logring: its calls, on a store that may fail and whose power
    may go, are those of a bounded queue. *)

Section log.
Context (CLOG_K : Z) {D : Type} `{!Blobs D} {L : BlobLaws D} (root epoch cap : Z).
Notation lg_step := (lg_step CLOG_K (D := D) epoch cap).
Notation lg_steps := (lg_steps CLOG_K (D := D) epoch cap).
Implicit Types (a : alog) (c : lg_call).

(** The records a run acknowledged, under the ids it gave them. *)
Fixpoint acked (cs : list lg_call) (rs : list lg_reply) : list entry :=
  match cs, rs with
  | LgAppend rec :: cs, LgId (Ok id) :: rs => (id, rec) :: acked cs rs
  | _ :: cs, _ :: rs => acked cs rs
  | _, _ => []
  end.

(** ** The log on flash is an end of what was acknowledged *)

Definition ends (es all : list entry) : Prop := es `suffix_of` all /\ (all <> [] -> es <> []).

Lemma ends_refl es : ends es es.
Proof. by split. Qed.

Lemma ends_cut (es p q : list entry) : es = p ++ q -> (es <> [] -> q <> []) -> ends q es.
Proof. intros -> Hq. split; [by exists p|done]. Qed.

Lemma ends_trans e1 e2 e3 : ends e1 e2 -> ends e2 e3 -> ends e1 e3.
Proof. intros [H1 H1'] [H2 H2']. split; [by etrans|auto]. Qed.

Lemma ends_app e1 e2 x : ends e1 e2 -> ends (e1 ++ x) (e2 ++ x).
Proof.
  intros [[k ->] H]. split; [exists k; by rewrite app_assoc|]. intros Hne E. apply app_eq_nil in E as [-> ->]. rewrite !app_nil_r in *. by apply H.
Qed.

Lemma ckpt_ends force a r a' : ckpt CLOG_K (D := D) cap force a r a' -> al_q a <> [] -> ends (on_flash a') (on_flash a).
Proof.
  intros Hc Hq. pose proof (cut_split CLOG_K cap force a) as [E Hr]. specialize (Hr Hq). destruct Hc as [|x _ _|x _]; [|apply ends_refl|]; unfold on_flash; cbn [al_pre al_q app].
  - apply (ends_cut _ (al_pre a ++ (cut CLOG_K cap force a).1)); [by rewrite E at 1; rewrite app_assoc|done].
  - rewrite <- app_assoc, <- E. apply ends_refl.
Qed.

Lemma squeeze_ends why a a' : squeeze CLOG_K (D := D) cap why a a' -> ends (on_flash a') (on_flash a).
Proof.
  induction 1 as [|a1 a2 _ IH _ Hq Hc]; [apply ends_refl|]. eapply ends_trans; [|exact IH]. eapply ckpt_ends; [exact Hc|]. by destruct (al_q a1); [cbn in Hq; lia|].
Qed.

Lemma appends_ends rec a r a' : appends CLOG_K (D := D) cap rec a r a' -> ends (on_flash a') (on_flash a ++ match r with Ok id => [(id, rec)] | Err _ => [] end).
Proof.
  intros Ha. destruct Ha as [|x|x a1 Hs _|a1 Hs _ _|a1 x a2 Hs _ Hq Hc|a1 r2 a2 Hs _ Hd]; rewrite ?app_nil_r; try apply ends_refl; try by eapply squeeze_ends.
  - eapply ends_trans; [eapply ckpt_ends; [exact Hc|]|by eapply squeeze_ends]. by destruct (al_q a1); [cbn in Hq; lia|].
  - rewrite <- (squeeze_nf _ _ _ _ _ Hs). assert (ends (on_flash (added a1 r2 rec)) (on_flash a ++ [(al_nf a1, rec)])) as Hadd by (rewrite on_flash_added; by eapply ends_app, squeeze_ends).
    destruct (due CLOG_K a1); [|by rewrite Hd]. destruct Hd as [rc Hc]. eapply ends_trans; [|exact Hadd]. eapply ckpt_ends; [exact Hc|apply al_q_added].
Qed.

Lemma step_ends a op cu c r a' op' cu' cs rs : lg_step a op cu c r a' op' cu' -> c <> LgReset ->
  exists x, acked (c :: cs) (r :: rs) = x ++ acked cs rs /\ ends (on_flash a') (on_flash a ++ x).
Proof.
  intros Hs Hr. assert (on_flash a' = on_flash a -> ends (on_flash a') (on_flash a ++ [])) as Hsame by (intros ->; rewrite app_nil_r; apply ends_refl).
  destruct c as [| |rec| | |sz| |]; try done; cbn [acked lg_step] in *.
  - exists []. split; [done|]. apply Hsame. destruct Hs as [_ [(_ & -> & _)|(x & _ & _ & -> & _)]]; done.
  - exists []. split; [done|]. apply Hsame. by destruct Hs as (_ & -> & _).
  - destruct op; cbn [negb] in Hs; [|destruct Hs as (-> & -> & _); exists []; by split; [|apply Hsame]]. destruct Hs as (_ & _ & q & -> & Ha). apply appends_ends in Ha.
    destruct q as [id|x]; [exists [(id, rec)]|exists []]; by split.
  - exists []. split; [done|]. apply Hsame. destruct op; cbn [negb] in Hs; destruct Hs as (_ & -> & _); done.
  - exists []. split; [done|]. apply Hsame. destruct op; cbn [negb] in Hs; destruct Hs as (_ & -> & _); done.
  - exists []. split; [done|]. apply Hsame. destruct op; cbn [negb] in Hs; [destruct Hs as (-> & _)|destruct Hs as (_ & -> & _)]; done.
  - exists []. split; [done|]. apply Hsame. destruct op; cbn [negb] in Hs; destruct Hs as (_ & -> & _); done.
Qed.

Lemma steps_ends a op cu cs rs a' op' cu' : lg_steps a op cu cs rs a' op' cu' -> LgReset ∉ cs -> ends (on_flash a') (on_flash a ++ acked cs rs).
Proof.
  induction 1 as [|a op cu c r a1 op1 cu1 cs rs a2 op2 cu2 Hs _ IH]; intros Hn; [rewrite app_nil_r; apply ends_refl|]. rewrite not_elem_of_cons in Hn. destruct Hn as [Hc Hn].
  destruct (step_ends _ _ _ _ _ _ _ _ cs rs Hs ltac:(congruence)) as (x & -> & He). eapply ends_trans; [by apply IH|]. rewrite app_assoc. by apply ends_app.
Qed.
End log.


(** The theorem of LogCorrect.v at work on a store in RAM whose calls fail as a
    schedule says, and a run the client of that theorem never makes. *)

#[local] Instance log_ram : Blobs ram := ram_blobs 64.
#[local] Instance log_ram_laws : BlobLaws ram := ram_laws 64.
#[local] Instance log_flaky_laws : BlobLaws (flaky ram) | 0 := flaky_laws_of false.

(** A store that holds an empty root and goes by [fs]. *)
Definition log_store (fs : list fate) : flaky ram := mk_flaky (mk_ram {[1 := []]} 2) fs.

Definition clean (fs : list fate) : bool := forallb (fun f => match f with Lands => false | _ => true end) fs.

Lemma log_store_holds (n : nat) fs : clean fs = true -> 2 + Z.of_nat n < 2 ^ 64 -> holds (D := flaky ram) n 2 {[1 := []]} (log_store fs).
Proof.
  intros Hf Hn. cbn. split; [|intros _ Hin; apply list_elem_of_In in Hin; unfold clean in Hf; rewrite forallb_forall in Hf; by apply Hf in Hin]. split_and!; try done. split; [lia|]. apply map_Forall_singleton. split; [lia|]. split; [constructor|by vm_compute].
Qed.

Lemma log_steady : ~ tears (D := flaky ram).
Proof. by intros [?|[]]. Qed.

(** The second append finds the store full; the root write that would evict fails
    once; the power goes; a reset ends it. *)
Definition log_fates : list fate := replicate 11 Fine ++ [Full; Fine; Fails] ++ replicate 10 Fine ++ [Full; Fine; Fine].

Definition log_calls : list lg_call :=
  [LgStats; LgOpen; LgAppend [1; 2]; LgAppend [3]; LgAppend [4; 4; 4]; LgStats; LgSeekOldest; LgNext None; LgPowerCut; LgStats; LgOpen; LgNext (Some 2); LgAppend [5]; LgStats; LgNext (Some 2); LgSeekOldest; LgNext (Some 9); LgAppend (replicate 60 0); LgReset; LgStats].


(** What a client may not do. A reset whose root write fails has already given the
    handle a frontier the log on flash does not lead to; an append that goes on
    with it is acknowledged, its own checkpoint failing too, and the next open does
    not find it. *)
Definition log_after_reset : res unit * res Z * res logring_t :=
  let d := snd (logring_create (Some 4) false 7 (log_store (replicate 9 Fine ++ [Fails; Fine; Fine; Fails]))) in
  match logring_open 2 2 false d with
  | (Ok h, d) =>
      let (_, s) := logring_append 2 false false [1] (mk_lrs d h) in
      let (r1, s) := logring_reset 2 false s in
      let (r2, s) := logring_append 2 false false [9] s in
      (r1, r2, fst (logring_open 2 2 false (lr_dev s)))
  | (Err e, _) => (Err e, Err e, Err e)
  end.

Example reset_leaves_a_loose_handle : log_after_reset = (Err EIO, Ok 5, Ok (mk_logring 2 3 4 3 7 4 1 1 0)).
Proof. vm_compute. reflexivity. Qed.
