(* ===== verification/SegCorrect.v ===== *)
(** What the development establishes of large payloads, one theorem per property,
    and a concrete store each is applied to. The lemmas of the Seg files carry the
    proofs. *)

From S2P Require Import Prelude Layout Store SlotIndexIface Image Core CoreRead Lookup Append Bucket Compact.
From S2P Require Import CompactImage Recovery CompactSpec Ops OpsRead OpsWrite Master Mount MasterSpec MasterInv.
From S2P Require Import MountSpec Session Segments SegBase SegIo SegRead SegSweep SegWrite SegPatch SegOps SegMount SegRuns.
From S2P Require Import FlashStore Sim SlotIndexHash SlotIndexLaws Demo Witness.

Section large.
Context (cfg : config) (MAX_OBJECT_LEN SEGMENT_LEN MAX_SEGMENTS : Z) (g : geom) `{Crc}.
Context {S I : Type} `{!Store S} `{!StoreView S} `{!SlotIndex I}.
Context (Hg : geom_ok cfg g) (Ha : geom_aligned g) {SL : StoreLaws S (store_geom_of g)} {CL : CrcLaws _}.
Context (sidx_wf : Z -> I -> Prop) {IL : SlotIndexLaws I sidx_wf}.
Context (Hlarge : LARGE_PAYLOADS cfg = true).
Context (Hop : opens cfg g) (Hnd : forall off (s : S), blob_db_store_open_found_damage off s = false).
Context (Hbuild : seg_build cfg MAX_OBJECT_LEN SEGMENT_LEN MAX_SEGMENTS).
Notation lp := (lp S I).
Notation lsession := (lsession cfg MAX_OBJECT_LEN g sidx_wf).
Notation fitted := (fitted cfg SEGMENT_LEN MAX_SEGMENTS g).
Notation fits := (fits cfg MAX_OBJECT_LEN SEGMENT_LEN MAX_SEGMENTS g).
Notation object := (object cfg g).
Notation steady := (steady cfg MAX_OBJECT_LEN g sidx_wf).
Notation sets := (sets cfg MAX_OBJECT_LEN g sidx_wf).
Notation fresh_store := (fresh_store cfg MAX_OBJECT_LEN SEGMENT_LEN MAX_SEGMENTS g sidx_wf).
Notation booted := (booted cfg MAX_OBJECT_LEN SEGMENT_LEN MAX_SEGMENTS g sidx_wf).
Implicit Types s : lp.

(** C12: with large payloads, on a device that works, every sequence of public
    calls, remounts included, is a run of an object store whose objects may be
    as long as MAX_OBJECT_LEN, reply by reply: an object is read back as it was
    last written, whole or patched, whether it lies in one slot or in segments;
    no call changes another object; the ids taken for segments are never those
    of the caller; and a mutation is refused only for want of room. *)
Theorem large_runs_refine_object_store os s a :
  fits -> lsession s -> fitted s -> matches cfg g s a -> lroom s (65540 * len os) -> Forall op_ok os ->
  let (rs, s') := lrun cfg MAX_OBJECT_LEN SEGMENT_LEN MAX_SEGMENTS os s in
  lsession s' /\ fitted s' /\ exists a', matches cfg g s' a' /\ lobj_steps cfg MAX_OBJECT_LEN os rs a a'.
Proof. intros Hf Ls Hfd Hm Hr Ho. by apply (lrun_sim cfg MAX_OBJECT_LEN SEGMENT_LEN MAX_SEGMENTS g Hg Ha sidx_wf Hlarge Hop Hnd Hbuild Hf). Qed.

(** C18: formatting an unmounted store of a build with large payloads succeeds
    exactly if MAX_OBJECT_LEN fits the segments the geometry allows, and then
    yields a mounted store with an empty root and no other object; otherwise it
    is refused with -ENOTSUP and stays unmounted. *)
Theorem large_format_fits_or_refuses s m :
  mounted (d_st (lp_db s)) = false -> sidx_wf m (d_ix (lp_db s)) -> bootable (d_store (lp_db s)) ->
  wp (Large.blob_db_format cfg MAX_OBJECT_LEN SEGMENT_LEN MAX_SEGMENTS) s (fun r s' =>
    if bool_decide fits then r = Ok tt /\ fresh_store s' else r = Err ENOTSUP /\ mounted (d_st (lp_db s')) = false).
Proof.
  intros Hm Hix Hh. case_bool_decide as Hf.
  - by apply (format_large cfg MAX_OBJECT_LEN SEGMENT_LEN MAX_SEGMENTS g Hg Ha sidx_wf Hop Hbuild s m).
  - unfold Large.blob_db_format, Large.then_reset. apply wp_bnd.
    eapply wp_mono; [by apply (format_refused cfg MAX_OBJECT_LEN SEGMENT_LEN MAX_SEGMENTS g Hg Ha sidx_wf Hop Hbuild s m)|].
    cbv beta. by intros r s' [-> ?].
Qed.


(** C26: the sweep of an owner ends, reports success, and changes no object of
    the store, the owner's included, whatever segments it buries. *)
Theorem sweep_spares_objects s owner :
  lsession s -> lroom s 1 -> 0 < owner < 2 ^ 64 -> wp (Large.seg_sweep cfg g owner) s (fun r s' => r = Ok tt /\ steady 1 s s').
Proof. intros Ls Hr Ho. by apply (seg_sweep_spec cfg MAX_OBJECT_LEN g Hg Ha sidx_wf Hlarge s owner). Qed.

(** C27: a positioned write to a segmented object leaves the whole patched
    object, rewriting only the segments it touches, or is refused with nothing
    changed: with -EFBIG past MAX_OBJECT_LEN, with -ENOSPC when some bucket it
    needs is full. *)
Theorem segmented_write_patches_object s id fl p v off b :
  lsession s -> slots cfg g (lp_db s) id = Some (fl, p) -> is_idx fl = true -> object (lp_db s) id = Some v ->
  0 <= off -> 1 <= len b -> off + len b < 2 ^ 32 -> bytes_ok b -> lroom s 65538 ->
  wp (Large.pwrite_segmented cfg MAX_OBJECT_LEN g id off b) s (fun r s' =>
    if Z.max (off + len b) (len v) <=? MAX_OBJECT_LEN
    then (r = Ok tt /\ sets 65538 s s' id (Some (patched off b v))) \/ (r = Err ENOSPC /\ steady 65538 s s' /\ starved cfg g (lp_db s') id)
    else r = Err EFBIG /\ steady 65538 s s').
Proof. intros. by apply (pwrite_spec cfg MAX_OBJECT_LEN g Hg Ha sidx_wf Hlarge s id fl p v off b). Qed.
End large.

(** The theorems on large payloads at concrete inputs: the part of Demo.v under a
    build with large payloads, whose 32-byte slots hold objects of up to 40
    bytes as two segments. *)

Definition seg_cfg : config := mkconfig 32 256 0 false true.
Definition seg_geom : geom := open_geom seg_cfg (flash_geom demo_P demo_al demo_n).
Definition seg_object : Z := 40.
Definition seg_segs : Z := 8.

#[export] Instance seg_store_laws : StoreLaws demo_S (store_geom_of seg_geom).
Proof. exact (flash_store_laws demo_P demo_al demo_n). Qed.

Lemma seg_geom_ok : geom_ok seg_cfg seg_geom.
Proof. apply open_geom_ok; by vm_compute. Qed.

Lemma seg_aligned : geom_aligned seg_geom.
Proof. split; by vm_compute. Qed.

Lemma seg_opens : opens seg_cfg seg_geom.
Proof. split; by vm_compute. Qed.

Lemma seg_ranges : seg_build seg_cfg seg_object 0 seg_segs.
Proof. split; by vm_compute. Qed.

Lemma seg_fits : fits seg_cfg seg_object 0 seg_segs seg_geom.
Proof. by vm_compute. Qed.

(** The statics before anything ran. *)
Definition seg_off : lp demo_S sidx := mk_lp (demo_off [] []) 0 (mk_index_hdr [] 0 0 0 0 0 0) 0 [] 0 0.
Definition seg_db : lp demo_S sidx := snd (Large.blob_db_format seg_cfg seg_object 0 seg_segs seg_off).
Notation seg_session := (lsession seg_cfg seg_object seg_geom demo_wf).
Notation seg_fitted := (fitted seg_cfg 0 seg_segs seg_geom).

Lemma seg_format : fst (Large.blob_db_format seg_cfg seg_object 0 seg_segs seg_off) = Ok tt /\ fresh_store seg_cfg seg_object 0 seg_segs seg_geom demo_wf seg_db.
Proof.
  assert (bootable (d_store (demo_off [] []))) as Hh by exact (List.Forall_nil _).
  exact (wp_out _ _ _ (format_large seg_cfg seg_object 0 seg_segs seg_geom seg_geom_ok seg_aligned demo_wf seg_opens seg_ranges seg_off 1
    eq_refl sidx_zero_wf Hh seg_fits)).
Qed.

Definition ramp (n : nat) : bytes := Z.of_nat <$> seq 0 n.

(** An object of 40 bytes, in two segments. *)
Definition seg_one : lp demo_S sidx := snd (lrun seg_cfg seg_object 0 seg_segs [OpAlloc; OpUpdate 2 (ramp 40)] seg_db).

Lemma seg_one_session : seg_session seg_one /\ seg_fitted seg_one.
Proof.
  destruct seg_format as (_ & [F1 F2 F3 F4 F5]).
  assert (lroom seg_db (65540 * len [OpAlloc; OpUpdate 2 (ramp 40)])) as Hroom.
  { unfold lroom. rewrite F3. change (len [OpAlloc; OpUpdate 2 (ramp 40)]) with 2. unfold UINT32_MAX. lia. }
  assert (Forall op_ok [OpAlloc; OpUpdate 2 (ramp 40)]) as Hok by (repeat constructor; by vm_compute).
  assert (matches seg_cfg seg_geom seg_db lobj_fresh) as Hm.
  { apply (fresh_matches seg_cfg seg_object 0 seg_segs seg_geom demo_wf). by split. }
  pose proof (lrun_sim seg_cfg seg_object 0 seg_segs seg_geom seg_geom_ok seg_aligned demo_wf eq_refl seg_opens demo_damage seg_ranges seg_fits
    _ _ _ F1 F2 Hm Hroom Hok) as Hrun.
  unfold seg_one. destruct (lrun _ _ _ _ _ seg_db) as [rs s']. destruct Hrun as (H1 & H2 & _). exact (conj H1 H2).
Qed.

Lemma seg_one_counters : next_id (d_st (lp_db seg_one)) = 5 /\ rot_gen (d_st (lp_db seg_one)) = 3.
Proof. split; vm_compute; reflexivity. Qed.

Lemma seg_one_holds : object seg_cfg seg_geom (lp_db seg_one) 2 = Some (ramp 40).
Proof. vm_compute. reflexivity. Qed.

(** Segments taken, read, patched, carried over a remount and released; id 3 is
    the first segment's. *)
Definition seg_ops : list op :=
  [OpAlloc; OpUpdate 2 (ramp 40); OpUpdate 3 [1]; OpRead 2 15 10; OpWrite 2 18 [200; 201; 202; 203]; OpRemount; OpRead 2 16 8; OpSize 2; OpCount;
   OpUpdate 2 (ramp 41); OpWrite 2 39 [1; 2]; OpAlloc; OpUpdate 2 [9]; OpGet 2 40; OpDelete 2; OpExists 2].

Definition seg_replies : list reply :=
  [RpId 2; RpRc (Ok tt); RpRc (Err EINVAL); RpBytes (Ok [15; 16; 17; 18; 19; 20; 21; 22; 23; 24]); RpRc (Ok tt); RpRc (Ok tt);
   RpBytes (Ok [16; 17; 200; 201; 202; 203; 22; 23]); RpLen (Ok 40); RpCount 2; RpRc (Err EINVAL); RpRc (Err EFBIG); RpId 264;
   RpRc (Ok tt); RpBytes (Ok [9]); RpRc (Ok tt); RpBool false].

Lemma seg_ops_replies : fst (lrun seg_cfg seg_object 0 seg_segs seg_ops seg_db) = seg_replies.
Proof. vm_compute. reflexivity. Qed.

Lemma seg_ops_ok : Forall op_ok seg_ops.
Proof. repeat constructor; by vm_compute. Qed.

Lemma seg_room n s : next_id (d_st (lp_db s)) <= 1000 -> rot_gen (d_st (lp_db s)) <= 1000 -> n <= 65540 * 1000 -> lroom (s : lp demo_S sidx) n.
Proof. intros H1 H2 Hn. unfold lroom, UINT32_MAX. lia. Qed.

Lemma large_runs_refine_object_store_witness :
  let (rs, s') := lrun seg_cfg seg_object 0 seg_segs seg_ops seg_db in
  rs = seg_replies /\ exists a', matches seg_cfg seg_geom s' a' /\ lobj_steps seg_cfg seg_object seg_ops rs lobj_fresh a'.
Proof.
  destruct seg_format as (_ & F). pose proof F as [F1 F2 F3 F4 _].
  assert (lroom seg_db (65540 * len seg_ops)) as Hroom by (apply seg_room; [lia|lia|by vm_compute]).
  pose proof (large_runs_refine_object_store seg_cfg seg_object 0 seg_segs seg_geom seg_geom_ok seg_aligned demo_wf eq_refl seg_opens demo_damage
    seg_ranges seg_ops seg_db lobj_fresh seg_fits F1 F2 (fresh_matches seg_cfg seg_object 0 seg_segs seg_geom demo_wf seg_db F) Hroom seg_ops_ok) as Hrun.
  pose proof seg_ops_replies as Hr. destruct (lrun _ _ _ _ seg_ops seg_db) as [rs s']. destruct Hrun as (_ & _ & Hx). exact (conj Hr Hx).
Defined.

(** A build whose objects are too long for its segments, on the same part. *)
Lemma seg_unfit_ranges : seg_build seg_cfg 41 0 seg_segs.
Proof. split; by vm_compute. Qed.

Lemma large_format_fits_or_refuses_witness :
  (fst (Large.blob_db_format seg_cfg seg_object 0 seg_segs seg_off) = Ok tt /\
   fresh_store seg_cfg seg_object 0 seg_segs seg_geom demo_wf (snd (Large.blob_db_format seg_cfg seg_object 0 seg_segs seg_off))) /\
  fst (Large.blob_db_format seg_cfg 41 0 seg_segs seg_off) = Err ENOTSUP.
Proof.
  assert (bootable (d_store (demo_off [] []))) as Hh by exact (List.Forall_nil _). split.
  - pose proof (wp_out _ _ _ (large_format_fits_or_refuses seg_cfg seg_object 0 seg_segs seg_geom seg_geom_ok seg_aligned demo_wf seg_opens
      seg_ranges seg_off 1 eq_refl sidx_zero_wf Hh)) as Hw. rewrite (bool_decide_eq_true_2 _ seg_fits) in Hw. exact Hw.
  - pose proof (wp_out _ _ _ (large_format_fits_or_refuses seg_cfg 41 0 seg_segs seg_geom seg_geom_ok seg_aligned demo_wf seg_opens
      seg_unfit_ranges seg_off 1 eq_refl sidx_zero_wf Hh)) as Hw.
    assert (~ fits seg_cfg 41 0 seg_segs seg_geom) as Hn by (by vm_compute). rewrite (bool_decide_eq_false_2 _ Hn) in Hw. exact (proj1 Hw).
Defined.

(** An update of object 2 cut after the owner was recorded and one segment of
    the new value written; the next boot starts with RAM blank. *)
Definition seg_mid : lp demo_S sidx :=
  snd ((Large.persist_seg_owner seg_cfg seg_geom 2;;; Large.seg_write_chunk seg_cfg seg_geom 2 0 [7; 7; 7]) seg_one).
Definition seg_cut_off (s : lp demo_S sidx) : lp demo_S sidx := mk_lp (cut_off (lp_db s)) 0 (mk_index_hdr [] 0 0 0 0 0 0) 0 [] 0 0.
Definition seg_cut : lp demo_S sidx := seg_cut_off seg_mid.

Lemma seg_chunk_ok : bytes_ok [7; 7; 7] /\ len [7; 7; 7] <= MAX_PAYLOAD_LEN seg_cfg - 12.
Proof. split; [repeat constructor; by vm_compute|by vm_compute]. Qed.

Lemma seg_patch_ok : bytes_ok [200; 201; 202; 203] /\ 1 <= len [200; 201; 202; 203] /\ 18 + len [200; 201; 202; 203] < 2 ^ 32.
Proof. split; [repeat constructor; by vm_compute|split; by vm_compute]. Qed.

Lemma seg_mid_of (s : lp demo_S sidx) : seg_session s -> seg_fitted s -> (forall k, 0 <= k <= 1000 -> lroom s k) ->
  wp (Large.persist_seg_owner seg_cfg seg_geom 2;;; Large.seg_write_chunk seg_cfg seg_geom 2 0 [7; 7; 7]) s (fun _ s' => seg_session s' /\ seg_fitted s').
Proof.
  intros Ls [Hf1 Hf2] Hroom.
  apply wp_bnd. eapply wp_mono; [apply (owner_spec seg_cfg seg_geom seg_geom_ok demo_wf s 2 (ls_session _ _ _ _ _ Ls) (Hroom 1 ltac:(lia))); lia|].
  cbv beta. intros r s1 [-> K]. pose proof (kept_lsession seg_cfg seg_object seg_geom demo_wf _ _ _ Ls K) as Ls1.
  eapply wp_mono; [apply (seg_write_chunk_spec seg_cfg seg_object seg_geom seg_geom_ok seg_aligned demo_wf eq_refl s1 2 0 [7; 7; 7] Ls1)|].
  - eapply (kept_room seg_cfg seg_geom demo_wf 1); [exact K|apply Hroom; lia].
  - lia.
  - lia.
  - exact (proj1 seg_chunk_ok).
  - exact (proj2 seg_chunk_ok).
  - cbv beta. intros r s2 [W _]. split; [exact (ws_session _ _ _ _ _ _ _ W)|].
    pose proof (wrote_steady seg_cfg seg_object seg_geom demo_wf _ _ _ W) as St. rewrite (kp_fields _ _ _ _ _ _ K) in St.
    split; [rewrite (sy_len _ _ _ _ _ _ _ St); exact Hf1|rewrite (sy_max _ _ _ _ _ _ _ St); exact Hf2].
Qed.

Lemma seg_mid_session : seg_session seg_mid /\ seg_fitted seg_mid.
Proof.
  destruct seg_one_session as [Ls Hf]. destruct seg_one_counters as [Hn Hr].
  assert (forall k, 0 <= k <= 1000 -> lroom seg_one k) as Hroom by (intros k Hk; apply seg_room; lia).
  pose proof (wp_out _ _ _ (seg_mid_of seg_one Ls Hf Hroom)) as Hw. unfold seg_mid. exact Hw.
Qed.

Lemma cut_off_cycled (s : lp demo_S sidx) : healthy (d_store (lp_db s)) -> cycled demo_wf s (seg_cut_off s).
Proof. intros Hh. split; [reflexivity|exists 1; exact sidx_zero_wf|by intros p|exact Hh]. Qed.

Lemma seg_cut_cycled : cycled demo_wf seg_mid seg_cut.
Proof. exact (cut_off_cycled seg_mid (se_healthy _ _ _ _ (ls_session _ _ _ _ _ (proj1 seg_mid_session)))). Qed.


(** The same sweep in the session itself. *)
Lemma sweep_spares_objects_witness :
  let (r, s') := Large.seg_sweep seg_cfg seg_geom 2 seg_mid in
  r = Ok tt /\ steady seg_cfg seg_object seg_geom demo_wf 1 seg_mid s' /\ internal seg_cfg seg_geom (lp_db s') 5 = false.
Proof.
  assert (lroom seg_mid 1) as Hroom by (apply seg_room; by vm_compute).
  assert (0 < 2 < 2 ^ 64) as Ho by lia.
  pose proof (wp_out _ _ _ (sweep_spares_objects seg_cfg seg_object seg_geom seg_geom_ok seg_aligned demo_wf eq_refl seg_mid 2
    (proj1 seg_mid_session) Hroom Ho)) as Hw.
  assert (internal seg_cfg seg_geom (lp_db (snd (Large.seg_sweep seg_cfg seg_geom 2 seg_mid))) 5 = false) as Hv by (vm_compute; reflexivity).
  destruct (Large.seg_sweep _ _ _ seg_mid) as [r s']. exact (conj (proj1 Hw) (conj (proj2 Hw) Hv)).
Defined.

Definition seg_record : bytes := match slots seg_cfg seg_geom (lp_db seg_one) 2 with Some (_, p) => p | None => [] end.

Lemma seg_one_slot : slots seg_cfg seg_geom (lp_db seg_one) 2 = Some (Z.lor BLOB_DB_SLOT_F_SEALED BLOB_DB_SLOT_F_INDEXED, seg_record) /\ ids_of seg_record = [3; 4].
Proof. split; vm_compute; reflexivity. Qed.

(** Four bytes across the two segments. *)
Lemma segmented_write_patches_object_witness :
  let (r, s') := Large.pwrite_segmented seg_cfg seg_object seg_geom 2 18 [200; 201; 202; 203] seg_one in
  r = Ok tt /\ sets seg_cfg seg_object seg_geom demo_wf 65538 seg_one s' 2 (Some (patched 18 [200; 201; 202; 203] (ramp 40))).
Proof.
  assert (lroom seg_one 65538) as Hroom by (apply seg_room; by vm_compute).
  destruct seg_patch_ok as (Hb & Hb1 & Hb2).
  pose proof (wp_out _ _ _ (segmented_write_patches_object seg_cfg seg_object seg_geom seg_geom_ok seg_aligned demo_wf eq_refl seg_one 2 _ _ (ramp 40) 18
    [200; 201; 202; 203] (proj1 seg_one_session) (proj1 seg_one_slot) eq_refl seg_one_holds ltac:(lia) Hb1 Hb2 Hb Hroom)) as Hw.
  assert (fst (Large.pwrite_segmented seg_cfg seg_object seg_geom 2 18 [200; 201; 202; 203] seg_one) = Ok tt) as Hv by (vm_compute; reflexivity).
  destruct (Large.pwrite_segmented _ _ _ _ _ _ seg_one) as [r s']. cbn [fst] in Hv. subst r.
  change (Z.max _ _ <=? seg_object) with true in Hw. destruct Hw as [Hw|[Hw _]]; [exact Hw|discriminate Hw].
Defined.
