(* ===== verification/StoreCorrect.v ===== *)
(** What the development establishes of the UBI backend and of inspection, one
    theorem per property, and a concrete device and store they are applied to. *)

From Stdlib Require Import String.
From S2P Require Import Prelude Layout Store FlashStore Sim SlotIndexIface SlotIndexHash SlotIndexLaws.
From S2P Require Import Image Core CoreRead Lookup Append Bucket Compact CompactImage Recovery CompactSpec Ops.
From S2P Require Import OpsRead OpsWrite Master Mount MasterSpec MasterInv MountSpec Session Inspect UbiStore UbiSpec UbiSim.
From S2P Require Import Correctness Demo Witness.
Open Scope Z_scope.

Section backend.
Context (uo : ubi_options) {U : Type} `{!Ubi U}.
Implicit Types s : ubi_be U.

(** C19: opening a store without leave to discard writes nothing to a partition
    that holds bytes UBI does not recognise: the open is refused, the partition
    is byte for byte what it was, and the heap and the key store are given back
    what the open took. *)
Theorem ubi_open_spares_foreign_partition `{!PartView U} {PL : PartLaws U} `{!HeldView U} {HL : HeldLaws (U := U)} s :
  g_ubi s = false -> recognises (part (u_dev s)) = false -> all_erased (part (u_dev s)) = false ->
  wp (UbiBackend.blob_db_store_open uo false) s (fun r s' =>
    is_ok r = false /\ g_ubi s' = false /\ part (u_dev s') = part (u_dev s) /\ held (u_dev s') = held (u_dev s)).
Proof.
  intros Hg Hr He. pose proof (wp_out _ _ _ (open_spares uo s Hg Hr He)) as [H1 H2].
  pose proof (wp_out _ _ _ (open_takes uo false s Hg)) as [H3 H4]. apply wp_intro. intros r s' E. rewrite E in *. cbn [fst snd] in *.
  rewrite H1 in H3, H4. unfold gives in H4. rewrite !Z.add_0_r, <- surjective_pairing in H4. by split_and!.
Qed.

End backend.

Section inspect.
Context (cfg : config) (g : geom) `{Crc}.
Context {S I : Type} `{!Store S} `{!StoreView S} `{!SlotIndex I}.
Context (Hg : geom_ok cfg g) {SL : StoreLaws S (store_geom_of g)} {CL : CrcLaws _}.
Notation db := (db S I).
Implicit Types d : db.

(** C29: inspecting a bucket changes nothing. Its figures add up to the capacity
    and are those of the log: the live bytes are the image a compaction keeps, the
    objects those that count and iterate see, what is called free reads erased;
    the callback sees every slot once, the live ones being the survivors in
    order; and the compaction of the bucket would leave the same live bytes, no
    garbage and the rest free. An unformatted bucket is reported all free, and
    the one error is the device's. *)
Theorem inspection_accounts_for_bucket d bid :
  mounted (d_st d) = true -> 0 <= bid < n_buckets g ->
  wp (Inspect.blob_db_inspect_bucket_get cfg g bid true (Some (fun j js => (0, js ++ [j]))) []) d (fun r d' => ro d d' /\
    match r with
    | Err _ => False
    | Ok (Err e, o, js) => ~ healthy (d_store d) /\ device_err e /\ o = Inspect.empty_figures g false 0 /\ js = []
    | Ok (Ok rc, o, js) => rc = 0 /\
        let buf := bimg d bid in
        let l := bucket_log cfg g buf in
        if bucket_hdr_valid buf bid then
          accounts cfg g buf o /\ ib_objects o = len (bucket_objects cfg g d bid) /\
          len js = len l /\ si_offset <$> List.filter is_live js = e_off <$> survivors l /\
          let c := figures cfg g (committed g (compact_len cfg g buf) (compact_buf cfg g buf bid)) in
          live_bytes c = live_bytes o /\ garbage_bytes c = 0 /\ tail_bytes c = 0 /\ free_bytes c = peb_size g - compact_len cfg g buf
        else o = Inspect.empty_figures g false 0 /\ js = []
    end).
Proof.
  intros Hm Hb. eapply wp_mono; [exact (bucket_get_spec cfg g Hg d bid (fun j js => js ++ [j]) [] Hm Hb)|]. cbv beta.
  intros r d' [Hr Hq]. split; [done|]. destruct r as [[[[rc|e] o] js]|e]; [| |done]; [|tauto]. destruct Hq as [-> Hq]. split; [done|]. cbv zeta.
  pose proof (bimg_ok cfg g Hg d bid Hb) as Hok. destruct (bucket_hdr_valid (bimg d bid) bid) eqn:Hv; [|done].
  destruct Hq as [-> ->]. rewrite collect_slots, app_nil_l. pose proof (figures_account cfg g Hg _ Hok) as Ha.
  split; [done|]. split; [unfold bucket_objects; rewrite Hv; apply Ha|]. split; [apply length_judged|]. split.
  - apply judged_live. destruct (log_slots_fit cfg g Hg _ Hok) as [Hf _]. eapply list.Forall_impl; [exact Hf|]. by intros e (? & _).
  - apply (figures_compacted cfg g Hg _ bid); [done|]. by apply compact_buf_spec.
Qed.
End inspect.

(** ** A UBI device of six LEBs, in a build with atomic replace *)

Definition uo_demo : ubi_options := mk_ubi_options 4 1 true true 0 (fun _ => UBI_STATE_TRUSTED).

#[local] Instance udemo_ubi : Ubi usim := usim_ubi 256 8 6 10.
#[local] Instance udemo_view : UbiView usim := usim_view 256 6.
#[local] Instance udemo_part : PartView usim := usim_part 256 6.
#[local] Instance udemo_laws : UbiLaws 256 8 6 us_vol.
Proof. apply usim_laws; lia. Qed.
#[local] Instance udemo_part_laws : PartLaws usim.
Proof. apply usim_part_laws. lia. Qed.
#[local] Instance udemo_held_laws : HeldLaws (U := usim) := usim_held_laws 256 8 6 10.

Definition ubi_boot (c : ubi_content) : ubi_be usim := mk_ubi_be false UINT32_MAX 0 0 0 false (mk_usim c 0 0).

(** The first open of a blank partition makes a device and a volume of the free
    LEBs but the spares; the next finds them. *)
Example blank_partition_is_formatted :
  let (r, s) := UbiBackend.blob_db_store_open uo_demo false (ubi_boot Blank) in
  r = Ok (ubi_geom 256 8 6) /\ us_content (u_dev s) = Device (Some (replicate 6 (erased 256))) /\
  (let (r2, s2) := UbiBackend.blob_db_store_open uo_demo false (snd (UbiBackend.blob_db_store_close uo_demo s)) in
   r2 = Ok (ubi_geom 256 8 6) /\ us_heap (u_dev s2) = 1 /\ us_keys (u_dev s2) = 1).
Proof. vm_compute. done. Qed.

(** Another backend's store is refused, and discarded only when asked. *)
Definition foreign_store : bytes := replicate 300 66.

Lemma ubi_open_spares_foreign_partition_witness :
  wp (UbiBackend.blob_db_store_open uo_demo false) (ubi_boot (Foreign foreign_store)) (fun r s' =>
    is_ok r = false /\ g_ubi s' = false /\ part (u_dev s') = foreign_store /\ held (u_dev s') = (0, 0)) /\
  fst (UbiBackend.blob_db_store_open uo_demo false (ubi_boot (Foreign foreign_store))) = Err ENOTSUP /\
  fst (UbiBackend.blob_db_store_open uo_demo true (ubi_boot (Foreign foreign_store))) = Ok (ubi_geom 256 8 6).
Proof.
  split; [|by vm_compute].
  exact (ubi_open_spares_foreign_partition uo_demo (ubi_boot (Foreign foreign_store)) eq_refl eq_refl ltac:(by vm_compute)).
Defined.

Definition ubi_lebs : list bytes := replicate 6 (erased 256).

Lemma ubi_boot_inv : ub_inv 256 us_vol (ubi_boot (Device (Some ubi_lebs))).
Proof.
  split; [|done|done]. exists ubi_lebs. split; [done|]. split; [done|]. apply Forall_replicate, leb_ok_erased. lia.
Qed.

Notation udemo_S := (ubi_st (U := usim) 256 us_vol).
#[local] Instance udemo_store : Store udemo_S := ubi_store uo_demo 256 8 6 us_vol.
#[local] Instance udemo_store_view : StoreView udemo_S := ubi_view 256 us_vol.

Definition udemo_geom : geom := open_geom demo_cfg (ubi_geom 256 8 6).
Definition udemo_off : db udemo_S sidx := mk_db st_zero geo_zero sidx_zero (mk_ubi_st 256 us_vol _ ubi_boot_inv).

Lemma udemo_geom_ok : geom_ok demo_cfg udemo_geom.
Proof. apply open_geom_ok; by vm_compute. Qed.

Lemma udemo_aligned : geom_aligned udemo_geom.
Proof. split; by vm_compute. Qed.

Lemma udemo_opens : opens demo_cfg udemo_geom.
Proof. split; by vm_compute. Qed.


(** ** The bucket of object 2 in the demonstration store *)

Lemma demo_one_mounted : mounted (d_st demo_one) = true.
Proof. exact (lv_mounted _ _ _ _ (se_live _ _ _ _ demo_one_session)). Qed.

Lemma inspection_accounts_for_bucket_witness :
  exists o js d', Inspect.blob_db_inspect_bucket_get demo_cfg demo_geom 2 true (Some (fun j js => (0, js ++ [j]))) [] demo_one = (Ok (Ok 0, o, js), d') /\
  ro demo_one d' /\ accounts demo_cfg demo_geom (bimg demo_one 2) o /\ live_bytes o = 24 /\ free_bytes o = 216.
Proof.
  assert (0 <= 2 < n_buckets demo_geom) as Hb by (by vm_compute).
  pose proof (inspection_accounts_for_bucket demo_cfg demo_geom demo_geom_ok demo_one 2 demo_one_mounted Hb) as H.
  apply wp_out in H. cbv beta in H. destruct H as [H1 H2].
  assert (match fst (Inspect.blob_db_inspect_bucket_get demo_cfg demo_geom 2 true (Some (fun j js => (0, js ++ [j]))) [] demo_one) with
    | Ok (Ok rc, o, _) => (rc, live_bytes o, free_bytes o) | _ => (1, 0, 0) end = (0, 24, 216)) as E by (vm_compute; exact eq_refl).
  assert (bucket_hdr_valid (bimg demo_one 2) 2 = true) as Hv by (vm_compute; exact eq_refl).
  revert H1 H2 E. set (x := Inspect.blob_db_inspect_bucket_get _ _ _ _ _ _ _). destruct x as [[[[[rc|e] o] js]|e] d']; cbn [fst snd]; [|discriminate..].
  intros H1 [-> H2] E. cbv zeta in H2. rewrite Hv in H2. injection E as Hl Hf.
  exists o, js, d'. exact (conj eq_refl (conj H1 (conj (proj1 H2) (conj Hl Hf)))).
Defined.
