(* ===== verification/Findings.v ===== *)
(** Behaviour of the code at the edge of what its comments and documents say, on
    concrete stores. *)

From S2P Require Import Prelude Layout Store FlashStore Sim SlotIndexIface Image Core Compact Ops Master Mount.
From S2P Require Import MountSpec.
Import NoIndex.

(** A store without a RAM index on five sectors of 256 bytes with a write unit of
    [al]. *)
Section small.
Context (al : Z).
Notation P := 256.
#[local] Instance small_flash : FlashArea nor := nor_flash P al 5.
#[local] Instance small_store : Store (store_st (F := nor) P) := flash_store P.

Definition small_part (c : bytes) (fs : list bool) : store_st (F := nor) P :=
  mk_store_st P (mk_flash_be false P (mk_nor c fs)) (ltac:(done) : be_inv P (mk_flash_be false P (mk_nor c fs))).

Definition small_off (c : bytes) : db (store_st (F := nor) P) unit :=
  mk_db (mk_st false 0 0 0 false false 0 0 0 0 0 0 0 false 0 0) (mk_geom 0 0 0 0 0 0 0 false) tt (small_part c []).

(** Format, allocate an id and bind it twice to payloads of [n] bytes. *)
Definition bind_twice (cfg : config) (n : Z) : res unit * res unit * res unit :=
  let (r0, d) := blob_db_format cfg (small_off []) in
  let (_, d) := blob_db_alloc_id cfg d in
  let (r1, d) := blob_db_update cfg 2 (Some (replicate (Z.to_nat n) 7)) d in
  let (r2, _) := blob_db_update cfg 2 (Some (replicate (Z.to_nat n) 8)) d in
  (r0, r1, r2).

Fixpoint alloc_n (cfg : config) (k : nat) (d : db (store_st (F := nor) P) unit) : db (store_st (F := nor) P) unit :=
  match k with
  | O => d
  | Datatypes.S k => alloc_n cfg k (snd (blob_db_alloc_id cfg d))
  end.

(** The same RAM on a part that will fail as [fs] says, and the next boot. *)
Definition failing (fs : list bool) (d : db (store_st (F := nor) P) unit) : db (store_st (F := nor) P) unit :=
  mk_db (d_st d) (d_geo d) tt (small_part (cells (dev (be P (d_store d)))) fs).
Definition booted (d : db (store_st (F := nor) P) unit) : db (store_st (F := nor) P) unit := small_off (cells (dev (be P (d_store d)))).

(** An update of id 2 torn within the id of its slot, then a rotation of the
    master torn after its erase, then a mount: the next id. *)
Definition torn_then_boot (cfg : config) : res unit * res unit * Z :=
  let d := snd (blob_db_format cfg (small_off [])) in
  let d := alloc_n cfg 257 d in
  let d := snd (blob_db_update cfg 2 (Some []) d) in
  let (r1, d) := blob_db_update cfg 2 (Some []) (failing [false; false; false; true] d) in
  let d := snd (blob_db_alloc_id cfg (failing [false; true] d)) in
  let (r2, d) := blob_db_mount cfg (booted d) in
  (r1, r2, next_id (d_st d)).
End small.

Definition wide_cfg (n : Z) : config := mkconfig n 256 0 false false.

(** The largest payload [store_open_and_validate()] accepts for a 256-byte sector
    is rebound where slots are not padded, and with a 16-byte write unit it is
    bound once and every rebind fails with -ENOSPC: the check leaves out the
    padding. *)
Theorem rebind_needs_padding_too :
  open_err (wide_cfg 106) (flash_geom 256 16 5) = None /\
  bind_twice 1 (wide_cfg 106) 106 = (Ok tt, Ok tt, Ok tt) /\
  bind_twice 16 (wide_cfg 106) 106 = (Ok tt, Ok tt, Err ENOSPC).
Proof. split_and!; vm_compute; reflexivity. Qed.

(** The id scan of a mount in doubt takes ids from slots whose CRC it does not
    check: an update torn inside the id field makes it resume near 2^64. *)
Theorem torn_id_reaches_ceiling :
  torn_then_boot 1 (mkconfig 32 256 1 false false) = (Err EIO, Ok tt, 2 ^ 64 - 2 ^ 24 + 3).
Proof. vm_compute. reflexivity. Qed.
